(* ===== verification/_CoqProject ===== *)
-Q . S2P
Prelude.v
RustStd.v
Interfaces.v
Crypto.v
Errors.v
Network.v
Amount.v
Signing.v
Address.v
Transaction.v
Block.v
Pow.v
Consensus.v
State.v
Ledger.v
Chain.v
Genesis.v
NodeConfig.v
GenesisApproval.v
Storage.v
Mempool.v
Node.v
NodeOps.v
NodeMine.v
NodeTheory.v
NodeRun.v
Reputation.v
P2p.v
P2pService.v
P2pTheory.v
P2pSync.v
Nonce.v
MinerWork.v
GatewayConfig.v
Gateway.v
GatewayTheory.v
Indexer.v
IndexerTheory.v
Pool.v
PoolSplit.v
PoolTheory.v
PoolApp.v
PoolAppTheory.v
IpAddr.v
PoolSettings.v
Seed.v
Spend.v
GatewayIndexer.v
Sdk.v
MinerSettings.v
MinerLoop.v
MinerTheory.v
MinerCuda.v
MinerCudaTheory.v
PoolViews.v
PoolViewsTheory.v
SdkTheory.v
SdkClient.v
WalletStorage.v
Wallet.v
WalletTheory.v
HostProtocol.v
HostCli.v
HostTheory.v
MobileCore.v
Fleet.v
Updates.v
KeystoreHelper.v
Desktop.v
DesktopRpc.v
Toy.v
Examples.v
ExamplesNode.v
ExamplesFiles.v
ExamplesPool.v
ExamplesIndexer.v
ExamplesWallet.v
ExamplesP2p.v
ExamplesMiner.v
ExamplesDesktop.v
