(* ===== verification/Prelude.v ===== *)
(** * Vireon Network: a verification library

    ** The program

    Vireon is a proof-of-work chain of accounts with fixed supply.  The
    repository holds the protocol core ([vireon-core]), the full node with its
    peer-to-peer service ([vireon-node]), an RPC gateway over the node's files
    ([vireon-rpc-gateway]), an indexer ([vireon-indexer]), a mining pool
    ([vireon-mining-pool]), a CUDA miner ([vireon-miner]), a command-line wallet
    ([vireon-wallet]), a client SDK ([vireon-sdk-rust]) and desktop, browser,
    mobile and release programs around them.

    The node keeps the chain in a database and the pending transactions in a file.
    The gateway reads those files, hands out block templates and takes solutions
    back to the node's operations.  The pool is a client of the gateway and a server
    of miners: it reissues the gateway's template at a lower difficulty, records the
    shares, and splits the rewards of its blocks.  The miner is a client of either.
    Wallet and SDK sign transactions that the node's pool takes.  The theorems
    follow these paths: a template the node builds is accepted when solved
    ([Node.template_accepted]), what the gateway hands out builds at the miner
    (GatewayTheory.v), what the miner sends to the pool is recorded
    ([MinerTheory.pool_share_credited]), what the wallet signs is taken by the node
    ([WalletTheory.signed_file_taken]), what a node stores reaches its peers
    ([P2pSync.lagging_node_catches_up]) and its explorer
    ([IndexerTheory.sync_reaches_chain]).

    ** How the code is written here

    A function that may fail returns [result]; a method on [&mut self], or a handler
    over locks and files, is a [state_result]: it keeps the state it had reached on
    the error path, as the code does.  Rust's integers are [Z] with the wrap-around
    of release builds written out ([wrapping_add], [saturating_add], [checked_add],
    [uwrap]); strings are their UTF-8 bytes; a [BTreeMap] or [HashMap] is a [gmap],
    with the iteration order of a [HashMap] as an argument where the code shows it.
    Loops that are not structural carry fuel and give [None] without it; theorems
    show that enough fuel gives a result.  Names are those of the code, prefixed by
    the type or the file where two would clash ([Address_parse], [pool_history]).

    What the code reads from outside is an argument: clock readings (one argument
    for each reading), random ids, salts and bytes, outcomes of file writes, parsed
    file contents, HTTP answers, header texts, events and errors of libp2p, answers
    of the CUDA kernels.

    ** The files

    Foundations.
    - Prelude: results, state computations, machine integers, generic lemmas.
    - RustStd: bytes, text, [trim], [parse], [to_string], [contains], stable sorts;
      IpAddr: the standard library's address parser and printer.
    - Interfaces: classes [Primitives] (SHA-256, BLAKE3, Keccak, Bech32, ed25519,
      the native FiroPoW evaluation) and [PrimitivesOk], their documented laws.

    Protocol core, [vireon-core/src].
    - Crypto (crypto.rs), Errors (errors.rs), Network (constants.rs, network.rs,
      upgrade.rs, protocol.rs, standards.rs), Amount, Signing, Address, Transaction
      (files of those names), Block (block.rs, wire.rs), Pow (firopow.rs),
      Consensus (checkpoint.rs, consensus.rs), State and Ledger (state.rs and its
      theory), Chain (chain.rs), Genesis (genesis.rs), Seed (seed.rs), Spend (what
      a signed transfer is to a ledger).

    Node, [vireon-node/src].
    - NodeConfig, GenesisApproval (config.rs, the genesis part of devnet.rs),
      Storage (storage.rs), Mempool (mempool.rs), Node, NodeOps, NodeMine (devnet.rs:
      pool and templates, operations on files, mining), NodeTheory, NodeRun (devnet.rs:
      the node process, its status file and shutdown),
      Reputation (peer_reputation.rs), P2p and P2pService (p2p.rs: handlers; events
      and the tick), P2pTheory, P2pSync.

    Services.
    - GatewayConfig, Gateway, GatewayIndexer ([vireon-rpc-gateway/src]: config.rs;
      chain, transactions and mining of app.rs; status and explorer of app.rs) with
      GatewayTheory; Indexer, IndexerTheory
      ([vireon-indexer/src]).
    - Pool (store.rs), PoolSplit (its division of a reward), PoolTheory, PoolApp
      (handlers of app.rs), PoolAppTheory, PoolSettings (config.rs), PoolViews (pages,
      access and router of app.rs), PoolViewsTheory, all of
      [vireon-mining-pool/src].
    - MinerWork (protocol.rs, source.rs, mining.rs), Nonce (nonce.rs), MinerSettings
      (config.rs, sources, devices, coordinator), MinerCuda (backends/cuda.rs),
      MinerLoop (main.rs) with MinerTheory and MinerCudaTheory, all of
      [vireon-miner/src].

    Clients.
    - Sdk, SdkClient, SdkTheory ([vireon-sdk-rust/src]); WalletStorage, Wallet,
      WalletTheory ([vireon-wallet/src]); MobileCore ([vireon-mobile-core/src]).
    - HostProtocol (keystore.rs, native_messaging.rs, protocol.rs), HostCli (main.rs,
      confirm.rs) with HostTheory, all of [vireon-browser/host/src].
    - KeystoreHelper ([vireon-desktop-tauri/native/keystore-helper/src]); Desktop
      (settings.rs, process.rs), DesktopRpc (rpc.rs, pool.rs, notify.rs) and Updates
      (updates.rs) of [vireon-desktop-tauri/src-tauri/src].
    - Fleet: the controller of a release's fleet and its reporting agent
      ([vireon-release/vps-control-plane/admin-server/src]).

    Instances.  Toy is an instance of the primitives with their laws, Examples and
    the other Examples files run the definitions on a small network: every
    hypothesis of a theorem is met there.

    ** State and operations

    - [LedgerState] (State) is changed by [apply_block] and the operations below it;
      [Chain] (Chain) by [append_block]; the node's files [NodeState] by the
      operations of NodeOps and NodeMine, gathered as the steps [node_step] of
      NodeTheory; the node process by the turns [node_turn] of its loop (NodeRun); the peer-to-peer service by the events and the tick of P2pService,
      gathered as [p2p_step] of P2pTheory, which call those operations; the pool store by the operations of Pool, gathered as [pool_op] of
      PoolTheory, and the server by [pool_handle] (PoolViews); the gateway by its
      handlers over [NodeState] and its caches; the miner by [mine_turn]; the browser
      host by [handle] (HostProtocol); the keystore helper by [run_command]; the
      fleet's store by [fleet_handle]; the desktop's settings, processes, last
      snapshot, announcements and updates by [settings_op], [run_operator],
      [network_snapshot], [maybe_notify_mined_blocks] and [apply].
    - Atomic accesses of the nonce allocator interleave as the relation [step]
      (Nonce); all other state is behind a lock the code takes for the whole
      operation, so that an operation is one step.

    ** What the theorems show

    - Consensus: supply is conserved, no transaction is applied twice, emission ends
      below the cap, the difficulty moves at most four bits, blocks are accepted
      exactly by the declarative rules ([Consensus.validate_next_block_iff],
      [Ledger.apply_block_iff], [Chain.append_block_iff]); encodings and the Merkle
      root determine their contents, hash collisions apart.
    - Node: every run of its operations (submissions, pool reports, mined blocks,
      candidates, mining of the pool; not [mine_dev_blocks], which
      [mine_dev_blocks_strands] shows to strand a chain) keeps a valid stored chain,
      replaced by heavier ones only, and a well-formed pool; mined blocks,
      candidates, templates, submissions and genesis approval do exactly what they
      state, errors included.  The status file of a running node is that of its chain
      and pool as it last read them, going by the length and modification time of
      their files, and a shutdown request ends it.
    - Network: no sequence of messages breaks the service's tables or makes it store
      an invalid or lighter chain; a node behind an honest peer catches up, as long
      as the messages fit the limits of the codec, and never does where a batch of
      blocks does not.  Each report moves a peer's score and ban as it should.
    - Gateway, indexer, explorer: solutions are answered by what the node did with
      them, the index equals a rebuild and agrees with the ledger, pages list
      everything once.
    - Pool: the books balance through every operation and failed write, the mature
      balance by the changes of blocks and payouts one after the other; shares are
      work, rewards are split exactly, payouts need the administrator's token.
    - Miner: every request sent is a solution of work that was given, leases do not
      overlap, the loop ends only for stated reasons, devices share a batch exactly,
      and a share found for the pool's work is recorded by the pool as long as the
      work has not expired, whatever the pool does in between.
    - Wallet and SDK: files round trip, secrets stay encrypted on the main network,
      signed transfers are taken by the node they were made for.
    - Browser host: frames round trip and every request is answered in order; a
      transfer is signed only in a session that nothing has locked since, from the
      parameters, and confirmed where that is asked for; the keystore unlocks to the key it was made
      of.  The mobile core shows the account the SDK derives.
    - Desktop and release: the keystore helper submits what was previewed, an update
      installs only bytes whose digest its release lists (or, where a copy fails part
      way, a first part of them), settings stay within their bounds, the miner's
      configuration is one the miner takes, a chain that is shown was reported, mined
      blocks are announced once, and every node of the fleet was enrolled by an
      invitation of the administrator.

    ** Fuel and bounds

    The Merkle loop has the number of leaves as fuel, the locator loop the number of
    blocks, the emission loop 65 halvings, mining loops and [await_status] an argument with a
    theorem that says how much is enough; [select_pending] makes as many passes as
    the code's own limit of 64; synchronisation takes at most two rounds and two for
    each missing block.  Hypotheses [is_u64], [is_u8] and the like say that a value
    is of its Rust type.

    ** Third-party and native code

    Parameters of the model: the hash, signature, Bech32, BIP39, HMAC, Argon2, AES-GCM
    and Base64 crates and the native FiroPoW library (classes with documented laws);
    the native nonce search, whose threads race, so that every mining takes an outcome
    of its own, and the CUDA kernels, runtime and driver; the sizes of libp2p's
    messages and the texts of its failures; the metadata and torn copies of files; TOML, JSON and
    URL parsers, conversions of JSON values, header values, the hex crate, the peer-id
    parser and division of [f64].  SQLite is its tables of rows with transactions
    that roll back; peer ids are ordered as their text.

    ** Not modelled

    - The device code of the FiroPoW kernels and the native library (C++ and CUDA)
      and the loading of the driver library; FFI wrappers that only forward (search
      variants, export of the full data set, prewarming).
    - libp2p's transport, the addresses dialled, the node's identity file; the
      metrics and activity files, console output and hash rates of the miner; the
      node's list of peers, exported genesis files and backup directories; locks,
      schema, backup and migration of the SQLite file.
    - The command lines of wallet, indexer and node, which parse arguments and call
      the operations modelled here; the printed texts of the browser host's one-shot
      commands; the Android bindings of the mobile core; the pool's static pages.
    - [vireon-sdk-rust/src/protocol], text copies of the core's files; the SDK's
      blocking client, which repeats the asynchronous one.
    - Of the desktop application the windows and the tray, the registration of
      commands, the process of the keystore helper, the search for directories and
      binaries, log tails, seed files and health reports: input and output around the
      modelled parts.  The static pages and the HTTP layer of the release controller. *)

From stdpp Require Export base tactics option list numbers strings gmap sorting.
From Stdlib Require Export ZArith Lia.

#[global] Open Scope Z_scope.

Create HintDb vireon.

(** * Results: Rust's [Result<T, E>] *)

Inductive result (E A : Type) : Type :=
| Ok (a : A)
| Err (e : E).
Arguments Ok {E A} a.
Arguments Err {E A} e.

#[global] Instance result_eq_dec `{EqDecision E, EqDecision A} : EqDecision (result E A).
Proof. solve_decision. Defined.

#[global] Instance result_ret {E} : MRet (result E) := λ A a, Ok a.
#[global] Instance result_bind {E} : MBind (result E) := λ A B f r,
  match r with Ok a => f a | Err e => Err e end.
#[global] Instance result_fmap {E} : FMap (result E) := λ A B f r,
  match r with Ok a => Ok (f a) | Err e => Err e end.

(** [ok_or e o] is [Option::ok_or], [map_err f r] is [Result::map_err]. *)
Definition ok_or {E A} (e : E) (o : option A) : result E A :=
  match o with Some a => Ok a | None => Err e end.

Definition map_err {E F A} (f : E → F) (r : result E A) : result F A :=
  match r with Ok a => Ok a | Err e => Err (f e) end.

Definition unwrap_or {E A} (d : A) (r : result E A) : A :=
  match r with Ok a => a | Err _ => d end.

Definition is_ok {E A} (r : result E A) : bool :=
  match r with Ok _ => true | Err _ => false end.

Definition is_err {E A} (r : result E A) : bool := negb (is_ok r).

(** [ensure c e] is the guard [if !c { return Err(e) }]. *)
Definition ensure {E} (c : bool) (e : E) : result E () :=
  if c then Ok () else Err e.

(** [try_fold f s l] is [Iterator::try_fold], [try_each f l] a [for] loop whose
    body uses [?] and keeps no state. *)
Fixpoint try_fold {E S A} (f : S → A → result E S) (s : S) (l : list A) : result E S :=
  match l with
  | [] => Ok s
  | a :: l' => s' ← f s a; try_fold f s' l'
  end.

Definition try_each {E A} (f : A → result E ()) (l : list A) : result E () :=
  try_fold (λ _ a, f a) () l.

(** * [&mut] methods that may fail: state kept on the error path *)

Definition state_result (S E A : Type) : Type := S → result E A * S.

#[global] Instance state_result_ret {S E} : MRet (state_result S E) := λ A a s, (Ok a, s).
#[global] Instance state_result_bind {S E} : MBind (state_result S E) := λ A B f m s,
  match m s with
  | (Ok a, s') => f a s'
  | (Err e, s') => (Err e, s')
  end.

Definition sr_get {S E} : state_result S E S := λ s, (Ok s, s).
Definition sr_modify {S E} (f : S → S) : state_result S E () := λ s, (Ok (), f s).
Definition sr_lift {S E A} (r : result E A) : state_result S E A := λ s, (r, s).

Fixpoint sr_each {S E A} (f : A → state_result S E ()) (l : list A) : state_result S E () :=
  match l with
  | [] => mret ()
  | a :: l' => _ ← f a; sr_each f l'
  end.

(** State transformers around unbounded loops: [None] is "out of fuel". *)
Definition fueled (S E A : Type) : Type := S → option (result E A * S).

#[global] Instance fueled_bind {S E} : MBind (fueled S E) := λ A B f m s,
  match m s with
  | None => None
  | Some (Ok a, s') => f a s'
  | Some (Err e, s') => Some (Err e, s')
  end.

Definition fl_op {S E A} (m : state_result S E A) : fueled S E A := λ s, Some (m s).
Definition fl_loop {S E A} (r : option (result E A)) : fueled S E A := λ s, (λ x, (x, s)) <$> r.

(** * Machine integers: values in [Z], the width written out *)

Definition in_width (w z : Z) : Prop := 0 <= z < 2 ^ w.
Abbreviation is_u8 := (in_width 8).
Abbreviation is_u16 := (in_width 16).
Abbreviation is_u32 := (in_width 32).
Abbreviation is_u64 := (in_width 64).
Abbreviation is_u128 := (in_width 128).

#[global] Instance in_width_dec w z : Decision (in_width w z).
Proof. unfold in_width; apply _. Defined.

Definition umax (w : Z) : Z := 2 ^ w - 1.
Definition uwrap (w z : Z) : Z := z mod 2 ^ w.

Definition checked_add (w a b : Z) : option Z :=
  if a + b <=? umax w then Some (a + b) else None.
Definition checked_sub (a b : Z) : option Z :=
  if b <=? a then Some (a - b) else None.
Definition checked_mul (w a b : Z) : option Z :=
  if a * b <=? umax w then Some (a * b) else None.
Definition saturating_add (w a b : Z) : Z := Z.min (a + b) (umax w).
Definition saturating_sub (a b : Z) : Z := Z.max (a - b) 0.
Definition saturating_mul (w a b : Z) : Z := Z.min (a * b) (umax w).
Definition wrapping_add (w a b : Z) : Z := uwrap w (a + b).
Definition wrapping_mul (w a b : Z) : Z := uwrap w (a * b).
Definition abs_diff (a b : Z) : Z := Z.abs (a - b).
(** [checked_shl]: [None] when the shift amount reaches the width; bits shifted
    out are lost. *)
Definition checked_shl (w a s : Z) : option Z :=
  if s <? w then Some (uwrap w (Z.shiftl a s)) else None.
(** [clamp lo hi] asserts [lo <= hi] in Rust; every caller's bounds satisfy it. *)
Definition clamp (lo hi x : Z) : Z :=
  if x <? lo then lo else if hi <? x then hi else x.

(** * Lemmas on results *)

Section results.
Context {E A B : Type}.
Implicit Types (r : result E A) (f : A → result E B).

Lemma bind_Ok r f b : (r ≫= f) = Ok b ↔ ∃ a, r = Ok a ∧ f a = Ok b.
Proof.
  destruct r as [a|e]; simpl; split; [eauto | by intros (? & [= <-] & ?) | done | naive_solver].
Qed.

Lemma bind_Err r f e :
  (r ≫= f) = Err e ↔ r = Err e ∨ ∃ a, r = Ok a ∧ f a = Err e.
Proof. destruct r; simpl; naive_solver. Qed.

Lemma bind_assoc_result {C} r f (g : B → result E C) :
  ((r ≫= f) ≫= g) = (r ≫= λ a, f a ≫= g).
Proof. by destruct r. Qed.

Lemma bind_ext_Ok r f (g : A → result E B) :
  (∀ a, r = Ok a → f a = g a) → (r ≫= f) = (r ≫= g).
Proof. destruct r; naive_solver. Qed.

Lemma ensure_Ok c (e : E) u : ensure c e = Ok u ↔ c = true.
Proof. destruct c, u; naive_solver. Qed.

Lemma ensure_Err c (e e' : E) : ensure c e = Err e' ↔ c = false ∧ e' = e.
Proof. destruct c; naive_solver. Qed.

Lemma ok_or_Ok (o : option A) (e : E) a : ok_or e o = Ok a ↔ o = Some a.
Proof. destruct o; naive_solver. Qed.

Lemma ok_or_Err (o : option A) (e e' : E) : ok_or e o = Err e' ↔ o = None ∧ e' = e.
Proof. destruct o; naive_solver. Qed.

Lemma map_err_Ok {F} (g : E → F) r a : map_err g r = Ok a ↔ r = Ok a.
Proof. destruct r; naive_solver. Qed.

Lemma map_err_Err {F} (g : E → F) r e : map_err g r = Err e ↔ ∃ e0, r = Err e0 ∧ e = g e0.
Proof. destruct r; naive_solver. Qed.

(** A leading guard, and a leading unit check, of a successful computation. *)
Lemma if_Err_Ok (b : bool) (e : E) r a :
  (if b then Err e else r) = Ok a ↔ b = false ∧ r = Ok a.
Proof. destruct b; naive_solver. Qed.

Lemma if_negb_Err_Ok (b : bool) (e : E) r a :
  (if negb b then Err e else r) = Ok a ↔ b = true ∧ r = Ok a.
Proof. destruct b; naive_solver. Qed.

Lemma bind_unit_Ok (u : result E ()) (k : result E B) b :
  (u ≫= λ _, k) = Ok b ↔ u = Ok () ∧ k = Ok b.
Proof. destruct u as [[]|]; naive_solver. Qed.

Lemma bind_const_Ok r (k : result E B) b : (r ≫= λ _, k) = Ok b ↔ (∃ a, r = Ok a) ∧ k = Ok b.
Proof. destruct r; naive_solver. Qed.

Lemma is_ok_true r : is_ok r = true ↔ ∃ a, r = Ok a.
Proof. destruct r; naive_solver. Qed.

Lemma is_err_false r : is_err r = false ↔ ∃ a, r = Ok a.
Proof. destruct r; naive_solver. Qed.

End results.

Section folds.
Context {E S A : Type}.

Lemma try_fold_app (f : S → A → result E S) s l k :
  try_fold f s (l ++ k) = (try_fold f s l ≫= λ s', try_fold f s' k).
Proof.
  revert s; induction l as [|a l IH]; intros s; simpl; [done|].
  destruct (f s a); simpl; auto.
Qed.

Lemma try_fold_cons_Ok (f : S → A → result E S) s a l s' :
  try_fold f s (a :: l) = Ok s' ↔ ∃ s1, f s a = Ok s1 ∧ try_fold f s1 l = Ok s'.
Proof. apply bind_Ok. Qed.

(** An invariant of the loop body is an invariant of the loop. *)
Lemma try_fold_inv (P : S → Prop) (f : S → A → result E S) s l s' :
  P s → (∀ s0 a s1, a ∈ l → P s0 → f s0 a = Ok s1 → P s1) →
  try_fold f s l = Ok s' → P s'.
Proof.
  revert s; induction l as [|a l IH]; intros s Hs Hstep; simpl; [by intros [= <-]|].
  intros (s1 & H1 & H2)%bind_Ok.
  refine (IH s1 _ _ H2).
  - refine (Hstep _ _ _ _ Hs H1); left.
  - intros s0 b s2 Hb; apply Hstep; by right.
Qed.

Lemma try_each_Ok (f : A → result E ()) l :
  try_each f l = Ok () ↔ Forall (λ a, f a = Ok ()) l.
Proof.
  unfold try_each; induction l as [|a l IH]; simpl; [split; auto|].
  rewrite bind_Ok, Forall_cons, <- IH; split.
  - intros ([] & ? & ?); auto.
  - intros [? ?]; exists (); auto.
Qed.

Lemma try_each_Err_inv (f : A → result E ()) l e :
  try_each f l = Err e → ∃ a, a ∈ l ∧ f a = Err e.
Proof.
  unfold try_each; induction l as [|a l IH]; simpl; [done|].
  rewrite bind_Err; intros [H|([] & ? & (b & ? & ?)%IH)].
  - exists a; split; [left | done].
  - exists b; split; [by right | done].
Qed.

End folds.

(** * Lemmas on fallible state transformers *)

Section state_results.
Context {S E A B : Type}.

Lemma sr_bind_Ok (m : state_result S E A) (f : A → state_result S E B) s b s' :
  (m ≫= f) s = (Ok b, s') ↔ ∃ a s1, m s = (Ok a, s1) ∧ f a s1 = (Ok b, s').
Proof.
  unfold mbind, state_result_bind; destruct (m s) as [[a|e] s1]; naive_solver.
Qed.

Lemma sr_bind_Err (m : state_result S E A) (f : A → state_result S E B) s e s' :
  (m ≫= f) s = (Err e, s') ↔
  m s = (Err e, s') ∨ ∃ a s1, m s = (Ok a, s1) ∧ f a s1 = (Err e, s').
Proof.
  unfold mbind, state_result_bind; destruct (m s) as [[a|e0] s1]; naive_solver.
Qed.

Lemma sr_lift_eq (r : result E A) (s : S) : sr_lift r s = (r, s).
Proof. done. Qed.

Lemma sr_get_eq (s : S) : sr_get (E := E) s = (Ok s, s).
Proof. done. Qed.

Lemma sr_modify_eq (f : S → S) s : sr_modify (E := E) f s = (Ok (), f s).
Proof. done. Qed.

Lemma sr_ret_eq (a : A) (s : S) : (mret a : state_result S E A) s = (Ok a, s).
Proof. done. Qed.

End state_results.

Lemma sr_each_app {S E A} (f : A → state_result S E ()) l k s :
  sr_each f (l ++ k) s =
  match sr_each f l s with (Ok _, s') => sr_each f k s' | (Err e, s') => (Err e, s') end.
Proof.
  revert s; induction l as [|a l IH]; intros s; simpl; [done|].
  unfold mbind, state_result_bind; destruct (f a s) as [[[]|e] s1]; auto.
Qed.

(** * Automation: peel a successful [Result] computation *)

Ltac res_step :=
  match goal with
  | H : Ok _ = Ok _ |- _ => injection H as H; try subst
  | H : Err _ = Err _ |- _ => injection H as H; try subst
  | H : Some _ = Some _ |- _ => injection H as H; try subst
  | H : Ok _ = Err _ |- _ => discriminate H
  | H : Err _ = Ok _ |- _ => discriminate H
  | H : (_, _) = (_, _) |- _ => injection H as H; try subst
  | H : mret _ = _ |- _ => unfold mret, result_ret in H
  | H : mbind _ _ = Ok _ |- _ =>
      apply bind_Ok in H; destruct H as (? & ? & ?)
  | H : mbind _ _ _ = (Ok _, _) |- _ =>
      apply sr_bind_Ok in H; destruct H as (? & ? & ? & ?)
  | H : ensure _ _ = Ok _ |- _ => apply ensure_Ok in H
  | H : ok_or _ _ = Ok _ |- _ => apply ok_or_Ok in H
  | H : map_err _ _ = Ok _ |- _ => apply map_err_Ok in H
  | H : sr_lift _ _ = _ |- _ => rewrite sr_lift_eq in H
  | H : sr_get _ = _ |- _ => rewrite sr_get_eq in H
  | H : sr_modify _ _ = _ |- _ => rewrite sr_modify_eq in H
  | H : try_each _ _ = Ok ?u |- _ => destruct u; apply try_each_Ok in H
  | u : unit |- _ => destruct u
  end.

Ltac res_inv := repeat (res_step; simpl in *).

(** Split an [if] whose taken branch is an error. *)
Ltac guard_inv :=
  repeat match goal with
  | H : context [if ?b then Err _ else _] |- _ =>
      let E := fresh "Hg" in destruct b eqn:E; [discriminate H|]
  end.

(** Reflect boolean comparisons into propositions, then use [lia]. *)
Ltac breflect :=
  repeat match goal with
  | H : (_ && _)%bool = true |- _ => apply andb_true_iff in H; destruct H
  | H : (_ || _)%bool = false |- _ => apply orb_false_iff in H; destruct H
  | H : negb _ = true |- _ => apply negb_true_iff in H
  | H : negb _ = false |- _ => apply negb_false_iff in H
  | H : (_ =? _) = true |- _ => apply Z.eqb_eq in H
  | H : (_ =? _) = false |- _ => apply Z.eqb_neq in H
  | H : (_ <? _) = true |- _ => apply Z.ltb_lt in H
  | H : (_ <? _) = false |- _ => apply Z.ltb_ge in H
  | H : (_ <=? _) = true |- _ => apply Z.leb_le in H
  | H : (_ <=? _) = false |- _ => apply Z.leb_gt in H
  | H : bool_decide _ = true |- _ => apply bool_decide_eq_true in H
  | H : bool_decide _ = false |- _ => apply bool_decide_eq_false in H
  end.

Ltac blia := breflect; lia.

(** * Lemmas on machine integers *)

Lemma checked_add_iff w a b c : checked_add w a b = Some c ↔ c = a + b ∧ a + b <= umax w.
Proof.
  unfold checked_add. destruct (a + b <=? umax w) eqn:E; breflect; split;
    [by intros [= <-] | by intros [-> _] | done | intros [_ ?]; exfalso; lia].
Qed.

Lemma checked_sub_iff a b c : checked_sub a b = Some c ↔ c = a - b ∧ b <= a.
Proof.
  unfold checked_sub. destruct (b <=? a) eqn:E; breflect; split;
    [by intros [= <-] | by intros [-> _] | done | intros [_ ?]; exfalso; lia].
Qed.

Lemma checked_mul_iff w a b c : checked_mul w a b = Some c ↔ c = a * b ∧ a * b <= umax w.
Proof.
  unfold checked_mul. destruct (a * b <=? umax w) eqn:E; breflect; split;
    [by intros [= <-] | by intros [-> _] | done | intros [_ ?]; exfalso; lia].
Qed.

Lemma checked_add_Some w a b : a + b <= umax w → checked_add w a b = Some (a + b).
Proof. intros. by apply checked_add_iff. Qed.

Lemma checked_mul_Some w a b : a * b <= umax w → checked_mul w a b = Some (a * b).
Proof. intros. by apply checked_mul_iff. Qed.

Lemma umax_64 : umax 64 = 18446744073709551615.
Proof. reflexivity. Qed.

Lemma umax_128 : umax 128 = 340282366920938463463374607431768211455.
Proof. reflexivity. Qed.

Lemma clamp_range lo hi x : lo <= hi → lo <= clamp lo hi x <= hi.
Proof. unfold clamp. destruct (x <? lo) eqn:?, (hi <? x) eqn:?; blia. Qed.

Lemma clamp_id lo hi x : lo <= x <= hi → clamp lo hi x = x.
Proof. unfold clamp. destruct (x <? lo) eqn:?, (hi <? x) eqn:?; blia. Qed.

Lemma clamp_spec lo hi x : lo <= hi → clamp lo hi x = Z.max lo (Z.min x hi).
Proof. unfold clamp. destruct (x <? lo) eqn:?, (hi <? x) eqn:?; blia. Qed.

#[export] Hint Resolve clamp_range checked_add_Some checked_mul_Some : vireon.

Lemma sr_lift_bind {S E A B} (r : result E A) (f : A → state_result S E B) s :
  (sr_lift r ≫= f) s = match r with Ok a => f a s | Err e => (Err e, s) end.
Proof. unfold mbind, state_result_bind. rewrite sr_lift_eq. by destruct r. Qed.

Lemma sr_get_bind {S E B} (f : S → state_result S E B) s : (sr_get ≫= f) s = f s s.
Proof. done. Qed.

Lemma sr_modify_bind {S E B} (g : S → S) (f : () → state_result S E B) s :
  (sr_modify g ≫= f) s = f () (g s).
Proof. done. Qed.

Lemma sr_bind_step {S E A B} (m : state_result S E A) (f : A → state_result S E B) s a s' :
  m s = (Ok a, s') → (m ≫= f) s = f a s'.
Proof. unfold mbind, state_result_bind. by intros ->. Qed.

Lemma forallb_is_Forall {A} (f : A → bool) l : forallb f l = true ↔ Forall (λ x, f x = true) l.
Proof.
  induction l as [|x l IH]; simpl; [split; auto|]. rewrite andb_true_iff, Forall_cons, IH. done.
Qed.

Lemma existsb_false_Forall {A} (f : A → bool) l : existsb f l = false ↔ Forall (λ x, f x = false) l.
Proof.
  induction l as [|x l IH]; simpl; [split; auto|]. rewrite orb_false_iff, Forall_cons, IH. done.
Qed.

(** ** Fuelled state transformers *)

Section fueled.
Context {S E A B : Type}.

Lemma fl_bind_Some (m : fueled S E A) (f : A → fueled S E B) s r s' :
  (m ≫= f) s = Some (r, s') ↔
  (∃ a s1, m s = Some (Ok a, s1) ∧ f a s1 = Some (r, s')) ∨ (∃ e, m s = Some (Err e, s') ∧ r = Err e).
Proof.
  unfold mbind, fueled_bind. destruct (m s) as [[[a|e] s1]|]; naive_solver.
Qed.

Lemma fl_op_bind (m : state_result S E A) (f : A → fueled S E B) s :
  (fl_op m ≫= f) s = match m s with (Ok a, s') => f a s' | (Err e, s') => Some (Err e, s') end.
Proof. done. Qed.

Lemma fl_loop_bind (r : option (result E A)) (f : A → fueled S E B) s :
  (fl_loop r ≫= f) s = match r with Some (Ok a) => f a s | Some (Err e) => Some (Err e, s) | None => None end.
Proof. unfold mbind, fueled_bind, fl_loop. by destruct r as [[]|]. Qed.

End fueled.
