(* ===== verification/RustStd.v ===== *)
(** The parts of Rust's standard library the code uses on bytes, strings and
    slices: [u8] as [Byte.byte], [String] as its UTF-8 bytes in [string],
    little/big-endian integer encodings, [str::trim], [str::parse],
    [u64::to_string], [str::contains] and the stable [slice::sort_by]. *)

From S2P Require Import Prelude.
From Stdlib Require Export Strings.Byte Strings.Ascii Strings.String.
From stdpp Require Export strings.

#[global] Open Scope Z_scope.

(** * Bytes *)

Abbreviation bytes := (list byte).

#[global] Instance byte_eq_decision : EqDecision byte := Byte.byte_eq_dec.

Definition byte_Z (b : byte) : Z := Z.of_N (Byte.to_N b).
Definition byte_of_Z (z : Z) : byte :=
  match Byte.of_N (Z.to_N (z mod 256)) with Some b => b | None => x00 end.

Lemma byte_Z_range b : 0 <= byte_Z b < 256.
Proof. unfold byte_Z. pose proof (Byte.to_N_bounded b). lia. Qed.

Lemma byte_Z_of_Z z : byte_Z (byte_of_Z z) = z mod 256.
Proof.
  unfold byte_Z, byte_of_Z.
  pose proof (Z.mod_pos_bound z 256 ltac:(lia)) as Hb.
  destruct (Byte.of_N (Z.to_N (z mod 256))) as [b|] eqn:E.
  - apply Byte.to_of_N in E. rewrite E. lia.
  - apply Byte.of_N_None_iff in E. lia.
Qed.

Lemma byte_of_Z_byte b : byte_of_Z (byte_Z b) = b.
Proof.
  unfold byte_of_Z. rewrite Z.mod_small by apply byte_Z_range.
  unfold byte_Z. by rewrite N2Z.id, Byte.of_to_N.
Qed.

Lemma byte_Z_inj a b : byte_Z a = byte_Z b → a = b.
Proof. intros H. by rewrite <- (byte_of_Z_byte a), H, byte_of_Z_byte. Qed.

(** [to_le_bytes] / [to_be_bytes] of an [8 * n]-bit integer. *)
Fixpoint le_bytes (n : nat) (z : Z) : bytes :=
  match n with
  | O => []
  | S n' => byte_of_Z z :: le_bytes n' (z / 256)
  end.

Definition be_bytes (n : nat) (z : Z) : bytes := reverse (le_bytes n z).

Fixpoint le_value (l : bytes) : Z :=
  match l with [] => 0 | b :: l' => byte_Z b + 256 * le_value l' end.

(** Big-endian value of a byte string. *)
Definition be_value (l : bytes) : Z := fold_left (λ acc b, 256 * acc + byte_Z b) l 0.

Lemma length_le_bytes n z : length (le_bytes n z) = n.
Proof. revert z; induction n; simpl; auto. Qed.

Lemma le_value_le_bytes n z : le_value (le_bytes n z) = z mod 256 ^ Z.of_nat n.
Proof.
  revert z; induction n as [|n IH]; intros z; [by rewrite Z.mod_1_r|].
  cbn [le_bytes le_value]. rewrite IH, byte_Z_of_Z, Nat2Z.inj_succ, Z.pow_succ_r by lia.
  rewrite Z.rem_mul_r; lia.
Qed.

Lemma le_bytes_inj n a b :
  0 <= a < 256 ^ Z.of_nat n → 0 <= b < 256 ^ Z.of_nat n →
  le_bytes n a = le_bytes n b → a = b.
Proof.
  intros Ha Hb H%(f_equal le_value). rewrite !le_value_le_bytes in H.
  by rewrite !Z.mod_small in H.
Qed.

Lemma le_bytes_inj_u32 a b : is_u32 a → is_u32 b → le_bytes 4 a = le_bytes 4 b → a = b.
Proof. apply (le_bytes_inj 4). Qed.

Lemma le_bytes_inj_u64 a b : is_u64 a → is_u64 b → le_bytes 8 a = le_bytes 8 b → a = b.
Proof. apply (le_bytes_inj 8). Qed.

Lemma be_value_app l k : be_value (l ++ k) = be_value l * 256 ^ Z.of_nat (length k) + be_value k.
Proof.
  unfold be_value. rewrite fold_left_app. generalize (fold_left (λ acc b, 256 * acc + byte_Z b) l 0).
  induction k as [|b k IH] using rev_ind; intros z; [simpl; lia|].
  rewrite !fold_left_app, length_app. simpl. rewrite IH, Nat2Z.inj_add.
  rewrite Z.pow_add_r by lia. change (256 ^ Z.of_nat 1) with 256. lia.
Qed.

Lemma be_value_cons b l : be_value (b :: l) = byte_Z b * 256 ^ Z.of_nat (length l) + be_value l.
Proof. change (b :: l) with ([b] ++ l). rewrite be_value_app. unfold be_value at 1. simpl. lia. Qed.

Lemma be_value_range l : 0 <= be_value l < 256 ^ Z.of_nat (length l).
Proof.
  induction l as [|b l IH]; [unfold be_value; simpl; lia|].
  rewrite be_value_cons, length_cons, Nat2Z.inj_succ, Z.pow_succ_r by lia.
  pose proof (byte_Z_range b). nia.
Qed.

(** * Strings *)

Definition str_bytes (s : string) : bytes := list_byte_of_string s.
Definition str_of_bytes (l : bytes) : string := string_of_list_byte l.

Lemma str_bytes_inj s t : str_bytes s = str_bytes t → s = t.
Proof.
  intros H%(f_equal string_of_list_byte).
  by rewrite !string_of_list_byte_of_string in H.
Qed.

Lemma str_of_bytes_bytes s : str_of_bytes (str_bytes s) = s.
Proof. apply string_of_list_byte_of_string. Qed.

Lemma str_bytes_of_bytes l : str_bytes (str_of_bytes l) = l.
Proof. apply list_byte_of_string_of_list_byte. Qed.

(** [str::len] counts bytes. *)
Definition str_len (s : string) : Z := Z.of_nat (length (str_bytes s)).

Definition str_is_empty (s : string) : bool := bool_decide (s = ""%string).

(** [str::trim]: strips the Unicode [White_Space] characters at both ends, by
    their UTF-8 encodings (one, two or three bytes). *)
Definition ascii_ws (b : byte) : bool :=
  let z := byte_Z b in ((9 <=? z) && (z <=? 13) || (z =? 32))%bool.
Definition ws2 (a b : byte) : bool :=
  ((byte_Z a =? 194) && ((byte_Z b =? 133) || (byte_Z b =? 160)))%bool.
Definition ws3 (a b c : byte) : bool :=
  let '(x, y, z) := (byte_Z a, byte_Z b, byte_Z c) in
  ((x =? 225) && (y =? 154) && (z =? 128) ||
   (x =? 226) && (y =? 128) && ((128 <=? z) && (z <=? 138) || (z =? 168) || (z =? 169) || (z =? 175)) ||
   (x =? 226) && (y =? 129) && (z =? 159) ||
   (x =? 227) && (y =? 128) && (z =? 128))%bool.

Fixpoint trim_front (w2 : byte → byte → bool) (w3 : byte → byte → byte → bool) (l : bytes) : bytes :=
  match l with
  | [] => []
  | a :: l1 =>
      if ascii_ws a then trim_front w2 w3 l1 else
      match l1 with
      | [] => l
      | b :: l2 =>
          if w2 a b then trim_front w2 w3 l2 else
          match l2 with
          | [] => l
          | c :: l3 => if w3 a b c then trim_front w2 w3 l3 else l
          end
      end
  end.

Definition trim_start : bytes → bytes := trim_front ws2 ws3.
(** The same on the reversed byte string, the encodings read backwards. *)
Definition trim_end_rev : bytes → bytes := trim_front (λ a b, ws2 b a) (λ a b c, ws3 c b a).

Definition trim_bytes (l : bytes) : bytes := reverse (trim_end_rev (reverse (trim_start l))).
Definition str_trim (s : string) : string := str_of_bytes (trim_bytes (str_bytes s)).

(** Printable ASCII strings are their own trimming. *)
Definition graphic (b : byte) : bool := ((33 <=? byte_Z b) && (byte_Z b <=? 126))%bool.

Lemma graphic_not_ws a : graphic a = true →
  ascii_ws a = false ∧ (∀ b, ws2 a b = false) ∧ (∀ b, ws2 b a = false) ∧
  (∀ b c, ws3 a b c = false) ∧ (∀ b c, ws3 c b a = false).
Proof.
  unfold graphic; intros H; breflect.
  repeat split; unfold ascii_ws, ws2, ws3; intros;
    repeat match goal with |- context [byte_Z a =? ?k] =>
      replace (byte_Z a =? k) with false by (symmetry; apply Z.eqb_neq; lia) end;
    rewrite ?andb_false_l, ?andb_false_r, ?orb_false_l; try done.
  - destruct (9 <=? _) eqn:?, (_ <=? 13) eqn:?; simpl; try done; breflect; lia.
  - destruct (128 <=? byte_Z a) eqn:E; [breflect; lia|].
    simpl. by rewrite !andb_false_r.
Qed.

Lemma trim_start_graphic a l : graphic a = true → trim_start (a :: l) = a :: l.
Proof.
  intros (H1 & H2 & _ & H3 & _)%graphic_not_ws. unfold trim_start. simpl. rewrite H1.
  destruct l as [|b [|c l]]; simpl; rewrite ?H2, ?H3; done.
Qed.

Lemma trim_end_rev_graphic a l : graphic a = true → trim_end_rev (a :: l) = a :: l.
Proof.
  intros (H1 & _ & H2 & _ & H3)%graphic_not_ws. unfold trim_end_rev. simpl. rewrite H1.
  destruct l as [|b [|c l]]; simpl; rewrite ?H2, ?H3; done.
Qed.

Lemma trim_bytes_graphic l : Forall (λ b, graphic b = true) l → trim_bytes l = l.
Proof.
  intros Hl. unfold trim_bytes.
  assert (Hs : trim_start l = l).
  { destruct l as [|a l]; [done|]. inversion Hl; subst. by apply trim_start_graphic. }
  rewrite Hs. destruct (reverse l) as [|a k] eqn:E.
  - by rewrite <- (reverse_involutive l), E.
  - rewrite trim_end_rev_graphic.
    + by rewrite <- E, reverse_involutive.
    + apply Forall_reverse in Hl. rewrite E in Hl. by inversion Hl.
Qed.

(** Trimming is idempotent. *)
Section trimming.
Context (w2 : byte → byte → bool) (w3 : byte → byte → byte → bool).
#[local] Abbreviation trim := (trim_front w2 w3).

Lemma trim_front_suffix l : ∃ p, l = p ++ trim l.
Proof.
  induction l as [l IH] using (induction_ltof1 _ (@length byte)). unfold ltof in IH.
  destruct l as [|a [|b [|c l]]]; cbn [trim_front]; [by exists []|..].
  - destruct (ascii_ws a); [by exists [a] | by exists []].
  - destruct (ascii_ws a); [|destruct (w2 a b); [by exists [a; b] | by exists []]].
    destruct (IH [b]) as [p Hp]; [simpl; lia|]. exists (a :: p). cbn [app]. by f_equal.
  - destruct (ascii_ws a); [|destruct (w2 a b); [|destruct (w3 a b c); [|by exists []]]].
    + destruct (IH (b :: c :: l)) as [p Hp]; [simpl; lia|]. exists (a :: p). cbn [app]. by f_equal.
    + destruct (IH (c :: l)) as [p Hp]; [simpl; lia|]. exists (a :: b :: p). cbn [app]. by do 2 f_equal.
    + destruct (IH l) as [p Hp]; [simpl; lia|]. exists (a :: b :: c :: p). cbn [app]. by do 3 f_equal.
Qed.

Lemma trim_front_le l : (length (trim l) <= length l)%nat.
Proof. destruct (trim_front_suffix l) as [p Hp]. rewrite Hp at 2. rewrite length_app. lia. Qed.

Lemma trim_front_cons a b k :
  trim (a :: b :: k) =
    if ascii_ws a then trim (b :: k) else if w2 a b then trim k else
    match k with
    | c :: k' => if w3 a b c then trim k' else a :: b :: k
    | [] => a :: b :: k
    end.
Proof. by destruct k. Qed.

Lemma trim_front_idemp l : trim (trim l) = trim l.
Proof.
  induction l as [l IH] using (induction_ltof1 _ (@length byte)). unfold ltof in IH.
  destruct l as [|a [|b k]]; [done|..].
  - cbn [trim_front]. destruct (ascii_ws a) eqn:E; cbn [trim_front]; by rewrite ?E.
  - pose proof (trim_front_cons a b k) as Hk. rewrite Hk.
    destruct (ascii_ws a) eqn:E; [apply IH; simpl; lia|].
    destruct (w2 a b) eqn:E2; [apply IH; simpl; lia|]. destruct k as [|c k]; [exact Hk|].
    destruct (w3 a b c) eqn:E3; [apply IH; simpl; lia | exact Hk].
Qed.

(** A prefix of a string without leading white space has none. *)
Lemma trim_front_prefix l k : trim (l ++ k) = l ++ k → trim l = l.
Proof.
  assert (∀ u v : bytes, trim u = v → (length u < length v)%nat → False) as Hno.
  { intros u v <- Hlt. pose proof (trim_front_le u). lia. }
  destruct l as [|a [|b l]]; cbn [app]; [done|..].
  - destruct k as [|b k]; [done|]. rewrite trim_front_cons.
    destruct (ascii_ws a) eqn:E; [|by cbn [trim_front]; rewrite E]. intros Ht. exfalso. apply (Hno _ _ Ht). simpl. lia.
  - rewrite !trim_front_cons. destruct (ascii_ws a); [intros Ht; exfalso; apply (Hno _ _ Ht); simpl; lia|].
    destruct (w2 a b); [intros Ht; exfalso; apply (Hno _ _ Ht); simpl; lia|].
    destruct l as [|c l]; [done|]. cbn [app]. destruct (w3 a b c); [|done].
    intros Ht; exfalso; apply (Hno _ _ Ht); simpl; lia.
Qed.

End trimming.

Lemma trim_bytes_idemp l : trim_bytes (trim_bytes l) = trim_bytes l.
Proof.
  assert (trim_start (trim_bytes l) = trim_bytes l) as Hs.
  { destruct (trim_front_suffix (λ a b, ws2 b a) (λ a b c, ws3 c b a) (reverse (trim_start l))) as [p Hp].
    apply (f_equal reverse) in Hp. rewrite reverse_involutive, reverse_app in Hp.
    apply (trim_front_prefix _ _ _ (reverse p)). unfold trim_bytes, trim_end_rev. rewrite <- Hp.
    apply trim_front_idemp. }
  unfold trim_bytes at 1. rewrite Hs. unfold trim_bytes. rewrite reverse_involutive.
  f_equal. apply trim_front_idemp.
Qed.

Lemma str_trim_idemp s : str_trim (str_trim s) = str_trim s.
Proof. unfold str_trim. by rewrite str_bytes_of_bytes, trim_bytes_idemp. Qed.

Lemma str_trim_graphic s :
  Forall (λ b, graphic b = true) (str_bytes s) → str_trim s = s.
Proof. intros H. unfold str_trim. by rewrite trim_bytes_graphic, str_of_bytes_bytes. Qed.

(** * Decimal text of unsigned integers *)

Definition digit_byte (d : Z) : byte := byte_of_Z (48 + d).
Definition byte_digit (b : byte) : option Z :=
  if ((48 <=? byte_Z b) && (byte_Z b <=? 57))%bool then Some (byte_Z b - 48) else None.

(** Decimal digits, most significant first; 39 digits cover [u128]. *)
Fixpoint dec_digits (fuel : nat) (z : Z) : list Z :=
  match fuel with
  | O => []
  | S f => if z <? 10 then [z] else dec_digits f (z / 10) ++ [z mod 10]
  end.

Definition uint_bytes (z : Z) : bytes := digit_byte <$> dec_digits 39 z.
Definition uint_to_string (z : Z) : string := str_of_bytes (uint_bytes z).

(** Decimal text of a signed integer. *)
Definition int_to_string (z : Z) : string :=
  if z <? 0 then ("-" ++ uint_to_string (- z))%string else uint_to_string z.

(** [from_str_radix(_, 10)] for an unsigned type of [w] bits: an optional leading
    ['+'], at least one digit, digits accumulated with overflow checks. *)
Fixpoint parse_digits (w : Z) (acc : Z) (l : bytes) : option Z :=
  match l with
  | [] => Some acc
  | b :: l' =>
      d ← byte_digit b;
      acc10 ← checked_mul w acc 10;
      acc' ← checked_add w acc10 d;
      parse_digits w acc' l'
  end.

Definition parse_uint_bytes (w : Z) (l : bytes) : option Z :=
  match l with
  | [] => None
  | [b] => if ((byte_Z b =? 43) || (byte_Z b =? 45))%bool then None else parse_digits w 0 l
  | b :: l' => if byte_Z b =? 43 then parse_digits w 0 l' else parse_digits w 0 l
  end.

Definition parse_uint (w : Z) (s : string) : option Z := parse_uint_bytes w (str_bytes s).

Lemma byte_digit_byte d : 0 <= d < 10 → byte_digit (digit_byte d) = Some d.
Proof.
  intros Hd. unfold byte_digit, digit_byte. rewrite byte_Z_of_Z, Z.mod_small by lia.
  rewrite (proj2 (Z.leb_le _ _)), (proj2 (Z.leb_le _ _)) by lia. simpl. f_equal; lia.
Qed.

Lemma byte_Z_digit_byte d : 0 <= d < 10 → byte_Z (digit_byte d) = 48 + d.
Proof. intros. unfold digit_byte. by rewrite byte_Z_of_Z, Z.mod_small by lia. Qed.

Lemma dec_digits_range fuel z : 0 <= z → Forall (λ d, 0 <= d < 10) (dec_digits fuel z).
Proof.
  revert z; induction fuel as [|f IH]; intros z Hz; simpl; [done|].
  destruct (z <? 10) eqn:E; breflect; [by repeat constructor; lia|].
  apply Forall_app; split; [apply IH; apply Z.div_pos; lia|].
  repeat constructor; pose proof (Z.mod_pos_bound z 10); lia.
Qed.

Lemma dec_digits_nonempty fuel z : (0 < fuel)%nat → dec_digits fuel z ≠ [].
Proof. destruct fuel; simpl; [lia|]. destruct (z <? 10); [done|]. by intros _ []%app_nil. Qed.

Lemma parse_digits_app w acc l k :
  parse_digits w acc (l ++ k) = (parse_digits w acc l ≫= λ a, parse_digits w a k).
Proof.
  revert acc; induction l as [|b l IH]; intros acc; simpl; [done|].
  destruct (byte_digit b); simpl; [|done].
  destruct (checked_mul w acc 10); simpl; [|done].
  destruct (checked_add _ _ _); simpl; auto.
Qed.

Lemma parse_digits_dec w fuel z :
  0 <= z <= umax w → z < 10 ^ Z.of_nat fuel → (0 < fuel)%nat →
  parse_digits w 0 (digit_byte <$> dec_digits fuel z) = Some z.
Proof.
  revert z; induction fuel as [|f IH]; intros z Hz Hf Hpos; [lia|].
  cbn [dec_digits]. destruct (z <? 10) eqn:E; breflect.
  { simpl. rewrite byte_digit_byte by lia. simpl.
    rewrite checked_mul_Some by lia. simpl. by rewrite checked_add_Some by lia. }
  rewrite Nat2Z.inj_succ, Z.pow_succ_r in Hf by lia.
  pose proof (Z.div_mod z 10 ltac:(lia)). pose proof (Z.mod_pos_bound z 10 ltac:(lia)).
  assert (0 < f)%nat by (destruct f; [simpl in Hf; lia | lia]).
  rewrite fmap_app, parse_digits_app, IH by lia. simpl.
  rewrite byte_digit_byte by lia. simpl.
  rewrite checked_mul_Some by lia. simpl. rewrite checked_add_Some by lia. simpl. f_equal; lia.
Qed.

(** Parsing the decimal text of a [w]-bit integer gives it back. *)
Lemma parse_uint_bytes_dec w z :
  0 <= z <= umax w → w <= 128 → parse_uint_bytes w (uint_bytes z) = Some z.
Proof.
  intros Hz Hw. unfold uint_bytes.
  assert (z < 10 ^ Z.of_nat 39).
  { unfold umax in Hz. assert (2 ^ w <= 2 ^ 128) by (apply Z.pow_le_mono_r; lia).
    assert (2 ^ 128 < 10 ^ Z.of_nat 39) by (vm_compute; done). lia. }
  pose proof (parse_digits_dec w 39 z Hz ltac:(lia) ltac:(lia)) as Hp.
  pose proof (dec_digits_range 39 z ltac:(lia)) as Hr.
  destruct (dec_digits 39 z) as [|d ds] eqn:E.
  { by apply dec_digits_nonempty in E; [|lia]. }
  inversion Hr as [|?? Hd Hds]; subst.
  pose proof (byte_Z_digit_byte d Hd) as Hb.
  assert ((byte_Z (digit_byte d) =? 43) = false) as E1 by (apply Z.eqb_neq; lia).
  assert ((byte_Z (digit_byte d) =? 45) = false) as E2 by (apply Z.eqb_neq; lia).
  rewrite fmap_cons in *. destruct (digit_byte <$> ds) as [|b l] eqn:El;
    cbn [parse_uint_bytes]; rewrite E1; [rewrite E2|]; exact Hp.
Qed.

(** * Splitting, searching, case *)

(** [str::split(sep)] for a one-byte separator. *)
Fixpoint split_on (sep : byte) (l : bytes) : list bytes :=
  match l with
  | [] => [[]]
  | b :: l' =>
      if decide (b = sep) then [] :: split_on sep l'
      else match split_on sep l' with
           | [] => [[b]]
           | p :: ps => (b :: p) :: ps
           end
  end.

Lemma split_on_no_sep sep l : sep ∉ l → split_on sep l = [l].
Proof.
  induction l as [|b l IH]; intros Hn; [done|].
  rewrite not_elem_of_cons in Hn; destruct Hn. simpl.
  rewrite decide_False by done. by rewrite IH.
Qed.

Lemma split_on_app sep l k : sep ∉ l → split_on sep (l ++ sep :: k) = l :: split_on sep k.
Proof.
  induction l as [|b l IH]; intros Hn; simpl; [by rewrite decide_True|].
  rewrite not_elem_of_cons in Hn; destruct Hn.
  rewrite decide_False by done. by rewrite IH.
Qed.

Fixpoint is_prefix (p l : bytes) : bool :=
  match p, l with
  | [], _ => true
  | a :: p', b :: l' => (bool_decide (a = b) && is_prefix p' l')%bool
  | _, [] => false
  end.

(** [str::contains] for a string pattern. *)
Fixpoint bytes_contains (l p : bytes) : bool :=
  (is_prefix p l || match l with [] => false | _ :: l' => bytes_contains l' p end)%bool.

Definition str_contains (s p : string) : bool := bytes_contains (str_bytes s) (str_bytes p).

(** [to_ascii_lowercase] on one byte and on a string. *)
Definition byte_lower (b : byte) : byte :=
  if ((65 <=? byte_Z b) && (byte_Z b <=? 90))%bool then byte_of_Z (byte_Z b + 32) else b.
Definition str_to_ascii_lowercase (s : string) : string :=
  str_of_bytes (byte_lower <$> str_bytes s).

(** * [Ordering], comparators and the stable sort *)

(** [str::cmp]: bytewise lexicographic. *)
Definition str_cmp (s t : string) : comparison := String.compare s t.
Definition then_with (c d : comparison) : comparison := match c with Eq => d | _ => c end.

(** [slice::sort_by] is stable: an element goes before the first later element
    that is not smaller. *)
Fixpoint insert_by {A} (cmp : A → A → comparison) (x : A) (l : list A) : list A :=
  match l with
  | [] => [x]
  | y :: l' => match cmp x y with Gt => y :: insert_by cmp x l' | _ => x :: l end
  end.

Definition sort_by {A} (cmp : A → A → comparison) (l : list A) : list A :=
  foldr (insert_by cmp) [] l.

(** A comparator that is a total preorder: what [sort_by] asks of its argument. *)
Class TotalCmp {A} (cmp : A → A → comparison) : Prop := {
  cmp_opp x y : cmp y x = CompOpp (cmp x y);
  cmp_le_trans x y z : cmp x y ≠ Gt → cmp y z ≠ Gt → cmp x z ≠ Gt;
}.

Arguments cmp_opp {A} cmp {_} x y.
Arguments cmp_le_trans {A} cmp {_} x y z.

Definition cmp_le {A} (cmp : A → A → comparison) (x y : A) : Prop := cmp x y ≠ Gt.

Lemma insert_by_perm {A} (cmp : A → A → comparison) x l : insert_by cmp x l ≡ₚ x :: l.
Proof.
  induction l as [|y l IH]; simpl; [done|].
  destruct (cmp x y); [done|done|]. rewrite IH. constructor.
Qed.

Lemma sort_by_perm {A} (cmp : A → A → comparison) l : sort_by cmp l ≡ₚ l.
Proof.
  induction l as [|x l IH]; simpl; [done|]. rewrite insert_by_perm. by constructor.
Qed.

Lemma sort_by_length {A} (cmp : A → A → comparison) l : length (sort_by cmp l) = length l.
Proof. by rewrite sort_by_perm. Qed.

Lemma elem_of_sort_by {A} (cmp : A → A → comparison) l x : x ∈ sort_by cmp l ↔ x ∈ l.
Proof. by rewrite sort_by_perm. Qed.

Section total_cmp.
Context {A : Type} (cmp : A → A → comparison) `{!TotalCmp cmp}.

Lemma cmp_refl x : cmp x x = Eq.
Proof. pose proof (cmp_opp cmp x x). destruct (cmp x x); simpl in *; congruence. Qed.

Lemma cmp_Gt_Lt x y : cmp x y = Gt ↔ cmp y x = Lt.
Proof. rewrite (cmp_opp cmp x y). destruct (cmp x y); simpl; split; congruence. Qed.

Lemma cmp_Eq_compat x y z : cmp x y = Eq → cmp x z = cmp y z.
Proof.
  intros H.
  assert (Hxy : cmp x y ≠ Gt) by congruence.
  assert (Hyx : cmp y x ≠ Gt) by (rewrite (cmp_opp cmp x y), H; done).
  pose proof (cmp_le_trans cmp x y z Hxy) as T1.
  pose proof (cmp_le_trans cmp y x z Hyx) as T2.
  pose proof (λ H, cmp_le_trans cmp z x y H Hxy) as T3.
  pose proof (λ H, cmp_le_trans cmp z y x H Hyx) as T4.
  rewrite (cmp_opp cmp x z), (cmp_opp cmp y z) in *.
  destruct (cmp x z), (cmp y z); simpl in *; try done; exfalso; naive_solver.
Qed.

Lemma insert_by_sorted x l :
  StronglySorted (cmp_le cmp) l → StronglySorted (cmp_le cmp) (insert_by cmp x l).
Proof.
  induction l as [|y l IH]; intros Hl; simpl; [by repeat constructor|].
  inversion Hl as [|?? Hs Hall]; subst.
  destruct (cmp x y) eqn:E.
  1,2: constructor; [done|]; constructor; [unfold cmp_le; congruence|];
    eapply Forall_impl; [exact Hall|]; intros z Hz;
    unfold cmp_le in *; apply (cmp_le_trans cmp x y z); congruence.
  constructor; [by apply IH|].
  rewrite insert_by_perm. constructor; [|done].
  unfold cmp_le. rewrite (cmp_opp cmp x y), E. done.
Qed.

Lemma sort_by_sorted l : StronglySorted (cmp_le cmp) (sort_by cmp l).
Proof. induction l as [|x l IH]; simpl; [constructor|]. by apply insert_by_sorted. Qed.

End total_cmp.

(** Sorting what is sorted changes nothing. *)
Lemma sort_by_id {A} (cmp : A → A → comparison) l :
  StronglySorted (cmp_le cmp) l → sort_by cmp l = l.
Proof.
  induction 1 as [|x l Hs IH Hall]; [done|]. unfold sort_by in *. cbn [foldr]. rewrite IH.
  destruct l as [|y l]; [done|]. apply Forall_cons in Hall as [Hxy _]. unfold cmp_le in Hxy.
  cbn [insert_by]. by destruct (cmp x y).
Qed.

#[global] Instance total_cmp_Zkey {A} (f : A → Z) : TotalCmp (λ x y, f x ?= f y).
Proof.
  split; intros; [by rewrite Z.compare_antisym|].
  rewrite Z.compare_ngt_iff in *. lia.
Qed.

#[global] Instance total_cmp_flip {A} (c : A → A → comparison) :
  TotalCmp c → TotalCmp (λ x y, c y x).
Proof. intros H; split; intros; [apply (cmp_opp c)|]. by apply (cmp_le_trans c z y x). Qed.

#[global] Instance total_cmp_then {A} (c d : A → A → comparison) :
  TotalCmp c → TotalCmp d → TotalCmp (λ x y, then_with (c x y) (d x y)).
Proof.
  intros Hc Hd; split; intros x y.
  - rewrite (cmp_opp c x y), (cmp_opp d x y). by destruct (c x y).
  - intros z. destruct (c x y) eqn:E1; simpl; [| |done].
    + rewrite (cmp_Eq_compat c x y z E1). destruct (c y z); simpl; try done.
      apply (cmp_le_trans d).
    + intros _ H. destruct (c y z) eqn:E2; simpl in *; [| |done].
      * assert (c x z = Lt) as ->; [|done].
        assert (c z y = Eq) as E3 by (rewrite (cmp_opp c y z), E2; done).
        by rewrite (cmp_opp c z x), (cmp_Eq_compat c z y x E3), (cmp_opp c x y), E1.
      * destruct (c x z) eqn:E3; [exfalso|done|].
        -- assert (c y z = c y x) as H2.
           { rewrite (cmp_opp c z y), (cmp_opp c x y).
             assert (c z x = Eq) as E4 by (rewrite (cmp_opp c x z), E3; done).
             by rewrite (cmp_Eq_compat c z x y E4). }
           rewrite (cmp_opp c x y), E1, E2 in H2. done.
        -- exfalso. apply (cmp_le_trans c x y z); congruence.
Qed.

Lemma ascii_compare_spec a b : Ascii.compare a b = N.compare (N_of_ascii a) (N_of_ascii b).
Proof. reflexivity. Qed.

#[global] Instance total_cmp_str : TotalCmp str_cmp.
Proof.
  unfold str_cmp; split.
  - intros x; induction x as [|a x IH]; intros [|b y]; simpl; try done.
    rewrite !ascii_compare_spec, (N.compare_antisym (N_of_ascii a)).
    destruct (N.compare _ _); simpl; auto.
  - intros x; induction x as [|a x IH]; intros [|b y] [|c z]; simpl; try done.
    rewrite !ascii_compare_spec.
    destruct (N.compare_spec (N_of_ascii a) (N_of_ascii b)) as [E1|E1|E1];
    destruct (N.compare_spec (N_of_ascii b) (N_of_ascii c)) as [E2|E2|E2];
    destruct (N.compare_spec (N_of_ascii a) (N_of_ascii c)) as [E3|E3|E3];
    try done; try lia; apply IH.
Qed.

#[global] Instance total_cmp_strkey {A} (f : A → string) : TotalCmp (λ x y, str_cmp (f x) (f y)).
Proof. split; intros; [apply (cmp_opp str_cmp) | by eapply (cmp_le_trans str_cmp)]. Qed.

Lemma str_cmp_Eq s t : str_cmp s t = Eq ↔ s = t.
Proof.
  split; [apply String.compare_eq_iff|]. intros <-. apply (cmp_refl str_cmp).
Qed.

(** A later element of a sorted list is not smaller than an earlier one. *)
Lemma StronglySorted_lookup_le {A} (R : A → A → Prop) l i j x y :
  StronglySorted R l → (i < j)%nat → l !! i = Some x → l !! j = Some y → R x y.
Proof.
  intros Hs; revert i j; induction Hs as [|a l Hs IH Hall]; intros i j Hij Hi Hj; [done|].
  destruct i, j; simpl in *; try lia.
  - injection Hi as <-. rewrite Forall_forall in Hall. apply Hall.
    by eapply list_elem_of_lookup_2.
  - apply (IH i j); [lia | done | done].
Qed.

(** * Maps *)

(** [BTreeMap::into_iter]: by increasing key. *)
Definition btree_entries {A} (m : gmap string A) : list (string * A) :=
  sort_by (λ p q, str_cmp p.1 q.1) (map_to_list m).

(** ** Sums over maps *)

Section total.
Context `{Countable K}.
Implicit Types m : gmap K Z.

Definition total m : Z := map_fold (λ _ a s, a + s) 0 m.

Lemma total_empty : total ∅ = 0.
Proof. unfold total. by rewrite map_fold_empty. Qed.

Lemma total_insert_fresh m k v : m !! k = None → total (<[k:=v]> m) = v + total m.
Proof. intros Hk. unfold total. rewrite map_fold_insert_L; [done | intros; lia | done]. Qed.

Lemma total_delete m k : total m = default 0 (m !! k) + total (delete k m).
Proof.
  destruct (m !! k) as [v|] eqn:Hk; simpl.
  - rewrite <- (insert_delete_id m k v) at 1 by done.
    by rewrite total_insert_fresh by apply lookup_delete_eq.
  - by rewrite delete_id.
Qed.

Lemma total_insert m k v : total (<[k:=v]> m) = total m - default 0 (m !! k) + v.
Proof.
  rewrite <- insert_delete_eq, total_insert_fresh by apply lookup_delete_eq.
  rewrite (total_delete m k). lia.
Qed.

Definition nonneg m : Prop := map_Forall (λ _ a, 0 <= a) m.

Lemma total_nonneg m : nonneg m → 0 <= total m.
Proof.
  unfold nonneg. induction m as [|k v m Hk IH] using map_ind; [by rewrite total_empty|].
  intros Hm. rewrite total_insert_fresh by done.
  apply map_Forall_insert in Hm as [Hv Hm]; [|done]. specialize (IH Hm). lia.
Qed.

Lemma lookup_le_total m k : nonneg m → 0 <= default 0 (m !! k) <= total m.
Proof.
  intros Hm. rewrite (total_delete m k).
  assert (nonneg (delete k m)) as Hd by by apply map_Forall_delete.
  apply total_nonneg in Hd. destruct (m !! k) as [v|] eqn:E; simpl; [|lia].
  specialize (Hm k v E). simpl in Hm. lia.
Qed.

Lemma nonneg_insert m k v : nonneg m → 0 <= v → nonneg (<[k:=v]> m).
Proof. intros Hm Hv. by apply map_Forall_insert_2. Qed.

End total.

Lemma sublist_Forall {A} (P : A → Prop) l k : sublist l k → Forall P k → Forall P l.
Proof.
  intros Hs Hk. apply Forall_forall. intros x Hx. rewrite Forall_forall in Hk.
  apply Hk. by eapply elem_of_sublist.
Qed.

(** ** Sums of lists, and of the values of a map by its entries *)

Definition zsum (l : list Z) : Z := foldr Z.add 0 l.

Lemma zsum_cons x l : zsum (x :: l) = x + zsum l.
Proof. done. Qed.

Lemma zsum_app l k : zsum (l ++ k) = zsum l + zsum k.
Proof. unfold zsum. induction l as [|x l IH]; cbn; lia. Qed.

Lemma zsum_perm l k : l ≡ₚ k → zsum l = zsum k.
Proof. unfold zsum. induction 1; cbn; lia. Qed.

Lemma zsum_nonneg l : Forall (λ x, 0 <= x) l → 0 <= zsum l.
Proof. unfold zsum. induction 1; cbn; lia. Qed.

Lemma zsum_fmap_add {A} (f g : A → Z) l : zsum ((λ x, f x + g x) <$> l) = zsum (f <$> l) + zsum (g <$> l).
Proof. unfold zsum. induction l; cbn in *; lia. Qed.

Lemma zsum_fmap_mul {A} c (f : A → Z) l : zsum ((λ x, c * f x) <$> l) = c * zsum (f <$> l).
Proof. unfold zsum. induction l; cbn in *; lia. Qed.

Lemma zsum_le {A} (f g : A → Z) l : (∀ x, x ∈ l → f x <= g x) → zsum (f <$> l) <= zsum (g <$> l).
Proof.
  unfold zsum. induction l as [|x l IH]; intros H; cbn; [lia|].
  pose proof (H x ltac:(by left)). assert (∀ y, y ∈ l → f y <= g y) as Hl by (intros y Hy; apply H; by right).
  specialize (IH Hl). cbn in *. lia.
Qed.

Lemma zsum_elem_le {A} (f : A → Z) l x : (∀ y, y ∈ l → 0 <= f y) → x ∈ l → f x <= zsum (f <$> l).
Proof.
  intros H Hx. apply list_elem_of_split in Hx as (l1 & l2 & ->). rewrite fmap_app, zsum_app, fmap_cons.
  assert (∀ k, (∀ y, y ∈ k → 0 <= f y) → 0 <= zsum (f <$> k)) as Hz.
  { intros k Hk. apply zsum_nonneg, Forall_fmap, Forall_forall. exact Hk. }
  pose proof (Hz l1 ltac:(set_solver)). pose proof (Hz l2 ltac:(set_solver)). unfold zsum at 2. cbn [foldr]. unfold zsum in *. lia.
Qed.

Lemma btree_entries_perm {A} (m : gmap string A) : btree_entries m ≡ₚ map_to_list m.
Proof. apply sort_by_perm. Qed.

Lemma elem_of_btree_entries {A} (m : gmap string A) k v : (k, v) ∈ btree_entries m ↔ m !! k = Some v.
Proof. rewrite btree_entries_perm. apply elem_of_map_to_list. Qed.

Lemma NoDup_btree_entries {A} (m : gmap string A) : NoDup (btree_entries m).*1.
Proof. rewrite btree_entries_perm. apply NoDup_fst_map_to_list. Qed.

Lemma total_btree_entries (m : gmap string Z) : total m = zsum (btree_entries m).*2.
Proof.
  rewrite (zsum_perm _ (map_to_list m).*2) by (by rewrite btree_entries_perm).
  unfold total. rewrite map_fold_foldr. unfold zsum. induction (map_to_list m) as [|[k v] l IH]; cbn; congruence.
Qed.

(** The entries of one key. *)
Lemma btree_filter_key {A} (m : gmap string A) a :
  filter (λ e, e.1 = a) (btree_entries m) = match m !! a with Some v => [(a, v)] | None => [] end.
Proof.
  pose proof (NoDup_btree_entries m) as Hnd.
  assert (∀ v, (a, v) ∈ btree_entries m ↔ m !! a = Some v) as Hin by (intros; apply elem_of_btree_entries).
  revert Hin Hnd. generalize (m !! a). induction (btree_entries m) as [|[k v] l IH]; intros o Hin Hnd.
  - destruct o as [v|]; [|done]. by pose proof (proj2 (Hin v) eq_refl) as H%elem_of_nil.
  - cbn [fmap list_fmap fst] in Hnd. apply NoDup_cons in Hnd as [Hk Hnd]. rewrite filter_cons. cbn [fst].
    case_decide as Hka.
    + subst k. rewrite (proj1 (Hin v)) by left. f_equal.
      rewrite (IH None); [done| |done]. intros u. split; [|done]. intros Hu. exfalso. apply Hk.
      by apply (list_elem_of_fmap_2 fst) in Hu.
    + apply IH; [|done]. intros u. rewrite <- Hin, elem_of_cons. naive_solver.
Qed.

(** * Text: prefixes, words, lines *)

Definition str_starts_with (s p : string) : bool := is_prefix (str_bytes p) (str_bytes s).
Definition str_ends_with (s p : string) : bool := is_prefix (reverse (str_bytes p)) (reverse (str_bytes s)).
Definition str_strip_prefix (s p : string) : option string :=
  if str_starts_with s p then Some (str_of_bytes (drop (length (str_bytes p)) (str_bytes s))) else None.
Definition eq_ignore_ascii_case (s t : string) : bool :=
  bool_decide (str_to_ascii_lowercase s = str_to_ascii_lowercase t).

(** [is_ascii_alphanumeric], by byte. *)
Definition alphanumeric (b : byte) : bool :=
  let z := byte_Z b in ((48 <=? z) && (z <=? 57) || (65 <=? z) && (z <=? 90) || (97 <=? z) && (z <=? 122))%bool.

(** [trim_start_matches], [trim_end_matches] of one byte. *)
Fixpoint drop_leading (c : byte) (l : bytes) : bytes :=
  match l with b :: l' => if bool_decide (b = c) then drop_leading c l' else l | [] => [] end.
Definition trim_start_matches (c : byte) (s : string) : string := str_of_bytes (drop_leading c (str_bytes s)).
Definition trim_end_matches (c : byte) (s : string) : string :=
  str_of_bytes (reverse (drop_leading c (reverse (str_bytes s)))).

(** [str::split_once] for a one-byte separator. *)
Fixpoint split_once (sep : byte) (l : bytes) : option (bytes * bytes) :=
  match l with
  | [] => None
  | b :: l' =>
      if bool_decide (b = sep) then Some ([], l')
      else match split_once sep l' with Some (x, y) => Some (b :: x, y) | None => None end
  end.

(** [str::split_whitespace]; [word] is the word begun, backwards. *)
Fixpoint split_ws (word l : bytes) : list bytes :=
  let ended := match word with [] => [] | _ => [reverse word] end in
  match l with
  | [] => ended
  | a :: l1 =>
      if ascii_ws a then ended ++ split_ws [] l1 else
      match l1 with
      | b :: l2 =>
          if ws2 a b then ended ++ split_ws [] l2 else
          match l2 with
          | c :: l3 => if ws3 a b c then ended ++ split_ws [] l3 else split_ws (a :: word) l1
          | [] => split_ws (a :: word) l1
          end
      | [] => split_ws (a :: word) l1
      end
  end.
Definition split_whitespace (s : string) : list string := str_of_bytes <$> split_ws [] (str_bytes s).

(** [str::lines]: the end of the text begins no line, a carriage return before a
    line's end is dropped. *)
Definition strip_cr (l : bytes) : bytes :=
  match reverse l with b :: r => if bool_decide (b = byte_of_Z 13) then reverse r else l | [] => [] end.
Definition str_lines (s : string) : list string :=
  let pieces := split_on (byte_of_Z 10) (str_bytes s) in
  let complete := match last pieces with Some [] => take (length pieces - 1) pieces | _ => pieces end in
  str_of_bytes <$> imap (λ i l, if bool_decide (S i < length pieces)%nat then strip_cr l else l) complete.

(** * UTF-8 and paths *)

(** [std::str::from_utf8]: the well-formed sequences of the Unicode standard. *)
Definition in_range (lo hi : Z) (b : byte) : bool := (lo <=? byte_Z b) && (byte_Z b <=? hi).
Definition continuation : byte → bool := in_range 128 191.
Definition utf8_third (a b : byte) : bool :=
  (in_range 224 224 a && in_range 160 191 b) || (in_range 225 236 a && continuation b) ||
  (in_range 237 237 a && in_range 128 159 b) || (in_range 238 239 a && continuation b).
Definition utf8_fourth (a b : byte) : bool :=
  (in_range 240 240 a && in_range 144 191 b) || (in_range 241 243 a && continuation b) ||
  (in_range 244 244 a && in_range 128 143 b).

Fixpoint utf8_valid (l : bytes) : bool :=
  match l with
  | [] => true
  | a :: l1 =>
      if in_range 0 127 a then utf8_valid l1
      else match l1 with
      | b :: l2 =>
          if in_range 194 223 a && continuation b then utf8_valid l2
          else match l2 with
          | c :: l3 =>
              if utf8_third a b && continuation c then utf8_valid l3
              else match l3 with
              | d :: l4 => utf8_fourth a b && continuation c && continuation d && utf8_valid l4
              | [] => false
              end
          | [] => false
          end
      | [] => false
      end
  end.

Definition from_utf8 (l : bytes) : option string := if utf8_valid l then Some (str_of_bytes l) else None.

(** [Path::join] of a directory and a relative name. *)
Definition path_join (dir name : string) : string :=
  match last (str_bytes dir) with
  | None => name
  | Some b => if bool_decide (b = byte_of_Z 47) then (dir ++ name)%string else (dir ++ "/" ++ name)%string
  end.

Definition NEWLINE : string := str_of_bytes [byte_of_Z 10].
Definition DOUBLE_QUOTE : string := str_of_bytes [byte_of_Z 34].

(** * JSON *)

(** [serde_json::Value]; a number that is no integer is its text. *)
Inductive JsonTree :=
| JNull
| JBool (b : bool)
| JNumber (z : Z)
| JFloat (text : string)
| JString (s : string)
| JArray (l : list JsonTree)
| JObject (fields : list (string * JsonTree)).

Definition json_get (key : string) (v : JsonTree) : option JsonTree :=
  match v with JObject fields => snd <$> (list_find (λ f, f.1 = key) fields ≫= λ p, Some p.2) | _ => None end.
Definition as_str (v : JsonTree) : option string := match v with JString s => Some s | _ => None end.
Definition as_u64 (v : JsonTree) : option Z := match v with JNumber z => if (0 <=? z) && (z <=? umax 64) then Some z else None | _ => None end.
