(* ===== verification/Interfaces.v ===== *)
(** Third-party code the chain relies on, as a typeclass of operations and a
    typeclass of the documented laws its clients use: the [sha2], [blake3],
    [bech32] and [ed25519_dalek] crates and the vendored C++ FiroPoW library
    behind its FFI.  No definition of the development looks inside them. *)

From S2P Require Import Prelude RustStd.

(** [bech32::Variant]. *)
Inductive Variant := Bech32 | Bech32m.

#[global] Instance Variant_eq_dec : EqDecision Variant.
Proof. solve_decision. Defined.

Class Primitives := {
  (** [Sha256::digest], [blake3::hash], [vireon_keccak256] *)
  sha256_digest : bytes → bytes;
  blake3_digest : bytes → bytes;
  vireon_keccak256 : bytes → bytes;
  (** [bech32::encode] and [bech32::decode] (errors as their text), with the
      5-bit regrouping of [ToBase32]/[FromBase32] *)
  bech32_encode : string → list Z → Variant → result string string;
  bech32_decode : string → result string (string * list Z * Variant);
  to_base32 : bytes → list Z;
  from_base32 : list Z → result string bytes;
  (** [VerifyingKey::from_bytes], [SigningKey::verifying_key], [sign], [verify] *)
  ed25519_key_check : bytes → result string ();
  ed25519_public : bytes → bytes;
  ed25519_sign : bytes → bytes → bytes;
  ed25519_verify : bytes → bytes → bytes → result string ();
  (** [vireon_firopow_hash block header nonce]: [None] for a nonzero return code,
      otherwise (final hash, mix hash); [vireon_firopow_verify] returns its code. *)
  vireon_firopow_hash : Z → bytes → Z → option (bytes * bytes);
  vireon_firopow_verify : Z → bytes → bytes → Z → bytes → Z;
}.

(** A string is canonical lowercase: ASCII lowercasing leaves it unchanged. *)
Definition is_lowercase (s : string) : bool := bool_decide (str_to_ascii_lowercase s = s).

(** The three human-readable parts the code encodes with. *)
Definition known_hrp (hrp : string) : Prop :=
  hrp = "dvire"%string ∨ hrp = "tvire"%string ∨ hrp = "vire"%string.

Class PrimitivesOk `{Primitives} : Prop := {
  sha256_length m : length (sha256_digest m) = 32%nat;
  blake3_length m : length (blake3_digest m) = 32%nat;
  keccak256_length m : length (vireon_keccak256 m) = 32%nat;
  from_to_base32 m : from_base32 (to_base32 m) = Ok m;
  (** encoding a short payload under a known prefix succeeds with graphic
      lowercase text, which decodes to what was encoded *)
  bech32_encode_ok hrp m : known_hrp hrp → (length m <= 33)%nat →
    ∃ s, bech32_encode hrp (to_base32 m) Bech32m = Ok s ∧
         bech32_decode s = Ok (hrp, to_base32 m, Bech32m) ∧
         is_lowercase s = true ∧ (str_len s < 2 ^ 32) ∧
         s ≠ ""%string ∧ Forall (λ b, graphic b = true) (str_bytes s);
  ed25519_public_ok sk : length sk = 32%nat →
    length (ed25519_public sk) = 32%nat ∧ ed25519_key_check (ed25519_public sk) = Ok ();
  ed25519_sign_length sk m : length sk = 32%nat → length (ed25519_sign sk m) = 64%nat;
  ed25519_sign_verify sk m : length sk = 32%nat →
    ed25519_verify (ed25519_public sk) m (ed25519_sign sk m) = Ok ();
  firopow_hash_length h hdr n f m :
    vireon_firopow_hash h hdr n = Some (f, m) → length f = 32%nat ∧ length m = 32%nat;
  (** verification accepts exactly the recomputed mix hash under the boundary *)
  firopow_verify_spec h hdr mix n b :
    vireon_firopow_verify h hdr mix n b = 1 ↔
    ∃ f, vireon_firopow_hash h hdr n = Some (f, mix) ∧ be_value f <= be_value b;
}.
