(* ===== verification/Crypto.v ===== *)
(** [vireon-core/src/crypto.rs]: the 32-byte [Hash], its hexadecimal text, the
    digests and the leading-zero count. *)

From S2P Require Import Prelude RustStd Interfaces.

Definition HASH_SIZE : Z := 32.

(** [struct Hash([u8; 32])] *)
Abbreviation Hash := (list byte).

Definition hash_wf (h : Hash) : Prop := length h = 32%nat.

Definition Hash_zero : Hash := replicate 32 x00.

(** [hex_char]: the [unreachable!] arm is the last one. *)
Definition hex_char (value : Z) : byte :=
  if (0 <=? value) && (value <=? 9) then byte_of_Z (48 + value)
  else if (10 <=? value) && (value <=? 15) then byte_of_Z (97 + (value - 10))
  else x00.

(** [u8 as char] pushed into a [String]: Latin-1 as UTF-8. *)
Definition latin1_utf8 (b : byte) : bytes :=
  if byte_Z b <? 128 then [b]
  else [byte_of_Z (192 + byte_Z b / 64); byte_of_Z (128 + byte_Z b mod 64)].

Definition invalid_hex_message (b : byte) : string :=
  ("invalid hex character " ++ str_of_bytes (latin1_utf8 b))%string.

Definition decode_hex_nibble (b : byte) : result string Z :=
  let z := byte_Z b in
  if (48 <=? z) && (z <=? 57) then Ok (z - 48)
  else if (97 <=? z) && (z <=? 102) then Ok (z - 97 + 10)
  else if (65 <=? z) && (z <=? 70) then Ok (z - 65 + 10)
  else Err (invalid_hex_message b).

(** The loop [bytes[i] = (nibble(e[2i])? << 4) | nibble(e[2i+1])?]. *)
Fixpoint decode_hex_pairs (l : bytes) : result string bytes :=
  match l with
  | a :: b :: l' =>
      hi ← decode_hex_nibble a;
      lo ← decode_hex_nibble b;
      rest ← decode_hex_pairs l';
      Ok (byte_of_Z (Z.lor (Z.shiftl hi 4) lo) :: rest)
  | _ => Ok []
  end.

Definition hex_length_message (expected actual : Z) : string :=
  ("expected " ++ uint_to_string expected ++ " hex chars, got " ++ uint_to_string actual)%string.

Definition Hash_from_hex (input : string) : result string Hash :=
  let trimmed := trim_bytes (str_bytes input) in
  if negb (Z.of_nat (length trimmed) =? HASH_SIZE * 2) then
    Err (hex_length_message (HASH_SIZE * 2) (Z.of_nat (length trimmed)))
  else decode_hex_pairs trimmed.

Fixpoint hex_bytes (l : bytes) : bytes :=
  match l with
  | [] => []
  | b :: l' => hex_char (Z.shiftr (byte_Z b) 4) :: hex_char (Z.land (byte_Z b) 15) :: hex_bytes l'
  end.

Definition hash_to_hex (h : Hash) : string := str_of_bytes (hex_bytes h).

(** [u8::leading_zeros] *)
Definition u8_leading_zeros (z : Z) : Z := if z =? 0 then 8 else 7 - Z.log2 z.

(** The loop adds 8 per zero byte and stops at the first nonzero one. *)
Fixpoint leading_zero_bits (h : Hash) : Z :=
  match h with
  | [] => 0
  | b :: h' => if byte_Z b =? 0 then 8 + leading_zero_bits h' else u8_leading_zeros (byte_Z b)
  end.

Section digests.
Context `{Primitives}.

Definition sha256 (data : bytes) : Hash := sha256_digest data.
Definition blake3_hash (data : bytes) : Hash := blake3_digest data.
Definition double_sha256 (data : bytes) : Hash := sha256 (sha256 data).

Lemma double_sha256_wf `{!PrimitivesOk} m : hash_wf (double_sha256 m).
Proof. apply sha256_length. Qed.

Lemma blake3_hash_wf `{!PrimitivesOk} m : hash_wf (blake3_hash m).
Proof. apply blake3_length. Qed.

End digests.

(** * Hex round trip *)

Lemma hex_char_decode v : 0 <= v < 16 → decode_hex_nibble (hex_char v) = Ok v.
Proof.
  intros Hv. assert (v ∈ seqZ 0 16) as Hin by (apply elem_of_seqZ; lia).
  revert v Hin Hv. apply (proj1 (Forall_forall (λ v, 0 <= v < 16 →
    decode_hex_nibble (hex_char v) = Ok v) _)).
  repeat constructor.
Qed.

Lemma hex_char_graphic v : 0 <= v < 16 → graphic (hex_char v) = true.
Proof.
  intros Hv. assert (v ∈ seqZ 0 16) as Hin by (apply elem_of_seqZ; lia).
  revert v Hin Hv. apply (proj1 (Forall_forall (λ v, 0 <= v < 16 →
    graphic (hex_char v) = true) _)).
  repeat constructor.
Qed.

(** Hex digits are the lowercase ones. *)
Lemma hex_char_lower v : 0 <= v < 16 →
  let z := byte_Z (hex_char v) in ((48 <=? z) && (z <=? 57)) || ((97 <=? z) && (z <=? 102)) = true.
Proof.
  intros Hv. assert (v ∈ seqZ 0 16) as Hin by (apply elem_of_seqZ; lia).
  revert v Hin Hv. apply (proj1 (Forall_forall (λ v, 0 <= v < 16 →
    let z := byte_Z (hex_char v) in ((48 <=? z) && (z <=? 57)) || ((97 <=? z) && (z <=? 102)) = true) _)).
  repeat constructor.
Qed.

Lemma nibbles_of_byte b :
  0 <= Z.shiftr (byte_Z b) 4 < 16 ∧ 0 <= Z.land (byte_Z b) 15 < 16 ∧
  byte_of_Z (Z.lor (Z.shiftl (Z.shiftr (byte_Z b) 4) 4) (Z.land (byte_Z b) 15)) = b.
Proof. destruct b; vm_compute; repeat split; congruence. Qed.

Lemma hex_bytes_graphic l : Forall (λ b, graphic b = true) (hex_bytes l).
Proof.
  induction l as [|b l IH]; simpl; [constructor|].
  destruct (nibbles_of_byte b) as (? & ? & ?).
  by repeat (constructor; [by apply hex_char_graphic|]).
Qed.

Lemma length_hex_bytes l : length (hex_bytes l) = (2 * length l)%nat.
Proof. induction l; simpl; lia. Qed.

Lemma decode_hex_pairs_hex l : decode_hex_pairs (hex_bytes l) = Ok l.
Proof.
  induction l as [|b l IH]; simpl; [done|].
  destruct (nibbles_of_byte b) as (H1 & H2 & H3).
  rewrite !hex_char_decode by done. simpl. by rewrite IH; simpl; rewrite H3.
Qed.

Lemma hash_to_hex_inj g h : hash_to_hex g = hash_to_hex h → g = h.
Proof.
  intros H%(f_equal str_bytes). unfold hash_to_hex in H. rewrite !str_bytes_of_bytes in H.
  apply (f_equal decode_hex_pairs) in H. rewrite !decode_hex_pairs_hex in H. by injection H.
Qed.

Lemma Hash_from_hex_bytes h :
  hash_wf h → Hash_from_hex (str_of_bytes (hex_bytes h)) = Ok h.
Proof.
  intros Hh. unfold Hash_from_hex. rewrite str_bytes_of_bytes.
  rewrite trim_bytes_graphic by apply hex_bytes_graphic. cbv zeta.
  rewrite length_hex_bytes, Hh. by rewrite decode_hex_pairs_hex.
Qed.

(** Hex round trip: the 64-character text of a hash parses back to it, and two
    32-byte hashes with one text are equal, so hashes may be compared and keyed
    by their hex text as the ledger does. *)
Theorem hash_hex_roundtrip h g :
  hash_wf h →
  Hash_from_hex (hash_to_hex h) = Ok h ∧ str_len (hash_to_hex h) = 64 ∧
  (hash_to_hex g = hash_to_hex h ↔ g = h).
Proof.
  intros Hh. split_and!; [by apply Hash_from_hex_bytes | |].
  - unfold str_len, hash_to_hex. by rewrite str_bytes_of_bytes, length_hex_bytes, Hh.
  - split; [apply hash_to_hex_inj | by intros ->].
Qed.

Lemma hash_hex_roundtrip_witness :
  hash_wf Hash_zero ∧ Hash_from_hex (hash_to_hex Hash_zero) = Ok Hash_zero.
Proof. split; [reflexivity | apply (hash_hex_roundtrip Hash_zero Hash_zero); reflexivity]. Defined.
