(* ===== verification/Errors.v ===== *)
(** [vireon-core/src/errors.rs]: the error type of the core and its [Display]
    text (the node classifies peers' faults by that text). *)

From S2P Require Import Prelude RustStd Crypto.

Inductive VireonError : Type :=
| AmountOverflow
| AmountParse (value : string)
| TooManyDecimals (value : string) (max : Z)
| InvalidAddress (message : string)
| InvalidKey (message : string)
| InvalidMnemonic (message : string)
| InvalidDerivationPath (message : string)
| InvalidSignature (message : string)
| InvalidHex (message : string)
| InvalidTransaction (message : string)
| InvalidFee (message : string)
| ZeroAmountTransaction
| DuplicateTransactionHash (tx_hash : string)
| InsufficientBalance (address : string) (available required : Z)
| InvalidNonce (address : string) (expected actual : Z)
| EmptyTransactions
| TooManyTransactions (max actual : Z)
| TransactionTooLarge (max actual : Z)
| MissingCoinbase
| DuplicateCoinbase
| CoinbaseNotFirst
| InvalidCoinbaseFee
| InvalidCoinbaseAmount (expected actual : Z)
| InvalidBaseFee (expected actual : Z)
| InvalidMerkleRoot
| InvalidNetwork (expected actual : string)
| InvalidPreviousHash (expected actual : Hash)
| InvalidHeight (expected actual : Z)
| InvalidBlockVersion (expected actual height : Z)
| InvalidCheckpoint (height : Z) (expected actual : Hash)
| InvalidCheckpointDefinition (message : string)
| InvalidPow (required actual : Z)
| InvalidDifficultyAdjustment (expected actual : Z)
| InvalidCoinbaseReward (allowed actual : Z)
| InvalidTimestamp (previous actual : Z)
| InvalidFutureTimestamp (now actual max_drift_seconds : Z)
| InvalidMedianTimePast (median actual : Z)
| SupplyOverflow
| ChainWorkOverflow
| InvalidGenesis (message : string).

#[global] Instance VireonError_eq_dec : EqDecision VireonError.
Proof. solve_decision. Defined.

Abbreviation Result := (result VireonError).

Definition VireonError_fmt (e : VireonError) : string :=
  match e with
  | AmountOverflow => "amount overflow"
  | AmountParse value => "invalid amount: " ++ value
  | TooManyDecimals value max =>
      "too many decimal places in amount " ++ value ++ "; max is " ++ uint_to_string max
  | InvalidAddress message => "invalid address: " ++ message
  | InvalidKey message => "invalid key: " ++ message
  | InvalidMnemonic message => "invalid mnemonic: " ++ message
  | InvalidDerivationPath message => "invalid derivation path: " ++ message
  | InvalidSignature message => "invalid signature: " ++ message
  | InvalidHex message => "invalid hex: " ++ message
  | InvalidTransaction message => "invalid transaction: " ++ message
  | InvalidFee message => "invalid fee: " ++ message
  | ZeroAmountTransaction => "transaction amount must be greater than zero"
  | DuplicateTransactionHash tx_hash => "duplicate transaction hash: " ++ tx_hash
  | InsufficientBalance address available required =>
      "insufficient balance for " ++ address ++ ": available " ++ uint_to_string available
      ++ ", required " ++ uint_to_string required
  | InvalidNonce address expected actual =>
      "invalid nonce for " ++ address ++ ": expected " ++ uint_to_string expected
      ++ ", got " ++ uint_to_string actual
  | EmptyTransactions => "block must contain at least one transaction"
  | TooManyTransactions max actual =>
      "block has too many transactions: " ++ uint_to_string actual ++ " exceeds max "
      ++ uint_to_string max
  | TransactionTooLarge max actual =>
      "transaction wire encoding is too large: " ++ uint_to_string actual
      ++ " bytes exceeds max " ++ uint_to_string max
  | MissingCoinbase => "block is missing the first coinbase transaction"
  | DuplicateCoinbase => "block contains more than one coinbase transaction"
  | CoinbaseNotFirst => "coinbase transaction must be first"
  | InvalidCoinbaseFee => "coinbase transaction fee must be zero"
  | InvalidCoinbaseAmount expected actual =>
      "invalid coinbase amount: expected " ++ uint_to_string expected ++ ", got "
      ++ uint_to_string actual
  | InvalidBaseFee expected actual =>
      "invalid base fee: expected " ++ uint_to_string expected ++ ", got " ++ uint_to_string actual
  | InvalidMerkleRoot => "invalid merkle root"
  | InvalidNetwork expected actual =>
      "invalid network: expected " ++ expected ++ ", got " ++ actual
  | InvalidPreviousHash expected actual =>
      "invalid previous hash: expected " ++ hash_to_hex expected ++ ", got " ++ hash_to_hex actual
  | InvalidHeight expected actual =>
      "invalid height: expected " ++ uint_to_string expected ++ ", got " ++ uint_to_string actual
  | InvalidBlockVersion expected actual height =>
      "invalid block version at height " ++ uint_to_string height ++ ": expected "
      ++ uint_to_string expected ++ ", got " ++ uint_to_string actual
  | InvalidCheckpoint height expected actual =>
      "invalid checkpoint at height " ++ uint_to_string height ++ ": expected "
      ++ hash_to_hex expected ++ ", got " ++ hash_to_hex actual
  | InvalidCheckpointDefinition message => "invalid checkpoint definition: " ++ message
  | InvalidPow required actual =>
      "invalid proof of work: required " ++ uint_to_string required
      ++ " leading zero bits, got " ++ uint_to_string actual
  | InvalidDifficultyAdjustment expected actual =>
      "invalid difficulty adjustment: expected " ++ uint_to_string expected
      ++ " leading zero bits, got " ++ uint_to_string actual
  | InvalidCoinbaseReward allowed actual =>
      "coinbase reward exceeds allowed reward: allowed " ++ uint_to_string allowed
      ++ ", got " ++ uint_to_string actual
  | InvalidTimestamp previous actual =>
      "invalid block timestamp: must be strictly greater than previous "
      ++ uint_to_string previous ++ ", got " ++ uint_to_string actual
  | InvalidFutureTimestamp now actual max_drift_seconds =>
      "invalid block timestamp: " ++ uint_to_string actual ++ " is more than "
      ++ uint_to_string max_drift_seconds ++ "s ahead of local time " ++ uint_to_string now
  | InvalidMedianTimePast median actual =>
      "invalid block timestamp: must be strictly greater than median-time-past "
      ++ uint_to_string median ++ ", got " ++ uint_to_string actual
  | SupplyOverflow => "emitted supply would exceed max supply"
  | ChainWorkOverflow => "cumulative chain work overflow"
  | InvalidGenesis message => "invalid genesis configuration: " ++ message
  end%string.
