(* ===== verification/Network.v ===== *)
(** [vireon-core/src/constants.rs], [network.rs], [upgrade.rs], [protocol.rs]
    and [standards.rs]: the protocol constants, the three network profiles, the
    flag-day upgrade schedule and the published parameter records. *)

From S2P Require Import Prelude RustStd Errors.

Local Open Scope string_scope.
Local Open Scope Z_scope.

(** * Constants *)

Module Constants.
Definition PROJECT_NAME : string := "Vireon Network".
Definition TICKER : string := "VIRE".
Definition DECIMALS : Z := 8.
Definition ATOMIC_UNITS_PER_VIRE : Z := 100000000.
Definition MAX_SUPPLY_VIRE : Z := 60000000.
Definition MAX_SUPPLY_ATOMIC : Z := 6000000000000000.
Definition BLOCK_TIME_SECONDS : Z := 60.
Definition MAX_FUTURE_BLOCK_DRIFT_SECONDS : Z := 7200.
Definition MEDIAN_TIME_PAST_WINDOW : Z := 11.
Definition HALVING_INTERVAL_BLOCKS : Z := 1576800.
Definition INITIAL_BLOCK_REWARD_VIRE : string := "19.02587519".
Definition INITIAL_BLOCK_REWARD_ATOMIC : Z := 1902587519.
Definition CONSENSUS_STATUS : string := "PoW first".
Definition POW_HASH_ALGORITHM : string := "FiroPoW-0.9.4".
Definition DAA_ALGORITHM : string := "LWMA".
Definition DAA_WINDOW_BLOCKS : Z := 60.
Definition DAA_SOLVETIME_CLAMP_MULTIPLIER : Z := 12.
Definition FEE_POLICY : string := "EIP-1559-like base fee burn plus priority tip".
Definition INITIAL_BASE_FEE_ATOMIC : Z := 1.
Definition MIN_BASE_FEE_ATOMIC : Z := 1.
Definition BASE_FEE_MAX_CHANGE_DENOMINATOR : Z := 8.
Definition TARGET_TRANSACTIONS_PER_BLOCK : Z := 1.
Definition MAX_TRANSACTIONS_PER_BLOCK : Z := 1024.
Definition MAX_TRANSACTION_WIRE_BYTES : Z := 16384.
Definition TX_SIGNING_DOMAIN_PREFIX : bytes := str_bytes "veiron-tx-ed25519-v1".
End Constants.
Export Constants.

(** * Networks *)

Inductive Network := Devnet | Testnet | MainnetCandidate.

#[global] Instance Network_eq_dec : EqDecision Network.
Proof. solve_decision. Defined.

Definition Network_default : Network := MainnetCandidate.

Definition network_id (n : Network) : string :=
  match n with
  | Devnet => "veiron-devnet"
  | Testnet => "veiron-testnet"
  | MainnetCandidate => "veiron-mainnet-candidate"
  end.

Definition human_name (n : Network) : string :=
  match n with
  | Devnet => "Vireon Devnet"
  | Testnet => "Vireon Testnet"
  | MainnetCandidate => "Vireon Mainnet Candidate"
  end.

Definition address_prefix (n : Network) : string :=
  match n with
  | Devnet => "dvire"
  | Testnet => "tvire"
  | MainnetCandidate => "vire"
  end.

Definition default_data_root (n : Network) : string :=
  match n with
  | Devnet => ".vireon-dev"
  | Testnet => ".vireon-testnet"
  | MainnetCandidate => ".vireon-mainnet"
  end.

Definition default_rpc_port (n : Network) : Z :=
  match n with Devnet => 8787 | Testnet => 9787 | MainnetCandidate => 10787 end.

Definition default_p2p_port (n : Network) : Z :=
  match n with Devnet => 18787 | Testnet => 19787 | MainnetCandidate => 20787 end.

Definition genesis_config_path (n : Network) : string :=
  match n with
  | Devnet => "vireon-devnet/config/genesis-devnet.json"
  | Testnet => "vireon-devnet/config/genesis-testnet.json"
  | MainnetCandidate => "configs/genesis.mainnet-candidate.toml"
  end.

Definition chain_magic_bytes (n : Network) : bytes :=
  match n with
  | Devnet => str_bytes "VDEV"
  | Testnet => str_bytes "VTST"
  | MainnetCandidate => str_bytes "VMNC"
  end.

Definition status_label (n : Network) : string :=
  match n with
  | Devnet => "Draft / Private Devnet"
  | Testnet => "Planned / Public Testnet Candidate"
  | MainnetCandidate => "Planned / Mainnet Candidate"
  end.

Definition is_resettable (n : Network) : bool := bool_decide (n = Devnet).
Definition is_local_private_only (n : Network) : bool := bool_decide (n = Devnet).
Definition allows_low_difficulty_defaults (n : Network) : bool := bool_decide (n = Devnet).
Definition requires_explicit_allow (n : Network) : bool := bool_decide (n = MainnetCandidate).

Definition difficulty_adjustment_window (n : Network) : Z :=
  match n with Devnet | Testnet | MainnetCandidate => 60 end.

Definition minimum_difficulty_leading_zero_bits (n : Network) : Z :=
  match n with Devnet => 4 | Testnet => 12 | MainnetCandidate => 16 end.

Definition maximum_difficulty_leading_zero_bits (n : Network) : Z :=
  match n with Devnet => 24 | Testnet => 32 | MainnetCandidate => 34 end.

Definition from_network_id (value : string) : option Network :=
  if decide (value = "veiron-devnet") then Some Devnet
  else if decide (value = "veiron-testnet") then Some Testnet
  else if decide (value = "veiron-mainnet-candidate") then Some MainnetCandidate
  else None.

Definition from_address_prefix (value : string) : option Network :=
  if decide (value = "dvire") then Some Devnet
  else if decide (value = "tvire") then Some Testnet
  else if decide (value = "vire") then Some MainnetCandidate
  else None.

(** [impl FromStr for Network] *)
Definition Network_from_str (value : string) : Result Network :=
  if decide (value = "devnet" ∨ value = "veiron-devnet") then Ok Devnet
  else if decide (value = "testnet" ∨ value = "veiron-testnet") then Ok Testnet
  else if decide (value = "mainnet-candidate" ∨ value = "veiron-mainnet-candidate")
  then Ok MainnetCandidate
  else Err (InvalidNetwork
    "mainnet-candidate (devnet and testnet are internal test profiles)" value).

(** * Flag-day upgrades ([upgrade.rs]) *)

Definition UPGRADE_ACTIVATION_POLICY_ID : string := "vireon-flag-day-upgrade-v1".
Definition UPGRADE_ACTIVATION_MODE : string := "fixed-height-flag-day".
Definition LAUNCH_PROTOCOL_VERSION : Z := 1.
Definition LAUNCH_BLOCK_VERSION : Z := 1.
Definition LAUNCH_UPGRADE_MIGRATION_PATH : string :=
  "Launch uses fixed-height flag-day activation only. Any later negotiated or governance-driven activation path remains a separate follow-up freeze.".

Record ScheduledProtocolUpgrade := {
  sched_protocol_version : Z;
  sched_block_version : Z;
  activation_height : Z;
  sched_status_label : string;
}.

Record UpgradeActivationPolicy := {
  upol_policy_id : string;
  upol_activation_mode : string;
  upol_network_id : string;
  upol_launch_protocol_version : Z;
  upol_launch_block_version : Z;
  upol_current_protocol_version : Z;
  upol_current_block_version : Z;
  upol_scheduled_upgrades : list ScheduledProtocolUpgrade;
  upol_migration_path : string;
}.

(** The three per-network schedules are empty arrays. *)
Definition scheduled_protocol_upgrades (n : Network) : list ScheduledProtocolUpgrade :=
  match n with Devnet => [] | Testnet => [] | MainnetCandidate => [] end.

(** Both version queries are the same loop over the schedule, the last activated
    entry winning. *)
Definition version_at (field : ScheduledProtocolUpgrade → Z) (launch : Z)
    (schedule : list ScheduledProtocolUpgrade) (height : Z) : Z :=
  foldl (λ current u, if activation_height u <=? height then field u else current)
    launch schedule.

Definition protocol_version_at_height (n : Network) (height : Z) : Z :=
  version_at sched_protocol_version LAUNCH_PROTOCOL_VERSION (scheduled_protocol_upgrades n) height.

Definition expected_block_version (n : Network) (height : Z) : Z :=
  version_at sched_block_version LAUNCH_BLOCK_VERSION (scheduled_protocol_upgrades n) height.

Definition launch_upgrade_policy (n : Network) : UpgradeActivationPolicy := {|
  upol_policy_id := UPGRADE_ACTIVATION_POLICY_ID;
  upol_activation_mode := UPGRADE_ACTIVATION_MODE;
  upol_network_id := network_id n;
  upol_launch_protocol_version := LAUNCH_PROTOCOL_VERSION;
  upol_launch_block_version := LAUNCH_BLOCK_VERSION;
  upol_current_protocol_version := protocol_version_at_height n 0;
  upol_current_block_version := expected_block_version n 0;
  upol_scheduled_upgrades := scheduled_protocol_upgrades n;
  upol_migration_path := LAUNCH_UPGRADE_MIGRATION_PATH;
|}.

(** * Published parameters ([protocol.rs]) *)

Definition PROTOCOL_PARAMETERS_ID : string := "vireon-launch-parameters-v1".

Record ProtocolParameters := {
  pp_parameters_id : string;
  pp_protocol_version : Z;
  pp_block_version : Z;
  pp_network : Network;
  pp_network_id : string;
  pp_network_name : string;
  pp_status_label : string;
  pp_project_name : string;
  pp_ticker : string;
  pp_address_prefix : string;
  pp_decimals : Z;
  pp_atomic_units_per_vire : Z;
  pp_max_supply_vire : Z;
  pp_max_supply_atomic : Z;
  pp_block_time_seconds : Z;
  pp_halving_interval_blocks : Z;
  pp_initial_block_reward_vire : string;
  pp_initial_block_reward_atomic : Z;
  pp_consensus : string;
  pp_pow_hash_algorithm : string;
  pp_difficulty_adjustment_algorithm : string;
  pp_fee_policy : string;
  pp_default_rpc_port : Z;
  pp_default_p2p_port : Z;
  pp_chain_magic_bytes : bytes;
  pp_max_transactions_per_block : Z;
  pp_max_transaction_wire_bytes : Z;
  pp_median_time_past_window : Z;
  pp_max_future_block_drift_seconds : Z;
}.

Definition launch_protocol_parameters (n : Network) : ProtocolParameters := {|
  pp_parameters_id := PROTOCOL_PARAMETERS_ID;
  pp_protocol_version := LAUNCH_PROTOCOL_VERSION;
  pp_block_version := LAUNCH_BLOCK_VERSION;
  pp_network := n;
  pp_network_id := network_id n;
  pp_network_name := human_name n;
  pp_status_label := status_label n;
  pp_project_name := PROJECT_NAME;
  pp_ticker := TICKER;
  pp_address_prefix := address_prefix n;
  pp_decimals := DECIMALS;
  pp_atomic_units_per_vire := ATOMIC_UNITS_PER_VIRE;
  pp_max_supply_vire := MAX_SUPPLY_VIRE;
  pp_max_supply_atomic := MAX_SUPPLY_ATOMIC;
  pp_block_time_seconds := BLOCK_TIME_SECONDS;
  pp_halving_interval_blocks := HALVING_INTERVAL_BLOCKS;
  pp_initial_block_reward_vire := INITIAL_BLOCK_REWARD_VIRE;
  pp_initial_block_reward_atomic := INITIAL_BLOCK_REWARD_ATOMIC;
  pp_consensus := CONSENSUS_STATUS;
  pp_pow_hash_algorithm := POW_HASH_ALGORITHM;
  pp_difficulty_adjustment_algorithm := DAA_ALGORITHM;
  pp_fee_policy := FEE_POLICY;
  pp_default_rpc_port := default_rpc_port n;
  pp_default_p2p_port := default_p2p_port n;
  pp_chain_magic_bytes := chain_magic_bytes n;
  pp_max_transactions_per_block := MAX_TRANSACTIONS_PER_BLOCK;
  pp_max_transaction_wire_bytes := MAX_TRANSACTION_WIRE_BYTES;
  pp_median_time_past_window := MEDIAN_TIME_PAST_WINDOW;
  pp_max_future_block_drift_seconds := MAX_FUTURE_BLOCK_DRIFT_SECONDS;
|}.

(** * Standards ([standards.rs]) *)

Module Standards.
Definition ADDRESS_STANDARD_ID : string := "vireon-address-bech32m-ed25519-v1".
Definition SIGNATURE_STANDARD_ID : string := "vireon-signature-ed25519-v1".
Definition KEY_DERIVATION_POLICY_ID : string := "vireon-key-ed25519-v1".
Definition WALLET_SEED_STANDARD_ID : string := "vireon-wallet-bip39-slip10-v1".
Definition ADDRESS_ENCODING : string := "Bech32m".
Definition ADDRESS_CHECKSUM_RULE : string := "Bech32m canonical lowercase checksum".
Definition ADDRESS_PAYLOAD_LAYOUT : string := "version-byte || ed25519-public-key".
Definition ADDRESS_CANONICAL_CASE : string := "lowercase".
Definition ADDRESS_VERSION : Z := 0.
Definition ADDRESS_PAYLOAD_SIZE : Z := 33.
Definition PUBLIC_KEY_SCHEME : string := "ed25519".
Definition PRIVATE_KEY_FORMAT : string := "raw 32-byte ed25519 signing seed".
Definition SIGNATURE_SCHEME : string := "ed25519".
Definition SIGNATURE_IMPLEMENTATION_STATUS : string :=
  "Prototype implementation on frozen launch standard".
Definition TX_SIGNING_DOMAIN : string := "veiron-tx-ed25519-v1".
Definition HD_DERIVATION_PURPOSE : Z := 44.
Definition HD_DERIVATION_COIN_TYPE : Z := 7330.

Record AddressStandard := {
  as_standard_id : string;
  as_network_id : string;
  as_network_name : string;
  as_address_prefix : string;
  as_encoding : string;
  as_checksum_rule : string;
  as_canonical_case : string;
  as_payload_version : Z;
  as_payload_size_bytes : Z;
  as_payload_layout : string;
  as_public_key_scheme : string;
}.

Record SigningStandard := {
  ss_standard_id : string;
  ss_public_key_scheme : string;
  ss_private_key_format : string;
  ss_signature_scheme : string;
  ss_public_key_size_bytes : Z;
  ss_signature_size_bytes : Z;
  ss_tx_signing_domain : string;
  ss_implementation_status : string;
}.

Definition launch_address_standard (n : Network) : AddressStandard := {|
  as_standard_id := ADDRESS_STANDARD_ID;
  as_network_id := network_id n;
  as_network_name := human_name n;
  as_address_prefix := address_prefix n;
  as_encoding := ADDRESS_ENCODING;
  as_checksum_rule := ADDRESS_CHECKSUM_RULE;
  as_canonical_case := ADDRESS_CANONICAL_CASE;
  as_payload_version := ADDRESS_VERSION;
  as_payload_size_bytes := ADDRESS_PAYLOAD_SIZE;
  as_payload_layout := ADDRESS_PAYLOAD_LAYOUT;
  as_public_key_scheme := PUBLIC_KEY_SCHEME;
|}.

Definition launch_signing_standard : SigningStandard := {|
  ss_standard_id := SIGNATURE_STANDARD_ID;
  ss_public_key_scheme := PUBLIC_KEY_SCHEME;
  ss_private_key_format := PRIVATE_KEY_FORMAT;
  ss_signature_scheme := SIGNATURE_SCHEME;
  ss_public_key_size_bytes := 32;
  ss_signature_size_bytes := 64;
  ss_tx_signing_domain := TX_SIGNING_DOMAIN;
  ss_implementation_status := SIGNATURE_IMPLEMENTATION_STATUS;
|}.
End Standards.
Export Standards.

(** * Lemmas *)

Lemma from_network_id_id n : from_network_id (network_id n) = Some n.
Proof. by destruct n. Qed.

Lemma from_address_prefix_prefix n : from_address_prefix (address_prefix n) = Some n.
Proof. by destruct n. Qed.

Lemma network_id_inj n m : network_id n = network_id m → n = m.
Proof. by destruct n, m. Qed.

Lemma difficulty_bounds_ordered n :
  0 < minimum_difficulty_leading_zero_bits n <= maximum_difficulty_leading_zero_bits n ∧
  maximum_difficulty_leading_zero_bits n < 128.
Proof. destruct n; simpl; lia. Qed.

(** The network identifier, the address prefix and the command-line name each
    determine the network, and nothing else parses. *)
Theorem network_names_roundtrip s n :
  (from_network_id s = Some n ↔ s = network_id n) ∧
  (from_address_prefix s = Some n ↔ s = address_prefix n) ∧
  Network_from_str (network_id n) = Ok n.
Proof.
  unfold from_network_id, from_address_prefix.
  repeat split; destruct n; repeat case_decide; subst; naive_solver.
Qed.
