(* ===== verification/Amount.v ===== *)
(** [vireon-core/src/amount.rs]: the [Amount(u64)] newtype, its checked
    arithmetic and its decimal text. *)

From S2P Require Import Prelude RustStd Errors Network.

(** [struct Amount(u64)] *)
Abbreviation Amount := Z (only parsing).

Definition Amount_ZERO : Amount := 0.

Definition amount_checked_add (a b : Amount) : Result Amount :=
  ok_or AmountOverflow (checked_add 64 a b).

Definition amount_checked_sub (a b : Amount) : Result Amount :=
  ok_or AmountOverflow (checked_sub a b).

Definition DOT : byte := byte_of_Z 46.
Definition ZERO_DIGIT : byte := byte_of_Z 48.

(** [{fractional:0width$}] *)
Definition pad_left (width : nat) (l : bytes) : bytes :=
  replicate (width - length l) ZERO_DIGIT ++ l.

Definition format_vire (a : Amount) : string :=
  let whole := a / ATOMIC_UNITS_PER_VIRE in
  let fractional := a mod ATOMIC_UNITS_PER_VIRE in
  str_of_bytes (uint_bytes whole ++ DOT :: pad_left (Z.to_nat DECIMALS) (uint_bytes fractional)).

(** [while padded.len() < DECIMALS { padded.push('0') }] *)
Definition pad_right (width : nat) (l : bytes) : bytes :=
  l ++ replicate (width - length l) ZERO_DIGIT.

Definition parse_vire (input : string) : Result Amount :=
  let trimmed := trim_bytes (str_bytes input) in
  let trimmed_s := str_of_bytes trimmed in
  if bool_decide (trimmed = []) then Err (AmountParse input) else
  let '(whole_part, fractional_part, extra) :=
    match split_on DOT trimmed with
    | [] => ([], None, false)
    | [w] => (w, None, false)
    | [w; f] => (w, Some f, false)
    | w :: f :: _ :: _ => (w, Some f, true)
    end in
  if extra : bool then Err (AmountParse trimmed_s) else
  whole_value ← (if bool_decide (whole_part = []) then Ok 0
                 else ok_or (AmountParse trimmed_s) (parse_uint_bytes 64 whole_part));
  whole_atomic ← ok_or AmountOverflow (checked_mul 64 whole_value ATOMIC_UNITS_PER_VIRE);
  fractional_atomic ←
    match fractional_part with
    | Some part =>
        if Z.of_nat (length part) >? DECIMALS then Err (TooManyDecimals trimmed_s DECIMALS)
        else
          let padded := pad_right (Z.to_nat DECIMALS) part in
          if bool_decide (padded = []) then Ok 0
          else ok_or (AmountParse trimmed_s) (parse_uint_bytes 64 padded)
    | None => Ok 0
    end;
  total ← ok_or AmountOverflow (checked_add 64 whole_atomic fractional_atomic);
  if total >? MAX_SUPPLY_ATOMIC
  then Err (AmountParse (trimmed_s ++ " exceeds max supply")%string)
  else Ok total.

(** * Lemmas *)

Lemma amount_add_Ok a b c :
  amount_checked_add a b = Ok c ↔ c = a + b ∧ a + b <= umax 64.
Proof. unfold amount_checked_add. by rewrite ok_or_Ok, checked_add_iff. Qed.

Lemma amount_sub_Ok a b c : amount_checked_sub a b = Ok c ↔ c = a - b ∧ b <= a.
Proof. unfold amount_checked_sub. by rewrite ok_or_Ok, checked_sub_iff. Qed.

Lemma amount_add_total a b : a + b <= umax 64 → amount_checked_add a b = Ok (a + b).
Proof. intros. by apply amount_add_Ok. Qed.

Lemma amount_sub_total a b : b <= a → amount_checked_sub a b = Ok (a - b).
Proof. intros. by apply amount_sub_Ok. Qed.

#[export] Hint Resolve amount_add_total amount_sub_total : vireon.

Definition all_digits (l : bytes) : Prop := Forall (λ b, 48 <= byte_Z b <= 57) l.

Lemma uint_bytes_digits z : 0 <= z → all_digits (uint_bytes z).
Proof.
  intros Hz. unfold all_digits, uint_bytes. apply Forall_fmap.
  eapply Forall_impl; [by apply dec_digits_range|].
  intros d Hd; cbn beta in Hd. unfold compose. rewrite byte_Z_digit_byte by done. lia.
Qed.

Lemma all_digits_graphic l : all_digits l → Forall (λ b, graphic b = true) l.
Proof.
  intros H; eapply Forall_impl; [exact H|]. intros b Hb; cbn beta in Hb; unfold graphic.
  by rewrite !(proj2 (Z.leb_le _ _)) by lia.
Qed.

Lemma all_digits_no_dot l : all_digits l → DOT ∉ l.
Proof.
  unfold all_digits. intros H Hin. rewrite Forall_forall in H. specialize (H _ Hin).
  vm_compute in H. naive_solver.
Qed.

Lemma parse_uint_digits w l : l ≠ [] → all_digits l → parse_uint_bytes w l = parse_digits w 0 l.
Proof.
  intros Hne H. destruct l as [|b l]; [done|]. inversion H; subst.
  assert ((byte_Z b =? 43) = false) as E1 by (apply Z.eqb_neq; lia).
  assert ((byte_Z b =? 45) = false) as E2 by (apply Z.eqb_neq; lia).
  destruct l; cbn [parse_uint_bytes]; rewrite E1; [rewrite E2|]; done.
Qed.

Lemma parse_digits_zeros w k l :
  0 <= umax w → parse_digits w 0 (replicate k ZERO_DIGIT ++ l) = parse_digits w 0 l.
Proof.
  intros Hw. induction k as [|k IH]; [done|].
  change (replicate (S k) ZERO_DIGIT ++ l) with (ZERO_DIGIT :: replicate k ZERO_DIGIT ++ l).
  change ZERO_DIGIT with (digit_byte 0) at 1. cbn [parse_digits].
  rewrite byte_digit_byte by lia. cbn [mbind option_bind].
  rewrite checked_mul_Some by lia. cbn [mbind option_bind].
  by rewrite checked_add_Some by lia.
Qed.

Lemma all_digits_pad_left k l : all_digits l → all_digits (pad_left k l).
Proof.
  intros H. apply Forall_app; split; [|done].
  apply Forall_replicate. vm_compute. split; discriminate.
Qed.

Lemma dec_digits_length fuel n z :
  0 <= z < 10 ^ Z.of_nat n → (0 < n)%nat → (length (dec_digits fuel z) <= n)%nat.
Proof.
  revert n z; induction fuel as [|f IH]; intros n z Hz Hn; simpl; [lia|].
  destruct (z <? 10) eqn:E; breflect; [simpl; lia|].
  destruct n as [|[|n]]; [lia | simpl in Hz; lia |].
  rewrite length_app; simpl. rewrite Nat2Z.inj_succ, Z.pow_succ_r in Hz by lia.
  assert (length (dec_digits f (z / 10)) <= S n)%nat; [|lia].
  apply IH; [|lia]. split; [apply Z.div_pos; lia|]. apply Z.div_lt_upper_bound; lia.
Qed.

Lemma parse_vire_unfold whole frac :
  all_digits whole → all_digits frac → whole ≠ [] → length frac = Z.to_nat DECIMALS →
  parse_vire (str_of_bytes (whole ++ DOT :: frac)) =
  (wv ← ok_or (AmountParse (str_of_bytes (whole ++ DOT :: frac))) (parse_digits 64 0 whole);
   wa ← ok_or AmountOverflow (checked_mul 64 wv ATOMIC_UNITS_PER_VIRE);
   fa ← ok_or (AmountParse (str_of_bytes (whole ++ DOT :: frac))) (parse_digits 64 0 frac);
   total ← ok_or AmountOverflow (checked_add 64 wa fa);
   if total >? MAX_SUPPLY_ATOMIC
   then Err (AmountParse (str_of_bytes (whole ++ DOT :: frac) ++ " exceeds max supply")%string)
   else Ok total).
Proof.
  intros Hw Hf Hne Hlen. unfold parse_vire. rewrite str_bytes_of_bytes.
  rewrite trim_bytes_graphic.
  2:{ apply Forall_app; split; [by apply all_digits_graphic|].
      constructor; [done | by apply all_digits_graphic]. }
  rewrite bool_decide_false by (intros H; by destruct whole).
  rewrite split_on_app, split_on_no_sep by (by apply all_digits_no_dot).
  cbv beta iota zeta.
  rewrite (bool_decide_false (whole = [])), (parse_uint_digits 64 whole) by done.
  rewrite Hlen. change (Z.of_nat (Z.to_nat DECIMALS) >? DECIMALS) with false.
  unfold pad_right. rewrite Hlen, Nat.sub_diag, app_nil_r.
  assert (frac ≠ []) by (intros ->; by vm_compute in Hlen).
  by rewrite bool_decide_false, parse_uint_digits by done.
Qed.

Lemma pad_left_fraction f :
  0 <= f < ATOMIC_UNITS_PER_VIRE →
  length (pad_left (Z.to_nat DECIMALS) (uint_bytes f)) = Z.to_nat DECIMALS ∧
  parse_digits 64 0 (pad_left (Z.to_nat DECIMALS) (uint_bytes f)) = Some f.
Proof.
  intros Hf. unfold pad_left, uint_bytes. rewrite length_app, length_replicate, length_fmap.
  assert (length (dec_digits 39 f) <= 8)%nat.
  { apply dec_digits_length; [|lia]. unfold ATOMIC_UNITS_PER_VIRE in Hf. simpl; lia. }
  split; [unfold DECIMALS; lia|].
  rewrite parse_digits_zeros by (vm_compute; done).
  assert (f <= umax 64) by (unfold ATOMIC_UNITS_PER_VIRE, umax in *; lia).
  assert (f < 10 ^ Z.of_nat 39) by (unfold ATOMIC_UNITS_PER_VIRE in *; lia).
  apply parse_digits_dec; lia.
Qed.

(** Formatting an amount up to the supply cap and parsing the text gives the
    amount back; conversely whatever parses is within the cap. *)
Theorem parse_format_vire a :
  0 <= a <= MAX_SUPPLY_ATOMIC → parse_vire (format_vire a) = Ok a.
Proof.
  intros Ha. unfold format_vire.
  set (w := a / ATOMIC_UNITS_PER_VIRE). set (f := a mod ATOMIC_UNITS_PER_VIRE).
  assert (Hf : 0 <= f < ATOMIC_UNITS_PER_VIRE) by (apply Z.mod_pos_bound; done).
  assert (Hsum : w * ATOMIC_UNITS_PER_VIRE + f = a).
  { unfold w, f. rewrite (Z.mul_comm _ ATOMIC_UNITS_PER_VIRE). symmetry. by apply Z.div_mod. }
  assert (Hw : 0 <= w <= 60000000).
  { unfold ATOMIC_UNITS_PER_VIRE, MAX_SUPPLY_ATOMIC in *. lia. }
  destruct (pad_left_fraction f Hf) as [Hlen Hpf].
  rewrite parse_vire_unfold; [..|done].
  - rewrite Hpf. unfold uint_bytes. rewrite parse_digits_dec by (unfold umax; lia).
    cbn [ok_or mbind result_bind].
    unfold ATOMIC_UNITS_PER_VIRE, MAX_SUPPLY_ATOMIC in *.
    rewrite checked_mul_Some by (unfold umax; lia). cbn [ok_or mbind result_bind].
    rewrite checked_add_Some by (unfold umax; lia). cbn [ok_or mbind result_bind].
    rewrite Hsum. destruct (a >? 6000000000000000) eqn:E; [|done].
    apply Z.gtb_lt in E. lia.
  - apply uint_bytes_digits; lia.
  - apply all_digits_pad_left, uint_bytes_digits; lia.
  - unfold uint_bytes. intros H%fmap_nil_inv. by apply dec_digits_nonempty in H; [|lia].
Qed.

Lemma parse_digits_nonneg w acc l v : 0 <= acc → parse_digits w acc l = Some v → 0 <= v.
Proof.
  revert acc; induction l as [|b l IH]; intros acc Hacc; simpl; [by intros [= <-]|].
  unfold byte_digit. destruct (_ && _)%bool eqn:E; simpl; [breflect|done].
  unfold checked_mul, checked_add.
  destruct (_ <=? _); simpl; [|done]. destruct (_ <=? _); simpl; [|done].
  apply IH. lia.
Qed.

Lemma parse_uint_bytes_nonneg w l v : parse_uint_bytes w l = Some v → 0 <= v.
Proof.
  destruct l as [|b [|c l]]; cbn [parse_uint_bytes]; [done|..];
    case_match; try done; by apply parse_digits_nonneg.
Qed.

Lemma parse_digits_max w acc l v : acc <= umax w → parse_digits w acc l = Some v → v <= umax w.
Proof.
  revert acc; induction l as [|b l IH]; intros acc Hacc; simpl; [by intros [= <-]|].
  destruct (byte_digit b); simpl; [|done]. unfold checked_mul, checked_add.
  destruct (_ <=? _); simpl; [|done]. destruct (_ <=? _) eqn:E; simpl; [|done].
  apply IH. by apply Z.leb_le.
Qed.

Lemma parse_uint_bytes_max w l v : 0 <= w → parse_uint_bytes w l = Some v → v <= umax w.
Proof.
  intros Hw. assert (0 <= umax w) by (unfold umax; pose proof (Z.pow_pos_nonneg 2 w); lia).
  destruct l as [|b [|c l]]; cbn [parse_uint_bytes]; [done|..];
    case_match; try done; by apply parse_digits_max.
Qed.

(** Whatever text parses denotes an amount within the supply cap. *)
Theorem parse_vire_bounded s a : parse_vire s = Ok a → 0 <= a <= MAX_SUPPLY_ATOMIC.
Proof.
  unfold parse_vire. intros H. guard_inv.
  destruct (split_on _ _) as [|w [|f [|? ?]]] eqn:Hs; guard_inv; try discriminate H;
    repeat (apply bind_Ok in H; destruct H as (? & ? & H));
    (destruct (_ >? _) eqn:E in H; [discriminate|]); injection H as <-;
    rewrite Z.gtb_ltb in E; breflect.
  all: repeat match goal with
    | H : (if ?b then _ else _) = Ok _ |- _ => destruct b; try discriminate H
    | H : ok_or _ _ = Ok _ |- _ => apply ok_or_Ok in H
    | H : Ok _ = Ok _ |- _ => injection H as <-
    | H : parse_uint_bytes _ _ = Some _ |- _ => apply parse_uint_bytes_nonneg in H
    | H : checked_mul _ _ _ = Some _ |- _ => apply checked_mul_iff in H
    | H : checked_add _ _ _ = Some _ |- _ => apply checked_add_iff in H
    end.
  all: unfold ATOMIC_UNITS_PER_VIRE in *; lia.
Qed.

(** [u64::from_str] accepts a leading ['+'], so a sign after the decimal point is
    read as a shorter fraction instead of being rejected. *)
Theorem parse_vire_accepts_plus : parse_vire "1.+5" = Ok 105000000 ∧ parse_vire "1.05" = Ok 105000000.
Proof. by split; vm_compute. Qed.

Lemma parse_format_vire_witness :
  0 <= 1902587519 <= MAX_SUPPLY_ATOMIC ∧ parse_vire (format_vire 1902587519) = Ok 1902587519.
Proof.
  split; [unfold MAX_SUPPLY_ATOMIC; lia|].
  apply (parse_format_vire 1902587519). unfold MAX_SUPPLY_ATOMIC; lia.
Defined.

Lemma parse_vire_bounded_witness :
  parse_vire "19.02587519" = Ok 1902587519 ∧ 0 <= 1902587519 <= MAX_SUPPLY_ATOMIC.
Proof. split; [by vm_compute | by apply (parse_vire_bounded "19.02587519"); vm_compute]. Defined.
