(* ===== verification/Signing.v ===== *)
(** [vireon-core/src/signing.rs]: ed25519 key and signature newtypes, their hex
    text, signing and verification. *)

From S2P Require Import Prelude RustStd Interfaces Crypto Errors.

(** [struct PublicKey([u8; 32])], [Signature([u8; 64])], [PrivateKey([u8; 32])] *)
Abbreviation PublicKey := (list byte).
Abbreviation Signature := (list byte).
Abbreviation PrivateKey := (list byte).

Definition PublicKey_SIZE : nat := 32.
Definition Signature_SIZE : nat := 64.
Definition PrivateKey_SIZE : nat := 32.

Definition signing_decode_hex_nibble (b : byte) : Result Z :=
  let z := byte_Z b in
  if (48 <=? z) && (z <=? 57) then Ok (z - 48)
  else if (97 <=? z) && (z <=? 102) then Ok (z - 97 + 10)
  else if (65 <=? z) && (z <=? 70) then Ok (z - 65 + 10)
  else Err (InvalidHex (invalid_hex_message b)).

Fixpoint parse_hex_loop (l : bytes) : Result bytes :=
  match l with
  | a :: b :: l' =>
      hi ← signing_decode_hex_nibble a;
      lo ← signing_decode_hex_nibble b;
      rest ← parse_hex_loop l';
      Ok (byte_of_Z (Z.lor (Z.shiftl hi 4) lo) :: rest)
  | _ => Ok []
  end.

(** [parse_hex_array::<N>] *)
Definition parse_hex_array (N : nat) (input : string) : Result bytes :=
  let trimmed := trim_bytes (str_bytes input) in
  if negb (Z.of_nat (length trimmed) =? Z.of_nat N * 2) then
    Err (InvalidHex (hex_length_message (Z.of_nat N * 2) (Z.of_nat (length trimmed))))
  else parse_hex_loop trimmed.

Definition bytes_to_hex (l : bytes) : string := str_of_bytes (hex_bytes l).

Section signing.
Context `{Primitives}.

Definition PublicKey_from_bytes (b : bytes) : Result PublicKey :=
  _ ← map_err InvalidKey (ed25519_key_check b); Ok b.

Definition PublicKey_from_hex (input : string) : Result PublicKey :=
  b ← parse_hex_array PublicKey_SIZE input; PublicKey_from_bytes b.

Definition PublicKey_verify (pk : PublicKey) (message : bytes) (sig : Signature) : Result () :=
  _ ← map_err InvalidKey (ed25519_key_check pk);
  map_err InvalidSignature (ed25519_verify pk message sig).

(** [DalekSignature::from_bytes] is total on 64 bytes. *)
Definition Signature_from_bytes (b : bytes) : Result Signature := Ok b.

Definition Signature_from_hex (input : string) : Result Signature :=
  b ← parse_hex_array Signature_SIZE input; Signature_from_bytes b.

Definition PrivateKey_from_hex (input : string) : Result PrivateKey :=
  b ← parse_hex_array PrivateKey_SIZE input; Ok b.

Definition PrivateKey_public_key (sk : PrivateKey) : PublicKey := ed25519_public sk.
Definition PrivateKey_sign (sk : PrivateKey) (message : bytes) : Signature := ed25519_sign sk message.

(** * Lemmas *)

Lemma signing_nibble_eq b :
  signing_decode_hex_nibble b = map_err InvalidHex (decode_hex_nibble b).
Proof. unfold signing_decode_hex_nibble, decode_hex_nibble. by repeat case_match. Qed.

Lemma parse_hex_loop_hex l : parse_hex_loop (hex_bytes l) = Ok l.
Proof.
  induction l as [|b l IH]; simpl; [done|].
  destruct (nibbles_of_byte b) as (H1 & H2 & H3).
  rewrite !signing_nibble_eq, !hex_char_decode by done. simpl. by rewrite IH; simpl; rewrite H3.
Qed.

Lemma parse_hex_array_to_hex N l : length l = N → parse_hex_array N (bytes_to_hex l) = Ok l.
Proof.
  intros <-. unfold parse_hex_array, bytes_to_hex.
  rewrite str_bytes_of_bytes, trim_bytes_graphic by apply hex_bytes_graphic.
  rewrite length_hex_bytes, (proj2 (Z.eqb_eq _ _)) by lia. simpl. apply parse_hex_loop_hex.
Qed.

Lemma verify_sign `{!PrimitivesOk} sk m :
  length sk = PrivateKey_SIZE →
  PublicKey_verify (PrivateKey_public_key sk) m (PrivateKey_sign sk m) = Ok ().
Proof.
  intros Hsk. unfold PublicKey_verify, PrivateKey_public_key, PrivateKey_sign.
  rewrite (proj2 (ed25519_public_ok sk Hsk)). simpl. by rewrite ed25519_sign_verify.
Qed.

Lemma public_key_wf `{!PrimitivesOk} sk :
  length sk = PrivateKey_SIZE → length (PrivateKey_public_key sk) = PublicKey_SIZE.
Proof. apply ed25519_public_ok. Qed.

Lemma sign_wf `{!PrimitivesOk} sk m :
  length sk = PrivateKey_SIZE → length (PrivateKey_sign sk m) = Signature_SIZE.
Proof. apply ed25519_sign_length. Qed.

End signing.


