(* ===== verification/Address.v ===== *)
(** [vireon-core/src/address.rs]: an address is a network and a 33-byte payload
    (version byte, ed25519 key), written in lowercase Bech32m. *)

From S2P Require Import Prelude RustStd Interfaces Crypto Errors Network Signing.

(** [struct Address] *)
Record Address := mkAddress { addr_network : Network; addr_payload : bytes }.

#[global] Instance Address_eq_dec : EqDecision Address.
Proof. solve_decision. Defined.

Section address.
Context `{Primitives}.

Definition from_public_key_for_network (pk : PublicKey) (n : Network) : Address :=
  mkAddress n (byte_of_Z ADDRESS_VERSION :: pk).

(** [impl Display for Address]; encoding a 33-byte payload cannot fail, and the
    empty string stands for the [fmt::Error] [to_string] would panic on. *)
Definition Address_to_string (a : Address) : string :=
  unwrap_or "" (bech32_encode (address_prefix (addr_network a)) (to_base32 (addr_payload a)) Bech32m).

(** [Address::parse].  [str::to_lowercase] is modelled on the ASCII letters: any
    other text is rejected by the Bech32 decoder with the same constructor. *)
Definition Address_parse (input : string) : Result Address :=
  if negb (is_lowercase input) then
    Err (InvalidAddress "address must use lowercase canonical encoding") else
  '(hrp, data, variant) ← map_err InvalidAddress (bech32_decode input);
  network ← ok_or (InvalidAddress ("unsupported address prefix " ++ hrp)%string)
                  (from_address_prefix hrp);
  if negb (bool_decide (variant = Bech32m)) then
    Err (InvalidAddress "address must use Bech32m checksum") else
  payload ← map_err InvalidAddress (from_base32 data);
  if negb (Z.of_nat (length payload) =? ADDRESS_PAYLOAD_SIZE) then
    Err (InvalidAddress ("expected " ++ uint_to_string ADDRESS_PAYLOAD_SIZE
           ++ " payload bytes, got " ++ uint_to_string (Z.of_nat (length payload)))%string) else
  let version := byte_Z (hd x00 payload) in
  if negb (version =? ADDRESS_VERSION) then
    Err (InvalidAddress ("unsupported address version " ++ uint_to_string version)%string) else
  Ok (mkAddress network payload).

Definition to_public_key (a : Address) : Result PublicKey :=
  PublicKey_from_bytes (tl (addr_payload a)).

Definition Address_version (a : Address) : Z := byte_Z (hd x00 (addr_payload a)).

Definition Address_standard (a : Address) : AddressStandard :=
  launch_address_standard (addr_network a).

Definition matches_public_key (a : Address) (pk : PublicKey) : bool :=
  bool_decide (tl (addr_payload a) = pk).

(** What [parse] guarantees of every address it returns. *)
Definition address_wf (a : Address) : Prop :=
  length (addr_payload a) = 33%nat ∧ Address_version a = ADDRESS_VERSION.

Lemma Address_parse_wf s a : Address_parse s = Ok a → address_wf a.
Proof.
  unfold Address_parse, address_wf. intros H0. guard_inv. res_inv.
  repeat case_match; res_inv. guard_inv. res_inv. guard_inv. res_inv.
  breflect. unfold ADDRESS_PAYLOAD_SIZE in *. split; [lia | done].
Qed.

Lemma from_public_key_wf pk n :
  length pk = PublicKey_SIZE → address_wf (from_public_key_for_network pk n).
Proof. intros Hpk. split; [simpl; by rewrite Hpk | done]. Qed.

Lemma known_hrp_prefix n : known_hrp (address_prefix n).
Proof. destruct n; unfold known_hrp; auto. Qed.

Section laws.
Context `{!PrimitivesOk}.

Lemma Address_to_string_spec a :
  address_wf a →
  ∃ s, Address_to_string a = s ∧ bech32_decode s =
         Ok (address_prefix (addr_network a), to_base32 (addr_payload a), Bech32m) ∧
       is_lowercase s = true ∧ str_len s < 2 ^ 32 ∧ s ≠ ""%string ∧
       Forall (λ b, graphic b = true) (str_bytes s).
Proof.
  intros [Hlen _].
  destruct (bech32_encode_ok (address_prefix (addr_network a)) (addr_payload a))
    as (s & He & Hs); [apply known_hrp_prefix | lia |].
  exists s. unfold Address_to_string. by rewrite He.
Qed.

(** Parsing the text of an address gives the address back. *)
Lemma Address_parse_to_string a : address_wf a → Address_parse (Address_to_string a) = Ok a.
Proof.
  intros Hwf. destruct (Address_to_string_spec a Hwf) as (s & -> & Hd & Hl & _).
  destruct Hwf as [Hlen Hver]. unfold Address_parse. rewrite Hl. simpl. rewrite Hd. simpl.
  rewrite from_address_prefix_prefix. simpl. rewrite from_to_base32. simpl.
  rewrite Hlen. simpl. unfold Address_version in Hver. rewrite Hver. by destruct a.
Qed.

Lemma Address_to_string_inj a b :
  address_wf a → address_wf b → Address_to_string a = Address_to_string b → a = b.
Proof.
  intros Ha Hb Heq.
  pose proof (Address_parse_to_string a Ha) as Pa.
  pose proof (Address_parse_to_string b Hb) as Pb.
  rewrite Heq, Pb in Pa. by injection Pa.
Qed.

Lemma Address_to_string_nonblank a :
  address_wf a → str_trim (Address_to_string a) ≠ ""%string.
Proof.
  intros Hwf. destruct (Address_to_string_spec a Hwf) as (s & -> & _ & _ & _ & Hne & Hg).
  by rewrite str_trim_graphic.
Qed.

(** Address round trip: the text of the address of a key on a network parses back
    to that network and that key, and no other key or network has that text. *)
Theorem address_roundtrip pk n :
  length pk = PublicKey_SIZE → ed25519_key_check pk = Ok () →
  let a := from_public_key_for_network pk n in
  Address_parse (Address_to_string a) = Ok a ∧ addr_network a = n ∧ to_public_key a = Ok pk ∧
  ∀ pk' n', length pk' = PublicKey_SIZE →
    Address_to_string (from_public_key_for_network pk' n') = Address_to_string a →
    pk' = pk ∧ n' = n.
Proof.
  intros Hpk Hck a. split_and!.
  - by apply Address_parse_to_string, from_public_key_wf.
  - done.
  - unfold to_public_key, PublicKey_from_bytes. simpl. by rewrite Hck.
  - intros pk' n' Hpk' Heq%Address_to_string_inj; [|by apply from_public_key_wf..].
    unfold a, from_public_key_for_network in Heq. by injection Heq as -> ->.
Qed.

End laws.
End address.
