(* ===== verification/Transaction.v ===== *)
(** [vireon-core/src/transaction.rs]: transactions, their byte encodings, fee
    arithmetic, shape validation, signing and verification. *)

From S2P Require Import Prelude RustStd Interfaces Crypto Errors Network Amount Signing Address.

(** [struct UnsignedTransaction] *)
Record UnsignedTransaction := {
  utx_version : Z;
  utx_nonce : Z;
  utx_from : option string;
  utx_to : string;
  utx_amount : Amount;
  utx_max_fee : Amount;
  utx_priority_fee : Amount;
  utx_memo_hash : option Hash;
}.

(** [struct Transaction] *)
Record Transaction := mkTransaction {
  tx_version : Z;
  tx_nonce : Z;
  tx_from : option string;
  tx_to : string;
  tx_amount : Amount;
  tx_max_fee : Amount;
  tx_priority_fee : Amount;
  tx_memo_hash : option Hash;
  tx_sender_public_key : option PublicKey;
  tx_signature : option Signature;
}.

#[global] Instance Transaction_eq_dec : EqDecision Transaction.
Proof. solve_decision. Defined.

(** The integer fields are [u32]/[u64], the arrays have their Rust sizes and the
    string lengths fit the 32-bit prefix. *)
Definition opt_Forall {A} (P : A → Prop) (o : option A) : Prop :=
  match o with Some a => P a | None => True end.

Record tx_wf (tx : Transaction) : Prop := {
  wf_version : is_u32 (tx_version tx);
  wf_nonce : is_u64 (tx_nonce tx);
  wf_amount : is_u64 (tx_amount tx);
  wf_max_fee : is_u64 (tx_max_fee tx);
  wf_priority_fee : is_u64 (tx_priority_fee tx);
  wf_to : is_u32 (str_len (tx_to tx));
  wf_from : opt_Forall (λ s, is_u32 (str_len s)) (tx_from tx);
  wf_memo : opt_Forall hash_wf (tx_memo_hash tx);
  wf_pk : opt_Forall (λ k, length k = PublicKey_SIZE) (tx_sender_public_key tx);
  wf_sig : opt_Forall (λ s, length s = Signature_SIZE) (tx_signature tx);
}.

Definition is_some {A} (o : option A) : bool := match o with Some _ => true | None => false end.
Definition is_none {A} (o : option A) : bool := negb (is_some o).

(** [push_string]: length as [u32] (truncating cast), then the bytes. *)
Definition push_string (value : string) : bytes :=
  let b := str_bytes value in le_bytes 4 (uwrap 32 (Z.of_nat (length b))) ++ b.

Definition push_optional_string (value : option string) : bytes :=
  match value with
  | Some text => byte_of_Z 1 :: push_string text
  | None => [byte_of_Z 0]
  end.

(** The [Some => push(1); extend] / [None => push(0)] blocks. *)
Definition push_optional_bytes (value : option bytes) : bytes :=
  match value with
  | Some b => byte_of_Z 1 :: b
  | None => [byte_of_Z 0]
  end.

Definition is_coinbase (tx : Transaction) : bool :=
  is_none (tx_from tx) && is_none (tx_sender_public_key tx) && is_none (tx_signature tx).

Definition unsigned_payload (tx : Transaction) : UnsignedTransaction := {|
  utx_version := tx_version tx;
  utx_nonce := tx_nonce tx;
  utx_from := tx_from tx;
  utx_to := tx_to tx;
  utx_amount := tx_amount tx;
  utx_max_fee := tx_max_fee tx;
  utx_priority_fee := tx_priority_fee tx;
  utx_memo_hash := tx_memo_hash tx;
|}.

(** ** Fees *)

Definition fee_below_base : VireonError := InvalidFee "max fee is below the block base fee".

Definition effective_priority_fee (tx : Transaction) (base_fee : Amount) : Result Amount :=
  if is_coinbase tx then Ok Amount_ZERO else
  available_tip ← map_err (λ _, fee_below_base) (amount_checked_sub (tx_max_fee tx) base_fee);
  Ok (if tx_priority_fee tx >? available_tip then available_tip else tx_priority_fee tx).

Definition effective_fee (tx : Transaction) (base_fee : Amount) : Result Amount :=
  if is_coinbase tx then Ok Amount_ZERO else
  tip ← effective_priority_fee tx base_fee;
  amount_checked_add base_fee tip.

Definition total_debit (tx : Transaction) (base_fee : Amount) : Result Amount :=
  fee ← effective_fee tx base_fee;
  amount_checked_add (tx_amount tx) fee.

Definition validate_fee_against_base_fee (tx : Transaction) (base_fee : Amount) : Result () :=
  if is_coinbase tx then Ok () else
  if tx_max_fee tx <? base_fee then Err fee_below_base else
  _ ← effective_priority_fee tx base_fee; Ok ().

Section transaction.
Context `{Primitives}.

(** ** Shape, network, encodings *)

Definition network_mismatch (expected actual : Network) : VireonError :=
  InvalidNetwork (network_id expected) (network_id actual).

Definition Transaction_network (tx : Transaction) : Result Network :=
  recipient ← Address_parse (tx_to tx);
  _ ← match tx_from tx with
      | Some from =>
          sender ← Address_parse from;
          if negb (bool_decide (addr_network sender = addr_network recipient))
          then Err (network_mismatch (addr_network recipient) (addr_network sender))
          else Ok ()
      | None => Ok ()
      end;
  Ok (addr_network recipient).

Definition validate_shape (tx : Transaction) : Result () :=
  if str_is_empty (str_trim (tx_to tx)) then
    Err (InvalidTransaction "recipient cannot be empty") else
  _ ← Address_parse (tx_to tx);
  if tx_amount tx =? Amount_ZERO then Err ZeroAmountTransaction else
  if tx_max_fee tx >? MAX_SUPPLY_ATOMIC then
    Err (InvalidFee "max fee exceeds max supply bounds") else
  if tx_priority_fee tx >? MAX_SUPPLY_ATOMIC then
    Err (InvalidFee "priority fee exceeds max supply bounds") else
  if is_coinbase tx then
    if negb (tx_max_fee tx =? Amount_ZERO) || negb (tx_priority_fee tx =? Amount_ZERO)
    then Err (InvalidTransaction "coinbase max fee and priority fee must be zero")
    else Ok ()
  else
  if tx_priority_fee tx >? tx_max_fee tx then
    Err (InvalidFee "priority fee cannot exceed max fee") else
  if match tx_from tx with Some value => str_is_empty (str_trim value) | None => false end then
    Err (InvalidTransaction "sender cannot be empty") else
  if xorb (is_some (tx_sender_public_key tx)) (is_some (tx_signature tx)) then
    Err (InvalidTransaction
      "sender public key and signature must both be present or both be absent") else
  match tx_from tx with
  | Some from =>
      sender ← Address_parse from;
      recipient ← Address_parse (tx_to tx);
      if negb (bool_decide (addr_network sender = addr_network recipient))
      then Err (network_mismatch (addr_network recipient) (addr_network sender))
      else Ok ()
  | None => Ok ()
  end.

(** The fields both encodings share, after their different prefixes. *)
Definition payload_fields (p : UnsignedTransaction) : bytes :=
  le_bytes 4 (utx_version p) ++ le_bytes 8 (utx_nonce p) ++
  push_optional_string (utx_from p) ++ push_string (utx_to p) ++
  le_bytes 8 (utx_amount p) ++ le_bytes 8 (utx_max_fee p) ++
  le_bytes 8 (utx_priority_fee p) ++ push_optional_bytes (utx_memo_hash p).

Definition unsigned_payload_bytes (tx : Transaction) : bytes :=
  let nid := match Transaction_network tx with
             | Ok n => network_id n
             | Err _ => "unknown-network"%string
             end in
  TX_SIGNING_DOMAIN_PREFIX ++ push_string nid ++ payload_fields (unsigned_payload tx).

Definition legacy_encode (tx : Transaction) : bytes := payload_fields (unsigned_payload tx).

Definition encode (tx : Transaction) : bytes :=
  if is_none (tx_sender_public_key tx) && is_none (tx_signature tx) then legacy_encode tx
  else unsigned_payload_bytes tx ++ push_optional_bytes (tx_sender_public_key tx)
       ++ push_optional_bytes (tx_signature tx).

Definition tx_hash (tx : Transaction) : Hash := double_sha256 (encode tx).
Definition tx_hash_hex (tx : Transaction) : string := hash_to_hex (tx_hash tx).

(** ** Constructors, signing, verification *)

Definition Transaction_new (version nonce : Z) (from : option string) (to : string)
    (amount max_fee priority_fee : Amount) (memo_hash : option Hash) : Result Transaction :=
  let tx := mkTransaction version nonce from to amount max_fee priority_fee memo_hash None None in
  _ ← validate_shape tx; Ok tx.

Definition Transaction_coinbase (height : Z) (to : string) (amount : Amount) : Result Transaction :=
  Transaction_new 1 height None to amount Amount_ZERO Amount_ZERO None.

Definition set_authorization (pk : PublicKey) (sig : Signature) (tx : Transaction) : Transaction :=
  mkTransaction (tx_version tx) (tx_nonce tx) (tx_from tx) (tx_to tx) (tx_amount tx)
    (tx_max_fee tx) (tx_priority_fee tx) (tx_memo_hash tx) (Some pk) (Some sig).

(** [&mut self]: the key and signature are stored before the last check. *)
Definition Transaction_sign (private_key : PrivateKey) : state_result Transaction VireonError () :=
  tx ← sr_get;
  let public_key := PrivateKey_public_key private_key in
  from ← sr_lift (ok_or (InvalidTransaction "coinbase transactions cannot be signed") (tx_from tx));
  sender_address ← sr_lift (Address_parse from);
  let expected_from :=
    Address_to_string (from_public_key_for_network public_key (addr_network sender_address)) in
  _ ← sr_lift (ensure (bool_decide (from = expected_from))
        (InvalidTransaction "sender address does not match signing key"));
  let sig := PrivateKey_sign private_key (unsigned_payload_bytes tx) in
  _ ← sr_modify (set_authorization public_key sig);
  tx' ← sr_get;
  sr_lift (validate_shape tx').

Definition Transaction_new_signed (version nonce : Z) (n : Network) (private_key : PrivateKey)
    (to : string) (amount max_fee priority_fee : Amount) (memo_hash : option Hash)
    : Result Transaction :=
  let from := Address_to_string
    (from_public_key_for_network (PrivateKey_public_key private_key) n) in
  tx ← Transaction_new version nonce (Some from) to amount max_fee priority_fee memo_hash;
  let '(r, tx') := Transaction_sign private_key tx in
  _ ← r; Ok tx'.

Definition Transaction_verify (tx : Transaction) : Result () :=
  _ ← validate_shape tx;
  if is_coinbase tx then Ok () else
  from ← ok_or (InvalidTransaction "non-coinbase transaction requires sender") (tx_from tx);
  sender_public_key ←
    ok_or (InvalidTransaction "non-coinbase transaction requires sender public key")
          (tx_sender_public_key tx);
  signature ←
    ok_or (InvalidTransaction "non-coinbase transaction requires signature") (tx_signature tx);
  sender_address ← Address_parse from;
  recipient_address ← Address_parse (tx_to tx);
  if negb (bool_decide (addr_network sender_address = addr_network recipient_address))
  then Err (network_mismatch (addr_network recipient_address) (addr_network sender_address)) else
  let derived_address :=
    Address_to_string (from_public_key_for_network sender_public_key (addr_network sender_address)) in
  if negb (bool_decide (derived_address = from)) then
    Err (InvalidTransaction "sender address does not match sender public key") else
  PublicKey_verify sender_public_key (unsigned_payload_bytes tx) signature.

End transaction.

(** * Fee lemmas *)

Lemma effective_priority_fee_Ok tx base tip :
  is_coinbase tx = false →
  effective_priority_fee tx base = Ok tip ↔
  base <= tx_max_fee tx ∧ tip = Z.min (tx_priority_fee tx) (tx_max_fee tx - base).
Proof.
  intros Hc. unfold effective_priority_fee. rewrite Hc, bind_Ok. split.
  - intros (avail & Ha & [= <-]). rewrite map_err_Ok, amount_sub_Ok in Ha.
    destruct Ha as [-> ?]. split; [done|].
    destruct (_ >? _) eqn:E; rewrite Z.gtb_ltb in E; blia.
  - intros [Hb ->]. exists (tx_max_fee tx - base). rewrite amount_sub_total by done.
    split; [done|]. f_equal. destruct (_ >? _) eqn:E; rewrite Z.gtb_ltb in E; blia.
Qed.

Lemma effective_priority_fee_coinbase tx base :
  is_coinbase tx = true → effective_priority_fee tx base = Ok 0.
Proof. intros Hc. unfold effective_priority_fee. by rewrite Hc. Qed.

Lemma validate_fee_Ok tx base :
  is_coinbase tx = false →
  validate_fee_against_base_fee tx base = Ok () ↔ base <= tx_max_fee tx.
Proof.
  intros Hc. unfold validate_fee_against_base_fee. rewrite Hc.
  destruct (tx_max_fee tx <? base) eqn:E; breflect.
  - split; [done | intros ?; exfalso; lia].
  - split; [done|]. intros _.
    destruct (effective_priority_fee tx base) eqn:Hp; [done|].
    unfold effective_priority_fee in Hp. rewrite Hc, amount_sub_total in Hp by done. done.
Qed.

(** A payer never pays more than [max_fee]: the fee charged is the base fee plus
    a tip of at most [priority_fee], it never overflows, and the base-fee check
    decides exactly whether it is defined. *)
Theorem effective_fee_bounds tx base :
  is_coinbase tx = false → is_u64 (tx_max_fee tx) → 0 <= base → 0 <= tx_priority_fee tx →
  (validate_fee_against_base_fee tx base = Ok () ↔ base <= tx_max_fee tx) ∧
  (base <= tx_max_fee tx → ∃ tip fee,
     effective_priority_fee tx base = Ok tip ∧ effective_fee tx base = Ok fee ∧
     fee = base + tip ∧ 0 <= tip <= tx_priority_fee tx ∧ fee <= tx_max_fee tx) ∧
  (tx_max_fee tx < base → effective_fee tx base = Err fee_below_base).
Proof.
  intros Hc Hm Hb Hp. split_and!; [by apply validate_fee_Ok | |].
  - intros Hle. exists (Z.min (tx_priority_fee tx) (tx_max_fee tx - base)), (base + Z.min (tx_priority_fee tx) (tx_max_fee tx - base)).
    assert (effective_priority_fee tx base = Ok (Z.min (tx_priority_fee tx) (tx_max_fee tx - base)))
      as E by (by apply effective_priority_fee_Ok).
    split_and!; [done | | done | lia | lia | lia].
    unfold effective_fee. rewrite Hc, E. simpl. apply amount_add_total.
    unfold in_width, umax in *. lia.
  - intros Hlt. unfold effective_fee, effective_priority_fee, amount_checked_sub, checked_sub.
    rewrite Hc. by rewrite (proj2 (Z.leb_gt _ _)).
Qed.

Lemma effective_fee_Ok tx base fee :
  is_coinbase tx = false →
  effective_fee tx base = Ok fee ↔
  base <= tx_max_fee tx ∧
  fee = base + Z.min (tx_priority_fee tx) (tx_max_fee tx - base) ∧ fee <= umax 64.
Proof.
  intros Hc. unfold effective_fee. rewrite Hc, bind_Ok. split.
  - intros (tip & [Hle ->]%effective_priority_fee_Ok & [-> ?]%amount_add_Ok); done.
  - intros (Hle & -> & Hmax). eexists; split; [by apply effective_priority_fee_Ok|].
    by apply amount_add_total.
Qed.

Lemma total_debit_Ok tx base d :
  is_coinbase tx = false →
  total_debit tx base = Ok d ↔
  base <= tx_max_fee tx ∧
  d = tx_amount tx + base + Z.min (tx_priority_fee tx) (tx_max_fee tx - base) ∧
  base + Z.min (tx_priority_fee tx) (tx_max_fee tx - base) <= umax 64 ∧ d <= umax 64.
Proof.
  intros Hc. unfold total_debit. rewrite bind_Ok. split.
  - intros (fee & (? & -> & ?)%effective_fee_Ok & [-> ?]%amount_add_Ok); [|done].
    split_and!; lia.
  - intros (Hle & -> & Hf & Hmax). eexists; split; [by apply effective_fee_Ok|].
    apply amount_add_Ok. split; lia.
Qed.

(** * Encoding lemmas: every field encoder is prefix-free *)

Lemma push_string_inj s t r q :
  is_u32 (str_len s) → is_u32 (str_len t) →
  push_string s ++ r = push_string t ++ q → s = t ∧ r = q.
Proof.
  unfold push_string, str_len, uwrap. intros Hs Ht. cbv zeta. rewrite <- !app_assoc.
  intros H%app_inj_1; [|by rewrite !length_le_bytes].
  destruct H as [Hl H]. rewrite !Z.mod_small in Hl by done.
  apply le_bytes_inj_u32 in Hl; [|done..].
  apply app_inj_1 in H; [|lia]. destruct H as [H ->]. by apply str_bytes_inj in H.
Qed.

Lemma cons_same_inv {A} (x : A) l k : x :: l = x :: k → l = k.
Proof. congruence. Qed.

Lemma push_optional_string_inj o p r q :
  opt_Forall (λ s, is_u32 (str_len s)) o → opt_Forall (λ s, is_u32 (str_len s)) p →
  push_optional_string o ++ r = push_optional_string p ++ q → o = p ∧ r = q.
Proof.
  destruct o as [s|], p as [t|]; cbn [push_optional_string opt_Forall app];
    intros Hs Ht H; try done; apply cons_same_inv in H; [|done].
  by apply push_string_inj in H as [-> ->].
Qed.

Lemma push_optional_bytes_inj n o p r q :
  opt_Forall (λ b, length b = n) o → opt_Forall (λ b, length b = n) p →
  push_optional_bytes o ++ r = push_optional_bytes p ++ q → o = p ∧ r = q.
Proof.
  destruct o as [s|], p as [t|]; cbn [push_optional_bytes opt_Forall app];
    intros Hs Ht H; try done; apply cons_same_inv in H; [|done].
  apply app_inj_1 in H as [-> ->]; [done | congruence].
Qed.

Lemma le_bytes_app_inj n a b r q :
  0 <= a < 256 ^ Z.of_nat n → 0 <= b < 256 ^ Z.of_nat n →
  le_bytes n a ++ r = le_bytes n b ++ q → a = b ∧ r = q.
Proof.
  intros Ha Hb H. apply app_inj_1 in H as [H ->]; [|by rewrite !length_le_bytes].
  by apply le_bytes_inj in H.
Qed.

Lemma payload_fields_inj a b r q :
  tx_wf a → tx_wf b →
  payload_fields (unsigned_payload a) ++ r = payload_fields (unsigned_payload b) ++ q →
  unsigned_payload a = unsigned_payload b ∧ r = q.
Proof.
  intros [] []. unfold payload_fields. cbn [unsigned_payload utx_version utx_nonce utx_from
    utx_to utx_amount utx_max_fee utx_priority_fee utx_memo_hash].
  rewrite <- !app_assoc. intros H.
  apply (le_bytes_app_inj 4) in H as [E1 H]; [|done..].
  apply (le_bytes_app_inj 8) in H as [E2 H]; [|done..].
  apply push_optional_string_inj in H as [E3 H]; [|done..].
  apply push_string_inj in H as [E4 H]; [|done..].
  apply (le_bytes_app_inj 8) in H as [E5 H]; [|done..].
  apply (le_bytes_app_inj 8) in H as [E6 H]; [|done..].
  apply (le_bytes_app_inj 8) in H as [E7 H]; [|done..].
  apply (push_optional_bytes_inj 32) in H as [E8 H]; [|done..].
  split; [|done]. unfold unsigned_payload. by rewrite E1, E2, E3, E4, E5, E6, E7, E8.
Qed.

Lemma transaction_eq a b :
  unsigned_payload a = unsigned_payload b →
  tx_sender_public_key a = tx_sender_public_key b → tx_signature a = tx_signature b → a = b.
Proof. destruct a, b; unfold unsigned_payload; simpl; intros [=]; naive_solver. Qed.

Section transaction_lemmas.
Context `{PrimitivesOk}.

Lemma network_id_short n : is_u32 (str_len (network_id n)).
Proof. destruct n; vm_compute; done. Qed.

Lemma unsigned_payload_bytes_inj a b r q :
  tx_wf a → tx_wf b →
  unsigned_payload_bytes a ++ r = unsigned_payload_bytes b ++ q →
  unsigned_payload a = unsigned_payload b ∧ r = q.
Proof.
  intros Ha Hb. unfold unsigned_payload_bytes. cbv zeta. rewrite <- !app_assoc.
  intros H1%(inj (app TX_SIGNING_DOMAIN_PREFIX)).
  apply push_string_inj in H1 as [_ H1].
  - by apply payload_fields_inj in H1.
  - destruct (Transaction_network a); [apply network_id_short | vm_compute; done].
  - destruct (Transaction_network b); [apply network_id_short | vm_compute; done].
Qed.

(** Byte 12 separates the two encodings: the option tag of [from] in the legacy
    form, the ['2'] of the signing domain in the signed form. *)
Lemma legacy_byte_12 tx r :
  (legacy_encode tx ++ r) !! 12%nat = Some (byte_of_Z 0) ∨
  (legacy_encode tx ++ r) !! 12%nat = Some (byte_of_Z 1).
Proof.
  unfold legacy_encode, payload_fields. cbn [unsigned_payload utx_version utx_nonce utx_from].
  rewrite <- !app_assoc.
  rewrite lookup_app_r by (rewrite length_le_bytes; lia). rewrite length_le_bytes.
  rewrite lookup_app_r by (rewrite length_le_bytes; lia). rewrite length_le_bytes.
  destruct (tx_from tx); [right | left]; reflexivity.
Qed.

Lemma signed_byte_12 tx r :
  (unsigned_payload_bytes tx ++ r) !! 12%nat = Some (byte_of_Z 50).
Proof.
  unfold unsigned_payload_bytes. cbv zeta. rewrite <- app_assoc.
  rewrite lookup_app_l by (vm_compute; lia). reflexivity.
Qed.

Lemma encode_inj a b : tx_wf a → tx_wf b → encode a = encode b → a = b.
Proof.
  intros Ha Hb. unfold encode.
  destruct (is_none (tx_sender_public_key a) && is_none (tx_signature a)) eqn:Ea,
    (is_none (tx_sender_public_key b) && is_none (tx_signature b)) eqn:Eb; intros He.
  - unfold legacy_encode in He.
    rewrite <- (app_nil_r (payload_fields (unsigned_payload a))) in He.
    rewrite <- (app_nil_r (payload_fields (unsigned_payload b))) in He.
    apply payload_fields_inj in He as [He _]; [|done..].
    destruct (tx_sender_public_key a) eqn:?, (tx_signature a) eqn:?,
      (tx_sender_public_key b) eqn:?, (tx_signature b) eqn:?; try discriminate.
    apply transaction_eq; congruence.
  - exfalso. destruct (legacy_byte_12 a []) as [Hl|Hl]; rewrite app_nil_r, He, signed_byte_12 in Hl;
      vm_compute in Hl; discriminate Hl.
  - exfalso. destruct (legacy_byte_12 b []) as [Hl|Hl];
      rewrite app_nil_r, <- He, signed_byte_12 in Hl; vm_compute in Hl; discriminate Hl.
  - apply unsigned_payload_bytes_inj in He as [E1 He]; [|done..].
    apply (push_optional_bytes_inj 32) in He as [E2 He]; [|apply Ha|apply Hb].
    rewrite <- (app_nil_r (push_optional_bytes (tx_signature a))) in He.
    rewrite <- (app_nil_r (push_optional_bytes (tx_signature b))) in He.
    apply (push_optional_bytes_inj 64) in He as [E3 _]; [|apply Ha|apply Hb].
    by apply transaction_eq.
Qed.

(** C25. The wire encoding determines the transaction, signed and unsigned forms
    included, and the signed payload determines every unsigned field: no two
    transactions share an encoding, and a signature over one payload cannot be
    read as one over another. *)
Theorem encode_injective a b :
  tx_wf a → tx_wf b →
  (encode a = encode b ↔ a = b) ∧
  (unsigned_payload_bytes a = unsigned_payload_bytes b → unsigned_payload a = unsigned_payload b).
Proof.
  intros Ha Hb. split.
  - split; [by apply encode_inj | by intros ->].
  - intros He. rewrite <- (app_nil_r (unsigned_payload_bytes a)) in He.
    rewrite <- (app_nil_r (unsigned_payload_bytes b)) in He.
    by apply unsigned_payload_bytes_inj in He as [? _].
Qed.

(** A transaction id binds the whole transaction: two transactions with one id
    are equal or exhibit a SHA-256 collision. *)
Theorem tx_hash_binding a b :
  tx_wf a → tx_wf b → tx_hash a = tx_hash b →
  a = b ∨ ∃ x y, x ≠ y ∧ sha256 x = sha256 y.
Proof.
  intros Ha Hb He. unfold tx_hash, double_sha256 in He.
  destruct (decide (encode a = encode b)) as [E|E]; [left; by apply encode_inj|].
  destruct (decide (sha256 (encode a) = sha256 (encode b))) as [E2|E2]; right.
  - by exists (encode a), (encode b).
  - by exists (sha256 (encode a)), (sha256 (encode b)).
Qed.

(** ** Verification *)

(** What a verified non-coinbase transaction has proved. *)
Record authorized (tx : Transaction) (from : string) (pk : PublicKey) (sig : Signature)
    (n : Network) : Prop := {
  auth_from : tx_from tx = Some from;
  auth_pk : tx_sender_public_key tx = Some pk;
  auth_sig : tx_signature tx = Some sig;
  auth_sender : from = Address_to_string (from_public_key_for_network pk n);
  auth_recipient : ∃ a, Address_parse (tx_to tx) = Ok a ∧ addr_network a = n;
  auth_key : ed25519_key_check pk = Ok ();
  auth_valid : ed25519_verify pk (unsigned_payload_bytes tx) sig = Ok ();
}.

Lemma Transaction_verify_shape tx : Transaction_verify tx = Ok () → validate_shape tx = Ok ().
Proof. unfold Transaction_verify. intros Hv. apply bind_Ok in Hv as ([] & ? & _). done. Qed.

Lemma Transaction_verify_recipient tx :
  Transaction_verify tx = Ok () → ∃ a, Address_parse (tx_to tx) = Ok a.
Proof.
  intros Hs%Transaction_verify_shape. unfold validate_shape in Hs.
  rewrite if_Err_Ok, bind_const_Ok in Hs. apply Hs.
Qed.

(** C24. Verification of a spend accepts only a signature, by the key the sender
    address encodes, over the domain-separated payload, with both addresses on
    one network. *)
Theorem Transaction_verify_sound tx :
  is_coinbase tx = false → Transaction_verify tx = Ok () →
  validate_shape tx = Ok () ∧ ∃ from pk sig n, authorized tx from pk sig n.
Proof.
  intros Hc Hv. split; [by apply Transaction_verify_shape|].
  unfold Transaction_verify in Hv. rewrite Hc in Hv.
  apply bind_Ok in Hv as ([] & _ & Hv). repeat (apply bind_Ok in Hv as (? & ? & Hv)).
  guard_inv. breflect. unfold PublicKey_verify in Hv. res_inv.
  do 4 eexists; split; eauto.
Qed.

(** A verified spend is on the network of its sender. *)
Lemma Transaction_verify_network tx from a :
  is_coinbase tx = false → tx_from tx = Some from → Transaction_verify tx = Ok () →
  Address_parse from = Ok a → Transaction_network tx = Ok (addr_network a).
Proof.
  intros Hc Hf Hv Ha. unfold Transaction_verify in Hv. rewrite Hc, Hf in Hv.
  apply bind_Ok in Hv as ([] & _ & Hv). cbn [ok_or mbind result_bind] in Hv.
  repeat (apply bind_Ok in Hv as (? & ? & Hv)). guard_inv. breflect.
  unfold Transaction_network. rewrite Hf. res_inv. simplify_eq.
  match goal with H : Address_parse (tx_to tx) = Ok _ |- _ => rewrite H end.
  rewrite Ha. cbn [mbind result_bind]. rewrite bool_decide_eq_true_2 by congruence. cbn. congruence.
Qed.

(** ** Signing *)

Lemma str_is_empty_false s : s ≠ ""%string → str_is_empty s = false.
Proof. intros Hs. by apply bool_decide_eq_false. Qed.

(** The shape check of a spend between two well-formed addresses of one
    network. *)
Lemma validate_shape_spend tx a b :
  address_wf a → address_wf b → addr_network a = addr_network b →
  tx_from tx = Some (Address_to_string a) → tx_to tx = Address_to_string b →
  tx_amount tx ≠ 0 → tx_max_fee tx <= MAX_SUPPLY_ATOMIC → tx_priority_fee tx <= tx_max_fee tx →
  is_some (tx_sender_public_key tx) = is_some (tx_signature tx) →
  validate_shape tx = Ok ().
Proof.
  intros Ha Hb Hn Hf Ht Hz Hm Hp Hpair. unfold validate_shape.
  rewrite Ht, str_is_empty_false by by apply Address_to_string_nonblank.
  rewrite Address_parse_to_string by done. cbn [mbind result_bind].
  rewrite (proj2 (Z.eqb_neq (tx_amount tx) Amount_ZERO)) by done.
  rewrite !Z.gtb_ltb, (proj2 (Z.ltb_ge MAX_SUPPLY_ATOMIC (tx_max_fee tx))) by done.
  rewrite (proj2 (Z.ltb_ge MAX_SUPPLY_ATOMIC (tx_priority_fee tx))) by lia.
  unfold is_coinbase. rewrite Hf. cbn [is_none is_some negb andb].
  rewrite (proj2 (Z.ltb_ge (tx_max_fee tx) (tx_priority_fee tx))) by lia.
  rewrite str_is_empty_false by by apply Address_to_string_nonblank.
  rewrite Hpair, xorb_nilpotent, Address_parse_to_string by done. cbn [mbind result_bind].
  by rewrite bool_decide_eq_true_2.
Qed.

(** A wallet's spend verifies: signing with a 32-byte key a transfer to a
    well-formed address of the same network, with a nonzero amount and fees
    within bounds, yields a transaction that [verify] accepts and that is not a
    coinbase. *)
Theorem new_signed_verifies version nonce n sk b amount max_fee priority_fee memo :
  length sk = PrivateKey_SIZE → address_wf b → addr_network b = n →
  amount ≠ 0 → max_fee <= MAX_SUPPLY_ATOMIC → priority_fee <= max_fee →
  ∃ tx, Transaction_new_signed version nonce n sk (Address_to_string b) amount max_fee
          priority_fee memo = Ok tx ∧
    Transaction_verify tx = Ok () ∧ is_coinbase tx = false ∧
    tx_amount tx = amount ∧ tx_nonce tx = nonce ∧
    tx_from tx = Some (Address_to_string
      (from_public_key_for_network (PrivateKey_public_key sk) n)).
Proof.
  intros Hsk Hb Hn Hz Hm Hp.
  set (pk := PrivateKey_public_key sk). set (a := from_public_key_for_network pk n).
  pose proof (public_key_wf sk Hsk) as Hpk. fold pk in Hpk.
  assert (address_wf a) as Ha by by apply from_public_key_wf.
  set (t0 := mkTransaction version nonce (Some (Address_to_string a)) (Address_to_string b)
    amount max_fee priority_fee memo None None).
  set (tx := set_authorization pk (PrivateKey_sign sk (unsigned_payload_bytes t0)) t0).
  assert (validate_shape t0 = Ok ()) as S0 by (by apply (validate_shape_spend t0 a b)).
  assert (validate_shape tx = Ok ()) as S1 by (by apply (validate_shape_spend tx a b)).
  assert (Address_parse (Address_to_string a) = Ok a) as Pa by by apply Address_parse_to_string.
  assert (Address_parse (Address_to_string b) = Ok b) as Pb by by apply Address_parse_to_string.
  exists tx. split_and!; try done.
  - unfold Transaction_new_signed, Transaction_new. cbv zeta. fold pk a t0. rewrite S0.
    cbn [mbind result_bind]. unfold Transaction_sign, sr_get, sr_lift, sr_modify, mbind, state_result_bind.
    cbv beta zeta. fold pk. change (tx_from t0) with (Some (Address_to_string a)). cbn [ok_or].
    rewrite Pa. change (addr_network a) with n. fold a.
    rewrite bool_decide_eq_true_2 by done. cbn [ensure]. fold tx. by rewrite S1.
  - unfold Transaction_verify. rewrite S1. cbn [mbind result_bind].
    change (is_coinbase tx) with false. cbv iota.
    change (tx_from tx) with (Some (Address_to_string a)). change (tx_to tx) with (Address_to_string b).
    change (tx_sender_public_key tx) with (Some pk).
    change (tx_signature tx) with (Some (PrivateKey_sign sk (unsigned_payload_bytes t0))).
    cbn [ok_or mbind result_bind]. rewrite Pa, Pb. cbn [mbind result_bind].
    rewrite bool_decide_eq_true_2 by done. cbn [negb]. change (addr_network a) with n. fold a.
    rewrite bool_decide_eq_true_2 by done. cbn [negb].
    change (unsigned_payload_bytes tx) with (unsigned_payload_bytes t0). by apply verify_sign.
Qed.

End transaction_lemmas.
