(* ===== verification/Block.v ===== *)
(** [vireon-core/src/block.rs] and [wire.rs]: block data, header bytes and the
    Merkle root.  The block's proof-of-work identity is in Pow.v. *)

From S2P Require Import Prelude RustStd Interfaces Crypto Errors Network Amount Signing Address Transaction.

(** [struct BlockHeader] *)
Record BlockHeader := mkBlockHeader {
  bh_version : Z;
  bh_network_id : string;
  bh_height : Z;
  bh_previous_hash : Hash;
  bh_merkle_root : Hash;
  bh_base_fee_atomic : Z;
  bh_timestamp : Z;
  bh_nonce : Z;
  bh_mix_hash : Hash;
  bh_difficulty : Z;  (** [difficulty_leading_zero_bits] *)
}.

(** [struct Block] *)
Record Block := mkBlock {
  header : BlockHeader;
  transactions : list Transaction;
}.

#[global] Instance BlockHeader_eq_dec : EqDecision BlockHeader.
Proof. solve_decision. Defined.
#[global] Instance Block_eq_dec : EqDecision Block.
Proof. solve_decision. Defined.

(** Field widths and array sizes of a header. *)
Record header_wf (h : BlockHeader) : Prop := {
  hwf_version : is_u32 (bh_version h);
  hwf_network_id : is_u32 (str_len (bh_network_id h));
  hwf_height : is_u64 (bh_height h);
  hwf_previous : hash_wf (bh_previous_hash h);
  hwf_merkle : hash_wf (bh_merkle_root h);
  hwf_base_fee : is_u64 (bh_base_fee_atomic h);
  hwf_timestamp : is_u64 (bh_timestamp h);
  hwf_nonce : is_u64 (bh_nonce h);
  hwf_mix : hash_wf (bh_mix_hash h);
  hwf_difficulty : is_u8 (bh_difficulty h);
}.

Record block_wf (b : Block) : Prop := {
  bwf_header : header_wf (header b);
  bwf_txs : Forall tx_wf (transactions b);
}.

(** [header_bytes], with the module's own [push_string] (the same function as
    the transaction's). *)
Definition header_bytes (b : Block) : bytes :=
  let h := header b in
  le_bytes 4 (bh_version h) ++ push_string (bh_network_id h) ++ le_bytes 8 (bh_height h) ++
  bh_previous_hash h ++ bh_merkle_root h ++ le_bytes 8 (bh_base_fee_atomic h) ++
  le_bytes 8 (bh_timestamp h) ++ le_bytes 8 (bh_nonce h) ++ bh_mix_hash h ++
  [byte_of_Z (bh_difficulty h)].

Definition Block_network (b : Block) : Result Network :=
  ok_or (InvalidNetwork "known network" (bh_network_id (header b)))
    (from_network_id (bh_network_id (header b))).

Section block.
Context `{Primitives}.

(** ** Merkle root *)

(** The odd-length push of the last hash. *)
Definition pad_level (level : list Hash) : list Hash :=
  if bool_decide (Nat.modulo (length level) 2 = 1%nat) then
    match last level with Some h => level ++ [h] | None => level end
  else level.

(** [chunks(2)] mapped to [blake3(pair[0] ++ pair[1])]; levels are padded, so a
    chunk of one (an index panic in the source) does not arise. *)
Fixpoint hash_pairs (level : list Hash) : list Hash :=
  match level with
  | l :: r :: level' => blake3_hash (l ++ r) :: hash_pairs level'
  | _ => []
  end.

(** The [while level.len() > 1] loop. *)
Fixpoint merkle_loop (fuel : nat) (level : list Hash) : list Hash :=
  match fuel with
  | O => level
  | S fuel' =>
      if bool_decide (1 < length level)%nat
      then merkle_loop fuel' (hash_pairs (pad_level level))
      else level
  end.

Definition compute_merkle_root (txs : list Transaction) : Result Hash :=
  match txs with
  | [] => Err EmptyTransactions
  | _ =>
      let level := tx_hash <$> txs in
      ok_or EmptyTransactions (head (merkle_loop (length level) level))
  end.

Definition recompute_merkle_root (b : Block) : Result Hash :=
  compute_merkle_root (transactions b).

(** ** Constructors *)

Definition Block_new_with_version (version : Z) (n : Network) (height : Z) (previous_hash : Hash)
    (base_fee_atomic timestamp difficulty : Z) (txs : list Transaction) : Result Block :=
  if bool_decide (txs = []) then Err EmptyTransactions else
  merkle_root ← compute_merkle_root txs;
  Ok (mkBlock (mkBlockHeader version (network_id n) height previous_hash merkle_root
        base_fee_atomic timestamp 0 Hash_zero difficulty) txs).

Definition Block_new (n : Network) (height : Z) (previous_hash : Hash)
    (base_fee_atomic timestamp difficulty : Z) (txs : list Transaction) : Result Block :=
  Block_new_with_version (expected_block_version n height) n height previous_hash
    base_fee_atomic timestamp difficulty txs.

(** ** [wire.rs] *)

Definition block_header_wire_bytes (b : Block) : bytes := header_bytes b.
Definition block_header_wire_hex (b : Block) : string := bytes_to_hex (block_header_wire_bytes b).
Definition transaction_wire_bytes (tx : Transaction) : bytes := encode tx.
Definition transaction_wire_hex (tx : Transaction) : string :=
  bytes_to_hex (transaction_wire_bytes tx).
Definition transaction_txid_hex (tx : Transaction) : string := hash_to_hex (tx_hash tx).

End block.

(** * Merkle lemmas *)

(** Induction two elements at a time. *)
Lemma list_pair_ind {A} (P : list A → Prop) :
  P [] → (∀ x, P [x]) → (∀ x y l, P l → P (x :: y :: l)) → ∀ l, P l.
Proof.
  intros H0 H1 H2. assert (∀ l, P l ∧ ∀ x, P (x :: l)) as H; [|intros l; apply H].
  induction l as [|y l [IHl IHc]]; [by split|]. split; [apply IHc|]. intros x; by apply H2.
Qed.

Section merkle.
Context `{PrimitivesOk}.
Implicit Types (l k : list Hash).

(** The inputs BLAKE3 is given for a level: each pair of neighbours, concatenated. *)
Fixpoint pair_inputs (level : list Hash) : list bytes :=
  match level with
  | l :: r :: level' => (l ++ r) :: pair_inputs level'
  | _ => []
  end.

(** Two distinct inputs among [S] with one digest. *)
Definition collision_among (S : list bytes) : Prop :=
  ∃ x y, x ≠ y ∧ x ∈ S ∧ y ∈ S ∧ blake3_hash x = blake3_hash y.

Definition merkle_step l : list Hash := hash_pairs (pad_level l).

(** The inputs of [n] levels above [l]. *)
Fixpoint level_inputs (n : nat) l : list bytes :=
  match n with
  | O => []
  | S n => pair_inputs (pad_level l) ++ level_inputs n (merkle_step l)
  end.

(** The inputs BLAKE3 is given for the root of [txs]: those of its levels until one
    hash is left. *)
Fixpoint merkle_inputs (fuel : nat) l : list bytes :=
  match fuel with
  | S fuel => if bool_decide (1 < length l)%nat then pair_inputs (pad_level l) ++ merkle_inputs fuel (merkle_step l) else []
  | O => []
  end.
Definition root_inputs (txs : list Transaction) : list bytes := merkle_inputs (length txs) (tx_hash <$> txs).

(** [merkle_to n l r]: [n] levels reduce [l] to the single hash [r]. *)
Inductive merkle_to : nat → list Hash → Hash → Prop :=
| merkle_to_root r : merkle_to 0 [r] r
| merkle_to_step n l r : (1 < length l)%nat → merkle_to n (merkle_step l) r → merkle_to (S n) l r.

Lemma length_hash_pairs l : length (hash_pairs l) = Nat.div2 (length l).
Proof. induction l using list_pair_ind; simpl; lia. Qed.

Lemma length_pad_level l : length (pad_level l) = (2 * Nat.div2 (S (length l)))%nat.
Proof.
  unfold pad_level. destruct (Nat.Even_or_Odd (length l)) as [[q E]|[q E]]; rewrite E.
  - rewrite Nat.div2_succ_double, bool_decide_eq_false_2; [lia|].
    rewrite Nat.mul_comm, Nat.Div0.mod_mul. done.
  - replace (S (2 * q + 1)) with (2 * S q)%nat by lia. rewrite Nat.div2_double.
    rewrite bool_decide_eq_true_2
      by (rewrite Nat.add_comm, Nat.mul_comm, Nat.Div0.mod_add; done).
    destruct (last l) eqn:L; [rewrite length_app; simpl; lia|].
    apply last_None in L as ->. simpl in E. lia.
Qed.

Lemma length_merkle_step l : length (merkle_step l) = Nat.div2 (S (length l)).
Proof.
  unfold merkle_step. by rewrite length_hash_pairs, length_pad_level, Nat.div2_double.
Qed.

Lemma div2_bounds n : (1 < n)%nat → (0 < Nat.div2 (S n) < n)%nat.
Proof.
  intros. destruct n as [|[|n]]; [lia..|]. pose proof (Nat.div2_decr (S n) n ltac:(lia)).
  change (Nat.div2 (S (S (S n)))) with (S (Nat.div2 (S n))).
  generalize dependent (Nat.div2 (S n)). intros. lia.
Qed.

(** The loop ends within [length l] rounds on one hash. *)
Lemma merkle_loop_to fuel l :
  l ≠ [] → (length l <= fuel)%nat →
  ∃ n r, merkle_loop fuel l = [r] ∧ merkle_to n l r ∧ merkle_inputs fuel l = level_inputs n l.
Proof.
  revert l; induction fuel as [|fuel IH]; intros l Hl Hf.
  { destruct l; simpl in *; [done | lia]. }
  simpl. case_bool_decide as D.
  - pose proof (div2_bounds _ D) as Hb. rewrite <- length_merkle_step in Hb.
    destruct (IH (merkle_step l)) as (n & r & E & M & I).
    + by destruct (merkle_step l); simpl in *; [lia|].
    + lia.
    + exists (S n), r. split_and!; [done | by constructor | by rewrite I].
  - destruct l as [|r [|]]; simpl in *; [done | | lia]. exists O, r. split_and!; by constructor.
Qed.

Lemma hash_pairs_wf l : Forall hash_wf (hash_pairs l).
Proof. induction l using list_pair_ind; simpl; constructor; eauto using blake3_hash_wf. Qed.

Lemma pad_level_wf l : Forall hash_wf l → Forall hash_wf (pad_level l).
Proof.
  intros Hl. unfold pad_level. case_bool_decide; [|done].
  destruct (last l) eqn:E; [|done]. apply Forall_app; split; [done|].
  apply last_Some_elem_of in E. constructor; [|done]. by eapply Forall_forall in Hl.
Qed.

Lemma hash_pairs_inputs l : hash_pairs l = blake3_hash <$> pair_inputs l.
Proof. induction l using list_pair_ind; simpl; [done..|]. by f_equal. Qed.

Lemma hash_pairs_inj S l k :
  Forall hash_wf l → Forall hash_wf k → length l = length k → Nat.Even (length l) →
  pair_inputs l ⊆ S → pair_inputs k ⊆ S → hash_pairs l = hash_pairs k → l = k ∨ collision_among S.
Proof.
  revert k; induction l as [|x|x y l IH] using list_pair_ind; intros k Hl Hk Hlen Hev Sl Sk He.
  - destruct k; [by left | done].
  - destruct Hev as [m Hm]; simpl in Hm; lia.
  - destruct k as [|x' [|y' k]]; simpl in *; [done..|]. injection He as He1 He2.
    apply Forall_cons in Hl as [Hx [Hy Hl]%Forall_cons].
    apply Forall_cons in Hk as [Hx' [Hy' Hk]%Forall_cons].
    destruct (decide (x ++ y = x' ++ y')) as [E|E].
    2: { right. exists (x ++ y), (x' ++ y'). split_and!; [done | apply Sl; left | apply Sk; left | done]. }
    apply app_inj_1 in E as [-> ->]; [|congruence].
    destruct (IH k) as [->|?]; [done|done|lia| |set_solver|set_solver|done|by left|by right].
    destruct Hev as [[|m] Hm]; [lia | exists m; lia].
Qed.

Lemma pad_level_even l : Nat.Even (length (pad_level l)).
Proof. rewrite length_pad_level. eexists; reflexivity. Qed.

(** At most one element is pushed, a repetition. *)
Lemma pad_level_cases l :
  ∃ s, pad_level l = l ++ s ∧ (s = [] ∨ ∃ h, h ∈ l ∧ s = [h]).
Proof.
  unfold pad_level. case_bool_decide; [|exists []; rewrite app_nil_r; auto].
  destruct (last l) as [h|] eqn:E; [|exists []; rewrite app_nil_r; auto].
  exists [h]. split; [done|]. right. exists h. split; [by apply last_Some_elem_of | done].
Qed.

Lemma not_NoDup_repeat l h : h ∈ l → ¬ NoDup (l ++ [h]).
Proof.
  intros Hh (_ & Hnd & _)%NoDup_app. by apply (Hnd _ Hh), list_elem_of_singleton.
Qed.

(** Padding forgets only a repeated last element. *)
Lemma pad_level_inj l k : NoDup l → NoDup k → pad_level l = pad_level k → l = k.
Proof.
  intros Hl Hk. destruct (pad_level_cases l) as (s & -> & [->|(h & Hh & ->)]),
    (pad_level_cases k) as (u & -> & [->|(g & Hg & ->)]); rewrite ?app_nil_r; intros E.
  - done.
  - subst. by apply not_NoDup_repeat in Hl.
  - subst. by apply not_NoDup_repeat in Hk.
  - by apply app_inj_tail in E as [-> _].
Qed.

(** The left halves hashed into the next level come from the level itself. *)
Lemma hash_pairs_elem l s h :
  (length s <= 1)%nat → h ∈ hash_pairs (l ++ s) →
  ∃ x y, h = blake3_hash (x ++ y) ∧ x ∈ l ∧ x ++ y ∈ pair_inputs (l ++ s).
Proof.
  intros Hs. induction l as [|x|x y l IH] using list_pair_ind.
  - destruct s as [|? [|]]; cbn in *; [..|lia]; by intros ?%elem_of_nil.
  - destruct s as [|g [|]]; cbn in *; [by intros ?%elem_of_nil| |lia]. intros ->%list_elem_of_singleton.
    exists x, g. split_and!; [done | left..].
  - cbn [app hash_pairs pair_inputs]. intros [->|Hh]%elem_of_cons.
    + exists x, y. split_and!; [done | left..].
    + destruct (IH Hh) as (x' & y' & -> & ? & ?). exists x', y'. split_and!; [done | by do 2 right | by right].
Qed.

(** A level without repetitions reduces to one without repetitions. *)
Lemma hash_pairs_NoDup S l s :
  (length s <= 1)%nat → Forall hash_wf l → NoDup l → pair_inputs (l ++ s) ⊆ S →
  NoDup (hash_pairs (l ++ s)) ∨ collision_among S.
Proof.
  intros Hs. induction l as [|x|x y l IH] using list_pair_ind; intros Hwf Hnd HS.
  - left. destruct s as [|? [|]]; cbn in *; [constructor..|lia].
  - left. destruct s as [|? [|]]; cbn in *; [constructor | apply NoDup_singleton | lia].
  - cbn [app hash_pairs pair_inputs] in *. apply Forall_cons in Hwf as [Hx [_ Hwf]%Forall_cons].
    apply NoDup_cons in Hnd as [Hx' [_ Hnd]%NoDup_cons].
    apply not_elem_of_cons in Hx' as [_ Hx'].
    destruct (IH Hwf Hnd) as [IH1|]; [set_solver | | by right].
    destruct (decide (blake3_hash (x ++ y) ∈ hash_pairs (l ++ s))) as [Hin|Hin]; [right | left; by constructor].
    apply hash_pairs_elem in Hin as (x1 & y1 & He & Hx1 & Hi); [|done]. exists (x ++ y), (x1 ++ y1).
    split_and!; [|apply HS; left | apply HS; by right | done].
    eapply Forall_forall in Hwf; [|exact Hx1].
    intros E. apply app_inj_1 in E as [-> _]; [done | unfold hash_wf in *; congruence].
Qed.

Lemma merkle_step_NoDup S l :
  Forall hash_wf l → NoDup l → pair_inputs (pad_level l) ⊆ S → NoDup (merkle_step l) ∨ collision_among S.
Proof.
  intros Hwf Hnd. unfold merkle_step. destruct (pad_level_cases l) as (s & -> & Hs).
  apply hash_pairs_NoDup; [|done..]. destruct Hs as [->|(h & _ & ->)]; cbn; lia.
Qed.

Lemma merkle_step_wf l : Forall hash_wf (merkle_step l).
Proof. apply hash_pairs_wf. Qed.

(** Two reductions of the same depth to the same root start from the same
    leaves. *)
Lemma merkle_to_inj S n l k r :
  merkle_to n l r → merkle_to n k r →
  Forall hash_wf l → Forall hash_wf k → NoDup l → NoDup k →
  level_inputs n l ⊆ S → level_inputs n k ⊆ S → l = k ∨ collision_among S.
Proof.
  intros Hl. revert k. induction Hl as [r|n l r Hlen Hl IH]; intros k Hk; inversion Hk; subst;
    [by left|]. intros Hwl Hwk Hnl Hnk [Sl Sl']%list_subseteq_app_iff_l [Sk Sk']%list_subseteq_app_iff_l.
  destruct (merkle_step_NoDup S l Hwl Hnl Sl) as [Hsl|]; [|by right].
  destruct (merkle_step_NoDup S k Hwk Hnk Sk) as [Hsk|]; [|by right].
  destruct (IH (merkle_step k)) as [E|]; auto using merkle_step_wf.
  assert (length (pad_level l) = length (pad_level k)) as Hp.
  { apply (f_equal length) in E. rewrite !length_merkle_step in E.
    by rewrite !length_pad_level, E. }
  destruct (hash_pairs_inj S (pad_level l) (pad_level k)) as [E'|];
    auto using pad_level_wf, pad_level_even. left. by apply pad_level_inj.
Qed.

(** A hash of [k] that is the digest of one of [S]. *)
Definition digest_of (S : list bytes) k : Prop := ∃ h d, h ∈ k ∧ d ∈ S ∧ h = blake3_hash d.

(** The reduction of a longer list passes through a level of every depth below
    its own; above the leaves every element is a digest. *)
Lemma merkle_to_split S n m l r :
  merkle_to (n + m) l r → Forall hash_wf l → NoDup l → level_inputs (n + m) l ⊆ S →
  (∃ k, merkle_to m k r ∧ Forall hash_wf k ∧ NoDup k ∧ level_inputs m k ⊆ S ∧
        (n = 0%nat ∧ k = l ∨ Forall (λ h, ∃ d, d ∈ level_inputs (n + m) l ∧ h = blake3_hash d) k)) ∨ collision_among S.
Proof.
  revert l; induction n as [|n IH]; intros l Hl Hwf Hnd HS; [left; exists l; split_and!; auto|].
  simpl in Hl. inversion Hl as [|? ? ? Hlen Hs]; subst.
  cbn [Nat.add level_inputs] in HS |- *. apply list_subseteq_app_iff_l in HS as [S1 S2].
  destruct (merkle_step_NoDup S l Hwf Hnd S1) as [Hnd'|]; [|by right].
  destruct (IH _ Hs (merkle_step_wf l) Hnd' S2) as [(k & Hk & ? & ? & ? & Hd)|]; [|by right].
  left; exists k; split_and!; auto. right.
  destruct Hd as [[_ ->]|Hd].
  - unfold merkle_step. rewrite hash_pairs_inputs. apply Forall_fmap, Forall_forall. intros d Hd.
    exists d. split; [apply elem_of_app; by left | done].
  - eapply Forall_impl; [exact Hd|]. intros h (d & ? & ->). exists d. split; [apply elem_of_app; by right | done].
Qed.

Lemma merkle_to_nonempty n l r : merkle_to n l r → l ≠ [].
Proof. intros Hl ->. inversion Hl; subst; simpl in *; lia. Qed.

Lemma merkle_to_deeper S n m l k r :
  merkle_to m l r → merkle_to (n + m) k r → (0 < n)%nat →
  Forall hash_wf l → Forall hash_wf k → NoDup l → NoDup k →
  level_inputs m l ⊆ S → level_inputs (n + m) k ⊆ S →
  digest_of (level_inputs (n + m) k) l ∨ collision_among S.
Proof.
  intros Hl Hk Hn Hwl Hwk Hnl Hnk Sl Sk.
  destruct (merkle_to_split S n m k r) as [(j & Hj & Hwj & Hnj & Sj & [[-> _]|Hd])|]; auto; [lia|].
  destruct (merkle_to_inj S m l j r) as [->|]; auto. left.
  destruct j as [|h j]; [by apply merkle_to_nonempty in Hj|].
  apply Forall_cons in Hd as [(d & Hd & ->) _]. exists (blake3_hash d), d. split_and!; [left | done..].
Qed.

(** The leaves of a repetition-free Merkle tree are determined by its root. *)
Lemma merkle_leaves_bind n m l k r :
  merkle_to n l r → merkle_to m k r →
  Forall hash_wf l → Forall hash_wf k → NoDup l → NoDup k →
  l = k ∨ digest_of (level_inputs m k) l ∨ digest_of (level_inputs n l) k ∨
  collision_among (level_inputs n l ++ level_inputs m k).
Proof.
  intros Hl Hk Hwl Hwk Hnl Hnk. set (S := level_inputs n l ++ level_inputs m k).
  assert (level_inputs n l ⊆ S) as Sl by (unfold S; intros d ?; apply elem_of_app; by left).
  assert (level_inputs m k ⊆ S) as Sk by (unfold S; intros d ?; apply elem_of_app; by right).
  destruct (Nat.lt_trichotomy n m) as [Hlt|[->|Hlt]].
  - replace m with ((m - n) + n)%nat in Hk, Sk by lia.
    destruct (merkle_to_deeper S _ _ _ _ _ Hl Hk) as [Hd|]; auto; [lia|].
    replace ((m - n) + n)%nat with m in Hd by lia. auto.
  - destruct (merkle_to_inj S m l k r); auto.
  - replace n with ((n - m) + m)%nat in Hl, Sl by lia.
    destruct (merkle_to_deeper S _ _ _ _ _ Hk Hl) as [Hd|]; auto; [lia|].
    replace ((n - m) + m)%nat with n in Hd by lia. auto.
Qed.

Lemma compute_merkle_root_to txs r :
  compute_merkle_root txs = Ok r → ∃ n, merkle_to n (tx_hash <$> txs) r ∧ root_inputs txs = level_inputs n (tx_hash <$> txs).
Proof.
  destruct txs as [|tx txs]; [done|]. unfold compute_merkle_root, root_inputs. cbv zeta.
  rewrite <- (length_fmap tx_hash (tx :: txs)). intros Hr%ok_or_Ok.
  destruct (merkle_loop_to (length (tx_hash <$> tx :: txs)) (tx_hash <$> tx :: txs))
    as (n & r' & E & M & I); [done|done|].
  rewrite E in Hr. injection Hr as <-. eauto.
Qed.

Lemma tx_hashes_wf txs : Forall hash_wf (tx_hash <$> txs).
Proof. apply Forall_fmap, Forall_true. intros tx. apply double_sha256_wf. Qed.

(** The root of a nonempty list is always computed: the loop ends on one hash. *)
Lemma compute_merkle_root_total txs : txs ≠ [] → ∃ r, compute_merkle_root txs = Ok r.
Proof.
  destruct txs as [|tx txs]; [done|]. intros _. unfold compute_merkle_root. cbv zeta.
  destruct (merkle_loop_to (length (tx_hash <$> tx :: txs)) (tx_hash <$> tx :: txs))
    as (n & r' & -> & _ & _); [done|done|]. by exists r'.
Qed.

(** Why duplicates must be rejected: an odd list and the same list with its last
    element repeated have one root. *)
Lemma merkle_loop_repeat_last l h :
  Nat.Odd (length l) → (1 < length l)%nat → last l = Some h →
  merkle_step (l ++ [h]) = merkle_step l.
Proof.
  intros [q Hq] Hlen Hl. unfold merkle_step, pad_level. rewrite length_app, Hl, Hq.
  cbn [length]. replace (2 * q + 1 + 1)%nat with (S q * 2)%nat by lia.
  replace (2 * q + 1)%nat with (1 + q * 2)%nat by lia.
  by rewrite Nat.Div0.mod_mul, Nat.Div0.mod_add.
Qed.

Lemma fmap_repeat_last (txs : list Transaction) tx :
  tx_hash <$> (txs ++ [tx]) = (tx_hash <$> txs) ++ [tx_hash tx].
Proof. by rewrite fmap_app. Qed.

Lemma merkle_loop_fuel n m l :
  (length l <= n)%nat → (length l <= m)%nat → merkle_loop n l = merkle_loop m l.
Proof.
  revert m l; induction n as [|n IH]; intros m l Hn Hm.
  { destruct l; simpl in *; [|lia]. by destruct m. }
  destruct m as [|m]; [destruct l; simpl in *; [done | lia]|].
  simpl. case_bool_decide as D; [|done].
  pose proof (div2_bounds _ D) as Hb. rewrite <- length_merkle_step in Hb.
  apply IH; unfold merkle_step in *; lia.
Qed.

Lemma merkle_loop_unfold l :
  (1 < length l)%nat →
  merkle_loop (length l) l = merkle_loop (length (merkle_step l)) (merkle_step l).
Proof.
  intros Hl. pose proof (div2_bounds _ Hl) as Hb. rewrite <- length_merkle_step in Hb.
  destruct (length l) as [|n] eqn:E; [lia|]. simpl. rewrite E, bool_decide_eq_true_2 by done.
  apply merkle_loop_fuel; unfold merkle_step in *; lia.
Qed.

Lemma compute_merkle_root_unfold txs :
  txs ≠ [] → compute_merkle_root txs =
  ok_or EmptyTransactions (head (merkle_loop (length (tx_hash <$> txs)) (tx_hash <$> txs))).
Proof. by destruct txs. Qed.

(** C26. The root commits to the transaction list.  Two lists of pairwise distinct
    transactions with one root have the same transaction ids in the same order,
    unless BLAKE3 gives one digest to two distinct inputs among those it was given
    for these two roots, or the id (SHA-256) of a transaction of one list is the
    BLAKE3 digest of an input it was given for the root of the other. *)
Theorem merkle_root_binds txs uxs r :
  NoDup (tx_hash <$> txs) → NoDup (tx_hash <$> uxs) →
  compute_merkle_root txs = Ok r → compute_merkle_root uxs = Ok r →
  tx_hash <$> txs = tx_hash <$> uxs ∨
  digest_of (root_inputs uxs) (tx_hash <$> txs) ∨ digest_of (root_inputs txs) (tx_hash <$> uxs) ∨
  collision_among (root_inputs txs ++ root_inputs uxs).
Proof.
  intros Hn Hm (n & Hl & ->)%compute_merkle_root_to (m & Hk & ->)%compute_merkle_root_to.
  apply (merkle_leaves_bind n m _ _ r); auto using tx_hashes_wf.
Qed.

(** The duplication malleability of the tree: a list of odd length above one and
    the same list with its last transaction repeated have the same root, so the
    root alone does not fix the body; [validate_next_block]'s duplicate-id check
    is what rules the second list out. *)
Theorem merkle_root_odd_duplication txs tx :
  Nat.Even (length txs) → txs ≠ [] →
  compute_merkle_root (txs ++ [tx; tx]) = compute_merkle_root (txs ++ [tx]) ∧
  ¬ NoDup (tx_hash <$> (txs ++ [tx; tx])).
Proof.
  intros Hev Hne. split.
  - assert (txs ++ [tx; tx] = (txs ++ [tx]) ++ [tx]) as -> by by rewrite <- app_assoc.
    rewrite !compute_merkle_root_unfold by (by destruct txs).
    rewrite (fmap_repeat_last (txs ++ [tx])). set (l := tx_hash <$> (txs ++ [tx])).
    assert (length l = S (length txs)) as Hlen
      by (unfold l; rewrite length_fmap, length_app; simpl; lia).
    assert (0 < length txs)%nat by (destruct txs; [done | simpl; lia]).
    rewrite (merkle_loop_unfold l), (merkle_loop_unfold (l ++ _)) by (rewrite ?length_app; lia).
    rewrite (merkle_loop_repeat_last l (tx_hash tx)); [done | | lia |].
    + destruct Hev as [q Hq]. exists q. lia.
    + unfold l. by rewrite fmap_repeat_last, last_snoc.
  - rewrite fmap_app. intros (_ & _ & Hnd)%NoDup_app. simpl in Hnd.
    apply NoDup_cons in Hnd as [Hnd _]. apply Hnd. left.
Qed.

End merkle.

(** * Header bytes *)

(** The identity serialization of a header is injective. *)
Theorem header_bytes_injective a b :
  header_wf (header a) → header_wf (header b) →
  header_bytes a = header_bytes b → header a = header b.
Proof.
  intros [] []. unfold header_bytes. cbv zeta. intros H.
  apply (le_bytes_app_inj 4) in H as [E1 H]; [|done..].
  apply push_string_inj in H as [E2 H]; [|done..].
  apply (le_bytes_app_inj 8) in H as [E3 H]; [|done..].
  apply app_inj_1 in H as [E4 H]; [|unfold hash_wf in *; congruence].
  apply app_inj_1 in H as [E5 H]; [|unfold hash_wf in *; congruence].
  apply (le_bytes_app_inj 8) in H as [E6 H]; [|done..].
  apply (le_bytes_app_inj 8) in H as [E7 H]; [|done..].
  apply (le_bytes_app_inj 8) in H as [E8 H]; [|done..].
  apply app_inj_1 in H as [E9 H]; [|unfold hash_wf in *; congruence].
  injection H as E10%(f_equal byte_Z). rewrite !byte_Z_of_Z, !Z.mod_small in E10 by done.
  destruct (header a), (header b); simpl in *; congruence.
Qed.

#[export] Hint Resolve compute_merkle_root_total : vireon.
