(* ===== verification/Pow.v ===== *)
(** [vireon-core/src/firopow.rs] (consensus part) and the proof-of-work identity
    of a block ([Block::hash] and friends in [block.rs]).  The C++ FiroPoW
    evaluation is the [vireon_firopow_*] operations of [Primitives]. *)

From S2P Require Import Prelude RustStd Interfaces Crypto Errors Network Amount Signing Address Transaction Block.

Definition POW_ALGORITHM_ID : string := "firopow-0.9.4".
Definition FIROPOW_REVISION : string := "0.9.4".
Definition POW_VERSION : Z := 1.
Definition FUTURE_POLW_V2_ALGORITHM_ID : string := "vireon-polw-v2".
Definition FUTURE_POLW_V2_VERSION : Z := 2.
Definition EPOCH_LENGTH : Z := 1300.
Definition PERIOD_LENGTH : Z := 1.

Record PowVersion := { pv_version : Z; pv_algorithm_id : string }.

Definition PowVersion_launch : PowVersion :=
  {| pv_version := POW_VERSION; pv_algorithm_id := POW_ALGORITHM_ID |}.
Definition PowVersion_future_polw_v2 : PowVersion :=
  {| pv_version := FUTURE_POLW_V2_VERSION; pv_algorithm_id := FUTURE_POLW_V2_ALGORITHM_ID |}.

Record FiroPowOutput := { final_hash : Hash; mix_hash : Hash }.

Record PowValidation := {
  val_version : PowVersion;
  val_final_hash : Hash;
  val_mix_hash : Hash;
  val_header_hash : Hash;
  val_required : Z;
  val_meets_target : bool;
}.

Definition i32_MAX : Z := 2147483647.

(** [i32::try_from(height).unwrap_or(i32::MAX)] *)
Definition height_as_i32 (height : Z) : Z := if height <=? i32_MAX then height else i32_MAX.

Definition boundary_from_leading_zero_bits (bits : Z) : bytes :=
  let full_bytes := Z.to_nat (bits / 8) in
  let rem := bits mod 8 in
  let zeros := Nat.min full_bytes 32 in
  let boundary := replicate zeros x00 ++ replicate (32 - zeros) xff in
  let boundary :=
    if bool_decide (full_bytes < 32)%nat && (0 <? rem)
    then <[full_bytes := byte_of_Z (Z.shiftr 255 rem)]> boundary else boundary in
  if bits =? 255 then replicate 31 x00 ++ [x01] else boundary.

(** The [0..32] comparison loop over two 32-byte arrays. *)
Fixpoint hash_meets_boundary (hash boundary : bytes) : bool :=
  match hash, boundary with
  | h :: hash', b :: boundary' =>
      if byte_Z h <? byte_Z b then true
      else if byte_Z b <? byte_Z h then false
      else hash_meets_boundary hash' boundary'
  | _, _ => true
  end.

Fixpoint leading_zero_bits_be (h : Hash) : Z :=
  match h with
  | [] => 0
  | b :: h' => if byte_Z b =? 0 then 8 + leading_zero_bits_be h' else u8_leading_zeros (byte_Z b)
  end.

(** The seed leaves out the nonce and mix hash (as documented), and also the
    network id and the base fee. *)
Definition mining_seed_preimage (b : Block) : bytes :=
  let h := header b in
  le_bytes 4 (bh_version h) ++ bh_previous_hash h ++ bh_merkle_root h ++
  le_bytes 8 (bh_timestamp h) ++ [byte_of_Z (bh_difficulty h)] ++ le_bytes 8 (bh_height h).

Definition native_failure : VireonError := InvalidPow 0 0.

Definition meets_target (h : Hash) (required_leading_zero_bits : Z) : bool :=
  hash_meets_boundary h (boundary_from_leading_zero_bits required_leading_zero_bits).

Definition check_pow (h : Hash) (required_leading_zero_bits : Z) : bool :=
  meets_target h required_leading_zero_bits.

Section pow.
Context `{Primitives}.

Definition keccak256 (data : bytes) : Hash := vireon_keccak256 data.

Definition mining_header_hash (b : Block) : Hash := keccak256 (mining_seed_preimage b).

Definition firopow_hash (block_height : Z) (header_hash : Hash) (nonce : Z)
    : Result FiroPowOutput :=
  match vireon_firopow_hash (height_as_i32 block_height) header_hash nonce with
  | Some (f, m) => Ok {| final_hash := f; mix_hash := m |}
  | None => Err native_failure
  end.

Definition firopow_verify (block_height : Z) (header_hash mix : Hash) (nonce : Z)
    (boundary : bytes) : bool :=
  vireon_firopow_verify (height_as_i32 block_height) header_hash mix nonce boundary =? 1.

Definition hash_header (b : Block) (nonce : Z) : Result FiroPowOutput :=
  let seed := mining_header_hash b in firopow_hash (bh_height (header b)) seed nonce.

Definition FiroPow_validate (b : Block) (nonce : Z) (mix : Hash) (required : Z)
    : Result PowValidation :=
  let header_hash := mining_header_hash b in
  let boundary := boundary_from_leading_zero_bits required in
  let ok := firopow_verify (bh_height (header b)) header_hash mix nonce boundary in
  computed ← firopow_hash (bh_height (header b)) header_hash nonce;
  let meets := ok && bool_decide (mix_hash computed = mix)
    && meets_target (final_hash computed) required in
  Ok {| val_version := PowVersion_launch; val_final_hash := final_hash computed;
        val_mix_hash := mix_hash computed; val_header_hash := header_hash;
        val_required := required; val_meets_target := meets |}.

Definition validate_block_header (b : Block) : Result PowValidation :=
  FiroPow_validate b (bh_nonce (header b)) (bh_mix_hash (header b)) (bh_difficulty (header b)).

Definition ensure_valid (b : Block) : Result PowValidation :=
  result ← validate_block_header b;
  if negb (val_meets_target result)
  then Err (InvalidPow (bh_difficulty (header b)) (leading_zero_bits_be (val_final_hash result)))
  else Ok result.

(** [firopow::pow_hash] *)
Definition firopow_pow_hash (b : Block) (nonce : Z) : Result Hash :=
  final_hash <$> hash_header b nonce.

(** ** [Block::pow_result], [pow_hash_with_nonce], [pow_hash], [hash] *)

Definition pow_hash_with_nonce (b : Block) (nonce : Z) : Result FiroPowOutput :=
  let seed := mining_header_hash b in firopow_hash (bh_height (header b)) seed nonce.

Definition pow_result (b : Block) : Result FiroPowOutput :=
  let seed := mining_header_hash b in firopow_hash (bh_height (header b)) seed (bh_nonce (header b)).

Definition block_pow_hash (b : Block) : Hash := unwrap_or Hash_zero (final_hash <$> pow_result b).
Definition block_hash (b : Block) : Hash := block_pow_hash b.

End pow.

(** * The target *)

Lemma hash_meets_boundary_spec h b :
  length h = length b → hash_meets_boundary h b = true ↔ be_value h <= be_value b.
Proof.
  revert b; induction h as [|x h IH]; intros [|y b] Hl; simpl in Hl; try done.
  injection Hl as Hl. cbn [hash_meets_boundary]. rewrite !be_value_cons, Hl.
  pose proof (be_value_range h) as Hh. pose proof (be_value_range b) as Hb. rewrite Hl in Hh.
  set (p := 256 ^ Z.of_nat (length b)) in *.
  destruct (byte_Z x <? byte_Z y) eqn:E1; breflect; [split; [nia | done]|].
  destruct (byte_Z y <? byte_Z x) eqn:E2; breflect; [split; [done | nia]|].
  rewrite IH by done. replace (byte_Z x) with (byte_Z y) by lia. lia.
Qed.

(** All 256 difficulties, by evaluation. *)
Lemma boundary_table :
  forallb (λ bits, bool_decide (length (boundary_from_leading_zero_bits bits) = 32%nat) &&
                   (be_value (boundary_from_leading_zero_bits bits) =? 2 ^ (256 - bits) - 1))
    (seqZ 0 256) = true.
Proof. vm_compute. reflexivity. Qed.

Lemma boundary_spec bits :
  is_u8 bits → length (boundary_from_leading_zero_bits bits) = 32%nat ∧
  be_value (boundary_from_leading_zero_bits bits) = 2 ^ (256 - bits) - 1.
Proof.
  intros Hb. pose proof boundary_table as H. rewrite forallb_forall in H.
  specialize (H bits). rewrite <- list_elem_of_In, elem_of_seqZ in H.
  unfold in_width in Hb. specialize (H ltac:(lia)). breflect. done.
Qed.

Lemma meets_target_iff h bits :
  hash_wf h → is_u8 bits → meets_target h bits = true ↔ be_value h < 2 ^ (256 - bits).
Proof.
  intros Hh Hb. destruct (boundary_spec bits Hb) as [Hl Hv]. unfold meets_target.
  rewrite hash_meets_boundary_spec by (unfold hash_wf in *; congruence). rewrite Hv. lia.
Qed.

Lemma u8_leading_zeros_spec z k :
  0 < z < 256 → 0 <= k <= 8 → k <= u8_leading_zeros z ↔ z < 2 ^ (8 - k).
Proof.
  intros Hz Hk. unfold u8_leading_zeros. rewrite (proj2 (Z.eqb_neq z 0)) by lia.
  rewrite (Z.log2_lt_pow2 z (8 - k)) by lia. lia.
Qed.

Lemma leading_zero_bits_be_range h :
  0 <= leading_zero_bits_be h <= 8 * Z.of_nat (length h).
Proof.
  induction h as [|b h IH]; cbn [leading_zero_bits_be length]; [lia|].
  pose proof (byte_Z_range b). destruct (byte_Z b =? 0) eqn:E; breflect; [lia|].
  pose proof (u8_leading_zeros_spec (byte_Z b) 0). pose proof (u8_leading_zeros_spec (byte_Z b) 8).
  unfold u8_leading_zeros in *. rewrite (proj2 (Z.eqb_neq _ 0)) in * by lia.
  pose proof (Z.log2_nonneg (byte_Z b)).
  assert (Z.log2 (byte_Z b) < 8) by (apply Z.log2_lt_pow2; lia). lia.
Qed.

(** The byte loop counts the leading zeros of the big-endian number. *)
Lemma leading_zero_bits_be_spec h k :
  0 <= k <= 8 * Z.of_nat (length h) →
  k <= leading_zero_bits_be h ↔ be_value h < 2 ^ (8 * Z.of_nat (length h) - k).
Proof.
  revert k; induction h as [|b h IH]; intros k Hk; cbn [leading_zero_bits_be length] in *.
  { assert (k = 0) as -> by lia. vm_compute. split; congruence. }
  rewrite be_value_cons. pose proof (be_value_range h) as Hv. pose proof (byte_Z_range b) as Hb.
  assert (256 ^ Z.of_nat (length h) = 2 ^ (8 * Z.of_nat (length h))) as Hp
    by (change 256 with (2 ^ 8); rewrite <- Z.pow_mul_r by lia; done).
  rewrite Hp in *. set (n := 8 * Z.of_nat (length h)) in *.
  replace (8 * Z.of_nat (S (length h)) - k) with (n + (8 - k)) by lia.
  destruct (byte_Z b =? 0) eqn:E; breflect.
  - rewrite E. destruct (decide (8 <= k)) as [Hk8|Hk8].
    + replace (n + (8 - k)) with (n - (k - 8)) by lia. rewrite Z.mul_0_l, Z.add_0_l, <- IH by lia. lia.
    + pose proof (leading_zero_bits_be_range h).
      assert (2 ^ n <= 2 ^ (n + (8 - k))) by (apply Z.pow_le_mono_r; lia). lia.
  - destruct (decide (k <= 8)) as [Hk8|Hk8].
    + rewrite u8_leading_zeros_spec by lia. rewrite Z.pow_add_r by lia.
      set (q := 2 ^ (8 - k)) in *. set (p := 2 ^ n) in *. nia.
    + assert (2 ^ (n + (8 - k)) <= 2 ^ n) by (apply Z.pow_le_mono_r; lia).
      pose proof (u8_leading_zeros_spec (byte_Z b) 8).
      assert (u8_leading_zeros (byte_Z b) <= 8).
      { unfold u8_leading_zeros. pose proof (Z.log2_nonneg (byte_Z b)).
        destruct (_ =? 0); lia. }
      set (p := 2 ^ n) in *. nia.
Qed.

(** The target test compares the hash as a 256-bit big-endian integer with
    [2^(256-bits)], equivalently it asks for [bits] leading zero bits: the byte
    loops of the boundary, the comparison and the counter agree. *)
Theorem meets_target_spec h bits :
  hash_wf h → is_u8 bits →
  (meets_target h bits = true ↔ be_value h < 2 ^ (256 - bits)) ∧
  (meets_target h bits = true ↔ bits <= leading_zero_bits_be h).
Proof.
  intros Hh Hb. split; [by apply meets_target_iff|].
  rewrite meets_target_iff by done. unfold in_width in Hb.
  rewrite (leading_zero_bits_be_spec h bits); rewrite Hh; [done | simpl; lia].
Qed.

(** * Validation of a header *)

Section pow_lemmas.
Context `{PrimitivesOk}.

Lemma firopow_hash_Ok h seed n out :
  firopow_hash h seed n = Ok out ↔
  vireon_firopow_hash (height_as_i32 h) seed n = Some (final_hash out, mix_hash out).
Proof.
  unfold firopow_hash. destruct (vireon_firopow_hash _ _ _) as [[f m]|];
    destruct out; split; simpl; congruence.
Qed.

Lemma firopow_hash_wf h seed n out :
  firopow_hash h seed n = Ok out → hash_wf (final_hash out) ∧ hash_wf (mix_hash out).
Proof. intros Hf%firopow_hash_Ok. by apply firopow_hash_length in Hf. Qed.

Lemma block_hash_wf b : hash_wf (block_hash b).
Proof.
  unfold block_hash, block_pow_hash. destruct (pow_result b) as [out|] eqn:E; [|done].
  unfold pow_result in E. by apply firopow_hash_wf in E as [? _].
Qed.

Lemma block_hash_Ok b out : pow_result b = Ok out → block_hash b = final_hash out.
Proof. unfold block_hash, block_pow_hash. by intros ->. Qed.

(** What the validation computes for a header whose evaluation succeeds. *)
Lemma validate_block_header_meets b v :
  is_u8 (bh_difficulty (header b)) →
  validate_block_header b = Ok v →
  ∃ out, pow_result b = Ok out ∧ val_final_hash v = final_hash out ∧
    val_mix_hash v = mix_hash out ∧ val_header_hash v = mining_header_hash b ∧
    (val_meets_target v = true ↔
       mix_hash out = bh_mix_hash (header b) ∧
       be_value (final_hash out) < 2 ^ (256 - bh_difficulty (header b))).
Proof.
  intros Hd. unfold validate_block_header, FiroPow_validate. cbv zeta.
  intros (out & Ho & [= <-])%bind_Ok. exists out. split; [done|].
  do 3 (split; [done|]). cbn [val_meets_target].
  pose proof Ho as Ho'. apply firopow_hash_Ok in Ho'.
  destruct (firopow_hash_wf _ _ _ _ Ho) as [Hwf _].
  rewrite !andb_true_iff, bool_decide_eq_true, meets_target_iff by done.
  unfold firopow_verify. rewrite Z.eqb_eq, firopow_verify_spec.
  destruct (boundary_spec _ Hd) as [_ ->]. split; [tauto|].
  intros [Hm Hlt]. split_and!; [|done|done]. exists (final_hash out). rewrite <- Hm. split; [done|lia].
Qed.

Lemma ensure_valid_meets b :
  is_u8 (bh_difficulty (header b)) →
  (∃ v, ensure_valid b = Ok v) ↔
  ∃ out, pow_result b = Ok out ∧ mix_hash out = bh_mix_hash (header b) ∧
    be_value (block_hash b) < 2 ^ (256 - bh_difficulty (header b)).
Proof.
  intros Hd. unfold ensure_valid. split.
  - intros (v & (r & Hr & Hv)%bind_Ok).
    destruct (validate_block_header_meets b r Hd Hr) as (out & Ho & _ & _ & _ & Hm).
    destruct (val_meets_target r); [|done]. exists out. rewrite (block_hash_Ok _ _ Ho).
    split; [done|]. by apply Hm.
  - intros (out & Ho & Hmix & Hlt). rewrite (block_hash_Ok _ _ Ho) in Hlt.
    assert (∃ r, validate_block_header b = Ok r) as [r Hr].
    { unfold validate_block_header, FiroPow_validate. cbv zeta.
      unfold pow_result in Ho. cbv zeta in Ho. rewrite Ho. by eexists. }
    exists r. rewrite Hr. simpl.
    destruct (validate_block_header_meets b r Hd Hr) as (out' & Ho' & _ & _ & _ & Hm).
    assert (out' = out) as -> by congruence. by rewrite (proj2 Hm).
Qed.

(** [ensure_valid] accepts a header exactly when the native evaluation at the
    stored nonce succeeds, reproduces the stored mix hash and yields a final
    hash below the target; the report then carries the block's identity. *)
Theorem ensure_valid_iff b :
  is_u8 (bh_difficulty (header b)) →
  (∃ v, ensure_valid b = Ok v) ↔
  ∃ out, pow_result b = Ok out ∧ mix_hash out = bh_mix_hash (header b) ∧
    be_value (block_hash b) < 2 ^ (256 - bh_difficulty (header b)).
Proof. apply ensure_valid_meets. Qed.

Lemma ensure_valid_target b v :
  is_u8 (bh_difficulty (header b)) → ensure_valid b = Ok v →
  pow_result b ≠ Err native_failure ∧ be_value (block_hash b) < 2 ^ (256 - bh_difficulty (header b)).
Proof.
  intros Hd (r & Hr & Hv)%bind_Ok.
  destruct (validate_block_header_meets b r Hd Hr) as (out & Ho & _ & _ & _ & Hm).
  destruct (val_meets_target r); [|done]. rewrite (block_hash_Ok _ _ Ho), Ho.
  split; [done|]. by apply Hm.
Qed.

(** ** What the seed binds *)

(** The header fields hashed into the mining seed. *)
Definition seed_fields (h : BlockHeader) : Z * Hash * Hash * Z * Z * Z :=
  (bh_version h, bh_previous_hash h, bh_merkle_root h, bh_timestamp h, bh_difficulty h, bh_height h).

Lemma mining_seed_preimage_inj a b :
  header_wf (header a) → header_wf (header b) →
  mining_seed_preimage a = mining_seed_preimage b → seed_fields (header a) = seed_fields (header b).
Proof.
  intros [] []. unfold mining_seed_preimage, seed_fields. cbv zeta. intros Hs.
  apply (le_bytes_app_inj 4) in Hs as [-> Hs]; [|done..].
  apply app_inj_1 in Hs as [-> Hs]; [|unfold hash_wf in *; congruence].
  apply app_inj_1 in Hs as [-> Hs]; [|unfold hash_wf in *; congruence].
  apply (le_bytes_app_inj 8) in Hs as [-> Hs]; [|done..].
  apply app_inj_1 in Hs as [Hd Hs]; [|done].
  injection Hd as Hd%(f_equal byte_Z). rewrite !byte_Z_of_Z, !Z.mod_small in Hd by done.
  rewrite Hd. apply le_bytes_inj_u64 in Hs as ->; done.
Qed.

(** The seed of a header fixes its version, parent, Merkle root, timestamp,
    difficulty and height up to a Keccak collision, and nothing else: headers
    that agree on those fields have the same seed, and with the same nonce the
    same block identity, whatever their network id, base fee and mix hash. *)
Theorem mining_seed_binds a b :
  header_wf (header a) → header_wf (header b) →
  (mining_header_hash a = mining_header_hash b →
     seed_fields (header a) = seed_fields (header b) ∨
     ∃ x y, x ≠ y ∧ keccak256 x = keccak256 y) ∧
  (seed_fields (header a) = seed_fields (header b) → bh_nonce (header a) = bh_nonce (header b) →
     block_hash a = block_hash b).
Proof.
  intros Ha Hb. split.
  - intros Hk. destruct (decide (mining_seed_preimage a = mining_seed_preimage b)) as [E|E].
    + left. by apply mining_seed_preimage_inj.
    + right. by eexists _, _.
  - intros Hs Hn. unfold seed_fields in Hs. injection Hs as E1 E2 E3 E4 E5 E6.
    unfold block_hash, block_pow_hash, pow_result, mining_header_hash, mining_seed_preimage.
    by rewrite E1, E2, E3, E4, E5, E6, Hn.
Qed.

End pow_lemmas.
