(* ===== verification/Consensus.v ===== *)
(** [vireon-core/src/checkpoint.rs] and [consensus.rs]: checkpoints, emission,
    base fee, difficulty adjustment, coinbase rules, timestamps and
    [validate_next_block].  The local clock ([unix_now_seconds]) is the argument
    [now]. *)

From S2P Require Import Prelude RustStd Interfaces Crypto Errors Network Amount Signing Address Transaction Block Pow.

(** * [checkpoint.rs] *)

Definition CHECKPOINT_POLICY_ID : string := "vireon-hardcoded-checkpoints-v1".
Definition CHECKPOINT_POLICY_MODE : string := "social-hardcoded-early-network".
Definition CHECKPOINT_POLICY_RELAXATION : string :=
  "Checkpoints remain active for early environments and can be reduced later only through an explicit follow-up protocol freeze.".

Record ChainCheckpoint := {
  cp_height : Z;
  cp_hash_hex : string;
  cp_status_label : string;
}.

Record CheckpointPolicy := {
  cpol_policy_id : string;
  cpol_mode : string;
  cpol_network_id : string;
  cpol_checkpoints : list ChainCheckpoint;
  cpol_relaxation_path : string;
}.

Definition scheduled_checkpoints (n : Network) : list ChainCheckpoint :=
  match n with
  | Devnet => []
  | Testnet => []
  | MainnetCandidate =>
      [{| cp_height := 0;
          cp_hash_hex := "0000f156b7271a3807b16efdf96d21ac30011fbdcd2ce68af7fdd3bc77ae4f3d";
          cp_status_label := "Planned / Mainnet Candidate" |}]
  end.

Definition checkpoint_at_height (n : Network) (height : Z) : option ChainCheckpoint :=
  List.find (λ c, cp_height c =? height) (scheduled_checkpoints n).

Definition validate_checkpoint (n : Network) (height : Z) (actual_hash : Hash) : Result () :=
  match checkpoint_at_height n height with
  | None => Ok ()
  | Some checkpoint =>
      expected_hash ← map_err InvalidCheckpointDefinition (Hash_from_hex (cp_hash_hex checkpoint));
      if negb (bool_decide (actual_hash = expected_hash))
      then Err (InvalidCheckpoint height expected_hash actual_hash)
      else Ok ()
  end.

Definition launch_checkpoint_policy (n : Network) : CheckpointPolicy := {|
  cpol_policy_id := CHECKPOINT_POLICY_ID;
  cpol_mode := CHECKPOINT_POLICY_MODE;
  cpol_network_id := network_id n;
  cpol_checkpoints := scheduled_checkpoints n;
  cpol_relaxation_path := CHECKPOINT_POLICY_RELAXATION;
|}.

(** * Emission *)

Definition block_reward (height : Z) : Amount :=
  let halvings := height / HALVING_INTERVAL_BLOCKS in
  if 64 <=? halvings then Amount_ZERO
  else Z.shiftr INITIAL_BLOCK_REWARD_ATOMIC halvings.

(** The [while reward > 0] loop; [None] is "out of fuel". *)
Fixpoint emission_loop (fuel : nat) (total : Amount) (reward : Z) : option (Result Amount) :=
  match fuel with
  | O => None
  | S fuel' =>
      if 0 <? reward then
        match (epoch_total ← ok_or AmountOverflow (checked_mul 64 reward HALVING_INTERVAL_BLOCKS);
               amount_checked_add total epoch_total) with
        | Ok total' => emission_loop fuel' total' (reward / 2)
        | Err e => Some (Err e)
        end
      else Some (Ok total)
  end.

Definition total_theoretical_emission : option (Result Amount) :=
  emission_loop 65 Amount_ZERO INITIAL_BLOCK_REWARD_ATOMIC.

Definition block_subsidy (height : Z) : Amount := block_reward height.

(** * Base fee *)

Definition initial_base_fee : Amount := INITIAL_BASE_FEE_ATOMIC.

Definition next_base_fee_from_block (previous : Block) : Amount :=
  let previous_base_fee := Z.max (bh_base_fee_atomic (header previous)) MIN_BASE_FEE_ATOMIC in
  let target := Z.max TARGET_TRANSACTIONS_PER_BLOCK 1 in
  let tx_count := saturating_sub (Z.of_nat (length (transactions previous))) 1 in
  if tx_count =? target then previous_base_fee else
  let delta_numerator := saturating_mul 64 previous_base_fee (abs_diff tx_count target) in
  let delta := delta_numerator / target / Z.max BASE_FEE_MAX_CHANGE_DENOMINATOR 1 in
  let delta := if delta =? 0 then 1 else delta in
  if tx_count >? target then saturating_add 64 previous_base_fee delta
  else Z.max (saturating_sub previous_base_fee delta) MIN_BASE_FEE_ATOMIC.

Definition next_base_fee (previous : option Block) : Amount :=
  match previous with Some b => next_base_fee_from_block b | None => initial_base_fee end.

(** * Difficulty *)

(** The [windows(2)] loop; [weight] is [index + 1], the sums are [u128]. *)
Fixpoint lwma_sums (target weight : Z) (sample : list Block) (acc : Z * Z) : Z * Z :=
  match sample with
  | previous :: (current :: _) as rest =>
      let raw_solvetime :=
        saturating_sub (bh_timestamp (header current)) (bh_timestamp (header previous)) in
      let clamped_solvetime :=
        clamp 1 (saturating_mul 64 target DAA_SOLVETIME_CLAMP_MULTIPLIER) raw_solvetime in
      lwma_sums target (weight + 1) rest
        (wrapping_add 128 acc.1 (wrapping_mul 128 clamped_solvetime weight),
         wrapping_add 128 acc.2 (wrapping_mul 128 target weight))
  | _ => acc
  end.

Definition lwma_next_difficulty (previous_blocks : list Block) (target_block_time_seconds window : Z)
    (fallback_difficulty minimum_difficulty maximum_difficulty : Z) : Z :=
  let fallback := clamp minimum_difficulty maximum_difficulty fallback_difficulty in
  let len := Z.of_nat (length previous_blocks) in
  if (len <? 2) || (window =? 0) then
    match last previous_blocks with
    | Some b => clamp minimum_difficulty maximum_difficulty (bh_difficulty (header b))
    | None => fallback
    end
  else
  let sample_size := Z.min len (wrapping_add 64 window 1) in
  let sample := drop (Z.to_nat (len - sample_size)) previous_blocks in
  let target := Z.max target_block_time_seconds 1 in
  let '(weighted_solvetime, weighted_target) := lwma_sums target 1 sample (0, 0) in
  let last_difficulty :=
    clamp minimum_difficulty maximum_difficulty
      match last sample with Some b => bh_difficulty (header b) | None => fallback end in
  if (weighted_solvetime =? 0) || (weighted_target =? 0) then last_difficulty else
  let increase_threshold := saturating_mul 128 weighted_target 90 / 100 in
  let decrease_threshold := saturating_mul 128 weighted_target 110 / 100 in
  if weighted_solvetime <=? increase_threshold then
    let ratio := Z.max (weighted_target / weighted_solvetime) 1 in
    let step := clamp 1 4 (Z.log2 ratio) in
    clamp minimum_difficulty maximum_difficulty (saturating_add 8 last_difficulty step)
  else if decrease_threshold <=? weighted_solvetime then
    let ratio := Z.max (weighted_solvetime / weighted_target) 1 in
    let step := clamp 1 4 (Z.log2 ratio) in
    clamp minimum_difficulty maximum_difficulty (saturating_sub last_difficulty step)
  else last_difficulty.

Definition next_difficulty_for_network (n : Network) (previous_blocks : list Block)
    (fallback_difficulty : Z) : Z :=
  lwma_next_difficulty previous_blocks BLOCK_TIME_SECONDS
    (Z.max (difficulty_adjustment_window n) DAA_WINDOW_BLOCKS) fallback_difficulty
    (minimum_difficulty_leading_zero_bits n) (maximum_difficulty_leading_zero_bits n).

(** * Coinbase *)

Definition collect_priority_fee (base_fee total : Amount) (tx : Transaction) : Result Amount :=
  _ ← validate_fee_against_base_fee tx base_fee;
  fee ← effective_priority_fee tx base_fee;
  amount_checked_add total fee.

Definition expected_coinbase_amount (height : Z) (block_base_fee : Amount) (txs : list Transaction)
    : Result Amount :=
  let subsidy := block_reward height in
  collected_priority_fees ← try_fold (collect_priority_fee block_base_fee) Amount_ZERO (drop 1 txs);
  amount_checked_add subsidy collected_priority_fees.

Definition validate_coinbase_structure (txs : list Transaction) : Result Transaction :=
  coinbase ← ok_or MissingCoinbase (head txs);
  if negb (is_coinbase coinbase) then Err CoinbaseNotFirst else
  if negb (tx_max_fee coinbase =? Amount_ZERO) || negb (tx_priority_fee coinbase =? Amount_ZERO)
  then Err InvalidCoinbaseFee else
  if existsb is_coinbase (drop 1 txs) then Err DuplicateCoinbase else
  Ok coinbase.

Definition validate_coinbase_amount (height : Z) (block_base_fee : Amount) (txs : list Transaction)
    : Result Amount :=
  coinbase ← validate_coinbase_structure txs;
  expected ← expected_coinbase_amount height block_base_fee txs;
  if negb (tx_amount coinbase =? expected)
  then Err (InvalidCoinbaseAmount expected (tx_amount coinbase)) else
  if tx_amount coinbase =? Amount_ZERO then Err ZeroAmountTransaction else
  Ok expected.

(** * Timestamps *)

Definition validate_block_not_too_far_in_future (timestamp now : Z) : Result () :=
  let max_allowed := saturating_add 64 now MAX_FUTURE_BLOCK_DRIFT_SECONDS in
  if timestamp >? max_allowed
  then Err (InvalidFutureTimestamp now timestamp MAX_FUTURE_BLOCK_DRIFT_SECONDS)
  else Ok ().

Definition validate_block_timestamp (previous : option Block) (candidate : Block) (now : Z)
    : Result () :=
  _ ← match previous with
      | Some prev =>
          if bh_timestamp (header candidate) <=? bh_timestamp (header prev)
          then Err (InvalidTimestamp (bh_timestamp (header prev)) (bh_timestamp (header candidate)))
          else Ok ()
      | None => Ok ()
      end;
  validate_block_not_too_far_in_future (bh_timestamp (header candidate)) now.

Definition median_time_past (previous_blocks : list Block) : option Z :=
  if bool_decide (previous_blocks = []) then None else
  let start := saturating_sub (Z.of_nat (length previous_blocks)) MEDIAN_TIME_PAST_WINDOW in
  let times := (λ b, bh_timestamp (header b)) <$> drop (Z.to_nat start) previous_blocks in
  let times := sort_by (λ x y, x ?= y) times in
  let mid := Nat.div (length times) 2 in
  times !! mid.

Definition validate_median_time_past (previous_blocks : list Block) (candidate : Block)
    : Result () :=
  match median_time_past previous_blocks with
  | Some median =>
      if bh_timestamp (header candidate) <=? median
      then Err (InvalidMedianTimePast median (bh_timestamp (header candidate)))
      else Ok ()
  | None => Ok ()
  end.

(** * [validate_next_block] *)

Section consensus.
Context `{Primitives}.

(** One round of the first loop: size, signature, duplicate id. *)
Definition check_candidate_tx (seen : gset string) (tx : Transaction) : Result (gset string) :=
  let wire_len := Z.of_nat (length (encode tx)) in
  if wire_len >? MAX_TRANSACTION_WIRE_BYTES
  then Err (TransactionTooLarge MAX_TRANSACTION_WIRE_BYTES wire_len) else
  _ ← Transaction_verify tx;
  let tx_hash := tx_hash_hex tx in
  if bool_decide (tx_hash ∈ seen) then Err (DuplicateTransactionHash tx_hash)
  else Ok ({[ tx_hash ]} ∪ seen).

Definition check_tx_network (expected : Network) (tx : Transaction) : Result () :=
  transaction_network ← Transaction_network tx;
  if negb (bool_decide (transaction_network = expected))
  then Err (InvalidNetwork (network_id expected) (network_id transaction_network))
  else Ok ().

Definition validate_next_block (now : Z) (expected_network : Network) (previous_blocks : list Block)
    (previous : option Block) (candidate : Block) (emitted_supply : Amount) : Result () :=
  let h := header candidate in
  if bool_decide (transactions candidate = []) then Err EmptyTransactions else
  if Z.of_nat (length (transactions candidate)) >? MAX_TRANSACTIONS_PER_BLOCK
  then Err (TooManyTransactions MAX_TRANSACTIONS_PER_BLOCK
              (Z.of_nat (length (transactions candidate)))) else
  _ ← try_fold check_candidate_tx ∅ (transactions candidate);
  if negb (bool_decide (bh_network_id h = network_id expected_network))
  then Err (InvalidNetwork (network_id expected_network) (bh_network_id h)) else
  let expected_height :=
    match previous with Some b => wrapping_add 64 (bh_height (header b)) 1 | None => 0 end in
  if negb (bh_height h =? expected_height)
  then Err (InvalidHeight expected_height (bh_height h)) else
  _ ← validate_block_timestamp previous candidate now;
  _ ← validate_median_time_past previous_blocks candidate;
  let expected_version := expected_block_version expected_network expected_height in
  if negb (bh_version h =? expected_version)
  then Err (InvalidBlockVersion expected_version (bh_version h) (bh_height h)) else
  let expected_base_fee := next_base_fee previous in
  if negb (bh_base_fee_atomic h =? expected_base_fee)
  then Err (InvalidBaseFee expected_base_fee (bh_base_fee_atomic h)) else
  let minimum_difficulty := minimum_difficulty_leading_zero_bits expected_network in
  let maximum_difficulty := maximum_difficulty_leading_zero_bits expected_network in
  if (bh_difficulty h <? minimum_difficulty) || (bh_difficulty h >? maximum_difficulty)
  then Err (InvalidDifficultyAdjustment
              (next_difficulty_for_network expected_network previous_blocks (bh_difficulty h))
              (bh_difficulty h)) else
  _ ← match previous with
      | Some _ =>
          let expected_difficulty :=
            next_difficulty_for_network expected_network previous_blocks (bh_difficulty h) in
          if negb (bh_difficulty h =? expected_difficulty)
          then Err (InvalidDifficultyAdjustment expected_difficulty (bh_difficulty h))
          else Ok ()
      | None => Ok ()
      end;
  let expected_previous_hash :=
    match previous with Some b => block_hash b | None => Hash_zero end in
  if negb (bool_decide (bh_previous_hash h = expected_previous_hash))
  then Err (InvalidPreviousHash expected_previous_hash (bh_previous_hash h)) else
  _ ← validate_checkpoint expected_network (bh_height h) (block_hash candidate);
  recomputed_merkle ← recompute_merkle_root candidate;
  if negb (bool_decide (recomputed_merkle = bh_merkle_root h)) then Err InvalidMerkleRoot else
  _ ← ensure_valid candidate;
  let block_base_fee := bh_base_fee_atomic h in
  _ ← validate_coinbase_amount (bh_height h) block_base_fee (transactions candidate);
  _ ← try_each Transaction_verify (drop 1 (transactions candidate));
  _ ← try_each (check_tx_network expected_network) (transactions candidate);
  let allowed_reward := block_reward (bh_height h) in
  updated_supply ← amount_checked_add emitted_supply allowed_reward;
  if updated_supply >? MAX_SUPPLY_ATOMIC then Err SupplyOverflow else Ok ().

End consensus.

(** * Emission lemmas *)

Lemma block_reward_eq height : 0 <= height →
  block_reward height = Z.shiftr INITIAL_BLOCK_REWARD_ATOMIC (height / HALVING_INTERVAL_BLOCKS).
Proof.
  intros Hh. unfold block_reward. destruct (64 <=? _) eqn:E; [|done]. breflect.
  symmetry. apply Z.shiftr_eq_0; [done|]. eapply Z.lt_le_trans; [|exact E]. by vm_compute.
Qed.

Lemma block_reward_range height :
  0 <= height → 0 <= block_reward height <= INITIAL_BLOCK_REWARD_ATOMIC.
Proof.
  intros Hh. rewrite block_reward_eq by done.
  assert (0 <= height / HALVING_INTERVAL_BLOCKS) by (apply Z.div_pos; done).
  rewrite Z.shiftr_div_pow2 by done. split; [apply Z.div_pos; [done | lia]|].
  apply Z.div_le_upper_bound; [lia|].
  assert (1 <= 2 ^ (height / HALVING_INTERVAL_BLOCKS)) by lia.
  unfold INITIAL_BLOCK_REWARD_ATOMIC. lia.
Qed.

(** Subsidies of the heights below [n]. *)
Fixpoint emission_upto (n : nat) : Z :=
  match n with O => 0 | S n' => emission_upto n' + block_reward (Z.of_nat n') end.

(** Subsidies of the first [q] halving epochs, per block of an epoch. *)
Fixpoint epoch_rewards (q : nat) : Z :=
  match q with
  | O => 0
  | S q' => epoch_rewards q' + Z.shiftr INITIAL_BLOCK_REWARD_ATOMIC (Z.of_nat q')
  end.

Lemma epoch_rewards_S q :
  epoch_rewards (S q) = epoch_rewards q + Z.shiftr INITIAL_BLOCK_REWARD_ATOMIC (Z.of_nat q).
Proof. done. Qed.

Lemma emission_closed q r :
  0 <= r <= HALVING_INTERVAL_BLOCKS →
  emission_upto (Z.to_nat (Z.of_nat q * HALVING_INTERVAL_BLOCKS + r)) =
  HALVING_INTERVAL_BLOCKS * epoch_rewards q +
  r * Z.shiftr INITIAL_BLOCK_REWARD_ATOMIC (Z.of_nat q).
Proof.
  assert (∀ q r, 0 <= r <= HALVING_INTERVAL_BLOCKS →
    emission_upto (Z.to_nat (Z.of_nat q * HALVING_INTERVAL_BLOCKS)) =
      HALVING_INTERVAL_BLOCKS * epoch_rewards q →
    emission_upto (Z.to_nat (Z.of_nat q * HALVING_INTERVAL_BLOCKS + r)) =
      HALVING_INTERVAL_BLOCKS * epoch_rewards q +
      r * Z.shiftr INITIAL_BLOCK_REWARD_ATOMIC (Z.of_nat q)) as Hin.
  { clear. intros q r Hr Hq. revert r Hr.
    intros r [H0 H1]. revert H1. pattern r. apply natlike_ind; [| |done].
    - intros _. rewrite Z.add_0_r, Hq. lia.
    - clear r H0. intros r H0 IH H1. rewrite Z.add_succ_r, Z2Nat.inj_succ by (unfold HALVING_INTERVAL_BLOCKS; lia).
      cbn [emission_upto]. rewrite IH by lia.
      rewrite Z2Nat.id by (unfold HALVING_INTERVAL_BLOCKS; lia).
      rewrite block_reward_eq by (unfold HALVING_INTERVAL_BLOCKS; lia).
      rewrite Z.div_add_l, (Z.div_small r), Z.add_0_r by (unfold HALVING_INTERVAL_BLOCKS in *; lia). lia. }
  revert r. induction q as [|q IH]; intros r Hr; apply Hin; try done.
  specialize (IH HALVING_INTERVAL_BLOCKS ltac:(unfold HALVING_INTERVAL_BLOCKS; lia)).
  replace (Z.of_nat (S q) * HALVING_INTERVAL_BLOCKS) with
    (Z.of_nat q * HALVING_INTERVAL_BLOCKS + HALVING_INTERVAL_BLOCKS) by lia.
  rewrite IH, epoch_rewards_S. lia.
Qed.

Lemma epoch_rewards_stable q : epoch_rewards (31 + q) = epoch_rewards 31.
Proof.
  induction q as [|q IH]; [done|]. rewrite Nat.add_succ_r, epoch_rewards_S, IH.
  rewrite Z.shiftr_eq_0; [lia | done |].
  apply Z.lt_le_trans with 31; [by vm_compute | lia].
Qed.

Lemma epoch_rewards_mono q : epoch_rewards q <= epoch_rewards 31.
Proof.
  assert (∀ a b, epoch_rewards a <= epoch_rewards (a + b)) as Hm.
  { intros a b. induction b as [|b IH]; [rewrite Nat.add_0_r; lia|].
    rewrite Nat.add_succ_r, epoch_rewards_S.
    assert (0 <= Z.shiftr INITIAL_BLOCK_REWARD_ATOMIC (Z.of_nat (a + b)))
      by (by apply Z.shiftr_nonneg). lia. }
  destruct (Nat.le_ge_cases q 31) as [Hq|Hq].
  - replace 31%nat with (q + (31 - q))%nat by lia. apply Hm.
  - replace q with (31 + (q - 31))%nat by lia. by rewrite epoch_rewards_stable.
Qed.

Lemma emission_upto_mono m n : (m <= n)%nat → emission_upto m <= emission_upto n.
Proof.
  induction 1 as [|n _ IH]; [done|]. cbn [emission_upto].
  pose proof (block_reward_range (Z.of_nat n)). lia.
Qed.

Definition TOTAL_EMISSION : Z := HALVING_INTERVAL_BLOCKS * epoch_rewards 31.

Lemma emission_upto_le n : emission_upto n <= TOTAL_EMISSION.
Proof.
  etransitivity; [apply (emission_upto_mono n
    (Z.to_nat (Z.of_nat n * HALVING_INTERVAL_BLOCKS + 0))); unfold HALVING_INTERVAL_BLOCKS; lia|].
  rewrite emission_closed by (unfold HALVING_INTERVAL_BLOCKS; lia).
  pose proof (epoch_rewards_mono n). unfold TOTAL_EMISSION, HALVING_INTERVAL_BLOCKS. lia.
Qed.

Lemma total_emission_bound : TOTAL_EMISSION <= MAX_SUPPLY_ATOMIC.
Proof. by vm_compute. Qed.

(** C29. The theoretical emission the code computes is the sum of all block rewards:
    the loop ends without overflow, no prefix of the schedule exceeds its
    result, every sufficiently long one reaches it, and it is within the
    60,000,000 VIRE cap. *)
Theorem total_emission_spec :
  ∃ total, total_theoretical_emission = Some (Ok total) ∧ total <= MAX_SUPPLY_ATOMIC ∧
    (∀ n, emission_upto n <= total) ∧
    (∀ n, 31 * HALVING_INTERVAL_BLOCKS <= Z.of_nat n → emission_upto n = total).
Proof.
  exists TOTAL_EMISSION. split_and!;
    [by vm_compute | apply total_emission_bound | apply emission_upto_le |].
  intros n Hn. apply Z.le_antisymm; [apply emission_upto_le|].
  etransitivity; [|apply (emission_upto_mono (Z.to_nat (Z.of_nat 31 * HALVING_INTERVAL_BLOCKS + 0)));
    lia].
  rewrite emission_closed by (unfold HALVING_INTERVAL_BLOCKS; lia). unfold TOTAL_EMISSION. lia.
Qed.

(** * Base fee *)

Definition user_tx_count (b : Block) : Z := Z.of_nat (length (transactions b)) - 1.

Lemma next_base_fee_pos previous : 1 <= next_base_fee previous.
Proof.
  destruct previous as [b|]; [|by vm_compute]. unfold next_base_fee, next_base_fee_from_block. cbv zeta.
  change (Z.max TARGET_TRANSACTIONS_PER_BLOCK 1) with 1.
  change (Z.max BASE_FEE_MAX_CHANGE_DENOMINATOR 1) with 8. unfold MIN_BASE_FEE_ATOMIC.
  set (f := Z.max (bh_base_fee_atomic (header b)) 1).
  set (k := abs_diff (saturating_sub (Z.of_nat (length (transactions b))) 1) 1).
  assert (0 <= saturating_mul 64 f k / 1 / 8) as Hd.
  { apply Z.div_pos; [|lia]. apply Z.div_pos; [|lia].
    unfold saturating_mul, k, abs_diff, umax. lia. }
  repeat case_match; unfold saturating_add, umax; lia.
Qed.

(** The adjustment by the parent's transaction count: unchanged at the target of
    one user transaction; below it the fee falls by an eighth (at least one
    unit), not under the minimum; above it, it rises by an eighth per
    transaction over the target (at least one unit), saturating at [u64::MAX]. *)
Theorem next_base_fee_spec b :
  is_u64 (bh_base_fee_atomic (header b)) → transactions b ≠ [] →
  let prev := Z.max (bh_base_fee_atomic (header b)) 1 in
  let next := next_base_fee (Some b) in
  1 <= next <= umax 64 ∧
  (user_tx_count b = 1 → next = prev) ∧
  (user_tx_count b = 0 → next = Z.max 1 (prev - Z.max 1 (prev / 8))) ∧
  (1 < user_tx_count b → prev * (user_tx_count b - 1) <= umax 64 →
     next = Z.min (umax 64) (prev + Z.max 1 (prev * (user_tx_count b - 1) / 8))).
Proof.
  intros Hb Hne prev next.
  assert (0 <= user_tx_count b) as Hc
    by (unfold user_tx_count; destruct (transactions b); [done | simpl; lia]).
  assert (saturating_sub (Z.of_nat (length (transactions b))) 1 = user_tx_count b) as Hs
    by (unfold saturating_sub, user_tx_count in *; lia).
  assert (1 <= prev <= umax 64) as Hp by (unfold prev, in_width, umax in *; lia).
  assert (next = if user_tx_count b =? 1 then prev else
    let delta := saturating_mul 64 prev (abs_diff (user_tx_count b) 1) / 1 / 8 in
    let delta := if delta =? 0 then 1 else delta in
    if user_tx_count b >? 1 then saturating_add 64 prev delta
    else Z.max (saturating_sub prev delta) 1) as Hn.
  { unfold next, next_base_fee, next_base_fee_from_block. cbv zeta. by rewrite Hs. }
  rewrite Hn. cbv zeta. rewrite Z.div_1_r.
  set (c := user_tx_count b) in *. unfold saturating_mul, saturating_add, saturating_sub, abs_diff.
  rewrite Z.gtb_ltb.
  assert (∀ x, 0 <= x → (if x / 8 =? 0 then 1 else x / 8) = Z.max 1 (x / 8)) as Hd.
  { intros x Hx. assert (0 <= x / 8) by (apply Z.div_pos; lia).
    destruct (x / 8 =? 0) eqn:E; blia. }
  rewrite Hd by (unfold umax in *; nia).
  destruct (c =? 1) eqn:E1; breflect; [split_and!; intros; lia|].
  destruct (1 <? c) eqn:E2; breflect.
  - split_and!; [lia | lia | lia | lia |]. intros _ Hle.
    rewrite (Z.abs_eq (c - 1)), (Z.min_l (prev * (c - 1))) by lia. lia.
  - assert (c = 0) as -> by lia. change (Z.abs (0 - 1)) with 1.
    rewrite Z.mul_1_r, (Z.min_l prev) by lia.
    assert (0 <= prev / 8) by (apply Z.div_pos; lia).
    split_and!; intros; try lia.
Qed.

(** * Difficulty *)

(** The weighted sums in exact arithmetic: weight [w] for the first pair, then
    [w + 1], ... *)
Fixpoint weighted_sum (f : Block → Block → Z) (w : Z) (sample : list Block) : Z :=
  match sample with
  | previous :: (current :: _) as rest => f previous current * w + weighted_sum f (w + 1) rest
  | _ => 0
  end.

Definition solvetime (target : Z) (previous current : Block) : Z :=
  clamp 1 (target * 12)
    (saturating_sub (bh_timestamp (header current)) (bh_timestamp (header previous))).

Lemma weighted_sum_range f w sample lo hi :
  (∀ p c, lo <= f p c <= hi) → 0 <= lo → 0 < w →
  0 <= weighted_sum f w sample <=
    hi * (w + Z.of_nat (length sample)) * Z.of_nat (length sample) ∧
  (lo = 1 → (2 <= length sample)%nat → 1 <= weighted_sum f w sample).
Proof.
  intros Hf Hlo. revert w. induction sample as [|p sample IH]; intros w Hw; [simpl; lia|].
  destruct sample as [|c rest]; [cbn; specialize (Hf p p); nia|].
  specialize (IH (w + 1) ltac:(lia)) as [IH _]. specialize (Hf p c).
  change (weighted_sum f w (p :: c :: rest)) with (f p c * w + weighted_sum f (w + 1) (c :: rest)).
  set (s := weighted_sum f (w + 1) (c :: rest)) in *.
  cbn [length] in *. set (n := Z.of_nat (S (length rest))) in *.
  replace (Z.of_nat (S (S (length rest)))) with (n + 1) by lia.
  assert (0 <= n) by lia. split; [nia | intros -> _; nia].
Qed.

Lemma lwma_sums_cons target w p c rest acc :
  lwma_sums target w (p :: c :: rest) acc =
  lwma_sums target (w + 1) (c :: rest)
    (wrapping_add 128 acc.1 (wrapping_mul 128
       (clamp 1 (saturating_mul 64 target DAA_SOLVETIME_CLAMP_MULTIPLIER)
          (saturating_sub (bh_timestamp (header c)) (bh_timestamp (header p)))) w),
     wrapping_add 128 acc.2 (wrapping_mul 128 target w)).
Proof. done. Qed.

(** No [u128] overflow for samples of the size the chain uses. *)
Lemma lwma_sums_exact target w sample a b :
  1 <= target <= 2 ^ 32 → 0 < w → 0 <= a → 0 <= b →
  a + target * 12 * (w + Z.of_nat (length sample)) * Z.of_nat (length sample) < 2 ^ 128 →
  b + target * 12 * (w + Z.of_nat (length sample)) * Z.of_nat (length sample) < 2 ^ 128 →
  lwma_sums target w sample (a, b) =
  (a + weighted_sum (solvetime target) w sample, b + weighted_sum (λ _ _, target) w sample).
Proof.
  intros Ht. revert w a b. induction sample as [|p sample IH]; intros w a b Hw Ha Hb H1 H2.
  { cbn. f_equal; lia. }
  destruct sample as [|c rest]; [cbn; f_equal; lia|].
  rewrite lwma_sums_cons. cbn [fst snd].
  assert (saturating_mul 64 target DAA_SOLVETIME_CLAMP_MULTIPLIER = target * 12) as ->
    by (unfold saturating_mul, DAA_SOLVETIME_CLAMP_MULTIPLIER, umax; lia).
  fold (solvetime target p c).
  pose proof (clamp_range 1 (target * 12) (saturating_sub (bh_timestamp (header c))
    (bh_timestamp (header p))) ltac:(lia)) as Hs. fold (solvetime target p c) in Hs.
  change (weighted_sum (solvetime target) w (p :: c :: rest)) with
    (solvetime target p c * w + weighted_sum (solvetime target) (w + 1) (c :: rest)).
  change (weighted_sum (λ _ _, target) w (p :: c :: rest)) with
    (target * w + weighted_sum (λ _ _, target) (w + 1) (c :: rest)).
  change (length (p :: c :: rest)) with (S (length (c :: rest))) in *.
  set (n := Z.of_nat (length (c :: rest))) in *.
  assert (Z.of_nat (S (length (c :: rest))) = n + 1) as En by lia. rewrite En in *.
  assert (0 <= n) by lia. set (s := solvetime target p c) in *.
  replace (w + (n + 1)) with (w + 1 + n) in * by lia.
  set (K := target * 12 * (w + 1 + n)) in *.
  assert (0 <= s * w <= target * 12 * w) as Hsw by nia.
  assert (0 <= target * w <= target * 12 * w) as Htw by nia.
  assert (target * 12 * w <= K) as HwK by (unfold K; nia).
  assert (K * (n + 1) = K * n + K) as EK by lia. assert (0 <= K * n) as HKn by nia.
  assert (0 <= s * w < 2 ^ 128) as Ms by lia. assert (0 <= target * w < 2 ^ 128) as Mt by lia.
  assert (0 <= a + s * w < 2 ^ 128) as Ma by lia.
  assert (0 <= b + target * w < 2 ^ 128) as Mb by lia.
  unfold wrapping_add, wrapping_mul, uwrap.
  rewrite (Z.mod_small _ _ Ms), (Z.mod_small _ _ Mt), (Z.mod_small _ _ Ma), (Z.mod_small _ _ Mb).
  rewrite IH; [f_equal; lia | lia | lia | lia | fold K; lia | fold K; lia].
Qed.

Lemma weighted_sum_const t w sample :
  weighted_sum (λ _ _, t) w sample = t * weighted_sum (λ _ _, 1) w sample.
Proof.
  revert w. induction sample as [|p sample IH]; intros w; [cbn; lia|].
  destruct sample as [|c rest]; [cbn; lia|].
  change (weighted_sum (λ _ _, t) w (p :: c :: rest)) with
    (t * w + weighted_sum (λ _ _, t) (w + 1) (c :: rest)).
  change (weighted_sum (λ _ _, 1) w (p :: c :: rest)) with
    (1 * w + weighted_sum (λ _ _, 1) (w + 1) (c :: rest)). rewrite IH. lia.
Qed.

(** The last 61 blocks: 60 solve times. *)
Definition daa_sample (blocks : list Block) : list Block :=
  drop (length blocks - 61) blocks.

Lemma last_drop {A} n (l : list A) : (n < length l)%nat → last (drop n l) = last l.
Proof.
  intros Hn. rewrite !last_lookup, lookup_drop, length_drop. f_equal. lia.
Qed.

Lemma length_daa_sample blocks :
  length (daa_sample blocks) = Nat.min (length blocks) 61.
Proof. unfold daa_sample. rewrite length_drop. lia. Qed.

(** [next_difficulty_for_network] with the exact sums substituted for the
    [u128] accumulators. *)
Lemma next_difficulty_unfold n blocks b fallback :
  (2 <= length blocks)%nat → last blocks = Some b →
  let lo := minimum_difficulty_leading_zero_bits n in
  let hi := maximum_difficulty_leading_zero_bits n in
  let d := clamp lo hi (bh_difficulty (header b)) in
  let S := weighted_sum (solvetime 60) 1 (daa_sample blocks) in
  let W := weighted_sum (λ _ _, 1) 1 (daa_sample blocks) in
  1 <= S ∧ 1 <= W ∧ 60 * W < 2 ^ 64 ∧
  next_difficulty_for_network n blocks fallback =
  if S <=? 54 * W then
    clamp lo hi (saturating_add 8 d (clamp 1 4 (Z.log2 (Z.max (60 * W / S) 1))))
  else if 66 * W <=? S then
    clamp lo hi (saturating_sub d (clamp 1 4 (Z.log2 (Z.max (S / (60 * W)) 1))))
  else d.
Proof.
  intros Hlen Hlast lo hi d S W. pose proof (length_daa_sample blocks) as Hls.
  assert (2 <= length (daa_sample blocks))%nat as Hl2 by lia.
  assert (Z.of_nat (length (daa_sample blocks)) <= 61) as Hl61 by lia.
  assert (∀ p c, 1 <= solvetime 60 p c <= 720) as Hst
    by (intros p c; apply (clamp_range 1 720); lia).
  destruct (weighted_sum_range (solvetime 60) 1 (daa_sample blocks) 1 720) as [HS1 HS2];
    [done|lia|lia|].
  destruct (weighted_sum_range (λ _ _, 1) 1 (daa_sample blocks) 1 1) as [HW1 HW2];
    [lia|lia|lia|].
  specialize (HS2 eq_refl Hl2). specialize (HW2 eq_refl Hl2). fold S in HS1, HS2. fold W in HW1, HW2.
  assert (W <= 3782) as HW3 by nia. clear HW1 HS1.
  split_and!; [done|done|lia|].
  unfold next_difficulty_for_network, lwma_next_difficulty. cbv zeta.
  assert (Z.max (difficulty_adjustment_window n) DAA_WINDOW_BLOCKS = 60) as -> by by destruct n.
  assert ((Z.of_nat (length blocks) <? 2) = false) as -> by (apply Z.ltb_ge; lia).
  change (60 =? 0) with false. change ((false || false)%bool) with false. cbv iota.
  change (wrapping_add 64 60 1) with 61. change (Z.max BLOCK_TIME_SECONDS 1) with 60.
  assert (drop (Z.to_nat (Z.of_nat (length blocks) - Z.min (Z.of_nat (length blocks)) 61)) blocks =
    daa_sample blocks) as -> by (unfold daa_sample; f_equal; lia).
  rewrite lwma_sums_exact by (try lia; nia). rewrite !Z.add_0_l, weighted_sum_const.
  fold S W. assert (last (daa_sample blocks) = Some b) as ->
    by (unfold daa_sample; rewrite last_drop by lia; done).
  fold lo hi d. rewrite (proj2 (Z.eqb_neq S 0)), (proj2 (Z.eqb_neq (60 * W) 0)) by lia.
  cbv iota. change ((false || false)%bool) with false. cbv iota.
  assert (saturating_mul 128 (60 * W) 90 / 100 = 54 * W) as ->.
  { unfold saturating_mul. rewrite Z.min_l by (unfold umax; lia).
    replace (60 * W * 90) with (54 * W * 100) by lia. by apply Z.div_mul. }
  assert (saturating_mul 128 (60 * W) 110 / 100 = 66 * W) as ->; [|done].
  unfold saturating_mul. rewrite Z.min_l by (unfold umax; lia).
  replace (60 * W * 110) with (66 * W * 100) by lia. by apply Z.div_mul.
Qed.

Lemma network_difficulty_u8 n :
  0 < minimum_difficulty_leading_zero_bits n ∧
  minimum_difficulty_leading_zero_bits n <= maximum_difficulty_leading_zero_bits n ∧
  maximum_difficulty_leading_zero_bits n <= 34.
Proof. by destruct n. Qed.

Lemma next_difficulty_range n blocks fallback :
  minimum_difficulty_leading_zero_bits n <= next_difficulty_for_network n blocks fallback
    <= maximum_difficulty_leading_zero_bits n.
Proof.
  destruct (network_difficulty_u8 n) as (_ & Hle & _).
  unfold next_difficulty_for_network, lwma_next_difficulty. cbv zeta.
  repeat case_match; by apply clamp_range.
Qed.

(** C31. The difficulty adjustment on every history of two blocks or more: with [S]
    the weighted clamped solve times and [60 * W] the weighted target of the
    last 61 blocks, the result is one to four bits above the parent's
    difficulty when [S] is at most 90% of the target, one to four bits below
    when it is at least 110%, the parent's difficulty in between, always within
    the network's bounds; the [u128] accumulators do not overflow. *)
Theorem next_difficulty_spec n blocks b fallback :
  (2 <= length blocks)%nat → last blocks = Some b →
  let lo := minimum_difficulty_leading_zero_bits n in
  let hi := maximum_difficulty_leading_zero_bits n in
  let d := clamp lo hi (bh_difficulty (header b)) in
  let S := weighted_sum (solvetime 60) 1 (daa_sample blocks) in
  let W := weighted_sum (λ _ _, 1) 1 (daa_sample blocks) in
  let next := next_difficulty_for_network n blocks fallback in
  lo <= next <= hi ∧
  (10 * S <= 9 * (60 * W) → next = Z.min hi (d + clamp 1 4 (Z.log2 (60 * W / S)))) ∧
  (11 * (60 * W) <= 10 * S → next = Z.max lo (d - clamp 1 4 (Z.log2 (S / (60 * W))))) ∧
  (9 * (60 * W) < 10 * S < 11 * (60 * W) → next = d).
Proof.
  intros Hlen Hlast lo hi d S W next. split; [apply next_difficulty_range|].
  destruct (next_difficulty_unfold n blocks b fallback Hlen Hlast) as (HS & HW & _ & E).
  fold lo hi d S W next in E, HS, HW. rewrite E. clear E.
  destruct (network_difficulty_u8 n) as (H0 & Hle & H34). fold lo hi in H0, Hle, H34.
  assert (lo <= d <= hi) as Hd by (by apply clamp_range).
  assert (∀ x, 1 <= clamp 1 4 x <= 4) as Hc by (intros; by apply clamp_range).
  split_and!; intros Hs.
  - rewrite (proj2 (Z.leb_le _ _)) by lia. rewrite (Z.max_l (_ / S)) by (apply Z.div_le_lower_bound; lia).
    pose proof (Hc (Z.log2 (60 * W / S))). rewrite clamp_spec by done.
    unfold saturating_add, umax. lia.
  - rewrite (proj2 (Z.leb_gt _ _)) by lia. rewrite (proj2 (Z.leb_le _ _)) by lia.
    rewrite (Z.max_l (_ / _)) by (apply Z.div_le_lower_bound; lia).
    pose proof (Hc (Z.log2 (S / (60 * W)))). rewrite clamp_spec by done.
    unfold saturating_sub. lia.
  - rewrite (proj2 (Z.leb_gt _ _)) by lia. rewrite (proj2 (Z.leb_gt _ _)) by lia. done.
Qed.

(** * Median time past *)

Lemma filter_length_take {A} (P : A → Prop) `{∀ x, Decision (P x)} k (l : list A) :
  (k <= length l)%nat → Forall P (take k l) → (k <= length (filter P l))%nat.
Proof.
  revert l; induction k as [|k IH]; intros l Hk HF; [lia|].
  destruct l as [|x l]; simpl in *; [lia|]. apply Forall_cons in HF as [Hx HF].
  rewrite filter_cons_True by done. simpl. specialize (IH l ltac:(lia) HF). lia.
Qed.

Lemma filter_length_drop {A} (P : A → Prop) `{∀ x, Decision (P x)} k (l : list A) :
  Forall P (drop k l) → (length l - k <= length (filter P l))%nat.
Proof.
  intros HF. rewrite <- (take_drop k l) at 2. rewrite filter_app, length_app.
  pose proof (filter_length_take P (length (drop k l)) (drop k l)) as Ht.
  rewrite take_ge in Ht by lia. specialize (Ht ltac:(lia) HF). rewrite length_drop in Ht. lia.
Qed.

(** The timestamps of the last eleven blocks. *)
Definition recent_times (blocks : list Block) : list Z :=
  (λ b, bh_timestamp (header b)) <$> drop (length blocks - 11) blocks.

Lemma median_time_past_in blocks m : median_time_past blocks = Some m → m ∈ recent_times blocks.
Proof.
  unfold median_time_past. case_bool_decide; [done|]. cbv zeta. intros Hm%list_elem_of_lookup_2.
  rewrite sort_by_perm in Hm. unfold recent_times, saturating_sub, MEDIAN_TIME_PAST_WINDOW in *.
  by replace (Z.to_nat (Z.max (Z.of_nat (length blocks) - 11) 0)) with (length blocks - 11)%nat in Hm by lia.
Qed.

(** The fallback difficulty only matters for an empty history. *)
Lemma next_difficulty_fallback n blocks f f' :
  blocks ≠ [] → next_difficulty_for_network n blocks f = next_difficulty_for_network n blocks f'.
Proof.
  intros Hne. unfold next_difficulty_for_network, lwma_next_difficulty. cbv zeta.
  assert (∃ b, last blocks = Some b) as [b Hb]
    by (destruct (last blocks) eqn:E; [eauto | by apply last_None in E]).
  rewrite Hb. destruct (_ || _) eqn:E; [done|].
  apply orb_false_iff in E as [E%Z.ltb_ge _].
  rewrite last_drop by (rewrite Z.max_r by (by destruct n);
    change (wrapping_add 64 DAA_WINDOW_BLOCKS 1) with 61; lia).
  by rewrite Hb.
Qed.

(** [median_time_past] is a median: defined on every nonempty history, a
    timestamp of the last eleven blocks, with more than half of them at most it
    and at least half of them at least it. *)
Theorem median_time_past_spec blocks :
  (median_time_past blocks = None ↔ blocks = []) ∧
  ∀ m, median_time_past blocks = Some m →
    m ∈ recent_times blocks ∧
    (length (recent_times blocks) < 2 * length (filter (λ t, t <= m)%Z (recent_times blocks)))%nat ∧
    (length (recent_times blocks) <= 2 * length (filter (λ t, m <= t)%Z (recent_times blocks)))%nat.
Proof.
  assert (blocks ≠ [] → (0 < length (recent_times blocks))%nat) as Hpos.
  { intros Hne. unfold recent_times. rewrite length_fmap, length_drop.
    destruct blocks; [done | simpl; lia]. }
  set (cmp := λ x y : Z, x ?= y). set (st := sort_by cmp (recent_times blocks)).
  pose proof (sort_by_perm cmp (recent_times blocks)) as Hperm. fold st in Hperm.
  assert (blocks ≠ [] → median_time_past blocks = st !! Nat.div (length st) 2) as Hmtp.
  { intros Hne. unfold median_time_past. rewrite bool_decide_eq_false_2 by done. cbv zeta.
    fold cmp. assert ((λ b, bh_timestamp (header b)) <$>
      drop (Z.to_nat (saturating_sub (Z.of_nat (length blocks)) MEDIAN_TIME_PAST_WINDOW)) blocks
      = recent_times blocks) as ->; [|done].
    unfold recent_times, saturating_sub, MEDIAN_TIME_PAST_WINDOW. do 2 f_equal. lia. }
  assert (length st = length (recent_times blocks)) as Hlen by apply sort_by_length.
  rewrite <- Hlen in *.
  pose proof (Nat.div_mod_eq (length st) 2). pose proof (Nat.mod_upper_bound (length st) 2).
  set (mid := Nat.div (length st) 2) in *. split.
  - split; [|by intros ->]. intros Hn. destruct (decide (blocks = [])); [done|].
    rewrite Hmtp, lookup_ge_None in Hn by done. specialize (Hpos ltac:(done)). lia.
  - intros m Hm. assert (blocks ≠ []) as Hne by (by intros ->).
    rewrite Hmtp in Hm by done.
    assert (StronglySorted (cmp_le cmp) st) as Hsort by (apply (sort_by_sorted cmp)).
    rewrite <- Hperm. split_and!.
    + by eapply list_elem_of_lookup_2.
    + assert (S mid <= length (filter (λ t, t <= m)%Z st))%nat; [|lia].
      apply filter_length_take; [apply lookup_lt_Some in Hm; lia|].
      apply Forall_lookup. intros i x (Hx & Hi)%lookup_take_Some.
      destruct (decide (i = mid)) as [->|]; [assert (x = m) as -> by congruence; lia|].
      pose proof (StronglySorted_lookup_le _ _ i mid x m Hsort ltac:(lia) Hx Hm) as Hle.
      unfold cmp_le, cmp in Hle. by apply Z.compare_le_iff.
    + assert (length st - mid <= length (filter (λ t, m <= t)%Z st))%nat; [|lia].
      apply filter_length_drop, Forall_lookup. intros i x Hx. rewrite lookup_drop in Hx.
      destruct i as [|i]; [rewrite Nat.add_0_r in Hx; assert (x = m) as -> by congruence; lia|].
      pose proof (StronglySorted_lookup_le _ _ mid (mid + S i) m x Hsort ltac:(lia) Hm Hx) as Hle.
      unfold cmp_le, cmp in Hle. by apply Z.compare_le_iff.
Qed.

(** * Coinbase *)

(** The tip a transaction pays at a base fee. *)
Definition tip_of (base : Amount) (tx : Transaction) : Z :=
  if is_coinbase tx then 0 else Z.min (tx_priority_fee tx) (tx_max_fee tx - base).

Definition total_tips (base : Amount) (txs : list Transaction) : Z :=
  foldr Z.add 0 (tip_of base <$> txs).

(** The fee caps that admit a base fee. *)
Definition pays_base_fee (base : Amount) (tx : Transaction) : Prop :=
  is_coinbase tx = true ∨ base <= tx_max_fee tx.

Lemma tip_of_nonneg base tx : tx_wf tx → pays_base_fee base tx → 0 <= tip_of base tx.
Proof.
  intros Hwf Hp. pose proof (wf_priority_fee tx Hwf) as [? _]. unfold tip_of.
  destruct Hp as [->|?]; [lia|]. destruct (is_coinbase tx); lia.
Qed.

Lemma total_tips_nonneg base txs :
  Forall tx_wf txs → Forall (pays_base_fee base) txs → 0 <= total_tips base txs.
Proof.
  intros Hwf Hp. unfold total_tips. induction Hp as [|tx txs Hp _ IH]; simpl; [lia|].
  apply Forall_cons in Hwf as [Hw Hws]. pose proof (tip_of_nonneg base tx Hw Hp).
  pose proof (IH Hws). unfold fmap in *. lia.
Qed.

Lemma collect_priority_fee_Ok base t tx t' :
  collect_priority_fee base t tx = Ok t' ↔
  pays_base_fee base tx ∧ t' = t + tip_of base tx ∧ t' <= umax 64.
Proof.
  unfold collect_priority_fee, pays_base_fee, tip_of.
  rewrite bind_unit_Ok, bind_Ok. setoid_rewrite amount_add_Ok.
  destruct (is_coinbase tx) eqn:Hc.
  - rewrite effective_priority_fee_coinbase by done. unfold validate_fee_against_base_fee.
    rewrite Hc. naive_solver.
  - rewrite validate_fee_Ok by done. setoid_rewrite effective_priority_fee_Ok; [|done].
    split; [naive_solver|]. intros ([?|?] & -> & ?); [done|]. split; [done|]. by eexists; split_and!.
Qed.

Lemma collect_fold_Ok base t txs t' :
  t <= umax 64 → Forall tx_wf txs →
  try_fold (collect_priority_fee base) t txs = Ok t' ↔
  Forall (pays_base_fee base) txs ∧ t' = t + total_tips base txs ∧ t' <= umax 64.
Proof.
  intros Ht Hwf. revert t Ht. induction Hwf as [|tx txs Hwf Hwfs IH]; intros t Ht; simpl.
  { unfold total_tips; simpl. split; [intros [= <-]; split_and!; [done|lia|done]|].
    intros (_ & -> & _). f_equal. lia. }
  rewrite bind_Ok, Forall_cons. setoid_rewrite collect_priority_fee_Ok.
  change (total_tips base (tx :: txs)) with (tip_of base tx + total_tips base txs). split.
  - intros (t1 & (Hp & -> & Hle) & (? & -> & ?)%IH); [|done]. split_and!; [done|done|lia|done].
  - intros ([Hp Hps] & -> & Hle). pose proof (total_tips_nonneg base txs Hwfs Hps).
    eexists; split; [split_and!; [done|reflexivity|lia]|]. apply IH; [lia|]. split_and!; [done|lia|lia].
Qed.

Lemma expected_coinbase_amount_Ok height base txs a :
  0 <= height → Forall tx_wf (drop 1 txs) →
  expected_coinbase_amount height base txs = Ok a ↔
  Forall (pays_base_fee base) (drop 1 txs) ∧
  a = block_reward height + total_tips base (drop 1 txs) ∧ a <= umax 64.
Proof.
  intros Hh Hwf. unfold expected_coinbase_amount, Amount_ZERO. cbv zeta.
  rewrite bind_Ok. setoid_rewrite collect_fold_Ok; [|by vm_compute|done].
  setoid_rewrite amount_add_Ok. pose proof (block_reward_range height Hh). split.
  - intros (? & (? & -> & ?) & -> & ?). done.
  - intros (? & -> & ?). eexists; split; [split_and!; [done|reflexivity|lia]|]. split; lia.
Qed.

(** The coinbase rules as a specification: the first transaction is the only
    coinbase, its fee fields are zero and it mints exactly the subsidy plus the
    tips of the others, each of which admits the base fee. *)
Record coinbase_rules (height : Z) (base : Amount) (txs : list Transaction) (amount : Z) : Prop := {
  cb_shape : ∃ coinbase rest, txs = coinbase :: rest ∧ is_coinbase coinbase = true ∧
    tx_max_fee coinbase = 0 ∧ tx_priority_fee coinbase = 0 ∧ tx_amount coinbase = amount;
  cb_only : Forall (λ tx, is_coinbase tx = false ∧ base <= tx_max_fee tx) (drop 1 txs);
  cb_amount : amount = block_reward height + total_tips base (drop 1 txs);
  cb_nonzero : amount ≠ 0;
}.

Lemma validate_coinbase_structure_Ok txs cb :
  validate_coinbase_structure txs = Ok cb ↔
  ∃ rest, txs = cb :: rest ∧ is_coinbase cb = true ∧ tx_max_fee cb = 0 ∧ tx_priority_fee cb = 0 ∧
    Forall (λ tx, is_coinbase tx = false) rest.
Proof.
  unfold validate_coinbase_structure. destruct txs as [|c rest]; simpl; [naive_solver|].
  rewrite if_negb_Err_Ok, !if_Err_Ok, orb_false_iff, !negb_false_iff, !Z.eqb_eq, existsb_false_Forall.
  unfold Amount_ZERO, drop. naive_solver.
Qed.

Lemma validate_coinbase_amount_rules height base txs a :
  0 <= height → Forall tx_wf txs →
  validate_coinbase_amount height base txs = Ok a ↔ coinbase_rules height base txs a.
Proof.
  intros Hh Hwf.
  assert (Forall tx_wf (drop 1 txs)) as Hwf1 by (by apply Forall_drop).
  unfold validate_coinbase_amount. rewrite bind_Ok. split.
  - intros (cb & (rest & -> & Hc & Hm & Hp & Hno)%validate_coinbase_structure_Ok & Hv).
    apply bind_Ok in Hv as (e & (Hpay & -> & Hle)%expected_coinbase_amount_Ok & Hv); [|done..].
    rewrite if_negb_Err_Ok, if_Err_Ok, Z.eqb_eq, Z.eqb_neq in Hv. unfold Amount_ZERO in Hv.
    destruct Hv as (Ha & Hz & [= <-]).
    simpl in *. split; [by eexists _, _ | | done | by rewrite <- Ha].
    apply Forall_and; split; [done|]. eapply Forall_impl; [apply Forall_and; split; [exact Hpay|exact Hno]|].
    intros tx [[?|?] ?]; [congruence|done].
  - intros [(cb & rest & -> & Hc & Hm & Hp & Ha) Hall Hamt Hz].
    exists cb. split; [apply validate_coinbase_structure_Ok; exists rest; split_and!; [done..|]|].
    { eapply Forall_impl; [exact Hall|]. by intros ? []. }
    apply bind_Ok. exists a. split; [apply expected_coinbase_amount_Ok; [done|done|]; split_and!; [|done|]|].
    + eapply Forall_impl; [exact Hall|]. intros ? []; by right.
    + rewrite <- Ha. apply Forall_cons in Hwf as [Hwf _]. pose proof (wf_amount _ Hwf) as Hw.
      unfold in_width, umax in *. lia.
    + rewrite if_negb_Err_Ok, if_Err_Ok, Z.eqb_eq, Z.eqb_neq. unfold Amount_ZERO.
      split_and!; [done|congruence|done].
Qed.

(** The exact-coinbase check: it accepts precisely the transaction lists that
    satisfy the coinbase rules, so both underpayment and overpayment fail. *)
Theorem validate_coinbase_amount_iff height base txs a :
  0 <= height → Forall tx_wf txs →
  validate_coinbase_amount height base txs = Ok a ↔ coinbase_rules height base txs a.
Proof. apply validate_coinbase_amount_rules. Qed.

(** * The block rules as a specification *)

Section next_block.
Context `{PrimitivesOk}.

Lemma check_candidate_tx_Ok seen tx s :
  check_candidate_tx seen tx = Ok s ↔
  Z.of_nat (length (encode tx)) <= MAX_TRANSACTION_WIRE_BYTES ∧ Transaction_verify tx = Ok () ∧
  (tx_hash_hex tx ∉ seen) ∧ s = ({[tx_hash_hex tx]} ∪ seen).
Proof.
  unfold check_candidate_tx. cbv zeta.
  rewrite if_Err_Ok, bind_unit_Ok, Z.gtb_ltb, Z.ltb_ge. split.
  - intros (? & ? & ?). case_bool_decide; naive_solver.
  - intros (? & ? & ? & ->). by rewrite bool_decide_eq_false_2.
Qed.

(** The loop over the body: sizes, signatures, pairwise distinct ids. *)
Lemma check_candidate_txs_Ok seen txs :
  (∃ s, try_fold check_candidate_tx seen txs = Ok s) ↔
  Forall (λ tx, Z.of_nat (length (encode tx)) <= MAX_TRANSACTION_WIRE_BYTES) txs ∧
  Forall (λ tx, Transaction_verify tx = Ok ()) txs ∧
  NoDup (tx_hash_hex <$> txs) ∧ Forall (λ tx, tx_hash_hex tx ∉ seen) txs.
Proof.
  revert seen. induction txs as [|tx txs IH]; intros seen.
  { simpl. split; [intros _; split_and!; constructor | by eexists]. }
  assert ((∃ s, try_fold check_candidate_tx seen (tx :: txs) = Ok s) ↔
    Z.of_nat (length (encode tx)) <= MAX_TRANSACTION_WIRE_BYTES ∧ Transaction_verify tx = Ok () ∧
    (tx_hash_hex tx ∉ seen) ∧ ∃ s, try_fold check_candidate_tx ({[tx_hash_hex tx]} ∪ seen) txs = Ok s)
    as Hstep.
  { setoid_rewrite try_fold_cons_Ok. setoid_rewrite check_candidate_tx_Ok. naive_solver. }
  rewrite Hstep. clear Hstep.
  rewrite IH, fmap_cons, NoDup_cons, !Forall_cons. rewrite list_elem_of_fmap.
  rewrite !Forall_forall. split.
  - intros (? & ? & ? & ? & ? & ? & Hd). split_and!; try done.
    + intros (tx' & Heq & Hin). specialize (Hd tx' Hin). set_solver.
    + intros tx' Hin. specialize (Hd tx' Hin). set_solver.
  - intros ([? ?] & [? ?] & [Hn ?] & ? & Hd). split_and!; try done.
    intros tx' Hin. specialize (Hd tx' Hin). apply not_elem_of_union. split; [|done].
    intros Heq%elem_of_singleton. apply Hn. by exists tx'.
Qed.

Lemma NoDup_tx_hash_hex txs : NoDup (tx_hash_hex <$> txs) ↔ NoDup (tx_hash <$> txs).
Proof.
  assert (tx_hash_hex <$> txs = hash_to_hex <$> (tx_hash <$> txs)) as -> by by rewrite <- list_fmap_compose.
  split; [apply NoDup_fmap_1|]. apply NoDup_fmap_2. intros ? ?. apply hash_to_hex_inj.
Qed.

Definition mainnet_genesis_hex : string :=
  "0000f156b7271a3807b16efdf96d21ac30011fbdcd2ce68af7fdd3bc77ae4f3d".

(** The only checkpoint pins the Mainnet Candidate genesis. *)
Lemma validate_checkpoint_Ok n height h :
  validate_checkpoint n height h = Ok () ↔
  (n = MainnetCandidate → height = 0 → hash_to_hex h = mainnet_genesis_hex).
Proof.
  assert (∃ g, Hash_from_hex mainnet_genesis_hex = Ok g ∧ hash_to_hex g = mainnet_genesis_hex)
    as (g & Hg & Hhex) by (eexists; split; vm_compute; reflexivity).
  unfold validate_checkpoint, checkpoint_at_height. destruct n; [naive_solver..|].
  cbn [scheduled_checkpoints List.find cp_height cp_hash_hex]. fold mainnet_genesis_hex.
  destruct (0 =? height) eqn:E; breflect.
  - cbn [cp_hash_hex]. rewrite Hg. cbn [map_err mbind result_bind]. rewrite if_negb_Err_Ok, bool_decide_eq_true. split.
    + intros [-> _] _ _. done.
    + intros Hx. split; [|done]. apply hash_to_hex_inj. rewrite Hhex. apply Hx; [done|lia].
  - split; [intros _ _ ?; lia | done].
Qed.

Lemma check_tx_network_Ok n tx : check_tx_network n tx = Ok () ↔ Transaction_network tx = Ok n.
Proof.
  unfold check_tx_network. rewrite bind_Ok. setoid_rewrite if_negb_Err_Ok.
  setoid_rewrite bool_decide_eq_true. naive_solver.
Qed.

Lemma validate_not_future_Ok t now :
  validate_block_not_too_far_in_future t now = Ok () ↔ t <= Z.min (now + 7200) (umax 64).
Proof.
  unfold validate_block_not_too_far_in_future. cbv zeta. rewrite if_Err_Ok, Z.gtb_ltb, Z.ltb_ge. naive_solver.
Qed.

Lemma validate_block_timestamp_Ok prev c now :
  validate_block_timestamp prev c now = Ok () ↔
  (∀ p, prev = Some p → bh_timestamp (header p) < bh_timestamp (header c)) ∧
  bh_timestamp (header c) <= Z.min (now + 7200) (umax 64).
Proof.
  unfold validate_block_timestamp. rewrite bind_unit_Ok, validate_not_future_Ok.
  destruct prev as [p|]; [|naive_solver]. rewrite if_Err_Ok, Z.leb_gt. naive_solver.
Qed.

Lemma validate_median_time_past_Ok prevs c :
  validate_median_time_past prevs c = Ok () ↔
  ∀ m, median_time_past prevs = Some m → m < bh_timestamp (header c).
Proof.
  unfold validate_median_time_past. destruct (median_time_past prevs); [|naive_solver].
  rewrite if_Err_Ok, Z.leb_gt. naive_solver.
Qed.

(** What a block must be to extend [prevs] with tip [prev] on network [n]. *)
Record valid_next_block (now : Z) (n : Network) (prevs : list Block) (prev : option Block)
    (c : Block) (emitted : Amount) : Prop := {
  vb_count : 1 <= Z.of_nat (length (transactions c)) <= 1024;
  vb_wire : Forall (λ tx, Z.of_nat (length (encode tx)) <= 16384) (transactions c);
  vb_verified : Forall (λ tx, Transaction_verify tx = Ok ()) (transactions c);
  vb_distinct : NoDup (tx_hash <$> transactions c);
  vb_network : bh_network_id (header c) = network_id n;
  vb_height : bh_height (header c) =
    match prev with Some p => wrapping_add 64 (bh_height (header p)) 1 | None => 0 end;
  vb_increasing p : prev = Some p → bh_timestamp (header p) < bh_timestamp (header c);
  vb_not_future : bh_timestamp (header c) <= Z.min (now + 7200) (umax 64);
  vb_median m : median_time_past prevs = Some m → m < bh_timestamp (header c);
  vb_version : bh_version (header c) = 1;
  vb_base_fee : bh_base_fee_atomic (header c) = next_base_fee prev;
  vb_difficulty_range : minimum_difficulty_leading_zero_bits n <= bh_difficulty (header c)
    <= maximum_difficulty_leading_zero_bits n;
  vb_difficulty : prev ≠ None →
    bh_difficulty (header c) = next_difficulty_for_network n prevs (bh_difficulty (header c));
  vb_parent : bh_previous_hash (header c) =
    match prev with Some p => block_hash p | None => Hash_zero end;
  vb_checkpoint : n = MainnetCandidate → bh_height (header c) = 0 →
    hash_to_hex (block_hash c) = mainnet_genesis_hex;
  vb_merkle : compute_merkle_root (transactions c) = Ok (bh_merkle_root (header c));
  vb_pow : ∃ out, pow_result c = Ok out ∧ mix_hash out = bh_mix_hash (header c) ∧
    be_value (block_hash c) < 2 ^ (256 - bh_difficulty (header c));
  vb_coinbase : ∃ amount,
    coinbase_rules (bh_height (header c)) (bh_base_fee_atomic (header c)) (transactions c) amount;
  vb_tx_network : Forall (λ tx, Transaction_network tx = Ok n) (transactions c);
  vb_supply : emitted + block_reward (bh_height (header c)) <= MAX_SUPPLY_ATOMIC;
}.

Lemma expected_block_version_launch n h : expected_block_version n h = 1.
Proof. by destruct n. Qed.

Lemma difficulty_is_u8 n d :
  minimum_difficulty_leading_zero_bits n <= d <= maximum_difficulty_leading_zero_bits n → is_u8 d.
Proof. pose proof (network_difficulty_u8 n). unfold in_width. lia. Qed.

Lemma bind_check_eq_Ok (r : Result Hash) h e k :
  (r ≫= λ a, if negb (bool_decide (a = h)) then Err e else k) = Ok () ↔ r = Ok h ∧ k = Ok ().
Proof.
  rewrite bind_Ok. split.
  - intros (a & -> & [->%bool_decide_eq_true ?]%if_negb_Err_Ok). done.
  - intros [-> ?]. exists h. by rewrite bool_decide_eq_true_2.
Qed.

Lemma supply_check_Ok emitted reward e :
  (amount_checked_add emitted reward ≫= λ u, if u >? MAX_SUPPLY_ATOMIC then Err e else Ok ()) = Ok () ↔
  emitted + reward <= MAX_SUPPLY_ATOMIC.
Proof.
  rewrite bind_Ok. setoid_rewrite if_Err_Ok. setoid_rewrite Z.gtb_ltb. setoid_rewrite Z.ltb_ge. split.
  - by intros (u & [-> ?]%amount_add_Ok & ? & _).
  - intros Hle. exists (emitted + reward). split_and!; [|done|done].
    apply amount_add_total. unfold MAX_SUPPLY_ATOMIC, umax in *. lia.
Qed.

(** The sequence of checks of [validate_next_block], as propositions. *)
Lemma validate_next_block_checks now n prevs prev c emitted :
  validate_next_block now n prevs prev c emitted = Ok () ↔
  (transactions c ≠ []) ∧ Z.of_nat (length (transactions c)) <= 1024 ∧
  (∃ s, try_fold check_candidate_tx ∅ (transactions c) = Ok s) ∧
  bh_network_id (header c) = network_id n ∧
  bh_height (header c) =
    match prev with Some p => wrapping_add 64 (bh_height (header p)) 1 | None => 0 end ∧
  validate_block_timestamp prev c now = Ok () ∧ validate_median_time_past prevs c = Ok () ∧
  bh_version (header c) = 1 ∧ bh_base_fee_atomic (header c) = next_base_fee prev ∧
  minimum_difficulty_leading_zero_bits n <= bh_difficulty (header c)
    <= maximum_difficulty_leading_zero_bits n ∧
  (prev ≠ None →
    bh_difficulty (header c) = next_difficulty_for_network n prevs (bh_difficulty (header c))) ∧
  bh_previous_hash (header c) = match prev with Some p => block_hash p | None => Hash_zero end ∧
  validate_checkpoint n (bh_height (header c)) (block_hash c) = Ok () ∧
  compute_merkle_root (transactions c) = Ok (bh_merkle_root (header c)) ∧
  (∃ v, ensure_valid c = Ok v) ∧
  (∃ a, validate_coinbase_amount (bh_height (header c)) (bh_base_fee_atomic (header c))
      (transactions c) = Ok a) ∧
  Forall (λ tx, Transaction_verify tx = Ok ()) (drop 1 (transactions c)) ∧
  Forall (λ tx, check_tx_network n tx = Ok ()) (transactions c) ∧
  emitted + block_reward (bh_height (header c)) <= MAX_SUPPLY_ATOMIC.
Proof.
  unfold validate_next_block. cbv zeta.
  rewrite !if_Err_Ok, bind_const_Ok, !if_negb_Err_Ok, !bind_unit_Ok, !if_negb_Err_Ok, if_Err_Ok,
    bind_unit_Ok, if_negb_Err_Ok, bind_unit_Ok, bind_check_eq_Ok, !bind_const_Ok, supply_check_Ok.
  rewrite !bool_decide_eq_true, !bool_decide_eq_false, !Z.eqb_eq, orb_false_iff, !Z.gtb_ltb,
    !Z.ltb_ge, expected_block_version_launch.
  assert (∀ {A} (f : A → Result ()) l,
    (∃ u, try_each f l = Ok u) ↔ Forall (λ x, f x = Ok ()) l) as Heach.
  { intros A f l. rewrite <- try_each_Ok. split; [by intros [[] ?] | eauto]. }
  rewrite !Heach.
  assert (match prev with
    | Some _ => if negb (bh_difficulty (header c) =?
          next_difficulty_for_network n prevs (bh_difficulty (header c)))
        then Err (InvalidDifficultyAdjustment
          (next_difficulty_for_network n prevs (bh_difficulty (header c))) (bh_difficulty (header c)))
        else Ok ()
    | None => Ok () end = Ok () ↔ (prev ≠ None →
    bh_difficulty (header c) = next_difficulty_for_network n prevs (bh_difficulty (header c))))
    as Hdiff.
  { destruct prev; [rewrite if_negb_Err_Ok, Z.eqb_eq; naive_solver | done]. }
  by rewrite Hdiff.
Qed.

Lemma validate_next_block_rules now n prevs prev c emitted :
  block_wf c →
  validate_next_block now n prevs prev c emitted = Ok () ↔
  valid_next_block now n prevs prev c emitted.
Proof.
  intros [Hh Htx]. rewrite validate_next_block_checks, check_candidate_txs_Ok, NoDup_tx_hash_hex.
  rewrite validate_block_timestamp_Ok, validate_median_time_past_Ok, validate_checkpoint_Ok.
  rewrite (ensure_valid_meets c) by apply Hh.
  assert (0 <= bh_height (header c)) by apply Hh.
  setoid_rewrite validate_coinbase_amount_rules; [|done..].
  assert (Forall (λ tx, check_tx_network n tx = Ok ()) (transactions c) ↔
    Forall (λ tx, Transaction_network tx = Ok n) (transactions c)) as ->.
  { split; intros HF; (eapply Forall_impl; [exact HF|]); intros tx; apply check_tx_network_Ok. }
  split.
  - intros (Hne & Hlen & (? & ? & ? & _) & ? & ? & (? & ?) & ? & ? & ? & ? & ? & ? & ? & ? & ? & ? & _ & ? & ?).
    split; try done. destruct (transactions c); [done|]. simpl in *. lia.
  - intros []. split_and!; try done.
    + intros E. rewrite E in vb_count0. simpl in *. lia.
    + lia.
    + apply Forall_true. intros ?. apply not_elem_of_empty.
    + apply vb_difficulty_range0.
    + apply vb_difficulty_range0.
    + by apply Forall_drop.
Qed.

(** C7. [validate_next_block] decides the block rules: it accepts exactly the
    blocks that satisfy the specification [valid_next_block]. *)
Theorem validate_next_block_iff now n prevs prev c emitted :
  block_wf c →
  validate_next_block now n prevs prev c emitted = Ok () ↔
  valid_next_block now n prevs prev c emitted.
Proof. apply validate_next_block_rules. Qed.

End next_block.
