(* ===== verification/State.v ===== *)
(** [vireon-core/src/state.rs]: the account ledger.  [&mut LedgerState] methods
    are [state_result] computations, which keep the partially updated state on
    the error path; [validate_block_against_state] works on a clone. *)

From S2P Require Import Prelude RustStd Interfaces Crypto Errors Network Amount Signing Address Transaction Block Pow Consensus.

(** [BlockLedgerSummary], [TransactionFeeSummary] *)
Record BlockLedgerSummary := {
  bls_total_fees : Amount;
  bls_burned_fees : Amount;
  bls_priority_fees : Amount;
  bls_coinbase_reward : Amount;
  bls_base_fee : Amount;
}.

Record TransactionFeeSummary := mkTransactionFeeSummary {
  tfs_total_fee : Amount;
  tfs_burned_fee : Amount;
  tfs_priority_fee : Amount;
}.

Definition TransactionFeeSummary_default : TransactionFeeSummary :=
  mkTransactionFeeSummary Amount_ZERO Amount_ZERO Amount_ZERO.

Definition FIRST_ACCOUNT_NONCE : Z := 1.

(** [struct LedgerState] *)
Record LedgerState := mkLedgerState {
  balances : gmap string Amount;
  nonces : gmap string Z;
  emitted_supply : Amount;
  block_fees : gmap Z Amount;
  block_burned_fees : gmap Z Amount;
  block_priority_fees : gmap Z Amount;
  coinbase_rewards : gmap Z Amount;
  total_burned_fees : Amount;
  applied_transaction_hashes : gset string;
  applied_block_height : option Z;
  tip_hash : option Hash;
  tip_timestamp : option Z;
}.

Definition LedgerState_new : LedgerState :=
  mkLedgerState ∅ ∅ Amount_ZERO ∅ ∅ ∅ ∅ Amount_ZERO ∅ None None None.

Definition balance_of (st : LedgerState) (address : string) : Amount :=
  default Amount_ZERO (balances st !! address).

Definition next_nonce_of (st : LedgerState) (address : string) : Z :=
  default FIRST_ACCOUNT_NONCE (nonces st !! address).

(** Field assignments *)
Definition set_balance (address : string) (a : Amount) (st : LedgerState) : LedgerState :=
  mkLedgerState (<[address := a]> (balances st)) (nonces st) (emitted_supply st) (block_fees st)
    (block_burned_fees st) (block_priority_fees st) (coinbase_rewards st) (total_burned_fees st)
    (applied_transaction_hashes st) (applied_block_height st) (tip_hash st) (tip_timestamp st).

Definition set_nonce (address : string) (n : Z) (st : LedgerState) : LedgerState :=
  mkLedgerState (balances st) (<[address := n]> (nonces st)) (emitted_supply st) (block_fees st)
    (block_burned_fees st) (block_priority_fees st) (coinbase_rewards st) (total_burned_fees st)
    (applied_transaction_hashes st) (applied_block_height st) (tip_hash st) (tip_timestamp st).

Definition set_total_burned_fees (a : Amount) (st : LedgerState) : LedgerState :=
  mkLedgerState (balances st) (nonces st) (emitted_supply st) (block_fees st)
    (block_burned_fees st) (block_priority_fees st) (coinbase_rewards st) a
    (applied_transaction_hashes st) (applied_block_height st) (tip_hash st) (tip_timestamp st).

Definition add_transaction_hash (h : string) (st : LedgerState) : LedgerState :=
  mkLedgerState (balances st) (nonces st) (emitted_supply st) (block_fees st)
    (block_burned_fees st) (block_priority_fees st) (coinbase_rewards st) (total_burned_fees st)
    ({[ h ]} ∪ applied_transaction_hashes st) (applied_block_height st) (tip_hash st)
    (tip_timestamp st).

Definition set_emitted_supply (a : Amount) (st : LedgerState) : LedgerState :=
  mkLedgerState (balances st) (nonces st) a (block_fees st)
    (block_burned_fees st) (block_priority_fees st) (coinbase_rewards st) (total_burned_fees st)
    (applied_transaction_hashes st) (applied_block_height st) (tip_hash st) (tip_timestamp st).

(** The per-height inserts and tip updates that end [apply_block]. *)
Definition record_block (height : Z) (s : BlockLedgerSummary) (h : Hash) (timestamp : Z)
    (st : LedgerState) : LedgerState :=
  mkLedgerState (balances st) (nonces st) (emitted_supply st)
    (<[height := bls_total_fees s]> (block_fees st))
    (<[height := bls_burned_fees s]> (block_burned_fees st))
    (<[height := bls_priority_fees s]> (block_priority_fees st))
    (<[height := bls_coinbase_reward s]> (coinbase_rewards st))
    (total_burned_fees st) (applied_transaction_hashes st)
    (Some height) (Some h) (Some timestamp).

Abbreviation ledger A := (state_result LedgerState VireonError A).

Definition credit_balance (address : string) (amount : Amount) : ledger () :=
  st ← sr_get;
  next ← sr_lift (amount_checked_add (balance_of st address) amount);
  sr_modify (set_balance address next).

Definition debit_balance (address : string) (amount : Amount) : ledger () :=
  st ← sr_get;
  next ← sr_lift (amount_checked_sub (balance_of st address) amount);
  sr_modify (set_balance address next).

Section state.
Context `{Primitives}.

Definition ensure_transaction_hash_is_new (st : LedgerState) (tx : Transaction) : Result () :=
  let tx_hash := tx_hash_hex tx in
  if bool_decide (tx_hash ∈ applied_transaction_hashes st)
  then Err (DuplicateTransactionHash tx_hash) else Ok ().

Definition missing_sender : VireonError :=
  InvalidTransaction "non-coinbase transaction requires sender".

Definition validate_transaction_against_state (st : LedgerState) (tx : Transaction)
    (base_fee : Amount) : Result () :=
  if is_coinbase tx then Ok () else
  _ ← ensure_transaction_hash_is_new st tx;
  _ ← Transaction_verify tx;
  _ ← validate_fee_against_base_fee tx base_fee;
  if tx_amount tx =? Amount_ZERO then Err ZeroAmountTransaction else
  sender ← ok_or missing_sender (tx_from tx);
  let expected_nonce := next_nonce_of st sender in
  if negb (tx_nonce tx =? expected_nonce)
  then Err (InvalidNonce sender expected_nonce (tx_nonce tx)) else
  required ← total_debit tx base_fee;
  let available := balance_of st sender in
  if available <? required then Err (InsufficientBalance sender available required) else
  Ok ().

Definition apply_transaction (tx : Transaction) (base_fee : Amount)
    : ledger TransactionFeeSummary :=
  st ← sr_get;
  if is_coinbase tx then
    _ ← sr_lift (ensure_transaction_hash_is_new st tx);
    let tx_hash := tx_hash_hex tx in
    if tx_amount tx =? Amount_ZERO then sr_lift (Err ZeroAmountTransaction) else
    _ ← credit_balance (tx_to tx) (tx_amount tx);
    _ ← sr_modify (add_transaction_hash tx_hash);
    mret TransactionFeeSummary_default
  else
    _ ← sr_lift (validate_transaction_against_state st tx base_fee);
    let tx_hash := tx_hash_hex tx in
    sender ← sr_lift (ok_or (InvalidTransaction
      "non-coinbase transaction is missing sender after validation") (tx_from tx));
    total_fee ← sr_lift (effective_fee tx base_fee);
    let burned_fee := base_fee in
    priority_fee ← sr_lift (effective_priority_fee tx base_fee);
    debit ← sr_lift (total_debit tx base_fee);
    _ ← debit_balance sender debit;
    _ ← credit_balance (tx_to tx) (tx_amount tx);
    st' ← sr_get;
    burned ← sr_lift (amount_checked_add (total_burned_fees st') burned_fee);
    _ ← sr_modify (set_total_burned_fees burned);
    _ ← sr_modify (set_nonce sender (saturating_add 64 (tx_nonce tx) 1));
    _ ← sr_modify (add_transaction_hash tx_hash);
    mret (mkTransactionFeeSummary total_fee burned_fee priority_fee).

(** The [seen_sender_nonce] loop. *)
Definition check_sender_nonce (st : LedgerState) (seen : gset (string * Z)) (tx : Transaction)
    : Result (gset (string * Z)) :=
  match tx_from tx with
  | Some sender =>
      if bool_decide ((sender, tx_nonce tx) ∈ seen)
      then Err (InvalidNonce sender (next_nonce_of st sender) (tx_nonce tx))
      else Ok ({[ (sender, tx_nonce tx) ]} ∪ seen)
  | None => Ok seen
  end.

(** One round of the simulation: the totals so far are
    (total, burned, priority). *)
Definition simulate_tx (base_fee : Amount) (acc : LedgerState * (Amount * Amount * Amount))
    (tx : Transaction) : Result (LedgerState * (Amount * Amount * Amount)) :=
  let '(simulated, (total_fees, burned_fees, priority_fees)) := acc in
  let '(r, simulated') := apply_transaction tx base_fee simulated in
  fee_summary ← r;
  total_fees' ← amount_checked_add total_fees (tfs_total_fee fee_summary);
  burned_fees' ← amount_checked_add burned_fees (tfs_burned_fee fee_summary);
  priority_fees' ← amount_checked_add priority_fees (tfs_priority_fee fee_summary);
  Ok (simulated', (total_fees', burned_fees', priority_fees')).

Definition validate_block_against_state (st : LedgerState) (b : Block) : Result BlockLedgerSummary :=
  let h := header b in
  let expected_height :=
    match applied_block_height st with Some height => wrapping_add 64 height 1 | None => 0 end in
  if negb (bh_height h =? expected_height)
  then Err (InvalidHeight expected_height (bh_height h)) else
  let expected_previous_hash := default Hash_zero (tip_hash st) in
  if negb (bool_decide (bh_previous_hash h = expected_previous_hash))
  then Err (InvalidPreviousHash expected_previous_hash (bh_previous_hash h)) else
  _ ← match tip_timestamp st with
      | Some previous_ts =>
          if bh_timestamp h <=? previous_ts
          then Err (InvalidTimestamp previous_ts (bh_timestamp h)) else Ok ()
      | None => Ok ()
      end;
  _ ← validate_coinbase_structure (transactions b);
  let base_fee := bh_base_fee_atomic h in
  expected_amount ← expected_coinbase_amount (bh_height h) base_fee (transactions b);
  coinbase ← ok_or MissingCoinbase (head (transactions b));
  if negb (tx_amount coinbase =? expected_amount)
  then Err (InvalidCoinbaseAmount expected_amount (tx_amount coinbase)) else
  if tx_amount coinbase =? Amount_ZERO then Err ZeroAmountTransaction else
  _ ← try_fold (check_sender_nonce st) ∅ (drop 1 (transactions b));
  sim ← try_fold (simulate_tx base_fee) (st, (Amount_ZERO, Amount_ZERO, Amount_ZERO))
          (drop 1 (transactions b));
  let '(_, (total_fees, burned_fees, priority_fees)) := sim in
  let coinbase_reward := block_reward (bh_height h) in
  expected_from_sim ← amount_checked_add coinbase_reward priority_fees;
  if negb (tx_amount coinbase =? expected_from_sim)
  then Err (InvalidCoinbaseAmount expected_from_sim (tx_amount coinbase)) else
  updated_supply ← amount_checked_add (emitted_supply st) coinbase_reward;
  if updated_supply >? MAX_SUPPLY_ATOMIC then Err SupplyOverflow else
  Ok {| bls_total_fees := total_fees; bls_burned_fees := burned_fees;
        bls_priority_fees := priority_fees; bls_coinbase_reward := coinbase_reward;
        bls_base_fee := base_fee |}.

Definition apply_block (b : Block) : ledger BlockLedgerSummary :=
  st ← sr_get;
  summary ← sr_lift (validate_block_against_state st b);
  let base_fee := bls_base_fee summary in
  _ ← sr_each (λ tx, _ ← apply_transaction tx base_fee; mret ()) (drop 1 (transactions b));
  coinbase ← sr_lift (ok_or MissingCoinbase (head (transactions b)));
  _ ← apply_transaction coinbase base_fee;
  st' ← sr_get;
  emitted ← sr_lift (amount_checked_add (emitted_supply st') (bls_coinbase_reward summary));
  _ ← sr_modify (set_emitted_supply emitted);
  _ ← sr_modify (record_block (bh_height (header b)) summary (block_hash b)
        (bh_timestamp (header b)));
  mret summary.

End state.
