(* ===== verification/Ledger.v ===== *)
(** Theory of the account ledger of State.v: what each operation does to
    balances, nonces and totals, atomicity of failing operations, and the
    invariants of the states reachable by applying blocks. *)

From S2P Require Import Prelude RustStd Interfaces Crypto Errors Network Amount Signing Address Transaction Block Pow Consensus State.

(** * Effects of the operations *)

(** The ledger values stay in range: no balance is negative and everything in
    circulation or burned fits the supply cap. *)
Record ledger_ok (st : LedgerState) : Prop := {
  lok_balances : nonneg (balances st);
  lok_burned : 0 <= total_burned_fees st;
  lok_supply : total (balances st) + total_burned_fees st <= MAX_SUPPLY_ATOMIC;
}.

(** The fee and the whole debit of a transaction at a base fee it admits. *)
Definition fee_of (base : Amount) (tx : Transaction) : Z := base + tip_of base tx.
Definition debit_of (base : Amount) (tx : Transaction) : Z := tx_amount tx + fee_of base tx.

Section effects.
Context `{Primitives}.

(** The state after a spend, with no intermediate failure. *)
Definition spend_effect (base : Amount) (sender : string) (tx : Transaction) (st : LedgerState)
    : LedgerState :=
  let st1 := set_balance sender (balance_of st sender - debit_of base tx) st in
  let st2 := set_balance (tx_to tx) (balance_of st1 (tx_to tx) + tx_amount tx) st1 in
  add_transaction_hash (tx_hash_hex tx)
    (set_nonce sender (saturating_add 64 (tx_nonce tx) 1)
      (set_total_burned_fees (total_burned_fees st2 + base) st2)).

(** The state after a coinbase. *)
Definition mint_effect (tx : Transaction) (st : LedgerState) : LedgerState :=
  add_transaction_hash (tx_hash_hex tx)
    (set_balance (tx_to tx) (balance_of st (tx_to tx) + tx_amount tx) st).

(** When a ledger accepts a spend. *)
Record spendable (st : LedgerState) (base : Amount) (sender : string) (tx : Transaction) : Prop := {
  sp_not_coinbase : is_coinbase tx = false;
  sp_sender : tx_from tx = Some sender;
  sp_fresh : tx_hash_hex tx ∉ applied_transaction_hashes st;
  sp_verified : Transaction_verify tx = Ok ();
  sp_base_fee : base <= tx_max_fee tx;
  sp_amount : tx_amount tx ≠ 0;
  sp_nonce : tx_nonce tx = next_nonce_of st sender;
  sp_funds : debit_of base tx <= balance_of st sender;
}.

(** ** Lookups after the updates *)

Lemma balance_of_set_balance a b v st :
  balance_of (set_balance a v st) b = if decide (a = b) then v else balance_of st b.
Proof.
  unfold balance_of, set_balance; simpl. case_decide; subst.
  - by rewrite lookup_insert_eq.
  - by rewrite lookup_insert_ne.
Qed.

Lemma next_nonce_of_set_nonce a b v st :
  next_nonce_of (set_nonce a v st) b = if decide (a = b) then v else next_nonce_of st b.
Proof.
  unfold next_nonce_of, set_nonce; simpl. case_decide; subst.
  - by rewrite lookup_insert_eq.
  - by rewrite lookup_insert_ne.
Qed.

Lemma balance_range st a : ledger_ok st → 0 <= balance_of st a <= MAX_SUPPLY_ATOMIC.
Proof.
  intros [Hb Hu Hs]. unfold balance_of, Amount_ZERO.
  pose proof (lookup_le_total (balances st) a Hb). lia.
Qed.

Lemma balance_le_umax st a : ledger_ok st → balance_of st a <= umax 64.
Proof. intros Hok. pose proof (balance_range st a Hok). unfold MAX_SUPPLY_ATOMIC, umax in *. lia. Qed.

Lemma ensure_new_Ok st tx :
  ensure_transaction_hash_is_new st tx = Ok () ↔ tx_hash_hex tx ∉ applied_transaction_hashes st.
Proof.
  unfold ensure_transaction_hash_is_new. cbv zeta. rewrite if_Err_Ok, bool_decide_eq_false. naive_solver.
Qed.

Lemma debit_of_eq base tx :
  is_coinbase tx = false →
  debit_of base tx = tx_amount tx + base + Z.min (tx_priority_fee tx) (tx_max_fee tx - base).
Proof. intros Hc. unfold debit_of, fee_of, tip_of. rewrite Hc. lia. Qed.

(** [validate_transaction_against_state] decides [spendable]. *)
Lemma validate_transaction_Ok st tx base :
  ledger_ok st → tx_wf tx → is_coinbase tx = false →
  validate_transaction_against_state st tx base = Ok () ↔ ∃ sender, spendable st base sender tx.
Proof.
  intros Hok Hwf Hc. unfold validate_transaction_against_state. rewrite Hc.
  rewrite !bind_unit_Ok, if_Err_Ok, Z.eqb_neq, ensure_new_Ok, validate_fee_Ok by done.
  rewrite bind_Ok. unfold Amount_ZERO. split.
  - intros (? & ? & ? & ? & sender & Hf%ok_or_Ok & Hv). cbv zeta in Hv.
    rewrite if_negb_Err_Ok, Z.eqb_eq, bind_Ok in Hv. destruct Hv as (? & d & Hd & Hv).
    rewrite if_Err_Ok, Z.ltb_ge in Hv. destruct Hv as [? _].
    apply total_debit_Ok in Hd as (? & -> & _); [|done].
    exists sender. split; try done. by rewrite debit_of_eq.
  - intros [sender [? Hf ? ? Hbf ? ? Hfunds]]. split_and!; try done. exists sender.
    split; [by apply ok_or_Ok|]. cbv zeta. rewrite if_negb_Err_Ok, Z.eqb_eq, bind_Ok.
    split; [done|]. pose proof (balance_le_umax st sender Hok) as Hmax.
    pose proof (wf_amount tx Hwf) as [Ha _]. rewrite debit_of_eq in Hfunds by done.
    eexists; split; [apply total_debit_Ok; [done|]; split_and!; [done|reflexivity|lia|lia]|].
    rewrite (proj2 (Z.ltb_ge _ _)); done.
Qed.

(** ** Effects on the totals *)

Lemma total_set_balance a v st :
  total (balances (set_balance a v st)) = total (balances st) - balance_of st a + v.
Proof. unfold set_balance, balance_of; simpl. by rewrite total_insert. Qed.

Lemma total_spend_effect base sender tx st :
  total (balances (spend_effect base sender tx st)) =
    total (balances st) - debit_of base tx + tx_amount tx ∧
  total_burned_fees (spend_effect base sender tx st) = total_burned_fees st + base.
Proof.
  unfold spend_effect. cbv zeta. split; [|done].
  cbn [add_transaction_hash set_nonce set_total_burned_fees balances].
  rewrite !total_set_balance. lia.
Qed.

Lemma total_mint_effect tx st :
  total (balances (mint_effect tx st)) = total (balances st) + tx_amount tx ∧
  total_burned_fees (mint_effect tx st) = total_burned_fees st.
Proof.
  unfold mint_effect. split; [|done]. cbn [add_transaction_hash balances].
  rewrite total_set_balance. lia.
Qed.

Lemma nonneg_set_balance a v st :
  nonneg (balances st) → 0 <= v → nonneg (balances (set_balance a v st)).
Proof. apply nonneg_insert. Qed.

Lemma balance_nonneg st a : nonneg (balances st) → 0 <= balance_of st a.
Proof. intros Hb. exact (proj1 (lookup_le_total (balances st) a Hb)). Qed.

Lemma fee_of_range base tx :
  tx_wf tx → is_coinbase tx = false → base <= tx_max_fee tx →
  base <= fee_of base tx <= tx_max_fee tx.
Proof.
  intros Hwf Hc Hb. pose proof (wf_priority_fee tx Hwf) as [? _].
  unfold fee_of, tip_of. rewrite Hc. lia.
Qed.

(** After the debit, the balances keep their range. *)
Lemma debit_ok st base sender tx :
  ledger_ok st → tx_wf tx → 0 <= base → spendable st base sender tx →
  let st1 := set_balance sender (balance_of st sender - debit_of base tx) st in
  nonneg (balances st1) ∧ 0 <= balance_of st1 (tx_to tx) ∧
  balance_of st1 (tx_to tx) + tx_amount tx + total_burned_fees st + fee_of base tx
    <= MAX_SUPPLY_ATOMIC.
Proof.
  intros [Hb Hu Hs] Hwf Hbase Hsp st1.
  pose proof (sp_funds _ _ _ _ Hsp) as Hf.
  assert (nonneg (balances st1)) as Hb1 by (apply nonneg_set_balance; [done | lia]).
  pose proof (lookup_le_total (balances st1) (tx_to tx) Hb1) as Hr.
  fold (balance_of st1 (tx_to tx)) in Hr. change (default 0 (balances st1 !! tx_to tx))
    with (balance_of st1 (tx_to tx)) in Hr.
  assert (total (balances st1) = total (balances st) - debit_of base tx) as Ht
    by (unfold st1; rewrite total_set_balance; lia).
  split_and!; [done | lia |]. unfold debit_of in Ht. lia.
Qed.

Lemma spend_effect_ok st base sender tx :
  ledger_ok st → tx_wf tx → 0 <= base → spendable st base sender tx →
  ledger_ok (spend_effect base sender tx st).
Proof.
  intros Hok Hwf Hbase Hsp.
  destruct (debit_ok st base sender tx Hok Hwf Hbase Hsp) as (Hn & H0 & _).
  destruct (total_spend_effect base sender tx st) as [Ht Hbu].
  pose proof (wf_amount tx Hwf) as [Ha _].
  pose proof (fee_of_range base tx Hwf (sp_not_coinbase _ _ _ _ Hsp) (sp_base_fee _ _ _ _ Hsp)).
  destruct Hok as [Hb Hu Hs]. split.
  - apply nonneg_set_balance; [done | lia].
  - rewrite Hbu. lia.
  - rewrite Ht, Hbu. unfold debit_of. lia.
Qed.

Lemma mint_effect_ok st tx :
  ledger_ok st → 0 <= tx_amount tx →
  total (balances st) + total_burned_fees st + tx_amount tx <= MAX_SUPPLY_ATOMIC →
  ledger_ok (mint_effect tx st).
Proof.
  intros [Hb Hu Hs] Ha Hle. destruct (total_mint_effect tx st) as [Ht Hbu]. split.
  - apply nonneg_set_balance; [done|]. pose proof (balance_nonneg st (tx_to tx) Hb). lia.
  - by rewrite Hbu.
  - rewrite Ht, Hbu. lia.
Qed.

(** ** [apply_transaction] *)

Definition summary_of (base : Amount) (tx : Transaction) : TransactionFeeSummary :=
  if is_coinbase tx then TransactionFeeSummary_default
  else mkTransactionFeeSummary (fee_of base tx) base (tip_of base tx).

Lemma credit_balance_eq a v st :
  balance_of st a + v <= umax 64 →
  credit_balance a v st = (Ok (), set_balance a (balance_of st a + v) st).
Proof.
  intros Hle. unfold credit_balance. rewrite sr_get_bind, sr_lift_bind, amount_add_total by done.
  done.
Qed.

Lemma debit_balance_eq a v st :
  v <= balance_of st a →
  debit_balance a v st = (Ok (), set_balance a (balance_of st a - v) st).
Proof.
  intros Hle. unfold debit_balance. rewrite sr_get_bind, sr_lift_bind, amount_sub_total by done.
  done.
Qed.

Lemma apply_spend st base sender tx :
  ledger_ok st → tx_wf tx → 0 <= base → spendable st base sender tx →
  apply_transaction tx base st = (Ok (summary_of base tx), spend_effect base sender tx st).
Proof.
  intros Hok Hwf Hbase Hsp. pose proof Hsp as [Hc Hf _ _ Hbf _ _ Hfunds].
  destruct (debit_ok st base sender tx Hok Hwf Hbase Hsp) as (Hn & H0 & Hle).
  pose proof (fee_of_range base tx Hwf Hc Hbf) as Hfee.
  pose proof (balance_le_umax st sender Hok) as Hbal. pose proof (wf_amount tx Hwf) as [Ha _].
  pose proof (lok_burned st Hok) as Hbu.
  assert (MAX_SUPPLY_ATOMIC <= umax 64) as Hcap by by vm_compute.
  unfold apply_transaction, summary_of. rewrite sr_get_bind, Hc, sr_lift_bind.
  rewrite (proj2 (validate_transaction_Ok st tx base Hok Hwf Hc)) by eauto. cbv zeta.
  rewrite sr_lift_bind, Hf. cbn [ok_or].
  assert (effective_fee tx base = Ok (fee_of base tx)) as ->.
  { apply effective_fee_Ok; [done|]. unfold fee_of, tip_of in *. rewrite Hc in *.
    unfold debit_of, fee_of, tip_of in Hfunds. rewrite Hc in Hfunds. split_and!; lia. }
  rewrite sr_lift_bind.
  assert (effective_priority_fee tx base = Ok (tip_of base tx)) as ->.
  { apply effective_priority_fee_Ok; [done|]. unfold tip_of. by rewrite Hc. }
  rewrite sr_lift_bind.
  assert (total_debit tx base = Ok (debit_of base tx)) as ->.
  { apply total_debit_Ok; [done|]. rewrite debit_of_eq in * by done. split_and!; lia. }
  rewrite sr_lift_bind.
  rewrite (sr_bind_step _ _ _ _ _ (debit_balance_eq sender (debit_of base tx) st Hfunds)).
  erewrite sr_bind_step by (apply credit_balance_eq; lia).
  rewrite sr_get_bind, sr_lift_bind.
  rewrite amount_add_total by (cbn [set_balance total_burned_fees]; lia). done.
Qed.

(** A transaction that cannot be applied leaves the ledger as it was: every
    failure happens before the first write, because the debit, the credit and
    the burn counter cannot overflow in a ledger within the supply cap. *)
Theorem apply_transaction_atomic st tx base e st' :
  ledger_ok st → tx_wf tx → 0 <= base →
  (is_coinbase tx = true → total (balances st) + tx_amount tx <= umax 64) →
  apply_transaction tx base st = (Err e, st') → st' = st.
Proof.
  intros Hok Hwf Hbase Hcb. destruct (is_coinbase tx) eqn:Hc.
  - unfold apply_transaction. rewrite sr_get_bind, Hc, sr_lift_bind.
    destruct (ensure_transaction_hash_is_new st tx); [|by intros [= _ <-]].
    destruct (tx_amount tx =? Amount_ZERO); [by intros [= _ <-]|].
    pose proof (lookup_le_total (balances st) (tx_to tx) (lok_balances st Hok)) as Hl.
    change (default 0 (balances st !! tx_to tx)) with (balance_of st (tx_to tx)) in Hl.
    erewrite sr_bind_step by (apply credit_balance_eq; specialize (Hcb eq_refl); lia). done.
  - destruct (validate_transaction_against_state st tx base) as [[]|e'] eqn:Hv.
    + apply validate_transaction_Ok in Hv as [sender Hsp]; [|done..].
      by rewrite (apply_spend _ _ _ _ Hok Hwf Hbase Hsp).
    + unfold apply_transaction. rewrite sr_get_bind, Hc, sr_lift_bind, Hv. by intros [= _ <-].
Qed.

(** What an applied spend does, address by address: the sender pays amount and
    fee and moves to the next nonce, the recipient receives the amount, the base
    fee is burned, the id is recorded; nothing else changes.  It is accepted
    exactly when [spendable] holds. *)
Theorem apply_transaction_spend st tx base s st' :
  ledger_ok st → tx_wf tx → 0 <= base → is_coinbase tx = false →
  apply_transaction tx base st = (Ok s, st') ↔
  ∃ sender, spendable st base sender tx ∧ s = mkTransactionFeeSummary (fee_of base tx) base (tip_of base tx) ∧
    st' = spend_effect base sender tx st ∧
    (∀ a, balance_of st' a = balance_of st a - (if decide (a = sender) then debit_of base tx else 0)
                             + (if decide (a = tx_to tx) then tx_amount tx else 0)) ∧
    (∀ a, next_nonce_of st' a =
       if decide (a = sender) then Z.min (tx_nonce tx + 1) (umax 64) else next_nonce_of st a) ∧
    total_burned_fees st' = total_burned_fees st + base ∧
    applied_transaction_hashes st' = {[ tx_hash_hex tx ]} ∪ applied_transaction_hashes st ∧
    emitted_supply st' = emitted_supply st.
Proof.
  intros Hok Hwf Hbase Hc. split.
  - intros Ha. destruct (validate_transaction_against_state st tx base) as [[]|e] eqn:Hv.
    + apply validate_transaction_Ok in Hv as [sender Hsp]; [|done..]. exists sender.
      rewrite (apply_spend _ _ _ _ Hok Hwf Hbase Hsp) in Ha. unfold summary_of in Ha. rewrite Hc in Ha.
      injection Ha as <- <-. split_and!; try done.
      * intros a. unfold spend_effect. cbv zeta.
        change (balance_of (add_transaction_hash ?h ?x) a) with (balance_of x a).
        change (balance_of (set_nonce ?k ?v ?x) a) with (balance_of x a).
        change (balance_of (set_total_burned_fees ?v ?x) a) with (balance_of x a).
        rewrite !balance_of_set_balance. repeat case_decide; subst; try congruence; lia.
      * intros a. unfold spend_effect. cbv zeta.
        change (next_nonce_of (add_transaction_hash ?h ?x) a) with (next_nonce_of x a).
        rewrite next_nonce_of_set_nonce. repeat case_decide; subst; done.
    + unfold apply_transaction in Ha. rewrite sr_get_bind, Hc, sr_lift_bind, Hv in Ha. done.
  - intros (sender & Hsp & -> & -> & _). rewrite (apply_spend _ _ _ _ Hok Hwf Hbase Hsp).
    unfold summary_of. by rewrite Hc.
Qed.

(** ** The body of a block *)

(** [spends base st txs st']: the transactions are applied one after the other,
    each accepted in the state the previous ones left. *)
Inductive spends (base : Amount) : LedgerState → list Transaction → LedgerState → Prop :=
| spends_nil st : spends base st [] st
| spends_cons st sender tx txs st' :
    spendable st base sender tx →
    spends base (spend_effect base sender tx st) txs st' →
    spends base st (tx :: txs) st'.

Lemma spends_snoc base st txs st1 sender tx :
  spends base st txs st1 → spendable st1 base sender tx →
  spends base st (txs ++ [tx]) (spend_effect base sender tx st1).
Proof.
  induction 1 as [st|st sender' tx' txs st' Hsp' Hs IH]; intros Hsp; simpl.
  - econstructor; [done | constructor].
  - econstructor; [done | by apply IH].
Qed.

Definition fees_total (base : Amount) (txs : list Transaction) : Z :=
  foldr Z.add 0 (fee_of base <$> txs).

Lemma fees_total_eq base txs :
  fees_total base txs = base * Z.of_nat (length txs) + total_tips base txs.
Proof.
  unfold fees_total, total_tips. induction txs as [|tx txs IH]; [simpl; lia|].
  rewrite !fmap_cons. cbn [foldr length]. rewrite IH. unfold fee_of. lia.
Qed.

Lemma spends_det base st txs st1 st2 :
  spends base st txs st1 → spends base st txs st2 → st1 = st2.
Proof.
  intros Hs. revert st2. induction Hs as [|st sender tx txs st' Hsp _ IH]; intros st2 H2;
    inversion H2 as [|? sender' ? ? ? Hsp']; subst; [done|].
  apply sp_sender in Hsp, Hsp'. assert (sender' = sender) as -> by congruence. auto.
Qed.

Lemma apply_transaction_Ok_spend st tx base s st' :
  ledger_ok st → tx_wf tx → 0 <= base → is_coinbase tx = false →
  apply_transaction tx base st = (Ok s, st') →
  ∃ sender, spendable st base sender tx ∧ s = summary_of base tx ∧
    st' = spend_effect base sender tx st.
Proof.
  intros Hok Hwf Hbase Hc Ha.
  destruct (validate_transaction_against_state st tx base) as [[]|e] eqn:Hv.
  - apply validate_transaction_Ok in Hv as [sender Hsp]; [|done..]. exists sender.
    rewrite (apply_spend _ _ _ _ Hok Hwf Hbase Hsp) in Ha. by injection Ha as <- <-.
  - unfold apply_transaction in Ha. by rewrite sr_get_bind, Hc, sr_lift_bind, Hv in Ha.
Qed.

(** The simulation on the clone follows [spends] and adds up the fees. *)
Lemma simulate_spends base st acc txs st' t' b' p' :
  ledger_ok st → 0 <= base → Forall tx_wf txs → Forall (λ tx, is_coinbase tx = false) txs →
  try_fold (simulate_tx base) (st, acc) txs = Ok (st', (t', b', p')) →
  spends base st txs st' ∧ t' = acc.1.1 + fees_total base txs ∧
  b' = acc.1.2 + base * Z.of_nat (length txs) ∧ p' = acc.2 + total_tips base txs.
Proof.
  intros Hok Hbase Hwf Hnc. revert st acc Hok.
  induction txs as [|tx txs IH]; intros st [[t b] p] Hok.
  { intros [= <- <- <- <-]. unfold fees_total, total_tips. simpl.
    split_and!; [constructor|lia|lia|lia]. }
  apply Forall_cons in Hwf as [Hw Hws]. apply Forall_cons in Hnc as [Hc Hcs].
  intros (s1 & Hs1 & Hrest)%try_fold_cons_Ok. unfold simulate_tx in Hs1.
  destruct (apply_transaction tx base st) as [[s|e] st1] eqn:Ha; [|done].
  apply apply_transaction_Ok_spend in Ha as (sender & Hsp & -> & ->); [|done..].
  unfold summary_of in Hs1. rewrite Hc in Hs1. cbn [mbind result_bind] in Hs1.
  apply bind_Ok in Hs1 as (t1 & [-> _]%amount_add_Ok & Hs1).
  apply bind_Ok in Hs1 as (b1 & [-> _]%amount_add_Ok & Hs1).
  apply bind_Ok in Hs1 as (p1 & [-> _]%amount_add_Ok & [= <-]).
  apply IH in Hrest as (? & -> & -> & ->); [|done|done|by apply spend_effect_ok].
  cbn [tfs_total_fee tfs_burned_fee tfs_priority_fee fst snd].
  split_and!; [by econstructor | | |].
  - change (fees_total base (tx :: txs)) with (fee_of base tx + fees_total base txs). lia.
  - simpl. lia.
  - change (total_tips base (tx :: txs)) with (tip_of base tx + total_tips base txs). lia.
Qed.

(** The real run over the same transactions succeeds and ends in that state. *)
Lemma sr_each_spends base st txs st' :
  ledger_ok st → 0 <= base → Forall tx_wf txs → spends base st txs st' →
  sr_each (λ tx, _ ← apply_transaction tx base; mret ()) txs st = (Ok (), st').
Proof.
  intros Hok Hbase Hwf Hs. induction Hs as [|st sender tx txs st' Hsp _ IH]; [done|].
  apply Forall_cons in Hwf as [Hw Hws]. cbn [sr_each].
  erewrite sr_bind_step; [apply IH; [by apply spend_effect_ok | done]|].
  by rewrite (sr_bind_step _ _ _ _ _ (apply_spend _ _ _ _ Hok Hw Hbase Hsp)).
Qed.

(** What a run of spends keeps and changes. *)
Lemma spends_totals base st txs st' :
  ledger_ok st → 0 <= base → Forall tx_wf txs → spends base st txs st' →
  ledger_ok st' ∧
  total (balances st') + total_burned_fees st' =
    total (balances st) + total_burned_fees st - total_tips base txs ∧
  total_burned_fees st' = total_burned_fees st + base * Z.of_nat (length txs) ∧
  emitted_supply st' = emitted_supply st ∧
  block_burned_fees st' = block_burned_fees st ∧ coinbase_rewards st' = coinbase_rewards st ∧
  applied_block_height st' = applied_block_height st.
Proof.
  intros Hok Hbase Hwf Hs. induction Hs as [|st sender tx txs st' Hsp _ IH].
  { unfold total_tips. simpl. split_and!; try done; lia. }
  apply Forall_cons in Hwf as [Hw Hws].
  destruct (IH (spend_effect_ok _ _ _ _ Hok Hw Hbase Hsp) Hws) as (? & Ht & Hb & Hr).
  destruct (total_spend_effect base sender tx st) as [Ht0 Hb0].
  change (total_tips base (tx :: txs)) with (tip_of base tx + total_tips base txs).
  rewrite Ht0, Hb0 in Ht. rewrite Hb0 in Hb. unfold debit_of, fee_of in Ht.
  cbn [length]. split_and!; try done; try lia; apply Hr.
Qed.

(** ** [validate_block_against_state] *)

Definition sender_nonce (tx : Transaction) : option string * Z := (tx_from tx, tx_nonce tx).

(** The sender-nonce loop accepts exactly the bodies without repeated pairs. *)
Lemma check_sender_nonces_Ok st seen txs :
  Forall (λ tx, is_Some (tx_from tx)) txs →
  (∃ s, try_fold (check_sender_nonce st) seen txs = Ok s) ↔
  NoDup (sender_nonce <$> txs) ∧
  ∀ tx a, tx ∈ txs → tx_from tx = Some a → (a, tx_nonce tx) ∉ seen.
Proof.
  intros Hf. revert seen. induction Hf as [|tx txs [a Ha] Hf IH]; intros seen.
  { simpl. split; [intros _; split; [constructor|] | by eexists]. intros ? ? []%not_elem_of_nil. }
  assert ((∃ s, try_fold (check_sender_nonce st) seen (tx :: txs) = Ok s) ↔
    ((a, tx_nonce tx) ∉ seen) ∧
    ∃ s, try_fold (check_sender_nonce st) ({[(a, tx_nonce tx)]} ∪ seen) txs = Ok s) as Hstep.
  { setoid_rewrite try_fold_cons_Ok. unfold check_sender_nonce. rewrite Ha.
    case_bool_decide; naive_solver. }
  rewrite Hstep, IH, fmap_cons, NoDup_cons. clear Hstep IH. rewrite list_elem_of_fmap. split.
  - intros (Hn & Hnd & Hd). split_and!; [|done|].
    + intros (tx' & Heq & Hin). unfold sender_nonce in Heq. injection Heq as H1 H2.
      rewrite Ha in H1. specialize (Hd tx' a Hin (eq_sym H1)). rewrite H2 in Hd. set_solver.
    + intros tx' a' [->|Hin]%elem_of_cons Ha'; [congruence|]. specialize (Hd tx' a' Hin Ha'). set_solver.
  - intros ([Hn Hnd] & Hd). split_and!; [|done|].
    + apply (Hd tx a); [left | done].
    + intros tx' a' Hin Ha'. apply not_elem_of_union. split; [|apply (Hd tx' a'); [by right | done]].
      intros Heq%elem_of_singleton. apply Hn. exists tx'. split; [|done].
      unfold sender_nonce. congruence.
Qed.

Lemma spends_senders base st txs st' :
  spends base st txs st' → Forall (λ tx, is_Some (tx_from tx)) txs.
Proof. induction 1 as [|st sender tx txs st' Hsp _ IH]; constructor; [by rewrite (sp_sender _ _ _ _ Hsp) | done]. Qed.

(** When the ledger accepts a block: the checks of
    [validate_block_against_state] with the state [st'] the body leads to. *)
Record acceptable (st : LedgerState) (b : Block) (st' : LedgerState) : Prop := {
  acc_height : bh_height (header b) =
    match applied_block_height st with Some h => wrapping_add 64 h 1 | None => 0 end;
  acc_parent : bh_previous_hash (header b) = default Hash_zero (tip_hash st);
  acc_time ts : tip_timestamp st = Some ts → ts < bh_timestamp (header b);
  acc_coinbase : ∃ amount, coinbase_rules (bh_height (header b)) (bh_base_fee_atomic (header b))
    (transactions b) amount;
  acc_distinct : NoDup (sender_nonce <$> drop 1 (transactions b));
  acc_spends : spends (bh_base_fee_atomic (header b)) st (drop 1 (transactions b)) st';
  acc_supply : emitted_supply st + block_reward (bh_height (header b)) <= MAX_SUPPLY_ATOMIC;
}.

Definition block_summary (b : Block) : BlockLedgerSummary :=
  let base := bh_base_fee_atomic (header b) in
  let txs := drop 1 (transactions b) in
  {| bls_total_fees := fees_total base txs;
     bls_burned_fees := base * Z.of_nat (length txs);
     bls_priority_fees := total_tips base txs;
     bls_coinbase_reward := block_reward (bh_height (header b));
     bls_base_fee := base |}.

Lemma validate_block_acceptable st b s :
  ledger_ok st → block_wf b → validate_block_against_state st b = Ok s →
  s = block_summary b ∧ ∃ st', acceptable st b st'.
Proof.
  intros Hok [Hh Htx] Hv. unfold validate_block_against_state in Hv. cbv zeta in Hv.
  rewrite !if_negb_Err_Ok, Z.eqb_eq, bool_decide_eq_true, bind_unit_Ok in Hv.
  destruct Hv as (Hheight & Hparent & Htime & Hv).
  apply bind_Ok in Hv as (cb & (rest & Htxs & Hc & Hm & Hp & Hno)%validate_coinbase_structure_Ok & Hv).
  assert (0 <= bh_height (header b)) as H0 by apply Hh.
  assert (Forall tx_wf (drop 1 (transactions b))) as Hwf by (by apply Forall_drop).
  apply bind_Ok in Hv as (amt & (Hpay & Hamt & _)%expected_coinbase_amount_Ok & Hv); [|done..].
  rewrite Htxs in *. cbn [head ok_or mbind result_bind drop skipn] in *.
  rewrite if_negb_Err_Ok, if_Err_Ok, Z.eqb_eq, Z.eqb_neq in Hv. destruct Hv as (Ha & Hz & Hv).
  apply bind_Ok in Hv as (seen & Hseen & Hv).
  apply bind_Ok in Hv as ([st' [[t bu] p]] & Hsim & Hv).
  assert (0 <= bh_base_fee_atomic (header b)) as Hbase by apply Hh.
  apply simulate_spends in Hsim as (Hsp & -> & -> & ->); [|done..].
  apply bind_Ok in Hv as (e & [-> _]%amount_add_Ok & Hv). rewrite if_negb_Err_Ok in Hv.
  destruct Hv as [_ Hv]. apply bind_Ok in Hv as (u & [-> _]%amount_add_Ok & Hv).
  rewrite if_Err_Ok, Z.gtb_ltb, Z.ltb_ge in Hv. destruct Hv as [Hsup [= <-]].
  split; [unfold block_summary; by rewrite Htxs|]. exists st'. split.
  - done.
  - done.
  - intros ts Hts. rewrite Hts in Htime. rewrite if_Err_Ok, Z.leb_gt in Htime. by destruct Htime.
  - exists amt. rewrite Htxs. split; cbn [drop skipn]; [by eexists _, _| | done | by rewrite <- Ha].
    apply Forall_and; split; [done|]. eapply Forall_impl; [apply Forall_and; split; [exact Hpay|exact Hno]|].
    intros tx [[?|?] ?]; [congruence | done].
  - rewrite Htxs. cbn [drop skipn].
    by apply (check_sender_nonces_Ok st ∅ rest (spends_senders _ _ _ _ Hsp)); eexists.
  - by rewrite Htxs.
  - done.
Qed.

Lemma spends_pays base st txs st' :
  spends base st txs st' → Forall (pays_base_fee base) txs.
Proof.
  induction 1 as [|st sender tx txs st' Hsp _ IH]; constructor; [|done].
  right. apply (sp_base_fee _ _ _ _ Hsp).
Qed.

(** Conversely, an acceptable block passes the simulation: its fee totals cannot
    overflow in a ledger within the cap. *)
Lemma simulate_complete base st txs st' t b p :
  ledger_ok st → 0 <= base → Forall tx_wf txs → spends base st txs st' →
  t + fees_total base txs <= umax 64 → b + base * Z.of_nat (length txs) <= umax 64 →
  p + total_tips base txs <= umax 64 →
  try_fold (simulate_tx base) (st, (t, b, p)) txs =
  Ok (st', (t + fees_total base txs, b + base * Z.of_nat (length txs), p + total_tips base txs)).
Proof.
  intros Hok Hbase Hwf Hs. revert t b p.
  induction Hs as [st|st sender tx txs st' Hsp Hs IH]; intros t b p.
  { unfold fees_total, total_tips. simpl. intros. do 2 f_equal. f_equal; [f_equal|]; lia. }
  apply Forall_cons in Hwf as [Hw Hws].
  change (fees_total base (tx :: txs)) with (fee_of base tx + fees_total base txs).
  change (total_tips base (tx :: txs)) with (tip_of base tx + total_tips base txs).
  cbn [length]. intros Ht Hb Hp.
  pose proof (sp_not_coinbase _ _ _ _ Hsp) as Hc. pose proof (sp_base_fee _ _ _ _ Hsp) as Hbf.
  pose proof (fee_of_range base tx Hw Hc Hbf) as Hfee.
  assert (0 <= tip_of base tx) as Htip by (apply tip_of_nonneg; [done | by right]).
  pose proof (total_tips_nonneg base txs Hws (spends_pays _ _ _ _ Hs)) as Htips.
  assert (0 <= fees_total base txs) as Hfees by (rewrite fees_total_eq; nia).
  apply try_fold_cons_Ok. eexists; split.
  { unfold simulate_tx. rewrite (apply_spend _ _ _ _ Hok Hw Hbase Hsp). unfold summary_of. rewrite Hc.
    cbn [mbind result_bind tfs_total_fee tfs_burned_fee tfs_priority_fee].
    rewrite !amount_add_total by nia. cbn [mbind result_bind]. reflexivity. }
  rewrite IH; [do 2 f_equal; f_equal; [f_equal|]; lia | by apply spend_effect_ok | done | lia | lia | lia].
Qed.

Lemma acceptable_validates st b st' :
  ledger_ok st → block_wf b → acceptable st b st' →
  validate_block_against_state st b = Ok (block_summary b).
Proof.
  intros Hok Hwf [Hh Hp Ht [amt Hcb] Hd Hsp Hsup].
  pose proof Hcb as [(cb & rest & Htxs & Hc & Hm & Hpr & Hamt) Honly Ha Hz].
  assert (0 <= bh_base_fee_atomic (header b)) as Hbase by apply Hwf.
  assert (0 <= bh_height (header b)) as H0 by apply Hwf.
  assert (Forall tx_wf (transactions b)) as Htx by apply Hwf.
  assert (Forall tx_wf (drop 1 (transactions b))) as Htx1 by (by apply Forall_drop).
  destruct (spends_totals _ _ _ _ Hok Hbase Htx1 Hsp) as ([Hb1 Hu1 _] & Htt & Hbu & _).
  pose proof (total_nonneg _ Hb1). pose proof (lok_supply st Hok). pose proof (lok_burned st Hok).
  pose proof (block_reward_range (bh_height (header b)) H0).
  set (base := bh_base_fee_atomic (header b)) in *.
  assert (Forall (pays_base_fee base) (drop 1 (transactions b))) as Hpay
    by (eapply Forall_impl; [exact Honly|]; intros ? []; by right).
  pose proof (total_tips_nonneg base _ Htx1 Hpay) as Htips.
  pose proof (fees_total_eq base (drop 1 (transactions b))) as Hfees.
  assert (MAX_SUPPLY_ATOMIC = 6000000000000000) as Hmax by done.
  assert (INITIAL_BLOCK_REWARD_ATOMIC = 1902587519) as Hinit by done.
  unfold validate_block_against_state. cbv zeta. fold base.
  rewrite if_negb_Err_Ok, Z.eqb_eq. split; [done|].
  rewrite if_negb_Err_Ok, bool_decide_eq_true. split; [done|].
  rewrite bind_unit_Ok. split.
  { destruct (tip_timestamp st) as [ts|]; [|done]. rewrite if_Err_Ok, Z.leb_gt. auto. }
  apply bind_Ok. exists cb. split.
  { apply validate_coinbase_structure_Ok. exists rest. split_and!; try done.
    rewrite Htxs in Honly. cbn [drop skipn] in Honly. eapply Forall_impl; [exact Honly|]. by intros ? []. }
  apply bind_Ok. exists amt. split.
  { apply expected_coinbase_amount_Ok; [done..|]. fold base. split_and!; [done|done|]. unfold umax. lia. }
  rewrite Htxs. cbn [head ok_or mbind result_bind].
  rewrite if_negb_Err_Ok, Z.eqb_eq. split; [done|].
  rewrite if_Err_Ok, Z.eqb_neq. split; [rewrite Hamt; done|].
  rewrite <- Htxs. apply bind_Ok.
  destruct (proj2 (check_sender_nonces_Ok st ∅ _ (spends_senders _ _ _ _ Hsp))) as [seen Hseen].
  { split; [done|]. intros ? ? ? ?. apply not_elem_of_empty. }
  exists seen. split; [done|]. apply bind_Ok. eexists. split.
  { apply (simulate_complete base st _ st' 0 0 0 Hok Hbase Htx1 Hsp); unfold umax; lia. }
  cbv iota. rewrite !Z.add_0_l.
  apply bind_Ok. eexists. split; [apply amount_add_total; unfold umax; lia|].
  rewrite if_negb_Err_Ok, Z.eqb_eq. split; [congruence|].
  apply bind_Ok. eexists. split; [apply amount_add_total; unfold umax; lia|].
  rewrite if_Err_Ok, Z.gtb_ltb, Z.ltb_ge. split; [lia|done].
Qed.

(** ** [apply_block] *)

Definition mint_and_record (b : Block) (cb : Transaction) (st : LedgerState) : LedgerState :=
  record_block (bh_height (header b)) (block_summary b) (block_hash b) (bh_timestamp (header b))
    (set_emitted_supply (emitted_supply st + block_reward (bh_height (header b))) (mint_effect cb st)).

(** Everything ever minted is held or burned. *)
Definition conserved (st : LedgerState) : Prop :=
  total (balances st) + total_burned_fees st = emitted_supply st.

Lemma apply_coinbase st cb base :
  ledger_ok st → tx_wf cb → is_coinbase cb = true → tx_amount cb ≠ 0 →
  total (balances st) + tx_amount cb <= umax 64 →
  apply_transaction cb base st =
  if bool_decide (tx_hash_hex cb ∈ applied_transaction_hashes st)
  then (Err (DuplicateTransactionHash (tx_hash_hex cb)), st)
  else (Ok TransactionFeeSummary_default, mint_effect cb st).
Proof.
  intros Hok Hwf Hc Hz Hle. unfold apply_transaction. rewrite sr_get_bind, Hc, sr_lift_bind.
  unfold ensure_transaction_hash_is_new. cbv zeta. case_bool_decide; [done|].
  rewrite (proj2 (Z.eqb_neq (tx_amount cb) Amount_ZERO)) by done.
  pose proof (lookup_le_total (balances st) (tx_to cb) (lok_balances st Hok)) as Hl.
  change (default 0 (balances st !! tx_to cb)) with (balance_of st (tx_to cb)) in Hl.
  erewrite sr_bind_step by (apply credit_balance_eq; lia). done.
Qed.

(** The three outcomes of [apply_block]: rejected untouched; accepted; or, when
    the coinbase repeats an applied transaction id, an error after the body of
    the block has been applied. *)
Lemma apply_block_cases st b :
  ledger_ok st → conserved st → block_wf b →
  match validate_block_against_state st b with
  | Err e => apply_block b st = (Err e, st)
  | Ok s => s = block_summary b ∧ ∃ cb rest st1, transactions b = cb :: rest ∧ acceptable st b st1 ∧
      apply_block b st =
        if bool_decide (tx_hash_hex cb ∈ applied_transaction_hashes st1)
        then (Err (DuplicateTransactionHash (tx_hash_hex cb)), st1)
        else (Ok s, mint_and_record b cb st1)
  end.
Proof.
  intros Hok Hcons Hwf. destruct (validate_block_against_state st b) as [s|e] eqn:Hv.
  2:{ unfold apply_block. by rewrite sr_get_bind, sr_lift_bind, Hv. }
  apply validate_block_acceptable in Hv as Hacc; [|done..]. destruct Hacc as [-> [st1 Hacc]].
  split; [done|]. pose proof Hacc as [Hh _ _ [amt Hcb] _ Hsp Hsup].
  pose proof Hcb as [(cb & rest & Htxs & Hc & _ & _ & Hamt) _ Ha Hz].
  exists cb, rest, st1. split_and!; [done|done|].
  assert (Forall tx_wf (transactions b)) as Htx by apply Hwf.
  assert (0 <= bh_base_fee_atomic (header b)) as Hbase by apply Hwf.
  assert (Forall tx_wf (drop 1 (transactions b))) as Htx1 by (by apply Forall_drop).
  destruct (spends_totals _ _ _ _ Hok Hbase Htx1 Hsp) as (Hok1 & Ht & Hbu & He & _).
  unfold apply_block. rewrite sr_get_bind, sr_lift_bind, Hv.
  cbn [block_summary bls_base_fee bls_coinbase_reward].
  rewrite (sr_bind_step _ _ _ _ _ (sr_each_spends _ _ _ _ Hok Hbase Htx1 Hsp)).
  rewrite Htxs at 1. cbn [head ok_or]. rewrite sr_lift_bind.
  assert (tx_wf cb) as Hwcb by (rewrite Htxs in Htx; by apply Forall_cons in Htx as [? _]).
  pose proof (lok_burned st1 Hok1). unfold conserved in Hcons.
  assert (MAX_SUPPLY_ATOMIC <= umax 64) as Hcap by by vm_compute.
  assert (apply_transaction cb (bh_base_fee_atomic (header b)) st1 = _) as Hcbe
    by (apply apply_coinbase; [done|done|done|congruence|lia]).
  case_bool_decide; unfold mbind at 1, state_result_bind at 1; rewrite Hcbe; [done|].
  rewrite sr_get_bind, sr_lift_bind. cbn [mint_effect add_transaction_hash set_balance emitted_supply].
  rewrite He, amount_add_total by lia. unfold mint_and_record. by rewrite He.
Qed.

Lemma mint_and_record_ok st b st1 cb :
  ledger_ok st → conserved st → block_wf b → acceptable st b st1 →
  head (transactions b) = Some cb →
  ledger_ok (mint_and_record b cb st1) ∧ conserved (mint_and_record b cb st1) ∧
  emitted_supply (mint_and_record b cb st1) =
    emitted_supply st + block_reward (bh_height (header b)).
Proof.
  intros Hok Hcons Hwf [Hh _ _ [amt Hcb] _ Hsp Hsup] Hhd.
  destruct Hcb as [(cb' & rest & Htxs & _ & _ & _ & Hamt) _ Ha _].
  rewrite Htxs in Hhd. injection Hhd as ->.
  assert (0 <= bh_base_fee_atomic (header b)) as Hbase by apply Hwf.
  assert (Forall tx_wf (transactions b)) as Htx by apply Hwf.
  assert (Forall tx_wf (drop 1 (transactions b))) as Htx1 by (by apply Forall_drop).
  destruct (spends_totals _ _ _ _ Hok Hbase Htx1 Hsp) as (Hok1 & Ht & Hbu & He & _).
  rewrite Htxs in Htx. apply Forall_cons in Htx as [Hwcb _].
  pose proof (wf_amount cb Hwcb) as [Ha0 _]. unfold conserved in *.
  destruct (total_mint_effect cb st1) as [Hmt Hmb].
  assert (ledger_ok (mint_effect cb st1)) as [Hm1 Hm2 Hm3] by (apply mint_effect_ok; [done|lia|lia]).
  unfold mint_and_record. split_and!.
  - by split.
  - cbn [record_block set_emitted_supply balances total_burned_fees emitted_supply]. lia.
  - cbn [record_block set_emitted_supply emitted_supply]. lia.
Qed.

(** ** Reachable states *)

Inductive reachable : LedgerState → Prop :=
| reachable_new : reachable LedgerState_new
| reachable_block st b s st' :
    reachable st → block_wf b → apply_block b st = (Ok s, st') → reachable st'.

(** The bookkeeping of [n] applied blocks. *)
Record block_count (st : LedgerState) (n : nat) : Prop := {
  bc_emitted : emitted_supply st = emission_upto n;
  bc_height : applied_block_height st = match n with O => None | S m => Some (Z.of_nat m) end;
  bc_bound : Z.of_nat n <= 2 ^ 64;
  bc_rewards h r : coinbase_rewards st !! h = Some r ↔ 0 <= h < Z.of_nat n ∧ r = block_reward h;
  bc_burned : total (block_burned_fees st) = total_burned_fees st;
  bc_burned_dom h : is_Some (block_burned_fees st !! h) → 0 <= h < Z.of_nat n;
}.

Record ledger_inv (st : LedgerState) : Prop := {
  inv_ok : ledger_ok st;
  inv_conserved : conserved st;
  inv_count : ∃ n, block_count st n;
}.

Lemma ledger_inv_new : ledger_inv LedgerState_new.
Proof.
  split.
  - split; [apply map_Forall_empty | done | by vm_compute].
  - by vm_compute.
  - exists O. split; simpl; try done.
    + intros h r. rewrite lookup_empty. split; [done | lia].
    + intros h. rewrite lookup_empty. by intros [].
Qed.

(** The height check keeps heights below [2^64]: at the wrap-around the subsidy
    of height 0 would exceed the cap. *)
Lemma acceptable_height st b st1 n :
  block_count st n → acceptable st b st1 →
  bh_height (header b) = Z.of_nat n ∧ Z.of_nat n < 2 ^ 64.
Proof.
  intros [He Hh Hn _ _ _] [Hbh _ _ _ _ _ Hsup]. rewrite Hh in Hbh. destruct n as [|m]; [done|].
  unfold wrapping_add, uwrap in Hbh.
  destruct (decide (Z.of_nat (S m) = 2 ^ 64)) as [E|E].
  - exfalso. replace (Z.of_nat m + 1) with (2 ^ 64) in Hbh by lia.
    rewrite Z.mod_same in Hbh by done. rewrite Hbh, He in Hsup.
    assert (TOTAL_EMISSION <= emission_upto (S m)) as Hle.
    { etransitivity; [|apply (emission_upto_mono (Z.to_nat (Z.of_nat 31 * HALVING_INTERVAL_BLOCKS + 0)))].
      - rewrite emission_closed by (unfold HALVING_INTERVAL_BLOCKS; lia).
        unfold TOTAL_EMISSION. lia.
      - unfold HALVING_INTERVAL_BLOCKS. lia. }
    assert (MAX_SUPPLY_ATOMIC < TOTAL_EMISSION + block_reward 0) by by vm_compute. lia.
  - rewrite Z.mod_small in Hbh by lia. lia.
Qed.

Lemma block_count_step st b s st' n :
  ledger_ok st → conserved st → block_count st n → block_wf b → apply_block b st = (Ok s, st') →
  ledger_ok st' ∧ conserved st' ∧ block_count st' (S n).
Proof.
  intros Hok Hcons Hn Hwf Ha. pose proof (apply_block_cases st b Hok Hcons Hwf) as Hcases.
  destruct (validate_block_against_state st b) as [s0|e]; [|congruence].
  destruct Hcases as (-> & cb & rest & st1 & Htxs & Hacc & Heq). rewrite Heq in Ha. clear Heq.
  case_bool_decide; [done|]. injection Ha as _ <-.
  destruct (mint_and_record_ok st b st1 cb Hok Hcons Hwf Hacc) as (Hok' & Hcons' & He');
    [by rewrite Htxs|].
  destruct (acceptable_height st b st1 n Hn Hacc) as [Hh Hlt].
  assert (0 <= bh_base_fee_atomic (header b)) as Hbase by apply Hwf.
  assert (Forall tx_wf (drop 1 (transactions b))) as Htx1 by (apply Forall_drop, Hwf).
  destruct Hacc as [_ _ _ _ _ Hsp _].
  destruct (spends_totals _ _ _ _ Hok Hbase Htx1 Hsp) as (_ & _ & Hbu & _ & Hbm & Hcr & _).
  destruct Hn as [Hne Hnh Hnb Hnr Hnbu Hnd].
  split; [done|]. split; [done|]. split.
  - rewrite He', Hne, Hh. done.
  - simpl. by rewrite Hh.
  - lia.
  - intros h r. cbn [mint_and_record record_block set_emitted_supply mint_effect
      add_transaction_hash set_balance coinbase_rewards block_summary bls_coinbase_reward].
    rewrite Hcr, Hh. destruct (decide (h = Z.of_nat n)) as [->|Hne'].
    + rewrite lookup_insert_eq. split; [intros [= <-]; split; [lia|done] | by intros [_ ->]].
    + rewrite lookup_insert_ne, Hnr by done. split; intros [? ->]; (split; [lia|done]).
  - cbn [mint_and_record record_block set_emitted_supply mint_effect
      add_transaction_hash set_balance block_burned_fees total_burned_fees block_summary bls_burned_fees].
    rewrite Hbm, Hh, total_insert, Hnbu, Hbu.
    destruct (block_burned_fees st !! Z.of_nat n) eqn:E; simpl; [|lia].
    exfalso. assert (0 <= Z.of_nat n < Z.of_nat n) by (apply Hnd; by eexists). lia.
  - intros h. cbn [mint_and_record record_block set_emitted_supply mint_effect
      add_transaction_hash set_balance block_burned_fees block_summary].
    rewrite Hbm, Hh. destruct (decide (h = Z.of_nat n)) as [->|Hne']; [lia|].
    rewrite lookup_insert_ne by done. intros ?%Hnd. lia.
Qed.

Lemma ledger_inv_step st b s st' :
  ledger_inv st → block_wf b → apply_block b st = (Ok s, st') → ledger_inv st'.
Proof.
  intros [Hok Hcons [n Hn]] Hwf Ha.
  destruct (block_count_step st b s st' n) as (? & ? & ?); [done..|]. split; eauto.
Qed.

Lemma reachable_inv st : reachable st → ledger_inv st.
Proof. induction 1; [apply ledger_inv_new | by eapply ledger_inv_step]. Qed.

(** * Theorems on reachable ledgers *)

(** C1. Supply conservation: in every ledger reached by applying blocks, the
    balances plus the burned base fees equal the emitted supply, which is the sum
    of the block subsidies of the applied heights and within the cap; the
    per-height records agree with those totals and no balance leaves its range. *)
Theorem supply_conservation st :
  reachable st →
  total (balances st) + total_burned_fees st = emitted_supply st ∧
  emitted_supply st <= MAX_SUPPLY_ATOMIC ∧
  (∃ n, emitted_supply st = emission_upto n ∧
    applied_block_height st = (match n with O => None | S m => Some (Z.of_nat m) end) ∧
    ∀ h, 0 <= h < Z.of_nat n → coinbase_rewards st !! h = Some (block_reward h)) ∧
  total (block_burned_fees st) = total_burned_fees st ∧
  (∀ a, 0 <= balance_of st a <= emitted_supply st).
Proof.
  intros [Hok Hcons [n Hn]]%reachable_inv. pose proof Hok as [Hb Hu Hs]. unfold conserved in Hcons.
  split_and!; [done | lia | | apply Hn |].
  - exists n. destruct Hn as [? ? ? Hr ? ?]. split_and!; [done|done|]. intros h Hh. by apply Hr.
  - intros a. pose proof (lookup_le_total (balances st) a Hb) as Hl.
    change (default 0 (balances st !! a)) with (balance_of st a) in Hl. lia.
Qed.

(** C6. [apply_block] refines its specification: it succeeds exactly on the
    acceptable blocks whose coinbase id is new, with the fee summary of the body
    and the state of the body's run plus the coinbase and the block records. *)
Theorem apply_block_iff st b s st' :
  reachable st → block_wf b →
  apply_block b st = (Ok s, st') ↔
  ∃ st1 cb, acceptable st b st1 ∧ head (transactions b) = Some cb ∧
    (tx_hash_hex cb ∉ applied_transaction_hashes st1) ∧
    s = block_summary b ∧ st' = mint_and_record b cb st1.
Proof.
  intros [Hok Hcons _]%reachable_inv Hwf. pose proof (apply_block_cases st b Hok Hcons Hwf) as Hcases.
  split.
  - intros Ha. destruct (validate_block_against_state st b) as [s0|e]; [|congruence].
    destruct Hcases as (-> & cb & rest & st1 & Htxs & Hacc & Heq). rewrite Heq in Ha.
    case_bool_decide; [done|]. injection Ha as <- <-. exists st1, cb. by rewrite Htxs.
  - intros (st1 & cb & Hacc & Hhd & Hnew & -> & ->).
    rewrite (acceptable_validates st b st1 Hok Hwf Hacc) in Hcases.
    destruct Hcases as (_ & cb' & rest & st1' & Htxs & Hacc' & ->).
    rewrite Htxs in Hhd. injection Hhd as ->.
    assert (st1' = st1) as -> by (by eapply spends_det; apply acc_spends).
    by rewrite bool_decide_eq_false_2.
Qed.

(** C34. A rejected block leaves the ledger as it was, with one exception: when the
    coinbase repeats an applied transaction id the block passes
    [validate_block_against_state], its spends are applied, and only then
    [apply_block] fails, so the caller is left with a half-applied block. *)
Theorem apply_block_error st b e st' :
  reachable st → block_wf b → apply_block b st = (Err e, st') →
  st' = st ∨
  ∃ cb st1, validate_block_against_state st b = Ok (block_summary b) ∧
    acceptable st b st1 ∧ head (transactions b) = Some cb ∧
    tx_hash_hex cb ∈ applied_transaction_hashes st1 ∧
    e = DuplicateTransactionHash (tx_hash_hex cb) ∧ st' = st1.
Proof.
  intros [Hok Hcons _]%reachable_inv Hwf Ha. pose proof (apply_block_cases st b Hok Hcons Hwf) as Hcases.
  destruct (validate_block_against_state st b) as [s0|e0] eqn:Hv; [right | left; congruence].
  destruct Hcases as (-> & cb & rest & st1 & Htxs & Hacc & Heq). rewrite Heq in Ha.
  case_bool_decide; [|done]. injection Ha as <- <-. exists cb, st1. by rewrite Htxs.
Qed.

(** ** Balances across a block *)

(** What a transaction adds to an address. *)
Definition delta (base : Amount) (a : string) (tx : Transaction) : Z :=
  (if decide (tx_from tx = Some a) then - debit_of base tx else 0) +
  (if decide (a = tx_to tx) then tx_amount tx else 0).

Definition delta_total (base : Amount) (a : string) (txs : list Transaction) : Z :=
  foldr Z.add 0 (delta base a <$> txs).

Lemma balance_spend_effect base sender tx st a :
  spendable st base sender tx →
  balance_of (spend_effect base sender tx st) a = balance_of st a + delta base a tx.
Proof.
  intros Hsp. unfold spend_effect, delta. cbv zeta. rewrite (sp_sender _ _ _ _ Hsp).
  change (balance_of (add_transaction_hash ?h ?x) a) with (balance_of x a).
  change (balance_of (set_nonce ?k ?v ?x) a) with (balance_of x a).
  change (balance_of (set_total_burned_fees ?v ?x) a) with (balance_of x a).
  rewrite !balance_of_set_balance. repeat case_decide; subst; try congruence; lia.
Qed.

Lemma balance_spends base st txs st' a :
  spends base st txs st' → balance_of st' a = balance_of st a + delta_total base a txs.
Proof.
  induction 1 as [|st sender tx txs st' Hsp _ IH]; [unfold delta_total; simpl; lia|].
  change (delta_total base a (tx :: txs)) with (delta base a tx + delta_total base a txs).
  rewrite IH, balance_spend_effect by done. lia.
Qed.

(** A block changes each balance by the sum of its transactions' effects on it,
    the coinbase's credit included. *)
Theorem apply_block_balances st b s st' a :
  reachable st → block_wf b → apply_block b st = (Ok s, st') →
  balance_of st' a = balance_of st a + delta_total (bh_base_fee_atomic (header b)) a (transactions b).
Proof.
  intros [Hok Hcons _]%reachable_inv Hwf Ha. pose proof (apply_block_cases st b Hok Hcons Hwf) as Hcases.
  destruct (validate_block_against_state st b) as [s0|e]; [|congruence].
  destruct Hcases as (-> & cb & rest & st1 & Htxs & Hacc & Heq). rewrite Heq in Ha.
  case_bool_decide; [done|]. injection Ha as _ <-. destruct Hacc as [_ _ _ [amt Hcb] _ Hsp _].
  apply (balance_spends _ _ _ _ a) in Hsp. rewrite Htxs in *.
  change (drop 1 (cb :: rest)) with rest in Hsp.
  destruct Hcb as [(cb' & rest' & [= <- <-] & Hc & _) _ _ _].
  change (delta_total ?x a (cb :: rest)) with (delta x a cb + delta_total x a rest).
  change (balance_of (mint_and_record b cb st1) a) with
    (balance_of (set_balance (tx_to cb) (balance_of st1 (tx_to cb) + tx_amount cb) st1) a).
  rewrite balance_of_set_balance. unfold delta. unfold is_coinbase in Hc.
  destruct (tx_from cb); [done|]. repeat case_decide; subst; try congruence; lia.
Qed.

(** ** Histories *)

(** [history bs st]: applying the blocks [bs] in order to the empty ledger. *)
Inductive history : list Block → LedgerState → Prop :=
| history_nil : history [] LedgerState_new
| history_snoc bs b st s st' :
    history bs st → block_wf b → apply_block b st = (Ok s, st') → history (bs ++ [b]) st'.

Lemma history_reachable bs st : history bs st → reachable st.
Proof. induction 1; [constructor | by econstructor]. Qed.

(** The nonces of the spends of [a], in order. *)
Definition nonces_of (a : string) (txs : list Transaction) : list Z :=
  tx_nonce <$> filter (λ tx, tx_from tx = Some a) txs.

(** The nonce the ledger expects after [k] spends: 1, 2, ..., saturating. *)
Definition nth_nonce (k : nat) : Z := Z.min (1 + Z.of_nat k) (umax 64).

Lemma nth_nonce_S k : saturating_add 64 (nth_nonce k) 1 = nth_nonce (S k).
Proof. unfold saturating_add, nth_nonce, umax. lia. Qed.

Lemma next_nonce_spend_effect base sender tx st a :
  next_nonce_of (spend_effect base sender tx st) a =
  if decide (sender = a) then saturating_add 64 (tx_nonce tx) 1 else next_nonce_of st a.
Proof.
  unfold spend_effect. cbv zeta.
  change (next_nonce_of (add_transaction_hash ?h ?x) a) with (next_nonce_of x a).
  by rewrite next_nonce_of_set_nonce.
Qed.

Lemma spends_nonces base st txs st' a k :
  spends base st txs st' → next_nonce_of st a = nth_nonce k →
  nonces_of a txs = (λ i, nth_nonce (k + i)) <$> seq 0 (length (nonces_of a txs)) ∧
  next_nonce_of st' a = nth_nonce (k + length (nonces_of a txs)).
Proof.
  intros Hs. revert k. induction Hs as [st|st sender tx txs st' Hsp _ IH]; intros k Hk.
  { cbn. by rewrite Nat.add_0_r. }
  pose proof (sp_sender _ _ _ _ Hsp) as Hf. pose proof (sp_nonce _ _ _ _ Hsp) as Hn.
  specialize (IH (if decide (sender = a) then S k else k)). rewrite next_nonce_spend_effect in IH.
  unfold nonces_of in *. destruct (decide (sender = a)) as [->|Hne].
  - rewrite filter_cons_True by done. cbn [fmap list_fmap length seq].
    rewrite Hn, Hk, nth_nonce_S in IH. destruct (IH eq_refl) as [IH1 IH2]. split.
    + f_equal; [rewrite Nat.add_0_r; congruence|]. rewrite <- seq_shift, <- list_fmap_compose.
      change (list_fmap _ _ tx_nonce) with (fmap (M:=list) tx_nonce). rewrite IH1 at 1.
      apply list_fmap_ext. intros i x _. simpl. f_equal. lia.
    + change (list_fmap _ _ tx_nonce) with (fmap (M:=list) tx_nonce). rewrite IH2. f_equal. lia.
  - rewrite filter_cons_False by congruence. by apply IH.
Qed.

(** ** Nonces below saturation *)

Lemma spends_count base st txs st' a :
  spends base st txs st' → next_nonce_of st a + Z.of_nat (length txs) <= umax 64 →
  next_nonce_of st' a = next_nonce_of st a + Z.of_nat (length (nonces_of a txs)).
Proof.
  induction 1 as [st|st sender tx txs st' Hsp _ IH]; [simpl; lia|]. cbn [length]. intros Hmax.
  pose proof (sp_sender _ _ _ _ Hsp) as Hf. pose proof (sp_nonce _ _ _ _ Hsp) as Hn.
  rewrite next_nonce_spend_effect in IH. unfold nonces_of in *.
  destruct (decide (sender = a)) as [->|Hne].
  - rewrite filter_cons_True by done. rewrite fmap_cons. cbn [length].
    unfold saturating_add in IH. rewrite IH; lia.
  - rewrite filter_cons_False by congruence. apply IH. lia.
Qed.

Lemma spends_nonce_ge base st txs st' tx a :
  spends base st txs st' → (∀ b, next_nonce_of st b + Z.of_nat (length txs) <= umax 64) →
  tx ∈ txs → tx_from tx = Some a → next_nonce_of st a <= tx_nonce tx.
Proof.
  induction 1 as [st|st sender tx' txs st' Hsp _ IH]; [set_solver|]. cbn [length].
  intros Hmax [->|Hin]%elem_of_cons Ha.
  - rewrite (sp_nonce _ _ _ _ Hsp). pose proof (sp_sender _ _ _ _ Hsp). simplify_eq. lia.
  - pose proof (sp_nonce _ _ _ _ Hsp) as Hn.
    assert (next_nonce_of st a <= next_nonce_of (spend_effect base sender tx' st) a) as Hle.
    { rewrite next_nonce_spend_effect. case_decide; subst; [|lia].
      rewrite Hn. unfold saturating_add. specialize (Hmax a). lia. }
    etransitivity; [exact Hle|]. apply IH; [|done|done]. intros b. specialize (Hmax b).
    rewrite next_nonce_spend_effect. case_decide; subst; [|lia].
    rewrite Hn. unfold saturating_add. lia.
Qed.

(** Below saturation a run of spends has distinct sender-nonce pairs. *)
Lemma spends_distinct base st txs st' :
  spends base st txs st' → (∀ b, next_nonce_of st b + Z.of_nat (length txs) <= umax 64) →
  NoDup (sender_nonce <$> txs).
Proof.
  induction 1 as [st|st sender tx txs st' Hsp Hs IH]; [constructor|]. cbn [length]. intros Hmax.
  pose proof (sp_sender _ _ _ _ Hsp) as Hf. pose proof (sp_nonce _ _ _ _ Hsp) as Hn.
  assert (∀ b, next_nonce_of (spend_effect base sender tx st) b + Z.of_nat (length txs) <= umax 64) as Hmax'.
  { intros b. specialize (Hmax b). rewrite next_nonce_spend_effect. case_decide; subst; [|lia].
    rewrite Hn. unfold saturating_add. lia. }
  rewrite fmap_cons. constructor; [|by apply IH]. intros (tx' & Heq & Hin)%list_elem_of_fmap.
  unfold sender_nonce in Heq. rewrite Hf in Heq. injection Heq as Hs' Hn'.
  pose proof (spends_nonce_ge _ _ _ _ tx' sender Hs Hmax' Hin (eq_sym Hs')) as Hge.
  rewrite next_nonce_spend_effect, decide_True in Hge by done. specialize (Hmax sender).
  unfold saturating_add in Hge. lia.
Qed.

Definition all_transactions (bs : list Block) : list Transaction := bs ≫= transactions.

Lemma spends_ids base st txs st' :
  spends base st txs st' →
  NoDup (tx_hash_hex <$> txs) ∧
  Forall (λ tx, tx_hash_hex tx ∉ applied_transaction_hashes st) txs ∧
  applied_transaction_hashes st' =
    list_to_set (tx_hash_hex <$> txs) ∪ applied_transaction_hashes st.
Proof.
  induction 1 as [st|st sender tx txs st' Hsp _ (IH1 & IH2 & IH3)].
  { split_and!; [constructor | constructor | set_solver]. }
  change (applied_transaction_hashes (spend_effect base sender tx st)) with
    ({[tx_hash_hex tx]} ∪ applied_transaction_hashes st) in *.
  rewrite Forall_forall in IH2. split_and!.
  - rewrite fmap_cons. apply NoDup_cons. split; [|done].
    intros (tx' & Heq & Hin)%list_elem_of_fmap. specialize (IH2 tx' Hin). set_solver.
  - constructor; [apply (sp_fresh _ _ _ _ Hsp)|]. apply Forall_forall. intros tx' Hin.
    specialize (IH2 tx' Hin). set_solver.
  - rewrite IH3, fmap_cons. set_solver.
Qed.

(** One block of a history, opened up. *)
Lemma apply_block_open st b s st' :
  reachable st → block_wf b → apply_block b st = (Ok s, st') →
  ∃ cb rest st1, transactions b = cb :: rest ∧ tx_from cb = None ∧
    spends (bh_base_fee_atomic (header b)) st rest st1 ∧
    (tx_hash_hex cb ∉ applied_transaction_hashes st1) ∧ st' = mint_and_record b cb st1.
Proof.
  intros [Hok Hcons _]%reachable_inv Hwf Ha. pose proof (apply_block_cases st b Hok Hcons Hwf) as Hcases.
  destruct (validate_block_against_state st b) as [s0|e]; [|congruence].
  destruct Hcases as (-> & cb & rest & st1 & Htxs & Hacc & Heq). rewrite Heq in Ha.
  case_bool_decide; [done|]. injection Ha as _ <-. destruct Hacc as [_ _ _ [amt Hcb] _ Hsp _].
  rewrite Htxs in *. destruct Hcb as [(cb' & rest' & [= <- <-] & Hc & _) _ _ _].
  exists cb, rest, st1. split_and!; try done. unfold is_coinbase in Hc. by destruct (tx_from cb).
Qed.

Lemma history_applied bs st :
  history bs st →
  NoDup (tx_hash_hex <$> all_transactions bs) ∧
  ∀ h, h ∈ applied_transaction_hashes st ↔ h ∈ tx_hash_hex <$> all_transactions bs.
Proof.
  induction 1 as [|bs b st s st' Hh [IHn IHa] Hwf Ha]; [split; [constructor | set_solver]|].
  destruct (apply_block_open _ _ _ _ (history_reachable _ _ Hh) Hwf Ha)
    as (cb & rest & st1 & Htxs & _ & Hsp & Hnew & ->).
  destruct (spends_ids _ _ _ _ Hsp) as (Hnd & Hfresh & Hset). rewrite Forall_forall in Hfresh.
  unfold all_transactions in *. rewrite bind_app. simpl. rewrite Htxs, app_nil_r.
  rewrite fmap_app, fmap_cons. rewrite Hset in Hnew. split.
  - apply NoDup_app. split_and!; [done | |].
    + intros h Hin. rewrite <- IHa in Hin. rewrite elem_of_cons. intros [->|Hin'].
      * set_solver.
      * apply list_elem_of_fmap in Hin' as (tx & -> & Htx). by apply (Hfresh tx Htx).
    + apply NoDup_cons. split; [|done]. set_solver.
  - intros h. change (applied_transaction_hashes (mint_and_record b cb st1)) with
      ({[tx_hash_hex cb]} ∪ applied_transaction_hashes st1). rewrite Hset.
    rewrite elem_of_app, elem_of_cons, <- IHa. set_solver.
Qed.

Lemma history_ids bs st : history bs st → NoDup (tx_hash_hex <$> all_transactions bs).
Proof. intros Hh. apply (history_applied bs st Hh). Qed.

(** C11. No replay: over a whole history every transaction id is applied once, the
    ledger remembers exactly the applied ids, and from then on it rejects each
    of them, as a spend and as a coinbase, without changing. *)
Theorem history_no_replay bs st tx base :
  history bs st →
  NoDup (tx_hash_hex <$> all_transactions bs) ∧
  (tx ∈ all_transactions bs →
   apply_transaction tx base st = (Err (DuplicateTransactionHash (tx_hash_hex tx)), st)).
Proof.
  intros Hh. destruct (history_applied bs st Hh) as [Hnd Happ]. split; [done|]. intros Hin.
  assert (ensure_transaction_hash_is_new st tx = Err (DuplicateTransactionHash (tx_hash_hex tx))) as Hdup.
  { unfold ensure_transaction_hash_is_new. cbv zeta.
    by rewrite bool_decide_eq_true_2 by (apply Happ, list_elem_of_fmap; eauto). }
  unfold apply_transaction. rewrite sr_get_bind. destruct (is_coinbase tx) eqn:Hc; rewrite sr_lift_bind.
  - by rewrite Hdup.
  - unfold validate_transaction_against_state. by rewrite Hc, Hdup.
Qed.

Lemma history_next_nonce bs st a :
  history bs st →
  let spent := nonces_of a (all_transactions bs) in
  spent = nth_nonce <$> seq 0 (length spent) ∧ next_nonce_of st a = nth_nonce (length spent).
Proof.
  induction 1 as [|bs b st s st' Hh [IHs IHn] Hwf Ha]; [done|].
  destruct (apply_block_open _ _ _ _ (history_reachable _ _ Hh) Hwf Ha)
    as (cb & rest & st1 & Htxs & Hc & Hsp & _ & ->).
  cbv zeta. unfold all_transactions in *. rewrite bind_app. simpl. rewrite Htxs, app_nil_r.
  assert (∀ l, nonces_of a (l ++ cb :: rest) = nonces_of a l ++ nonces_of a rest) as Happ.
  { intros l. unfold nonces_of. rewrite filter_app, filter_cons_False by congruence. by rewrite fmap_app. }
  rewrite Happ. set (k := length (nonces_of a (bs ≫= transactions))) in *.
  destruct (spends_nonces _ _ _ _ a k Hsp IHn) as [Hs Hn].
  rewrite length_app. fold k. split; [|done].
  rewrite seq_app, fmap_app, <- IHs. f_equal. rewrite Hs at 1. simpl.
  generalize (length (nonces_of a rest)). intros n.
  pose proof (fmap_add_seq k 0 n) as Hseq. rewrite Nat.add_0_r in Hseq.
  by rewrite <- Hseq, <- list_fmap_compose.
Qed.

(** Nonce discipline: over a whole history the spends of an account carry the
    nonces 1, 2, 3, ... in order without gaps (saturating at [u64::MAX]), and
    the ledger expects the next one. *)
Theorem history_nonces bs st a :
  history bs st →
  let spent := nonces_of a (all_transactions bs) in
  spent = nth_nonce <$> seq 0 (length spent) ∧ next_nonce_of st a = nth_nonce (length spent).
Proof. apply history_next_nonce. Qed.

End effects.
