(* ===== verification/Chain.v ===== *)
(** [vireon-core/src/chain.rs]: work, fork choice and the append-only chain that
    pairs the block list with the ledger.  [validate_next_block] reads the local
    clock, so appends carry the reading [now]. *)

From S2P Require Import Prelude RustStd Interfaces Crypto Errors Network Amount Signing Address Transaction Block Pow Consensus State Ledger.

Abbreviation ChainWork := Z.

Inductive ForkChoice := KeepCurrent | AdoptCandidate.

#[global] Instance ForkChoice_eq_dec : EqDecision ForkChoice.
Proof. solve_decision. Defined.

Definition block_work (b : Block) : Result ChainWork :=
  ok_or ChainWorkOverflow (checked_shl 128 1 (bh_difficulty (header b))).

Definition cumulative_work (blocks : list Block) : Result ChainWork :=
  try_fold (λ total b, w ← block_work b; ok_or ChainWorkOverflow (checked_add 128 total w)) 0 blocks.

(** [struct Chain] *)
Record Chain := mkChain {
  ch_network : Network;
  ch_blocks : list Block;
  ch_state : LedgerState;
}.

Definition Chain_new (n : Network) : Chain := mkChain n [] LedgerState_new.

Definition Chain_height (c : Chain) : option Z := (λ b, bh_height (header b)) <$> last (ch_blocks c).
Definition Chain_emitted_supply (c : Chain) : Amount := emitted_supply (ch_state c).
Definition Chain_cumulative_work (c : Chain) : Result ChainWork := cumulative_work (ch_blocks c).

Definition set_state (st : LedgerState) (c : Chain) : Chain :=
  mkChain (ch_network c) (ch_blocks c) st.
Definition push_block (b : Block) (c : Chain) : Chain :=
  mkChain (ch_network c) (ch_blocks c ++ [b]) (ch_state c).

Section chain.
Context `{Primitives}.

(** [zip], [take_while], [last]. *)
Fixpoint take_while_same (current candidate : list Block) : list Block :=
  match current, candidate with
  | l :: current', r :: candidate' =>
      if bool_decide (block_hash l = block_hash r) then l :: take_while_same current' candidate'
      else []
  | _, _ => []
  end.

Definition common_ancestor_height (current candidate : list Block) : option Z :=
  (λ b, bh_height (header b)) <$> last (take_while_same current candidate).

Definition select_fork (current candidate : list Block) : Result ForkChoice :=
  current_genesis ← ok_or (InvalidGenesis "current chain is empty") (head current);
  candidate_genesis ← ok_or (InvalidGenesis "candidate chain is empty") (head candidate);
  if negb (bool_decide (block_hash current_genesis = block_hash candidate_genesis))
  then Err (InvalidGenesis "candidate chain has a different genesis") else
  candidate_work ← cumulative_work candidate;
  current_work ← cumulative_work current;
  if candidate_work >? current_work then Ok AdoptCandidate else Ok KeepCurrent.

Definition Chain_tip_hash (c : Chain) : option Hash := block_hash <$> last (ch_blocks c).

(** Running [apply_block] on the state field: its error still leaves the state
    it reached in the chain. *)
Definition with_state {A} (m : ledger A) : state_result Chain VireonError A :=
  λ c, let '(r, st) := m (ch_state c) in (r, set_state st c).

Definition append_block (now : Z) (b : Block) : state_result Chain VireonError () :=
  c ← sr_get;
  _ ← sr_lift (validate_next_block now (ch_network c) (ch_blocks c) (last (ch_blocks c)) b
        (Chain_emitted_supply c));
  _ ← with_state (apply_block b);
  sr_modify (push_block b).

(** Each block comes with the clock reading of its validation. *)
Definition from_blocks (n : Network) (blocks : list (Z * Block)) : Result Chain :=
  let '(r, c) := sr_each (λ '(now, b), append_block now b) blocks (Chain_new n) in
  _ ← r; Ok c.

End chain.

(** * Work *)

Definition work_of (b : Block) : Z := 2 ^ bh_difficulty (header b).
Definition total_work (blocks : list Block) : Z := foldr Z.add 0 (work_of <$> blocks).

Lemma block_work_Ok b w :
  0 <= bh_difficulty (header b) →
  block_work b = Ok w ↔ bh_difficulty (header b) < 128 ∧ w = work_of b.
Proof.
  intros H0. unfold block_work, work_of. rewrite ok_or_Ok. unfold checked_shl, uwrap.
  destruct (_ <? 128) eqn:E; breflect; [|split; [done | lia]].
  rewrite Z.shiftl_1_l, Z.mod_small.
  - split; [by intros [= <-] | by intros [_ ->]].
  - split; [lia|]. apply Z.pow_lt_mono_r; lia.
Qed.

Lemma total_work_nonneg blocks : 0 <= total_work blocks.
Proof.
  unfold total_work. induction blocks as [|b bs IH]; [simpl; lia|]. rewrite fmap_cons. cbn [foldr].
  assert (0 <= work_of b) by (unfold work_of; lia). lia.
Qed.

Lemma total_work_cons b bs : total_work (b :: bs) = work_of b + total_work bs.
Proof. done. Qed.

Lemma cumulative_work_Ok blocks w :
  Forall (λ b, is_u8 (bh_difficulty (header b))) blocks →
  cumulative_work blocks = Ok w ↔
  Forall (λ b, bh_difficulty (header b) < 128) blocks ∧ w = total_work blocks ∧ w <= umax 128.
Proof.
  intros Hu. unfold cumulative_work.
  assert (∀ acc, 0 <= acc <= umax 128 →
    try_fold (λ total b, w ← block_work b; ok_or ChainWorkOverflow (checked_add 128 total w)) acc blocks
      = Ok w ↔ Forall (λ b, bh_difficulty (header b) < 128) blocks ∧ w = acc + total_work blocks
      ∧ w <= umax 128) as Hgen; [|by apply (Hgen 0)].
  induction Hu as [|b bs [Hb _] Hu IH]; intros acc Hacc.
  { cbn [try_fold]. unfold total_work. simpl. split.
    - intros [= <-]. split_and!; [constructor | lia | lia].
    - intros (_ & -> & _). f_equal. lia. }
  rewrite try_fold_cons_Ok, Forall_cons, total_work_cons. pose proof (total_work_nonneg bs) as Hn.
  assert (0 <= work_of b) by (unfold work_of; lia). split.
  - intros (acc' & (x & [? ->]%block_work_Ok & [-> ?]%ok_or_Ok%checked_add_iff)%bind_Ok & Hr); [|done].
    apply IH in Hr as (? & -> & ?); [|lia]. split_and!; [done|done|lia|lia].
  - intros ([? ?] & -> & Hle). exists (acc + work_of b). split.
    + apply bind_Ok. exists (work_of b). split; [by apply block_work_Ok|].
      apply ok_or_Ok, checked_add_iff. split; [done|lia].
    + apply IH; [lia|]. split_and!; [done|lia|lia].
Qed.

Section chain_lemmas.
Context `{PrimitivesOk}.

(** Fork choice, on chains with one genesis whose work fits [u128]: the
    candidate is adopted exactly when its total work, the sum of [2^difficulty],
    is strictly larger, so a tie keeps the current chain and two chains never
    replace each other.  Chains with different genesis blocks are an error. *)
Theorem select_fork_spec current candidate g g' :
  head current = Some g → head candidate = Some g' →
  Forall (λ b, 0 <= bh_difficulty (header b) < 128) (current ++ candidate) →
  total_work current <= umax 128 → total_work candidate <= umax 128 →
  (block_hash g = block_hash g' →
     select_fork current candidate =
       Ok (if decide (total_work current < total_work candidate) then AdoptCandidate else KeepCurrent) ∧
     (select_fork current candidate = Ok AdoptCandidate →
        select_fork candidate current = Ok KeepCurrent)) ∧
  (block_hash g ≠ block_hash g' → is_err (select_fork current candidate) = true).
Proof.
  intros Hg Hg' [Hd Hd']%Forall_app Hw Hw'.
  assert (∀ bs, Forall (λ b, 0 <= bh_difficulty (header b) < 128) bs → total_work bs <= umax 128 →
    cumulative_work bs = Ok (total_work bs)) as Hcw.
  { intros bs Hbs Hle. apply cumulative_work_Ok.
    - eapply Forall_impl; [exact Hbs|]. intros b Hb. cbn beta in Hb. unfold in_width. lia.
    - split_and!; [|done|done]. eapply Forall_impl; [exact Hbs|]. intros b Hb. cbn beta in Hb. lia. }
  assert (∀ a b ga gb, head a = Some ga → head b = Some gb → block_hash ga = block_hash gb →
    cumulative_work a = Ok (total_work a) → cumulative_work b = Ok (total_work b) →
    select_fork a b =
      Ok (if decide (total_work a < total_work b) then AdoptCandidate else KeepCurrent)) as Hsel.
  { intros a b ga gb Ha Hb Hh Ea Eb. unfold select_fork. rewrite Ha, Hb. cbn [ok_or mbind result_bind].
    rewrite bool_decide_eq_true_2 by done. cbn [negb]. rewrite Ea, Eb. cbn [mbind result_bind].
    rewrite Z.gtb_ltb. destruct (_ <? _) eqn:E; breflect; case_decide; done || (exfalso; lia). }
  split.
  - intros Hh. rewrite (Hsel _ _ g g'), (Hsel _ _ g' g) by (done || by apply Hcw).
    split; [done|]. repeat case_decide; try done; exfalso; lia.
  - intros Hh. unfold select_fork. rewrite Hg, Hg'. cbn [ok_or mbind result_bind].
    by rewrite bool_decide_eq_false_2.
Qed.

(** * Chains built by appending *)

Inductive chain_reachable (n : Network) : Chain → Prop :=
| chain_reachable_new : chain_reachable n (Chain_new n)
| chain_reachable_append now b c c' :
    chain_reachable n c → block_wf b → append_block now b c = (Ok (), c') → chain_reachable n c'.

(** The well-formedness of a chain: it is a history of its ledger, every block
    obeys the block rules after the blocks before it, and the ledger's tip is the
    last block. *)
Record chain_ok (n : Network) (c : Chain) : Prop := {
  co_network : ch_network c = n;
  co_history : history (ch_blocks c) (ch_state c);
  co_wf : Forall block_wf (ch_blocks c);
  co_rules i b : ch_blocks c !! i = Some b →
    ∃ now, valid_next_block now n (take i (ch_blocks c)) (last (take i (ch_blocks c))) b (emission_upto i);
  co_height i b : ch_blocks c !! i = Some b → bh_height (header b) = Z.of_nat i;
  co_tip_hash : tip_hash (ch_state c) = block_hash <$> last (ch_blocks c);
  co_tip_time : tip_timestamp (ch_state c) = (λ b, bh_timestamp (header b)) <$> last (ch_blocks c);
  co_count : block_count (ch_state c) (length (ch_blocks c));
}.

Lemma append_block_inv now b c r c' :
  append_block now b c = (r, c') →
  match validate_next_block now (ch_network c) (ch_blocks c) (last (ch_blocks c)) b
          (emitted_supply (ch_state c)) with
  | Err e => r = Err e ∧ c' = c
  | Ok () => ∃ r' st', apply_block b (ch_state c) = (r', st') ∧
      match r' with
      | Ok _ => r = Ok () ∧ c' = mkChain (ch_network c) (ch_blocks c ++ [b]) st'
      | Err e => r = Err e ∧ c' = mkChain (ch_network c) (ch_blocks c) st'
      end
  end.
Proof.
  unfold append_block, Chain_emitted_supply. rewrite sr_get_bind, sr_lift_bind.
  destruct (validate_next_block _ _ _ _ _ _) as [[]|e]; [|by intros [= <- <-]].
  unfold mbind, state_result_bind, with_state.
  destruct (apply_block b (ch_state c)) as [[s|e] st']; intros [= <- <-]; by eexists _, _.
Qed.

Lemma append_block_Ok now b c c' :
  append_block now b c = (Ok (), c') ↔
  validate_next_block now (ch_network c) (ch_blocks c) (last (ch_blocks c)) b
    (emitted_supply (ch_state c)) = Ok () ∧
  ∃ s st', apply_block b (ch_state c) = (Ok s, st') ∧
    c' = mkChain (ch_network c) (ch_blocks c ++ [b]) st'.
Proof.
  split.
  - intros Ha%append_block_inv. destruct (validate_next_block _ _ _ _ _ _) as [[]|e];
      [|by destruct Ha]. destruct Ha as ([s|e] & st' & Ha & Hr); [|by destruct Hr].
    split; [done|]. exists s, st'. by destruct Hr.
  - intros (Hv & s & st' & Ha & ->). unfold append_block, Chain_emitted_supply.
    rewrite sr_get_bind, sr_lift_bind, Hv. unfold mbind, state_result_bind, with_state. by rewrite Ha.
Qed.

Lemma chain_ok_new n : chain_ok n (Chain_new n).
Proof.
  split; try done; [apply history_nil |].
  split; simpl; try done.
  - intros h r. rewrite lookup_empty. split; [done | lia].
  - intros h. rewrite lookup_empty. by intros [].
Qed.

Lemma block_count_unique st n m : block_count st n → block_count st m → n = m.
Proof.
  intros [_ Hn _ _ _ _] [_ Hm _ _ _ _]. rewrite Hn in Hm. destruct n, m; try done.
  injection Hm as Hm. lia.
Qed.

Lemma chain_ok_reachable n c : chain_ok n c → reachable (ch_state c).
Proof. intros Hc. apply (history_reachable (ch_blocks c)), Hc. Qed.

(** The consensus layer's expectations for the next block are the ledger's. *)
Lemma chain_next_height n c :
  chain_ok n c →
  match last (ch_blocks c) with Some p => wrapping_add 64 (bh_height (header p)) 1 | None => 0 end =
  match applied_block_height (ch_state c) with Some h => wrapping_add 64 h 1 | None => 0 end.
Proof.
  intros [_ _ _ _ Hheight _ _ [_ Hh _ _ _ _]]. rewrite Hh.
  destruct (last (ch_blocks c)) as [p|] eqn:E.
  - rewrite last_lookup in E. pose proof (lookup_lt_Some _ _ _ E).
    apply Hheight in E. destruct (length (ch_blocks c)); [simpl in *; lia|]. by rewrite E.
  - apply last_None in E as ->. done.
Qed.

Lemma take_app_lookup {A} (l : list A) x i :
  (i <= length l)%nat → take i (l ++ [x]) = take i l.
Proof. intros Hi. rewrite take_app_le by done. done. Qed.

Lemma chain_ok_append n c now b c' :
  chain_ok n c → block_wf b → append_block now b c = (Ok (), c') → chain_ok n c'.
Proof.
  intros Hc Hwf (Hv & s & st' & Ha & ->)%append_block_Ok.
  pose proof (chain_ok_reachable n c Hc) as Hr.
  assert (reachable st') as Hr' by (by econstructor).
  destruct (reachable_inv _ Hr) as [Hok Hcons _].
  pose proof Hc as [Hnet Hhist Hwfs Hrules Hheight Htip Htime Hcount].
  apply validate_next_block_rules in Hv; [|done]. rewrite Hnet in Hv.
  assert (emitted_supply (ch_state c) = emission_upto (length (ch_blocks c))) as He by apply Hcount.
  rewrite He in Hv.
  destruct (block_count_step _ _ _ _ _ Hok Hcons Hcount Hwf Ha) as (_ & _ & Hcount').
  pose proof Ha as Hblock. pose proof (apply_block_cases _ b Hok Hcons Hwf) as Hcases.
  destruct (validate_block_against_state _ b) as [s0|e]; [|congruence].
  destruct Hcases as (-> & cb & rest & st1 & Htxs & Hacc & Heq). rewrite Heq in Ha. clear Heq.
  case_bool_decide; [done|]. injection Ha as <- <-.
  destruct (acceptable_height _ b st1 _ Hcount Hacc) as [Hh Hlt].
  assert (∀ i b', (ch_blocks c ++ [b]) !! i = Some b' →
    (ch_blocks c !! i = Some b' ∧ (i < length (ch_blocks c))%nat) ∨
    (i = length (ch_blocks c) ∧ b' = b)) as Hlook.
  { intros i b' Hi. apply lookup_app_Some in Hi as [Hi|[Hge Hi]].
    - left. split; [done|]. by eapply lookup_lt_Some.
    - right. apply list_lookup_singleton_Some in Hi as [? <-]. split; [lia|done]. }
  split; cbn [ch_network ch_blocks ch_state].
  - done.
  - econstructor; [done|done|exact Hblock].
  - apply Forall_app; split; [done|]. by constructor.
  - intros i b' [[Hi Hlt']|[-> ->]]%Hlook.
    + rewrite take_app_lookup by lia. by apply Hrules.
    + rewrite take_app_lookup, take_ge by lia. by exists now.
  - intros i b' [[Hi _]|[-> ->]]%Hlook; [by apply Hheight | done].
  - by rewrite last_snoc.
  - by rewrite last_snoc.
  - rewrite length_app, Nat.add_1_r. exact Hcount'.
Qed.

Lemma chain_reachable_ok n c : chain_reachable n c → chain_ok n c.
Proof. induction 1; [apply chain_ok_new | by eapply chain_ok_append]. Qed.

(** Consecutive blocks of a chain have increasing times. *)
Lemma chain_times n c i p b :
  chain_ok n c → ch_blocks c !! i = Some p → ch_blocks c !! S i = Some b →
  bh_timestamp (header p) < bh_timestamp (header b).
Proof.
  intros Hc Hp Hb. destruct (co_rules n c Hc (S i) b Hb) as [now Hv].
  apply (vb_increasing _ _ _ _ _ _ Hv). by rewrite (take_S_r _ _ p), last_snoc.
Qed.

Lemma chain_times_le n c i j b q :
  chain_ok n c → (i <= j)%nat → ch_blocks c !! i = Some b → ch_blocks c !! j = Some q →
  bh_timestamp (header b) <= bh_timestamp (header q).
Proof.
  intros Hc Hle Hi. revert q. induction Hle as [|j Hle IH]; intros q Hq; [by simplify_eq|].
  destruct (ch_blocks c !! j) as [p|] eqn:Hp.
  - specialize (IH p eq_refl). pose proof (chain_times n c j p q Hc Hp Hq). lia.
  - apply lookup_ge_None in Hp. apply lookup_lt_Some in Hq. lia.
Qed.

(** The tip is the latest block, so the median time is at most its time. *)
Lemma chain_median_le n c p m :
  chain_ok n c → last (ch_blocks c) = Some p → median_time_past (ch_blocks c) = Some m →
  m <= bh_timestamp (header p).
Proof.
  intros Hc Hp (b & -> & Hb)%median_time_past_in%list_elem_of_fmap.
  apply list_elem_of_lookup_1 in Hb as [i Hi]. rewrite lookup_drop in Hi.
  rewrite last_lookup in Hp. pose proof (lookup_lt_Some _ _ _ Hi).
  assert ((length (ch_blocks c) - 11 + i)%nat ≤ pred (length (ch_blocks c)))%nat as Hle by lia.
  exact (chain_times_le n c _ _ b p Hc Hle Hi Hp).
Qed.

(** Every chain built by successful appends is a linked proof-of-work chain: the
    block at position [i] has height [i], carries the network's id, meets its
    target, names its predecessor's hash and has a later timestamp than it; its
    body's ids are pairwise distinct over the whole chain, and the ledger is the
    result of applying the blocks in order. *)
Theorem chain_wellformed n c :
  chain_reachable n c →
  history (ch_blocks c) (ch_state c) ∧
  NoDup (tx_hash_hex <$> all_transactions (ch_blocks c)) ∧
  (∀ i b, ch_blocks c !! i = Some b →
     bh_height (header b) = Z.of_nat i ∧ bh_network_id (header b) = network_id n ∧
     be_value (block_hash b) < 2 ^ (256 - bh_difficulty (header b)) ∧
     (i = O → bh_previous_hash (header b) = Hash_zero)) ∧
  (∀ i p b, ch_blocks c !! i = Some p → ch_blocks c !! S i = Some b →
     bh_previous_hash (header b) = block_hash p ∧
     bh_timestamp (header p) < bh_timestamp (header b)).
Proof.
  intros Hc%chain_reachable_ok. pose proof Hc as [_ Hhist _ Hrules Hheight _ _ _].
  split; [done|]. split; [|split].
  - clear -Hhist. induction Hhist as [|bs b st s st' Hh IHn Hwf Ha]; [constructor|].
    eapply (history_ids (bs ++ [b])). by econstructor.
  - intros i b Hi. split; [by apply Hheight|]. destruct (Hrules i b Hi) as [now Hv].
    pose proof (vb_pow _ _ _ _ _ _ Hv) as (out & _ & _ & Hlt).
    pose proof (vb_parent _ _ _ _ _ _ Hv) as Hp. split_and!; [apply Hv | done | by intros ->].
  - intros i p b Hp Hb. split; [|by eapply chain_times].
    destruct (Hrules (S i) b Hb) as [now Hv]. rewrite (vb_parent _ _ _ _ _ _ Hv).
    by rewrite (take_S_r _ _ p), last_snoc.
Qed.

Lemma append_block_spec n c now b c' :
  chain_ok n c → block_wf b →
  append_block now b c = (Ok (), c') ↔
  valid_next_block now n (ch_blocks c) (last (ch_blocks c)) b (emitted_supply (ch_state c)) ∧
  NoDup (sender_nonce <$> drop 1 (transactions b)) ∧
  ∃ st1 cb, spends (bh_base_fee_atomic (header b)) (ch_state c) (drop 1 (transactions b)) st1 ∧
    head (transactions b) = Some cb ∧ (tx_hash_hex cb ∉ applied_transaction_hashes st1) ∧
    c' = mkChain n (ch_blocks c ++ [b]) (mint_and_record b cb st1).
Proof.
  intros Hc Hwf. pose proof (chain_ok_reachable n c Hc) as Hr.
  destruct (reachable_inv _ Hr) as [Hok Hcons _].
  pose proof (apply_block_cases _ b Hok Hcons Hwf) as Hcases.
  rewrite append_block_Ok, validate_next_block_rules, (co_network n c Hc) by done. split.
  - intros (Hv & s & st' & Ha & ->). split; [done|].
    destruct (validate_block_against_state _ b) as [s0|e]; [|congruence].
    destruct Hcases as (-> & cb & rest & st1 & Htxs & Hacc & Heq). rewrite Heq in Ha.
    case_bool_decide; [done|]. injection Ha as <- <-. destruct Hacc.
    split; [done|]. exists st1, cb. by rewrite Htxs in *.
  - intros (Hv & Hd & st1 & cb & Hsp & Hhd & Hnew & ->). split; [done|].
    exists (block_summary b), (mint_and_record b cb st1). split; [|done].
    assert (acceptable (ch_state c) b st1) as Hacc.
    { split; [| | | | done | done |].
      - rewrite <- (chain_next_height n c Hc). apply Hv.
      - rewrite (co_tip_hash n c Hc), (vb_parent _ _ _ _ _ _ Hv). by destruct (last (ch_blocks c)).
      - intros ts. rewrite (co_tip_time n c Hc). pose proof (vb_increasing _ _ _ _ _ _ Hv) as Hi.
        destruct (last (ch_blocks c)); [|done]. intros [= <-]. by apply Hi.
      - apply Hv.
      - apply Hv. }
    rewrite (acceptable_validates _ b st1 Hok Hwf Hacc) in Hcases.
    destruct Hcases as (_ & cb' & rest & st1' & Htxs & Hacc' & ->).
    rewrite Htxs in Hhd. injection Hhd as ->.
    assert (st1' = st1) as -> by (by eapply spends_det; apply acc_spends).
    by rewrite bool_decide_eq_false_2.
Qed.

(** C5. The two layers agree: on a chain built by appends, a block is appended
    exactly when it satisfies the block rules, its spends run in the ledger with
    pairwise distinct sender-nonce pairs, and its coinbase id is new.  No other
    check of the ledger layer can reject a structurally valid block. *)
Theorem append_block_iff n c now b c' :
  chain_reachable n c → block_wf b →
  append_block now b c = (Ok (), c') ↔
  valid_next_block now n (ch_blocks c) (last (ch_blocks c)) b (emitted_supply (ch_state c)) ∧
  NoDup (sender_nonce <$> drop 1 (transactions b)) ∧
  ∃ st1 cb, spends (bh_base_fee_atomic (header b)) (ch_state c) (drop 1 (transactions b)) st1 ∧
    head (transactions b) = Some cb ∧ (tx_hash_hex cb ∉ applied_transaction_hashes st1) ∧
    c' = mkChain n (ch_blocks c ++ [b]) (mint_and_record b cb st1).
Proof. intros Hc%chain_reachable_ok Hwf. by apply append_block_spec. Qed.

(** A failed append leaves the chain as it was, except when the coinbase repeats
    an applied transaction id: then the block list is unchanged but the ledger
    already holds the block's spends, and the two no longer agree. *)
Theorem append_block_error n c now b e c' :
  chain_reachable n c → block_wf b → append_block now b c = (Err e, c') →
  c' = c ∨
  ∃ cb st1, head (transactions b) = Some cb ∧ e = DuplicateTransactionHash (tx_hash_hex cb) ∧
    spends (bh_base_fee_atomic (header b)) (ch_state c) (drop 1 (transactions b)) st1 ∧
    c' = mkChain n (ch_blocks c) st1.
Proof.
  intros Hc%chain_reachable_ok Hwf Ha%append_block_inv. pose proof (chain_ok_reachable n c Hc) as Hr.
  destruct (reachable_inv _ Hr) as [Hok Hcons _].
  destruct (validate_next_block _ _ _ _ _ _) as [[]|e0]; [|left; by destruct Ha].
  destruct Ha as (r & st' & Ha & Hres). destruct r as [s|e1]; [by destruct Hres|].
  destruct Hres as [[= ->] ->]. pose proof (apply_block_cases _ b Hok Hcons Hwf) as Hcases.
  destruct (validate_block_against_state _ b) as [s0|e2].
  - destruct Hcases as (-> & cb & rest & st1 & Htxs & Hacc & Heq). rewrite Heq in Ha.
    case_bool_decide; [|done]. injection Ha as <- <-. right. exists cb, st1. destruct Hacc.
    rewrite (co_network n c Hc). by rewrite Htxs in *.
  - left. rewrite Hcases in Ha. injection Ha as _ <-. by destruct c.
Qed.

(** ** Accounts *)

(** Every funded account is an address of the network [n]. *)
Definition accounts_on (n : Network) (st : LedgerState) : Prop :=
  ∀ a, balance_of st a ≠ 0 → ∃ ad, Address_parse a = Ok ad ∧ addr_network ad = n.

Lemma Transaction_network_recipient tx n :
  Transaction_network tx = Ok n → ∃ ad, Address_parse (tx_to tx) = Ok ad ∧ addr_network ad = n.
Proof.
  unfold Transaction_network. intros (ad & Ha & (u & _ & [= <-])%bind_Ok)%bind_Ok. eauto.
Qed.

(** A spend the ledger accepts is on the network of the accounts. *)
Lemma spend_network n st base sender tx :
  accounts_on n st → ledger_ok st → tx_wf tx → 0 <= base → spendable st base sender tx →
  Transaction_network tx = Ok n ∧ accounts_on n (spend_effect base sender tx st).
Proof.
  intros Hacc Hok Hwf Hbase Hsp. pose proof Hsp as [Hc Hf _ Hv Hbf Hz _ Hfunds].
  pose proof (fee_of_range base tx Hwf Hc Hbf) as Hfee. pose proof (wf_amount tx Hwf) as [Ha _].
  assert (0 < debit_of base tx) as Hd by (unfold debit_of; lia).
  destruct (Hacc sender) as (ad & Had & Hn); [lia|].
  pose proof (Transaction_verify_network tx sender ad Hc Hf Hv Had) as Hnet. rewrite Hn in Hnet.
  split; [done|]. intros a. rewrite (balance_spend_effect base sender) by done. unfold delta.
  rewrite Hf. case_decide; simplify_eq; [by eauto|].
  case_decide as Ht; [|rewrite !Z.add_0_r; apply Hacc]. intros _. rewrite Ht.
  by apply Transaction_network_recipient.
Qed.

Lemma spends_network n base st txs st' :
  spends base st txs st' → accounts_on n st → ledger_ok st → Forall tx_wf txs → 0 <= base →
  Forall (λ tx, Transaction_network tx = Ok n) txs ∧ accounts_on n st'.
Proof.
  induction 1 as [st|st sender tx txs st' Hsp _ IH]; intros Hacc Hok Hwf Hbase; [done|].
  apply Forall_cons in Hwf as [Hw Hws].
  destruct (spend_network n st base sender tx Hacc Hok Hw Hbase Hsp) as [Hn Hacc'].
  destruct (IH Hacc' (spend_effect_ok _ _ _ _ Hok Hw Hbase Hsp) Hws Hbase) as [? ?].
  split; [by constructor | done].
Qed.

Lemma chain_reachable_accounts n c : chain_reachable n c → accounts_on n (ch_state c).
Proof.
  induction 1 as [|now b c c' Hc IH Hwf Ha]; [by intros a|].
  apply chain_reachable_ok in Hc. pose proof (chain_ok_reachable n c Hc) as Hr.
  destruct (reachable_inv _ Hr) as [Hok _ _].
  apply (append_block_spec n c now b c' Hc Hwf) in Ha as (Hv & _ & st1 & cb & Hsp & Hhd & _ & ->).
  destruct Hwf as [Hh Htx]. assert (0 <= bh_base_fee_atomic (header b)) as Hbase by apply Hh.
  destruct (spends_network n _ _ _ _ Hsp IH Hok (Forall_drop _ _ _ Htx) Hbase) as [_ Hacc].
  pose proof (vb_tx_network _ _ _ _ _ _ Hv) as Hnet.
  destruct (transactions b) as [|cb' rest]; [done|]. injection Hhd as ->.
  apply Forall_cons in Hnet as [Hnet _]. intros a.
  change (balance_of (ch_state (mkChain n (ch_blocks c ++ [b]) (mint_and_record b cb st1))) a) with
    (balance_of (set_balance (tx_to cb) (balance_of st1 (tx_to cb) + tx_amount cb) st1) a).
  rewrite balance_of_set_balance. case_decide; subst; [|apply Hacc].
  intros _. by apply Transaction_network_recipient.
Qed.

(** Every account that holds funds on a chain is a well-formed address of the
    chain's own network, and every spend the ledger accepts on the tip is a
    transaction of that network. *)
Theorem accounts_on_network n c :
  chain_reachable n c →
  accounts_on n (ch_state c) ∧
  ∀ base sender tx, tx_wf tx → 0 <= base → spendable (ch_state c) base sender tx →
    Transaction_network tx = Ok n.
Proof.
  intros Hc. pose proof (chain_reachable_accounts n c Hc) as Hacc. split; [done|].
  intros base sender tx Hwf Hbase Hsp. apply chain_reachable_ok in Hc.
  destruct (reachable_inv _ (chain_ok_reachable n c Hc)) as [Hok _ _].
  by apply (spend_network n _ _ _ _ Hacc Hok Hwf Hbase Hsp).
Qed.

(** ** Replay *)

Lemma valid_next_block_later now now' n prevs prev b emitted :
  now <= now' → valid_next_block now n prevs prev b emitted →
  valid_next_block now' n prevs prev b emitted.
Proof.
  intros Hle Hv. pose proof (vb_not_future _ _ _ _ _ _ Hv). destruct Hv. split; try done. lia.
Qed.

Lemma append_block_later now now' n c b c' :
  chain_ok n c → now <= now' → block_wf b →
  append_block now b c = (Ok (), c') → append_block now' b c = (Ok (), c').
Proof.
  intros Hc Hle Hwf. rewrite !append_block_Ok, !validate_next_block_rules by done.
  intros [Hv Ha]. split; [by eapply valid_next_block_later | done].
Qed.

Definition append_all (blocks : list (Z * Block)) : state_result Chain VireonError () :=
  sr_each (λ '(now, b), append_block now b) blocks.

Lemma append_all_later n c l l' c' :
  chain_ok n c → Forall block_wf l.*2 → Forall2 (λ p q, p.1 <= q.1 ∧ p.2 = q.2) l l' →
  append_all l c = (Ok (), c') →
  append_all l' c = (Ok (), c') ∧ chain_ok n c' ∧ ch_blocks c' = ch_blocks c ++ l.*2.
Proof.
  intros Hc Hwf Hl. revert c Hc Hwf.
  induction Hl as [|[now b] [now' b'] l l' [Hle Heq] Hl IH]; intros c Hc Hwf.
  { intros [= <-]. by rewrite app_nil_r. }
  simpl in Hle, Heq. subst b'. apply Forall_cons in Hwf as [Hb Hwf].
  unfold append_all. cbn [sr_each]. intros Happ. apply sr_bind_Ok in Happ as ([] & c1 & H1 & H2).
  pose proof (append_block_later now now' n c b c1 Hc Hle Hb H1) as H1'.
  destruct (IH c1 (chain_ok_append n c now b c1 Hc Hb H1) Hwf H2) as (H3 & H4 & H5).
  split_and!; [by rewrite (sr_bind_step _ _ _ _ _ H1') | done |].
  apply append_block_Ok in H1 as (_ & s & st' & _ & ->). rewrite H5. simpl. by rewrite <- app_assoc.
Qed.

(** Replaying a block list is deterministic and never fails later: if
    [from_blocks] accepted the blocks once, it accepts the same blocks with any
    later clock readings, and yields the same chain, whose blocks are the list
    it was given. *)
Theorem from_blocks_replay n l l' c :
  Forall block_wf l.*2 → Forall2 (λ p q, p.1 <= q.1 ∧ p.2 = q.2) l l' →
  from_blocks n l = Ok c →
  from_blocks n l' = Ok c ∧ ch_blocks c = l.*2 ∧ history l.*2 (ch_state c).
Proof.
  intros Hwf Hl Hf. unfold from_blocks in *.
  destruct (sr_each _ l (Chain_new n)) as [[[]|e] c0] eqn:E; [|done]. injection Hf as ->.
  destruct (append_all_later n (Chain_new n) l l' c (chain_ok_new n) Hwf Hl E) as (E' & Hc & Hb).
  unfold append_all in E'. rewrite E'. split; [done|]. split; [done|].
  pose proof (co_history n c Hc) as Hh. rewrite Hb in Hh. exact Hh.
Qed.

End chain_lemmas.
