(* ===== verification/Genesis.v ===== *)
(** [vireon-core/src/genesis.rs] and [mine_firopow_solution] of [firopow.rs]:
    genesis and child block construction with one-shot mining.  The native
    multi-threaded search is a parameter of the section; mining loops carry fuel
    ([None] is "out of fuel"). *)

From S2P Require Import Prelude RustStd Interfaces Crypto Errors Network Amount Signing Address Transaction Block Pow Consensus State Ledger Chain.

Definition DEVNET_GENESIS_TIMESTAMP : Z := 1720000000.
Definition DEVNET_DIFFICULTY_LEADING_ZERO_BITS : Z := 8.
Definition MINE_CHUNK : Z := 250000.

Definition set_nonce_mix (nonce : Z) (mix : Hash) (b : Block) : Block :=
  let h := header b in
  mkBlock (mkBlockHeader (bh_version h) (bh_network_id h) (bh_height h) (bh_previous_hash h)
    (bh_merkle_root h) (bh_base_fee_atomic h) (bh_timestamp h) nonce mix (bh_difficulty h))
    (transactions b).

(** The outcome of [vireon_firopow_search_mt]: return code 0, 1 or other. *)
Inductive search_result := NotFound | Found (nonce : Z) (final mix : bytes) | SearchFailed.

Section genesis.
Context `{Primitives}.
(** [vireon_firopow_search_mt block header boundary start iterations], on the
    machine's thread count, without cancellation. *)
Context (vireon_firopow_search_mt : Z → bytes → bytes → Z → Z → search_result).

Definition mine_firopow_solution (b : Block) (required_leading_zero_bits start_nonce max_iterations : Z)
    : Result (option (Z * FiroPowOutput)) :=
  let header_hash := mining_header_hash b in
  let boundary := boundary_from_leading_zero_bits required_leading_zero_bits in
  match vireon_firopow_search_mt (height_as_i32 (bh_height (header b))) header_hash boundary
          start_nonce max_iterations with
  | NotFound => Ok None
  | Found nonce f m => Ok (Some (nonce, {| final_hash := f; mix_hash := m |}))
  | SearchFailed => Err native_failure
  end.

(** The first [loop] of [mine_block]: [Some None] when the start nonce has
    wrapped around to zero. *)
Fixpoint mine_chunks (fuel : nat) (start : Z) (b : Block) : option (option Block) :=
  match fuel with
  | O => None
  | S fuel' =>
      match mine_firopow_solution b (bh_difficulty (header b)) start MINE_CHUNK with
      | Ok (Some (nonce, out)) => Some (Some (set_nonce_mix nonce (mix_hash out) b))
      | _ =>
          let start' := wrapping_add 64 start MINE_CHUNK in
          if start' =? 0 then Some None else mine_chunks fuel' start' b
      end
  end.

(** The second [loop]: one nonce at a time. *)
Fixpoint mine_nonces (fuel : nat) (b : Block) : option Block :=
  match fuel with
  | O => None
  | S fuel' =>
      let next := mine_nonces fuel'
        (set_nonce_mix (wrapping_add 64 (bh_nonce (header b)) 1) (bh_mix_hash (header b)) b) in
      match pow_hash_with_nonce b (bh_nonce (header b)) with
      | Ok out =>
          if check_pow (final_hash out) (bh_difficulty (header b))
          then Some (set_nonce_mix (bh_nonce (header b)) (mix_hash out) b) else next
      | Err _ => next
      end
  end.

Definition mine_block (fuel : nat) (b : Block) : option Block :=
  match mine_chunks fuel 0 b with
  | None => None
  | Some (Some b') => Some b'
  | Some None => mine_nonces fuel b
  end.

(** [mine_block(&mut block); Ok(block)] after a fallible construction. *)
Definition mined (fuel : nat) (r : Result Block) : option (Result Block) :=
  match r with
  | Ok b => Ok <$> mine_block fuel b
  | Err e => Some (Err e)
  end.

Definition recipient_empty : VireonError := InvalidGenesis "recipient cannot be empty".

Definition genesis_template (n : Network) (recipient : string) (timestamp difficulty : Z)
    : Result Block :=
  if str_is_empty (str_trim recipient) then Err recipient_empty else
  coinbase ← Transaction_coinbase 0 recipient (block_reward 0);
  Block_new n 0 Hash_zero initial_base_fee timestamp difficulty [coinbase].

Definition genesis_with_timestamp_for_network (fuel : nat) (n : Network) (recipient : string)
    (timestamp difficulty : Z) : option (Result Block) :=
  mined fuel (genesis_template n recipient timestamp difficulty).

Definition genesis_with_difficulty_for_network (fuel : nat) (n : Network) (recipient : string)
    (difficulty : Z) : option (Result Block) :=
  genesis_with_timestamp_for_network fuel n recipient DEVNET_GENESIS_TIMESTAMP difficulty.

Definition devnet_genesis_with_difficulty (fuel : nat) (recipient : string) (difficulty : Z)
    : option (Result Block) :=
  genesis_with_difficulty_for_network fuel Devnet recipient difficulty.

Definition devnet_genesis (fuel : nat) (recipient : string) : option (Result Block) :=
  devnet_genesis_with_difficulty fuel recipient DEVNET_DIFFICULTY_LEADING_ZERO_BITS.

Definition child_template (previous : Block) (recipient : string) (timestamp : Z)
    (txs : list Transaction) (difficulty : Z) : Result Block :=
  if str_is_empty (str_trim recipient) then Err recipient_empty else
  let base_fee := next_base_fee (Some previous) in
  total_priority_fees ← try_fold (collect_priority_fee base_fee) Amount_ZERO txs;
  n ← Block_network previous;
  let height := wrapping_add 64 (bh_height (header previous)) 1 in
  amount ← amount_checked_add (block_reward height) total_priority_fees;
  coinbase ← Transaction_coinbase height recipient amount;
  Block_new n height (block_hash previous) base_fee
    (Z.max timestamp (saturating_add 64 (bh_timestamp (header previous)) 1)) difficulty
    (coinbase :: txs).

Definition devnet_child_block_with_difficulty (fuel : nat) (previous : Block) (recipient : string)
    (timestamp : Z) (txs : list Transaction) (difficulty : Z) : option (Result Block) :=
  mined fuel (child_template previous recipient timestamp txs difficulty).

Definition devnet_child_block (fuel : nat) (previous : Block) (recipient : string) (timestamp : Z)
    (txs : list Transaction) : option (Result Block) :=
  devnet_child_block_with_difficulty fuel previous recipient timestamp txs
    DEVNET_DIFFICULTY_LEADING_ZERO_BITS.

Definition child_block_with_consensus_difficulty (fuel : nat) (previous_chain : list Block)
    (recipient : string) (timestamp : Z) (txs : list Transaction) (fallback : Z)
    : option (Result Block) :=
  match last previous_chain with
  | None => Some (Err (InvalidGenesis "previous chain cannot be empty"))
  | Some previous =>
      match Block_network previous with
      | Err e => Some (Err e)
      | Ok n =>
          let next_difficulty := next_difficulty_for_network n previous_chain fallback in
          devnet_child_block_with_difficulty fuel previous recipient timestamp txs next_difficulty
      end
  end.

End genesis.

(** * Mining *)

Section mining.
Context `{PrimitivesOk}.
Context (search : Z → bytes → bytes → Z → Z → search_result).

(** The documented contract of the native search: what it reports as found is
    an evaluation at or under the boundary. *)
Definition search_sound : Prop := ∀ height hdr boundary start iterations nonce f m,
  search height hdr boundary start iterations = Found nonce f m →
  vireon_firopow_hash height hdr nonce = Some (f, m) ∧ be_value f <= be_value boundary.

(** A block that carries a solution of its own header. *)
Definition solved (b : Block) : Prop := ∃ out, pow_result b = Ok out ∧
  mix_hash out = bh_mix_hash (header b) ∧
  be_value (block_hash b) < 2 ^ (256 - bh_difficulty (header b)).

Lemma set_nonce_mix_twice n m n' m' b :
  set_nonce_mix n m (set_nonce_mix n' m' b) = set_nonce_mix n m b.
Proof. done. Qed.

Lemma solved_intro b nonce out :
  is_u8 (bh_difficulty (header b)) → pow_hash_with_nonce b nonce = Ok out →
  be_value (final_hash out) < 2 ^ (256 - bh_difficulty (header b)) →
  solved (set_nonce_mix nonce (mix_hash out) b).
Proof.
  intros Hd Hp Hlt.
  assert (pow_result (set_nonce_mix nonce (mix_hash out) b) = Ok out) as Hr by exact Hp.
  exists out. split; [done|]. split; [done|]. by rewrite (block_hash_Ok _ _ Hr).
Qed.

Lemma mine_chunks_solved fuel start b b' :
  search_sound → is_u8 (bh_difficulty (header b)) →
  mine_chunks search fuel start b = Some (Some b') →
  solved b' ∧ ∃ nonce mix, b' = set_nonce_mix nonce mix b.
Proof.
  intros Hs Hd. revert start. induction fuel as [|fuel IH]; intros start; [done|]. cbn [mine_chunks].
  assert ((if wrapping_add 64 start MINE_CHUNK =? 0 then Some None
    else mine_chunks search fuel (wrapping_add 64 start MINE_CHUNK) b) = Some (Some b') →
    solved b' ∧ ∃ nonce mix, b' = set_nonce_mix nonce mix b) as Hnext
    by (intros Hx; destruct (_ =? 0); [done | by apply IH in Hx]).
  destruct (mine_firopow_solution search b _ _ _) as [[[nonce out]|]|e] eqn:E; [|exact Hnext..].
  intros [= <-]. unfold mine_firopow_solution in E. cbv zeta in E.
  destruct (search _ _ _ _ _) as [|n f m|] eqn:Es; try done. injection E as -> <-.
  apply Hs in Es as [Hh Hle]. destruct (boundary_spec _ Hd) as [_ Hb]. rewrite Hb in Hle.
  split; [|by eexists _, _]. apply solved_intro; [done| |simpl; lia].
  apply firopow_hash_Ok. exact Hh.
Qed.

Lemma mine_nonces_solved fuel b b' :
  is_u8 (bh_difficulty (header b)) → mine_nonces fuel b = Some b' →
  solved b' ∧ ∃ nonce mix, b' = set_nonce_mix nonce mix b.
Proof.
  revert b. induction fuel as [|fuel IH]; intros b Hd; [done|]. cbn [mine_nonces]. cbv zeta.
  set (b1 := set_nonce_mix (wrapping_add 64 (bh_nonce (header b)) 1) (bh_mix_hash (header b)) b).
  assert (mine_nonces fuel b1 = Some b' → solved b' ∧ ∃ nonce mix, b' = set_nonce_mix nonce mix b)
    as Hnext.
  { intros (Hsol & nonce & mix & ->)%IH; [|exact Hd]. split; [exact Hsol|]. by exists nonce, mix. }
  destruct (pow_hash_with_nonce b (bh_nonce (header b))) as [out|e] eqn:E; [|exact Hnext].
  destruct (check_pow (final_hash out) (bh_difficulty (header b))) eqn:Ec; [|exact Hnext].
  intros [= <-]. split; [|by eexists _, _]. apply solved_intro; [done|done|].
  apply meets_target_iff in Ec; [done | | done]. by apply firopow_hash_wf in E as [? _].
Qed.

Lemma mine_block_solved fuel b b' :
  search_sound → is_u8 (bh_difficulty (header b)) → mine_block search fuel b = Some b' →
  solved b' ∧ ∃ nonce mix, b' = set_nonce_mix nonce mix b.
Proof.
  intros Hs Hd. unfold mine_block. destruct (mine_chunks search fuel 0 b) as [[b1|]|] eqn:E; [| |done].
  - intros [= <-]. by apply mine_chunks_solved in E.
  - by apply mine_nonces_solved.
Qed.

(** Whatever the search reports, mining only changes the nonce and the mix hash. *)
Lemma mine_block_changes fuel b b' :
  mine_block search fuel b = Some b' → ∃ nonce mix, b' = set_nonce_mix nonce mix b.
Proof.
  assert (∀ fuel b, mine_nonces fuel b = Some b' → ∃ nonce mix, b' = set_nonce_mix nonce mix b) as Hn.
  { clear. induction fuel as [|fuel IH]; intros b; [done|]. cbn [mine_nonces]. cbv zeta.
    destruct (pow_hash_with_nonce b _) as [out|e];
      [destruct (check_pow _ _); [intros [= <-]; by eexists _, _|]|];
      intros (nonce & mix & ->)%IH; by exists nonce, mix. }
  assert (∀ start r, mine_chunks search fuel start b = Some (Some r) →
    ∃ nonce mix, r = set_nonce_mix nonce mix b) as Hc.
  { clear. induction fuel as [|fuel IH]; intros start r; [done|]. cbn [mine_chunks]. cbv zeta.
    destruct (mine_firopow_solution search b _ _ _) as [[[nonce out]|]|e];
      [intros [= <-]; by eexists _, _| |]; (destruct (_ =? 0); [done | apply IH]). }
  unfold mine_block. destruct (mine_chunks search fuel 0 b) as [[b1|]|] eqn:E; [|apply Hn|done].
  intros [= <-]. by eapply Hc.
Qed.

(** What a genesis of the given inputs looks like. *)
Lemma genesis_fields fuel n recipient timestamp difficulty g :
  genesis_with_timestamp_for_network search fuel n recipient timestamp difficulty = Some (Ok g) →
  bh_height (header g) = 0 ∧ bh_network_id (header g) = network_id n ∧
  bh_timestamp (header g) = timestamp ∧ bh_difficulty (header g) = difficulty ∧
  ∃ cb, transactions g = [cb] ∧ is_coinbase cb = true ∧ tx_to cb = recipient.
Proof.
  unfold genesis_with_timestamp_for_network, mined. destruct (genesis_template _ _ _ _) as [b|e] eqn:E; [|done].
  destruct (mine_block search fuel b) as [b'|] eqn:Em; [|done]. intros [= ->].
  apply mine_block_changes in Em as (nonce & mix & ->).
  unfold genesis_template in E. rewrite if_Err_Ok in E. destruct E as [_ E].
  apply bind_Ok in E as (cb & Hcb & Hb). apply bind_Ok in Hb as (root & _ & [= <-]).
  unfold Transaction_coinbase in Hcb. apply bind_unit_Ok in Hcb as [_ [= <-]].
  split_and!; try done. by eexists.
Qed.

(** The chunk loop finds what the search finds: if some chunk of the first
    [k + 1] holds a solution, that much fuel is enough. *)
Lemma mine_chunks_total k start b :
  is_u64 start → start + Z.of_nat k * MINE_CHUNK < 2 ^ 64 →
  (∃ n out, mine_firopow_solution search b (bh_difficulty (header b))
     (start + Z.of_nat k * MINE_CHUNK) MINE_CHUNK = Ok (Some (n, out))) →
  ∃ b', mine_chunks search (S k) start b = Some (Some b').
Proof.
  revert start. induction k as [|k IH]; intros start Hs Hk (n & out & Hf); cbn [mine_chunks].
  - rewrite Z.mul_0_l, Z.add_0_r in Hf. rewrite Hf. by eexists.
  - destruct (mine_firopow_solution search b _ start _) as [[[n' out']|]|e]; [by eexists| |];
      (assert (wrapping_add 64 start MINE_CHUNK = start + MINE_CHUNK) as ->
         by (unfold wrapping_add, uwrap, in_width, MINE_CHUNK in *; apply Z.mod_small; lia));
      (rewrite (proj2 (Z.eqb_neq _ 0)) by (unfold in_width, MINE_CHUNK in *; lia));
      (apply IH; [unfold in_width, MINE_CHUNK in *; lia | lia |]);
      exists n, out; rewrite <- Hf; f_equal; lia.
Qed.

End mining.

(** * Children *)

Section children.
Context `{PrimitivesOk}.

(** ** Templates *)

Lemma Transaction_coinbase_Ok height to amount cb :
  Transaction_coinbase height to amount = Ok cb →
  cb = mkTransaction 1 height None to amount Amount_ZERO Amount_ZERO None None None ∧
  amount ≠ 0 ∧ Transaction_verify cb = Ok ().
Proof.
  unfold Transaction_coinbase, Transaction_new. cbv zeta.
  intros ([] & Hs & [= <-])%bind_Ok. split; [done|]. split.
  - unfold validate_shape in Hs. rewrite if_Err_Ok, bind_const_Ok, if_Err_Ok, Z.eqb_neq in Hs.
    apply Hs.
  - unfold Transaction_verify. by rewrite Hs.
Qed.

(** What [child_template] puts into a block. *)
Record child_of (p : Block) (recipient : string) (timestamp : Z) (txs : list Transaction)
    (difficulty : Z) (n : Network) (cb : Transaction) (b : Block) : Prop := {
  cho_network : Block_network p = Ok n;
  cho_pays : Forall (pays_base_fee (next_base_fee (Some p))) txs;
  cho_coinbase : Transaction_coinbase (wrapping_add 64 (bh_height (header p)) 1) recipient
    (block_reward (wrapping_add 64 (bh_height (header p)) 1)
     + total_tips (next_base_fee (Some p)) txs) = Ok cb;
  cho_body : transactions b = cb :: txs;
  cho_merkle : compute_merkle_root (transactions b) = Ok (bh_merkle_root (header b));
  cho_version : bh_version (header b) = 1;
  cho_network_id : bh_network_id (header b) = network_id n;
  cho_height : bh_height (header b) = wrapping_add 64 (bh_height (header p)) 1;
  cho_parent : bh_previous_hash (header b) = block_hash p;
  cho_base_fee : bh_base_fee_atomic (header b) = next_base_fee (Some p);
  cho_timestamp : bh_timestamp (header b) =
    Z.max timestamp (saturating_add 64 (bh_timestamp (header p)) 1);
  cho_difficulty : bh_difficulty (header b) = difficulty;
}.

Lemma child_template_Ok p recipient timestamp txs difficulty b :
  Forall tx_wf txs → child_template p recipient timestamp txs difficulty = Ok b →
  ∃ n cb, child_of p recipient timestamp txs difficulty n cb b.
Proof.
  intros Hwf Ht. unfold child_template in Ht. rewrite if_Err_Ok in Ht. destruct Ht as [_ Ht].
  apply bind_Ok in Ht as (tips & (Hpay & -> & _)%collect_fold_Ok & Ht); [|by vm_compute|done].
  apply bind_Ok in Ht as (n & Hn & Ht).
  apply bind_Ok in Ht as (amount & [-> _]%amount_add_Ok & Ht).
  apply bind_Ok in Ht as (cb & Hcb & Ht). rewrite Z.add_0_l in Hcb.
  unfold Block_new, Block_new_with_version in Ht. rewrite if_Err_Ok in Ht. destruct Ht as [_ Ht].
  apply bind_Ok in Ht as (root & Hroot & [= <-]). exists n, cb.
  split; try done. apply expected_block_version_launch.
Qed.

Lemma child_of_set_nonce_mix p recipient timestamp txs difficulty n cb nonce mix b :
  child_of p recipient timestamp txs difficulty n cb b →
  child_of p recipient timestamp txs difficulty n cb (set_nonce_mix nonce mix b).
Proof. by intros []. Qed.

(** What block assembly must guarantee of the body it hands to the miner, in
    the chain [c] whose tip is [p]. *)
Record includable (n : Network) (c : Chain) (p : Block) (txs : list Transaction)
    (st1 : LedgerState) : Prop := {
  inc_count : Z.of_nat (length txs) < MAX_TRANSACTIONS_PER_BLOCK;
  inc_wire : Forall (λ tx, Z.of_nat (length (encode tx)) <= MAX_TRANSACTION_WIRE_BYTES) txs;
  inc_network : Forall (λ tx, Transaction_network tx = Ok n) txs;
  inc_distinct : NoDup (sender_nonce <$> txs);
  inc_spends : spends (next_base_fee (Some p)) (ch_state c) txs st1;
}.

Lemma spends_valid base st txs st' :
  spends base st txs st' →
  Forall (λ tx, Transaction_verify tx = Ok () ∧ is_coinbase tx = false ∧ base <= tx_max_fee tx) txs.
Proof. induction 1 as [|st sender tx txs st' [] _ IH]; constructor; done. Qed.

Lemma chain_child_height n c p :
  chain_ok n c → last (ch_blocks c) = Some p → Z.of_nat (length (ch_blocks c)) < 2 ^ 64 →
  wrapping_add 64 (bh_height (header p)) 1 = Z.of_nat (length (ch_blocks c)).
Proof.
  intros Hc Hp Hlen. rewrite last_lookup in Hp. pose proof (lookup_lt_Some _ _ _ Hp).
  rewrite (co_height n c Hc _ p Hp). unfold wrapping_add, uwrap. rewrite Z.mod_small; lia.
Qed.

Lemma coinbase_network height to amount cb a :
  Transaction_coinbase height to amount = Ok cb → Address_parse to = Ok a →
  Transaction_network cb = Ok (addr_network a).
Proof.
  intros (-> & _)%Transaction_coinbase_Ok Ha. unfold Transaction_network. cbn [tx_to tx_from].
  by rewrite Ha.
Qed.

(** The block rules hold of a solved child of the tip. *)
Lemma child_valid now n c p recipient timestamp txs fallback st1 cb b a n' :
  chain_ok n c → last (ch_blocks c) = Some p → Z.of_nat (length (ch_blocks c)) < 2 ^ 64 →
  child_of p recipient timestamp txs (next_difficulty_for_network n (ch_blocks c) fallback) n' cb b →
  solved b → block_wf b → includable n c p txs st1 →
  Address_parse recipient = Ok a → addr_network a = n →
  Z.of_nat (length (encode cb)) <= MAX_TRANSACTION_WIRE_BYTES →
  tx_hash_hex cb ∉ applied_transaction_hashes st1 →
  bh_timestamp (header b) <= now + 7200 → now + 7200 < umax 64 →
  valid_next_block now n (ch_blocks c) (last (ch_blocks c)) b (emitted_supply (ch_state c)).
Proof.
  intros Hc Hp Hlen Hch Hsol Hwf [Hn Hwire Hnet Hdist Hsp] Ha Han Hcbw Hnew Hnow Hmax.
  pose proof Hch as [HnetP Hpay Hcb Hbody Hroot Hver Hnid Hheight Hparent Hbase Htime Hdiff].
  pose proof (chain_child_height n c p Hc Hp Hlen) as Hh. rewrite Hp. rewrite Hh in Hheight, Hcb.
  apply Transaction_coinbase_Ok in Hcb as Hcb'. destruct Hcb' as (Hcbeq & Hz & Hcbv).
  pose proof (spends_valid _ _ _ _ Hsp) as Hval.
  destruct (spends_ids _ _ _ _ Hsp) as (Hnd & _ & Hset).
  assert (ch_blocks c ≠ []) as Hne by (by intros E; rewrite E in Hp).
  assert (0 < Z.of_nat (length (ch_blocks c))) as Hpos by (destruct (ch_blocks c); [done | simpl; lia]).
  assert (bh_timestamp (header p) < bh_timestamp (header b)) as Hinc
    by (unfold saturating_add, umax in *; lia).
  assert (n' = n) as ->.
  { rewrite last_lookup in Hp. destruct (co_rules n c Hc _ p Hp) as [? Hv].
    unfold Block_network in HnetP. rewrite (vb_network _ _ _ _ _ _ Hv) in HnetP.
    rewrite from_network_id_id in HnetP. by injection HnetP. }
  split; try done; rewrite ?Hbody.
  - cbn [length]. unfold MAX_TRANSACTIONS_PER_BLOCK in Hn. lia.
  - constructor; [done|done].
  - constructor; [done|]. eapply Forall_impl; [exact Hval|]. by intros ? [].
  - rewrite <- NoDup_tx_hash_hex, fmap_cons. constructor; [|done]. set_solver.
  - by rewrite Hh.
  - by intros q [= <-].
  - unfold umax in *. lia.
  - intros m Hm. pose proof (chain_median_le n c p m Hc Hp Hm). lia.
  - rewrite Hdiff. apply next_difficulty_range.
  - intros _. rewrite Hdiff at 1. by apply next_difficulty_fallback.
  - intros _ Hzero. lia.
  - exists (tx_amount cb). rewrite Hheight, Hbase, Hcbeq. cbn [tx_amount]. split; [by eexists _, _ | | done | done].
    cbn [drop skipn]. eapply Forall_impl; [exact Hval|]. by intros ? (_ & ? & ?).
  - constructor; [|done]. rewrite <- Han. by eapply coinbase_network.
  - rewrite Hheight. pose proof (bc_emitted _ _ (co_count n c Hc)) as ->.
    pose proof (emission_upto_le (S (length (ch_blocks c)))) as Hle. cbn [emission_upto] in Hle.
    pose proof total_emission_bound. lia.
Qed.

End children.

(** * Acceptance of mined children *)

Section acceptance.
Context `{PrimitivesOk}.
Context (search : Z → bytes → bytes → Z → Z → search_result).

(** Mining a child yields the template with a solution of its header. *)
Lemma child_block_mined fuel p recipient timestamp txs difficulty b :
  search_sound search → is_u8 difficulty → Forall tx_wf txs →
  devnet_child_block_with_difficulty search fuel p recipient timestamp txs difficulty = Some (Ok b) →
  solved b ∧ ∃ n cb, child_of p recipient timestamp txs difficulty n cb b.
Proof.
  intros Hs Hd Hwf. unfold devnet_child_block_with_difficulty, mined.
  destruct (child_template _ _ _ _ _) as [t|e] eqn:Et; [|done].
  apply child_template_Ok in Et as (n & cb & Ht); [|done].
  intros (b' & Hm & [= ->])%fmap_Some.
  apply mine_block_solved in Hm as (Hsol & nonce & mix & ->); [|done | by rewrite (cho_difficulty _ _ _ _ _ _ _ _ Ht)].
  split; [done|]. exists n, cb. by apply child_of_set_nonce_mix.
Qed.

(** Mined children are accepted: a block the miner produces on the tip of a
    chain built by appends, from transactions that block assembly may include,
    is appended by the node, which is then in the state where the transactions
    have been applied and the coinbase minted. *)
Theorem child_block_accepted fuel now n c p recipient a timestamp txs fallback st1 b cb :
  search_sound search → chain_reachable n c → last (ch_blocks c) = Some p →
  Z.of_nat (length (ch_blocks c)) < 2 ^ 64 → Forall tx_wf txs →
  includable n c p txs st1 → Address_parse recipient = Ok a → addr_network a = n →
  child_block_with_consensus_difficulty search fuel (ch_blocks c) recipient timestamp txs fallback
    = Some (Ok b) →
  block_wf b → head (transactions b) = Some cb →
  Z.of_nat (length (encode cb)) <= MAX_TRANSACTION_WIRE_BYTES →
  (tx_hash_hex cb ∉ applied_transaction_hashes st1) →
  bh_timestamp (header b) <= now + 7200 → now + 7200 < umax 64 →
  transactions b = cb :: txs ∧
  append_block now b c = (Ok (), mkChain n (ch_blocks c ++ [b]) (mint_and_record b cb st1)).
Proof.
  intros Hs Hc%chain_reachable_ok Hp Hlen Htxs Hinc Ha Han Hb Hwf Hcb Hcbw Hnew Hnow Hmax.
  unfold child_block_with_consensus_difficulty in Hb. rewrite Hp in Hb.
  assert (Block_network p = Ok n) as Hnet.
  { rewrite last_lookup in Hp. destruct (co_rules n c Hc _ p Hp) as [? Hv].
    unfold Block_network. by rewrite (vb_network _ _ _ _ _ _ Hv), from_network_id_id. }
  rewrite Hnet in Hb. cbv zeta in Hb.
  assert (is_u8 (next_difficulty_for_network n (ch_blocks c) fallback)) as Hd
    by apply (difficulty_is_u8 n), next_difficulty_range.
  apply child_block_mined in Hb as (Hsol & n' & cb' & Hch); [|done..].
  rewrite (cho_body _ _ _ _ _ _ _ _ Hch) in Hcb. injection Hcb as ->.
  split; [apply Hch|]. apply (append_block_spec n c now b _ Hc Hwf).
  split; [by eapply child_valid|].
  rewrite (cho_body _ _ _ _ _ _ _ _ Hch), (cho_base_fee _ _ _ _ _ _ _ _ Hch). cbn [drop skipn head].
  split; [apply Hinc|]. exists st1, cb. split_and!; [apply Hinc | done..].
Qed.

(** C28. Mining is sound and finds what is there: a mined block is the template
    with another nonce and mix, carries a valid solution of its header, and if
    the search reports a solution in one of its first [k + 1] chunks, fuel
    [k + 1] is enough to obtain a block. *)
Theorem mine_block_correct b k :
  search_sound search → is_u8 (bh_difficulty (header b)) → Z.of_nat k * MINE_CHUNK < 2 ^ 64 →
  (∃ nonce out, mine_firopow_solution search b (bh_difficulty (header b))
     (Z.of_nat k * MINE_CHUNK) MINE_CHUNK = Ok (Some (nonce, out))) →
  (∃ b', mine_block search (S k) b = Some b') ∧
  ∀ fuel b', mine_block search fuel b = Some b' →
    (∃ nonce mix, b' = set_nonce_mix nonce mix b) ∧ is_ok (ensure_valid b') = true.
Proof.
  intros Hs Hd Hk Hf. split.
  - unfold mine_block. destruct (mine_chunks_total search k 0 b) as [b' ->]; [done | done | done | by eexists].
  - intros fuel b' Hm. apply mine_block_solved in Hm as (Hsol & nonce & mix & ->); [|done..].
    split; [by eexists _, _|]. apply is_ok_true, ensure_valid_meets; [done|exact Hsol].
Qed.

End acceptance.
