(* ===== verification/NodeConfig.v ===== *)
(** [vireon-node/src/error.rs], [config.rs] and the genesis part of [devnet.rs]:
    the node's error type, network and genesis configurations with their
    validation, and the check of a stored genesis against the approval record.
    Parsed files are arguments ([NodeResult] of their content). *)

From S2P Require Import Prelude RustStd Interfaces Crypto Errors Network Amount Signing Address Transaction Block Pow Consensus Genesis.

(** [enum NodeError] of [vireon-node/src/error.rs]; the errors of other crates
    it wraps and the paths are carried as text. *)
Inductive NodeError :=
| Io (text : string)
| Json (text : string)
| Toml (text : string)
| Sqlite (text : string)
| Core (e : VireonError)
| ConfigMismatch (message : string)
| Input (message : string)
| ChainNotInitialized (path : string)
| InvalidChainFile (path : string) (line : Z) (message : string)
| InvalidChainDatabase (path message : string)
| InvalidMempoolFile (path message : string)
| MempoolFull (limit : Z)
| ResetNotAllowed (network : string)
| ResetConfirmationRequired (network : string)
| NetworkMismatch (expected actual : string)
| ChainMagicMismatch (expected actual : string)
| GenesisMismatch (expected actual : string)
| P2p (message : string)
| StaleChainTip (expected actual : string)
| InvalidDataPath (network expected_root actual_path : string)
| ShutdownNotRunning (network : string)
| ResetWhileNodeRunning (network : string).

Abbreviation NodeResult := (result NodeError).

(** [Display for NodeError] *)
Definition NodeError_fmt (e : NodeError) : string :=
  match e with
  | Io text => "I/O error: " ++ text
  | Json text => "JSON error: " ++ text
  | Toml text => "TOML error: " ++ text
  | Sqlite text => "SQLite storage error: " ++ text
  | Core e => "core validation error: " ++ VireonError_fmt e
  | ConfigMismatch message => "network config mismatch: " ++ message
  | Input message => "invalid local input: " ++ message
  | ChainNotInitialized path => "local chain is not initialized at " ++ path
  | InvalidChainFile path line message =>
      "invalid chain file at " ++ path ++ " on line " ++ uint_to_string line ++ ": " ++ message
  | InvalidChainDatabase path message => "invalid chain database at " ++ path ++ ": " ++ message
  | InvalidMempoolFile path message => "invalid mempool file at " ++ path ++ ": " ++ message
  | MempoolFull limit => "mempool is full: limit " ++ uint_to_string limit ++ " pending transactions reached"
  | ResetNotAllowed network => "reset is not allowed for network " ++ network
  | ResetConfirmationRequired network =>
      "reset requires explicit confirmation with --confirm for network " ++ network
  | NetworkMismatch expected actual => "network mismatch: expected " ++ expected ++ ", got " ++ actual
  | ChainMagicMismatch expected actual => "chain magic mismatch: expected " ++ expected ++ ", got " ++ actual
  | GenesisMismatch expected actual => "genesis mismatch: expected " ++ expected ++ ", got " ++ actual
  | P2p message => "P2P error: " ++ message
  | StaleChainTip expected actual => "stale chain tip: expected " ++ expected ++ ", got " ++ actual
  | InvalidDataPath network expected_root actual_path =>
      "invalid storage path for network " ++ network ++ ": expected a path under " ++ expected_root
      ++ ", got " ++ actual_path
  | ShutdownNotRunning network =>
      "node shutdown requested but no running node marker exists for network " ++ network
  | ResetWhileNodeRunning network =>
      "reset refused because the local node is still marked running for network " ++ network
  end%string.

(** [struct NetworkConfig] *)
Record NetworkConfig := {
  cfg_network : Network;
  cfg_network_id : string;
  cfg_human_name : string;
  cfg_status_label : string;
  cfg_block_time_seconds : Z;
  cfg_difficulty_leading_zero_bits : Z;
  cfg_ticker : string;
  cfg_address_prefix : string;
  cfg_max_supply : string;
  cfg_halving_interval : Z;
  cfg_initial_block_reward : string;
  cfg_default_rpc_port : Z;
  cfg_default_p2p_port : Z;
  cfg_p2p_bind_host : string;
  cfg_p2p_listen_port : option Z;
  cfg_max_peers : Z;
  cfg_seed_nodes : list string;
  cfg_max_mempool_transactions : Z;
  cfg_genesis_config_path : string;
  cfg_genesis_review_human_name : option string;
  cfg_genesis_approval_path : option string;
  cfg_chain_magic_hex : string;
  cfg_allow_mainnet_candidate : bool;
}.


Definition config_mismatch {A} (field value : string) : NodeResult A :=
  Err (ConfigMismatch (field ++ " must be " ++ value)%string).

(** [format!("{byte:02x}")] over the magic bytes *)
Definition chain_magic_hex (n : Network) : string :=
  bytes_to_hex (pp_chain_magic_bytes (launch_protocol_parameters n)).

Definition NetworkConfig_validate (c : NetworkConfig) : NodeResult () :=
  let p := launch_protocol_parameters (cfg_network c) in
  let n := cfg_network c in
  if negb (bool_decide (cfg_network_id c = pp_network_id p))
  then config_mismatch "network_id" (pp_network_id p) else
  if negb (bool_decide (cfg_human_name c = pp_network_name p))
  then config_mismatch "human_name" (pp_network_name p) else
  if negb (bool_decide (cfg_status_label c = pp_status_label p))
  then config_mismatch "status_label" (pp_status_label p) else
  if negb (cfg_block_time_seconds c =? pp_block_time_seconds p)
  then config_mismatch "block_time_seconds" (uint_to_string (pp_block_time_seconds p)) else
  if negb (bool_decide (cfg_ticker c = pp_ticker p))
  then config_mismatch "ticker" (pp_ticker p) else
  if negb (bool_decide (cfg_address_prefix c = pp_address_prefix p))
  then config_mismatch "address_prefix" (pp_address_prefix p) else
  if negb (bool_decide (cfg_max_supply c = uint_to_string (pp_max_supply_vire p)))
  then config_mismatch "max_supply" (uint_to_string (pp_max_supply_vire p)) else
  if negb (cfg_halving_interval c =? pp_halving_interval_blocks p)
  then config_mismatch "halving_interval" (uint_to_string (pp_halving_interval_blocks p)) else
  if negb (bool_decide (cfg_initial_block_reward c = pp_initial_block_reward_vire p))
  then config_mismatch "initial_block_reward" (pp_initial_block_reward_vire p) else
  if negb (cfg_default_rpc_port c =? pp_default_rpc_port p)
  then config_mismatch "default_rpc_port" (uint_to_string (pp_default_rpc_port p)) else
  if negb (cfg_default_p2p_port c =? pp_default_p2p_port p)
  then config_mismatch "default_p2p_port" (uint_to_string (pp_default_p2p_port p)) else
  if str_is_empty (str_trim (cfg_p2p_bind_host c))
  then Err (ConfigMismatch "p2p_bind_host cannot be empty") else
  if bool_decide (cfg_p2p_listen_port c = Some 0)
  then Err (ConfigMismatch "p2p_listen_port must be greater than zero") else
  if (cfg_max_peers c =? 0) || (cfg_max_peers c >? 4096)
  then Err (ConfigMismatch "max_peers must be between 1 and 4096") else
  if existsb (λ seed, str_is_empty (str_trim seed)) (cfg_seed_nodes c)
  then Err (ConfigMismatch "seed_nodes cannot contain empty entries") else
  if cfg_max_mempool_transactions c =? 0
  then Err (ConfigMismatch "max_mempool_transactions must be greater than zero") else
  if negb (bool_decide (cfg_genesis_config_path c = genesis_config_path n))
  then config_mismatch "genesis_config_path" (genesis_config_path n) else
  if match cfg_genesis_review_human_name c with
     | Some value => str_is_empty (str_trim value) | None => false end
  then Err (ConfigMismatch "genesis_review_human_name cannot be empty when provided") else
  if match cfg_genesis_approval_path c with
     | Some value => str_is_empty (str_trim value) | None => false end
  then Err (ConfigMismatch "genesis_approval_path cannot be empty when provided") else
  if negb (bool_decide (cfg_chain_magic_hex c = chain_magic_hex n))
  then config_mismatch "chain_magic_hex" (chain_magic_hex n) else
  if requires_explicit_allow n && negb (cfg_allow_mainnet_candidate c)
  then Err (ConfigMismatch "mainnet candidate requires allow_mainnet_candidate = true") else
  if requires_explicit_allow n && is_none (cfg_genesis_approval_path c)
  then Err (ConfigMismatch "mainnet candidate requires genesis_approval_path") else
  if negb (allows_low_difficulty_defaults n) && (cfg_difficulty_leading_zero_bits c <=? 8)
  then Err (ConfigMismatch "non-devnet networks must not use low difficulty defaults") else
  if (cfg_difficulty_leading_zero_bits c <? minimum_difficulty_leading_zero_bits n)
     || (cfg_difficulty_leading_zero_bits c >? maximum_difficulty_leading_zero_bits n)
  then Err (ConfigMismatch ("difficulty_leading_zero_bits must stay between "
         ++ uint_to_string (minimum_difficulty_leading_zero_bits n) ++ " and "
         ++ uint_to_string (maximum_difficulty_leading_zero_bits n) ++ " for " ++ network_id n)%string)
  else Ok ().

(** [load_from_path] on the parsed file. *)
Definition load_network_config (parsed : NodeResult NetworkConfig) : NodeResult NetworkConfig :=
  config ← parsed; _ ← NetworkConfig_validate config; Ok config.

Definition cfg_p2p_port (c : NetworkConfig) : Z :=
  default (cfg_default_p2p_port c) (cfg_p2p_listen_port c).

Definition review_human_name (c : NetworkConfig) : string :=
  default (cfg_human_name c) (cfg_genesis_review_human_name c).

(** [struct GenesisConfig] *)
Record GenesisConfig := {
  gc_network : Network;
  gc_network_id : string;
  gc_human_name : string;
  gc_status_label : string;
  gc_address_prefix : string;
  gc_timestamp : Z;
  gc_difficulty_leading_zero_bits : Z;
  gc_recipient_strategy : string;
  gc_recipient_address : option string;
}.

Definition GenesisConfig_validate (c : GenesisConfig) : NodeResult () :=
  let n := gc_network c in
  if negb (bool_decide (gc_network_id c = network_id n))
  then config_mismatch "genesis network_id" (network_id n) else
  if negb (bool_decide (gc_human_name c = human_name n))
  then config_mismatch "genesis human_name" (human_name n) else
  if negb (bool_decide (gc_status_label c = status_label n))
  then config_mismatch "genesis status_label" (status_label n) else
  if negb (bool_decide (gc_address_prefix c = address_prefix n))
  then config_mismatch "genesis address_prefix" (address_prefix n) else
  if str_is_empty (str_trim (gc_recipient_strategy c))
  then Err (ConfigMismatch "genesis recipient_strategy cannot be empty") else Ok ().

Definition load_genesis_config (parsed : NodeResult GenesisConfig) : NodeResult GenesisConfig :=
  config ← parsed; _ ← GenesisConfig_validate config; Ok config.

(** [struct GenesisApprovalRecord] *)
Record GenesisApprovalRecord := {
  ga_approval_standard_id : string;
  ga_review_standard_id : string;
  ga_network_id : string;
  ga_human_name : string;
  ga_status_label : string;
  ga_deterministic_genesis_hash : string;
  ga_approved_review_hash : string;
  ga_approved_by : string;
  ga_approval_notes : option string;
  ga_approved_at_unix_seconds : Z;
}.

Definition GENESIS_REVIEW_STANDARD_ID : string := "veiron-genesis-review-v1".
Definition GENESIS_APPROVAL_STANDARD_ID : string := "veiron-genesis-approval-v1".

(** The files a configuration path leads to, as parsed. *)
Record ConfigFiles := {
  file_network : NodeResult NetworkConfig;
  file_genesis : NodeResult GenesisConfig;
  file_approval : NodeResult GenesisApprovalRecord;
}.

Definition load_matching_genesis_inputs (files : ConfigFiles) : NodeResult (NetworkConfig * GenesisConfig) :=
  network_config ← load_network_config (file_network files);
  genesis_config ← load_genesis_config (file_genesis files);
  if negb (bool_decide (gc_network genesis_config = cfg_network network_config))
  then Err (ConfigMismatch ("genesis network " ++ network_id (gc_network genesis_config)
         ++ " does not match node network " ++ network_id (cfg_network network_config))%string) else
  if negb (gc_difficulty_leading_zero_bits genesis_config =?
           cfg_difficulty_leading_zero_bits network_config)
  then Err (ConfigMismatch "genesis difficulty must match node difficulty") else
  Ok (network_config, genesis_config).

(** [genesis_approval_output_path] followed by [load_genesis_approval_record]. *)
Definition load_approval (files : ConfigFiles) (config : NetworkConfig) : NodeResult GenesisApprovalRecord :=
  _ ← ok_or (ConfigMismatch "mainnet candidate requires genesis_approval_path")
        (cfg_genesis_approval_path config);
  file_approval files.

(** The [valid_hash] closure: 64 lowercase hexadecimal digits. *)
Definition valid_hash (value : string) : bool :=
  (str_len value =? 64) &&
  forallb (λ b, ((48 <=? byte_Z b) && (byte_Z b <=? 57)) || ((97 <=? byte_Z b) && (byte_Z b <=? 102)))
    (str_bytes value).

Definition validate_pinned_genesis_approval (config : NetworkConfig) (approval : GenesisApprovalRecord)
    : NodeResult () :=
  if negb (bool_decide (ga_approval_standard_id approval = GENESIS_APPROVAL_STANDARD_ID))
  then config_mismatch "genesis approval standard" GENESIS_APPROVAL_STANDARD_ID else
  if negb (bool_decide (ga_review_standard_id approval = GENESIS_REVIEW_STANDARD_ID))
  then config_mismatch "genesis approval review standard" GENESIS_REVIEW_STANDARD_ID else
  if negb (bool_decide (ga_network_id approval = cfg_network_id config))
  then Err (NetworkMismatch (cfg_network_id config) (ga_network_id approval)) else
  if negb (bool_decide (ga_human_name approval = review_human_name config))
     || negb (bool_decide (ga_status_label approval = cfg_status_label config))
  then Err (ConfigMismatch "genesis approval metadata does not match the active network config") else
  if negb (valid_hash (ga_deterministic_genesis_hash approval))
     || negb (valid_hash (ga_approved_review_hash approval))
  then Err (ConfigMismatch "genesis approval contains an invalid canonical hash") else
  if str_is_empty (str_trim (ga_approved_by approval))
  then Err (ConfigMismatch "genesis approval approved_by cannot be empty") else Ok ().

Section genesis_checks.
Context `{Primitives}.

(** [default_miner_address] of [dev_helpers.rs] *)
Definition default_miner_address (n : Network) : string :=
  let private_key : PrivateKey := replicate 32 x07 in
  Address_to_string (from_public_key_for_network (PrivateKey_public_key private_key) n).

Definition resolve_genesis_recipient (network_config : NetworkConfig) (genesis_config : GenesisConfig)
    : NodeResult string :=
  if bool_decide (gc_recipient_strategy genesis_config = "default_miner_address"%string)
  then Ok (default_miner_address (cfg_network network_config)) else
  if bool_decide (gc_recipient_strategy genesis_config = "fixed_address"%string) then
    address ← ok_or (ConfigMismatch "recipient_address is required") (gc_recipient_address genesis_config);
    parsed ← map_err (λ e, Input (VireonError_fmt e)) (Address_parse address);
    if negb (bool_decide (addr_network parsed = cfg_network network_config))
    then Err (NetworkMismatch (network_id (cfg_network network_config)) (network_id (addr_network parsed)))
    else Ok address
  else Err (ConfigMismatch ("unsupported genesis recipient_strategy "
         ++ gc_recipient_strategy genesis_config)%string).

(** The branch of [verify_existing_genesis] for networks that require explicit
    approval: the stored genesis against the pinned inputs. *)
Definition verify_pinned_genesis (files : ConfigFiles) (config : NetworkConfig)
    (genesis_config : GenesisConfig) (genesis : Block) : NodeResult () :=
  approval ← load_approval files config;
  _ ← validate_pinned_genesis_approval config approval;
  recipient ← resolve_genesis_recipient config genesis_config;
  let coinbase_matches :=
    match head (transactions genesis) with
    | Some tx => is_coinbase tx && bool_decide (tx_to tx = recipient)
    | None => false
    end in
  let h := header genesis in
  if negb (bh_height h =? 0) || negb (bool_decide (bh_network_id h = cfg_network_id config))
     || negb (bh_timestamp h =? gc_timestamp genesis_config)
     || negb (bh_difficulty h =? gc_difficulty_leading_zero_bits genesis_config)
     || negb coinbase_matches
  then Err (ConfigMismatch "stored genesis fields do not match the active pinned inputs") else
  let expected_hex := str_to_ascii_lowercase (str_trim (ga_deterministic_genesis_hash approval)) in
  let actual_hex := hash_to_hex (block_hash genesis) in
  if negb (bool_decide (actual_hex = expected_hex))
  then Err (ConfigMismatch ("genesis hash mismatch vs approval: expected " ++ expected_hex
         ++ ", got " ++ actual_hex)%string)
  else Ok ().

(** [verify_existing_genesis]; [deterministic] is the result of
    [deterministic_genesis_from_config], which re-mines on the other networks. *)
Definition verify_existing_genesis (files : ConfigFiles) (deterministic : NodeResult Block)
    (blocks : list Block) : NodeResult () :=
  genesis ← ok_or (Input "expected genesis block to exist") (head blocks);
  '(config, genesis_config) ← load_matching_genesis_inputs files;
  if requires_explicit_allow (cfg_network config)
  then verify_pinned_genesis files config genesis_config genesis else
  expected ← deterministic;
  if negb (bool_decide (block_hash genesis = block_hash expected))
  then Err (ConfigMismatch ("genesis hash mismatch: expected " ++ hash_to_hex (block_hash expected)
         ++ ", got " ++ hash_to_hex (block_hash genesis))%string)
  else Ok ().

(** One mining of [deterministic_genesis_from_config], with fuel for its loops.
    [search] is what the native search answered in it for each range of nonces: its
    threads race for the first solution, so another mining has a search, and a
    result, of its own. *)
Definition deterministic_genesis_from_config
    (search : Z → bytes → bytes → Z → Z → search_result) (fuel : nat) (files : ConfigFiles)
    : option (NodeResult Block) :=
  match load_matching_genesis_inputs files with
  | Err e => Some (Err e)
  | Ok (network_config, genesis_config) =>
      match resolve_genesis_recipient network_config genesis_config with
      | Err e => Some (Err e)
      | Ok recipient =>
          map_err Core <$> genesis_with_timestamp_for_network search fuel (cfg_network network_config)
            recipient (gc_timestamp genesis_config) (gc_difficulty_leading_zero_bits genesis_config)
      end
  end.

End genesis_checks.

(** * Theorems *)

(** What a validated configuration is: the launch parameters of its network, a
    usable peer-to-peer and pool setup, a difficulty within the network's bounds
    and, on the mainnet candidate, the explicit opt-in with an approval file. *)
Record config_ok (c : NetworkConfig) : Prop := {
  cok_network_id : cfg_network_id c = network_id (cfg_network c);
  cok_human_name : cfg_human_name c = human_name (cfg_network c);
  cok_status_label : cfg_status_label c = status_label (cfg_network c);
  cok_block_time : cfg_block_time_seconds c = BLOCK_TIME_SECONDS;
  cok_ticker : cfg_ticker c = TICKER;
  cok_prefix : cfg_address_prefix c = address_prefix (cfg_network c);
  cok_supply : cfg_max_supply c = uint_to_string MAX_SUPPLY_VIRE;
  cok_halving : cfg_halving_interval c = HALVING_INTERVAL_BLOCKS;
  cok_reward : cfg_initial_block_reward c = INITIAL_BLOCK_REWARD_VIRE;
  cok_rpc : cfg_default_rpc_port c = default_rpc_port (cfg_network c);
  cok_p2p : cfg_default_p2p_port c = default_p2p_port (cfg_network c);
  cok_bind : str_trim (cfg_p2p_bind_host c) ≠ ""%string;
  cok_listen : cfg_p2p_listen_port c ≠ Some 0;
  cok_peers : cfg_max_peers c ≠ 0 ∧ cfg_max_peers c <= 4096;
  cok_seeds : Forall (λ s, str_trim s ≠ ""%string) (cfg_seed_nodes c);
  cok_pool : cfg_max_mempool_transactions c ≠ 0;
  cok_genesis_path : cfg_genesis_config_path c = genesis_config_path (cfg_network c);
  cok_review_name : opt_Forall (λ s, str_trim s ≠ ""%string) (cfg_genesis_review_human_name c);
  cok_approval_path : opt_Forall (λ s, str_trim s ≠ ""%string) (cfg_genesis_approval_path c);
  cok_magic : cfg_chain_magic_hex c = chain_magic_hex (cfg_network c);
  cok_allow : cfg_network c = MainnetCandidate →
    cfg_allow_mainnet_candidate c = true ∧ is_Some (cfg_genesis_approval_path c);
  cok_not_low : cfg_network c ≠ Devnet → 8 < cfg_difficulty_leading_zero_bits c;
  cok_difficulty : minimum_difficulty_leading_zero_bits (cfg_network c)
    <= cfg_difficulty_leading_zero_bits c <= maximum_difficulty_leading_zero_bits (cfg_network c);
}.

Lemma config_mismatch_if_Ok {A} (b : bool) f v (r : NodeResult A) a :
  (if negb b then config_mismatch f v else r) = Ok a ↔ b = true ∧ r = Ok a.
Proof. destruct b; simpl; naive_solver. Qed.

Lemma str_is_empty_false_iff s : str_is_empty s = false ↔ s ≠ ""%string.
Proof. unfold str_is_empty. by rewrite bool_decide_eq_false. Qed.

Lemma opt_blank_iff (o : option string) :
  match o with Some v => str_is_empty (str_trim v) | None => false end = false ↔
  opt_Forall (λ s, str_trim s ≠ ""%string) o.
Proof. destruct o; simpl; [apply str_is_empty_false_iff | done]. Qed.

Lemma NetworkConfig_validate_rules c : NetworkConfig_validate c = Ok () ↔ config_ok c.
Proof.
  unfold NetworkConfig_validate. cbv zeta.
  rewrite !config_mismatch_if_Ok, !if_Err_Ok, !config_mismatch_if_Ok, !if_Err_Ok, config_mismatch_if_Ok,
    !if_Err_Ok.
  rewrite !bool_decide_eq_true, !Z.eqb_eq, bool_decide_eq_false, !Z.eqb_neq, !orb_false_iff, !andb_false_iff,
    !negb_false_iff, !Z.gtb_ltb, !Z.ltb_ge, !Z.leb_gt, Z.eqb_neq, existsb_false_Forall, !opt_blank_iff,
    !str_is_empty_false_iff.
  unfold requires_explicit_allow, allows_low_difficulty_defaults.
  rewrite !bool_decide_eq_false, bool_decide_eq_true.
  cbn [launch_protocol_parameters pp_network_id pp_network_name pp_status_label pp_block_time_seconds pp_ticker
    pp_address_prefix pp_max_supply_vire pp_halving_interval_blocks pp_initial_block_reward_vire
    pp_default_rpc_port pp_default_p2p_port].
  assert (Forall (λ x, str_is_empty (str_trim x) = false) (cfg_seed_nodes c) ↔
    Forall (λ s, str_trim s ≠ ""%string) (cfg_seed_nodes c)) as ->
    by (by apply Forall_iff; intros s; apply str_is_empty_false_iff).
  assert (is_none (cfg_genesis_approval_path c) = false ↔ is_Some (cfg_genesis_approval_path c)) as ->.
  { destruct (cfg_genesis_approval_path c); simpl; split; intros; eauto; [done|]. by destruct H. }
  split.
  - intros Hc. destruct_and! Hc. split; try done; try lia; try (split; [done|lia]).
    + intros Hn. split; tauto.
    + intros Hn. destruct (decide (cfg_network c = Devnet)); [done|]. tauto.
  - intros []. split_and!; try done; try lia; try apply cok_peers0.
    + destruct (decide (cfg_network c = MainnetCandidate)); [right; by apply cok_allow0 | by left].
    + destruct (decide (cfg_network c = MainnetCandidate)); [right; by apply cok_allow0 | by left].
    + destruct (decide (cfg_network c = Devnet)); [by left | right; by apply cok_not_low0].
Qed.

(** Configuration validation accepts exactly the configurations that match the
    launch parameters of their network, with the explicit opt-in and approval
    file on the mainnet candidate. *)
Theorem NetworkConfig_validate_iff c : NetworkConfig_validate c = Ok () ↔ config_ok c.
Proof. apply NetworkConfig_validate_rules. Qed.

Lemma valid_hash_canonical s : valid_hash s = true → str_to_ascii_lowercase (str_trim s) = s.
Proof.
  unfold valid_hash. intros [_ Hall]%andb_true_iff.
  assert (Forall (λ b, (48 <= byte_Z b <= 57) ∨ (97 <= byte_Z b <= 102)) (str_bytes s)) as Hf.
  { apply Forall_forall. intros b Hb. rewrite forallb_forall in Hall.
    apply list_elem_of_In, Hall in Hb. rewrite orb_true_iff, !andb_true_iff, !Z.leb_le in Hb. lia. }
  rewrite str_trim_graphic.
  - unfold str_to_ascii_lowercase. rewrite <- (str_of_bytes_bytes s) at 2. f_equal.
    rewrite <- (list_fmap_id (str_bytes s)) at 2. apply list_fmap_ext. intros i b Hb.
    rewrite Forall_forall in Hf. specialize (Hf b (list_elem_of_lookup_2 _ _ _ Hb)).
    unfold byte_lower, id. destruct ((65 <=? byte_Z b) && (byte_Z b <=? 90)) eqn:E; [|done].
    rewrite andb_true_iff, !Z.leb_le in E. lia.
  - eapply Forall_impl; [exact Hf|]. intros b Hb. unfold graphic. cbn beta in Hb.
    rewrite andb_true_iff, !Z.leb_le. lia.
Qed.

Section pinned.
Context `{PrimitivesOk}.

(** What an accepted genesis of an approval-gated network is. *)
Record pinned_genesis (files : ConfigFiles) (config : NetworkConfig) (gc : GenesisConfig) (g : Block) : Prop := {
  pg_hash : ∃ approval, file_approval files = Ok approval ∧
    hash_to_hex (block_hash g) = ga_deterministic_genesis_hash approval ∧
    ga_network_id approval = cfg_network_id config;
  pg_height : bh_height (header g) = 0;
  pg_network : bh_network_id (header g) = cfg_network_id config;
  pg_timestamp : bh_timestamp (header g) = gc_timestamp gc;
  pg_difficulty : bh_difficulty (header g) = gc_difficulty_leading_zero_bits gc;
  pg_coinbase : ∃ cb recipient, head (transactions g) = Some cb ∧ is_coinbase cb = true ∧
    resolve_genesis_recipient config gc = Ok recipient ∧ tx_to cb = recipient;
}.

(** The genesis pin: on a network that requires explicit approval, a stored
    chain is only accepted when its first block is the approved one: its hash
    text is exactly the hash of the approval record, and its height, network,
    time, difficulty and coinbase recipient are the configured ones.  The
    deterministic re-mining is never consulted. *)
Theorem verify_existing_genesis_pins files deterministic blocks config gc :
  load_matching_genesis_inputs files = Ok (config, gc) → requires_explicit_allow (cfg_network config) = true →
  verify_existing_genesis files deterministic blocks = Ok () →
  ∃ g rest, blocks = g :: rest ∧ pinned_genesis files config gc g.
Proof.
  intros Hin Hreq Hv. unfold verify_existing_genesis in Hv.
  destruct blocks as [|g rest]; [done|]. cbn [head ok_or mbind result_bind] in Hv.
  rewrite Hin in Hv. cbn [mbind result_bind] in Hv. rewrite Hreq in Hv.
  exists g, rest. split; [done|]. unfold verify_pinned_genesis, load_approval in Hv.
  apply bind_Ok in Hv as (approval & (path & _ & Happ)%bind_Ok & Hv).
  apply bind_unit_Ok in Hv as [Hpin Hv]. apply bind_Ok in Hv as (recipient & Hrec & Hv). cbv zeta in Hv.
  rewrite if_Err_Ok, if_negb_Err_Ok, bool_decide_eq_true, !orb_false_iff, !negb_false_iff, !Z.eqb_eq,
    bool_decide_eq_true in Hv.
  destruct Hv as (((((Hh & Hn) & Ht) & Hd) & Hcb) & Hhash & _).
  unfold validate_pinned_genesis_approval in Hpin.
  rewrite !config_mismatch_if_Ok, if_negb_Err_Ok, !if_Err_Ok, !orb_false_iff, !negb_false_iff,
    !bool_decide_eq_true in Hpin.
  destruct Hpin as (_ & _ & Hnet & _ & [Hvalid _] & _).
  split; try done.
  - exists approval. split_and!; [done | | done]. by rewrite valid_hash_canonical in Hhash.
  - destruct (transactions g) as [|cb txs]; [done|]. cbn [head] in *.
    apply andb_true_iff in Hcb as [Hcb Hto]. apply bool_decide_eq_true in Hto. by exists cb, recipient.
Qed.

End pinned.
