(* ===== verification/GenesisApproval.v ===== *)
(** The genesis governance of [vireon-node/src/devnet.rs]: the review manifest of
    the configured genesis, its approval record, and the gate that networks with
    explicit approval pass before their chain is loaded.  The JSON text of the
    hashed payload is a parameter; [deterministic] is the outcome of
    [genesis_with_timestamp_for_network] on the configured inputs
    ([NodeConfig.deterministic_genesis_from_config]), which mines with a search in
    which several threads race: each place that mines takes its own outcome. *)

From S2P Require Import Prelude RustStd Interfaces Crypto Errors Network Amount Signing Address Transaction Block Pow Consensus Genesis NodeConfig.

(** [struct GenesisReviewPayload] *)
Record GenesisReviewPayload := {
  rp_review_standard_id : string;
  rp_network_id : string;
  rp_human_name : string;
  rp_status_label : string;
  rp_address_prefix : string;
  rp_block_time_seconds : Z;
  rp_difficulty_leading_zero_bits : Z;
  rp_chain_magic_hex : string;
  rp_genesis_timestamp : Z;
  rp_recipient_strategy : string;
  rp_recipient_address : option string;
  rp_resolved_recipient_address : string;
  rp_deterministic_genesis_hash : string;
}.

(** [struct GenesisReviewManifest]: the payload's fields and the review hash. *)
Record GenesisReviewManifest := { rm_payload : GenesisReviewPayload; rm_review_hash : string }.

#[global] Instance GenesisReviewPayload_eq_dec : EqDecision GenesisReviewPayload.
Proof. solve_decision. Defined.
#[global] Instance GenesisReviewManifest_eq_dec : EqDecision GenesisReviewManifest.
Proof. solve_decision. Defined.

(** [struct GenesisApprovalStatus] *)
Record GenesisApprovalStatus := {
  gs_network_id : string;
  gs_human_name : string;
  gs_status_label : string;
  gs_approval_required : bool;
  gs_approval_path : option string;
  gs_approved : bool;
  gs_deterministic_genesis_hash : string;
  gs_approved_genesis_hash : option string;
  gs_review_hash : string;
  gs_approved_review_hash : option string;
  gs_approved_by : option string;
}.

Section approval.
Context `{Primitives}.
(** [serde_json::to_string] of the payload. *)
Context (payload_json : GenesisReviewPayload → NodeResult string).

Definition genesis_review_manifest (files : ConfigFiles) (deterministic : NodeResult Block)
    : NodeResult GenesisReviewManifest :=
  '(network_config, genesis_config) ← load_matching_genesis_inputs files;
  recipient ← resolve_genesis_recipient network_config genesis_config;
  genesis ← deterministic;
  let payload := {|
    rp_review_standard_id := GENESIS_REVIEW_STANDARD_ID;
    rp_network_id := cfg_network_id network_config;
    rp_human_name := review_human_name network_config;
    rp_status_label := cfg_status_label network_config;
    rp_address_prefix := cfg_address_prefix network_config;
    rp_block_time_seconds := cfg_block_time_seconds network_config;
    rp_difficulty_leading_zero_bits := gc_difficulty_leading_zero_bits genesis_config;
    rp_chain_magic_hex := cfg_chain_magic_hex network_config;
    rp_genesis_timestamp := gc_timestamp genesis_config;
    rp_recipient_strategy := gc_recipient_strategy genesis_config;
    rp_recipient_address := gc_recipient_address genesis_config;
    rp_resolved_recipient_address := recipient;
    rp_deterministic_genesis_hash := hash_to_hex (block_hash genesis) |} in
  text ← payload_json payload;
  Ok {| rm_payload := payload; rm_review_hash := hash_to_hex (blake3_hash (str_bytes text)) |}.

Definition validate_genesis_approval_record (m : GenesisReviewManifest) (approval : GenesisApprovalRecord)
    : NodeResult () :=
  let p := rm_payload m in
  if negb (bool_decide (ga_approval_standard_id approval = GENESIS_APPROVAL_STANDARD_ID))
  then config_mismatch "genesis approval standard" GENESIS_APPROVAL_STANDARD_ID else
  if negb (bool_decide (ga_review_standard_id approval = rp_review_standard_id p))
  then config_mismatch "genesis approval review standard" (rp_review_standard_id p) else
  if negb (bool_decide (ga_network_id approval = rp_network_id p))
  then Err (NetworkMismatch (rp_network_id p) (ga_network_id approval)) else
  if negb (bool_decide (ga_deterministic_genesis_hash approval = rp_deterministic_genesis_hash p))
  then Err (ConfigMismatch ("approved genesis hash mismatch: expected " ++ rp_deterministic_genesis_hash p
         ++ ", got " ++ ga_deterministic_genesis_hash approval)%string) else
  if negb (bool_decide (ga_approved_review_hash approval = rm_review_hash m))
  then Err (ConfigMismatch ("approved genesis review hash mismatch: expected " ++ rm_review_hash m
         ++ ", got " ++ ga_approved_review_hash approval)%string) else
  if str_is_empty (str_trim (ga_approved_by approval))
  then Err (ConfigMismatch "genesis approval approved_by cannot be empty") else Ok ().

Definition verified_mainnet_genesis_manifest (files : ConfigFiles) (deterministic : NodeResult Block)
    : NodeResult (option (GenesisReviewManifest * GenesisApprovalRecord)) :=
  config ← load_network_config (file_network files);
  if negb (requires_explicit_allow (cfg_network config)) then Ok None else
  m ← genesis_review_manifest files deterministic;
  approval ← load_approval files config;
  _ ← validate_genesis_approval_record m approval;
  Ok (Some (m, approval)).

(** [genesis_approval_status]; [shown] is the resolved approval path. *)
Definition genesis_approval_status (files : ConfigFiles) (deterministic : NodeResult Block) (shown : string)
    : NodeResult GenesisApprovalStatus :=
  config ← load_network_config (file_network files);
  m ← genesis_review_manifest files deterministic;
  let p := rm_payload m in
  if negb (requires_explicit_allow (cfg_network config)) then
    Ok {| gs_network_id := rp_network_id p; gs_human_name := rp_human_name p;
          gs_status_label := rp_status_label p; gs_approval_required := false;
          gs_approval_path := (λ _, shown) <$> cfg_genesis_approval_path config; gs_approved := false;
          gs_deterministic_genesis_hash := rp_deterministic_genesis_hash p;
          gs_approved_genesis_hash := None; gs_review_hash := rm_review_hash m;
          gs_approved_review_hash := None; gs_approved_by := None |}
  else
    approval ← load_approval files config;
    _ ← validate_genesis_approval_record m approval;
    Ok {| gs_network_id := rp_network_id p; gs_human_name := rp_human_name p;
          gs_status_label := rp_status_label p; gs_approval_required := true;
          gs_approval_path := Some shown; gs_approved := true;
          gs_deterministic_genesis_hash := rp_deterministic_genesis_hash p;
          gs_approved_genesis_hash := Some (ga_deterministic_genesis_hash approval);
          gs_review_hash := rm_review_hash m;
          gs_approved_review_hash := Some (ga_approved_review_hash approval);
          gs_approved_by := Some (ga_approved_by approval) |}.

Definition pinned_genesis_approval_status (files : ConfigFiles) (deterministic : NodeResult Block)
    (shown : string) : NodeResult GenesisApprovalStatus :=
  '(config, genesis_config) ← load_matching_genesis_inputs files;
  if negb (requires_explicit_allow (cfg_network config))
  then genesis_approval_status files deterministic shown else
  _ ← resolve_genesis_recipient config genesis_config;
  approval ← load_approval files config;
  _ ← validate_pinned_genesis_approval config approval;
  Ok {| gs_network_id := cfg_network_id config; gs_human_name := cfg_human_name config;
        gs_status_label := cfg_status_label config; gs_approval_required := true;
        gs_approval_path := Some shown; gs_approved := true;
        gs_deterministic_genesis_hash := ga_deterministic_genesis_hash approval;
        gs_approved_genesis_hash := Some (ga_deterministic_genesis_hash approval);
        gs_review_hash := ga_approved_review_hash approval;
        gs_approved_review_hash := Some (ga_approved_review_hash approval);
        gs_approved_by := Some (ga_approved_by approval) |}.

Definition set_approval (record : GenesisApprovalRecord) (files : ConfigFiles) : ConfigFiles :=
  {| file_network := file_network files; file_genesis := file_genesis files; file_approval := Ok record |}.

(** [approve_genesis] without an explicit output path: the record goes to the
    configured approval file, and its writing succeeds.  [review] is the parsed
    review file; the genesis is mined for the manifest and mined [again] for the
    status that is returned. *)
Definition approve_genesis (now : Z) (deterministic again : NodeResult Block) (shown : string)
    (review : NodeResult GenesisReviewManifest) (approved_by : string) (approval_notes : option string)
    : state_result ConfigFiles NodeError GenesisApprovalStatus :=
  let approved_by := str_trim approved_by in
  if str_is_empty approved_by then sr_lift (Err (Input "approved_by cannot be empty")) else
  files ← sr_get;
  m ← sr_lift (genesis_review_manifest files deterministic);
  review_manifest ← sr_lift review;
  if negb (bool_decide (review_manifest = m))
  then sr_lift (Err (ConfigMismatch "genesis review file does not match the active deterministic genesis inputs"))
  else
  network_config ← sr_lift (load_network_config (file_network files));
  _ ← sr_lift (ok_or (ConfigMismatch "mainnet candidate requires genesis_approval_path")
        (cfg_genesis_approval_path network_config));
  let p := rm_payload m in
  _ ← sr_modify (set_approval {|
        ga_approval_standard_id := GENESIS_APPROVAL_STANDARD_ID;
        ga_review_standard_id := rp_review_standard_id p;
        ga_network_id := rp_network_id p;
        ga_human_name := rp_human_name p;
        ga_status_label := rp_status_label p;
        ga_deterministic_genesis_hash := rp_deterministic_genesis_hash p;
        ga_approved_review_hash := rm_review_hash m;
        ga_approved_by := approved_by;
        ga_approval_notes := approval_notes;
        ga_approved_at_unix_seconds := now |});
  files ← sr_get;
  sr_lift (genesis_approval_status files again shown).

End approval.

(** * Theory *)

Section theory.
Context `{PrimitivesOk}.
Context (payload_json : GenesisReviewPayload → NodeResult string).

Abbreviation manifest_of := (genesis_review_manifest payload_json).

(** The facts a manifest records about its inputs. *)
Record manifest_facts (config : NetworkConfig) (gc : GenesisConfig) (g : Block) (m : GenesisReviewManifest)
    : Prop := {
  mf_standard : rp_review_standard_id (rm_payload m) = GENESIS_REVIEW_STANDARD_ID;
  mf_network : rp_network_id (rm_payload m) = cfg_network_id config;
  mf_name : rp_human_name (rm_payload m) = review_human_name config;
  mf_status : rp_status_label (rm_payload m) = cfg_status_label config;
  mf_hash : rp_deterministic_genesis_hash (rm_payload m) = hash_to_hex (block_hash g);
  mf_recipient : resolve_genesis_recipient config gc = Ok (rp_resolved_recipient_address (rm_payload m));
  mf_review : ∃ text, payload_json (rm_payload m) = Ok text ∧
    rm_review_hash m = hash_to_hex (blake3_hash (str_bytes text));
}.

Lemma genesis_review_manifest_Ok files deterministic m :
  manifest_of files deterministic = Ok m →
  ∃ config gc g, load_matching_genesis_inputs files = Ok (config, gc) ∧ deterministic = Ok g ∧
    manifest_facts config gc g m.
Proof.
  intros ([config gc] & Hin & Hm)%bind_Ok. apply bind_Ok in Hm as (recipient & Hrec & Hm).
  apply bind_Ok in Hm as (g & Hg & Hm). apply bind_Ok in Hm as (text & Htext & [= <-]).
  exists config, gc, g. split_and!; [done|done|]. split; try done. by exists text.
Qed.

Lemma validate_genesis_approval_Ok m approval :
  validate_genesis_approval_record m approval = Ok () ↔
  ga_approval_standard_id approval = GENESIS_APPROVAL_STANDARD_ID ∧
  ga_review_standard_id approval = rp_review_standard_id (rm_payload m) ∧
  ga_network_id approval = rp_network_id (rm_payload m) ∧
  ga_deterministic_genesis_hash approval = rp_deterministic_genesis_hash (rm_payload m) ∧
  ga_approved_review_hash approval = rm_review_hash m ∧ str_trim (ga_approved_by approval) ≠ ""%string.
Proof.
  unfold validate_genesis_approval_record. cbv zeta.
  rewrite !config_mismatch_if_Ok, !if_negb_Err_Ok, if_Err_Ok, !bool_decide_eq_true, str_is_empty_false_iff. tauto.
Qed.

Lemma load_matching_network files config gc :
  load_matching_genesis_inputs files = Ok (config, gc) → load_network_config (file_network files) = Ok config ∧
  GenesisConfig_validate gc = Ok () ∧ gc_network gc = cfg_network config ∧
  gc_difficulty_leading_zero_bits gc = cfg_difficulty_leading_zero_bits config.
Proof.
  unfold load_matching_genesis_inputs. intros (c & Hc & Hx)%bind_Ok. apply bind_Ok in Hx as (g & Hg & Hx).
  rewrite !if_negb_Err_Ok, bool_decide_eq_true, Z.eqb_eq in Hx. destruct Hx as (? & ? & [= -> ->]).
  unfold load_genesis_config in Hg. apply bind_Ok in Hg as (g' & _ & Hg). apply bind_unit_Ok in Hg as [? [= ->]].
  done.
Qed.

Lemma load_network_config_ok parsed config :
  load_network_config parsed = Ok config → parsed = Ok config ∧ NetworkConfig_validate config = Ok ().
Proof. intros (c & -> & Hv)%bind_Ok. by apply bind_unit_Ok in Hv as [? [= ->]]. Qed.

Lemma hash_to_hex_valid (h : Hash) : hash_wf h → valid_hash (hash_to_hex h) = true.
Proof.
  unfold hash_wf. intros Hlen. unfold valid_hash, hash_to_hex, str_len.
  rewrite str_bytes_of_bytes, length_hex_bytes, Hlen. cbn [Nat.mul]. apply andb_true_iff. split; [done|].
  clear Hlen. induction h as [|b h IH]; [done|]. cbn [hex_bytes forallb]. rewrite IH.
  destruct (nibbles_of_byte b) as (H1 & H2 & _). by rewrite !hex_char_lower.
Qed.

(** What an approval of the genesis [g] with the manifest [m] opens, on a network that
    requires explicit approval: the record on file names [g]; the gate before loading
    passes exactly when mining the genesis again gives the hash of [g]; a store that
    starts with [g] is accepted and one that starts with a block of another hash is
    refused, whatever is mined; and the pinned status reports the approval. *)
Record approved_start (files : ConfigFiles) (g : Block) (m : GenesisReviewManifest) : Prop := {
  as_record : ∃ approval, file_approval files = Ok approval ∧
    ga_deterministic_genesis_hash approval = hash_to_hex (block_hash g) ∧
    ∀ g', block_hash g' = block_hash g →
      verified_mainnet_genesis_manifest payload_json files (Ok g') = Ok (Some (m, approval));
  as_gate mined : is_ok (verified_mainnet_genesis_manifest payload_json files mined) = true →
    ∃ g', mined = Ok g' ∧ block_hash g' = block_hash g;
  as_store rest mined : verify_existing_genesis files mined (g :: rest) = Ok ();
  as_other b rest mined : block_hash b ≠ block_hash g → is_err (verify_existing_genesis files mined (b :: rest)) = true;
  as_status shown mined : is_ok (pinned_genesis_approval_status payload_json files mined shown) = true;
}.

Lemma manifest_same_hash files g g' :
  block_hash g' = block_hash g → manifest_of files (Ok g') = manifest_of files (Ok g).
Proof.
  intros Hh. unfold genesis_review_manifest. destruct (load_matching_genesis_inputs files) as [[c gc]|]; [|done].
  cbn [mbind result_bind]. destruct (resolve_genesis_recipient c gc); [|done]. cbn [mbind result_bind]. by rewrite Hh.
Qed.

Lemma verify_pinned_genesis_Ok files config gc g approval recipient :
  load_approval files config = Ok approval → validate_pinned_genesis_approval config approval = Ok () →
  resolve_genesis_recipient config gc = Ok recipient →
  ga_deterministic_genesis_hash approval = hash_to_hex (block_hash g) →
  bh_height (header g) = 0 → bh_network_id (header g) = cfg_network_id config →
  bh_timestamp (header g) = gc_timestamp gc → bh_difficulty (header g) = gc_difficulty_leading_zero_bits gc →
  (∃ cb, transactions g = [cb] ∧ is_coinbase cb = true ∧ tx_to cb = recipient) →
  verify_pinned_genesis files config gc g = Ok ().
Proof.
  intros Ha Hv Hr Hh H1 H2 H3 H4 (cb & Htx & Hcb & Hto). unfold verify_pinned_genesis.
  rewrite Ha. cbn [mbind result_bind]. rewrite Hv. cbn [mbind result_bind]. rewrite Hr. cbn [mbind result_bind].
  cbv zeta. rewrite Htx. cbn [head]. rewrite Hcb, H1, H2, H3, H4, !Z.eqb_refl, !bool_decide_eq_true_2 by done.
  cbn [andb orb negb]. rewrite Hh, valid_hash_canonical by apply hash_to_hex_valid, block_hash_wf.
  by rewrite bool_decide_eq_true_2.
Qed.

Lemma deterministic_fields search fuel files config gc recipient g :
  load_matching_genesis_inputs files = Ok (config, gc) → resolve_genesis_recipient config gc = Ok recipient →
  deterministic_genesis_from_config search fuel files = Some (Ok g) →
  bh_height (header g) = 0 ∧ bh_network_id (header g) = cfg_network_id config ∧
  bh_timestamp (header g) = gc_timestamp gc ∧ bh_difficulty (header g) = gc_difficulty_leading_zero_bits gc ∧
  ∃ cb, transactions g = [cb] ∧ is_coinbase cb = true ∧ tx_to cb = recipient.
Proof.
  intros Hin Hr. unfold deterministic_genesis_from_config. rewrite Hin, Hr.
  destruct (genesis_with_timestamp_for_network _ _ _ _ _ _) as [[b|e]|] eqn:E; [|done|done].
  intros [= ->]. apply genesis_fields in E as (? & Hn & ? & ? & ?). split_and!; try done. rewrite Hn.
  apply load_matching_network in Hin as (Hc & _). apply load_network_config_ok in Hc as [_ Hc].
  by apply NetworkConfig_validate_rules, cok_network_id in Hc.
Qed.

(** The record the approval of [m] writes. *)
Definition approval_of (now : Z) (m : GenesisReviewManifest) (approved_by : string) (notes : option string)
    : GenesisApprovalRecord := {|
  ga_approval_standard_id := GENESIS_APPROVAL_STANDARD_ID;
  ga_review_standard_id := rp_review_standard_id (rm_payload m);
  ga_network_id := rp_network_id (rm_payload m);
  ga_human_name := rp_human_name (rm_payload m);
  ga_status_label := rp_status_label (rm_payload m);
  ga_deterministic_genesis_hash := rp_deterministic_genesis_hash (rm_payload m);
  ga_approved_review_hash := rm_review_hash m;
  ga_approved_by := str_trim approved_by;
  ga_approval_notes := notes;
  ga_approved_at_unix_seconds := now |}.

Lemma approval_of_passes now config gc g m approved_by notes :
  manifest_facts config gc g m → str_trim approved_by ≠ ""%string →
  validate_genesis_approval_record m (approval_of now m approved_by notes) = Ok () ∧
  validate_pinned_genesis_approval config (approval_of now m approved_by notes) = Ok ().
Proof.
  intros Hm Hby. assert (str_trim (str_trim approved_by) ≠ ""%string) as Hby' by by rewrite str_trim_idemp.
  split; [by apply validate_genesis_approval_Ok|].
  unfold validate_pinned_genesis_approval. destruct Hm as [H1 H2 H3 H4 H5 H6 (text & _ & H7)].
  cbn [approval_of ga_approval_standard_id ga_review_standard_id ga_network_id ga_human_name ga_status_label
    ga_deterministic_genesis_hash ga_approved_review_hash ga_approved_by].
  rewrite H1, H2, H3, H4, H5, H7, !bool_decide_eq_true_2 by done.
  rewrite !hash_to_hex_valid by (apply block_hash_wf || apply blake3_hash_wf). cbn [negb orb].
  by rewrite (proj2 (str_is_empty_false_iff _) Hby').
Qed.

Lemma set_approval_inputs r files :
  load_matching_genesis_inputs (set_approval r files) = load_matching_genesis_inputs files.
Proof. done. Qed.

(** Only the approved genesis passes the pinned check. *)
Lemma pinned_hash files config gc approval b :
  load_approval files config = Ok approval → verify_pinned_genesis files config gc b = Ok () →
  str_to_ascii_lowercase (str_trim (ga_deterministic_genesis_hash approval)) = hash_to_hex (block_hash b).
Proof.
  intros Ha. unfold verify_pinned_genesis. rewrite Ha. cbn [mbind result_bind]. intros [_ Hx]%bind_unit_Ok.
  apply bind_Ok in Hx as (recipient & _ & Hx). cbv zeta in Hx. rewrite if_Err_Ok, if_negb_Err_Ok, bool_decide_eq_true in Hx.
  symmetry. apply Hx.
Qed.

Lemma approved_start_intro search fuel now files config gc g m approved_by notes :
  load_matching_genesis_inputs files = Ok (config, gc) → cfg_network config = MainnetCandidate →
  deterministic_genesis_from_config search fuel files = Some (Ok g) →
  manifest_of files (Ok g) = Ok m → str_trim approved_by ≠ ""%string →
  approved_start (set_approval (approval_of now m approved_by notes) files) g m.
Proof.
  intros Hin Hn Hdet Hm Hby.
  pose proof (genesis_review_manifest_Ok _ _ _ Hm) as (config' & gc' & g' & Hin' & Hg' & Hf).
  rewrite Hin in Hin'. injection Hin' as <- <-. injection Hg' as <-.
  set (approval := approval_of now m approved_by notes).
  destruct (approval_of_passes now config gc g m approved_by notes Hf Hby) as [Hv Hp]. fold approval in Hv, Hp.
  assert (ga_deterministic_genesis_hash approval = hash_to_hex (block_hash g)) as Hh by apply Hf.
  pose proof (load_matching_network _ _ _ Hin) as (Hc & _).
  pose proof (load_network_config_ok _ _ Hc) as [_ Hcok%NetworkConfig_validate_rules].
  destruct (cok_allow _ Hcok Hn) as [_ [path Hpath]].
  set (files' := set_approval approval files).
  assert (load_approval files' config = Ok approval) as Hload by (unfold load_approval; by rewrite Hpath).
  assert (requires_explicit_allow (cfg_network config) = true) as Hreq by by rewrite Hn.
  assert (∀ mined, verified_mainnet_genesis_manifest payload_json files' mined =
    m' ← manifest_of files mined; _ ← validate_genesis_approval_record m' approval; Ok (Some (m', approval))) as Hgate.
  { intros mined. unfold verified_mainnet_genesis_manifest.
    change (file_network files') with (file_network files). rewrite Hc. cbn [mbind result_bind].
    rewrite Hreq. cbn [negb]. change (genesis_review_manifest payload_json files' mined) with (manifest_of files mined).
    destruct (manifest_of files mined); cbn [mbind result_bind]; [|done]. by rewrite Hload. }
  destruct (deterministic_fields search fuel files config gc _ g Hin (mf_recipient _ _ _ _ Hf) Hdet)
    as (H1 & H2 & H3 & H4 & Hcb).
  split.
  - exists approval. split_and!; [done | done |]. intros g' Hg'. rewrite Hgate, (manifest_same_hash _ g g' Hg'), Hm.
    cbn [mbind result_bind]. by rewrite Hv.
  - intros mined Hok. rewrite Hgate in Hok. destruct (manifest_of files mined) as [m'|] eqn:Hm'; [|done].
    cbn [mbind result_bind] in Hok. destruct (validate_genesis_approval_record m' approval) as [[]|] eqn:Hv'; [|done].
    apply validate_genesis_approval_Ok in Hv' as (_ & _ & _ & Hx & _).
    apply genesis_review_manifest_Ok in Hm' as (c2 & gc2 & g2 & _ & -> & Hf2). exists g2. split; [done|].
    rewrite Hh, (mf_hash _ _ _ _ Hf2) in Hx. by apply hash_to_hex_inj in Hx.
  - intros rest other. unfold verify_existing_genesis. cbn [head ok_or mbind result_bind].
    unfold files'. rewrite set_approval_inputs, Hin. cbn [mbind result_bind]. rewrite Hreq.
    by apply (verify_pinned_genesis_Ok _ _ _ _ _ _ Hload Hp (mf_recipient _ _ _ _ Hf)); [apply Hf|..].
  - intros b rest other Hne. destruct (verify_existing_genesis files' other (b :: rest)) as [[]|] eqn:E; [|done].
    unfold verify_existing_genesis in E. cbn [head ok_or mbind result_bind] in E.
    unfold files' in E. rewrite set_approval_inputs, Hin in E. cbn [mbind result_bind] in E. rewrite Hreq in E.
    apply (pinned_hash _ _ _ _ _ Hload) in E. rewrite Hh in E.
    rewrite (valid_hash_canonical _ (hash_to_hex_valid _ (block_hash_wf g))) in E.
    apply hash_to_hex_inj in E. congruence.
  - intros shown mined. unfold pinned_genesis_approval_status, files'. rewrite set_approval_inputs, Hin.
    cbn [mbind result_bind]. rewrite Hreq. cbn [negb]. rewrite (mf_recipient _ _ _ _ Hf). cbn [mbind result_bind].
    fold files'. rewrite Hload. cbn [mbind result_bind]. by rewrite Hp.
Qed.

(** C35. Genesis approval opens the network for the genesis it names: with a valid
    candidate configuration whose genesis can be mined, naming an approver and
    presenting the manifest under review records the approval.  From then on a store
    that starts with the mined genesis is accepted without mining it again and any
    other is refused; but the gate before loading, which mines the genesis again,
    passes exactly when that gives the approved hash, and so does the status the
    approval itself returns: an approval can be recorded and answered with an
    error.  Any other review file, and a blank approver, are refused and no
    approval is written. *)
Theorem approve_genesis_opens search fuel now shown files config gc again g m review approved_by notes :
  load_matching_genesis_inputs files = Ok (config, gc) → cfg_network config = MainnetCandidate →
  deterministic_genesis_from_config search fuel files = Some (Ok g) → manifest_of files (Ok g) = Ok m →
  let '(r, files') := approve_genesis payload_json now (Ok g) again shown review approved_by notes files in
  let granted := review = Ok m ∧ str_trim approved_by ≠ ""%string in
  let mined_the_same := ∃ g', again = Ok g' ∧ block_hash g' = block_hash g in
  (granted → approved_start files' g m ∧
     (mined_the_same → ∃ s, r = Ok s ∧ gs_approved s = true ∧
        gs_approved_genesis_hash s = Some (hash_to_hex (block_hash g))) ∧
     (¬ mined_the_same → is_err r = true)) ∧
  (¬ granted → is_err r = true ∧ files' = files).
Proof.
  intros Hin Hn Hdet Hm. unfold approve_genesis. cbv zeta.
  destruct (str_is_empty (str_trim approved_by)) eqn:Eby.
  { unfold str_is_empty in Eby. breflect. split; [by intros [_ ?] | done]. }
  apply str_is_empty_false_iff in Eby. rewrite sr_get_bind, sr_lift_bind, Hm, sr_lift_bind.
  destruct review as [m'|e]; [|split; [by intros [? _] | done]].
  case_bool_decide as Heq; cbn [negb]; [subst m' | split; [by intros [[= ?] _] | done]].
  pose proof (load_matching_network _ _ _ Hin) as (Hc & _).
  pose proof (load_network_config_ok _ _ Hc) as [_ Hcok%NetworkConfig_validate_rules].
  destruct (cok_allow _ Hcok Hn) as [_ [path Hpath]].
  rewrite sr_lift_bind, Hc, sr_lift_bind, Hpath. cbn [ok_or]. rewrite sr_modify_bind, sr_get_bind.
  change (set_approval _ files) with (set_approval (approval_of now m approved_by notes) files).
  pose proof (approved_start_intro search fuel now files config gc g m approved_by notes Hin Hn Hdet Hm Eby) as Hs.
  unfold sr_lift. split; [intros _; split; [done|] | by intros []].
  destruct Hs as [(approval & Hfile & Hah & Hsame) Hgate _ _ _].
  assert (file_approval (set_approval (approval_of now m approved_by notes) files) =
    Ok (approval_of now m approved_by notes)) as Hfile' by done. rewrite Hfile' in Hfile. injection Hfile as <-.
  assert (requires_explicit_allow (cfg_network config) = true) as Hreq by by rewrite Hn.
  set (files' := set_approval _ files) in *.
  assert (load_approval files' config = Ok (approval_of now m approved_by notes)) as Hload
    by (unfold load_approval; by rewrite Hpath).
  assert (∀ mined, verified_mainnet_genesis_manifest payload_json files' mined =
    m' ← genesis_review_manifest payload_json files' mined;
    _ ← validate_genesis_approval_record m' (approval_of now m approved_by notes);
    Ok (Some (m', approval_of now m approved_by notes))) as Hvm.
  { intros mined. unfold verified_mainnet_genesis_manifest. change (file_network files') with (file_network files).
    rewrite Hc. cbn [mbind result_bind]. rewrite Hreq. cbn [negb].
    destruct (genesis_review_manifest payload_json files' mined); cbn [mbind result_bind]; [|done]. by rewrite Hload. }
  unfold genesis_approval_status. change (file_network files') with (file_network files). rewrite Hc.
  cbn [mbind result_bind]. rewrite Hreq, Hload. cbn [negb]. split.
  - intros (g' & -> & Hg'). specialize (Hsame g' Hg'). rewrite Hvm in Hsame.
    apply bind_Ok in Hsame as (m' & Hm' & ([] & Hv & [= ->])%bind_Ok). rewrite Hm'. cbn [mbind result_bind]. rewrite Hv.
    cbn [mbind result_bind]. eexists. split; [done|]. split; [done|]. cbn. by rewrite <- Hah.
  - intros Hno. specialize (Hgate again). rewrite Hvm in Hgate.
    destruct (genesis_review_manifest payload_json files' again) as [m'|]; cbn [mbind result_bind] in Hgate |- *; [|done].
    destruct (validate_genesis_approval_record m' _) as [[]|]; cbn [mbind result_bind] in Hgate |- *; [|done].
    destruct Hno. by apply Hgate.
Qed.

End theory.
