(* ===== verification/Storage.v ===== *)
(** [vireon-node/src/storage.rs]: the SQLite block store.  The database is its
    two tables as lists of rows; a transaction that ends in an error is rolled
    back; the serialized block of a row is the block itself. *)

From S2P Require Import Prelude RustStd Interfaces Crypto Errors Network Amount Signing Address Transaction Block Pow NodeConfig.

(** Table [canonical_blocks]. *)
Record CanonicalRow := mkRow {
  row_height : Z;
  row_hash : Hash;
  row_previous_hash : Hash;
  row_network_id : string;
  row_block : Block;
}.

(** Table [orphaned_blocks]. *)
Record OrphanedRow := mkOrphan {
  or_hash : Hash;
  or_height : Z;
  or_previous_hash : Hash;
  or_network_id : string;
  or_block : Block;
  or_detached_at : Z;
  or_source_tip : string;
}.

Record ChainDb := mkDb { canonical : list CanonicalRow; orphaned : list OrphanedRow }.

Abbreviation db_op A := (state_result ChainDb NodeError A).

Definition set_canonical (rows : list CanonicalRow) (db : ChainDb) : ChainDb := mkDb rows (orphaned db).
Definition set_orphaned (rows : list OrphanedRow) (db : ChainDb) : ChainDb := mkDb (canonical db) rows.

(** [transaction_with_behavior] ... [commit]: dropped without a commit, it
    rolls back. *)
Definition db_transaction {A} (m : db_op A) : db_op A :=
  λ db, match m db with
        | (Ok a, db') => (Ok a, db')
        | (Err e, _) => (Err e, db)
        end.

Definition unique_violation : NodeError := Sqlite "UNIQUE constraint failed: canonical_blocks".

(** [i64::try_from] on a height. *)
Definition height_to_i64 (height : Z) : NodeResult Z :=
  if height <=? 2 ^ 63 - 1 then Ok height
  else Err (Input ("block height " ++ uint_to_string height ++ " exceeds SQLite range")%string).

Definition invalid_chain_file {A} (path : string) (line : Z) (message : string) : NodeResult A :=
  Err (InvalidChainFile path line message).

Section storage.
Context `{Primitives}.

(** The loop of [verify_chain_structure] from [line] on. *)
Fixpoint verify_links (path : string) (line : Z) (previous : Block) (blocks : list Block)
    : NodeResult () :=
  match blocks with
  | [] => Ok ()
  | b :: blocks' =>
      let expected_height := saturating_add 64 (bh_height (header previous)) 1 in
      if negb (bh_height (header b) =? expected_height)
      then invalid_chain_file path line ("non-contiguous height: expected "
             ++ uint_to_string expected_height ++ ", found " ++ uint_to_string (bh_height (header b)))%string else
      let expected_previous := hash_to_hex (block_hash previous) in
      let actual_previous := hash_to_hex (bh_previous_hash (header b)) in
      if negb (bool_decide (expected_previous = actual_previous))
      then invalid_chain_file path line ("broken previous_hash link: expected "
             ++ expected_previous ++ ", found " ++ actual_previous)%string else
      verify_links path (line + 1) b blocks'
  end.

Definition verify_chain_structure (path : string) (blocks : list Block) : NodeResult () :=
  match blocks with
  | [] => Ok ()
  | g :: rest =>
      if negb (bh_height (header g) =? 0)
      then invalid_chain_file path 1 ("genesis height must be 0, found "
             ++ uint_to_string (bh_height (header g)))%string
      else verify_links path 2 g rest
  end.

Definition verify_tip_extension (blocks : list Block) (b : Block) : NodeResult () :=
  match last blocks with
  | Some tip =>
      let expected_tip := hash_to_hex (block_hash tip) in
      let actual_previous := hash_to_hex (bh_previous_hash (header b)) in
      if negb (bool_decide (expected_tip = actual_previous))
      then Err (StaleChainTip expected_tip actual_previous) else
      let expected_height := saturating_add 64 (bh_height (header tip)) 1 in
      if negb (bh_height (header b) =? expected_height)
      then Err (Input ("block height " ++ uint_to_string (bh_height (header b))
             ++ " does not extend tip height " ++ uint_to_string (bh_height (header tip))
             ++ " (expected " ++ uint_to_string expected_height ++ ")")%string)
      else Ok ()
  | None =>
      if negb (bh_height (header b) =? 0)
      then Err (Input ("first chain block must be height 0, got "
             ++ uint_to_string (bh_height (header b)))%string)
      else Ok ()
  end.

(** The row [INSERT INTO canonical_blocks] writes. *)
Definition row_of (b : Block) : CanonicalRow :=
  mkRow (bh_height (header b)) (block_hash b) (bh_previous_hash (header b)) (bh_network_id (header b)) b.

(** [PRIMARY KEY] on the height and [UNIQUE] on the hash. *)
Definition row_conflict (b : Block) (r : CanonicalRow) : bool :=
  (row_height r =? bh_height (header b)) || bool_decide (row_hash r = block_hash b).

Definition insert_canonical_block (b : Block) : db_op () :=
  _ ← sr_lift (height_to_i64 (bh_height (header b)));
  db ← sr_get;
  if existsb (row_conflict b) (canonical db) then sr_lift (Err unique_violation) else
  sr_modify (set_canonical (canonical db ++ [row_of b])).

(** [INSERT ... ON CONFLICT(hash) DO UPDATE]: a known orphan only gets a new
    detachment time and source tip. *)
Definition upsert_orphan (r : OrphanedRow) (rows : list OrphanedRow) : list OrphanedRow :=
  if existsb (λ o, bool_decide (or_hash o = or_hash r)) rows
  then (λ o, if bool_decide (or_hash o = or_hash r)
             then mkOrphan (or_hash o) (or_height o) (or_previous_hash o) (or_network_id o) (or_block o)
                    (or_detached_at r) (or_source_tip r)
             else o) <$> rows
  else rows ++ [r].

Definition insert_orphaned_block (now : Z) (source_tip_hash : string) (b : Block) : db_op () :=
  height ← sr_lift (height_to_i64 (bh_height (header b)));
  db ← sr_get;
  sr_modify (set_orphaned (upsert_orphan
    (mkOrphan (block_hash b) height (bh_previous_hash (header b)) (bh_network_id (header b)) b now
       source_tip_hash) (orphaned db))).

(** One row of [load_blocks_from_connection]. *)
Definition check_row (path : string) (blocks : list Block) (r : CanonicalRow) : NodeResult (list Block) :=
  let b := row_block r in
  block_height ← height_to_i64 (bh_height (header b));
  if negb (block_height =? row_height r) || negb (bool_decide (row_hash r = block_hash b))
     || negb (bool_decide (row_previous_hash r = bh_previous_hash (header b)))
     || negb (bool_decide (row_network_id r = bh_network_id (header b)))
  then Err (InvalidChainDatabase path ("stored columns do not match serialized block at height "
         ++ uint_to_string (row_height r))%string)
  else Ok (blocks ++ [b]).

(** [SELECT ... ORDER BY height ASC], then the checks. *)
Definition load_blocks_from_connection (path : string) (allow_empty : bool) (db : ChainDb)
    : NodeResult (list Block) :=
  let rows := sort_by (λ a b, row_height a ?= row_height b) (canonical db) in
  blocks ← try_fold (check_row path) [] rows;
  if bool_decide (blocks = []) && negb allow_empty then Err (ChainNotInitialized path) else
  _ ← verify_chain_structure path blocks;
  Ok blocks.

Definition load_blocks (path : string) (db : ChainDb) : NodeResult (list Block) :=
  load_blocks_from_connection path false db.

Definition append_with_tip_link (path : string) (b : Block) : db_op () :=
  db_transaction (
    db ← sr_get;
    blocks ← sr_lift (load_blocks_from_connection path true db);
    _ ← sr_lift (verify_tip_extension blocks b);
    insert_canonical_block b).

Definition append_unchecked (b : Block) : db_op () := db_transaction (insert_canonical_block b).

Definition append_validated {R} (path : string) (candidate : Block)
    (validate : list Block → Block → NodeResult R) : db_op R :=
  db_transaction (
    db ← sr_get;
    blocks ← sr_lift (load_blocks_from_connection path false db);
    result ← sr_lift (validate blocks candidate);
    _ ← sr_lift (verify_tip_extension blocks candidate);
    _ ← insert_canonical_block candidate;
    mret result).

(** [replace_canonical_chain]: detached blocks go to the orphan table. *)
Definition replace_canonical_chain (now : Z) (current candidate : list Block) (source_tip_hash : string)
    : db_op () :=
  let candidate_hashes := block_hash <$> candidate in
  _ ← sr_each (λ b, if bool_decide (block_hash b ∈ candidate_hashes) then mret ()
                    else insert_orphaned_block now source_tip_hash b) current;
  _ ← sr_modify (set_canonical []);
  sr_each insert_canonical_block candidate.

Definition replace_validated {R} (now : Z) (path expected_tip : string) (candidate : list Block)
    (validate : list Block → list Block → NodeResult R) : db_op R :=
  db_transaction (
    db ← sr_get;
    current ← sr_lift (load_blocks_from_connection path false db);
    let actual_tip := match last current with
                      | Some b => hash_to_hex (block_hash b) | None => "none"%string end in
    if negb (bool_decide (actual_tip = expected_tip))
    then sr_lift (Err (StaleChainTip expected_tip actual_tip)) else
    result ← sr_lift (validate current candidate);
    _ ← replace_canonical_chain now current candidate expected_tip;
    mret result).

End storage.

(** * Theory *)

Section theory.
Context `{PrimitivesOk}.

(** Heights count from zero and every block names its predecessor. *)
Record linked (bs : list Block) : Prop := {
  ln_height i b : bs !! i = Some b → bh_height (header b) = Z.of_nat i;
  ln_parent i p b : bs !! i = Some p → bs !! S i = Some b → bh_previous_hash (header b) = block_hash p;
}.

Lemma linked_snoc bs b :
  linked bs → bh_height (header b) = Z.of_nat (length bs) →
  (∀ p, last bs = Some p → bh_previous_hash (header b) = block_hash p) → linked (bs ++ [b]).
Proof.
  intros [Hh Hp] Hb Hl. split.
  - intros i x [Hi|[Hge Hx%list_lookup_singleton_Some]]%lookup_app_Some; [by apply Hh|].
    destruct Hx as [? <-]. rewrite Hb. f_equal. lia.
  - intros i p x Hip [Hx|[Hge Hx%list_lookup_singleton_Some]]%lookup_app_Some.
    + apply (Hp i); [|done]. rewrite lookup_app_l in Hip; [done|]. apply lookup_lt_Some in Hx. lia.
    + destruct Hx as [Hi <-]. apply Hl. rewrite last_lookup. rewrite lookup_app_l in Hip by lia.
      rewrite <- Hip. f_equal. lia.
Qed.

Lemma linked_prefix bs b : linked (bs ++ [b]) → linked bs.
Proof.
  intros [Hh Hp]. split.
  - intros i x Hx. apply Hh. by apply lookup_app_l_Some.
  - intros i p x Hi Hx. apply (Hp i); by apply lookup_app_l_Some.
Qed.

Lemma linked_last bs b :
  linked (bs ++ [b]) → bh_height (header b) = Z.of_nat (length bs) ∧
  ∀ p, last bs = Some p → bh_previous_hash (header b) = block_hash p.
Proof.
  intros [Hh Hp]. split.
  - apply Hh. by rewrite list_lookup_middle.
  - intros p Hl. rewrite last_lookup in Hl. pose proof (lookup_lt_Some _ _ _ Hl).
    apply (Hp (pred (length bs))); [by apply lookup_app_l_Some|]. rewrite list_lookup_middle; [done|lia].
Qed.

Lemma verify_links_snoc path line g bs b :
  verify_links path line g (bs ++ [b]) = Ok () ↔
  verify_links path line g bs = Ok () ∧
  bh_height (header b) = saturating_add 64 (bh_height (header (default g (last bs)))) 1 ∧
  bh_previous_hash (header b) = block_hash (default g (last bs)).
Proof.
  revert line g. induction bs as [|x bs IH]; intros line g; cbn [app verify_links]; cbv zeta.
  - unfold invalid_chain_file. rewrite !if_negb_Err_Ok, Z.eqb_eq, bool_decide_eq_true. simpl. split.
    + intros (? & Heq%hash_to_hex_inj & _). by rewrite Heq.
    + intros (_ & ? & ->). done.
  - unfold invalid_chain_file. rewrite !if_negb_Err_Ok, IH, last_cons.
    assert (default x (last bs) = default g (Some (default x (last bs)))) as -> by done.
    destruct (last bs); simpl; tauto.
Qed.

(** [verify_chain_structure] accepts exactly the linked lists. *)
Lemma verify_chain_structure_Ok path bs :
  Z.of_nat (length bs) <= 2 ^ 63 → verify_chain_structure path bs = Ok () ↔ linked bs.
Proof.
  induction bs as [|b bs IH] using rev_ind; [intros _; split; [by intros _; split | done]|].
  rewrite length_app. simpl. intros Hlen. specialize (IH ltac:(lia)).
  assert (verify_chain_structure path (bs ++ [b]) = Ok () ↔
    verify_chain_structure path bs = Ok () ∧
    bh_height (header b) = match last bs with Some p => saturating_add 64 (bh_height (header p)) 1 | None => 0 end ∧
    (∀ p, last bs = Some p → bh_previous_hash (header b) = block_hash p)) as ->.
  { destruct bs as [|g rest]; cbn [app verify_chain_structure].
    - unfold invalid_chain_file. rewrite if_negb_Err_Ok, Z.eqb_eq. simpl. naive_solver.
    - unfold invalid_chain_file. rewrite !if_negb_Err_Ok, verify_links_snoc, last_cons.
      destruct (last rest); simpl; naive_solver. }
  rewrite IH. split.
  - intros (Hl & Hh & Hp). apply linked_snoc; [done | | done]. rewrite Hh.
    destruct (last bs) as [p|] eqn:E; [|by apply last_None in E as ->].
    rewrite last_lookup in E. rewrite (ln_height _ Hl _ _ E). apply lookup_lt_Some in E.
    unfold saturating_add, umax. lia.
  - intros Hl. pose proof (linked_prefix _ _ Hl) as Hl'. apply linked_last in Hl as [Hh Hp].
    split_and!; [done | | done]. rewrite Hh.
    destruct (last bs) as [p|] eqn:E; [|by apply last_None in E as ->].
    rewrite last_lookup in E. rewrite (ln_height _ Hl' _ _ E). apply lookup_lt_Some in E.
    unfold saturating_add, umax. lia.
Qed.

(** The database holds the block list [bs]. *)
Record stores (db : ChainDb) (bs : list Block) : Prop := {
  st_rows : canonical db = row_of <$> bs;
  st_linked : linked bs;
  st_length : Z.of_nat (length bs) <= 2 ^ 63;
  st_distinct : NoDup (block_hash <$> bs);
}.

Lemma height_to_i64_Ok h x : height_to_i64 h = Ok x ↔ x = h ∧ h < 2 ^ 63.
Proof.
  unfold height_to_i64. destruct (h <=? 2 ^ 63 - 1) eqn:E; breflect; [|split; [done|lia]].
  split; [intros [= <-]; split; [done|lia] | by intros [-> _]].
Qed.

Lemma check_rows path bs acc :
  Forall (λ b, bh_height (header b) < 2 ^ 63) bs →
  try_fold (check_row path) acc (row_of <$> bs) = Ok (acc ++ bs).
Proof.
  intros Hb. revert acc. induction Hb as [|b bs Hb Hbs IH]; intros acc; [by rewrite app_nil_r|].
  rewrite fmap_cons. apply try_fold_cons_Ok. exists (acc ++ [b]). split; [|by rewrite IH, <- app_assoc].
  unfold check_row. apply bind_Ok. exists (bh_height (header b)).
  split; [by apply height_to_i64_Ok|]. cbn [row_of row_block row_height row_hash row_previous_hash row_network_id].
  rewrite Z.eqb_refl, !bool_decide_eq_true_2 by done. done.
Qed.

Lemma stores_heights db bs : stores db bs → Forall (λ b, bh_height (header b) < 2 ^ 63) bs.
Proof.
  intros [_ Hl Hlen _]. apply Forall_lookup. intros i b Hb. rewrite (ln_height _ Hl _ _ Hb).
  apply lookup_lt_Some in Hb. lia.
Qed.

Lemma rows_sorted bs :
  linked bs → sort_by (λ a b, row_height a ?= row_height b) (row_of <$> bs) = row_of <$> bs.
Proof.
  intros Hl. apply sort_by_id. induction bs as [|b bs IH] using rev_ind; [constructor|].
  rewrite fmap_app. apply StronglySorted_app_2.
  - intros x y Hx Hy. apply list_elem_of_fmap in Hx as (c & -> & Hc).
    apply list_elem_of_singleton in Hy as ->. apply list_elem_of_lookup in Hc as [i Hi].
    unfold cmp_le. cbn [row_of row_height]. rewrite Z.compare_ngt_iff.
    rewrite (proj1 (linked_last _ _ Hl)), (ln_height _ (linked_prefix _ _ Hl) _ _ Hi).
    apply lookup_lt_Some in Hi. lia.
  - apply IH. by eapply linked_prefix.
  - repeat constructor.
Qed.

(** A stored nonempty chain loads back. *)
Lemma load_stores path db bs allow_empty :
  stores db bs → bs ≠ [] → load_blocks_from_connection path allow_empty db = Ok bs.
Proof.
  intros Hs Hne. pose proof Hs as [Hr Hl Hlen Hd]. unfold load_blocks_from_connection. cbv zeta.
  rewrite Hr, rows_sorted, check_rows by (done || by eapply stores_heights). cbn [mbind result_bind app].
  rewrite bool_decide_eq_false_2 by done. cbn [andb].
  by rewrite (proj2 (verify_chain_structure_Ok path bs Hlen) Hl).
Qed.

(** ** Appending *)

Definition extends (bs : list Block) (b : Block) : Prop :=
  bh_height (header b) = Z.of_nat (length bs) ∧
  ∀ p, last bs = Some p → bh_previous_hash (header b) = block_hash p.

Lemma verify_tip_extension_Ok db bs b :
  stores db bs → verify_tip_extension bs b = Ok () ↔ extends bs b.
Proof.
  intros Hs. unfold verify_tip_extension, extends. destruct (last bs) as [p|] eqn:E.
  - cbv zeta. rewrite !if_negb_Err_Ok, bool_decide_eq_true, Z.eqb_eq.
    rewrite last_lookup in E. rewrite (ln_height _ (st_linked _ _ Hs) _ _ E).
    pose proof (lookup_lt_Some _ _ _ E). pose proof (st_length _ _ Hs).
    assert (saturating_add 64 (Z.of_nat (pred (length bs))) 1 = Z.of_nat (length bs)) as ->
      by (unfold saturating_add, umax; lia). split.
    + intros (Heq%hash_to_hex_inj & ? & _). split; [done|]. by intros q [= <-].
    + intros [Hh Hp]. rewrite (Hp p eq_refl). done.
  - apply last_None in E as ->. rewrite if_negb_Err_Ok, Z.eqb_eq. naive_solver.
Qed.

Lemma insert_Ok db bs b u db' :
  stores db bs → extends bs b →
  insert_canonical_block b db = (Ok u, db') ↔
  Z.of_nat (length bs) < 2 ^ 63 ∧ (block_hash b ∉ block_hash <$> bs) ∧ stores db' (bs ++ [b]) ∧
  orphaned db' = orphaned db.
Proof.
  intros Hs [Hh Hp]. pose proof Hs as [Hr Hl Hlen Hd].
  unfold insert_canonical_block. rewrite sr_lift_bind, Hh.
  assert (existsb (row_conflict b) (canonical db) = false ↔ block_hash b ∉ block_hash <$> bs) as Hex.
  { rewrite Hr, existsb_false_Forall, Forall_fmap, list_elem_of_fmap, Forall_forall. split.
    - intros Hf (x & Heq & Hx). specialize (Hf x Hx). unfold compose, row_conflict in Hf.
      apply orb_false_iff in Hf as [_ Hf]. apply bool_decide_eq_false in Hf. by apply Hf.
    - intros Hn x Hx. unfold compose, row_conflict. apply orb_false_iff. split.
      + apply Z.eqb_neq. cbn [row_of row_height]. apply list_elem_of_lookup in Hx as [i Hi].
        rewrite (ln_height _ Hl _ _ Hi), Hh. apply lookup_lt_Some in Hi. lia.
      + apply bool_decide_eq_false. intros Heq. apply Hn. by exists x. }
  destruct (height_to_i64 (Z.of_nat (length bs))) as [h|e] eqn:E.
  2:{ split; [done|]. intros [Hlt _]. rewrite (proj2 (height_to_i64_Ok _ _) (conj eq_refl Hlt)) in E. done. }
  apply height_to_i64_Ok in E as [-> Hlt]. rewrite sr_get_bind.
  destruct (existsb _ _) eqn:Ex.
  { split; [done|]. intros (_ & Hn%Hex & _). done. }
  pose proof (proj1 Hex eq_refl) as Hn. unfold sr_modify. split.
  - intros [= _ <-]. split_and!; [done | done | | done]. split.
    + simpl. by rewrite Hr, fmap_app.
    + by apply linked_snoc.
    + rewrite length_app. simpl. lia.
    + rewrite fmap_app. apply NoDup_app. split_and!; [done | | apply NoDup_singleton].
      intros x Hx ->%list_elem_of_singleton. done.
  - intros (_ & _ & [Hr' _ _ _] & Ho). destruct u. f_equal. destruct db' as [c o]. simpl in *.
    unfold set_canonical. rewrite Hr', Ho, Hr, fmap_app. done.
Qed.

Lemma append_validated_rules {R} path db bs c (validate : list Block → Block → NodeResult R) r db' :
  stores db bs → bs ≠ [] → append_validated path c validate db = (r, db') →
  match r with
  | Ok a => validate bs c = Ok a ∧ extends bs c ∧ stores db' (bs ++ [c]) ∧
      orphaned db' = orphaned db ∧ load_blocks path db' = Ok (bs ++ [c])
  | Err _ => db' = db ∧
      (extends bs c → block_hash c ∉ block_hash <$> bs → Z.of_nat (length bs) < 2 ^ 63 →
       is_err (validate bs c) = true)
  end.
Proof.
  intros Hs Hne. unfold append_validated, db_transaction.
  rewrite sr_get_bind, sr_lift_bind, (load_stores path db bs false Hs Hne), sr_lift_bind.
  destruct (validate bs c) as [a|e] eqn:Ev; [|by intros [= <- <-]].
  rewrite sr_lift_bind. destruct (verify_tip_extension bs c) as [[]|e] eqn:Et.
  2:{ intros [= <- <-]. split; [done|]. intros He. apply (verify_tip_extension_Ok db bs c Hs) in He. congruence. }
  apply (verify_tip_extension_Ok db bs c Hs) in Et.
  unfold mbind, state_result_bind. destruct (insert_canonical_block c db) as [[[]|e] db1] eqn:Ei.
  - intros [= <- <-]. apply (insert_Ok db bs c) in Ei as (_ & _ & Hs' & Ho); [|done..].
    split_and!; try done. apply load_stores; [done|]. by destruct bs.
  - intros [= <- <-]. split; [done|]. intros _ Hn Hlt.
    assert (insert_canonical_block c db = (Ok (), mkDb (row_of <$> bs ++ [c]) (orphaned db))) as Hc.
    { apply (insert_Ok db bs c); [done..|]. split_and!; try done. pose proof Hs as [Hr Hl Hlen Hd]. destruct Et.
      split; [done | by apply linked_snoc | rewrite length_app; simpl; lia |].
      rewrite fmap_app. apply NoDup_app. split_and!; [done | | apply NoDup_singleton].
      intros x Hx ->%list_elem_of_singleton. done. }
    congruence.
Qed.

(** Appending to the store: a failed append leaves the database as it was;
    a successful one ran the caller's validation on exactly the stored chain and
    leaves a database that loads back as the chain with the block at its end,
    which extends the tip by height and hash link.  Conversely a validated
    extension with a new hash is always stored. *)
Theorem append_validated_spec {R} path db bs c (validate : list Block → Block → NodeResult R) r db' :
  stores db bs → bs ≠ [] → append_validated path c validate db = (r, db') →
  match r with
  | Ok a => validate bs c = Ok a ∧ extends bs c ∧ stores db' (bs ++ [c]) ∧
      orphaned db' = orphaned db ∧ load_blocks path db' = Ok (bs ++ [c])
  | Err _ => db' = db ∧
      (extends bs c → block_hash c ∉ block_hash <$> bs → Z.of_nat (length bs) < 2 ^ 63 →
       is_err (validate bs c) = true)
  end.
Proof. apply append_validated_rules. Qed.

(** ** Replacing *)

Lemma linked_app_l bs cs : linked (bs ++ cs) → linked bs.
Proof.
  revert bs. induction cs as [|c cs IH] using rev_ind; intros bs; [by rewrite app_nil_r|].
  rewrite app_assoc. intros Hl. by eapply IH, linked_prefix.
Qed.

(** Filling the table with a linked list of blocks succeeds exactly when their
    hashes are distinct. *)
Lemma inserts_Ok bs cs db db' :
  stores db bs → linked (bs ++ cs) →
  sr_each insert_canonical_block cs db = (Ok (), db') ↔
  Z.of_nat (length (bs ++ cs)) <= 2 ^ 63 ∧ NoDup (block_hash <$> bs ++ cs) ∧
  stores db' (bs ++ cs) ∧ orphaned db' = orphaned db.
Proof.
  revert bs db. induction cs as [|c cs IH]; intros bs db Hs Hl; cbn [sr_each].
  { rewrite app_nil_r. rewrite sr_ret_eq. split.
    - intros [= <-]. by destruct Hs.
    - intros (_ & _ & [Hr' _ _ _] & Ho). destruct Hs as [Hr _ _ _]. destruct db, db'. simpl in *. by subst. }
  change (c :: cs) with ([c] ++ cs) in *. rewrite app_assoc in Hl |- *.
  assert (extends bs c) as He by (apply linked_last; by eapply linked_app_l).
  split.
  - intros ([] & db1 & H1 & H2)%sr_bind_Ok. apply (insert_Ok db bs c) in H1 as (? & ? & Hs1 & Ho1); [|done..].
    apply (IH _ _ Hs1 Hl) in H2 as (? & ? & ? & Ho2). by rewrite Ho2, Ho1.
  - intros (Hlen & Hd & Hs' & Ho). pose proof Hd as Hd0. rewrite !fmap_app in Hd0.
    apply NoDup_app in Hd0 as (Hd1 & _ & _).
    assert (stores (mkDb (row_of <$> bs ++ [c]) (orphaned db)) (bs ++ [c])) as Hs1.
    { split; [done | by eapply linked_app_l | | by rewrite fmap_app]. rewrite !length_app in *. simpl in *. lia. }
    assert (insert_canonical_block c db = (Ok (), mkDb (row_of <$> bs ++ [c]) (orphaned db))) as Hc.
    { apply (insert_Ok db bs c); [done..|]. split_and!; [| | done | done].
      - rewrite !length_app in Hlen. simpl in Hlen. lia.
      - apply NoDup_app in Hd1 as (_ & Hn & _). intros Hx. apply (Hn _ Hx). by apply list_elem_of_singleton. }
    rewrite (sr_bind_step _ _ _ _ _ Hc). by apply (IH _ _ Hs1 Hl).
Qed.

(** The orphan table: one row per hash, each holding the block of its hash. *)
Record orphans_ok (rows : list OrphanedRow) : Prop := {
  oo_hash : Forall (λ o, or_hash o = block_hash (or_block o)) rows;
  oo_distinct : NoDup (or_hash <$> rows);
}.

Definition touch (r o : OrphanedRow) : OrphanedRow :=
  if bool_decide (or_hash o = or_hash r)
  then mkOrphan (or_hash o) (or_height o) (or_previous_hash o) (or_network_id o) (or_block o)
         (or_detached_at r) (or_source_tip r)
  else o.

Lemma touch_hash r o : or_hash (touch r o) = or_hash o.
Proof. unfold touch. by case_bool_decide. Qed.

Lemma touch_block r o : or_block (touch r o) = or_block o.
Proof. unfold touch. by case_bool_decide. Qed.

Lemma touch_hashes r (rows : list OrphanedRow) : or_hash <$> (touch r <$> rows) = or_hash <$> rows.
Proof. rewrite <- list_fmap_compose. apply list_fmap_ext. intros. apply touch_hash. Qed.

Lemma upsert_orphan_spec r rows :
  or_hash r = block_hash (or_block r) → orphans_ok rows →
  orphans_ok (upsert_orphan r rows) ∧
  ∀ h, h ∈ or_hash <$> upsert_orphan r rows ↔ (h ∈ or_hash <$> rows) ∨ h = or_hash r.
Proof.
  intros Hr [Hh Hd]. unfold upsert_orphan. fold (touch r).
  destruct (existsb _ rows) eqn:E.
  - apply existsb_exists in E as (o & Ho%list_elem_of_In & Heq%bool_decide_eq_true).
    change (list_fmap OrphanedRow OrphanedRow (touch r) rows) with (touch r <$> rows).
    rewrite touch_hashes. split.
    + split; [|by rewrite touch_hashes]. apply Forall_fmap. eapply Forall_impl; [exact Hh|].
      intros x Hx. unfold compose. by rewrite touch_hash, touch_block.
    + intros h. split; [by left|]. intros [?| ->]; [done|]. apply list_elem_of_fmap. by exists o.
  - apply existsb_false_Forall in E. split.
    + split; [by apply Forall_app; split; [|repeat constructor]|]. rewrite fmap_app. apply NoDup_app.
      split_and!; [done | | apply NoDup_singleton]. intros h (o & -> & Ho)%list_elem_of_fmap Hx%list_elem_of_singleton.
      rewrite Forall_forall in E. specialize (E o Ho). cbn beta in E. by apply bool_decide_eq_false in E.
    + intros h. rewrite fmap_app, elem_of_app. cbn [fmap list_fmap]. by rewrite list_elem_of_singleton.
Qed.

Lemma insert_orphaned_Ok now tip b db :
  bh_height (header b) < 2 ^ 63 → orphans_ok (orphaned db) →
  ∃ db', insert_orphaned_block now tip b db = (Ok (), db') ∧ canonical db' = canonical db ∧
    orphans_ok (orphaned db') ∧
    ∀ h, h ∈ or_hash <$> orphaned db' ↔ (h ∈ or_hash <$> orphaned db) ∨ h = block_hash b.
Proof.
  intros Hb Ho. unfold insert_orphaned_block.
  rewrite sr_lift_bind, (proj2 (height_to_i64_Ok _ _) (conj eq_refl Hb)), sr_get_bind.
  eexists. split; [done|]. split; [done|]. cbn [set_orphaned orphaned].
  by apply upsert_orphan_spec.
Qed.

Lemma detach_Ok now tip (keep : list Hash) bs db :
  Forall (λ b, bh_height (header b) < 2 ^ 63) bs → orphans_ok (orphaned db) →
  ∃ db', sr_each (λ b, if bool_decide (block_hash b ∈ keep) then mret ()
                       else insert_orphaned_block now tip b) bs db = (Ok (), db') ∧
    canonical db' = canonical db ∧ orphans_ok (orphaned db') ∧
    ∀ h, h ∈ or_hash <$> orphaned db' ↔
      (h ∈ or_hash <$> orphaned db) ∨ ((h ∈ block_hash <$> bs) ∧ (h ∉ keep)).
Proof.
  intros Hb. revert db. induction Hb as [|b bs Hb Hbs IH]; intros db Ho; cbn [sr_each].
  { exists db. split_and!; try done. intros h. split; [by left|]. intros [?|[Hx _]]; [done|].
    by apply elem_of_nil in Hx. }
  case_bool_decide as Hk.
  - destruct (IH db Ho) as (db' & H1 & H2 & H3 & H4). exists db'.
    split; [by rewrite (sr_bind_step _ _ _ _ _ (sr_ret_eq () db))|]. split_and!; [done|done|].
    intros h. rewrite H4, fmap_cons, elem_of_cons. naive_solver.
  - destruct (insert_orphaned_Ok now tip b db Hb Ho) as (db1 & E1 & E2 & E3 & E4).
    destruct (IH db1 E3) as (db' & H1 & H2 & H3 & H4). exists db'.
    split; [by rewrite (sr_bind_step _ _ _ _ _ E1)|]. split_and!; [congruence|done|].
    intros h. rewrite H4, E4, fmap_cons, elem_of_cons. naive_solver.
Qed.

(** What a successful replacement leaves. *)
Record replaced (db db' : ChainDb) (current candidate : list Block) : Prop := {
  rp_stores : stores db' candidate;
  rp_orphans : orphans_ok (orphaned db');
  rp_detached h : h ∈ or_hash <$> orphaned db' ↔
    (h ∈ or_hash <$> orphaned db) ∨ ((h ∈ block_hash <$> current) ∧ (h ∉ block_hash <$> candidate));
}.

Lemma replace_canonical_Ok now tip db current candidate :
  stores db current → orphans_ok (orphaned db) → linked candidate →
  match replace_canonical_chain now current candidate tip db with
  | (Ok (), db') => replaced db db' current candidate
  | (Err _, _) => ¬ (Z.of_nat (length candidate) <= 2 ^ 63 ∧ NoDup (block_hash <$> candidate))
  end.
Proof.
  intros Hs Ho Hl. unfold replace_canonical_chain. cbv zeta.
  destruct (detach_Ok now tip (block_hash <$> candidate) current db (stores_heights _ _ Hs) Ho)
    as (db1 & E1 & E2 & E3 & E4).
  rewrite (sr_bind_step _ _ _ _ _ E1), sr_modify_bind.
  assert (stores (set_canonical [] db1) []) as Hs0 by (split; [done | done | simpl; lia | constructor]).
  pose proof (inserts_Ok [] candidate _ (mkDb (row_of <$> candidate) (orphaned db1)) Hs0 Hl) as Hfill.
  cbn [app set_canonical orphaned] in Hfill.
  destruct (sr_each insert_canonical_block candidate _) as [[[]|e] db'] eqn:E.
  - apply (inserts_Ok [] candidate _ db' Hs0 Hl) in E as (_ & _ & Hs' & Ho').
    cbn [app set_canonical orphaned] in *. split; [done | by rewrite Ho' | by rewrite Ho'].
  - intros [Hlen Hd]. pose proof (proj2 Hfill) as Hf. specialize (Hf ltac:(done)). congruence.
Qed.

Lemma replace_validated_rules {R} now path tip db bs c (validate : list Block → list Block → NodeResult R) r db' :
  stores db bs → bs ≠ [] → orphans_ok (orphaned db) →
  (∀ a, validate bs c = Ok a → linked c ∧ c ≠ []) →
  replace_validated now path tip c validate db = (r, db') →
  match r with
  | Ok a => validate bs c = Ok a ∧ (hash_to_hex ∘ block_hash <$> last bs) = Some tip ∧
      replaced db db' bs c ∧ load_blocks path db' = Ok c
  | Err _ => db' = db ∧
      (Z.of_nat (length c) <= 2 ^ 63 → NoDup (block_hash <$> c) →
       (hash_to_hex ∘ block_hash <$> last bs) = Some tip → is_err (validate bs c) = true)
  end.
Proof.
  intros Hs Hne Ho Hval. unfold replace_validated, db_transaction.
  rewrite sr_get_bind, sr_lift_bind, (load_stores path db bs false Hs Hne). cbv zeta.
  destruct (last bs) as [q|] eqn:Eq; [|by apply last_None in Eq].
  case_bool_decide as Ht; cbn [negb].
  2:{ intros [= <- <-]. split; [done|]. by intros _ _ [= Heq]. }
  rewrite sr_lift_bind. destruct (validate bs c) as [a|e] eqn:Ev; [|by intros [= <- <-]].
  destruct (Hval a eq_refl) as [Hl Hc].
  pose proof (replace_canonical_Ok now tip db bs c Hs Ho Hl) as Hr.
  unfold mbind, state_result_bind. destruct (replace_canonical_chain now bs c tip db) as [[[]|e] db1] eqn:Ei.
  - intros [= <- <-]. split_and!; [done | by rewrite <- Ht | done |]. by apply load_stores; [apply Hr|].
  - intros [= <- <-]. split; [done|]. intros Hlen Hd. by exfalso; apply Hr.
Qed.

(** Replacing the stored chain: any error leaves the database as it was.
    Success means the caller's validation accepted the stored chain and the
    candidate, the tip was the one the caller had observed, the table holds
    exactly the candidate (and loads back), and every block that left it is in
    the orphan table, which keeps its old rows, one row per hash, each under its
    block's hash.  A validated candidate with distinct hashes is always stored. *)
Theorem replace_validated_spec {R} now path tip db bs c (validate : list Block → list Block → NodeResult R) r db' :
  stores db bs → bs ≠ [] → orphans_ok (orphaned db) →
  (∀ a, validate bs c = Ok a → linked c ∧ c ≠ []) →
  replace_validated now path tip c validate db = (r, db') →
  match r with
  | Ok a => validate bs c = Ok a ∧ (hash_to_hex ∘ block_hash <$> last bs) = Some tip ∧
      replaced db db' bs c ∧ load_blocks path db' = Ok c
  | Err _ => db' = db ∧
      (Z.of_nat (length c) <= 2 ^ 63 → NoDup (block_hash <$> c) →
       (hash_to_hex ∘ block_hash <$> last bs) = Some tip → is_err (validate bs c) = true)
  end.
Proof. apply replace_validated_rules. Qed.

End theory.
