(* ===== verification/Mempool.v ===== *)
(** [vireon-node/src/mempool.rs]: admission, ordering and selection of pending
    transactions.  The pool file is its list of records; the clock is the
    argument [now]; the directory lock makes each operation one step. *)

From S2P Require Import Prelude RustStd Interfaces Crypto Errors Network Amount Signing Address Transaction Block Pow Consensus State Ledger Chain NodeConfig.

Definition DEFAULT_MEMPOOL_MAX_AGE_SECONDS : Z := 3600.
Definition MAX_PENDING_TXS_PER_SENDER : Z := 32.

Record PendingTransactionRecord := mkPending {
  pr_tx_hash : string;
  pr_received_at : Z;
  pr_transaction : Transaction;
}.

Definition effective_priority_atomic (base_fee : Amount) (r : PendingTransactionRecord) : Z :=
  unwrap_or 0 (effective_priority_fee (pr_transaction r) base_fee).

(** [from.as_deref().unwrap_or("")] *)
Definition sender_or_empty (r : PendingTransactionRecord) : string :=
  default ""%string (tx_from (pr_transaction r)).

Definition admission_cmp (base_fee : Amount) (a b : PendingTransactionRecord) : comparison :=
  then_with (str_cmp (sender_or_empty a) (sender_or_empty b))
    (then_with (tx_nonce (pr_transaction a) ?= tx_nonce (pr_transaction b))
      (then_with (effective_priority_atomic base_fee b ?= effective_priority_atomic base_fee a)
        (then_with (pr_received_at a ?= pr_received_at b)
          (str_cmp (pr_tx_hash a) (pr_tx_hash b))))).

Definition sort_pending_for_admission (base_fee : Amount) (records : list PendingTransactionRecord)
    : list PendingTransactionRecord := sort_by (admission_cmp base_fee) records.

Definition fee_desc_cmp (base_fee : Amount) (a b : PendingTransactionRecord) : comparison :=
  then_with (effective_priority_atomic base_fee b ?= effective_priority_atomic base_fee a)
    (then_with (tx_max_fee (pr_transaction b) ?= tx_max_fee (pr_transaction a))
      (then_with (pr_received_at a ?= pr_received_at b)
        (str_cmp (pr_tx_hash a) (pr_tx_hash b)))).

Definition sort_pending_by_fee_desc (base_fee : Amount) (records : list PendingTransactionRecord)
    : list PendingTransactionRecord := sort_by (fee_desc_cmp base_fee) records.

(** ** The package with the lowest tip *)

(** The entry update of the loop: lowest tip and oldest time per sender. *)
Definition package_step (base_fee : Amount) (packages : gmap string (Z * Z))
    (r : PendingTransactionRecord) : gmap string (Z * Z) :=
  match tx_from (pr_transaction r) with
  | None => packages
  | Some sender =>
      let tip := effective_priority_atomic base_fee r in
      let entry := default (tip, pr_received_at r) (packages !! sender) in
      <[sender := (Z.min entry.1 tip, Z.min entry.2 (pr_received_at r))]> packages
  end.

(** [Iterator::min_by]: the first of the least elements. *)
Definition min_by {A} (cmp : A → A → comparison) (l : list A) : option A :=
  match l with
  | [] => None
  | x :: l' => Some (foldl (λ best y, match cmp best y with Gt => y | _ => best end) x l')
  end.

Definition package_cmp (a b : string * (Z * Z)) : comparison :=
  then_with (a.2.1 ?= b.2.1) (then_with (a.2.2 ?= b.2.2) (str_cmp a.1 b.1)).

Definition lowest_fee_sender_package (records : list PendingTransactionRecord) (base_fee : Amount)
    (incoming_tip : Z) : option string :=
  let packages := foldl (package_step base_fee) ∅ records in
  fst <$> min_by package_cmp (filter (λ p, p.2.1 < incoming_tip) (btree_entries packages)).

Section mempool.
Context `{Primitives}.

Definition tx_hash_string (tx : Transaction) : string := hash_to_hex (tx_hash tx).

Definition mined_transaction_hashes (c : Chain) : gset string :=
  list_to_set (tx_hash_string <$> (ch_blocks c ≫= transactions)).

(** The loop of [filter_pending_candidates]; [seen_pending_hashes] grows along
    the list, and a mined id is not inserted into it. *)
Fixpoint filter_loop (now max_age : Z) (mined seen : gset string)
    (records : list PendingTransactionRecord)
    : list PendingTransactionRecord * list string :=
  match records with
  | [] => ([], [])
  | r :: records' =>
      if (max_age >? 0) && (saturating_sub now (pr_received_at r) >? max_age) then
        let '(candidates, dropped) := filter_loop now max_age mined seen records' in
        (candidates, pr_tx_hash r :: dropped)
      else if bool_decide (pr_tx_hash r ∈ mined) then
        let '(candidates, dropped) := filter_loop now max_age mined seen records' in
        (candidates, pr_tx_hash r :: dropped)
      else if bool_decide (pr_tx_hash r ∈ seen) then
        let '(candidates, dropped) := filter_loop now max_age mined seen records' in
        (candidates, pr_tx_hash r :: dropped)
      else
        let '(candidates, dropped) :=
          filter_loop now max_age mined ({[pr_tx_hash r]} ∪ seen) records' in
        (r :: candidates, dropped)
  end.

Definition filter_pending_candidates (now : Z) (c : Chain) (records : list PendingTransactionRecord)
    (max_age_seconds : Z) : list PendingTransactionRecord * list string :=
  filter_loop now max_age_seconds (mined_transaction_hashes c) ∅ records.

Definition validate_pending_transaction (st : LedgerState) (tx : Transaction)
    (anticipated_base_fee : Amount) : NodeResult () :=
  if is_coinbase tx then Err (Input "coinbase transactions cannot enter the local mempool") else
  _ ← map_err (λ e, Input (VireonError_fmt e)) (Address_parse (tx_to tx));
  match validate_transaction_against_state st tx anticipated_base_fee with
  | Ok () => Ok ()
  | Err (InvalidNonce address expected actual) =>
      Err (Input ("nonce gap for " ++ address ++ ": expected sequential nonce "
        ++ uint_to_string expected ++ ", got " ++ uint_to_string actual)%string)
  | Err error => Err (Core error)
  end.

(** [apply_transaction(&mut state, ..)?] *)
Definition apply_pending (st : LedgerState) (tx : Transaction) (base_fee : Amount)
    : NodeResult LedgerState :=
  let '(r, st') := apply_transaction tx base_fee st in
  _ ← map_err Core r; Ok st'.

(** The admission loop of [sanitize_pending_transactions_with_age]. *)
Fixpoint admit_loop (base_fee : Amount) (st : LedgerState) (ordered : list PendingTransactionRecord)
    : NodeResult (list PendingTransactionRecord * list string * LedgerState) :=
  match ordered with
  | [] => Ok ([], [], st)
  | r :: ordered' =>
      if is_err (validate_pending_transaction st (pr_transaction r) base_fee) then
        '(valid, invalid, st') ← admit_loop base_fee st ordered';
        Ok (valid, pr_tx_hash r :: invalid, st')
      else
        st1 ← apply_pending st (pr_transaction r) base_fee;
        '(valid, invalid, st') ← admit_loop base_fee st1 ordered';
        Ok (r :: valid, invalid, st')
  end.

Definition sanitize_pending_transactions_with_age (now : Z) (c : Chain)
    (records : list PendingTransactionRecord) (max_age_seconds : Z)
    : NodeResult (list PendingTransactionRecord * list string * LedgerState) :=
  let anticipated_base_fee := next_base_fee (last (ch_blocks c)) in
  let '(candidates, early_dropped) := filter_pending_candidates now c records max_age_seconds in
  let ordered := sort_pending_for_admission anticipated_base_fee candidates in
  '(valid, invalid, st) ← admit_loop anticipated_base_fee (ch_state c) ordered;
  Ok (valid, early_dropped ++ invalid, st).

Definition sanitize_pending_transactions (now : Z) (c : Chain)
    (records : list PendingTransactionRecord) :=
  sanitize_pending_transactions_with_age now c records DEFAULT_MEMPOOL_MAX_AGE_SECONDS.

(** ** Block template selection *)

(** State, selected records and their ids, records kept for the next pass, and
    whether the pass selected anything. *)
Record selection := mkSelection {
  se_state : LedgerState;
  se_selected : list PendingTransactionRecord;
  se_hashes : gset string;
  se_still : list PendingTransactionRecord;
  se_progress : bool;
}.

Definition keep_pending (r : PendingTransactionRecord) (s : selection) : selection :=
  mkSelection (se_state s) (se_selected s) (se_hashes s) (se_still s ++ [r]) (se_progress s).

(** The body of the inner loop. *)
Definition select_step (limit : Z) (base_fee : Amount) (s : selection) (r : PendingTransactionRecord)
    : NodeResult selection :=
  if limit <=? Z.of_nat (length (se_selected s)) then Ok (keep_pending r s) else
  if bool_decide (pr_tx_hash r ∈ se_hashes s) then Ok s else
  if is_err (validate_pending_transaction (se_state s) (pr_transaction r) base_fee)
  then Ok (keep_pending r s) else
  st' ← apply_pending (se_state s) (pr_transaction r) base_fee;
  Ok (mkSelection st' (se_selected s ++ [r]) ({[pr_tx_hash r]} ∪ se_hashes s) (se_still s) true).

(** The bounded passes: [fuel] is the loop's own bound. *)
Fixpoint select_passes (fuel : nat) (limit : Z) (base_fee : Amount) (s : selection)
    : NodeResult selection :=
  match fuel with
  | O => Ok s
  | S fuel' =>
      if (limit <=? Z.of_nat (length (se_selected s))) || bool_decide (se_still s = []) then Ok s else
      s' ← try_fold (select_step limit base_fee)
             (mkSelection (se_state s) (se_selected s) (se_hashes s) [] false) (se_still s);
      if negb (se_progress s') then Ok s' else select_passes fuel' limit base_fee s'
  end.

Definition select_pending_for_template (now : Z) (c : Chain)
    (records : list PendingTransactionRecord) (limit : Z)
    : NodeResult (list PendingTransactionRecord * list string) :=
  if limit =? 0 then Ok ([], []) else
  let anticipated_base_fee := next_base_fee (last (ch_blocks c)) in
  let '(candidates, early_dropped) :=
    filter_pending_candidates now c records DEFAULT_MEMPOOL_MAX_AGE_SECONDS in
  let candidates := sort_pending_by_fee_desc anticipated_base_fee candidates in
  s ← select_passes (Nat.min (length candidates + 1) 64) limit anticipated_base_fee
        (mkSelection (ch_state c) [] ∅ candidates false);
  Ok (se_selected s, early_dropped ++ (pr_tx_hash <$> se_still s)).

(** ** Reorganisations *)

(** The loop over the detached bodies: records of unknown ids are appended. *)
Definition reinsert_step (now : Z) (acc : list PendingTransactionRecord * gset string)
    (tx : Transaction) : list PendingTransactionRecord * gset string :=
  let '(records, known) := acc in
  let tx_hash := tx_hash_string tx in
  if bool_decide (tx_hash ∈ known) then (records, known)
  else (records ++ [mkPending tx_hash now tx], {[tx_hash]} ∪ known).

(** The pool afterwards and the dropped ids. *)
Definition reconcile_after_reorg (now : Z) (c : Chain) (detached_blocks : list Block)
    (max_transactions : Z) (pool : list PendingTransactionRecord)
    : NodeResult (list PendingTransactionRecord * list string) :=
  let known : gset string := list_to_set (pr_tx_hash <$> pool) in
  let '(records, _) := foldl (reinsert_step now) (pool, known)
    (detached_blocks ≫= λ b, drop 1 (transactions b)) in
  '(valid, dropped, _) ← sanitize_pending_transactions now c records;
  Ok (take (Z.to_nat max_transactions) valid, dropped).

End mempool.

(** * Filtering *)

Abbreviation hashes l := (pr_tx_hash <$> l).
Abbreviation txs_of l := (pr_transaction <$> l).

#[global] Instance total_admission base : TotalCmp (admission_cmp base).
Proof. unfold admission_cmp. repeat apply (total_cmp_then (λ a b, _) (λ a b, _)); apply _. Qed.

Lemma StronglySorted_sublist {A} (R : A → A → Prop) l k :
  sublist l k → StronglySorted R k → StronglySorted R l.
Proof.
  induction 1 as [|x l k Hs IH|x l k Hs IH]; [done| |]; intros [Hk Hall]%StronglySorted_inv; [|auto].
  constructor; [auto|]. by eapply sublist_Forall.
Qed.

(** A pending record that is still within its age. *)
Definition fresh (now max_age : Z) (r : PendingTransactionRecord) : Prop :=
  max_age <= 0 ∨ saturating_sub now (pr_received_at r) <= max_age.

Lemma expired_false now max_age r :
  (max_age >? 0) && (saturating_sub now (pr_received_at r) >? max_age) = false ↔ fresh now max_age r.
Proof. unfold fresh. rewrite andb_false_iff, !Z.gtb_ltb, !Z.ltb_ge. done. Qed.

Lemma filter_loop_spec now max_age mined seen records cs ds :
  filter_loop now max_age mined seen records = (cs, ds) →
  sublist cs records ∧ hashes cs ++ ds ≡ₚ hashes records ∧ NoDup (hashes cs) ∧
  Forall (λ r, fresh now max_age r ∧ (pr_tx_hash r ∉ mined) ∧ (pr_tx_hash r ∉ seen)) cs ∧
  (∀ r, r ∈ records → fresh now max_age r → pr_tx_hash r ∉ mined → pr_tx_hash r ∉ seen →
     pr_tx_hash r ∈ hashes cs).
Proof.
  revert seen cs ds. induction records as [|r rs IH]; intros seen cs ds.
  { intros [= <- <-]. split_and!; [done | done | constructor | constructor | set_solver]. }
  cbn [filter_loop].
  assert (∀ P : Prop, (P ∨ pr_tx_hash r ∈ seen ∨ pr_tx_hash r ∈ mined) →
    (P → ¬ fresh now max_age r) →
    (let '(c', d') := filter_loop now max_age mined seen rs in (c', pr_tx_hash r :: d')) = (cs, ds) →
    sublist cs (r :: rs) ∧ hashes cs ++ ds ≡ₚ hashes (r :: rs) ∧ NoDup (hashes cs) ∧
    Forall (λ r, fresh now max_age r ∧ (pr_tx_hash r ∉ mined) ∧ (pr_tx_hash r ∉ seen)) cs ∧
    (∀ q, q ∈ r :: rs → fresh now max_age q → pr_tx_hash q ∉ mined → pr_tx_hash q ∉ seen →
       pr_tx_hash q ∈ hashes cs)) as Hdrop.
  { intros P Hwhy HP. destruct (filter_loop now max_age mined seen rs) as [c' d'] eqn:E.
    intros [= <- <-]. destruct (IH _ _ _ E) as (? & Hp & ? & ? & Hc). split_and!; try done.
    - by constructor.
    - rewrite fmap_cons, <- Hp. by rewrite <- Permutation_middle.
    - intros q [->|Hq]%elem_of_cons ? ? ?; [|by apply Hc]. naive_solver. }
  destruct (_ && _) eqn:Eage.
  { apply (Hdrop (¬ fresh now max_age r)); [|done].
    left. intros Hf%expired_false. congruence. }
  apply expired_false in Eage.
  case_bool_decide as Hm; [by apply (Hdrop False); [auto|]|].
  case_bool_decide as Hs; [by apply (Hdrop False); [auto|]|].
  destruct (filter_loop now max_age mined ({[pr_tx_hash r]} ∪ seen) rs) as [c' d'] eqn:E.
  intros [= <- <-]. destruct (IH _ _ _ E) as (? & Hp & Hn & Hf & Hc). split_and!.
  - by constructor.
  - rewrite !fmap_cons. simpl. by rewrite Hp.
  - rewrite fmap_cons. constructor; [|done]. intros (q & Heq & Hq)%list_elem_of_fmap.
    rewrite Forall_forall in Hf. destruct (Hf q Hq) as (_ & _ & Hn'). set_solver.
  - constructor; [done|]. eapply Forall_impl; [exact Hf|]. intros q. cbn beta. set_solver.
  - intros q [->|Hq]%elem_of_cons ? ? ?; [set_solver|].
    destruct (decide (pr_tx_hash q = pr_tx_hash r)) as [Heq|Hne]; [rewrite Heq; set_solver|].
    rewrite fmap_cons. apply elem_of_cons. right. apply Hc; set_solver.
Qed.

Lemma filter_loop_id now max_age mined seen records :
  Forall (λ r, fresh now max_age r ∧ (pr_tx_hash r ∉ mined) ∧ (pr_tx_hash r ∉ seen)) records →
  NoDup (hashes records) → filter_loop now max_age mined seen records = (records, []).
Proof.
  revert seen. induction records as [|r rs IH]; intros seen; [done|].
  rewrite fmap_cons, Forall_cons, NoDup_cons. intros [(Hf & Hm & Hs) Hfs] [Hn Hns].
  cbn [filter_loop]. rewrite (proj2 (expired_false now max_age r) Hf).
  rewrite !bool_decide_eq_false_2 by done. rewrite IH; [done | | done].
  apply Forall_forall. intros q Hq. rewrite Forall_forall in Hfs. destruct (Hfs q Hq) as (? & ? & ?).
  split_and!; [done|done|]. assert (pr_tx_hash q ≠ pr_tx_hash r); [|set_solver].
  intros Heq. apply Hn. rewrite <- Heq. by apply list_elem_of_fmap_2.
Qed.

(** * Admission *)

Section admission.
Context `{PrimitivesOk}.

Lemma validate_pending_Ok st tx base :
  ledger_ok st → tx_wf tx →
  validate_pending_transaction st tx base = Ok () ↔ ∃ sender, spendable st base sender tx.
Proof.
  intros Hok Hwf. unfold validate_pending_transaction. rewrite if_Err_Ok, bind_const_Ok. split.
  - intros (Hc & _ & Hv). apply (validate_transaction_Ok st tx base Hok Hwf Hc).
    destruct (validate_transaction_against_state st tx base) as [[]|e]; [done | by destruct e].
  - intros [sender Hsp]. pose proof (sp_not_coinbase _ _ _ _ Hsp) as Hc. split; [done|]. split.
    + destruct (Transaction_verify_recipient tx (sp_verified _ _ _ _ Hsp)) as [a Ha].
      exists a. by apply map_err_Ok.
    + by rewrite (proj2 (validate_transaction_Ok st tx base Hok Hwf Hc)) by eauto.
Qed.

Lemma validate_pending_is_err st tx base :
  ledger_ok st → tx_wf tx →
  is_err (validate_pending_transaction st tx base) = true ↔ ¬ ∃ sender, spendable st base sender tx.
Proof.
  intros Hok Hwf. rewrite <- validate_pending_Ok by done.
  destruct (validate_pending_transaction st tx base) as [[]|e]; simpl; naive_solver.
Qed.

Lemma apply_pending_spend st base sender tx :
  ledger_ok st → tx_wf tx → 0 <= base → spendable st base sender tx →
  apply_pending st tx base = Ok (spend_effect base sender tx st).
Proof. intros. unfold apply_pending. by rewrite (apply_spend st base sender tx). Qed.

Definition record_wf (r : PendingTransactionRecord) : Prop := tx_wf (pr_transaction r).

Lemma records_wf l : Forall record_wf l → Forall tx_wf (txs_of l).
Proof. apply Forall_fmap. Qed.

(** Admission never fails: it keeps a sublist whose spends run one after the
    other and reports the ids of the others. *)
Lemma admit_loop_spec base st l :
  ledger_ok st → 0 <= base → Forall record_wf l →
  ∃ valid invalid st', admit_loop base st l = Ok (valid, invalid, st') ∧
    spends base st (txs_of valid) st' ∧ sublist valid l ∧ hashes valid ++ invalid ≡ₚ hashes l.
Proof.
  intros Hok Hb Hwf. revert st Hok. induction Hwf as [|r l Hr Hwf IH]; intros st Hok.
  { exists [], [], st. split_and!; constructor. }
  cbn [admit_loop]. destruct (is_err _) eqn:E.
  - destruct (IH st Hok) as (v & i & st' & -> & Hs & Hsub & Hp). exists v, (pr_tx_hash r :: i), st'.
    split_and!; [done | done | by constructor|]. rewrite fmap_cons, <- Hp. by rewrite <- Permutation_middle.
  - assert (∃ sender, spendable st base sender (pr_transaction r)) as [sender Hsp].
    { apply (validate_pending_Ok st _ base Hok Hr). apply is_err_false in E as [[] E]. exact E. }
    rewrite (apply_pending_spend st base sender) by done. cbn [mbind result_bind].
    destruct (IH (spend_effect base sender (pr_transaction r) st)) as (v & i & st' & -> & Hs & Hsub & Hp);
      [by apply spend_effect_ok|].
    exists (r :: v), i, st'. split_and!; [done | by econstructor | by constructor |].
    rewrite !fmap_cons. simpl. by rewrite Hp.
Qed.

(** A list whose spends run is admitted as it is. *)
Lemma admit_loop_spends base st l st' :
  ledger_ok st → 0 <= base → Forall record_wf l → spends base st (txs_of l) st' →
  admit_loop base st l = Ok (l, [], st').
Proof.
  intros Hok Hb Hwf. revert st Hok. induction Hwf as [|r l Hr Hwf IH]; intros st Hok Hs.
  { inversion Hs; subst. done. }
  rewrite fmap_cons in Hs. inversion Hs as [|? sender ? ? ? Hsp Hrest]; subst. cbn [admit_loop].
  assert (validate_pending_transaction st (pr_transaction r) base = Ok ()) as ->
    by (apply validate_pending_Ok; eauto).
  cbn [is_err is_ok negb]. rewrite (apply_pending_spend st base sender) by done. cbn [mbind result_bind].
  by rewrite (IH _ (spend_effect_ok st base sender _ Hok Hr Hb Hsp) Hrest).
Qed.

Lemma reachable_ledger_ok n c : chain_reachable n c → ledger_ok (ch_state c).
Proof. intros Hc%chain_reachable_ok. by apply reachable_inv, (chain_ok_reachable n). Qed.

(** The base fee the pool anticipates. *)
Definition anticipated (c : Chain) : Amount := next_base_fee (last (ch_blocks c)).

Lemma anticipated_nonneg c : 0 <= anticipated c.
Proof. pose proof (next_base_fee_pos (last (ch_blocks c))). unfold anticipated. lia. Qed.

(** A pool in the form admission leaves it: fresh, unmined, without duplicate
    ids, and with spends that run on the tip in order. *)
Record admitted (now max_age : Z) (c : Chain) (pool : list PendingTransactionRecord)
    (st : LedgerState) : Prop := {
  ad_fresh : Forall (fresh now max_age) pool;
  ad_unmined : Forall (λ r, pr_tx_hash r ∉ mined_transaction_hashes c) pool;
  ad_distinct : NoDup (hashes pool);
  ad_sorted : StronglySorted (cmp_le (admission_cmp (anticipated c))) pool;
  ad_spends : spends (anticipated c) (ch_state c) (txs_of pool) st;
}.

Lemma sanitize_spec now c records max_age :
  ledger_ok (ch_state c) → Forall record_wf records →
  ∃ valid dropped st,
    sanitize_pending_transactions_with_age now c records max_age = Ok (valid, dropped, st) ∧
    admitted now max_age c valid st ∧ hashes valid ++ dropped ≡ₚ hashes records ∧
    Forall record_wf valid ∧ (∀ r, r ∈ valid → r ∈ records).
Proof.
  intros Hok Hwf. unfold sanitize_pending_transactions_with_age. cbv zeta. fold (anticipated c).
  destruct (filter_pending_candidates now c records max_age) as [cs early] eqn:E.
  apply filter_loop_spec in E as (Hsub & Hp & Hn & Hf & _).
  pose proof (sort_by_perm (admission_cmp (anticipated c)) cs) as Hperm.
  assert (Forall record_wf (sort_by (admission_cmp (anticipated c)) cs)) as Hwf'
    by (rewrite Hperm; by eapply sublist_Forall).
  destruct (admit_loop_spec (anticipated c) (ch_state c) _ Hok (anticipated_nonneg c) Hwf')
    as (v & i & st & Ha & Hs & Hv & Hvp). unfold sort_pending_for_admission. rewrite Ha.
  exists v, (early ++ i), st. split; [done|].
  assert (∀ r, r ∈ v → r ∈ cs) as Hin.
  { intros r Hr. rewrite <- Hperm. by eapply elem_of_sublist. }
  rewrite Forall_forall in Hf. split_and!.
  - split; [| | | |done].
    + apply Forall_forall. intros r Hr. by apply Hf, Hin.
    + apply Forall_forall. intros r Hr. by apply Hf, Hin.
    + eapply sublist_NoDup; [|by apply fmap_sublist]. by rewrite Hperm.
    + eapply StronglySorted_sublist; [done|]. apply sort_by_sorted, _.
  - rewrite <- Hp, (Permutation_app_comm early i), app_assoc, Hvp, Hperm. done.
  - by eapply sublist_Forall.
  - intros r Hr. eapply elem_of_sublist; [|done]. by apply Hin.
Qed.

Lemma sanitize_admitted now c pool max_age st :
  ledger_ok (ch_state c) → Forall record_wf pool → admitted now max_age c pool st →
  sanitize_pending_transactions_with_age now c pool max_age = Ok (pool, [], st).
Proof.
  intros Hok Hwf [Hf Hm Hd Hs Hsp]. unfold sanitize_pending_transactions_with_age. cbv zeta.
  unfold filter_pending_candidates. rewrite filter_loop_id; [|clear -Hf Hm|done].
  - fold (anticipated c). unfold sort_pending_for_admission. rewrite sort_by_id by done.
    by rewrite (admit_loop_spends _ _ _ _ Hok (anticipated_nonneg c) Hwf Hsp).
  - apply Forall_forall. intros r Hr. rewrite Forall_forall in Hf, Hm. split_and!; [by apply Hf | by apply Hm | set_solver].
Qed.

(** C33. Pool admission: on every reachable chain it returns, without an error, a
    pool whose spends run on the tip in admission order, with fresh, unmined and
    distinct records; every given id is either kept or reported as dropped; and
    running it again at the same time changes nothing. *)
Theorem sanitize_admits now n c records max_age :
  chain_reachable n c → Forall record_wf records →
  ∃ valid dropped st,
    sanitize_pending_transactions_with_age now c records max_age = Ok (valid, dropped, st) ∧
    admitted now max_age c valid st ∧ hashes valid ++ dropped ≡ₚ hashes records ∧
    (∀ r, r ∈ valid → r ∈ records) ∧
    sanitize_pending_transactions_with_age now c valid max_age = Ok (valid, [], st).
Proof.
  intros Hok%reachable_ledger_ok Hwf.
  destruct (sanitize_spec now c records max_age Hok Hwf) as (v & d & st & ? & ? & ? & ? & ?).
  exists v, d, st. split_and!; try done. by apply sanitize_admitted.
Qed.

(** ** Selection *)

(** What a selection in progress satisfies, [rest] being what the current pass
    has still to look at. *)
Record selecting (base limit : Z) (st0 : LedgerState) (cands : list PendingTransactionRecord)
    (s : selection) (rest : list PendingTransactionRecord) : Prop := {
  sg_spends : spends base st0 (txs_of (se_selected s)) (se_state s);
  sg_hashes : se_hashes s = list_to_set (hashes (se_selected s));
  sg_all : se_selected s ++ se_still s ++ rest ≡ₚ cands;
  sg_limit : Z.of_nat (length (se_selected s)) <= limit;
}.

Section selection.
Context (base limit : Z) (st0 : LedgerState) (cands : list PendingTransactionRecord).
Context (Hok : ledger_ok st0) (Hbase : 0 <= base).
Context (Hwf : Forall record_wf cands) (Hnodup : NoDup (hashes cands)).

Abbreviation inv := (selecting base limit st0 cands).

Lemma selecting_ok s rest : inv s rest → ledger_ok (se_state s).
Proof.
  intros [Hs _ Hall _]. eapply spends_totals; [exact Hok | exact Hbase | | exact Hs].
  apply records_wf. rewrite <- Hall in Hwf. by apply Forall_app in Hwf as [? _].
Qed.

Lemma selecting_keep s r rest : inv s (r :: rest) → inv (keep_pending r s) rest.
Proof.
  intros [Hs Hh Hall Hl]. split; try done. simpl. rewrite <- Hall.
  by rewrite <- (app_assoc (se_still s)).
Qed.

Lemma selecting_new s r rest : inv s (r :: rest) → (pr_tx_hash r ∉ se_hashes s) ∧ record_wf r.
Proof.
  intros [_ Hh Hall _]. rewrite <- Hall in Hnodup, Hwf. split.
  - rewrite Hh. rewrite fmap_app, fmap_app, fmap_cons in Hnodup.
    apply NoDup_app in Hnodup as (_ & Hd & _). intros Hin%elem_of_list_to_set.
    apply (Hd _ Hin). rewrite elem_of_app, elem_of_cons. auto.
  - rewrite !Forall_app, Forall_cons in Hwf. apply Hwf.
Qed.

(** One look at a record: it is kept or selected. *)
Lemma select_step_spec s r rest :
  inv s (r :: rest) →
  ∃ s', select_step limit base s r = Ok s' ∧ inv s' rest ∧
    ((s' = keep_pending r s ∧
       (Z.of_nat (length (se_selected s)) < limit →
          ¬ ∃ sender, spendable (se_state s) base sender (pr_transaction r))) ∨
     (se_progress s' = true ∧ length (se_selected s') = S (length (se_selected s)))).
Proof.
  intros Hinv. pose proof (selecting_ok _ _ Hinv) as Hok'.
  destruct (selecting_new _ _ _ Hinv) as [Hnew Hr]. unfold select_step.
  destruct (limit <=? _) eqn:El.
  { apply Z.leb_le in El. eexists; split; [done|]. split; [by apply selecting_keep|]. left. split; [done|lia]. }
  apply Z.leb_gt in El. rewrite bool_decide_eq_false_2 by done.
  destruct (is_err _) eqn:Ev.
  { apply validate_pending_is_err in Ev; [|done..].
    eexists; split; [done|]. split; [by apply selecting_keep|]. by left. }
  apply is_err_false in Ev as [[] Ev]. apply validate_pending_Ok in Ev as [sender Hsp]; [|done..].
  rewrite (apply_pending_spend _ _ sender) by done. cbn [mbind result_bind].
  eexists; split; [done|]. destruct Hinv as [Hs Hh Hall Hl].
  split; [|right; cbn [se_progress se_selected]; rewrite length_app; simpl; split; [done|lia]].
  split; cbn [se_state se_selected se_hashes se_still].
  - rewrite fmap_app. by apply spends_snoc.
  - rewrite fmap_app, list_to_set_app_L, Hh. simpl. set_solver.
  - rewrite <- Hall, <- app_assoc. apply Permutation_app_head. simpl. apply Permutation_middle.
  - rewrite length_app. simpl. lia.
Qed.

(** One pass. *)
Lemma select_pass_spec s rest :
  inv s rest →
  ∃ s', try_fold (select_step limit base) s rest = Ok s' ∧ inv s' [] ∧
    (length (se_selected s) <= length (se_selected s'))%nat ∧
    ((se_progress s' = true ∧ (se_progress s = true ∨ (length (se_selected s) < length (se_selected s'))%nat)) ∨
     (s' = mkSelection (se_state s) (se_selected s) (se_hashes s) (se_still s ++ rest) (se_progress s) ∧
      (Z.of_nat (length (se_selected s)) < limit →
        Forall (λ r, ¬ ∃ sender, spendable (se_state s) base sender (pr_transaction r)) rest))).
Proof.
  revert s. induction rest as [|r rest IH]; intros s Hinv.
  { exists s. split_and!; [done|done|done|]. right. rewrite app_nil_r. split; [by destruct s | constructor]. }
  destruct (select_step_spec s r rest Hinv) as (s1 & E1 & Hinv1 & Hcase).
  destruct (IH s1 Hinv1) as (s' & E' & Hinv' & Hlen & Hres).
  exists s'. split; [by apply try_fold_cons_Ok; exists s1|]. split; [done|].
  destruct Hcase as [[-> Hno]|[Hp Hl]].
  - cbn [keep_pending se_state se_selected se_hashes se_still se_progress] in *. split; [done|].
    destruct Hres as [?|[-> Hall]]; [by left|]. right. split; [by rewrite <- app_assoc|].
    intros Hlt. constructor; auto.
  - split; [lia|]. left. destruct Hres as [[? _]|[-> _]]; simpl; (split; [done|right]); simpl in *; lia.
Qed.

(** All passes: they do not fail, and when the fuel exceeds what is left to
    look at, a short selection leaves nothing selectable behind. *)
Lemma select_passes_spec fuel s :
  inv s [] →
  ∃ s', select_passes fuel limit base s = Ok s' ∧ inv s' [] ∧
    ((length (se_still s) < fuel)%nat → Z.of_nat (length (se_selected s')) < limit →
       Forall (λ r, ¬ ∃ sender, spendable (se_state s') base sender (pr_transaction r)) (se_still s')).
Proof.
  revert s. induction fuel as [|fuel IH]; intros s Hinv.
  { exists s. split_and!; [done|done|lia]. }
  cbn [select_passes]. destruct (_ || _) eqn:Estop.
  { exists s. split_and!; [done|done|]. intros _ Hlt. apply orb_true_iff in Estop as [E|E].
    - apply Z.leb_le in E. lia.
    - apply bool_decide_eq_true in E as ->. constructor. }
  set (s0 := mkSelection (se_state s) (se_selected s) (se_hashes s) [] false).
  assert (inv s0 (se_still s)) as Hinv0.
  { destruct Hinv as [? ? Hall ?]. split; try done. simpl. by rewrite app_nil_r in Hall. }
  destruct (select_pass_spec s0 (se_still s) Hinv0) as (s1 & -> & Hinv1 & Hlen & Hres).
  cbn [mbind result_bind]. destruct Hres as [[Hp Hgrow]|[-> Hall]].
  - rewrite Hp. cbn [negb]. destruct (IH s1 Hinv1) as (s' & -> & Hinv' & Hmax).
    exists s'. split_and!; [done|done|]. intros Hf. apply Hmax.
    destruct Hgrow as [?|Hgrow]; [done|]. pose proof (sg_all _ _ _ _ _ _ Hinv) as P.
    pose proof (sg_all _ _ _ _ _ _ Hinv1) as P1. apply Permutation_length in P, P1.
    rewrite !length_app in P, P1. simpl in *. lia.
  - cbn [s0 se_progress negb]. eexists; split_and!; [done | exact Hinv1 |].
    simpl. intros _ Hlt. by apply Hall.
Qed.

End selection.

Lemma select_spec now c records limit :
  ledger_ok (ch_state c) → Forall record_wf records → 0 < limit →
  ∃ selected skipped st,
    select_pending_for_template now c records limit = Ok (selected, skipped) ∧
    spends (anticipated c) (ch_state c) (txs_of selected) st ∧
    Z.of_nat (length selected) <= limit ∧ hashes selected ++ skipped ≡ₚ hashes records ∧
    NoDup (hashes selected) ∧
    Forall (λ r, r ∈ records ∧ record_wf r ∧ fresh now DEFAULT_MEMPOOL_MAX_AGE_SECONDS r ∧
      (pr_tx_hash r ∉ mined_transaction_hashes c)) selected ∧
    ((length records < 63)%nat → Z.of_nat (length selected) < limit →
     ∀ r, r ∈ records → fresh now DEFAULT_MEMPOOL_MAX_AGE_SECONDS r →
       pr_tx_hash r ∉ mined_transaction_hashes c → pr_tx_hash r ∉ hashes selected →
       ∃ q, q ∈ records ∧ pr_tx_hash q = pr_tx_hash r ∧
         ¬ ∃ sender, spendable st (anticipated c) sender (pr_transaction q)).
Proof.
  intros Hok Hwf Hl. unfold select_pending_for_template. rewrite (proj2 (Z.eqb_neq limit 0)) by lia.
  cbv zeta. fold (anticipated c).
  destruct (filter_pending_candidates now c records _) as [cs early] eqn:E.
  apply filter_loop_spec in E as (Hsub & Hp & Hn & Hf & Hcomplete). unfold sort_pending_by_fee_desc.
  pose proof (sort_by_perm (fee_desc_cmp (anticipated c)) cs) as Hperm.
  set (cands := sort_by (fee_desc_cmp (anticipated c)) cs) in *.
  assert (Forall record_wf cands) as Hwf' by (rewrite Hperm; by eapply sublist_Forall).
  assert (NoDup (hashes cands)) as Hn' by (by rewrite Hperm).
  destruct (select_passes_spec (anticipated c) limit (ch_state c) cands Hok (anticipated_nonneg c)
    Hwf' Hn' (Nat.min (length cands + 1) 64) (mkSelection (ch_state c) [] ∅ cands false))
    as (s & -> & [Hs _ Hall Hle] & Hmax).
  { split; [constructor | done | by rewrite app_nil_r | simpl; lia]. }
  cbn [mbind result_bind]. rewrite app_nil_r in Hall.
  exists (se_selected s), (early ++ (hashes (se_still s))), (se_state s).
  assert (∀ r, r ∈ se_selected s ++ se_still s ↔ r ∈ cs) as Hin by (intros r; by rewrite Hall, Hperm).
  assert (∀ r, r ∈ cs → r ∈ records) as Hin' by (intros r Hr; by eapply elem_of_sublist).
  rewrite Forall_forall in Hf, Hwf. split_and!; try done.
  - rewrite <- Hp, (Permutation_app_comm early), app_assoc, <- fmap_app, Hall, Hperm. done.
  - rewrite <- Hall, fmap_app in Hn'. by apply NoDup_app in Hn' as (? & _).
  - apply Forall_forall. intros r Hr. assert (r ∈ cs) as Hrc by (apply Hin, elem_of_app; auto).
    destruct (Hf r Hrc) as (? & ? & _). auto.
  - intros Hlen Hlt r Hr Hfr Hmr Hsel.
    assert (pr_tx_hash r ∈ hashes cs) as Hrc by (apply Hcomplete; [done..|set_solver]).
    apply list_elem_of_fmap in Hrc as (q & Hq & Hqc). exists q. split_and!; [by apply Hin' | done |].
    apply Hin, elem_of_app in Hqc as [Hqs|Hqs].
    { exfalso. apply Hsel. rewrite Hq. by apply list_elem_of_fmap_2. }
    cbn [se_still] in Hmax. assert (length cands <= length records)%nat as Hcl
      by (rewrite Hperm; by apply sublist_length).
    specialize (Hmax ltac:(lia) Hlt). rewrite Forall_forall in Hmax. by apply Hmax.
Qed.

(** C32. Template selection: on every reachable chain it returns, without an
    error, at most [limit] fresh, unmined and distinct pending records whose
    spends run on the tip in the returned order, and it accounts for every
    given id.  When the pool has fewer than 63 records the selection is maximal:
    if it stays below the limit, no eligible record left out could be applied
    after it (up to another record with the same id). *)
Theorem select_pending_correct now n c records limit :
  chain_reachable n c → Forall record_wf records → 0 < limit →
  ∃ selected skipped st,
    select_pending_for_template now c records limit = Ok (selected, skipped) ∧
    spends (anticipated c) (ch_state c) (txs_of selected) st ∧
    Z.of_nat (length selected) <= limit ∧ hashes selected ++ skipped ≡ₚ hashes records ∧
    NoDup (hashes selected) ∧
    Forall (λ r, r ∈ records ∧ record_wf r ∧ fresh now DEFAULT_MEMPOOL_MAX_AGE_SECONDS r ∧
      (pr_tx_hash r ∉ mined_transaction_hashes c)) selected ∧
    ((length records < 63)%nat → Z.of_nat (length selected) < limit →
     ∀ r, r ∈ records → fresh now DEFAULT_MEMPOOL_MAX_AGE_SECONDS r →
       pr_tx_hash r ∉ mined_transaction_hashes c → pr_tx_hash r ∉ hashes selected →
       ∃ q, q ∈ records ∧ pr_tx_hash q = pr_tx_hash r ∧
         ¬ ∃ sender, spendable st (anticipated c) sender (pr_transaction q)).
Proof. intros Hok%reachable_ledger_ok. by apply select_spec. Qed.

End admission.

(** * Package eviction *)

Lemma foldl_min_spec {A} (cmp : A → A → comparison) `{!TotalCmp cmp} l x :
  let best := foldl (λ best y, match cmp best y with Gt => y | _ => best end) x l in
  best ∈ x :: l ∧ ∀ y, y ∈ x :: l → cmp best y ≠ Gt.
Proof.
  revert x. induction l as [|z l IH]; intros x; cbn [foldl].
  { split; [set_solver|]. intros y ->%list_elem_of_singleton. by rewrite (cmp_refl cmp). }
  set (x' := match cmp x z with Gt => z | _ => x end). destruct (IH x') as [Hin Hle].
  assert (cmp x' x ≠ Gt ∧ cmp x' z ≠ Gt ∧ (x' = x ∨ x' = z)) as (Hx & Hz & Hor).
  { unfold x'. pose proof (cmp_opp cmp x z) as Ho. pose proof (cmp_refl cmp x). pose proof (cmp_refl cmp z).
    destruct (cmp x z) eqn:E; split_and!; rewrite ?Ho; simpl in *; auto; congruence. }
  fold x' in Hin, Hle |- *. set (b := foldl _ x' l) in *.
  split; [apply elem_of_cons in Hin as [->|Hin]; [destruct Hor as [->| ->]|]; rewrite !elem_of_cons; auto|].
  intros y [->|[->|Hy]%elem_of_cons]%elem_of_cons.
  - apply (cmp_le_trans cmp b x' x); [apply Hle; left | done].
  - apply (cmp_le_trans cmp b x' z); [apply Hle; left | done].
  - apply Hle. by right.
Qed.

Lemma min_by_spec {A} (cmp : A → A → comparison) `{!TotalCmp cmp} l :
  match min_by cmp l with
  | Some x => x ∈ l ∧ ∀ y, y ∈ l → cmp x y ≠ Gt
  | None => l = []
  end.
Proof. destruct l as [|x l]; [done|]. apply (foldl_min_spec cmp l x). Qed.

#[global] Instance total_package : TotalCmp package_cmp.
Proof. unfold package_cmp. repeat apply (total_cmp_then (λ a b, _) (λ a b, _)); apply _. Qed.

(** [m] is the least tip and [t] the oldest time among the records of [s]. *)
Record is_package (base : Amount) (records : list PendingTransactionRecord) (s : string)
    (m t : Z) : Prop := {
  pk_tip : ∃ r, r ∈ records ∧ tx_from (pr_transaction r) = Some s ∧ effective_priority_atomic base r = m;
  pk_time : ∃ r, r ∈ records ∧ tx_from (pr_transaction r) = Some s ∧ pr_received_at r = t;
  pk_least r : r ∈ records → tx_from (pr_transaction r) = Some s →
    m <= effective_priority_atomic base r ∧ t <= pr_received_at r;
}.

Lemma packages_spec base records s :
  match foldl (package_step base) ∅ records !! s with
  | Some (m, t) => is_package base records s m t
  | None => ∀ r, r ∈ records → tx_from (pr_transaction r) ≠ Some s
  end.
Proof.
  induction records as [|r l IH] using rev_ind.
  { cbn [foldl]. rewrite lookup_empty. set_solver. }
  rewrite foldl_app. cbn [foldl]. set (pk := foldl (package_step base) ∅ l) in *.
  unfold package_step. destruct (tx_from (pr_transaction r)) as [s'|] eqn:Hr.
  - destruct (decide (s' = s)) as [->|Hne].
    + rewrite lookup_insert_eq. destruct (pk !! s) as [[m t]|] eqn:E; cbn [default from_option id fst snd].
      * destruct IH as [[q (Hq & Hqs & Hqm)] [q' (Hq' & Hqs' & Hqt)] Hle]. split.
        -- destruct (Z.min_spec m (effective_priority_atomic base r)) as [[_ ->]|[_ ->]];
             [exists q | exists r]; rewrite elem_of_app; set_solver.
        -- destruct (Z.min_spec t (pr_received_at r)) as [[_ ->]|[_ ->]];
             [exists q' | exists r]; rewrite elem_of_app; set_solver.
        -- intros x [Hx| ->%list_elem_of_singleton]%elem_of_app Hxs; [|lia].
           destruct (Hle x Hx Hxs). lia.
      * rewrite !Z.min_id. split.
        -- exists r. rewrite elem_of_app. set_solver.
        -- exists r. rewrite elem_of_app. set_solver.
        -- intros x [Hx| ->%list_elem_of_singleton]%elem_of_app Hxs; [|lia]. by destruct (IH x Hx).
    + rewrite lookup_insert_ne by done. destruct (pk !! s) as [[m t]|].
      * destruct IH as [[q (Hq & Hqs & Hqm)] [q' (Hq' & Hqs' & Hqt)] Hle]. split.
        -- exists q. rewrite elem_of_app. auto.
        -- exists q'. rewrite elem_of_app. auto.
        -- intros x [Hx| ->%list_elem_of_singleton]%elem_of_app Hxs; [by apply Hle | congruence].
      * intros x [Hx| ->%list_elem_of_singleton]%elem_of_app; [by apply IH | congruence].
  - destruct (pk !! s) as [[m t]|].
    + destruct IH as [[q (Hq & Hqs & Hqm)] [q' (Hq' & Hqs' & Hqt)] Hle]. split.
      * exists q. rewrite elem_of_app. auto.
      * exists q'. rewrite elem_of_app. auto.
      * intros x [Hx| ->%list_elem_of_singleton]%elem_of_app Hxs; [by apply Hle | congruence].
    + intros x [Hx| ->%list_elem_of_singleton]%elem_of_app; [by apply IH | congruence].
Qed.

Lemma is_package_det base records s m t m' t' :
  is_package base records s m t → is_package base records s m' t' → m = m' ∧ t = t'.
Proof.
  intros [(r & Hr & Hs & <-) (q & Hq & Hqs & <-) Hl] [(r' & Hr' & Hs' & <-) (q' & Hq' & Hqs' & <-) Hl'].
  destruct (Hl r' Hr' Hs'), (Hl' r Hr Hs), (Hl q' Hq' Hqs'), (Hl' q Hq Hqs). lia.
Qed.

(** Eviction picks the weakest package: the chosen sender's lowest tip is
    strictly below the incoming tip, and no other such sender comes before it by
    lowest tip, then oldest record, then name.  Without a choice, every pending
    record of a sender already tips at least as much. *)
Theorem lowest_fee_sender_package_spec records base incoming_tip :
  match lowest_fee_sender_package records base incoming_tip with
  | Some s => ∃ m t, is_package base records s m t ∧ m < incoming_tip ∧
      ∀ s' m' t', is_package base records s' m' t' → m' < incoming_tip →
        package_cmp (s, (m, t)) (s', (m', t')) ≠ Gt
  | None => ∀ r, r ∈ records → is_Some (tx_from (pr_transaction r)) →
      incoming_tip <= effective_priority_atomic base r
  end.
Proof.
  unfold lowest_fee_sender_package. cbv zeta. set (pk := foldl (package_step base) ∅ records).
  set (l := filter _ (btree_entries pk)). pose proof (min_by_spec package_cmp l) as Hmin.
  assert (∀ s m t, (s, (m, t)) ∈ l ↔ m < incoming_tip ∧ pk !! s = Some (m, t)) as Hl.
  { intros s m t. unfold l, btree_entries.
    by rewrite list_elem_of_filter, elem_of_sort_by, elem_of_map_to_list. }
  assert (∀ s m t, is_package base records s m t ↔ pk !! s = Some (m, t)) as Hpk.
  { intros s m t. pose proof (packages_spec base records s) as Hs. fold pk in Hs. split.
    - intros Hp. destruct (pk !! s) as [[m' t']|].
      + by destruct (is_package_det _ _ _ _ _ _ _ Hp Hs) as [-> ->].
      + destruct (pk_tip _ _ _ _ _ Hp) as (r & Hr & Hrs & _). by destruct (Hs r Hr).
    - intros E. by rewrite E in Hs. }
  destruct (min_by package_cmp l) as [[s [m t]]|]; cbn [fmap option_fmap option_map fst].
  - destruct Hmin as [[Hm Hs]%Hl Hle]. exists m, t. split_and!; [by apply Hpk | done |].
    intros s' m' t' Hp' Hm'. apply Hle, Hl. by rewrite <- Hpk.
  - intros r Hr [s Hs]. destruct (pk !! s) as [[m t]|] eqn:E.
    + apply Hpk in E as Hp. destruct (pk_least _ _ _ _ _ Hp r Hr Hs).
      destruct (decide (m < incoming_tip)) as [Hm|]; [|lia].
      assert ((s, (m, t)) ∈ l) as Hin by (by apply Hl). rewrite Hmin in Hin. by apply elem_of_nil in Hin.
    + pose proof (packages_spec base records s) as Hn. fold pk in Hn. rewrite E in Hn. by destruct (Hn r Hr).
Qed.
