(* ===== verification/Node.v ===== *)
(** [vireon-node/src/devnet.rs]: submission of transactions to the pool and
    assembly of block templates.  The files are data: the loaded chain is an
    argument, the pool file is the state, written last; each reading of the
    clock is an argument. *)

From S2P Require Import Prelude RustStd Interfaces Crypto Errors Network Amount Signing Address Transaction Block Pow Consensus State Ledger Chain Genesis NodeConfig Mempool.

Definition MAX_BLOCK_TEMPLATE_TRANSACTIONS : Z := 10000.

Record SubmitTransactionSummary := {
  sts_status : string;
  sts_tx_hash : string;
  sts_lifecycle_status : string;
  sts_mempool_size : Z;
}.

Record BlockTemplate := {
  bt_network_id : string;
  bt_tip_hash : string;
  bt_created_at : Z;
  bt_block : Block;
  bt_included_tx_hashes : list string;
  bt_skipped_tx_hashes : list string;
}.

Definition prototype_mode (n : Network) : string := (status_label n ++ " / Prototype")%string.

(** ** The per-sender cap *)

(** Indices of the sender's records. *)
Definition same_sender (sender : string) (records : list PendingTransactionRecord) : list nat :=
  fst <$> filter (λ p, tx_from (pr_transaction p.2) = Some sender) (imap pair records).

Definition tip_at (base_fee : Amount) (records : list PendingTransactionRecord) (i : nat) : Z :=
  match records !! i with Some r => effective_priority_atomic base_fee r | None => 0 end.
Definition received_at (records : list PendingTransactionRecord) (i : nat) : Z :=
  match records !! i with Some r => pr_received_at r | None => 0 end.

(** The indices to drop: lowest tips first, oldest first among equals, one more
    than the excess over the cap; in decreasing order. *)
Definition drop_indices (base_fee : Amount) (records : list PendingTransactionRecord)
    (same : list nat) : list nat :=
  let sorted := sort_by (λ a b, then_with (tip_at base_fee records a ?= tip_at base_fee records b)
    (received_at records a ?= received_at records b)) same in
  let drop_count := saturating_sub (saturating_add 64 (Z.of_nat (length same)) 1)
    MAX_PENDING_TXS_PER_SENDER in
  sort_by (λ a b, Nat.compare b a) (take (Z.to_nat drop_count) sorted).

(** [valid_records.remove(idx)] for each index. *)
Definition remove_indices (records : list PendingTransactionRecord) (idxs : list nat)
    : list PendingTransactionRecord := foldl (λ l i, delete i l) records idxs.

Section node.
Context `{Primitives}.

Definition cap_sender (t_cap : Z) (c : Chain) (tx : Transaction)
    (valid : list PendingTransactionRecord) (pending_state : LedgerState)
    : NodeResult (list PendingTransactionRecord * LedgerState) :=
  match tx_from tx with
  | None => Ok (valid, pending_state)
  | Some sender =>
      let same := same_sender sender valid in
      if MAX_PENDING_TXS_PER_SENDER <=? Z.of_nat (length same) then
        let anticipated_fee := next_base_fee (last (ch_blocks c)) in
        let kept := remove_indices valid (drop_indices anticipated_fee valid same) in
        '(rebuilt, _, new_state) ← sanitize_pending_transactions t_cap c kept;
        Ok (rebuilt, new_state)
      else Ok (valid, pending_state)
  end.

(** Eviction of the weakest sender package when the pool is full. *)
Definition evict_package (t_evict : Z) (c : Chain) (max_mempool_transactions : Z) (tx : Transaction)
    (valid : list PendingTransactionRecord) (pending_state : LedgerState)
    : NodeResult (list PendingTransactionRecord * LedgerState) :=
  let base_fee := next_base_fee (last (ch_blocks c)) in
  if max_mempool_transactions <=? Z.of_nat (length valid) then
    let incoming_tip := unwrap_or 0 (effective_priority_fee tx base_fee) in
    match lowest_fee_sender_package valid base_fee incoming_tip with
    | None => Err (MempoolFull max_mempool_transactions)
    | Some victim_sender =>
        let kept := filter (λ r, tx_from (pr_transaction r) ≠ Some victim_sender) valid in
        '(rebuilt, _, new_state) ← sanitize_pending_transactions t_evict c kept;
        if max_mempool_transactions <=? Z.of_nat (length rebuilt)
        then Err (MempoolFull max_mempool_transactions) else Ok (rebuilt, new_state)
    end
  else Ok (valid, pending_state).

(** [submit_transaction] with the clock readings of its admission, cap and
    eviction passes and of the new record. *)
Definition submit_transaction (t_admit t_cap t_evict t_push : Z) (c : Chain)
    (max_mempool_transactions : Z) (tx : Transaction)
    : state_result (list PendingTransactionRecord) NodeError SubmitTransactionSummary :=
  let tx_hash := tx_hash_string tx in
  if existsb (λ b, existsb (λ existing, bool_decide (tx_hash_string existing = tx_hash)) (transactions b))
       (ch_blocks c)
  then sr_lift (Err (Input ("transaction " ++ tx_hash ++ " already exists in the local chain")%string)) else
  transaction_network ← sr_lift (map_err Core (Transaction_network tx));
  if negb (bool_decide (transaction_network = ch_network c))
  then sr_lift (Err (NetworkMismatch (network_id (ch_network c)) (network_id transaction_network))) else
  existing_records ← sr_get;
  '(valid, _, pending_state) ← sr_lift (sanitize_pending_transactions t_admit c existing_records);
  if existsb (λ r, bool_decide (pr_tx_hash r = tx_hash)) valid
  then sr_lift (Err (Input ("transaction " ++ tx_hash ++ " already exists in the local mempool")%string)) else
  '(valid, pending_state) ← sr_lift (cap_sender t_cap c tx valid pending_state);
  let anticipated_base_fee := next_base_fee (last (ch_blocks c)) in
  '(valid, pending_state) ← sr_lift (evict_package t_evict c max_mempool_transactions tx valid pending_state);
  _ ← sr_lift (validate_pending_transaction pending_state tx anticipated_base_fee);
  _ ← sr_lift (apply_pending pending_state tx anticipated_base_fee);
  let valid := valid ++ [mkPending tx_hash t_push tx] in
  _ ← sr_modify (λ _, valid);
  mret {| sts_status := prototype_mode (ch_network c); sts_tx_hash := tx_hash;
          sts_lifecycle_status := "pending"; sts_mempool_size := Z.of_nat (length valid) |}.

(** ** Block templates *)

(** [create_block_template] on the loaded configuration, chain and pool, with
    the clock readings of the selection and of the template and the path of the
    chain database. *)
Definition create_block_template (t_select now : Z) (database_path : string) (config : NetworkConfig) (c : Chain)
    (pending_records : list PendingTransactionRecord) (miner_address : string) (max_transactions : Z)
    : NodeResult BlockTemplate :=
  if (max_transactions =? 0) || (max_transactions >? MAX_BLOCK_TEMPLATE_TRANSACTIONS)
  then Err (Input ("max_transactions must be between 1 and "
         ++ uint_to_string MAX_BLOCK_TEMPLATE_TRANSACTIONS)%string) else
  _ ← map_err (λ e, Input (VireonError_fmt e)) (Address_parse miner_address);
  let consensus_user_tx_cap := saturating_sub MAX_TRANSACTIONS_PER_BLOCK 1 in
  let limit := Z.min (Z.min max_transactions (cfg_max_mempool_transactions config))
    consensus_user_tx_cap in
  '(selected, skipped) ← select_pending_for_template t_select c pending_records limit;
  let txs := pr_transaction <$> selected in
  previous ← ok_or (ChainNotInitialized database_path) (last (ch_blocks c));
  let base_fee := next_base_fee (Some previous) in
  priority_fees ← map_err Core (try_fold (collect_priority_fee base_fee) Amount_ZERO txs);
  let height := wrapping_add 64 (bh_height (header previous)) 1 in
  amount ← map_err Core (amount_checked_add (block_reward height) priority_fees);
  coinbase ← map_err Core (Transaction_coinbase height miner_address amount);
  let mtp_floor := match median_time_past (ch_blocks c) with
                   | Some m => saturating_add 64 m 1 | None => 0 end in
  let min_timestamp := Z.max (saturating_add 64 (bh_timestamp (header previous)) 1) mtp_floor in
  block ← map_err Core (Block_new (cfg_network config) height (block_hash previous) base_fee
    (Z.max now min_timestamp)
    (next_difficulty_for_network (cfg_network config) (ch_blocks c)
       (cfg_difficulty_leading_zero_bits config))
    (coinbase :: txs));
  Ok {| bt_network_id := cfg_network_id config; bt_tip_hash := hash_to_hex (block_hash previous);
        bt_created_at := now; bt_block := block;
        bt_included_tx_hashes := pr_tx_hash <$> selected; bt_skipped_tx_hashes := skipped |}.

End node.

(** * Templates *)

Section templates.
Context `{PrimitivesOk}.

Lemma Transaction_coinbase_total height a amount :
  address_wf a → amount ≠ 0 →
  Transaction_coinbase height (Address_to_string a) amount =
    Ok (mkTransaction 1 height None (Address_to_string a) amount Amount_ZERO Amount_ZERO None None None).
Proof.
  intros Ha Hz. unfold Transaction_coinbase, Transaction_new. cbv zeta.
  unfold validate_shape. cbn [tx_to tx_amount tx_max_fee tx_priority_fee].
  rewrite str_is_empty_false by by apply Address_to_string_nonblank.
  rewrite Address_parse_to_string by done. cbn [mbind result_bind].
  by rewrite (proj2 (Z.eqb_neq amount Amount_ZERO)).
Qed.

(** Tips are paid out of balances. *)
Lemma spends_tips_bound base st txs st' :
  ledger_ok st → 0 <= base → Forall tx_wf txs → spends base st txs st' →
  0 <= total_tips base txs <= MAX_SUPPLY_ATOMIC.
Proof.
  intros Hok Hb Hwf Hs. pose proof (total_tips_nonneg base txs Hwf (spends_pays _ _ _ _ Hs)).
  destruct (spends_totals _ _ _ _ Hok Hb Hwf Hs) as ([Hn Hu _] & Ht & _).
  pose proof (total_nonneg _ Hn). pose proof (lok_supply st Hok). lia.
Qed.

(** The template's timestamp: the tip is at or after the median. *)
Lemma template_timestamp n c p now :
  chain_ok n c → last (ch_blocks c) = Some p →
  Z.max now (Z.max (saturating_add 64 (bh_timestamp (header p)) 1)
    match median_time_past (ch_blocks c) with Some m => saturating_add 64 m 1 | None => 0 end) =
  Z.max now (saturating_add 64 (bh_timestamp (header p)) 1).
Proof.
  intros Hc Hp. assert (0 <= bh_timestamp (header p)) as Hts.
  { pose proof (co_wf n c Hc) as Hwf. rewrite Forall_forall in Hwf.
    rewrite last_lookup in Hp. apply list_elem_of_lookup_2 in Hp. by apply (Hwf p Hp). }
  destruct (median_time_past (ch_blocks c)) as [m|] eqn:E.
  - pose proof (chain_median_le n c p m Hc Hp E). unfold saturating_add. lia.
  - unfold saturating_add, umax. lia.
Qed.

Lemma tip_network n c p :
  chain_ok n c → last (ch_blocks c) = Some p → Block_network p = Ok n.
Proof.
  intros Hc Hp. rewrite last_lookup in Hp. destruct (co_rules n c Hc _ p Hp) as [? Hv].
  unfold Block_network. by rewrite (vb_network _ _ _ _ _ _ Hv), from_network_id_id.
Qed.

(** The transaction count that keeps nonces below saturation. *)
Definition few_transactions (c : Chain) : Prop :=
  Z.of_nat (length (all_transactions (ch_blocks c))) + 2048 <= umax 64.

Lemma chain_nonce_bound n c a :
  chain_ok n c → few_transactions c → next_nonce_of (ch_state c) a + 1024 <= umax 64.
Proof.
  intros Hc Hfew. destruct (history_next_nonce _ _ a (co_history n c Hc)) as [_ ->].
  assert (length (nonces_of a (all_transactions (ch_blocks c))) <= length (all_transactions (ch_blocks c)))%nat.
  { unfold nonces_of. rewrite length_fmap. apply length_filter. }
  unfold few_transactions, nth_nonce in *. lia.
Qed.

Lemma collect_total base st txs st' :
  ledger_ok st → 0 <= base → Forall tx_wf txs → spends base st txs st' →
  try_fold (collect_priority_fee base) Amount_ZERO txs = Ok (total_tips base txs).
Proof.
  intros Hok Hb Hwf Hs. pose proof (spends_tips_bound _ _ _ _ Hok Hb Hwf Hs).
  apply collect_fold_Ok; [by vm_compute | done |]. split_and!; [by eapply spends_pays | done |].
  unfold MAX_SUPPLY_ATOMIC, umax in *. lia.
Qed.

(** Template assembly on a reachable chain always succeeds while there is
    something to mint, and yields a child of the tip. *)
Lemma template_total t_select now path config n c p pool a max_transactions :
  chain_reachable n c → last (ch_blocks c) = Some p → cfg_network config = n →
  Forall record_wf pool → address_wf a →
  1 <= max_transactions <= MAX_BLOCK_TEMPLATE_TRANSACTIONS → 0 < cfg_max_mempool_transactions config →
  block_reward (wrapping_add 64 (bh_height (header p)) 1) ≠ 0 →
  ∃ t cb selected st1,
    create_block_template t_select now path config c pool (Address_to_string a) max_transactions = Ok t ∧
    bt_included_tx_hashes t = hashes selected ∧
    hashes selected ++ bt_skipped_tx_hashes t ≡ₚ hashes pool ∧
    Forall record_wf selected ∧ Z.of_nat (length selected) < MAX_TRANSACTIONS_PER_BLOCK ∧
    spends (next_base_fee (Some p)) (ch_state c) (txs_of selected) st1 ∧
    child_of p (Address_to_string a) now (txs_of selected)
      (next_difficulty_for_network n (ch_blocks c) (cfg_difficulty_leading_zero_bits config)) n cb (bt_block t).
Proof.
  intros Hc Hp Hcfg Hpool Ha Hmax Hmem Hrew. pose proof (reachable_ledger_ok n c Hc) as Hok.
  apply chain_reachable_ok in Hc. unfold create_block_template. cbv zeta.
  rewrite (proj2 (Z.eqb_neq max_transactions 0)), Z.gtb_ltb, (proj2 (Z.ltb_ge _ _)) by lia.
  cbn [orb]. rewrite Address_parse_to_string by done. cbn [map_err mbind result_bind].
  change (saturating_sub MAX_TRANSACTIONS_PER_BLOCK 1) with 1023.
  set (limit := Z.min _ 1023).
  destruct (select_spec t_select c pool limit Hok Hpool) as
    (selected & skipped & st1 & -> & Hs & Hlen & Hperm & _ & Hall & _); [lia|].
  cbn [mbind result_bind]. rewrite Hp. cbn [ok_or mbind result_bind].
  unfold anticipated in Hs. rewrite Hp in Hs.
  assert (0 <= next_base_fee (Some p)) as Hb by (pose proof (next_base_fee_pos (Some p)); lia).
  assert (Forall record_wf selected) as Hwf by (eapply Forall_impl; [exact Hall|]; by intros ? (_ & ? & _)).
  pose proof (records_wf _ Hwf) as Hwft.
  rewrite (collect_total _ _ _ _ Hok Hb Hwft Hs). cbn [map_err mbind result_bind].
  pose proof (spends_tips_bound _ _ _ _ Hok Hb Hwft Hs) as Htips.
  set (height := wrapping_add 64 (bh_height (header p)) 1) in *.
  assert (0 <= height) as Hh by (unfold height, wrapping_add, uwrap; apply Z.mod_pos_bound; done).
  pose proof (block_reward_range height Hh) as Hr.
  rewrite amount_add_total by (unfold MAX_SUPPLY_ATOMIC, INITIAL_BLOCK_REWARD_ATOMIC, umax in *; lia).
  cbn [map_err mbind result_bind].
  assert (block_reward height + total_tips (next_base_fee (Some p)) (txs_of selected) ≠ 0) as Hz by lia.
  rewrite (Transaction_coinbase_total height a _ Ha Hz). cbn [map_err mbind result_bind].
  rewrite (template_timestamp n c p now Hc Hp), Hcfg.
  unfold Block_new, Block_new_with_version. rewrite bool_decide_eq_false_2 by done.
  destruct (compute_merkle_root_total (mkTransaction 1 height None (Address_to_string a)
    (block_reward height + total_tips (next_base_fee (Some p)) (txs_of selected)) Amount_ZERO Amount_ZERO
    None None None :: txs_of selected)) as [root Hroot]; [done|].
  rewrite Hroot. cbn [mbind result_bind map_err]. eexists _, _, selected, st1.
  split; [reflexivity|]. cbn [bt_included_tx_hashes bt_skipped_tx_hashes bt_block].
  split_and!; try done; [unfold MAX_TRANSACTIONS_PER_BLOCK; lia|].
  split; try done; [by apply (tip_network n c) | by eapply spends_pays |
    by apply Transaction_coinbase_total | apply expected_block_version_launch].
Qed.

(** Everything the pool and the miner must provide for a child, from what
    selection guarantees. *)
Lemma selection_includable n c p selected st1 :
  chain_reachable n c → few_transactions c → last (ch_blocks c) = Some p →
  Forall record_wf selected → Z.of_nat (length selected) < MAX_TRANSACTIONS_PER_BLOCK →
  spends (next_base_fee (Some p)) (ch_state c) (txs_of selected) st1 →
  Forall (λ tx, Z.of_nat (length (encode tx)) <= MAX_TRANSACTION_WIRE_BYTES) (txs_of selected) →
  includable n c p (txs_of selected) st1.
Proof.
  intros Hc Hfew Hp Hwf%records_wf Hlen Hs Hwire. pose proof (reachable_ledger_ok n c Hc) as Hok.
  assert (0 <= next_base_fee (Some p)) as Hb by (pose proof (next_base_fee_pos (Some p)); lia).
  unfold MAX_TRANSACTIONS_PER_BLOCK in Hlen. split; [by rewrite length_fmap | done | | | done].
  - by apply (spends_network n _ _ _ _ Hs (chain_reachable_accounts n c Hc) Hok Hwf Hb).
  - apply (spends_distinct _ _ _ _ Hs). intros a. rewrite length_fmap.
    pose proof (chain_nonce_bound n c a (chain_reachable_ok n c Hc) Hfew). lia.
Qed.

Lemma template_rules t_select now path config n c p pool a max_transactions :
  chain_reachable n c → few_transactions c → Z.of_nat (length (ch_blocks c)) < 2 ^ 64 →
  last (ch_blocks c) = Some p → cfg_network config = n →
  Forall record_wf pool → address_wf a → addr_network a = n →
  1 <= max_transactions <= MAX_BLOCK_TEMPLATE_TRANSACTIONS → 0 < cfg_max_mempool_transactions config →
  block_reward (wrapping_add 64 (bh_height (header p)) 1) ≠ 0 →
  ∃ t cb selected st1,
    create_block_template t_select now path config c pool (Address_to_string a) max_transactions = Ok t ∧
    transactions (bt_block t) = cb :: txs_of selected ∧
    bt_included_tx_hashes t = hashes selected ∧
    hashes selected ++ bt_skipped_tx_hashes t ≡ₚ hashes pool ∧
    spends (next_base_fee (Some p)) (ch_state c) (txs_of selected) st1 ∧
    ∀ nonce mix now', let b := set_nonce_mix nonce mix (bt_block t) in
      block_wf b → solved b →
      Forall (λ tx, Z.of_nat (length (encode tx)) <= MAX_TRANSACTION_WIRE_BYTES) (transactions b) →
      tx_hash_hex cb ∉ applied_transaction_hashes st1 →
      bh_timestamp (header b) <= now' + 7200 → now' + 7200 < umax 64 →
      append_block now' b c = (Ok (), mkChain n (ch_blocks c ++ [b]) (mint_and_record b cb st1)).
Proof.
  intros Hc Hfew Hlen Hp Hcfg Hpool Ha Han Hmax Hmem Hrew.
  destruct (template_total t_select now path config n c p pool a max_transactions Hc Hp Hcfg Hpool Ha Hmax
    Hmem Hrew) as (t & cb & selected & st1 & Ht & Hinc & Hperm & Hwf & Hcount & Hs & Hch).
  exists t, cb, selected, st1. split_and!; [done | apply Hch | done | done | done |].
  intros nonce mix now' b Hbwf Hsol Hwire Hnew Hnow Hnmax.
  apply (child_of_set_nonce_mix _ _ _ _ _ _ _ nonce mix) in Hch. fold b in Hch.
  pose proof (cho_body _ _ _ _ _ _ _ _ Hch) as Hbody. rewrite Hbody in Hwire.
  apply Forall_cons in Hwire as [Hcbw Hwire].
  pose proof (selection_includable n c p selected st1 Hc Hfew Hp Hwf Hcount Hs Hwire) as Hi.
  apply chain_reachable_ok in Hc as Hco.
  apply (append_block_spec n c now' b _ Hco Hbwf). split.
  - by apply (child_valid now' n c p (Address_to_string a) now (txs_of selected)
      (cfg_difficulty_leading_zero_bits config) st1 cb b a n Hco Hp Hlen Hch Hsol Hbwf Hi
      (Address_parse_to_string a Ha) Han Hcbw Hnew Hnow Hnmax).
  - rewrite Hbody, (cho_base_fee _ _ _ _ _ _ _ _ Hch). cbn [drop skipn head].
    split; [apply Hi|]. exists st1, cb. split_and!; done.
Qed.

(** C10. Templates are minable: on a reachable chain, whatever the pool holds, the
    node assembles a template as long as the next subsidy is not zero; it
    accounts for every pooled id; and each block obtained from it by setting a
    nonce and mix hash that solve its header is appended, provided its bodies
    fit the wire limit, its coinbase id is new and the clock is not more than
    two hours behind. *)
Theorem template_accepted t_select now path config n c p pool a max_transactions :
  chain_reachable n c → few_transactions c → Z.of_nat (length (ch_blocks c)) < 2 ^ 64 →
  last (ch_blocks c) = Some p → cfg_network config = n →
  Forall record_wf pool → address_wf a → addr_network a = n →
  1 <= max_transactions <= MAX_BLOCK_TEMPLATE_TRANSACTIONS → 0 < cfg_max_mempool_transactions config →
  block_reward (wrapping_add 64 (bh_height (header p)) 1) ≠ 0 →
  ∃ t cb selected st1,
    create_block_template t_select now path config c pool (Address_to_string a) max_transactions = Ok t ∧
    transactions (bt_block t) = cb :: txs_of selected ∧
    bt_included_tx_hashes t = hashes selected ∧
    hashes selected ++ bt_skipped_tx_hashes t ≡ₚ hashes pool ∧
    spends (next_base_fee (Some p)) (ch_state c) (txs_of selected) st1 ∧
    ∀ nonce mix now', let b := set_nonce_mix nonce mix (bt_block t) in
      block_wf b → solved b →
      Forall (λ tx, Z.of_nat (length (encode tx)) <= MAX_TRANSACTION_WIRE_BYTES) (transactions b) →
      tx_hash_hex cb ∉ applied_transaction_hashes st1 →
      bh_timestamp (header b) <= now' + 7200 → now' + 7200 < umax 64 →
      append_block now' b c = (Ok (), mkChain n (ch_blocks c ++ [b]) (mint_and_record b cb st1)).
Proof. apply template_rules. Qed.

End templates.

(** * Submission *)

(** ** Removing the capped records *)

Definition from_sender (s : string) (r : PendingTransactionRecord) : Prop :=
  tx_from (pr_transaction r) = Some s.
#[global] Instance from_sender_dec s r : Decision (from_sender s r).
Proof. unfold from_sender; apply _. Defined.

(** How many records of a sender a pool holds. *)
Definition pending_of (s : string) (l : list PendingTransactionRecord) : nat :=
  length (filter (from_sender s) l).

#[global] Instance total_cmp_nat_desc : TotalCmp (λ a b : nat, Nat.compare b a).
Proof.
  split; intros; [apply Nat.compare_antisym|].
  rewrite Nat.compare_ngt_iff in *. lia.
Qed.

Lemma elem_of_same_sender s l i :
  i ∈ same_sender s l ↔ ∃ r, l !! i = Some r ∧ from_sender s r.
Proof.
  unfold same_sender. rewrite list_elem_of_fmap. split.
  - intros ([j r] & -> & [Hs Hin]%list_elem_of_filter). exists r. split; [|done].
    apply list_elem_of_lookup in Hin as [k Hk]. rewrite list_lookup_imap in Hk.
    destruct (l !! k) eqn:E; [|done]. simpl in *. by simplify_eq.
  - intros (r & Hr & Hs). exists (i, r). split; [done|]. apply list_elem_of_filter. split; [done|].
    apply list_elem_of_lookup. exists i. by rewrite list_lookup_imap, Hr.
Qed.

Lemma same_sender_NoDup s l : NoDup (same_sender s l).
Proof.
  assert (fst <$> imap pair l = seq 0 (length l)) as Hseq.
  { apply list_eq. intros i. rewrite list_lookup_fmap, list_lookup_imap.
    destruct (l !! i) eqn:E; simpl.
    - symmetry. apply lookup_seq. split; [done|]. by eapply lookup_lt_Some.
    - symmetry. apply lookup_seq_ge. by apply lookup_ge_None. }
  unfold same_sender. eapply sublist_NoDup; [|apply fmap_sublist, sublist_filter].
  rewrite Hseq. apply NoDup_seq.
Qed.

Lemma length_same_sender s l : length (same_sender s l) = pending_of s l.
Proof.
  unfold same_sender, pending_of. rewrite length_fmap.
  assert (∀ g : nat → nat, length (filter (λ p : nat * _, tx_from (pr_transaction p.2) = Some s)
    (imap (λ i r, (g i, r)) l)) = length (filter (from_sender s) l)) as Hg; [|apply (Hg id)].
  induction l as [|r l IH]; intros g; [done|]. rewrite imap_cons. unfold compose.
  specialize (IH (λ i, g (S i))). unfold from_sender in *.
  destruct (decide (tx_from (pr_transaction r) = Some s)).
  - rewrite !filter_cons_True by done. simpl. by rewrite IH.
  - by rewrite !filter_cons_False by done.
Qed.

Lemma pending_of_delete s l i r :
  l !! i = Some r → from_sender s r → S (pending_of s (delete i l)) = pending_of s l.
Proof.
  intros Hr Hs. unfold pending_of. rewrite <- (take_drop_middle l i r Hr) at 2.
  rewrite delete_take_drop, !filter_app, filter_cons_True, !length_app by done. simpl. lia.
Qed.

Lemma remove_indices_count s l idxs :
  StronglySorted (λ a b, b < a)%nat idxs → (∀ i, i ∈ idxs → i ∈ same_sender s l) →
  (pending_of s (remove_indices l idxs) + length idxs)%nat = pending_of s l.
Proof.
  intros Hs. revert l. induction Hs as [|i idxs Hs IH Hlt]; intros l Hin; [simpl; lia|].
  destruct (proj1 (elem_of_same_sender s l i) (Hin i ltac:(left))) as (r & Hr & Hf).
  unfold remove_indices in *. cbn [foldl length]. rewrite <- (pending_of_delete s l i r) by done.
  specialize (IH (delete i l)). rewrite <- IH; [lia|]. intros j Hj.
  rewrite Forall_forall in Hlt. specialize (Hlt j Hj).
  destruct (proj1 (elem_of_same_sender s l j) (Hin j ltac:(by right))) as (q & Hq & Hqf).
  apply elem_of_same_sender. exists q. by rewrite list_lookup_delete_lt.
Qed.

Lemma elem_of_remove_indices l idxs r : r ∈ remove_indices l idxs → r ∈ l.
Proof.
  unfold remove_indices. revert l. induction idxs as [|i idxs IH]; intros l; [done|]. cbn [foldl].
  intros Hr%IH. eapply elem_of_sublist; [done|]. apply sublist_delete.
Qed.

(** The cap leaves fewer than 32 records of the sender. *)
Lemma drop_indices_cap base s l :
  MAX_PENDING_TXS_PER_SENDER <= Z.of_nat (pending_of s l) → Z.of_nat (pending_of s l) < umax 64 →
  Z.of_nat (pending_of s (remove_indices l (drop_indices base l (same_sender s l)))) =
    MAX_PENDING_TXS_PER_SENDER - 1.
Proof.
  intros Hge Hmax. unfold drop_indices. cbv zeta. rewrite length_same_sender.
  set (k := Z.to_nat _). set (srt := sort_by _ (same_sender s l)).
  assert (srt ≡ₚ same_sender s l) as Hperm by apply sort_by_perm.
  assert (Z.of_nat k = Z.of_nat (pending_of s l) - 31) as Hk.
  { unfold k, saturating_sub, saturating_add, MAX_PENDING_TXS_PER_SENDER in *. lia. }
  set (idxs := sort_by _ (take k srt)).
  assert (idxs ≡ₚ take k srt) as Hidx by apply sort_by_perm.
  assert (length srt = pending_of s l) as Hls by (rewrite Hperm; apply length_same_sender).
  assert (length idxs = k) as Hli.
  { rewrite Hidx, length_take, Hls. unfold MAX_PENDING_TXS_PER_SENDER in *. lia. }
  pose proof (remove_indices_count s l idxs) as Hc. rewrite Hli in Hc.
  assert (NoDup idxs) as Hnd.
  { rewrite Hidx. eapply sublist_NoDup; [|apply sublist_take]. rewrite Hperm. apply same_sender_NoDup. }
  assert (StronglySorted (cmp_le (λ a b, Nat.compare b a)) idxs) as Hss by apply sort_by_sorted, _.
  unfold MAX_PENDING_TXS_PER_SENDER in *. rewrite <- Hc in Hk; [lia| |].
  - clear -Hnd Hss. induction Hss as [|i ids Hs IH Hall]; [constructor|].
    apply NoDup_cons in Hnd as [Hn Hnd]. constructor; [by apply IH|].
    apply Forall_forall. intros j Hj. rewrite Forall_forall in Hall. specialize (Hall j Hj).
    unfold cmp_le in Hall. apply Nat.compare_le_iff in Hall.
    assert (j ≠ i) by (by intros ->). lia.
  - intros i Hi. rewrite Hidx in Hi. rewrite <- Hperm. eapply elem_of_sublist; [done|]. apply sublist_take.
Qed.

Section submission.
Context `{PrimitivesOk}.

(** A pool whose spends run on the tip of [c] and lead to [st]. *)
Record runs (c : Chain) (l : list PendingTransactionRecord) (st : LedgerState) : Prop := {
  ru_wf : Forall record_wf l;
  ru_distinct : NoDup (hashes l);
  ru_unmined : Forall (λ r, pr_tx_hash r ∉ mined_transaction_hashes c) l;
  ru_spends : spends (anticipated c) (ch_state c) (txs_of l) st;
}.

Lemma sanitize_runs now c l :
  ledger_ok (ch_state c) → Forall record_wf l →
  ∃ valid dropped st, sanitize_pending_transactions now c l = Ok (valid, dropped, st) ∧
    runs c valid st ∧ (∀ r, r ∈ valid → r ∈ l).
Proof.
  intros Hok Hwf. destruct (sanitize_spec now c l DEFAULT_MEMPOOL_MAX_AGE_SECONDS Hok Hwf)
    as (v & d & st & Hs & [] & _ & Hwfv & Hin). by exists v, d, st.
Qed.

Lemma pending_of_subset s l k :
  NoDup (hashes l) → (∀ r, r ∈ l → r ∈ k) → (pending_of s l <= pending_of s k)%nat.
Proof.
  intros Hn%NoDup_fmap_1 Hin. unfold pending_of. apply submseteq_length, NoDup_submseteq.
  - by apply NoDup_filter.
  - intros r [? ?]%list_elem_of_filter. apply list_elem_of_filter. auto.
Qed.

Lemma runs_ledger_ok c l st : ledger_ok (ch_state c) → runs c l st → ledger_ok st.
Proof.
  intros Hok [Hwf _ _ Hs]. eapply spends_totals; [exact Hok | apply anticipated_nonneg | | exact Hs].
  by apply records_wf.
Qed.

(** The cap and the eviction only take records away; the cap never fails. *)
Lemma cap_sender_spec t_cap c tx valid st :
  ledger_ok (ch_state c) → runs c valid st → Z.of_nat (length valid) < umax 64 →
  ∃ valid' st', cap_sender t_cap c tx valid st = Ok (valid', st') ∧ runs c valid' st' ∧
    (∀ r, r ∈ valid' → r ∈ valid) ∧
    ∀ s, tx_from tx = Some s →
      Z.of_nat (pending_of s valid') < MAX_PENDING_TXS_PER_SENDER ∧
      (MAX_PENDING_TXS_PER_SENDER <= Z.of_nat (pending_of s valid) →
         (pending_of s valid' < pending_of s valid)%nat).
Proof.
  intros Hok Hr Hlen. unfold cap_sender. destruct (tx_from tx) as [s|]; [|by exists valid, st].
  cbv zeta. rewrite length_same_sender. destruct (MAX_PENDING_TXS_PER_SENDER <=? _) eqn:E.
  - apply Z.leb_le in E. fold (anticipated c).
    set (kept := remove_indices valid _).
    assert (∀ r, r ∈ kept → r ∈ valid) as Hkept by (intros r; apply elem_of_remove_indices).
    assert (Forall record_wf kept) as Hwf.
    { apply Forall_forall. intros r Hin. pose proof (ru_wf _ _ _ Hr) as Hw. rewrite Forall_forall in Hw. auto. }
    destruct (sanitize_runs t_cap c kept Hok Hwf) as (v & d & st' & -> & Hr' & Hin).
    exists v, st'. split_and!; [done | done | auto |]. intros s' [= <-].
    pose proof (pending_of_subset s v kept (ru_distinct _ _ _ Hr') Hin) as Hle.
    assert (Z.of_nat (pending_of s valid) < umax 64) as Hmax.
    { pose proof (length_filter (from_sender s) valid). unfold pending_of. lia. }
    pose proof (drop_indices_cap (anticipated c) s valid E Hmax) as Hcap. fold kept in Hcap.
    unfold MAX_PENDING_TXS_PER_SENDER in *. lia.
  - apply Z.leb_gt in E. exists valid, st. split_and!; [done|done|done|]. intros s' [= <-]. lia.
Qed.

Lemma evict_package_spec t_evict c limit tx valid st :
  ledger_ok (ch_state c) → runs c valid st →
  evict_package t_evict c limit tx valid st = Err (MempoolFull limit) ∨
  ∃ valid' st', evict_package t_evict c limit tx valid st = Ok (valid', st') ∧ runs c valid' st' ∧
    (∀ r, r ∈ valid' → r ∈ valid) ∧ Z.of_nat (length valid') < limit.
Proof.
  intros Hok Hr. unfold evict_package. cbv zeta. destruct (limit <=? _) eqn:E.
  2:{ apply Z.leb_gt in E. right. by exists valid, st. }
  destruct (lowest_fee_sender_package _ _ _) as [victim|]; [|by left].
  set (kept := filter _ valid).
  assert (∀ r, r ∈ kept → r ∈ valid) as Hkept by (intros r Hin; by apply list_elem_of_filter in Hin as []).
  assert (Forall record_wf kept) as Hwf by (eapply sublist_Forall; [apply sublist_filter | apply Hr]).
  destruct (sanitize_runs t_evict c kept Hok Hwf) as (v & d & st' & -> & Hr' & Hin).
  cbn [mbind result_bind]. destruct (limit <=? Z.of_nat (length v)) eqn:E'; [by left|].
  apply Z.leb_gt in E'. right. exists v, st'. split_and!; [done|done|auto|done].
Qed.

Lemma existsb_hash (l : list PendingTransactionRecord) h :
  existsb (λ r, bool_decide (pr_tx_hash r = h)) l = false ↔ h ∉ hashes l.
Proof.
  rewrite existsb_false_Forall, list_elem_of_fmap, Forall_forall. split.
  - intros Hf (r & -> & Hr). specialize (Hf r Hr). by apply bool_decide_eq_false in Hf.
  - intros Hn r Hr. apply bool_decide_eq_false. intros Heq. apply Hn. eauto.
Qed.

(** Everything before the last check of [submit_transaction]: it fails with
    the pool untouched, or leads to a smaller pool that still runs. *)
Lemma submit_transaction_cases t_admit t_cap t_evict t_push n c limit tx pool :
  chain_reachable n c → Forall record_wf pool → tx_wf tx → Z.of_nat (length pool) < umax 64 →
  (∃ e, submit_transaction t_admit t_cap t_evict t_push c limit tx pool = (Err e, pool)) ∨
  ∃ valid dropped st valid' st1 kept st2,
    sanitize_pending_transactions t_admit c pool = Ok (valid, dropped, st) ∧ runs c valid st ∧
    (∀ r, r ∈ valid → r ∈ pool) ∧ (tx_hash_string tx ∉ hashes valid) ∧
    cap_sender t_cap c tx valid st = Ok (valid', st1) ∧ runs c valid' st1 ∧
    (∀ r, r ∈ valid' → r ∈ valid) ∧
    runs c kept st2 ∧ (∀ r, r ∈ kept → r ∈ valid') ∧ Z.of_nat (length kept) < limit ∧
    Transaction_network tx = Ok n ∧
    submit_transaction t_admit t_cap t_evict t_push c limit tx pool =
      match validate_pending_transaction st2 tx (anticipated c) with
      | Err e => (Err e, pool)
      | Ok () => (Ok {| sts_status := prototype_mode n; sts_tx_hash := tx_hash_string tx;
                        sts_lifecycle_status := "pending"; sts_mempool_size := Z.of_nat (length kept) + 1 |},
                  kept ++ [mkPending (tx_hash_string tx) t_push tx])
      end.
Proof.
  intros Hc Hpool Hwf Hlen. pose proof (reachable_ledger_ok n c Hc) as Hok.
  apply chain_reachable_ok, co_network in Hc as Hnet.
  unfold submit_transaction. cbv zeta. case_match; [left; by eexists|].
  rewrite sr_lift_bind. destruct (Transaction_network tx) as [m|e] eqn:En; [|left; by eexists].
  cbn [map_err]. rewrite Hnet. destruct (negb (bool_decide (m = n))) eqn:Em; [left; by eexists|].
  apply negb_false_iff, bool_decide_eq_true in Em as ->.
  rewrite sr_get_bind, sr_lift_bind.
  destruct (sanitize_runs t_admit c pool Hok Hpool) as (valid & dropped & st & Hs & Hr & Hin). rewrite Hs.
  destruct (existsb (λ r, bool_decide (pr_tx_hash r = tx_hash_string tx)) valid) eqn:Edup; [left; by eexists|].
  apply existsb_hash in Edup. rewrite sr_lift_bind.
  assert (length valid <= length pool)%nat as Hlv.
  { apply submseteq_length, NoDup_submseteq; [|done]. by eapply NoDup_fmap_1, Hr. }
  destruct (cap_sender_spec t_cap c tx valid st Hok Hr) as (valid' & st1 & Hcap & Hr1 & Hin1 & _); [lia|].
  rewrite Hcap, sr_lift_bind.
  destruct (evict_package_spec t_evict c limit tx valid' st1 Hok Hr1)
    as [->|(kept & st2 & -> & Hr2 & Hin2 & Hlim)]; [left; by eexists|].
  right. exists valid, dropped, st, valid', st1, kept, st2. split_and!; try done.
  pose proof (runs_ledger_ok c kept st2 Hok Hr2) as Hok2. fold (anticipated c). rewrite sr_lift_bind.
  destruct (validate_pending_transaction st2 tx (anticipated c)) as [[]|e] eqn:Ev; [|done].
  apply validate_pending_Ok in Ev as [sender Hsp]; [|done..].
  rewrite sr_lift_bind, (apply_pending_spend st2 _ sender) by (done || apply anticipated_nonneg).
  unfold mbind at 1, state_result_bind at 1. cbn [sr_modify]. unfold mret, state_result_ret.
  rewrite length_app. simpl. do 3 f_equal. lia.
Qed.

Lemma submit_transaction_rules t_admit t_cap t_evict t_push n c limit tx pool r pool' :
  chain_reachable n c → Forall record_wf pool → tx_wf tx → Z.of_nat (length pool) < umax 64 →
  submit_transaction t_admit t_cap t_evict t_push c limit tx pool = (r, pool') →
  match r with
  | Err _ => pool' = pool
  | Ok s => ∃ kept st sender,
      pool' = kept ++ [mkPending (tx_hash_string tx) t_push tx] ∧ (∀ q, q ∈ kept → q ∈ pool) ∧
      NoDup (hashes pool') ∧ spends (anticipated c) (ch_state c) (txs_of pool') st ∧
      tx_from tx = Some sender ∧ Z.of_nat (length pool') <= limit ∧
      Z.of_nat (pending_of sender pool') <= MAX_PENDING_TXS_PER_SENDER ∧
      Transaction_network tx = Ok n ∧ sts_mempool_size s = Z.of_nat (length pool')
  end.
Proof.
  intros Hc Hpool Hwf Hlen Hsub. pose proof (reachable_ledger_ok n c Hc) as Hok.
  destruct (submit_transaction_cases t_admit t_cap t_evict t_push n c limit tx pool Hc Hpool Hwf Hlen)
    as [[e He]|(valid & d & st & valid' & st1 & kept & st2 & _ & Hr & Hin & Hnew & Hcap & Hr1 & Hin1 &
      Hr2 & Hin2 & Hlim & Hnet & Heq)]; [rewrite He in Hsub; by injection Hsub as <- <-|].
  rewrite Heq in Hsub. pose proof (runs_ledger_ok c kept st2 Hok Hr2) as Hok2.
  destruct (validate_pending_transaction st2 tx (anticipated c)) as [[]|e] eqn:Ev;
    injection Hsub as <- <-; [|done].
  apply validate_pending_Ok in Ev as [sender Hsp]; [|done..].
  pose proof (sp_sender _ _ _ _ Hsp) as Hf.
  exists kept, (spend_effect (anticipated c) sender tx st2), sender. split; [done|]. split; [auto|]. split_and!.
  - rewrite fmap_app. apply NoDup_app. split_and!; [apply Hr2 | | apply NoDup_singleton].
    intros h Hh ->%list_elem_of_singleton. apply Hnew.
    cbn [pr_tx_hash] in Hh.
    apply list_elem_of_fmap in Hh as (q & Hq & Hqin). rewrite Hq. apply list_elem_of_fmap_2. auto.
  - rewrite fmap_app. apply spends_snoc; [apply Hr2 | done].
  - done.
  - rewrite length_app. simpl. lia.
  - assert (length valid <= length pool)%nat as Hlv.
    { apply submseteq_length, NoDup_submseteq; [|done]. by eapply NoDup_fmap_1, Hr. }
    destruct (cap_sender_spec t_cap c tx valid st Hok Hr) as (v & s' & Hcap' & _ & _ & Hcount); [lia|].
    rewrite Hcap in Hcap'. injection Hcap' as <- <-. destruct (Hcount sender Hf) as [Hlt _].
    pose proof (pending_of_subset sender kept valid' (ru_distinct _ _ _ Hr2) Hin2).
    unfold pending_of in *. rewrite filter_app, length_app.
    pose proof (length_filter (from_sender sender) [mkPending (tx_hash_string tx) t_push tx]). simpl in *. lia.
  - done.
  - cbn [sts_mempool_size]. rewrite length_app. simpl. lia.
Qed.

(** C8. Submission: a refused transaction leaves the pool file as it was.  An
    accepted one is appended to a pool of records that were pending before,
    with distinct ids, within the pool limit and at most 32 records of its
    sender; the whole pool, the new transaction last, runs on the tip; and the
    transaction is on the chain's network and not already mined. *)
Theorem submit_transaction_spec t_admit t_cap t_evict t_push n c limit tx pool r pool' :
  chain_reachable n c → Forall record_wf pool → tx_wf tx → Z.of_nat (length pool) < umax 64 →
  submit_transaction t_admit t_cap t_evict t_push c limit tx pool = (r, pool') →
  match r with
  | Err _ => pool' = pool
  | Ok s => ∃ kept st sender,
      pool' = kept ++ [mkPending (tx_hash_string tx) t_push tx] ∧ (∀ q, q ∈ kept → q ∈ pool) ∧
      NoDup (hashes pool') ∧ spends (anticipated c) (ch_state c) (txs_of pool') st ∧
      tx_from tx = Some sender ∧ Z.of_nat (length pool') <= limit ∧
      Z.of_nat (pending_of sender pool') <= MAX_PENDING_TXS_PER_SENDER ∧
      Transaction_network tx = Ok n ∧ sts_mempool_size s = Z.of_nat (length pool')
  end.
Proof. apply submit_transaction_rules. Qed.

Lemma length_nonces_of s l : length (nonces_of s (txs_of l)) = pending_of s l.
Proof.
  unfold nonces_of, pending_of. rewrite length_fmap. induction l as [|r l IH]; [done|]. rewrite fmap_cons.
  destruct (decide (from_sender s r)) as [Hs|Hs]; unfold from_sender in Hs.
  - rewrite !filter_cons_True by done. simpl. by rewrite IH.
  - by rewrite !filter_cons_False by done.
Qed.

Lemma runs_next_nonce c l st s :
  runs c l st → next_nonce_of (ch_state c) s + Z.of_nat (length l) <= umax 64 →
  next_nonce_of st s = next_nonce_of (ch_state c) s + Z.of_nat (pending_of s l).
Proof.
  intros [_ _ _ Hs] Hmax. rewrite <- length_nonces_of. apply (spends_count _ _ _ _ _ Hs).
  by rewrite length_fmap.
Qed.

(** The per-sender cap refuses every continuation: once the admitted pool holds
    32 records of a sender, a transaction with the sender's next sequential
    nonce is always refused.  Making room removes one of the sender's own
    records, so the nonce that would follow them is no longer the next one. *)
Theorem submit_at_cap_refused t_admit t_cap t_evict t_push n c limit tx pool valid dropped st s :
  chain_reachable n c → Forall record_wf pool → tx_wf tx →
  (∀ b, next_nonce_of (ch_state c) b + Z.of_nat (length pool) < umax 64) →
  sanitize_pending_transactions t_admit c pool = Ok (valid, dropped, st) →
  tx_from tx = Some s → MAX_PENDING_TXS_PER_SENDER <= Z.of_nat (pending_of s valid) →
  tx_nonce tx = next_nonce_of st s →
  ∃ e, submit_transaction t_admit t_cap t_evict t_push c limit tx pool = (Err e, pool).
Proof.
  intros Hc Hpool Hwf Hmax Hs Hf Hcap Hn. pose proof (reachable_ledger_ok n c Hc) as Hok.
  assert (0 <= next_nonce_of (ch_state c) s) as Hn0.
  { apply chain_reachable_ok in Hc. destruct (history_next_nonce _ _ s (co_history n c Hc)) as [_ ->].
    unfold nth_nonce, umax. lia. }
  pose proof (Hmax s) as Hms.
  destruct (submit_transaction_cases t_admit t_cap t_evict t_push n c limit tx pool Hc Hpool Hwf ltac:(lia))
    as [He|(v & d & st0 & valid' & st1 & kept & st2 & Hs' & Hr & Hin & _ & Hcs & Hr1 & Hin1 & Hr2 & Hin2 & _ & _ & Heq)];
    [done|]. rewrite Hs in Hs'. injection Hs' as <- <- <-. rewrite Heq.
  destruct (validate_pending_transaction st2 tx (anticipated c)) as [[]|e] eqn:Ev; [|by eexists]. exfalso.
  pose proof (runs_ledger_ok c kept st2 Hok Hr2) as Hok2.
  apply validate_pending_Ok in Ev as [sender Hsp]; [|done..].
  pose proof (sp_sender _ _ _ _ Hsp) as Hf'. assert (sender = s) as -> by congruence.
  pose proof (sp_nonce _ _ _ _ Hsp) as Hn2.
  assert (∀ l, NoDup (hashes l) → (∀ r, r ∈ l → r ∈ pool) → (length l <= length pool)%nat) as Hlen.
  { intros l Hnd Hsub. apply submseteq_length, NoDup_submseteq; [|done]. by eapply NoDup_fmap_1. }
  pose proof (Hlen valid (ru_distinct _ _ _ Hr) Hin) as Hlv.
  assert (length kept <= length pool)%nat as Hlk by (apply Hlen; [apply Hr2|]; auto).
  rewrite (runs_next_nonce c valid st s Hr) in Hn by lia.
  rewrite (runs_next_nonce c kept st2 s Hr2) in Hn2 by lia.
  destruct (cap_sender_spec t_cap c tx valid st Hok Hr) as (v' & s' & Hcs' & _ & _ & Hcount); [lia|].
  rewrite Hcs in Hcs'. injection Hcs' as <- <-. destruct (Hcount s Hf) as [_ Hlt]. specialize (Hlt Hcap).
  pose proof (pending_of_subset s kept valid' (ru_distinct _ _ _ Hr2) Hin2). lia.
Qed.

End submission.
