(* ===== verification/NodeOps.v ===== *)
(** [vireon-node/src/devnet.rs]: the node's operations on its files, composed of
    the genesis gate, the block store, the chain and the pool: loading, the
    status, balance and state reports, submission of mined blocks, adoption of a
    better chain, development mining, mining of the pool.  The chain database and
    the pool file are the state; the configuration, genesis and approval files,
    the clock readings and the outcome of re-mining the genesis are inputs. *)

From S2P Require Import Prelude RustStd Interfaces Crypto Errors Network Amount Signing Address Transaction Block Pow Consensus State Ledger Chain Genesis NodeConfig GenesisApproval Storage Mempool Node.

Definition LOCAL_OPERATOR_ROOT : string := ".vireon-local".

(** A directory as its components and its printed form. *)
Record DataDir := { dd_components : list string; dd_display : string; dd_database : string }.

Definition ensure_network_storage_path (n : Network) (dir : DataDir) : NodeResult () :=
  if existsb (λ c, bool_decide (c = default_data_root n) || bool_decide (c = LOCAL_OPERATOR_ROOT))
       (dd_components dir)
  then Ok ()
  else Err (InvalidDataPath (network_id n)
         (default_data_root n ++ " or " ++ LOCAL_OPERATOR_ROOT)%string (dd_display dir)).

(** What an invocation of the node reads besides its state. *)
Record NodeEnv := {
  ne_files : ConfigFiles;
  ne_deterministic : NodeResult Block;
  ne_payload_json : GenesisReviewPayload → NodeResult string;
  ne_dir : DataDir;
}.

(** The state of a node: its chain database and its pool file. *)
Record NodeState := mkNode { ns_db : ChainDb; ns_pool : list PendingTransactionRecord }.

Abbreviation node_op A := (state_result NodeState NodeError A).

Definition on_db {A} (m : db_op A) : node_op A :=
  λ s, let '(r, db) := m (ns_db s) in (r, mkNode db (ns_pool s)).
Definition on_pool {A} (m : state_result (list PendingTransactionRecord) NodeError A) : node_op A :=
  λ s, let '(r, pool) := m (ns_pool s) in (r, mkNode (ns_db s) pool).

(** [struct ChainSummary] *)
Record ChainSummary := {
  cs_network_id : string;
  cs_network_name : string;
  cs_status : string;
  cs_block_count : Z;
  cs_height : Z;
  cs_tip_hash : string;
  cs_emitted_supply_atomic : Z;
}.

(** [enum StatusReport] *)
Inductive StatusReport :=
| Uninitialized (network_id network_name status data_dir : string)
| Ready (summary : ChainSummary).

(** [struct BalanceSummary] *)
Record BalanceSummary := {
  bs_address : string;
  bs_balance_atomic : Z;
  bs_exists : bool;
  bs_next_nonce : Z;
}.

(** [struct StateBalanceEntry] *)
Record StateBalanceEntry := { sbe_address : string; sbe_balance_atomic : Z; sbe_next_nonce : Z }.

(** [struct StateSummary] *)
Record StateSummary := {
  ss_status : string;
  ss_network_name : string;
  ss_chain_status : string;
  ss_height : Z;
  ss_tip_hash : string;
  ss_emitted_supply_atomic : Z;
  ss_tracked_addresses : Z;
  ss_latest_block_base_fee_atomic : Z;
  ss_latest_block_fees_atomic : Z;
  ss_latest_block_burned_fees_atomic : Z;
  ss_latest_block_priority_fees_atomic : Z;
  ss_latest_coinbase_reward_atomic : Z;
  ss_balances : list StateBalanceEntry;
}.

(** [struct SubmittedMinedBlock] *)
Record SubmittedMinedBlock := {
  smb_status : string;
  smb_block_height : Z;
  smb_block_hash : string;
  smb_accepted_tx_hashes : list string;
  smb_pending_remaining : option Z;
  smb_mempool_cleanup_complete : bool;
}.

(** [struct ChainReorgSummary] *)
Record ChainReorgSummary := {
  crs_common_ancestor_height : Z;
  crs_detached_blocks : Z;
  crs_attached_blocks : Z;
  crs_previous_tip_hash : string;
  crs_new_tip_hash : string;
  crs_previous_chain_work : Z;
  crs_new_chain_work : Z;
  crs_dropped_mempool_transactions : list string;
}.

(** [struct MempoolStatusSummary] *)
Record MempoolStatusSummary := {
  mss_status : string;
  mss_pending_count : Z;
  mss_anticipated_base_fee_atomic : Z;
  mss_total_fees_atomic : Z;
  mss_total_burned_fees_atomic : Z;
  mss_total_priority_fees_atomic : Z;
  mss_highest_priority_fee_atomic : Z;
  mss_highest_max_fee_atomic : Z;
  mss_pending_hashes : list string;
}.

(** [struct MinePendingBlockSummary] *)
Record MinePendingBlockSummary := {
  mpb_status : string;
  mpb_block_height : Z;
  mpb_block_hash : string;
  mpb_included_tx_hashes : list string;
  mpb_skipped_tx_hashes : list string;
  mpb_pending_remaining : Z;
  mpb_miner_address : string;
  mpb_miner_balance_atomic : Z;
}.

(** The clock reading of the validation of each block. *)
Definition timed (clock : nat → Z) (blocks : list Block) : list (Z * Block) :=
  imap (λ i b, (clock i, b)) blocks.

Section ops.
Context `{Primitives}.

Definition build_validated_chain (env : NodeEnv) (clock : nat → Z) (config : NetworkConfig)
    (blocks : list Block) : NodeResult Chain :=
  _ ← (if requires_explicit_allow (cfg_network config)
       then verify_existing_genesis (ne_files env) (ne_deterministic env) blocks else Ok ());
  map_err Core (from_blocks (cfg_network config) (timed clock blocks)).

Definition load_validated_chain (env : NodeEnv) (clock : nat → Z) (db : ChainDb)
    : NodeResult (NetworkConfig * list Block * Chain) :=
  config ← load_network_config (file_network (ne_files env));
  _ ← ensure_network_storage_path (cfg_network config) (ne_dir env);
  _ ← (if requires_explicit_allow (cfg_network config)
       then _ ← verified_mainnet_genesis_manifest (ne_payload_json env) (ne_files env) (ne_deterministic env);
            Ok ()
       else Ok ());
  blocks ← load_blocks (dd_database (ne_dir env)) db;
  c ← build_validated_chain env clock config blocks;
  Ok (config, blocks, c).

Definition load_chain_only (dir : DataDir) (clock : nat → Z) (db : ChainDb) : NodeResult Chain :=
  blocks ← load_blocks (dd_database dir) db;
  first_block ← ok_or (ChainNotInitialized (dd_database dir)) (head blocks);
  n ← map_err Core (Block_network first_block);
  map_err Core (from_blocks n (timed clock blocks)).

(** ** Reports *)

Definition tip_hash_text (c : Chain) : string :=
  match Chain_tip_hash c with Some h => hash_to_hex h | None => "" end.

Definition summarize_chain (config : NetworkConfig) (blocks : list Block) (c : Chain) : ChainSummary := {|
  cs_network_id := network_id (cfg_network config);
  cs_network_name := cfg_human_name config;
  cs_status := cfg_status_label config;
  cs_block_count := Z.of_nat (length blocks);
  cs_height := default 0 (Chain_height c);
  cs_tip_hash := tip_hash_text c;
  cs_emitted_supply_atomic := Chain_emitted_supply c |}.

Definition summarize_validated_blocks (env : NodeEnv) (clock : nat → Z) (config : NetworkConfig)
    (blocks : list Block) : NodeResult ChainSummary :=
  if bool_decide (blocks = []) then Err (ChainNotInitialized (dd_database (ne_dir env))) else
  c ← build_validated_chain env clock config blocks;
  Ok (summarize_chain config blocks c).

Definition status (env : NodeEnv) (clock : nat → Z) (db : ChainDb) : NodeResult StatusReport :=
  config ← load_network_config (file_network (ne_files env));
  _ ← ensure_network_storage_path (cfg_network config) (ne_dir env);
  match load_blocks (dd_database (ne_dir env)) db with
  | Ok blocks => Ready <$> summarize_validated_blocks env clock config blocks
  | Err (ChainNotInitialized _) =>
      Ok (Uninitialized (network_id (cfg_network config)) (cfg_human_name config) (cfg_status_label config)
            (dd_display (ne_dir env)))
  | Err e => Err e
  end.

Definition validate_chain (env : NodeEnv) (clock clock' : nat → Z) (db : ChainDb) : NodeResult ChainSummary :=
  '(config, blocks, _) ← load_validated_chain env clock db;
  summarize_validated_blocks env clock' config blocks.

Definition balance (env : NodeEnv) (clock : nat → Z) (db : ChainDb) (address : string)
    : NodeResult BalanceSummary :=
  '(_, _, c) ← load_validated_chain env clock db;
  let next_nonce := next_nonce_of (ch_state c) address in
  Ok {| bs_address := address; bs_balance_atomic := balance_of (ch_state c) address;
        bs_exists := negb (is_none (balances (ch_state c) !! address)) || (next_nonce >? FIRST_ACCOUNT_NONCE);
        bs_next_nonce := next_nonce |}.

(** [get(&height).copied().unwrap_or_default()] *)
Definition latest (m : gmap Z Amount) (height : Z) : Amount := default 0 (m !! height).

Definition state_summary (config : NetworkConfig) (c : Chain) : StateSummary :=
  let st := ch_state c in
  let latest_height := default 0 (Chain_height c) in {|
  ss_status := prototype_mode (cfg_network config);
  ss_network_name := cfg_human_name config;
  ss_chain_status := cfg_status_label config;
  ss_height := latest_height;
  ss_tip_hash := tip_hash_text c;
  ss_emitted_supply_atomic := Chain_emitted_supply c;
  ss_tracked_addresses := Z.of_nat (length (btree_entries (balances st)));
  ss_latest_block_base_fee_atomic :=
    match last (ch_blocks c) with Some b => bh_base_fee_atomic (header b) | None => 0 end;
  ss_latest_block_fees_atomic := latest (block_fees st) latest_height;
  ss_latest_block_burned_fees_atomic := latest (block_burned_fees st) latest_height;
  ss_latest_block_priority_fees_atomic := latest (block_priority_fees st) latest_height;
  ss_latest_coinbase_reward_atomic := latest (coinbase_rewards st) latest_height;
  ss_balances := (λ '(a, v), {| sbe_address := a; sbe_balance_atomic := v;
    sbe_next_nonce := next_nonce_of st a |}) <$> btree_entries (balances st) |}.

Definition state (env : NodeEnv) (clock : nat → Z) (db : ChainDb) : NodeResult StateSummary :=
  '(config, _, c) ← load_validated_chain env clock db;
  Ok (state_summary config c).

(** [iter().max()], [None] when empty. *)
Definition max_opt (l : list Z) : option Z :=
  match l with [] => None | x :: l' => Some (foldl Z.max x l') end.

(** The largest nonce used by the account, plus one (wrapping). *)
Definition next_account_nonce (blocks : list Block) (address : string) : Z :=
  match max_opt (tx_nonce <$> filter (λ tx, tx_from tx = Some address) (blocks ≫= transactions)) with
  | None => 1
  | Some nonce => wrapping_add 64 nonce 1
  end.

(** [mempool_status]: the report, over the pool it rewrites. *)
Definition mempool_status (clock : nat → Z) (now : Z) (dir : DataDir) : node_op MempoolStatusSummary :=
  s ← sr_get;
  c ← sr_lift (load_chain_only dir clock (ns_db s));
  '(valid, _, _) ← sr_lift (sanitize_pending_transactions now c (ns_pool s));
  _ ← on_pool (sr_modify (λ _, valid));
  let base := next_base_fee (last (ch_blocks c)) in
  let tips := omap (λ tx, match effective_priority_fee tx base with Ok a => Some a | Err _ => None end)
    (txs_of valid) in
  mret {|
    mss_status := prototype_mode (ch_network c);
    mss_pending_count := Z.of_nat (length valid);
    mss_anticipated_base_fee_atomic := base;
    mss_total_fees_atomic := foldl (wrapping_add 64) 0 ((λ tx, unwrap_or 0 (effective_fee tx base)) <$> txs_of valid);
    mss_total_burned_fees_atomic :=
      foldl (wrapping_add 64) 0 ((λ tx, if is_coinbase tx then 0 else base) <$> txs_of valid);
    mss_total_priority_fees_atomic :=
      foldl (wrapping_add 64) 0 ((λ tx, unwrap_or 0 (effective_priority_fee tx base)) <$> txs_of valid);
    mss_highest_priority_fee_atomic := default 0 (max_opt tips);
    mss_highest_max_fee_atomic := default 0 (max_opt (tx_max_fee <$> txs_of valid));
    mss_pending_hashes := hashes valid |}.

(** [submit_transaction] from the files. *)
Definition node_submit_transaction (clock : nat → Z) (t_admit t_cap t_evict t_push : Z) (dir : DataDir)
    (max_mempool_transactions : Z) (tx : Transaction) : node_op SubmitTransactionSummary :=
  s ← sr_get;
  c ← sr_lift (load_chain_only dir clock (ns_db s));
  on_pool (submit_transaction t_admit t_cap t_evict t_push c max_mempool_transactions tx).

(** ** Blocks *)

(** [submit_mined_block].  The block is stored under the store's lock after a
    full validation; the pool cleanup may fail on its files
    ([pool_io = false]), which is only reported. *)
Definition submit_mined_block (env : NodeEnv) (clock : nat → Z) (now : Z) (pool_io : bool) (candidate : Block)
    : node_op SubmittedMinedBlock :=
  config ← sr_lift (load_network_config (file_network (ne_files env)));
  _ ← sr_lift (ensure_network_storage_path (cfg_network config) (ne_dir env));
  _ ← on_db (append_validated (dd_database (ne_dir env)) candidate (λ blocks candidate,
        c ← build_validated_chain env clock config blocks;
        map_err Core (append_block now candidate c).1));
  let accepted := tx_hash_string <$> drop 1 (transactions candidate) in
  s ← sr_get;
  let remaining := filter (λ r, pr_tx_hash r ∉ accepted) (ns_pool s) in
  _ ← (if pool_io then on_pool (sr_modify (λ _, remaining)) else mret ());
  mret {|
    smb_status := prototype_mode (cfg_network config);
    smb_block_height := bh_height (header candidate);
    smb_block_hash := hash_to_hex (block_hash candidate);
    smb_accepted_tx_hashes := accepted;
    smb_pending_remaining := if pool_io then Some (Z.of_nat (length remaining)) else None;
    smb_mempool_cleanup_complete := pool_io |}.

(** The validation closure of [adopt_candidate_chain]: the summary, the detached
    blocks and the candidate's chain. *)
Definition judge_candidate (env : NodeEnv) (clock clock' : nat → Z) (config : NetworkConfig)
    (expected_tip : string) (current replacement : list Block)
    : NodeResult (ChainReorgSummary * list Block * Chain) :=
  current_chain ← build_validated_chain env clock config current;
  candidate_chain ← build_validated_chain env clock' config replacement;
  choice ← map_err Core (select_fork current replacement);
  if negb (bool_decide (choice = AdoptCandidate))
  then Err (Input "candidate chain does not have strictly greater cumulative proof of work") else
  ancestor ← ok_or (GenesisMismatch
      (match head current with Some b => hash_to_hex (block_hash b) | None => "" end)
      (match head replacement with Some b => hash_to_hex (block_hash b) | None => "" end))
    (common_ancestor_height current replacement);
  let detached := filter (λ b, ancestor < bh_height (header b)) current in
  previous_work ← map_err Core (Chain_cumulative_work current_chain);
  new_work ← map_err Core (Chain_cumulative_work candidate_chain);
  Ok ({| crs_common_ancestor_height := ancestor;
         crs_detached_blocks := Z.of_nat (length detached);
         crs_attached_blocks :=
           Z.of_nat (length (filter (λ b, ancestor < bh_height (header b)) replacement));
         crs_previous_tip_hash := expected_tip;
         crs_new_tip_hash := match last replacement with Some b => hash_to_hex (block_hash b) | None => "" end;
         crs_previous_chain_work := previous_work;
         crs_new_chain_work := new_work;
         crs_dropped_mempool_transactions := [] |}, detached, candidate_chain).

Definition set_dropped (dropped : list string) (s : ChainReorgSummary) : ChainReorgSummary := {|
  crs_common_ancestor_height := crs_common_ancestor_height s;
  crs_detached_blocks := crs_detached_blocks s;
  crs_attached_blocks := crs_attached_blocks s;
  crs_previous_tip_hash := crs_previous_tip_hash s;
  crs_new_tip_hash := crs_new_tip_hash s;
  crs_previous_chain_work := crs_previous_chain_work s;
  crs_new_chain_work := crs_new_chain_work s;
  crs_dropped_mempool_transactions := dropped |}.

(** [adopt_candidate_chain]; [observed] is the chain loaded before the store's
    lock is taken, the state is the one found under the lock; [now] and [now']
    are the clock readings of the orphan rows and of the pool, and [pool_io] the
    outcome of locking, reading and writing the pool file. *)
Definition adopt_candidate_chain (env : NodeEnv) (clock clock' : nat → Z) (now now' : Z)
    (observed : NodeResult (list Block)) (pool_io : NodeResult ()) (candidate : list Block)
    : node_op ChainReorgSummary :=
  config ← sr_lift (load_network_config (file_network (ne_files env)));
  _ ← sr_lift (ensure_network_storage_path (cfg_network config) (ne_dir env));
  seen ← sr_lift observed;
  tip ← sr_lift (ok_or (ChainNotInitialized (dd_database (ne_dir env))) (last seen));
  let expected_tip := hash_to_hex (block_hash tip) in
  '(summary, detached, validated) ← on_db (replace_validated now (dd_database (ne_dir env)) expected_tip
        candidate (judge_candidate env clock clock' config expected_tip));
  _ ← sr_lift pool_io;
  s ← sr_get;
  '(pool, dropped) ← sr_lift (reconcile_after_reorg now' validated detached
        (cfg_max_mempool_transactions config) (ns_pool s));
  _ ← on_pool (sr_modify (λ _, pool));
  mret (set_dropped dropped summary).

End ops.
