(* ===== verification/NodeMine.v ===== *)
(** [vireon-node/src/devnet.rs]: the node's operations that mine or create a
    chain root: genesis initialisation and import, development mining, mining of
    the pool, the development spend, reset.  The native search is a parameter;
    mining loops carry fuel. *)

From S2P Require Import Prelude RustStd Interfaces Crypto Errors Network Amount Signing Address Transaction Block Pow Consensus State Ledger Chain Genesis NodeConfig GenesisApproval Storage Mempool Node NodeOps.

(** [struct GenesisMarker] *)
Record GenesisMarker := {
  gm_network_id : string;
  gm_genesis_hash : string;
  gm_genesis_height : Z;
  gm_status_label : string;
}.

(** The chain root: the marker file, whether chain storage exists, the store. *)
Record ChainRoot := mkRoot { cr_marker : option GenesisMarker; cr_exists : bool; cr_db : ChainDb }.

Definition empty_db : ChainDb := mkDb [] [].

Definition marker_of `{Primitives} (config : NetworkConfig) (genesis : Block) : GenesisMarker := {|
  gm_network_id := cfg_network_id config;
  gm_genesis_hash := hash_to_hex (block_hash genesis);
  gm_genesis_height := bh_height (header genesis);
  gm_status_label := cfg_status_label config |}.

(** [struct SendTransactionSummary] *)
Record SendTransactionSummary := {
  stx_status : string;
  stx_tx_hash : string;
  stx_block_height : Z;
  stx_block_hash : string;
  stx_from : string;
  stx_to : string;
  stx_amount_atomic : Z;
  stx_max_fee_atomic : Z;
  stx_priority_fee_atomic : Z;
  stx_effective_fee_atomic : Z;
  stx_fee_atomic : Z;
  stx_sender_balance_atomic : Z;
  stx_recipient_balance_atomic : Z;
  stx_miner_address : string;
}.

Section roots.
Context `{Primitives}.

(** [storage::append_block] on a root: the store exists afterwards. *)
Definition append_to_root (path : string) (b : Block) : state_result ChainRoot NodeError () :=
  λ r, let '(res, db) := append_with_tip_link path b (cr_db r) in (res, mkRoot (cr_marker r) true db).

Definition set_marker (m : GenesisMarker) (r : ChainRoot) : ChainRoot :=
  mkRoot (Some m) (cr_exists r) (cr_db r).

(** [import_genesis_block] on the parsed genesis file. *)
Definition import_genesis_block (env : NodeEnv) (file : NodeResult Block) (force : bool)
    : state_result ChainRoot NodeError string :=
  config ← sr_lift (load_network_config (file_network (ne_files env)));
  r ← sr_get;
  if (is_some (cr_marker r) || cr_exists r) && negb force
  then sr_lift (Err (Input "genesis marker or chain database already exists; pass --force to replace chain root"))
  else
  genesis ← sr_lift file;
  _ ← (if requires_explicit_allow (cfg_network config)
       then sr_lift (verify_existing_genesis (ne_files env) (ne_deterministic env) [genesis])
       else expected ← sr_lift (ne_deterministic env);
            if negb (bool_decide (block_hash genesis = block_hash expected))
            then sr_lift (Err (Input ("imported genesis hash " ++ hash_to_hex (block_hash genesis)
                   ++ " does not match config-deterministic hash " ++ hash_to_hex (block_hash expected))%string))
            else mret ());
  _ ← (if force then sr_modify (λ r, mkRoot (cr_marker r) false empty_db) else mret ());
  _ ← append_to_root (dd_database (ne_dir env)) genesis;
  _ ← sr_modify (set_marker (marker_of config genesis));
  mret (hash_to_hex (block_hash genesis)).

(** [initialize_deterministic_genesis]: the genesis is mined for the gate and mined
    again ([mined]) for the root. *)
Definition initialize_deterministic_genesis (env : NodeEnv) (mined : NodeResult Block) (force_genesis : bool)
    : state_result ChainRoot NodeError () :=
  config ← sr_lift (load_network_config (file_network (ne_files env)));
  r ← sr_get;
  if negb (is_resettable (cfg_network config)) && is_some (cr_marker r) && negb force_genesis
  then sr_lift (Err (Input "genesis marker already exists; pass --force-genesis to recreate the chain root"))
  else
  _ ← (if requires_explicit_allow (cfg_network config)
       then sr_lift (_ ← verified_mainnet_genesis_manifest (ne_payload_json env) (ne_files env)
              (ne_deterministic env); Ok ())
       else mret ());
  genesis ← sr_lift mined;
  _ ← append_to_root (dd_database (ne_dir env)) genesis;
  sr_modify (set_marker (marker_of config genesis)).

(** [reset_devnet]; [running] is the outcome of [node_runtime_is_running] and
    [backup_io] of moving both directories into the backup. *)
Definition reset_devnet (env : NodeEnv) (mempool_dir : DataDir) (confirm : bool) (running : NodeResult bool)
    (backup_io : NodeResult ()) : node_op () :=
  config ← sr_lift (load_network_config (file_network (ne_files env)));
  let n := cfg_network config in
  if negb (is_resettable n) then sr_lift (Err (ResetNotAllowed (network_id n))) else
  _ ← sr_lift (ensure_network_storage_path n (ne_dir env));
  _ ← sr_lift (ensure_network_storage_path n mempool_dir);
  if negb confirm then sr_lift (Err (ResetConfirmationRequired (network_id n))) else
  is_running ← sr_lift running;
  if (is_running : bool) then sr_lift (Err (ResetWhileNodeRunning (network_id n))) else
  _ ← sr_lift backup_io;
  sr_modify (λ _, mkNode empty_db []).

End roots.

Section mining_ops.
Context `{Primitives}.
Context (search : Z → bytes → bytes → Z → Z → search_result).

Definition init_devnet (fuel : nat) (env : NodeEnv) (clock : nat → Z) (miner_address : string)
    : fueled ChainDb NodeError ChainSummary :=
  config ← fl_op (sr_lift (load_network_config (file_network (ne_files env))));
  _ ← fl_op (sr_lift (ensure_network_storage_path (cfg_network config) (ne_dir env)));
  db ← fl_op sr_get;
  match load_blocks (dd_database (ne_dir env)) db with
  | Ok existing => fl_op (sr_lift (summarize_validated_blocks env clock config existing))
  | Err (ChainNotInitialized _) =>
      genesis ← fl_loop (fmap (map_err Core) (genesis_with_difficulty_for_network search fuel
        (cfg_network config) miner_address (cfg_difficulty_leading_zero_bits config)));
      _ ← fl_op (append_with_tip_link (dd_database (ne_dir env)) genesis);
      fl_op (sr_lift (summarize_validated_blocks env clock config [genesis]))
  | Err e => fl_op (sr_lift (Err e))
  end.

(** The loop of [mine_dev_blocks]: each block is stored without the chain's
    validation. *)
Fixpoint mine_dev_loop (fuel : nat) (path : string) (config : NetworkConfig) (miner_address : string)
    (count : nat) (blocks : list Block) (last_block : Block) : fueled ChainDb NodeError (list Block) :=
  match count with
  | O => fl_op (mret blocks)
  | S count' =>
      next_block ← fl_loop (fmap (map_err Core) (child_block_with_consensus_difficulty search fuel blocks
        miner_address (wrapping_add 64 (bh_timestamp (header last_block)) (cfg_block_time_seconds config)) []
        (cfg_difficulty_leading_zero_bits config)));
      _ ← fl_op (append_with_tip_link path next_block);
      mine_dev_loop fuel path config miner_address count' (blocks ++ [next_block]) next_block
  end.

Definition mine_dev_blocks (fuel : nat) (env : NodeEnv) (clock clock' : nat → Z) (miner_address : string)
    (count : nat) : fueled ChainDb NodeError ChainSummary :=
  db ← fl_op sr_get;
  '(config, blocks, _) ← fl_op (sr_lift (load_validated_chain env clock db));
  last_block ← fl_op (sr_lift (ok_or (ChainNotInitialized (dd_database (ne_dir env))) (last blocks)));
  blocks ← mine_dev_loop fuel (dd_database (ne_dir env)) config miner_address count blocks last_block;
  fl_op (sr_lift (summarize_validated_blocks env clock' config blocks)).

Definition mine_dev_block (fuel : nat) (env : NodeEnv) (clock clock' : nat → Z) (miner_address : string)
    : fueled ChainDb NodeError ChainSummary := mine_dev_blocks fuel env clock clock' miner_address 1.

(** [create_block_template] from the files: its arguments are checked before the
    chain is loaded. *)
Definition node_block_template (env : NodeEnv) (clock : nat → Z) (t_select now : Z) (miner_address : string)
    (max_transactions : Z) (s : NodeState) : NodeResult BlockTemplate :=
  _ ← (if (max_transactions =? 0) || (max_transactions >? MAX_BLOCK_TEMPLATE_TRANSACTIONS)
       then Err (Input ("max_transactions must be between 1 and "
              ++ uint_to_string MAX_BLOCK_TEMPLATE_TRANSACTIONS)%string)
       else _ ← map_err (λ e, Input (VireonError_fmt e)) (Address_parse miner_address); Ok ());
  '(config, _, c) ← load_validated_chain env clock (ns_db s);
  create_block_template t_select now (dd_database (ne_dir env)) config c (ns_pool s) miner_address max_transactions.

Definition mine_pending_block (fuel : nat) (env : NodeEnv) (clock clock' clock'' : nat → Z)
    (t_select now now' : Z) (pool_io : bool) (miner_address : string)
    : fueled NodeState NodeError MinePendingBlockSummary :=
  config ← fl_op (sr_lift (load_network_config (file_network (ne_files env))));
  s ← fl_op sr_get;
  template ← fl_op (sr_lift (node_block_template env clock t_select now miner_address
    (cfg_max_mempool_transactions config) s));
  if bool_decide (bt_included_tx_hashes template = [])
  then fl_op (sr_lift (Err (Input "no valid pending transactions are available to mine"))) else
  b ← fl_loop (Ok <$> mine_block search fuel (bt_block template));
  submitted ← fl_op (submit_mined_block env clock' now' pool_io b);
  s' ← fl_op sr_get;
  '(_, _, c) ← fl_op (sr_lift (load_validated_chain env clock'' (ns_db s')));
  fl_op (mret {|
    mpb_status := prototype_mode (cfg_network config);
    mpb_block_height := smb_block_height submitted;
    mpb_block_hash := smb_block_hash submitted;
    mpb_included_tx_hashes := smb_accepted_tx_hashes submitted;
    mpb_skipped_tx_hashes := bt_skipped_tx_hashes template;
    mpb_pending_remaining := default 0 (smb_pending_remaining submitted);
    mpb_miner_address := miner_address;
    mpb_miner_balance_atomic := balance_of (ch_state c) miner_address |}).

(** [mine_block]: the pool when it has records, else an empty block. *)
Definition node_mine_block (fuel : nat) (env : NodeEnv) (c1 c2 c3 c4 : nat → Z) (t_status t_select now now' : Z)
    (pool_io : bool) (miner_address : string)
    : fueled NodeState NodeError (MinePendingBlockSummary + ChainSummary) :=
  pending ← fl_op (mempool_status c1 t_status (ne_dir env));
  if mss_pending_count pending >? 0 then
    summary ← mine_pending_block fuel env c2 c3 c4 t_select now now' pool_io miner_address;
    fl_op (mret (inl summary))
  else λ s,
    match mine_dev_block fuel env c2 c3 miner_address (ns_db s) with
    | None => None
    | Some (Ok summary, db) => Some (Ok (inr summary), mkNode db (ns_pool s))
    | Some (Err e, db) => Some (Err e, mkNode db (ns_pool s))
    end.

(** [send_dev_tx] *)
Definition send_dev_tx (fuel : nat) (env : NodeEnv) (clock : nat → Z) (now : Z) (from_private_key_hex to : string)
    (amount_atomic fee_atomic : Z) (miner_address : string) : fueled ChainDb NodeError SendTransactionSummary :=
  private_key ← fl_op (sr_lift (map_err (λ e, Input (VireonError_fmt e)) (PrivateKey_from_hex from_private_key_hex)));
  _ ← fl_op (sr_lift (map_err (λ e, Input (VireonError_fmt e)) (Address_parse to)));
  db ← fl_op sr_get;
  '(config, blocks, c) ← fl_op (sr_lift (load_validated_chain env clock db));
  last_block ← fl_op (sr_lift (ok_or (ChainNotInitialized (dd_database (ne_dir env))) (last blocks)));
  let n := cfg_network config in
  let from := Address_to_string (from_public_key_for_network (PrivateKey_public_key private_key) n) in
  let nonce := next_account_nonce blocks from in
  let anticipated := next_base_fee (Some last_block) in
  tx ← fl_op (sr_lift (map_err Core (Transaction_new_signed 1 nonce n private_key to amount_atomic
    (saturating_add 64 anticipated fee_atomic) fee_atomic None)));
  next_block ← fl_loop (fmap (map_err Core) (child_block_with_consensus_difficulty search fuel blocks
    miner_address (wrapping_add 64 (bh_timestamp (header last_block)) (cfg_block_time_seconds config)) [tx]
    (cfg_difficulty_leading_zero_bits config)));
  let '(appended, c') := append_block now next_block c in
  _ ← fl_op (sr_lift (map_err Core appended));
  _ ← fl_op (append_with_tip_link (dd_database (ne_dir env)) next_block);
  effective ← fl_op (sr_lift (map_err Core (effective_fee tx anticipated)));
  fl_op (mret {|
    stx_status := prototype_mode n;
    stx_tx_hash := hash_to_hex (tx_hash tx);
    stx_block_height := bh_height (header next_block);
    stx_block_hash := hash_to_hex (block_hash next_block);
    stx_from := from;
    stx_to := to;
    stx_amount_atomic := amount_atomic;
    stx_max_fee_atomic := tx_max_fee tx;
    stx_priority_fee_atomic := tx_priority_fee tx;
    stx_effective_fee_atomic := effective;
    stx_fee_atomic := fee_atomic;
    stx_sender_balance_atomic := balance_of (ch_state c') from;
    stx_recipient_balance_atomic := balance_of (ch_state c') to;
    stx_miner_address := miner_address |}).

End mining_ops.
