(* ===== verification/NodeTheory.v ===== *)
(** What the node's operations on its files guarantee: loading rebuilds the
    chain that was stored, a mined block or a candidate chain changes the files
    exactly when it is valid, and every run of the node keeps a stored chain that
    is valid from its genesis while its work never decreases. *)

From S2P Require Import Prelude RustStd Interfaces Crypto Errors Network Amount Signing Address Transaction Block Pow Consensus State Ledger Chain Genesis NodeConfig GenesisApproval Storage Mempool Node NodeOps NodeMine.

Section replay.
Context `{PrimitivesOk}.

(** ** A block list determines its chain *)

Lemma history_det bs st1 st2 : history bs st1 → history bs st2 → st1 = st2.
Proof.
  intros H1. revert st2. induction H1 as [|bs b st s st' H1 IH Hwf Ha]; intros st2 H2.
  - inversion H2 as [|bs' b' st0 s0 st0' _ _ _ Heq]; [done|]. by apply app_nil in Heq as [_ ?].
  - inversion H2 as [Heq|bs' b' st0 s0 st0' H2' _ Ha' Heq]; [by symmetry in Heq; apply app_nil in Heq as [_ ?]|].
    subst st0'. apply app_inj_tail in Heq as [-> ->]. apply IH in H2' as <-. congruence.
Qed.

Lemma chain_det n c1 c2 :
  chain_reachable n c1 → chain_reachable n c2 → ch_blocks c1 = ch_blocks c2 → c1 = c2.
Proof.
  intros H1%chain_reachable_ok H2%chain_reachable_ok Heq.
  pose proof (co_network _ _ H1) as N1. pose proof (co_network _ _ H2) as N2.
  pose proof (co_history _ _ H1) as h1. pose proof (co_history _ _ H2) as h2. rewrite <- Heq in h2.
  pose proof (history_det _ _ _ h1 h2). destruct c1, c2. simpl in *. congruence.
Qed.

(** The clock readings are late enough for the blocks' times. *)
Definition clock_ok (clock : nat → Z) (blocks : list Block) : Prop :=
  ∀ i b, blocks !! i = Some b → bh_timestamp (header b) <= Z.min (clock i + 7200) (umax 64).

Lemma append_block_clock now now' n c b c' :
  chain_ok n c → bh_timestamp (header b) <= Z.min (now' + 7200) (umax 64) → block_wf b →
  append_block now b c = (Ok (), c') → append_block now' b c = (Ok (), c').
Proof.
  intros Hc Hle Hwf. rewrite !append_block_Ok, !validate_next_block_rules by done.
  intros [Hv Ha]. split; [|done]. by destruct Hv; split.
Qed.

Lemma timed_snoc clock bs b : timed clock (bs ++ [b]) = timed clock bs ++ [(clock (length bs), b)].
Proof. unfold timed. rewrite imap_app. simpl. by rewrite Nat.add_0_r. Qed.

(** Rebuilding a chain from its blocks. *)
Lemma from_blocks_rebuild n c clock :
  chain_reachable n c → clock_ok clock (ch_blocks c) →
  from_blocks n (timed clock (ch_blocks c)) = Ok c.
Proof.
  intros Hc Hclock. unfold from_blocks. fold (append_all (timed clock (ch_blocks c))).
  assert (append_all (timed clock (ch_blocks c)) (Chain_new n) = (Ok (), c)) as ->; [|done].
  induction Hc as [|now b c c' Hc IH Hwf Happ]; [done|].
  pose proof Happ as (_ & s & st' & _ & ->)%append_block_Ok. cbn [ch_blocks] in *.
  rewrite timed_snoc. unfold append_all. rewrite sr_each_app. unfold append_all in IH. rewrite IH.
  - cbn [sr_each]. rewrite (sr_bind_step _ _ _ () (mkChain (ch_network c) (ch_blocks c ++ [b]) st')); [done|].
    eapply append_block_clock; [by apply chain_reachable_ok| |done|done]. apply Hclock.
    by rewrite list_lookup_middle.
  - intros i x Hx. apply Hclock. by apply lookup_app_l_Some.
Qed.

(** What [from_blocks] accepts is a reachable chain of the given blocks. *)
Lemma from_blocks_reachable n clock bs c :
  Forall block_wf bs → from_blocks n (timed clock bs) = Ok c → chain_reachable n c ∧ ch_blocks c = bs.
Proof.
  unfold from_blocks. fold (append_all (timed clock bs)).
  intros Hwf Hf. destruct (append_all (timed clock bs) (Chain_new n)) as [[[]|e] c0] eqn:E; [|done].
  injection Hf as ->. revert c E. induction bs as [|b bs IH] using rev_ind; intros c E.
  { injection E as <-. split; [constructor | done]. }
  apply Forall_app in Hwf as [Hwf Hb]. rewrite Forall_singleton in Hb. specialize (IH Hwf).
  rewrite timed_snoc in E. unfold append_all in E, IH. rewrite sr_each_app in E.
  destruct (sr_each _ (timed clock bs) _) as [[[]|e] c1] eqn:E1; [|done].
  destruct (IH c1 eq_refl) as [Hr Hbs]. cbn [sr_each] in E.
  apply sr_bind_Ok in E as ([] & c2 & E2 & [= <-]).
  split; [exact (chain_reachable_append n _ b c1 _ Hr Hb E2)|].
  apply append_block_Ok in E2 as (_ & s & st' & _ & ->). simpl. by rewrite Hbs.
Qed.

Lemma from_blocks_same n clock c c' :
  chain_reachable n c → from_blocks n (timed clock (ch_blocks c)) = Ok c' → c' = c.
Proof.
  intros Hc Hf. pose proof (co_wf _ _ (chain_reachable_ok n c Hc)) as Hwf.
  apply from_blocks_reachable in Hf as [Hr Heq]; [|done]. by apply (chain_det n).
Qed.

Lemma chain_linked n c : chain_reachable n c → linked (ch_blocks c).
Proof.
  intros Hc%chain_reachable_ok. split; [apply Hc|]. intros i p b Hp Hb.
  destruct (co_rules n c Hc (S i) b Hb) as [now Hv]. rewrite (vb_parent _ _ _ _ _ _ Hv).
  by rewrite (take_S_r _ _ p), last_snoc.
Qed.

Lemma chain_network_text n c b : chain_reachable n c → b ∈ ch_blocks c → bh_network_id (header b) = network_id n.
Proof.
  intros Hc%chain_reachable_ok [i Hi]%list_elem_of_lookup.
  destruct (co_rules n c Hc i b Hi) as [now Hv]. apply Hv.
Qed.

End replay.

(** * Reconciliation *)

Section reconcile.
Context `{PrimitivesOk}.

Lemma spends_take base st txs st' k : spends base st txs st' → ∃ st1, spends base st (take k txs) st1.
Proof.
  intros Hs. revert k. induction Hs as [st|st sender tx txs st' Hsp Hs IH]; intros [|k];
    try (eexists; constructor; fail).
  destruct (IH k) as [st1 H1]. exists st1. by econstructor.
Qed.

Lemma runs_take c l st k : runs c l st → ∃ st1, runs c (take k l) st1.
Proof.
  intros [Hwf Hd Hm Hs]. destruct (spends_take _ _ _ _ k Hs) as [st1 H1]. exists st1. split.
  - by apply Forall_take.
  - rewrite fmap_take. eapply sublist_NoDup; [done|]. apply sublist_take.
  - by apply Forall_take.
  - by rewrite fmap_take.
Qed.

(** Records of the pool, or of a transaction of a detached body. *)
Definition reinserted (pool : list PendingTransactionRecord) (txs : list Transaction)
    (r : PendingTransactionRecord) : Prop :=
  r ∈ pool ∨ pr_transaction r ∈ txs ∧ pr_tx_hash r = tx_hash_string (pr_transaction r).

Lemma reinsert_spec now pool known txs :
  Forall (reinserted pool txs) (foldl (reinsert_step now) (pool, known) txs).1 ∧
  (∀ r, r ∈ pool → r ∈ (foldl (reinsert_step now) (pool, known) txs).1).
Proof.
  assert (∀ (txs all : list Transaction) acc, (∀ tx, tx ∈ txs → tx ∈ all) → Forall (reinserted pool all) acc.1 →
    Forall (reinserted pool all) (foldl (reinsert_step now) acc txs).1 ∧
    (∀ r, r ∈ acc.1 → r ∈ (foldl (reinsert_step now) acc txs).1)) as Hgen.
  { clear. intros txs all. induction txs as [|tx txs IH]; intros [l k] Hin Hl; [done|]. cbn [foldl].
    destruct (IH (reinsert_step now (l, k) tx)) as [H1 H2].
    - intros x Hx. apply Hin. by right.
    - unfold reinsert_step. case_bool_decide; [done|]. apply Forall_app. split; [done|].
      constructor; [|done]. right. split; [apply Hin; by left | done].
    - split; [done|]. intros r Hr. apply H2. unfold reinsert_step.
      case_bool_decide; [done|]. apply elem_of_app. by left. }
  apply Hgen; [done|]. apply Forall_forall. by left.
Qed.

Lemma detached_wf (detached : list Block) :
  Forall block_wf detached → Forall tx_wf (detached ≫= λ b, drop 1 (transactions b)).
Proof.
  intros Hwf. apply Forall_forall. intros tx (b & Htx & Hb)%list_elem_of_bind.
  rewrite Forall_forall in Hwf. pose proof (bwf_txs _ (Hwf b Hb)) as Htxs. rewrite Forall_forall in Htxs.
  apply Htxs. rewrite <- (take_drop 1 (transactions b)). apply elem_of_app. by right.
Qed.

(** Reconciliation never fails on a valid chain, and leaves a pool that runs on it. *)
Lemma reconcile_total now n c detached max_transactions pool :
  chain_reachable n c → Forall record_wf pool → Forall block_wf detached →
  ∃ pool' dropped st, reconcile_after_reorg now c detached max_transactions pool = Ok (pool', dropped) ∧
    runs c pool' st ∧ Z.of_nat (length pool') <= Z.max 0 max_transactions ∧
    Forall (reinserted pool (detached ≫= λ b, drop 1 (transactions b))) pool'.
Proof.
  intros Hc Hpool Hdet. unfold reconcile_after_reorg. cbv zeta.
  pose proof (reinsert_spec now pool (list_to_set (hashes pool)) (detached ≫= λ b, drop 1 (transactions b)))
    as [Hr _].
  destruct (foldl (reinsert_step now) _ _) as [records known]. cbn [fst] in Hr.
  assert (Forall record_wf records) as Hwf.
  { eapply Forall_impl; [exact Hr|]. intros r [Hin|[Hin _]].
    - rewrite Forall_forall in Hpool. by apply Hpool.
    - pose proof (detached_wf _ Hdet) as Hd. rewrite Forall_forall in Hd. by apply Hd. }
  destruct (sanitize_runs now c records (reachable_ledger_ok n c Hc) Hwf)
    as (valid & dropped & st & Hs & Hruns & Hin). rewrite Hs. cbn [mbind result_bind].
  destruct (runs_take c valid st (Z.to_nat max_transactions) Hruns) as [st1 Hruns1].
  exists (take (Z.to_nat max_transactions) valid), dropped, st1. split_and!; [done|done| |].
  - rewrite length_take. lia.
  - apply Forall_take, Forall_forall. intros r Hrv. rewrite Forall_forall in Hr. by apply Hr, Hin.
Qed.

End reconcile.

(** * The node *)

Section node.
Context `{PrimitivesOk}.
Context (env : NodeEnv) (config : NetworkConfig).
(** The node runs: its configuration loads and its directory is allowed. *)
Context (Hconfig : load_network_config (file_network (ne_files env)) = Ok config).
Context (Hdir : ensure_network_storage_path (cfg_network config) (ne_dir env) = Ok ()).

#[local] Abbreviation net := (cfg_network config).

Definition genesis_accepted (blocks : list Block) : Prop :=
  requires_explicit_allow net = true →
  verify_existing_genesis (ne_files env) (ne_deterministic env) blocks = Ok ().

Lemma genesis_accepted_head bs bs' : head bs = head bs' → genesis_accepted bs → genesis_accepted bs'.
Proof. intros Heq Hg Hr. specialize (Hg Hr). unfold verify_existing_genesis in *. by rewrite <- Heq. Qed.

(** The files of a node hold the chain [c]. *)
Record node_ok (s : NodeState) (c : Chain) : Prop := {
  no_chain : chain_reachable net c;
  no_initialized : ch_blocks c ≠ [];
  no_genesis : genesis_accepted (ch_blocks c);
  no_stores : stores (ns_db s) (ch_blocks c);
  no_orphans : orphans_ok (orphaned (ns_db s));
  no_pool : Forall record_wf (ns_pool s);
}.

Lemma build_Ok clock c :
  chain_reachable net c → genesis_accepted (ch_blocks c) → clock_ok clock (ch_blocks c) →
  build_validated_chain env clock config (ch_blocks c) = Ok c.
Proof.
  intros Hc Hg Hclock. unfold build_validated_chain. unfold genesis_accepted in Hg.
  destruct (requires_explicit_allow net); [rewrite Hg by done|]; cbn [mbind result_bind];
    by rewrite (from_blocks_rebuild net c clock Hc Hclock).
Qed.

Lemma build_inv clock bs c :
  Forall block_wf bs → build_validated_chain env clock config bs = Ok c →
  chain_reachable net c ∧ ch_blocks c = bs ∧ genesis_accepted bs.
Proof.
  intros Hwf. unfold build_validated_chain, genesis_accepted.
  intros [Hg Hf%map_err_Ok]%bind_unit_Ok. destruct (from_blocks_reachable net clock bs c Hwf Hf) as [? ?].
  split_and!; [done|done|]. intros Hr. by rewrite Hr in Hg.
Qed.

Lemma build_same clock c c' :
  chain_reachable net c → build_validated_chain env clock config (ch_blocks c) = Ok c' → c' = c.
Proof.
  intros Hc Hb. unfold build_validated_chain in Hb. apply bind_unit_Ok in Hb as [_ Hf%map_err_Ok].
  by apply (from_blocks_same net clock).
Qed.

Lemma load_node s c allow_empty :
  node_ok s c → load_blocks_from_connection (dd_database (ne_dir env)) allow_empty (ns_db s) = Ok (ch_blocks c).
Proof. intros Hs. apply load_stores; apply Hs. Qed.

(** What the chain after a mined block is. *)
Lemma node_ok_append s c b now c' pool db' :
  node_ok s c → block_wf b → append_block now b c = (Ok (), c') →
  stores db' (ch_blocks c ++ [b]) → orphaned db' = orphaned (ns_db s) → Forall record_wf pool →
  node_ok (mkNode db' pool) c'.
Proof.
  intros Hs Hb Ha Hst Ho Hpool. pose proof Ha as (_ & x & st' & _ & ->)%append_block_Ok.
  destruct Hs as [Hc Hne Hg _ Hor _]. split; cbn [ns_db ns_pool ch_blocks].
  - by econstructor.
  - by destruct (ch_blocks c).
  - eapply genesis_accepted_head; [|exact Hg]. by destruct (ch_blocks c).
  - done.
  - by rewrite Ho.
  - done.
Qed.

(** The pool after the cleanup of a mined block. *)
Definition cleaned (pool_io : bool) (b : Block) (pool : list PendingTransactionRecord)
    : list PendingTransactionRecord :=
  if pool_io then filter (λ r, pr_tx_hash r ∉ tx_hash_string <$> drop 1 (transactions b)) pool else pool.

Lemma cleaned_wf pool_io b pool : Forall record_wf pool → Forall record_wf (cleaned pool_io b pool).
Proof. intros Hp. unfold cleaned. destruct pool_io; [|done].
  eapply sublist_Forall; [apply sublist_filter | done]. Qed.

Lemma submit_mined_rules clock now pool_io b s c r s' :
  node_ok s c → block_wf b → submit_mined_block env clock now pool_io b s = (r, s') →
  match r with
  | Ok sum => ∃ c', append_block now b c = (Ok (), c') ∧ node_ok s' c' ∧
      ns_pool s' = cleaned pool_io b (ns_pool s) ∧ smb_block_height sum = Z.of_nat (length (ch_blocks c))
  | Err _ => s' = s ∧
      (clock_ok clock (ch_blocks c) → Z.of_nat (length (ch_blocks c)) < 2 ^ 63 →
       block_hash b ∉ block_hash <$> ch_blocks c → is_err (append_block now b c).1 = true)
  end.
Proof.
  intros Hs Hb. unfold submit_mined_block. rewrite sr_lift_bind, Hconfig, sr_lift_bind, Hdir.
  set (validate := λ blocks candidate, _).
  unfold mbind at 1, state_result_bind at 1, on_db at 1.
  destruct (append_validated _ _ validate (ns_db s)) as [r1 db1] eqn:E.
  apply (append_validated_rules _ _ _ _ _ _ _ (no_stores _ _ Hs) (no_initialized _ _ Hs)) in E.
  destruct r1 as [[]|e].
  - destruct E as (Hval & Hext & Hst & Ho & _). unfold validate in Hval.
    apply bind_Ok in Hval as (c0 & Hbuild & Happ%map_err_Ok).
    apply (build_same _ _ _ (no_chain _ _ Hs)) in Hbuild as ->.
    destruct (append_block now b c) as [r1 c'] eqn:Ea. cbn [fst] in Happ. subst r1.
    cbv zeta. rewrite sr_get_bind. intros Heq.
    destruct pool_io; injection Heq as <- <-; exists c'; (split; [done|]);
      (split; [|split; [done|exact (proj1 Hext)]]);
      (eapply node_ok_append; [done..|]); [by apply (cleaned_wf true), Hs | by apply Hs].
  - destruct E as [-> Hconv]. intros [= <- <-]. split; [by destruct s|]. intros Hclock Hlen Hn.
    destruct (append_block now b c) as [[[]|e'] c'] eqn:Ea; [|done]. exfalso.
    assert (extends (ch_blocks c) b) as Hext.
    { pose proof (chain_linked net c' (chain_reachable_append _ _ _ _ _ (no_chain _ _ Hs) Hb Ea)) as Hl.
      apply append_block_Ok in Ea as (_ & x & st' & _ & ->). by apply linked_last in Hl. }
    specialize (Hconv Hext Hn Hlen). unfold validate in Hconv.
    rewrite (build_Ok clock c (no_chain _ _ Hs) (no_genesis _ _ Hs) Hclock) in Hconv.
    cbn [mbind result_bind] in Hconv. by rewrite Ea in Hconv.
Qed.

(** C9. Submitting a mined block: the node stores it exactly when the stored chain
    accepts it.  On success the files hold the longer chain and the pool has lost
    the mined bodies; on an error nothing changed.  A block the chain accepts is
    always stored, unless its hash is already in the store. *)
Theorem submit_mined_block_spec clock now pool_io b s c r s' :
  node_ok s c → block_wf b → submit_mined_block env clock now pool_io b s = (r, s') →
  match r with
  | Ok sum => ∃ c', append_block now b c = (Ok (), c') ∧ node_ok s' c' ∧
      ns_pool s' = cleaned pool_io b (ns_pool s) ∧ smb_block_height sum = Z.of_nat (length (ch_blocks c))
  | Err _ => s' = s ∧
      (clock_ok clock (ch_blocks c) → Z.of_nat (length (ch_blocks c)) < 2 ^ 63 →
       block_hash b ∉ block_hash <$> ch_blocks c → is_err (append_block now b c).1 = true)
  end.
Proof. apply submit_mined_rules. Qed.

(** ** Judging a candidate *)

Lemma select_fork_adopts current candidate :
  select_fork current candidate = Ok AdoptCandidate ↔
  ∃ g g' w w', head current = Some g ∧ head candidate = Some g' ∧ block_hash g = block_hash g' ∧
    cumulative_work current = Ok w ∧ cumulative_work candidate = Ok w' ∧ w < w'.
Proof.
  unfold select_fork. split.
  - intros (g & Hg%ok_or_Ok & Hx)%bind_Ok. apply bind_Ok in Hx as (g' & Hg'%ok_or_Ok & Hx).
    rewrite if_negb_Err_Ok, bool_decide_eq_true in Hx. destruct Hx as [Hh Hx].
    apply bind_Ok in Hx as (w' & Hw' & Hx). apply bind_Ok in Hx as (w & Hw & Hx).
    exists g, g', w, w'. split_and!; try done. rewrite Z.gtb_ltb in Hx.
    destruct (w <? w') eqn:E; breflect; [done|congruence].
  - intros (g & g' & w & w' & Hg & Hg' & Hh & Hw & Hw' & Hlt). rewrite Hg, Hg'.
    cbn [ok_or mbind result_bind]. rewrite bool_decide_eq_true_2 by done. cbn [negb].
    rewrite Hw', Hw. cbn [mbind result_bind]. rewrite Z.gtb_ltb. by rewrite (proj2 (Z.ltb_lt _ _) Hlt).
Qed.

(** [k] blocks are shared, by hash, and no more. *)
Record shared_prefix (current candidate : list Block) (k : nat) : Prop := {
  sh_current : (k <= length current)%nat;
  sh_candidate : (k <= length candidate)%nat;
  sh_hashes : block_hash <$> take k current = block_hash <$> take k candidate;
  sh_maximal x y : current !! k = Some x → candidate !! k = Some y → block_hash x ≠ block_hash y;
}.

Lemma take_while_same_shared current candidate :
  ∃ k, take_while_same current candidate = take k current ∧ shared_prefix current candidate k.
Proof.
  revert candidate. induction current as [|x current IH]; intros [|y candidate]; cbn [take_while_same];
    [exists O; by (split; [done | split; simpl; auto with lia; done])..|].
  case_bool_decide as Hh.
  - destruct (IH candidate) as (k & -> & [? ? Hs Hm]). exists (S k). split; [done|].
    split; [simpl; lia | simpl; lia | | exact Hm]. cbn [take firstn]. by rewrite !fmap_cons, Hh, Hs.
  - exists O. split; [done|]. split; simpl; [lia|lia|done|]. by intros ? ? [= <-] [= <-].
Qed.

(** Heights count from zero, so the blocks above the ancestor are the rest. *)
Lemma above_ancestor bs k :
  linked bs → (k < length bs)%nat ∨ k = length bs →
  filter (λ b, Z.of_nat k - 1 < bh_height (header b)) bs = drop k bs.
Proof.
  intros Hl _. induction bs as [|b bs IH] using rev_ind; [by rewrite drop_nil|].
  rewrite filter_app, (IH (linked_prefix _ _ Hl)). rewrite filter_cons, filter_nil.
  rewrite (proj1 (linked_last _ _ Hl)). case_decide as Hd.
  - by rewrite drop_app_le by lia.
  - rewrite !drop_ge by (rewrite ?length_app; simpl; lia). done.
Qed.

(** What an adopted candidate is to the stored chain. *)
Record better (c c' : Chain) : Prop := {
  bt_chain : chain_reachable net c';
  bt_genesis : genesis_accepted (ch_blocks c');
  bt_same_genesis : block_hash <$> head (ch_blocks c) = block_hash <$> head (ch_blocks c');
  bt_nonempty : ch_blocks c' ≠ [];
  bt_work : total_work (ch_blocks c) < total_work (ch_blocks c');
  bt_width : total_work (ch_blocks c') <= umax 128;
  bt_difficulty : Forall (λ b, bh_difficulty (header b) < 128) (ch_blocks c ++ ch_blocks c');
}.

(** What the summary of a reorganisation reports. *)
Record reorg_report (c c' : Chain) (tip : string) (sum : ChainReorgSummary) (detached : list Block) (k : nat)
    : Prop := {
  rr_shared : shared_prefix (ch_blocks c) (ch_blocks c') k;
  rr_ancestor : crs_common_ancestor_height sum = Z.of_nat k - 1;
  rr_detached : detached = drop k (ch_blocks c);
  rr_detached_count : crs_detached_blocks sum = Z.of_nat (length (ch_blocks c) - k);
  rr_attached_count : crs_attached_blocks sum = Z.of_nat (length (ch_blocks c') - k);
  rr_previous_tip : crs_previous_tip_hash sum = tip;
  rr_new_tip : Some (crs_new_tip_hash sum) = hash_to_hex ∘ block_hash <$> last (ch_blocks c');
  rr_previous_work : crs_previous_chain_work sum = total_work (ch_blocks c);
  rr_new_work : crs_new_chain_work sum = total_work (ch_blocks c');
}.

Lemma chain_u8 n c : chain_reachable n c → Forall (λ b, is_u8 (bh_difficulty (header b))) (ch_blocks c).
Proof.
  intros Hc%chain_reachable_ok. eapply Forall_impl; [exact (co_wf _ _ Hc)|].
  intros b Hb. apply (bwf_header _ Hb).
Qed.

Lemma common_ancestor_shared bs bs' a :
  linked bs → common_ancestor_height bs bs' = Some a →
  ∃ k, shared_prefix bs bs' k ∧ a = Z.of_nat k - 1.
Proof.
  intros Hl. unfold common_ancestor_height.
  destruct (take_while_same_shared bs bs') as (k & -> & Hk). intros Ha. exists k. split; [done|].
  destruct (last (take k bs)) as [b|] eqn:E; [|done]. injection Ha as <-.
  rewrite last_lookup, length_take in E. rewrite lookup_take in E.
  pose proof (sh_current _ _ _ Hk). destruct (decide (pred (k `min` length bs) < k)%nat); [|done].
  rewrite (ln_height _ Hl _ _ E). lia.
Qed.

Lemma judge_inv clock clock' tip c candidate sum detached c' :
  chain_reachable net c → Forall block_wf candidate →
  judge_candidate env clock clock' config tip (ch_blocks c) candidate = Ok (sum, detached, c') →
  ch_blocks c' = candidate ∧ better c c' ∧ ∃ k, reorg_report c c' tip sum detached k.
Proof.
  intros Hc Hwf Hj. unfold judge_candidate in Hj. apply bind_Ok in Hj as (c0 & Hb & Hj).
  apply (build_same _ _ _ Hc) in Hb as ->. apply bind_Ok in Hj as (c1 & Hb1 & Hj).
  apply build_inv in Hb1 as (Hc1 & <- & Hg1); [|done].
  apply bind_Ok in Hj as (choice & Hch%map_err_Ok & Hj). rewrite if_negb_Err_Ok, bool_decide_eq_true in Hj.
  destruct Hj as [-> Hj]. apply bind_Ok in Hj as (a & Ha%ok_or_Ok & Hj). cbv zeta in Hj.
  apply bind_Ok in Hj as (w0 & Hw0%map_err_Ok & Hj). apply bind_Ok in Hj as (w1 & Hw1%map_err_Ok & Hj).
  injection Hj as <- <- <-. unfold Chain_cumulative_work in Hw0, Hw1.
  apply select_fork_adopts in Hch as (g & g' & w & w' & Hg & Hg' & Hh & Hw & Hw' & Hlt).
  rewrite Hw in Hw0. rewrite Hw' in Hw1. injection Hw0 as <-. injection Hw1 as <-.
  apply (cumulative_work_Ok _ _ (chain_u8 _ _ Hc)) in Hw as (Hd0 & -> & Hm0).
  apply (cumulative_work_Ok _ _ (chain_u8 _ _ Hc1)) in Hw' as (Hd1 & -> & Hm1).
  destruct (common_ancestor_shared _ _ _ (chain_linked _ _ Hc) Ha) as (k & Hk & ->).
  split_and!; [done | |].
  - split; try done; [by rewrite Hg, Hg'; simpl; rewrite Hh | by intros Hx; rewrite Hx in Hg' | by apply Forall_app].
  - exists k. pose proof (sh_current _ _ _ Hk). pose proof (sh_candidate _ _ _ Hk).
    split; try done; cbn [crs_detached_blocks crs_attached_blocks crs_new_tip_hash].
    + apply above_ancestor; [by eapply chain_linked | lia].
    + rewrite above_ancestor, length_drop by (by eapply chain_linked || lia). done.
    + rewrite above_ancestor, length_drop by (by eapply chain_linked || lia). done.
    + destruct (last (ch_blocks c1)) eqn:E; [done|]. apply last_None in E. by rewrite E in Hg'.
Qed.

Lemma judge_complete clock clock' tip c c' :
  chain_reachable net c → ch_blocks c ≠ [] → genesis_accepted (ch_blocks c) → better c c' →
  clock_ok clock (ch_blocks c) → clock_ok clock' (ch_blocks c') →
  is_ok (judge_candidate env clock clock' config tip (ch_blocks c) (ch_blocks c')) = true.
Proof.
  intros Hc Hne Hg [Hc1 Hg1 Hhead Hne1 Hlt Hmax Hd] Hclock Hclock'. unfold judge_candidate.
  rewrite (build_Ok clock c Hc Hg Hclock). cbn [mbind result_bind].
  rewrite (build_Ok clock' c' Hc1 Hg1 Hclock'). cbn [mbind result_bind].
  apply Forall_app in Hd as [Hd0 Hd1].
  pose proof (total_work_nonneg (ch_blocks c)).
  assert (cumulative_work (ch_blocks c) = Ok (total_work (ch_blocks c))) as Hw
    by (apply cumulative_work_Ok; [by eapply chain_u8|]; split_and!; [done|done|lia]).
  assert (cumulative_work (ch_blocks c') = Ok (total_work (ch_blocks c'))) as Hw'
    by (apply cumulative_work_Ok; [by eapply chain_u8|]; done).
  destruct (head (ch_blocks c)) as [g|] eqn:Eg; [|by destruct (ch_blocks c)].
  destruct (head (ch_blocks c')) as [g'|] eqn:Eg'; [|by destruct (ch_blocks c')].
  simpl in Hhead. injection Hhead as Hh.
  assert (select_fork (ch_blocks c) (ch_blocks c') = Ok AdoptCandidate) as ->
    by (apply select_fork_adopts; by eexists g, g', _, _).
  cbn [map_err mbind result_bind]. rewrite bool_decide_eq_true_2 by done. cbn [negb].
  assert (is_Some (common_ancestor_height (ch_blocks c) (ch_blocks c'))) as [a ->].
  { unfold common_ancestor_height. destruct (ch_blocks c) as [|x xs]; [done|].
    destruct (ch_blocks c') as [|y ys]; [done|]. injection Eg as ->. injection Eg' as ->.
    cbn [take_while_same]. rewrite bool_decide_eq_true_2 by done. rewrite last_cons.
    by destruct (last _); simpl; eexists. }
  cbn [ok_or mbind result_bind]. unfold Chain_cumulative_work. by rewrite Hw, Hw'.
Qed.

(** What an adoption leaves. *)
Record adopted (s s' : NodeState) (c c' : Chain) (sum : ChainReorgSummary) : Prop := {
  ap_better : better c c';
  ap_node : node_ok s' c';
  ap_pool : ∃ st, runs c' (ns_pool s') st;
  ap_limit : Z.of_nat (length (ns_pool s')) <= Z.max 0 (cfg_max_mempool_transactions config);
  ap_report : ∃ k detached tip, hash_to_hex ∘ block_hash <$> last (ch_blocks c) = Some tip ∧
    reorg_report c c' tip sum detached k ∧
    Forall (reinserted (ns_pool s) (detached ≫= λ b, drop 1 (transactions b))) (ns_pool s');
  ap_detached h : h ∈ block_hash <$> ch_blocks c → h ∉ block_hash <$> ch_blocks c' →
    h ∈ or_hash <$> orphaned (ns_db s');
}.

Lemma reorg_report_dropped c c' tip sum detached k dropped :
  reorg_report c c' tip sum detached k → reorg_report c c' tip (set_dropped dropped sum) detached k.
Proof. intros []. by split. Qed.

(** What an adoption whose pool update failed leaves: the candidate stored, the
    detached blocks in the orphan table, the pool as it was. *)
Record stored_only (s s' : NodeState) (c c' : Chain) : Prop := {
  so_better : better c c';
  so_node : node_ok s' c';
  so_pool : ns_pool s' = ns_pool s;
  so_detached h : h ∈ block_hash <$> ch_blocks c → h ∉ block_hash <$> ch_blocks c' →
    h ∈ or_hash <$> orphaned (ns_db s');
}.

Lemma adopt_rules clock clock' now now' observed pool_io candidate s c r s' :
  node_ok s c → Forall block_wf candidate →
  adopt_candidate_chain env clock clock' now now' observed pool_io candidate s = (r, s') →
  match r with
  | Ok sum => pool_io = Ok () ∧ ∃ c', ch_blocks c' = candidate ∧ adopted s s' c c' sum
  | Err e => s' = s ∨ pool_io = Err e ∧ ∃ c', ch_blocks c' = candidate ∧ stored_only s s' c c'
  end.
Proof.
  intros Hs Hwf. unfold adopt_candidate_chain. rewrite sr_lift_bind, Hconfig, sr_lift_bind, Hdir, sr_lift_bind.
  destruct observed as [seen|e]; [|intros [= <- <-]; by left]. rewrite sr_lift_bind.
  destruct (last seen) as [t|]; cbn [ok_or]; [|intros [= <- <-]; by left]. cbv zeta.
  set (tip := hash_to_hex (block_hash t)).
  unfold mbind at 1, state_result_bind at 1, on_db at 1.
  destruct (replace_validated now _ tip candidate _ (ns_db s)) as [r1 db1] eqn:E.
  apply (replace_validated_rules _ _ _ _ _ _ _ _ _ (no_stores _ _ Hs) (no_initialized _ _ Hs) (no_orphans _ _ Hs)) in E.
  2:{ intros [[sum detached] c'] (<- & Hb & _)%judge_inv; [|apply Hs|done].
      split; [|apply Hb]. eapply chain_linked, Hb. }
  destruct r1 as [[[sum detached] c']|e]; [|destruct E as [-> _]; intros [= <- <-]; left; by destruct s].
  destruct E as (Hj & Htip & Hrep & _).
  apply judge_inv in Hj as (Hbs & Hb & k & Hreport); [|apply Hs|done].
  assert (∀ pool, Forall record_wf pool → node_ok (mkNode db1 pool) c') as Hok.
  { intros pool Hp. destruct Hb, Hrep. split; cbn [ns_pool ns_db]; try done. by rewrite Hbs. }
  assert (∀ h, h ∈ block_hash <$> ch_blocks c → h ∉ block_hash <$> ch_blocks c' → h ∈ or_hash <$> orphaned db1) as Hor.
  { intros h Hin Hno. apply (rp_detached _ _ _ _ Hrep). right. by rewrite <- Hbs. }
  rewrite sr_lift_bind. destruct pool_io as [[]|e].
  2:{ intros [= <- <-]. right. split; [done|]. exists c'. split; [done|]. split; try done. apply Hok, Hs. }
  rewrite sr_get_bind, sr_lift_bind.
  assert (Forall block_wf detached) as Hdwf.
  { rewrite (rr_detached _ _ _ _ _ _ Hreport). apply Forall_drop.
    exact (co_wf _ _ (chain_reachable_ok _ _ (no_chain _ _ Hs))). }
  destruct (reconcile_total now' net c' detached (cfg_max_mempool_transactions config) (ns_pool s)
    (bt_chain _ _ Hb) (no_pool _ _ Hs) Hdwf) as (pool' & dropped & st & Hrec & Hruns & Hlen & Hre).
  cbn [ns_pool]. rewrite Hrec. intros [= <- <-]. split; [done|]. exists c'. split; [done|].
  split; cbn [ns_pool ns_db]; try done.
  - apply Hok, Hruns.
  - by exists st.
  - exists k, detached, tip. split_and!; [done | by apply reorg_report_dropped | done].
Qed.

Lemma adopt_progress clock clock' now now' observed s c c' :
  node_ok s c → better c c' → last observed = last (ch_blocks c) →
  clock_ok clock (ch_blocks c) → clock_ok clock' (ch_blocks c') →
  Z.of_nat (length (ch_blocks c')) <= 2 ^ 63 → NoDup (block_hash <$> ch_blocks c') →
  is_ok (adopt_candidate_chain env clock clock' now now' (Ok observed) (Ok ()) (ch_blocks c') s).1 = true.
Proof.
  intros Hs Hb Hlast Hclock Hclock' Hlen Hd. unfold adopt_candidate_chain.
  rewrite sr_lift_bind, Hconfig, sr_lift_bind, Hdir, sr_lift_bind, sr_lift_bind, Hlast.
  destruct (last (ch_blocks c)) as [t|] eqn:Et; [|apply last_None in Et; by destruct (no_initialized _ _ Hs)].
  cbn [ok_or]. cbv zeta. set (tip := hash_to_hex (block_hash t)).
  assert (Forall block_wf (ch_blocks c')) as Hwf by exact (co_wf _ _ (chain_reachable_ok _ _ (bt_chain _ _ Hb))).
  unfold mbind at 1, state_result_bind at 1, on_db at 1.
  destruct (replace_validated now _ tip _ _ (ns_db s)) as [r1 db1] eqn:E.
  apply (replace_validated_rules _ _ _ _ _ _ _ _ _ (no_stores _ _ Hs) (no_initialized _ _ Hs) (no_orphans _ _ Hs)) in E.
  2:{ intros _ _. split; [eapply chain_linked, Hb | apply Hb]. }
  destruct r1 as [[[sum detached] c1]|e].
  - destruct E as (Hj & _). apply judge_inv in Hj as (_ & Hb1 & k & Hreport); [|apply Hs|done].
    rewrite sr_lift_bind, sr_get_bind, sr_lift_bind.
    assert (Forall block_wf detached) as Hdwf.
    { rewrite (rr_detached _ _ _ _ _ _ Hreport). apply Forall_drop.
      exact (co_wf _ _ (chain_reachable_ok _ _ (no_chain _ _ Hs))). }
    cbn [ns_pool]. by destruct (reconcile_total now' net c1 detached (cfg_max_mempool_transactions config) (ns_pool s)
      (bt_chain _ _ Hb1) (no_pool _ _ Hs) Hdwf) as (pool' & dropped & st & -> & _).
  - destruct E as [_ Hconv]. specialize (Hconv Hlen Hd). rewrite Et in Hconv. specialize (Hconv eq_refl).
    pose proof (judge_complete clock clock' tip c c' (no_chain _ _ Hs) (no_initialized _ _ Hs)
      (no_genesis _ _ Hs) Hb Hclock Hclock') as Hok.
    destruct (judge_candidate _ _ _ _ _ _ _); done.
Qed.

(** C12. Adopting a candidate chain, whatever the files of the pool do.  Success means
    the candidate is a chain valid from an accepted genesis, shares the stored
    chain's genesis and has strictly more work; afterwards the files hold it, the
    replaced blocks are in the orphan table, and the pool, made of former records
    and of the transactions of the detached blocks, runs on the new tip within
    the pool limit.  The summary reports the fork point and both works.  An error
    changes nothing, unless it is that of the pool's files: they are updated after
    the store's commit, so then the better chain is stored, its detached blocks are
    in the orphan table and the pool is as it was. *)
Theorem adopt_candidate_chain_spec clock clock' now now' observed pool_io candidate s c r s' :
  node_ok s c → Forall block_wf candidate →
  adopt_candidate_chain env clock clock' now now' observed pool_io candidate s = (r, s') →
  match r with
  | Ok sum => pool_io = Ok () ∧ ∃ c', ch_blocks c' = candidate ∧ adopted s s' c c' sum
  | Err e => s' = s ∨ pool_io = Err e ∧ ∃ c', ch_blocks c' = candidate ∧ stored_only s s' c c'
  end.
Proof. apply adopt_rules. Qed.

(** Heavier chains win: a candidate that is valid from an accepted genesis,
    shares the stored chain's genesis and has strictly more work is adopted,
    whatever the pool holds, provided the tip has not moved since it was
    observed, the clock is not behind the blocks and its hashes are distinct. *)
Theorem heavier_chain_adopted clock clock' now now' observed s c c' :
  node_ok s c → better c c' → last observed = last (ch_blocks c) →
  clock_ok clock (ch_blocks c) → clock_ok clock' (ch_blocks c') →
  Z.of_nat (length (ch_blocks c')) <= 2 ^ 63 → NoDup (block_hash <$> ch_blocks c') →
  ∃ sum s', adopt_candidate_chain env clock clock' now now' (Ok observed) (Ok ()) (ch_blocks c') s = (Ok sum, s') ∧
    node_ok s' c'.
Proof.
  intros Hs Hb Hlast Hclock Hclock' Hlen Hd.
  pose proof (adopt_progress clock clock' now now' observed s c c' Hs Hb Hlast Hclock Hclock' Hlen Hd) as Hok.
  destruct (adopt_candidate_chain _ _ _ _ _ _ _ _ s) as [[sum|e] s'] eqn:E; [|done].
  exists sum, s'. split; [done|]. apply (adopt_rules _ _ _ _ _ _ _ s c) in E as (_ & c1 & Hbs & Ha); [|done|].
  - assert (c1 = c') as <- by (eapply chain_det; [apply Ha | apply Hb | done]). apply Ha.
  - exact (co_wf _ _ (chain_reachable_ok _ _ (bt_chain _ _ Hb))).
Qed.

(** ** Runs *)

Abbreviation dir := (ne_dir env).

Lemma load_chain_only_same clock s c c' :
  node_ok s c → load_chain_only dir clock (ns_db s) = Ok c' → c' = c.
Proof.
  intros Hs. unfold load_chain_only, load_blocks. rewrite (load_node s c false Hs). cbn [mbind result_bind].
  intros (g & Hg%ok_or_Ok & Hx)%bind_Ok. apply bind_Ok in Hx as (n & Hn%map_err_Ok & Hf%map_err_Ok).
  assert (n = net) as ->.
  { unfold Block_network in Hn. apply ok_or_Ok in Hn.
    rewrite (chain_network_text net c g), from_network_id_id in Hn; [by injection Hn|apply Hs|].
    destruct (ch_blocks c); [done|]. injection Hg as ->. by left. }
  eapply from_blocks_same; [apply Hs | done].
Qed.

(** The chain [c'] replaces [c] legitimately. *)
Record improves (c c' : Chain) : Prop := {
  im_work : total_work (ch_blocks c) <= total_work (ch_blocks c');
  im_genesis : block_hash <$> head (ch_blocks c) = block_hash <$> head (ch_blocks c');
  im_strict : total_work (ch_blocks c) = total_work (ch_blocks c') → c = c';
}.

Lemma improves_refl c : improves c c.
Proof. by split. Qed.

Lemma improves_trans c1 c2 c3 : improves c1 c2 → improves c2 c3 → improves c1 c3.
Proof.
  intros [w1 g1 s1] [w2 g2 s2]. split; [lia | congruence |]. intros Heq.
  rewrite s1 by lia. apply s2. lia.
Qed.

Lemma better_improves c c' : better c c' → improves c c'.
Proof. intros Hb. split; [pose proof (bt_work _ _ Hb); lia | apply Hb | pose proof (bt_work _ _ Hb); lia]. Qed.

Lemma total_work_app bs cs : total_work (bs ++ cs) = total_work bs + total_work cs.
Proof.
  induction bs as [|b bs IH]; [done|]. cbn [app]. rewrite !total_work_cons, IH. lia.
Qed.

Lemma append_improves now b c c' :
  ch_blocks c ≠ [] → is_u8 (bh_difficulty (header b)) → append_block now b c = (Ok (), c') → improves c c'.
Proof.
  intros Hne [Hd _] (_ & x & st' & _ & ->)%append_block_Ok.
  assert (0 < total_work [b]) by (rewrite total_work_cons; unfold work_of, total_work; simpl; lia).
  split; cbn [ch_blocks]; rewrite ?total_work_app; try lia. by destruct (ch_blocks c).
Qed.

Lemma node_ok_pool s c pool :
  node_ok s c → Forall record_wf pool → node_ok (mkNode (ns_db s) pool) c.
Proof. intros [] Hp. by split. Qed.

Lemma submit_transaction_step clock t1 t2 t3 t4 limit tx s c r s' :
  node_ok s c → tx_wf tx → Z.of_nat (length (ns_pool s)) < umax 64 →
  node_submit_transaction clock t1 t2 t3 t4 dir limit tx s = (r, s') → node_ok s' c.
Proof.
  intros Hs Htx Hlen. unfold node_submit_transaction. rewrite sr_get_bind, sr_lift_bind.
  destruct (load_chain_only dir clock (ns_db s)) as [c1|e] eqn:E; [|by intros [= _ <-]].
  apply (load_chain_only_same _ _ _ _ Hs) in E as ->. unfold on_pool.
  destruct (submit_transaction t1 t2 t3 t4 c limit tx (ns_pool s)) as [r1 pool'] eqn:Es.
  apply (submit_transaction_rules _ _ _ _ net) in Es; [|apply Hs|apply Hs|done|done].
  intros [= _ <-]. apply node_ok_pool; [done|]. destruct r1 as [sum|e]; [|rewrite Es; apply Hs].
  destruct Es as (kept & st & sender & -> & Hin & _). apply Forall_app. split; [|by constructor].
  apply Forall_forall. intros q Hq. pose proof (no_pool _ _ Hs) as Hp. rewrite Forall_forall in Hp. by apply Hp, Hin.
Qed.

Lemma mempool_status_step clock now s c r s' :
  node_ok s c → mempool_status clock now dir s = (r, s') → node_ok s' c.
Proof.
  intros Hs. unfold mempool_status. rewrite sr_get_bind, sr_lift_bind.
  destruct (load_chain_only dir clock (ns_db s)) as [c1|e] eqn:E; [|by intros [= _ <-]].
  apply (load_chain_only_same _ _ _ _ Hs) in E as ->. rewrite sr_lift_bind.
  destruct (sanitize_runs now c (ns_pool s) (reachable_ledger_ok _ _ (no_chain _ _ Hs)) (no_pool _ _ Hs))
    as (valid & dropped & st & -> & Hruns & _).
  intros [= _ <-]. apply (node_ok_pool s c valid Hs), Hruns.
Qed.

(** Adoption under any outcome of the pool's files: a failure after the store's
    commit still leaves a better chain stored. *)
Lemma adopt_step clock clock' now now' observed pool_io candidate s c r s' :
  node_ok s c → Forall block_wf candidate →
  adopt_candidate_chain env clock clock' now now' observed pool_io candidate s = (r, s') →
  ∃ c', node_ok s' c' ∧ improves c c'.
Proof.
  intros Hs Hwf Ha. apply (adopt_rules _ _ _ _ _ _ _ s c) in Ha; [|done..]. destruct r as [sum|e].
  - destruct Ha as (_ & c' & _ & Ha). exists c'. split; [apply Ha | apply better_improves, Ha].
  - destruct Ha as [->|(_ & c' & _ & Ha)]; [exists c; split; [done | apply improves_refl]|].
    exists c'. split; [apply Ha | apply better_improves, Ha].
Qed.

(** ** From template to stored block *)

(** The gate before loading is open. *)
Definition gate_open : Prop :=
  requires_explicit_allow net = true →
  is_ok (verified_mainnet_genesis_manifest (ne_payload_json env) (ne_files env) (ne_deterministic env)) = true.

Lemma load_validated_Ok clock s c :
  node_ok s c → gate_open → clock_ok clock (ch_blocks c) →
  load_validated_chain env clock (ns_db s) = Ok (config, ch_blocks c, c).
Proof.
  intros Hs Hgate Hclock. unfold load_validated_chain. rewrite Hconfig. cbn [mbind result_bind]. rewrite Hdir.
  cbn [mbind result_bind].
  assert ((if requires_explicit_allow net
    then _ ← verified_mainnet_genesis_manifest (ne_payload_json env) (ne_files env) (ne_deterministic env); Ok ()
    else Ok ()) = Ok ()) as ->.
  { unfold gate_open in Hgate. destruct (requires_explicit_allow net); [|done].
    specialize (Hgate eq_refl). by destruct (verified_mainnet_genesis_manifest _ _ _). }
  cbn [mbind result_bind]. unfold load_blocks. rewrite (load_node s c false Hs). cbn [mbind result_bind].
  by rewrite (build_Ok clock c (no_chain _ _ Hs) (no_genesis _ _ Hs) Hclock).
Qed.

(** The header, bodies and coinbase with which a template's block is submitted. *)
Record submittable (c : Chain) (b : Block) (now : Z) : Prop := {
  sb_wf : block_wf b;
  sb_solved : solved b;
  sb_wire : Forall (λ tx, Z.of_nat (length (encode tx)) <= MAX_TRANSACTION_WIRE_BYTES) (transactions b);
  sb_coinbase cb st : head (transactions b) = Some cb →
    spends (anticipated c) (ch_state c) (drop 1 (transactions b)) st →
    tx_hash_hex cb ∉ applied_transaction_hashes st;
  sb_hash : block_hash b ∉ block_hash <$> ch_blocks c;
  sb_now : bh_timestamp (header b) <= now + 7200 ∧ now + 7200 < umax 64;
}.

(** Mining makes progress: from valid files the node hands out a template for
    any miner address of its network, as long as the next subsidy is not zero;
    and any solution of the template's header, submitted before the tip moves,
    is stored: the chain grows by that block and the files stay valid. *)
Theorem mined_template_stored clock clock' t_select now pool_io s c a max_transactions :
  node_ok s c → gate_open → clock_ok clock (ch_blocks c) → clock_ok clock' (ch_blocks c) →
  few_transactions c → Z.of_nat (length (ch_blocks c)) < 2 ^ 63 →
  address_wf a → addr_network a = net → 1 <= max_transactions <= MAX_BLOCK_TEMPLATE_TRANSACTIONS →
  0 < cfg_max_mempool_transactions config →
  block_reward (Z.of_nat (length (ch_blocks c))) ≠ 0 →
  ∃ t, node_block_template env clock t_select now (Address_to_string a) max_transactions s = Ok t ∧
    ∀ nonce mix now', submittable c (set_nonce_mix nonce mix (bt_block t)) now' →
    ∃ sum s' c', submit_mined_block env clock' now' pool_io (set_nonce_mix nonce mix (bt_block t)) s = (Ok sum, s') ∧
      node_ok s' c' ∧ ch_blocks c' = ch_blocks c ++ [set_nonce_mix nonce mix (bt_block t)].
Proof.
  intros Hs Hgate Hclock Hclock' Hfew Hlen Ha Han Hmax Hmem Hrew.
  pose proof (no_initialized _ _ Hs) as Hne.
  destruct (last (ch_blocks c)) as [p|] eqn:Ep; [|by apply last_None in Ep].
  pose proof (chain_reachable_ok _ _ (no_chain _ _ Hs)) as Hco.
  assert (bh_height (header p) = Z.of_nat (length (ch_blocks c)) - 1) as Hh.
  { rewrite last_lookup in Ep. rewrite (co_height _ _ Hco _ _ Ep). apply lookup_lt_Some in Ep. lia. }
  assert (wrapping_add 64 (bh_height (header p)) 1 = Z.of_nat (length (ch_blocks c))) as Hnext.
  { rewrite Hh. unfold wrapping_add, uwrap. rewrite Z.mod_small; lia. }
  destruct (template_rules t_select now (dd_database dir) config net c p (ns_pool s) a max_transactions
    (no_chain _ _ Hs) Hfew ltac:(lia) Ep eq_refl (no_pool _ _ Hs) Ha Han Hmax Hmem)
    as (t & cb & selected & st1 & Ht & Htxs & _ & _ & Hsp & Hacc); [by rewrite Hnext|].
  exists t. split.
  - unfold node_block_template, MAX_BLOCK_TEMPLATE_TRANSACTIONS in *.
    rewrite (proj2 (Z.eqb_neq max_transactions 0)) by lia. rewrite Z.gtb_ltb, (proj2 (Z.ltb_ge _ _)) by lia.
    cbn [orb]. rewrite (Address_parse_to_string a Ha). cbn [map_err mbind result_bind].
    rewrite (load_validated_Ok clock s c Hs Hgate Hclock). cbn [mbind result_bind]. done.
  - intros nonce mix now' [Hwf Hsol Hwire Hcb Hhash [Hnow Hnmax]]. set (b := set_nonce_mix nonce mix (bt_block t)) in *.
    assert (append_block now' b c = (Ok (), mkChain net (ch_blocks c ++ [b]) (mint_and_record b cb st1))) as Happ.
    { specialize (Hacc nonce mix now'). fold b in Hacc. apply Hacc; try done.
      apply Hcb; [by change (transactions b) with (transactions (bt_block t)); rewrite Htxs|].
      change (transactions b) with (transactions (bt_block t)). rewrite Htxs. unfold anticipated. by rewrite Ep. }
    destruct (submit_mined_block env clock' now' pool_io b s) as [r s'] eqn:E.
    apply (submit_mined_rules _ _ _ _ s c) in E; [|done|done]. destruct r as [sum|e].
    + destruct E as (c' & Happ' & Hok & _). rewrite Happ in Happ'. injection Happ' as <-.
      by exists sum, s', (mkChain net (ch_blocks c ++ [b]) (mint_and_record b cb st1)).
    + destruct E as [_ Hno]. specialize (Hno Hclock' Hlen Hhash). by rewrite Happ in Hno.
Qed.

(** ** Loading mines; development blocks run ahead of the clock *)

(** On a network that requires explicit approval, loading the chain always
    depends on mining the configured genesis again: whatever chain is stored and
    whatever approval is on file, nothing is loaded when that mining fails. *)
Theorem load_validated_chain_mines clock db e :
  requires_explicit_allow net = true → ne_deterministic env = Err e →
  is_err (load_validated_chain env clock db) = true.
Proof.
  intros Hreq Hdet. destruct (load_validated_chain env clock db) as [r|e'] eqn:E; [|done]. exfalso.
  unfold load_validated_chain in E. rewrite Hconfig in E. cbn [mbind result_bind] in E. rewrite Hdir, Hreq in E.
  cbn [mbind result_bind] in E. apply bind_Ok in E as (u & (m & Hm & _)%bind_Ok & _).
  unfold verified_mainnet_genesis_manifest in Hm. rewrite Hconfig in Hm. cbn [mbind result_bind] in Hm.
  rewrite Hreq in Hm. cbn [negb] in Hm. apply bind_Ok in Hm as (man & Hman & _).
  apply genesis_review_manifest_Ok in Hman as (c' & gc & g & _ & Hg & _). congruence.
Qed.

End node.

(** ** Runs of the node *)

Section node_runs.
Context `{PrimitivesOk}.
Context (env : NodeEnv) (config : NetworkConfig).
Context (Hconfig : load_network_config (file_network (ne_files env)) = Ok config).
Context (Hdir : ensure_network_storage_path (cfg_network config) (ne_dir env) = Ok ()).

(** The same node where mining the configured genesis again gives [d]: the native
    search is a race of threads, so it may give another block each time. *)
Definition remined (d : NodeResult Block) : NodeEnv := {|
  ne_files := ne_files env; ne_deterministic := d; ne_payload_json := ne_payload_json env; ne_dir := ne_dir env |}.

Lemma remined_same : remined (ne_deterministic env) = env.
Proof. unfold remined. clear. by destruct env. Qed.

Lemma genesis_accepted_remined d blocks :
  genesis_accepted (remined d) config blocks ↔ genesis_accepted env config blocks.
Proof.
  unfold genesis_accepted, verify_existing_genesis. cbn [remined ne_files ne_deterministic].
  split; intros Hg Hreq; specialize (Hg Hreq); rewrite <- Hg;
    (destruct (head blocks); cbn [ok_or mbind result_bind]; [|done]);
    destruct (load_matching_genesis_inputs (ne_files env)) as [[c gc]|] eqn:E; cbn [mbind result_bind]; try done;
    apply load_matching_network in E as (E & _); rewrite Hconfig in E; injection E as <-; by rewrite Hreq.
Qed.

Lemma node_ok_remined d s c : node_ok (remined d) config s c ↔ node_ok env config s c.
Proof. split; intros [? ? Hg ? ? ?]; (split; [done|done| |done..]); by apply (genesis_accepted_remined d). Qed.

(** One operation of a running node that submits a transaction, reports on the pool,
    stores a mined block, adopts a candidate chain or mines the pool, with whatever
    clock readings, outcome of the pool's files, earlier observation of the store,
    search and result of mining the genesis again. *)
Inductive node_step (s : NodeState) : NodeState → Prop :=
| step_submit_transaction clock t1 t2 t3 t4 limit tx r s' :
    tx_wf tx → Z.of_nat (length (ns_pool s)) < umax 64 →
    node_submit_transaction clock t1 t2 t3 t4 (ne_dir env) limit tx s = (r, s') → node_step s s'
| step_mempool_status clock now r s' : mempool_status clock now (ne_dir env) s = (r, s') → node_step s s'
| step_submit_block d clock now pool_io b r s' :
    block_wf b → submit_mined_block (remined d) clock now pool_io b s = (r, s') → node_step s s'
| step_adopt d clock clock' now now' observed pool_io candidate r s' :
    Forall block_wf candidate →
    adopt_candidate_chain (remined d) clock clock' now now' observed pool_io candidate s = (r, s') → node_step s s'
| step_mine_pending d search fuel clock clock' clock'' t_select now now' pool_io miner r s' :
    (∀ template b, node_block_template (remined d) clock t_select now miner (cfg_max_mempool_transactions config) s = Ok template →
       mine_block search fuel (bt_block template) = Some b → block_wf b) →
    mine_pending_block search fuel (remined d) clock clock' clock'' t_select now now' pool_io miner s = Some (r, s') → node_step s s'.

Lemma submit_step d clock now pool_io b s c r s' :
  node_ok env config s c → block_wf b → submit_mined_block (remined d) clock now pool_io b s = (r, s') →
  ∃ c', node_ok env config s' c' ∧ improves c c'.
Proof.
  intros Hs Hb Ha.
  apply (submit_mined_rules (remined d) config Hconfig Hdir _ _ _ _ s c) in Ha; [|by apply node_ok_remined|done].
  destruct r as [sum|e].
  - destruct Ha as (c' & Happ & Hok%node_ok_remined & _). exists c'. split; [done|].
    eapply append_improves; [apply Hs | apply (bwf_header _ Hb) | done].
  - destruct Ha as [-> _]. exists c. split; [done | apply improves_refl].
Qed.

(** Mining the pool changes the files as submitting the block it mined does. *)
Lemma mine_pending_submits d search fuel clock clock' clock'' t_select now now' pool_io miner s r s' :
  mine_pending_block search fuel (remined d) clock clock' clock'' t_select now now' pool_io miner s = Some (r, s') →
  s' = s ∨ ∃ template b r1, node_block_template (remined d) clock t_select now miner (cfg_max_mempool_transactions config) s = Ok template ∧
    mine_block search fuel (bt_block template) = Some b ∧ submit_mined_block (remined d) clock' now' pool_io b s = (r1, s').
Proof.
  unfold mine_pending_block. change (ne_files (remined d)) with (ne_files env). rewrite fl_op_bind. unfold sr_lift at 1. rewrite Hconfig. rewrite fl_op_bind. cbn [sr_get].
  rewrite fl_op_bind. unfold sr_lift at 1. destruct (node_block_template _ _ _ _ _ _ _) as [template|e] eqn:Et; [|intros [= _ <-]; by left].
  case_bool_decide; [intros [= _ <-]; by left|].
  unfold mbind at 1, fueled_bind at 1, fl_loop at 1. destruct (mine_block search fuel (bt_block template)) as [b|] eqn:Em; [|done].
  cbn [fmap option_fmap option_map]. rewrite fl_op_bind.
  destruct (submit_mined_block _ _ _ _ _ s) as [[sum|e] s1] eqn:Es; [|intros [= _ <-]; right; by exists template, b, (Err e)].
  rewrite fl_op_bind. cbn [sr_get]. rewrite fl_op_bind. unfold sr_lift at 1.
  destruct (load_validated_chain _ _ _) as [[[? ?] ?]|]; intros [= _ <-]; right; by exists template, b, (Ok sum).
Qed.

Lemma node_step_ok s c s' : node_ok env config s c → node_step s s' → ∃ c', node_ok env config s' c' ∧ improves c c'.
Proof.
  intros Hs Hstep. destruct Hstep as [clock t1 t2 t3 t4 limit tx r s' Htx Hlen Ha|clock now r s' Ha
    |d clock now pool_io b r s' Hb Ha|d clock clock' now now' observed pool_io candidate r s' Hwf Ha
    |d search fuel clock clock' clock'' t_select now now' pool_io miner r s' Hwf Ha].
  - exists c. split; [by eapply submit_transaction_step | apply improves_refl].
  - exists c. split; [by eapply mempool_status_step | apply improves_refl].
  - by eapply submit_step.
  - eapply (adopt_step (remined d) config Hconfig Hdir) in Ha as (c' & Hok%node_ok_remined & Hi);
      [by exists c' | by apply node_ok_remined | done].
  - apply mine_pending_submits in Ha as [->|(template & b & r1 & Ht & Hm & Ha)];
      [exists c; split; [done | apply improves_refl] | eapply submit_step; [done | by eapply Hwf | done]].
Qed.

Lemma node_steps_ok s c s' : node_ok env config s c → rtc node_step s s' → ∃ c', node_ok env config s' c' ∧ improves c c'.
Proof.
  intros Hs Hrun. revert c Hs. induction Hrun as [s|s s1 s' Hstep _ IH]; intros c Hs.
  - exists c. split; [done | apply improves_refl].
  - destruct (node_step_ok s c s1 Hs Hstep) as (c1 & H1 & Hi1). destruct (IH c1 H1) as (c' & H' & Hi').
    exists c'. split; [done | by eapply improves_trans].
Qed.

(** C2. Any sequence of the node's transaction submissions, pool reports, submissions of
    mined blocks, adoptions of candidate chains and minings of the pool, failures of
    the pool's files and of mining the genesis again included, keeps files that hold
    a chain valid from an accepted genesis and a well-formed pool, with the genesis
    they started from; and that chain is only ever replaced by one with strictly
    more work. *)
Theorem node_runs_safely s c s' :
  node_ok env config s c → rtc node_step s s' → ∃ c', node_ok env config s' c' ∧ improves c c'.
Proof. apply node_steps_ok. Qed.

End node_runs.

(** ** Development mining ([mine_dev_blocks] of [vireon-node/src/devnet.rs]): what its
    loop stores, and why a long run leaves a chain that the node cannot load until
    the clock has caught up. *)

Section dev.
Context `{PrimitivesOk}.
Context (search : Z → bytes → bytes → Z → Z → search_result).

(** An accepted block is at most two hours ahead of its clock reading. *)
Lemma append_block_not_future now b c c' :
  append_block now b c = (Ok (), c') → bh_timestamp (header b) <= now + 7200.
Proof.
  intros (Hv & _)%append_block_Ok. rewrite validate_next_block_checks in Hv.
  destruct_and! Hv. repeat match goal with H : validate_block_timestamp _ _ _ = _ |- _ =>
    apply validate_block_timestamp_Ok in H as [_ ?] end. lia.
Qed.

Lemma from_blocks_clock n clock bs c i b :
  from_blocks n (timed clock bs) = Ok c → bs !! i = Some b → bh_timestamp (header b) <= clock i + 7200.
Proof.
  unfold from_blocks. fold (append_all (timed clock bs)). intros Hf.
  destruct (append_all (timed clock bs) (Chain_new n)) as [[[]|e] c0] eqn:E; [|done]. clear Hf.
  revert c0 i E. induction bs as [|x bs IH] using rev_ind; intros c0 i E Hi; [done|].
  rewrite timed_snoc in E. unfold append_all in E, IH. rewrite sr_each_app in E.
  destruct (sr_each _ (timed clock bs) _) as [[[]|e] c1] eqn:E1; [|done].
  apply lookup_app_Some in Hi as [Hi|[Hge Hi]]; [by eapply IH|].
  apply list_lookup_singleton_Some in Hi as [Hz <-].
  assert (i = length bs) as -> by lia. cbn [sr_each] in E.
  apply sr_bind_Ok in E as ([] & c2 & E2 & _). by apply append_block_not_future in E2.
Qed.

(** A child's height, parent and time. *)
Lemma mined_child_fields fuel blocks p recipient timestamp txs fallback b :
  last blocks = Some p → Forall tx_wf txs →
  child_block_with_consensus_difficulty search fuel blocks recipient timestamp txs fallback = Some (Ok b) →
  bh_timestamp (header b) = Z.max timestamp (saturating_add 64 (bh_timestamp (header p)) 1).
Proof.
  intros Hp Htx. unfold child_block_with_consensus_difficulty. rewrite Hp.
  destruct (Block_network p) as [n|e]; [|done]. cbv zeta.
  unfold devnet_child_block_with_difficulty, mined. destruct (child_template _ _ _ _ _) as [t|e] eqn:E; [|done].
  destruct (mine_block search fuel t) as [b'|] eqn:Em; [|done]. intros [= ->].
  apply mine_block_changes in Em as (nonce & mix & ->).
  apply child_template_Ok in E as (n' & cb & Hch); [|done]. exact (cho_timestamp _ _ _ _ _ _ _ _ Hch).
Qed.

(** The loop appends [count] blocks, each one block time after the one before. *)
Lemma mine_dev_loop_times fuel path config miner count blocks p db blocks' db' :
  last blocks = Some p → 1 <= cfg_block_time_seconds config → 0 <= bh_timestamp (header p) →
  bh_timestamp (header p) + Z.of_nat count * cfg_block_time_seconds config < umax 64 →
  mine_dev_loop search fuel path config miner count blocks p db = Some (Ok blocks', db') →
  length blocks' = (length blocks + count)%nat ∧
  ∃ tip, last blocks' = Some tip ∧
    bh_timestamp (header tip) = bh_timestamp (header p) + Z.of_nat count * cfg_block_time_seconds config.
Proof.
  intros Hp Hbt. revert blocks p db Hp. induction count as [|count IH]; intros blocks p db Hp Hpos Hmax.
  - intros [= <- <-]. split; [lia|]. exists p. split; [done|]. lia.
  - cbn [mine_dev_loop]. rewrite fl_loop_bind.
    destruct (child_block_with_consensus_difficulty _ _ _ _ _ _ _) as [[b|e]|] eqn:E; [|done|done].
    cbn [fmap option_fmap option_map map_err]. rewrite fl_op_bind.
    destruct (append_with_tip_link path b db) as [[[]|e] db1]; [|done].
    apply (mined_child_fields _ _ p) in E; [|done|constructor].
    assert (bh_timestamp (header b) = bh_timestamp (header p) + cfg_block_time_seconds config) as Ht.
    { rewrite E. unfold wrapping_add, uwrap, saturating_add, umax in *.
      rewrite Z.mod_small by lia. lia. }
    intros Hl. apply IH in Hl as (Hlen & tip & Htip & Htime); [| by rewrite last_snoc | lia | lia].
    rewrite length_app in Hlen. simpl in Hlen. split; [lia|]. exists tip. split; [done|]. lia.
Qed.

Lemma late_tip_not_loaded env clock config blocks tip :
  last blocks = Some tip → clock (pred (length blocks)) + 7200 < bh_timestamp (header tip) →
  is_err (build_validated_chain env clock config blocks) = true.
Proof.
  intros Hl Hlate. unfold build_validated_chain.
  destruct (if requires_explicit_allow _ then _ else _) as [[]|e]; [|done]. cbn [mbind result_bind].
  destruct (from_blocks _ _) as [c|e] eqn:E; [|done]. exfalso.
  rewrite last_lookup in Hl. pose proof (from_blocks_clock _ _ _ _ _ _ E Hl). lia.
Qed.

(** A development run that stores so many blocks that the last one lies more
    than two hours after the clock ends in an error with all of them stored: the
    database changed, the new tip is [count] block times after the old one, and
    the chain in it is not accepted with any clock reading up to then. *)
Theorem mine_dev_blocks_strands fuel env clock clock' miner count db config blocks c p now blocks' db' :
  load_validated_chain env clock db = Ok (config, blocks, c) → last blocks = Some p →
  1 <= cfg_block_time_seconds config → 0 <= bh_timestamp (header p) →
  now + 7200 < bh_timestamp (header p) + Z.of_nat count * cfg_block_time_seconds config < umax 64 →
  (∀ i, clock' i <= now) →
  mine_dev_loop search fuel (dd_database (ne_dir env)) config miner count blocks p db = Some (Ok blocks', db') →
  ∃ e, mine_dev_blocks search fuel env clock clock' miner count db = Some (Err e, db') ∧
    length blocks' = (length blocks + count)%nat ∧
    ∀ clock'', (∀ i, clock'' i <= now) →
      is_err (build_validated_chain env clock'' config blocks') = true.
Proof.
  intros Hload Hp Hbt Hpos Hrange Hclock Hl.
  destruct (mine_dev_loop_times _ _ _ _ _ _ _ _ _ _ Hp Hbt Hpos (proj2 Hrange) Hl) as (Hlen & tip & Htip & Htime).
  assert (∀ clock'', (∀ i, clock'' i <= now) →
    is_err (build_validated_chain env clock'' config blocks') = true) as Hlate.
  { intros clock'' Hc. apply (late_tip_not_loaded _ _ _ _ tip Htip). specialize (Hc (pred (length blocks'))). lia. }
  unfold mine_dev_blocks. rewrite fl_op_bind. cbn [sr_get]. rewrite fl_op_bind. unfold sr_lift at 1. rewrite Hload.
  rewrite fl_op_bind. unfold sr_lift at 1. rewrite Hp. cbn [ok_or].
  assert (summarize_validated_blocks env clock' config blocks' =
    c ← build_validated_chain env clock' config blocks'; Ok (summarize_chain config blocks' c)) as Hsum
    by (unfold summarize_validated_blocks; by rewrite bool_decide_eq_false_2 by (by intros ->)).
  pose proof (Hlate clock' Hclock) as Herr.
  destruct (build_validated_chain env clock' config blocks') as [c'|e] eqn:Eb; [done|].
  exists e. split; [|done].
  unfold mbind, fueled_bind. rewrite Hl. unfold fl_op, sr_lift. by rewrite Hsum.
Qed.

End dev.
