(* ===== verification/NodeRun.v ===== *)
(** [vireon-node/src/devnet.rs]: the life of a node process: the status it reports in a
    file, its loop from start to shutdown, the request for a shutdown, the status and
    the dump of the chain a command shows.  What other processes and the operating
    system do to the files and their metadata between two readings, the peer-to-peer
    thread, the processes alive and the outcomes of writes are inputs. *)

From S2P Require Import Prelude RustStd Interfaces Crypto Errors Network Amount Signing Address Transaction Block Pow Consensus State Ledger Chain Genesis NodeConfig GenesisApproval Storage Mempool Node NodeOps NodeMine.

(** [struct NodeRuntimeStatus] *)
Record NodeRuntimeStatus := {
  rs_mode : string;
  rs_running : bool;
  rs_pid : option Z;
  rs_network_id : string;
  rs_network_name : string;
  rs_status_label : string;
  rs_data_dir : string;
  rs_mempool_dir : string;
  rs_runtime_dir : string;
  rs_chain_initialized : bool;
  rs_height : option Z;
  rs_block_count : Z;
  rs_tip_hash : option string;
  rs_emitted_supply_atomic : option Z;
  rs_pending_count : Z;
  rs_genesis_hash : option string;
  rs_genesis_approval_required : bool;
  rs_genesis_approval_path : option string;
  rs_genesis_approved : bool;
  rs_genesis_review_hash : option string;
  rs_genesis_approved_by : option string;
}.

(** [struct PersistedRuntimeProcessState] *)
Record PersistedRuntimeProcessState := mkPersisted { ps_running : bool; ps_pid : option Z }.

(** The status file: absent, written by a node, or whatever else it reads as. *)
Inductive RuntimeFile :=
| RuntimeAbsent
| RuntimeWritten (s : NodeRuntimeStatus)
| RuntimeOther (read : NodeResult PersistedRuntimeProcessState).
Definition read_process (f : RuntimeFile) : option (NodeResult PersistedRuntimeProcessState) :=
  match f with
  | RuntimeAbsent => None
  | RuntimeWritten s => Some (Ok (mkPersisted (rs_running s) (rs_pid s)))
  | RuntimeOther r => Some r
  end.

(** What [fs::metadata] tells of a file that is there: its length and its modification
    time in nanoseconds, where the system has one. *)
Record FileMetadata := mkMetadata { fm_len : Z; fm_modified : option Z }.
(** The metadata of the chain's database, of its write-ahead log and of the pool file. *)
Record StoredMetadata := mkStored { sm_database : option FileMetadata; sm_wal : option FileMetadata; sm_mempool : option FileMetadata }.

(** [struct FileFingerprint], [struct ChainStorageFingerprint] *)
Record FileFingerprint := mkFingerprint { ff_len : Z; ff_modified_millis : Z }.
Record ChainStorageFingerprint := mkChainFingerprint { cf_database : FileFingerprint; cf_wal : FileFingerprint }.
#[export] Instance FileFingerprint_eq_dec : EqDecision FileFingerprint.
Proof. solve_decision. Defined.
#[export] Instance ChainStorageFingerprint_eq_dec : EqDecision ChainStorageFingerprint.
Proof. solve_decision. Defined.

Definition file_fingerprint (o : option FileMetadata) : FileFingerprint :=
  match o with
  | Some m => mkFingerprint (fm_len m) (match fm_modified m with
      | Some t => if (0 <=? t) && (t / 1000000 <=? umax 64) then t / 1000000 else 0
      | None => 0
      end)
  | None => mkFingerprint 0 0
  end.
Definition chain_storage_fingerprint (m : StoredMetadata) : ChainStorageFingerprint :=
  mkChainFingerprint (file_fingerprint (sm_database m)) (file_fingerprint (sm_wal m)).
Abbreviation PoolFingerprint := (Z * option Z)%type.
Definition file_runtime_fingerprint (o : option FileMetadata) : PoolFingerprint :=
  match o with Some m => (fm_len m, fm_modified m) | None => (0, None) end.
Definition runtime_data_fingerprint (m : StoredMetadata) : ChainStorageFingerprint * PoolFingerprint :=
  (chain_storage_fingerprint m, file_runtime_fingerprint (sm_mempool m)).

(** The files of a node: the chain root, the pool, their metadata, the status file, the
    request. *)
Record NodeFiles := mkFiles {
  nf_root : ChainRoot;
  nf_pool : list PendingTransactionRecord;
  nf_metadata : StoredMetadata;
  nf_runtime : RuntimeFile;
  nf_shutdown : bool;
}.
Definition set_root (r : ChainRoot) (f : NodeFiles) : NodeFiles := mkFiles r (nf_pool f) (nf_metadata f) (nf_runtime f) (nf_shutdown f).
Definition set_runtime (s : RuntimeFile) (f : NodeFiles) : NodeFiles := mkFiles (nf_root f) (nf_pool f) (nf_metadata f) s (nf_shutdown f).
Definition set_shutdown (b : bool) (f : NodeFiles) : NodeFiles := mkFiles (nf_root f) (nf_pool f) (nf_metadata f) (nf_runtime f) b.

Abbreviation run_op A := (state_result NodeFiles NodeError A).
Definition on_root {A} (m : state_result ChainRoot NodeError A) : run_op A :=
  λ f, let '(r, root) := m (nf_root f) in (r, set_root root f).

(** A write of the status file: done, refused, or torn with what is left to read. *)
Inductive StatusWrite := StatusStored | StatusRefused (e : NodeError) | StatusTorn (e rest : NodeError).
Definition write_runtime_status_file (o : StatusWrite) (s : NodeRuntimeStatus) : run_op () := λ f,
  match o with
  | StatusStored => (Ok (), set_runtime (RuntimeWritten s) f)
  | StatusRefused e => (Err e, f)
  | StatusTorn e rest => (Err e, set_runtime (RuntimeOther (Err rest)) f)
  end.

(** What a node process is started with: the genesis that is mined for a chain root it
    creates, the mempool directory, the runtime directory and the outcome of making it,
    the shown approval path, its process id. *)
Record RunEnv := {
  rn_node : NodeEnv;
  rn_mined : NodeResult Block;
  rn_mempool_dir : DataDir;
  rn_runtime_dir : string;
  rn_made : NodeResult ();
  rn_approval_path : string;
  rn_pid : Z;
}.

Section run.
Context `{Primitives} (env : RunEnv).

Definition approval_status : option GenesisApprovalStatus :=
  match pinned_genesis_approval_status (ne_payload_json (rn_node env)) (ne_files (rn_node env)) (ne_deterministic (rn_node env)) (rn_approval_path env) with
  | Ok s => Some s
  | Err _ => None
  end.
Definition runtime_status_of (config : NetworkConfig) (running : bool) (summary : option ChainSummary) (pending : Z)
    (marker : option GenesisMarker) : NodeRuntimeStatus := {|
  rs_mode := (cfg_status_label config ++ " / Prototype")%string; rs_running := running;
  rs_pid := if running then Some (rn_pid env) else None;
  rs_network_id := cfg_network_id config; rs_network_name := cfg_human_name config; rs_status_label := cfg_status_label config;
  rs_data_dir := dd_display (ne_dir (rn_node env)); rs_mempool_dir := dd_display (rn_mempool_dir env);
  rs_runtime_dir := rn_runtime_dir env; rs_chain_initialized := is_some summary; rs_height := cs_height <$> summary;
  rs_block_count := default 0 (cs_block_count <$> summary); rs_tip_hash := cs_tip_hash <$> summary;
  rs_emitted_supply_atomic := cs_emitted_supply_atomic <$> summary; rs_pending_count := pending;
  rs_genesis_hash := gm_genesis_hash <$> marker;
  rs_genesis_approval_required := requires_explicit_allow (cfg_network config);
  rs_genesis_approval_path := approval_status ≫= gs_approval_path;
  rs_genesis_approved := match approval_status with Some s => gs_approved s | None => false end;
  rs_genesis_review_hash := gs_review_hash <$> approval_status;
  rs_genesis_approved_by := approval_status ≫= gs_approved_by |}.

(** [clock], [clock'] are the clocks of the first and the second validation. *)
Definition build_runtime_status (clock clock' : nat → Z) (running initialize_if_missing force_genesis : bool) : run_op NodeRuntimeStatus :=
  let node := rn_node env in
  config ← sr_lift (load_network_config (file_network (ne_files node)));
  _ ← sr_lift (ensure_network_storage_path (cfg_network config) (ne_dir node));
  _ ← sr_lift (ensure_network_storage_path (cfg_network config) (rn_mempool_dir env));
  _ ← sr_lift (rn_made env);
  f ← sr_get;
  summary ← match load_blocks (dd_database (ne_dir node)) (cr_db (nf_root f)) with
    | Ok existing => sr_lift (Some <$> summarize_validated_blocks node clock config existing)
    | Err (ChainNotInitialized _) =>
        if initialize_if_missing && requires_explicit_allow (cfg_network config) then
          _ ← on_root (initialize_deterministic_genesis node (rn_mined env) force_genesis);
          f ← sr_get;
          blocks ← sr_lift (load_blocks (dd_database (ne_dir node)) (cr_db (nf_root f)));
          sr_lift (Some <$> summarize_validated_blocks node clock' config blocks)
        else mret None
    | Err e => sr_lift (Err e)
    end;
  f ← sr_get;
  mret (runtime_status_of config running summary (Z.of_nat (length (nf_pool f))) (cr_marker (nf_root f))).

(** ** From start to shutdown *)

(** A turn of the loop: the peer-to-peer thread's result, when it has finished; what
    other processes do while the loop sleeps and after it read the metadata; the
    clocks; the outcome of the write; the thread's result when it is told to stop. *)
Record Poll := {
  po_finished : option (NodeResult ());
  po_sleep : NodeFiles → NodeFiles;
  po_read : NodeFiles → NodeFiles;
  po_clock : nat → Z;
  po_written : StatusWrite;
  po_joined : NodeResult ();
  po_removed : NodeResult ();
}.

(** A run that goes on holds the status, the fingerprints it was made for and the files. *)
Inductive NodeRun :=
| Running (runtime : NodeRuntimeStatus) (chain_print : ChainStorageFingerprint) (pool_print : PoolFingerprint) (files : NodeFiles)
| Ended (r : NodeResult ()) (files : NodeFiles).

Definition stopped_status (s : NodeRuntimeStatus) : NodeRuntimeStatus := {|
  rs_mode := rs_mode s; rs_running := false; rs_pid := None; rs_network_id := rs_network_id s;
  rs_network_name := rs_network_name s; rs_status_label := rs_status_label s; rs_data_dir := rs_data_dir s;
  rs_mempool_dir := rs_mempool_dir s; rs_runtime_dir := rs_runtime_dir s; rs_chain_initialized := rs_chain_initialized s;
  rs_height := rs_height s; rs_block_count := rs_block_count s; rs_tip_hash := rs_tip_hash s;
  rs_emitted_supply_atomic := rs_emitted_supply_atomic s; rs_pending_count := rs_pending_count s;
  rs_genesis_hash := rs_genesis_hash s; rs_genesis_approval_required := rs_genesis_approval_required s;
  rs_genesis_approval_path := rs_genesis_approval_path s; rs_genesis_approved := rs_genesis_approved s;
  rs_genesis_review_hash := rs_genesis_review_hash s; rs_genesis_approved_by := rs_genesis_approved_by s |}.
Definition with_pending (n : Z) (s : NodeRuntimeStatus) : NodeRuntimeStatus := {|
  rs_mode := rs_mode s; rs_running := rs_running s; rs_pid := rs_pid s; rs_network_id := rs_network_id s;
  rs_network_name := rs_network_name s; rs_status_label := rs_status_label s; rs_data_dir := rs_data_dir s;
  rs_mempool_dir := rs_mempool_dir s; rs_runtime_dir := rs_runtime_dir s; rs_chain_initialized := rs_chain_initialized s;
  rs_height := rs_height s; rs_block_count := rs_block_count s; rs_tip_hash := rs_tip_hash s;
  rs_emitted_supply_atomic := rs_emitted_supply_atomic s; rs_pending_count := n;
  rs_genesis_hash := rs_genesis_hash s; rs_genesis_approval_required := rs_genesis_approval_required s;
  rs_genesis_approval_path := rs_genesis_approval_path s; rs_genesis_approved := rs_genesis_approved s;
  rs_genesis_review_hash := rs_genesis_review_hash s; rs_genesis_approved_by := rs_genesis_approved_by s |}.

(** After the loop: the thread is joined, the request removed, the status closed. *)
Definition remove_request (removed : NodeResult ()) : run_op () :=
  f ← sr_get;
  if nf_shutdown f then _ ← sr_lift removed; sr_modify (set_shutdown false) else mret ().
Definition finish_node (p : Poll) (runtime : NodeRuntimeStatus) : run_op () :=
  _ ← sr_lift (po_joined p);
  _ ← remove_request (po_removed p);
  write_runtime_status_file (po_written p) (stopped_status runtime).

(** The status and the fingerprints after a turn that changed something. *)
Definition refresh_status (p : Poll) (runtime : NodeRuntimeStatus) (chain_print next_chain : ChainStorageFingerprint)
    (pool_print next_pool : PoolFingerprint)
    : run_op (NodeRuntimeStatus * ChainStorageFingerprint * PoolFingerprint) :=
  if negb (bool_decide (next_chain = chain_print)) then
    runtime ← build_runtime_status (po_clock p) (po_clock p) true false false;
    _ ← write_runtime_status_file (po_written p) runtime;
    mret (runtime, next_chain, next_pool)
  else if negb (bool_decide (next_pool = pool_print)) then
    f ← sr_get;
    let runtime := with_pending (Z.of_nat (length (nf_pool f))) runtime in
    _ ← write_runtime_status_file (po_written p) runtime;
    mret (runtime, chain_print, next_pool)
  else mret (runtime, chain_print, pool_print).
Definition node_turn (p : Poll) (run : NodeRun) : NodeRun :=
  match run with
  | Ended _ _ => run
  | Running runtime chain_print pool_print files =>
      if nf_shutdown files then let '(r, files) := finish_node p runtime files in Ended r files else
      match po_finished p with
      | Some r => Ended r files
      | None =>
          let slept := po_sleep p files in
          let '(next_chain, next_pool) := runtime_data_fingerprint (nf_metadata slept) in
          match refresh_status p runtime chain_print next_chain pool_print next_pool (po_read p slept) with
          | (Ok (runtime, chain_print, pool_print), files) => Running runtime chain_print pool_print files
          | (Err e, files) => Ended (Err e) files
          end
      end
  end.
Definition node_loop (polls : list Poll) (run : NodeRun) : NodeRun := foldl (λ run p, node_turn p run) run polls.

(** [start_node] up to the loop: [between] is what happens between the first status and
    the first reading of the metadata, which tell of a root just created then; [spawned]
    is the outcome of spawning the thread. *)
Definition start_node (clock clock' : nat → Z) (removed : NodeResult ()) (written : StatusWrite) (between : NodeFiles → NodeFiles)
    (spawned : NodeResult ()) (force_genesis : bool) (files : NodeFiles) : NodeRun :=
  match (_ ← sr_lift (load_network_config (file_network (ne_files (rn_node env))));
         _ ← sr_lift (rn_made env);
         _ ← remove_request removed;
         runtime ← build_runtime_status clock clock' true true force_genesis;
         _ ← write_runtime_status_file written runtime;
         _ ← sr_modify between;
         f ← sr_get;
         _ ← sr_lift spawned;
         mret (runtime, runtime_data_fingerprint (nf_metadata f))) files with
  | (Ok (runtime, (chain_print, pool_print)), files) => Running runtime chain_print pool_print files
  | (Err e, files) => Ended (Err e) files
  end.

End run.

(** ** Commands beside a running node *)

(** [process_is_running] is [alive]. *)
Definition process_runs (alive : Z → bool) (p : PersistedRuntimeProcessState) : bool :=
  match ps_pid p with Some pid => ps_running p && alive pid | None => false end.
Definition with_process (running : bool) (pid : option Z) (s : NodeRuntimeStatus) : NodeRuntimeStatus := {|
  rs_mode := rs_mode s; rs_running := running; rs_pid := pid; rs_network_id := rs_network_id s;
  rs_network_name := rs_network_name s; rs_status_label := rs_status_label s; rs_data_dir := rs_data_dir s;
  rs_mempool_dir := rs_mempool_dir s; rs_runtime_dir := rs_runtime_dir s; rs_chain_initialized := rs_chain_initialized s;
  rs_height := rs_height s; rs_block_count := rs_block_count s; rs_tip_hash := rs_tip_hash s;
  rs_emitted_supply_atomic := rs_emitted_supply_atomic s; rs_pending_count := rs_pending_count s;
  rs_genesis_hash := rs_genesis_hash s; rs_genesis_approval_required := rs_genesis_approval_required s;
  rs_genesis_approval_path := rs_genesis_approval_path s; rs_genesis_approved := rs_genesis_approved s;
  rs_genesis_review_hash := rs_genesis_review_hash s; rs_genesis_approved_by := rs_genesis_approved_by s |}.

Section commands.
Context `{Primitives} (env : RunEnv) (alive : Z → bool).

Definition node_status (clock : nat → Z) : run_op NodeRuntimeStatus :=
  status ← build_runtime_status env clock clock false false false;
  f ← sr_get;
  match read_process (nf_runtime f) with
  | None => mret status
  | Some read =>
      persisted ← sr_lift read;
      let running := process_runs alive persisted in
      mret (with_process running (if running then ps_pid persisted else None) status)
  end.

Definition node_runtime_is_running (n : Network) (f : NodeFiles) : NodeResult bool :=
  _ ← ensure_network_storage_path n (ne_dir (rn_node env));
  match read_process (nf_runtime f) with
  | None => Ok false
  | Some read => persisted ← read; Ok (process_runs alive persisted)
  end.

Definition shutdown (n : Network) (requested : NodeResult ()) : run_op string :=
  _ ← sr_lift (ensure_network_storage_path n (ne_dir (rn_node env)));
  f ← sr_get;
  match nf_runtime f with
  | RuntimeAbsent => sr_lift (Err (ShutdownNotRunning (network_id n)))
  | _ =>
      _ ← sr_lift (rn_made env);
      _ ← sr_lift requested;
      _ ← sr_modify (set_shutdown true);
      mret ("shutdown requested for network_id=" ++ network_id n ++ " runtime_dir=" ++ rn_runtime_dir env)%string
  end.

(** [print_chain]: a line for the chain, one for each block and its reward. *)
Definition LINE_END : string := str_of_bytes [byte_of_Z 10].
Definition block_lines (c : Chain) (b : Block) : string :=
  let h := header b in
  ("network_id=" ++ bh_network_id h ++ " height=" ++ uint_to_string (bh_height h) ++ " timestamp=" ++ uint_to_string (bh_timestamp h)
   ++ " nonce=" ++ uint_to_string (bh_nonce h) ++ " difficulty=" ++ uint_to_string (bh_difficulty h)
   ++ " txs=" ++ uint_to_string (Z.of_nat (length (transactions b))) ++ " hash=" ++ hash_to_hex (block_hash b)
   ++ " prev=" ++ hash_to_hex (bh_previous_hash h) ++ LINE_END
   ++ match block_fees (ch_state c) !! bh_height h with
      | Some fees => "  reward_atomic=" ++ uint_to_string (latest (coinbase_rewards (ch_state c)) (bh_height h))
          ++ " fees_atomic=" ++ uint_to_string fees ++ LINE_END
      | None => ""
      end)%string.
Definition print_chain (clock : nat → Z) (db : ChainDb) : NodeResult string :=
  '(config, blocks, c) ← load_validated_chain (rn_node env) clock db;
  let s := summarize_chain config blocks c in
  Ok (foldl (λ output b, output ++ block_lines c b)
    (cs_network_name s ++ " [" ++ cs_network_id s ++ "] (" ++ cs_status s ++ ") height=" ++ uint_to_string (cs_height s)
     ++ " blocks=" ++ uint_to_string (cs_block_count s) ++ " tip=" ++ cs_tip_hash s ++ LINE_END) blocks)%string.

Definition format_status (report : StatusReport) : string :=
  match report with
  | Uninitialized network_id network_name status data_dir =>
      "network_id=" ++ network_id ++ " network=" ++ network_name ++ " status=" ++ status ++ " initialized=false data_dir=" ++ data_dir
  | Ready s =>
      "network_id=" ++ cs_network_id s ++ " network=" ++ cs_network_name s ++ " status=" ++ cs_status s ++ " initialized=true height="
      ++ uint_to_string (cs_height s) ++ " blocks=" ++ uint_to_string (cs_block_count s) ++ " tip_hash=" ++ cs_tip_hash s
      ++ " emitted_supply_atomic=" ++ uint_to_string (cs_emitted_supply_atomic s)
  end%string.

End commands.

(** ** Theory *)

Section theory.
Context `{Primitives} (env : RunEnv).

(** The status of files as they are: what a reader computes that initialises nothing. *)
Definition summary_of_db (clock : nat → Z) (config : NetworkConfig) (db : ChainDb) : NodeResult (option ChainSummary) :=
  match load_blocks (dd_database (ne_dir (rn_node env))) db with
  | Ok blocks => Some <$> summarize_validated_blocks (rn_node env) clock config blocks
  | Err (ChainNotInitialized _) => Ok None
  | Err e => Err e
  end.
Definition status_of_files (clock : nat → Z) (running : bool) (f : NodeFiles) : NodeResult NodeRuntimeStatus :=
  let node := rn_node env in
  config ← load_network_config (file_network (ne_files node));
  _ ← ensure_network_storage_path (cfg_network config) (ne_dir node);
  _ ← ensure_network_storage_path (cfg_network config) (rn_mempool_dir env);
  _ ← rn_made env;
  summary ← summary_of_db clock config (cr_db (nf_root f));
  Ok (runtime_status_of env config running summary (Z.of_nat (length (nf_pool f))) (cr_marker (nf_root f))).

Lemma build_reads clock clock' running force f :
  build_runtime_status env clock clock' running false force f = (status_of_files clock running f, f).
Proof.
  unfold build_runtime_status, status_of_files, summary_of_db. rewrite sr_lift_bind. destruct (load_network_config _) as [config|]; [|done].
  cbn [mbind result_bind]. rewrite sr_lift_bind. destruct (ensure_network_storage_path _ (ne_dir _)); [|done].
  rewrite sr_lift_bind. destruct (ensure_network_storage_path _ (rn_mempool_dir _)); [|done].
  rewrite sr_lift_bind. destruct (rn_made env); [|done]. rewrite sr_get_bind. cbn [andb mbind result_bind].
  destruct (load_blocks _ _) as [blocks|e].
  - cbv [mbind state_result_bind sr_lift]. by destruct (summarize_validated_blocks _ _ _ _).
  - by destruct e.
Qed.

(** A status made while starting is that of the files it leaves. *)
Lemma build_initializes clock clock' running initialize force f rt f' :
  build_runtime_status env clock clock' running initialize force f = (Ok rt, f') →
  (∃ k, status_of_files k running f' = Ok rt) ∧ nf_runtime f' = nf_runtime f ∧ nf_shutdown f' = nf_shutdown f ∧ nf_pool f' = nf_pool f.
Proof.
  unfold build_runtime_status, status_of_files, summary_of_db. rewrite sr_lift_bind. destruct (load_network_config _) as [config|]; [|done].
  cbn [mbind result_bind]. rewrite sr_lift_bind. destruct (ensure_network_storage_path _ (ne_dir _)); [|done].
  rewrite sr_lift_bind. destruct (ensure_network_storage_path _ (rn_mempool_dir _)); [|done].
  rewrite sr_lift_bind. destruct (rn_made env); [|done]. rewrite sr_get_bind. cbn [mbind result_bind].
  intros (summary & f1 & Hs & Hr)%sr_bind_Ok. rewrite sr_get_bind in Hr. injection Hr as <- <-.
  destruct (load_blocks _ (cr_db (nf_root f))) as [blocks|e] eqn:E.
  - injection Hs as Hsum <-. split; [|done]. exists clock. rewrite E, Hsum. done.
  - destruct e; try done. destruct (initialize && _); [|by injection Hs as <- <-; split; [exists clock; rewrite E|]].
    apply sr_bind_Ok in Hs as ([] & f2 & Hroot & Hs). rewrite sr_get_bind, sr_lift_bind in Hs.
    unfold on_root in Hroot. destruct (initialize_deterministic_genesis _ _ _) as [r root]. injection Hroot as -> <-.
    destruct (load_blocks _ (cr_db (nf_root (set_root _ _)))) as [blocks|] eqn:E2; [|done]. injection Hs as Hsum <-.
    split; [|done]. exists clock'. cbn [nf_root set_root cr_db] in *. rewrite E2, Hsum. done.
Qed.

(** What other processes leave alone: the status file. *)
Definition keeps_status (g : NodeFiles → NodeFiles) : Prop := ∀ f, nf_runtime (g f) = nf_runtime f.
Definition undisturbed (p : Poll) : Prop := keeps_status (po_sleep p) ∧ keeps_status (po_read p).

(** The status depends on the chain root and the number of pending transactions. *)
Lemma with_pending_twice n m rt : with_pending n (with_pending m rt) = with_pending n rt.
Proof. done. Qed.
Lemma status_of_files_pending clock running f rt :
  status_of_files clock running f = Ok rt → with_pending (Z.of_nat (length (nf_pool f))) rt = rt.
Proof.
  unfold status_of_files. intros (config & _ & Hs)%bind_Ok. do 3 apply bind_unit_Ok in Hs as [_ Hs].
  by apply bind_Ok in Hs as (summary & _ & [= <-]).
Qed.
Lemma status_of_files_running clock f rt :
  status_of_files clock true f = Ok rt → rs_running rt = true ∧ rs_pid rt = Some (rn_pid env).
Proof.
  unfold status_of_files. intros (config & _ & Hs)%bind_Ok. do 3 apply bind_unit_Ok in Hs as [_ Hs].
  by apply bind_Ok in Hs as (summary & _ & [= <-]).
Qed.
Lemma status_of_same clock running f g rt :
  status_of_files clock running f = Ok rt → nf_root f = nf_root g →
  status_of_files clock running g = Ok (with_pending (Z.of_nat (length (nf_pool g))) rt).
Proof.
  unfold status_of_files. intros (config & -> & Hs)%bind_Ok <-. cbn [mbind result_bind].
  apply bind_unit_Ok in Hs as [-> Hs]. apply bind_unit_Ok in Hs as [-> Hs]. apply bind_unit_Ok in Hs as [-> Hs].
  cbn [mbind result_bind]. by apply bind_Ok in Hs as (summary & -> & [= <-]).
Qed.

Lemma write_status_Ok o rt f f' : write_runtime_status_file o rt f = (Ok (), f') → f' = set_runtime (RuntimeWritten rt) f.
Proof. destruct o; cbn; [by intros [= <-] | done..]. Qed.
Lemma status_of_set_runtime clock running x f : status_of_files clock running (set_runtime x f) = status_of_files clock running f.
Proof. done. Qed.

(** A reading of the loop: the files when it read their metadata, and when it read
    what they hold.  While starting it reads what they hold first. *)
Record Reading := mkReading { rd_metadata : NodeFiles; rd_content : NodeFiles }.
Definition chain_print_of (r : Reading) : ChainStorageFingerprint := chain_storage_fingerprint (nf_metadata (rd_metadata r)).
Definition pool_print_of (r : Reading) : PoolFingerprint := file_runtime_fingerprint (sm_mempool (nf_metadata (rd_metadata r))).

(** The readings of a run's turns. *)
Fixpoint readings (polls : list Poll) (run : NodeRun) : list Reading :=
  match polls, run with
  | p :: polls, Running _ _ _ f =>
      mkReading (po_sleep p f) (po_read p (po_sleep p f)) :: readings polls (node_turn env p run)
  | _, _ => []
  end.

(** The status file holds [rt], which is the status of the chain as one reading found it
    with the count of the pool as one found it; and the last reading met the metadata
    of these two. *)
Definition noted (seen : list Reading) (run : NodeRun) : Prop :=
  match run with
  | Ended _ _ => True
  | Running rt cp pp f =>
      nf_runtime f = RuntimeWritten rt ∧
      (∃ r, last seen = Some r ∧ cp = chain_print_of r ∧ pp = pool_print_of r) ∧
      ∃ r1 r2 k rt1, r1 ∈ seen ∧ r2 ∈ seen ∧ chain_print_of r1 = cp ∧ pool_print_of r2 = pp ∧
        status_of_files k true (rd_content r1) = Ok rt1 ∧
        rt = with_pending (Z.of_nat (length (nf_pool (rd_content r2)))) rt1
  end.

Lemma turn_noted p seen rt cp pp f :
  undisturbed p → noted seen (Running rt cp pp f) →
  noted (seen ++ [mkReading (po_sleep p f) (po_read p (po_sleep p f))]) (node_turn env p (Running rt cp pp f)).
Proof.
  intros [Hsleep Hread] (Hrt & _ & r1 & r2 & k & rt1 & Hr1 & Hr2 & Hc & Hp & Hs & Hrt1). cbn [node_turn].
  destruct (nf_shutdown f); [by destruct (finish_node p rt f)|]. destruct (po_finished p) as [r|]; [done|]. cbv zeta.
  unfold runtime_data_fingerprint. set (r := mkReading (po_sleep p f) _).
  change (chain_storage_fingerprint (nf_metadata (po_sleep p f))) with (chain_print_of r).
  change (file_runtime_fingerprint (sm_mempool (nf_metadata (po_sleep p f)))) with (pool_print_of r).
  change (po_read p (po_sleep p f)) with (rd_content r).
  assert (nf_runtime (rd_content r) = RuntimeWritten rt) as Hkept by (subst r; cbn; by rewrite Hread, Hsleep).
  assert (r ∈ seen ++ [r]) as Hin by (apply elem_of_app; right; left).
  assert (∀ x, x ∈ seen → x ∈ seen ++ [r]) as Hsub by (intros; apply elem_of_app; by left).
  destruct (refresh_status env p rt _ _ _ _ _) as [[[[rt' cp'] pp']|e] f'] eqn:E; [|done]. cbn [noted]. rewrite last_snoc.
  unfold refresh_status in E. case_bool_decide as Hchain; cbn [negb] in E.
  - case_bool_decide as Hpool; cbn [negb] in E.
    + injection E as <- <- <- <-. split_and!; [done | by exists r |]. by exists r1, r2, k, rt1; auto 10.
    + rewrite sr_get_bind in E. apply sr_bind_Ok in E as ([] & f1 & ->%write_status_Ok & E). injection E as <- <- <- <-.
      split_and!; [done | by exists r |]. exists r1, r, k, rt1. split_and!; auto; [done..|]. by rewrite Hrt1, with_pending_twice.
  - apply sr_bind_Ok in E as (rt2 & f1 & Hb & E). rewrite build_reads in Hb. injection Hb as Hb <-.
    apply sr_bind_Ok in E as ([] & f2 & ->%write_status_Ok & E). injection E as <- <- <- <-.
    split_and!; [done | by exists r |]. exists r, r, (po_clock p), rt2. split_and!; try done.
    symmetry. by eapply status_of_files_pending.
Qed.

Lemma loop_noted polls seen run :
  Forall undisturbed polls → noted seen run → noted (seen ++ readings polls run) (node_loop env polls run).
Proof.
  intros Hp. revert seen run. induction Hp as [|p polls Hu Hp IH]; intros seen run Hn; [by rewrite app_nil_r|].
  destruct run as [rt cp pp f|r f]; cbn [readings node_loop foldl].
  - rewrite cons_middle, app_assoc. by apply IH, turn_noted.
  - change (node_turn env p (Ended r f)) with (Ended r f). specialize (IH seen (Ended r f) I).
    by destruct polls.
Qed.

Lemma start_noted clock clock' removed written between spawned force f :
  keeps_status between →
  ∃ g, noted [mkReading (between g) g] (start_node env clock clock' removed written between spawned force f).
Proof.
  intros Hb. unfold start_node.
  match goal with |- context [match ?m with _ => _ end] => destruct m as [[[rt [cp pp]]|e] f'] eqn:E end; [|by exists f].
  rewrite sr_lift_bind in E. destruct (load_network_config _); [|done]. rewrite sr_lift_bind in E. destruct (rn_made env); [|done].
  apply sr_bind_Ok in E as ([] & f1 & _ & E). apply sr_bind_Ok in E as (rt1 & f2 & Hbuild & E).
  apply sr_bind_Ok in E as ([] & f3 & ->%write_status_Ok & E). rewrite sr_modify_bind, sr_get_bind, sr_lift_bind in E.
  destruct spawned; [|done]. injection E as <- <- <- <-. exists (set_runtime (RuntimeWritten rt1) f2).
  apply build_initializes in Hbuild as ([k Hk] & _). split_and!.
  - by rewrite Hb.
  - by eexists.
  - set (r := mkReading _ _). exists r, r, k, rt1. split_and!; try done; try left.
    symmetry. by apply (status_of_files_pending k true f2).
Qed.

(** C22. What the status file of a running node says, when no other process writes it: the
    process runs under its number, and the rest is the status of the chain as the loop
    found it at one of its readings with the number of pending transactions as it found
    it at one, where its last reading met the same length and modification time of the
    database and its log as the former, and of the pool file as the latter.  So the
    status is that of the files as they are, if what the loop read with their present
    metadata is what they hold now. *)
Theorem status_file_current clock clock' removed written between spawned force files polls rt cp pp f :
  keeps_status between → Forall undisturbed polls →
  node_loop env polls (start_node env clock clock' removed written between spawned force files) = Running rt cp pp f →
  ∃ g, let seen := mkReading (between g) g :: readings polls (start_node env clock clock' removed written between spawned force files) in
  nf_runtime f = RuntimeWritten rt ∧ rs_running rt = true ∧ rs_pid rt = Some (rn_pid env) ∧
  (∃ now r1 r2 k rt1, last seen = Some now ∧ r1 ∈ seen ∧ r2 ∈ seen ∧
     chain_print_of r1 = chain_print_of now ∧ pool_print_of r2 = pool_print_of now ∧
     status_of_files k true (rd_content r1) = Ok rt1 ∧ rt = with_pending (Z.of_nat (length (nf_pool (rd_content r2)))) rt1) ∧
  ((∀ now r, last seen = Some now → r ∈ seen →
      (chain_print_of r = chain_print_of now → nf_root (rd_content r) = nf_root f) ∧
      (pool_print_of r = pool_print_of now → nf_pool (rd_content r) = nf_pool f)) →
   ∃ k, status_of_files k true f = Ok rt).
Proof.
  intros Hb Hp Hrun. destruct (start_noted clock clock' removed written between spawned force files Hb) as [g Hg].
  exists g. cbv zeta. apply (loop_noted polls) in Hg; [|done]. rewrite Hrun in Hg.
  cbn [app] in Hg. set (seen := mkReading _ _ :: _) in *.
  destruct Hg as (Hf & (now & Hnow & -> & ->) & r1 & r2 & k & rt1 & Hr1 & Hr2 & Hc & Hpp & Hs & Hrt).
  destruct (status_of_files_running _ _ _ Hs) as [Hrun1 Hpid]. split_and!; [done | by rewrite Hrt | by rewrite Hrt | |].
  - by exists now, r1, r2, k, rt1.
  - intros Hsame. exists k. destruct (Hsame now r1 Hnow Hr1) as [Hroot _]. destruct (Hsame now r2 Hnow Hr2) as [_ Hpool].
    rewrite (status_of_same k true _ f rt1 Hs (Hroot Hc)), Hrt. by rewrite (Hpool Hpp).
Qed.

(** A request ends the loop at its next turn: the status file says stopped, the request
    is gone, chain and pool are as they were. *)
Definition stops_cleanly (p : Poll) : Prop := po_joined p = Ok () ∧ po_removed p = Ok () ∧ po_written p = StatusStored.
Theorem shutdown_ends p rt cp pp f :
  nf_shutdown f = true → stops_cleanly p →
  node_turn env p (Running rt cp pp f) =
    Ended (Ok ()) (mkFiles (nf_root f) (nf_pool f) (nf_metadata f) (RuntimeWritten (stopped_status rt)) false).
Proof.
  intros Hs (Hj & Hr & Hw). cbn [node_turn]. rewrite Hs. unfold finish_node, remove_request.
  rewrite Hj, Hr, Hw, sr_lift_bind. cbv [mbind state_result_bind sr_get sr_lift sr_modify]. by rewrite Hs.
Qed.

(** From the [shutdown] command to the stopped node: a request made while the loop
    sleeps ends it within two turns, whatever the chain does. *)
Theorem shutdown_command_stops n requested p p' rt cp pp f msg g :
  po_finished p = None → nf_shutdown f = false → shutdown env n requested (po_sleep p f) = (Ok msg, g) →
  let p1 := {| po_finished := None; po_sleep := λ _, g; po_read := po_read p; po_clock := po_clock p; po_written := po_written p;
               po_joined := po_joined p; po_removed := po_removed p |} in
  (∀ f, nf_shutdown (po_read p f) = nf_shutdown f) → stops_cleanly p' →
  ∃ r f', node_loop env [p1; p'] (Running rt cp pp f) = Ended r f' ∧
    (r = Ok () → nf_shutdown f' = false ∧ ∃ s, nf_runtime f' = RuntimeWritten s ∧ rs_running s = false ∧ rs_pid s = None).
Proof.
  intros Hf Hs Hreq. cbv zeta. intros Hread Hstop. assert (nf_shutdown g = true) as Hg.
  { unfold shutdown in Hreq. rewrite sr_lift_bind in Hreq. destruct (ensure_network_storage_path _ _); [|done].
    rewrite sr_get_bind in Hreq. destruct (nf_runtime _); [done|..];
    rewrite sr_lift_bind in Hreq; (destruct (rn_made env); [|done]); rewrite sr_lift_bind in Hreq; (destruct requested; [|done]);
    by injection Hreq as _ <-. }
  unfold node_loop. cbn [foldl]. set (p1 := Build_Poll _ _ _ _ _ _ _).
  assert (node_turn env p1 (Running rt cp pp f) =
    match refresh_status env p1 rt cp (chain_storage_fingerprint (nf_metadata g)) pp (file_runtime_fingerprint (sm_mempool (nf_metadata g))) (po_read p g) with
    | (Ok (rt', cp', pp'), f1) => Running rt' cp' pp' f1
    | (Err e, f1) => Ended (Err e) f1
    end) as -> by (cbn [node_turn]; by rewrite Hs).
  destruct (refresh_status env _ _ _ _ _ _ _) as [[[[rt' cp'] pp']|e] f1] eqn:E; [|by eexists _, _].
  assert (nf_shutdown f1 = true) as Hf1.
  { transitivity (nf_shutdown (po_read p g)); [|by rewrite Hread]. revert E. unfold refresh_status. case_bool_decide; cbn [negb]; [case_bool_decide; cbn [negb]|].
    - by intros [= _ _ _ <-].
    - rewrite sr_get_bind. intros ([] & f2 & ->%write_status_Ok & [= _ _ _ <-])%sr_bind_Ok. done.
    - intros (rt1 & f2 & Hb & E)%sr_bind_Ok. rewrite build_reads in Hb. injection Hb as _ <-.
      apply sr_bind_Ok in E as ([] & f3 & ->%write_status_Ok & [= _ _ _ <-]). done. }
  rewrite shutdown_ends by done. eexists _, _. split; [done|]. intros _. split; [done|]. by eexists.
Qed.

(** A turn that fails, like a thread that does, ends the process with a status file that
    still says running. *)
Theorem failed_turn_leaves_running p rt cp pp f e f' :
  nf_runtime f = RuntimeWritten rt → rs_running rt = true → undisturbed p → po_written p = StatusStored →
  node_turn env p (Running rt cp pp f) = Ended (Err e) f' →
  ∃ s, nf_runtime f' = RuntimeWritten s ∧ rs_running s = true.
Proof.
  intros Hrt Hrun [Hsleep Hread] Hw. cbn [node_turn]. destruct (nf_shutdown f).
  { unfold finish_node. rewrite sr_lift_bind. destruct (po_joined p); [|by intros [= _ <-]; eauto].
    match goal with |- (let '(_, _) := ?m in _) = _ → _ => destruct m as [r f1] eqn:E end. intros [= -> <-]. apply sr_bind_Err in E as [E|([] & f2 & _ & E)].
    - unfold remove_request in E. rewrite sr_get_bind in E. destruct (nf_shutdown f); [|done]. rewrite sr_lift_bind in E.
      destruct (po_removed p); [done|]. injection E as _ <-. eauto.
    - by rewrite Hw in E. }
  destruct (po_finished p) as [r|]; [by intros [= _ <-]; eauto|]. unfold runtime_data_fingerprint.
  destruct (refresh_status env _ _ _ _ _ _ _) as [[[[rt' cp'] pp']|e'] f1] eqn:E; [done|]. intros [= -> <-].
  exists rt. split; [|done]. rewrite <- Hrt, <- (Hsleep f), <- (Hread (po_sleep p f)). revert E. unfold refresh_status. case_bool_decide; cbn [negb]; [case_bool_decide; cbn [negb]|].
  - done.
  - rewrite sr_get_bind. intros [E|([] & f2 & _ & E)]%sr_bind_Err; [by rewrite Hw in E|done].
  - intros [E|(rt1 & f2 & Hb & E)]%sr_bind_Err; [rewrite build_reads in E; by injection E as _ <-|].
    rewrite build_reads in Hb. injection Hb as _ <-. apply sr_bind_Err in E as [E|([] & f3 & _ & E)]; [by rewrite Hw in E|done].
Qed.

(** What [node_status] shows: the files as they are, read only, and a process that runs
    exactly when the file names one that is alive. *)
Theorem node_status_spec alive clock f :
  node_status env alive clock f =
    (s ← status_of_files clock false f;
     match read_process (nf_runtime f) with
     | None => Ok s
     | Some read => p ← read; Ok (with_process (process_runs alive p) (if process_runs alive p then ps_pid p else None) s)
     end, f).
Proof.
  unfold node_status. cbv [mbind state_result_bind]. rewrite build_reads. destruct (status_of_files _ _ _) as [s|]; [|done].
  cbn [sr_get mbind result_bind]. destruct (read_process _) as [[p|]|]; done.
Qed.

(** After a clean stop no process counts as running, so that the chain can be reset. *)
Theorem stopped_node_not_running alive n root pool metadata rt request :
  ensure_network_storage_path n (ne_dir (rn_node env)) = Ok () →
  node_runtime_is_running env alive n (mkFiles root pool metadata (RuntimeWritten (stopped_status rt)) request) = Ok false.
Proof. intros Hp. unfold node_runtime_is_running. by rewrite Hp. Qed.

End theory.
