(* ===== verification/Reputation.v ===== *)
(** [vireon-node/src/peer_reputation.rs]: peer scores and temporary bans.  The
    store is its map of records; [SystemTime::now] is an argument. *)

From S2P Require Import Prelude RustStd.

Definition DEFAULT_SCORE : Z := 50.
Definition BAN_THRESHOLD : Z := 0.
Definition SCORE_MIN : Z := -100.
Definition SCORE_MAX : Z := 100.
Definition DEFAULT_BAN_SECONDS : Z := 600.
Definition SEVERE_BAN_SECONDS : Z := 3600.

(** [struct PeerScoreRecord] *)
Record PeerScoreRecord := mkPeerScore {
  ps_peer_id : string;
  ps_score : Z;
  ps_banned_until : Z;
  ps_last_reason : option string;
  ps_good_events : Z;
  ps_bad_events : Z;
}.

(** [struct ReputationStore] *)
Abbreviation ReputationStore := (gmap string PeerScoreRecord).

(** Saturating [i32] arithmetic. *)
Definition i32_sat (z : Z) : Z := clamp (- 2 ^ 31) (2 ^ 31 - 1) z.

(** [entry(..).or_insert_with(..)] *)
Definition fresh_record (peer_id : string) : PeerScoreRecord :=
  mkPeerScore peer_id DEFAULT_SCORE 0 None 0 0.
Definition entry (peer_id : string) (s : ReputationStore) : PeerScoreRecord :=
  default (fresh_record peer_id) (s !! peer_id).

Definition ban_now (now : Z) (peer_id reason : string) (ban_seconds : Z) (s : ReputationStore) : ReputationStore :=
  let rec := entry peer_id s in
  <[peer_id := mkPeerScore (ps_peer_id rec) BAN_THRESHOLD (saturating_add 64 now (Z.max ban_seconds 1))
     (Some reason) (ps_good_events rec) (saturating_add 64 (ps_bad_events rec) 1)]> s.

Definition is_banned (now : Z) (peer_id : string) (s : ReputationStore) : bool :=
  match s !! peer_id with Some r => ps_banned_until r >? now | None => false end.

Definition score_of (peer_id : string) (s : ReputationStore) : Z :=
  match s !! peer_id with Some r => ps_score r | None => DEFAULT_SCORE end.

Definition reward (peer_id : string) (delta : Z) (reason : string) (s : ReputationStore) : ReputationStore :=
  let rec := entry peer_id s in
  <[peer_id := mkPeerScore (ps_peer_id rec) (clamp SCORE_MIN SCORE_MAX (i32_sat (ps_score rec + delta)))
     (ps_banned_until rec) (Some reason) (saturating_add 64 (ps_good_events rec) 1) (ps_bad_events rec)]> s.

Definition penalize (now : Z) (peer_id : string) (delta : Z) (reason : string) (ban_seconds : Z)
    (s : ReputationStore) : ReputationStore :=
  let rec := entry peer_id s in
  let score := clamp SCORE_MIN SCORE_MAX (i32_sat (ps_score rec - delta)) in
  let until := saturating_add 64 now (Z.max ban_seconds 1) in
  <[peer_id := mkPeerScore (ps_peer_id rec) score
     (if score <=? BAN_THRESHOLD then Z.max (ps_banned_until rec) until else ps_banned_until rec)
     (Some reason) (ps_good_events rec) (saturating_add 64 (ps_bad_events rec) 1)]> s.

Definition active_ban_count (now : Z) (s : ReputationStore) : Z :=
  Z.of_nat (length (filter (λ r, now < ps_banned_until r) (snd <$> btree_entries s))).

Definition prune_record (now : Z) (r : PeerScoreRecord) : PeerScoreRecord :=
  if (ps_banned_until r >? 0) && (ps_banned_until r <=? now)
  then mkPeerScore (ps_peer_id r) (ps_score r) 0 (ps_last_reason r) (ps_good_events r) (ps_bad_events r) else r.
Definition prune_expired_bans (now : Z) (s : ReputationStore) : ReputationStore := prune_record now <$> s.

(** The patterns of [apply_protocol_fault]. *)
Definition severe_fault (message : string) : bool :=
  let lower := str_to_ascii_lowercase message in
  str_contains lower "pow" || str_contains lower "mix_hash" || str_contains lower "mix hash"
  || str_contains lower "does not match verified header" || str_contains lower "header chain"
  || str_contains lower "work commitment" || str_contains lower "invalid checkpoint"
  || str_contains lower "invalid difficulty" || str_contains lower "firopow".
Definition fault_delta (message : string) : Z :=
  let lower := str_to_ascii_lowercase message in
  if str_contains lower "handshake" || str_contains lower "genesis" then 40
  else if str_contains lower "empty" || str_contains lower "unsolicited" then 20 else 25.

Definition apply_protocol_fault (now : Z) (peer_id message : string) (s : ReputationStore) : ReputationStore :=
  if severe_fault message then ban_now now peer_id message SEVERE_BAN_SECONDS s
  else penalize now peer_id (fault_delta message) message DEFAULT_BAN_SECONDS s.

(** * The records a store can hold *)

Record record_ok (id : string) (r : PeerScoreRecord) : Prop := {
  rk_id : ps_peer_id r = id;
  rk_score : SCORE_MIN <= ps_score r <= SCORE_MAX;
  rk_until : is_u64 (ps_banned_until r);
  rk_good : is_u64 (ps_good_events r);
  rk_bad : is_u64 (ps_bad_events r);
}.

Definition reputation_ok (s : ReputationStore) : Prop := map_Forall record_ok s.

Lemma fresh_record_ok id : record_ok id (fresh_record id).
Proof. split; vm_compute; done || (split; congruence). Qed.

Lemma entry_ok id s : reputation_ok s → record_ok id (entry id s).
Proof.
  intros Hs. unfold entry. destruct (s !! id) as [r|] eqn:E; [by apply Hs | apply fresh_record_ok].
Qed.

Lemma saturating_add_u64 a b : 0 <= a → 0 <= b → is_u64 (saturating_add 64 a b).
Proof. intros. unfold in_width, saturating_add, umax. lia. Qed.

Lemma clamp_score z : SCORE_MIN <= clamp SCORE_MIN SCORE_MAX z <= SCORE_MAX.
Proof. apply clamp_range. vm_compute. congruence. Qed.

Lemma insert_ok id r s : reputation_ok s → record_ok id r → reputation_ok (<[id := r]> s).
Proof. intros Hs Hr. by apply map_Forall_insert_2. Qed.

(** An operation on the store. *)
Inductive reputation_op :=
| op_ban (now : Z) (id reason : string) (secs : Z)
| op_reward (id : string) (delta : Z) (reason : string)
| op_penalize (now : Z) (id : string) (delta : Z) (reason : string) (secs : Z)
| op_prune (now : Z)
| op_fault (now : Z) (id message : string).

Definition run_op (o : reputation_op) : ReputationStore → ReputationStore :=
  match o with
  | op_ban now id reason secs => ban_now now id reason secs
  | op_reward id delta reason => reward id delta reason
  | op_penalize now id delta reason secs => penalize now id delta reason secs
  | op_prune now => prune_expired_bans now
  | op_fault now id message => apply_protocol_fault now id message
  end.

(** Clock readings and durations are unsigned. *)
Definition op_ok (o : reputation_op) : Prop :=
  match o with
  | op_ban now _ _ _ | op_penalize now _ _ _ _ | op_prune now | op_fault now _ _ => is_u64 now
  | op_reward _ _ _ => True
  end.

Lemma ban_now_ok now id reason secs s : is_u64 now → reputation_ok s → reputation_ok (ban_now now id reason secs s).
Proof.
  intros Hn Hs. destruct (entry_ok id s Hs) as [H1 H2 H3 H4 H5]. unfold in_width in *.
  apply insert_ok; [done|]. split; try done; try (apply saturating_add_u64; lia).
Qed.

Lemma penalize_ok now id delta reason secs s :
  is_u64 now → reputation_ok s → reputation_ok (penalize now id delta reason secs s).
Proof.
  intros Hn Hs. destruct (entry_ok id s Hs) as [H1 H2 H3 H4 H5]. unfold in_width in Hn.
  apply insert_ok; [done|]. split; try done; cbn [ps_score ps_banned_until ps_bad_events].
  - apply clamp_score.
  - assert (is_u64 (saturating_add 64 now (Z.max secs 1))) by (apply saturating_add_u64; lia).
    unfold in_width in *. destruct (_ <=? _); lia.
  - unfold in_width in H5. apply saturating_add_u64; lia.
Qed.

Lemma reward_ok id delta reason s : reputation_ok s → reputation_ok (reward id delta reason s).
Proof.
  intros Hs. destruct (entry_ok id s Hs) as [H1 H2 H3 H4 H5]. apply insert_ok; [done|].
  split; try done; cbn [ps_score ps_good_events]; [apply clamp_score|].
  unfold in_width in H4. apply saturating_add_u64; lia.
Qed.

Lemma prune_ok now s : reputation_ok s → reputation_ok (prune_expired_bans now s).
Proof.
  intros Hs id r Hr. apply lookup_fmap_Some in Hr as (r0 & <- & Hr0).
  destruct (Hs id r0 Hr0) as [H1 H2 H3 H4 H5]. unfold prune_record. destruct (_ && _); by split.
Qed.

Lemma fault_ok now id message s : is_u64 now → reputation_ok s → reputation_ok (apply_protocol_fault now id message s).
Proof. intros. unfold apply_protocol_fault. destruct (severe_fault _); [by apply ban_now_ok | by apply penalize_ok]. Qed.

(** A sequence of operations. *)
Definition run_ops (ops : list reputation_op) (s : ReputationStore) : ReputationStore :=
  foldl (λ s o, run_op o s) s ops.

Lemma run_ops_ok ops s : Forall op_ok ops → reputation_ok s → reputation_ok (run_ops ops s).
Proof.
  intros Hops. revert s. induction Hops as [|o ops Ho Hops IH]; intros s Hs; [done|]. apply IH.
  destruct o; cbn [run_op op_ok] in *; auto using ban_now_ok, reward_ok, penalize_ok, prune_ok, fault_ok.
Qed.

(** * What each operation does to a peer, as seen from outside *)

(** The peer an operation is about; none for the pruning. *)
Definition op_peer (o : reputation_op) : option string :=
  match o with
  | op_ban _ id _ _ | op_reward id _ _ | op_penalize _ id _ _ _ | op_fault _ id _ => Some id
  | op_prune _ => None
  end.

(** A score moved by [delta] and kept within the bounds. *)
Definition moved_score (score delta : Z) : Z := Z.max (-100) (Z.min 100 (score + delta)).
(** The end of a ban of [secs] seconds, at least one, given at [now]. *)
Definition ban_end (now secs : Z) : Z := Z.min (umax 64) (now + Z.max 1 secs).

(** [id]'s score becomes [score], and it is refused exactly until [until]. *)
Definition banned_at_score (id : string) (score until : Z) (s' : ReputationStore) : Prop :=
  score_of id s' = score ∧ ∀ t, 0 <= t → is_banned t id s' = true ↔ t < until.
(** [id]'s score falls by [delta]; at zero or below it is refused until [until],
    and a ban it already had is neither lifted nor shortened. *)
Definition penalized (id : string) (delta until : Z) (s s' : ReputationStore) : Prop :=
  score_of id s' = moved_score (score_of id s) (- delta) ∧
  ∀ t, 0 <= t → is_banned t id s' = true ↔
    is_banned t id s = true ∨ (moved_score (score_of id s) (- delta) <= 0 ∧ t < until).

(** A fault whose message shows forged work is severe. *)
Definition forged_work_words : list string :=
  ["pow"; "mix_hash"; "mix hash"; "does not match verified header"; "header chain"; "work commitment";
   "invalid checkpoint"; "invalid difficulty"; "firopow"]%string.
Definition says (message : string) (words : list string) : Prop :=
  ∃ w, w ∈ words ∧ str_contains (str_to_ascii_lowercase message) w = true.
(** What a fault that is not severe costs. *)
Definition fault_costs (message : string) (delta : Z) : Prop :=
  (says message ["handshake"; "genesis"]%string ∧ delta = 40) ∨
  (¬ says message ["handshake"; "genesis"]%string ∧ says message ["empty"; "unsolicited"]%string ∧ delta = 20) ∨
  (¬ says message ["handshake"; "genesis"; "empty"; "unsolicited"]%string ∧ delta = 25).

Definition op_effect (o : reputation_op) (s s' : ReputationStore) : Prop :=
  match o with
  | op_ban now id _ secs => banned_at_score id 0 (ban_end now secs) s'
  | op_reward id delta _ =>
      score_of id s' = moved_score (score_of id s) delta ∧ ∀ t, 0 <= t → is_banned t id s' = is_banned t id s
  | op_penalize now id delta _ secs => penalized id delta (ban_end now secs) s s'
  | op_prune now => ∀ id,
      score_of id s' = score_of id s ∧ (∀ t, 0 <= now <= t → is_banned t id s' = is_banned t id s) ∧
      (is_banned now id s = false → ∀ t, 0 <= t → is_banned t id s' = false)
  | op_fault now id message =>
      (says message forged_work_words → banned_at_score id 0 (ban_end now 3600) s') ∧
      (¬ says message forged_work_words → ∃ delta, fault_costs message delta ∧
        penalized id delta (ban_end now 600) s s')
  end.

Lemma says_cons message w ws :
  says message (w :: ws) ↔ str_contains (str_to_ascii_lowercase message) w = true ∨ says message ws.
Proof.
  unfold says. split; [intros (x & [->|Hx]%elem_of_cons & H); eauto|].
  intros [H|(x & Hx & H)]; [exists w | exists x]; rewrite elem_of_cons; auto.
Qed.
Lemma says_nil message : says message [] ↔ False.
Proof. unfold says. split; [intros (x & Hx & _); by apply elem_of_nil in Hx | done]. Qed.

Lemma severe_fault_iff message : severe_fault message = true ↔ says message forged_work_words.
Proof.
  unfold severe_fault, forged_work_words. cbv zeta. rewrite !says_cons, says_nil, !orb_true_iff. tauto.
Qed.

Lemma fault_delta_costs message : fault_costs message (fault_delta message).
Proof.
  unfold fault_costs, fault_delta. cbv zeta. rewrite !says_cons, !says_nil.
  destruct (str_contains _ "handshake"), (str_contains _ "genesis"), (str_contains _ "empty"),
    (str_contains _ "unsolicited"); cbn; naive_solver.
Qed.

Lemma entry_score id s : ps_score (entry id s) = score_of id s.
Proof. unfold entry, score_of. by destruct (s !! id). Qed.

Lemma entry_until id s t : 0 <= t → (ps_banned_until (entry id s) >? t) = is_banned t id s.
Proof. intros. unfold entry, is_banned. destruct (s !! id); [done|]. cbn. rewrite Z.gtb_ltb. apply Z.ltb_ge. lia. Qed.

Lemma moved_score_clamp score delta :
  -100 <= score <= 100 → clamp SCORE_MIN SCORE_MAX (i32_sat (score + delta)) = moved_score score delta.
Proof.
  intros H. unfold i32_sat. rewrite !clamp_spec by (vm_compute; congruence).
  unfold moved_score, SCORE_MIN, SCORE_MAX. lia.
Qed.

Lemma ban_end_add now secs : saturating_add 64 now (Z.max secs 1) = ban_end now secs.
Proof. unfold saturating_add, ban_end. lia. Qed.

Lemma ban_now_effect now id reason secs s : banned_at_score id 0 (ban_end now secs) (ban_now now id reason secs s).
Proof.
  unfold banned_at_score, ban_now, score_of, is_banned. rewrite lookup_insert_eq. cbn [ps_score ps_banned_until].
  split; [done|]. intros t _. rewrite ban_end_add, Z.gtb_ltb. apply Z.ltb_lt.
Qed.

Lemma penalize_effect now id delta reason secs s :
  reputation_ok s → penalized id delta (ban_end now secs) s (penalize now id delta reason secs s).
Proof.
  intros Hs. destruct (entry_ok id s Hs) as [_ Hsc _ _ _]. unfold penalized, penalize.
  replace (ps_score (entry id s) - delta) with (ps_score (entry id s) + - delta) by lia.
  rewrite moved_score_clamp, entry_score, ban_end_add by exact Hsc.
  unfold score_of at 1, is_banned at 1. rewrite lookup_insert_eq. cbn [ps_score ps_banned_until].
  split; [done|]. intros t Ht. rewrite <-entry_until, !Z.gtb_ltb, !Z.ltb_lt by done.
  unfold BAN_THRESHOLD. destruct (_ <=? 0) eqn:E; breflect; lia.
Qed.

Lemma reward_effect id delta reason s :
  reputation_ok s → op_effect (op_reward id delta reason) s (reward id delta reason s).
Proof.
  intros Hs. destruct (entry_ok id s Hs) as [_ Hsc _ _ _]. cbn [op_effect]. unfold reward.
  rewrite moved_score_clamp, entry_score by exact Hsc.
  unfold score_of at 1, is_banned at 1. rewrite lookup_insert_eq. cbn [ps_score ps_banned_until].
  split; [done|]. intros t Ht. by apply entry_until.
Qed.

Lemma prune_effect now s : op_effect (op_prune now) s (prune_expired_bans now s).
Proof.
  intros id. unfold prune_expired_bans, score_of, is_banned. rewrite lookup_fmap.
  destruct (s !! id) as [r|]; cbn; [|done]. unfold prune_record. rewrite !Z.gtb_ltb.
  destruct (_ && _) eqn:E; cbn; breflect.
  - split_and!; [done | intros t Ht | intros _ t Ht]; rewrite Z.gtb_ltb; [|apply Z.ltb_ge; lia].
    destruct (Z.ltb_spec t 0), (Z.ltb_spec t (ps_banned_until r)); lia.
  - split_and!; [done | done |]. intros Hn t Ht. rewrite Z.gtb_ltb. apply Z.ltb_ge.
    apply Z.ltb_ge in Hn. apply andb_false_iff in E as [E|E]; breflect; lia.
Qed.

Lemma fault_acts now id message s :
  reputation_ok s → op_effect (op_fault now id message) s (apply_protocol_fault now id message s).
Proof.
  intros Hs. cbn [op_effect]. rewrite <-severe_fault_iff. unfold apply_protocol_fault.
  destruct (severe_fault message); (split; [intros Hx | intros Hx]); try done.
  - apply ban_now_effect.
  - exists (fault_delta message). split; [apply fault_delta_costs | by apply penalize_effect].
Qed.

(** C37. After any sequence of operations on a well-formed store, the next one
    leaves the store well formed (each record under its own id, a score within
    -100..100, 64-bit counters and ban end), does to the peer it names exactly
    this, and leaves every other peer's record alone.  A reward raises the score
    by its amount, a penalty lowers it, within the bounds; a penalty that brings
    it to zero or below bans the peer for its duration, never shortening a ban,
    and one that does not bans nobody.  A fault whose message shows forged work
    brings the score to zero and bans for an hour; another costs 40, 20 or 25
    points by its wording with a ban of ten minutes at zero or below.  Pruning
    changes no score, keeps every ban that still runs and ends for good those
    that are over. *)
Theorem reputation_spec ops o s0 :
  Forall op_ok (ops ++ [o]) → reputation_ok s0 →
  let s := run_ops ops s0 in let s' := run_op o s in
  reputation_ok s' ∧ op_effect o s s' ∧
  (∀ id, op_peer o ≠ None → op_peer o ≠ Some id → s' !! id = s !! id).
Proof.
  intros [Hops Ho]%Forall_app Hs0. cbv zeta.
  pose proof (run_ops_ok ops s0 Hops Hs0) as Hs. pose proof (run_ops_ok [o] _ Ho Hs) as Hs'. split_and!; [done| |].
  - destruct o; cbn [run_op];
      [apply ban_now_effect | by apply reward_effect | by apply penalize_effect | apply prune_effect | by apply fault_acts].
  - intros id Hp Hne. destruct o as [? i ? ?|i ? ?|? i ? ? ?|?|? i ?]; cbn [op_peer run_op] in *; try done;
      assert (i ≠ id) by congruence; unfold ban_now, reward, penalize, apply_protocol_fault, ban_now, penalize;
      try case_match; by rewrite lookup_insert_ne.
Qed.

(** * Repeated faults *)

Lemma fault_delta_range m : 20 <= fault_delta m <= 40.
Proof. unfold fault_delta. cbv zeta. destruct (_ || _); [lia|]. destruct (_ || _); lia. Qed.

(** One fault: the score falls by at least 20 or to the threshold, and a score at
    the threshold means a ban of at least ten minutes from then. *)
Lemma fault_effect now id message s :
  reputation_ok s → 0 <= now → now + 3600 <= umax 64 →
  let s' := apply_protocol_fault now id message s in
  score_of id s' <= Z.max 0 (score_of id s - 20) ∧ (now + 600 <= umax 64 → score_of id s' <= 0 →
    ∀ t, now <= t < now + 600 → is_banned t id s' = true).
Proof.
  intros Hs Hnow Hmax. cbv zeta. destruct (entry_ok id s Hs) as [_ Hsc _ _ _].
  assert (ps_score (entry id s) = score_of id s) as Hscore
    by (unfold entry, score_of; by destruct (s !! id)).
  unfold SCORE_MIN, SCORE_MAX in Hsc. rewrite Hscore in Hsc.
  assert (∀ d, 0 < d → saturating_add 64 now d >= Z.min (now + d) (umax 64)) as Hsat
    by (intros d Hd; unfold saturating_add; lia).
  unfold apply_protocol_fault. destruct (severe_fault message).
  - unfold ban_now, score_of at 1 3, is_banned. rewrite lookup_insert_eq. cbn [ps_score ps_banned_until].
    split; [unfold BAN_THRESHOLD; lia|]. intros _ _ t Ht. specialize (Hsat (Z.max SEVERE_BAN_SECONDS 1)).
    unfold SEVERE_BAN_SECONDS in *. rewrite Z.gtb_ltb. apply Z.ltb_lt. lia.
  - pose proof (fault_delta_range message) as Hd. unfold penalize, score_of at 1 3, is_banned.
    rewrite lookup_insert_eq. cbn [ps_score ps_banned_until]. rewrite Hscore.
    unfold i32_sat. rewrite (clamp_id (- 2 ^ 31)) by lia.
    rewrite clamp_spec by (vm_compute; congruence). unfold SCORE_MIN, SCORE_MAX. split; [lia|].
    intros _ Hle t Ht. unfold BAN_THRESHOLD. rewrite (proj2 (Z.leb_le _ _) Hle).
    specialize (Hsat (Z.max DEFAULT_BAN_SECONDS 1)). unfold DEFAULT_BAN_SECONDS in *.
    rewrite Z.gtb_ltb. apply Z.ltb_lt. lia.
Qed.

(** Faults of one peer, each with the time it is seen. *)
Definition faults (id : string) (fs : list (Z * string)) (s : ReputationStore) : ReputationStore :=
  foldl (λ s f, apply_protocol_fault f.1 id f.2 s) s fs.

Lemma faults_score id fs s :
  reputation_ok s → Forall (λ f, 0 <= f.1 ∧ f.1 + 3600 <= umax 64) fs →
  (reputation_ok (faults id fs s) ∧
   score_of id (faults id fs s) <= Z.max 0 (score_of id s - 20 * Z.of_nat (length fs))) ∨ fs = [].
Proof.
  intros Hs Hf. destruct fs as [|f fs]; [by right|]. left. revert f s Hs Hf.
  induction fs as [|g fs IH]; intros f s Hs Hf; apply Forall_cons in Hf as [[Hnow Hmax] Hf].
  - unfold faults. cbn [foldl length]. destruct (fault_effect f.1 id f.2 s Hs Hnow Hmax) as [He _].
    split; [|lia]. unfold apply_protocol_fault. unfold umax in Hmax.
    destruct (severe_fault f.2); [apply ban_now_ok | apply penalize_ok]; try done; unfold in_width; lia.
  - unfold faults in *. cbn [foldl]. destruct (fault_effect f.1 id f.2 s Hs Hnow Hmax) as [He _].
    assert (reputation_ok (apply_protocol_fault f.1 id f.2 s)) as Hs'.
    { unfold apply_protocol_fault. unfold umax in Hmax.
      destruct (severe_fault f.2); [apply ban_now_ok | apply penalize_ok]; try done; unfold in_width; lia. }
    destruct (IH g _ Hs' Hf) as [H1 H2]. split; [exact H1|].
    cbn [length foldl] in *. lia.
Qed.

(** A misbehaving peer is eventually refused: whatever its score and however its
    faults are worded, five faults in a row leave it banned from the moment of
    the last one for at least ten minutes. *)
Theorem faults_ban id fs f s t :
  reputation_ok s → (4 <= length fs)%nat → Forall (λ f, 0 <= f.1 ∧ f.1 + 3600 <= umax 64) (fs ++ [f]) →
  f.1 <= t < f.1 + 600 → is_banned t id (faults id (fs ++ [f]) s) = true.
Proof.
  intros Hs Hlen [Hfs Hf]%Forall_app Ht. rewrite Forall_singleton in Hf.
  destruct (faults_score id fs s Hs Hfs) as [[Hok Hscore]|Hnil]; [|rewrite Hnil in Hlen; simpl in Hlen; lia].
  assert (score_of id s <= 100) as Hmax.
  { destruct (entry_ok id s Hs) as [_ [_ Hsc] _ _ _]. unfold score_of.
    unfold entry in Hsc. destruct (s !! id); [exact Hsc | vm_compute; congruence]. }
  unfold faults. rewrite foldl_app. cbn [foldl]. fold (faults id fs s).
  destruct Hf as [Hnow Hmx]. destruct (fault_effect f.1 id f.2 (faults id fs s) Hok Hnow Hmx) as [He Hb].
  apply Hb; lia.
Qed.
