(* ===== verification/P2p.v ===== *)
(** [vireon-node/src/p2p.rs]: the synchronisation protocol between nodes.  A
    handler is a state transformer over the node's files, the peers, the pending
    branches, the sync target and the reputations; what it sends and whom it
    disconnects are lists in the state.  libp2p is outside: peers are their ids,
    messages arrive parsed, and the clock readings, the local miner's metrics and
    the outcomes of file operations are arguments. *)

From S2P Require Import Prelude RustStd Interfaces Crypto Errors Network Amount Signing Address Transaction Block Pow Consensus State Ledger Chain Genesis NodeConfig GenesisApproval Storage Mempool Node NodeOps Reputation.

Definition P2P_PROTOCOL_VERSION : Z := 3.
Definition MAX_SYNC_BLOCKS : Z := 128.
Definition MAX_SYNC_HEADERS : Z := 512.
Definition MAX_STAGED_REORG_BLOCKS : Z := 2048.
Definition MINER_PRESENCE_TTL_SECONDS : Z := 30.
Definition MAX_LOCATOR_ENTRIES : Z := 32.

(** [struct P2pHandshake] *)
Record P2pHandshake := mkHandshake { hs_network_id : string; hs_chain_magic_hex : string; hs_p2p_port : Z }.

(** [struct PeerHello] *)
Record PeerHello := mkHello {
  ph_protocol_version : Z;
  ph_network_id : string;
  ph_chain_magic_hex : string;
  ph_genesis_hash : string;
  ph_best_height : Z;
  ph_best_hash : string;
  ph_cumulative_work : string;
  ph_validating : bool;
  ph_mining : bool;
  ph_hashrate_hs : Z;
}.

(** [struct BlockLocatorEntry] *)
Record BlockLocatorEntry := mkLocator { le_height : Z; le_hash : string }.

(** [struct HeaderSummary] *)
Record HeaderSummary := mkHeader { hd_height : Z; hd_hash : string; hd_previous_hash : string; hd_difficulty : Z }.

(** [struct PendingBranch] *)
Record PendingBranch := mkBranch {
  bn_remote : PeerHello;
  bn_ancestor_height : Z;
  bn_direct_extension : bool;
  bn_next_height : Z;
  bn_headers_verified : bool;
  bn_headers : list HeaderSummary;
  bn_blocks : list Block;
}.
Definition set_next (h : Z) (b : PendingBranch) : PendingBranch :=
  mkBranch (bn_remote b) (bn_ancestor_height b) (bn_direct_extension b) h (bn_headers_verified b) (bn_headers b) (bn_blocks b).
Definition set_verified (b : PendingBranch) : PendingBranch :=
  mkBranch (bn_remote b) (bn_ancestor_height b) (bn_direct_extension b) (bn_next_height b) true (bn_headers b) (bn_blocks b).
Definition add_headers (hs : list HeaderSummary) (b : PendingBranch) : PendingBranch :=
  mkBranch (bn_remote b) (bn_ancestor_height b) (bn_direct_extension b) (bn_next_height b) (bn_headers_verified b)
    (bn_headers b ++ hs) (bn_blocks b).
Definition add_blocks (bs : list Block) (b : PendingBranch) : PendingBranch :=
  mkBranch (bn_remote b) (bn_ancestor_height b) (bn_direct_extension b) (bn_next_height b) (bn_headers_verified b)
    (bn_headers b) (bn_blocks b ++ bs).

(** [struct ConnectedPeer] *)
Record ConnectedPeer := mkPeer {
  cp_peer_id : string;
  cp_address : option string;
  cp_handshake_validated : bool;
  cp_best_height : option Z;
  cp_best_hash : option string;
  cp_cumulative_work : option string;
  cp_validating : bool;
  cp_mining : bool;
  cp_hashrate_hs : Z;
  cp_connected_at : Z;
  cp_last_error : option string;
  cp_reputation_score : Z;
  cp_banned : bool;
}.

(** [struct NetworkMinerPresence] *)
Record NetworkMinerPresence := mkPresence {
  np_peer_id : string;
  np_hashrate_hs : Z;
  np_template_height : Z;
  np_updated_at : Z;
  np_local : bool;
}.

(** What [read_local_miner_metrics] returns, its hashrate rounded to an integer. *)
Record LocalMiner := mkLocalMiner { lm_hashrate_hs : Z; lm_height : Z; lm_updated_at : Z }.

(** The fields of [struct P2pStatus] the handlers change. *)
Record P2pStatus := mkStatus {
  sy_syncing : bool;
  sy_target_height : option Z;
  sy_target_hash : option string;
  sy_target_work : option string;
  sy_resume_height : option Z;
  sy_last_error : option string;
}.

Inductive SyncRequest :=
| ReqHello (hello : PeerHello)
| ReqFindAncestor (hello : PeerHello) (locator : list BlockLocatorEntry)
| ReqHeaders (hello : PeerHello) (start_height max_headers : Z)
| ReqBlocks (hello : PeerHello) (start_height max_blocks : Z).

Inductive SyncResponse :=
| HelloAccepted (hello : PeerHello)
| CommonAncestor (hello : PeerHello) (height : Z)
| RespHeaders (hello : PeerHello) (headers : list HeaderSummary)
| RespBlocks (hello : PeerHello) (blocks : list Block)
| RespRejected (reason : string).

(** [struct MiningPresenceAnnouncement] *)
Record MiningPresenceAnnouncement := mkAnnouncement {
  an_protocol_version : Z;
  an_network_id : string;
  an_peer_id : string;
  an_hashrate_hs : Z;
  an_template_height : Z;
  an_updated_at : Z;
}.

(** What is published to the other nodes. *)
Inductive Gossip := GossipTransaction (tx : Transaction) | GossipPresence (a : MiningPresenceAnnouncement).

(** What the service keeps, with what it sent, published and disconnected. *)
Record P2pState := mkP2p {
  px_node : NodeState;
  px_peers : gmap string ConnectedPeer;
  px_branches : gmap string PendingBranch;
  px_status : P2pStatus;
  px_reputation : ReputationStore;
  px_miners : gmap string NetworkMinerPresence;
  px_published : gset string;
  px_sent : list (string * SyncRequest);
  px_gossip : list Gossip;
  px_disconnected : list string;
}.

Abbreviation p2p A := (state_result P2pState NodeError A).

Definition on_files {A} (m : node_op A) : p2p A := λ s,
  let '(r, node) := m (px_node s) in
  (r, mkP2p node (px_peers s) (px_branches s) (px_status s) (px_reputation s) (px_miners s) (px_published s) (px_sent s) (px_gossip s) (px_disconnected s)).
Definition on_peers (f : gmap string ConnectedPeer → gmap string ConnectedPeer) (s : P2pState) : P2pState :=
  mkP2p (px_node s) (f (px_peers s)) (px_branches s) (px_status s) (px_reputation s) (px_miners s) (px_published s) (px_sent s) (px_gossip s) (px_disconnected s).
Definition on_branches (f : gmap string PendingBranch → gmap string PendingBranch) (s : P2pState) : P2pState :=
  mkP2p (px_node s) (px_peers s) (f (px_branches s)) (px_status s) (px_reputation s) (px_miners s) (px_published s) (px_sent s) (px_gossip s) (px_disconnected s).
Definition on_status (f : P2pStatus → P2pStatus) (s : P2pState) : P2pState :=
  mkP2p (px_node s) (px_peers s) (px_branches s) (f (px_status s)) (px_reputation s) (px_miners s) (px_published s) (px_sent s) (px_gossip s) (px_disconnected s).
Definition on_reputation (f : ReputationStore → ReputationStore) (s : P2pState) : P2pState :=
  mkP2p (px_node s) (px_peers s) (px_branches s) (px_status s) (f (px_reputation s)) (px_miners s) (px_published s) (px_sent s) (px_gossip s) (px_disconnected s).
Definition on_miners (f : gmap string NetworkMinerPresence → gmap string NetworkMinerPresence) (s : P2pState) : P2pState :=
  mkP2p (px_node s) (px_peers s) (px_branches s) (px_status s) (px_reputation s) (f (px_miners s)) (px_published s) (px_sent s) (px_gossip s) (px_disconnected s).
Definition on_published (f : gset string → gset string) (s : P2pState) : P2pState :=
  mkP2p (px_node s) (px_peers s) (px_branches s) (px_status s) (px_reputation s) (px_miners s) (f (px_published s)) (px_sent s) (px_gossip s) (px_disconnected s).
Definition send (peer : string) (r : SyncRequest) (s : P2pState) : P2pState :=
  mkP2p (px_node s) (px_peers s) (px_branches s) (px_status s) (px_reputation s) (px_miners s) (px_published s) (px_sent s ++ [(peer, r)]) (px_gossip s) (px_disconnected s).
Definition publish (g : Gossip) (s : P2pState) : P2pState :=
  mkP2p (px_node s) (px_peers s) (px_branches s) (px_status s) (px_reputation s) (px_miners s) (px_published s) (px_sent s) (px_gossip s ++ [g]) (px_disconnected s).
Definition disconnect (peer : string) (s : P2pState) : P2pState :=
  mkP2p (px_node s) (px_peers s) (px_branches s) (px_status s) (px_reputation s) (px_miners s) (px_published s) (px_sent s) (px_gossip s) (px_disconnected s ++ [peer]).

Definition set_last_error (e : option string) (st : P2pStatus) : P2pStatus :=
  mkStatus (sy_syncing st) (sy_target_height st) (sy_target_hash st) (sy_target_work st) (sy_resume_height st) e.
Definition set_resume (h : option Z) (st : P2pStatus) : P2pStatus :=
  mkStatus (sy_syncing st) (sy_target_height st) (sy_target_hash st) (sy_target_work st) h (sy_last_error st).

Definition remember_sync_target (remote : PeerHello) (st : P2pStatus) : P2pStatus :=
  mkStatus true (Some (ph_best_height remote)) (Some (ph_best_hash remote)) (Some (ph_cumulative_work remote))
    (sy_resume_height st) (sy_last_error st).
Definition report_error (message : string) (s : P2pState) : P2pState := on_status (set_last_error (Some message)) s.

Definition clear_sync_target (st : P2pStatus) : P2pStatus :=
  mkStatus false None None None None (sy_last_error st).

(** ** Handshakes *)

Definition local_p2p_handshake (config : NetworkConfig) : P2pHandshake :=
  mkHandshake (cfg_network_id config) (cfg_chain_magic_hex config) (cfg_p2p_port config).

Definition validate_p2p_handshake (config : NetworkConfig) (remote : P2pHandshake) : NodeResult () :=
  if negb (bool_decide (hs_network_id remote = cfg_network_id config))
  then Err (NetworkMismatch (cfg_network_id config) (hs_network_id remote)) else
  if negb (bool_decide (hs_chain_magic_hex remote = cfg_chain_magic_hex config))
  then Err (ChainMagicMismatch (cfg_chain_magic_hex config) (hs_chain_magic_hex remote)) else Ok ().

Definition validate_peer_hello (config : NetworkConfig) (expected_genesis : string) (hello : PeerHello) : NodeResult () :=
  if negb (ph_protocol_version hello =? P2P_PROTOCOL_VERSION)
  then Err (P2p ("unsupported protocol version " ++ uint_to_string (ph_protocol_version hello) ++ "; expected "
         ++ uint_to_string P2P_PROTOCOL_VERSION)) else
  _ ← validate_p2p_handshake config (mkHandshake (ph_network_id hello) (ph_chain_magic_hex hello) 0);
  if negb (bool_decide (ph_genesis_hash hello = expected_genesis))
  then Err (GenesisMismatch expected_genesis (ph_genesis_hash hello)) else Ok ().

Definition update_validated_peer (peer_id : string) (hello : PeerHello) (peers : gmap string ConnectedPeer) :
    gmap string ConnectedPeer :=
  alter (λ p, mkPeer (cp_peer_id p) (cp_address p) true (Some (ph_best_height hello)) (Some (ph_best_hash hello))
    (Some (ph_cumulative_work hello)) (ph_validating hello) (ph_mining hello) (ph_hashrate_hs hello) (cp_connected_at p)
    None (cp_reputation_score p) (cp_banned p)) peer_id peers.

(** A fault noted at its peer, with the peer's standing. *)
Definition note_fault (now : Z) (peer_id message : string) (s : P2pState) : P2pState :=
  on_peers (alter (λ p, mkPeer (cp_peer_id p) (cp_address p) (cp_handshake_validated p) (cp_best_height p) (cp_best_hash p)
    (cp_cumulative_work p) (cp_validating p) (cp_mining p) (cp_hashrate_hs p) (cp_connected_at p) (Some message)
    (score_of peer_id (px_reputation s)) (is_banned now peer_id (px_reputation s))) peer_id) s.

Definition parse_chain_work (value : string) : NodeResult Z :=
  ok_or (P2p "peer advertised invalid cumulative chain work") (parse_uint 128 value).

Definition remote_has_more_work (remote local : PeerHello) : NodeResult bool :=
  r ← parse_chain_work (ph_cumulative_work remote);
  l ← parse_chain_work (ph_cumulative_work local);
  Ok (r >? l).

(** [char::is_ascii_hexdigit], by byte. *)
Definition hexdigit (b : byte) : bool :=
  let z := byte_Z b in ((48 <=? z) && (z <=? 57)) || ((65 <=? z) && (z <=? 70)) || ((97 <=? z) && (z <=? 102)).

(** One round of the loop of [validate_header_chain]: the previous hash and the
    expected height. *)
Definition check_header (e : string * Z) (h : HeaderSummary) : NodeResult (string * Z) :=
  let '(prev_hash, expected_height) := e in
  if negb (hd_height h =? expected_height)
  then Err (P2p ("header height gap: expected " ++ uint_to_string expected_height ++ ", got " ++ uint_to_string (hd_height h))) else
  if negb (bool_decide (hd_previous_hash h = prev_hash))
  then Err (P2p ("header previous_hash mismatch at height " ++ uint_to_string (hd_height h))) else
  if negb (str_len (hd_hash h) =? 64) || negb (forallb hexdigit (str_bytes (hd_hash h)))
  then Err (P2p "header hash is not 32-byte hex") else
  Ok (hd_hash h, saturating_add 64 expected_height 1).

Section p2p.
Context `{Primitives}.

(** ** The locator *)

(** The loop of [block_locator], with fuel. *)
Fixpoint locator_loop (fuel : nat) (blocks : list Block) (index step : Z) (seen : gset Z) (locator : list BlockLocatorEntry) :
    option (list BlockLocatorEntry) :=
  match fuel with
  | O => None
  | S fuel =>
      let index := if (MAX_LOCATOR_ENTRIES - 1 <=? Z.of_nat (length locator)) && negb (index =? 0) then 0 else index in
      block ← blocks !! Z.to_nat index;
      let height := bh_height (header block) in
      let locator := if bool_decide (height ∈ seen) then locator
                     else locator ++ [mkLocator height (hash_to_hex (block_hash block))] in
      let seen := {[ height ]} ∪ seen in
      if index =? 0 then Some locator else
      let step' := if 8 <? Z.of_nat (length locator) then Z.max (saturating_mul 64 step 2) 1 else step in
      locator_loop fuel blocks (saturating_sub index step) step' seen locator
  end.

(** [block_locator] on the loaded blocks. *)
Definition block_locator (blocks : list Block) : option (list BlockLocatorEntry) :=
  if bool_decide (blocks = []) then Some []
  else locator_loop (length blocks) blocks (Z.of_nat (length blocks) - 1) 1 ∅ [].

(** ** Local facts *)

Section node.
Context (env : NodeEnv) (config : NetworkConfig).
(** The local miner's metrics file, when it says the miner is mining now. *)
Context (miner : option LocalMiner).

Abbreviation path := (dd_database (ne_dir env)).
Definition stored_blocks (node : NodeState) : NodeResult (list Block) := load_blocks path (ns_db node).

Definition local_hello (node : NodeState) : NodeResult PeerHello :=
  blocks ← stored_blocks node;
  tip ← ok_or (ChainNotInitialized path) (last blocks);
  work ← map_err Core (cumulative_work blocks);
  Ok (mkHello P2P_PROTOCOL_VERSION (cfg_network_id config) (cfg_chain_magic_hex config)
    (match head blocks with Some b => hash_to_hex (block_hash b) | None => "" end)
    (bh_height (header tip)) (hash_to_hex (block_hash tip)) (uint_to_string work) true (is_some miner)
    (from_option lm_hashrate_hs 0 miner)).

Definition local_genesis_hash (node : NodeState) : NodeResult string :=
  blocks ← stored_blocks node;
  ok_or (ChainNotInitialized path) ((λ b, hash_to_hex (block_hash b)) <$> head blocks).

(** ** Answering requests *)

Definition request_hello (r : SyncRequest) : PeerHello :=
  match r with ReqHello h | ReqFindAncestor h _ | ReqHeaders h _ _ | ReqBlocks h _ _ => h end.

Definition header_summary (b : Block) : HeaderSummary :=
  mkHeader (bh_height (header b)) (hash_to_hex (block_hash b)) (hash_to_hex (bh_previous_hash (header b))) (bh_difficulty (header b)).

(** A locator entry of the local chain. *)
Definition on_local_chain (blocks : list Block) (e : BlockLocatorEntry) : bool :=
  match blocks !! Z.to_nat (le_height e) with
  | Some b => bool_decide (hash_to_hex (block_hash b) = le_hash e)
  | None => false
  end.

(** The blocks from a height on. *)
Definition from_height (start : Z) (blocks : list Block) : list Block := filter (λ b, start <= bh_height (header b)) blocks.

Definition answer (node : NodeState) (local : PeerHello) (r : SyncRequest) : SyncResponse :=
  match r with
  | ReqHello _ => HelloAccepted local
  | ReqFindAncestor _ locator =>
      match stored_blocks node with
      | Err e => RespRejected (NodeError_fmt e)
      | Ok blocks =>
          match List.find (on_local_chain blocks) locator with
          | Some e => CommonAncestor local (le_height e)
          | None => RespRejected "no common ancestor exists for the advertised genesis"
          end
      end
  | ReqHeaders _ start max =>
      RespHeaders local (header_summary <$> take (Z.to_nat (Z.min max MAX_SYNC_HEADERS))
        (from_height start (unwrap_or [] (stored_blocks node))))
  | ReqBlocks _ start max =>
      RespBlocks local (take (Z.to_nat (Z.min max MAX_SYNC_BLOCKS)) (from_height start (unwrap_or [] (stored_blocks node))))
  end.

Definition handle_sync_request (peer_id : string) (request : SyncRequest) (s : P2pState) : SyncResponse * P2pState :=
  match local_genesis_hash (px_node s) with
  | Err e => (RespRejected (NodeError_fmt e), s)
  | Ok expected_genesis =>
      match validate_peer_hello config expected_genesis (request_hello request) with
      | Err e => (RespRejected (NodeError_fmt e), s)
      | Ok () =>
          let s := on_peers (update_validated_peer peer_id (request_hello request)) s in
          match local_hello (px_node s) with
          | Err e => (RespRejected (NodeError_fmt e), s)
          | Ok local => (answer (px_node s) local request, s)
          end
      end
  end.

(** ** Following a branch *)

(** The locator the node sends. *)
Definition node_locator (node : NodeState) : NodeResult (list BlockLocatorEntry) :=
  blocks ← stored_blocks node; Ok (default [] (block_locator blocks)).

Definition staged_candidate (branch : PendingBranch) (node : NodeState) : NodeResult (list Block) :=
  blocks ← stored_blocks node;
  Ok (take (Z.to_nat (bn_ancestor_height branch) + 1) blocks ++ bn_blocks branch).

Definition branch_of (peer_id missing : string) : p2p PendingBranch := λ s,
  (ok_or (P2p missing) (px_branches s !! peer_id), s).

Definition request_branch_headers (peer_id : string) : p2p () :=
  branch ← branch_of peer_id "missing staged branch state";
  s ← sr_get;
  local ← sr_lift (local_hello (px_node s));
  sr_modify (send peer_id (ReqHeaders local (bn_next_height branch) MAX_SYNC_HEADERS)).

Definition request_branch_chunk (peer_id : string) : p2p () :=
  branch ← branch_of peer_id "missing staged branch state";
  s ← sr_get;
  local ← sr_lift (local_hello (px_node s));
  sr_modify (send peer_id (ReqBlocks local (bn_next_height branch) MAX_SYNC_BLOCKS)).

Definition validate_header_chain (branch : PendingBranch) (headers : list HeaderSummary) (node : NodeState) : NodeResult () :=
  if bool_decide (headers = []) then Err (P2p "peer returned empty headers") else
  blocks ← stored_blocks node;
  prev_hash ← match last (bn_headers branch) with
              | None => (λ b, hash_to_hex (block_hash b)) <$>
                  ok_or (P2p "ancestor missing for header validation") (blocks !! Z.to_nat (bn_ancestor_height branch))
              | Some h => Ok (hd_hash h)
              end;
  let expected_height := match last (bn_headers branch) with
                         | None => wrapping_add 64 (bn_ancestor_height branch) 1
                         | Some h => wrapping_add 64 (hd_height h) 1
                         end in
  _ ← try_fold check_header (prev_hash, expected_height) headers;
  Ok ().

(** The height to resume from, when the durable target is the branch's tip. *)
Definition resumed (st : P2pStatus) (remote : PeerHello) (next : Z) : Z :=
  if bool_decide (sy_target_hash st = Some (ph_best_hash remote)) then
    match sy_resume_height st with
    | Some resume => if (resume >? next) && (resume <=? ph_best_height remote) then resume else next
    | None => next
    end
  else next.

(** A response's hello is checked and its peer updated. *)
Definition accept_hello (peer_id : string) (hello : PeerHello) : p2p () :=
  s ← sr_get;
  genesis ← sr_lift (local_genesis_hash (px_node s));
  _ ← sr_lift (validate_peer_hello config genesis hello);
  sr_modify (on_peers (update_validated_peer peer_id hello)).

(** [now]: the reading of the reputation's clock. *)
Context (now : Z).

Definition on_rejected (peer_id reason : string) : p2p () :=
  _ ← sr_modify (on_reputation (penalize now peer_id 15 reason DEFAULT_BAN_SECONDS));
  _ ← sr_modify (note_fault now peer_id reason);
  _ ← sr_modify (on_status (set_last_error (Some ("peer " ++ peer_id ++ " rejected handshake: " ++ reason)%string)));
  sr_modify (disconnect peer_id).

Definition on_hello (peer_id : string) (hello : PeerHello) : p2p () :=
  _ ← accept_hello peer_id hello;
  _ ← sr_modify (on_reputation (reward peer_id 2 "hello accepted"));
  s ← sr_get;
  local ← sr_lift (local_hello (px_node s));
  more ← sr_lift (remote_has_more_work hello local);
  if (more : bool) && negb (bool_decide (ph_best_hash hello = ph_best_hash local)) then
    _ ← sr_modify (on_status (remember_sync_target hello));
    locator ← sr_lift (node_locator (px_node s));
    sr_modify (send peer_id (ReqFindAncestor local locator))
  else if bool_decide (sy_target_hash (px_status s) = Some (ph_best_hash local))
  then sr_modify (on_status clear_sync_target) else mret ().

Definition on_ancestor (peer_id : string) (hello : PeerHello) (height : Z) : p2p () :=
  _ ← accept_hello peer_id hello;
  s ← sr_get;
  local ← sr_lift (local_hello (px_node s));
  more ← sr_lift (remote_has_more_work hello local);
  if negb (more : bool) then
    _ ← sr_modify (on_branches (delete peer_id));
    sr_modify (on_status clear_sync_target)
  else
  _ ← sr_modify (on_status (remember_sync_target hello));
  blocks ← sr_lift (stored_blocks (px_node s));
  if is_none (blocks !! Z.to_nat height)
  then sr_lift (Err (P2p ("peer selected unavailable ancestor height " ++ uint_to_string height))) else
  s ← sr_get;
  let next_height := resumed (px_status s) hello (saturating_add 64 height 1) in
  _ ← sr_modify (on_branches (<[peer_id := mkBranch hello height (height =? ph_best_height local) next_height false [] []]>));
  request_branch_headers peer_id.

Definition on_headers (peer_id : string) (hello : PeerHello) (headers : list HeaderSummary) : p2p () :=
  _ ← accept_hello peer_id hello;
  branch ← branch_of peer_id "received unsolicited headers response";
  if negb (bool_decide (ph_best_hash hello = ph_best_hash (bn_remote branch)))
  then sr_lift (Err (P2p "peer changed tip during header sync")) else
  s ← sr_get;
  _ ← sr_lift (validate_header_chain branch headers (px_node s));
  let branch := add_headers headers branch in
  _ ← sr_modify (on_branches (<[peer_id := branch]>));
  let last_height := hd_height <$> last (bn_headers branch) in
  if match last_height with Some h => h <? ph_best_height (bn_remote branch) | None => false end then
    let next := match last_height with Some h => wrapping_add 64 h 1 | None => bn_next_height branch end in
    _ ← sr_modify (on_branches (<[peer_id := set_next next branch]>));
    request_branch_headers peer_id
  else if negb (bool_decide (hd_hash <$> last (bn_headers branch) = Some (ph_best_hash (bn_remote branch))))
  then sr_lift (Err (P2p "header chain does not reach the peer committed tip")) else
  s ← sr_get;
  let next := resumed (px_status s) (bn_remote branch) (saturating_add 64 (bn_ancestor_height branch) 1) in
  _ ← sr_modify (on_branches (<[peer_id := set_next next (set_verified branch)]>));
  _ ← sr_modify (on_reputation (reward peer_id 5 "headers verified"));
  request_branch_chunk peer_id.

(** The arguments of the operations on the files: of the [k]-th submitted block,
    of building the staged candidate, of its adoption. *)
Record FileInputs := {
  fi_submit : nat → (nat → Z) * Z * bool;
  fi_build : nat → Z;
  fi_adopt : (nat → Z) * (nat → Z) * Z * Z;
  fi_observed : NodeResult (list Block);
  fi_pool_io : NodeResult ();
}.
Context (io : FileInputs).

Definition submit_nth (e : nat * Block) : p2p () :=
  let '(clock, t, pool_io) := fi_submit io e.1 in
  _ ← on_files (submit_mined_block env clock t pool_io e.2); mret ().

(** The blocks of a direct extension are submitted one by one. *)
Definition apply_extension (peer_id : string) (branch : PendingBranch) (blocks : list Block) : p2p () :=
  let next := match last blocks with Some b => wrapping_add 64 (bh_height (header b)) 1 | None => bn_next_height branch end in
  let branch := set_next next branch in
  _ ← sr_modify (on_branches (<[peer_id := branch]>));
  _ ← sr_each submit_nth (imap pair blocks);
  _ ← sr_modify (on_status (λ st, remember_sync_target (bn_remote branch) (set_resume (Some (bn_next_height branch)) st)));
  s ← sr_get;
  local ← sr_lift (local_hello (px_node s));
  if ph_best_height local <? ph_best_height (bn_remote branch) then request_branch_chunk peer_id else
  if bool_decide (ph_best_hash local = ph_best_hash (bn_remote branch))
     && bool_decide (ph_cumulative_work local = ph_cumulative_work (bn_remote branch))
  then _ ← sr_modify (on_reputation (reward peer_id 10 "direct extension applied"));
       _ ← sr_modify (on_branches (delete peer_id));
       sr_modify (on_status clear_sync_target)
  else sr_lift (Err (P2p "direct extension does not match the peer work commitment")).

(** The blocks of a fork are staged until they reach the committed tip. *)
Definition stage_blocks (peer_id : string) (branch : PendingBranch) (blocks : list Block) : p2p () :=
  if MAX_STAGED_REORG_BLOCKS <? Z.of_nat (length (bn_blocks branch)) + Z.of_nat (length blocks)
  then sr_lift (Err (P2p ("fork exceeds the staged reorg limit of " ++ uint_to_string MAX_STAGED_REORG_BLOCKS ++ " blocks"))) else
  let next := match last blocks with Some b => wrapping_add 64 (bh_height (header b)) 1 | None => bn_next_height branch end in
  let branch := add_blocks blocks (set_next next branch) in
  _ ← sr_modify (on_branches (<[peer_id := branch]>));
  s ← sr_get;
  candidate ← sr_lift (staged_candidate branch (px_node s));
  _ ← sr_lift (map_err Core (from_blocks (cfg_network config) (timed (fi_build io) candidate)));
  tip ← sr_lift (ok_or (P2p "validated reorg candidate is empty") (last candidate));
  if bh_height (header tip) <? ph_best_height (bn_remote branch) then request_branch_chunk peer_id else
  work ← (if negb (bh_height (header tip) =? ph_best_height (bn_remote branch))
             || negb (bool_decide (hash_to_hex (block_hash tip) = ph_best_hash (bn_remote branch)))
          then mret None
          else w ← sr_lift (map_err Core (cumulative_work candidate)); mret (Some (uint_to_string w)));
  if negb (bool_decide (work = Some (ph_cumulative_work (bn_remote branch))))
  then sr_lift (Err (P2p "downloaded branch does not match the peer work commitment")) else
  _ ← on_files (let '(clock, clock', t, t') := fi_adopt io in
        adopt_candidate_chain env clock clock' t t' (fi_observed io) (fi_pool_io io) candidate);
  _ ← sr_modify (on_reputation (reward peer_id 15 "reorg branch adopted"));
  _ ← sr_modify (on_branches (delete peer_id));
  sr_modify (on_status clear_sync_target).

Definition body_matches (headers : list HeaderSummary) (b : Block) : bool :=
  existsb (λ h, bool_decide (hd_hash h = hash_to_hex (block_hash b)) && (hd_height h =? bh_height (header b))) headers.

Definition on_blocks (peer_id : string) (hello : PeerHello) (blocks : list Block) : p2p () :=
  _ ← accept_hello peer_id hello;
  branch ← branch_of peer_id "received an unsolicited branch block response";
  if negb (bn_headers_verified branch) then sr_lift (Err (P2p "blocks received before header-first verification")) else
  if negb (bool_decide (ph_best_hash hello = ph_best_hash (bn_remote branch)))
     || negb (bool_decide (ph_cumulative_work hello = ph_cumulative_work (bn_remote branch)))
  then sr_lift (Err (P2p "peer changed its advertised branch during synchronization")) else
  if bool_decide (blocks = []) then sr_lift (Err (P2p "peer returned an empty incomplete branch")) else
  if match last blocks with Some b => bh_height (header b) >? ph_best_height (bn_remote branch) | None => false end
  then sr_lift (Err (P2p "peer sent blocks beyond its committed tip")) else
  if negb (forallb (body_matches (bn_headers branch)) blocks)
  then sr_lift (Err (P2p "block body does not match verified header set")) else
  if bn_direct_extension branch then apply_extension peer_id branch blocks else stage_blocks peer_id branch blocks.

Definition handle_sync_response (peer_id : string) (response : SyncResponse) : p2p () :=
  match response with
  | RespRejected reason => on_rejected peer_id reason
  | HelloAccepted hello => on_hello peer_id hello
  | CommonAncestor hello height => on_ancestor peer_id hello height
  | RespHeaders hello headers => on_headers peer_id hello headers
  | RespBlocks hello blocks => on_blocks peer_id hello blocks
  end.

End node.

End p2p.
