(* ===== verification/P2pService.v ===== *)
(** [vireon-node/src/p2p.rs]: the events of the service and its one-second tick.
    libp2p's part is an argument: which connection an event belongs to, the text
    of its errors, what dialling a seed or publishing a message answers, and the
    parser of peer ids.  One event reads the clock once. *)

From S2P Require Import Prelude RustStd Interfaces Crypto Errors Network Amount Signing Address Transaction Block Pow Consensus State Ledger Chain Genesis NodeConfig GenesisApproval Storage Mempool Node NodeOps Reputation P2p.

(** The fields of [struct P2pStatus] that [persist_status] computes. *)
Record P2pReport := mkReport {
  rp_local_cumulative_work : string;
  rp_peers : list ConnectedPeer;
  rp_connected_peer_count : Z;
  rp_validated_peer_count : Z;
  rp_mining_peer_count : Z;
  rp_observed_network_hashrate_hs : Z;
  rp_miners : list NetworkMinerPresence;
  rp_validating_peer_count : Z;
  rp_banned_peer_count : Z;
  rp_updated_at : Z;
}.

Definition count_peers (P : ConnectedPeer → bool) (l : list ConnectedPeer) : Z := Z.of_nat (length (List.filter P l)).

(** Bans and scores are read when the report is made. *)
Definition with_standing (now : Z) (s : ReputationStore) (p : ConnectedPeer) : ConnectedPeer :=
  mkPeer (cp_peer_id p) (cp_address p) (cp_handshake_validated p) (cp_best_height p) (cp_best_hash p)
    (cp_cumulative_work p) (cp_validating p) (cp_mining p) (cp_hashrate_hs p) (cp_connected_at p) (cp_last_error p)
    (score_of (cp_peer_id p) s) (is_banned now (cp_peer_id p) s).

Definition miner_fresh (now : Z) (m : NetworkMinerPresence) : bool :=
  saturating_sub now (np_updated_at m) <=? MINER_PRESENCE_TTL_SECONDS.

(** What the service reads of the sync target of an earlier run. *)
Definition restore_target (previous : NodeResult P2pStatus) (st : P2pStatus) : P2pStatus :=
  match previous with
  | Ok p => mkStatus (sy_syncing st || is_some (sy_target_hash p)) (sy_target_height p) (sy_target_hash p)
              (sy_target_work p) (sy_resume_height p) (sy_last_error st)
  | Err _ => st
  end.

(** What the service configures of libp2p's request codec. *)
Definition REQUEST_SIZE_MAXIMUM : Z := 256 * 1024.
Definition RESPONSE_SIZE_MAXIMUM : Z := 16 * 1024 * 1024.
Definition REQUEST_TIMEOUT_SECONDS : Z := 20.

(** libp2p's part: the bytes of a message's JSON text, and the text of the failure
    of a request. *)
Record SyncWire := mkWire {
  sw_request_len : SyncRequest → Z;
  sw_response_len : SyncResponse → Z;
  sw_failure : SyncRequest → string;
}.

Section service.
Context `{Primitives}.
Context (env : NodeEnv) (config : NetworkConfig) (miner : option LocalMiner).
(** The node's own id, libp2p's parser of ids, and the clock. *)
Context (local_peer_id : string) (parse_peer_id : string → result string string) (now : Z).

(** ** Reports *)

Definition local_miner_presence : option NetworkMinerPresence :=
  (λ m, mkPresence local_peer_id (lm_hashrate_hs m) (lm_height m) (lm_updated_at m) true) <$> miner.

Definition report_miners (known : gmap string NetworkMinerPresence) : list NetworkMinerPresence :=
  sort_by (λ a b, str_cmp (np_peer_id a) (np_peer_id b))
    ((btree_entries known).*2 ++ match local_miner_presence with Some m => [m] | None => [] end).

(** [persist_status]; [write] is the outcome of writing the file. *)
Definition persist_status (write : NodeResult ()) : p2p P2pReport :=
  s ← sr_get;
  let peers := with_standing now (px_reputation s) <$> (btree_entries (px_peers s)).*2 in
  _ ← sr_modify (on_miners (filter (λ m, miner_fresh now m.2)));
  s ← sr_get;
  let miners := report_miners (px_miners s) in
  _ ← sr_lift write;
  mret (mkReport (unwrap_or "" (ph_cumulative_work <$> local_hello env config miner (px_node s)))
    peers (Z.of_nat (length peers)) (count_peers cp_handshake_validated peers)
    (Z.of_nat (length miners)) (fold_left (λ total m, saturating_add 64 total (np_hashrate_hs m)) miners 0) miners
    (count_peers (λ p, cp_handshake_validated p && cp_validating p) peers)
    (active_ban_count now (px_reputation s)) now).

(** ** Mining presence *)

Definition accept_mining_presence (message_source : option string) (a : MiningPresenceAnnouncement) : p2p () :=
  if negb (an_protocol_version a =? P2P_PROTOCOL_VERSION)
  then sr_lift (Err (P2p ("unsupported mining presence protocol version " ++ uint_to_string (an_protocol_version a)))) else
  if negb (bool_decide (an_network_id a = cfg_network_id config))
  then sr_lift (Err (NetworkMismatch (cfg_network_id config) (an_network_id a))) else
  announced ← sr_lift (map_err (λ e, P2p ("invalid mining peer ID: " ++ e)) (parse_peer_id (an_peer_id a)));
  if negb (bool_decide (message_source = Some announced))
  then sr_lift (Err (P2p "mining presence signer does not match its announced peer ID")) else
  if (an_updated_at a >? saturating_add 64 now 10)
     || (saturating_sub now (an_updated_at a) >? MINER_PRESENCE_TTL_SECONDS)
  then sr_lift (Err (P2p "mining presence timestamp is outside the accepted freshness window")) else
  if an_hashrate_hs a =? 0
  then sr_lift (Err (P2p "mining presence hashrate must be greater than zero")) else
  sr_modify (on_miners (<[announced := mkPresence (an_peer_id a) (an_hashrate_hs a) (an_template_height a) (an_updated_at a) false]>)).

(** ** Events *)

(** A response that is refused is a fault of its peer. *)
Definition receive_response (io : FileInputs) (peer_id : string) (response : SyncResponse) (s : P2pState) : P2pState :=
  match handle_sync_response env config miner now io peer_id response s with
  | (Ok (), s) => s
  | (Err e, s) =>
      let message := NodeError_fmt e in
      let s := on_reputation (apply_protocol_fault now peer_id message) s in
      let s := note_fault now peer_id message s in
      let s := report_error ("rejected data from peer " ++ peer_id ++ ": " ++ message) s in
      let s := disconnect peer_id s in
      if is_banned now peer_id (px_reputation s) then on_peers (delete peer_id) (on_branches (delete peer_id) s) else s
  end.

(** [sent]: whether the answer could be handed over. *)
Definition receive_request (peer_id : string) (request : SyncRequest) (sent : bool) (s : P2pState) : SyncResponse * P2pState :=
  let '(response, s) := handle_sync_request env config miner peer_id request s in
  (response, if sent then s else report_error ("could not send response to " ++ peer_id) s).

(** [address] of the peer; [first]: this is its first connection. *)
Definition connection_established (peer_id address : string) (first : bool) (s : P2pState) : P2pState :=
  if (cfg_max_peers config <=? Z.of_nat (size (px_peers s))) && is_none (px_peers s !! peer_id)
  then report_error ("peer limit " ++ uint_to_string (cfg_max_peers config) ++ " reached; refused additional peer")
         (disconnect peer_id s) else
  if is_banned now peer_id (px_reputation s)
  then disconnect peer_id (report_error ("refused banned peer " ++ peer_id ++ " (score "
         ++ int_to_string (score_of peer_id (px_reputation s)) ++ ")") s) else
  let s := match px_peers s !! peer_id with
           | Some _ => s
           | None => on_peers (<[peer_id := mkPeer peer_id (Some address) false None None None false false 0 now None
                       (score_of peer_id (px_reputation s)) false]>) s
           end in
  if first then
    match local_hello env config miner (px_node s) with
    | Ok hello => send peer_id (ReqHello hello) s
    | Err e => report_error ("could not build Hello for peer " ++ peer_id ++ ": " ++ NodeError_fmt e) s
    end
  else s.

Definition forget_peer (peer_id : string) (s : P2pState) : P2pState :=
  on_branches (delete peer_id) (on_peers (delete peer_id) s).
Definition connection_closed : string → P2pState → P2pState := forget_peer.

Definition note_error (peer_id message : string) (s : P2pState) : P2pState :=
  on_peers (alter (λ p, mkPeer (cp_peer_id p) (cp_address p) (cp_handshake_validated p) (cp_best_height p) (cp_best_hash p)
    (cp_cumulative_work p) (cp_validating p) (cp_mining p) (cp_hashrate_hs p) (cp_connected_at p) (Some message)
    (cp_reputation_score p) (cp_banned p)) peer_id) s.

Definition outbound_failure (peer_id message : string) (s : P2pState) : P2pState :=
  let s := report_error message (note_error peer_id message (on_branches (delete peer_id) s)) in
  if str_contains message "supports none of the requested protocols" || str_contains message "UnsupportedProtocols"
     || str_contains message "Unsupported protocol"
  then forget_peer peer_id (disconnect peer_id
         (on_reputation (penalize now peer_id 15 "unsupported sync protocol" (DEFAULT_BAN_SECONDS / 2)) s))
  else s.

Definition inbound_failure (peer_id message : string) (s : P2pState) : P2pState :=
  report_error message (note_error peer_id message s).

(** A request and its answer travel as JSON through libp2p's codec.  It reads at
    most the configured bytes of either and gives up at the timeout: then the node
    sees a failure of libp2p's, with its text, instead of the answer.  [took]: the
    seconds until the answer was there. *)
Definition exchange (wire : SyncWire) (took : Z) (io : FileInputs) (peer_id : string) (request : SyncRequest)
    (response : SyncResponse) (s : P2pState) : P2pState :=
  if (sw_request_len wire request <=? REQUEST_SIZE_MAXIMUM) && (sw_response_len wire response <=? RESPONSE_SIZE_MAXIMUM)
     && (took <? REQUEST_TIMEOUT_SECONDS)
  then receive_response io peer_id response s
  else outbound_failure peer_id (sw_failure wire request) s.

(** A transaction message, [Err] when it is not one; the clock readings of
    [submit_transaction] are the last four arguments. *)
Definition gossip_transaction (source : string) (parsed : result string Transaction)
    (clock : nat → Z) (t1 t2 t3 t4 : Z) (s : P2pState) : P2pState :=
  match parsed with
  | Err e => report_error ("malformed transaction from peer " ++ source ++ ": " ++ e) s
  | Ok tx =>
      match on_files (node_submit_transaction clock t1 t2 t3 t4 (ne_dir env) (cfg_max_mempool_transactions config) tx) s with
      | (Ok _, s) => s
      | (Err e, s) => report_error ("rejected transaction from peer " ++ source ++ ": " ++ NodeError_fmt e) s
      end
  end.

Definition gossip_presence (source : string) (signer : option string) (parsed : result string MiningPresenceAnnouncement)
    (s : P2pState) : P2pState :=
  match parsed with
  | Err e => report_error ("malformed mining presence from " ++ source ++ ": " ++ e) s
  | Ok a =>
      match accept_mining_presence signer a s with
      | (Ok (), s) => s
      | (Err e, s) => report_error ("rejected mining presence from " ++ source ++ ": " ++ NodeError_fmt e) s
      end
  end.

(** ** The tick *)

(** What publishing a message answers: the text of a failure. *)
Context (published : Gossip → option string).

Definition gossip (failed : string) (g : Gossip) (s : P2pState) : P2pState :=
  match published g with None => publish g s | Some e => report_error (failed ++ " gossip failed: " ++ e) s end.

(** Every fifth tick: hello to the idle peers, and the local miner is announced. *)
Definition hello_tick (s : P2pState) : P2pState :=
  let s := match local_hello env config miner (px_node s) with
           | Ok hello => foldl (λ s peer_id, send peer_id (ReqHello hello) s) s
               (List.filter (λ peer_id, is_none (px_branches s !! peer_id)) (btree_entries (px_peers s)).*1)
           | Err e => report_error (NodeError_fmt e) s
           end in
  if bool_decide (px_peers s = ∅) then s else
  match local_miner_presence with
  | Some m => gossip "mining presence" (GossipPresence (mkAnnouncement P2P_PROTOCOL_VERSION (cfg_network_id config)
                (np_peer_id m) (np_hashrate_hs m) (np_template_height m) (np_updated_at m))) s
  | None => s
  end.

(** Dialling a seed: [Err] when it is no address, the text when the dial fails. *)
Context (dial : string → NodeResult (option string)).

Definition dial_seeds (failed : string) (s : P2pState) : P2pState :=
  foldl (λ s seed, match dial seed with
                   | Ok None => s
                   | Ok (Some e) => report_error ("seed " ++ failed ++ " failed for " ++ seed ++ ": " ++ e) s
                   | Err e => report_error (NodeError_fmt e) s
                   end) s (cfg_seed_nodes config).

Definition has_validated_peer (s : P2pState) : bool := existsb (λ e, cp_handshake_validated e.2) (map_to_list (px_peers s)).

(** [idle]: no outgoing connection is pending. *)
Definition seed_tick (tick : Z) (idle : bool) (s : P2pState) : P2pState :=
  if (tick mod 15 =? 0) && negb (has_validated_peer s) && negb (bool_decide (cfg_seed_nodes config = [])) && idle
  then dial_seeds "redial" s
  else if bool_decide (cfg_seed_nodes config = []) && negb (has_validated_peer s) && (tick mod 60 =? 0)
          && from_option (λ e, str_contains e "supports none of the requested protocols") false (sy_last_error (px_status s))
  then report_error "solo mode: no seed_nodes configured; waiting for inbound peers" s else s.

(** A peer that has not completed its handshake in time. *)
Definition handshake_stale (p : ConnectedPeer) : bool :=
  negb (cp_handshake_validated p) && (30 <=? saturating_sub now (cp_connected_at p)).
Definition drop_stale (s : P2pState) (peer_id : string) : P2pState :=
  let s := on_reputation (penalize now peer_id 10 "handshake timeout" DEFAULT_BAN_SECONDS) s in
  let s := report_error ("disconnecting unvalidated peer " ++ peer_id ++ " after handshake timeout (score "
             ++ int_to_string (score_of peer_id (px_reputation s)) ++ ")") s in
  forget_peer peer_id (disconnect peer_id s).
Definition handshake_timeouts (s : P2pState) : P2pState :=
  foldl drop_stale s (List.filter (λ e, handshake_stale e.2) (btree_entries (px_peers s))).*1.

(** Pending transactions are published once; [pool_io]: the pool file is read. *)
Definition publish_pending (pool_io : bool) (s : P2pState) : P2pState :=
  if pool_io then
    foldl (λ s r, if bool_decide (pr_tx_hash r ∈ px_published s) then s
                  else gossip "transaction" (GossipTransaction (pr_transaction r)) (on_published (λ seen, {[ pr_tx_hash r ]} ∪ seen) s))
      s (ns_pool (px_node s))
  else s.

(** One tick of the loop of [run_p2p_service_async]. *)
Definition service_tick (tick : Z) (idle pool_io : bool) (write : NodeResult ()) : p2p P2pReport :=
  _ ← sr_modify (λ s,
    let s := if tick mod 5 =? 0 then hello_tick s else s in
    let s := seed_tick tick idle s in
    let s := if tick mod 10 =? 0 then handshake_timeouts s else s in
    on_reputation (prune_expired_bans now) (publish_pending pool_io s));
  persist_status write.

End service.
