(* ===== verification/P2pTheory.v ===== *)
(** What the peer-to-peer service guarantees whatever its peers send: its own
    tables keep their invariants, and through every sequence of events the files
    hold a chain valid from an accepted genesis that only gives way to more work. *)

From S2P Require Import Prelude RustStd Interfaces Crypto Errors Network Amount Signing Address Transaction Block Pow Consensus State Ledger Chain Genesis NodeConfig GenesisApproval Storage Mempool Node NodeOps NodeMine NodeTheory Reputation P2p P2pService.

(** * The service's tables *)

Section tables.
Context `{Primitives}.

(** A branch being downloaded: its headers are linked by their hashes, its bodies
    are bodies of those headers and within the limit, and once verified the
    headers contain the tip the peer committed to. *)
Record branch_ok (b : PendingBranch) : Prop := {
  br_limit : Z.of_nat (length (bn_blocks b)) <= MAX_STAGED_REORG_BLOCKS;
  br_wf : Forall block_wf (bn_blocks b);
  br_bodies : Forall (λ blk, body_matches (bn_headers b) blk = true) (bn_blocks b);
  br_linked : ∀ i h h', bn_headers b !! i = Some h → bn_headers b !! S i = Some h' → hd_previous_hash h' = hd_hash h;
  br_hashes : Forall (λ h, str_len (hd_hash h) = 64) (bn_headers b);
  br_verified : bn_headers_verified b = true → ph_best_hash (bn_remote b) ∈ hd_hash <$> bn_headers b;
}.

Lemma fresh_branch_ok hello height direct next : branch_ok (mkBranch hello height direct next false [] []).
Proof. split; cbn [bn_blocks bn_headers bn_headers_verified]; done || constructor. Qed.

Lemma set_next_ok n b : branch_ok b → branch_ok (set_next n b).
Proof. by intros []. Qed.

Lemma set_verified_ok b :
  branch_ok b → ph_best_hash (bn_remote b) ∈ hd_hash <$> bn_headers b → branch_ok (set_verified b).
Proof. intros [] Hin. by split. Qed.

Lemma body_matches_app hs hs' blk : body_matches hs blk = true → body_matches (hs ++ hs') blk = true.
Proof. unfold body_matches. rewrite existsb_app. intros ->. done. Qed.

Lemma add_blocks_ok bs b :
  branch_ok b → Z.of_nat (length (bn_blocks b)) + Z.of_nat (length bs) <= MAX_STAGED_REORG_BLOCKS →
  Forall block_wf bs → forallb (body_matches (bn_headers b)) bs = true → branch_ok (add_blocks bs b).
Proof.
  intros [] Hlen Hwf Hm. split; cbn [add_blocks bn_blocks bn_headers bn_headers_verified bn_remote]; try done.
  - rewrite length_app. lia.
  - by apply Forall_app.
  - apply Forall_app. split; [done|]. by apply forallb_is_Forall.
Qed.

(** A batch the fold accepts: linked from the previous hash, each hash of 64
    characters. *)
Fixpoint batch_linked (prev : string) (hs : list HeaderSummary) : Prop :=
  match hs with
  | [] => True
  | h :: hs => hd_previous_hash h = prev ∧ str_len (hd_hash h) = 64 ∧ batch_linked (hd_hash h) hs
  end.

Lemma check_header_Ok prev n h e :
  check_header (prev, n) h = Ok e →
  hd_height h = n ∧ hd_previous_hash h = prev ∧ str_len (hd_hash h) = 64 ∧
  forallb hexdigit (str_bytes (hd_hash h)) = true ∧ e = (hd_hash h, saturating_add 64 n 1).
Proof.
  unfold check_header. destruct (hd_height h =? n) eqn:E1; [|done]. cbn [negb].
  case_bool_decide as E2; [|done]. cbn [negb].
  destruct (str_len (hd_hash h) =? 64) eqn:E3; [|done]. cbn [negb orb].
  destruct (forallb _ _) eqn:E4; [|done]. intros [= <-].
  apply Z.eqb_eq in E1, E3. done.
Qed.

Lemma headers_batch prev n hs e : try_fold check_header (prev, n) hs = Ok e → batch_linked prev hs.
Proof.
  revert prev n. induction hs as [|h hs IH]; intros prev n; [done|]. cbn [try_fold].
  intros ([p k] & (_ & Hp & Hl & _ & [= -> ->])%check_header_Ok & Hf)%bind_Ok. cbn [batch_linked]. eauto.
Qed.

Lemma batch_app (b : PendingBranch) hs :
  branch_ok b → batch_linked (match last (bn_headers b) with Some h => hd_hash h | None =>
    match head hs with Some h => hd_previous_hash h | None => "" end end) hs →
  branch_ok (add_headers hs b).
Proof.
  intros Hb Hbatch.
  enough (∀ hs prev (l : list HeaderSummary),
    (∀ i h h', l !! i = Some h → l !! S i = Some h' → hd_previous_hash h' = hd_hash h) →
    Forall (λ h, str_len (hd_hash h) = 64) l →
    batch_linked prev hs → (∀ h, last l = Some h → prev = hd_hash h) →
    (∀ i h h', (l ++ hs) !! i = Some h → (l ++ hs) !! S i = Some h' → hd_previous_hash h' = hd_hash h) ∧
    Forall (λ h, str_len (hd_hash h) = 64) (l ++ hs)) as Hgen.
  { destruct (Hgen _ _ _ (br_linked _ Hb) (br_hashes _ Hb) Hbatch) as [H1 H2].
    { intros h Hh. by rewrite Hh. }
    destruct Hb. split; cbn [add_headers bn_blocks bn_headers bn_headers_verified bn_remote]; try done.
    - eapply Forall_impl; [done|]. intros blk. apply body_matches_app.
    - intros Hv. rewrite fmap_app, elem_of_app. left. auto. }
  clear. induction hs as [|h hs IH]; intros prev l Hl Hh Hbatch Hlast; [by rewrite app_nil_r|].
  destruct Hbatch as (Hp & Hlen & Hbatch). rewrite cons_middle, app_assoc.
  apply (IH (hd_hash h)); [|apply Forall_app; by split; [|constructor]|done|].
  - intros i a a' Ha Ha'. apply lookup_snoc_Some in Ha as [[Hi Ha]|[-> <-]]; apply lookup_snoc_Some in Ha' as [[Hi' Ha']|[Hi' <-]].
    + by eapply Hl.
    + rewrite Hp. apply Hlast. rewrite last_lookup, <- Hi'. done.
    + lia.
    + lia.
  - intros h' Hh'. rewrite last_snoc in Hh'. by injection Hh' as <-.
Qed.

(** A miner the service lists. *)
Definition miner_ok (m : NetworkMinerPresence) : Prop := np_hashrate_hs m ≠ 0 ∧ np_local m = false.

Record tables_ok (config : NetworkConfig) (s : P2pState) : Prop := {
  tb_reputation : reputation_ok (px_reputation s);
  tb_branches : map_Forall (λ _, branch_ok) (px_branches s);
  tb_peers : map_Forall (λ id p, cp_peer_id p = id) (px_peers s);
  tb_limit : Z.of_nat (size (px_peers s)) <= cfg_max_peers config;
  tb_miners : map_Forall (λ _, miner_ok) (px_miners s);
}.

End tables.

(** * Handlers *)

Section service.
Context `{PrimitivesOk}.
Context (env : NodeEnv) (config : NetworkConfig).
Context (Hconfig : load_network_config (file_network (ne_files env)) = Ok config).
Context (Hdir : ensure_network_storage_path (cfg_network config) (ne_dir env) = Ok ()).

#[local] Abbreviation node_ok := (node_ok env config).
#[local] Abbreviation node_step := (node_step env config).

(** The invariant of the service, for some stored chain. *)
Definition service_ok (s : P2pState) : Prop := tables_ok config s ∧ ∃ c, node_ok (px_node s) c.

Definition progress (s s' : P2pState) : Prop := service_ok s' ∧ rtc node_step (px_node s) (px_node s').

(** A handler that keeps the invariant and works on the files only through the
    node's operations; its result satisfies [P]. *)
Definition safe {A} (P : A → Prop) (m : p2p A) : Prop :=
  ∀ s r s', service_ok s → m s = (r, s') → progress s s' ∧ (∀ a, r = Ok a → P a).

Lemma progress_refl s : service_ok s → progress s s.
Proof. by split. Qed.

Lemma progress_trans s1 s2 s3 : progress s1 s2 → progress s2 s3 → progress s1 s3.
Proof. intros [_ H1] [H2 H3]. split; [done | by etrans]. Qed.

Lemma safe_bind {A B} (P : A → Prop) (Q : B → Prop) m f :
  safe P m → (∀ a, P a → safe Q (f a)) → safe Q (m ≫= f).
Proof.
  intros Hm Hf s r s' Hs. unfold mbind, state_result_bind. destruct (m s) as [[a|e] s1] eqn:E; intros Hr.
  - destruct (Hm _ _ _ Hs E) as [Hp HP]. destruct (Hf a (HP a eq_refl) _ _ _ (proj1 Hp) Hr) as [Hp' HQ].
    split; [by eapply progress_trans | done].
  - injection Hr as <- <-. destruct (Hm _ _ _ Hs E) as [Hp _]. done.
Qed.

Lemma safe_lift {A} (P : A → Prop) r : (∀ a, r = Ok a → P a) → safe P (sr_lift r).
Proof. intros HP s r' s' Hs [= <- <-]. split; [by apply progress_refl | done]. Qed.

Lemma safe_get {B} (Q : B → Prop) f : (∀ s, service_ok s → safe Q (f s)) → safe Q (sr_get ≫= f).
Proof. intros Hf s r s' Hs. rewrite sr_get_bind. by apply Hf. Qed.

Lemma safe_modify g :
  (∀ s, service_ok s → tables_ok config (g s) ∧ px_node (g s) = px_node s) → safe (λ _, True) (sr_modify g).
Proof.
  intros Hg s r s' Hs [= <- <-]. destruct (Hg s Hs) as [Ht Hn]. destruct Hs as [_ Hc].
  split; [|done]. split; [by split; [|rewrite Hn] | by rewrite Hn].
Qed.

Lemma safe_ret {A} (P : A → Prop) a : P a → safe P (mret a).
Proof. intros HP s r s' Hs [= <- <-]. split; [by apply progress_refl | by intros ? [= <-]]. Qed.

Lemma safe_error {A} (P : A → Prop) e : safe P (sr_lift (Err e)).
Proof. by apply safe_lift. Qed.

Lemma safe_files {A} (m : node_op A) :
  (∀ node r node', (∃ c, node_ok node c) → m node = (r, node') → node_step node node') →
  safe (λ _, True) (on_files m).
Proof.
  intros Hm s r s' [Ht Hc]. unfold on_files. destruct (m (px_node s)) as [r1 node'] eqn:E. intros [= <- <-].
  pose proof (Hm _ _ _ Hc E) as Hstep. split; [|done]. split; [|by apply rtc_once].
  split; [by destruct Ht|]. destruct Hc as [c Hc].
  by destruct (node_step_ok env config Hconfig Hdir _ _ _ Hc Hstep) as (c' & Hc' & _); exists c'.
Qed.

Lemma safe_each {A} (f : A → p2p ()) l :
  Forall (λ a, safe (λ _, True) (f a)) l → safe (λ _, True) (sr_each f l).
Proof.
  induction 1 as [|a l Ha _ IH]; cbn [sr_each]; [by apply safe_ret|].
  eapply safe_bind; [exact Ha | intros _ _; exact IH].
Qed.

(** Changes of one table. *)
Lemma status_ok f s : tables_ok config s → tables_ok config (on_status f s).
Proof. by intros []. Qed.
Lemma send_ok p q s : tables_ok config s → tables_ok config (send p q s).
Proof. by intros []. Qed.
Lemma publish_ok g s : tables_ok config s → tables_ok config (publish g s).
Proof. by intros []. Qed.
Lemma published_ok f s : tables_ok config s → tables_ok config (on_published f s).
Proof. by intros []. Qed.
Lemma disconnect_ok p s : tables_ok config s → tables_ok config (disconnect p s).
Proof. by intros []. Qed.

Lemma score_ok f s :
  (∀ t, reputation_ok t → reputation_ok (f t)) → tables_ok config s → tables_ok config (on_reputation f s).
Proof. intros Hf []. split; try done. by apply Hf. Qed.

Lemma branch_insert_ok p b s : branch_ok b → tables_ok config s → tables_ok config (on_branches (<[p := b]>) s).
Proof. intros Hb []. split; try done. by apply map_Forall_insert_2. Qed.

Lemma branch_delete_ok p s : tables_ok config s → tables_ok config (on_branches (delete p) s).
Proof. intros []. split; try done. by apply map_Forall_delete. Qed.

Lemma peer_delete_ok p s : tables_ok config s → tables_ok config (on_peers (delete p) s).
Proof.
  intros [? ? ? Hlim ?]. split; try done; cbn [on_peers px_peers].
  - by apply map_Forall_delete.
  - pose proof (map_size_delete p (px_peers s)) as Hsz. destruct (px_peers s !! p); cbn in Hsz; unfold id in Hsz; lia.
Qed.

Lemma peer_alter_ok p f s :
  (∀ q, cp_peer_id (f q) = cp_peer_id q) → tables_ok config s → tables_ok config (on_peers (alter f p) s).
Proof.
  intros Hf [? ? Hp Hlim ?]. split; try done; cbn [on_peers px_peers].
  - intros id q Hq. apply lookup_alter_Some in Hq as [(<- & q0 & Hq0 & ->)|[_ Hq]]; [|by apply Hp].
    rewrite Hf. by apply Hp.
  - by rewrite <- !size_dom, dom_alter_L in *.
Qed.

Lemma update_validated_ok p hello s : tables_ok config s → tables_ok config (on_peers (update_validated_peer p hello) s).
Proof. intros Hs. by apply peer_alter_ok. Qed.

Lemma note_fault_ok now p m s : tables_ok config s → tables_ok config (note_fault now p m s).
Proof. intros Hs. by apply peer_alter_ok. Qed.

Create HintDb tables.
#[local] Hint Resolve status_ok send_ok publish_ok published_ok disconnect_ok score_ok branch_insert_ok branch_delete_ok
  peer_delete_ok update_validated_ok note_fault_ok reward_ok penalize_ok fault_ok prune_ok fresh_branch_ok set_next_ok
  set_verified_ok : tables.

Ltac safe_step :=
  lazymatch goal with
  | |- safe _ (sr_get ≫= _) => apply safe_get; intros ? ?
  | |- safe _ (sr_lift (Err _)) => apply safe_error
  | |- safe _ (sr_lift ?r ≫= _) => eapply (safe_bind (λ a, r = Ok a)); [apply safe_lift; intros ? Hx; exact Hx | let E := fresh "Hr" in intros ? E]
  | |- safe _ (sr_modify _ ≫= _) => eapply safe_bind; [apply safe_modify; intros ? [? ?]; split; [auto 8 with tables | done] | intros _ _]
  | |- safe _ (sr_modify _) => apply safe_modify; intros ? [? ?]; split; [auto 8 with tables | done]
  | |- safe _ (mret _) => by apply safe_ret
  | |- safe _ (if ?b then _ else _) => let E := fresh "Hif" in destruct b eqn:E
  end.
Ltac safe := repeat safe_step.

Context (miner : option LocalMiner) (now : Z) (io : FileInputs).
Context (Hnow : is_u64 now).

#[local] Abbreviation always := (λ _, True).

Lemma branch_of_safe p m : safe branch_ok (branch_of p m).
Proof.
  intros s r s' Hs [= <- <-]. split; [by apply progress_refl|]. intros b Hb%ok_or_Ok.
  exact (tb_branches _ _ (proj1 Hs) _ _ Hb).
Qed.

Lemma accept_hello_safe p hello : safe always (accept_hello env config p hello).
Proof. unfold accept_hello. safe. Qed.

Lemma request_headers_safe p : safe always (request_branch_headers env config miner p).
Proof. unfold request_branch_headers. eapply safe_bind; [apply branch_of_safe | intros b Hb]. safe. Qed.

Lemma request_chunk_safe p : safe always (request_branch_chunk env config miner p).
Proof. unfold request_branch_chunk. eapply safe_bind; [apply branch_of_safe | intros b Hb]. safe. Qed.

Lemma on_rejected_safe p reason : safe always (on_rejected now p reason).
Proof. unfold on_rejected. safe. Qed.

Lemma on_hello_safe p hello : safe always (on_hello env config miner p hello).
Proof. unfold on_hello. eapply safe_bind; [apply accept_hello_safe | intros _ _]. safe. Qed.

Lemma on_ancestor_safe p hello height : safe always (on_ancestor env config miner p hello height).
Proof.
  unfold on_ancestor. eapply safe_bind; [apply accept_hello_safe | intros _ _]. safe. apply request_headers_safe.
Qed.

(** Accepted headers extend the branch's. *)
Lemma validated_headers branch headers node u :
  branch_ok branch → validate_header_chain env branch headers node = Ok u → branch_ok (add_headers headers branch).
Proof.
  intros Hb. unfold validate_header_chain. case_bool_decide as Hne; [done|].
  intros (blocks & _ & Hv)%bind_Ok. apply bind_Ok in Hv as (prev & Hprev & Hv). cbv zeta in Hv.
  apply bind_Ok in Hv as (e & Hf & _). apply headers_batch in Hf. apply batch_app; [done|].
  destruct (last (bn_headers branch)) as [h|]; [by injection Hprev as <-|].
  destruct headers as [|h hs]; [done|]. by destruct Hf as (_ & Hl & Hf).
Qed.

Lemma on_headers_safe p hello headers : safe always (on_headers env config miner p hello headers).
Proof.
  unfold on_headers. eapply safe_bind; [apply accept_hello_safe | intros _ _].
  eapply safe_bind; [apply branch_of_safe | intros b Hb].
  do 3 safe_step. eapply validated_headers in Hr as Hb'; [|done]. cbv zeta. safe_step. safe_step.
  - safe. apply request_headers_safe.
  - safe_step; [by safe|].
    assert (ph_best_hash (bn_remote b) ∈ hd_hash <$> bn_headers (add_headers headers b)) as Hin.
    { apply negb_false_iff, bool_decide_eq_true in Hif1. apply fmap_Some in Hif1 as (h & Hh & Heq). change (ph_best_hash (bn_remote b) = hd_hash h) in Heq. rewrite Heq.
      apply list_elem_of_fmap_2. apply last_Some in Hh as (l & ->). apply elem_of_app. right. by left. }
    safe. apply request_chunk_safe.
Qed.

Lemma submit_nth_safe e : block_wf e.2 → safe always (submit_nth env io e).
Proof.
  intros Hwf. unfold submit_nth. destruct (fi_submit io e.1) as [[clock t] pool_io].
  eapply safe_bind; [apply safe_files | intros _ _; safe].
  intros node r node' _ Hr. eapply (step_submit_block _ _ _ (ne_deterministic env)); [done|]. by rewrite remined_same.
Qed.

Lemma apply_extension_safe p b blocks :
  branch_ok b → Forall block_wf blocks → safe always (apply_extension env config miner io p b blocks).
Proof.
  intros Hb Hwf. unfold apply_extension. cbv zeta. safe_step.
  eapply safe_bind; [apply safe_each | intros _ _].
  { rewrite Forall_lookup. intros i e He. rewrite list_lookup_imap in He.
    destruct (blocks !! i) as [blk|] eqn:Hi; [|done]. injection He as <-. apply submit_nth_safe.
    rewrite Forall_lookup in Hwf. by apply (Hwf i). }
  safe. apply request_chunk_safe.
Qed.

Lemma stored_wf s blocks : service_ok s → stored_blocks env (px_node s) = Ok blocks → Forall block_wf blocks.
Proof.
  intros [_ [c Hc]] Hb. unfold stored_blocks, load_blocks in Hb. rewrite (load_node env config _ c false Hc) in Hb.
  injection Hb as <-. exact (co_wf _ _ (chain_reachable_ok _ _ (no_chain _ _ _ _ Hc))).
Qed.

Lemma stage_blocks_safe p b blocks :
  branch_ok b → Forall block_wf blocks → forallb (body_matches (bn_headers b)) blocks = true →
  safe always (stage_blocks env config miner io p b blocks).
Proof.
  intros Hb Hwf Hm. unfold stage_blocks. safe_step; [by safe|]. cbv zeta. apply Z.ltb_ge in Hif.
  assert (∀ n, branch_ok (add_blocks blocks (set_next n b))) as Hb' by (intros n; by apply add_blocks_ok; [apply set_next_ok|..]).
  safe_step. apply safe_get. intros s Hs. do 3 safe_step.
  assert (Forall block_wf a) as Hcand.
  { unfold staged_candidate in Hr. apply bind_Ok in Hr as (bs & Hbs & [= <-]). apply Forall_app. split.
    - eapply Forall_take, stored_wf; done.
    - exact (br_wf _ (Hb' 0)). }
  safe_step; [apply request_chunk_safe|].
  eapply (safe_bind always); [by safe | intros w _]. safe_step; [by safe|].
  eapply safe_bind; [|intros _ _; by safe].
  destruct (fi_adopt io) as [[[clock clock'] t] t']. apply safe_files.
  intros node r node' _ Hrun. eapply (step_adopt _ _ _ (ne_deterministic env)); [done|]. by rewrite remined_same.
Qed.

(** The blocks of a response are well formed values of their type. *)
Definition response_wf (r : SyncResponse) : Prop :=
  match r with RespBlocks _ blocks => Forall block_wf blocks | _ => True end.

Lemma handle_sync_response_safe p r : response_wf r → safe always (handle_sync_response env config miner now io p r).
Proof.
  intros Hwf. destruct r as [hello|hello height|hello headers|hello blocks|reason]; cbn [handle_sync_response].
  - apply on_hello_safe.
  - apply on_ancestor_safe.
  - apply on_headers_safe.
  - unfold on_blocks. eapply safe_bind; [apply accept_hello_safe | intros _ _].
    eapply safe_bind; [apply branch_of_safe | intros b Hb]. do 5 (safe_step; [by safe|]). safe_step.
    + by apply apply_extension_safe.
    + apply stage_blocks_safe; [done..|]. by apply negb_false_iff.
  - apply on_rejected_safe.
Qed.

(** ** Events *)

(** A change of the tables alone. *)
Definition quiet (s s' : P2pState) : Prop := tables_ok config s' ∧ px_node s' = px_node s.

Lemma quiet_refl s : tables_ok config s → quiet s s.
Proof. by split. Qed.

Lemma quiet_trans s1 s2 s3 : quiet s1 s2 → (tables_ok config s2 → quiet s2 s3) → quiet s1 s3.
Proof. intros [H1 E1] H2. destruct (H2 H1) as [H3 E3]. split; [done | by rewrite E3]. Qed.

Lemma quiet_progress s s' : service_ok s → quiet s s' → progress s s'.
Proof. intros [_ Hc] [Ht Hn]. split; [by split; [|rewrite Hn] | by rewrite Hn]. Qed.

Lemma quiet_fold {A} (f : P2pState → A → P2pState) l s :
  (∀ s a, tables_ok config s → quiet s (f s a)) → tables_ok config s → quiet s (foldl f s l).
Proof.
  intros Hf. revert s. induction l as [|a l IH]; intros s Hs; cbn [foldl]; [by apply quiet_refl|].
  eapply quiet_trans; [by apply Hf | apply IH].
Qed.

Lemma error_status_ok m s : tables_ok config s → tables_ok config (report_error m s).
Proof. apply status_ok. Qed.
Lemma note_error_ok p m s : tables_ok config s → tables_ok config (note_error p m s).
Proof. intros Hs. by apply peer_alter_ok. Qed.
Lemma forget_peer_ok p s : tables_ok config s → tables_ok config (forget_peer p s).
Proof. intros Hs. by apply branch_delete_ok, peer_delete_ok. Qed.
#[local] Hint Resolve error_status_ok note_error_ok forget_peer_ok : tables.

Lemma receive_response_ok p r s :
  service_ok s → response_wf r → progress s (receive_response env config miner now io p r s).
Proof.
  intros Hs Hwf. unfold receive_response.
  destruct (handle_sync_response _ _ _ _ _ _ _ s) as [[[]|e] s1] eqn:E;
    destruct (handle_sync_response_safe p r Hwf _ _ _ Hs E) as [Hp _]; [done|].
  eapply progress_trans; [exact Hp|]. apply quiet_progress; [apply Hp|]. destruct Hp as [[Ht _] _]. cbv zeta.
  destruct (is_banned _ _ _); (split; [|done]); auto 10 with tables.
Qed.

Lemma receive_request_ok p q sent s :
  tables_ok config s → quiet s (receive_request env config miner p q sent s).2.
Proof.
  intros Hs. unfold receive_request, handle_sync_request.
  destruct (local_genesis_hash _ _) as [g|e]; [destruct (validate_peer_hello _ _ _) as [[]|e];
    [destruct (local_hello _ _ _ _) as [l|e]|]|]; destruct sent; (split; [|done]); cbn [snd]; auto with tables.
Qed.

Lemma connection_established_ok p a first s :
  tables_ok config s → quiet s (connection_established env config miner now p a first s).
Proof.
  intros Hs. unfold connection_established. destruct (_ && _) eqn:Hlim; [by split; auto with tables|].
  destruct (is_banned _ _ _); [by split; auto with tables|]. cbv zeta.
  match goal with |- quiet _ (if _ then _ else ?t) => assert (quiet s t) as Hq end.
  { destruct (px_peers s !! p) as [q|] eqn:Hp; [by apply quiet_refl|].
    apply andb_false_iff in Hlim as [Hlim|Hlim]; [|done]. apply Z.leb_gt in Hlim.
    split; [|done]. destruct Hs as [? ? Hids ? ?]. split; try done; cbn [on_peers px_peers].
    - by apply map_Forall_insert_2.
    - rewrite map_size_insert, Hp. lia. }
  destruct first; [|done]. destruct (local_hello _ _ _ _); (eapply quiet_trans; [exact Hq|]; intros Ht; split; [|done]; auto with tables).
Qed.

Lemma outbound_failure_ok p m s : tables_ok config s → quiet s (outbound_failure now p m s).
Proof. intros Hs. unfold outbound_failure. cbv zeta. destruct (_ || _); (split; [|done]); auto 10 with tables. Qed.

Lemma inbound_failure_ok p m s : tables_ok config s → quiet s (inbound_failure p m s).
Proof. intros Hs. split; [unfold inbound_failure; auto with tables | done]. Qed.

Lemma gossip_transaction_ok source parsed clock t1 t2 t3 t4 s :
  service_ok s → (∀ tx, parsed = Ok tx → tx_wf tx) → Z.of_nat (length (ns_pool (px_node s))) < umax 64 →
  progress s (gossip_transaction env config source parsed clock t1 t2 t3 t4 s).
Proof.
  intros Hs Hwf Hlen. unfold gossip_transaction. destruct parsed as [tx|e].
  - unfold on_files. destruct (node_submit_transaction _ _ _ _ _ _ _ tx (px_node s)) as [r node'] eqn:E.
    assert (node_step (px_node s) node') as Hstep by (eapply step_submit_transaction; [by apply Hwf | done | exact E]).
    destruct Hs as [Ht [c Hc]].
    destruct (node_step_ok env config Hconfig Hdir _ _ _ Hc Hstep) as (c' & Hc' & _).
    destruct r as [sum|e]; (split; [|by apply rtc_once]); (split; [|by exists c']); by destruct Ht.
  - apply quiet_progress; [done|]. split; [|done]. destruct Hs; auto with tables.
Qed.

Section presence.
Context (local_peer_id : string) (parse_peer_id : string → result string string).

Lemma accept_presence_safe signer a : safe always (accept_mining_presence config parse_peer_id now signer a).
Proof.
  unfold accept_mining_presence. safe.
  match goal with Ht : tables_ok _ _ |- _ => destruct Ht end. split; try done. cbn [on_miners px_miners]. apply map_Forall_insert_2; [|done].
  split; [|done]. by apply Z.eqb_neq.
Qed.

Lemma gossip_presence_ok source signer parsed s :
  service_ok s → progress s (gossip_presence config parse_peer_id now source signer parsed s).
Proof.
  intros Hs. unfold gossip_presence. destruct parsed as [a|e].
  - destruct (accept_mining_presence _ _ _ signer a s) as [[[]|e] s1] eqn:E;
      destruct (accept_presence_safe signer a _ _ _ Hs E) as [Hp _]; [done|].
    eapply progress_trans; [exact Hp|]. apply quiet_progress; [apply Hp|]. destruct Hp as [[Ht _] _].
    split; [auto with tables | done].
  - apply quiet_progress; [done|]. destruct Hs. split; [auto with tables | done].
Qed.

Lemma persist_status_ok write s :
  tables_ok config s → quiet s (persist_status env config miner local_peer_id now write s).2.
Proof.
  intros [? ? ? ? Hm]. unfold persist_status. rewrite sr_get_bind, sr_modify_bind, sr_get_bind, sr_lift_bind.
  assert (tables_ok config (on_miners (filter (λ m, miner_fresh now m.2)) s)) as Hq.
  { split; try done. cbn [on_miners px_miners]. intros id m [Hin _]%map_lookup_filter_Some. by apply (Hm id). }
  by destruct write.
Qed.

(** ** The tick *)

Section tick.
Context (published : Gossip → option string) (dial : string → NodeResult (option string)).

Lemma gossip_ok failed g s : tables_ok config s → quiet s (gossip published failed g s).
Proof. intros Hs. unfold gossip. destruct (published g); (split; [|done]); auto with tables. Qed.

Lemma hello_tick_ok s : tables_ok config s → quiet s (hello_tick env config miner local_peer_id published s).
Proof.
  intros Hs. unfold hello_tick. cbv zeta.
  match goal with |- quiet _ (if bool_decide (px_peers ?t = ∅) then _ else _) => assert (quiet s t) as Hq end.
  { destruct (local_hello _ _ _ _) as [hello|e]; [|by split; auto with tables].
    apply quiet_fold; [|done]. intros t a Ht. split; [auto with tables | done]. }
  case_bool_decide; [done|]. destruct (local_miner_presence _ _); [|done].
  eapply quiet_trans; [exact Hq|]. intros Ht. by apply gossip_ok.
Qed.

Lemma seed_tick_ok n idle s : tables_ok config s → quiet s (seed_tick config dial n idle s).
Proof.
  intros Hs. unfold seed_tick. destruct (_ && _).
  - apply quiet_fold; [|done]. intros t seed Ht.
    destruct (dial seed) as [[e|]|e]; (split; [|done]); auto with tables.
  - destruct (_ && _); (split; [|done]); auto with tables.
Qed.

Lemma handshake_timeouts_ok s : tables_ok config s → quiet s (handshake_timeouts now s).
Proof.
  intros Hs. apply quiet_fold; [|done]. intros t p Ht. split; [|done]. unfold drop_stale. cbv zeta.
  auto 10 with tables.
Qed.

Lemma publish_pending_ok pool_io s : tables_ok config s → quiet s (publish_pending published pool_io s).
Proof.
  intros Hs. unfold publish_pending. destruct pool_io; [|by apply quiet_refl].
  apply quiet_fold; [|done]. intros t r Ht. case_bool_decide; [by apply quiet_refl|].
  eapply quiet_trans; [split; [apply published_ok, Ht | done]|]. apply gossip_ok.
Qed.

Lemma service_tick_ok n idle pool_io write s :
  tables_ok config s →
  quiet s (service_tick env config miner local_peer_id now published dial n idle pool_io write s).2.
Proof.
  intros Hs. unfold service_tick. rewrite sr_modify_bind. cbv zeta.
  eapply quiet_trans; [|apply persist_status_ok].
  set (s1 := if n mod 5 =? 0 then _ else s).
  assert (quiet s s1) as H1 by (unfold s1; destruct (_ =? _); [by apply hello_tick_ok | by apply quiet_refl]).
  set (s2 := seed_tick config dial n idle s1).
  assert (quiet s s2) as H2 by (eapply quiet_trans; [exact H1 | apply seed_tick_ok]).
  set (s3 := if n mod 10 =? 0 then _ else s2).
  assert (quiet s s3) as H3.
  { unfold s3. destruct (n mod 10 =? 0); [|exact H2]. eapply quiet_trans; [exact H2 | apply handshake_timeouts_ok]. }
  eapply quiet_trans; [exact H3|]. intros Ht.
  eapply quiet_trans; [by apply (publish_pending_ok pool_io)|].
  intros Ht'. split; [apply score_ok; [apply prune_ok | exact Ht'] | done].
Qed.

End tick.
End presence.

End service.

(** * Runs *)

Section runs.
Context `{PrimitivesOk}.
Context (env : NodeEnv) (config : NetworkConfig).
Context (Hconfig : load_network_config (file_network (ne_files env)) = Ok config).
Context (Hdir : ensure_network_storage_path (cfg_network config) (ne_dir env) = Ok ()).
Context (local_peer_id : string) (parse_peer_id : string → result string string).

(** One event of the service or one tick, whatever its peers, the clock, the
    files and libp2p do. *)
Inductive p2p_step (s : P2pState) : P2pState → Prop :=
| ps_response miner now io p r :
    is_u64 now → response_wf r → p2p_step s (receive_response env config miner now io p r s)
| ps_request miner p q sent : p2p_step s (receive_request env config miner p q sent s).2
| ps_established miner now p a first : p2p_step s (connection_established env config miner now p a first s)
| ps_closed p : p2p_step s (connection_closed p s)
| ps_outbound now p m : is_u64 now → p2p_step s (outbound_failure now p m s)
| ps_inbound p m : p2p_step s (inbound_failure p m s)
| ps_transaction source parsed clock t1 t2 t3 t4 :
    (∀ tx, parsed = Ok tx → tx_wf tx) → Z.of_nat (length (ns_pool (px_node s))) < umax 64 →
    p2p_step s (gossip_transaction env config source parsed clock t1 t2 t3 t4 s)
| ps_presence now source signer parsed :
    p2p_step s (gossip_presence config parse_peer_id now source signer parsed s)
| ps_persist miner now write : p2p_step s (persist_status env config miner local_peer_id now write s).2
| ps_tick miner now published dial n idle pool_io write :
    is_u64 now →
    p2p_step s (service_tick env config miner local_peer_id now published dial n idle pool_io write s).2.

Lemma p2p_step_progress s s' : service_ok env config s → p2p_step s s' → progress env config s s'.
Proof.
  intros Hs Hstep. pose proof (proj1 Hs) as Ht.
  destruct Hstep.
  - by apply receive_response_ok.
  - apply quiet_progress; [done|]. by apply receive_request_ok.
  - apply quiet_progress; [done|]. by apply connection_established_ok.
  - apply quiet_progress; [done|]. split; [by apply forget_peer_ok | done].
  - apply quiet_progress; [done|]. by apply outbound_failure_ok.
  - apply quiet_progress; [done|]. by apply inbound_failure_ok.
  - by apply gossip_transaction_ok.
  - by apply gossip_presence_ok.
  - apply quiet_progress; [done|]. by apply persist_status_ok.
  - apply quiet_progress; [done|]. by apply service_tick_ok.
Qed.

(** C3. The peer-to-peer service is safe against its peers: after any sequence
    of responses, requests, connections, failures, gossip and ticks, whatever
    their contents, every table of the service is well formed (reputations
    typed, at most the configured number of peers, staged branches within the
    limit whose bodies belong to their linked headers) and the files hold a
    chain valid from the same genesis, that differs from the first one only if
    its work is strictly greater. *)
Theorem p2p_runs_safely s c s' :
  tables_ok config s → node_ok env config (px_node s) c → rtc p2p_step s s' →
  tables_ok config s' ∧ ∃ c', node_ok env config (px_node s') c' ∧ improves c c'.
Proof.
  intros Ht Hc Hrun.
  assert (progress env config s s') as [[Ht' _] Hn].
  { assert (service_ok env config s) as Hs by (split; [done | by exists c]). clear Hc Ht.
    induction Hrun as [s|s s1 s' Hstep _ IH]; [by apply progress_refl|].
    pose proof (p2p_step_progress _ _ Hs Hstep) as Hp. eapply progress_trans; [exact Hp|]. apply IH, Hp. }
  split; [done|]. by eapply node_steps_ok.
Qed.

End runs.
