(* ===== verification/P2pSync.v ===== *)
(** Catching up with an honest peer: the rounds of the synchronisation protocol,
    from the first hello to the stored tip of the peer's chain. *)

From S2P Require Import Prelude RustStd Interfaces Crypto Errors Network Amount Signing Address Transaction Block Pow Consensus State Ledger Chain Genesis NodeConfig GenesisApproval Storage Mempool Node NodeOps NodeMine NodeTheory Reputation P2p P2pService P2pTheory.

(** ** How two nodes find the block they share: the locator a node sends, and the
    ancestor its peer answers. *)

Section locator.
Context `{PrimitivesOk}.

Definition locator_entry (i : nat) (b : Block) : BlockLocatorEntry := mkLocator (Z.of_nat i) (hash_to_hex (block_hash b)).

(** A list of entries of [blocks] that starts at index [i], goes strictly down and
    ends at the genesis. *)
Inductive descent (blocks : list Block) : nat → list BlockLocatorEntry → Prop :=
| descent_genesis b : blocks !! 0%nat = Some b → descent blocks 0 [locator_entry 0 b]
| descent_step i j b rest :
    blocks !! i = Some b → (j < i)%nat → descent blocks j rest → descent blocks i (locator_entry i b :: rest).

Lemma locator_loop_rules fuel blocks i step seen locator :
  linked blocks → (i < length blocks)%nat → (i < fuel)%nat → 1 <= step →
  (∀ h, h ∈ seen → Z.of_nat i < h) → (length locator <= 31)%nat →
  ∃ i' rest, locator_loop fuel blocks (Z.of_nat i) step seen locator = Some (locator ++ rest) ∧
    descent blocks i' rest ∧ (i' <= i)%nat ∧ ((length locator < 31)%nat → i' = i) ∧
    (length locator + length rest <= 32)%nat.
Proof.
  intros Hl. revert i step seen locator.
  induction fuel as [|fuel IH]; intros i step seen locator Hi Hf Hstep Hseen Hlen; [lia|].
  cbn [locator_loop]. set (j := if (MAX_LOCATOR_ENTRIES - 1 <=? Z.of_nat (length locator)) && negb (Z.of_nat i =? 0) then 0%nat else i).
  assert ((if (MAX_LOCATOR_ENTRIES - 1 <=? Z.of_nat (length locator)) && negb (Z.of_nat i =? 0) then 0 else Z.of_nat i)
    = Z.of_nat j) as -> by (unfold j; by destruct (_ && _)).
  assert ((j <= i)%nat ∧ ((length locator < 31)%nat → j = i) ∧ ((length locator = 31)%nat → j = 0%nat)) as (Hj & Hj31 & Hj0).
  { unfold j. destruct (_ <=? _) eqn:E1, (Z.of_nat i =? 0) eqn:E2; cbn [negb andb]; clear j; unfold MAX_LOCATOR_ENTRIES in *; split_and!; intros; blia. }
  clearbody j. rewrite Nat2Z.id. destruct (lookup_lt_is_Some_2 blocks j) as [b Hb]; [lia|]. rewrite Hb.
  cbn [mbind option_bind]. rewrite (ln_height _ Hl _ _ Hb).
  rewrite bool_decide_false by (intros Hin; specialize (Hseen _ Hin); lia).
  fold (locator_entry j b). set (step' := if 8 <? Z.of_nat (length (locator ++ [locator_entry j b])) then Z.max (saturating_mul 64 step 2) 1 else step).
  destruct (Z.of_nat j =? 0) eqn:Ej.
  - apply Z.eqb_eq in Ej. assert (j = 0%nat) as -> by lia. exists 0%nat, [locator_entry 0 b].
    split_and!; [done | by constructor | lia | lia | simpl; lia].
  - apply Z.eqb_neq in Ej. assert (length locator < 31)%nat as Hlt by lia.
    assert (1 <= step') as Hstep' by (unfold step'; destruct (8 <? _); lia).
    set (k := Z.to_nat (saturating_sub (Z.of_nat j) step)).
    assert ((k < j)%nat ∧ saturating_sub (Z.of_nat j) step = Z.of_nat k) as [Hk ->]
      by (unfold k, saturating_sub; lia).
    destruct (IH k step' ({[Z.of_nat j]} ∪ seen) (locator ++ [locator_entry j b])) as (i' & rest & He & Hd & Hle & _ & Hn);
      [lia | lia | done | | rewrite length_app; simpl; lia |].
    { intros h Hin. rewrite elem_of_union, elem_of_singleton in Hin. destruct Hin as [->|Hin]; [lia|].
      specialize (Hseen h Hin). lia. }
    exists j, (locator_entry j b :: rest). rewrite length_app in Hn. cbn [length] in *.
    split_and!; [rewrite He, <- app_assoc; done | econstructor; [done| |exact Hd]; lia | lia | done | lia].
Qed.

Lemma locator_descends blocks :
  linked blocks → blocks ≠ [] →
  ∃ l, block_locator blocks = Some l ∧ descent blocks (length blocks - 1) l ∧ Z.of_nat (length l) <= MAX_LOCATOR_ENTRIES.
Proof.
  intros Hl Hne. unfold block_locator. rewrite bool_decide_false by done.
  assert (0 < length blocks)%nat by (destruct blocks; simpl; [done|lia]).
  destruct (locator_loop_rules (length blocks) blocks (length blocks - 1) 1 ∅ []) as (i & rest & He & Hd & _ & Hi & Hn);
    [done | lia | lia | lia | set_solver | simpl; lia |].
  rewrite Hi in Hd by (simpl; lia). exists rest. replace (Z.of_nat (length blocks) - 1) with (Z.of_nat (length blocks - 1)) by lia.
  rewrite He. split_and!; [done|done|]. unfold MAX_LOCATOR_ENTRIES. simpl in Hn. lia.
Qed.

(** The locator: on a chain whose heights count from zero the loop ends, and
    it gives at most 32 entries of that chain, from the tip strictly downwards
    to the genesis. *)
Theorem block_locator_spec blocks :
  linked blocks → blocks ≠ [] →
  ∃ l, block_locator blocks = Some l ∧ descent blocks (length blocks - 1) l ∧ Z.of_nat (length l) <= MAX_LOCATOR_ENTRIES.
Proof. apply locator_descends. Qed.

(** ** The ancestor *)

Lemma on_local_chain_entry theirs i b :
  on_local_chain theirs (locator_entry i b) = true ↔
  ∃ b', theirs !! i = Some b' ∧ block_hash b' = block_hash b.
Proof.
  unfold on_local_chain, locator_entry. cbn [le_height le_hash]. rewrite Nat2Z.id.
  destruct (theirs !! i) as [b'|]; [|naive_solver]. rewrite bool_decide_eq_true. split.
  - intros He%hash_to_hex_inj. by exists b'.
  - by intros (b0 & [= <-] & ->).
Qed.

(** Both chains have at height [i] a block of the same hash. *)
Definition common_at (ours theirs : list Block) (i : nat) : Prop :=
  ∃ b b', ours !! i = Some b ∧ theirs !! i = Some b' ∧ block_hash b = block_hash b'.

Lemma find_ancestor ours theirs k l :
  descent ours k l → common_at ours theirs 0 →
  ∃ i, (List.find (on_local_chain theirs) l) = Some (mkLocator (Z.of_nat i) (default "" (hash_to_hex ∘ block_hash <$> ours !! i))) ∧
    common_at ours theirs i ∧ (i <= k)%nat ∧ (common_at ours theirs k → i = k).
Proof.
  intros Hd (b0 & b0' & Hg & Hg' & Hh). induction Hd as [b Hb|i j b rest Hb Hij Hd IH]; cbn [List.find].
  - exists 0%nat. rewrite Hb in Hg. injection Hg as ->.
    rewrite (proj2 (on_local_chain_entry theirs 0 b0)) by (by exists b0').
    rewrite Hb. split_and!; [done | by exists b0, b0' | done | done].
  - destruct (on_local_chain theirs (locator_entry i b)) eqn:E.
    + apply on_local_chain_entry in E as (b' & Hb' & He). exists i. rewrite Hb.
      split_and!; [done | by exists b, b' | done | done].
    + destruct IH as (n & Hf & Hc & Hn & _). exists n. split_and!; [done|done|lia|].
      intros (b1 & b1' & H1 & H1' & He). rewrite Hb in H1. injection H1 as <-.
      rewrite (proj2 (on_local_chain_entry theirs i b)) in E; [done|]. by exists b1'.
Qed.

Lemma ancestor_answered env node theirs ours local hello l :
  stored_blocks env node = Ok theirs → linked ours → ours ≠ [] → common_at ours theirs 0 →
  block_locator ours = Some l →
  ∃ i, answer env node local (ReqFindAncestor hello l) = CommonAncestor local (Z.of_nat i) ∧
    common_at ours theirs i ∧ (common_at ours theirs (length ours - 1) → i = (length ours - 1)%nat).
Proof.
  intros Hs Hl Hne Hg Hloc. unfold answer. rewrite Hs.
  destruct (locator_descends ours Hl Hne) as (l' & He & Hd & _). rewrite Hloc in He. injection He as <-.
  destruct (find_ancestor ours theirs _ l Hd Hg) as (i & -> & Hc & _ & Htip). by exists i.
Qed.

(** Ancestor discovery always succeeds between nodes of one genesis: the peer
    answers a height at which both chains have a block of the same hash, and
    when the sender's whole chain is on the peer's, it answers the sender's
    tip, so that only missing blocks are downloaded. *)
Theorem common_ancestor_answered env node theirs ours local hello l :
  stored_blocks env node = Ok theirs → linked ours → ours ≠ [] → common_at ours theirs 0 →
  block_locator ours = Some l →
  ∃ i, answer env node local (ReqFindAncestor hello l) = CommonAncestor local (Z.of_nat i) ∧
    common_at ours theirs i ∧ (common_at ours theirs (length ours - 1) → i = (length ours - 1)%nat).
Proof. apply ancestor_answered. Qed.

End locator.

(** The fields of a changed service state. *)
Ltac px := cbn [on_peers on_branches on_status on_reputation send px_node px_peers px_branches px_status px_reputation px_sent
  sy_resume_height sy_target_hash sy_syncing remember_sync_target clear_sync_target set_resume].

(** ** Texts of numbers and hashes *)

Section texts.
Context `{PrimitivesOk}.

Lemma parse_work z : 0 <= z <= umax 128 → parse_chain_work (uint_to_string z) = Ok z.
Proof.
  intros Hz. unfold parse_chain_work, parse_uint, uint_to_string. rewrite str_bytes_of_bytes.
  by rewrite parse_uint_bytes_dec.
Qed.

Lemma header_hash_text h :
  hash_wf h → str_len (hash_to_hex h) = 64 ∧ forallb hexdigit (str_bytes (hash_to_hex h)) = true.
Proof.
  intros Hh%hash_to_hex_valid. unfold valid_hash in Hh. apply andb_true_iff in Hh as [Hl Hf].
  apply Z.eqb_eq in Hl. split; [done|]. apply forallb_is_Forall. apply forallb_is_Forall in Hf.
  eapply Forall_impl; [exact Hf|]. intros b Hb. cbn beta in Hb. unfold hexdigit. cbv zeta.
  destruct (_ && _); [done|]. cbn [orb] in *. by rewrite Hb, orb_true_r.
Qed.

Lemma wrapping_succ z : 0 <= z < 2 ^ 63 → wrapping_add 64 z 1 = z + 1.
Proof. intros Hz. unfold wrapping_add, uwrap. rewrite Z.mod_small; lia. Qed.

(** ** Prefixes of a chain *)

Lemma chain_step n c k b :
  chain_reachable n c → ch_blocks c !! k = Some b →
  ∃ now ck ck', chain_reachable n ck ∧ ch_blocks ck = take k (ch_blocks c) ∧
    append_block now b ck = (Ok (), ck') ∧ block_wf b ∧ ch_blocks ck' = take (S k) (ch_blocks c).
Proof.
  induction 1 as [|now b' c c' Hc IH Hwf Ha]; [done|].
  pose proof Ha as (_ & x & st' & _ & ->)%append_block_Ok. cbn [ch_blocks].
  intros [Hk|[Hk ->]]%lookup_snoc_Some.
  - destruct Hk as [Hk Hb]. destruct (IH Hb) as (now' & ck & ck' & H1 & H2 & H3 & H4 & H5).
    exists now', ck, ck'. rewrite !take_app_le by lia. done.
  - subst k. exists now, c, (mkChain (ch_network c) (ch_blocks c ++ [b]) st').
    cbn [ch_blocks]. rewrite take_app_length, take_ge by (rewrite length_app; simpl; lia). done.
Qed.

(** Heights are positions, so a height cuts the list. *)
Lemma from_height_drop bs k : linked bs → from_height (Z.of_nat k) bs = drop k bs.
Proof.
  intros [Hh _]. unfold from_height.
  enough (∀ bs off, (∀ i b, bs !! i = Some b → bh_height (header b) = Z.of_nat (off + i)) →
    filter (λ b, Z.of_nat k <= bh_height (header b)) bs = drop (k - off) bs) as Hgen.
  { rewrite (Hgen bs 0%nat Hh). f_equal. lia. }
  clear. induction bs as [|b bs IH]; intros off Hh; [by rewrite drop_nil|].
  pose proof (Hh 0%nat b eq_refl) as Hb. rewrite filter_cons.
  rewrite (IH (S off)) by (intros i x Hx; rewrite (Hh (S i) x Hx); f_equal; lia).
  case_decide.
  - replace (k - off)%nat with 0%nat by lia. replace (k - S off)%nat with 0%nat by lia. by rewrite !drop_0.
  - replace (k - off)%nat with (S (k - S off)) by lia. done.
Qed.


(** The summaries of a linked stretch pass the header check. *)
Lemma summaries_pass bs i p m :
  linked bs → Z.of_nat (length bs) <= 2 ^ 63 → bs !! i = Some p →
  is_ok (try_fold check_header (hash_to_hex (block_hash p), Z.of_nat (S i)) (header_summary <$> take m (drop (S i) bs))) = true.
Proof.
  intros Hl Hlen. revert i p. induction m as [|m IH]; intros i p Hp; [done|].
  destruct (drop (S i) bs) as [|b rest] eqn:Ed; [done|].
  assert (bs !! S i = Some b) as Hb.
  { pose proof (lookup_drop bs (S i) 0) as Hd. rewrite Ed, Nat.add_0_r in Hd. by symmetry. }
  assert (rest = drop (S (S i)) bs) as -> by (rewrite (drop_S _ b (S i) Hb) in Ed; by injection Ed).
  cbn [take]. rewrite fmap_cons. cbn [try_fold].
  assert (check_header (hash_to_hex (block_hash p), Z.of_nat (S i)) (header_summary b)
    = Ok (hash_to_hex (block_hash b), Z.of_nat (S (S i)))) as ->; [|by apply IH].
  destruct (header_hash_text _ (block_hash_wf b)) as [Ht Hx].
  unfold check_header, header_summary. cbn [hd_height hd_previous_hash hd_hash].
  rewrite (ln_height _ Hl _ _ Hb), Z.eqb_refl, (ln_parent _ Hl i p b Hp Hb), bool_decide_true by done.
  rewrite Ht, Hx. cbn [negb orb Z.eqb Pos.eqb].
  apply lookup_lt_Some in Hb. unfold saturating_add, umax. do 2 f_equal. lia.
Qed.

End texts.

(** * Two nodes *)

Section sync.
Context `{PrimitivesOk}.
Context (env env' : NodeEnv) (config config' : NetworkConfig).
Context (Hconfig : load_network_config (file_network (ne_files env)) = Ok config).
Context (Hdir : ensure_network_storage_path (cfg_network config) (ne_dir env) = Ok ()).
(** The peer runs the same network. *)
Context (Hnet : cfg_network config' = cfg_network config) (Hid : cfg_network_id config' = cfg_network_id config).
Context (Hmagic : cfg_chain_magic_hex config' = cfg_chain_magic_hex config).
Context (miner miner' : option LocalMiner) (me p : string) (ps : P2pState) (c' : Chain).
Context (Hpeer : node_ok env' config' (px_node ps) c').
Context (Hdiff : Forall (λ b, bh_difficulty (header b) < 128) (ch_blocks c')).
Context (Hwork : total_work (ch_blocks c') <= umax 128) (Hlen : Z.of_nat (length (ch_blocks c')) <= 2 ^ 62).
Context (Hdistinct : NoDup (block_hash <$> ch_blocks c')).
(** What libp2p does with the messages. *)
Context (wire : SyncWire).

#[local] Abbreviation theirs := (ch_blocks c').
#[local] Abbreviation N := (length (ch_blocks c')).

(** What the peer answers. *)
Definition honest (q : SyncRequest) : SyncResponse := (handle_sync_request env' config' miner' me q ps).1.

(** The next message of the exchange: the peer's answer to the last request, or
    the failure of it. *)
Definition round (now took : Z) (io : FileInputs) (s : P2pState) : P2pState :=
  match last (px_sent s) with
  | Some (id, q) => exchange env config miner now wire took io id q (honest q) s
  | None => s
  end.

(** The request and its honest answer are within the limits of the codec. *)
Definition fits (q : SyncRequest) : Prop :=
  sw_request_len wire q <= REQUEST_SIZE_MAXIMUM ∧ sw_response_len wire (honest q) <= RESPONSE_SIZE_MAXIMUM.
Definition in_time (took : Z) : Prop := took < REQUEST_TIMEOUT_SECONDS.

Definition tip_text (bs : list Block) : string := match last bs with Some b => hash_to_hex (block_hash b) | None => "" end.
Definition genesis_text (bs : list Block) : string := match head bs with Some b => hash_to_hex (block_hash b) | None => "" end.
Definition hello_for (cfg : NetworkConfig) (m : option LocalMiner) (bs : list Block) : PeerHello :=
  mkHello P2P_PROTOCOL_VERSION (cfg_network_id cfg) (cfg_chain_magic_hex cfg) (genesis_text bs)
    (Z.of_nat (length bs) - 1) (tip_text bs) (uint_to_string (total_work bs)) true (is_some m) (from_option lm_hashrate_hs 0 m).

Lemma hello_of e cfg m node c :
  node_ok e cfg node c → Forall (λ b, bh_difficulty (header b) < 128) (ch_blocks c) → total_work (ch_blocks c) <= umax 128 →
  local_hello e cfg m node = Ok (hello_for cfg m (ch_blocks c)).
Proof.
  intros Hs Hd Hw. unfold local_hello, stored_blocks, load_blocks. rewrite (load_node e cfg node c false Hs).
  cbn [mbind result_bind]. unfold hello_for, tip_text, genesis_text.
  destruct (last (ch_blocks c)) as [t|] eqn:Et; [|apply last_None in Et; by destruct (no_initialized _ _ _ _ Hs)].
  cbn [ok_or mbind result_bind].
  assert (cumulative_work (ch_blocks c) = Ok (total_work (ch_blocks c))) as ->.
  { apply cumulative_work_Ok; [exact (chain_u8 _ c (no_chain _ _ _ _ Hs))|done]. }
  cbn [map_err mbind result_bind]. rewrite last_lookup in Et.
  rewrite (ln_height _ (chain_linked _ c (no_chain _ _ _ _ Hs)) _ _ Et).
  apply lookup_lt_Some in Et. by replace (Z.of_nat (pred (length (ch_blocks c)))) with (Z.of_nat (length (ch_blocks c)) - 1) by lia.
Qed.

(** ** Stages *)

(** The files hold the first [j] blocks of the peer's chain. *)
Definition at_prefix (j : nat) (s : P2pState) : Prop :=
  ∃ cj, node_ok env config (px_node s) cj ∧ ch_blocks cj = take j theirs.

Definition asked (q : SyncRequest) (s : P2pState) : Prop := last (px_sent s) = Some (p, q).

Abbreviation ours j := (hello_for config miner (take j theirs)).
Abbreviation remote := (hello_for config' miner' theirs).

Lemma head_take (j : nat) (bs : list Block) : (1 <= j)%nat → head (take j bs) = head bs.
Proof. destruct j; [lia|]. by destruct bs. Qed.

Lemma genesis_text_take j : (1 <= j)%nat → genesis_text (take j theirs) = genesis_text theirs.
Proof. intros Hj. unfold genesis_text. by rewrite head_take. Qed.

Lemma work_take j : total_work (take j theirs) <= total_work theirs.
Proof.
  pose proof (total_work_nonneg (drop j theirs)). rewrite <- (take_drop j theirs) at 2. rewrite total_work_app. lia.
Qed.

Lemma work_take_lt j : (j < N)%nat → total_work (take j theirs) < total_work theirs.
Proof.
  intros Hj. destruct (lookup_lt_is_Some_2 theirs j Hj) as [b Hb].
  rewrite <- (take_drop j theirs) at 2. rewrite total_work_app, (drop_S _ _ _ Hb), total_work_cons.
  pose proof (total_work_nonneg (drop (S j) theirs)).
  pose proof (chain_u8 _ _ (no_chain _ _ _ _ Hpeer)) as Hu. rewrite Forall_lookup in Hu. destruct (Hu j b Hb) as [Hu0 _].
  assert (0 < work_of b) by (unfold work_of; lia). lia.
Qed.

Lemma prefix_hello j s : at_prefix j s → local_hello env config miner (px_node s) = Ok (ours j).
Proof.
  intros (cj & Hs & Hbs). rewrite <- Hbs. apply hello_of; [done | rewrite Hbs; by apply Forall_take|].
  rewrite Hbs. etrans; [apply work_take | done].
Qed.

Lemma prefix_stored j s : at_prefix j s → stored_blocks env (px_node s) = Ok (take j theirs).
Proof.
  intros (cj & Hs & Hbs). unfold stored_blocks, load_blocks. by rewrite (load_node env config _ cj false Hs), Hbs.
Qed.

Lemma prefix_pos j s : at_prefix j s → (1 <= j)%nat.
Proof. intros (cj & Hs & Hbs). pose proof (no_initialized _ _ _ _ Hs) as Hne. rewrite Hbs in Hne. destruct j; [done|lia]. Qed.

Lemma prefix_genesis j s : at_prefix j s → local_genesis_hash env (px_node s) = Ok (genesis_text theirs).
Proof.
  intros Hs. unfold local_genesis_hash. rewrite (prefix_stored j s Hs). cbn [mbind result_bind].
  rewrite head_take by (by eapply prefix_pos). unfold genesis_text.
  destruct (head theirs) as [b|] eqn:E; [done|]. pose proof (no_initialized _ _ _ _ Hpeer). by destruct theirs.
Qed.

Lemma hello_valid cfg cfg' m bs g :
  cfg_network_id cfg' = cfg_network_id cfg → cfg_chain_magic_hex cfg' = cfg_chain_magic_hex cfg → genesis_text bs = g →
  validate_peer_hello cfg g (hello_for cfg' m bs) = Ok ().
Proof.
  intros Hi Hm Hg. unfold validate_peer_hello, validate_p2p_handshake, hello_for.
  cbn [ph_protocol_version ph_network_id ph_chain_magic_hex ph_genesis_hash hs_network_id hs_chain_magic_hex].
  rewrite Z.eqb_refl, !bool_decide_true by done. done.
Qed.

Lemma accept_remote j s :
  at_prefix j s → accept_hello env config p remote s = (Ok (), on_peers (update_validated_peer p remote) s).
Proof.
  intros Hs. unfold accept_hello. rewrite sr_get_bind, sr_lift_bind, (prefix_genesis j s Hs), sr_lift_bind.
  by rewrite hello_valid.
Qed.

(** The peer accepts the node's hello. *)
Lemma honest_answer j q :
  (1 <= j)%nat → request_hello q = ours j → honest q = answer env' (px_node ps) remote q.
Proof.
  intros Hj Hq. unfold honest, handle_sync_request.
  pose proof (no_initialized _ _ _ _ Hpeer) as Hne.
  assert (local_genesis_hash env' (px_node ps) = Ok (genesis_text theirs)) as ->.
  { unfold local_genesis_hash, stored_blocks, load_blocks. rewrite (load_node env' config' _ c' false Hpeer).
    cbn [mbind result_bind]. unfold genesis_text. by destruct theirs. }
  rewrite Hq, (hello_valid config' config miner (take j theirs)) by (done || by rewrite genesis_text_take).
  cbv zeta. change (px_node (on_peers _ ps)) with (px_node ps).
  by rewrite (hello_of env' config' miner' (px_node ps) c' Hpeer Hdiff Hwork).
Qed.

Lemma more_work j : (j < N)%nat → remote_has_more_work remote (ours j) = Ok true.
Proof.
  intros Hj. unfold remote_has_more_work, hello_for. cbn [ph_cumulative_work].
  pose proof (work_take j). pose proof (total_work_nonneg (take j theirs)).
  rewrite !parse_work by lia. cbn [mbind result_bind]. f_equal. rewrite Z.gtb_ltb. apply Z.ltb_lt. by apply work_take_lt.
Qed.

(** The round in terms of the handler. *)
Lemma round_Ok now took io q s s' :
  fits q → in_time took → asked q s →
  handle_sync_response env config miner now io p (honest q) s = (Ok (), s') → round now took io s = s'.
Proof.
  intros [Hq Hr] Ht Ha Hh. unfold round. rewrite Ha. unfold exchange.
  rewrite (proj2 (Z.leb_le _ _) Hq), (proj2 (Z.leb_le _ _) Hr), (proj2 (Z.ltb_lt _ _) Ht). cbn [andb].
  unfold receive_response. by rewrite Hh.
Qed.

(** An answer over the limit is a failure of the request: the branch is dropped and
    the files stay. *)
Lemma round_oversized now took io q s :
  asked q s → RESPONSE_SIZE_MAXIMUM < sw_response_len wire (honest q) →
  round now took io s = outbound_failure now p (sw_failure wire q) s.
Proof.
  intros Ha Hr. unfold round. rewrite Ha. unfold exchange. by rewrite (proj2 (Z.leb_gt _ _) Hr), andb_false_r.
Qed.

Lemma failure_keeps now m s :
  px_node (outbound_failure now p m s) = px_node s ∧ px_sent (outbound_failure now p m s) = px_sent s ∧
  px_branches (outbound_failure now p m s) !! p = None.
Proof.
  unfold outbound_failure. cbv zeta. destruct (_ || _); split_and!; try reflexivity;
    unfold forget_peer; px; apply lookup_delete_eq.
Qed.

Lemma tip_differs j : (1 <= j < N)%nat → tip_text theirs ≠ tip_text (take j theirs).
Proof.
  intros Hj. unfold tip_text. rewrite !last_lookup, length_take, lookup_take, Nat.min_l by lia.
  destruct (decide (pred j < j)%nat); [|lia].
  destruct (lookup_lt_is_Some_2 theirs (pred N)) as [a Ha]; [lia|]. destruct (lookup_lt_is_Some_2 theirs (pred j)) as [b Hb]; [lia|].
  rewrite Ha, Hb. intros Heq%hash_to_hex_inj.
  assert (pred N = pred j); [|lia]. eapply (NoDup_lookup (block_hash <$> theirs)); [done| |];
    rewrite list_lookup_fmap; [by rewrite Ha | by rewrite Hb, Heq].
Qed.

(** An interrupted synchronisation left no height above the stored chain. *)
Definition resumes_by (j : nat) (s : P2pState) : Prop := ∀ r, sy_resume_height (px_status s) = Some r → r <= Z.of_nat j.

Record hello_stage (j : nat) (s : P2pState) : Prop := {
  hs_prefix : at_prefix j s;
  hs_resume : resumes_by j s;
  hs_asked : asked (ReqHello (ours j)) s;
}.

Record find_stage (j : nat) (s : P2pState) : Prop := {
  fs_prefix : at_prefix j s;
  fs_resume : resumes_by j s;
  fs_asked : ∃ l, block_locator (take j theirs) = Some l ∧ asked (ReqFindAncestor (ours j) l) s;
}.

(** The branch that starts at height [j]: [got] headers, the next height asked for. *)
Definition branch_at (j : nat) (next : Z) (verified : bool) (headers : list HeaderSummary) : PendingBranch :=
  mkBranch remote (Z.of_nat j - 1) true next verified headers [].

Record headers_stage (j k : nat) (s : P2pState) : Prop := {
  hd_prefix : at_prefix j s;
  hd_resume : resumes_by j s;
  hd_branch : px_branches s !! p = Some (branch_at j (Z.of_nat k) false (header_summary <$> take (k - j) (drop j theirs)));
  hd_asked : asked (ReqHeaders (ours j) (Z.of_nat k) MAX_SYNC_HEADERS) s;
}.

Record blocks_stage (j k : nat) (s : P2pState) : Prop := {
  bl_prefix : at_prefix k s;
  bl_branch : px_branches s !! p = Some (branch_at j (Z.of_nat k) true (header_summary <$> drop j theirs));
  bl_asked : asked (ReqBlocks (ours k) (Z.of_nat k) MAX_SYNC_BLOCKS) s;
}.

Record synced (s : P2pState) : Prop := {
  sn_node : node_ok env config (px_node s) c';
  sn_branch : px_branches s !! p = None;
  sn_syncing : sy_syncing (px_status s) = false;
  sn_target : sy_target_hash (px_status s) = None;
}.

Lemma asked_send q s : asked q (send p q s).
Proof. unfold asked, send. px. apply last_snoc. Qed.

(** ** The rounds *)

Lemma linked_theirs : linked theirs.
Proof. exact (chain_linked _ _ (no_chain _ _ _ _ Hpeer)). Qed.

Lemma prefix_linked j : linked (take j theirs).
Proof. pose proof linked_theirs as Hl. rewrite <- (take_drop j theirs) in Hl. by eapply linked_app_l. Qed.

Lemma prefix_nonempty j s : at_prefix j s → take j theirs ≠ [].
Proof. intros (cj & Hs & Hbs). rewrite <- Hbs. by apply (no_initialized _ _ _ _ Hs). Qed.

Lemma resumed_by j s remote' : resumes_by j s → resumed (px_status s) remote' (Z.of_nat j) = Z.of_nat j.
Proof.
  intros Hr. unfold resumed. case_bool_decide; [|done]. destruct (sy_resume_height _) as [r|] eqn:E; [|done].
  apply Hr in E. by rewrite Z.gtb_ltb, (proj2 (Z.ltb_ge _ _)).
Qed.

Lemma hello_round now took io j s :
  fits (ReqHello (ours j)) → in_time took →
  (j < N)%nat → hello_stage j s → find_stage j (round now took io s).
Proof.
  intros Hfits Htook Hj [Hp Hr Ha]. pose proof (prefix_pos j s Hp) as Hpos.
  destruct (locator_descends _ (prefix_linked j) (prefix_nonempty j s Hp)) as (l & Hl & _).
  erewrite round_Ok; [| exact Hfits | exact Htook | exact Ha |].
  2: { rewrite (honest_answer j (ReqHello (ours j)) Hpos eq_refl). cbn [answer handle_sync_response]. unfold on_hello.
    rewrite (sr_bind_step _ _ _ _ _ (accept_remote j s Hp)), sr_modify_bind, sr_get_bind, sr_lift_bind. px.
    rewrite (prefix_hello j s Hp), sr_lift_bind, (more_work j Hj).
    cbn [hello_for ph_best_hash]. rewrite bool_decide_false by (by apply tip_differs). cbn [negb andb].
    rewrite sr_modify_bind, sr_lift_bind. unfold node_locator. rewrite (prefix_stored j s Hp). cbn [mbind result_bind].
    rewrite Hl. cbn [default]. reflexivity. }
  split; [exact Hp | exact Hr | exists l; split; [done | apply asked_send]].
Qed.

Lemma find_round now took io j s :
  (∀ l, block_locator (take j theirs) = Some l → fits (ReqFindAncestor (ours j) l)) → in_time took →
  (j < N)%nat → find_stage j s → headers_stage j j (round now took io s).
Proof.
  intros Hfits Htook Hj [Hp Hr (l & Hl & Ha)]. pose proof (prefix_pos j s Hp) as Hpos.
  assert (length (take j theirs) = j) as Hlj by (rewrite length_take; lia).
  assert (∀ i, (i < j)%nat → common_at (take j theirs) theirs i) as Hcommon.
  { intros i Hi. destruct (lookup_lt_is_Some_2 theirs i) as [b Hb]; [lia|]. exists b, b.
    split; [|done]. rewrite lookup_take. by destruct (decide (i < j)%nat). }
  destruct (ancestor_answered env' (px_node ps) theirs (take j theirs) remote (ours j) l) as (i & Hans & Hc & Htip).
  { unfold stored_blocks, load_blocks. by rewrite (load_node env' config' _ c' false Hpeer). }
  { apply prefix_linked. } { by eapply prefix_nonempty. } { apply Hcommon. lia. } { done. }
  rewrite Hlj in Htip. specialize (Htip (Hcommon (j - 1)%nat ltac:(lia))). subst i.
  assert (saturating_add 64 (Z.of_nat (j - 1)) 1 = Z.of_nat j) as Hsat.
  { unfold saturating_add, umax. lia. }
  erewrite round_Ok; [| exact (Hfits l Hl) | exact Htook | exact Ha |].
  2: { rewrite (honest_answer j (ReqFindAncestor (ours j) l) Hpos eq_refl), Hans. cbn [handle_sync_response]. unfold on_ancestor.
    rewrite (sr_bind_step _ _ _ _ _ (accept_remote j s Hp)), sr_get_bind, sr_lift_bind. px.
    rewrite (prefix_hello j s Hp), sr_lift_bind, (more_work j Hj). cbn [negb].
    rewrite sr_modify_bind, sr_lift_bind, (prefix_stored j s Hp), Nat2Z.id.
    rewrite lookup_take. destruct (decide (j - 1 < j)%nat); [|lia].
    destruct (lookup_lt_is_Some_2 theirs (j - 1)) as [b Hb]; [lia|]. rewrite Hb. change (is_none (Some b)) with false. cbv iota.
    rewrite sr_get_bind. cbv zeta. rewrite Hsat.
    match goal with |- context [resumed (px_status ?t) ?h _] =>
      rewrite (resumed_by j t h) by (intros r; px; exact (Hr r)) end.
    rewrite sr_modify_bind. unfold request_branch_headers, branch_of.
    unfold mbind at 1, state_result_bind at 1. px. rewrite lookup_insert_eq. cbn [ok_or].
    rewrite sr_get_bind, sr_lift_bind. px. rewrite (prefix_hello j s Hp). reflexivity. }
  split; px; [exact Hp | exact Hr | | ].
  - rewrite lookup_insert_eq. unfold branch_at. rewrite Nat.sub_diag, take_0.
    replace (Z.of_nat (j - 1)) with (Z.of_nat j - 1) by lia. cbn [hello_for ph_best_height fmap].
    rewrite Hlj, Z.eqb_refl. done.
  - cbn [bn_next_height]. apply asked_send.
Qed.

Lemma last_summary j k :
  (j < k <= N)%nat → ∃ t, theirs !! (k - 1)%nat = Some t ∧
    last (header_summary <$> take (k - j) (drop j theirs)) = Some (header_summary t).
Proof.
  intros Hk. destruct (lookup_lt_is_Some_2 theirs (k - 1)) as [t Ht]; [lia|]. exists t. split; [done|].
  rewrite last_lookup, list_lookup_fmap, length_fmap, length_take, length_drop, lookup_take.
  rewrite Nat.min_l by lia. destruct (decide (pred (k - j) < k - j)%nat); [|lia].
  rewrite lookup_drop. replace (j + pred (k - j))%nat with (k - 1)%nat by lia. by rewrite Ht.
Qed.

Lemma summaries_app j k m :
  (j <= k)%nat → (header_summary <$> take (k - j) (drop j theirs)) ++ (header_summary <$> take m (drop k theirs))
    = header_summary <$> take (k + m - j) (drop j theirs).
Proof.
  intros Hk. rewrite <- fmap_app. f_equal.
  replace (drop k theirs) with (drop (k - j) (drop j theirs)) by (rewrite drop_drop; f_equal; lia).
  rewrite take_take_drop. f_equal. lia.
Qed.

Lemma take_beyond j k m : (j <= k <= N)%nat → take (k + m - j) (drop j theirs) = take ((k + m) `min` N - j) (drop j theirs).
Proof.
  intros Hk. destruct (decide (k + m <= N)%nat); [do 2 f_equal; lia|].
  rewrite !take_ge; [done | rewrite length_drop; lia..].
Qed.

(** The honest peer's headers are accepted. *)
Lemma headers_valid j k m node :
  (1 <= j <= k)%nat → (k < N)%nat → (1 <= m)%nat → stored_blocks env node = Ok (take j theirs) →
  validate_header_chain env (branch_at j (Z.of_nat k) false (header_summary <$> take (k - j) (drop j theirs)))
    (header_summary <$> take m (drop k theirs)) node = Ok ().
Proof.
  intros Hj Hk Hm Hst. unfold validate_header_chain.
  destruct (lookup_lt_is_Some_2 theirs k Hk) as [b Hb].
  rewrite bool_decide_false.
  2: { rewrite (drop_S _ _ _ Hb). destruct m; [lia|]. done. }
  rewrite Hst. cbn [mbind result_bind branch_at bn_headers bn_ancestor_height].
  destruct (lookup_lt_is_Some_2 theirs (k - 1)) as [t Ht]; [lia|].
  set (prev := match last _ with None => _ | Some h => Ok (hd_hash h) end).
  set (expected := match last _ with None => _ | Some h => wrapping_add 64 (hd_height h) 1 end).
  assert (prev = Ok (hash_to_hex (block_hash t)) ∧ expected = Z.of_nat k) as [-> ->].
  { unfold prev, expected. destruct (decide (j = k)) as [->|Hne].
    - rewrite Nat.sub_diag, take_0. cbn [fmap last list_fmap]. rewrite lookup_take.
      replace (Z.to_nat (Z.of_nat k - 1)) with (k - 1)%nat by lia.
      destruct (decide (k - 1 < k)%nat); [|lia]. rewrite Ht. split; [done|].
      rewrite wrapping_succ; lia.
    - destruct (last_summary j k) as (t' & Ht' & ->); [lia|]. rewrite Ht in Ht'. injection Ht' as <-.
      cbn [header_summary hd_hash hd_height]. rewrite (ln_height _ linked_theirs _ _ Ht). split; [done|].
      rewrite wrapping_succ; lia. }
  cbn [mbind result_bind]. cbv zeta.
  pose proof (summaries_pass theirs (k - 1) t m linked_theirs ltac:(lia) Ht) as Hpass.
  replace (S (k - 1)) with k in Hpass by lia. by destruct (try_fold _ _ _).
Qed.

Lemma request_headers_Ok j b s :
  at_prefix j s → px_branches s !! p = Some b →
  request_branch_headers env config miner p s = (Ok (), send p (ReqHeaders (ours j) (bn_next_height b) MAX_SYNC_HEADERS) s).
Proof.
  intros Hp Hb. unfold request_branch_headers, branch_of. unfold mbind at 1, state_result_bind at 1.
  rewrite Hb. cbn [ok_or]. by rewrite sr_get_bind, sr_lift_bind, (prefix_hello j s Hp).
Qed.

Lemma request_chunk_Ok j b s :
  at_prefix j s → px_branches s !! p = Some b →
  request_branch_chunk env config miner p s = (Ok (), send p (ReqBlocks (ours j) (bn_next_height b) MAX_SYNC_BLOCKS) s).
Proof.
  intros Hp Hb. unfold request_branch_chunk, branch_of. unfold mbind at 1, state_result_bind at 1.
  rewrite Hb. cbn [ok_or]. by rewrite sr_get_bind, sr_lift_bind, (prefix_hello j s Hp).
Qed.

Lemma honest_headers j k : (1 <= j)%nat →
  honest (ReqHeaders (ours j) (Z.of_nat k) MAX_SYNC_HEADERS) = RespHeaders remote (header_summary <$> take 512 (drop k theirs)).
Proof.
  intros Hj. rewrite (honest_answer j (ReqHeaders (ours j) (Z.of_nat k) MAX_SYNC_HEADERS) Hj eq_refl). cbn [answer].
  unfold stored_blocks, load_blocks. rewrite (load_node env' config' _ c' false Hpeer). cbn [unwrap_or].
  by rewrite (from_height_drop _ k linked_theirs).
Qed.

Lemma headers_round now took io j k s :
  fits (ReqHeaders (ours j) (Z.of_nat k) MAX_SYNC_HEADERS) → in_time took →
  (j <= k < N)%nat → headers_stage j k s →
  if decide (k + 512 < N)%nat then headers_stage j (k + 512) (round now took io s)
  else blocks_stage j j (round now took io s).
Proof.
  intros Hfits Htook Hk [Hp Hr Hb Ha]. pose proof (prefix_pos j s Hp) as Hpos. set (k' := Nat.min (k + 512) N).
  destruct (last_summary j k') as (t & Ht & Hlast); [lia|].
  pose proof (headers_valid j k 512 (px_node s) ltac:(lia) ltac:(lia) ltac:(lia) (prefix_stored j s Hp)) as Hvalid.
  set (got := header_summary <$> take (k - j) (drop j theirs)) in *.
  set (all := header_summary <$> take (k' - j) (drop j theirs)) in *.
  assert (got ++ (header_summary <$> take 512 (drop k theirs)) = all) as Happ.
  { unfold got, all. rewrite summaries_app by lia. unfold k'. by rewrite <- take_beyond by lia. }
  set (b := branch_at j (Z.of_nat k) false got) in *.
  set (b' := branch_at j (Z.of_nat k) false all).
  assert (add_headers (header_summary <$> take 512 (drop k theirs)) b = b') as Hadd.
  { unfold add_headers, b, b'. cbn [branch_at bn_headers bn_remote bn_ancestor_height bn_direct_extension bn_next_height
      bn_headers_verified bn_blocks]. by rewrite Happ. }
  assert (hd_height (header_summary t) = Z.of_nat k' - 1) as Hheight.
  { cbn [header_summary hd_height]. rewrite (ln_height _ linked_theirs _ _ Ht). lia. }
  assert (∀ s', handle_sync_response env config miner now io p (honest (ReqHeaders (ours j) (Z.of_nat k) MAX_SYNC_HEADERS)) s
      = (Ok (), s') → round now took io s = s') as Hround by (intros s'; by apply round_Ok).
  rewrite (honest_headers j k Hpos) in Hround. cbn [handle_sync_response] in Hround. unfold on_headers in Hround.
  rewrite (sr_bind_step _ _ _ _ _ (accept_remote j s Hp)) in Hround.
  unfold branch_of in Hround. unfold mbind at 1, state_result_bind at 1 in Hround. revert Hround. px. rewrite Hb.
  cbn [ok_or]. rewrite (bool_decide_true (_ = _)) by done. cbn [negb]. rewrite sr_get_bind, sr_lift_bind. px.
  rewrite Hvalid. cbv zeta. rewrite sr_modify_bind, Hadd.
  change (bn_headers b') with all. change (bn_remote b') with remote. rewrite Hlast.
  cbn [fmap option_fmap option_map]. rewrite Hheight. cbn [hello_for ph_best_height].
  intros Hround. destruct (decide (k + 512 < N)%nat) as [Hlt|Hge].
  - rewrite (proj2 (Z.ltb_lt _ _)) in Hround by (unfold k'; lia).
    rewrite sr_modify_bind, (wrapping_succ (Z.of_nat k' - 1)) in Hround by (unfold k'; lia).
    erewrite (request_headers_Ok j) in Hround; [|exact Hp | px; apply lookup_insert_eq].
    rewrite (Hround _ eq_refl). assert (k' = k + 512)%nat as Hk' by (unfold k'; lia).
    replace (Z.of_nat k' - 1 + 1) with (Z.of_nat (k + 512)) by lia.
    split; px; [exact Hp | exact Hr | by rewrite lookup_insert_eq, <- Hk' | apply asked_send].
  - rewrite (proj2 (Z.ltb_ge _ _)) in Hround by (unfold k'; lia).
    assert (k' = N) as Hk' by (unfold k'; lia).
    assert (hd_hash (header_summary t) = tip_text theirs) as Htip.
    { unfold tip_text. rewrite last_lookup. replace (pred N) with (k' - 1)%nat by lia. by rewrite Ht. }
    rewrite Htip, (bool_decide_true (_ = _)) in Hround by done. cbn [negb] in Hround.
    rewrite sr_get_bind in Hround. cbv zeta in Hround.
    assert (saturating_add 64 (bn_ancestor_height b') 1 = Z.of_nat j) as Hsat.
    { unfold b'. cbn [branch_at bn_ancestor_height]. unfold saturating_add, umax. lia. }
    rewrite Hsat in Hround. revert Hround.
    match goal with |- context [resumed (px_status ?t) ?h _] =>
      rewrite (resumed_by j t h) by (intros r; px; exact (Hr r)) end.
    intros Hround.
    rewrite sr_modify_bind, sr_modify_bind in Hround.
    erewrite (request_chunk_Ok j) in Hround; [|exact Hp | px; apply lookup_insert_eq].
    rewrite (Hround _ eq_refl). split; px; [exact Hp | | apply asked_send].
    rewrite lookup_insert_eq. do 2 f_equal. unfold set_next, set_verified, b'. cbn [branch_at bn_headers bn_remote
      bn_ancestor_height bn_direct_extension bn_next_height bn_headers_verified bn_blocks].
    unfold branch_at. do 2 f_equal. unfold all. rewrite Hk'. by rewrite take_ge by (rewrite length_drop; lia).
Qed.

(** *** Blocks *)

(** The clock readings are not behind the peer's blocks. *)
Definition late (io : FileInputs) : Prop := ∀ e, let '(clock, t, _) := fi_submit io e in
  clock_ok clock theirs ∧ ∀ b, b ∈ theirs → bh_timestamp (header b) <= Z.min (t + 7200) (umax 64).

Definition node_prefix (k : nat) (node : NodeState) : Prop := ∃ cj, node_ok env config node cj ∧ ch_blocks cj = take k theirs.

Lemma chain_theirs : chain_reachable (cfg_network config) c'.
Proof. rewrite <- Hnet. exact (no_chain _ _ _ _ Hpeer). Qed.

Lemma clock_ok_take clock k : clock_ok clock theirs → clock_ok clock (take k theirs).
Proof. intros Hc i b Hb. apply lookup_take_Some in Hb as [Hb _]. by apply (Hc i). Qed.

Lemma submit_next clock t pool_io k b node :
  node_prefix k node → theirs !! k = Some b → clock_ok clock theirs → bh_timestamp (header b) <= Z.min (t + 7200) (umax 64) →
  ∃ sum node', submit_mined_block env clock t pool_io b node = (Ok sum, node') ∧ node_prefix (S k) node'.
Proof.
  intros (cj & Hs & Hbs) Hb Hclock Ht.
  destruct (chain_step _ c' k b chain_theirs Hb) as (now & ck & ck' & Hck & Hckb & Ha & Hwf & Hck').
  assert (ck = cj) as -> by (eapply chain_det; [exact Hck | apply Hs | congruence]).
  apply (append_block_clock _ t _ _ _ _ (chain_reachable_ok _ _ Hck) Ht Hwf) in Ha.
  destruct (submit_mined_block env clock t pool_io b node) as [r node'] eqn:E.
  apply (submit_mined_rules env config Hconfig Hdir _ _ _ _ _ cj) in E; [|done..]. destruct r as [sum|e].
  - destruct E as (c2 & Ha2 & Hok & _). rewrite Ha in Ha2. injection Ha2 as <-.
    exists sum, node'. split; [done|]. by exists ck'.
  - exfalso. destruct E as [-> Hconv]. rewrite Ha in Hconv. discriminate Hconv; rewrite Hbs.
    + by apply clock_ok_take.
    + rewrite length_take. lia.
    + intros (b2 & Heq & (i & Hi)%list_elem_of_lookup)%list_elem_of_fmap. apply lookup_take_Some in Hi as [Hi Hik].
      assert (i = k); [|lia]. eapply (NoDup_lookup (block_hash <$> theirs)); [done| |];
        rewrite list_lookup_fmap; [by rewrite Hi | by rewrite Hb, <- Heq].
Qed.

Definition with_node (node : NodeState) (s : P2pState) : P2pState :=
  mkP2p node (px_peers s) (px_branches s) (px_status s) (px_reputation s) (px_miners s) (px_published s) (px_sent s)
    (px_gossip s) (px_disconnected s).

Lemma submit_all io m k (f : nat → nat) s :
  late io → at_prefix k s →
  ∃ node', sr_each (submit_nth env io) (imap (λ i b, (f i, b)) (take m (drop k theirs))) s = (Ok (), with_node node' s) ∧
    node_prefix ((k + m) `min` N) node'.
Proof.
  intros Hlate. revert k f s. induction m as [|m IH]; intros k f s Hs.
  { exists (px_node s). rewrite take_0. split; [by destruct s|]. rewrite Nat.add_0_r. unfold node_prefix.
    destruct Hs as (cj & Hc & Hbs). exists cj. split; [done|]. rewrite Hbs.
    destruct (decide (k <= N)%nat); [by rewrite Nat.min_l|]. rewrite !take_ge by lia. done. }
  destruct (decide (k < N)%nat) as [Hk|Hk].
  2: { exists (px_node s). rewrite drop_ge by lia. split; [by destruct s|]. destruct Hs as (cj & Hc & Hbs).
    exists cj. split; [done|]. rewrite Hbs, !take_ge by lia. done. }
  destruct (lookup_lt_is_Some_2 theirs k Hk) as [b Hb]. rewrite (drop_S _ _ _ Hb). cbn [take imap]. cbn [sr_each].
  pose proof (Hlate (f 0%nat)) as Hl. destruct (fi_submit io (f 0%nat)) as [[clock t] pool_io] eqn:Ef. destruct Hl as [Hclock Ht].
  destruct (submit_next clock t pool_io k b (px_node s) Hs Hb Hclock) as (sum & node1 & Hsub & Hn1).
  { apply Ht. by eapply list_elem_of_lookup_2. }
  assert (submit_nth env io (f 0%nat, b) s = (Ok (), with_node node1 s)) as Hone.
  { unfold submit_nth. cbn [fst snd]. rewrite Ef. unfold mbind, state_result_bind, on_files. by rewrite Hsub. }
  destruct (IH (S k) (f ∘ S) (with_node node1 s) Hn1) as (node' & Hrest & Hn').
  exists node'. split.
  - rewrite (sr_bind_step _ _ _ _ _ Hone). exact Hrest.
  - by replace (k + S m)%nat with (S k + m)%nat by lia.
Qed.

Lemma honest_blocks k : (1 <= k)%nat →
  honest (ReqBlocks (ours k) (Z.of_nat k) MAX_SYNC_BLOCKS) = RespBlocks remote (take 128 (drop k theirs)).
Proof.
  intros Hk. rewrite (honest_answer k (ReqBlocks (ours k) (Z.of_nat k) MAX_SYNC_BLOCKS) Hk eq_refl). cbn [answer].
  unfold stored_blocks, load_blocks. rewrite (load_node env' config' _ c' false Hpeer). cbn [unwrap_or].
  by rewrite (from_height_drop _ k linked_theirs).
Qed.

Lemma bodies_match j k m :
  (j <= k)%nat → forallb (body_matches (header_summary <$> drop j theirs)) (take m (drop k theirs)) = true.
Proof.
  intros Hj. apply forallb_is_Forall, Forall_take. rewrite Forall_forall. intros b [i Hi]%list_elem_of_lookup.
  unfold body_matches. apply existsb_exists. exists (header_summary b). split.
  - apply list_elem_of_In, list_elem_of_fmap_2, list_elem_of_lookup. exists (k - j + i)%nat.
    rewrite lookup_drop in Hi |- *. by replace (j + (k - j + i))%nat with (k + i)%nat by lia.
  - cbn [header_summary hd_hash hd_height]. by rewrite bool_decide_true, Z.eqb_refl by done.
Qed.

Lemma blocks_round now took io j k s :
  fits (ReqBlocks (ours k) (Z.of_nat k) MAX_SYNC_BLOCKS) → in_time took →
  (j <= k < N)%nat → late io → blocks_stage j k s →
  if decide (k + 128 < N)%nat then blocks_stage j (k + 128) (round now took io s) else synced (round now took io s).
Proof.
  intros Hfits Htook Hk Hlate [Hp Hb Ha]. pose proof (prefix_pos k s Hp) as Hpos. set (k' := Nat.min (k + 128) N).
  set (chunk := take 128 (drop k theirs)).
  destruct (lookup_lt_is_Some_2 theirs (k' - 1)) as [t Ht]; [lia|].
  assert (last chunk = Some t) as Hlast.
  { unfold chunk. rewrite last_lookup, length_take, length_drop, lookup_take.
    destruct (decide _); [|lia]. rewrite lookup_drop, <- Ht. f_equal. lia. }
  assert (bh_height (header t) = Z.of_nat k' - 1) as Hheight by (rewrite (ln_height _ linked_theirs _ _ Ht); lia).
  assert (∀ s', handle_sync_response env config miner now io p (honest (ReqBlocks (ours k) (Z.of_nat k) MAX_SYNC_BLOCKS)) s
      = (Ok (), s') → round now took io s = s') as Hround by (intros s'; by apply round_Ok).
  rewrite (honest_blocks k Hpos) in Hround. fold chunk in Hround. cbn [handle_sync_response] in Hround.
  unfold on_blocks in Hround. rewrite (sr_bind_step _ _ _ _ _ (accept_remote k s Hp)) in Hround.
  unfold branch_of in Hround. unfold mbind at 1, state_result_bind at 1 in Hround. revert Hround. px. rewrite Hb.
  cbn [ok_or branch_at bn_headers_verified negb bn_remote bn_headers bn_direct_extension].
  rewrite !(bool_decide_true (_ = _)) by done. cbn [negb orb].
  rewrite (bool_decide_false (chunk = [])) by (intros Hn; by rewrite Hn in Hlast).
  rewrite Hlast, Hheight. cbn [hello_for ph_best_height].
  rewrite (Z.gtb_ltb (Z.of_nat k' - 1)), (proj2 (Z.ltb_ge _ _)) by (unfold k'; lia).
  unfold chunk at 1. rewrite bodies_match by lia. cbn [negb]. unfold apply_extension. rewrite Hlast, Hheight. cbv zeta.
  rewrite sr_modify_bind, (wrapping_succ (Z.of_nat k' - 1)) by (unfold k'; lia).
  replace (Z.of_nat k' - 1 + 1) with (Z.of_nat k') by lia. intros Hround.
  destruct (submit_all io 128 k (λ i, i) (on_branches <[p := set_next (Z.of_nat k') (branch_at j (Z.of_nat k) true
    (header_summary <$> drop j theirs))]> (on_peers (update_validated_peer p remote) s)) Hlate Hp) as (node' & Hall & Hn').
  fold chunk in Hall. change (imap (λ i b, (i, b)) chunk) with (imap pair chunk) in Hall. fold k' in Hn'.
  erewrite sr_bind_step in Hround; [|exact Hall]. rewrite sr_modify_bind, sr_get_bind, sr_lift_bind in Hround.
  revert Hround. cbn [set_next branch_at bn_next_height bn_remote].
  match goal with |- (∀ s', (match local_hello _ _ _ (px_node ?st) with _ => _ end) = _ → _) → _ => set (s1 := st) end.
  assert (at_prefix k' s1) as Hp1 by exact Hn'.
  assert (px_branches s1 !! p = Some (branch_at j (Z.of_nat k') true (header_summary <$> drop j theirs))) as Hb1
    by apply lookup_insert_eq.
  rewrite (prefix_hello k' s1 Hp1). cbn [hello_for ph_best_height].
  rewrite length_take, Nat.min_l by lia.
  destruct (decide (k + 128 < N)%nat) as [Hlt|Hge].
  - rewrite (proj2 (Z.ltb_lt _ _)) by (unfold k'; lia). rewrite (request_chunk_Ok k' _ s1 Hp1 Hb1).
    intros Hround. rewrite (Hround _ eq_refl). assert (k' = k + 128)%nat as Hk' by (unfold k'; lia).
    rewrite <- Hk'. split; px; [exact Hp1 | exact Hb1 | apply asked_send].
  - rewrite (proj2 (Z.ltb_ge _ _)) by (unfold k'; lia). assert (k' = N) as Hk' by (unfold k'; lia).
    rewrite Hk', take_ge by lia. cbn [ph_best_hash ph_cumulative_work hello_for].
    rewrite !(bool_decide_true (_ = _)) by done. cbn [andb]. rewrite sr_modify_bind, sr_modify_bind.
    intros Hround. rewrite (Hround _ eq_refl). split; px; [|apply lookup_delete_eq|done..].
    destruct Hp1 as (cj & Hc & Hbs). rewrite Hk', take_ge in Hbs by lia.
    assert (cj = c') as <-; [|exact Hc]. eapply chain_det; [apply Hc | exact chain_theirs | done].
Qed.

(** ** Catching up *)

(** [m] rounds from the [i]-th on. *)
Fixpoint rounds (now took : nat → Z) (io : nat → FileInputs) (i m : nat) (s : P2pState) : P2pState :=
  match m with
  | O => s
  | S m => rounds now took io (S i) m (round (now i) (took i) (io i) s)
  end.

Lemma rounds_add now took io i m n s : rounds now took io i (m + n) s = rounds now took io (i + m) n (rounds now took io i m s).
Proof.
  revert i s. induction m as [|m IH]; intros i s; cbn [Nat.add rounds]; [by rewrite Nat.add_0_r|].
  rewrite IH. by rewrite Nat.add_succ_r.
Qed.

(** Stages that advance by at least one height per round end. *)
Lemma stages_end (stage : nat → P2pState → Prop) (goal : P2pState → Prop) now took io d :
  (1 <= d)%nat →
  (∀ i k s, (k < N)%nat → stage k s →
    if decide (k + d < N)%nat then stage (k + d)%nat (round (now i) (took i) (io i) s)
    else goal (round (now i) (took i) (io i) s)) →
  ∀ k i s, (k < N)%nat → stage k s → ∃ m, (m <= N - k)%nat ∧ goal (rounds now took io i m s).
Proof.
  intros Hd Hround k.
  remember (N - k)%nat as n eqn:Hn. revert k Hn. induction n as [n IH] using lt_wf_ind. intros k -> i s Hk Hs.
  specialize (Hround i k s Hk Hs). destruct (decide (k + d < N)%nat) as [Hlt|Hge].
  - destruct (IH (N - (k + d))%nat ltac:(lia) (k + d)%nat eq_refl (S i) _ Hlt Hround) as (m & Hm & Hg).
    exists (S m). split; [lia | exact Hg].
  - exists 1%nat. split; [lia | exact Hround].
Qed.

(** The requests by which a node with [j] blocks learns of the peer's chain, and
    those by which it fetches the missing blocks. *)
Inductive learns (j : nat) : SyncRequest → Prop :=
| learns_hello : learns j (ReqHello (ours j))
| learns_ancestor l : block_locator (take j theirs) = Some l → learns j (ReqFindAncestor (ours j) l)
| learns_headers i :
    (j + 512 * i < N)%nat → learns j (ReqHeaders (ours j) (Z.of_nat (j + 512 * i)) MAX_SYNC_HEADERS).
Inductive fetches (j : nat) : SyncRequest → Prop :=
| fetches_batch i :
    (j + 128 * i < N)%nat →
    fetches j (ReqBlocks (ours (j + 128 * i)) (Z.of_nat (j + 128 * i)) MAX_SYNC_BLOCKS).

Lemma connected_hello now0 a j s :
  at_prefix j s → resumes_by j s → Z.of_nat (size (px_peers s)) < cfg_max_peers config →
  is_banned now0 p (px_reputation s) = false →
  hello_stage j (connection_established env config miner now0 p a true s).
Proof.
  intros Hp Hr Hmax Hban. unfold connection_established. rewrite (proj2 (Z.leb_gt _ _)) by done. cbn [andb].
  rewrite Hban. cbv zeta.
  match goal with |- hello_stage _ (match local_hello _ _ _ (px_node ?t) with _ => _ end) =>
    assert (px_node t = px_node s ∧ px_status t = px_status s) as [Hn Hst] by (by destruct (px_peers s !! p)); set (s1 := t) in * end.
  rewrite Hn, (prefix_hello j s Hp). split; px.
  - unfold at_prefix. px. by rewrite Hn.
  - intros r. px. rewrite Hst. apply Hr.
  - apply asked_send.
Qed.

(** From the connection to the first request of blocks. *)
Lemma learned now took io now0 a j s :
  at_prefix j s → (j < N)%nat → resumes_by j s →
  Z.of_nat (size (px_peers s)) < cfg_max_peers config → is_banned now0 p (px_reputation s) = false →
  (∀ i, in_time (took i)) → (∀ q, learns j q → fits q) →
  ∃ m, (m <= 2 + (N - j))%nat ∧
    blocks_stage j j (rounds now took io 0 m (connection_established env config miner now0 p a true s)).
Proof.
  intros Hp Hj Hr Hmax Hban Htook Hfits. set (s1 := connection_established _ _ _ _ _ _ _ _).
  assert (hello_stage j s1) as H1 by by apply connected_hello.
  apply (hello_round (now 0%nat) (took 0%nat) (io 0%nat) j s1 (Hfits _ (learns_hello j)) (Htook 0%nat) Hj) in H1.
  apply (find_round (now 1%nat) (took 1%nat) (io 1%nat) j _ (λ l Hl, Hfits _ (learns_ancestor j l Hl)) (Htook 1%nat) Hj) in H1.
  set (s2 := rounds now took io 0 2 s1). change (headers_stage j j s2) in H1.
  destruct (stages_end (λ k s, (∃ i, k = j + 512 * i)%nat ∧ headers_stage j k s) (blocks_stage j j) now took io 512
    ltac:(lia)) with (k := j) (i := 2%nat) (s := s2) as (m & Hm & H2); [|done|split; [exists 0%nat; lia | done]|].
  { intros i k s' Hk [[n ->] Hs'].
    pose proof (headers_round (now i) (took i) (io i) j _ s' (Hfits _ (learns_headers j n Hk)) (Htook i) ltac:(lia) Hs') as Hx.
    destruct (decide _); [split; [exists (S n); lia | exact Hx] | exact Hx]. }
  exists (2 + m)%nat. split; [lia|]. by rewrite (rounds_add now took io 0 2 m).
Qed.

(** C4. A node that is behind catches up: it connects to an honest peer of the same
    network whose valid chain extends its own, and by exchanging the protocol's
    messages (hello, ancestor, headers in batches of 512, blocks in batches of
    128) it stores the peer's whole chain, in at most two messages and two for
    each missing block, with the branch and the sync target cleared.  Each of
    these requests and its answer must be within the limits of the codec and each
    answer come before the timeout ([oversized_batch_never_fetched]); a resume
    height left by an earlier synchronisation must not be above the node's chain
    ([stale_resume_refuses]); the clock must not be behind the blocks, whose
    hashes are distinct. *)
Theorem lagging_node_catches_up now took io now0 a j s :
  at_prefix j s → (j < N)%nat → resumes_by j s →
  Z.of_nat (size (px_peers s)) < cfg_max_peers config → is_banned now0 p (px_reputation s) = false →
  (∀ i, late (io i)) → (∀ i, in_time (took i)) → (∀ q, learns j q ∨ fetches j q → fits q) →
  ∃ m, (m <= 2 + 2 * (N - j))%nat ∧
    synced (rounds now took io 0 m (connection_established env config miner now0 p a true s)).
Proof.
  intros Hp Hj Hr Hmax Hban Hlate Htook Hfits.
  destruct (learned now took io now0 a j s Hp Hj Hr Hmax Hban Htook (λ q Hq, Hfits q (or_introl Hq))) as (m & Hm & H2).
  destruct (stages_end (λ k s, (∃ i, k = j + 128 * i)%nat ∧ blocks_stage j k s) synced now took io 128 ltac:(lia))
    with (k := j) (i := m) (s := rounds now took io 0 m (connection_established env config miner now0 p a true s))
    as (m' & Hm' & H3); [|done|split; [exists 0%nat; lia | done]|].
  { intros i k s' Hk [[n ->] Hs'].
    pose proof (blocks_round (now i) (took i) (io i) j _ s' (Hfits _ (or_intror (fetches_batch j n Hk))) (Htook i)
      ltac:(lia) (Hlate i) Hs') as Hx.
    destruct (decide _); [split; [exists (S n); lia | exact Hx] | exact Hx]. }
  exists (m + m')%nat. split; [lia|]. by rewrite rounds_add.
Qed.

(** The limit can be in the way for good.  The node always asks for 128 blocks: when
    the next ones make an answer of more than 16 MiB, the request fails however
    often it is repeated, and the node stays where it is. *)
Theorem oversized_batch_never_fetched now took io now0 a j s :
  at_prefix j s → (j < N)%nat → resumes_by j s →
  Z.of_nat (size (px_peers s)) < cfg_max_peers config → is_banned now0 p (px_reputation s) = false →
  (∀ i, in_time (took i)) → (∀ q, learns j q → fits q) →
  RESPONSE_SIZE_MAXIMUM < sw_response_len wire (RespBlocks remote (take 128 (drop j theirs))) →
  ∃ m, ∀ n, let s' := rounds now took io 0 (m + S n) (connection_established env config miner now0 p a true s) in
    at_prefix j s' ∧ px_branches s' !! p = None.
Proof.
  intros Hp Hj Hr Hmax Hban Htook Hfits Hover.
  destruct (learned now took io now0 a j s Hp Hj Hr Hmax Hban Htook Hfits) as (m & _ & [Hp2 _ Ha2]).
  exists m. intros n. cbv zeta. rewrite rounds_add. set (s2 := rounds now took io 0 m _) in *. clearbody s2.
  rewrite <- (honest_blocks j (prefix_pos j s2 Hp2)) in Hover. generalize (0 + m)%nat. intros i. revert i s2 Hp2 Ha2.
  induction n as [|n IH]; intros i s2 Hp2 Ha2; cbn [rounds]; rewrite (round_oversized _ _ _ _ s2 Ha2 Hover);
    destruct (failure_keeps (now i) (sw_failure wire (ReqBlocks (ours j) (Z.of_nat j) MAX_SYNC_BLOCKS)) s2) as (Hn & Hsent & Hb).
  - split; [|exact Hb]. unfold at_prefix. by rewrite Hn.
  - apply IH; [unfold at_prefix; by rewrite Hn | unfold asked; by rewrite Hsent].
Qed.

End sync.

(** * A stale resume height *)

(** The node keeps the height at which an interrupted synchronisation would go
    on. When the peer it follows next branches off below that height, the node
    asks for the headers from the kept height on, and refuses every answer that
    starts there, although it is what it asked for. *)
Section stale.
Context `{PrimitivesOk}.
Context (env : NodeEnv) (config : NetworkConfig) (miner : option LocalMiner) (now : Z) (io : FileInputs) (p : string).

Lemma check_header_gap prev n h : hd_height h ≠ n → is_err (check_header (prev, n) h) = true.
Proof. intros Hne. unfold check_header. by rewrite (proj2 (Z.eqb_neq _ _) Hne). Qed.

Theorem stale_resume_refuses s c hello i r headers :
  node_ok env config (px_node s) c → Forall (λ b, bh_difficulty (header b) < 128) (ch_blocks c) →
  total_work (ch_blocks c) <= umax 128 → Z.of_nat (length (ch_blocks c)) <= 2 ^ 62 →
  (∀ s', px_node s' = px_node s → accept_hello env config p hello s' = (Ok (), on_peers (update_validated_peer p hello) s')) →
  remote_has_more_work hello (hello_for config miner (ch_blocks c)) = Ok true →
  (i < length (ch_blocks c))%nat → sy_resume_height (px_status s) = Some r → Z.of_nat i + 1 < r <= ph_best_height hello →
  Forall (λ h, r <= hd_height h) headers →
  let s1 := (handle_sync_response env config miner now io p (CommonAncestor hello (Z.of_nat i)) s).2 in
  last (px_sent s1) = Some (p, ReqHeaders (hello_for config miner (ch_blocks c)) r MAX_SYNC_HEADERS) ∧
  is_err (handle_sync_response env config miner now io p (RespHeaders hello headers) s1).1 = true.
Proof.
  intros Hs Hd Hw Hlen Hacc Hmore Hi Hres Hr Hheaders s1.
  assert (local_hello env config miner (px_node s) = Ok (hello_for config miner (ch_blocks c))) as Hloc by by apply hello_of.
  assert (stored_blocks env (px_node s) = Ok (ch_blocks c)) as Hst.
  { unfold stored_blocks, load_blocks. by rewrite (load_node env config _ c false Hs). }
  destruct (lookup_lt_is_Some_2 _ i Hi) as [b Hb].
  set (branch := mkBranch hello (Z.of_nat i) (Z.of_nat i =? ph_best_height (hello_for config miner (ch_blocks c))) r false [] []).
  assert (px_node s1 = px_node s ∧ px_branches s1 !! p = Some branch ∧
    last (px_sent s1) = Some (p, ReqHeaders (hello_for config miner (ch_blocks c)) r MAX_SYNC_HEADERS)) as (Hn & Hbr & Hlast).
  { unfold s1. cbn [handle_sync_response]. unfold on_ancestor. rewrite (sr_bind_step _ _ _ _ _ (Hacc s eq_refl)).
    rewrite sr_get_bind, sr_lift_bind. px. rewrite Hloc, sr_lift_bind, Hmore. cbn [negb].
    rewrite sr_modify_bind, sr_lift_bind, Hst, Nat2Z.id, Hb. change (is_none (Some b)) with false. cbv iota.
    rewrite sr_get_bind. cbv zeta. unfold resumed. px. rewrite Hres, (bool_decide_true (_ = _)) by done.
    assert (saturating_add 64 (Z.of_nat i) 1 = Z.of_nat i + 1) as -> by (unfold saturating_add, umax; lia).
    rewrite Z.gtb_ltb, (proj2 (Z.ltb_lt _ _)), (proj2 (Z.leb_le _ _)) by lia. cbn [andb].
    rewrite sr_modify_bind. unfold request_branch_headers, branch_of. unfold mbind, state_result_bind. px.
    rewrite lookup_insert_eq. cbn [ok_or]. rewrite sr_get_eq. px. rewrite sr_lift_eq, Hloc. px.
    split; [done|]. split; [apply lookup_insert_eq | apply last_snoc]. }
  assert (is_err (validate_header_chain env branch headers (px_node s)) = true) as Hrefused.
  { unfold validate_header_chain. case_bool_decide as Hne; [done|]. rewrite Hst.
    cbn [mbind result_bind branch bn_headers bn_ancestor_height last]. rewrite Nat2Z.id, Hb.
    destruct headers as [|h hs]; [done|]. apply Forall_cons in Hheaders as [Hh _]. rewrite wrapping_succ by lia.
    pose proof (check_header_gap (hash_to_hex (block_hash b)) (Z.of_nat i + 1) h ltac:(lia)) as Hgap.
    cbn -[check_header]. by destruct (check_header _ h). }
  split; [exact Hlast|]. cbn [handle_sync_response]. unfold on_headers.
  rewrite (sr_bind_step _ _ _ _ _ (Hacc s1 Hn)). unfold branch_of. unfold mbind at 1, state_result_bind at 1. px.
  rewrite Hbr. cbn [ok_or branch bn_remote]. rewrite (bool_decide_true (_ = _)) by done. cbn [negb].
  rewrite sr_get_bind, sr_lift_bind. px. rewrite Hn. by destruct (validate_header_chain _ _ _ _).
Qed.

End stale.
