(* ===== verification/Nonce.v ===== *)
(** [vireon-miner/src/nonce.rs]: the nonce-range allocator.  The sequential
    operations, and the interleavings of the atomic accesses of any number of
    threads that lease and reset, as a step relation. *)

From stdpp Require Import functions.
From S2P Require Import Prelude RustStd.

(** [struct NonceRange]: [start, end). *)
Record NonceRange := mkRange { nr_start : Z; nr_end : Z }.

Definition NonceRange_len (r : NonceRange) : Z := saturating_sub (nr_end r) (nr_start r).
Definition NonceRange_is_empty (r : NonceRange) : bool := nr_end r <=? nr_start r.

(** [struct NonceAllocator] *)
Record NonceAllocator := mkAlloc {
  na_generation : Z;
  na_cursor : Z;
  na_window_end : Z;
  na_work_generation : Z;
}.

Definition NonceAllocator_new : NonceAllocator := mkAlloc 1 0 (umax 64) 0.

(** The end of the window [reset_work] stores. *)
Definition window_of (nonce_start : Z) (window_size : option Z) : Z :=
  match window_size with
  | Some size => if size >? 0 then saturating_add 64 nonce_start size else umax 64
  | None => umax 64
  end.

Definition set_cursor (c : Z) (a : NonceAllocator) : NonceAllocator :=
  mkAlloc (na_generation a) c (na_window_end a) (na_work_generation a).
Definition set_window (e : Z) (a : NonceAllocator) : NonceAllocator :=
  mkAlloc (na_generation a) (na_cursor a) e (na_work_generation a).
Definition bump_work_generation (a : NonceAllocator) : NonceAllocator :=
  mkAlloc (na_generation a) (na_cursor a) (na_window_end a) (wrapping_add 64 (na_work_generation a) 1).
Definition bump_generation (a : NonceAllocator) : NonceAllocator :=
  mkAlloc (wrapping_add 64 (na_generation a) 1) (na_cursor a) (na_window_end a) (na_work_generation a).

(** [reset_work] without interference. *)
Definition reset_work (nonce_start : Z) (window_size : option Z) (a : NonceAllocator) : NonceAllocator :=
  bump_generation (bump_work_generation (set_window (window_of nonce_start window_size) (set_cursor nonce_start a))).

(** One turn of the loop of [lease] up to the exchange: the cursor to install,
    [None] when the window is exhausted. *)
Definition lease_turn (count end_cap start : Z) : option Z :=
  if end_cap <=? start then None else
  let available := saturating_sub end_cap start in
  let take := Z.min count available in
  if take =? 0 then None else Some (saturating_add 64 start take).

(** [lease] without interference: the exchange succeeds in the first turn. *)
Definition lease (count : Z) (a : NonceAllocator) : option NonceRange * NonceAllocator :=
  if count =? 0 then (None, a) else
  match lease_turn count (na_window_end a) (na_cursor a) with
  | None => (None, a)
  | Some new_cursor => (Some (mkRange (na_cursor a) new_cursor), set_cursor new_cursor a)
  end.

(** ** Threads *)

(** Where a thread is: outside, in the loop of [lease] before the load of the
    cursor, before the exchange, or between two stores of [reset_work]. *)
Inductive thread :=
| T_idle
| T_loop (count end_cap : Z)
| T_exchange (count end_cap start : Z)
| T_reset_window (end_ : Z)
| T_reset_work_generation
| T_reset_generation.

(** The allocator, its threads, and the history since the last store of the
    cursor by a reset: the value stored and the ranges leased since. *)
Record machine := mkMachine {
  mc_alloc : NonceAllocator;
  mc_threads : nat → thread;
  mc_base : Z;
  mc_leased : list NonceRange;
}.

Definition set_thread (t : nat) (x : thread) (m : machine) : machine :=
  mkMachine (mc_alloc m) (<[t := x]> (mc_threads m)) (mc_base m) (mc_leased m).
Definition on_alloc (f : NonceAllocator → NonceAllocator) (m : machine) : machine :=
  mkMachine (f (mc_alloc m)) (mc_threads m) (mc_base m) (mc_leased m).

Definition machine_new : machine := mkMachine NonceAllocator_new (λ _, T_idle) 0 [].

(** One atomic access of thread [t]. *)
Inductive thread_step (t : nat) (m : machine) : machine → Prop :=
| lease_load_window count :
    mc_threads m t = T_idle → 0 < count <= umax 64 →
    thread_step t m (set_thread t (T_loop count (na_window_end (mc_alloc m))) m)
| lease_load_cursor count end_cap :
    mc_threads m t = T_loop count end_cap →
    lease_turn count end_cap (na_cursor (mc_alloc m)) ≠ None →
    thread_step t m (set_thread t (T_exchange count end_cap (na_cursor (mc_alloc m))) m)
| lease_exhausted count end_cap :
    mc_threads m t = T_loop count end_cap →
    lease_turn count end_cap (na_cursor (mc_alloc m)) = None →
    thread_step t m (set_thread t T_idle m)
| lease_exchange_ok count end_cap start new_cursor :
    mc_threads m t = T_exchange count end_cap start → na_cursor (mc_alloc m) = start →
    lease_turn count end_cap start = Some new_cursor →
    thread_step t m (set_thread t T_idle (mkMachine (set_cursor new_cursor (mc_alloc m)) (mc_threads m)
      (mc_base m) (mc_leased m ++ [mkRange start new_cursor])))
| lease_exchange_failed count end_cap start :
    mc_threads m t = T_exchange count end_cap start →
    thread_step t m (set_thread t (T_loop count end_cap) m)
| reset_store_cursor nonce_start window_size :
    mc_threads m t = T_idle → is_u64 nonce_start → (∀ w, window_size = Some w → is_u64 w) →
    thread_step t m (set_thread t (T_reset_window (window_of nonce_start window_size))
      (mkMachine (set_cursor nonce_start (mc_alloc m)) (mc_threads m) nonce_start []))
| reset_store_window end_ :
    mc_threads m t = T_reset_window end_ →
    thread_step t m (set_thread t T_reset_work_generation (on_alloc (set_window end_) m))
| reset_bump_work :
    mc_threads m t = T_reset_work_generation →
    thread_step t m (set_thread t T_reset_generation (on_alloc bump_work_generation m))
| reset_bump :
    mc_threads m t = T_reset_generation →
    thread_step t m (set_thread t T_idle (on_alloc bump_generation m)).

Definition step (m m' : machine) : Prop := ∃ t, thread_step t m m'.

(** * Leases do not overlap *)

(** Consecutive nonempty ranges from [lo] to [hi]. *)
Inductive tiles (lo : Z) : list NonceRange → Z → Prop :=
| tiles_nil : tiles lo [] lo
| tiles_snoc l mid hi : tiles lo l mid → mid < hi → tiles lo (l ++ [mkRange mid hi]) hi.

Lemma tiles_le lo l hi : tiles lo l hi → lo <= hi.
Proof. induction 1; lia. Qed.

Lemma tiles_inside lo l hi i r : tiles lo l hi → l !! i = Some r → lo <= nr_start r < nr_end r ∧ nr_end r <= hi.
Proof.
  intros Ht. revert i. induction Ht as [|l mid hi Ht IH Hlt]; intros i Hi; [done|].
  pose proof (tiles_le _ _ _ Ht). apply lookup_app_Some in Hi as [Hi|[_ Hi]].
  - specialize (IH i Hi). lia.
  - apply list_lookup_singleton_Some in Hi as [_ <-]. simpl. lia.
Qed.

Lemma tiles_ordered lo l hi i j r q :
  tiles lo l hi → l !! i = Some r → l !! j = Some q → (i < j)%nat → nr_end r <= nr_start q.
Proof.
  intros Ht. revert i j. induction Ht as [|l mid hi Ht IH Hlt]; intros i j Hi Hj Hij; [done|].
  apply lookup_app_Some in Hj as [Hj|[Hge Hj]].
  - rewrite lookup_app_l in Hi by (apply lookup_lt_Some in Hj; lia). by eapply IH.
  - apply list_lookup_singleton_Some in Hj as [Hz <-]. rewrite lookup_app_l in Hi by lia. simpl.
    eapply tiles_inside in Hi; [|done]. lia.
Qed.

(** The ranges cover everything between. *)
Lemma tiles_cover lo l hi n : tiles lo l hi → lo <= n < hi → ∃ r, r ∈ l ∧ nr_start r <= n < nr_end r.
Proof.
  intros Ht. induction Ht as [|l mid hi Ht IH Hlt]; intros Hn; [lia|].
  destruct (decide (n < mid)).
  - destruct IH as (r & Hr & Hin); [lia|]. exists r. split; [apply elem_of_app; by left | done].
  - exists (mkRange mid hi). split; [apply elem_of_app; right; by left | simpl; lia].
Qed.

Lemma lease_turn_Some count end_cap start c :
  0 < count → end_cap <= umax 64 →
  lease_turn count end_cap start = Some c ↔ start < end_cap ∧ c = Z.min (start + count) end_cap.
Proof.
  intros Hc He. unfold lease_turn. cbv zeta. destruct (end_cap <=? start) eqn:E; breflect; [split; [done|lia]|].
  unfold saturating_sub, saturating_add. destruct (_ =? 0) eqn:E2; breflect; [lia|]. split.
  - intros [= <-]. lia.
  - intros [_ ->]. f_equal. lia.
Qed.

Definition thread_ok (x : thread) : Prop :=
  match x with
  | T_loop count end_cap | T_exchange count end_cap _ => 0 < count ∧ end_cap <= umax 64
  | T_reset_window e => e <= umax 64
  | _ => True
  end.

Record machine_ok (m : machine) : Prop := {
  mk_tiles : tiles (mc_base m) (mc_leased m) (na_cursor (mc_alloc m));
  mk_window : na_window_end (mc_alloc m) <= umax 64;
  mk_cursor : na_cursor (mc_alloc m) <= umax 64;
  mk_threads t : thread_ok (mc_threads m t);
}.

Lemma window_of_max s w : window_of s w <= umax 64.
Proof.
  unfold window_of, saturating_add. destruct w as [z|]; [|done]. destruct (_ >? _); [lia | done].
Qed.

Lemma set_thread_ok t x m : machine_ok m → thread_ok x → machine_ok (set_thread t x m).
Proof.
  intros [] Hx. split; try done. intros t'. cbn [set_thread mc_threads].
  destruct (decide (t = t')) as [->|]; [by rewrite fn_lookup_insert | by rewrite fn_lookup_insert_ne].
Qed.

Lemma step_ok m m' : machine_ok m → step m m' → machine_ok m'.
Proof.
  intros Hm [t Hs]. pose proof (mk_threads m Hm t) as Ht.
  destruct Hs as [count Hi Hc|count cap Hl Hn|count cap Hl Hn|count cap start c Hl Hc Hn|count cap start Hl
    |s w Hi Hs Hw|e He|Hr|Hr].
  - apply set_thread_ok; [done|]. split; [lia | apply Hm].
  - apply set_thread_ok; [done|]. by rewrite Hl in Ht.
  - by apply set_thread_ok.
  - apply set_thread_ok; [|done]. rewrite Hl in Ht. destruct Ht as [H1 H2].
    apply (lease_turn_Some _ _ _ _ H1 H2) in Hn as [Hlt ->]. destruct Hm as [Htl Hwd Hcu Hth].
    split; cbn [mc_base mc_leased mc_alloc set_cursor na_cursor na_window_end mc_threads]; [|done|lia|done].
    apply tiles_snoc; [by rewrite <- Hc|lia].
  - apply set_thread_ok; [done|]. by rewrite Hl in Ht.
  - apply set_thread_ok; [|apply window_of_max]. destruct Hm.
    split; cbn; [constructor | done | unfold in_width, umax in *; lia | done].
  - rewrite He in Ht. apply set_thread_ok; [|done]. destruct Hm. by split.
  - apply set_thread_ok; [|done]. destruct Hm. by split.
  - apply set_thread_ok; [|done]. destruct Hm. by split.
Qed.

Lemma machine_new_ok : machine_ok machine_new.
Proof. split; [constructor | done | vm_compute; congruence | done]. Qed.

(** C38. Leases never overlap: whatever threads lease and reset in whatever
    interleaving of their atomic accesses, the ranges leased since the last store
    of a new start are pairwise disjoint and nonempty, stay within 64 bits, and
    cover exactly the nonces between that start and the cursor. *)
Theorem leases_disjoint m :
  rtc step machine_new m →
  (∀ i j r q, mc_leased m !! i = Some r → mc_leased m !! j = Some q → (i < j)%nat → nr_end r <= nr_start q) ∧
  (∀ r, r ∈ mc_leased m → nr_start r < nr_end r <= umax 64) ∧
  (∀ n, (∃ r, r ∈ mc_leased m ∧ nr_start r <= n < nr_end r) ↔ mc_base m <= n < na_cursor (mc_alloc m)).
Proof.
  intros Hrun. assert (machine_ok m) as [Ht Hw Hc _].
  { pose proof machine_new_ok as Hok. induction Hrun as [|m1 m2 m3 Hs _ IH]; [done|].
    by apply IH, (step_ok m1). }
  assert (∀ r, r ∈ mc_leased m → mc_base m <= nr_start r < nr_end r ∧ nr_end r <= na_cursor (mc_alloc m)) as Hin.
  { intros r [i Hi]%list_elem_of_lookup. by eapply tiles_inside. }
  split_and!.
  - intros i j r q Hi Hj. by eapply tiles_ordered.
  - intros r Hr. specialize (Hin r Hr). lia.
  - intros n. split; [intros (r & Hr & Hn); specialize (Hin r Hr); lia | by apply tiles_cover].
Qed.

(** * Without interference *)

(** One thread alone: a lease takes the next nonces of the window, the last one
    what is left, and reports exhaustion exactly at the end of the window,
    without wrapping; so leases of a positive size exhaust any window. *)
Theorem lease_sequence count a n :
  0 < count → 0 <= na_cursor a <= na_window_end a → na_window_end a <= umax 64 →
  (lease count a = (None, a) ↔ na_cursor a = na_window_end a) ∧
  ∃ rs, Nat.iter n (λ p, let '(rs, a) := p in
      match lease count a with (Some r, a') => (rs ++ [r], a') | (None, a') => (rs, a') end) ([], a)
    = (rs, set_cursor (Z.min (na_cursor a + Z.of_nat n * count) (na_window_end a)) a) ∧
    tiles (na_cursor a) rs (Z.min (na_cursor a + Z.of_nat n * count) (na_window_end a)).
Proof.
  intros Hc Hcur Hmax.
  assert (∀ a', na_window_end a' = na_window_end a → na_cursor a' <= na_window_end a →
    lease count a' = (if decide (na_cursor a' < na_window_end a)
      then (Some (mkRange (na_cursor a') (Z.min (na_cursor a' + count) (na_window_end a))),
            set_cursor (Z.min (na_cursor a' + count) (na_window_end a)) a')
      else (None, a'))) as Hl.
  { intros a' Hw Hle. unfold lease. rewrite (proj2 (Z.eqb_neq count 0)) by lia. rewrite Hw.
    destruct (lease_turn count (na_window_end a) (na_cursor a')) as [c|] eqn:E.
    - apply lease_turn_Some in E as [Hlt ->]; [|done..]. by rewrite decide_True.
    - case_decide as Hd; [|done]. exfalso.
      assert (lease_turn count (na_window_end a) (na_cursor a') =
        Some (Z.min (na_cursor a' + count) (na_window_end a))) by by apply lease_turn_Some. congruence. }
  split.
  - rewrite Hl by lia. case_decide; [split; [done|lia] | split; [lia|done]].
  - induction n as [|n (rs & IH & Htl)].
    + exists []. cbn [Nat.iter]. replace (Z.min _ _) with (na_cursor a) by lia. split; [by destruct a|constructor].
    + change (Nat.iter (S n) ?f ?x) with (f (Nat.iter n f x)). cbn beta. rewrite IH. cbn beta iota.
      rewrite Hl by (cbn; lia || done). cbn [set_cursor na_cursor].
      case_decide as Hd.
      * eexists. split; [f_equal; unfold set_cursor; cbn; f_equal; lia|].
        replace (Z.min (na_cursor a + Z.of_nat (S n) * count) (na_window_end a)) with
          (Z.min (Z.min (na_cursor a + Z.of_nat n * count) (na_window_end a) + count) (na_window_end a)) by lia.
        apply tiles_snoc; [done|lia].
      * exists rs. replace (Z.min (na_cursor a + Z.of_nat (S n) * count) (na_window_end a)) with
          (Z.min (na_cursor a + Z.of_nat n * count) (na_window_end a)) by lia. done.
Qed.

(** * Resetting while another thread leases *)

(** The window does not bind a lease that began before a reset: with two threads
    there is a run after which no reset is in progress, the window ends at 10,
    and the leased range of the current work reaches 50. *)
Theorem lease_outlives_window :
  ∃ m r, rtc step machine_new m ∧ (∀ t, mc_threads m t = T_idle) ∧
    r ∈ mc_leased m ∧ na_window_end (mc_alloc m) < nr_end r.
Proof.
  eexists _, (mkRange 0 50). split.
  - eapply rtc_l; [exists 0%nat; apply (lease_load_window _ _ 50); [done | by vm_compute]|].
    eapply rtc_l; [exists 1%nat; apply (reset_store_cursor _ _ 0 (Some 10)); [done | by vm_compute | by intros w [= <-]]|].
    eapply rtc_l; [exists 1%nat; by eapply reset_store_window|].
    eapply rtc_l; [exists 1%nat; by apply reset_bump_work|].
    eapply rtc_l; [exists 1%nat; by apply reset_bump|].
    eapply rtc_l; [exists 0%nat; by eapply lease_load_cursor|].
    eapply rtc_l; [exists 0%nat; by eapply lease_exchange_ok|]. apply rtc_refl.
  - split; [by intros [|[|t]]|]. split; [by left | done].
Qed.
