(* ===== verification/MinerWork.v ===== *)
(** [vireon-miner/src/protocol.rs], [source.rs], [mining.rs], [error.rs]: the
    mining work packages, their check and reconstruction as a block, the
    submissions, and the sources' own parts of both.  HTTP, files and JSON are
    outside: templates, requests and responses are the parsed values. *)

From S2P Require Import Prelude RustStd Interfaces Crypto Errors Network Amount Signing Address Transaction Block Pow Consensus Genesis.

Definition MINING_PROTOCOL_VERSION : string := "vireon-mining-v1".

(** [enum MinerError]; wrapped errors of other crates are text. *)
Inductive MinerError :=
| MinerConfigError (message : string)
| InvalidTemplate (message : string)
| MinerRpc (message : string)
| WorkFileMissing (path : string)
| MinerIo (text : string)
| MinerJson (text : string)
| MinerToml (text : string)
| MinerCore (e : VireonError)
| WorkerPanicked
| MinerGpu (message : string).

Definition MinerError_fmt (e : MinerError) : string :=
  match e with
  | MinerConfigError m => "configuration error: " ++ m
  | InvalidTemplate m => "invalid mining template: " ++ m
  | MinerRpc m => "mining RPC error: " ++ m
  | WorkFileMissing p => "work file does not exist: " ++ p
  | MinerIo t => "I/O error: " ++ t
  | MinerJson t => "JSON error: " ++ t
  | MinerToml t => "TOML error: " ++ t
  | MinerCore e => "core error: " ++ VireonError_fmt e
  | WorkerPanicked => "worker thread panicked"
  | MinerGpu m => "GPU mining error: " ++ m
  end%string.

(** [struct MiningTemplate] *)
Record MiningTemplate := mkTemplate {
  mt_protocol : string;
  mt_template_id : string;
  mt_expires_at : Z;
  mt_version : Z;
  mt_network_id : string;
  mt_height : Z;
  mt_previous_hash : string;
  mt_merkle_root : string;
  mt_base_fee_atomic : Z;
  mt_timestamp : Z;
  mt_difficulty : Z;
  mt_share_difficulty : option Z;
  mt_nonce_start : Z;
  mt_transactions : list Transaction;
}.

(** [struct MiningSubmitRequest] *)
Record MiningSubmitRequest := mkRequest {
  mr_protocol : string;
  mr_template_id : string;
  mr_nonce : Z;
  mr_block_hash : string;
  mr_mix_hash : string;
  mr_miner_address : option string;
  mr_worker_name : option string;
}.

(** [enum SubmitStatus] *)
Inductive SubmitStatus := Accepted | StaleWork | Rejected | PendingLocal.
#[global] Instance SubmitStatus_eq_dec : EqDecision SubmitStatus.
Proof. solve_decision. Defined.

(** [struct MiningSubmitResponse] *)
Record MiningSubmitResponse := mkResponse {
  ms_protocol : string;
  ms_status : SubmitStatus;
  ms_template_id : string;
  ms_block_hash : string;
  ms_height : option Z;
  ms_reason : option string;
}.

Definition parse_hash (field value : string) : result MinerError Hash :=
  map_err (λ e, InvalidTemplate ("invalid " ++ field ++ ": " ++ e)%string) (Hash_from_hex value).

Definition MiningSubmitRequest_from_solution (template_id : string) (nonce : Z) (final mix : Hash) : MiningSubmitRequest :=
  mkRequest MINING_PROTOCOL_VERSION template_id nonce (hash_to_hex final) (hash_to_hex mix) None None.

Section work.
Context `{Primitives}.

(** The block of a template, before its Merkle root is checked. *)
Definition template_block (t : MiningTemplate) (previous merkle : Hash) : Block :=
  mkBlock (mkBlockHeader (mt_version t) (mt_network_id t) (mt_height t) previous merkle (mt_base_fee_atomic t)
    (mt_timestamp t) (mt_nonce_start t) Hash_zero (mt_difficulty t)) (mt_transactions t).

(** [MiningTemplate::validate_and_build] at the clock reading [now]. *)
Definition validate_and_build (now : Z) (miner_address : string) (t : MiningTemplate) : result MinerError Block :=
  if negb (bool_decide (mt_protocol t = MINING_PROTOCOL_VERSION))
  then Err (InvalidTemplate ("unsupported protocol " ++ mt_protocol t ++ "; expected " ++ MINING_PROTOCOL_VERSION)) else
  if str_is_empty (str_trim (mt_template_id t)) then Err (InvalidTemplate "template_id cannot be empty") else
  if mt_expires_at t <=? now
  then Err (InvalidTemplate ("template expired at " ++ uint_to_string (mt_expires_at t))) else
  network ← ok_or (InvalidTemplate ("unknown network_id " ++ mt_network_id t)) (from_network_id (mt_network_id t));
  address ← map_err MinerCore (Address_parse miner_address);
  if negb (bool_decide (addr_network address = network))
  then Err (InvalidTemplate ("miner address belongs to " ++ network_id (addr_network address)
         ++ ", template belongs to " ++ network_id network)) else
  coinbase ← ok_or (InvalidTemplate "transactions must include coinbase") (head (mt_transactions t));
  if negb (is_coinbase coinbase) || negb (bool_decide (tx_to coinbase = miner_address))
  then Err (InvalidTemplate "first transaction must be coinbase paying miner_address") else
  previous ← parse_hash "previous_hash" (mt_previous_hash t);
  merkle ← parse_hash "merkle_root" (mt_merkle_root t);
  let block := template_block t previous merkle in
  computed_merkle ← map_err MinerCore (recompute_merkle_root block);
  if negb (bool_decide (computed_merkle = bh_merkle_root (header block)))
  then Err (InvalidTemplate ("merkle_root mismatch: expected " ++ mt_merkle_root t ++ ", computed "
         ++ hash_to_hex computed_merkle)) else
  Ok block.

(** ** Work sources *)

(** [WorkSource for PoolWorkSource]: the reward address is the pool's. *)
Definition PoolWorkSource_validate_and_build (now : Z) (t : MiningTemplate) : result MinerError Block :=
  reward_address ← ok_or (InvalidTemplate "coinbase is missing") (tx_to <$> head (mt_transactions t));
  _ ← map_err MinerCore (Address_parse reward_address);
  validate_and_build now reward_address t.

(** The request a pool worker posts. *)
Definition PoolWorkSource_request (miner_address worker_name : string) (r : MiningSubmitRequest) : MiningSubmitRequest :=
  mkRequest (mr_protocol r) (mr_template_id r) (mr_nonce r) (mr_block_hash r) (mr_mix_hash r)
    (Some miner_address) (Some worker_name).

(** [FileWorkSource::submit] on the outcome of writing the file. *)
Definition FileWorkSource_submit (written : result MinerError ()) (r : MiningSubmitRequest) :
    result MinerError MiningSubmitResponse :=
  _ ← written;
  Ok (mkResponse MINING_PROTOCOL_VERSION PendingLocal (mr_template_id r) (mr_block_hash r) None
    (Some "written to local submission file; node acceptance is pending"%string)).

(** [parse_response]: the HTTP status, its success, the body, the parsed body. *)
Definition parse_response {T} (operation status : string) (success : bool) (body : result string string)
    (json : string → result string T) : result MinerError T :=
  body ← map_err MinerRpc body;
  if negb success then Err (MinerRpc (operation ++ " returned HTTP " ++ status ++ ": " ++ body)) else
  map_err (λ e, MinerRpc ("invalid " ++ operation ++ " JSON: " ++ e)%string) (json body).

(** ** [mining.rs] *)

(** [revalidate_solution]: a solution found by a device is checked by the
    consensus code before it is submitted. *)
Definition revalidate_solution (b : Block) (nonce : Z) (mix : Hash) (bits : Z) : result MinerError bool :=
  match FiroPow_validate (set_nonce_mix nonce mix b) nonce mix bits with
  | Ok validation => Ok (val_meets_target validation)
  | Err _ => Ok false
  end.

End work.
