(* ===== verification/GatewayConfig.v ===== *)
(** [vireon-rpc-gateway/src/config.rs], [error.rs] and the route table of
    [app.rs]: the gateway's configuration with its validation, its errors with
    their HTTP answers, and which endpoints a configuration exposes. *)

From S2P Require Import Prelude RustStd Interfaces Crypto Errors Network Amount Signing Address Transaction Block Pow Consensus Genesis NodeConfig.

(** [enum RpcAccessMode] *)
Inductive RpcAccessMode := Local | PublicRead | PublicSubmit | PrivateMining.
#[global] Instance RpcAccessMode_eq_dec : EqDecision RpcAccessMode.
Proof. solve_decision. Defined.

Definition allows_transaction_submission (m : RpcAccessMode) : bool :=
  match m with Local | PublicSubmit => true | _ => false end.
Definition allows_operator_endpoints (m : RpcAccessMode) : bool :=
  match m with Local => true | _ => false end.
Definition default_exposes_mining (m : RpcAccessMode) : bool :=
  match m with Local | PrivateMining => true | _ => false end.

(** [struct RpcConfig] *)
Record RpcConfig := {
  rc_bind_host : string;
  rc_bind_port : Z;
  rc_network : Network;
  rc_network_id : string;
  rc_human_name : string;
  rc_status_label : string;
  rc_address_prefix : string;
  rc_chain_data_path : string;
  rc_indexer_data_path : string;
  rc_mempool_data_path : string;
  rc_public_rpc_allowed : bool;
  rc_access_mode : RpcAccessMode;
  rc_expose_mining_endpoints : option bool;
  rc_max_mempool_transactions : Z;
  rc_max_request_body_bytes : Z;
  rc_cors_allowed_origin : string;
  rc_cors_allowed_origins : list string;
  rc_explorer_static_path : string;
  rc_allow_mainnet_candidate : bool;
}.

(** [enum RpcError]; indexer errors keep their kind, other crates' are text. *)
Inductive IndexerFault := IndexNotInitialized | IndexNotFound | IndexOther.
Inductive RpcError :=
| RpcIo (text : string)
| RpcJson (text : string)
| RpcToml (text : string)
| RpcNode (e : NodeError)
| RpcIndexer (kind : IndexerFault) (text : string)
| RpcCore (e : VireonError)
| RpcConfigError (message : string)
| BadRequest (message : string)
| NotFoundError (message : string).

Abbreviation RpcResult := (result RpcError).

Definition RpcError_fmt (e : RpcError) : string :=
  match e with
  | RpcIo t => "I/O error: " ++ t
  | RpcJson t => "JSON error: " ++ t
  | RpcToml t => "TOML error: " ++ t
  | RpcNode e => "node error: " ++ NodeError_fmt e
  | RpcIndexer _ t => "indexer error: " ++ t
  | RpcCore e => "core error: " ++ VireonError_fmt e
  | RpcConfigError m => "config error: " ++ m
  | BadRequest m => "bad request: " ++ m
  | NotFoundError m => "resource not found: " ++ m
  end%string.

(** [IntoResponse for RpcError]: the status code and the body's text. *)
Definition error_status (e : RpcError) : Z :=
  match e with
  | BadRequest _ => 400
  | NotFoundError _ | RpcNode (ChainNotInitialized _) => 404
  | RpcIndexer IndexNotInitialized _ | RpcIndexer IndexNotFound _ => 404
  | _ => 500
  end.
Definition error_response (e : RpcError) : string * Z :=
  (if (error_status e =? 400) || (error_status e =? 404) then RpcError_fmt e else "internal server error"%string,
   error_status e).

Definition map_submission_error (e : NodeError) : RpcError :=
  match e with
  | Input message => BadRequest message
  | Core core_error => BadRequest (VireonError_fmt core_error)
  | other => RpcNode other
  end.

(** ** Validation *)

Definition effective_cors_origins (c : RpcConfig) : list string :=
  if bool_decide (rc_cors_allowed_origins c = []) then [rc_cors_allowed_origin c] else rc_cors_allowed_origins c.

Definition mining_endpoints_enabled (c : RpcConfig) : bool :=
  default (default_exposes_mining (rc_access_mode c)) (rc_expose_mining_endpoints c).

(** [blank s]: [s.trim().is_empty()]. *)
Definition blank (s : string) : bool := str_is_empty (str_trim s).

Section validate.
(** [HeaderValue::from_str] of the [http] crate, its error as text with the
    quoted origin. *)
Context (header_value : string → result string ()).

Definition check_origin (c : RpcConfig) (origin : string) : RpcResult () :=
  if bool_decide (str_trim origin = "*"%string) && negb (bool_decide (rc_access_mode c = Local))
  then Err (RpcConfigError "CORS origin '*' is only allowed when access_mode = local") else
  map_err (λ e, RpcConfigError ("invalid CORS origin " ++ e)%string) (header_value origin).

Definition RpcConfig_validate (c : RpcConfig) : RpcResult () :=
  let n := rc_network c in
  let public_bind := bool_decide (rc_bind_host c = "0.0.0.0"%string) in
  if blank (rc_bind_host c) then Err (RpcConfigError "bind_host cannot be empty") else
  if rc_bind_port c =? 0 then Err (RpcConfigError "bind_port must be greater than zero") else
  if negb (bool_decide (rc_network_id c = network_id n)) then Err (RpcConfigError ("network_id must be " ++ network_id n)) else
  if negb (bool_decide (rc_human_name c = human_name n)) then Err (RpcConfigError ("human_name must be " ++ human_name n)) else
  if negb (bool_decide (rc_status_label c = status_label n))
  then Err (RpcConfigError ("status_label must be " ++ status_label n)) else
  if negb (bool_decide (rc_address_prefix c = address_prefix n))
  then Err (RpcConfigError ("address_prefix must be " ++ address_prefix n)) else
  if negb (rc_bind_port c =? default_rpc_port n)
  then Err (RpcConfigError ("bind_port must be " ++ uint_to_string (default_rpc_port n))) else
  if public_bind && negb (rc_public_rpc_allowed c)
  then Err (RpcConfigError "bind_host 0.0.0.0 requires public_rpc_allowed = true") else
  if public_bind && bool_decide (rc_access_mode c = Local)
  then Err (RpcConfigError "local RPC access mode cannot bind to 0.0.0.0") else
  if requires_explicit_allow n && negb (rc_allow_mainnet_candidate c)
  then Err (RpcConfigError "mainnet candidate RPC requires allow_mainnet_candidate = true") else
  if blank (rc_chain_data_path c) then Err (RpcConfigError "chain_data_path cannot be empty") else
  if blank (rc_indexer_data_path c) then Err (RpcConfigError "indexer_data_path cannot be empty") else
  if blank (rc_mempool_data_path c) then Err (RpcConfigError "mempool_data_path cannot be empty") else
  if rc_max_mempool_transactions c =? 0
  then Err (RpcConfigError "max_mempool_transactions must be greater than zero") else
  if rc_max_request_body_bytes c =? 0
  then Err (RpcConfigError "max_request_body_bytes must be greater than zero") else
  if blank (rc_cors_allowed_origin c) then Err (RpcConfigError "cors_allowed_origin cannot be empty") else
  _ ← try_each (check_origin c) (effective_cors_origins c);
  if mining_endpoints_enabled c && public_bind && negb (bool_decide (rc_access_mode c = PrivateMining))
  then Err (RpcConfigError "public RPC profiles cannot expose mining endpoints on 0.0.0.0; use private-mining on an un-published container network")
  else Ok ().

End validate.

(** ** Routes *)

Definition base_routes : list string :=
  ["/health"; "/network"; "/status"; "/sync/status"; "/chain/tip"; "/chain/height"; "/addresses/:address";
   "/addresses/:address/balance"; "/addresses/:address/account"; "/state"; "/supply"; "/blocks/latest";
   "/blocks/:height"; "/blocks/hash/:hash"; "/transactions/:hash"; "/mempool"; "/mempool/status";
   "/indexer/status"; "/indexer/overview"; "/indexer/summary"; "/indexer/blocks"; "/indexer/blocks/latest";
   "/indexer/blocks/hash/:hash"; "/indexer/blocks/:height"; "/indexer/transactions"; "/indexer/addresses";
   "/indexer/tx/:hash"; "/indexer/address/:address"; "/p2p/status"]%string.

(** [router]: GET routes, POST routes. *)
Definition router (c : RpcConfig) : list string * list string :=
  (base_routes ++ (if mining_endpoints_enabled c then ["/mining/template"%string] else []),
   (if allows_transaction_submission (rc_access_mode c) then ["/transactions"%string] else []) ++
   (if mining_endpoints_enabled c then ["/mining/submit"%string] else [])).

(** * The exposed surface *)

Section surface.
Context (header_value : string → result string ()).

Lemma validate_public c :
  RpcConfig_validate header_value c = Ok () → rc_bind_host c = "0.0.0.0"%string →
  rc_public_rpc_allowed c = true ∧ rc_access_mode c ≠ Local ∧
  (mining_endpoints_enabled c = true → rc_access_mode c = PrivateMining).
Proof.
  intros Hv Hb. unfold RpcConfig_validate in Hv. cbv zeta in Hv. rewrite (bool_decide_eq_true_2 _ Hb) in Hv.
  rewrite !if_Err_Ok in Hv. do 16 (destruct Hv as [? Hv]). rewrite bind_unit_Ok, if_Err_Ok in Hv.
  destruct Hv as (_ & Hm & _). breflect. split_and!.
  - by destruct (rc_public_rpc_allowed c).
  - intros Hl. by rewrite bool_decide_eq_true_2 in * by done.
  - intros He. rewrite He in Hm. cbn in Hm. by destruct (bool_decide_reflect (rc_access_mode c = PrivateMining)).
Qed.

(** What a validated configuration exposes on all interfaces: bound to 0.0.0.0 it
    must be declared public and not local; it takes transactions only in the
    public-submit mode, and serves mining work only in the private-mining mode,
    which takes no transactions; wildcard CORS origins exist in local mode only. *)
Theorem public_surface c :
  RpcConfig_validate header_value c = Ok () → rc_bind_host c = "0.0.0.0"%string →
  rc_public_rpc_allowed c = true ∧ rc_access_mode c ≠ Local ∧
  ("/transactions"%string ∈ (router c).2 ↔ rc_access_mode c = PublicSubmit) ∧
  ("/mining/submit"%string ∈ (router c).2 → rc_access_mode c = PrivateMining) ∧
  ("/mining/template"%string ∈ (router c).1 → rc_access_mode c = PrivateMining) ∧
  Forall (λ o, str_trim o ≠ "*"%string) (effective_cors_origins c).
Proof.
  intros Hv Hb. destruct (validate_public c Hv Hb) as (Hp & Hl & Hm). split_and!; [done|done|..].
  - unfold router. cbn [snd]. destruct (rc_access_mode c), (mining_endpoints_enabled c); cbn; split; set_solver.
  - unfold router. cbn [snd]. destruct (mining_endpoints_enabled c); [by intros _; apply Hm|].
    destruct (allows_transaction_submission _); set_solver.
  - unfold router. cbn [fst]. destruct (mining_endpoints_enabled c); [by intros _; apply Hm|].
    rewrite app_nil_r. intros Hin. exfalso. assert ("/mining/template"%string ∉ base_routes) as Hn; [|done].
    apply (bool_decide_unpack _). by vm_compute.
  - unfold RpcConfig_validate in Hv. cbv zeta in Hv. rewrite !if_Err_Ok in Hv. do 16 (destruct Hv as [_ Hv]).
    rewrite bind_unit_Ok, try_each_Ok in Hv. destruct Hv as [Ho _]. eapply Forall_impl; [exact Ho|]. intros o Hc Ht.
    cbn beta in Hc. unfold check_origin in Hc. rewrite (bool_decide_eq_true_2 _ Ht) in Hc.
    by rewrite (bool_decide_eq_false_2 _ Hl) in Hc.
Qed.

(** The bind guards compare the host with the text 0.0.0.0 only: a configuration
    in local mode, without the public declaration, with mining endpoints and with
    a wildcard CORS origin validates when its host is the IPv6 wildcard [::]. *)
Theorem ipv6_wildcard_validates :
  header_value "*" = Ok () →
  ∃ c, RpcConfig_validate header_value c = Ok () ∧ rc_bind_host c = "[::]"%string ∧
    rc_public_rpc_allowed c = false ∧ rc_access_mode c = Local ∧ mining_endpoints_enabled c = true ∧
    effective_cors_origins c = ["*"%string].
Proof.
  intros Hh. exists {| rc_bind_host := "[::]"; rc_bind_port := default_rpc_port Devnet; rc_network := Devnet;
    rc_network_id := network_id Devnet; rc_human_name := human_name Devnet; rc_status_label := status_label Devnet;
    rc_address_prefix := address_prefix Devnet; rc_chain_data_path := "chain"; rc_indexer_data_path := "index";
    rc_mempool_data_path := "pool"; rc_public_rpc_allowed := false; rc_access_mode := Local;
    rc_expose_mining_endpoints := None; rc_max_mempool_transactions := 1; rc_max_request_body_bytes := 1;
    rc_cors_allowed_origin := "*"; rc_cors_allowed_origins := []; rc_explorer_static_path := "";
    rc_allow_mainnet_candidate := false |}.
  split; [|by vm_compute]. unfold RpcConfig_validate, try_each. cbn -[str_trim]. 
  unfold check_origin. cbn -[str_trim]. rewrite Hh. by vm_compute.
Qed.

End surface.
