(* ===== verification/Gateway.v ===== *)
(** [vireon-rpc-gateway/src/app.rs] and [models.rs]: the handlers of the RPC
    gateway over the node's files: chain cache, queries, transaction submission,
    mining templates and submissions.  A handler is a state transformer; the
    clock, random ids, file fingerprints and the iteration order of the hash map
    of templates are inputs. *)

From S2P Require Import Prelude RustStd Interfaces Crypto Errors Network Amount Signing Address Transaction Block Pow Consensus State Ledger Chain Genesis NodeConfig GenesisApproval Storage Mempool Node NodeOps NodeMine MinerWork GatewayConfig.

Definition MINING_PROTOCOL : string := "vireon-mining-v1".
Definition MINING_TEMPLATE_TTL_SECONDS : Z := 90.
Definition MINING_TEMPLATE_REUSE_MIN_REMAINING_SECONDS : Z := 25.
Definition MAX_ACTIVE_MINING_TEMPLATES : Z := 256.
Definition SIGNATURES_STATUS : string := "Prototype implementation on frozen launch standard".

(** [struct StoredMiningTemplate] *)
Record StoredMiningTemplate := mkStored {
  sm_expires_at : Z;
  sm_block : Block;
  sm_miner_address : string;
}.

(** [struct ChainStorageFingerprint]: size and modification time of the database
    and of its write-ahead log. *)
Abbreviation Fingerprint := (Z * Z * (Z * Z))%type.

(** [struct LoadedChain]; [CachedChain] is one with its fingerprint. *)
Record LoadedChain := mkLoaded {
  lc_blocks : list Block;
  lc_chain : Chain;
  lc_height : option Z;
  lc_tip_hash : option string;
  lc_emitted_supply_atomic : Z;
  lc_cumulative_work : option string;
}.
Record CachedChain := mkCached { cc_fingerprint : Fingerprint; cc_loaded : LoadedChain }.

(** The gateway's state: its templates, its chain cache, and the node's files. *)
Record GatewayState := mkGateway {
  gw_templates : gmap string StoredMiningTemplate;
  gw_cache : option CachedChain;
  gw_node : NodeState;
}.

Abbreviation gateway A := (state_result GatewayState RpcError A).

Definition set_templates (t : gmap string StoredMiningTemplate) (s : GatewayState) : GatewayState :=
  mkGateway t (gw_cache s) (gw_node s).
Definition set_cache (c : option CachedChain) (s : GatewayState) : GatewayState :=
  mkGateway (gw_templates s) c (gw_node s).

(** A node operation of a handler, its error mapped. *)
Definition on_node {A} (f : NodeError → RpcError) (m : node_op A) : gateway A := λ s,
  let '(r, node) := m (gw_node s) in (map_err f r, mkGateway (gw_templates s) (gw_cache s) node).

(** ** Responses ([models.rs]) *)

Record TransactionResponse := {
  tr_lifecycle_status : string;
  tr_hash : string;
  tr_block_height : option Z;
  tr_block_hash : option string;
  tr_version : Z;
  tr_nonce : Z;
  tr_from : option string;
  tr_to : string;
  tr_amount_atomic : Z;
  tr_fee_atomic : Z;
  tr_max_fee_atomic : Z;
  tr_priority_fee_atomic : Z;
  tr_effective_fee_atomic : Z;
  tr_burned_fee_atomic : Z;
  tr_effective_priority_fee_atomic : Z;
  tr_base_fee_atomic : Z;
  tr_memo_hash : option string;
  tr_sender_public_key_hex : option string;
  tr_signature_hex : option string;
  tr_authorization_state : string;
  tr_signature_standard_id : string;
  tr_signatures_status : string;
}.

Record BlockResponse := {
  br_network_id : string;
  br_height : Z;
  br_hash : string;
  br_previous_hash : string;
  br_merkle_root : string;
  br_base_fee_atomic : Z;
  br_timestamp : Z;
  br_nonce : Z;
  br_difficulty : Z;
  br_transaction_count : Z;
  br_transactions : list TransactionResponse;
}.

Record AddressResponse := { ar_address : string; ar_exists : bool; ar_balance_atomic : Z }.
Record AddressBalanceResponse := { abr_address : string; abr_balance_atomic : Z; abr_next_nonce : Z; abr_exists : bool }.
Record AddressAccountResponse := {
  aar_address : string;
  aar_exists : bool;
  aar_balance_atomic : Z;
  aar_next_nonce : Z;
  aar_tip_hash : option string;
  aar_tip_height : option Z;
  aar_anticipated_base_fee_atomic : Z;
}.
Record StateResponse := {
  str_height : option Z;
  str_tip_hash : option string;
  str_emitted_supply_atomic : Z;
  str_tracked_addresses : Z;
  str_latest_block_base_fee_atomic : option Z;
  str_latest_block_fees_atomic : option Z;
  str_latest_block_burned_fees_atomic : option Z;
  str_latest_block_priority_fees_atomic : option Z;
  str_latest_coinbase_reward_atomic : option Z;
  str_balances : list StateBalanceEntry;
}.
Record SupplyResponse := { sr_emitted : Z; sr_max : Z; sr_remaining : Z }.

(** [struct MiningTemplateResponse] *)
Record MiningTemplateResponse := {
  mtr_protocol : string;
  mtr_template_id : string;
  mtr_expires_at : Z;
  mtr_version : Z;
  mtr_network_id : string;
  mtr_height : Z;
  mtr_previous_hash : string;
  mtr_merkle_root : string;
  mtr_base_fee_atomic : Z;
  mtr_timestamp : Z;
  mtr_difficulty : Z;
  mtr_nonce_start : Z;
  mtr_transactions : list Transaction;
}.

(** The gateway's own view of a submission, and its answer. *)
Record GatewaySubmitRequest := mkGatewayRequest {
  gr_protocol : string;
  gr_template_id : string;
  gr_nonce : Z;
  gr_block_hash : string;
  gr_mix_hash : string;
}.
Record GatewaySubmitResponse := mkGatewayResponse {
  gs_protocol : string;
  gs_status : string;
  gs_template_id : string;
  gs_block_hash : string;
  gs_height : option Z;
  gs_reason : option string;
}.

(** [MAX_SUPPLY_ATOMIC - emitted], wrapping. *)
Definition supply_response (c : Chain) : SupplyResponse := {|
  sr_emitted := Chain_emitted_supply c;
  sr_max := MAX_SUPPLY_ATOMIC;
  sr_remaining := uwrap 64 (MAX_SUPPLY_ATOMIC - Chain_emitted_supply c) |}.

Definition address_response (c : Chain) (address : string) : AddressResponse := {|
  ar_address := address;
  ar_exists := negb (is_none (balances (ch_state c) !! address));
  ar_balance_atomic := balance_of (ch_state c) address |}.

Definition address_balance_response (c : Chain) (address : string) : AddressBalanceResponse :=
  let next_nonce := next_nonce_of (ch_state c) address in {|
  abr_address := address;
  abr_balance_atomic := balance_of (ch_state c) address;
  abr_next_nonce := next_nonce;
  abr_exists := negb (is_none (balances (ch_state c) !! address)) || (next_nonce >? FIRST_ACCOUNT_NONCE) |}.

(** [Option<u64>] lookups of the latest height. *)
Definition latest_of (c : Chain) (m : gmap Z Amount) : option Z := h ← Chain_height c; m !! h.

Definition state_response `{Primitives} (c : Chain) : StateResponse := {|
  str_height := Chain_height c;
  str_tip_hash := hash_to_hex <$> Chain_tip_hash c;
  str_emitted_supply_atomic := Chain_emitted_supply c;
  str_tracked_addresses := Z.of_nat (length (btree_entries (balances (ch_state c))));
  str_latest_block_base_fee_atomic :=
    h ← Chain_height c; (λ p, bh_base_fee_atomic (header p.2)) <$> list_find (λ b, bh_height (header b) = h) (ch_blocks c);
  str_latest_block_fees_atomic := latest_of c (block_fees (ch_state c));
  str_latest_block_burned_fees_atomic := latest_of c (block_burned_fees (ch_state c));
  str_latest_block_priority_fees_atomic := latest_of c (block_priority_fees (ch_state c));
  str_latest_coinbase_reward_atomic := latest_of c (coinbase_rewards (ch_state c));
  str_balances := (λ '(a, v), {| sbe_address := a; sbe_balance_atomic := v;
    sbe_next_nonce := next_nonce_of (ch_state c) a |}) <$> btree_entries (balances (ch_state c)) |}.

Section gateway.
Context `{Primitives}.

Definition transaction_response (tx : Transaction) (lifecycle_status : string) (block_height : option Z)
    (block_hash : option string) (base_fee : Amount) : TransactionResponse := {|
  tr_lifecycle_status := lifecycle_status;
  tr_hash := hash_to_hex (tx_hash tx);
  tr_block_height := block_height;
  tr_block_hash := block_hash;
  tr_version := tx_version tx;
  tr_nonce := tx_nonce tx;
  tr_from := tx_from tx;
  tr_to := tx_to tx;
  tr_amount_atomic := tx_amount tx;
  tr_fee_atomic := unwrap_or 0 (effective_fee tx base_fee);
  tr_max_fee_atomic := tx_max_fee tx;
  tr_priority_fee_atomic := tx_priority_fee tx;
  tr_effective_fee_atomic := unwrap_or 0 (effective_fee tx base_fee);
  tr_burned_fee_atomic := if is_coinbase tx then 0 else base_fee;
  tr_effective_priority_fee_atomic := unwrap_or 0 (effective_priority_fee tx base_fee);
  tr_base_fee_atomic := base_fee;
  tr_memo_hash := hash_to_hex <$> tx_memo_hash tx;
  tr_sender_public_key_hex := bytes_to_hex <$> tx_sender_public_key tx;
  tr_signature_hex := bytes_to_hex <$> tx_signature tx;
  tr_authorization_state :=
    if is_coinbase tx then "coinbase" else if negb (is_none (tx_signature tx)) then "signed" else "unsigned";
  tr_signature_standard_id := ss_standard_id launch_signing_standard;
  tr_signatures_status := SIGNATURES_STATUS |}.

Definition block_response (b : Block) : BlockResponse :=
  let hash := hash_to_hex (block_hash b) in {|
  br_network_id := bh_network_id (header b);
  br_height := bh_height (header b);
  br_hash := hash;
  br_previous_hash := hash_to_hex (bh_previous_hash (header b));
  br_merkle_root := hash_to_hex (bh_merkle_root (header b));
  br_base_fee_atomic := bh_base_fee_atomic (header b);
  br_timestamp := bh_timestamp (header b);
  br_nonce := bh_nonce (header b);
  br_difficulty := bh_difficulty (header b);
  br_transaction_count := Z.of_nat (length (transactions b));
  br_transactions := (λ tx, transaction_response tx "mined" (Some (bh_height (header b))) (Some hash)
    (bh_base_fee_atomic (header b))) <$> transactions b |}.

Definition address_account_response (c : Chain) (address : string) (mempool_nonces : list Z)
    (anticipated_base_fee_atomic : Z) : AddressAccountResponse :=
  let ledger_next := next_nonce_of (ch_state c) address in {|
  aar_address := address;
  aar_exists := negb (is_none (balances (ch_state c) !! address)) || (ledger_next >? FIRST_ACCOUNT_NONCE);
  aar_balance_atomic := balance_of (ch_state c) address;
  aar_next_nonce := foldl (λ next nonce, Z.max next (saturating_add 64 nonce 1)) ledger_next mempool_nonces;
  aar_tip_hash := hash_to_hex <$> Chain_tip_hash c;
  aar_tip_height := Chain_height c;
  aar_anticipated_base_fee_atomic := anticipated_base_fee_atomic |}.

(** ** The chain cache *)

Definition loaded_of (blocks : list Block) (c : Chain) : LoadedChain :=
  mkLoaded blocks c (Chain_height c) (hash_to_hex <$> Chain_tip_hash c) (Chain_emitted_supply c)
    (match Chain_cumulative_work c with Ok w => Some (uint_to_string w) | Err _ => None end).

(** The cache miss of [load_chain]; [path] is the printed chain path. *)
Definition load_chain_fresh (config : RpcConfig) (path : string) (fingerprint : Fingerprint) (clock : nat → Z) :
    gateway LoadedChain :=
  s ← sr_get;
  blocks ← sr_lift (map_err RpcNode (load_blocks path (ns_db (gw_node s))));
  if bool_decide (blocks = [])
  then _ ← sr_modify (set_cache None); sr_lift (Err (RpcNode (ChainNotInitialized path))) else
  c ← sr_lift (map_err RpcCore (from_blocks (rc_network config) (timed clock blocks)));
  _ ← sr_modify (set_cache (Some (mkCached fingerprint (loaded_of blocks c))));
  mret (loaded_of blocks c).

Definition load_chain (config : RpcConfig) (path : string) (fingerprint : Fingerprint) (clock : nat → Z) :
    gateway LoadedChain :=
  s ← sr_get;
  match gw_cache s with
  | Some cached =>
      if bool_decide (cc_fingerprint cached = fingerprint) then mret (cc_loaded cached)
      else load_chain_fresh config path fingerprint clock
  | None => load_chain_fresh config path fingerprint clock
  end.

Section handlers.
Context (config : RpcConfig) (path : string) (fingerprint : Fingerprint) (clock : nat → Z).

Definition chain_tip : gateway (Z * string) :=
  loaded ← load_chain config path fingerprint clock;
  height ← sr_lift (ok_or (NotFoundError "no chain tip available") (lc_height loaded));
  hash ← sr_lift (ok_or (NotFoundError "no chain tip available") (lc_tip_hash loaded));
  mret (height, hash).

Definition chain_height : gateway Z :=
  loaded ← load_chain config path fingerprint clock;
  sr_lift (ok_or (NotFoundError "no chain height available") (lc_height loaded)).

Definition blocks_latest : gateway BlockResponse :=
  loaded ← load_chain config path fingerprint clock;
  block ← sr_lift (ok_or (NotFoundError "latest block not found") (last (lc_blocks loaded)));
  mret (block_response block).

Definition addresses (address : string) : gateway AddressResponse :=
  loaded ← load_chain config path fingerprint clock; mret (address_response (lc_chain loaded) address).

Definition address_balance (address : string) : gateway AddressBalanceResponse :=
  loaded ← load_chain config path fingerprint clock; mret (address_balance_response (lc_chain loaded) address).

(** [pool_file]: the outcome of reading the pool file, which this handler ignores
    when it fails. *)
Definition address_account (pool_file : NodeResult ()) (address : string) : gateway AddressAccountResponse :=
  loaded ← load_chain config path fingerprint clock;
  s ← sr_get;
  let pending := match pool_file with Ok _ => ns_pool (gw_node s) | Err _ => [] end in
  let mempool_nonces := tx_nonce <$> filter (λ tx, tx_from tx = Some address) (txs_of pending) in
  mret (address_account_response (lc_chain loaded) address mempool_nonces (next_base_fee (last (lc_blocks loaded)))).

Definition state_snapshot : gateway StateResponse :=
  loaded ← load_chain config path fingerprint clock; mret (state_response (lc_chain loaded)).

Definition supply : gateway SupplyResponse :=
  loaded ← load_chain config path fingerprint clock; mret (supply_response (lc_chain loaded)).

Definition blocks_by_height (height : Z) : gateway BlockResponse :=
  loaded ← load_chain config path fingerprint clock;
  found ← sr_lift (ok_or (NotFoundError ("block at height " ++ uint_to_string height ++ " not found"))
    (list_find (λ b, bh_height (header b) = height) (lc_blocks loaded)));
  mret (block_response found.2).

Definition blocks_by_hash (hash : string) : gateway BlockResponse :=
  loaded ← load_chain config path fingerprint clock;
  found ← sr_lift (ok_or (NotFoundError ("block with hash " ++ hash ++ " not found"))
    (list_find (λ b, hash_to_hex (block_hash b) = hash) (lc_blocks loaded)));
  mret (block_response found.2).

(** The search through the blocks of [transactions_by_hash]. *)
Fixpoint find_mined (hash : string) (blocks : list Block) : option TransactionResponse :=
  match blocks with
  | [] => None
  | b :: rest =>
      match list_find (λ tx, hash_to_hex (tx_hash tx) = hash) (transactions b) with
      | Some (_, tx) => Some (transaction_response tx "mined" (Some (bh_height (header b)))
          (Some (hash_to_hex (block_hash b))) (bh_base_fee_atomic (header b)))
      | None => find_mined hash rest
      end
  end.

Definition transactions_by_hash (pool_file : NodeResult ()) (hash : string) : gateway TransactionResponse :=
  loaded ← load_chain config path fingerprint clock;
  let anticipated_base_fee := next_base_fee (last (lc_blocks loaded)) in
  _ ← sr_lift (map_err RpcNode pool_file);
  s ← sr_get;
  match list_find (λ r, pr_tx_hash r = hash) (ns_pool (gw_node s)) with
  | Some (_, r) => mret (transaction_response (pr_transaction r) "pending" None None anticipated_base_fee)
  | None => sr_lift (ok_or (NotFoundError ("transaction with hash " ++ hash ++ " not found"))
              (find_mined hash (lc_blocks loaded)))
  end.

(** [submit_transaction], on the node's own operation. *)
Definition rpc_submit_transaction (t_admit t_cap t_evict t_push : Z) (dir : DataDir) (tx : Transaction) :
    gateway SubmitTransactionSummary :=
  on_node map_submission_error (node_submit_transaction clock t_admit t_cap t_evict t_push dir
    (rc_max_mempool_transactions config) tx).

Definition rpc_mempool_status (now : Z) (dir : DataDir) : gateway MempoolStatusSummary :=
  on_node map_submission_error (mempool_status clock now dir).

Definition rpc_mempool (now : Z) (dir : DataDir) (pool_file : NodeResult ()) :
    gateway (MempoolStatusSummary * list TransactionResponse) :=
  loaded ← load_chain config path fingerprint clock;
  let anticipated_base_fee := next_base_fee (last (lc_blocks loaded)) in
  summary ← rpc_mempool_status now dir;
  _ ← sr_lift (map_err RpcNode pool_file);
  s ← sr_get;
  mret (summary, (λ r, transaction_response (pr_transaction r) "pending" None None anticipated_base_fee)
    <$> ns_pool (gw_node s)).

End handlers.

(** ** Mining *)

(** The answer that describes a stored block. *)
Definition template_response (template_id : string) (expires_at : Z) (b : Block) : MiningTemplateResponse := {|
  mtr_protocol := MINING_PROTOCOL;
  mtr_template_id := template_id;
  mtr_expires_at := expires_at;
  mtr_version := bh_version (header b);
  mtr_network_id := bh_network_id (header b);
  mtr_height := bh_height (header b);
  mtr_previous_hash := hash_to_hex (bh_previous_hash (header b));
  mtr_merkle_root := hash_to_hex (bh_merkle_root (header b));
  mtr_base_fee_atomic := bh_base_fee_atomic (header b);
  mtr_timestamp := bh_timestamp (header b);
  mtr_difficulty := bh_difficulty (header b);
  mtr_nonce_start := 0;
  mtr_transactions := transactions b |}.

(** Whether a stored template may be handed out again for [fresh]. *)
Definition reusable (now : Z) (miner_address : string) (fresh : Block) (stored : StoredMiningTemplate) : bool :=
  (saturating_add 64 now MINING_TEMPLATE_REUSE_MIN_REMAINING_SECONDS <? sm_expires_at stored)
  && bool_decide (sm_miner_address stored = miner_address)
  && (bh_height (header (sm_block stored)) =? bh_height (header fresh))
  && bool_decide (hash_to_hex (bh_previous_hash (header (sm_block stored))) = hash_to_hex (bh_previous_hash (header fresh)))
  && bool_decide (hash_to_hex (bh_merkle_root (header (sm_block stored))) = hash_to_hex (bh_merkle_root (header fresh)))
  && (bh_difficulty (header (sm_block stored)) =? bh_difficulty (header fresh)).

(** [templates.retain(|_, stored| stored.expires_at_unix_seconds > now)] *)
Definition retain_live (now : Z) (m : gmap string StoredMiningTemplate) : gmap string StoredMiningTemplate :=
  filter (λ e, now < sm_expires_at e.2) m.

(** [mining_template]: [order] lists the hash map in its iteration order. *)
Definition mining_template (order : gmap string StoredMiningTemplate → list (string * StoredMiningTemplate))
    (env : NodeEnv) (clock : nat → Z) (now t_select t_template : Z) (max_transactions : Z)
    (random_id miner_address : string) : gateway MiningTemplateResponse := λ s,
  match node_block_template env clock t_select t_template miner_address max_transactions (gw_node s) with
  | Err e => (Err (map_submission_error e), s)
  | Ok template =>
      let fresh := bt_block template in
      let templates := retain_live now (gw_templates s) in
      match list_find (λ e, reusable now miner_address fresh e.2 = true) (order templates) with
      | Some (_, (template_id, stored)) =>
          (Ok (template_response template_id (sm_expires_at stored) (sm_block stored)), set_templates templates s)
      | None =>
          let expires_at := saturating_add 64 now MINING_TEMPLATE_TTL_SECONDS in
          if MAX_ACTIVE_MINING_TEMPLATES <=? Z.of_nat (size templates)
          then (Err (BadRequest "too many active mining templates; retry after expiration"), set_templates templates s)
          else (Ok (template_response random_id expires_at fresh),
                set_templates (<[random_id := mkStored expires_at fresh miner_address]> templates) s)
      end
  end.

(** The candidate of a submission: the stored block with the submitted nonce and,
    when given, mix hash. *)
Definition candidate_of (stored : Block) (request : GatewaySubmitRequest) : result RpcError Block :=
  let mix := str_trim (gr_mix_hash request) in
  if str_is_empty mix then Ok (set_nonce_mix (gr_nonce request) (bh_mix_hash (header stored)) stored) else
  m ← map_err (λ e, BadRequest ("invalid mix_hash: " ++ e)%string) (Hash_from_hex mix);
  Ok (set_nonce_mix (gr_nonce request) m stored).

Definition mining_submit (env : NodeEnv) (clock : nat → Z) (now now' : Z) (pool_io : bool)
    (request : GatewaySubmitRequest) : gateway GatewaySubmitResponse := λ s,
  if negb (bool_decide (gr_protocol request = MINING_PROTOCOL))
  then (Err (BadRequest ("unsupported mining protocol " ++ gr_protocol request ++ "; expected " ++ MINING_PROTOCOL)), s) else
  let templates := retain_live now (gw_templates s) in
  let s := set_templates (delete (gr_template_id request) templates) s in
  match templates !! gr_template_id request with
  | None => (Ok (mkGatewayResponse MINING_PROTOCOL "stale" (gr_template_id request) (gr_block_hash request) None
      (Some "template is unknown or expired"%string)), s)
  | Some stored =>
      match candidate_of (sm_block stored) request with
      | Err e => (Err e, s)
      | Ok candidate =>
          let computed_hash := hash_to_hex (block_hash candidate) in
          let answer status hash height reason := mkGatewayResponse MINING_PROTOCOL status (gr_template_id request) hash height reason in
          if negb (bool_decide (computed_hash = str_to_ascii_lowercase (gr_block_hash request)))
          then (Ok (answer "rejected" computed_hash None
            (Some "submitted block_hash does not match FiroPoW final hash for nonce/mix_hash"))%string, s) else
          let '(r, node) := submit_mined_block env clock now' pool_io candidate (gw_node s) in
          let s := mkGateway (gw_templates s) (gw_cache s) node in
          match r with
          | Ok summary => (Ok (answer "accepted" (smb_block_hash summary) (Some (smb_block_height summary)) None)%string, s)
          | Err (Core (InvalidPreviousHash _ _)) =>
              (Ok (answer "stale" computed_hash None (Some "chain tip changed before submission"))%string, s)
          | Err e => (Ok (answer "rejected" computed_hash None (Some (NodeError_fmt e)))%string, s)
          end
      end
  end.

(** What a miner reads from a template answer: the JSON object has no share
    difficulty. *)
Definition template_of_response (r : MiningTemplateResponse) : MiningTemplate :=
  mkTemplate (mtr_protocol r) (mtr_template_id r) (mtr_expires_at r) (mtr_version r) (mtr_network_id r) (mtr_height r)
    (mtr_previous_hash r) (mtr_merkle_root r) (mtr_base_fee_atomic r) (mtr_timestamp r) (mtr_difficulty r) None
    (mtr_nonce_start r) (mtr_transactions r).
(** What the gateway reads from a miner's request. *)
Definition gateway_request (r : MiningSubmitRequest) : GatewaySubmitRequest :=
  mkGatewayRequest (mr_protocol r) (mr_template_id r) (mr_nonce r) (mr_block_hash r) (mr_mix_hash r).

End gateway.

(** [page_bounds] *)
Definition page_bounds (offset limit : option Z) : Z * Z := (default 0 offset, clamp 1 100 (default 20 limit)).
