(* ===== verification/GatewayTheory.v ===== *)
(** The gateway between node and miners: what it hands out builds at the miner,
    what it answers to a submission, and what its queries report. *)

From S2P Require Import Prelude RustStd Interfaces Crypto Errors Network Amount Signing Address Transaction Block Pow Consensus State Ledger Chain Genesis NodeConfig GenesisApproval Storage Mempool Node NodeOps NodeMine NodeTheory MinerWork GatewayConfig Gateway.

(** ** Texts of hashes *)

Section texts.
Context `{PrimitivesOk}.

Lemma hash_text_lower h : hash_wf h → str_to_ascii_lowercase (hash_to_hex h) = hash_to_hex h.
Proof.
  intros Hh. pose proof (valid_hash_canonical _ (hash_to_hex_valid h Hh)) as Hc.
  by rewrite str_trim_graphic in Hc by (unfold hash_to_hex; rewrite str_bytes_of_bytes; apply hex_bytes_graphic).
Qed.

Lemma hash_text_trim h : str_trim (hash_to_hex h) = hash_to_hex h.
Proof. apply str_trim_graphic. unfold hash_to_hex. rewrite str_bytes_of_bytes. apply hex_bytes_graphic. Qed.

Lemma hash_text_nonempty h : hash_wf h → hash_to_hex h ≠ ""%string.
Proof.
  intros Hh He%(f_equal str_bytes). unfold hash_to_hex in He. rewrite str_bytes_of_bytes in He.
  apply (f_equal length) in He. rewrite length_hex_bytes, Hh in He. done.
Qed.

Lemma parse_hash_text field h : hash_wf h → parse_hash field (hash_to_hex h) = Ok h.
Proof. intros Hh. unfold parse_hash, hash_to_hex. by rewrite Hash_from_hex_bytes. Qed.

Lemma merkle_to_wf n l r : merkle_to n l r → Forall hash_wf l → hash_wf r.
Proof. induction 1 as [r|n l r _ _ IH]; [by rewrite Forall_singleton|]. intros _. apply IH, merkle_step_wf. Qed.

Lemma merkle_root_wf txs r : compute_merkle_root txs = Ok r → hash_wf r.
Proof. intros (n & Hm & _)%compute_merkle_root_to. eapply merkle_to_wf; [exact Hm | apply tx_hashes_wf]. Qed.

End texts.

(** ** Templates *)

Section templates.
Context `{PrimitivesOk}.

(** What a stored template's block satisfies. *)
Record servable (miner_address : string) (b : Block) : Prop := {
  sv_nonce : bh_nonce (header b) = 0;
  sv_mix : bh_mix_hash (header b) = Hash_zero;
  sv_previous : hash_wf (bh_previous_hash (header b));
  sv_merkle : compute_merkle_root (transactions b) = Ok (bh_merkle_root (header b));
  sv_network : ∃ n a, bh_network_id (header b) = network_id n ∧ Address_parse miner_address = Ok a ∧ addr_network a = n;
  sv_coinbase : ∃ cb, head (transactions b) = Some cb ∧ is_coinbase cb = true ∧ tx_to cb = miner_address;
}.

Definition templates_ok (m : gmap string StoredMiningTemplate) : Prop :=
  map_Forall (λ id st, str_trim id ≠ ""%string ∧ servable (sm_miner_address st) (sm_block st)) m.

(** The blocks the node assembles for an address of its network. *)
Lemma create_template_servable t_select now path config c pool miner_address a max_transactions t :
  Address_parse miner_address = Ok a → addr_network a = cfg_network config →
  create_block_template t_select now path config c pool miner_address max_transactions = Ok t →
  servable miner_address (bt_block t).
Proof.
  intros Ha Hn. unfold create_block_template. rewrite if_Err_Ok. intros [_ Hx]. rewrite bind_const_Ok in Hx.
  destruct Hx as [_ Hx]. cbv zeta in Hx. apply bind_Ok in Hx as ([selected skipped] & _ & Hx).
  apply bind_Ok in Hx as (previous & _ & Hx). apply bind_Ok in Hx as (fees & _ & Hx).
  apply bind_Ok in Hx as (amount & _ & Hx). apply bind_Ok in Hx as (cb & Hcb%map_err_Ok & Hx).
  apply bind_Ok in Hx as (b & Hb%map_err_Ok & [= <-]). cbn [bt_block].
  unfold Block_new, Block_new_with_version in Hb. rewrite if_Err_Ok in Hb. destruct Hb as [_ Hb].
  apply bind_Ok in Hb as (root & Hroot & [= <-]).
  assert (is_coinbase cb = true ∧ tx_to cb = miner_address) as [Hcoin Hto].
  { unfold Transaction_coinbase, Transaction_new in Hcb. cbv zeta in Hcb.
    apply bind_unit_Ok in Hcb as [_ [= <-]]. done. }
  split; cbn [header transactions bh_nonce bh_mix_hash bh_previous_hash bh_merkle_root bh_network_id]; try done.
  - apply block_hash_wf.
  - eauto 10.
  - eauto.
Qed.

(** A servable block's answer builds, at the miner, to the block itself. *)
Lemma servable_builds id expires now miner_address b :
  servable miner_address b → str_trim id ≠ ""%string → now < expires →
  validate_and_build now miner_address (template_of_response (template_response id expires b)) = Ok b.
Proof.
  intros [Hnonce Hmix Hprev Hroot (n & a & Hnet & Ha & Han) (cb & Hcb & Hcoin & Hto)] Hid Hexp.
  pose proof (merkle_root_wf _ _ Hroot) as Hrwf.
  unfold validate_and_build. cbn [template_of_response template_response mt_protocol mt_template_id mt_expires_at
    mt_network_id mt_transactions mt_previous_hash mt_merkle_root mtr_protocol mtr_template_id mtr_expires_at
    mtr_network_id mtr_transactions mtr_previous_hash mtr_merkle_root].
  rewrite bool_decide_eq_true_2 by done. cbn [negb].
  rewrite (proj2 (str_is_empty_false_iff _) Hid), (proj2 (Z.leb_gt _ _) Hexp), Hnet, from_network_id_id.
  cbn [ok_or mbind result_bind]. rewrite Ha. cbn [map_err mbind result_bind].
  rewrite bool_decide_eq_true_2 by done. cbn [negb]. rewrite Hcb. cbn [ok_or mbind result_bind].
  rewrite Hcoin, bool_decide_eq_true_2 by done. cbn [negb orb].
  rewrite (parse_hash_text _ _ Hprev), (parse_hash_text _ _ Hrwf). cbn [mbind result_bind]. cbv zeta.
  unfold recompute_merkle_root, template_block. cbn [transactions mt_transactions mtr_transactions header bh_merkle_root].
  cbn [template_of_response template_response mt_transactions mtr_transactions]. rewrite Hroot.
  cbn [map_err mbind result_bind]. rewrite bool_decide_eq_true_2 by done. cbn [negb]. f_equal.
  destruct b as [[] txs]. cbn in *. by subst.
Qed.

Lemma retain_lookup now (m : gmap string StoredMiningTemplate) id st :
  retain_live now m !! id = Some st ↔ m !! id = Some st ∧ now < sm_expires_at st.
Proof. unfold retain_live. by rewrite map_lookup_filter_Some. Qed.

Lemma retain_ok now m : templates_ok m → templates_ok (retain_live now m).
Proof. intros Hm id st [Hid _]%retain_lookup. by apply Hm. Qed.

Context (order : gmap string StoredMiningTemplate → list (string * StoredMiningTemplate)).
(** The iteration order of a hash map: each entry once. *)
Context (order_perm : ∀ m, order m ≡ₚ map_to_list m).

Lemma order_lookup m id st : (id, st) ∈ order m → m !! id = Some st.
Proof. rewrite order_perm. apply elem_of_map_to_list. Qed.

(** Work handed out builds: every answer of the template endpoint is stored under
    its id for that miner, unexpired, and the miner that reads it reconstructs
    exactly the stored block, whether it is a fresh template or a reused one, at
    any time before it expires; and the stored templates keep that property. *)
Theorem issued_template_builds env clock now t_select t_template max_transactions random_id miner_address a s resp s' config :
  templates_ok (gw_templates s) → str_trim random_id ≠ ""%string →
  Address_parse miner_address = Ok a → load_network_config (file_network (ne_files env)) = Ok config →
  addr_network a = cfg_network config → now + MINING_TEMPLATE_TTL_SECONDS <= umax 64 →
  mining_template order env clock now t_select t_template max_transactions random_id miner_address s = (Ok resp, s') →
  templates_ok (gw_templates s') ∧ gw_node s' = gw_node s ∧
  ∃ st, gw_templates s' !! mtr_template_id resp = Some st ∧ sm_miner_address st = miner_address ∧
    mtr_expires_at resp = sm_expires_at st ∧ now < sm_expires_at st ∧
    ∀ now', now' < sm_expires_at st →
      validate_and_build now' miner_address (template_of_response resp) = Ok (sm_block st).
Proof.
  intros Hok Hid Ha Hconfig Hnet Hmax. unfold mining_template.
  destruct (node_block_template _ _ _ _ _ _ _) as [t|] eqn:Ht; [|done]. cbv zeta.
  assert (servable miner_address (bt_block t)) as Hsv.
  { unfold node_block_template in Ht. apply bind_const_Ok in Ht as [_ Ht].
    apply bind_Ok in Ht as ([[config' blocks] c] & Hload & Ht).
    assert (config' = config) as ->.
    { unfold load_validated_chain in Hload. rewrite Hconfig in Hload. cbn [mbind result_bind] in Hload.
      apply bind_const_Ok in Hload as [_ Hload]. apply bind_const_Ok in Hload as [_ Hload].
      apply bind_Ok in Hload as (? & _ & Hload). by apply bind_Ok in Hload as (? & _ & [= <- _ _]). }
    by eapply create_template_servable. }
  destruct (list_find _ _) as [[i [id st]]|] eqn:Hf.
  - apply list_find_Some in Hf as (Hi & Hre & _). apply list_elem_of_lookup_2, order_lookup in Hi. cbn [snd] in Hre.
    intros [= <- <-]. cbn [set_templates gw_templates gw_node]. split; [by apply retain_ok|]. split; [done|].
    exists st. unfold reusable in Hre. repeat rewrite andb_true_iff in Hre.
    destruct Hre as (((((_ & Haddr) & _) & _) & _) & _). breflect.
    cbn [template_response mtr_template_id mtr_expires_at]. split_and!; try done.
    + by apply retain_lookup in Hi as [_ ?].
    + intros now' Hnow'. apply retain_lookup in Hi as [Hi _]. destruct (Hok _ _ Hi) as [Hidn Hsvb]. rewrite Haddr in Hsvb.
      by apply servable_builds.
  - destruct (_ <=? _); [done|]. intros [= <- <-]. cbn [set_templates gw_templates gw_node].
    assert (saturating_add 64 now MINING_TEMPLATE_TTL_SECONDS = now + MINING_TEMPLATE_TTL_SECONDS) as Hsat
      by (unfold saturating_add; lia).
    split; [apply map_Forall_insert_2; [done | by apply retain_ok]|]. split; [done|].
    eexists. split; [apply lookup_insert_eq|]. cbn [sm_miner_address sm_expires_at sm_block].
    split_and!; [done | done | rewrite Hsat; unfold MINING_TEMPLATE_TTL_SECONDS; lia|].
    intros now' Hnow'. by apply servable_builds.
Qed.

End templates.

(** ** Submissions *)

Section submissions.
Context `{PrimitivesOk}.
Context (env : NodeEnv) (config : NetworkConfig).
Context (Hconfig : load_network_config (file_network (ne_files env)) = Ok config).
Context (Hdir : ensure_network_storage_path (cfg_network config) (ne_dir env) = Ok ()).

#[local] Abbreviation net := (cfg_network config).
#[local] Abbreviation node_ok := (node_ok env config).

(** The answer to the outcome of storing the candidate. *)
Definition submit_answer (id : string) (computed : string) (r : NodeResult SubmittedMinedBlock) : GatewaySubmitResponse :=
  let answer status hash height reason := mkGatewayResponse MINING_PROTOCOL status id hash height reason in
  match r with
  | Ok summary => answer "accepted" (smb_block_hash summary) (Some (smb_block_height summary)) None
  | Err (Core (InvalidPreviousHash _ _)) => answer "stale" computed None (Some "chain tip changed before submission")
  | Err e => answer "rejected" computed None (Some (NodeError_fmt e))
  end%string.

(** A submission for a live template, as a miner makes it from a solution. *)
Lemma mining_submit_live clock now now' pool_io s id st nonce final mix :
  gw_templates s !! id = Some st → now < sm_expires_at st → hash_wf final → hash_wf mix →
  let b := set_nonce_mix nonce mix (sm_block st) in
  let m := delete id (retain_live now (gw_templates s)) in
  mining_submit env clock now now' pool_io (gateway_request (MiningSubmitRequest_from_solution id nonce final mix)) s =
  if bool_decide (block_hash b = final) then
    let '(r, node) := submit_mined_block env clock now' pool_io b (gw_node s) in
    (Ok (submit_answer id (hash_to_hex (block_hash b)) r), mkGateway m (gw_cache s) node)
  else (Ok (mkGatewayResponse MINING_PROTOCOL "rejected" id (hash_to_hex (block_hash b)) None
          (Some "submitted block_hash does not match FiroPoW final hash for nonce/mix_hash"%string)), set_templates m s).
Proof.
  intros Hst Hexp Hf Hm. cbv zeta. set (req := gateway_request _).
  assert (gr_protocol req = MINING_PROTOCOL) as Hp by done. assert (gr_template_id req = id) as Hid by done.
  assert (gr_block_hash req = hash_to_hex final) as Hh by done.
  assert (candidate_of (sm_block st) req = Ok (set_nonce_mix nonce mix (sm_block st))) as Hcand.
  { unfold candidate_of, req. cbn [gateway_request MiningSubmitRequest_from_solution gr_mix_hash mr_mix_hash gr_nonce mr_nonce].
    rewrite hash_text_trim, (proj2 (str_is_empty_false_iff _) (hash_text_nonempty _ Hm)).
    unfold hash_to_hex. by rewrite (Hash_from_hex_bytes _ Hm). }
  clearbody req. unfold mining_submit. rewrite Hp, Hid, Hh. rewrite bool_decide_eq_true_2 by done. cbn [negb]. cbv zeta.
  rewrite (proj2 (retain_lookup _ _ _ _) (conj Hst Hexp)).
  rewrite Hcand, (hash_text_lower _ Hf). set (b := set_nonce_mix nonce mix (sm_block st)).
  destruct (bool_decide_reflect (block_hash b = final)) as [->|Hne].
  - rewrite bool_decide_eq_true_2 by done. cbn [negb set_templates gw_node gw_templates gw_cache].
    destruct (submit_mined_block env clock now' pool_io b (gw_node s)) as [[sum|e] node]; [done|].
    by destruct e as [| | | |[]| | | | | | | | | | | | | | | | |].
  - rewrite bool_decide_eq_false_2; [done|]. intros Heq%hash_to_hex_inj. done.
Qed.

Lemma submit_answer_accepted id computed r :
  gs_status (submit_answer id computed r) = "accepted"%string ↔ ∃ sum, r = Ok sum.
Proof.
  split; [|by intros [sum ->]]. destruct r as [sum|e]; [eauto|].
  by destruct e as [| | | |[]| | | | | | | | | | | | | | | | |].
Qed.

(** C20. A solution submitted for a live template: it is answered, and the template is
    gone whatever the answer.  It is accepted exactly when the submitted final
    hash is the one the node recomputes and the chain accepts the stored block
    with that nonce and mix hash; then the chain ends with that block, at the
    height answered.  A submission that is not accepted changes none of the
    node's files. *)
Theorem mining_submit_spec clock now now' pool_io s c id st nonce final mix b :
  gw_templates s !! id = Some st → now < sm_expires_at st → hash_wf final → hash_wf mix →
  b = set_nonce_mix nonce mix (sm_block st) →
  node_ok (gw_node s) c → block_wf b → clock_ok clock (ch_blocks c) → Z.of_nat (length (ch_blocks c)) < 2 ^ 63 →
  block_hash b ∉ block_hash <$> ch_blocks c →
  ∃ resp s', mining_submit env clock now now' pool_io
      (gateway_request (MiningSubmitRequest_from_solution id nonce final mix)) s = (Ok resp, s') ∧
    gw_templates s' !! id = None ∧
    (gs_status resp = "accepted"%string ↔ final = block_hash b ∧ ∃ c', append_block now' b c = (Ok (), c')) ∧
    (gs_status resp = "accepted"%string → ∃ c', append_block now' b c = (Ok (), c') ∧ node_ok (gw_node s') c' ∧
      gs_height resp = Some (Z.of_nat (length (ch_blocks c)))) ∧
    (gs_status resp ≠ "accepted"%string → gw_node s' = gw_node s).
Proof.
  intros Hst Hexp Hf Hm Hb Hs Hwf Hclock Hlen Hnew.
  rewrite (mining_submit_live clock now now' pool_io s id st nonce final mix Hst Hexp Hf Hm). rewrite <- Hb.
  destruct (bool_decide_reflect (block_hash b = final)) as [<-|Hne].
  - destruct (submit_mined_block env clock now' pool_io b (gw_node s)) as [r node] eqn:E.
    eexists _, _. split; [done|]. cbn [gw_templates gw_node]. split; [apply lookup_delete_eq|].
    pose proof (submit_mined_rules env config Hconfig Hdir clock now' pool_io b _ c r node Hs Hwf E) as Hr.
    rewrite submit_answer_accepted. destruct r as [sum|e].
    + destruct Hr as (c' & Happ & Hok & _ & Hh). split; [split; eauto|]. split; [|intros []; eauto].
      intros _. exists c'. cbn [submit_answer gs_height]. by rewrite Hh.
    + destruct Hr as [-> Herr]. specialize (Herr Hclock Hlen Hnew). split; [|split; [by intros [? [=]]|done]].
      split; [by intros [? [=]] | intros (_ & c' & Happ); by rewrite Happ in Herr].
  - eexists _, _. split; [done|]. cbn [set_templates gw_templates gw_node gs_status]. split; [apply lookup_delete_eq|].
    split; [split; [done | intros [-> _]; done]|]. split; [done|]. done.
Qed.

(** The error of a candidate that is not of the next height. *)
Lemma outdated_height now n prevs p b emitted acc :
  transactions b ≠ [] → Z.of_nat (length (transactions b)) <= MAX_TRANSACTIONS_PER_BLOCK →
  try_fold check_candidate_tx ∅ (transactions b) = Ok acc → bh_network_id (header b) = network_id n →
  bh_height (header b) ≠ wrapping_add 64 (bh_height (header p)) 1 →
  validate_next_block now n prevs (Some p) b emitted =
    Err (InvalidHeight (wrapping_add 64 (bh_height (header p)) 1) (bh_height (header b))).
Proof.
  intros Hne Hlen Hacc Hnet Hh. unfold validate_next_block. cbv zeta.
  rewrite bool_decide_eq_false_2 by done. rewrite Z.gtb_ltb, (proj2 (Z.ltb_ge _ _)) by lia. rewrite Hacc.
  cbn [mbind result_bind]. rewrite bool_decide_eq_true_2 by done. cbn [negb].
  by rewrite (proj2 (Z.eqb_neq _ _) Hh).
Qed.

(** Work that the chain has outrun is answered as rejected, not as stale: when
    the tip has moved to another height since the template was issued, a correct
    solution of the template gets the height error, because heights are checked
    before previous hashes and only the latter is mapped to stale. *)
Theorem outrun_work_rejected clock now now' pool_io s c id st nonce mix acc :
  gw_templates s !! id = Some st → now < sm_expires_at st → hash_wf mix →
  let b := set_nonce_mix nonce mix (sm_block st) in
  node_ok (gw_node s) c → clock_ok clock (ch_blocks c) → Z.of_nat (length (ch_blocks c)) < 2 ^ 63 →
  transactions b ≠ [] → Z.of_nat (length (transactions b)) <= MAX_TRANSACTIONS_PER_BLOCK →
  try_fold check_candidate_tx ∅ (transactions b) = Ok acc → bh_network_id (header b) = network_id net →
  bh_height (header b) ≠ Z.of_nat (length (ch_blocks c)) →
  ∃ resp s', mining_submit env clock now now' pool_io
      (gateway_request (MiningSubmitRequest_from_solution id nonce (block_hash b) mix)) s = (Ok resp, s') ∧
    gs_status resp = "rejected"%string ∧ gw_templates s' !! id = None.
Proof.
  intros Hst Hexp Hm b Hs Hclock Hlen Hne Hmax Hacc Hnet Hh.
  rewrite (mining_submit_live clock now now' pool_io s id st nonce (block_hash b) mix Hst Hexp (block_hash_wf b) Hm).
  fold b. rewrite bool_decide_eq_true_2 by done.
  pose proof (chain_reachable_ok _ _ (no_chain _ _ _ _ Hs)) as Hco.
  destruct (last (ch_blocks c)) as [p|] eqn:Hp; [|by apply last_None in Hp; destruct (no_initialized _ _ _ _ Hs)].
  assert (wrapping_add 64 (bh_height (header p)) 1 = Z.of_nat (length (ch_blocks c))) as Hnext.
  { rewrite last_lookup in Hp. rewrite (co_height _ _ Hco _ _ Hp). apply lookup_lt_Some in Hp.
    unfold wrapping_add, uwrap. rewrite Z.mod_small; lia. }
  assert (submit_mined_block env clock now' pool_io b (gw_node s) =
    (Err (Core (InvalidHeight (Z.of_nat (length (ch_blocks c))) (bh_height (header b)))), gw_node s)) as ->.
  { unfold submit_mined_block. rewrite sr_lift_bind, Hconfig, sr_lift_bind, Hdir.
    unfold mbind at 1, state_result_bind at 1, on_db at 1. unfold append_validated, db_transaction.
    rewrite sr_get_bind, sr_lift_bind, (load_node env config (gw_node s) c false Hs), sr_lift_bind.
    rewrite (build_Ok env config clock c (no_chain _ _ _ _ Hs) (no_genesis _ _ _ _ Hs) Hclock).
    cbn [mbind result_bind]. unfold append_block. rewrite sr_get_bind, sr_lift_bind, (co_network _ _ Hco), Hp.
    rewrite (outdated_height _ _ _ _ _ _ acc); [|done|done|done|done|by rewrite Hnext].
    cbn [fst map_err]. rewrite Hnext. by destruct (gw_node s). }
  eexists _, _. split; [done|]. split; [done|]. apply lookup_delete_eq.
Qed.

End submissions.

(** ** Queries *)

Lemma max_nonces k n :
  foldl (λ next nonce, Z.max next (saturating_add 64 nonce 1)) (nth_nonce k) ((λ i, nth_nonce (k + i)) <$> seq 0 n) =
  nth_nonce (k + n).
Proof.
  induction n as [|n IH]; [by rewrite Nat.add_0_r|].
  rewrite seq_S, fmap_app, foldl_app, IH. cbn [fmap list_fmap foldl Nat.add]. rewrite nth_nonce_S.
  unfold nth_nonce, umax. lia.
Qed.

Section queries.
Context `{PrimitivesOk}.
Context (env : NodeEnv) (config : NetworkConfig) (rpc : RpcConfig) (path : string) (fingerprint : Fingerprint).
Context (Hnet : rc_network rpc = cfg_network config).

#[local] Abbreviation node_ok := (node_ok env config).

(** The cache holds nothing, another fingerprint, or the chain of the files. *)
Definition cache_ok (s : GatewayState) (c : Chain) : Prop :=
  ∀ cached, gw_cache s = Some cached → cc_fingerprint cached = fingerprint →
    cc_loaded cached = loaded_of (ch_blocks c) c.

Lemma load_chain_Ok clock s c :
  node_ok (gw_node s) c → cache_ok s c → clock_ok clock (ch_blocks c) →
  ∃ s', load_chain rpc path fingerprint clock s = (Ok (loaded_of (ch_blocks c) c), s') ∧
    gw_node s' = gw_node s ∧ gw_templates s' = gw_templates s ∧ cache_ok s' c.
Proof.
  intros Hs Hc Hclock.
  assert (∃ s', load_chain_fresh rpc path fingerprint clock s = (Ok (loaded_of (ch_blocks c) c), s') ∧
    gw_node s' = gw_node s ∧ gw_templates s' = gw_templates s ∧ cache_ok s' c) as Hfresh.
  { unfold load_chain_fresh. rewrite sr_get_bind, sr_lift_bind. unfold load_blocks.
    assert (load_blocks_from_connection path false (ns_db (gw_node s)) = Ok (ch_blocks c)) as ->.
    { pose proof (load_node (Build_NodeEnv (ne_files env) (ne_deterministic env) (ne_payload_json env)
        {| dd_components := []; dd_display := ""; dd_database := path |}) config (gw_node s) c false) as Hl.
      apply Hl. destruct Hs. by split. }
    cbn [map_err]. rewrite bool_decide_eq_false_2 by apply Hs. rewrite sr_lift_bind, Hnet.
    rewrite (from_blocks_rebuild _ c clock (no_chain _ _ _ _ Hs) Hclock). cbn [map_err].
    rewrite sr_modify_bind. eexists. split; [done|]. cbn. split_and!; [done|done|].
    intros cached [= <-] _. done. }
  unfold load_chain. rewrite sr_get_bind. destruct (gw_cache s) as [cached|] eqn:Ec; [|done].
  destruct (bool_decide_reflect (cc_fingerprint cached = fingerprint)) as [Hf|]; [|done].
  exists s. rewrite (Hc _ Ec Hf). done.
Qed.

(** A block's position is its height. *)
Lemma find_height c h :
  chain_ok (cfg_network config) c → 0 <= h →
  (snd <$> list_find (λ b, bh_height (header b) = h) (ch_blocks c)) = ch_blocks c !! Z.to_nat h.
Proof.
  intros Hc Hh. destruct (list_find _ _) as [[i b]|] eqn:E.
  - apply list_find_Some in E as (Hi & Hb & _). rewrite (co_height _ _ Hc _ _ Hi) in Hb.
    cbn. rewrite <- Hi. f_equal. lia.
  - cbn. symmetry. destruct (ch_blocks c !! Z.to_nat h) as [b|] eqn:Eb; [|done]. exfalso.
    apply list_find_None in E. rewrite Forall_forall in E. apply (E b); [by eapply list_elem_of_lookup_2|].
    rewrite (co_height _ _ Hc _ _ Eb). lia.
Qed.

(** The queries report the stored chain, cached or not: the block at a height is
    the block at that position of the chain and beyond the tip there is none; the
    supply is what was emitted, the remainder never wraps, and the two add up to
    the cap; and the nonce reported for an account is the one the ledger expects
    after the pooled transactions, when these run on the tip. *)
Theorem queries_report_chain clock s c :
  node_ok (gw_node s) c → cache_ok s c → clock_ok clock (ch_blocks c) →
  (∀ h, 0 <= h → (blocks_by_height rpc path fingerprint clock h s).1 =
    match ch_blocks c !! Z.to_nat h with
    | Some b => Ok (block_response b)
    | None => Err (NotFoundError ("block at height " ++ uint_to_string h ++ " not found"))
    end) ∧
  (∃ r, (supply rpc path fingerprint clock s).1 = Ok r ∧ sr_emitted r = Chain_emitted_supply c ∧
    0 <= sr_remaining r ∧ sr_emitted r + sr_remaining r = MAX_SUPPLY_ATOMIC) ∧
  (∀ a st1, spends (next_base_fee (last (ch_blocks c))) (ch_state c) (txs_of (ns_pool (gw_node s))) st1 →
    ∃ r, (address_account rpc path fingerprint clock (Ok ()) a s).1 = Ok r ∧
      aar_next_nonce r = next_nonce_of st1 a ∧ aar_balance_atomic r = balance_of (ch_state c) a).
Proof.
  intros Hs Hc Hclock. destruct (load_chain_Ok clock s c Hs Hc Hclock) as (s' & Hl & Hn & _ & _).
  pose proof (chain_reachable_ok _ _ (no_chain _ _ _ _ Hs)) as Hco. split_and!.
  - intros h Hh. unfold blocks_by_height. rewrite (sr_bind_step _ _ _ _ _ Hl), sr_lift_bind.
    cbn [loaded_of lc_blocks]. pose proof (find_height c h Hco Hh) as Hfind.
    destruct (list_find _ _) as [[i b]|]; cbn in Hfind; rewrite <- Hfind; done.
  - unfold supply. rewrite (sr_bind_step _ _ _ _ _ Hl). eexists. split; [done|]. cbn [loaded_of lc_chain supply_response sr_emitted sr_remaining].
    split; [done|]. unfold Chain_emitted_supply.
    destruct (reachable_inv _ (chain_ok_reachable _ _ Hco)) as [Hok Hcons _].
    pose proof (lok_supply _ Hok) as Hsup. pose proof (total_nonneg _ (lok_balances _ Hok)). pose proof (lok_burned _ Hok).
    unfold conserved in Hcons. unfold uwrap. rewrite Z.mod_small; [lia|].
    assert (MAX_SUPPLY_ATOMIC < 2 ^ 64) by (vm_compute; congruence). lia.
  - intros a st1 Hsp. unfold address_account. rewrite (sr_bind_step _ _ _ _ _ Hl), sr_get_bind.
    eexists. split; [done|]. cbn [address_account_response aar_next_nonce aar_balance_atomic loaded_of lc_chain].
    split; [|done]. rewrite Hn. fold (nonces_of a (txs_of (ns_pool (gw_node s)))).
    destruct (history_next_nonce _ _ a (co_history _ _ Hco)) as [_ Hk].
    destruct (spends_nonces _ _ _ _ a _ Hsp Hk) as [-> ->]. rewrite Hk. rewrite max_nonces. by rewrite length_fmap, length_seq.
Qed.

End queries.
