(* ===== verification/Indexer.v ===== *)
(** [vireon-indexer/src/index.rs], [storage.rs] and [error.rs]: the index of a
    chain, rebuilt or extended, its file, and the queries on it.  The index file
    is missing, unreadable, or the index it parses to; the outcome of writing it
    is an argument. *)

From S2P Require Import Prelude RustStd Interfaces Crypto Errors Network Amount Signing Address Transaction Block Pow Consensus State Ledger Chain Genesis NodeConfig GenesisApproval Storage Mempool Node NodeOps.

Definition INDEXER_MODE : string := "Draft / Local Indexer / Prototype".

(** [struct SupplySummary] *)
Record SupplySummary := mkSupply { su_emitted : Z; su_max : Z; su_remaining : Z }.

(** [struct IndexedTransaction] *)
Record IndexedTransaction := {
  it_lifecycle_status : string;
  it_hash : string;
  it_block_height : Z;
  it_block_hash : string;
  it_block_transaction_count : Z;
  it_transaction_index : Z;
  it_version : Z;
  it_nonce : Z;
  it_from : option string;
  it_to : string;
  it_amount_atomic : Z;
  it_fee_atomic : Z;
  it_max_fee_atomic : Z;
  it_priority_fee_atomic : Z;
  it_effective_fee_atomic : Z;
  it_burned_fee_atomic : Z;
  it_effective_priority_fee_atomic : Z;
  it_base_fee_atomic : Z;
  it_memo_hash : option string;
  it_sender_public_key_hex : option string;
  it_signature_hex : option string;
  it_authorization_state : string;
}.

(** [struct IndexedBlock] *)
Record IndexedBlock := {
  ib_height : Z;
  ib_hash : string;
  ib_previous_hash : string;
  ib_merkle_root : string;
  ib_timestamp : Z;
  ib_nonce : Z;
  ib_difficulty : Z;
  ib_transaction_count : Z;
  ib_miner_address : string;
  ib_coinbase_payout_atomic : Z;
  ib_miner_reward_atomic : Z;
  ib_fees_atomic : Z;
  ib_burned_fees_atomic : Z;
  ib_priority_fees_atomic : Z;
  ib_base_fee_atomic : Z;
  ib_transaction_hashes : list string;
}.

(** [struct AddressActivity] *)
Record AddressActivity := mkActivity {
  aa_address : string;
  aa_exists_in_ledger : bool;
  aa_balance_atomic : Z;
  aa_total_received_atomic : Z;
  aa_total_sent_atomic : Z;
  aa_mined_reward_atomic : Z;
  aa_transaction_hashes : list string;
  aa_sent_tx_hashes : list string;
  aa_received_tx_hashes : list string;
  aa_mined_block_heights : list Z;
}.

(** [struct IndexSummary] *)
Record IndexSummary := {
  is_mode : string;
  is_network : string;
  is_status : string;
  is_indexed_height : option Z;
  is_indexed_block_count : Z;
  is_transaction_count : Z;
  is_address_count : Z;
  is_tip_hash : option string;
  is_latest_block_hash : option string;
  is_latest_block_timestamp : option Z;
  is_supply : SupplySummary;
}.

(** The maps of [struct IndexData], and the index. *)
Record IndexMaps := mkMaps {
  im_blocks_by_height : gmap Z IndexedBlock;
  im_blocks_by_hash : gmap string IndexedBlock;
  im_transactions_by_hash : gmap string IndexedTransaction;
  im_addresses : gmap string AddressActivity;
  im_miner_rewards_by_block : gmap Z Z;
  im_fees_by_block : gmap Z Z;
}.
Record IndexData := mkIndex { ix_summary : IndexSummary; ix_maps : IndexMaps }.

(** [struct IndexerStatus] *)
Record IndexerStatus := {
  xs_mode : string;
  xs_network_id : option string;
  xs_status_label : option string;
  xs_initialized : bool;
  xs_index_dir : string;
  xs_indexed_height : option Z;
  xs_indexed_block_count : Z;
  xs_transaction_count : Z;
  xs_address_count : Z;
  xs_tip_hash : option string;
  xs_chain_height : option Z;
  xs_chain_tip_hash : option string;
  xs_in_sync : bool;
  xs_lag_blocks : Z;
}.

(** [enum IndexerError] *)
Inductive IndexerError :=
| IndexerIo (text : string)
| IndexerJson (text : string)
| IndexerNode (error : NodeError)
| IndexerCore (error : VireonError)
| IndexNotInitialized (path : string)
| InvalidIndexFile (path message : string)
| IndexerNotFound (what : string).

(** ** The maps of one transaction and one block *)

Definition empty_address_activity (address : string) : AddressActivity :=
  mkActivity address false 0 0 0 0 [] [] [] [].

(** [addresses.entry(..).or_insert_with(..)], changed in place. *)
Definition on_activity (address : string) (f : AddressActivity → AddressActivity) (m : gmap string AddressActivity) :
    gmap string AddressActivity := <[address := f (default (empty_address_activity address) (m !! address))]> m.

(** What a transaction adds to its sender: its amount and fee (added with
    wrap-around before the saturating sum). *)
Definition sent (tx_hash : string) (debit : Z) (a : AddressActivity) : AddressActivity :=
  mkActivity (aa_address a) (aa_exists_in_ledger a) (aa_balance_atomic a) (aa_total_received_atomic a)
    (saturating_add 64 (aa_total_sent_atomic a) debit) (aa_mined_reward_atomic a)
    (aa_transaction_hashes a ++ [tx_hash]) (aa_sent_tx_hashes a ++ [tx_hash]) (aa_received_tx_hashes a)
    (aa_mined_block_heights a).
Definition received (tx_hash : string) (amount : Z) (a : AddressActivity) : AddressActivity :=
  mkActivity (aa_address a) (aa_exists_in_ledger a) (aa_balance_atomic a)
    (saturating_add 64 (aa_total_received_atomic a) amount) (aa_total_sent_atomic a) (aa_mined_reward_atomic a)
    (aa_transaction_hashes a ++ [tx_hash]) (aa_sent_tx_hashes a) (aa_received_tx_hashes a ++ [tx_hash])
    (aa_mined_block_heights a).
Definition mined_at (height reward : Z) (a : AddressActivity) : AddressActivity :=
  mkActivity (aa_address a) (aa_exists_in_ledger a) (aa_balance_atomic a) (aa_total_received_atomic a)
    (aa_total_sent_atomic a) (saturating_add 64 (aa_mined_reward_atomic a) reward) (aa_transaction_hashes a)
    (aa_sent_tx_hashes a) (aa_received_tx_hashes a) (aa_mined_block_heights a ++ [height]).
(** The ledger's view of an address. *)
Definition in_ledger (balance : Z) (a : AddressActivity) : AddressActivity :=
  mkActivity (aa_address a) true balance (aa_total_received_atomic a) (aa_total_sent_atomic a)
    (aa_mined_reward_atomic a) (aa_transaction_hashes a) (aa_sent_tx_hashes a) (aa_received_tx_hashes a)
    (aa_mined_block_heights a).
Definition not_in_ledger (a : AddressActivity) : AddressActivity :=
  mkActivity (aa_address a) false 0 (aa_total_received_atomic a) (aa_total_sent_atomic a)
    (aa_mined_reward_atomic a) (aa_transaction_hashes a) (aa_sent_tx_hashes a) (aa_received_tx_hashes a)
    (aa_mined_block_heights a).

Section indexer.
Context `{Primitives}.

Definition indexed_transaction (tx : Transaction) (block_height : Z) (block_hash : string) (count index : Z)
    (base_fee : Amount) : IndexedTransaction :=
  let effective_fee_atomic := unwrap_or 0 (effective_fee tx base_fee) in {|
  it_lifecycle_status := "mined";
  it_hash := tx_hash_hex tx;
  it_block_height := block_height;
  it_block_hash := block_hash;
  it_block_transaction_count := count;
  it_transaction_index := index;
  it_version := tx_version tx;
  it_nonce := tx_nonce tx;
  it_from := tx_from tx;
  it_to := tx_to tx;
  it_amount_atomic := tx_amount tx;
  it_fee_atomic := effective_fee_atomic;
  it_max_fee_atomic := tx_max_fee tx;
  it_priority_fee_atomic := tx_priority_fee tx;
  it_effective_fee_atomic := effective_fee_atomic;
  it_burned_fee_atomic := if is_coinbase tx then 0 else base_fee;
  it_effective_priority_fee_atomic := unwrap_or 0 (effective_priority_fee tx base_fee);
  it_base_fee_atomic := base_fee;
  it_memo_hash := hash_to_hex <$> tx_memo_hash tx;
  it_sender_public_key_hex := bytes_to_hex <$> tx_sender_public_key tx;
  it_signature_hex := bytes_to_hex <$> tx_signature tx;
  it_authorization_state := if is_coinbase tx then "coinbase" else if is_some (tx_signature tx) then "signed" else "unsigned" |}.

(** The addresses after one transaction of a block. *)
Definition index_addresses (height reward : Z) (base_fee : Amount) (m : gmap string AddressActivity) (tx : Transaction) :
    gmap string AddressActivity :=
  let tx_hash := tx_hash_hex tx in
  let m := match tx_from tx with
           | Some sender =>
               on_activity sender (sent tx_hash (wrapping_add 64 (tx_amount tx) (unwrap_or 0 (effective_fee tx base_fee)))) m
           | None => m
           end in
  on_activity (tx_to tx) (λ a, let a := received tx_hash (tx_amount tx) a in
    if is_coinbase tx then mined_at height reward a else a) m.

(** The block's row. *)
Definition indexed_block (st : LedgerState) (b : Block) (coinbase : Transaction) : IndexedBlock :=
  let h := header b in
  let at_height (m : gmap Z Amount) := default Amount_ZERO (m !! bh_height h) in {|
  ib_height := bh_height h;
  ib_hash := hash_to_hex (block_hash b);
  ib_previous_hash := hash_to_hex (bh_previous_hash h);
  ib_merkle_root := hash_to_hex (bh_merkle_root h);
  ib_timestamp := bh_timestamp h;
  ib_nonce := bh_nonce h;
  ib_difficulty := bh_difficulty h;
  ib_transaction_count := Z.of_nat (length (transactions b));
  ib_miner_address := tx_to coinbase;
  ib_coinbase_payout_atomic := tx_amount coinbase;
  ib_miner_reward_atomic := at_height (coinbase_rewards st);
  ib_fees_atomic := at_height (block_fees st);
  ib_burned_fees_atomic := at_height (block_burned_fees st);
  ib_priority_fees_atomic := at_height (block_priority_fees st);
  ib_base_fee_atomic := bh_base_fee_atomic h;
  ib_transaction_hashes := tx_hash_hex <$> transactions b |}.

(** [append_block_to_index_maps], also the loop body of [index_chain]. *)
Definition append_block_to_index_maps (st : LedgerState) (i : IndexMaps) (b : Block) : result IndexerError IndexMaps :=
  let height := bh_height (header b) in
  coinbase ← ok_or (IndexerNotFound ("missing coinbase for block " ++ uint_to_string height)) (head (transactions b));
  let row := indexed_block st b coinbase in
  let base_fee := bh_base_fee_atomic (header b) in
  let count := Z.of_nat (length (transactions b)) in
  Ok (mkMaps (<[height := row]> (im_blocks_by_height i)) (<[ib_hash row := row]> (im_blocks_by_hash i))
    (foldl (λ m e, <[tx_hash_hex e.2 := indexed_transaction e.2 height (ib_hash row) count e.1 base_fee]> m)
       (im_transactions_by_hash i) (imap (λ k tx, (Z.of_nat k, tx)) (transactions b)))
    (foldl (index_addresses height (ib_miner_reward_atomic row) base_fee) (im_addresses i) (transactions b))
    (<[height := ib_miner_reward_atomic row]> (im_miner_rewards_by_block i))
    (<[height := ib_fees_atomic row]> (im_fees_by_block i))).

(** The loop over the balances of the ledger. *)
Definition with_balances (st : LedgerState) (i : IndexMaps) : IndexMaps :=
  mkMaps (im_blocks_by_height i) (im_blocks_by_hash i) (im_transactions_by_hash i)
    (foldl (λ m e, on_activity e.1 (in_ledger e.2) m) (im_addresses i) (btree_entries (balances st)))
    (im_miner_rewards_by_block i) (im_fees_by_block i).
Definition without_balances (i : IndexMaps) : IndexMaps :=
  mkMaps (im_blocks_by_height i) (im_blocks_by_hash i) (im_transactions_by_hash i)
    (not_in_ledger <$> im_addresses i) (im_miner_rewards_by_block i) (im_fees_by_block i).

Definition summary_of_index (n : Network) (c : Chain) (count : Z) (i : IndexMaps) : IndexSummary :=
  let tip_hash := hash_to_hex <$> Chain_tip_hash c in {|
  is_mode := INDEXER_MODE;
  is_network := network_id n;
  is_status := status_label n;
  is_indexed_height := Chain_height c;
  is_indexed_block_count := count;
  is_transaction_count := Z.of_nat (size (im_transactions_by_hash i));
  is_address_count := Z.of_nat (size (im_addresses i));
  is_tip_hash := tip_hash;
  is_latest_block_hash := tip_hash;
  is_latest_block_timestamp := h ← Chain_height c; ib_timestamp <$> im_blocks_by_height i !! h;
  is_supply := mkSupply (Chain_emitted_supply c) MAX_SUPPLY_ATOMIC (uwrap 64 (MAX_SUPPLY_ATOMIC - Chain_emitted_supply c)) |}.

Definition empty_maps : IndexMaps := mkMaps ∅ ∅ ∅ ∅ ∅ ∅.

(** The index of a loaded chain. *)
Definition build_index (n : Network) (c : Chain) (blocks : list Block) : result IndexerError IndexData :=
  i ← try_fold (append_block_to_index_maps (ch_state c)) empty_maps blocks;
  let i := with_balances (ch_state c) i in
  Ok (mkIndex (summary_of_index n c (Z.of_nat (length blocks)) i) i).

(** ** The index file *)

Inductive IndexFile := no_index | bad_index (message : string) | index_file (index : IndexData).

Abbreviation indexer A := (state_result IndexFile IndexerError A).

(** [storage::load_index]; [path] is the file's path. *)
Definition load_index (path : string) (f : IndexFile) : result IndexerError IndexData :=
  match f with
  | no_index => Err (IndexNotInitialized path)
  | bad_index message => Err (InvalidIndexFile path message)
  | index_file index => Ok index
  end.

(** [storage::write_index]: atomic, so a failure leaves the file. *)
Definition write_index (saved : option IndexerError) (index : IndexData) : indexer () := λ f,
  match saved with None => (Ok (), index_file index) | Some e => (Err e, f) end.

(** [reset_index]: the directory removed and made anew. *)
Definition reset_index (removed made : option IndexerError) : indexer () := λ f,
  match removed with
  | Some e => (Err e, f)
  | None => match made with Some e => (Err e, no_index) | None => (Ok (), no_index) end
  end.

(** The chain's store is not changed during an operation: [db] and [dbpath]. *)
Section chain.
Context (dbpath : string) (db : ChainDb) (path : string).

Definition observe_chain_tip : result IndexerError (option Z * option string) :=
  blocks ← map_err IndexerNode (load_blocks dbpath db);
  let tip := last blocks in
  Ok ((λ b, bh_height (header b)) <$> tip, (λ b, hash_to_hex (block_hash b)) <$> tip).

(** [index_chain] *)
Definition index_chain (clock : nat → Z) (saved : option IndexerError) : indexer IndexData :=
  blocks ← sr_lift (map_err IndexerNode (load_blocks dbpath db));
  first_block ← sr_lift (ok_or (IndexerNode (ChainNotInitialized dbpath)) (head blocks));
  n ← sr_lift (map_err IndexerCore (Block_network first_block));
  c ← sr_lift (map_err IndexerCore (from_blocks n (timed clock blocks)));
  index ← sr_lift (build_index n c blocks);
  _ ← write_index saved index;
  mret index.

(** One round of the sample: the index and the chain at a height below the tip. *)
Definition link_matches (index : IndexData) (blocks : list Block) (height : Z) : bool :=
  match im_blocks_by_height (ix_maps index) !! height, blocks !! Z.to_nat height with
  | Some indexed, Some on_chain =>
      (bh_height (header on_chain) =? height) && bool_decide (ib_hash indexed = hash_to_hex (block_hash on_chain))
      && (if height >? 0
          then match blocks !! Z.to_nat (height - 1) with
               | Some parent => bool_decide (ib_previous_hash indexed = hash_to_hex (block_hash parent))
               | None => false
               end
          else true)
  | _, _ => false
  end.

Definition index_parent_links_match_chain (index : IndexData) : result IndexerError bool :=
  match is_indexed_height (ix_summary index) with
  | None => Ok (is_none (is_tip_hash (ix_summary index)))
  | Some tip_height =>
      blocks ← map_err IndexerNode (load_blocks dbpath db);
      match last blocks with
      | None => Ok false
      | Some chain_tip =>
          Ok ((bh_height (header chain_tip) =? tip_height)
            && bool_decide (is_tip_hash (ix_summary index) = Some (hash_to_hex (block_hash chain_tip)))
            && forallb (λ offset, link_matches index blocks (saturating_sub tip_height offset))
                 (seqZ 0 (Z.min tip_height 16 + 1)))
      end
  end.

(** The windows of two of the new blocks. *)
Fixpoint windows_linked (bs : list Block) : bool :=
  match bs with
  | a :: (b :: _) as rest =>
      bool_decide (hash_to_hex (bh_previous_hash (header b)) = hash_to_hex (block_hash a)) && windows_linked rest
  | _ => true
  end.

(** [try_append_index] *)
Definition try_append_index (clock : nat → Z) (existing : IndexData) : result IndexerError (option IndexData) :=
  match is_indexed_height (ix_summary existing), is_tip_hash (ix_summary existing) with
  | Some indexed_height, Some indexed_tip =>
      chain_blocks ← map_err IndexerNode (load_blocks dbpath db);
      let len := Z.of_nat (length chain_blocks) in
      match chain_blocks !! Z.to_nat indexed_height with
      | None => Ok None
      | Some on_disk =>
          if negb (bh_height (header on_disk) =? indexed_height) then Ok None else
          if negb (bool_decide (hash_to_hex (block_hash on_disk) = indexed_tip)) then Ok None else
          if len =? saturating_add 64 indexed_height 1 then Ok (Some existing) else
          if len <=? saturating_add 64 indexed_height 1 then Ok None else
          let new_slice := drop (Z.to_nat (indexed_height + 1)) chain_blocks in
          match new_slice with
          | [] => Ok (Some existing)
          | first_new :: _ =>
              if negb (bool_decide (hash_to_hex (bh_previous_hash (header first_new)) = indexed_tip)) then Ok None else
              if negb (windows_linked new_slice) then Ok None else
              first_block ← ok_or (IndexerNode (ChainNotInitialized dbpath)) (head chain_blocks);
              n ← map_err IndexerCore (Block_network first_block);
              c ← map_err IndexerCore (from_blocks n (timed clock chain_blocks));
              i ← try_fold (append_block_to_index_maps (ch_state c)) (ix_maps existing) new_slice;
              let i := with_balances (ch_state c) (without_balances i) in
              Ok (Some (mkIndex (summary_of_index n c len i) i))
          end
      end
  | _, _ => Ok None
  end.

(** [ensure_index_matches_chain], also [sync_index]. *)
Definition ensure_index_matches_chain (clock : nat → Z) (saved : option IndexerError) : indexer IndexData :=
  '(chain_height, chain_tip) ← sr_lift observe_chain_tip;
  f ← sr_get;
  match load_index path f with
  | Ok existing =>
      same ← (if bool_decide (is_indexed_height (ix_summary existing) = chain_height)
                 && bool_decide (is_tip_hash (ix_summary existing) = chain_tip)
              then sr_lift (index_parent_links_match_chain existing) else mret false);
      if (same : bool) then mret existing else
      appended ← sr_lift (try_append_index clock existing);
      match appended with
      | Some index => _ ← write_index saved index; mret index
      | None => index_chain clock saved
      end
  | Err (IndexNotInitialized _) => index_chain clock saved
  | Err e => sr_lift (Err e)
  end.

End chain.

(** [watch_index] with a number of iterations, each with the store it finds. *)
Fixpoint watch_index (dbpath path : string) (rounds : list (ChainDb * (nat → Z) * option IndexerError)) : indexer () :=
  match rounds with
  | [] => mret ()
  | (db, clock, saved) :: rest => _ ← ensure_index_matches_chain dbpath db path clock saved; watch_index dbpath path rest
  end.

(** ** Queries *)

(** [indexer_status_with_chain]; [chain] is the chain's store, when given. *)
Definition indexer_status_with_chain (path index_dir : string) (chain : option (string * ChainDb)) (f : IndexFile) :
    result IndexerError IndexerStatus :=
  let '(chain_height, chain_tip_hash) :=
    match chain with Some (p, db) => unwrap_or (None, None) (observe_chain_tip p db) | None => (None, None) end in
  match load_index path f with
  | Ok index =>
      let s := ix_summary index in
      let in_sync := is_some chain_tip_hash && bool_decide (is_tip_hash s = chain_tip_hash)
        && bool_decide (is_indexed_height s = chain_height) in
      let lag := match chain_height, is_indexed_height s with
                 | Some c, Some i => if c >? i then c - i else 0
                 | Some c, None => saturating_add 64 c 1
                 | _, _ => 0
                 end in
      Ok {| xs_mode := INDEXER_MODE; xs_network_id := Some (is_network s); xs_status_label := Some (is_status s);
            xs_initialized := true; xs_index_dir := index_dir; xs_indexed_height := is_indexed_height s;
            xs_indexed_block_count := is_indexed_block_count s; xs_transaction_count := is_transaction_count s;
            xs_address_count := is_address_count s; xs_tip_hash := is_tip_hash s; xs_chain_height := chain_height;
            xs_chain_tip_hash := chain_tip_hash; xs_in_sync := is_none chain || in_sync; xs_lag_blocks := lag |}
  | Err (IndexNotInitialized _) =>
      Ok {| xs_mode := INDEXER_MODE; xs_network_id := None; xs_status_label := None; xs_initialized := false;
            xs_index_dir := index_dir; xs_indexed_height := None; xs_indexed_block_count := 0;
            xs_transaction_count := 0; xs_address_count := 0; xs_tip_hash := None; xs_chain_height := chain_height;
            xs_chain_tip_hash := chain_tip_hash; xs_in_sync := false;
            xs_lag_blocks := default 0 ((λ h, saturating_add 64 h 1) <$> chain_height) |}
  | Err e => Err e
  end.

Definition find_block (path : string) (height : Z) (f : IndexFile) : result IndexerError IndexedBlock :=
  index ← load_index path f;
  ok_or (IndexerNotFound ("block at height " ++ uint_to_string height ++ " not found"))
    (im_blocks_by_height (ix_maps index) !! height).

Definition latest_block (path : string) (f : IndexFile) : result IndexerError IndexedBlock :=
  index ← load_index path f;
  height ← ok_or (IndexerNotFound "no indexed block available") (is_indexed_height (ix_summary index));
  ok_or (IndexerNotFound "no indexed block available") (im_blocks_by_height (ix_maps index) !! height).

Definition find_transaction (path tx_hash : string) (f : IndexFile) : result IndexerError IndexedTransaction :=
  index ← load_index path f;
  ok_or (IndexerNotFound ("transaction with hash " ++ tx_hash ++ " not found"))
    (im_transactions_by_hash (ix_maps index) !! tx_hash).

Definition find_address (path address : string) (f : IndexFile) : result IndexerError AddressActivity :=
  index ← load_index path f;
  ok_or (IndexerNotFound ("address " ++ address ++ " not found in index")) (im_addresses (ix_maps index) !! address).

End indexer.
