(* ===== verification/IndexerTheory.v ===== *)
(** What the index promises: extending it is rebuilding it, synchronising it
    reaches the stored chain from the index of any other, and its per-address
    totals reconcile with the ledger. *)

From S2P Require Import Prelude RustStd Interfaces Crypto Errors Network Amount Signing Address Transaction Block Pow Consensus State Ledger Chain Genesis NodeConfig GenesisApproval Storage Mempool Node NodeOps NodeTheory Indexer.

Section theory.
Context `{PrimitivesOk}.

(** ** Extending a chain *)

(** The last block of a chain, with the state its body led to. *)
Lemma chain_last n c bs b :
  chain_reachable n c → ch_blocks c = bs ++ [b] →
  ∃ c1 st1 cb, chain_reachable n c1 ∧ ch_blocks c1 = bs ∧ block_wf b ∧
    spends (bh_base_fee_atomic (header b)) (ch_state c1) (drop 1 (transactions b)) st1 ∧
    head (transactions b) = Some cb ∧ is_coinbase cb = true ∧ c = mkChain n (bs ++ [b]) (mint_and_record b cb st1).
Proof.
  intros Hc Hb. destruct Hc as [|now b' c1 c' Hc1 Hwf Ha]; [by destruct bs|].
  apply (append_block_spec n c1 now b' c' (chain_reachable_ok n c1 Hc1) Hwf) in Ha as (Hv & _ & st1 & cb & Hsp & Hhd & _ & ->).
  cbn [ch_blocks] in Hb. apply app_inj_tail in Hb as [<- <-].
  destruct (vb_coinbase _ _ _ _ _ _ Hv) as [amt [[cb' [rest [Htx [Hcb _]]]] _ _ _]].
  exists c1, st1, cb. split_and!; try done. rewrite Htx in Hhd. by injection Hhd as <-.
Qed.

(** The rows of the ledger by height: a height once recorded keeps its rows. *)
Definition same_rows (h : Z) (st st' : LedgerState) : Prop :=
  block_fees st !! h = block_fees st' !! h ∧ block_burned_fees st !! h = block_burned_fees st' !! h ∧
  block_priority_fees st !! h = block_priority_fees st' !! h ∧ coinbase_rewards st !! h = coinbase_rewards st' !! h.

Lemma spends_rows base st txs st' h : spends base st txs st' → same_rows h st st'.
Proof. induction 1 as [|st sender tx txs st' _ _ IH]; [done | exact IH]. Qed.

Lemma mint_rows b cb st h : h ≠ bh_height (header b) → same_rows h st (mint_and_record b cb st).
Proof. intros Hh. unfold same_rows, mint_and_record. cbn. by rewrite !lookup_insert_ne. Qed.

Lemma chain_prefix n c0 c new h :
  chain_reachable n c0 → chain_reachable n c → ch_blocks c = ch_blocks c0 ++ new →
  0 <= h < Z.of_nat (length (ch_blocks c0)) → same_rows h (ch_state c0) (ch_state c).
Proof.
  intros Hc0. revert c. induction new as [|b new IH] using rev_ind; intros c Hc Hb Hh.
  { rewrite app_nil_r in Hb. by rewrite (chain_det n c c0 Hc Hc0 Hb). }
  rewrite app_assoc in Hb. destruct (chain_last n c _ b Hc Hb) as (c1 & st1 & cb & Hc1 & Hb1 & _ & Hsp & _ & _ & Hce).
  destruct (IH c1 Hc1 Hb1 Hh) as (A1 & A2 & A3 & A4). destruct (spends_rows _ _ _ _ h Hsp) as (B1 & B2 & B3 & B4).
  pose proof (co_height n c (chain_reachable_ok n c Hc) (length (ch_blocks c1)) b) as Hbh.
  rewrite Hce in Hbh |- *. cbn [ch_blocks ch_state] in *. rewrite <- Hb1, list_lookup_middle in Hbh by done.
  specialize (Hbh eq_refl). rewrite Hb1, length_app in Hbh.
  destruct (mint_rows b cb st1 h) as (C1 & C2 & C3 & C4); [lia|]. unfold same_rows. by rewrite A1, A2, A3, A4, B1, B2, B3, B4.
Qed.

(** Every account of the ledger was named by a transaction. *)
Definition touched (txs : list Transaction) (a : string) : Prop := ∃ tx, tx ∈ txs ∧ (tx_from tx = Some a ∨ tx_to tx = a).

Lemma balance_key a k v st : is_Some (balances (set_balance k v st) !! a) → a = k ∨ is_Some (balances st !! a).
Proof. cbn [set_balance balances]. destruct (decide (a = k)); [by left|]. rewrite lookup_insert_ne by done. by right. Qed.

Lemma spends_keys base st txs st' a :
  spends base st txs st' → is_Some (balances st' !! a) → is_Some (balances st !! a) ∨ touched txs a.
Proof.
  induction 1 as [|st sender tx txs st' Hsp _ IH]; [by left|]. intros Ha. apply IH in Ha as [Ha|(t & Ht & Hor)].
  - unfold spend_effect in Ha. apply (balance_key a (tx_to tx)) in Ha as [->|Ha]; [right; exists tx; split; [by left | by right]|].
    apply balance_key in Ha as [->|Ha]; [|by left]. right. exists tx. split; [by left|]. left. apply Hsp.
  - right. exists t. split; [by right | done].
Qed.

Lemma chain_keys n c a :
  chain_reachable n c → is_Some (balances (ch_state c) !! a) → touched (all_transactions (ch_blocks c)) a.
Proof.
  intros Hc. remember (ch_blocks c) as bs eqn:Hb. symmetry in Hb. revert c Hc Hb.
  induction bs as [|b bs IH] using rev_ind; intros c Hc Hb Ha.
  { rewrite (chain_det n c (Chain_new n) Hc (chain_reachable_new n) Hb) in Ha. by destruct Ha. }
  destruct (chain_last n c _ b Hc Hb) as (c1 & st1 & cb & Hc1 & Hb1 & _ & Hsp & Hhd & _ & Hce). rewrite Hce in Ha.
  cbn [ch_state] in Ha. unfold all_transactions. rewrite bind_app. cbn [mbind list_bind]. rewrite app_nil_r.
  assert (∀ t, t ∈ drop 1 (transactions b) → t ∈ transactions b) as Hdrop
    by (intros t; destruct (transactions b); [done | cbn; by right]).
  unfold mint_and_record, mint_effect in Ha. apply (balance_key a (tx_to cb)) in Ha as [->|Ha].
  - exists cb. split; [|by right]. apply elem_of_app. right. destruct (transactions b); [done|]. injection Hhd as ->. by left.
  - destruct (spends_keys _ _ _ _ a Hsp Ha) as [Hk|(t & Ht & Hor)].
    + destruct (IH c1 Hc1 Hb1 Hk) as (t & Ht & Hor). exists t. split; [apply elem_of_app; by left | done].
    + exists t. split; [apply elem_of_app; right; by apply Hdrop | done].
Qed.

(** ** The maps of a list of blocks *)

Definition addresses_of (st : LedgerState) (bs : list Block) (m : gmap string AddressActivity) : gmap string AddressActivity :=
  foldl (λ m b, foldl (index_addresses (bh_height (header b)) (default Amount_ZERO (coinbase_rewards st !! bh_height (header b)))
    (bh_base_fee_atomic (header b))) m (transactions b)) m bs.

Lemma append_maps st i b :
  match append_block_to_index_maps st i b with
  | Ok i' => transactions b ≠ [] ∧ im_addresses i' = addresses_of st [b] (im_addresses i)
  | Err _ => transactions b = []
  end.
Proof.
  unfold append_block_to_index_maps. destruct (head (transactions b)) as [cb|] eqn:E; cbn [ok_or mbind result_bind].
  - split; [by intros Hb; rewrite Hb in E | done].
  - by destruct (transactions b).
Qed.

Lemma append_total st i bs :
  Forall (λ b, transactions b ≠ []) bs → ∃ i', try_fold (append_block_to_index_maps st) i bs = Ok i' ∧
    im_addresses i' = addresses_of st bs (im_addresses i).
Proof.
  intros Hbs. revert i. induction Hbs as [|b bs Hb Hbs IH]; intros i; [by eexists|].
  cbn [try_fold]. pose proof (append_maps st i b) as Hm. destruct (append_block_to_index_maps st i b) as [i1|e]; [|done].
  destruct Hm as [_ Ha]. destruct (IH i1) as (i' & E & Ha'). exists i'. split; [exact E|]. by rewrite Ha', Ha.
Qed.

Lemma append_same_rows st st' i b :
  same_rows (bh_height (header b)) st st' → append_block_to_index_maps st i b = append_block_to_index_maps st' i b.
Proof.
  intros (R1 & R2 & R3 & R4). unfold append_block_to_index_maps, indexed_block. cbv zeta. by rewrite R1, R2, R3, R4.
Qed.

Lemma append_prefix st st' i bs :
  Forall (λ b, same_rows (bh_height (header b)) st st') bs →
  try_fold (append_block_to_index_maps st) i bs = try_fold (append_block_to_index_maps st') i bs.
Proof.
  intros Hbs. revert i. induction Hbs as [|b bs Hb _ IH]; intros i; [done|]. cbn [try_fold].
  rewrite (append_same_rows st st' i b Hb). destruct (append_block_to_index_maps st' i b); [apply IH | done].
Qed.

(** Only the addresses of an index carry the ledger's balances. *)
Definition same_index (i j : IndexMaps) : Prop :=
  im_blocks_by_height i = im_blocks_by_height j ∧ im_blocks_by_hash i = im_blocks_by_hash j ∧
  im_transactions_by_hash i = im_transactions_by_hash j ∧ im_miner_rewards_by_block i = im_miner_rewards_by_block j ∧
  im_fees_by_block i = im_fees_by_block j ∧ not_in_ledger <$> im_addresses i = not_in_ledger <$> im_addresses j.

Lemma strip_strip a : not_in_ledger (not_in_ledger a) = not_in_ledger a.
Proof. done. Qed.

Lemma strip_on_activity k f m :
  (∀ a, not_in_ledger (f a) = f (not_in_ledger a)) →
  not_in_ledger <$> on_activity k f m = on_activity k f (not_in_ledger <$> m).
Proof. intros Hf. unfold on_activity. rewrite fmap_insert, Hf, lookup_fmap. by destruct (m !! k). Qed.

Lemma strip_addresses st bs m : not_in_ledger <$> addresses_of st bs m = addresses_of st bs (not_in_ledger <$> m).
Proof.
  unfold addresses_of. revert m. induction bs as [|b bs IH]; intros m; [done|]. cbn [foldl]. rewrite IH. f_equal.
  generalize (default Amount_ZERO (coinbase_rewards st !! bh_height (header b))). intros r. clear IH.
  revert m. induction (transactions b) as [|tx txs IH]; intros m; [done|]. cbn [foldl]. rewrite IH. f_equal.
  unfold index_addresses. rewrite strip_on_activity by (intros a; by destruct (is_coinbase tx)). f_equal.
  destruct (tx_from tx); [by apply strip_on_activity | done].
Qed.

Lemma append_same_index st i j b :
  same_index i j →
  match append_block_to_index_maps st i b, append_block_to_index_maps st j b with
  | Ok i', Ok j' => same_index i' j' | Err _, Err _ => True | _, _ => False
  end.
Proof.
  intros (E1 & E2 & E3 & E4 & E5 & E6). pose proof (append_maps st i b) as Hi. pose proof (append_maps st j b) as Hj.
  unfold append_block_to_index_maps in *. destruct (head (transactions b)) as [cb|]; [|done].
  cbn [ok_or mbind result_bind] in *. destruct Hi as [_ Hi], Hj as [_ Hj]. unfold same_index.
  cbn [im_blocks_by_height im_blocks_by_hash im_transactions_by_hash im_miner_rewards_by_block im_fees_by_block im_addresses] in *.
  rewrite E1, E2, E3, E4, E5. split_and!; try done. rewrite Hi, Hj, !strip_addresses. by rewrite E6.
Qed.

Lemma fold_same_index st i j bs i' :
  same_index i j → try_fold (append_block_to_index_maps st) i bs = Ok i' →
  ∃ j', try_fold (append_block_to_index_maps st) j bs = Ok j' ∧ same_index i' j'.
Proof.
  revert i j. induction bs as [|b bs IH]; intros i j Hs; cbn [try_fold].
  { intros [= <-]. by exists j. }
  pose proof (append_same_index st i j b Hs) as Hb. destruct (append_block_to_index_maps st i b) as [i1|]; [|done].
  destruct (append_block_to_index_maps st j b) as [j1|]; [|done]. by apply IH.
Qed.

(** Writing the balances of accounts that are all in the index changes nothing
    else. *)
Lemma with_balances_keys (l : list (string * Z)) m :
  (∀ e, e ∈ l → is_Some (m !! e.1)) →
  not_in_ledger <$> foldl (λ m e, on_activity e.1 (in_ledger e.2) m) m l = not_in_ledger <$> m.
Proof.
  revert m. induction l as [|[k v] l IH]; intros m Hl; [done|]. cbn [foldl].
  destruct (Hl (k, v)) as [x Hx]; [by left|]. cbn [fst snd] in *. rewrite IH.
  - unfold on_activity. rewrite fmap_insert, Hx. cbn [default]. apply insert_id. by rewrite lookup_fmap, Hx.
  - intros e He. unfold on_activity. destruct (decide (e.1 = k)) as [->|]; [rewrite lookup_insert_eq; by eexists|].
    rewrite lookup_insert_ne by done. apply Hl. by right.
Qed.

Lemma addresses_touched st bs m a :
  is_Some (addresses_of st bs m !! a) ↔ is_Some (m !! a) ∨ touched (all_transactions bs) a.
Proof.
  assert (∀ k f m, is_Some (on_activity k f m !! a) ↔ a = k ∨ is_Some (m !! a)) as Hon.
  { intros k f m0. unfold on_activity. destruct (decide (a = k)) as [->|]; [rewrite lookup_insert_eq; split; [by left | by eexists]|].
    rewrite lookup_insert_ne by done. naive_solver. }
  assert (∀ h r base txs m, is_Some (foldl (index_addresses h r base) m txs !! a) ↔ is_Some (m !! a) ∨ touched txs a) as Htx.
  { intros h r base txs. induction txs as [|tx txs IH]; intros m0; cbn [foldl].
    - split; [by left | intros [?|(t & Ht%elem_of_nil & _)]; done].
    - rewrite IH. unfold index_addresses at 1. rewrite Hon.
      assert (touched (tx :: txs) a ↔ tx_from tx = Some a ∨ tx_to tx = a ∨ touched txs a) as ->.
      { unfold touched. setoid_rewrite elem_of_cons. naive_solver. }
      destruct (tx_from tx) as [sender|]; [rewrite Hon|]; naive_solver. }
  unfold addresses_of. revert m. induction bs as [|b bs IH]; intros m; cbn [foldl].
  - split; [by left | intros [?|(t & Ht%elem_of_nil & _)]; done].
  - rewrite IH, Htx. unfold all_transactions. cbn [mbind list_bind].
    assert (∀ l k, touched (l ++ k) a ↔ touched l a ∨ touched k a) as Happ.
    { intros l k. unfold touched. setoid_rewrite elem_of_app. naive_solver. }
    rewrite Happ. tauto.
Qed.

(** ** The index of a chain *)

Definition index_of (n : Network) (c : Chain) : result IndexerError IndexData := build_index n c (ch_blocks c).

Lemma chain_nonempty_txs n c : chain_reachable n c → Forall (λ b, transactions b ≠ []) (ch_blocks c).
Proof.
  intros Hc%chain_reachable_ok. apply Forall_lookup. intros i b Hb. destruct (co_rules n c Hc i b Hb) as [now Hv].
  pose proof (vb_count _ _ _ _ _ _ Hv). destruct (transactions b); cbn in *; [lia | done].
Qed.

Lemma build_chain n c :
  chain_reachable n c → ∃ i, let st := ch_state c in
    try_fold (append_block_to_index_maps st) empty_maps (ch_blocks c) = Ok i ∧
    im_addresses i = addresses_of st (ch_blocks c) ∅ ∧ not_in_ledger <$> im_addresses i = im_addresses i ∧
    same_index (with_balances st i) i ∧
    index_of n c = Ok (mkIndex (summary_of_index n c (Z.of_nat (length (ch_blocks c))) (with_balances st i)) (with_balances st i)).
Proof.
  intros Hc. destruct (append_total (ch_state c) empty_maps (ch_blocks c) (chain_nonempty_txs n c Hc)) as (i & Hi & Ha).
  change (im_addresses empty_maps) with (∅ : gmap string AddressActivity) in Ha.
  exists i. split_and!; [done | done | by rewrite Ha, strip_addresses, fmap_empty | |].
  - unfold same_index, with_balances. cbn. split_and!; try done. apply with_balances_keys. intros [a v] He. cbn [fst].
    rewrite Ha. apply addresses_touched. right. apply (chain_keys n); [done|]. apply elem_of_btree_entries in He. by eexists.
  - unfold index_of, build_index. by rewrite Hi.
Qed.

Lemma chain_tip_block n c b bs :
  chain_reachable n c → ch_blocks c = bs ++ [b] →
  Chain_height c = Some (Z.of_nat (length bs)) ∧ Chain_tip_hash c = Some (block_hash b) ∧ bh_height (header b) = Z.of_nat (length bs).
Proof.
  intros Hc Hb. unfold Chain_height, Chain_tip_hash. rewrite Hb, last_snoc.
  assert (bh_height (header b) = Z.of_nat (length bs)) as Hh; [|split_and!; [cbn; by rewrite Hh | done..]].
  apply (co_height n c (chain_reachable_ok n c Hc)). by rewrite Hb, list_lookup_middle.
Qed.

Lemma chain_head_network n c g : chain_reachable n c → head (ch_blocks c) = Some g → Block_network g = Ok n.
Proof.
  intros Hc Hg. unfold Block_network. rewrite (chain_network_text n c g Hc); [by rewrite from_network_id_id|].
  destruct (ch_blocks c); [done|]. injection Hg as ->. by left.
Qed.

Lemma windows_of_linked bs k : linked bs → windows_linked (drop k bs) = true.
Proof.
  intros [_ Hp]. assert (∀ i p b, drop k bs !! i = Some p → drop k bs !! S i = Some b →
    bh_previous_hash (header b) = block_hash p) as Hd.
  { intros i p b. rewrite !lookup_drop. replace (k + S i)%nat with (S (k + i)) by lia. apply Hp. }
  revert Hd. generalize (drop k bs). intros l. induction l as [|a [|b l] IH]; intros Hd; [done..|].
  cbn [windows_linked]. rewrite (Hd 0%nat a b) by done. rewrite bool_decide_true by done. cbn [andb].
  apply IH. intros i. apply (Hd (S i)).
Qed.

Section store.
Context (n : Network) (dbpath : string) (db : ChainDb) (path : string) (clock : nat → Z) (c : Chain).
Context (Hc : chain_reachable n c) (Hne : ch_blocks c ≠ []) (Hstore : stores db (ch_blocks c)).
Context (Hclock : clock_ok clock (ch_blocks c)).

Lemma load_store : load_blocks dbpath db = Ok (ch_blocks c).
Proof. by apply load_stores. Qed.

Lemma build_index_of : ∃ index, index_of n c = Ok index ∧
  is_indexed_height (ix_summary index) = Chain_height c ∧ is_tip_hash (ix_summary index) = hash_to_hex <$> Chain_tip_hash c.
Proof. destruct (build_chain n c Hc) as (i & _ & _ & _ & _ & Hi). by eexists. Qed.

Lemma index_chain_Ok saved index f :
  index_of n c = Ok index → index_chain dbpath db clock saved f =
    match saved with None => (Ok index, index_file index) | Some e => (Err e, f) end.
Proof.
  intros Hi. unfold index_chain. rewrite sr_lift_bind, load_store. cbn [map_err]. rewrite sr_lift_bind.
  destruct (head (ch_blocks c)) as [g|] eqn:Eg; [|by destruct (ch_blocks c)]. cbn [ok_or].
  rewrite sr_lift_bind, (chain_head_network n c g Hc Eg). cbn [map_err]. rewrite sr_lift_bind, (from_blocks_rebuild n c clock Hc Hclock).
  cbn [map_err]. rewrite sr_lift_bind. fold (index_of n c). rewrite Hi. unfold write_index. by destruct saved.
Qed.

(** Extending the index of a prefix gives the index of the chain. *)
Lemma append_prefix_index c0 old new index :
  chain_reachable n c0 → ch_blocks c0 ≠ [] → ch_blocks c = ch_blocks c0 ++ new →
  index_of n c0 = Ok old → index_of n c = Ok index → try_append_index dbpath db clock old = Ok (Some index).
Proof.
  intros Hc0 Hne0 Hb Hold Hindex.
  destruct (build_chain n c0 Hc0) as (i0 & Hi0 & _ & _ & Hs0 & Ho). rewrite Hold in Ho. injection Ho as ->.
  destruct (build_chain n c Hc) as (i & Hi & _ & Hstrip & _ & Ho). rewrite Hindex in Ho. injection Ho as ->.
  destruct (exists_last Hne0) as (bs & b & Hbs).
  destruct (chain_tip_block n c0 b bs Hc0 Hbs) as (Hh0 & Ht0 & Hbh).
  pose proof (st_linked _ _ Hstore) as Hlinked. pose proof (st_length _ _ Hstore) as Hlen.
  rewrite Hb, length_app, Hbs, length_app in Hlen. cbn [length] in Hlen.
  unfold try_append_index. cbn [ix_summary summary_of_index is_indexed_height is_tip_hash]. rewrite Hh0, Ht0. cbn [fmap option_fmap option_map].
  rewrite load_store. cbn [map_err mbind result_bind]. rewrite Nat2Z.id.
  assert (ch_blocks c !! length bs = Some b) as Hl by (rewrite Hb, Hbs, <- app_assoc; by apply list_lookup_middle).
  rewrite Hl, (proj2 (Z.eqb_eq _ _) Hbh). cbn [negb]. rewrite bool_decide_true by done. cbn [negb].
  assert (saturating_add 64 (Z.of_nat (length bs)) 1 = Z.of_nat (length bs) + 1) as ->
    by (unfold saturating_add, umax; lia).
  assert (Z.of_nat (length (ch_blocks c)) = Z.of_nat (length bs) + 1 + Z.of_nat (length new)) as Hcount
    by (rewrite Hb, Hbs, !length_app; cbn [length]; lia).
  destruct (_ =? _) eqn:Elen; breflect.
  { assert (new = []) as -> by (destruct new; cbn [length] in *; [done | lia]). rewrite app_nil_r in Hb.
    rewrite (chain_det n c c0 Hc Hc0 Hb) in *. rewrite Hi0 in Hi. by injection Hi as ->. }
  rewrite (proj2 (Z.leb_gt _ _)) by lia.
  assert (drop (Z.to_nat (Z.of_nat (length bs) + 1)) (ch_blocks c) = new) as Hdrop.
  { replace (Z.to_nat (Z.of_nat (length bs) + 1)) with (length (ch_blocks c0)) by (rewrite Hbs, length_app; cbn; lia).
    rewrite Hb. apply drop_app_length. }
  pose proof (windows_of_linked (ch_blocks c) (Z.to_nat (Z.of_nat (length bs) + 1)) Hlinked) as Hwin.
  rewrite Hdrop in Hwin |- *. destruct new as [|b1 new]; [cbn [length] in *; lia|].
  assert (bh_previous_hash (header b1) = block_hash b) as ->.
  { apply (ln_parent _ Hlinked (length bs) b b1 Hl). rewrite Hb. apply lookup_app_Some. right.
    rewrite Hbs, length_app, Nat.add_1_r. split; [done|]. by rewrite Nat.sub_diag. }
  rewrite bool_decide_true by done. cbn [negb]. rewrite Hwin. cbn [negb].
  destruct (head (ch_blocks c)) as [g|] eqn:Eg; [|by destruct (ch_blocks c)]. cbn [ok_or mbind result_bind].
  rewrite (chain_head_network n c g Hc Eg). cbn [map_err mbind result_bind].
  rewrite (from_blocks_rebuild n c clock Hc Hclock). cbn [map_err mbind result_bind ix_maps].
  assert (try_fold (append_block_to_index_maps (ch_state c)) i0 (b1 :: new) = Ok i) as Hnew.
  { rewrite Hb, try_fold_app in Hi. rewrite (append_prefix (ch_state c0) (ch_state c)) in Hi0; [by rewrite Hi0 in Hi|].
    apply Forall_lookup. intros k x Hx. apply (chain_prefix n c0 c (b1 :: new)); try done.
    rewrite (co_height n c0 (chain_reachable_ok n c0 Hc0) k x Hx). apply lookup_lt_Some in Hx. lia. }
  assert (same_index i0 (with_balances (ch_state c0) i0)) as Hs.
  { destruct Hs0 as (? & ? & ? & ? & ? & ?). by split_and!. }
  destruct (fold_same_index _ _ _ _ _ Hs Hnew) as (j & Hj & E1 & E2 & E3 & E4 & E5 & E6). rewrite Hj.
  cbn [mbind result_bind].
  assert (without_balances j = i) as ->; [|done].
  unfold without_balances. rewrite <- E1, <- E2, <- E3, <- E4, <- E5, <- E6, Hstrip. by destruct i.
Qed.

(** No two different blocks of the chains have one hash. *)
Definition no_clash (c0 : Chain) : Prop :=
  ∀ b0 b, b0 ∈ ch_blocks c0 → b ∈ ch_blocks c → block_hash b0 = block_hash b → b0 = b.

Lemma shared_prefix c0 k b0 b :
  chain_reachable n c0 → no_clash c0 → ch_blocks c0 !! k = Some b0 → ch_blocks c !! k = Some b →
  block_hash b0 = block_hash b → take (S k) (ch_blocks c0) = take (S k) (ch_blocks c).
Proof.
  intros Hc0 Hclash. pose proof (chain_linked n c0 Hc0) as [_ Hp0]. pose proof (chain_linked n c Hc) as [_ Hp].
  revert b0 b. induction k as [|k IH]; intros b0 b H0k Hk Hh;
    assert (b0 = b) as <- by (apply Hclash; [by eapply list_elem_of_lookup_2 | by eapply list_elem_of_lookup_2 | done]).
  all: rewrite (take_S_r (ch_blocks c0) _ b0) by done; rewrite (take_S_r (ch_blocks c) _ b0) by done; f_equal.

  destruct (lookup_lt_is_Some_2 (ch_blocks c0) k) as [p0 Hp0k]; [apply lookup_lt_Some in H0k; lia|].
  destruct (lookup_lt_is_Some_2 (ch_blocks c) k) as [p Hpk]; [apply lookup_lt_Some in Hk; lia|].
  apply (IH p0 p Hp0k Hpk). rewrite <- (Hp0 k p0 b0 Hp0k H0k). by apply (Hp k p b0).
Qed.

(** Trying to extend the index of another chain gives the right index or asks for
    a rebuild. *)
Lemma try_append_cases c0 old index :
  chain_reachable n c0 → ch_blocks c0 ≠ [] → no_clash c0 → index_of n c0 = Ok old → index_of n c = Ok index →
  try_append_index dbpath db clock old = Ok (Some index) ∨ try_append_index dbpath db clock old = Ok None.
Proof.
  intros Hc0 Hne0 Hclash Hold Hindex. destruct (exists_last Hne0) as (bs & b0 & Hbs).
  destruct (chain_tip_block n c0 b0 bs Hc0 Hbs) as (Hh0 & Ht0 & Hbh).
  assert (ch_blocks c0 !! length bs = Some b0) as Hl0 by (rewrite Hbs; by apply list_lookup_middle).
  assert ((∃ b, ch_blocks c !! length bs = Some b ∧ block_hash b0 = block_hash b) ∨
    ∀ b, ch_blocks c !! length bs = Some b → block_hash b ≠ block_hash b0) as [(b & Hl & Hh)|Hno].
  { destruct (ch_blocks c !! length bs) as [b|]; [|by right]. destruct (decide (block_hash b0 = block_hash b)); [left; eauto|].
    right. intros ? [= <-]. congruence. }
  - left. pose proof (shared_prefix c0 _ _ _ Hc0 Hclash Hl0 Hl Hh) as Hpre.
    apply (append_prefix_index c0 old (drop (length (ch_blocks c0)) (ch_blocks c)) index); try done.
    rewrite <- (take_drop (S (length bs)) (ch_blocks c)) at 1. rewrite <- Hpre.
    assert (length (ch_blocks c0) = S (length bs)) as -> by (rewrite Hbs, length_app; cbn; lia).
    f_equal. apply take_ge. rewrite Hbs, length_app; cbn; lia.
  - right. destruct (build_chain n c0 Hc0) as (i0 & _ & _ & _ & _ & Ho). rewrite Hold in Ho. injection Ho as ->.
    unfold try_append_index. cbn [ix_summary summary_of_index is_indexed_height is_tip_hash]. rewrite Hh0, Ht0.
    cbn [fmap option_fmap option_map]. rewrite load_store. cbn [map_err mbind result_bind]. rewrite Nat2Z.id.
    destruct (ch_blocks c !! length bs) as [b|]; [|done]. destruct (negb _); [done|].
    rewrite bool_decide_false; [done|]. intros Hx%hash_to_hex_inj. by apply (Hno b).
Qed.

Lemma links_total index : ∃ same, index_parent_links_match_chain dbpath db index = Ok same.
Proof.
  unfold index_parent_links_match_chain. destruct (is_indexed_height _); [|by eexists]. rewrite load_store.
  cbn [map_err mbind result_bind]. destruct (last _); by eexists.
Qed.

(** C13. Synchronising reaches the chain: whatever the index file was, missing or
    the index of any other valid chain (an earlier tip, or a fork that was
    replaced), one synchronisation returns the index of the stored chain, the one
    a full rebuild computes, and leaves it in the file; when the write fails the
    file is as it was. The only assumption is that no two different blocks of the
    two chains share a hash. *)
Theorem sync_reaches_chain f :
  (f = no_index ∨ ∃ c0 old, f = index_file old ∧ chain_reachable n c0 ∧ ch_blocks c0 ≠ [] ∧ no_clash c0 ∧ index_of n c0 = Ok old) →
  ∃ index, index_of n c = Ok index ∧
    index_chain dbpath db clock None no_index = (Ok index, index_file index) ∧
    ensure_index_matches_chain dbpath db path clock None f = (Ok index, index_file index) ∧
    ∀ e, (ensure_index_matches_chain dbpath db path clock (Some e) f).2 = f.
Proof.
  intros Hf. destruct build_index_of as (index & Hindex & Hheight & Htip). exists index. split; [done|].
  split; [by rewrite (index_chain_Ok None index)|].
  assert (∀ saved, ensure_index_matches_chain dbpath db path clock saved f = (Ok index, f) ∧ f = index_file index ∨
    ensure_index_matches_chain dbpath db path clock saved f =
      match saved with None => (Ok index, index_file index) | Some e => (Err e, f) end) as Hmain.
  2: { split; [by destruct (Hmain None) as [[-> ->]| ->] | intros e; by destruct (Hmain (Some e)) as [[-> ->]| ->]]. }
  intros saved. unfold ensure_index_matches_chain. rewrite sr_lift_bind.
  unfold observe_chain_tip. rewrite load_store. cbn [map_err mbind result_bind]. cbv beta zeta iota. rewrite sr_get_bind.
  destruct Hf as [->|(c0 & old & -> & Hc0 & Hne0 & Hclash & Hold)]; cbn [load_index].
  { right. by rewrite (index_chain_Ok saved index). }
  destruct (bool_decide _ && bool_decide _) eqn:Eg.
  - apply andb_true_iff in Eg as [Eh Et]. breflect.
    destruct (build_chain n c0 Hc0) as (i0 & _ & _ & _ & _ & Ho). rewrite Hold in Ho. injection Ho as Ho.
    rewrite Ho in Eh, Et. cbn [ix_summary summary_of_index is_indexed_height is_tip_hash] in Eh, Et.
    assert (c0 = c) as ->.
    { destruct (exists_last Hne0) as (bs0 & b0 & Hb0). destruct (exists_last Hne) as (bs & b & Hb).
      destruct (chain_tip_block n c0 b0 bs0 Hc0 Hb0) as (A1 & A2 & _). destruct (chain_tip_block n c b bs Hc Hb) as (B1 & B2 & _).
      rewrite A2, Hb, last_snoc in Et. injection Et as Et%hash_to_hex_inj.
      unfold Chain_height in B1. rewrite A1, B1 in Eh. injection Eh as Eh.
      assert (length bs0 = length bs) as Hlen by lia.
      assert (ch_blocks c0 !! length bs0 = Some b0) as Hl0 by (rewrite Hb0; by apply list_lookup_middle).
      assert (ch_blocks c !! length bs0 = Some b) as Hl by (rewrite Hlen, Hb; by apply list_lookup_middle).
      apply (chain_det n); [done..|]. pose proof (shared_prefix c0 _ _ _ Hc0 Hclash Hl0 Hl Et) as Hpre.
      rewrite !take_ge in Hpre; [done | rewrite Hb, length_app; cbn; lia | rewrite Hb0, length_app; cbn; lia]. }
    rewrite Hold in Hindex. injection Hindex as ->. destruct (links_total index) as [same Hsame].
    unfold mbind at 1, state_result_bind at 1. unfold sr_lift at 1. rewrite Hsame.
    destruct same; [by left|].
    rewrite sr_lift_bind, (append_prefix_index c index [] index) by (done || by rewrite app_nil_r).
    right. unfold write_index. by destruct saved.
  - right. unfold mbind at 1, state_result_bind at 1. cbn [mret state_result_ret]. rewrite sr_lift_bind.
    destruct (try_append_cases c0 old index) as [-> | ->]; try done.
    + unfold write_index. by destruct saved.
    + by rewrite (index_chain_Ok saved index).
Qed.

End store.

(** ** Reconciliation *)

(** What an address received, and what it paid with the fees. *)
Definition receipts (a : string) (txs : list Transaction) : Z := zsum (tx_amount <$> filter (λ tx, tx_to tx = a) txs).
Definition payments (base : Amount) (a : string) (txs : list Transaction) : Z :=
  zsum (debit_of base <$> filter (λ tx, tx_from tx = Some a) txs).
Definition received_total (a : string) (bs : list Block) : Z := zsum ((λ b, receipts a (transactions b)) <$> bs).
Definition sent_total (a : string) (bs : list Block) : Z :=
  zsum ((λ b, payments (bh_base_fee_atomic (header b)) a (transactions b)) <$> bs).

(** A transaction whose debit does not wrap. *)
Definition tx_fine (base : Amount) (tx : Transaction) : Prop :=
  0 <= tx_amount tx ∧ (is_Some (tx_from tx) →
    wrapping_add 64 (tx_amount tx) (unwrap_or 0 (effective_fee tx base)) = debit_of base tx ∧ 0 <= debit_of base tx).

Lemma spends_fine base st txs st' :
  ledger_ok st → 0 <= base → Forall tx_wf txs → spends base st txs st' → Forall (tx_fine base) txs.
Proof.
  intros Hok Hbase Hwf Hs. revert Hok Hwf. induction Hs as [|st sender tx txs st' Hsp _ IH]; intros Hok Hwf; [constructor|].
  apply Forall_cons in Hwf as [Hw Hws]. constructor; [|apply IH; [by apply spend_effect_ok | done]].
  pose proof Hsp as [Hcb _ _ _ Hbf _ _ Hfunds]. pose proof (fee_of_range base tx Hw Hcb Hbf) as Hfee.
  pose proof (wf_amount tx Hw) as [Ha _]. pose proof (balance_le_umax st sender Hok) as Hbal.
  split; [done|]. intros _. unfold debit_of in *.
  assert (effective_fee tx base = Ok (fee_of base tx)) as ->.
  { apply effective_fee_Ok; [done|]. unfold fee_of, tip_of in *. rewrite Hcb in *. split_and!; lia. }
  cbn [unwrap_or]. unfold wrapping_add, uwrap, umax in *. rewrite Z.mod_small by lia. lia.
Qed.

Lemma chain_fine n c : chain_reachable n c → Forall (λ b, Forall (tx_fine (bh_base_fee_atomic (header b))) (transactions b)) (ch_blocks c).
Proof.
  intros Hc. remember (ch_blocks c) as bs eqn:Hb. symmetry in Hb. revert c Hc Hb.
  induction bs as [|b bs IH] using rev_ind; intros c Hc Hb; [constructor|].
  destruct (chain_last n c _ b Hc Hb) as (c1 & st1 & cb & Hc1 & Hb1 & Hwf & Hsp & Hhd & Hcb & _).
  apply Forall_app. split; [by apply (IH c1)|]. apply Forall_singleton. destruct Hwf as [Hh Htx].
  destruct (reachable_inv _ (chain_ok_reachable n c1 (chain_reachable_ok n c1 Hc1))) as [Hok _ _].
  pose proof (spends_fine _ _ _ _ Hok (proj1 (hwf_base_fee _ Hh)) (Forall_drop _ _ _ Htx) Hsp) as Hf.
  destruct (transactions b) as [|cb' rest]; [constructor|]. injection Hhd as ->. constructor; [|done].
  apply Forall_cons in Htx as [Hw _]. split; [apply (wf_amount _ Hw)|]. unfold is_coinbase in Hcb. by destruct (tx_from cb) as [|]; [|intros []].
Qed.

Definition accounted (r s : Z) (x : AddressActivity) : Prop :=
  aa_total_received_atomic x = Z.min r (umax 64) ∧ aa_total_sent_atomic x = Z.min s (umax 64).
Definition activity (a : string) (m : gmap string AddressActivity) : AddressActivity := default (empty_address_activity a) (m !! a).

Lemma activity_on a k f m : activity a (on_activity k f m) = if decide (k = a) then f (activity a m) else activity a m.
Proof. unfold activity, on_activity. case_decide; [subst; by rewrite lookup_insert_eq | by rewrite lookup_insert_ne]. Qed.

Lemma index_addresses_accounted h r base m tx a x y :
  tx_fine base tx → 0 <= x → 0 <= y → accounted x y (activity a m) →
  accounted (x + receipts a [tx]) (y + payments base a [tx]) (activity a (index_addresses h r base m tx)).
Proof.
  intros [Ha Hd] Hx Hy [Hr Hs]. unfold index_addresses, receipts, payments. rewrite !filter_cons, !filter_nil, activity_on.
  assert (accounted x (y + zsum (debit_of base <$> (if decide (tx_from tx = Some a) then [tx] else [])))
    (activity a match tx_from tx with
      | Some sender => on_activity sender (sent (tx_hash_hex tx) (wrapping_add 64 (tx_amount tx) (unwrap_or 0 (effective_fee tx base)))) m
      | None => m end)) as [Hr1 Hs1].
  { destruct (tx_from tx) as [sender|]; [|rewrite decide_False by done; cbn; rewrite Z.add_0_r; by split].
    destruct Hd as [-> Hd]; [by eexists|]. rewrite activity_on. destruct (decide (sender = a)) as [->|Hne].
    - rewrite decide_True by done. split; [exact Hr|]. cbn. unfold saturating_add. rewrite Hs. lia.
    - rewrite decide_False by congruence. cbn. rewrite Z.add_0_r. by split. }
  set (m' := match tx_from tx with Some sender => _ | None => _ end) in *.
  set (p := zsum (debit_of base <$> _)) in *. case_decide; [|cbn; rewrite Z.add_0_r; by split].
  assert (zsum (tx_amount <$> [tx]) = tx_amount tx) as -> by (cbn; lia).
  assert (∀ z, accounted (x + tx_amount tx) (y + p) z → accounted (x + tx_amount tx) (y + p) (if is_coinbase tx then mined_at h r z else z))
    as Hmined by (intros z Hz; by destruct (is_coinbase tx)).
  apply Hmined. split; [|exact Hs1]. cbn. unfold saturating_add. rewrite Hr1. lia.
Qed.

Lemma receipts_cons a tx txs : receipts a (tx :: txs) = receipts a [tx] + receipts a txs.
Proof. unfold receipts. rewrite !filter_cons, filter_nil. case_decide; cbn [fmap list_fmap]; rewrite ?zsum_cons; cbn; lia. Qed.
Lemma payments_cons base a tx txs : payments base a (tx :: txs) = payments base a [tx] + payments base a txs.
Proof. unfold payments. rewrite !filter_cons, filter_nil. case_decide; cbn [fmap list_fmap]; rewrite ?zsum_cons; cbn; lia. Qed.

Lemma flows_nonneg base a txs : Forall (tx_fine base) txs → 0 <= receipts a txs ∧ 0 <= payments base a txs.
Proof.
  intros Hf. split; apply zsum_nonneg, Forall_fmap, Forall_forall; intros tx [Hto Hin]%list_elem_of_filter;
    rewrite Forall_forall in Hf; destruct (Hf tx Hin) as [Ha Hd]; [done|]. apply Hd. by rewrite Hto.
Qed.

Lemma block_accounted h r base txs m a x y :
  Forall (tx_fine base) txs → 0 <= x → 0 <= y → accounted x y (activity a m) →
  accounted (x + receipts a txs) (y + payments base a txs) (activity a (foldl (index_addresses h r base) m txs)).
Proof.
  intros Hf. revert m x y. induction Hf as [|tx txs Htx Hf IH]; intros m x y Hx Hy Hm.
  { cbn. by rewrite !Z.add_0_r. }
  cbn [foldl]. rewrite receipts_cons, payments_cons, !Z.add_assoc.
  destruct (flows_nonneg base a [tx]) as [H1 H2]; [by constructor|].
  apply IH; [lia | lia | by apply index_addresses_accounted].
Qed.

Lemma addresses_accounted st bs m a x y :
  Forall (λ b, Forall (tx_fine (bh_base_fee_atomic (header b))) (transactions b)) bs → 0 <= x → 0 <= y →
  accounted x y (activity a m) → accounted (x + received_total a bs) (y + sent_total a bs) (activity a (addresses_of st bs m)).
Proof.
  intros Hf. revert m x y. unfold addresses_of. induction Hf as [|b bs Hb Hf IH]; intros m x y Hx Hy Hm.
  { unfold received_total, sent_total. cbn. by rewrite !Z.add_0_r. }
  cbn [foldl]. unfold received_total, sent_total. rewrite !fmap_cons, !zsum_cons, !Z.add_assoc.
  destruct (flows_nonneg _ a _ Hb) as [H1 H2].
  apply IH; [lia | lia | by apply block_accounted].
Qed.

Lemma delta_flows base a txs : delta_total base a txs = receipts a txs - payments base a txs.
Proof.
  induction txs as [|tx txs IH]; [done|]. change (delta_total base a (tx :: txs)) with (delta base a tx + delta_total base a txs).
  rewrite receipts_cons, payments_cons, IH. unfold delta, receipts, payments. rewrite !filter_cons, !filter_nil.
  destruct (decide (tx_from tx = Some a)), (decide (a = tx_to tx)), (decide (tx_to tx = a)); try congruence; cbn; lia.
Qed.

Lemma history_flows bs st a : history bs st → balance_of st a = received_total a bs - sent_total a bs.
Proof.
  induction 1 as [|bs b st s st' Hh IH Hwf Ha]; [done|].
  rewrite (apply_block_balances st b s st' a (history_reachable _ _ Hh) Hwf Ha), IH, delta_flows.
  unfold received_total, sent_total. rewrite !fmap_app, !zsum_app. cbn. lia.
Qed.

Lemma activity_with_balances (l : list (string * Z)) m a :
  activity a (foldl (λ m e, on_activity e.1 (in_ledger e.2) m) m l) =
  foldl (λ x e, in_ledger e.2 x) (activity a m) (filter (λ e, e.1 = a) l).
Proof.
  revert m. induction l as [|e l IH]; intros m; [done|]. cbn [foldl]. rewrite IH, activity_on, filter_cons. by case_decide.
Qed.

(** The index reconciles with the ledger: exactly the addresses named by the
    chain's transactions are listed; an address's balance is the ledger's, its
    totals are the sums of what it received and of what it paid with fees, capped
    at the largest 64-bit number; and without the cap the balance is the
    difference of the totals. *)
Theorem index_reconciles n c index a :
  chain_reachable n c → index_of n c = Ok index →
  (is_Some (im_addresses (ix_maps index) !! a) ↔ touched (all_transactions (ch_blocks c)) a) ∧
  aa_balance_atomic (activity a (im_addresses (ix_maps index))) = balance_of (ch_state c) a ∧
  aa_total_received_atomic (activity a (im_addresses (ix_maps index))) = Z.min (received_total a (ch_blocks c)) (umax 64) ∧
  aa_total_sent_atomic (activity a (im_addresses (ix_maps index))) = Z.min (sent_total a (ch_blocks c)) (umax 64) ∧
  balance_of (ch_state c) a = received_total a (ch_blocks c) - sent_total a (ch_blocks c).
Proof.
  intros Hc Hindex. destruct (build_chain n c Hc) as (i & _ & Ha & Hstrip & Hsame & Ho). rewrite Hindex in Ho. injection Ho as ->.
  cbn [ix_maps]. split.
  { destruct Hsame as (_ & _ & _ & _ & _ & Hs). apply (f_equal (λ m, m !! a)) in Hs. rewrite !lookup_fmap in Hs.
    rewrite <- (fmap_is_Some not_in_ledger), Hs, fmap_is_Some, Ha, addresses_touched. split; [intros [[]|]; done | by right]. }
  unfold with_balances. cbn [im_addresses]. rewrite activity_with_balances, btree_filter_key.
  pose proof (addresses_accounted (ch_state c) (ch_blocks c) ∅ a 0 0 (chain_fine n c Hc)) as Hacc.
  destruct Hacc as [Hr Hs]; [done..|]. rewrite <- Ha, !Z.add_0_l in *.
  split; [|split; [|split]].
  - unfold balance_of. destruct (balances (ch_state c) !! a) as [v|] eqn:E; [done|]. cbn [foldl default].
    unfold activity. destruct (im_addresses i !! a) as [x|] eqn:Ex; [|done].
    apply (f_equal (λ m, m !! a)) in Hstrip. rewrite lookup_fmap, Ex in Hstrip. injection Hstrip as <-. done.
  - destruct (_ !! a); exact Hr.
  - destruct (_ !! a); exact Hs.
  - apply history_flows, (co_history n c), chain_reachable_ok, Hc.
Qed.

End theory.
