(* ===== verification/Pool.v ===== *)
(** [vireon-mining-pool/src/models.rs] and [store.rs]: the pool's accounting
    state and its operations.  A store is the data in memory and the data of
    [pool-state.json]; [save] takes the outcome of writing the file as an
    argument, [None] for success, as do the random payout id and the clock. *)

From S2P Require Import Prelude RustStd.

(** ** [models.rs] *)

Record ShareRecord := mkShare {
  sh_share_id : Z;
  sh_job_id : string;
  sh_miner_address : string;
  sh_worker_name : string;
  sh_nonce : Z;
  sh_hash : string;
  sh_share_bits : Z;
  sh_network_bits : Z;
  sh_accepted_at : Z;
  sh_block_candidate : bool;
}.

Record AccountBalance := mkBalance {
  ab_immature : Z;
  ab_mature : Z;
  ab_pending : Z;
  ab_paid : Z;
}.
Definition no_balance : AccountBalance := mkBalance 0 0 0 0.

Inductive PoolBlockStatus := Immature | Mature | Orphaned.
#[global] Instance PoolBlockStatus_eq_dec : EqDecision PoolBlockStatus.
Proof. solve_decision. Defined.

Record PoolBlock := mkPoolBlock {
  pb_height : Z;
  pb_hash : string;
  pb_reward : Z;
  pb_distributable : Z;
  pb_pool_fee : Z;
  pb_found_at : Z;
  pb_status : PoolBlockStatus;
  pb_allocations : gmap string Z;
}.

Inductive PayoutStatus := Prepared | Submitted | Cancelled.
#[global] Instance PayoutStatus_eq_dec : EqDecision PayoutStatus.
Proof. solve_decision. Defined.

Record PayoutItem := mkItem { pi_address : string; pi_amount : Z }.

Record PayoutBatch := mkBatch {
  po_payout_id : string;
  po_created_at : Z;
  po_status : PayoutStatus;
  po_items : list PayoutItem;
  po_transaction_hashes : list string;
}.

Record PoolData := mkPoolData {
  pd_next_share_id : Z;
  pd_shares : list ShareRecord;
  pd_accounts : gmap string AccountBalance;
  pd_blocks : list PoolBlock;
  pd_payouts : list PayoutBatch;
}.
Definition PoolData_default : PoolData := mkPoolData 0 [] ∅ [] [].

(** [enum PoolError] *)
Inductive PoolError :=
| Config (message : string)
| InvalidShare (message : string)
| Stale (message : string)
| Unauthorized
| RateLimited (seconds : Z)
| Banned (seconds : Z)
| Upstream (message : string)
| StorageError (message : string).

(** Field updates. *)
Definition set_shares (n : Z) (l : list ShareRecord) (d : PoolData) : PoolData :=
  mkPoolData n l (pd_accounts d) (pd_blocks d) (pd_payouts d).
Definition set_accounts (a : gmap string AccountBalance) (d : PoolData) : PoolData :=
  mkPoolData (pd_next_share_id d) (pd_shares d) a (pd_blocks d) (pd_payouts d).
Definition set_blocks (b : list PoolBlock) (d : PoolData) : PoolData :=
  mkPoolData (pd_next_share_id d) (pd_shares d) (pd_accounts d) b (pd_payouts d).
Definition set_payouts (p : list PayoutBatch) (d : PoolData) : PoolData :=
  mkPoolData (pd_next_share_id d) (pd_shares d) (pd_accounts d) (pd_blocks d) p.

(** [data.accounts.entry(address).or_default()], changed in place. *)
Definition account (a : string) (m : gmap string AccountBalance) : AccountBalance := default no_balance (m !! a).
Definition on_account (a : string) (f : AccountBalance → AccountBalance) (m : gmap string AccountBalance) :
    gmap string AccountBalance := <[a := f (account a m)]> m.

(** ** The store *)

Record PoolStore := mkStore {
  st_data : PoolData;
  st_file : option PoolData;
  st_max_shares : Z;
}.

Abbreviation pool A := (state_result PoolStore PoolError A).

Definition on_data (f : PoolData → PoolData) (s : PoolStore) : PoolStore :=
  mkStore (f (st_data s)) (st_file s) (st_max_shares s).

(** [PoolStore::load], the file parsed. *)
Definition PoolStore_load (file : option PoolData) (max_shares : Z) : PoolStore :=
  mkStore (default PoolData_default file) file max_shares.

Definition save (saved : option string) : pool () := λ s,
  match saved with
  | None => (Ok (), mkStore (st_data s) (Some (st_data s)) (st_max_shares s))
  | Some e => (Err (StorageError e), s)
  end.

Definition with_share_id (id : Z) (sh : ShareRecord) : ShareRecord :=
  mkShare id (sh_job_id sh) (sh_miner_address sh) (sh_worker_name sh) (sh_nonce sh) (sh_hash sh) (sh_share_bits sh)
    (sh_network_bits sh) (sh_accepted_at sh) (sh_block_candidate sh).

Definition PoolStore_record_share (saved : option string) (share : ShareRecord) : pool (ShareRecord * bool) := λ s,
  let data := st_data s in
  match list_find (λ item, sh_hash item = sh_hash share) (pd_shares data) with
  | Some (_, existing) => (Ok (existing, true), s)
  | None =>
      let next := saturating_add 64 (pd_next_share_id data) 1 in
      let share := with_share_id next share in
      let shares := pd_shares data ++ [share] in
      let shares := if Z.of_nat (length shares) >? st_max_shares s
                    then drop (Z.to_nat (Z.of_nat (length shares) - st_max_shares s)) shares else shares in
      (_ ← save saved; mret (share, false)) (on_data (set_shares next shares) s)
  end.

(** ** Splitting a block *)

Definition share_work (bits : Z) : Z := default (umax 128) (checked_shl 128 1 bits).

(** [work_by_address], share by share. *)
Definition add_work (m : gmap string Z) (sh : ShareRecord) : gmap string Z :=
  <[sh_miner_address sh := saturating_add 128 (default 0 (m !! sh_miner_address sh)) (share_work (sh_share_bits sh))]> m.
Definition work_by_address (shares : list ShareRecord) : gmap string Z := foldl add_work ∅ shares.

(** The floor of an address's part of [d], and the remainder. *)
Definition floor_part (d total work : Z) : Z := uwrap 64 (wrapping_mul 128 d work / total).
Definition part_remainder (d total work : Z) : Z := wrapping_mul 128 d work mod total.

(** The order of the remainders. *)
Definition remainder_cmp (a b : string * Z) : comparison := then_with (b.2 ?= a.2) (str_cmp a.1 b.1).

(** The loop that hands out the dust. *)
Fixpoint dust_loop (remainders : list (string * Z)) (floors : gmap string Z) (dust : Z) : gmap string Z * Z :=
  match remainders with
  | [] => (floors, dust)
  | (address, _) :: rest =>
      if dust =? 0 then (floors, dust) else
      match floors !! address with
      | Some amount => dust_loop rest (<[address := saturating_add 64 amount 1]> floors) (saturating_sub dust 1)
      | None => dust_loop rest floors dust
      end
  end.

(** [Iterator::max_by]: the last of the greatest. *)
Definition max_by {A} (cmp : A → A → comparison) (l : list A) : option A :=
  foldl (λ acc x, match acc with
    | None => Some x
    | Some m => match cmp m x with Gt => Some m | _ => Some x end
    end) None l.
Definition most_work_cmp (a b : string * Z) : comparison := then_with (a.2 ?= b.2) (str_cmp a.1 b.1).

Definition allocate_by_share_work (shares : list ShareRecord) (d : Z) : result string (gmap string Z) :=
  let work := work_by_address shares in
  let total := foldl (λ sum e, saturating_add 128 sum e.2) 0 (btree_entries work) in
  if total =? 0 then Err "PPLNS work total cannot be zero"%string else
  if bool_decide (work = ∅) then Err "cannot allocate a block without accepted shares"%string else
  let floors := foldl (λ m e, <[e.1 := floor_part d total e.2]> m) ∅ (btree_entries work) in
  let remainders := (λ e, (e.1, part_remainder d total e.2)) <$> btree_entries work in
  let allocated := foldl (λ s e, saturating_add 64 s (floor_part d total e.2)) 0 (btree_entries work) in
  let '(floors, dust) := dust_loop (sort_by remainder_cmp remainders) floors (saturating_sub d allocated) in
  if dust >? 0 then
    match max_by most_work_cmp (btree_entries work) with
    | Some (address, _) =>
        match floors !! address with
        | Some amount => Ok (<[address := saturating_add 64 amount dust]> floors)
        | None => Ok floors
        end
    | None => Ok floors
    end
  else Ok floors.

(** The shares of the round that ends with a block found at [now]. *)
Definition round_of (shares : list ShareRecord) (blocks : list PoolBlock) (window now : Z) : list ShareRecord :=
  let previous_block_at := foldl Z.max 0 (pb_found_at <$> blocks) in
  let round := filter (λ sh, previous_block_at < sh_accepted_at sh ∧ sh_accepted_at sh <= now) shares in
  if bool_decide (round = []) then
    take (Z.to_nat (Z.max window 1)) (filter (λ sh, sh_accepted_at sh <= now) (reverse shares))
  else if (Z.of_nat (length round) >? window) && (window >? 0)
  then drop (Z.to_nat (Z.of_nat (length round) - window)) round
  else round.

Definition pool_fee (reward bps : Z) : Z := reward * bps / 10000.

Definition add_immature (amount : Z) (b : AccountBalance) : AccountBalance :=
  mkBalance (saturating_add 64 (ab_immature b) amount) (ab_mature b) (ab_pending b) (ab_paid b).
Definition sub_immature (amount : Z) (b : AccountBalance) : AccountBalance :=
  mkBalance (saturating_sub (ab_immature b) amount) (ab_mature b) (ab_pending b) (ab_paid b).
Definition mature_part (amount : Z) (b : AccountBalance) : AccountBalance :=
  mkBalance (saturating_sub (ab_immature b) amount) (saturating_add 64 (ab_mature b) amount) (ab_pending b) (ab_paid b).
Definition claw_back (amount : Z) (b : AccountBalance) : AccountBalance :=
  mkBalance (ab_immature b) (saturating_sub (ab_mature b) (Z.min amount (ab_mature b))) (ab_pending b) (ab_paid b).

(** [for (address, amount) in allocations { .. }] *)
Definition each_allocation (f : Z → AccountBalance → AccountBalance) (allocations : gmap string Z)
    (m : gmap string AccountBalance) : gmap string AccountBalance :=
  foldl (λ m e, on_account e.1 (f e.2) m) m (btree_entries allocations).

Definition PoolStore_record_block (saved : option string) (height : Z) (hash : string)
    (reward fee_bps window now : Z) : pool () := λ s,
  let data := st_data s in
  if existsb (λ b, bool_decide (pb_hash b = hash)) (pd_blocks data) then (Ok (), s) else
  if umax 64 <? pool_fee reward fee_bps then (Err (StorageError "pool fee overflow"), s) else
  let fee := pool_fee reward fee_bps in
  let distributable := saturating_sub reward fee in
  let round := round_of (pd_shares data) (pd_blocks data) window now in
  if bool_decide (round = []) then (Err (StorageError "cannot allocate a block without accepted shares"), s) else
  match allocate_by_share_work round distributable with
  | Err e => (Err (StorageError e), s)
  | Ok allocations =>
      save saved (on_data (λ d, set_blocks
        (pd_blocks d ++ [mkPoolBlock height hash reward distributable fee now Immature allocations])
        (set_accounts (each_allocation add_immature allocations (pd_accounts d)) d)) s)
  end.

(** ** Maturity *)

(** The new status of a block, [None] when it keeps its own. *)
Definition next_status (canonical : gmap Z string) (tip confirmations : Z) (b : PoolBlock) : option PoolBlockStatus :=
  match pb_status b with
  | Immature =>
      match canonical !! pb_height b with
      | Some h =>
          if negb (bool_decide (h = pb_hash b)) then Some Orphaned
          else if tip <? saturating_add 64 (pb_height b) confirmations then None
          else Some (if bool_decide (h = pb_hash b) then Mature else Orphaned)
      | None => None
      end
  | Mature =>
      let diverged := match canonical !! pb_height b with
                      | Some h => negb (bool_decide (h = pb_hash b))
                      | None => pb_height b >? tip
                      end in
      if diverged then Some Orphaned else None
  | Orphaned => None
  end.

Definition with_status (st : PoolBlockStatus) (b : PoolBlock) : PoolBlock :=
  mkPoolBlock (pb_height b) (pb_hash b) (pb_reward b) (pb_distributable b) (pb_pool_fee b) (pb_found_at b) st
    (pb_allocations b).

(** What a transition does to the account of an allocation. *)
Definition transition_effect (previous next : PoolBlockStatus) : Z → AccountBalance → AccountBalance :=
  match previous, next with
  | Immature, Mature => mature_part
  | Immature, Orphaned => sub_immature
  | Mature, Orphaned => claw_back
  | _, _ => λ _ b, b
  end.

(** The transitions of the blocks: next status, allocations, previous status. *)
Definition transitions (next : PoolBlock → option PoolBlockStatus) (blocks : list PoolBlock) :
    list (PoolBlockStatus * gmap string Z * PoolBlockStatus) :=
  omap (λ b, (λ st, (st, pb_allocations b, pb_status b)) <$> next b) blocks.
Definition moved (next : PoolBlock → option PoolBlockStatus) (b : PoolBlock) : PoolBlock :=
  match next b with Some st => with_status st b | None => b end.
Definition apply_transitions (ts : list (PoolBlockStatus * gmap string Z * PoolBlockStatus))
    (m : gmap string AccountBalance) : gmap string AccountBalance :=
  foldl (λ m t, each_allocation (transition_effect t.2 t.1.1) t.1.2 m) m ts.

Definition PoolStore_mature_blocks (saved : option string) (canonical : gmap Z string) (tip confirmations : Z) :
    pool () := λ s,
  let next := next_status canonical tip confirmations in
  let ts := transitions next (pd_blocks (st_data s)) in
  let s := on_data (λ d, set_accounts (apply_transitions ts (pd_accounts d)) (set_blocks (moved next <$> pd_blocks d) d)) s in
  if bool_decide (ts = []) then (Ok (), s) else save saved s.

(** [void_immature_above_tip]: the transitions of the immature blocks above the tip. *)
Definition above_tip (tip : Z) (b : PoolBlock) : option PoolBlockStatus :=
  if bool_decide (pb_status b = Immature) && (pb_height b >? tip) then Some Orphaned else None.

Definition void_immature_above_tip (saved : option string) (tip : Z) : pool Z := λ s,
  let ts := transitions (above_tip tip) (pd_blocks (st_data s)) in
  let voided := Z.of_nat (length ts) in
  let s := on_data (λ d, set_accounts
    (foldl (λ m t, each_allocation sub_immature t.1.2 m) (pd_accounts d) ts)
    (set_blocks (moved (above_tip tip) <$> pd_blocks d) d)) s in
  if voided >? 0 then (_ ← save saved; mret voided) s else (Ok voided, s).

(** ** Payouts *)

Definition prepare_item (amount : Z) (b : AccountBalance) : AccountBalance :=
  mkBalance (ab_immature b) (saturating_sub (ab_mature b) amount) (saturating_add 64 (ab_pending b) amount) (ab_paid b).
Definition confirm_item (amount : Z) (b : AccountBalance) : AccountBalance :=
  mkBalance (ab_immature b) (ab_mature b) (saturating_sub (ab_pending b) amount) (saturating_add 64 (ab_paid b) amount).
Definition cancel_item (amount : Z) (b : AccountBalance) : AccountBalance :=
  mkBalance (ab_immature b) (saturating_add 64 (ab_mature b) amount) (ab_pending b - amount) (ab_paid b).

Definition payout_items (minimum : Z) (m : gmap string AccountBalance) : list PayoutItem :=
  (λ e, mkItem e.1 (ab_mature e.2)) <$> filter (λ e, minimum <= ab_mature e.2) (btree_entries m).

(** The loop of [prepare_payout]: every account is looked up again. *)
Definition prepare_one (it : PayoutItem) : pool () := λ s,
  match pd_accounts (st_data s) !! pi_address it with
  | None => (Err (StorageError ("account " ++ pi_address it ++ " disappeared while preparing payout")), s)
  | Some _ => (Ok (), on_data (λ d, set_accounts (on_account (pi_address it) (prepare_item (pi_amount it)) (pd_accounts d)) d) s)
  end.

Definition PoolStore_prepare_payout (saved : option string) (payout_id : string) (minimum now : Z) : pool PayoutBatch := λ s,
  let items := payout_items minimum (pd_accounts (st_data s)) in
  if bool_decide (items = []) then (Err (Config "no balances meet the payout threshold"), s) else
  let batch := mkBatch payout_id now Prepared items [] in
  (_ ← sr_each prepare_one items;
   _ ← sr_modify (on_data (λ d, set_payouts (pd_payouts d ++ [batch]) d));
   _ ← save saved; mret batch) s.

(** [position(|payout| payout.payout_id == payout_id && payout.status == Prepared)] *)
Definition prepared_position (payout_id : string) (payouts : list PayoutBatch) : option (nat * PayoutBatch) :=
  list_find (λ p, po_payout_id p = payout_id ∧ po_status p = Prepared) payouts.

Section hex.
(** [hex::decode] of the [hex] crate, by the length of its result. *)
Context (hex_decode : string → option (list byte)).

Definition tx_hash_text (h : string) : bool :=
  match hex_decode h with Some l => Nat.eqb (length l) 32 | None => false end.

Definition PoolStore_confirm_payout (saved : option string) (payout_id : string) (hashes : list string) : pool PayoutBatch := λ s,
  if bool_decide (hashes = []) || existsb (λ h, negb (tx_hash_text h)) hashes
  then (Err (Config "transaction hashes must be 32-byte hex"), s) else
  let payouts := pd_payouts (st_data s) in
  if existsb (λ p, existsb (λ e, existsb (λ h, bool_decide (h = e)) hashes) (po_transaction_hashes p)) payouts
  then (Err (Config "a payout transaction hash is already recorded"), s) else
  match prepared_position payout_id payouts with
  | None => (Err (Config "prepared payout not found"), s)
  | Some (i, p) =>
      let batch := mkBatch (po_payout_id p) (po_created_at p) Submitted (po_items p) hashes in
      (_ ← save saved; mret batch) (on_data (λ d, set_payouts (<[i := batch]> (pd_payouts d)) (set_accounts
        (foldl (λ m it, on_account (pi_address it) (confirm_item (pi_amount it)) m) (pd_accounts d) (po_items p)) d)) s)
  end.

End hex.

Definition cancel_one (it : PayoutItem) : pool () := λ s,
  let touched := on_data (λ d, set_accounts (on_account (pi_address it) id (pd_accounts d)) d) s in
  if ab_pending (account (pi_address it) (pd_accounts (st_data s))) <? pi_amount it
  then (Err (StorageError ("pending payout balance is inconsistent for " ++ pi_address it)), touched)
  else (Ok (), on_data (λ d, set_accounts (on_account (pi_address it) (cancel_item (pi_amount it)) (pd_accounts d)) d) s).

Definition PoolStore_cancel_payout (saved : option string) (payout_id : string) : pool PayoutBatch := λ s,
  match prepared_position payout_id (pd_payouts (st_data s)) with
  | None => (Err (Config "prepared payout not found"), s)
  | Some (i, p) =>
      let batch := mkBatch (po_payout_id p) (po_created_at p) Cancelled (po_items p) (po_transaction_hashes p) in
      (_ ← sr_each cancel_one (po_items p);
       _ ← sr_modify (on_data (λ d, set_payouts (<[i := batch]> (pd_payouts d)) d));
       _ ← save saved; mret batch) s
  end.
