(* ===== verification/PoolSplit.v ===== *)
(** The split of a block among the miners of its round
    ([allocate_by_share_work] of [vireon-mining-pool/src/store.rs]). *)

From S2P Require Import Prelude RustStd Pool.

Implicit Types (shares : list ShareRecord) (m : gmap string Z).

(** ** Work by address *)

Definition sh_work (sh : ShareRecord) : Z := share_work (sh_share_bits sh).
Definition total_work shares : Z := zsum (sh_work <$> shares).
Definition work_of (a : string) shares : Z := total_work (filter (λ sh, sh_miner_address sh = a) shares).

Lemma share_work_pos b : 0 <= b → 1 <= share_work b.
Proof.
  intros Hb. unfold share_work, checked_shl. destruct (b <? 128) eqn:E; breflect; cbn; [|by vm_compute].
  rewrite Z.shiftl_1_l. unfold uwrap. rewrite Z.mod_small by (split; [apply Z.pow_nonneg|apply Z.pow_lt_mono_r]; lia).
  pose proof (Z.pow_pos_nonneg 2 b). lia.
Qed.

Lemma round_work_cons sh shares : total_work (sh :: shares) = sh_work sh + total_work shares.
Proof. done. Qed.

Lemma work_of_cons a sh shares :
  work_of a (sh :: shares) = (if decide (sh_miner_address sh = a) then sh_work sh else 0) + work_of a shares.
Proof. unfold work_of. rewrite filter_cons. by case_decide. Qed.

Section work.
Context (shares : list ShareRecord) (Hbits : Forall (λ sh, 0 <= sh_share_bits sh) shares).

Lemma round_work_nonneg : 0 <= total_work shares.
Proof.
  apply zsum_nonneg, Forall_fmap. eapply Forall_impl; [exact Hbits|]. intros sh H. cbn.
  pose proof (share_work_pos _ H). unfold sh_work. lia.
Qed.

End work.

Lemma work_of_nonneg a shares : Forall (λ sh, 0 <= sh_share_bits sh) shares → 0 <= work_of a shares.
Proof. intros H. apply round_work_nonneg. eapply sublist_Forall; [apply sublist_filter|done]. Qed.

Lemma add_work_fold shares m :
  Forall (λ sh, 0 <= sh_share_bits sh) shares → nonneg m → total m + total_work shares <= umax 128 →
  let w := foldl add_work m shares in
  nonneg w ∧ total w = total m + total_work shares ∧
  (∀ a, default 0 (w !! a) = default 0 (m !! a) + work_of a shares) ∧
  (∀ a, is_Some (w !! a) ↔ is_Some (m !! a) ∨ a ∈ sh_miner_address <$> shares).
Proof.
  intros Hbits. revert m. induction Hbits as [|sh shares Hb Hbits IH]; intros m Hm Hmax; cbv zeta; cbn [foldl].
  - split_and!; [done | unfold total_work; cbn; lia | intros a; unfold work_of; cbn; lia | set_solver].
  - rewrite round_work_cons in *. pose proof (share_work_pos _ Hb) as Hp. fold (sh_work sh) in Hp.
    pose proof (round_work_nonneg shares Hbits) as Hrest.
    pose proof (lookup_le_total m (sh_miner_address sh) Hm) as Hl.
    assert (add_work m sh = <[sh_miner_address sh := default 0 (m !! sh_miner_address sh) + sh_work sh]> m) as Hadd.
    { unfold add_work, saturating_add. f_equal. fold (sh_work sh). lia. }
    rewrite Hadd. destruct (IH (<[sh_miner_address sh := default 0 (m !! sh_miner_address sh) + sh_work sh]> m))
      as (H1 & H2 & H3 & H4); [apply nonneg_insert; [done|lia] | rewrite total_insert; lia|].
    split_and!; [done | rewrite H2, total_insert; lia | |].
    + intros a. rewrite H3, work_of_cons. case_decide as Ha.
      * subst a. rewrite lookup_insert_eq. cbn. lia.
      * rewrite lookup_insert_ne by done. lia.
    + intros a. rewrite H4, fmap_cons, elem_of_cons. destruct (decide (sh_miner_address sh = a)) as [<-|Ha].
      * rewrite lookup_insert_eq. naive_solver.
      * rewrite lookup_insert_ne by done. naive_solver.
Qed.

Lemma work_by_address_spec shares :
  Forall (λ sh, 0 <= sh_share_bits sh) shares → total_work shares <= umax 128 →
  nonneg (work_by_address shares) ∧ total (work_by_address shares) = total_work shares ∧
  (∀ a, default 0 (work_by_address shares !! a) = work_of a shares) ∧
  (∀ a, is_Some (work_by_address shares !! a) ↔ a ∈ sh_miner_address <$> shares).
Proof.
  unfold work_by_address. intros Hb Hmax. destruct (add_work_fold shares ∅ Hb) as (H1 & H2 & H3 & H4);
    [done | rewrite total_empty; lia|].
  split_and!; [done | rewrite total_empty in H2; lia | intros a; rewrite H3, lookup_empty; cbn; lia|].
  intros a. rewrite H4, lookup_empty. split; [intros [[? [=]]|]|]; auto.
Qed.

(** ** Folds over the entries *)

Lemma foldl_saturating {A} w (f : A → Z) l s :
  (∀ x, x ∈ l → 0 <= f x) → s + zsum (f <$> l) <= umax w →
  foldl (λ s x, saturating_add w s (f x)) s l = s + zsum (f <$> l).
Proof.
  revert s. induction l as [|x l IH]; intros s Hf Hmax; [cbn in *; lia|].
  rewrite fmap_cons, zsum_cons in *. cbn [foldl].
  pose proof (Hf x ltac:(by left)). assert (∀ y, y ∈ l → 0 <= f y) as Hl by (intros y Hy; apply Hf; by right).
  assert (0 <= zsum (f <$> l)) by (apply zsum_nonneg, Forall_fmap, Forall_forall; exact Hl).
  unfold saturating_add at 2. rewrite Z.min_l by lia. rewrite IH; [lia|done|lia].
Qed.

Lemma foldl_insert_lookup {B} (f : Z → B) (l : list (string * Z)) (m : gmap string B) k :
  NoDup l.*1 →
  (∀ v, (k, v) ∈ l → foldl (λ acc e, <[e.1 := f e.2]> acc) m l !! k = Some (f v)) ∧
  (k ∉ l.*1 → foldl (λ acc e, <[e.1 := f e.2]> acc) m l !! k = m !! k).
Proof.
  revert m. induction l as [|[k1 v1] l IH]; intros m Hnd; cbn [foldl fst snd fmap list_fmap] in *.
  - split; [intros v Hv; by apply not_elem_of_nil in Hv | done].
  - apply NoDup_cons in Hnd as [Hk Hnd]. destruct (IH (<[k1 := f v1]> m) Hnd) as [H1 H2]. split.
    + intros v [[= <- <-]|Hv]%elem_of_cons; [|by apply H1]. rewrite H2 by done. apply lookup_insert_eq.
    + intros [Hne Hin]%not_elem_of_cons. rewrite H2 by done. by rewrite lookup_insert_ne.
Qed.

(** ** The dust *)

Lemma dust_loop_spec (rs : list (string * Z)) m dust :
  NoDup rs.*1 → (∀ k, k ∈ rs.*1 → is_Some (m !! k)) → nonneg m → 0 <= dust → total m + dust <= umax 64 →
  let '(m', dust') := dust_loop rs m dust in
  dust' = Z.max 0 (dust - Z.of_nat (length rs)) ∧ total m' = total m + (dust - dust') ∧
  ∀ k, m' !! k = (λ v, v + (if decide (k ∈ (take (Z.to_nat dust) rs).*1) then 1 else 0)) <$> m !! k.
Proof.
  revert m dust. induction rs as [|[a r] rs IH]; intros m dust Hnd Hin Hm Hd Hmax.
  - cbn [dust_loop length]. split_and!; [lia|lia|]. intros k. rewrite take_nil. cbn. rewrite decide_False by set_solver.
    destruct (m !! k); cbn; [f_equal; lia | done].
  - cbn [dust_loop length]. destruct (dust =? 0) eqn:E; breflect.
    + subst dust. split_and!; [lia|lia|]. intros k. cbn. rewrite decide_False by set_solver.
      destruct (m !! k); cbn; [f_equal; lia | done].
    + cbn [fmap list_fmap fst] in *. apply NoDup_cons in Hnd as [Ha Hnd].
      destruct (Hin a ltac:(left)) as [v Hv]. rewrite Hv.
      pose proof (lookup_le_total m a Hm) as Hle. rewrite Hv in Hle. cbn in Hle.
      assert (saturating_add 64 v 1 = v + 1) as -> by (unfold saturating_add; lia).
      assert (saturating_sub dust 1 = dust - 1) as -> by (unfold saturating_sub; lia).
      specialize (IH (<[a := v + 1]> m) (dust - 1) Hnd). destruct (dust_loop rs _ _) as [m' dust'].
      destruct IH as (H1 & H2 & H3).
      * intros k Hk. destruct (decide (a = k)) as [<-|]; [rewrite lookup_insert_eq; eauto|].
        rewrite lookup_insert_ne by done. apply Hin. by right.
      * apply nonneg_insert; [done|lia].
      * lia.
      * rewrite total_insert, Hv. cbn. lia.
      * rewrite total_insert, Hv in H2. cbn in H2. split_and!; [lia|lia|].
        intros k. rewrite H3. replace (Z.to_nat dust) with (S (Z.to_nat (dust - 1))) by lia. cbn [take fmap list_fmap fst].
        destruct (decide (a = k)) as [<-|Hne].
        -- rewrite lookup_insert_eq, Hv. cbn. rewrite decide_False, decide_True; [f_equal; lia | left|].
           intros Hin'. apply Ha. apply list_elem_of_fmap in Hin' as (p & -> & Hp). apply list_elem_of_fmap_2.
           eapply elem_of_sublist; [exact Hp | apply sublist_take].
        -- rewrite lookup_insert_ne by done. destruct (m !! k) as [u|]; cbn; [|done]. f_equal. f_equal.
           do 2 case_decide; set_solver.
Qed.

#[global] Instance total_remainder : TotalCmp remainder_cmp.
Proof.
  unfold remainder_cmp. apply (total_cmp_then (λ a b, b.2 ?= a.2) (λ a b, str_cmp a.1 b.1)); [|apply _].
  apply (total_cmp_flip (λ a b : string * Z, a.2 ?= b.2)), _.
Qed.

Lemma elem_of_take_fst (l : list (string * Z)) n k :
  k ∈ (take n l).*1 ↔ ∃ i r, l !! i = Some (k, r) ∧ (i < n)%nat.
Proof.
  rewrite list_elem_of_fmap. split.
  - intros ([k' r] & -> & (i & Hi & Hlt)%elem_of_take). eauto.
  - intros (i & r & Hi & Hlt). exists (k, r). split; [done|]. apply elem_of_take. eauto.
Qed.

(** A larger remainder is served before a smaller one. *)
Lemma dust_prefers (rs : list (string * Z)) n a b ra rb :
  (∀ r, (a, r) ∈ rs → r = ra) → (b, rb) ∈ rs → ra < rb →
  a ∈ (take n (sort_by remainder_cmp rs)).*1 → b ∈ (take n (sort_by remainder_cmp rs)).*1.
Proof.
  intros Ha Hb Hlt (i & r & Hi & Hin)%elem_of_take_fst. apply elem_of_take_fst.
  assert ((a, r) ∈ rs) as ->%Ha by (rewrite <- (elem_of_sort_by remainder_cmp); by eapply list_elem_of_lookup_2).
  rewrite <- (elem_of_sort_by remainder_cmp) in Hb. apply list_elem_of_lookup in Hb as (j & Hj).
  exists j, rb. split; [done|]. destruct (decide (j < n)%nat); [done|]. exfalso.
  assert (cmp_le remainder_cmp (a, ra) (b, rb)) as Hc.
  { eapply (StronglySorted_lookup_le _ _ i j); [apply sort_by_sorted, _ | lia | done | done]. }
  unfold cmp_le, remainder_cmp in Hc. cbn in Hc. by rewrite (proj2 (Z.compare_gt_iff rb ra) Hlt) in Hc.
Qed.

(** ** The split *)

Section split.
Context (shares : list ShareRecord) (d : Z).
Context (Hne : shares ≠ []) (Hbits : Forall (λ sh, 0 <= sh_share_bits sh) shares).
Context (Hd : is_u64 d) (Hmax : total_work shares <= umax 128) (Hprod : d * total_work shares <= umax 128).

Let W := total_work shares.
Let E := btree_entries (work_by_address shares).
Let floors := (λ e : string * Z, d * e.2 / W) <$> E.
Let dust := d - zsum floors.

Lemma split_work_pos : 1 <= W.
Proof.
  unfold W. destruct shares as [|sh l]; [done|]. apply Forall_cons in Hbits as [Hb Hl].
  rewrite round_work_cons. pose proof (share_work_pos _ Hb). pose proof (round_work_nonneg l Hl). unfold sh_work. lia.
Qed.

Lemma split_entries a w : (a, w) ∈ E ↔ a ∈ sh_miner_address <$> shares ∧ w = work_of a shares.
Proof.
  destruct (work_by_address_spec shares Hbits Hmax) as (_ & _ & Hw & Hs).
  unfold E. rewrite elem_of_btree_entries. rewrite <- Hs, <- Hw. split.
  - intros ->. split; [eauto|done].
  - intros [[v Hv] ->]. by rewrite Hv.
Qed.

Lemma split_total : zsum E.*2 = W.
Proof.
  destruct (work_by_address_spec shares Hbits Hmax) as (_ & Ht & _). unfold E. by rewrite <- total_btree_entries.
Qed.

Lemma split_entry_range e : e ∈ E → 0 <= e.2 <= W.
Proof.
  intros He. rewrite <- split_total.
  assert (∀ e', e' ∈ E → 0 <= e'.2) as Hpos.
  { intros [a w] [_ ->]%split_entries. by apply work_of_nonneg. }
  split; [by apply Hpos | by apply (zsum_elem_le snd)].
Qed.

Lemma split_nonempty : (1 <= length E)%nat.
Proof.
  destruct E as [|e l] eqn:HE; [exfalso | cbn; lia].
  pose proof split_total as Ht. rewrite HE in Ht. pose proof split_work_pos. cbn in Ht. lia.
Qed.

Lemma split_product e : e ∈ E → wrapping_mul 128 d e.2 = d * e.2.
Proof.
  intros He. pose proof (split_entry_range e He). unfold wrapping_mul, uwrap. apply Z.mod_small.
  unfold in_width in Hd. unfold umax in Hprod. fold W in Hprod. nia.
Qed.

Lemma split_floor_range e : e ∈ E → 0 <= d * e.2 / W <= d.
Proof.
  intros He. pose proof (split_entry_range e He). pose proof split_work_pos. unfold in_width in Hd.
  split; [apply Z.div_pos; nia|]. apply Z.div_le_upper_bound; nia.
Qed.

Lemma split_floor e : e ∈ E → floor_part d W e.2 = d * e.2 / W.
Proof.
  intros He. unfold floor_part. rewrite split_product by done. pose proof (split_floor_range e He).
  apply Z.mod_small. unfold in_width in Hd. lia.
Qed.

Lemma split_remainder e : e ∈ E → part_remainder d W e.2 = (d * e.2) mod W.
Proof. intros He. unfold part_remainder. by rewrite split_product. Qed.

(** The remainders add up to the dust. *)
Lemma split_remainders : zsum ((λ e : string * Z, (d * e.2) mod W) <$> E) = W * dust.
Proof.
  pose proof split_work_pos. unfold dust, floors.
  assert (zsum ((λ e : string * Z, W * (d * e.2 / W) + (d * e.2) mod W) <$> E) = d * W) as Heq.
  { transitivity (d * zsum ((λ e : string * Z, e.2) <$> E)); [|f_equal; apply split_total].
    rewrite <- (zsum_fmap_mul d (λ e : string * Z, e.2)).
    f_equal. apply list_fmap_ext. intros i e _. cbn. symmetry. apply Z.div_mod. lia. }
  rewrite (zsum_fmap_add (λ e : string * Z, W * (d * e.2 / W))), (zsum_fmap_mul W (λ e : string * Z, d * e.2 / W)) in Heq.
  lia.
Qed.

Lemma split_dust : 0 <= dust < Z.of_nat (length E) ∧ dust <= d.
Proof.
  pose proof split_work_pos. pose proof split_remainders as Hr. pose proof split_nonempty.
  assert (0 <= zsum ((λ e : string * Z, (d * e.2) mod W) <$> E)) as Hlow.
  { apply zsum_nonneg, Forall_fmap, Forall_forall. intros e _. cbn. apply Z.mod_pos_bound. lia. }
  assert (zsum ((λ e : string * Z, (d * e.2) mod W) <$> E) <= zsum ((λ _ : string * Z, W - 1) <$> E)) as Hhigh.
  { apply zsum_le. intros e _. pose proof (Z.mod_pos_bound (d * e.2) W). lia. }
  assert (∀ l : list (string * Z), zsum ((λ _, W - 1) <$> l) = (W - 1) * Z.of_nat (length l)) as Hc
    by (induction l as [|x l IH]; [cbn; lia|]; rewrite fmap_cons, zsum_cons, IH; cbn [length]; lia).
  rewrite Hc in Hhigh. split; [nia|]. unfold dust.
  assert (0 <= zsum floors); [|lia]. unfold floors. apply zsum_nonneg, Forall_fmap, Forall_forall.
  intros e He. by apply split_floor_range.
Qed.

(** The floors, as the loop collects them. *)
Definition floor_map : gmap string Z := foldl (λ acc e, <[e.1 := floor_part d W e.2]> acc) ∅ E.

Lemma floor_map_lookup a :
  floor_map !! a = (if decide (a ∈ sh_miner_address <$> shares) then Some (d * work_of a shares / W) else None).
Proof.
  destruct (foldl_insert_lookup (floor_part d W) E ∅ a (NoDup_btree_entries _)) as [H1 H2].
  unfold floor_map. case_decide as Ha.
  - assert ((a, work_of a shares) ∈ E) as He by by apply split_entries.
    rewrite (H1 _ He). f_equal. apply (split_floor _ He).
  - rewrite H2; [done|]. intros ([a' w] & -> & Hin)%list_elem_of_fmap. by apply split_entries in Hin as [? _].
Qed.

Lemma floor_map_total : total floor_map = zsum floors ∧ nonneg floor_map.
Proof.
  assert (∀ l, NoDup l.*1 → (∀ e, e ∈ l → e ∈ E) → ∀ m, (∀ e, e ∈ l → m !! e.1 = None) →
    total (foldl (λ acc e, <[e.1 := floor_part d W e.2]> acc) m l) =
    total m + zsum ((λ e : string * Z, d * e.2 / W) <$> l)) as Hfold.
  { induction l as [|e l IH]; intros Hnd Hin m Hm; [cbn; lia|]. cbn [foldl].
    rewrite fmap_cons, zsum_cons. cbn [fmap list_fmap] in Hnd. apply NoDup_cons in Hnd as [Hni Hnd].
    rewrite IH; [|done|intros; apply Hin; by right|].
    - rewrite total_insert_fresh by (apply Hm; left). rewrite split_floor by (apply Hin; left). lia.
    - intros e' He'. rewrite lookup_insert_ne; [apply Hm; by right|]. intros Heq. apply Hni. rewrite Heq.
      by apply list_elem_of_fmap_2. }
  split.
  - unfold floor_map, floors. rewrite Hfold; [by rewrite total_empty | apply NoDup_btree_entries | done | done].
  - intros a v Hv. rewrite floor_map_lookup in Hv. case_decide as Ha; [|done]. injection Hv as <-.
    assert ((a, work_of a shares) ∈ E) as He by by apply split_entries. apply (split_floor_range _ He).
Qed.

Definition remainders : list (string * Z) := (λ e, (e.1, part_remainder d W e.2)) <$> E.

Lemma remainders_fst : remainders.*1 = E.*1.
Proof. unfold remainders. rewrite <- list_fmap_compose. done. Qed.

Lemma split_result :
  ∃ m, allocate_by_share_work shares d = Ok m ∧ total m = d ∧
    ∀ a, m !! a = (if decide (a ∈ sh_miner_address <$> shares)
      then Some (d * work_of a shares / W +
        (if decide (a ∈ (take (Z.to_nat dust) (sort_by remainder_cmp remainders)).*1) then 1 else 0)) else None).
Proof.
  pose proof split_work_pos as HW. pose proof split_dust as [Hdust _]. destruct floor_map_total as [Hft Hfn].
  unfold allocate_by_share_work. cbv zeta. fold E.
  assert (foldl (λ s e, saturating_add 128 s e.2) 0 E = W) as ->.
  { rewrite (foldl_saturating 128 snd); [rewrite split_total; lia | intros e He; by apply split_entry_range |].
    rewrite split_total. unfold W. lia. }
  rewrite (proj2 (Z.eqb_neq W 0)) by lia.
  rewrite bool_decide_eq_false_2 by (intros He; pose proof split_nonempty as Hn; unfold E in Hn; rewrite He, btree_entries_perm, map_to_list_empty in Hn; cbn in Hn; lia).
  fold remainders floor_map.
  assert (zsum ((λ e : string * Z, floor_part d W e.2) <$> E) = zsum floors) as Hsum.
  { unfold floors. f_equal. apply list_fmap_ext. intros i e He. apply split_floor. by eapply list_elem_of_lookup_2. }
  rewrite (foldl_saturating 64 (λ e, floor_part d W e.2)); [|intros e He; rewrite split_floor by done; by apply split_floor_range|].
  2:{ rewrite Hsum. unfold in_width in Hd. unfold dust in Hdust. unfold umax. lia. }
  rewrite Hsum. replace (saturating_sub d (0 + zsum floors)) with dust by (unfold saturating_sub, dust in *; lia).
  pose proof (dust_loop_spec (sort_by remainder_cmp remainders) floor_map dust) as Hl.
  destruct (dust_loop _ floor_map dust) as [m' dust']. destruct Hl as (H1 & H2 & H3).
  - rewrite sort_by_perm, remainders_fst. apply NoDup_btree_entries.
  - intros k. rewrite sort_by_perm, remainders_fst. intros ([a w] & -> & [Ha _]%split_entries)%list_elem_of_fmap.
    rewrite floor_map_lookup. cbn. rewrite decide_True by done. eauto.
  - done.
  - lia.
  - rewrite Hft. unfold dust. unfold in_width in Hd. unfold umax. lia.
  - rewrite sort_by_length in H1. unfold remainders in H1. rewrite length_fmap in H1.
    assert (dust' = 0) as -> by lia. exists m'. split; [done|]. split; [rewrite H2, Hft; unfold dust; lia|].
    intros a. rewrite H3, floor_map_lookup. by destruct (decide (a ∈ sh_miner_address <$> shares)).
Qed.

End split.

(** C36. The split of a block's reward: it always succeeds on a nonempty round, hands
    out exactly the distributable amount, pays exactly the addresses of the
    round, each its proportional part rounded down or up, and never pays an
    address less than one that proved less work.  The sizes are those for which
    the 128-bit products are exact. *)
Theorem allocate_by_share_work_spec shares d :
  shares ≠ [] → Forall (λ sh, 0 <= sh_share_bits sh) shares → is_u64 d →
  total_work shares <= umax 128 → d * total_work shares <= umax 128 →
  ∃ m, allocate_by_share_work shares d = Ok m ∧ total m = d ∧
    (∀ a, is_Some (m !! a) ↔ a ∈ sh_miner_address <$> shares) ∧
    (∀ a v, m !! a = Some v →
      d * work_of a shares < (v + 1) * total_work shares ∧ (v - 1) * total_work shares <= d * work_of a shares) ∧
    (∀ a b, work_of a shares < work_of b shares → default 0 (m !! a) <= default 0 (m !! b)).
Proof.
  intros Hne Hbits Hd Hmax Hprod. destruct (split_result shares d Hne Hbits Hd Hmax Hprod) as (m & Hm & Ht & Hl).
  pose proof (split_work_pos shares d Hne Hbits Hmax Hprod) as HW. set (W := total_work shares) in *.
  exists m. split_and!; [done|done| | |].
  - intros a. rewrite Hl. case_decide; split; [done | eauto | by intros [? [=]] | done].
  - intros a v. rewrite Hl. case_decide; [|done]. intros [= <-].
    pose proof (Z.div_mod (d * work_of a shares) W). pose proof (Z.mod_pos_bound (d * work_of a shares) W).
    case_decide; nia.
  - intros a b Hab. assert (0 <= work_of a shares) by by apply work_of_nonneg.
    assert (b ∈ sh_miner_address <$> shares) as Hb.
    { destruct (decide (b ∈ sh_miner_address <$> shares)) as [|Hn]; [done|]. exfalso.
      assert (work_of b shares = 0) as Hz; [|lia]. unfold work_of.
      destruct (filter (λ sh, sh_miner_address sh = b) shares) as [|sh l] eqn:Hf; [done|].
      exfalso. apply Hn. assert (sh ∈ filter (λ sh, sh_miner_address sh = b) shares) as [<- Hin]%list_elem_of_filter
        by (rewrite Hf; left). by apply list_elem_of_fmap_2. }
    assert (ra_lt : d * work_of a shares / W = d * work_of b shares / W → d <> 0 →
      (d * work_of a shares) mod W < (d * work_of b shares) mod W).
    { intros Heq Hd0. pose proof (Z.div_mod (d * work_of a shares) W). pose proof (Z.div_mod (d * work_of b shares) W).
      unfold in_width in Hd. nia. }
    assert (d * work_of a shares / W <= d * work_of b shares / W) as Hle
      by (unfold in_width in Hd; apply Z.div_le_mono; nia).
    rewrite !Hl, (decide_True _ _ Hb). destruct (decide (a ∈ _ <$> _)) as [Ha|]; cbn.
    + destruct (decide (a ∈ (take _ _).*1)) as [Hda|]; [|case_decide; lia].
      destruct (decide (d * work_of a shares / W = d * work_of b shares / W)) as [Heq|]; [|case_decide; lia].
      rewrite decide_True; [lia|].
      assert (d <> 0) as Hd0.
      { intros ->. destruct (split_dust shares 0 Hne Hbits Hd Hmax Hprod) as [_ Hdz]. fold W in Hdz.
        rewrite elem_of_take_fst in Hda. destruct Hda as (i & r & _ & Hi). lia. }
      assert (∀ x, x ∈ sh_miner_address <$> shares → (x, work_of x shares) ∈ btree_entries (work_by_address shares)) as He
        by (intros x Hx; by apply (split_entries shares Hbits Hmax)).
      revert Hda. apply dust_prefers with (ra := (d * work_of a shares) mod W) (rb := (d * work_of b shares) mod W).
      * intros r ([x w] & [= <- ->] & Hin)%list_elem_of_fmap.
        pose proof (split_remainder shares d Hbits Hd Hmax Hprod _ Hin) as Hr. cbn [fst snd] in Hr |- *. rewrite Hr. by apply (split_entries shares Hbits Hmax) in Hin as [_ ->].
      * apply list_elem_of_fmap. exists (b, work_of b shares). split; [|by apply He].
        pose proof (split_remainder shares d Hbits Hd Hmax Hprod _ (He b Hb)) as Hr.
        cbn [fst snd] in Hr |- *. by rewrite Hr.
      * by apply ra_lt.
    + assert (0 <= d * work_of b shares / W); [|case_decide; lia].
      apply Z.div_pos; [|lia]. unfold in_width in Hd. nia.
Qed.
