(* ===== verification/PoolTheory.v ===== *)
(** The pool's accounts: what every sequence of the store's operations keeps,
    and that a prepared payout can always be closed. *)

From S2P Require Import Prelude RustStd Pool PoolSplit.

(** ** Accounts under folds *)

Lemma account_on a b f m : account a (on_account b f m) = if decide (b = a) then f (account a m) else account a m.
Proof.
  unfold on_account, account. case_decide as H; [subst b; by rewrite lookup_insert_eq | by rewrite lookup_insert_ne].
Qed.

Lemma fold_account {X} (key : X → string) (f : X → AccountBalance → AccountBalance) l m a :
  account a (foldl (λ m x, on_account (key x) (f x) m) m l) =
  foldl (λ b x, f x b) (account a m) (filter (λ x, key x = a) l).
Proof.
  revert m. induction l as [|x l IH]; intros m; [done|]. cbn [foldl]. rewrite IH, account_on, filter_cons. by case_decide.
Qed.

Lemma each_allocation_account f al m a :
  account a (each_allocation f al m) = match al !! a with Some v => f v (account a m) | None => account a m end.
Proof.
  unfold each_allocation. rewrite (fold_account fst (λ e, f e.2)), btree_filter_key. by destruct (al !! a).
Qed.

Lemma transitions_account eff (ts : list (PoolBlockStatus * gmap string Z * PoolBlockStatus)) m a :
  account a (foldl (λ m t, each_allocation (eff t) t.1.2 m) m ts) =
  foldl (λ b t, match t.1.2 !! a with Some v => eff t v b | None => b end) (account a m) ts.
Proof. revert m. induction ts as [|t ts IH]; intros m; [done|]. cbn [foldl]. by rewrite IH, each_allocation_account. Qed.

(** ** The books *)

(** What the blocks of a status allotted to an address, and what the batches of a
    status owe it. *)
Definition share_of (a : string) (b : PoolBlock) : Z := default 0 (pb_allocations b !! a).
Definition allotted (st : PoolBlockStatus) (a : string) (blocks : list PoolBlock) : Z :=
  zsum ((λ b, if decide (pb_status b = st) then share_of a b else 0) <$> blocks).
Definition owed_by (a : string) (p : PayoutBatch) : Z := zsum (pi_amount <$> filter (λ it, pi_address it = a) (po_items p)).
Definition owed (st : PayoutStatus) (a : string) (payouts : list PayoutBatch) : Z :=
  zsum ((λ p, if decide (po_status p = st) then owed_by a p else 0) <$> payouts).

(** An account against its books: allotted by immature, mature and orphaned
    blocks, owed by prepared and by submitted payouts. *)
Record account_ok (i m o p s : Z) (b : AccountBalance) : Prop := {
  ao_immature : ab_immature b = i;
  ao_pending : ab_pending b = p;
  ao_paid : ab_paid b = s;
  ao_mature : 0 <= ab_mature b;
  ao_low : m <= ab_mature b + p + s;
  ao_high : ab_mature b + p + s <= m + o;
}.

(** What a change of a block's status does to the mature balance of an address it
    allotted [v]: maturity adds it; the loss of a mature block takes it back as
    far as the balance goes. *)
Definition status_change (previous next : PoolBlockStatus) (v m : Z) : Z :=
  match previous, next with
  | Immature, Mature => m + v
  | Mature, Orphaned => Z.max 0 (m - v)
  | _, _ => m
  end.

(** What a cancelled batch gives back. *)
Definition batch_change (previous next : PayoutStatus) (v m : Z) : Z :=
  match previous, next with
  | Prepared, Cancelled => m + v
  | _, _ => m
  end.

(** The mature balance [m] of an address after the books went from [d] to [d'], read
    off the two lists of blocks and batches: blocks in their order, then batches;
    a new batch takes what it owes. *)
Definition block_change (a : string) (m : Z) (e : PoolBlock * PoolBlock) : Z :=
  status_change (pb_status e.1) (pb_status e.2) (share_of a e.1) m.
Definition payout_change (a : string) (m : Z) (e : PayoutBatch * PayoutBatch) : Z :=
  batch_change (po_status e.1) (po_status e.2) (owed_by a e.1) m.
Definition mature_after (a : string) (d d' : PoolData) (m : Z) : Z :=
  let m := foldl (block_change a) m (zip (pd_blocks d) (pd_blocks d')) in
  let m := foldl (payout_change a) m (zip (pd_payouts d) (pd_payouts d')) in
  m - zsum (owed_by a <$> drop (length (pd_payouts d)) (pd_payouts d')).

Definition paid_in_all (blocks : list PoolBlock) : Z := zsum ((λ b, total (pb_allocations b)) <$> blocks).

Record data_ok (d : PoolData) : Prop := {
  do_shares : Forall (λ sh, 0 <= sh_share_bits sh) (pd_shares d);
  do_blocks : Forall (λ b, nonneg (pb_allocations b)) (pd_blocks d);
  do_total : paid_in_all (pd_blocks d) <= umax 64;
  do_items : Forall (λ p, Forall (λ it, 0 <= pi_amount it) (po_items p)) (pd_payouts d);
  do_accounts a :
    account_ok (allotted Immature a (pd_blocks d)) (allotted Mature a (pd_blocks d)) (allotted Orphaned a (pd_blocks d))
      (owed Prepared a (pd_payouts d)) (owed Submitted a (pd_payouts d)) (account a (pd_accounts d));
}.

Lemma share_of_nonneg a b : nonneg (pb_allocations b) → 0 <= share_of a b.
Proof. intros H. unfold share_of. destruct (_ !! _) as [v|] eqn:E; [exact (H a v E) | done]. Qed.

Lemma allotted_cons st a b l :
  allotted st a (b :: l) = (if decide (pb_status b = st) then share_of a b else 0) + allotted st a l.
Proof. done. Qed.

Lemma allotted_app st a l k : allotted st a (l ++ k) = allotted st a l + allotted st a k.
Proof. unfold allotted. by rewrite fmap_app, zsum_app. Qed.

Lemma allotted_nonneg st a l : Forall (λ b, nonneg (pb_allocations b)) l → 0 <= allotted st a l.
Proof.
  intros H. apply zsum_nonneg, Forall_fmap. eapply Forall_impl; [exact H|]. intros b Hb. cbn.
  case_decide; [by apply share_of_nonneg | done].
Qed.

Lemma allotted_total a l :
  Forall (λ b, nonneg (pb_allocations b)) l →
  allotted Immature a l + allotted Mature a l + allotted Orphaned a l <= paid_in_all l.
Proof.
  induction 1 as [|b l Hb Hl IH]; [done|]. rewrite !allotted_cons. unfold paid_in_all. rewrite fmap_cons, zsum_cons.
  fold (paid_in_all l). pose proof (lookup_le_total (pb_allocations b) a Hb) as Hle. fold (share_of a b) in Hle.
  destruct (pb_status b); repeat (case_decide; try done); lia.
Qed.

Lemma owed_cons st a p l :
  owed st a (p :: l) = (if decide (po_status p = st) then owed_by a p else 0) + owed st a l.
Proof. done. Qed.

Lemma owed_app st a l k : owed st a (l ++ k) = owed st a l + owed st a k.
Proof. unfold owed. by rewrite fmap_app, zsum_app. Qed.

Lemma owed_by_nonneg a p : Forall (λ it, 0 <= pi_amount it) (po_items p) → 0 <= owed_by a p.
Proof.
  intros H. apply zsum_nonneg, Forall_fmap. eapply sublist_Forall; [apply sublist_filter|].
  eapply Forall_impl; [exact H|]. done.
Qed.

Lemma owed_nonneg st a l : Forall (λ p, Forall (λ it, 0 <= pi_amount it) (po_items p)) l → 0 <= owed st a l.
Proof.
  intros H. apply zsum_nonneg, Forall_fmap. eapply Forall_impl; [exact H|]. intros p Hp. cbn.
  case_decide; [by apply owed_by_nonneg | done].
Qed.

(** The books after an operation: still in order, and each mature balance is what
    the changes of the lists make of it. *)
Record kept (d d' : PoolData) : Prop := {
  kp_ok : data_ok d';
  kp_mature a : ab_mature (account a (pd_accounts d')) = mature_after a d d' (ab_mature (account a (pd_accounts d)));
}.

Lemma blocks_unchanged a m l k : foldl (block_change a) m (zip l (l ++ k)) = m.
Proof.
  revert m. induction l as [|b l IH]; intros m; [done|]. cbn [zip app foldl].
  unfold block_change at 2. cbn [fst snd]. by destruct (pb_status b).
Qed.

Lemma payouts_unchanged a m l k : foldl (payout_change a) m (zip l (l ++ k)) = m.
Proof.
  revert m. induction l as [|p l IH]; intros m; [done|]. cbn [zip app foldl].
  unfold payout_change at 2. cbn [fst snd]. by destruct (po_status p).
Qed.

Lemma payouts_same a m l : foldl (payout_change a) m (zip l l) = m.
Proof. rewrite <- (app_nil_r l) at 2. apply payouts_unchanged. Qed.

Lemma payouts_insert a m l i p q :
  l !! i = Some p →
  foldl (payout_change a) m (zip l (<[i := q]> l)) = batch_change (po_status p) (po_status q) (owed_by a p) m.
Proof.
  revert i. induction l as [|r l IH]; intros [|i] Hi; try done.
  - injection Hi as ->. change (<[0%nat := q]> (p :: l)) with (q :: l). cbn [zip zip_with foldl]. apply payouts_same.
  - change (<[S i := q]> (r :: l)) with (r :: <[i := q]> l). cbn [zip zip_with foldl].
    assert (payout_change a m (r, r) = m) as -> by (unfold payout_change; cbn [fst snd]; by destruct (po_status r)).
    by apply IH.
Qed.

(** Only blocks and batches added at the end. *)
Lemma mature_after_added a d d' m blocks payouts :
  pd_blocks d' = pd_blocks d ++ blocks → pd_payouts d' = pd_payouts d ++ payouts →
  mature_after a d d' m = m - zsum (owed_by a <$> payouts).
Proof. intros Hb Hp. unfold mature_after. by rewrite Hb, Hp, blocks_unchanged, payouts_unchanged, drop_app_length. Qed.

Lemma mature_after_same a d d' m :
  pd_blocks d' = pd_blocks d → pd_payouts d' = pd_payouts d → mature_after a d d' m = m.
Proof. intros Hb Hp. rewrite (mature_after_added a d d' m [] []); [cbn; lia | by rewrite app_nil_r..]. Qed.

Lemma kept_refl d : data_ok d → kept d d.
Proof. intros Hd. split; [done|]. intros a. by rewrite mature_after_same. Qed.

(** ** Maturity keeps the books *)

(** The moves of a block between statuses. *)
Definition legal (previous next : PoolBlockStatus) : Prop :=
  match previous, next with
  | Immature, Mature | Immature, Orphaned | Mature, Orphaned => True
  | _, _ => False
  end.

Lemma next_status_legal canonical tip confirmations b st :
  next_status canonical tip confirmations b = Some st → legal (pb_status b) st.
Proof.
  unfold next_status. destruct (pb_status b) eqn:E.
  - destruct (canonical !! _) as [h|]; [|done]. destruct (negb _); [by intros [= <-]|].
    destruct (_ <? _); [done|]. intros [= <-]. by destruct (bool_decide _).
  - assert (∀ c : bool, (if c then Some Orphaned else None) = Some st → legal Mature st) as Hc
      by (intros []; [by intros [= <-] | done]). apply Hc.
  - done.
Qed.

Lemma above_tip_legal tip b st : above_tip tip b = Some st → legal (pb_status b) st ∧ st = Orphaned ∧ pb_status b = Immature.
Proof.
  unfold above_tip. destruct (bool_decide _) eqn:E; [|done]. breflect. destruct (_ >? _); [|done].
  intros [= <-]. by rewrite E.
Qed.

(** The contribution of a block of status [st] to the sum for [st']. *)
Definition counts (st st' : PoolBlockStatus) (v : Z) : Z := if decide (st = st') then v else 0.

Lemma effect_ok st st' v i m o p s b :
  legal st st' → 0 <= v → 0 <= i → 0 <= m → 0 <= o → 0 <= p → 0 <= s → i + m + o + v <= umax 64 →
  account_ok (i + counts st Immature v) (m + counts st Mature v) (o + counts st Orphaned v) p s b →
  account_ok (i + counts st' Immature v) (m + counts st' Mature v) (o + counts st' Orphaned v) p s
    (transition_effect st st' v b) ∧
  ab_mature (transition_effect st st' v b) = status_change st st' v (ab_mature b).
Proof.
  intros Hl Hv Hi Hm Ho Hp Hs Hmax [A1 A2 A3 A4 A5 A6]. unfold counts in *.
  destruct st, st'; try done; cbn [transition_effect status_change]; repeat (case_decide; try done);
    (split; [split|]; cbn [mature_part sub_immature claw_back ab_immature ab_mature ab_pending ab_paid];
      unfold saturating_sub, saturating_add; lia || done).
Qed.

Lemma transitions_ok next blocks a i m o p s b :
  (∀ b st, next b = Some st → legal (pb_status b) st) → Forall (λ b, nonneg (pb_allocations b)) blocks →
  0 <= i → 0 <= m → 0 <= o → 0 <= p → 0 <= s →
  i + m + o + (allotted Immature a blocks + allotted Mature a blocks + allotted Orphaned a blocks) <= umax 64 →
  account_ok (i + allotted Immature a blocks) (m + allotted Mature a blocks) (o + allotted Orphaned a blocks) p s b →
  let blocks' := moved next <$> blocks in
  account_ok (i + allotted Immature a blocks') (m + allotted Mature a blocks') (o + allotted Orphaned a blocks') p s
    (foldl (λ b t, match t.1.2 !! a with Some v => transition_effect t.2 t.1.1 v b | None => b end) b
      (transitions next blocks)) ∧
  ab_mature (foldl (λ b t, match t.1.2 !! a with Some v => transition_effect t.2 t.1.1 v b | None => b end) b
      (transitions next blocks)) = foldl (block_change a) (ab_mature b) (zip blocks blocks').
Proof.
  intros Hlegal Hb. cbv zeta. revert i m o b.
  induction Hb as [|b0 blocks Hb0 Hb IH]; intros i m o b Hi Hm Ho Hp Hs Hmax Hok; [done|].
  pose proof (share_of_nonneg a b0 Hb0) as Hv. set (v := share_of a b0) in *.
  assert (∀ st, 0 <= allotted st a blocks) as Hal by (intros; by apply allotted_nonneg).
  pose proof (Hal Immature). pose proof (Hal Mature). pose proof (Hal Orphaned).
  rewrite fmap_cons, !allotted_cons in *. fold v in Hmax, Hok.
  fold (counts (pb_status b0) Immature v) (counts (pb_status b0) Mature v) (counts (pb_status b0) Orphaned v) in *.
  assert (∀ st, 0 <= counts st Immature v ∧ 0 <= counts st Mature v ∧ 0 <= counts st Orphaned v ∧
    counts st Immature v + counts st Mature v + counts st Orphaned v = v) as Hc
    by (intros []; unfold counts; repeat (case_decide; try done); lia).
  destruct (Hc (pb_status b0)) as (? & ? & ? & ?).
  assert (∀ st b', account_ok (i + counts st Immature v + allotted Immature a blocks)
     (m + counts st Mature v + allotted Mature a blocks) (o + counts st Orphaned v + allotted Orphaned a blocks) p s b' →
    account_ok (i + (counts st Immature v + allotted Immature a (moved next <$> blocks)))
     (m + (counts st Mature v + allotted Mature a (moved next <$> blocks)))
     (o + (counts st Orphaned v + allotted Orphaned a (moved next <$> blocks))) p s
     (foldl (λ b t, match t.1.2 !! a with Some v => transition_effect t.2 t.1.1 v b | None => b end) b'
       (transitions next blocks)) ∧
    ab_mature (foldl (λ b t, match t.1.2 !! a with Some v => transition_effect t.2 t.1.1 v b | None => b end) b'
       (transitions next blocks)) = foldl (block_change a) (ab_mature b') (zip blocks (moved next <$> blocks))) as Hrest.
  { intros st b' Hb'. destruct (Hc st) as (? & ? & ? & ?). rewrite !Z.add_assoc. apply IH; try lia. exact Hb'. }
  unfold transitions in *. cbn [omap list_omap]. destruct (next b0) as [st|] eqn:E; cbn [fmap option_fmap option_map foldl].
  - assert (moved next b0 = with_status st b0) as -> by (unfold moved; by rewrite E). cbn [with_status pb_status share_of pb_allocations]. fold (share_of a b0) v.
    fold (counts st Immature v) (counts st Mature v) (counts st Orphaned v).
    cbn [fst snd zip zip_with foldl].
    assert (block_change a (ab_mature b) (b0, with_status st b0) = status_change (pb_status b0) st v (ab_mature b)) as -> by done.
    assert (account_ok (i + allotted Immature a blocks + counts st Immature v)
      (m + allotted Mature a blocks + counts st Mature v) (o + allotted Orphaned a blocks + counts st Orphaned v) p s
      (match pb_allocations b0 !! a with Some v => transition_effect (pb_status b0) st v b | None => b end) ∧
      ab_mature (match pb_allocations b0 !! a with Some v => transition_effect (pb_status b0) st v b | None => b end) =
        status_change (pb_status b0) st v (ab_mature b)) as [Hnew <-].
    { assert (account_ok (i + allotted Immature a blocks + counts (pb_status b0) Immature v)
        (m + allotted Mature a blocks + counts (pb_status b0) Mature v)
        (o + allotted Orphaned a blocks + counts (pb_status b0) Orphaned v) p s b) as Hok'
        by (destruct Hok; split; lia).
      assert (match pb_allocations b0 !! a with Some u => v = u | None => v = 0 end) as Hu
        by (unfold v, share_of; by destruct (_ !! _)).
      clearbody v. destruct (pb_allocations b0 !! a) as [u|]; subst v.
      - apply effect_ok; try done; try lia. by apply Hlegal.
      - destruct (Hc st) as (? & ? & ? & ?). destruct Hok'. split; [split; lia|].
        unfold status_change. destruct (pb_status b0), st; lia. }
    apply Hrest. destruct Hnew. split; lia.
  - assert (moved next b0 = b0) as -> by (unfold moved; by rewrite E). fold v.
    fold (counts (pb_status b0) Immature v) (counts (pb_status b0) Mature v) (counts (pb_status b0) Orphaned v).
    cbn [zip zip_with foldl].
    assert (block_change a (ab_mature b) (b0, b0) = ab_mature b) as ->
      by (unfold block_change; cbn [fst snd]; by destruct (pb_status b0)).
    apply Hrest. destruct Hok. split; lia.
Qed.

(** ** Saving does not change the data *)

Lemma save_data saved s : st_data (save saved s).2 = st_data s.
Proof. by destruct saved. Qed.

Lemma save_bind_data {A} saved (x : A) s : st_data ((_ ← save saved; mret x) s).2 = st_data s.
Proof. unfold mbind, state_result_bind. by destruct saved. Qed.

(** The bounds that the books imply. *)
Lemma account_bounds d a :
  data_ok d → let b := account a (pd_accounts d) in
  0 <= ab_immature b ∧ 0 <= ab_mature b ∧ 0 <= ab_pending b ∧ 0 <= ab_paid b ∧
  ab_immature b + (ab_mature b + ab_pending b + ab_paid b) <= umax 64.
Proof.
  intros [_ Hb Ht Hi Ha]. cbv zeta. destruct (Ha a) as [H1 H2 H3 H4 H5 H6].
  pose proof (allotted_total a _ Hb). pose proof (allotted_nonneg Immature a _ Hb).
  pose proof (owed_nonneg Prepared a _ Hi). pose proof (owed_nonneg Submitted a _ Hi). lia.
Qed.

(** ** Recording shares and blocks *)

Lemma record_share_ok saved sh s :
  data_ok (st_data s) → 0 <= sh_share_bits sh → kept (st_data s) (st_data (PoolStore_record_share saved sh s).2).
Proof.
  intros Hok Hb. unfold PoolStore_record_share. cbv zeta.
  destruct (list_find _ _) as [[? ?]|]; [by apply kept_refl|]. rewrite save_bind_data.
  split; [|intros a; by rewrite mature_after_same]. destruct Hok as [H1 H2 H3 H4 H5].
  split; cbn [on_data st_data set_shares pd_shares pd_blocks pd_payouts pd_accounts]; try done.
  assert (Forall (λ sh, 0 <= sh_share_bits sh) (pd_shares (st_data s) ++ [with_share_id
    (saturating_add 64 (pd_next_share_id (st_data s)) 1) sh])) as Hall by (apply Forall_app; split; [done|by apply Forall_singleton]).
  destruct (_ >? _); [|done]. by apply Forall_drop.
Qed.

Lemma round_of_sublist shares blocks window now :
  ∃ l, round_of shares blocks window now ⊆+ l ∧ l ≡ₚ shares.
Proof.
  unfold round_of. cbv zeta. destruct (bool_decide _).
  - exists (reverse shares). split; [|apply reverse_Permutation]. apply sublist_submseteq.
    etrans; [apply sublist_take | apply sublist_filter].
  - exists shares. split; [|done]. destruct (_ && _); apply sublist_submseteq; [|apply sublist_filter].
    etrans; [apply sublist_drop | apply sublist_filter].
Qed.

Lemma total_work_submseteq l k : Forall (λ sh, 0 <= sh_share_bits sh) k → l ⊆+ k → total_work l <= total_work k.
Proof.
  intros Hk (r & Hr)%submseteq_Permutation. unfold total_work. rewrite (zsum_perm (sh_work <$> k) (sh_work <$> l ++ r)) by by rewrite Hr.
  rewrite fmap_app, zsum_app. assert (0 <= zsum (sh_work <$> r)); [|lia].
  apply round_work_nonneg. rewrite Hr in Hk. by apply Forall_app in Hk as [_ ?].
Qed.

(** What a block must satisfy for the split to be exact. *)
Definition block_fits (d : PoolData) (reward : Z) : Prop :=
  is_u64 reward ∧ paid_in_all (pd_blocks d) + reward <= umax 64 ∧
  total_work (pd_shares d) <= umax 128 ∧ reward * total_work (pd_shares d) <= umax 128.

(** The allocations of a round: nonnegative, their sum the distributable part. *)
Lemma round_allocations d window now dist reward al :
  data_ok d → block_fits d reward → 0 <= dist <= reward → round_of (pd_shares d) (pd_blocks d) window now ≠ [] →
  allocate_by_share_work (round_of (pd_shares d) (pd_blocks d) window now) dist = Ok al →
  nonneg al ∧ total al = dist.
Proof.
  intros Hok (Hr & _ & Hw & Hp) Hd Hne Hal. destruct (round_of_sublist (pd_shares d) (pd_blocks d) window now) as (l & Hsub & Hperm).
  set (round := round_of _ _ _ _) in *. pose proof (do_shares d Hok) as Hbits.
  assert (Forall (λ sh, 0 <= sh_share_bits sh) l) as Hl by by rewrite Hperm.
  assert (total_work round <= total_work (pd_shares d)) as Hle.
  { etrans; [by apply total_work_submseteq|]. unfold total_work.
    by rewrite (zsum_perm (sh_work <$> l) (sh_work <$> pd_shares d)) by by rewrite Hperm. }
  assert (Forall (λ sh, 0 <= sh_share_bits sh) round) as Hrb.
  { apply submseteq_Permutation in Hsub as (r & Hr'). rewrite Hr' in Hl. by apply Forall_app in Hl as [? _]. }
  assert (0 <= total_work round) by by apply round_work_nonneg.
  assert (is_u64 dist) as Hd64 by (unfold in_width in *; lia).
  assert (dist * total_work round <= umax 128) as Hpr by (unfold in_width in Hr; nia).
  destruct (split_result round dist Hne Hrb Hd64 ltac:(lia) Hpr) as (m & Hm & Ht & Hlk).
  rewrite Hal in Hm. injection Hm as <-. split; [|done].
  intros a v Hv. rewrite Hlk in Hv. case_decide; [|done]. injection Hv as <-.
  assert (0 <= work_of a round) by by apply work_of_nonneg.
  pose proof (split_work_pos round dist Hne Hrb ltac:(lia) Hpr).
  assert (0 <= dist * work_of a round / total_work round) by (apply Z.div_pos; nia). case_decide; lia.
Qed.

Lemma record_block_ok saved height hash reward bps window now s :
  data_ok (st_data s) → 0 <= bps → block_fits (st_data s) reward →
  kept (st_data s) (st_data (PoolStore_record_block saved height hash reward bps window now s).2).
Proof.
  intros Hok Hbps Hfit. pose proof (kept_refl _ Hok) as Hsame. unfold PoolStore_record_block. cbv zeta.
  destruct (existsb _ _); [done|]. destruct (_ <? _); [done|].
  destruct (bool_decide _) eqn:Hne; [done|]. breflect.
  destruct (allocate_by_share_work _ _) as [al|] eqn:Hal; [|done]. rewrite save_data. clear Hsame.
  assert (0 <= pool_fee reward bps) as Hfee.
  { unfold pool_fee. destruct Hfit as [Hr _]. unfold in_width in Hr. apply Z.div_pos; nia. }
  destruct Hfit as (Hr & Hsum & Hw & Hp).
  assert (0 <= saturating_sub reward (pool_fee reward bps) <= reward) as Hd
    by (unfold saturating_sub, in_width in *; lia).
  destruct (round_allocations _ _ _ _ _ _ Hok (conj Hr (conj Hsum (conj Hw Hp))) Hd Hne Hal) as [Hnn Htot].
  pose proof Hok as [H1 H2 H3 H4 H5].
  split.
  2: { intros a. erewrite (mature_after_added _ _ _ _ _ []) by (done || by rewrite app_nil_r).
    cbn [on_data st_data set_blocks set_accounts pd_accounts]. rewrite each_allocation_account.
    cbn [fmap list_fmap zsum foldr]. rewrite Z.sub_0_r. by destruct (al !! a). }
  split; cbn [on_data st_data set_blocks set_accounts pd_shares pd_blocks pd_payouts pd_accounts]; try done.
  - apply Forall_app. split; [done|]. by apply Forall_singleton.
  - unfold paid_in_all. rewrite fmap_app, zsum_app. cbn. fold (paid_in_all (pd_blocks (st_data s))). lia.
  - intros a. rewrite each_allocation_account, !allotted_app, !allotted_cons. cbn [pb_status share_of pb_allocations].
    pose proof (allotted_total a _ H2) as Hle. pose proof (account_bounds _ a Hok) as Hbd. cbv zeta in Hbd.
    pose proof (lookup_le_total al a Hnn) as Hla. unfold share_of.
    cbn [pb_allocations]. assert (∀ st, allotted st a [] = 0) as Hnil by done. rewrite !Hnil.
    repeat (case_decide; try done). destruct (H5 a) as [A1 A2 A3 A4 A5 A6].
    pose proof (allotted_nonneg Mature a _ H2). pose proof (allotted_nonneg Orphaned a _ H2).
    destruct (al !! a) as [v|]; unfold default, id in *;
      split; cbn [add_immature ab_immature ab_mature ab_pending ab_paid]; unfold saturating_add; lia.
Qed.

(** ** Moving blocks *)

Lemma moved_allocations next b : pb_allocations (moved next b) = pb_allocations b.
Proof. unfold moved. by destruct (next b). Qed.

(** Moving the blocks of a store by legal transitions keeps its books. *)
Lemma moves_ok next d :
  (∀ b st, next b = Some st → legal (pb_status b) st) → data_ok d →
  kept d (set_accounts (apply_transitions (transitions next (pd_blocks d)) (pd_accounts d))
    (set_blocks (moved next <$> pd_blocks d) d)).
Proof.
  intros Hl [H1 H2 H3 H4 H5].
  assert (∀ a, let d' := set_accounts (apply_transitions (transitions next (pd_blocks d)) (pd_accounts d))
      (set_blocks (moved next <$> pd_blocks d) d) in
    account_ok (allotted Immature a (pd_blocks d')) (allotted Mature a (pd_blocks d')) (allotted Orphaned a (pd_blocks d'))
      (owed Prepared a (pd_payouts d')) (owed Submitted a (pd_payouts d')) (account a (pd_accounts d')) ∧
    ab_mature (account a (pd_accounts d')) = mature_after a d d' (ab_mature (account a (pd_accounts d)))) as Hacc.
  { intros a. cbv zeta. unfold mature_after.
    cbn [set_blocks set_accounts pd_shares pd_blocks pd_payouts pd_accounts]. unfold apply_transitions.
    rewrite (transitions_account (λ t, transition_effect t.2 t.1.1)).
    rewrite payouts_same, drop_all, Z.sub_0_r.
    pose proof (allotted_total a _ H2).
    apply (transitions_ok next (pd_blocks d) a 0 0 0); try done; try lia; [by apply owed_nonneg..|].
    destruct (H5 a). split; lia. }
  split; [|intros a; apply Hacc].
  split; cbn [set_blocks set_accounts pd_shares pd_blocks pd_payouts pd_accounts]; try done.
  - apply Forall_fmap. eapply Forall_impl; [exact H2|]. intros b Hb. cbn. by rewrite moved_allocations.
  - unfold paid_in_all in *. rewrite <- list_fmap_compose.
    rewrite (list_fmap_ext _ (λ b, total (pb_allocations b)) (pd_blocks d)); [done|].
    intros i b _. cbn. by rewrite moved_allocations.
  - intros a. apply Hacc.
Qed.

Lemma mature_blocks_ok saved canonical tip confirmations s :
  data_ok (st_data s) → kept (st_data s) (st_data (PoolStore_mature_blocks saved canonical tip confirmations s).2).
Proof.
  intros Hok. unfold PoolStore_mature_blocks. cbv zeta.
  assert (∀ s', kept (st_data s) (st_data s') → ∀ c : bool, kept (st_data s) (st_data (if c then (Ok (), s') else save saved s').2)) as Hs
    by (intros s' Hs' []; [done | by rewrite save_data]).
  apply Hs. cbn [on_data st_data]. apply moves_ok; [|done]. apply next_status_legal.
Qed.

(** The loop of [void_immature_above_tip] does what the transitions say. *)
Lemma void_effects tip blocks m :
  foldl (λ m t, each_allocation sub_immature t.1.2 m) m (transitions (above_tip tip) blocks) =
  apply_transitions (transitions (above_tip tip) blocks) m.
Proof.
  unfold apply_transitions, transitions. revert m. induction blocks as [|b blocks IH]; intros m; [done|]. cbn [omap list_omap].
  destruct (above_tip tip b) as [st|] eqn:E; cbn [fmap option_fmap option_map foldl fst snd]; [|apply IH].
  apply above_tip_legal in E as (_ & -> & ->). apply IH.
Qed.

Lemma void_ok saved tip s :
  data_ok (st_data s) → kept (st_data s) (st_data (void_immature_above_tip saved tip s).2).
Proof.
  intros Hok. unfold void_immature_above_tip, on_data. cbv beta zeta. rewrite void_effects.
  assert (∀ s' (n : Z), kept (st_data s) (st_data s') →
    ∀ c : bool, kept (st_data s) (st_data (if c then (_ ← save saved; mret n) s' else (Ok n, s')).2)) as Hs
    by (intros s' n Hs' []; [by rewrite save_bind_data | done]).
  apply Hs. cbn [on_data st_data]. apply moves_ok; [|done]. intros b st Hb. by apply above_tip_legal in Hb as [? _].
Qed.

(** ** Payouts *)

Lemma items_of a (f : AccountBalance → Z) minimum (l : list (string * AccountBalance)) :
  filter (λ it, pi_address it = a) ((λ e, mkItem e.1 (f e.2)) <$> filter (λ e, minimum <= f e.2) l) =
  (λ e, mkItem e.1 (f e.2)) <$> filter (λ e, minimum <= f e.2) (filter (λ e, e.1 = a) l).
Proof.
  induction l as [|e l IH]; [done|]. rewrite !filter_cons. repeat case_decide; cbn [fmap list_fmap pi_address];
    rewrite ?filter_cons; cbn [pi_address]; repeat (case_decide; try done); try (by f_equal).
  all: rewrite ?fmap_cons, ?filter_cons; cbn [pi_address]; repeat (case_decide; try done); by rewrite ?fmap_cons, IH.
Qed.

Lemma payout_items_of a minimum m :
  filter (λ it, pi_address it = a) (payout_items minimum m) =
  match m !! a with Some b => if decide (minimum <= ab_mature b) then [mkItem a (ab_mature b)] else [] | None => [] end.
Proof.
  unfold payout_items. rewrite items_of, btree_filter_key. destruct (m !! a) as [b|]; [|done].
  rewrite filter_cons. cbn [snd]. by case_decide.
Qed.

Lemma on_account_some a b f m : is_Some (m !! a) → is_Some (on_account b f m !! a).
Proof.
  unfold on_account. destruct (decide (b = a)) as [->|]; [rewrite lookup_insert_eq; eauto | by rewrite lookup_insert_ne].
Qed.

Lemma prepare_each items s :
  (∀ it, it ∈ items → is_Some (pd_accounts (st_data s) !! pi_address it)) →
  sr_each prepare_one items s = (Ok (), on_data (λ d, set_accounts
    (foldl (λ m it, on_account (pi_address it) (prepare_item (pi_amount it)) m) (pd_accounts d) items) d) s).
Proof.
  revert s. induction items as [|it items IH]; intros s Hin; [by destruct s as [[] ? ?]|].
  cbn [sr_each]. unfold mbind, state_result_bind. unfold prepare_one at 1.
  destruct (Hin it ltac:(left)) as [b Hb]. rewrite Hb. rewrite IH; [done|].
  intros it' Hit'. cbn [on_data st_data set_accounts pd_accounts]. apply on_account_some, Hin. by right.
Qed.

Lemma prepare_payout_ok saved pid minimum now s :
  data_ok (st_data s) → kept (st_data s) (st_data (PoolStore_prepare_payout saved pid minimum now s).2).
Proof.
  intros Hok. unfold PoolStore_prepare_payout. cbv zeta. destruct (bool_decide _); [by apply kept_refl|].
  set (items := payout_items _ _).
  assert (∀ it, it ∈ items → is_Some (pd_accounts (st_data s) !! pi_address it) ∧ 0 <= pi_amount it) as Hin.
  { intros it Hit. assert (it ∈ filter (λ x, pi_address x = pi_address it) items) as Hf by (by apply list_elem_of_filter).
    unfold items in Hf. rewrite payout_items_of in Hf. destruct (_ !! _) as [b|] eqn:Hb; [|by apply elem_of_nil in Hf].
    case_decide; [|by apply elem_of_nil in Hf]. split; [eauto|]. apply list_elem_of_singleton in Hf as ->.
    pose proof (account_bounds _ (pi_address it) Hok) as Hbd. cbv zeta in Hbd. unfold account in Hbd. rewrite Hb in Hbd. cbn. cbn in Hbd. lia. }
  rewrite (sr_bind_step _ _ _ _ _ (prepare_each items s (λ it H, proj1 (Hin it H)))), sr_modify_bind, save_bind_data.
  pose proof Hok as [H1 H2 H3 H4 H5].
  split.
  2: { intros a. erewrite (mature_after_added _ _ _ _ []) by (done || by rewrite app_nil_r).
    cbn [on_data st_data set_payouts set_accounts pd_accounts].
    rewrite (fold_account pi_address (λ it, prepare_item (pi_amount it))).
    rewrite fmap_cons, fmap_nil. unfold owed_by. cbn [po_items]. unfold items. rewrite payout_items_of.
    pose proof (account_bounds _ a Hok) as Hbd. cbv zeta in Hbd. unfold account in *.
    destruct (pd_accounts (st_data s) !! a) as [b|]; cbn [default id] in *; [|done].
    case_decide; cbn [foldl fmap list_fmap zsum foldr prepare_item ab_mature pi_amount]; unfold saturating_sub; lia. }
  split; cbn [on_data st_data set_payouts set_accounts pd_shares pd_blocks pd_payouts pd_accounts]; try done.
  - apply Forall_app. split; [done|]. apply Forall_singleton. cbn [po_items]. apply Forall_forall. intros it Hit. by apply Hin.
  - intros a. rewrite !owed_app, !owed_cons, (fold_account pi_address (λ it, prepare_item (pi_amount it))).
    assert (∀ st, owed st a [] = 0) as Hnil by done. rewrite !Hnil. cbn [po_status].
    repeat (case_decide; try done). unfold owed_by. cbn [po_items]. unfold items. rewrite payout_items_of.
    pose proof (account_bounds _ a Hok) as Hbd. cbv zeta in Hbd. destruct (H5 a) as [A1 A2 A3 A4 A5 A6].
    unfold account in *. destruct (pd_accounts (st_data s) !! a) as [b|]; cbn [default id] in *; [|cbn in A1, A2, A3, A4, A5, A6; split; cbn; lia].
    case_decide; [|split; cbn; lia].
    split; cbn [foldl fmap list_fmap zsum foldr prepare_item ab_immature ab_mature ab_pending ab_paid pi_amount];
      unfold saturating_sub, saturating_add; lia.
Qed.

(** Replacing a batch. *)
Lemma owed_insert st a l i p q :
  l !! i = Some p →
  owed st a (<[i := q]> l) = owed st a l - (if decide (po_status p = st) then owed_by a p else 0) +
    (if decide (po_status q = st) then owed_by a q else 0).
Proof.
  revert i. induction l as [|r l IH]; intros [|i] Hi; try done.
  - injection Hi as ->. cbn [insert list_insert]. rewrite !owed_cons. lia.
  - change (<[S i := q]> (r :: l)) with (r :: <[i := q]> l). rewrite !owed_cons, (IH i Hi). lia.
Qed.

Lemma prepared_position_spec pid l i p :
  prepared_position pid l = Some (i, p) → l !! i = Some p ∧ po_status p = Prepared ∧ po_payout_id p = pid.
Proof. unfold prepared_position. intros (Hi & [H1 H2] & _)%list_find_Some. done. Qed.

(** A prepared batch is covered by the pending balances. *)
Lemma batch_covered d i p a :
  data_ok d → pd_payouts d !! i = Some p → po_status p = Prepared →
  0 <= owed_by a p <= ab_pending (account a (pd_accounts d)).
Proof.
  intros [_ _ _ Hi Ha] Hp Hst. destruct (Ha a) as [_ -> _ _ _ _].
  assert (Forall (λ it, 0 <= pi_amount it) (po_items p)) as Hitems.
  { rewrite Forall_forall in Hi. apply Hi. by eapply list_elem_of_lookup_2. }
  split; [by apply owed_by_nonneg|]. unfold owed.
  pose proof (zsum_elem_le (λ p, if decide (po_status p = Prepared) then owed_by a p else 0) (pd_payouts d) p) as Hle.
  cbv beta in Hle. rewrite decide_True in Hle by done. apply Hle; [|by eapply list_elem_of_lookup_2].
  intros q Hq. case_decide; [|done]. apply owed_by_nonneg. rewrite Forall_forall in Hi. by apply Hi.
Qed.

(** The items of a batch, applied one after the other to an account. *)
Lemma confirm_fold l b :
  Forall (λ it, 0 <= pi_amount it) l → let n := zsum (pi_amount <$> l) in
  0 <= ab_paid b → n <= ab_pending b → ab_paid b + n <= umax 64 →
  foldl (λ b it, confirm_item (pi_amount it) b) b l =
  mkBalance (ab_immature b) (ab_mature b) (ab_pending b - n) (ab_paid b + n).
Proof.
  intros Hl. cbv zeta. revert b. induction Hl as [|it l Hit Hl IH]; intros b H0 H1 H2.
  - destruct b as [i m p s]. cbn. f_equal; lia.
  - cbn [foldl]. rewrite fmap_cons, zsum_cons in *. assert (0 <= zsum (pi_amount <$> l)) by by apply zsum_nonneg, Forall_fmap.
    assert (confirm_item (pi_amount it) b =
      mkBalance (ab_immature b) (ab_mature b) (ab_pending b - pi_amount it) (ab_paid b + pi_amount it)) as ->
      by (unfold confirm_item, saturating_sub, saturating_add; f_equal; lia).
    rewrite IH; cbn [ab_immature ab_mature ab_pending ab_paid]; [f_equal; lia | lia..].
Qed.

Lemma cancel_fold l b :
  Forall (λ it, 0 <= pi_amount it) l → let n := zsum (pi_amount <$> l) in ab_mature b + n <= umax 64 →
  foldl (λ b it, cancel_item (pi_amount it) b) b l =
  mkBalance (ab_immature b) (ab_mature b + n) (ab_pending b - n) (ab_paid b).
Proof.
  intros Hl. cbv zeta. revert b. induction Hl as [|it l Hit Hl IH]; intros b H2.
  - destruct b as [i m p s]. cbn. f_equal; lia.
  - cbn [foldl]. rewrite fmap_cons, zsum_cons in *. assert (0 <= zsum (pi_amount <$> l)) by by apply zsum_nonneg, Forall_fmap.
    assert (cancel_item (pi_amount it) b =
      mkBalance (ab_immature b) (ab_mature b + pi_amount it) (ab_pending b - pi_amount it) (ab_paid b)) as ->
      by (unfold cancel_item, saturating_add; f_equal; lia).
    rewrite IH; cbn [ab_immature ab_mature ab_pending ab_paid]; [f_equal; lia | lia].
Qed.

(** A batch that is covered cancels without the error. *)
Lemma cancel_each items s :
  Forall (λ it, 0 <= pi_amount it) items →
  (∀ a, zsum (pi_amount <$> filter (λ it, pi_address it = a) items) <= ab_pending (account a (pd_accounts (st_data s)))) →
  sr_each cancel_one items s = (Ok (), on_data (λ d, set_accounts
    (foldl (λ m it, on_account (pi_address it) (cancel_item (pi_amount it)) m) (pd_accounts d) items) d) s).
Proof.
  intros Hit. revert s. induction Hit as [|it items Hpos Hit IH]; intros s Hc; [by destruct s as [[] ? ?]|].
  assert (∀ a, 0 <= zsum (pi_amount <$> filter (λ it, pi_address it = a) items)) as Hrest.
  { intros a. apply zsum_nonneg, Forall_fmap. by eapply sublist_Forall; [apply sublist_filter|]. }
  cbn [sr_each]. unfold mbind, state_result_bind. unfold cancel_one at 1. cbv zeta.
  pose proof (Hc (pi_address it)) as H1. rewrite filter_cons, decide_True, fmap_cons, zsum_cons in H1 by done.
  specialize (Hrest (pi_address it)). rewrite (proj2 (Z.ltb_ge _ _)) by lia. rewrite IH; [done|].
  intros a. cbn [on_data st_data set_accounts pd_accounts]. rewrite account_on. specialize (Hc a). rewrite filter_cons in Hc.
  case_decide as Ha; [|done]. rewrite fmap_cons, zsum_cons in Hc. cbn [cancel_item ab_pending]. lia.
Qed.

(** Closing a batch, one way or the other, keeps the books. *)
Lemma close_ok d i p (st : PayoutStatus) hashes (f : Z → AccountBalance → AccountBalance) :
  data_ok d → pd_payouts d !! i = Some p → po_status p = Prepared →
  (st = Submitted ∧ f = confirm_item ∨ st = Cancelled ∧ f = cancel_item) →
  kept d (set_payouts (<[i := mkBatch (po_payout_id p) (po_created_at p) st (po_items p) hashes]> (pd_payouts d))
    (set_accounts (foldl (λ m it, on_account (pi_address it) (f (pi_amount it)) m) (pd_accounts d) (po_items p)) d)).
Proof.
  intros Hok Hp Hst Hf. pose proof Hok as [H1 H2 H3 H4 H5].
  assert (Forall (λ it, 0 <= pi_amount it) (po_items p)) as Hitems.
  { rewrite Forall_forall in H4. apply H4. by eapply list_elem_of_lookup_2. }
  enough (∀ a, let d' := set_payouts (<[i := mkBatch (po_payout_id p) (po_created_at p) st (po_items p) hashes]> (pd_payouts d))
    (set_accounts (foldl (λ m it, on_account (pi_address it) (f (pi_amount it)) m) (pd_accounts d) (po_items p)) d) in
    account_ok (allotted Immature a (pd_blocks d')) (allotted Mature a (pd_blocks d')) (allotted Orphaned a (pd_blocks d'))
      (owed Prepared a (pd_payouts d')) (owed Submitted a (pd_payouts d')) (account a (pd_accounts d')) ∧
    ab_mature (account a (pd_accounts d')) = mature_after a d d' (ab_mature (account a (pd_accounts d)))) as Hacc.
  { split; [|intros a; apply Hacc].
    split; cbn [set_payouts set_accounts pd_shares pd_blocks pd_payouts pd_accounts]; try done.
    - by apply Forall_insert.
    - intros a. apply Hacc. }
  - intros a. cbv zeta. unfold mature_after. cbn [set_payouts set_accounts pd_shares pd_blocks pd_payouts pd_accounts].
    rewrite (payouts_insert _ _ _ _ _ _ Hp), drop_ge by (by rewrite length_insert). rewrite fmap_nil.
    assert (∀ m, foldl (block_change a) m (zip (pd_blocks d) (pd_blocks d)) = m) as ->
      by (intros m; rewrite <- (app_nil_r (pd_blocks d)) at 2; apply blocks_unchanged).
    cbn [po_status zsum foldr]. rewrite (fold_account pi_address (λ it, f (pi_amount it))), !(owed_insert _ _ _ _ _ _ Hp).
    assert (∀ st' h, owed_by a (mkBatch (po_payout_id p) (po_created_at p) st' (po_items p) h) = owed_by a p) as Hsame by done.
    rewrite !Hsame, Hst. cbn [po_status]. destruct (batch_covered d i p a Hok Hp Hst) as [Hn0 Hn].
    pose proof (account_bounds d a Hok) as Hbd. cbv zeta in Hbd. destruct (H5 a) as [A1 A2 A3 A4 A5 A6].
    set (b := account a (pd_accounts d)) in *. unfold owed_by in *.
    assert (Forall (λ it, 0 <= pi_amount it) (filter (λ it, pi_address it = a) (po_items p))) as Hfi
      by (by eapply sublist_Forall; [apply sublist_filter|]).
    destruct Hf as [[-> ->]|[-> ->]].
    + rewrite confirm_fold by (done || lia). repeat (case_decide; try done). split; [split|]; cbn; lia.
    + rewrite cancel_fold by (done || lia). repeat (case_decide; try done). split; [split|]; cbn; lia.
Qed.

Section hex.
Context (hex_decode : string → option (list byte)).

Lemma confirm_payout_ok saved pid hs s :
  data_ok (st_data s) → kept (st_data s) (st_data (PoolStore_confirm_payout hex_decode saved pid hs s).2).
Proof.
  intros Hok. pose proof (kept_refl _ Hok) as Hsame. unfold PoolStore_confirm_payout. cbv zeta. destruct (_ || _); [done|]. destruct (existsb _ _); [done|].
  destruct (prepared_position _ _) as [[i p]|] eqn:E; [|done]. rewrite save_bind_data.
  apply prepared_position_spec in E as (Hi & Hst & _). cbn [on_data st_data].
  apply (close_ok _ _ _ Submitted hs confirm_item); auto.
Qed.

End hex.

(** What cancelling does, up to the outcome of saving. *)
Lemma cancel_payout_run saved pid s :
  data_ok (st_data s) →
  (prepared_position pid (pd_payouts (st_data s)) = None ∧
    PoolStore_cancel_payout saved pid s = (Err (Config "prepared payout not found"), s)) ∨
  ∃ i p, prepared_position pid (pd_payouts (st_data s)) = Some (i, p) ∧
    let batch := mkBatch (po_payout_id p) (po_created_at p) Cancelled (po_items p) (po_transaction_hashes p) in
    let d := set_payouts (<[i := batch]> (pd_payouts (st_data s))) (set_accounts
      (foldl (λ m it, on_account (pi_address it) (cancel_item (pi_amount it)) m) (pd_accounts (st_data s)) (po_items p))
      (st_data s)) in
    kept (st_data s) d ∧ PoolStore_cancel_payout saved pid s = (_ ← save saved; mret batch) (on_data (λ _, d) s).
Proof.
  intros Hok. unfold PoolStore_cancel_payout. destruct (prepared_position _ _) as [[i p]|] eqn:E; [right|by left].
  exists i, p. split; [done|]. cbv zeta. apply prepared_position_spec in E as (Hi & Hst & _).
  split; [apply (close_ok _ _ _ Cancelled _ cancel_item); auto|].
  assert (Forall (λ it, 0 <= pi_amount it) (po_items p)) as Hit.
  { pose proof (do_items _ Hok) as H4. rewrite Forall_forall in H4. apply H4. by eapply list_elem_of_lookup_2. }
  assert (∀ a, zsum (pi_amount <$> filter (λ it, pi_address it = a) (po_items p)) <=
    ab_pending (account a (pd_accounts (st_data s)))) as Hcov by (intros a; by apply (batch_covered _ _ _ a Hok Hi Hst)).
  by rewrite (sr_bind_step _ _ _ _ _ (cancel_each (po_items p) s Hit Hcov)), sr_modify_bind.
Qed.

Lemma cancel_payout_ok saved pid s :
  data_ok (st_data s) → kept (st_data s) (st_data (PoolStore_cancel_payout saved pid s).2).
Proof.
  intros Hok. destruct (cancel_payout_run saved pid s Hok) as [[_ ->]|(i & p & _ & Hd & ->)]; [by apply kept_refl|].
  by rewrite save_bind_data.
Qed.

(** ** Sequences of operations *)

Section operations.
Context (hex_decode : string → option (list byte)).

Inductive pool_op :=
| op_share (saved : option string) (sh : ShareRecord)
| op_block (saved : option string) (height : Z) (hash : string) (reward bps window now : Z)
| op_mature (saved : option string) (canonical : gmap Z string) (tip confirmations : Z)
| op_void (saved : option string) (tip : Z)
| op_prepare (saved : option string) (pid : string) (minimum now : Z)
| op_confirm (saved : option string) (pid : string) (hashes : list string)
| op_cancel (saved : option string) (pid : string).

Definition run_pool_op (o : pool_op) (s : PoolStore) : PoolStore :=
  match o with
  | op_share saved sh => (PoolStore_record_share saved sh s).2
  | op_block saved height hash reward bps window now =>
      (PoolStore_record_block saved height hash reward bps window now s).2
  | op_mature saved canonical tip confirmations => (PoolStore_mature_blocks saved canonical tip confirmations s).2
  | op_void saved tip => (void_immature_above_tip saved tip s).2
  | op_prepare saved pid minimum now => (PoolStore_prepare_payout saved pid minimum now s).2
  | op_confirm saved pid hashes => (PoolStore_confirm_payout hex_decode saved pid hashes s).2
  | op_cancel saved pid => (PoolStore_cancel_payout saved pid s).2
  end.

(** Shares and fees are unsigned, and the rewards stay within the sizes for which
    the arithmetic of the split is exact. *)
Definition pool_op_ok (o : pool_op) (s : PoolStore) : Prop :=
  match o with
  | op_share _ sh => 0 <= sh_share_bits sh
  | op_block _ _ _ reward bps _ _ => 0 <= bps ∧ block_fits (st_data s) reward
  | _ => True
  end.

Inductive pool_run (s : PoolStore) : PoolStore → Prop :=
| pool_done : pool_run s s
| pool_next s' o : pool_run s s' → pool_op_ok o s' → pool_run s (run_pool_op o s').

(** A run with the books after each of its operations, the first ones first. *)
Inductive pool_booked (s : PoolStore) : list PoolData → PoolStore → Prop :=
| booked_start : pool_booked s [st_data s] s
| booked_next l s' o :
    pool_booked s l s' → pool_op_ok o s' → pool_booked s (l ++ [st_data (run_pool_op o s')]) (run_pool_op o s').

(** The mature balance the books imply: what matured and what cancelled payouts gave
    back, less what lost blocks and payouts took, in their order. *)
Fixpoint mature_balance (a : string) (m : Z) (books : list PoolData) : Z :=
  match books with
  | d :: (d' :: _) as rest => mature_balance a (mature_after a d d' m) rest
  | _ => m
  end.

Lemma run_pool_op_ok o s : data_ok (st_data s) → pool_op_ok o s → kept (st_data s) (st_data (run_pool_op o s)).
Proof.
  intros Hs Ho. destruct o; cbn [run_pool_op pool_op_ok] in *.
  - by apply record_share_ok.
  - apply record_block_ok; tauto.
  - by apply mature_blocks_ok.
  - by apply void_ok.
  - by apply prepare_payout_ok.
  - by apply confirm_payout_ok.
  - by apply cancel_payout_ok.
Qed.

Lemma pool_run_ok s s' : data_ok (st_data s) → pool_run s s' → data_ok (st_data s').
Proof. intros Hs. induction 1 as [|s' o Hrun IH Ho]; [done|]. apply (kp_ok _ _ (run_pool_op_ok o s' IH Ho)). Qed.

Lemma booked_run s l s' : pool_booked s l s' → pool_run s s'.
Proof. induction 1; [apply pool_done | by apply pool_next]. Qed.

Lemma mature_balance_snoc a m l d d' :
  mature_balance a m ((l ++ [d]) ++ [d']) = mature_after a d d' (mature_balance a m (l ++ [d])).
Proof.
  revert m. induction l as [|d0 l IH]; intros m; [done|]. destruct l as [|d1 l]; [done|].
  cbn [app mature_balance] in *. apply IH.
Qed.

Lemma booked_mature s l s' a :
  data_ok (st_data s) → pool_booked s l s' → last l = Some (st_data s') ∧
  ab_mature (account a (pd_accounts (st_data s'))) = mature_balance a (ab_mature (account a (pd_accounts (st_data s)))) l.
Proof.
  intros Hs. induction 1 as [|l s' o Hrun [Hlast IH] Ho]; [done|]. split; [apply last_snoc|].
  pose proof (pool_run_ok _ _ Hs (booked_run _ _ _ Hrun)) as Hok.
  destruct l as [|d l _] using rev_ind; [done|]. rewrite last_snoc in Hlast. injection Hlast as ->.
  rewrite mature_balance_snoc, <- IH. apply (kp_mature _ _ (run_pool_op_ok o s' Hok Ho)).
Qed.

Lemma empty_data_ok max_shares : data_ok (st_data (PoolStore_load None max_shares)).
Proof. split; cbn [PoolStore_load st_data default PoolData_default pd_shares pd_blocks pd_payouts]; [constructor|constructor|done|constructor|]. intros a. by split. Qed.

(** C14. The pool's books balance: after any sequence of the store's operations, with
    failing or succeeding writes and whatever the node says is canonical, each
    address's immature balance is what immature blocks allotted to it, its
    pending balance what prepared payouts owe it, its paid balance what
    submitted payouts paid it, and its mature balance exactly what the changes of
    its blocks and payouts leave: a block that matures adds what it allotted, a
    mature block that is lost takes that back as far as the balance goes, a payout
    takes what it owes and gives it back when it is cancelled.  So the three paid
    or payable balances are together at least what mature blocks allotted, and
    exceed that by at most what orphaned blocks did
    ([cancel_revives_orphaned_funds] shows an excess). *)
Theorem pool_books_balance max_shares books s a :
  pool_booked (PoolStore_load None max_shares) books s →
  let d := st_data s in let b := account a (pd_accounts d) in
  ab_immature b = allotted Immature a (pd_blocks d) ∧
  ab_pending b = owed Prepared a (pd_payouts d) ∧
  ab_paid b = owed Submitted a (pd_payouts d) ∧
  ab_mature b = mature_balance a 0 books ∧ 0 <= ab_mature b ∧
  allotted Mature a (pd_blocks d) <= ab_mature b + ab_pending b + ab_paid b
    <= allotted Mature a (pd_blocks d) + allotted Orphaned a (pd_blocks d).
Proof.
  intros Hrun. destruct (booked_mature _ _ _ a (empty_data_ok _) Hrun) as [_ Hm].
  pose proof (pool_run_ok _ _ (empty_data_ok _) (booked_run _ _ _ Hrun)) as [_ _ _ _ Ha].
  cbv zeta. destruct (Ha a) as [H1 H2 H3 H4 H5 H6]. split_and!; try lia. exact Hm.
Qed.

(** A prepared payout is never stuck: in every state the store can be in,
    cancelling a prepared batch succeeds once the write does, marks that batch,
    and gives each address exactly its items back. *)
Theorem prepared_payout_cancels max_shares s pid i p :
  pool_run (PoolStore_load None max_shares) s →
  prepared_position pid (pd_payouts (st_data s)) = Some (i, p) →
  let batch := mkBatch (po_payout_id p) (po_created_at p) Cancelled (po_items p) (po_transaction_hashes p) in
  ∃ s', PoolStore_cancel_payout None pid s = (Ok batch, s') ∧
    st_file s' = Some (st_data s') ∧ pd_payouts (st_data s') = <[i := batch]> (pd_payouts (st_data s)) ∧
    pd_blocks (st_data s') = pd_blocks (st_data s) ∧
    ∀ a, let b := account a (pd_accounts (st_data s)) in
      account a (pd_accounts (st_data s')) =
        mkBalance (ab_immature b) (ab_mature b + owed_by a p) (ab_pending b - owed_by a p) (ab_paid b).
Proof.
  intros Hrun Hp. pose proof (pool_run_ok _ _ (empty_data_ok _) Hrun) as Hok. cbv zeta.
  destruct (cancel_payout_run None pid s Hok) as [[Hn _]|(i' & p' & Hp' & _ & ->)]; [by rewrite Hp in Hn|].
  rewrite Hp in Hp'. injection Hp' as <- <-. eexists. split; [done|]. cbn. split_and!; try done.
  intros a. rewrite (fold_account pi_address (λ it, cancel_item (pi_amount it))).
  apply prepared_position_spec in Hp as (Hi & Hst & _). pose proof (do_items _ Hok) as H4.
  destruct (batch_covered _ _ _ a Hok Hi Hst) as [_ Hc]. pose proof (account_bounds _ a Hok) as Hbd. cbv zeta in Hbd.
  apply cancel_fold.
  - eapply sublist_Forall; [apply sublist_filter|]. rewrite Forall_forall in H4. apply H4. by eapply list_elem_of_lookup_2.
  - fold (owed_by a p). lia.
Qed.

(** Orphaned funds come back: the clawback of a block orphaned after maturity
    takes only what is still mature, so while a payout is prepared it takes
    nothing, and cancelling the payout then makes the full amount payable again
    although no mature block backs it; the next payout pays it. *)
Theorem cancel_revives_orphaned_funds :
  ∃ s, pool_run (PoolStore_load None 10) s ∧
    allotted Mature "miner" (pd_blocks (st_data s)) = 0 ∧ owed Prepared "miner" (pd_payouts (st_data s)) = 0 ∧
    ab_mature (account "miner" (pd_accounts (st_data s))) = 1000 ∧
    ∃ batch, (PoolStore_prepare_payout None "second" 500 5 s).1 = Ok batch ∧ po_items batch = [mkItem "miner" 1000].
Proof.
  eexists. split.
  - eapply (pool_next _ _ (op_cancel None "first")); [|done].
    eapply (pool_next _ _ (op_mature None {[ 1 := "other"%string ]} 20 1)); [|done].
    eapply (pool_next _ _ (op_prepare None "first" 500 4)); [|done].
    eapply (pool_next _ _ (op_mature None {[ 1 := "block"%string ]} 2 1)); [|done].
    eapply (pool_next _ _ (op_block None 1 "block" 1000 0 1 3));
      [eapply (pool_next _ _ (op_share None (mkShare 0 "job" "miner" "worker" 1 "01" 8 16 1 false)));
        [apply pool_done | done] | split; [done | repeat split; vm_compute; congruence]].
  - split_and!; [by vm_compute..|]. eexists. split; by vm_compute.
Qed.

End operations.
