(* ===== verification/PoolApp.v ===== *)
(** [vireon-mining-pool/src/app.rs]: the pool server: admission of clients, jobs
    and their difficulties, shares, payouts checked against the chain, maturity.
    HTTP is outside: the upstream's answers, the client's address, the clock
    readings and the outcomes of saving are arguments; a handler is a state
    transformer over the server's state. *)

From S2P Require Import Prelude RustStd Interfaces Crypto Errors Network Amount Signing Address Transaction Block Pow Consensus Genesis MinerWork Pool.

(** The fields of [struct PoolConfig] the handlers read. *)
Record PoolConfig := {
  pc_network_id : string;
  pc_pool_address : string;
  pc_share_bits : Z;
  pc_vardiff_enabled : bool;
  pc_min_share_bits : Z;
  pc_max_share_bits : Z;
  pc_target_share_seconds : Z;
  pc_vardiff_window_shares : Z;
  pc_share_network_gap_bits : Z;
  pc_pool_fee_basis_points : Z;
  pc_pplns_window_shares : Z;
  pc_block_maturity_confirmations : Z;
  pc_minimum_payout_atomic : Z;
  pc_job_cache_seconds : Z;
  pc_worker_timeout_seconds : Z;
  pc_max_workers_per_address : Z;
  pc_max_work_requests_per_minute : Z;
  pc_max_share_requests_per_minute : Z;
  pc_invalid_share_ban_threshold : Z;
  pc_ban_seconds : Z;
}.

(** [struct PoolJob] *)
Record PoolJob := mkJob {
  pj_template : MiningTemplate;
  pj_fetched_at : Z;
  pj_worker_difficulties : gmap string (list Z);
}.

(** [struct ClientAdmission] *)
Record ClientAdmission := mkClient {
  cl_window_started_at : Z;
  cl_work_requests : Z;
  cl_share_requests : Z;
  cl_invalid_shares : Z;
  cl_banned_until : Z;
}.
Definition new_client : ClientAdmission := mkClient 0 0 0 0 0.

(** [struct AdmissionState] *)
Record AdmissionState := mkAdmission {
  am_clients : gmap string ClientAdmission;
  am_workers : gmap string (gmap string Z);
  am_rejected_requests : Z;
  am_rate_limited_requests : Z;
}.

(** [enum RequestKind] *)
Inductive RequestKind := Work | Share.

(** [struct PoolState] *)
Record PoolState := mkPoolState {
  ps_store : PoolStore;
  ps_jobs : gmap string PoolJob;
  ps_current_job : option string;
  ps_admission : AdmissionState;
}.

Abbreviation app A := (state_result PoolState PoolError A).

Definition on_store {A} (m : pool A) : app A := λ s,
  let '(r, store) := m (ps_store s) in (r, mkPoolState store (ps_jobs s) (ps_current_job s) (ps_admission s)).
Definition set_jobs (jobs : gmap string PoolJob) (s : PoolState) : PoolState :=
  mkPoolState (ps_store s) jobs (ps_current_job s) (ps_admission s).
Definition set_current (id : option string) (s : PoolState) : PoolState :=
  mkPoolState (ps_store s) (ps_jobs s) id (ps_admission s).
Definition on_admission (f : AdmissionState → AdmissionState) (s : PoolState) : PoolState :=
  mkPoolState (ps_store s) (ps_jobs s) (ps_current_job s) (f (ps_admission s)).

(** ** Identity and difficulty *)

Definition worker_identity (address worker_name : string) : string := (address ++ "/" ++ worker_name)%string.

(** [is_ascii_alphanumeric() || "-_.".contains(value)], by byte. *)
Definition worker_char (b : byte) : bool :=
  let z := byte_Z b in
  ((48 <=? z) && (z <=? 57)) || ((65 <=? z) && (z <=? 90)) || ((97 <=? z) && (z <=? 122))
  || (z =? 45) || (z =? 95) || (z =? 46).

Definition share_difficulty_bounds (min_cfg max_cfg initial_cfg network_bits gap_bits : Z) : Z * Z * Z :=
  let gap := Z.max gap_bits 1 in
  let network_share_cap :=
    if network_bits <=? 1 then 0
    else Z.min (saturating_sub network_bits gap) (saturating_sub network_bits 1) in
  let minimum := Z.min min_cfg network_share_cap in
  let maximum := Z.max (Z.min max_cfg network_share_cap) minimum in
  (minimum, maximum, clamp minimum maximum initial_cfg).

Section app.
Context `{Primitives}.
Context (config : PoolConfig).

Definition validate_identity (address worker_name : string) : result PoolError () :=
  a ← map_err (λ e, InvalidShare (VireonError_fmt e)) (Address_parse address);
  if negb (bool_decide (network_id (addr_network a) = pc_network_id config))
  then Err (InvalidShare "miner address belongs to another network") else
  if str_is_empty worker_name || (str_len worker_name >? 64) || negb (forallb worker_char (str_bytes worker_name))
  then Err (InvalidShare "invalid worker_name") else Ok ().

Definition worker_difficulty (address worker_name : string) (network_bits : Z) (data : PoolData) : Z :=
  let '(minimum, maximum, initial) := share_difficulty_bounds (pc_min_share_bits config) (pc_max_share_bits config)
    (pc_share_bits config) network_bits (pc_share_network_gap_bits config) in
  if negb (pc_vardiff_enabled config) then initial else
  let shares := take (Z.to_nat (pc_vardiff_window_shares config))
    (filter (λ sh, sh_miner_address sh = address ∧ sh_worker_name sh = worker_name) (reverse (pd_shares data))) in
  let current := clamp minimum maximum
    (match head shares with Some sh => sh_share_bits sh | None => initial end) in
  if (length shares <? 4)%nat then current else
  let newest := match head shares with Some sh => sh_accepted_at sh | None => 0 end in
  let oldest := match last shares with Some sh => sh_accepted_at sh | None => newest end in
  let intervals := Z.of_nat (length shares) - 1 in
  let average_seconds := Z.max (saturating_sub newest oldest) 1 / Z.max intervals 1 in
  let target := pc_target_share_seconds config in
  if saturating_mul 64 average_seconds 2 <? target then Z.min (saturating_add 8 current 1) maximum
  else if average_seconds >? saturating_mul 64 target 2 then Z.max (saturating_sub current 1) minimum
  else current.

(** ** Admission *)

(** [ip]: the client's address, when known. *)
Definition admission_keys (ip : option string) (address worker_name : string) : list string :=
  ("worker:" ++ worker_identity address worker_name)%string ::
  match ip with Some ip => ["ip:" ++ ip]%string | None => [] end.

Definition set_clients (c : gmap string ClientAdmission) (a : AdmissionState) : AdmissionState :=
  mkAdmission c (am_workers a) (am_rejected_requests a) (am_rate_limited_requests a).
Definition set_workers (w : gmap string (gmap string Z)) (a : AdmissionState) : AdmissionState :=
  mkAdmission (am_clients a) w (am_rejected_requests a) (am_rate_limited_requests a).
Definition count_limited (a : AdmissionState) : AdmissionState :=
  mkAdmission (am_clients a) (am_workers a) (am_rejected_requests a) (saturating_add 64 (am_rate_limited_requests a) 1).
Definition count_rejected (a : AdmissionState) : AdmissionState :=
  mkAdmission (am_clients a) (am_workers a) (saturating_add 64 (am_rejected_requests a) 1) (am_rate_limited_requests a).

(** The first part of [admit_request]: the worker of a work request. *)
Definition admit_worker (now : Z) (address worker_name : string) : state_result AdmissionState PoolError () := λ a,
  let workers := filter (λ e, saturating_sub now e.2 <= pc_worker_timeout_seconds config)
    (default ∅ (am_workers a !! address)) in
  let a := set_workers (<[address := workers]> (am_workers a)) a in
  if is_none (workers !! worker_name) && (pc_max_workers_per_address config <=? Z.of_nat (size workers))
  then (Err (RateLimited (pc_worker_timeout_seconds config)), count_limited a)
  else (Ok (), set_workers (<[address := <[worker_name := now]> workers]> (am_workers a)) a).

(** A key's window, restarted after a minute, and the request counted. *)
Definition fresh_window (now : Z) (c : ClientAdmission) : ClientAdmission :=
  if 60 <=? saturating_sub now (cl_window_started_at c) then mkClient now 0 0 0 (cl_banned_until c) else c.
Definition count_request (kind : RequestKind) (c : ClientAdmission) : ClientAdmission :=
  match kind with
  | Work => mkClient (cl_window_started_at c) (saturating_add 32 (cl_work_requests c) 1) (cl_share_requests c)
              (cl_invalid_shares c) (cl_banned_until c)
  | Share => mkClient (cl_window_started_at c) (cl_work_requests c) (saturating_add 32 (cl_share_requests c) 1)
               (cl_invalid_shares c) (cl_banned_until c)
  end.
Definition exceeded (kind : RequestKind) (c : ClientAdmission) : bool :=
  match kind with
  | Work => cl_work_requests c >? pc_max_work_requests_per_minute config
  | Share => cl_share_requests c >? pc_max_share_requests_per_minute config
  end.

Definition client_of (key : string) (a : AdmissionState) : ClientAdmission := default new_client (am_clients a !! key).

(** One key of the loop of [admit_request]. *)
Definition admit_key (kind : RequestKind) (now : Z) (key : string) : state_result AdmissionState PoolError () := λ a,
  let c := client_of key a in
  if now <? cl_banned_until c
  then (Err (Banned (cl_banned_until c - now)), set_clients (<[key := c]> (am_clients a)) a) else
  let c := count_request kind (fresh_window now c) in
  let a := set_clients (<[key := c]> (am_clients a)) a in
  if exceeded kind c
  then (Err (RateLimited (saturating_sub 60 (saturating_sub now (cl_window_started_at c)))), count_limited a)
  else (Ok (), a).

Definition admit_request (keys : list string) (kind : RequestKind) (worker : option (string * string)) (now : Z) :
    state_result AdmissionState PoolError () :=
  _ ← match worker with
      | Some (address, worker_name) => admit_worker now address worker_name
      | None => mret ()
      end;
  sr_each (admit_key kind now) keys.

Definition admitted {A} (m : state_result AdmissionState PoolError A) : app A := λ s,
  let '(r, a) := m (ps_admission s) in (r, on_admission (λ _, a) s).

(** One key of [record_invalid_share]. *)
Definition invalid_key (now : Z) (a : AdmissionState) (key : string) : AdmissionState :=
  let c := client_of key a in
  let n := saturating_add 32 (cl_invalid_shares c) 1 in
  let c := if pc_invalid_share_ban_threshold config <=? n
           then mkClient (cl_window_started_at c) (cl_work_requests c) (cl_share_requests c) 0
                  (saturating_add 64 now (pc_ban_seconds config))
           else mkClient (cl_window_started_at c) (cl_work_requests c) (cl_share_requests c) n (cl_banned_until c) in
  set_clients (<[key := c]> (am_clients a)) a.

Definition record_invalid_share (keys : list string) (now : Z) (a : AdmissionState) : AdmissionState :=
  foldl (invalid_key now) (count_rejected a) keys.

(** ** Jobs *)

Definition live_job_id (now : Z) (s : PoolState) : option string :=
  id ← ps_current_job s;
  job ← ps_jobs s !! id;
  if saturating_add 64 now 2 <? mt_expires_at (pj_template job) then Some id else None.

Definition job_needs_upstream_refresh (id : string) (now : Z) (s : PoolState) : bool :=
  match ps_jobs s !! id with
  | None => true
  | Some job =>
      if mt_expires_at (pj_template job) <=? saturating_add 64 now 10 then true
      else pc_job_cache_seconds config <=? saturating_sub now (pj_fetched_at job)
  end.

Definition same_work (p t : MiningTemplate) : bool :=
  (mt_height p =? mt_height t) && bool_decide (mt_previous_hash p = mt_previous_hash t)
  && bool_decide (mt_merkle_root p = mt_merkle_root t) && (mt_difficulty p =? mt_difficulty t)
  && (mt_timestamp p =? mt_timestamp t).

(** A template under another id and expiry. *)
Definition reissued (id : string) (expires : Z) (t : MiningTemplate) : MiningTemplate :=
  mkTemplate (mt_protocol t) id expires (mt_version t) (mt_network_id t) (mt_height t) (mt_previous_hash t)
    (mt_merkle_root t) (mt_base_fee_atomic t) (mt_timestamp t) (mt_difficulty t) (mt_share_difficulty t)
    (mt_nonce_start t) (mt_transactions t).
Definition with_share_difficulty (bits : option Z) (t : MiningTemplate) : MiningTemplate :=
  mkTemplate (mt_protocol t) (mt_template_id t) (mt_expires_at t) (mt_version t) (mt_network_id t) (mt_height t)
    (mt_previous_hash t) (mt_merkle_root t) (mt_base_fee_atomic t) (mt_timestamp t) (mt_difficulty t) bits
    (mt_nonce_start t) (mt_transactions t).

Definition install_or_refresh_job (t : MiningTemplate) (now : Z) (s : PoolState) : PoolState :=
  let id := mt_template_id t in
  let jobs := filter (λ e, now < mt_expires_at (pj_template e.2)) (ps_jobs s) in
  let fresh := mkJob t now ∅ in
  let job :=
    match jobs !! id with
    | Some existing => mkJob t now (pj_worker_difficulties existing)
    | None =>
        match ps_current_job s ≫= λ prev_id, jobs !! prev_id with
        | Some prev =>
            if same_work (pj_template prev) t
            then mkJob (reissued id (mt_expires_at t) (pj_template prev)) now (pj_worker_difficulties prev)
            else fresh
        | None => fresh
        end
    end in
  set_current (Some id) (set_jobs (<[id := job]> jobs) s).

(** Registering a difficulty for a worker on a job. *)
Definition issue (identity : string) (bits : Z) (job : PoolJob) : PoolJob :=
  let issued := default [] (pj_worker_difficulties job !! identity) in
  mkJob (pj_template job) (pj_fetched_at job)
    (<[identity := if bool_decide (bits ∈ issued) then issued else issued ++ [bits]]> (pj_worker_difficulties job)).

Definition issue_worker_template (id miner_address worker_name : string) : app MiningTemplate := λ s,
  match ps_jobs s !! id with
  | None => (Err (Stale "unknown job"), s)
  | Some job =>
      let bits := worker_difficulty miner_address worker_name (mt_difficulty (pj_template job)) (st_data (ps_store s)) in
      (Ok (with_share_difficulty (Some bits) (pj_template job)),
       set_jobs (<[id := issue (worker_identity miner_address worker_name) bits job]> (ps_jobs s)) s)
  end.

(** [work]: [fetched] is the upstream's template or its error. *)
Definition work (ip : option string) (now : Z) (fetched : result PoolError MiningTemplate)
    (miner_address worker_name : string) : app MiningTemplate :=
  _ ← sr_lift (validate_identity miner_address worker_name);
  _ ← admitted (admit_request (admission_keys ip miner_address worker_name) Work (Some (miner_address, worker_name)) now);
  s ← sr_get;
  let live_job := live_job_id now s in
  let needs_upstream := match live_job with Some id => job_needs_upstream_refresh id now s | None => true end in
  _ ← (if needs_upstream then
         match fetched with
         | Ok t => sr_modify (install_or_refresh_job (with_share_difficulty None t) now)
         | Err e => if is_none live_job then sr_lift (Err e) else mret ()
         end
       else mret ());
  s ← sr_get;
  id ← sr_lift (ok_or (Upstream "no live mining job available") (live_job_id now s));
  issue_worker_template id miner_address worker_name.

(** ** Shares *)

Definition stale_share_response (r : MiningSubmitRequest) (reason : string) : MiningSubmitResponse :=
  mkResponse MINING_PROTOCOL_VERSION StaleWork (mr_template_id r) (mr_block_hash r) None (Some reason).

(** The difficulties issued to the worker for the job, issuing one when there is
    none. *)
Definition issued_or_issue (id miner_address worker_name : string) (job : PoolJob) : app (list Z) := λ s,
  let identity := worker_identity miner_address worker_name in
  match pj_worker_difficulties job !! identity with
  | Some (d :: ds) => (Ok (d :: ds), s)
  | _ =>
      let bits := worker_difficulty miner_address worker_name (mt_difficulty (pj_template job)) (st_data (ps_store s)) in
      let job' := issue identity bits job in
      (Ok (default [] (pj_worker_difficulties job' !! identity)), set_jobs (<[id := job']> (ps_jobs s)) s)
  end.

(** The block a share solves, with its final hash: the pool's own template, the
    submitted nonce and mix hash. *)
Definition share_block (now : Z) (t : MiningTemplate) (r : MiningSubmitRequest) : result PoolError Block :=
  b ← map_err (λ e, InvalidShare (MinerError_fmt e)) (validate_and_build now (pc_pool_address config) t);
  let mix := str_trim (mr_mix_hash r) in
  mix ← (if str_is_empty mix then Ok (bh_mix_hash (header b))
         else map_err (λ e, InvalidShare ("invalid mix_hash: " ++ e)%string) (Hash_from_hex mix));
  Ok (set_nonce_mix (mr_nonce r) mix b).

(** The largest of the issued difficulties the hash meets. *)
Definition met_difficulty (hash : Hash) (issued : list Z) : result PoolError Z :=
  ok_or (InvalidShare "hash does not meet share difficulty")
    (match filter (λ bits, check_pow hash bits = true) issued with
     | [] => None
     | b :: rest => Some (foldl Z.max b rest)
     end).

(** The share that is recorded for a hash. *)
Definition share_of_hash (t : MiningTemplate) (r : MiningSubmitRequest) (miner_address worker_name : string)
    (hash : Hash) (share_bits t_share : Z) : ShareRecord :=
  mkShare 0 (mr_template_id r) miner_address worker_name (mr_nonce r) (hash_to_hex hash) share_bits (mt_difficulty t)
    t_share (check_pow hash (mt_difficulty t)).

(** The end of [process_share]: the share is recorded, and a block sent upstream
    and recorded when it is accepted. *)
Definition settle_share (t_block : Z) (upstream : result PoolError MiningSubmitResponse) (saved saved' : option string)
    (r : MiningSubmitRequest) (template : MiningTemplate) (share : ShareRecord) : app MiningSubmitResponse :=
  '(recorded, duplicate) ← on_store (PoolStore_record_share saved share);
  if (duplicate : bool)
  then mret (mkResponse MINING_PROTOCOL_VERSION PendingLocal (mr_template_id r) (sh_hash recorded) None
         (Some "share already recorded (duplicate hash ignored)"%string)) else
  if negb (sh_block_candidate share)
  then mret (mkResponse MINING_PROTOCOL_VERSION PendingLocal (mr_template_id r) (sh_hash share) None
         (Some "share accepted by pool"%string)) else
  answer ← sr_lift upstream;
  if bool_decide (ms_status answer = Accepted) then
    let reward := match head (mt_transactions template) with Some tx => tx_amount tx | None => 0 end in
    _ ← on_store (PoolStore_record_block saved' (default (mt_height template) (ms_height answer))
      (ms_block_hash answer) reward (pc_pool_fee_basis_points config) (pc_pplns_window_shares config) t_block);
    _ ← sr_modify (set_current None);
    mret answer
  else mret answer.

(** [process_share]: [now], [t_build], [t_share], [t_block] are its clock
    readings, [upstream] the answer to the submission of a block, [saved] and
    [saved'] the outcomes of saving the share and the block. *)
Definition process_share (now t_build t_share t_block : Z)
    (upstream : MiningSubmitRequest → result PoolError MiningSubmitResponse) (saved saved' : option string) (r : MiningSubmitRequest) (miner_address worker_name : string) :
    app MiningSubmitResponse :=
  if negb (bool_decide (mr_protocol r = MINING_PROTOCOL_VERSION))
  then sr_lift (Err (InvalidShare "unsupported mining protocol")) else
  _ ← sr_lift (validate_identity miner_address worker_name);
  s ← sr_get;
  match ps_jobs s !! mr_template_id r with
  | None => mret (stale_share_response r "unknown job — fetch fresh work")
  | Some job =>
      let template := pj_template job in
      if mt_expires_at template <=? now then mret (stale_share_response r "job expired — fetch fresh work") else
      issued ← issued_or_issue (mr_template_id r) miner_address worker_name job;
      if bool_decide (issued = [])
      then mret (stale_share_response r "work was not issued to this worker — fetch fresh work") else
      block ← sr_lift (share_block t_build template r);
      let hash := block_pow_hash block in
      if negb (bool_decide (hash_to_hex hash = str_to_ascii_lowercase (mr_block_hash r)))
      then sr_lift (Err (InvalidShare "submitted final_hash does not match FiroPoW nonce/mix_hash")) else
      share_bits ← sr_lift (met_difficulty hash issued);
      settle_share t_block
        (upstream (MiningSubmitRequest_from_solution (mr_template_id r) (mr_nonce r) hash (bh_mix_hash (header block))))
        saved saved' r template
        (share_of_hash template r miner_address worker_name hash share_bits t_share)
  end.

(** An invalid share is charged to its keys. *)
Definition charge_invalid {A} (keys : list string) (now : Z) (m : app A) : app A := λ s,
  let '(response, s) := m s in
  match response with
  | Err (InvalidShare _) => (response, on_admission (record_invalid_share keys now) s)
  | _ => (response, s)
  end.

(** [submit_share] *)
Definition submit_share (ip : option string) (t_admit now t_build t_share t_block t_invalid : Z)
    (upstream : MiningSubmitRequest → result PoolError MiningSubmitResponse) (saved saved' : option string)
    (r : MiningSubmitRequest) : app MiningSubmitResponse :=
  miner_address ← sr_lift (ok_or (InvalidShare "miner_address is required") (mr_miner_address r));
  worker_name ← sr_lift (ok_or (InvalidShare "worker_name is required") (mr_worker_name r));
  let keys := admission_keys ip miner_address worker_name in
  _ ← admitted (admit_request keys Share None t_admit);
  charge_invalid keys t_invalid
    (process_share now t_build t_share t_block upstream saved saved' r miner_address worker_name).

(** ** Payouts and maturity *)

(** The fields of an upstream transaction object. *)
Record UpstreamTx := { ut_to : option string; ut_amount_atomic : option Z; ut_lifecycle : option string; ut_block_height : option Z }.

(** One hash of the loop of [verify_payout_txs_on_chain]. *)
Definition cover (fetch : string → result PoolError UpstreamTx) (covered : gmap string Z) (raw_hash : string) :
    result PoolError (gmap string Z) :=
  let hash := str_to_ascii_lowercase (str_trim raw_hash) in
  tx ← fetch hash;
  to ← ok_or (Config ("payout tx " ++ hash ++ " missing recipient")) (ut_to tx);
  amount ← ok_or (Config ("payout tx " ++ hash ++ " missing amount_atomic")) (ut_amount_atomic tx);
  let lifecycle := str_to_ascii_lowercase (default ""%string (ut_lifecycle tx)) in
  if str_contains lifecycle "pending" || str_contains lifecycle "mempool"
  then Err (Config ("payout tx " ++ hash ++ " is not confirmed yet (" ++ lifecycle ++ ")")) else
  if (default 0 (ut_block_height tx) =? 0) && str_is_empty lifecycle
  then Err (Config ("payout tx " ++ hash ++ " has no block height")) else
  Ok (<[to := saturating_add 64 (default 0 (covered !! to)) amount]> covered).

Definition check_item (covered : gmap string Z) (it : PayoutItem) : result PoolError () :=
  let paid := default 0 (covered !! pi_address it) in
  if paid <? pi_amount it
  then Err (Config ("payout for " ++ pi_address it ++ " requires " ++ uint_to_string (pi_amount it)
         ++ " atomic but on-chain transfers only cover " ++ uint_to_string paid)) else Ok ().

Definition verify_payout_txs_on_chain (fetch : string → result PoolError UpstreamTx) (batch : PayoutBatch)
    (hashes : list string) : result PoolError () :=
  if bool_decide (hashes = []) then Err (Config "transaction hashes are required to confirm a payout") else
  covered ← try_fold (cover fetch) ∅ hashes;
  try_each (check_item covered) (po_items batch).

(** [confirm_payout], past the check of the administrator's token. *)
Definition confirm_payout (hex_decode : string → option (list byte)) (fetch : string → result PoolError UpstreamTx)
    (saved : option string) (payout_id : string) (hashes : list string) : app PayoutBatch :=
  s ← sr_get;
  found ← sr_lift (ok_or (Config "prepared payout not found")
    (prepared_position payout_id (pd_payouts (st_data (ps_store s)))));
  _ ← sr_lift (verify_payout_txs_on_chain fetch found.2 hashes);
  on_store (PoolStore_confirm_payout hex_decode saved payout_id hashes).

(** The canonical hashes of the unsettled blocks, block by block; a height the
    node does not serve ([Ok None]) is left out. *)
Definition canonical_hashes (canonical : Z → result PoolError (option string)) (blocks : list PoolBlock) :
    result PoolError (gmap Z string) :=
  try_fold (λ m b, h ← canonical (pb_height b);
      Ok (match h with Some hash => <[pb_height b := hash]> m | None => m end)) ∅
    (filter (λ b, pb_status b = Immature ∨ pb_status b = Mature) blocks).

(** [reconcile_maturity]: the upstream's tip height and the hash it serves at a
    height. *)
Definition reconcile_maturity (status : result PoolError (option Z)) (canonical : Z → result PoolError (option string))
    (saved saved' : option string) : app () :=
  tip ← sr_lift status;
  match tip with
  | None => mret ()
  | Some tip =>
      _ ← on_store (void_immature_above_tip saved tip);
      s ← sr_get;
      hashes ← sr_lift (canonical_hashes canonical (pd_blocks (st_data (ps_store s))));
      on_store (PoolStore_mature_blocks saved' hashes tip (pc_block_maturity_confirmations config))
  end.

End app.
