(* ===== verification/PoolAppTheory.v ===== *)
(** What the pool server promises: shares are work, difficulties stay below the
    block's, admission is bounded; and where a found block or a transfer is
    counted wrongly. *)

From S2P Require Import Prelude RustStd Interfaces Crypto Errors Network Amount Signing Address Transaction Block Pow Consensus Genesis MinerWork Pool PoolApp.

(** ** Difficulties *)

Lemma share_difficulty_bounds_spec mn mx init net gap lo hi x :
  0 <= mn → 0 <= mx → 0 <= net →
  share_difficulty_bounds mn mx init net gap = (lo, hi, x) →
  0 <= lo ∧ lo <= hi ∧ lo <= x <= hi ∧ (if net <=? 1 then hi = 0 else hi < net).
Proof.
  intros Hmn Hmx Hnet. unfold share_difficulty_bounds. intros [= <- <- <-].
  set (cap := if net <=? 1 then 0 else Z.min (saturating_sub net (Z.max gap 1)) (saturating_sub net 1)).
  assert (0 <= cap ∧ (if net <=? 1 then cap = 0 else cap < net)) as [Hc0 Hc].
  { unfold cap, saturating_sub. destruct (net <=? 1) eqn:E; breflect; lia. }
  split_and!; [lia | lia | apply clamp_range; lia ..|].
  destruct (net <=? 1) eqn:E; breflect; lia.
Qed.

(** The bounds of the configuration: 8-bit difficulties. *)
Definition share_bits_ok (c : PoolConfig) : Prop :=
  is_u8 (pc_min_share_bits c) ∧ is_u8 (pc_max_share_bits c) ∧ is_u8 (pc_share_bits c).

Lemma worker_difficulty_in config a n net data lo hi x :
  share_bits_ok config → is_u8 net →
  share_difficulty_bounds (pc_min_share_bits config) (pc_max_share_bits config) (pc_share_bits config) net
    (pc_share_network_gap_bits config) = (lo, hi, x) →
  lo <= worker_difficulty config a n net data <= hi.
Proof.
  intros (Hmn & Hmx & Hi) Hnet Eb. unfold in_width in *.
  pose proof (share_difficulty_bounds_spec _ _ _ _ _ _ _ _ (proj1 Hmn) (proj1 Hmx) (proj1 Hnet) Eb) as (H0 & Hlh & Hx & Hn).
  unfold worker_difficulty. rewrite Eb. cbv zeta.
  assert (hi < 256) as Hhi by (destruct (net <=? 1); lia).
  destruct (negb _); [done|].
  match goal with |- context [clamp lo hi ?y] => pose proof (clamp_range lo hi y Hlh) as Hcur; set (cur := clamp lo hi y) in * end.
  unfold saturating_add, saturating_sub, umax.
  repeat match goal with |- context [if ?c then _ else _] => destruct c end; lia.
Qed.

(** Whatever a worker's history of shares, the difficulty it is given lies
    within the configured bounds cut below the block's difficulty, so it is
    strictly easier than the block (zero for a difficulty of at most one), and
    every hash good enough for the block is good enough for the share: no block
    is refused as a share. *)
Theorem blocks_are_shares config a n net data :
  share_bits_ok config → is_u8 net →
  let bits := worker_difficulty config a n net data in
  0 <= bits <= Z.max (pc_max_share_bits config) (pc_min_share_bits config) ∧
  (if net <=? 1 then bits = 0 else bits < net) ∧
  ∀ h, hash_wf h → check_pow h net = true → check_pow h bits = true.
Proof.
  intros Hc Hnet bits.
  destruct (share_difficulty_bounds (pc_min_share_bits config) (pc_max_share_bits config) (pc_share_bits config) net
    (pc_share_network_gap_bits config)) as [[lo hi] x] eqn:Eb.
  pose proof (worker_difficulty_in config a n net data lo hi x Hc Hnet Eb) as Hb. fold bits in Hb.
  destruct Hc as (Hmn & Hmx & Hi). unfold in_width in Hmn, Hmx.
  pose proof Hnet as Hnet'. unfold in_width in Hnet'.
  pose proof (share_difficulty_bounds_spec _ _ _ _ _ _ _ _ (proj1 Hmn) (proj1 Hmx) (proj1 Hnet') Eb) as (H0 & Hlh & Hx & Hn).
  assert (hi <= Z.max (pc_max_share_bits config) (pc_min_share_bits config)) as Hhi
    by (revert Eb; unfold share_difficulty_bounds; intros [= <- <- <-]; lia).
  assert (0 <= bits <= net) as Hle by (destruct (net <=? 1) eqn:E; breflect; lia).
  split; [lia|]. split; [destruct (net <=? 1) eqn:E; breflect; lia|].
  intros h Hh. unfold check_pow. rewrite !meets_target_iff by (done || (unfold in_width; lia)). intros Hv.
  eapply Z.lt_le_trans; [exact Hv|]. apply Z.pow_le_mono_r; lia.
Qed.

(** ** Admission *)

Section admission.
Context (config : PoolConfig) (T : Z).

(** What the admission sees: requests, and invalid shares charged to keys. *)
Inductive admission_event :=
| asks (keys : list string) (kind : RequestKind) (worker : option (string * string)) (now : Z)
| invalid (keys : list string) (now : Z).
Definition event_time (e : admission_event) : Z := match e with asks _ _ _ now | invalid _ now => now end.

(** One event; a request for work that names [key] is counted when admitted. *)
Definition admission_step (key : string) (e : admission_event) (a : AdmissionState) : Z * AdmissionState :=
  match e with
  | asks keys kind worker now =>
      let '(r, a') := admit_request config keys kind worker now a in
      (match kind with Work => if is_ok r && bool_decide (key ∈ keys) then 1 else 0 | Share => 0 end, a')
  | invalid keys now => (0, record_invalid_share config keys now a)
  end.
Fixpoint admitted_work (key : string) (es : list admission_event) (a : AdmissionState) : Z :=
  match es with
  | [] => 0
  | e :: es' => let '(n, a') := admission_step key e a in n + admitted_work key es' a'
  end.

(** The requests a client can still make until [T + 60]. *)
Definition allowance (c : ClientAdmission) : Z :=
  let m := pc_max_work_requests_per_minute config in
  (m - Z.min m (cl_work_requests c)) + (if T <=? cl_window_started_at c then 0 else m).
Definition counts_ok (c : ClientAdmission) : Prop := 0 <= cl_work_requests c.
Definition admission_ok (a : AdmissionState) : Prop := map_Forall (λ _ c, counts_ok c) (am_clients a).

Lemma client_of_ok key a : admission_ok a → counts_ok (client_of key a).
Proof.
  intros Ha. unfold client_of. destruct (am_clients a !! key) as [c|] eqn:E; [exact (Ha _ _ E) | done].
Qed.

Lemma set_client_ok key c a : admission_ok a → counts_ok c → admission_ok (set_clients (<[key := c]> (am_clients a)) a).
Proof. intros Ha Hc. by apply map_Forall_insert_2. Qed.

Lemma client_of_set key key' c a :
  client_of key (set_clients (<[key' := c]> (am_clients a)) a) = if decide (key' = key) then c else client_of key a.
Proof.
  unfold client_of. cbn [am_clients set_clients]. case_decide as E; [subst; by rewrite lookup_insert_eq | by rewrite lookup_insert_ne].
Qed.

Context (Hmax : 0 <= pc_max_work_requests_per_minute config < umax 32).

(** Counting a request within the minute: the allowance never grows, and shrinks
    by one when a request for work is admitted. *)
Lemma count_allowance kind now c :
  counts_ok c → T <= now < T + 60 →
  let c' := count_request kind (fresh_window now c) in
  counts_ok c' ∧
  allowance c' + (match kind with Work => if exceeded config kind c' then 0 else 1 | Share => 0 end) <= allowance c.
Proof.
  unfold counts_ok, allowance, fresh_window, count_request, exceeded, saturating_add, saturating_sub, umax in *.
  intros Hc Ht. destruct (60 <=? _) eqn:E60; breflect; destruct kind; cbn;
    repeat match goal with |- context [?x <=? ?y] => destruct (x <=? y) eqn:?; breflect end;
    try match goal with |- context [?x >? ?y] => destruct (x >? y) eqn:?; breflect end; lia.
Qed.

Lemma admit_key_step kind now key' key a r a' :
  admission_ok a → T <= now < T + 60 → admit_key config kind now key' a = (r, a') →
  admission_ok a' ∧
  allowance (client_of key a') + (match kind with Work => if is_ok r && bool_decide (key' = key) then 1 else 0 | Share => 0 end)
  <= allowance (client_of key a).
Proof.
  intros Ha Ht. unfold admit_key. pose proof (client_of_ok key' a Ha) as Hc'.
  destruct (now <? _) eqn:Eb.
  - intros [= <- <-]. split; [by apply set_client_ok|]. rewrite client_of_set. cbn [is_ok andb].
    destruct kind; (case_decide; [subst key'|]); lia.
  - destruct (count_allowance kind now _ Hc' Ht) as [Hok Hle].
    set (c' := count_request kind (fresh_window now (client_of key' a))) in *.
    destruct (exceeded config kind c') eqn:Ee; intros [= <- <-]; (split; [by apply set_client_ok|]).
    + change (client_of key (count_limited ?s)) with (client_of key s). rewrite client_of_set. cbn [is_ok andb].
      destruct kind; (case_decide; [subst key'|]); lia.
    + rewrite client_of_set. cbn [is_ok andb].
      destruct kind; try rewrite Ee in Hle; (case_decide; [subst key'|]); repeat case_bool_decide; try done; lia.
Qed.

Lemma admit_keys_step kind now keys key a r a' :
  admission_ok a → T <= now < T + 60 → sr_each (admit_key config kind now) keys a = (r, a') →
  admission_ok a' ∧
  allowance (client_of key a') + (match kind with Work => if is_ok r && bool_decide (key ∈ keys) then 1 else 0 | Share => 0 end)
  <= allowance (client_of key a).
Proof.
  intros Ha Ht. revert a Ha. induction keys as [|k keys IH]; intros a Ha E; cbn [sr_each] in E.
  - injection E as <- <-. split; [done|]. rewrite (bool_decide_false (key ∈ [])) by apply not_elem_of_nil. destruct kind; cbn; lia.
  - destruct (admit_key config kind now k a) as [r1 a1] eqn:E1.
    destruct (admit_key_step kind now k key a r1 a1 Ha Ht E1) as [Ha1 H1].
    destruct r1 as [[]|e].
    + rewrite (sr_bind_step _ _ _ _ _ E1) in E. destruct (IH a1 Ha1 E) as [Ha' H2]. split; [done|].
      destruct kind; cbn [is_ok andb] in *; destruct (is_ok r); cbn [andb] in *; repeat case_bool_decide; try set_solver; lia.
    + assert ((r, a') = (Err e, a1)) as [= -> ->] by (rewrite <- E; apply sr_bind_Err; by left).
      split; [done|]. destruct kind; cbn [is_ok andb] in *; lia.
Qed.

Lemma admit_worker_clients now address worker a r a' :
  admit_worker config now address worker a = (r, a') → am_clients a' = am_clients a.
Proof. unfold admit_worker. destruct (_ && _); by intros [= <- <-]. Qed.

Lemma invalid_key_step now key a key' :
  admission_ok a → admission_ok (invalid_key config now a key') ∧
  allowance (client_of key (invalid_key config now a key')) = allowance (client_of key a).
Proof.
  intros Ha. unfold invalid_key. cbv zeta. pose proof (client_of_ok key' a Ha) as Hc.
  split; [apply set_client_ok; [done|]; by destruct (_ <=? _)|].
  rewrite client_of_set. case_decide as E; [subst key'|done]. by destruct (_ <=? _).
Qed.

Lemma invalid_keys_step now key keys a :
  admission_ok a → admission_ok (foldl (invalid_key config now) a keys) ∧
  allowance (client_of key (foldl (invalid_key config now) a keys)) = allowance (client_of key a).
Proof.
  revert a. induction keys as [|k keys IH]; intros a Ha; [done|]. cbn [foldl].
  destruct (invalid_key_step now key a k Ha) as [Ha1 <-]. by apply IH.
Qed.

Lemma admission_step_ok key e a n a' :
  admission_ok a → T <= event_time e < T + 60 → admission_step key e a = (n, a') →
  admission_ok a' ∧ allowance (client_of key a') + n <= allowance (client_of key a).
Proof.
  intros Ha Ht. destruct e as [keys kind worker now|keys now]; cbn [admission_step event_time] in *.
  - destruct (admit_request config keys kind worker now a) as [r a2] eqn:E. intros [= <- <-].
    unfold admit_request in E. destruct worker as [[address worker]|].
    + destruct (admit_worker config now address worker a) as [rw aw] eqn:Ew.
      pose proof (admit_worker_clients _ _ _ _ _ _ Ew) as Hcl.
      assert (admission_ok aw) as Haw by (unfold admission_ok; by rewrite Hcl).
      assert (client_of key aw = client_of key a) as <- by (unfold client_of; by rewrite Hcl).
      destruct rw as [[]|ew].
      * rewrite (sr_bind_step _ _ _ _ _ Ew) in E. by apply (admit_keys_step kind now keys).
      * assert ((r, a2) = (Err ew, aw)) as [= -> ->] by (rewrite <- E; apply sr_bind_Err; by left).
        split; [done|]. destruct kind; cbn; lia.
    + by apply (admit_keys_step kind now keys).
  - intros [= <- <-]. destruct (invalid_keys_step now key keys (count_rejected a)) as [? E]; [done|].
    split; [done|]. unfold record_invalid_share. rewrite E. by change (client_of key (count_rejected a)) with (client_of key a); lia.
Qed.

Lemma admitted_work_le key es a :
  admission_ok a → Forall (λ e, T <= event_time e < T + 60) es → admitted_work key es a <= allowance (client_of key a).
Proof.
  intros Ha Hes. revert a Ha. induction Hes as [|e es He Hes IH]; intros a Ha; cbn [admitted_work].
  - pose proof (client_of_ok key a Ha). unfold allowance. destruct (_ <=? _); lia.
  - destruct (admission_step key e a) as [n a'] eqn:E. destruct (admission_step_ok key e a n a' Ha He E) as [Ha' Hle].
    specialize (IH a' Ha'). lia.
Qed.

End admission.

(** A client's rate is bounded on every minute, not only on the windows the
    counters start: whatever requests of any kind, refusals and invalid shares
    happen in sixty seconds, in any order, at most twice the configured number of
    requests for work of one key (a worker's identity or an address) is admitted. *)
Theorem admission_rate config T key es a :
  0 <= pc_max_work_requests_per_minute config < umax 32 → admission_ok a →
  Forall (λ e, T <= event_time e < T + 60) es →
  admitted_work config key es a <= 2 * pc_max_work_requests_per_minute config.
Proof.
  intros Hmax Ha Hes. etrans; [by apply (admitted_work_le config T)|].
  pose proof (client_of_ok key a Ha) as Hc. unfold counts_ok in Hc. unfold allowance. destruct (_ <=? _); lia.
Qed.

(** ** Shares *)

(** [record_share] keeps the newest shares. *)
Definition keep_last (max : Z) (l : list ShareRecord) : list ShareRecord :=
  if Z.of_nat (length l) >? max then drop (Z.to_nat (Z.of_nat (length l) - max)) l else l.

Lemma keep_last_In max l x : 0 < max → x ∈ keep_last max (l ++ [x]).
Proof.
  intros Hm. unfold keep_last. destruct (_ >? _) eqn:E; breflect; [|set_solver].
  rewrite drop_app_le by (rewrite length_app in *; cbn [length] in *; lia). set_solver.
Qed.

Lemma record_share_spec saved sh st r st' :
  PoolStore_record_share saved sh st = (r, st') →
  (∃ e, e ∈ pd_shares (st_data st) ∧ sh_hash e = sh_hash sh ∧ r = Ok (e, true) ∧ st' = st) ∨
  (Forall (λ e, sh_hash e ≠ sh_hash sh) (pd_shares (st_data st)) ∧
   let recorded := with_share_id (saturating_add 64 (pd_next_share_id (st_data st)) 1) sh in
   st_data st' = set_shares (sh_share_id recorded) (keep_last (st_max_shares st) (pd_shares (st_data st) ++ [recorded])) (st_data st) ∧
   st_max_shares st' = st_max_shares st ∧
   r = match saved with None => Ok (recorded, false) | Some e => Err (StorageError e) end).
Proof.
  unfold PoolStore_record_share. destruct (list_find _ _) as [[i e]|] eqn:E.
  - intros [= <- <-]. left. apply list_find_Some in E as (Hl & He & _). exists e. split_and!; [by eapply list_elem_of_lookup_2 | done..].
  - intros H. right. apply list_find_None in E. split; [done|]. unfold save in H. destruct saved; by injection H as <- <-.
Qed.

Lemma record_share_again saved sh st e :
  e ∈ pd_shares (st_data st) → sh_hash e = sh_hash sh →
  ∃ e', sh_hash e' = sh_hash sh ∧ PoolStore_record_share saved sh st = (Ok (e', true), st).
Proof.
  intros Hin He. destruct (PoolStore_record_share saved sh st) as [r st'] eqn:E.
  apply record_share_spec in E as [(e' & _ & ? & -> & ->)|(Hno & _)]; [by exists e'|].
  rewrite Forall_forall in Hno. by destruct (Hno e Hin).
Qed.

Lemma record_block_shares saved h hash reward fee window now st r st' :
  PoolStore_record_block saved h hash reward fee window now st = (r, st') →
  pd_shares (st_data st') = pd_shares (st_data st) ∧ st_max_shares st' = st_max_shares st.
Proof.
  unfold PoolStore_record_block. intros H. repeat case_match; simplify_eq/=; try done; unfold save in *; repeat case_match; by simplify_eq/=.
Qed.

Lemma set_mix_pow_hash `{Primitives} n m m' b : block_pow_hash (set_nonce_mix n m b) = block_pow_hash (set_nonce_mix n m' b).
Proof. done. Qed.

Abbreviation sdata s := (st_data (ps_store s)).

Section shares.
Context `{HP : Primitives}.
Context (config : PoolConfig).

Lemma on_store_eq {A} (m : pool A) s r st' :
  m (ps_store s) = (r, st') → on_store m s = (r, mkPoolState st' (ps_jobs s) (ps_current_job s) (ps_admission s)).
Proof. unfold on_store. by intros ->. Qed.

(** Recording a share: a duplicate is answered without a change; a new one is
    kept whatever follows. *)
Lemma settle_share_spec t_block upstream saved saved' r t sh s res s' :
  settle_share config t_block upstream saved saved' r t sh s = (res, s') →
  (∃ e resp, e ∈ pd_shares (sdata s) ∧ sh_hash e = sh_hash sh ∧ s' = s ∧ res = Ok resp ∧ ms_status resp = PendingLocal) ∨
  (Forall (λ e, sh_hash e ≠ sh_hash sh) (pd_shares (sdata s)) ∧
   pd_shares (sdata s') = keep_last (st_max_shares (ps_store s))
     (pd_shares (sdata s) ++ [with_share_id (saturating_add 64 (pd_next_share_id (sdata s)) 1) sh]) ∧
   st_max_shares (ps_store s') = st_max_shares (ps_store s) ∧ ps_jobs s' = ps_jobs s).
Proof.
  unfold settle_share. destruct (PoolStore_record_share saved sh (ps_store s)) as [rr st'] eqn:E.
  pose proof (on_store_eq _ s _ _ E) as Es. apply record_share_spec in E as [(e & Hin & He & -> & ->)|(Hno & Hd & Hm & ->)].
  - rewrite (sr_bind_step _ _ _ _ _ Es). intros [= <- <-]. left. destruct s. by eexists e, _.
  - set (recorded := with_share_id _ sh) in *. intros H. right. split; [done|].
    assert (∀ s2, s' = s2 → pd_shares (sdata s2) = pd_shares (st_data st') → st_max_shares (ps_store s2) = st_max_shares st' →
      ps_jobs s2 = ps_jobs s → pd_shares (sdata s') = keep_last (st_max_shares (ps_store s)) (pd_shares (sdata s) ++ [recorded])
      ∧ st_max_shares (ps_store s') = st_max_shares (ps_store s) ∧ ps_jobs s' = ps_jobs s) as Hend.
    { intros s2 -> H1 H2 H3. rewrite H1, H2, H3, Hd, Hm. done. }
    destruct saved as [msg|].
    + assert ((res, s') = (Err (StorageError msg), mkPoolState st' (ps_jobs s) (ps_current_job s) (ps_admission s))) as [= -> ->].
      { rewrite <- H. apply sr_bind_Err. by left. }
      by apply (Hend _ eq_refl).
    + rewrite (sr_bind_step _ _ _ _ _ Es) in H. cbn [sh_block_candidate] in H.
      destruct (negb _); [injection H as <- <-; by apply (Hend _ eq_refl)|].
      rewrite sr_lift_bind in H. destruct upstream as [ans|e]; [|injection H as <- <-; by apply (Hend _ eq_refl)].
      destruct (bool_decide _); [|injection H as <- <-; by apply (Hend _ eq_refl)].
      match type of H with (on_store ?m ≫= _) ?st = _ => destruct (m (ps_store st)) as [rb st2] eqn:Eb;
        pose proof (on_store_eq m st _ _ Eb) as Esb end.
      pose proof (record_block_shares _ _ _ _ _ _ _ _ _ _ Eb) as [Hs2 Hm2]. destruct rb as [[]|e].
      * rewrite (sr_bind_step _ _ _ _ _ Esb) in H. injection H as <- <-. by apply (Hend _ eq_refl).
      * match type of Esb with _ = (_, ?s2) => assert ((res, s') = (Err e, s2)) as [= -> ->] end.
        { rewrite <- H. apply sr_bind_Err. by left. }
        by apply (Hend _ eq_refl).
Qed.

Lemma issued_or_issue_spec id a n job s :
  ∃ issued s1, issued_or_issue config id a n job s = (Ok issued, s1) ∧ ps_store s1 = ps_store s ∧
    (∀ id', ps_jobs s !! id = Some job → pj_template <$> ps_jobs s1 !! id' = pj_template <$> ps_jobs s !! id') ∧
    (ps_jobs s !! id = Some job → ∃ job1, ps_jobs s1 !! id = Some job1 ∧
      pj_template job1 = pj_template job ∧ default [] (pj_worker_difficulties job1 !! worker_identity a n) = issued).
Proof.
  unfold issued_or_issue. set (identity := worker_identity a n).
  assert (∀ job' issued, pj_template job' = pj_template job →
    default [] (pj_worker_difficulties job' !! identity) = issued →
    ∃ issued' s1, (Ok (E := PoolError) issued, set_jobs (<[id := job']> (ps_jobs s)) s) = (Ok issued', s1) ∧ ps_store s1 = ps_store s ∧
    (∀ id', ps_jobs s !! id = Some job → pj_template <$> ps_jobs s1 !! id' = pj_template <$> ps_jobs s !! id') ∧
    (ps_jobs s !! id = Some job → ∃ job1, ps_jobs s1 !! id = Some job1 ∧ pj_template job1 = pj_template job ∧
      default [] (pj_worker_difficulties job1 !! identity) = issued')) as Hset.
  { intros job' issued Ht Hi. eexists _, _. split; [reflexivity|]. cbn. split_and!; [done| |].
    - intros id' Hj. destruct (decide (id' = id)) as [->|]; [rewrite lookup_insert_eq, Hj; cbn; by rewrite Ht | by rewrite lookup_insert_ne].
    - intros _. rewrite lookup_insert_eq. by eexists. }
  destruct (_ !! identity) as [[|d ds]|] eqn:E; [by apply Hset| |by apply Hset].
  eexists _, _. split; [done|]. split; [done|]. split; [done|]. intros Hj. exists job. by rewrite E.
Qed.

(** What reaches the recording of a share. *)
Lemma process_share_cases now t_build t_share t_block upstream saved saved' r a n s res s' :
  process_share config now t_build t_share t_block upstream saved saved' r a n s = (res, s') →
  (sdata s' = sdata s ∧ match res with Ok resp => ms_status resp = StaleWork | Err e => ∃ m, e = InvalidShare m end) ∨
  ∃ job issued s1 block bits,
    mr_protocol r = MINING_PROTOCOL_VERSION ∧ validate_identity config a n = Ok () ∧
    ps_jobs s !! mr_template_id r = Some job ∧ now < mt_expires_at (pj_template job) ∧
    issued_or_issue config (mr_template_id r) a n job s = (Ok issued, s1) ∧ issued ≠ [] ∧
    share_block config t_build (pj_template job) r = Ok block ∧
    hash_to_hex (block_pow_hash block) = str_to_ascii_lowercase (mr_block_hash r) ∧
    met_difficulty (block_pow_hash block) issued = Ok bits ∧
    settle_share config t_block
      (upstream (MiningSubmitRequest_from_solution (mr_template_id r) (mr_nonce r) (block_pow_hash block) (bh_mix_hash (header block))))
      saved saved' r (pj_template job) (share_of_hash (pj_template job) r a n (block_pow_hash block) bits t_share) s1 = (res, s').
Proof.
  unfold process_share. destruct (negb (bool_decide (mr_protocol r = _))) eqn:Ep.
  { intros [= <- <-]. left. split; [done|]. by eexists. }
  breflect. rewrite sr_lift_bind. destruct (validate_identity config a n) as [[]|e] eqn:Ev.
  2: { intros [= <- <-]. left. split; [done|]. clear - Ev. unfold validate_identity in Ev.
       apply bind_Err in Ev as [(e0 & _ & ->)%map_err_Err|(? & _ & Ev)]; [by eexists|].
       destruct (negb _); [injection Ev as <-; by eexists|]. destruct (_ || _); [injection Ev as <-; by eexists | done]. }
  rewrite sr_get_bind. destruct (ps_jobs s !! _) as [job|] eqn:Ej; [|intros [= <- <-]; by left].
  cbv zeta. destruct (_ <=? now) eqn:Et; [intros [= <- <-]; by left|]. breflect.
  destruct (issued_or_issue_spec (mr_template_id r) a n job s) as (issued & s1 & Ei & Hst & _ & _).
  rewrite (sr_bind_step _ _ _ _ _ Ei). destruct (bool_decide (issued = [])) eqn:En; [intros [= <- <-]; left; by rewrite Hst|]. breflect.
  rewrite sr_lift_bind. destruct (share_block config t_build (pj_template job) r) as [block|e] eqn:Eb.
  2: { intros [= <- <-]. left. rewrite Hst. split; [done|]. clear - Eb. unfold share_block in Eb.
       apply bind_Err in Eb as [(e0 & _ & ->)%map_err_Err|(b & _ & Eb)]; [by eexists|].
       apply bind_Err in Eb as [Eb|(x & _ & Eb)]; [|done]. destruct (str_is_empty _); [done|].
       apply map_err_Err in Eb as (? & _ & ->). by eexists. }
  destruct (negb _) eqn:Eh; [intros [= <- <-]; left; rewrite Hst; split; [done | by eexists]|]. breflect.
  rewrite sr_lift_bind. destruct (met_difficulty _ issued) as [bits|e] eqn:Em.
  - intros Hs. right. exists job, issued, s1, block, bits. split_and!; try done; lia.
  - intros [= <- <-]. left. rewrite Hst. split; [done|]. apply ok_or_Err in Em as [_ ->]. by eexists.
Qed.

Lemma foldl_max_spec l b : foldl Z.max b l ∈ b :: l ∧ Forall (λ x, x <= foldl Z.max b l) (b :: l).
Proof.
  revert b. induction l as [|x l IH]; intros b; cbn [foldl]; [split; [by left | by repeat constructor]|].
  destruct (IH (Z.max b x)) as [Hin Hall]. apply Forall_cons in Hall as [Hm Hl]. split.
  - apply elem_of_cons in Hin as [->|]; [|set_solver]. destruct (Z.max_spec b x) as [[_ ->]|[_ ->]]; set_solver.
  - repeat (apply Forall_cons; split); [lia..|done].
Qed.

Lemma met_difficulty_spec h issued bits :
  met_difficulty h issued = Ok bits →
  bits ∈ issued ∧ check_pow h bits = true ∧ ∀ b, b ∈ issued → check_pow h b = true → b <= bits.
Proof.
  unfold met_difficulty. intros Hb%ok_or_Ok. destruct (filter _ issued) as [|b l] eqn:E; [done|]. injection Hb as <-.
  destruct (foldl_max_spec l b) as [Hin Hall]. rewrite <- E in Hin, Hall. apply list_elem_of_filter in Hin as [Hc Hin].
  split_and!; [done..|]. intros b' Hb' Hc'. rewrite Forall_forall in Hall. by apply Hall, list_elem_of_filter.
Qed.

(** C15. No share without its work: a submission changes the recorded shares only
    by adding one, for a job of the pool still in force, whose hash is that of the
    pool's own template with the submitted nonce, was not recorded before and
    meets the largest difficulty credited among those issued to that worker for
    that job; the miner's address is valid and on the pool's network. Every other
    outcome leaves the shares as they were. *)
Theorem credited_share_is_work now t_build t_share t_block upstream saved saved' r a n s res s' :
  process_share config now t_build t_share t_block upstream saved saved' r a n s = (res, s') →
  pd_shares (sdata s') = pd_shares (sdata s) ∨
  ∃ job job1 issued s1 block bits address,
    ps_jobs s !! mr_template_id r = Some job ∧ now < mt_expires_at (pj_template job) ∧
    share_block config t_build (pj_template job) r = Ok block ∧ bh_nonce (header block) = mr_nonce r ∧
    Address_parse a = Ok address ∧ network_id (addr_network address) = pc_network_id config ∧
    issued_or_issue config (mr_template_id r) a n job s = (Ok issued, s1) ∧ ps_jobs s1 !! mr_template_id r = Some job1 ∧
    default [] (pj_worker_difficulties job1 !! worker_identity a n) = issued ∧
    bits ∈ issued ∧ check_pow (block_pow_hash block) bits = true ∧
    (∀ b, b ∈ issued → check_pow (block_pow_hash block) b = true → b <= bits) ∧
    Forall (λ e, sh_hash e ≠ hash_to_hex (block_pow_hash block)) (pd_shares (sdata s)) ∧
    pd_shares (sdata s') = keep_last (st_max_shares (ps_store s)) (pd_shares (sdata s) ++
      [with_share_id (saturating_add 64 (pd_next_share_id (sdata s)) 1)
         (share_of_hash (pj_template job) r a n (block_pow_hash block) bits t_share)]).
Proof.
  intros [[Hd _]|(job & issued & s1 & block & bits & _ & Hv & Hj & Ht & Hi & _ & Hb & _ & Hm & Hs)]%process_share_cases;
    [left; by rewrite Hd|].
  destruct (issued_or_issue_spec (mr_template_id r) a n job s) as (issued' & s1' & Hi' & Hst & _ & Hjob).
  rewrite Hi in Hi'. injection Hi' as <- <-. destruct (Hjob Hj) as (job1 & Hj1 & _ & Hd1).
  apply settle_share_spec in Hs as [(e & resp & _ & _ & -> & _)|(Hno & Hs & _)]; [left; by rewrite Hst|].
  rewrite Hst in Hno, Hs. right. destruct (met_difficulty_spec _ _ _ Hm) as (Hbi & Hbc & Hbm).
  unfold validate_identity in Hv. apply bind_Ok in Hv as (address & Ha%map_err_Ok & Hv). rewrite if_negb_Err_Ok in Hv.
  destruct Hv as [Hnet _]. breflect.
  exists job, job1, issued, s1, block, bits, address. split_and!; try done.
  unfold share_block in Hb. apply bind_Ok in Hb as (b & _ & Hb). apply bind_Ok in Hb as (mix & _ & [= <-]). done.
Qed.

(** The template is checked against the clock only for its expiry. *)
Lemma validate_and_build_time now now' addr t b :
  validate_and_build now addr t = Ok b → now' < mt_expires_at t → validate_and_build now' addr t = Ok b.
Proof.
  unfold validate_and_build. destruct (negb _); [done|]. destruct (str_is_empty _); [done|].
  destruct (_ <=? now); [done|]. intros Hb Ht. by rewrite (proj2 (Z.leb_gt _ _) Ht).
Qed.

(** A request with another mix hash. *)
Definition with_mix (mix : string) (r : MiningSubmitRequest) : MiningSubmitRequest :=
  mkRequest (mr_protocol r) (mr_template_id r) (mr_nonce r) (mr_block_hash r) mix (mr_miner_address r) (mr_worker_name r).

Lemma share_block_mix t_build t_build' t r block mix :
  share_block config t_build t r = Ok block → t_build' < mt_expires_at t →
  (str_trim mix = ""%string ∨ ∃ h, Hash_from_hex (str_trim mix) = Ok h) →
  ∃ block', share_block config t_build' t (with_mix mix r) = Ok block' ∧ block_pow_hash block' = block_pow_hash block.
Proof.
  unfold share_block. intros (b & Hb%map_err_Ok & (m & _ & [= <-])%bind_Ok)%bind_Ok Ht Hmix.
  rewrite (validate_and_build_time _ _ _ _ _ Hb Ht). cbn [map_err mbind result_bind mr_mix_hash with_mix mr_nonce].
  unfold str_is_empty. case_bool_decide as He; [eexists; split; [reflexivity | apply set_mix_pow_hash]|].
  destruct Hmix as [|[h Hh]]; [done|]. rewrite Hh. eexists. split; [reflexivity | apply set_mix_pow_hash].
Qed.

(** A process that knows the job, the difficulties issued and the block. *)
Lemma process_share_settles now t_build t_share t_block upstream saved saved' r a n s job ds block bits :
  mr_protocol r = MINING_PROTOCOL_VERSION → validate_identity config a n = Ok () →
  ps_jobs s !! mr_template_id r = Some job → now < mt_expires_at (pj_template job) →
  default [] (pj_worker_difficulties job !! worker_identity a n) = ds → ds ≠ [] →
  share_block config t_build (pj_template job) r = Ok block →
  hash_to_hex (block_pow_hash block) = str_to_ascii_lowercase (mr_block_hash r) →
  met_difficulty (block_pow_hash block) ds = Ok bits →
  process_share config now t_build t_share t_block upstream saved saved' r a n s =
  settle_share config t_block
    (upstream (MiningSubmitRequest_from_solution (mr_template_id r) (mr_nonce r) (block_pow_hash block) (bh_mix_hash (header block))))
    saved saved' r (pj_template job) (share_of_hash (pj_template job) r a n (block_pow_hash block) bits t_share) s.
Proof.
  intros Hp Hv Hj Ht Hd Hne Hb Hh Hm. unfold process_share. rewrite (bool_decide_true _ Hp). cbn [negb].
  rewrite sr_lift_bind, Hv, sr_get_bind, Hj. cbv zeta. rewrite (proj2 (Z.leb_gt _ _) Ht).
  assert (issued_or_issue config (mr_template_id r) a n job s = (Ok ds, s)) as Hi.
  { unfold issued_or_issue. destruct (_ !! worker_identity a n) as [[|d l]|]; cbn in Hd; subst; done. }
  rewrite (sr_bind_step _ _ _ _ _ Hi), (bool_decide_false _ Hne), sr_lift_bind, Hb, (bool_decide_true _ Hh). cbn [negb].
  by rewrite sr_lift_bind, Hm.
Qed.

Lemma process_share_dup now t_build t_share t_block upstream saved saved' r a n s job ds block bits e :
  mr_protocol r = MINING_PROTOCOL_VERSION → validate_identity config a n = Ok () →
  ps_jobs s !! mr_template_id r = Some job → now < mt_expires_at (pj_template job) →
  default [] (pj_worker_difficulties job !! worker_identity a n) = ds → ds ≠ [] →
  share_block config t_build (pj_template job) r = Ok block →
  hash_to_hex (block_pow_hash block) = str_to_ascii_lowercase (mr_block_hash r) →
  met_difficulty (block_pow_hash block) ds = Ok bits →
  e ∈ pd_shares (sdata s) → sh_hash e = hash_to_hex (block_pow_hash block) →
  process_share config now t_build t_share t_block upstream saved saved' r a n s =
  (Ok (mkResponse MINING_PROTOCOL_VERSION PendingLocal (mr_template_id r) (sh_hash e) None
     (Some "share already recorded (duplicate hash ignored)"%string)), s).
Proof.
  intros Hp Hv Hj Ht Hd Hne Hb Hh Hm Hin He.
  rewrite (process_share_settles _ _ _ _ _ _ _ _ _ _ _ job ds block bits Hp Hv Hj Ht Hd Hne Hb Hh Hm). unfold settle_share.
  match goal with |- context [PoolStore_record_share saved ?sh] =>
    destruct (record_share_again saved sh (ps_store s) e Hin He) as (e' & He' & Er) end.
  rewrite (sr_bind_step _ _ _ _ _ (on_store_eq _ s _ _ Er)). cbn in He' |- *. rewrite He', He. by destruct s.
Qed.

(** A found block is lost when the node cannot be reached: the share is
    recorded before the block is sent upstream, and a hash recorded once is
    answered as a duplicate before the upstream is asked. Once the submission of a
    block failed, or was refused (for a wrong mix hash, which the pool does not
    check), every retry for the job, with any mix hash, is answered "pending" with
    the same words whatever the upstream would say. *)
Theorem unsent_block_is_lost now t_build t_share t_block upstream saved saved' r a n s res s1 :
  0 < st_max_shares (ps_store s) →
  process_share config now t_build t_share t_block upstream saved saved' r a n s = (res, s1) →
  ((∃ m, res = Err (Upstream m)) ∨ ∃ answer, res = Ok answer ∧ ms_status answer = Rejected) →
  ∃ job hash, ps_jobs s !! mr_template_id r = Some job ∧
  ∀ now2 t_build2 t_share2 t_block2 upstream2 saved2 saved2' mix,
    now2 < mt_expires_at (pj_template job) → t_build2 < mt_expires_at (pj_template job) →
    (str_trim mix = ""%string ∨ ∃ h, Hash_from_hex (str_trim mix) = Ok h) →
    process_share config now2 t_build2 t_share2 t_block2 upstream2 saved2 saved2' (with_mix mix r) a n s1 =
    (Ok (mkResponse MINING_PROTOCOL_VERSION PendingLocal (mr_template_id r) hash None
       (Some "share already recorded (duplicate hash ignored)"%string)), s1).
Proof.
  intros Hmax [[_ Hres]|(job & issued & s0 & block & bits & Hp & Hv & Hj & _ & Hi & Hne & Hb & Hh & Hm & Hs)]%process_share_cases Hfail.
  { destruct Hfail as [[m ->]|(ans & -> & Ha)]; [by destruct Hres | congruence]. }
  destruct (issued_or_issue_spec (mr_template_id r) a n job s) as (issued' & s0' & Hi' & Hst & _ & Hjob).
  rewrite Hi in Hi'. injection Hi' as <- <-. destruct (Hjob Hj) as (job1 & Hj1 & Htpl & Hd1).
  apply settle_share_spec in Hs as [(e & resp & _ & _ & _ & -> & Hpl)|(_ & Hs & _ & Hjs)].
  { destruct Hfail as [[m [=]]|(ans & [= <-] & Ha)]. congruence. }
  match type of Hs with _ = keep_last ?mx (_ ++ [?x]) => pose proof (keep_last_In mx (pd_shares (sdata s0)) x) as Hin; set (sh := x) in * end.
  rewrite Hst in Hin, Hs. rewrite <- Hs in Hin. specialize (Hin Hmax).
  exists job, (sh_hash sh). split; [done|]. intros now2 tb2 ts2 tk2 up2 sv2 sv2' mix Hn2 Htb2 Hmix.
  destruct (share_block_mix _ _ _ _ _ _ Hb Htb2 Hmix) as (block2 & Hb2 & Hh2).
  rewrite (process_share_dup _ _ _ _ _ _ _ _ _ _ _ job1 issued block2 bits sh); try done; cbn; rewrite ?Hjs, ?Htpl, ?Hh2; done.
Qed.

End shares.

(** ** How long work lasts *)

Section lasting.
Context `{PrimitivesOk}.
Context (config : PoolConfig).

(** Templates that make the same block. *)
Definition same_block (t t' : MiningTemplate) : Prop :=
  with_share_difficulty None (reissued "" 0 t) = with_share_difficulty None (reissued "" 0 t').

(** The pool can take shares of template [t] at difficulty [bits] from a worker. *)
Definition offers (t : MiningTemplate) (bits : Z) (identity : string) (s : PoolState) : Prop :=
  ∃ job, ps_jobs s !! mt_template_id t = Some job ∧ mt_template_id (pj_template job) = mt_template_id t ∧
    same_block (pj_template job) t ∧ mt_expires_at t <= mt_expires_at (pj_template job) ∧
    bits ∈ default [] (pj_worker_difficulties job !! identity).

(** The node may serve a template again under its id, for the same block and no
    shorter a time. *)
Definition serves_again (t t' : MiningTemplate) : Prop :=
  mt_template_id t' = mt_template_id t → same_block t' t ∧ mt_expires_at t <= mt_expires_at t'.

(** What the server does while [t] has not expired: requests for work, whatever the
    node answers, submitted shares, and whatever leaves the jobs alone (pages,
    payouts, maturity). *)
Inductive pool_step (t : MiningTemplate) (s : PoolState) : PoolState → Prop :=
| step_work ip now fetched a n :
    now < mt_expires_at t → (∀ t', fetched = Ok t' → serves_again t t') →
    pool_step t s (work config ip now fetched a n s).2
| step_submit ip t_admit now t_build t_share t_block t_invalid upstream saved saved' r :
    pool_step t s (submit_share config ip t_admit now t_build t_share t_block t_invalid upstream saved saved' r s).2
| step_other s' : ps_jobs s' = ps_jobs s → pool_step t s s'.

Section offer.
Context (t : MiningTemplate) (bits : Z) (identity : string).

(** A handler keeps the offer. *)
Definition keeps {A} (m : app A) : Prop := ∀ s, offers t bits identity s → offers t bits identity (m s).2.

Lemma offers_jobs s s' : ps_jobs s' = ps_jobs s → offers t bits identity s → offers t bits identity s'.
Proof. unfold offers. by intros ->. Qed.
Lemma keeps_jobs {A} (m : app A) : (∀ s, ps_jobs (m s).2 = ps_jobs s) → keeps m.
Proof. intros Hm s. by apply offers_jobs. Qed.
Lemma keeps_bind {A B} (m : app A) (f : A → app B) : keeps m → (∀ x, keeps (f x)) → keeps (m ≫= f).
Proof.
  intros Hm Hf s Hs. specialize (Hm s Hs). unfold mbind, state_result_bind. destruct (m s) as [[x|e] s1]; cbn in *; [|done].
  by apply Hf.
Qed.
Lemma keeps_get_bind {B} (f : PoolState → app B) :
  (∀ s, offers t bits identity s → offers t bits identity (f s s).2) → keeps (sr_get ≫= f).
Proof. intros Hf s Hs. rewrite sr_get_bind. by apply Hf. Qed.
Lemma keeps_if {A} (b : bool) (m n : app A) : keeps m → keeps n → keeps (if b then m else n).
Proof. by destruct b. Qed.
Lemma keeps_lift {A} (r : result PoolError A) : keeps (sr_lift r).
Proof. by apply keeps_jobs. Qed.
Lemma keeps_ret {A} (x : A) : keeps (mret x).
Proof. by apply keeps_jobs. Qed.
Lemma keeps_admitted {A} (m : state_result AdmissionState PoolError A) : keeps (admitted m).
Proof. apply keeps_jobs. intros s. unfold admitted. by destruct (m _). Qed.

Lemma issue_offers id job identity' bits' s :
  ps_jobs s !! id = Some job → offers t bits identity s →
  offers t bits identity (set_jobs (<[id := issue identity' bits' job]> (ps_jobs s)) s).
Proof.
  intros Hj (job0 & Hj0 & Hid & Hsame & Hexp & Hin). unfold offers. cbn [ps_jobs set_jobs].
  destruct (decide (id = mt_template_id t)) as [->|Hne]; [|rewrite lookup_insert_ne by done; by exists job0].
  rewrite Hj0 in Hj. injection Hj as <-. exists (issue identity' bits' job0). rewrite lookup_insert_eq.
  split_and!; try done. cbn [issue pj_worker_difficulties].
  destruct (decide (identity' = identity)) as [->|]; [|by rewrite lookup_insert_ne].
  rewrite lookup_insert_eq. cbn [from_option default]. case_bool_decide; [done|]. apply elem_of_app. by left.
Qed.

Lemma install_offers t' now s :
  now < mt_expires_at t → serves_again t t' → offers t bits identity s →
  offers t bits identity (install_or_refresh_job (with_share_difficulty None t') now s).
Proof.
  intros Hnow Hagain (job & Hj & Hid & Hsame & Hexp & Hin). unfold install_or_refresh_job, offers.
  cbn [ps_jobs set_current set_jobs mt_template_id with_share_difficulty]. cbv zeta. set (jobs := filter _ (ps_jobs s)).
  assert (jobs !! mt_template_id t = Some job) as Hkept.
  { apply map_lookup_filter_Some. cbn [snd]. split; [done | lia]. }
  destruct (decide (mt_template_id t' = mt_template_id t)) as [Heq|Hne]; [|rewrite lookup_insert_ne by done; by exists job].
  rewrite Heq, lookup_insert_eq, Hkept. destruct (Hagain Heq) as [Hb He]. by eexists.
Qed.

Lemma work_keeps ip now fetched a n :
  now < mt_expires_at t → (∀ t', fetched = Ok t' → serves_again t t') → keeps (work config ip now fetched a n).
Proof.
  intros Hnow Hagain. apply keeps_bind; [apply keeps_lift|]. intros _.
  apply keeps_bind; [apply keeps_admitted|]. intros _. apply keeps_get_bind. intros s Hs. cbv zeta.
  apply keeps_bind; [|intros _|exact Hs].
  - destruct (match live_job_id now s with Some id => _ | None => _ end); [|apply keeps_ret].
    destruct fetched as [t'|e]; [|destruct (is_none _); [apply keeps_lift | apply keeps_ret]].
    intros s' Hs'. cbn. by apply install_offers; [|apply Hagain|].
  - apply keeps_get_bind. intros s' Hs'. apply keeps_bind; [apply keeps_lift | | exact Hs'].
    intros id s2 Hs2. unfold issue_worker_template. destruct (ps_jobs s2 !! id) as [job|] eqn:Ej; [|done].
    by apply issue_offers.
Qed.

Lemma issued_or_issue_keeps id a n job s :
  ps_jobs s !! id = Some job → offers t bits identity s → offers t bits identity (issued_or_issue config id a n job s).2.
Proof.
  intros Hj Hs. unfold issued_or_issue. cbv zeta. destruct (_ !! worker_identity a n) as [[|d ds]|]; [|done|];
    by apply issue_offers.
Qed.

Lemma settle_share_keeps t_block upstream saved saved' r tpl sh :
  keeps (settle_share config t_block upstream saved saved' r tpl sh).
Proof.
  apply keeps_jobs. intros s. destruct (settle_share _ _ _ _ _ _ _ _ s) as [res s'] eqn:E.
  by apply settle_share_spec in E as [(_ & _ & _ & _ & -> & _)|(_ & _ & _ & Hj)].
Qed.

Lemma submit_share_keeps ip t_admit now t_build t_share t_block t_invalid upstream saved saved' r :
  keeps (submit_share config ip t_admit now t_build t_share t_block t_invalid upstream saved saved' r).
Proof.
  unfold submit_share. apply keeps_bind; [apply keeps_lift|]. intros a.
  apply keeps_bind; [apply keeps_lift|]. intros n. cbv zeta. apply keeps_bind; [apply keeps_admitted|]. intros _ s Hs.
  assert (offers t bits identity (process_share config now t_build t_share t_block upstream saved saved' r a n s).2) as Hp.
  { revert s Hs. unfold process_share. apply keeps_if; [apply keeps_lift|]. apply keeps_bind; [apply keeps_lift|]. intros _.
    apply keeps_get_bind. intros s Hs. destruct (ps_jobs s !! mr_template_id r) as [job|] eqn:Ej; [|done]. cbv zeta.
    destruct (_ <=? now); [done|]. pose proof (issued_or_issue_keeps _ a n job s Ej Hs) as Hi. unfold mbind at 1, state_result_bind at 1.
    destruct (issued_or_issue _ _ _ _ _ s) as [[issued|e] s1]; [|done]. cbn [snd] in Hi. revert s1 Hi.
    apply keeps_if; [apply keeps_ret|]. apply keeps_bind; [apply keeps_lift|]. intros block. cbv zeta.
    apply keeps_if; [apply keeps_lift|]. apply keeps_bind; [apply keeps_lift|]. intros best. apply settle_share_keeps. }
  unfold charge_invalid. destruct (process_share _ _ _ _ _ _ _ _ _ _ _ s) as [[resp|[]] s1]; cbn [snd] in *; done.
Qed.

(** Until it expires, work stays on offer to its worker. *)
Lemma work_lasts s s' : offers t bits identity s → rtc (pool_step t) s s' → offers t bits identity s'.
Proof.
  intros Hs. induction 1 as [s|s s1 s2 Hstep _ IH]; [done|]. apply IH. clear IH.
  destruct Hstep as [ip now fetched a n Hnow Hagain | | s1 Hj].
  - by apply work_keeps.
  - by apply submit_share_keeps.
  - by eapply offers_jobs.
Qed.

End offer.

(** Whether a client may submit a share: it is not banned and below the limit of its
    minute. *)
Definition may_submit (now : Z) (c : ClientAdmission) : Prop :=
  cl_banned_until c <= now ∧ cl_share_requests (fresh_window now c) < pc_max_share_requests_per_minute config.

Lemma admit_key_share now key a :
  may_submit now (client_of key a) →
  ∃ c, admit_key config Share now key a = (Ok (), set_clients (<[key := c]> (am_clients a)) a).
Proof.
  intros [Hb Hn]. unfold admit_key. cbv zeta. rewrite (proj2 (Z.ltb_ge _ _) Hb).
  assert (exceeded config Share (count_request Share (fresh_window now (client_of key a))) = false) as ->; [|by eexists].
  unfold exceeded. cbn [count_request cl_share_requests]. rewrite Z.gtb_ltb. apply Z.ltb_ge. unfold saturating_add. lia.
Qed.

Lemma admit_share_keys now keys a :
  NoDup keys → Forall (λ key, may_submit now (client_of key a)) keys →
  ∃ a', admit_request config keys Share None now a = (Ok (), a').
Proof.
  intros Hnd Hmay. unfold admit_request. change (mret ()) with (λ a : AdmissionState, (Ok (E := PoolError) (), a)).
  unfold mbind at 1, state_result_bind at 1. revert a Hmay. induction Hnd as [|key keys Hnew Hnd IH]; intros a Hmay; [by eexists|].
  apply Forall_cons in Hmay as [Hk Hmay]. cbn [sr_each]. destruct (admit_key_share now key a Hk) as [c Hc].
  rewrite (sr_bind_step _ _ _ _ _ Hc). apply IH. rewrite Forall_forall in Hmay |- *. intros k Hin. specialize (Hmay k Hin).
  unfold client_of in *. cbn [set_clients am_clients]. rewrite lookup_insert_ne; [done|]. by intros ->.
Qed.

Lemma admission_keys_NoDup ip a n : NoDup (admission_keys ip a n).
Proof.
  unfold admission_keys. destruct ip; repeat constructor; try (by intros ?%elem_of_nil).
  intros He%list_elem_of_singleton. discriminate He.
Qed.

(** Both ways a client is known may submit. *)
Definition client_may_submit (ip : option string) (now : Z) (a n : string) (s : PoolState) : Prop :=
  Forall (λ key, may_submit now (client_of key (ps_admission s))) (admission_keys ip a n).

(** Past the admission, a share is processed in a state that differs in the
    admission alone. *)
Lemma submit_share_processed ip t_admit now t_build t_share t_block t_invalid upstream saved saved' r a n s res s' :
  mr_miner_address r = Some a → mr_worker_name r = Some n → client_may_submit ip t_admit a n s →
  submit_share config ip t_admit now t_build t_share t_block t_invalid upstream saved saved' r s = (res, s') →
  ∃ am s1, process_share config now t_build t_share t_block upstream saved saved' r a n (on_admission (λ _, am) s) = (res, s1) ∧
    sdata s' = sdata s1.
Proof.
  intros Ha Hn Hmay. unfold submit_share. rewrite Ha, Hn. cbn [ok_or]. rewrite !sr_lift_bind. cbv zeta.
  destruct (admit_share_keys t_admit _ _ (admission_keys_NoDup ip a n) Hmay) as [am Ham].
  assert (admitted (admit_request config (admission_keys ip a n) Share None t_admit) s = (Ok (), on_admission (λ _, am) s)) as E
    by (unfold admitted; by rewrite Ham).
  rewrite (sr_bind_step _ _ _ _ _ E). unfold charge_invalid. intros Hrun. exists am.
  destruct (process_share _ _ _ _ _ _ _ _ _ _ _ _) as [r1 s1]. exists s1. destruct r1 as [resp|[]]; by injection Hrun as <- <-.
Qed.

End lasting.

(** ** Payouts *)

(** A transfer can pay a batch several times over: the check adds the amount
    of every listed hash, and neither it nor the store asks the hashes of a batch
    to differ; those of earlier batches are compared by spelling, while the
    lookup ignores case. One confirmed transfer of [x], listed twice, closes a
    batch owing [2x] as submitted. *)
Theorem transfer_paid_twice hex_decode fetch payout_id h tx i batch to x s :
  prepared_position payout_id (pd_payouts (sdata s)) = Some (i, batch) → po_items batch = [mkItem to (2 * x)] →
  0 <= 2 * x <= umax 64 →
  fetch (str_to_ascii_lowercase (str_trim h)) = Ok tx → ut_to tx = Some to → ut_amount_atomic tx = Some x →
  str_contains (str_to_ascii_lowercase (default ""%string (ut_lifecycle tx))) "pending" = false →
  str_contains (str_to_ascii_lowercase (default ""%string (ut_lifecycle tx))) "mempool" = false →
  default 0 (ut_block_height tx) ≠ 0 → tx_hash_text hex_decode h = true →
  Forall (λ p, h ∉ po_transaction_hashes p) (pd_payouts (sdata s)) →
  ∃ s', confirm_payout hex_decode fetch None payout_id [h; h] s =
      (Ok (mkBatch (po_payout_id batch) (po_created_at batch) Submitted (po_items batch) [h; h]), s') ∧
    account to (pd_accounts (sdata s')) = confirm_item (2 * x) (account to (pd_accounts (sdata s))).
Proof.
  intros Hpos Hit Hx Hf Hto Ham Hpe Hme Hht Hhex Hno.
  assert (∀ m, cover fetch m h = Ok (<[to := saturating_add 64 (default 0 (m !! to)) x]> m)) as Hc.
  { intros m. unfold cover. rewrite Hf. cbn [mbind result_bind]. rewrite Hto, Ham. cbn [ok_or mbind result_bind].
    rewrite Hpe, Hme. cbn [orb]. by rewrite (proj2 (Z.eqb_neq _ _) Hht). }
  unfold confirm_payout. rewrite sr_get_bind, sr_lift_bind, Hpos. cbn [ok_or]. rewrite sr_lift_bind.
  assert (verify_payout_txs_on_chain fetch batch [h; h] = Ok ()) as Hver.
  { unfold verify_payout_txs_on_chain. cbn [bool_decide]. rewrite bool_decide_false by done. cbn [try_fold].
    rewrite Hc. cbn [mbind result_bind]. rewrite Hc. cbn [mbind result_bind]. rewrite Hit.
    apply try_each_Ok, Forall_singleton. unfold check_item. cbn [pi_address pi_amount].
    rewrite !lookup_insert_eq, lookup_empty. unfold default, id. unfold saturating_add in *. rewrite (Z.min_l (0 + x)) by lia.
    rewrite Z.min_l by lia. by rewrite (proj2 (Z.ltb_ge _ _)) by (cbn; lia). }
  cbn [snd]. rewrite Hver. unfold on_store, PoolStore_confirm_payout.
  assert (existsb (λ h', negb (tx_hash_text hex_decode h')) [h; h] = false) as -> by (cbn [existsb]; by rewrite Hhex).
  rewrite bool_decide_false by done. cbn [negb orb].
  assert (existsb (λ p, existsb (λ e, existsb (λ h', bool_decide (h' = e)) [h; h]) (po_transaction_hashes p))
    (pd_payouts (sdata s)) = false) as ->.
  { apply existsb_false_Forall. eapply Forall_impl; [exact Hno|]. cbn beta. intros p Hp.
    apply existsb_false_Forall, Forall_forall. intros e He. cbn [existsb].
    rewrite bool_decide_false by (intros ->; done). done. }
  rewrite Hpos. cbn. eexists. split; [reflexivity|]. cbn. rewrite Hit. cbn. unfold account at 1, on_account.
  by rewrite lookup_insert_eq.
Qed.
