(* ===== verification/IpAddr.v ===== *)
(** The standard library's [IpAddr]: parsing its text ([Ipv4Addr], [Ipv6Addr] of
    [core::net]) and the two classes of addresses the servers ask about.  The
    reader is the library's: a parser takes the rest of the text and gives a
    value and what is left, or nothing. *)

From S2P Require Import Prelude RustStd.

(** [enum IpAddr]: the four octets, or the eight groups. *)
Inductive IpAddr := V4 (octets : list Z) | V6 (groups : list Z).

#[global] Instance IpAddr_eq_dec : EqDecision IpAddr.
Proof. solve_decision. Defined.

Definition is_loopback (ip : IpAddr) : bool :=
  match ip with
  | V4 octets => bool_decide (head octets = Some 127)
  | V6 groups => bool_decide (groups = [0; 0; 0; 0; 0; 0; 0; 1])
  end.

Definition is_unspecified (ip : IpAddr) : bool :=
  match ip with
  | V4 octets => bool_decide (octets = [0; 0; 0; 0])
  | V6 groups => bool_decide (groups = [0; 0; 0; 0; 0; 0; 0; 0])
  end.

Definition reader (A : Type) : Type := bytes → option (A * bytes).

(** [read_given_char] *)
Definition read_char (c : Z) : reader () := λ l,
  match l with b :: l' => if byte_Z b =? c then Some ((), l') else None | [] => None end.

(** [char::to_digit(radix)], radix 10 or 16. *)
Definition to_digit (radix : Z) (b : byte) : option Z :=
  let z := byte_Z b in
  let d := if (48 <=? z) && (z <=? 57) then Some (z - 48)
           else if (97 <=? z) && (z <=? 122) then Some (z - 87)
           else if (65 <=? z) && (z <=? 90) then Some (z - 55) else None in
  match d with Some v => if v <? radix then Some v else None | None => None end.

(** The digits at the front of the text, and the rest. *)
Fixpoint digits_of (radix : Z) (l : bytes) : list Z * bytes :=
  match l with
  | b :: l' =>
      match to_digit radix b with
      | Some d => let '(ds, rest) := digits_of radix l' in (d :: ds, rest)
      | None => ([], l)
      end
  | [] => ([], [])
  end.

(** [read_number(radix, Some(max_digits), allow_zero_prefix)] into [w] bits. *)
Definition read_number (w radix : Z) (max_digits : nat) (allow_zero_prefix : bool) : reader Z := λ l,
  let '(ds, rest) := digits_of radix l in
  let value := foldl (λ acc d, acc * radix + d) 0 ds in
  if (max_digits <? length ds)%nat || (umax w <? value) then None
  else if (length ds =? 0)%nat then None
  else if negb allow_zero_prefix && bool_decide (head ds = Some 0) && (1 <? length ds)%nat then None
  else Some (value, rest).

(** [read_separator]: the separator comes before every element but the first. *)
Definition read_separator {A} (sep : Z) (index : nat) (inner : reader A) : reader A := λ l,
  if (0 <? index)%nat then '(_, l) ← read_char sep l; inner l else inner l.

(** The octets from [index] on. *)
Fixpoint read_octets (count index : nat) : reader (list Z) := λ l,
  match count with
  | O => Some ([], l)
  | S count =>
      '(o, l) ← read_separator 46 index (read_number 8 10 3 false) l;
      '(os, l) ← read_octets count (S index) l;
      Some (o :: os, l)
  end.
Definition read_ipv4_addr : reader (list Z) := read_octets 4 0.

(** [read_groups]: the groups read into the slots from [index] on of [index +
    left], whether they end in an IPv4 address, and the rest. *)
Fixpoint read_groups (left index : nat) (l : bytes) : list Z * bool * bytes :=
  match left with
  | O => ([], false, l)
  | S left' =>
      let ipv4 := if (1 <? left)%nat then read_separator 58 index read_ipv4_addr l else None in
      match ipv4 with
      | Some ([a; b; c; d], l) => ([a * 256 + b; c * 256 + d], true, l)
      | _ =>
          match read_separator 58 index (read_number 16 16 4 true) l with
          | Some (g, l) => let '(gs, v4, l) := read_groups left' (S index) l in (g :: gs, v4, l)
          | None => ([], false, l)
          end
      end
  end.

Definition read_ipv6_addr : reader (list Z) := λ l,
  let '(front, front_ipv4, l) := read_groups 8 0 l in
  if (length front =? 8)%nat then Some (front, l)
  else if (front_ipv4 : bool) then None
  else
    '(_, l) ← read_char 58 l;
    '(_, l) ← read_char 58 l;
    let limit := (8 - (length front + 1))%nat in
    let '(back, _, l) := read_groups limit 0 l in
    Some (front ++ replicate (8 - length front - length back) 0 ++ back, l).

(** [str::parse::<IpAddr>] *)
Definition IpAddr_parse (s : string) : option IpAddr :=
  let l := str_bytes s in
  match read_ipv4_addr l with
  | Some (octets, rest) => if bool_decide (rest = []) then Some (V4 octets) else None
  | None =>
      match read_ipv6_addr l with
      | Some (groups, rest) => if bool_decide (rest = []) then Some (V6 groups) else None
      | None => None
      end
  end.

Example parse_v4 : IpAddr_parse "127.0.0.1" = Some (V4 [127; 0; 0; 1]) ∧ IpAddr_parse "127.0.0.01" = None ∧
  IpAddr_parse "256.0.0.1" = None ∧ IpAddr_parse "1.2.3" = None ∧ IpAddr_parse "localhost" = None.
Proof. vm_compute. done. Qed.

Example parse_v6 : IpAddr_parse "::1" = Some (V6 [0; 0; 0; 0; 0; 0; 0; 1]) ∧
  IpAddr_parse "::" = Some (V6 (replicate 8 0)) ∧ IpAddr_parse "1:2:3:4:5:6:7:8" = Some (V6 [1; 2; 3; 4; 5; 6; 7; 8]) ∧
  IpAddr_parse "::ffff:127.0.0.1" = Some (V6 [0; 0; 0; 0; 0; 65535; 32512; 1]) ∧ IpAddr_parse "1::2::3" = None.
Proof. vm_compute. done. Qed.

(** ** Printing *)

(** [{:x}] of a group. *)
Definition hex_digit (d : Z) : byte := if d <? 10 then byte_of_Z (48 + d) else byte_of_Z (87 + d).
Fixpoint hex_digits (fuel : nat) (z : Z) : bytes :=
  match fuel with
  | O => []
  | S fuel => if z <? 16 then [hex_digit z] else hex_digits fuel (z / 16) ++ [hex_digit (z mod 16)]
  end.
Definition group_text (g : Z) : string := str_of_bytes (hex_digits 4 g).

(** The first longest run of zero groups, as its start and length: [current] is
    the run that ends at the groups still to be read. *)
Fixpoint longest_zeros (i : nat) (current longest : nat * nat) (groups : list Z) : nat * nat :=
  match groups with
  | [] => longest
  | g :: rest =>
      if g =? 0 then
        let current := (if (current.2 =? 0)%nat then i else current.1, S current.2) in
        longest_zeros (S i) current (if (longest.2 <? current.2)%nat then current else longest) rest
      else longest_zeros (S i) (0%nat, 0%nat) longest rest
  end.

Definition join_text (sep : string) (l : list string) : string := String.concat sep l.
Definition octets_text (octets : list Z) : string := join_text "." (uint_to_string <$> octets).
Definition groups_text (groups : list Z) : string := join_text ":" (group_text <$> groups).

(** [Display for IpAddr] *)
Definition IpAddr_fmt (ip : IpAddr) : string :=
  match ip with
  | V4 octets => octets_text octets
  | V6 groups =>
      match groups with
      | [0; 0; 0; 0; 0; 65535; a; b] => ("::ffff:" ++ octets_text [a / 256; a mod 256; b / 256; b mod 256])%string
      | _ =>
          let '(start, len) := longest_zeros 0 (0%nat, 0%nat) (0%nat, 0%nat) groups in
          if (1 <? len)%nat
          then (groups_text (take start groups) ++ "::" ++ groups_text (drop (start + len) groups))%string
          else groups_text groups
      end
  end.

Example print_v6 : IpAddr_fmt (V4 [10; 0; 255; 1]) = "10.0.255.1"%string ∧ IpAddr_fmt (V6 (replicate 8 0)) = "::"%string ∧
  IpAddr_fmt (V6 [8193; 3512; 0; 1; 0; 0; 0; 1]) = "2001:db8:0:1::1"%string ∧
  IpAddr_fmt (V6 [0; 0; 0; 0; 0; 65535; 32512; 1]) = "::ffff:127.0.0.1"%string.
Proof. vm_compute. done. Qed.

(** ** Well-formedness *)

(** What [IpAddr_parse] returns has the shape of an address. *)
Definition ip_wf (ip : IpAddr) : Prop :=
  match ip with
  | V4 octets => length octets = 4%nat ∧ Forall is_u8 octets
  | V6 groups => length groups = 8%nat ∧ Forall is_u16 groups
  end.

Lemma digits_of_nonneg radix l : Forall (λ d, 0 <= d) (digits_of radix l).1.
Proof.
  induction l as [|b l IH]; [constructor|]. cbn [digits_of]. destruct (to_digit radix b) as [d|] eqn:E; [|constructor].
  destruct (digits_of radix l) as [ds rest]. cbn [fst] in *. constructor; [|done].
  unfold to_digit in E. cbv zeta in E.
  assert (∀ lo hi k, (lo <=? byte_Z b) && (byte_Z b <=? hi) = true → k <= lo → 0 <= byte_Z b - k) as Hn
    by (intros lo hi k [?%Z.leb_le _]%andb_true_iff ?; lia).
  destruct ((48 <=? byte_Z b) && (byte_Z b <=? 57)) eqn:E1; [|destruct ((97 <=? byte_Z b) && (byte_Z b <=? 122)) eqn:E2;
    [|destruct ((65 <=? byte_Z b) && (byte_Z b <=? 90)) eqn:E3; [|done]]];
    (destruct (_ <? radix); [|done]); injection E as <-; eapply Hn; try eassumption; lia.
Qed.

Lemma foldl_digits_nonneg radix ds acc :
  0 <= radix → Forall (λ d, 0 <= d) ds → 0 <= acc → 0 <= foldl (λ acc d, acc * radix + d) acc ds.
Proof.
  intros Hr Hd. revert acc. induction Hd as [|d ds Hd0 Hd IH]; intros acc Ha; [done|]. simpl. apply IH.
  pose proof (Z.mul_nonneg_nonneg acc radix Ha Hr). lia.
Qed.

Lemma read_number_range w radix k zero l v rest :
  0 <= radix → read_number w radix k zero l = Some (v, rest) → in_width w v.
Proof.
  intros Hr. unfold read_number. pose proof (digits_of_nonneg radix l) as Hd.
  destruct (digits_of radix l) as [ds r]. cbn [fst] in Hd.
  destruct ((k <? length ds)%nat || _) eqn:E; [done|]. apply orb_false_iff in E as [_ E].
  repeat case_match; intros [= <- _]; try done.
  assert (0 <= foldl (λ acc d, acc * radix + d) 0 ds) as Hn.
  { by apply foldl_digits_nonneg. }
  unfold in_width, umax in *. apply Z.ltb_ge in E. lia.
Qed.

Lemma read_separator_inner {A} sep i (inner : reader A) l r :
  read_separator sep i inner l = Some r → ∃ l', inner l' = Some r.
Proof.
  unfold read_separator. destruct (0 <? i)%nat; [|by eexists].
  destruct (read_char sep l) as [[u l']|]; [|done]. by eexists.
Qed.

Lemma read_octets_wf count index l os rest :
  read_octets count index l = Some (os, rest) → length os = count ∧ Forall is_u8 os.
Proof.
  revert index l os rest. induction count as [|count IH]; intros index l os rest; cbn [read_octets]; [by intros [= <- _]|].
  destruct (read_separator 46 index (read_number 8 10 3 false) l) as [[o l1]|] eqn:E; [|done]. cbn [mbind option_bind].
  destruct (read_octets count (S index) l1) as [[os' l2]|] eqn:E2; [|done]. cbn [mbind option_bind].
  intros [= <- <-]. apply IH in E2 as [Hl Hf]. apply read_separator_inner in E as (l' & E).
  apply read_number_range in E; [|lia]. simpl. split; [lia | by constructor].
Qed.

Lemma read_groups_wf left index l gs v4 rest :
  read_groups left index l = (gs, v4, rest) → (length gs <= left)%nat ∧ Forall is_u16 gs.
Proof.
  revert index l gs v4 rest. induction left as [|left IH]; intros index l gs v4 rest; cbn [read_groups].
  { intros [= <- _ _]. split; [simpl; lia | constructor]. }
  cbv zeta. set (ipv4 := if (1 <? S left)%nat then read_separator 58 index read_ipv4_addr l else None).
  destruct ipv4 as [[os l1]|] eqn:E4.
  - subst ipv4. destruct (1 <? S left)%nat eqn:E1; [|done].
    apply read_separator_inner in E4 as (l' & E4). apply read_octets_wf in E4 as [Hl Hf].
    destruct os as [|a [|b [|c [|d [|]]]]]; try done. intros [= <- _ _].
    rewrite !Forall_cons in Hf. destruct Hf as (? & ? & ? & ? & _). apply Nat.ltb_lt in E1.
    split; [simpl; lia|]. unfold in_width in *. repeat constructor; lia.
  - destruct (read_separator 58 index (read_number 16 16 4 true) l) as [[g l1]|] eqn:E.
    + destruct (read_groups left (S index) l1) as [[gs' v] l2] eqn:E2. intros [= <- _ _].
      apply IH in E2 as [Hl Hf]. apply read_separator_inner in E as (l' & E).
      apply read_number_range in E; [|lia]. simpl. split; [lia | by constructor].
    + intros [= <- _ _]. split; [simpl; lia | constructor].
Qed.

(** Parsing yields well-formed addresses only. *)
Theorem IpAddr_parse_wf s ip : IpAddr_parse s = Some ip → ip_wf ip.
Proof.
  unfold IpAddr_parse. cbv zeta. destruct (read_ipv4_addr (str_bytes s)) as [[os rest]|] eqn:E.
  { case_bool_decide; [|done]. intros [= <-]. by eapply read_octets_wf. }
  destruct (read_ipv6_addr (str_bytes s)) as [[gs rest]|] eqn:E6; [|done].
  case_bool_decide; [|done]. intros [= <-]. unfold read_ipv6_addr in E6.
  destruct (read_groups 8 0 (str_bytes s)) as [[front v4] l] eqn:E1. apply read_groups_wf in E1 as [Hl Hf].
  destruct (length front =? 8)%nat eqn:E8.
  { injection E6 as <- _. by apply Nat.eqb_eq in E8. }
  destruct v4; [done|]. destruct (read_char 58 l) as [[u l1]|]; [|done]. cbn [mbind option_bind] in E6.
  destruct (read_char 58 l1) as [[u' l2]|]; [|done]. cbn [mbind option_bind] in E6.
  destruct (read_groups (8 - (length front + 1)) 0 l2) as [[back v4] l3] eqn:E2.
  apply read_groups_wf in E2 as [Hl2 Hf2]. injection E6 as <- _. apply Nat.eqb_neq in E8. split.
  - rewrite !length_app, length_replicate. lia.
  - apply Forall_app; split; [done|]. apply Forall_app; split; [|done]. apply Forall_replicate. done.
Qed.
