(* ===== verification/PoolSettings.v ===== *)
(** [vireon-mining-pool/src/config.rs]: the pool's configuration file, its
    defaults and its validation.  TOML and the [url] crate's parser are
    arguments. *)

From S2P Require Import Prelude RustStd IpAddr Interfaces Crypto Errors Network Signing Address MinerWork Pool PoolApp.

(** [struct PoolConfig]: every field. *)
Record PoolSettings := {
  pf_bind_host : string;
  pf_bind_port : Z;
  pf_network_id : string;
  pf_status_label : string;
  pf_pool_name : string;
  pf_pool_address : string;
  pf_upstream_rpc_url : string;
  pf_public_url : string;
  pf_data_dir : string;
  pf_admin_token_file : string;
  pf_share_bits : Z;
  pf_vardiff_enabled : bool;
  pf_min_share_bits : Z;
  pf_max_share_bits : Z;
  pf_target_share_seconds : Z;
  pf_vardiff_window_shares : Z;
  pf_share_network_gap_bits : Z;
  pf_pool_fee_basis_points : Z;
  pf_pplns_window_shares : Z;
  pf_block_maturity_confirmations : Z;
  pf_minimum_payout_atomic : Z;
  pf_job_cache_seconds : Z;
  pf_hashrate_window_seconds : Z;
  pf_worker_timeout_seconds : Z;
  pf_max_stored_shares : Z;
  pf_max_workers_per_address : Z;
  pf_max_work_requests_per_minute : Z;
  pf_max_share_requests_per_minute : Z;
  pf_invalid_share_ban_threshold : Z;
  pf_ban_seconds : Z;
  pf_cors_allowed_origins : list string;
  pf_allow_public_pool_prototype : bool;
}.

(** The part of it the handlers read. *)
Definition handler_config (s : PoolSettings) : PoolConfig := {|
  pc_network_id := pf_network_id s;
  pc_pool_address := pf_pool_address s;
  pc_share_bits := pf_share_bits s;
  pc_vardiff_enabled := pf_vardiff_enabled s;
  pc_min_share_bits := pf_min_share_bits s;
  pc_max_share_bits := pf_max_share_bits s;
  pc_target_share_seconds := pf_target_share_seconds s;
  pc_vardiff_window_shares := pf_vardiff_window_shares s;
  pc_share_network_gap_bits := pf_share_network_gap_bits s;
  pc_pool_fee_basis_points := pf_pool_fee_basis_points s;
  pc_pplns_window_shares := pf_pplns_window_shares s;
  pc_block_maturity_confirmations := pf_block_maturity_confirmations s;
  pc_minimum_payout_atomic := pf_minimum_payout_atomic s;
  pc_job_cache_seconds := pf_job_cache_seconds s;
  pc_worker_timeout_seconds := pf_worker_timeout_seconds s;
  pc_max_workers_per_address := pf_max_workers_per_address s;
  pc_max_work_requests_per_minute := pf_max_work_requests_per_minute s;
  pc_max_share_requests_per_minute := pf_max_share_requests_per_minute s;
  pc_invalid_share_ban_threshold := pf_invalid_share_ban_threshold s;
  pc_ban_seconds := pf_ban_seconds s |}.

(** ** The defaults of missing fields *)

Definition default_vardiff_enabled : bool := true.
Definition default_min_share_difficulty : Z := 16.
Definition default_max_share_difficulty : Z := 28.
Definition default_target_share_seconds : Z := 15.
Definition default_vardiff_window_shares : Z := 16.
Definition default_share_network_gap : Z := 4.
Definition default_job_cache_seconds : Z := 15.
Definition default_hashrate_window_seconds : Z := 60.
Definition default_worker_timeout_seconds : Z := 120.
Definition default_max_shares : Z := 100000.
Definition default_max_workers_per_address : Z := 64.
Definition default_work_requests_per_minute : Z := 240.
Definition default_share_requests_per_minute : Z := 600.
Definition default_invalid_share_ban_threshold : Z := 20.
Definition default_ban_seconds : Z := 600.

(** ** Validation *)

Section validate.
Context `{Primitives}.

(** [url_scheme]: the scheme of a URL the [url] crate parses, or its error. *)
Definition pool_config_validate (url_scheme : string → result string string) (s : PoolSettings) : result PoolError () :=
  bind ← ok_or (Config "bind_host must be a literal IP") (IpAddr_parse (pf_bind_host s));
  let loopback := is_loopback bind in
  if negb loopback && negb (pf_allow_public_pool_prototype s)
  then Err (Config "non-loopback bind requires allow_public_pool_prototype = true (Prototype only; not a public production pool)") else
  if (is_unspecified bind || negb loopback) && negb (is_prefix (str_bytes "https://") (str_bytes (pf_public_url s)))
  then Err (Config "public bind requires an HTTPS public_url") else
  if negb (bool_decide (pf_network_id s = "veiron-mainnet-candidate"%string))
  then Err (Config "pool currently supports veiron-mainnet-candidate only") else
  address ← map_err (λ e, Config ("invalid pool_address: " ++ VireonError_fmt e)%string) (Address_parse (pf_pool_address s));
  if negb (bool_decide (network_id (addr_network address) = pf_network_id s))
  then Err (Config "pool_address belongs to another network") else
  scheme ← map_err (λ e, Config ("invalid upstream_rpc_url: " ++ e)%string) (url_scheme (pf_upstream_rpc_url s));
  if negb (bool_decide (scheme = "http"%string) || bool_decide (scheme = "https"%string))
  then Err (Config "upstream_rpc_url must use HTTP or HTTPS") else
  if pf_pool_fee_basis_points s >? 1000 then Err (Config "pool fee cannot exceed 10 percent") else
  if (pf_min_share_bits s >? pf_share_bits s) || (pf_share_bits s >? pf_max_share_bits s) || (pf_max_share_bits s >? 63)
  then Err (Config "share difficulty must be between the VarDiff minimum and maximum") else
  if (pf_share_network_gap_bits s =? 0) || (pf_share_network_gap_bits s >? 16)
  then Err (Config "share_network_gap_bits must be 1..=16 (share target easier than network)") else
  if (pf_pplns_window_shares s =? 0) || (pf_block_maturity_confirmations s =? 0) || (pf_minimum_payout_atomic s =? 0)
     || (pf_max_stored_shares s <? pf_pplns_window_shares s) || (pf_target_share_seconds s =? 0)
     || (pf_vardiff_window_shares s <? 4) || (pf_max_workers_per_address s =? 0)
     || (pf_max_work_requests_per_minute s =? 0) || (pf_max_share_requests_per_minute s =? 0)
     || (pf_invalid_share_ban_threshold s =? 0) || (pf_ban_seconds s =? 0)
     || (pf_hashrate_window_seconds s =? 0) || (pf_job_cache_seconds s =? 0)
  then Err (Config "PPLNS, maturity, payout and storage limits must be positive and coherent") else Ok ().

(** [load]: [raw] is the outcome of reading the file, [parse] of the TOML. *)
Definition pool_config_load {Raw} (url_scheme : string → result string string) (parse : Raw → result string PoolSettings)
    (path : string) (raw : result string Raw) : result PoolError PoolSettings :=
  text ← map_err (λ e, Config ("cannot read " ++ path ++ ": " ++ e)%string) raw;
  config ← map_err (λ e, Config ("invalid " ++ path ++ ": " ++ e)%string) (parse text);
  _ ← pool_config_validate url_scheme config;
  Ok config.

(** ** What a validated configuration guarantees *)

Record pool_config_ok (s : PoolSettings) : Prop := {
  po_bind : ∃ ip, IpAddr_parse (pf_bind_host s) = Some ip ∧
    (is_loopback ip = true ∨
     pf_allow_public_pool_prototype s = true ∧ is_prefix (str_bytes "https://") (str_bytes (pf_public_url s)) = true);
  po_network : pf_network_id s = network_id MainnetCandidate;
  po_address : ∃ a, Address_parse (pf_pool_address s) = Ok a ∧ addr_network a = MainnetCandidate;
  po_fee : pf_pool_fee_basis_points s <= 1000;
  po_bits : pf_min_share_bits s <= pf_share_bits s <= pf_max_share_bits s ∧ pf_max_share_bits s <= 63;
  po_gap : pf_share_network_gap_bits s ≠ 0 ∧ pf_share_network_gap_bits s <= 16;
  po_shares : pf_pplns_window_shares s ≠ 0 ∧ pf_pplns_window_shares s <= pf_max_stored_shares s;
  po_positive : Forall (λ z, z ≠ 0) [pf_block_maturity_confirmations s; pf_minimum_payout_atomic s;
    pf_target_share_seconds s; pf_max_workers_per_address s; pf_max_work_requests_per_minute s;
    pf_max_share_requests_per_minute s; pf_invalid_share_ban_threshold s; pf_ban_seconds s;
    pf_hashrate_window_seconds s; pf_job_cache_seconds s];
  po_window : 4 <= pf_vardiff_window_shares s;
}.

Lemma unspecified_not_loopback ip : is_unspecified ip = true → is_loopback ip = false.
Proof.
  destruct ip as [o|g]; unfold is_unspecified, is_loopback; intros ->%bool_decide_eq_true; by apply bool_decide_eq_false.
Qed.

(** Validation accepts exactly the configurations that satisfy the conditions (and
    whose upstream URL is HTTP): a public bind only with the explicit flag and an
    HTTPS URL, an address of the network, bounded fees and difficulties, and
    limits that are positive and coherent. *)
Theorem pool_config_validate_iff url_scheme s :
  pool_config_validate url_scheme s = Ok () ↔
  pool_config_ok s ∧ (url_scheme (pf_upstream_rpc_url s) = Ok "http"%string ∨ url_scheme (pf_upstream_rpc_url s) = Ok "https"%string).
Proof.
  assert (∀ n, network_id n = network_id MainnetCandidate ↔ n = MainnetCandidate) as Hnet by (intros []; done).
  unfold pool_config_validate. rewrite bind_Ok. setoid_rewrite ok_or_Ok. cbv zeta.
  split.
  - intros (ip & Hip & Hv). rewrite !if_Err_Ok, negb_false_iff, bool_decide_eq_true in Hv.
    destruct Hv as (Hflag & Hurl & Hid & (a & Ha%map_err_Ok & Hv)%bind_Ok).
    rewrite if_negb_Err_Ok, bool_decide_eq_true in Hv. destruct Hv as (Han & (sch & Hs%map_err_Ok & Hv)%bind_Ok).
    rewrite !if_Err_Ok, negb_false_iff, orb_true_iff, !bool_decide_eq_true in Hv.
    destruct Hv as (Hsch & Hfee & Hbits & Hgap & Hpos & _). rewrite !orb_false_iff in Hbits, Hgap, Hpos.
    rewrite Hid in Han. apply Hnet in Han. split; [|destruct Hsch; subst; auto].
    split; try (breflect; lia || done).
    + exists ip. split; [done|]. destruct (is_loopback ip) eqn:El; [by left|]. right. cbn [negb andb] in *.
      rewrite orb_true_r in Hurl. by destruct (pf_allow_public_pool_prototype s), (is_prefix _ _).
    + by exists a.
    + breflect. repeat constructor; lia.
  - intros [[(ip & Hip & Hb) Hid (a & Ha & Han) Hfee Hbits Hgap Hsh Hpos Hw] Hsch]. exists ip. split; [done|].
    rewrite !if_Err_Ok, negb_false_iff, bool_decide_eq_true.
    assert (∃ sch, url_scheme (pf_upstream_rpc_url s) = Ok sch ∧ (sch = "http"%string ∨ sch = "https"%string))
      as (sch & Hs & Hsch') by (destruct Hsch; eauto).
    split_and!; [| |done|].
    + destruct Hb as [-> |[-> _]]; [done | by rewrite andb_false_r].
    + destruct Hb as [Hl|[_ ->]]; [|by rewrite andb_false_r].
      destruct (is_unspecified ip) eqn:Eu; [by rewrite (unspecified_not_loopback ip Eu) in Hl | by rewrite Hl].
    + rewrite Ha. cbn [map_err mbind result_bind]. rewrite if_negb_Err_Ok, bool_decide_eq_true, Han, Hid.
      split; [done|]. rewrite Hs. cbn [map_err mbind result_bind].
      rewrite !if_Err_Ok, negb_false_iff, orb_true_iff, !bool_decide_eq_true, !orb_false_iff.
      rewrite !Forall_cons in Hpos. rewrite !Z.gtb_ltb, !Z.ltb_ge, !Z.eqb_neq. naive_solver lia.
Qed.

End validate.
