(* ===== verification/Seed.v ===== *)
(** [vireon-core/src/seed.rs] and the wallet records of [standards.rs]: BIP39
    phrases, hardened derivation paths and the SLIP-0010 derivation of ed25519
    keys.  The [bip39] and [hmac] crates are operations of a typeclass. *)

From S2P Require Import Prelude RustStd Interfaces Crypto Errors Network Signing.

(** * The published standards *)

Definition KEY_DERIVATION_RULE : string :=
  "raw ed25519 signing seed -> ed25519 public key -> Bech32m address payload".
Definition HD_DERIVATION_DIRECTION : string :=
  "SLIP-0010 ed25519 with BIP44-compatible all-hardened account paths".
Definition HD_DERIVATION_SCHEME : string := "BIP39 mnemonic -> BIP39 seed -> SLIP-0010 ed25519".
Definition HD_COIN_TYPE_POLICY : string :=
  "coin_type 7330 is the current provisional launch constant until a final SLIP-44 assignment exists".
Definition HD_DERIVATION_PATH_TEMPLATE : string := "m/44'/7330'/account'/change'/address_index'".
Definition HD_DERIVATION_PATH_POLICY : string := "all path segments are hardened for ed25519 compatibility".
Definition WALLET_SEED_POLICY_STATUS : string := "Frozen launch wallet seed and derivation rule under TM-111".
Definition MNEMONIC_LANGUAGE : string := "English".
Definition MNEMONIC_WORD_COUNTS : string := "12 or 24 words".
Definition MNEMONIC_PASSPHRASE_POLICY : string :=
  "BIP39 passphrase supported and optional; empty string is the default".

(** [struct WalletSeedStandard] *)
Record WalletSeedStandard := {
  ws_standard_id : string;
  ws_mnemonic_language : string;
  ws_mnemonic_word_counts : string;
  ws_mnemonic_passphrase_policy : string;
  ws_derivation_scheme : string;
  ws_derivation_path_template : string;
  ws_derivation_path_policy : string;
  ws_coin_type : Z;
  ws_coin_type_policy : string;
}.

(** [struct KeyDerivationPolicy] *)
Record KeyDerivationPolicy := {
  kd_policy_id : string;
  kd_direct_key_rule : string;
  kd_wallet_seed_standard_id : string;
  kd_hd_derivation_direction : string;
  kd_hd_derivation_scheme : string;
  kd_hd_derivation_path_template : string;
  kd_hd_derivation_path_policy : string;
  kd_hd_derivation_coin_type : Z;
  kd_hd_coin_type_policy : string;
  kd_mnemonic_language : string;
  kd_mnemonic_word_counts : string;
  kd_mnemonic_passphrase_policy : string;
  kd_wallet_seed_policy_status : string;
}.

Definition launch_wallet_seed_standard : WalletSeedStandard := {|
  ws_standard_id := WALLET_SEED_STANDARD_ID;
  ws_mnemonic_language := MNEMONIC_LANGUAGE;
  ws_mnemonic_word_counts := MNEMONIC_WORD_COUNTS;
  ws_mnemonic_passphrase_policy := MNEMONIC_PASSPHRASE_POLICY;
  ws_derivation_scheme := HD_DERIVATION_SCHEME;
  ws_derivation_path_template := HD_DERIVATION_PATH_TEMPLATE;
  ws_derivation_path_policy := HD_DERIVATION_PATH_POLICY;
  ws_coin_type := HD_DERIVATION_COIN_TYPE;
  ws_coin_type_policy := HD_COIN_TYPE_POLICY |}.

Definition launch_key_derivation_policy : KeyDerivationPolicy := {|
  kd_policy_id := KEY_DERIVATION_POLICY_ID;
  kd_direct_key_rule := KEY_DERIVATION_RULE;
  kd_wallet_seed_standard_id := WALLET_SEED_STANDARD_ID;
  kd_hd_derivation_direction := HD_DERIVATION_DIRECTION;
  kd_hd_derivation_scheme := HD_DERIVATION_SCHEME;
  kd_hd_derivation_path_template := HD_DERIVATION_PATH_TEMPLATE;
  kd_hd_derivation_path_policy := HD_DERIVATION_PATH_POLICY;
  kd_hd_derivation_coin_type := HD_DERIVATION_COIN_TYPE;
  kd_hd_coin_type_policy := HD_COIN_TYPE_POLICY;
  kd_mnemonic_language := MNEMONIC_LANGUAGE;
  kd_mnemonic_word_counts := MNEMONIC_WORD_COUNTS;
  kd_mnemonic_passphrase_policy := MNEMONIC_PASSPHRASE_POLICY;
  kd_wallet_seed_policy_status := WALLET_SEED_POLICY_STATUS |}.

(** * Paths *)

(** [enum MnemonicWordCount] *)
Inductive MnemonicWordCount := Twelve | TwentyFour.

Definition word_count_as_usize (c : MnemonicWordCount) : Z :=
  match c with Twelve => 12 | TwentyFour => 24 end.

Definition word_count_from_u16 (value : Z) : Result MnemonicWordCount :=
  if value =? 12 then Ok Twelve
  else if value =? 24 then Ok TwentyFour
  else Err (InvalidMnemonic ("unsupported mnemonic word count " ++ uint_to_string value
         ++ "; expected 12 or 24")%string).

(** [struct WalletDerivationPath] *)
Record WalletDerivationPath := mkPath { path_account : Z; path_change : Z; path_index : Z }.

Definition path_wf (p : WalletDerivationPath) : Prop :=
  is_u32 (path_account p) ∧ is_u32 (path_change p) ∧ is_u32 (path_index p).

Definition WalletDerivationPath_default : WalletDerivationPath := mkPath 0 0 0.

(** [Display for WalletDerivationPath] *)
Definition path_to_string (p : WalletDerivationPath) : string :=
  ("m/" ++ uint_to_string HD_DERIVATION_PURPOSE ++ "'/" ++ uint_to_string HD_DERIVATION_COIN_TYPE
   ++ "'/" ++ uint_to_string (path_account p) ++ "'/" ++ uint_to_string (path_change p)
   ++ "'/" ++ uint_to_string (path_index p) ++ "'")%string.

Definition SLIP10_MASTER_KEY : bytes := str_bytes "ed25519 seed".
Definition HARDENED_OFFSET : Z := Z.shiftl 1 31.

Definition hardened (index : Z) : Result Z :=
  ok_or (InvalidDerivationPath ("path segment " ++ uint_to_string index ++ " is too large")%string)
    (checked_add 32 index HARDENED_OFFSET).

Definition hardened_segments (p : WalletDerivationPath) : Result (list Z) :=
  purpose ← hardened HD_DERIVATION_PURPOSE;
  coin ← hardened HD_DERIVATION_COIN_TYPE;
  account ← hardened (path_account p);
  change ← hardened (path_change p);
  index ← hardened (path_index p);
  Ok [purpose; coin; account; change; index].

(** * Third-party code *)

(** The [bip39] crate's English phrases, and HMAC-SHA512. *)
Class SeedPrimitives := {
  Mnemonic : Type;
  mnemonic_to_string : Mnemonic → string;
  mnemonic_parse : string → result string Mnemonic;
  mnemonic_to_seed : Mnemonic → string → bytes;
  hmac_sha512 : bytes → bytes → result string bytes;
}.

(** Printing a phrase and parsing it gives it back; HMAC takes keys of any length
    and gives 64 bytes. *)
Class SeedPrimitivesOk `{SeedPrimitives} : Prop := {
  mnemonic_parse_to_string m : mnemonic_parse (mnemonic_to_string m) = Ok m;
  hmac_sha512_ok key data : ∃ digest, hmac_sha512 key data = Ok digest ∧ length digest = 64%nat;
}.

(** * Derivation *)

(** [struct DerivedNode] *)
Record DerivedNode := mkDerived { dn_key : bytes; dn_chain_code : bytes }.

Section seed.
Context `{SeedPrimitives}.

(** The phrase the random generator drew, or its error, is the argument. *)
Definition generate_mnemonic (drawn : Z → result string Mnemonic) (word_count : MnemonicWordCount)
    : Result string :=
  m ← map_err InvalidMnemonic (drawn (word_count_as_usize word_count));
  Ok (mnemonic_to_string m).

Definition normalize_mnemonic (phrase : string) : Result string :=
  m ← map_err InvalidMnemonic (mnemonic_parse phrase);
  Ok (mnemonic_to_string m).

Definition derive_node (key data : bytes) : Result DerivedNode :=
  digest ← map_err InvalidDerivationPath (hmac_sha512 key data);
  Ok (mkDerived (take 32 digest) (drop 32 digest)).

Definition derive_master_node (seed : bytes) : Result DerivedNode := derive_node SLIP10_MASTER_KEY seed.

(** The 37 bytes of a hardened child: a zero, the key, the index. *)
Definition child_data (node : DerivedNode) (index : Z) : bytes :=
  byte_of_Z 0 :: dn_key node ++ be_bytes 4 index.

Definition derive_child_node (node : DerivedNode) (index : Z) : Result DerivedNode :=
  derive_node (dn_chain_code node) (child_data node index).

(** [derive_private_key_from_mnemonic], behind [PrivateKey::from_mnemonic]. *)
Definition derive_private_key_from_mnemonic (phrase passphrase : string) (p : WalletDerivationPath)
    : Result PrivateKey :=
  m ← map_err InvalidMnemonic (mnemonic_parse phrase);
  let seed := mnemonic_to_seed m passphrase in
  master ← derive_master_node seed;
  segments ← hardened_segments p;
  node ← try_fold derive_child_node master segments;
  Ok (dn_key node).

End seed.

(** * Lemmas *)

Lemma hardened_Ok i x : 0 <= i → hardened i = Ok x ↔ x = i + 2 ^ 31 ∧ i < 2 ^ 31.
Proof.
  intros Hi. unfold hardened. rewrite ok_or_Ok, checked_add_iff.
  change HARDENED_OFFSET with (2 ^ 31). unfold umax. lia.
Qed.

(** A path derives when its three free segments are below the hardened offset;
    its segments then are the five indices, all hardened. *)
Lemma hardened_segments_Ok p l :
  path_wf p →
  hardened_segments p = Ok l ↔
  (path_account p < 2 ^ 31 ∧ path_change p < 2 ^ 31 ∧ path_index p < 2 ^ 31) ∧
  l = (λ i, i + 2 ^ 31) <$> [HD_DERIVATION_PURPOSE; HD_DERIVATION_COIN_TYPE; path_account p;
                              path_change p; path_index p].
Proof.
  intros ([Ha _] & [Hc _] & [Hi _]). unfold hardened_segments.
  rewrite bind_Ok. setoid_rewrite bind_Ok. setoid_rewrite bind_Ok.
  setoid_rewrite bind_Ok. setoid_rewrite bind_Ok.
  repeat setoid_rewrite hardened_Ok; try done.
  split.
  - intros (? & [-> _] & ? & [-> _] & ? & [-> ?] & ? & [-> ?] & ? & [-> ?] & [= <-]). by split_and!.
  - intros ((? & ? & ?) & ->). do 5 (eexists; split; [split; [reflexivity|done]|]). done.
Qed.

Lemma uint_bytes_no_quote z : 0 <= z → byte_of_Z 39 ∉ uint_bytes z.
Proof.
  intros Hz (d & Hd & Hin)%list_elem_of_fmap.
  pose proof (proj1 (Forall_forall _ _) (dec_digits_range 39 z Hz) d Hin) as Hr.
  cbn beta in Hr. pose proof (byte_Z_digit_byte d Hr) as Hb. rewrite <- Hd in Hb.
  change (byte_Z (byte_of_Z 39)) with 39 in Hb. cbn beta in Hr. lia.
Qed.

Lemma str_bytes_app s t : str_bytes (s ++ t) = str_bytes s ++ str_bytes t.
Proof. induction s as [|c s IH]; [done|]. exact (f_equal (cons _) IH). Qed.

Lemma str_bytes_uint z : str_bytes (uint_to_string z) = uint_bytes z.
Proof. apply str_bytes_of_bytes. Qed.

Lemma uint_bytes_inj a b : is_u32 a → is_u32 b → uint_bytes a = uint_bytes b → a = b.
Proof.
  intros [Ha Ha'] [Hb Hb'] He.
  pose proof (parse_uint_bytes_dec 32 a) as Pa. pose proof (parse_uint_bytes_dec 32 b) as Pb.
  unfold umax in *. rewrite He, Pb in Pa by lia. specialize (Pa ltac:(lia) ltac:(lia)). congruence.
Qed.

(** The text of a path, cut at its quotes. *)
Lemma path_text_split p :
  path_wf p →
  split_on (byte_of_Z 39) (str_bytes (path_to_string p)) =
  str_bytes "m/44" :: str_bytes "/7330" :: (byte_of_Z 47 :: uint_bytes (path_account p)) ::
    (byte_of_Z 47 :: uint_bytes (path_change p)) :: (byte_of_Z 47 :: uint_bytes (path_index p)) :: [[]].
Proof.
  intros ([Ha _] & [Hc _] & [Hi _]).
  assert (∀ z, 0 <= z → byte_of_Z 39 ∉ byte_of_Z 47 :: uint_bytes z) as Hq.
  { intros z Hz [He|Hin]%elem_of_cons; [by vm_compute in He | by apply (uint_bytes_no_quote z Hz)]. }
  assert (str_bytes (path_to_string p) =
    str_bytes "m/44" ++ byte_of_Z 39 :: str_bytes "/7330" ++ byte_of_Z 39 ::
    (byte_of_Z 47 :: uint_bytes (path_account p)) ++ byte_of_Z 39 ::
    (byte_of_Z 47 :: uint_bytes (path_change p)) ++ byte_of_Z 39 ::
    (byte_of_Z 47 :: uint_bytes (path_index p)) ++ byte_of_Z 39 :: []) as ->.
  { unfold path_to_string. rewrite !str_bytes_app, !str_bytes_uint. reflexivity. }
  assert (byte_of_Z 39 ∉ str_bytes "m/44") as H1 by (apply (bool_decide_unpack _); vm_compute; done).
  assert (byte_of_Z 39 ∉ str_bytes "/7330") as H2 by (apply (bool_decide_unpack _); vm_compute; done).
  rewrite !split_on_app by auto. done.
Qed.

(** Two derivation paths with one text are equal: the path a wallet file records
    says which key it holds. *)
Theorem path_text_injective p q :
  path_wf p → path_wf q → path_to_string p = path_to_string q → p = q.
Proof.
  intros Hp Hq He. pose proof (path_text_split p Hp) as Sp. rewrite He, (path_text_split q Hq) in Sp.
  injection Sp as Ha Hc Hi. destruct p, q, Hp as (? & ? & ?), Hq as (? & ? & ?).
  f_equal; apply uint_bytes_inj; done.
Qed.

Lemma path_text_injective_witness :
  path_to_string (mkPath 0 0 1) = "m/44'/7330'/0'/0'/1'"%string ∧
  (path_to_string (mkPath 0 0 1) = path_to_string (mkPath 0 0 1) → mkPath 0 0 1 = mkPath 0 0 1).
Proof.
  split; [by vm_compute | apply path_text_injective; vm_compute; split_and!; done].
Defined.

Section derivation.
Context `{SeedPrimitivesOk}.

Lemma derive_node_Ok key data :
  ∃ n, derive_node key data = Ok n ∧ length (dn_key n) = PrivateKey_SIZE ∧ length (dn_chain_code n) = 32%nat.
Proof.
  unfold derive_node. destruct (hmac_sha512_ok key data) as (d & -> & Hl). eexists; split; [done|].
  simpl. by rewrite length_take, length_drop, Hl.
Qed.

Lemma derive_children_Ok l n :
  length (dn_key n) = PrivateKey_SIZE →
  ∃ n', try_fold derive_child_node n l = Ok n' ∧ length (dn_key n') = PrivateKey_SIZE.
Proof.
  revert n. induction l as [|i l IH]; intros n Hn; [by exists n|].
  destruct (derive_node_Ok (dn_chain_code n) (child_data n i)) as (n1 & E & Hk & _).
  destruct (IH n1 Hk) as (n2 & E2 & Hk2). exists n2. split; [|done].
  cbn [try_fold]. unfold mbind. change (derive_child_node n i) with (derive_node (dn_chain_code n) (child_data n i)).
  by rewrite E.
Qed.

(** Derivation from a phrase succeeds exactly when the phrase is a valid one and
    the free segments of the path are below the hardened offset; it then gives a
    32-byte key. *)
Theorem from_mnemonic_iff phrase passphrase p :
  path_wf p →
  (∃ sk, derive_private_key_from_mnemonic phrase passphrase p = Ok sk) ↔
  (∃ m, mnemonic_parse phrase = Ok m) ∧
  path_account p < 2 ^ 31 ∧ path_change p < 2 ^ 31 ∧ path_index p < 2 ^ 31.
Proof.
  intros Hp. unfold derive_private_key_from_mnemonic. split.
  - intros (sk & (m & Hm%map_err_Ok & (n & _ & (l & Hl & _)%bind_Ok)%bind_Ok)%bind_Ok).
    apply hardened_segments_Ok in Hl as (? & _); [|done]. split; [by exists m | done].
  - intros ((m & Hm) & Hlt). rewrite Hm. cbn [map_err mbind result_bind].
    destruct (derive_node_Ok SLIP10_MASTER_KEY (mnemonic_to_seed m passphrase)) as (n & E & Hk & _).
    unfold derive_master_node. rewrite E. cbn [mbind result_bind].
    rewrite (proj2 (hardened_segments_Ok p _ Hp) (conj Hlt eq_refl)). cbn [mbind result_bind].
    destruct (derive_children_Ok ((λ i, i + 2 ^ 31) <$> [HD_DERIVATION_PURPOSE; HD_DERIVATION_COIN_TYPE;
      path_account p; path_change p; path_index p]) n Hk) as (n' & E' & _).
    rewrite E'. cbn [mbind result_bind]. by eexists.
Qed.

Lemma from_mnemonic_length phrase passphrase p sk :
  derive_private_key_from_mnemonic phrase passphrase p = Ok sk → length sk = PrivateKey_SIZE.
Proof.
  unfold derive_private_key_from_mnemonic.
  intros (m & _ & (n & Hn & (l & _ & (n' & Hn' & [= <-])%bind_Ok)%bind_Ok)%bind_Ok)%bind_Ok.
  unfold derive_master_node in Hn.
  destruct (derive_node_Ok SLIP10_MASTER_KEY (mnemonic_to_seed m passphrase)) as (n0 & E & Hk & _).
  rewrite E in Hn. injection Hn as <-.
  destruct (derive_children_Ok l n0 Hk) as (n1 & E1 & Hk1). rewrite E1 in Hn'. by injection Hn' as <-.
Qed.

(** What [generate_mnemonic] returns is a valid phrase, already normal. *)
Lemma generate_mnemonic_valid drawn c phrase :
  generate_mnemonic drawn c = Ok phrase →
  ∃ m, mnemonic_parse phrase = Ok m ∧ normalize_mnemonic phrase = Ok phrase.
Proof.
  unfold generate_mnemonic, normalize_mnemonic. intros (m & _ & [= <-])%bind_Ok.
  exists m. by rewrite mnemonic_parse_to_string.
Qed.

End derivation.
