(* ===== verification/Spend.v ===== *)
(** What a signed spend gives its sender: the shape of the transaction
    [Transaction::new_signed] builds, that it verifies, and that a node whose
    pool is empty takes it when the ledger allows it.  Shared by the wallet and
    the SDK. *)

From S2P Require Import Prelude RustStd Interfaces Crypto Errors Network Amount Signing Address Transaction Block Consensus State Ledger Chain NodeConfig Mempool Node.

Section spend.
Context `{PrimitivesOk}.

Abbreviation sender_address sk n :=
  (Address_to_string (from_public_key_for_network (PrivateKey_public_key sk) n)) (only parsing).

(** The transaction [new_signed] builds. *)
Definition signed_spend (version nonce : Z) (n : Network) (sk : PrivateKey) (to : string)
    (amount max_fee priority_fee : Amount) (memo : option Hash) : Transaction :=
  let unsigned := mkTransaction version nonce (Some (sender_address sk n)) to amount max_fee priority_fee
    memo None None in
  set_authorization (PrivateKey_public_key sk) (PrivateKey_sign sk (unsigned_payload_bytes unsigned)) unsigned.

Lemma sender_address_parse sk n :
  length sk = PrivateKey_SIZE →
  Address_parse (sender_address sk n) = Ok (from_public_key_for_network (PrivateKey_public_key sk) n).
Proof. intros Hsk. by apply Address_parse_to_string, from_public_key_wf, public_key_wf. Qed.

Lemma new_signed_Ok version nonce n sk to amount max_fee priority_fee memo tx :
  length sk = PrivateKey_SIZE →
  Transaction_new_signed version nonce n sk to amount max_fee priority_fee memo = Ok tx →
  tx = signed_spend version nonce n sk to amount max_fee priority_fee memo ∧ validate_shape tx = Ok ().
Proof.
  intros Hsk. unfold Transaction_new_signed, Transaction_new. cbv zeta.
  intros (t0 & (u & _ & [= <-])%bind_Ok & Hs)%bind_Ok.
  unfold Transaction_sign, sr_get, sr_lift, sr_modify, mbind, state_result_bind in Hs.
  cbv beta zeta iota in Hs. cbn [tx_from ok_or] in Hs. rewrite (sender_address_parse sk n Hsk) in Hs.
  cbn [addr_network from_public_key_for_network] in Hs. rewrite bool_decide_eq_true_2 in Hs by done.
  cbn [ensure] in Hs.
  apply bind_Ok in Hs as ([] & Hv & [= <-]). split; [done | exact Hv].
Qed.

(** The last check of the shape: both addresses are on one network. *)
Lemma validate_shape_networks tx from :
  tx_from tx = Some from → validate_shape tx = Ok () →
  ∃ a b, Address_parse from = Ok a ∧ Address_parse (tx_to tx) = Ok b ∧ addr_network a = addr_network b ∧
         tx_amount tx ≠ 0 ∧ tx_max_fee tx <= MAX_SUPPLY_ATOMIC ∧ tx_priority_fee tx <= MAX_SUPPLY_ATOMIC.
Proof.
  intros Hf. unfold validate_shape, is_coinbase. rewrite Hf. cbn [is_none is_some negb andb].
  rewrite if_Err_Ok, bind_const_Ok, !if_Err_Ok. intros (_ & _ & Ha & Hm & Hp & _ & _ & _ & Hn).
  apply bind_Ok in Hn as (a & Pa & (b & Pb & Hn)%bind_Ok).
  rewrite if_negb_Err_Ok, bool_decide_eq_true in Hn. destruct Hn as [Hn _].
  exists a, b. unfold Amount_ZERO in Ha. split_and!; try done; breflect; lia.
Qed.

Lemma new_signed_verified version nonce n sk to amount max_fee priority_fee memo tx :
  length sk = PrivateKey_SIZE →
  Transaction_new_signed version nonce n sk to amount max_fee priority_fee memo = Ok tx →
  Transaction_verify tx = Ok () ∧ Transaction_network tx = Ok n.
Proof.
  intros Hsk Hs. destruct (new_signed_Ok _ _ _ _ _ _ _ _ _ _ Hsk Hs) as [-> Hshape].
  destruct (validate_shape_networks (signed_spend version nonce n sk to amount max_fee priority_fee memo)
    (sender_address sk n) eq_refl Hshape) as (a & b & Pa & Pb & Hn & _).
  rewrite (sender_address_parse sk n Hsk) in Pa. injection Pa as <-.
  set (tx := signed_spend version nonce n sk to amount max_fee priority_fee memo) in *. split.
  - unfold Transaction_verify. rewrite Hshape. cbn [mbind result_bind].
    change (is_coinbase tx) with false. cbv iota.
    change (tx_from tx) with (Some (sender_address sk n)).
    change (tx_sender_public_key tx) with (Some (PrivateKey_public_key sk)).
    change (tx_signature tx) with (Some (PrivateKey_sign sk (unsigned_payload_bytes tx))).
    cbn [ok_or mbind result_bind]. rewrite (sender_address_parse sk n Hsk), Pb. cbn [mbind result_bind].
    rewrite <- Hn. rewrite !bool_decide_eq_true_2 by done. cbn [negb]. by apply verify_sign.
  - unfold Transaction_network. rewrite Pb. change (tx_from tx) with (Some (sender_address sk n)).
    cbn [mbind result_bind]. rewrite (sender_address_parse sk n Hsk). cbn [mbind result_bind].
    rewrite <- Hn, bool_decide_eq_true_2 by done. done.
Qed.

Lemma signed_spend_wf version nonce n sk to amount max_fee priority_fee :
  length sk = PrivateKey_SIZE → is_u32 version → is_u64 nonce → is_u64 amount → is_u64 max_fee →
  is_u64 priority_fee → is_u32 (str_len to) →
  tx_wf (signed_spend version nonce n sk to amount max_fee priority_fee None).
Proof.
  intros Hsk **. pose proof (public_key_wf sk Hsk) as Hpk.
  destruct (Address_to_string_spec (from_public_key_for_network (PrivateKey_public_key sk) n))
    as (s & Hs & _ & _ & Hlen & _); [by apply from_public_key_wf|].
  split; try done; cbn; [|by apply sign_wf]. rewrite Hs. split; [|done]. unfold str_len. lia.
Qed.

(** A node with an empty pool takes a verified spend of its network with the next
    nonce of its sender, enough funds and fee, and an id that is not in the
    chain. *)
Lemma empty_pool_takes t_admit t_cap t_evict t_push n c limit tx sender :
  chain_reachable n c → tx_wf tx → 0 < limit → Transaction_network tx = Ok n →
  spendable (ch_state c) (anticipated c) sender tx →
  submit_transaction t_admit t_cap t_evict t_push c limit tx [] =
    (Ok {| sts_status := prototype_mode n; sts_tx_hash := tx_hash_string tx;
           sts_lifecycle_status := "pending"; sts_mempool_size := 1 |},
     [mkPending (tx_hash_string tx) t_push tx]).
Proof.
  intros Hc Hwf Hlim Hnet Hsp. pose proof (reachable_ledger_ok n c Hc) as Hok.
  pose proof (chain_reachable_ok n c Hc) as Hcok. pose proof (co_network _ _ Hcok) as Hcn.
  assert (∀ b, b ∈ ch_blocks c → ∀ t, t ∈ transactions b → tx_hash_string t ≠ tx_hash_string tx) as Hnew.
  { intros b Hb t Ht He. apply (sp_fresh _ _ _ _ Hsp).
    apply (proj2 (history_applied _ _ (co_history _ _ Hcok))), list_elem_of_fmap.
    exists t. split; [done|]. apply list_elem_of_bind. eauto. }
  unfold submit_transaction. cbv zeta.
  rewrite (proj2 (existsb_false_Forall _ _)).
  2: { apply Forall_forall. intros b Hb. apply existsb_false_Forall, Forall_forall. intros t Ht.
       by apply bool_decide_eq_false, (Hnew b). }
  rewrite sr_lift_bind, Hnet. cbn [map_err]. rewrite Hcn, bool_decide_eq_true_2 by done. cbn [negb].
  rewrite sr_get_bind, sr_lift_bind.
  unfold sanitize_pending_transactions, sanitize_pending_transactions_with_age, filter_pending_candidates.
  cbn [filter_loop sort_pending_for_admission sort_by foldr admit_loop mbind result_bind].
  change (sort_pending_for_admission (next_base_fee (last (ch_blocks c))) []) with (@nil PendingTransactionRecord).
  cbn [admit_loop mbind result_bind app existsb]. rewrite sr_lift_bind.
  unfold cap_sender. rewrite (sp_sender _ _ _ _ Hsp).
  change (same_sender sender []) with (@nil nat). cbn [length].
  change (MAX_PENDING_TXS_PER_SENDER <=? Z.of_nat 0) with false. cbv iota. rewrite sr_lift_bind.
  unfold evict_package. cbv zeta. cbn [length]. rewrite (proj2 (Z.leb_gt limit (Z.of_nat 0))) by lia.
  rewrite sr_lift_bind. fold (anticipated c).
  rewrite (proj2 (validate_pending_Ok (ch_state c) tx (anticipated c) Hok Hwf)) by eauto.
  rewrite sr_lift_bind, (apply_pending_spend (ch_state c) (anticipated c) sender tx) by (done || apply anticipated_nonneg).
  reflexivity.
Qed.

Lemma chain_next_nonce n c a : chain_reachable n c → is_u64 (next_nonce_of (ch_state c) a).
Proof.
  intros Hc%chain_reachable_ok. destruct (history_next_nonce _ _ a (co_history _ _ Hc)) as [_ ->].
  unfold nth_nonce, umax, in_width. lia.
Qed.

(** The same from what the sender chose: the next nonce, a maximum fee that
    covers the anticipated base fee, funds for the debit, and an id that is new
    to the ledger. *)
Lemma signed_spend_taken t_admit t_cap t_evict t_push n c limit sk to amount max_fee priority_fee tx :
  let sender := sender_address sk n in
  chain_reachable n c → 0 < limit → length sk = PrivateKey_SIZE → is_u32 (str_len to) → 0 <= amount →
  0 <= priority_fee → anticipated c <= max_fee →
  Transaction_new_signed 1 (next_nonce_of (ch_state c) sender) n sk to amount max_fee priority_fee None = Ok tx →
  amount + anticipated c + Z.min priority_fee (max_fee - anticipated c) <= balance_of (ch_state c) sender →
  tx_hash_hex tx ∉ applied_transaction_hashes (ch_state c) →
  submit_transaction t_admit t_cap t_evict t_push c limit tx [] =
    (Ok {| sts_status := prototype_mode n; sts_tx_hash := tx_hash_string tx;
           sts_lifecycle_status := "pending"; sts_mempool_size := 1 |},
     [mkPending (tx_hash_string tx) t_push tx]).
Proof.
  intros sender Hc Hlim Hsk Hto Ham Hpf Hmf Hs Hfunds Hfresh.
  pose proof (reachable_ledger_ok n c Hc) as Hok. pose proof (balance_range _ sender Hok) as Hbal.
  pose proof (anticipated_nonneg c) as Hbase.
  destruct (new_signed_verified _ _ _ _ _ _ _ _ _ _ Hsk Hs) as [Hv Hnet].
  destruct (new_signed_Ok _ _ _ _ _ _ _ _ _ _ Hsk Hs) as [-> Hshape].
  set (tx := signed_spend 1 (next_nonce_of (ch_state c) sender) n sk to amount max_fee priority_fee None) in *.
  destruct (validate_shape_networks tx sender eq_refl Hshape) as (_ & _ & _ & _ & _ & Hnz & Hm & Hp).
  change (tx_amount tx) with amount in Hnz. change (tx_max_fee tx) with max_fee in Hm.
  change (tx_priority_fee tx) with priority_fee in Hp. unfold MAX_SUPPLY_ATOMIC in *.
  apply (empty_pool_takes _ _ _ _ n c limit tx sender); try done.
  - apply signed_spend_wf; try done; [by apply (chain_next_nonce n) | unfold in_width; lia..].
  - split; try done. rewrite debit_of_eq by done. exact Hfunds.
Qed.

End spend.
