(* ===== verification/GatewayIndexer.v ===== *)
(** [vireon-rpc-gateway/src/app.rs] and [models.rs]: the gateway's status pages
    and its explorer over the index file, with the cache of the index.  The
    fingerprint of the file, the P2P report's file and the division of [f64] are
    arguments. *)

From S2P Require Import Prelude RustStd Interfaces Crypto Errors Network Amount Signing Address Transaction Block Pow Consensus State Ledger Chain Genesis NodeConfig GenesisApproval Storage Mempool Node NodeOps NodeMine Reputation P2p P2pService Indexer GatewayConfig Gateway Seed NodeTheory IndexerTheory GatewayTheory.

(** ** The errors of the indexer ([vireon-indexer/src/error.rs]) *)

Definition IndexerError_fmt (e : IndexerError) : string :=
  match e with
  | IndexerIo t => "I/O error: " ++ t
  | IndexerJson t => "JSON error: " ++ t
  | IndexerNode e => "node error: " ++ NodeError_fmt e
  | IndexerCore e => "core error: " ++ VireonError_fmt e
  | Indexer.IndexNotInitialized p => "chain index is not initialized at " ++ p
  | InvalidIndexFile p m => "invalid index file at " ++ p ++ ": " ++ m
  | IndexerNotFound what => "resource not found: " ++ what
  end%string.

(** [From<IndexerError> for RpcError] *)
Definition rpc_indexer (e : IndexerError) : RpcError :=
  RpcIndexer match e with
             | Indexer.IndexNotInitialized _ => GatewayConfig.IndexNotInitialized
             | IndexerNotFound _ => IndexNotFound
             | _ => IndexOther
             end (IndexerError_fmt e).

(** ** Responses ([models.rs]) *)

Record HealthResponse := {
  hr_ok : bool;
  hr_service : string;
  hr_mode : string;
  hr_network_id : string;
  hr_network_name : string;
  hr_status_label : string;
}.

Record NetworkResponse := {
  nr_protocol_parameters_id : string;
  nr_protocol_version : Z;
  nr_block_version : Z;
  nr_network_id : string;
  nr_network_name : string;
  nr_status_label : string;
  nr_ticker : string;
  nr_address_prefix : string;
  nr_address_standard_id : string;
  nr_address_encoding : string;
  nr_address_checksum_rule : string;
  nr_address_payload_version : Z;
  nr_public_key_scheme : string;
  nr_signature_standard_id : string;
  nr_signature_scheme : string;
  nr_tx_signing_domain : string;
  nr_key_derivation_policy_id : string;
  nr_block_time_seconds : Z;
  nr_decimals : Z;
  nr_atomic_units_per_vire : Z;
  nr_max_supply_atomic : Z;
  nr_halving_interval_blocks : Z;
  nr_initial_block_reward_atomic : Z;
  nr_pow_hash_algorithm : string;
  nr_difficulty_adjustment_algorithm : string;
  nr_fee_policy : string;
  nr_default_rpc_port : Z;
  nr_default_p2p_port : Z;
  nr_max_transactions_per_block : Z;
  nr_max_transaction_wire_bytes : Z;
  nr_median_time_past_window : Z;
  nr_max_future_block_drift_seconds : Z;
  nr_first_account_nonce : Z;
}.

Record StatusResponse := {
  rs_network_id : string;
  rs_network_name : string;
  rs_status_label : string;
  rs_initialized : bool;
  rs_block_count : Z;
  rs_height : option Z;
  rs_tip_hash : option string;
  rs_emitted_supply_atomic : option Z;
  rs_index_tip_hash : option string;
  rs_index_height : option Z;
  rs_index_in_sync : bool;
  rs_index_lag_blocks : Z;
  rs_cumulative_work : option string;
}.

Record IndexerOverviewResponse := mkOverview {
  io_summary : IndexSummary;
  io_recent_blocks : list IndexedBlock;
  io_recent_transactions : list IndexedTransaction;
}.

Record IndexerPageResponse (A : Type) := mkPage { pg_total : Z; pg_offset : Z; pg_limit : Z; pg_items : list A }.
Arguments mkPage {A}. Arguments pg_total {A}. Arguments pg_offset {A}. Arguments pg_limit {A}. Arguments pg_items {A}.

(** [F]: the type [f64]. *)
Record SyncStatusResponse (F : Type) := {
  ssr_network_id : string;
  ssr_sync_state : string;
  ssr_local_height : option Z;
  ssr_network_height : option Z;
  ssr_remaining_blocks : option Z;
  ssr_progress_percent : option F;
  ssr_connected_peer_count : Z;
  ssr_validated_peer_count : Z;
  ssr_detail : string;
}.
Arguments ssr_sync_state {F}. Arguments ssr_local_height {F}. Arguments ssr_network_height {F}.
Arguments ssr_remaining_blocks {F}. Arguments ssr_progress_percent {F}. Arguments ssr_network_id {F}.
Arguments ssr_connected_peer_count {F}. Arguments ssr_validated_peer_count {F}. Arguments ssr_detail {F}.

(** ** The index cache *)

(** [struct CachedIndex]; the fingerprint is the file's length and time. *)
Record CachedIndex := mkCachedIndex {
  ci_fingerprint : Z * Z;
  ci_data : IndexData;
  ci_transactions : list IndexedTransaction;
  ci_addresses : list AddressActivity;
}.

(** The gateway with its index cache and the index file. *)
Record ExplorerState := mkExplorer {
  xp_gateway : GatewayState;
  xp_index_cache : option CachedIndex;
  xp_index_file : IndexFile;
}.

Abbreviation explorer A := (state_result ExplorerState RpcError A).

Definition on_gateway {A} (m : gateway A) : explorer A := λ s,
  let '(r, g) := m (xp_gateway s) in (r, mkExplorer g (xp_index_cache s) (xp_index_file s)).
Definition set_index_cache (c : option CachedIndex) (s : ExplorerState) : ExplorerState :=
  mkExplorer (xp_gateway s) c (xp_index_file s).

(** Newest first; richest first. *)
Definition newest_cmp (a b : IndexedTransaction) : comparison :=
  then_with (it_block_height b ?= it_block_height a)
    (then_with (it_transaction_index b ?= it_transaction_index a) (str_cmp (it_hash b) (it_hash a))).
Definition richest_cmp (a b : AddressActivity) : comparison :=
  then_with (aa_balance_atomic b ?= aa_balance_atomic a) (str_cmp (aa_address a) (aa_address b)).

Definition cached_index (fingerprint : Z * Z) (data : IndexData) : CachedIndex :=
  mkCachedIndex fingerprint data
    (sort_by newest_cmp (btree_entries (im_transactions_by_hash (ix_maps data))).*2)
    (sort_by richest_cmp (btree_entries (im_addresses (ix_maps data))).*2).

(** [blocks_by_height.values().rev()] *)
Definition blocks_down (index : IndexData) : list IndexedBlock :=
  (sort_by (λ a b : Z * IndexedBlock, b.1 ?= a.1) (map_to_list (im_blocks_by_height (ix_maps index)))).*2.

(** [skip(offset).take(limit)] *)
Definition page_of {A} (offset limit : Z) (l : list A) : list A := take (Z.to_nat limit) (drop (Z.to_nat offset) l).
Definition page_response {A} (bounds : Z * Z) (l : list A) : IndexerPageResponse A :=
  mkPage (Z.of_nat (length l)) bounds.1 bounds.2 (page_of bounds.1 bounds.2 l).

Section pages.
Context `{Primitives}.
(** [index_path] is the printed path of the index file, [fingerprint] its length
    and modification time. *)
Context (config : RpcConfig) (path : string) (chain_fingerprint : Fingerprint) (clock : nat → Z).
Context (index_path : string) (fingerprint : Z * Z).

Definition load_cached_index : explorer CachedIndex :=
  s ← sr_get;
  match xp_index_cache s with
  | Some cached =>
      if bool_decide (ci_fingerprint cached = fingerprint) then mret cached
      else
        data ← sr_lift (map_err rpc_indexer (load_index index_path (xp_index_file s)));
        _ ← sr_modify (set_index_cache (Some (cached_index fingerprint data)));
        mret (cached_index fingerprint data)
  | None =>
      data ← sr_lift (map_err rpc_indexer (load_index index_path (xp_index_file s)));
      _ ← sr_modify (set_index_cache (Some (cached_index fingerprint data)));
      mret (cached_index fingerprint data)
  end.

Definition load_index_data : explorer IndexData := cached ← load_cached_index; mret (ci_data cached).

(** ** Status pages *)

Definition redacted (dir : string) : string :=
  if bool_decide (rc_access_mode config = Local) then dir else "redacted".

(** [cached_indexer_status]; [index_dir] is the configured directory. *)
Definition status_of_index (chain_height : option Z) (chain_tip_hash : option string) (index : IndexData) : IndexerStatus :=
  let sm := ix_summary index in {|
  xs_mode := INDEXER_MODE; xs_network_id := Some (is_network sm); xs_status_label := Some (is_status sm);
  xs_initialized := true; xs_index_dir := redacted (rc_indexer_data_path config);
  xs_indexed_height := is_indexed_height sm; xs_indexed_block_count := is_indexed_block_count sm;
  xs_transaction_count := is_transaction_count sm; xs_address_count := is_address_count sm;
  xs_tip_hash := is_tip_hash sm; xs_chain_height := chain_height; xs_chain_tip_hash := chain_tip_hash;
  xs_in_sync := is_some chain_tip_hash && bool_decide (is_tip_hash sm = chain_tip_hash)
    && bool_decide (is_indexed_height sm = chain_height);
  xs_lag_blocks :=
    match chain_height, is_indexed_height sm with
    | Some c, Some i => if c >? i then c - i else 0
    | Some c, None => saturating_add 64 c 1
    | _, _ => 0
    end |}.

Definition status_without_index (chain_height : option Z) (chain_tip_hash : option string) : IndexerStatus := {|
  xs_mode := INDEXER_MODE; xs_network_id := None; xs_status_label := None; xs_initialized := false;
  xs_index_dir := redacted (rc_indexer_data_path config); xs_indexed_height := None; xs_indexed_block_count := 0;
  xs_transaction_count := 0; xs_address_count := 0; xs_tip_hash := None; xs_chain_height := chain_height;
  xs_chain_tip_hash := chain_tip_hash; xs_in_sync := false;
  xs_lag_blocks := default 0 ((λ h, saturating_add 64 h 1) <$> chain_height) |}.

Definition cached_indexer_status (chain_height : option Z) (chain_tip_hash : option string) : explorer IndexerStatus := λ s,
  let '(loaded, s) := load_index_data s in
  match loaded with
  | Ok index => (Ok (status_of_index chain_height chain_tip_hash index), s)
  | Err (RpcIndexer GatewayConfig.IndexNotInitialized _) => (Ok (status_without_index chain_height chain_tip_hash), s)
  | Err e => (Err e, s)
  end.

(** The chain, or nothing when the node has none yet. *)
Definition chain_if_any : explorer (option LoadedChain) := λ s,
  let '(loaded, s) := on_gateway (load_chain config path chain_fingerprint clock) s in
  match loaded with
  | Ok l => (Ok (Some l), s)
  | Err (RpcNode (ChainNotInitialized _)) => (Ok None, s)
  | Err e => (Err e, s)
  end.

(** [.ok()] *)
Definition sr_ok {A} (m : explorer A) : explorer (option A) := λ s,
  let '(r, s) := m s in (Ok match r with Ok x => Some x | Err _ => None end, s).

Definition gateway_status : explorer StatusResponse :=
  found ← chain_if_any;
  match found with
  | Some loaded =>
      idx ← sr_ok (cached_indexer_status (lc_height loaded) (lc_tip_hash loaded));
      mret {| rs_network_id := rc_network_id config; rs_network_name := rc_human_name config;
              rs_status_label := rc_status_label config; rs_initialized := true;
              rs_block_count := Z.of_nat (length (lc_blocks loaded)); rs_height := lc_height loaded;
              rs_tip_hash := lc_tip_hash loaded; rs_emitted_supply_atomic := Some (lc_emitted_supply_atomic loaded);
              rs_index_tip_hash := idx ≫= xs_tip_hash; rs_index_height := idx ≫= xs_indexed_height;
              rs_index_in_sync := default false (xs_in_sync <$> idx);
              rs_index_lag_blocks := default 0 (xs_lag_blocks <$> idx); rs_cumulative_work := lc_cumulative_work loaded |}
  | None =>
      mret {| rs_network_id := rc_network_id config; rs_network_name := rc_human_name config;
              rs_status_label := rc_status_label config; rs_initialized := false; rs_block_count := 0;
              rs_height := None; rs_tip_hash := None; rs_emitted_supply_atomic := None; rs_index_tip_hash := None;
              rs_index_height := None; rs_index_in_sync := false; rs_index_lag_blocks := 0; rs_cumulative_work := None |}
  end.

Definition rpc_indexer_status : explorer IndexerStatus :=
  found ← chain_if_any;
  cached_indexer_status (found ≫= lc_height) (found ≫= lc_tip_hash).

Definition health : HealthResponse :=
  let exposure :=
    match rc_access_mode config with
    | Local => "Local only"
    | PublicRead => "Public read"
    | PublicSubmit => if mining_endpoints_enabled config then "Public submit + mining (loopback/proxy-deny required)"
                      else "Public submit (mining disabled)"
    | PrivateMining => "Private container-network mining (no published host port)"
    end%string in
  {| hr_ok := true; hr_service := "vireon-rpc-gateway"; hr_mode := (rc_status_label config ++ " / " ++ exposure)%string;
     hr_network_id := rc_network_id config; hr_network_name := rc_human_name config;
     hr_status_label := rc_status_label config |}.

Definition network : NetworkResponse :=
  let p := launch_protocol_parameters (rc_network config) in
  let a := launch_address_standard (rc_network config) in
  let g := launch_signing_standard in {|
  nr_protocol_parameters_id := pp_parameters_id p; nr_protocol_version := pp_protocol_version p;
  nr_block_version := pp_block_version p; nr_network_id := rc_network_id config;
  nr_network_name := rc_human_name config; nr_status_label := rc_status_label config; nr_ticker := pp_ticker p;
  nr_address_prefix := pp_address_prefix p; nr_address_standard_id := as_standard_id a;
  nr_address_encoding := as_encoding a; nr_address_checksum_rule := as_checksum_rule a;
  nr_address_payload_version := as_payload_version a; nr_public_key_scheme := ss_public_key_scheme g;
  nr_signature_standard_id := ss_standard_id g; nr_signature_scheme := ss_signature_scheme g;
  nr_tx_signing_domain := ss_tx_signing_domain g; nr_key_derivation_policy_id := kd_policy_id launch_key_derivation_policy;
  nr_block_time_seconds := pp_block_time_seconds p; nr_decimals := pp_decimals p;
  nr_atomic_units_per_vire := pp_atomic_units_per_vire p; nr_max_supply_atomic := pp_max_supply_atomic p;
  nr_halving_interval_blocks := pp_halving_interval_blocks p;
  nr_initial_block_reward_atomic := pp_initial_block_reward_atomic p; nr_pow_hash_algorithm := pp_pow_hash_algorithm p;
  nr_difficulty_adjustment_algorithm := pp_difficulty_adjustment_algorithm p; nr_fee_policy := pp_fee_policy p;
  nr_default_rpc_port := pp_default_rpc_port p; nr_default_p2p_port := pp_default_p2p_port p;
  nr_max_transactions_per_block := pp_max_transactions_per_block p;
  nr_max_transaction_wire_bytes := pp_max_transaction_wire_bytes p;
  nr_median_time_past_window := pp_median_time_past_window p;
  nr_max_future_block_drift_seconds := pp_max_future_block_drift_seconds p;
  nr_first_account_nonce := FIRST_ACCOUNT_NONCE |}.

(** ** Synchronisation *)

(** [load_p2p_status]: the report's file, when there is one, or an offline report. *)
Definition load_p2p_status (now : Z) (file : option (NodeResult (P2pReport * P2pStatus))) : NodeResult (P2pReport * P2pStatus) :=
  match file with
  | Some read => read
  | None => Ok (mkReport "" [] 0 0 0 0 [] 0 0 now, mkStatus false None None None None None)
  end.

Section sync.
(** Floating point numbers: conversion, division, multiplication. *)
Context {F : Type} (f64 : Z → F) (f64_div f64_mul : F → F → F).
Context (node_config : NodeResult NetworkConfig).

Definition sync_response (p2p : P2pReport) (local_height peer_height : option Z) : SyncStatusResponse F :=
  let answer : string → option Z → option Z → option Z → option F → string → SyncStatusResponse F :=
    λ state local network remaining progress detail, {|
    ssr_network_id := rc_network_id config; ssr_sync_state := state; ssr_local_height := local;
    ssr_network_height := network; ssr_remaining_blocks := remaining; ssr_progress_percent := progress;
    ssr_connected_peer_count := rp_connected_peer_count p2p; ssr_validated_peer_count := rp_validated_peer_count p2p;
    ssr_detail := detail |} in
  match local_height with
  | None => answer "uninitialized" None peer_height None None "Local chain is not initialized"
  | Some local =>
      match peer_height with
      | None => answer "discovering" (Some local) None None None "Waiting for a validated peer to report network height"
      | Some peer =>
          let network_height := Z.max local peer in
          let remaining := saturating_sub network_height local in
          let progress := if network_height =? 0 then f64 100
                          else f64_mul (f64_div (f64 local) (f64 network_height)) (f64 100) in
          let '(state, detail) := if remaining =? 0 then ("synced", "Local chain matches validated peers")%string
                                  else ("syncing", "Downloading and validating blocks")%string in
          answer state (Some local) (Some network_height) (Some remaining) (Some progress) detail
      end
  end.

(** The best height of the validated peers. *)
Definition best_peer_height (peers : list ConnectedPeer) : option Z :=
  match omap cp_best_height (List.filter cp_handshake_validated peers) with [] => None | h :: hs => Some (foldl Z.max h hs) end.

Definition sync_status (now : Z) (file : option (NodeResult (P2pReport * P2pStatus))) : explorer (SyncStatusResponse F) :=
  found ← chain_if_any;
  _ ← sr_lift (map_err RpcNode node_config);
  p2p ← sr_lift (map_err RpcNode (load_p2p_status now file));
  mret (sync_response p2p.1 (found ≫= lc_height) (best_peer_height (rp_peers p2p.1))).

End sync.

(** ** The explorer *)

Definition indexer_summary : explorer IndexData := load_index_data.

Definition indexer_overview (blocks transactions : option Z) : explorer IndexerOverviewResponse :=
  cached ← load_cached_index;
  mret (mkOverview (ix_summary (ci_data cached))
    (take (Z.to_nat (clamp 1 100 (default 12 blocks))) (blocks_down (ci_data cached)))
    (take (Z.to_nat (clamp 1 200 (default 20 transactions))) (ci_transactions cached))).

Definition indexer_blocks_page (offset limit : option Z) : explorer (IndexerPageResponse IndexedBlock) :=
  index ← load_index_data; mret (page_response (page_bounds offset limit) (blocks_down index)).

Definition indexer_transactions_page (offset limit : option Z) : explorer (IndexerPageResponse IndexedTransaction) :=
  cached ← load_cached_index; mret (page_response (page_bounds offset limit) (ci_transactions cached)).

Definition indexer_addresses_page (offset limit : option Z) : explorer (IndexerPageResponse AddressActivity) :=
  cached ← load_cached_index; mret (page_response (page_bounds offset limit) (ci_addresses cached)).

Definition indexer_blocks_latest : explorer IndexedBlock :=
  index ← load_index_data;
  sr_lift (ok_or (NotFoundError "no indexed block available")
    (h ← is_indexed_height (ix_summary index); im_blocks_by_height (ix_maps index) !! h)).

Definition indexer_blocks_by_height (height : Z) : explorer IndexedBlock :=
  index ← load_index_data;
  sr_lift (ok_or (NotFoundError ("block at height " ++ uint_to_string height ++ " not found"))
    (im_blocks_by_height (ix_maps index) !! height)).

Definition indexer_blocks_by_hash (hash : string) : explorer IndexedBlock :=
  index ← load_index_data;
  sr_lift (ok_or (NotFoundError ("block with hash " ++ hash ++ " not found")) (im_blocks_by_hash (ix_maps index) !! hash)).

Definition indexer_transaction_by_hash (hash : string) : explorer IndexedTransaction :=
  index ← load_index_data;
  sr_lift (ok_or (NotFoundError ("transaction with hash " ++ hash ++ " not found"))
    (im_transactions_by_hash (ix_maps index) !! hash)).

Definition indexer_address (address : string) : explorer AddressActivity :=
  index ← load_index_data;
  sr_lift (ok_or (NotFoundError ("address " ++ address ++ " not found in index")) (im_addresses (ix_maps index) !! address)).

End pages.

(** ** What the explorer reports of the index file: pages that list everything once,
    and an index in step with the chain. *)

(** ** Pages *)

(** Pages of [l] elements, one after the other, are a prefix of the list. *)
Lemma pages_prefix {A} (l : Z) (items : list A) m :
  0 <= l → mjoin ((λ k : nat, page_of (Z.of_nat k * l) l items) <$> seq 0 m) = take (m * Z.to_nat l) items.
Proof.
  intros Hl. induction m as [|m IH]; [done|].
  rewrite seq_S, fmap_app, join_app, IH. cbn [fmap list_fmap mjoin list_join Nat.add]. rewrite app_nil_r. unfold page_of.
  replace (Z.to_nat (Z.of_nat m * l)) with (m * Z.to_nat l)%nat by lia.
  replace (S m * Z.to_nat l)%nat with (m * Z.to_nat l + Z.to_nat l)%nat by lia.
  by rewrite take_take_drop.
Qed.

#[export] Instance total_newest : TotalCmp newest_cmp.
Proof.
  unfold newest_cmp. apply total_cmp_then; [|apply total_cmp_then].
  - apply (total_cmp_flip (λ a b, it_block_height a ?= it_block_height b)), total_cmp_Zkey.
  - apply (total_cmp_flip (λ a b, it_transaction_index a ?= it_transaction_index b)), total_cmp_Zkey.
  - apply (total_cmp_flip (λ a b, str_cmp (it_hash a) (it_hash b))), total_cmp_strkey.
Qed.

Section explorer.
Context `{PrimitivesOk}.

(** ** The cache *)

Section cache.
Context (index_path : string) (fingerprint : Z * Z).

(** The cache holds nothing, another fingerprint, or the index of the file. *)
Definition index_cache_ok (s : ExplorerState) : Prop :=
  ∀ cached, xp_index_cache s = Some cached → ci_fingerprint cached = fingerprint →
    ∃ index, xp_index_file s = index_file index ∧ cached = cached_index fingerprint index.

Lemma load_cached_index_Ok s index :
  index_cache_ok s → xp_index_file s = index_file index →
  ∃ s', load_cached_index index_path fingerprint s = (Ok (cached_index fingerprint index), s') ∧
    index_cache_ok s' ∧ xp_index_file s' = index_file index ∧ xp_gateway s' = xp_gateway s.
Proof.
  intros Hc Hf.
  assert (∃ s', (data ← sr_lift (map_err rpc_indexer (load_index index_path (xp_index_file s)));
      _ ← sr_modify (set_index_cache (Some (cached_index fingerprint data)));
      mret (cached_index fingerprint data)) s = (Ok (cached_index fingerprint index), s') ∧
    index_cache_ok s' ∧ xp_index_file s' = index_file index ∧ xp_gateway s' = xp_gateway s) as Hfresh.
  { rewrite sr_lift_bind, Hf. cbn [load_index map_err]. rewrite sr_modify_bind. eexists. split; [done|]. cbn. split; [|done].
    intros cached [= <-] _. by eexists. }
  unfold load_cached_index. rewrite sr_get_bind. destruct (xp_index_cache s) as [cached|] eqn:Ec; [|done].
  destruct (bool_decide_reflect (ci_fingerprint cached = fingerprint)) as [Hp|]; [|done].
  destruct (Hc _ Ec Hp) as (index' & Hf' & ->). rewrite Hf in Hf'. injection Hf' as <-. by exists s.
Qed.

(** The pages of the explorer: with a fixed page size between 1 and 100, the pages
    of transactions read one after the other list the transactions of the index
    file from the newest down, each exactly once; every page reports their number
    and is no longer than asked. *)
Theorem transaction_pages s index limit m :
  index_cache_ok s → xp_index_file s = index_file index → 1 <= limit <= 100 →
  let all := im_transactions_by_hash (ix_maps index) in
  Z.of_nat (size all) <= Z.of_nat m * limit →
  ∃ pages,
    Forall2 (λ k p, (indexer_transactions_page index_path fingerprint (Some (Z.of_nat k * limit)) (Some limit) s).1 = Ok p)
      (seq 0 m) pages ∧
    Forall (λ p, pg_total p = Z.of_nat (size all) ∧ Z.of_nat (length (pg_items p)) <= limit) pages ∧
    let items := mjoin (pg_items <$> pages) in
    items ≡ₚ (map_to_list all).*2 ∧ StronglySorted (cmp_le newest_cmp) items.
Proof.
  intros Hc Hf Hl. cbv zeta. intros Hm. set (all := im_transactions_by_hash (ix_maps index)) in *.
  destruct (load_cached_index_Ok s index Hc Hf) as (s' & Hload & _).
  set (sorted := sort_by newest_cmp (btree_entries all).*2).
  assert (sorted ≡ₚ (map_to_list all).*2) as Hperm by (unfold sorted; by rewrite sort_by_perm, btree_entries_perm).
  assert (length sorted = size all) as Hlen by (by rewrite Hperm, length_fmap, length_map_to_list).
  set (page := λ k : nat, page_response (page_bounds (Some (Z.of_nat k * limit)) (Some limit)) sorted).
  assert (∀ k, page k = mkPage (Z.of_nat (size all)) (Z.of_nat k * limit) limit (page_of (Z.of_nat k * limit) limit sorted)) as Hpage.
  { intros k. unfold page, page_response, page_bounds. cbn [from_option fst snd]. unfold id.
    assert (clamp 1 100 limit = limit) as -> by (unfold clamp; destruct (limit <? 1) eqn:E1, (100 <? limit) eqn:E2; breflect; lia).
    by rewrite Hlen. }
  assert (mjoin (pg_items <$> (page <$> seq 0 m)) = sorted) as Hitems.
  { rewrite <- list_fmap_compose.
    rewrite (list_fmap_ext _ (λ k : nat, page_of (Z.of_nat k * limit) limit sorted)); [|intros i k _; unfold compose; by rewrite Hpage].
    rewrite pages_prefix by lia. apply take_ge. nia. }
  exists (page <$> seq 0 m). cbv zeta. split_and!.
  - apply Forall2_fmap_r, Forall_Forall2_diag, Forall_forall. intros k _. unfold indexer_transactions_page.
    by rewrite (sr_bind_step _ _ _ _ _ Hload).
  - apply Forall_fmap, Forall_forall. intros k _. cbn [compose]. unfold compose. rewrite Hpage. cbn [pg_total pg_items].
    split; [done|]. unfold page_of. rewrite length_take. lia.
  - by rewrite Hitems.
  - rewrite Hitems. apply sort_by_sorted, _.
Qed.

End cache.

(** ** The index and the chain *)

(** The row of the tip in the index of a chain. *)
Lemma index_tip_row n c index b bs :
  chain_reachable n c → ch_blocks c = bs ++ [b] → index_of n c = Ok index →
  ∃ row, im_blocks_by_height (ix_maps index) !! bh_height (header b) = Some row ∧
    ib_height row = bh_height (header b) ∧ ib_hash row = hash_to_hex (block_hash b).
Proof.
  intros Hc Hb Hi. destruct (build_chain n c Hc) as (i & Hfold & _ & _ & _ & E). rewrite Hi in E. injection E as ->.
  cbn [ix_maps with_balances im_blocks_by_height]. rewrite Hb, try_fold_app in Hfold.
  apply bind_Ok in Hfold as (i1 & _ & Hlast). cbn [try_fold] in Hlast. apply bind_Ok in Hlast as (i2 & Hi2 & [= <-]).
  unfold append_block_to_index_maps in Hi2. apply bind_Ok in Hi2 as (cb & _ & [= <-]). cbn [im_blocks_by_height].
  rewrite lookup_insert_eq. by eexists.
Qed.

Section synced.
Context (env : NodeEnv) (config : NetworkConfig) (rpc : RpcConfig) (path : string) (chain_fingerprint : Fingerprint).
Context (Hnet : rc_network rpc = cfg_network config) (index_path : string) (fingerprint : Z * Z).

(** An index built from the node's chain is reported in step: the status pages say
    that it is in sync and lags by no block, with the chain's height and tip, and
    the latest indexed block is the chain's tip. *)
Theorem synced_index_reported clock s c index :
  node_ok env config (gw_node (xp_gateway s)) c → cache_ok chain_fingerprint (xp_gateway s) c →
  clock_ok clock (ch_blocks c) → index_cache_ok fingerprint s →
  index_of (cfg_network config) c = Ok index → xp_index_file s = index_file index →
  (∃ st, (rpc_indexer_status rpc path chain_fingerprint clock index_path fingerprint s).1 = Ok st ∧
     xs_initialized st = true ∧ xs_in_sync st = true ∧ xs_lag_blocks st = 0 ∧ xs_indexed_height st = Chain_height c) ∧
  (∃ r, (gateway_status rpc path chain_fingerprint clock index_path fingerprint s).1 = Ok r ∧
     rs_index_in_sync r = true ∧ rs_index_lag_blocks r = 0 ∧ rs_index_tip_hash r = rs_tip_hash r ∧ rs_height r = Chain_height c) ∧
  (∃ b row, last (ch_blocks c) = Some b ∧ (indexer_blocks_latest index_path fingerprint s).1 = Ok row ∧
     ib_height row = bh_height (header b) ∧ ib_hash row = hash_to_hex (block_hash b)).
Proof.
  intros Hs Hc Hclock Hic Hi Hf. pose proof (no_chain _ _ _ _ Hs) as Hr. pose proof (no_initialized _ _ _ _ Hs) as Hne.
  destruct (exists_last Hne) as (bs & b & Hb). destruct (chain_tip_block _ _ _ _ Hr Hb) as (Hh & Ht & Hbh).
  destruct (build_chain _ _ Hr) as (i & _ & _ & _ & _ & E). rewrite Hi in E. injection E as ->.
  destruct (load_chain_Ok env config rpc path chain_fingerprint Hnet clock _ c Hs Hc Hclock) as (g & Hl & _).
  set (s1 := mkExplorer g (xp_index_cache s) (xp_index_file s)).
  assert (chain_if_any rpc path chain_fingerprint clock s = (Ok (Some (loaded_of (ch_blocks c) c)), s1)) as Hany.
  { unfold chain_if_any, on_gateway. by rewrite Hl. }
  set (index := mkIndex _ _) in *.
  destruct (load_cached_index_Ok index_path fingerprint s1 index Hic Hf) as (s2 & Hload & _).
  set (height := Chain_height c) in *. set (tip := hash_to_hex <$> Chain_tip_hash c).
  assert (cached_indexer_status rpc index_path fingerprint height tip s1 = (Ok (status_of_index rpc height tip index), s2)) as Hst.
  { unfold cached_indexer_status, load_index_data. by rewrite (sr_bind_step _ _ _ _ _ Hload). }
  assert (xs_in_sync (status_of_index rpc height tip index) = true ∧ xs_lag_blocks (status_of_index rpc height tip index) = 0) as [Hsync Hlag].
  { subst index. cbn [status_of_index xs_in_sync xs_lag_blocks ix_summary summary_of_index is_tip_hash is_indexed_height].
    fold height tip. rewrite !bool_decide_eq_true_2 by done. unfold tip. rewrite Ht, Hh. cbn.
    split; [done|]. destruct (_ >? _) eqn:Eg; breflect; lia. }
  split_and!.
  - exists (status_of_index rpc height tip index). unfold rpc_indexer_status. rewrite (sr_bind_step _ _ _ _ _ Hany).
    cbn [mbind option_bind loaded_of lc_height lc_tip_hash]. fold height tip. rewrite Hst. split_and!; done.
  - unfold gateway_status. rewrite (sr_bind_step _ _ _ _ _ Hany). cbn [loaded_of lc_height lc_tip_hash]. fold height tip.
    assert (sr_ok (cached_indexer_status rpc index_path fingerprint height tip) s1 =
      (Ok (Some (status_of_index rpc height tip index)), s2)) as Hok by (unfold sr_ok; by rewrite Hst).
    rewrite (sr_bind_step _ _ _ _ _ Hok). eexists. split; [done|]. cbn. split_and!; done.
  - destruct (index_tip_row _ _ _ _ _ Hr Hb Hi) as (row & Hrow & Hrh & Hrt). exists b, row.
    destruct (load_cached_index_Ok index_path fingerprint s index Hic Hf) as (s3 & Hload3 & _).
    split; [by rewrite Hb, last_snoc|]. split; [|done]. unfold indexer_blocks_latest, load_index_data.
    assert ((cached ← load_cached_index index_path fingerprint; mret (ci_data cached)) s = (Ok index, s3)) as Hd
      by (by rewrite (sr_bind_step _ _ _ _ _ Hload3)).
    rewrite (sr_bind_step _ _ _ _ _ Hd), sr_lift_eq.
    change (is_indexed_height (ix_summary index)) with height. rewrite Hh. cbn [mbind option_bind]. rewrite <- Hbh. by rewrite Hrow.
Qed.

End synced.
End explorer.
