(* ===== verification/Sdk.v ===== *)
(** [vireon-sdk-rust]: [error.rs], [config.rs], [maturity.rs], [wallet.rs],
    [tx.rs].  The SDK's [protocol] directory repeats the files of [vireon-core]
    this development models (with other import paths and fewer error
    constructors), so its addresses, amounts, keys and transactions are the
    core's here. *)

From S2P Require Import Prelude RustStd Interfaces Crypto Errors Network Amount Signing Address Transaction Block Consensus State Ledger Chain NodeConfig Mempool Node Seed Spend Pool.

(** * Errors *)

(** [enum SdkError] *)
Inductive SdkError :=
| SdkProtocol (e : VireonError)
| SdkInput (message : string)
| SdkRpc (message : string)
| SdkRpcHttp (status : Z) (url body : string)
| SdkRpcDecode (message : string)
| SdkTxTimeout (elapsed_ms : Z) (last_status : string)
| SdkJson (text : string).

Abbreviation SdkResult := (result SdkError).

(** [Display for SdkError] *)
Definition SdkError_fmt (e : SdkError) : string :=
  match e with
  | SdkProtocol e => "protocol error: " ++ VireonError_fmt e
  | SdkInput message => "invalid input: " ++ message
  | SdkRpc message => "RPC request failed: " ++ message
  | SdkRpcHttp status url body => "RPC returned HTTP " ++ uint_to_string status ++ " for " ++ url ++ ": " ++ body
  | SdkRpcDecode message => "RPC response decode failed: " ++ message
  | SdkTxTimeout elapsed_ms last_status =>
      "transaction lifecycle timeout after " ++ uint_to_string elapsed_ms ++ "ms (last status: "
        ++ last_status ++ ")"
  | SdkJson text => "JSON error: " ++ text
  end%string.

(** * Endpoints *)

Definition DEFAULT_MAINNET_CANDIDATE_RPC : string := "https://rpcnode.dohotstudio.com".
Definition DEFAULT_LOCAL_MAINNET_CANDIDATE_RPC : string := "http://127.0.0.1:10787".
Definition DEFAULT_MAINNET_CANDIDATE_POOL : string := "https://rpcnode.dohotstudio.com/pool".

(** [struct NetworkConfig] *)
Record SdkConfig := mkSdkConfig { sc_network : Network; sc_rpc_base_url : string; sc_pool_base_url : string }.

Definition SLASH : byte := byte_of_Z 47.

(** [while url.ends_with('/') { url.pop() }], on the reversed bytes. *)
Fixpoint drop_slashes (l : bytes) : bytes :=
  match l with
  | b :: l' => if bool_decide (b = SLASH) then drop_slashes l' else l
  | [] => []
  end.
Definition trim_slash (url : string) : string := str_of_bytes (reverse (drop_slashes (reverse (str_bytes url)))).

Definition join_base (base path : string) : string :=
  let path := if is_prefix [SLASH] (str_bytes path) then path else ("/" ++ path)%string in
  (base ++ path)%string.

Definition mainnet_candidate : SdkConfig :=
  mkSdkConfig MainnetCandidate DEFAULT_MAINNET_CANDIDATE_RPC DEFAULT_MAINNET_CANDIDATE_POOL.
Definition mainnet_candidate_local : SdkConfig :=
  mkSdkConfig MainnetCandidate DEFAULT_LOCAL_MAINNET_CANDIDATE_RPC "".
Definition with_rpc (n : Network) (rpc_base_url : string) : SdkConfig :=
  mkSdkConfig n (trim_slash rpc_base_url) "".
Definition with_rpc_and_pool (n : Network) (rpc_base_url pool_base_url : string) : SdkConfig :=
  mkSdkConfig n (trim_slash rpc_base_url) (trim_slash pool_base_url).
Definition with_pool_url (pool_base_url : string) (c : SdkConfig) : SdkConfig :=
  mkSdkConfig (sc_network c) (sc_rpc_base_url c) (trim_slash pool_base_url).

Definition sdk_network_id (c : SdkConfig) : string := network_id (sc_network c).
Definition sdk_status_label (c : SdkConfig) : string := status_label (sc_network c).
Definition sdk_address_prefix (c : SdkConfig) : string := address_prefix (sc_network c).

Definition rpc_url (path : string) (c : SdkConfig) : string := join_base (sc_rpc_base_url c) path.
Definition pool_url (path : string) (c : SdkConfig) : SdkResult string :=
  if str_is_empty (sc_pool_base_url c)
  then Err (SdkInput "pool_base_url is not configured (use NetworkConfig::with_pool_url or mainnet_candidate())")
  else Ok (join_base (sc_pool_base_url c) path).

(** * Maturity of pool blocks *)

(** [enum MaturityStatus] *)
Inductive MaturityStatus := StImmature | StMature | StOrphaned | StUnknown.

Definition maturity_as_str (s : MaturityStatus) : string :=
  match s with
  | StImmature => "immature"
  | StMature => "mature"
  | StOrphaned => "orphaned"
  | StUnknown => "unknown"
  end.

(** [struct MaturityProgress] *)
Record MaturityProgress := {
  mp_status : MaturityStatus;
  mp_confirmations : Z;
  mp_required : Z;
  mp_remaining : Z;
  mp_percent : Z;
  mp_mature_at_tip : Z;
  mp_label : string;
}.

Definition DEFAULT_BLOCK_MATURITY_CONFIRMATIONS : Z := 12.

Definition pool_block_maturity (block_height : Z) (tip_height : option Z) (required_confirmations : Z)
    (pool_status_field : option string) : MaturityProgress :=
  let required := Z.max required_confirmations 1 in
  let mature_at_tip := saturating_add 64 block_height required in
  let field := str_to_ascii_lowercase (default ""%string pool_status_field) in
  let mature := {| mp_status := StMature; mp_confirmations := required; mp_required := required;
    mp_remaining := 0; mp_percent := 100; mp_mature_at_tip := mature_at_tip; mp_label := "mature" |} in
  if str_contains field "orphan" then
    {| mp_status := StOrphaned; mp_confirmations := 0; mp_required := required; mp_remaining := 0;
       mp_percent := 0; mp_mature_at_tip := mature_at_tip; mp_label := "orphaned" |}
  else if bool_decide (field = "mature"%string) || str_contains field "matured" then mature
  else match tip_height with
  | None =>
      {| mp_status := StUnknown; mp_confirmations := 0; mp_required := required; mp_remaining := required;
         mp_percent := 0; mp_mature_at_tip := mature_at_tip; mp_label := "immature · tip unknown" |}
  | Some tip =>
      if mature_at_tip <=? tip then mature
      else
        let confirmations := if tip <? block_height then 0 else Z.min (tip - block_height) required in
        let remaining := saturating_sub required confirmations in
        let percent := uwrap 8 (wrapping_mul 64 confirmations 100 / required) in
        {| mp_status := StImmature; mp_confirmations := confirmations; mp_required := required;
           mp_remaining := remaining; mp_percent := percent; mp_mature_at_tip := mature_at_tip;
           mp_label := ("immature · " ++ uint_to_string confirmations ++ "/" ++ uint_to_string required)%string |}
  end.

(** * Accounts *)

(** [struct WalletAccount] *)
Record WalletAccount := mkAccount {
  wa_network : Network;
  wa_private_key : PrivateKey;
  wa_address : Address;
  wa_derivation_path : option string;
}.

(** [struct GeneratedMnemonic] *)
Record GeneratedMnemonic := {
  gm_phrase : string;
  gm_word_count : Z;
  gm_derivation_path : string;
  gm_warning : string;
}.

(** * Transfers *)

(** [struct TransferBuilder] *)
Record TransferBuilder := mkBuilder {
  tb_network : Network;
  tb_version : Z;
  tb_to : option string;
  tb_amount : option Amount;
  tb_nonce : option Z;
  tb_max_fee : option Amount;
  tb_priority_fee : Amount;
  tb_memo_hash : option Hash;
}.

(** [struct SignedTransfer] *)
Record SignedTransfer := mkSigned { st_network : Network; st_tx_hash : string; st_transaction : Transaction }.

Section sdk.
Context `{Primitives} `{SeedPrimitives}.

Definition account_from_private_key (n : Network) (sk : PrivateKey) (path : option string) : SdkResult WalletAccount :=
  let address := from_public_key_for_network (PrivateKey_public_key sk) n in
  Ok (mkAccount n sk address path).

Definition account_from_private_key_hex (n : Network) (hex : string) (path : option string) : SdkResult WalletAccount :=
  sk ← map_err SdkProtocol (PrivateKey_from_hex hex);
  account_from_private_key n sk path.

Definition account_from_mnemonic (n : Network) (phrase passphrase : string) (p : WalletDerivationPath)
    : SdkResult WalletAccount :=
  sk ← map_err SdkProtocol (derive_private_key_from_mnemonic phrase passphrase p);
  account_from_private_key n sk (Some (path_to_string p)).

Definition generate_with_path (drawn : Z → result string Mnemonic) (n : Network) (word_count : MnemonicWordCount)
    (p : WalletDerivationPath) : SdkResult (WalletAccount * GeneratedMnemonic) :=
  mnemonic ← map_err SdkProtocol (generate_mnemonic drawn word_count);
  account ← account_from_mnemonic n mnemonic "" p;
  Ok (account,
    {| gm_phrase := mnemonic; gm_word_count := word_count_as_usize word_count;
       gm_derivation_path := path_to_string p;
       gm_warning := "Back up this mnemonic now. The SDK keeps keys in memory only and does not persist them." |}).

Definition account_generate (drawn : Z → result string Mnemonic) (n : Network) (word_count : MnemonicWordCount) :=
  generate_with_path drawn n word_count WalletDerivationPath_default.

Definition account_ensure_network (expected : Network) (a : WalletAccount) : SdkResult () :=
  if negb (bool_decide (wa_network a = expected))
  then Err (SdkInput ("wallet network " ++ network_id (wa_network a) ++ " does not match expected "
         ++ network_id expected)%string)
  else Ok ().

Definition TransferBuilder_new (n : Network) : TransferBuilder := mkBuilder n 1 None None None None Amount_ZERO None.

Definition builder_version (version : Z) (b : TransferBuilder) : TransferBuilder :=
  mkBuilder (tb_network b) version (tb_to b) (tb_amount b) (tb_nonce b) (tb_max_fee b) (tb_priority_fee b) (tb_memo_hash b).

Definition builder_to (to : string) (b : TransferBuilder) : SdkResult TransferBuilder :=
  address ← map_err SdkProtocol (Address_parse to);
  if negb (bool_decide (addr_network address = tb_network b))
  then Err (SdkInput ("recipient network " ++ network_id (addr_network address)
         ++ " does not match builder network " ++ network_id (tb_network b))%string)
  else Ok (mkBuilder (tb_network b) (tb_version b) (Some (Address_to_string address)) (tb_amount b) (tb_nonce b)
         (tb_max_fee b) (tb_priority_fee b) (tb_memo_hash b)).

Definition builder_amount (amount : Amount) (b : TransferBuilder) : SdkResult TransferBuilder :=
  if amount =? Amount_ZERO then Err (SdkInput "transaction amount must be greater than zero")
  else Ok (mkBuilder (tb_network b) (tb_version b) (tb_to b) (Some amount) (tb_nonce b) (tb_max_fee b)
         (tb_priority_fee b) (tb_memo_hash b)).

Definition builder_amount_vire (value : string) (b : TransferBuilder) : SdkResult TransferBuilder :=
  amount ← map_err SdkProtocol (parse_vire value); builder_amount amount b.

Definition builder_nonce (nonce : Z) (b : TransferBuilder) : TransferBuilder :=
  mkBuilder (tb_network b) (tb_version b) (tb_to b) (tb_amount b) (Some nonce) (tb_max_fee b) (tb_priority_fee b)
    (tb_memo_hash b).

Definition builder_max_fee (max_fee : Amount) (b : TransferBuilder) : TransferBuilder :=
  mkBuilder (tb_network b) (tb_version b) (tb_to b) (tb_amount b) (tb_nonce b) (Some max_fee) (tb_priority_fee b)
    (tb_memo_hash b).

Definition builder_priority_fee (priority_fee : Amount) (b : TransferBuilder) : TransferBuilder :=
  mkBuilder (tb_network b) (tb_version b) (tb_to b) (tb_amount b) (tb_nonce b) (tb_max_fee b) priority_fee
    (tb_memo_hash b).

Definition builder_fees (base_fee priority_fee : Amount) (b : TransferBuilder) : SdkResult TransferBuilder :=
  max_fee ← map_err SdkProtocol (amount_checked_add base_fee priority_fee);
  Ok (builder_max_fee max_fee (builder_priority_fee priority_fee b)).

Definition builder_memo_hash (memo : Hash) (b : TransferBuilder) : TransferBuilder :=
  mkBuilder (tb_network b) (tb_version b) (tb_to b) (tb_amount b) (tb_nonce b) (tb_max_fee b) (tb_priority_fee b)
    (Some memo).

Definition saturating_add_for_fee (a other : Amount) : Amount := unwrap_or (umax 64) (amount_checked_add a other).

Definition builder_sign (account : WalletAccount) (b : TransferBuilder) : SdkResult SignedTransfer :=
  _ ← account_ensure_network (tb_network b) account;
  to ← ok_or (SdkInput "transfer recipient is required") (tb_to b);
  amount ← ok_or (SdkInput "transfer amount is required") (tb_amount b);
  nonce ← ok_or (SdkInput "transfer nonce is required") (tb_nonce b);
  let max_fee := default (saturating_add_for_fee INITIAL_BASE_FEE_ATOMIC (tb_priority_fee b)) (tb_max_fee b) in
  tx ← map_err SdkProtocol (Transaction_new_signed (tb_version b) nonce (tb_network b) (wa_private_key account) to
         amount max_fee (tb_priority_fee b) (tb_memo_hash b));
  _ ← map_err SdkProtocol (Transaction_verify tx);
  Ok (mkSigned (tb_network b) (hash_to_hex (tx_hash tx)) tx).

End sdk.
