(* ===== verification/MinerSettings.v ===== *)
(** [vireon-miner/src/config.rs], [source.rs], [backends/mod.rs] and
    [backends/coordinator.rs]: the miner's configuration, its sources of work, the
    inventory of devices and the coordinator that checks what the device finds.
    TOML, the [url] crate, HTTP and the CUDA device are arguments; hash rates
    ([f64]) are left out. *)

From S2P Require Import Prelude RustStd Interfaces Crypto Errors Network Amount Signing Address Transaction Block Pow Consensus Genesis MinerWork Pool PoolApp Sdk.

(** ** Modes ([coordinator.rs]) *)

Inductive MiningMode := ModeGpu | ModeCuda | ModeAuto.

Definition MiningMode_parse (value : string) : result MinerError MiningMode :=
  let v := str_to_ascii_lowercase (str_trim value) in
  if bool_decide (v ∈ ["cuda"; "nvidia"]) then Ok ModeCuda
  else if bool_decide (v ∈ ["gpu"; "gpu-only"]) then Ok ModeGpu
  else if bool_decide (v = "auto") then Ok ModeAuto
  else if bool_decide (v ∈ ["cpu"; "cpu-gpu"; "cpu+gpu"; "hybrid"; "both"; "opencl"])
  then Err (MinerConfigError "only NVIDIA CUDA GPU mining is supported; CPU/OpenCL mining is disabled")
  else Err (MinerConfigError ("unknown mining backend mode '" ++ v ++ "' (expected cuda)")).

Definition GPU_REQUIRED : string :=
  "No working NVIDIA CUDA miner is available. CPU/OpenCL mining and CPU fallback are disabled.".

(** ** Configuration *)

Definition MINER_CONFIG_SCHEMA_VERSION : Z := 4.
Definition MAX_NONCE_BATCH : Z := 131072.
Definition MAX_GPU_BATCH : Z := 131072.
Definition default_nonce_batch_size : Z := 65536.
Definition default_template_refresh_seconds : Z := 5.
Definition default_status_interval_seconds : Z := 10.
Definition default_timeout_seconds : Z := 10.
Definition default_backend_mode : string := "cuda".
Definition default_gpu_intensity : Z := 75.

(** [enum WorkSourceConfig] *)
Inductive WorkSourceConfig :=
| SourceRpc (url : string) (timeout_seconds : Z)
| SourcePool (url worker_name : string) (timeout_seconds : Z)
| SourceFile (template_path submission_path : string).

(** [struct MinerConfig] *)
Record MinerConfig := mkMinerConfig {
  mf_schema_version : Z;
  mf_miner_address : string;
  mf_nonce_batch_size : Z;
  mf_template_refresh_seconds : Z;
  mf_status_interval_seconds : Z;
  mf_metrics_path : option string;
  mf_activity_log_path : option string;
  mf_backend_mode : string;
  mf_gpu_intensity : Z;
  mf_gpu_batch_size : Z;
  mf_gpu_devices : list string;
  mf_kernel_validation : bool;
  mf_source : WorkSourceConfig;
}.

Definition effective_nonce_batch (c : MinerConfig) : Z := clamp 1 MAX_NONCE_BATCH (mf_nonce_batch_size c).
Definition effective_gpu_batch (c : MinerConfig) : Z :=
  clamp 256 MAX_GPU_BATCH (if mf_gpu_batch_size c >? 0 then mf_gpu_batch_size c else mf_nonce_batch_size c).
Definition effective_gpu_intensity (c : MinerConfig) : Z :=
  if mf_gpu_intensity c =? 0 then 75 else Z.min (mf_gpu_intensity c) 100.

(** The changes [load] makes to the parsed file: the migration, then the bounds. *)
Definition migrated (c : MinerConfig) : MinerConfig :=
  if mf_schema_version c <? MINER_CONFIG_SCHEMA_VERSION then
    mkMinerConfig MINER_CONFIG_SCHEMA_VERSION (mf_miner_address c) (mf_nonce_batch_size c) (mf_template_refresh_seconds c)
      (mf_status_interval_seconds c) (mf_metrics_path c) (mf_activity_log_path c)
      (if str_is_empty (mf_backend_mode c) then default_backend_mode else mf_backend_mode c)
      (if mf_gpu_intensity c =? 0 then default_gpu_intensity else mf_gpu_intensity c)
      (mf_gpu_batch_size c) (mf_gpu_devices c) (mf_kernel_validation c) (mf_source c)
  else c.
Definition bounded (c : MinerConfig) : MinerConfig :=
  mkMinerConfig (mf_schema_version c) (mf_miner_address c) (clamp 1 MAX_NONCE_BATCH (mf_nonce_batch_size c))
    (mf_template_refresh_seconds c) (mf_status_interval_seconds c) (mf_metrics_path c) (mf_activity_log_path c)
    (mf_backend_mode c) (mf_gpu_intensity c)
    (if mf_gpu_batch_size c >? 0 then clamp 1 MAX_GPU_BATCH (mf_gpu_batch_size c) else mf_gpu_batch_size c)
    (mf_gpu_devices c) (mf_kernel_validation c) (mf_source c).

Section settings.
Context `{Primitives}.

(** [url_scheme]: the scheme of a URL the [url] crate parses, or its error. *)
Definition MinerConfig_validate (url_scheme : string → result string string) (c : MinerConfig) : result MinerError () :=
  _ ← map_err (λ e, MinerConfigError ("invalid miner_address: " ++ VireonError_fmt e)%string) (Address_parse (mf_miner_address c));
  if mf_nonce_batch_size c =? 0 then Err (MinerConfigError "nonce_batch_size must be at least 1") else
  if (mf_template_refresh_seconds c =? 0) || (mf_status_interval_seconds c =? 0)
  then Err (MinerConfigError "refresh and status intervals must be at least 1 second") else
  _ ← MiningMode_parse (mf_backend_mode c);
  if mf_gpu_intensity c >? 100 then Err (MinerConfigError "gpu_intensity must be between 0 and 100") else
  _ ← match mf_source c with
      | SourceRpc url _ | SourcePool url _ _ =>
          scheme ← map_err (λ e, MinerConfigError ("invalid RPC URL: " ++ e)%string) (url_scheme url);
          if negb (bool_decide (scheme = "http"%string)) && negb (bool_decide (scheme = "https"%string))
          then Err (MinerConfigError "RPC URL scheme must be http or https") else Ok ()
      | SourceFile _ _ => Ok ()
      end;
  match mf_source c with
  | SourcePool _ worker_name _ =>
      if str_is_empty worker_name || (str_len worker_name >? 64) || negb (forallb worker_char (str_bytes worker_name))
      then Err (MinerConfigError "pool worker_name must use 1-64 ASCII letters, digits, dash, dot or underscore") else Ok ()
  | _ => Ok ()
  end.

(** [load]: [raw] is the outcome of reading the file, [parse] of the TOML. *)
Definition MinerConfig_load {Raw} (url_scheme : string → result string string) (parse : Raw → result string MinerConfig)
    (path : string) (raw : result string Raw) : result MinerError MinerConfig :=
  content ← map_err (λ e, MinerConfigError ("cannot read " ++ path ++ ": " ++ e)%string) raw;
  parsed ← map_err MinerToml (parse content);
  let config := bounded (migrated parsed) in
  _ ← MinerConfig_validate url_scheme config;
  Ok config.

(** The options of the [mine] command, and the configuration it runs with. *)
Definition with_options (mode : option string) (gpu_device : option string) (gpu_intensity : option Z) (c : MinerConfig) : MinerConfig :=
  mkMinerConfig (mf_schema_version c) (mf_miner_address c) (mf_nonce_batch_size c) (mf_template_refresh_seconds c)
    (mf_status_interval_seconds c) (mf_metrics_path c) (mf_activity_log_path c) (default (mf_backend_mode c) mode)
    (default (mf_gpu_intensity c) gpu_intensity) (mf_gpu_batch_size c)
    (match gpu_device with Some d => [d] | None => mf_gpu_devices c end) (mf_kernel_validation c) (mf_source c).
Definition mine_config (url_scheme : string → result string string) (mode gpu_device : option string) (gpu_intensity : option Z)
    (c : MinerConfig) : result MinerError MinerConfig :=
  _ ← match mode with Some m => _ ← MiningMode_parse m; Ok () | None => Ok () end;
  let config := with_options mode gpu_device gpu_intensity c in
  _ ← MinerConfig_validate url_scheme config;
  Ok config.

(** ** Sources of work ([source.rs]) *)

(** [trait WorkSource]; [ws_build] takes the clock reading. *)
Record WorkSource := {
  ws_fetch : string → result MinerError MiningTemplate;
  ws_submit : MiningSubmitRequest → result MinerError MiningSubmitResponse;
  ws_description : string;
  ws_build : Z → MiningTemplate → string → result MinerError Block;
}.

(** An HTTP answer: its status, as a number and as text, and its body. *)
Record TextAnswer := { ta_status : Z; ta_status_text : string; ta_body : result string string }.
Definition ta_success (a : TextAnswer) : bool := (200 <=? ta_status a) && (ta_status a <=? 299).

(** The client of the [reqwest] crate, with the decoders of the bodies. *)
Record MinerHttp := {
  mh_get : string → list (string * string) → result string TextAnswer;
  mh_post : string → MiningSubmitRequest → result string TextAnswer;
  mh_template : string → result string MiningTemplate;
  mh_response : string → result string MiningSubmitResponse;
}.

Definition answered {T} (operation : string) (json : string → result string T) (answer : result string TextAnswer) :
    result MinerError T :=
  a ← map_err MinerRpc answer;
  parse_response operation (ta_status_text a) (ta_success a) (ta_body a) json.

Definition RpcWorkSource (http : MinerHttp) (url : string) : WorkSource :=
  let base := trim_slash url in {|
  ws_fetch miner_address := answered "template" (mh_template http)
    (mh_get http (base ++ "/mining/template")%string [("miner_address", miner_address)%string]);
  ws_submit request := answered "submission" (mh_response http) (mh_post http (base ++ "/mining/submit")%string request);
  ws_description := ("RPC " ++ base)%string;
  ws_build := λ now t miner_address, validate_and_build now miner_address t |}.

Definition PoolWorkSource (http : MinerHttp) (url miner_address worker_name : string) : WorkSource :=
  let base := trim_slash url in {|
  ws_fetch address := answered "pool work" (mh_template http)
    (mh_get http (base ++ "/api/v1/work")%string [("miner_address", address); ("worker_name", worker_name)]%string);
  ws_submit request := answered "pool share" (mh_response http)
    (mh_post http (base ++ "/api/v1/shares")%string (PoolWorkSource_request miner_address worker_name request));
  ws_description := ("pool " ++ base ++ " worker=" ++ worker_name)%string;
  ws_build := λ now t _, PoolWorkSource_validate_and_build now t |}.

(** [template]: the file's template, [None] when it is no file. *)
Definition FileWorkSource (template : option (result MinerError MiningTemplate)) (written : result MinerError ())
    (template_path : string) : WorkSource := {|
  ws_fetch := λ _, default (Err (WorkFileMissing template_path)) template;
  ws_submit := FileWorkSource_submit written;
  ws_description := ("local file " ++ template_path)%string;
  ws_build := λ now t miner_address, validate_and_build now miner_address t |}.

(** [make_source]; [client] is the outcome of building the HTTP client. *)
Definition make_source (http : MinerHttp) (client : result string ()) (template : option (result MinerError MiningTemplate))
    (written : result MinerError ()) (c : MinerConfig) : result MinerError WorkSource :=
  match mf_source c with
  | SourceRpc url _ => _ ← map_err MinerRpc client; Ok (RpcWorkSource http url)
  | SourcePool url worker_name _ => _ ← map_err MinerRpc client; Ok (PoolWorkSource http url (mf_miner_address c) worker_name)
  | SourceFile template_path _ => Ok (FileWorkSource template written template_path)
  end.

(** ** The backend *)

(** [struct MiningJob] *)
Record MiningJob := mkJobOf {
  mj_template_id : string;
  mj_block : Block;
  mj_bits : Z;
  mj_start_nonce : Z;
  mj_max_nonces : Z;
}.

(** [struct MiningSolution] *)
Record MiningSolution := mkSolution {
  so_nonce : Z;
  so_final_hash : Hash;
  so_mix_hash : Hash;
  so_attempts : Z;
  so_device_id : string;
}.

(** [struct BackendMetrics], without the hash rate. *)
Record BackendMetrics := mkMetrics {
  bm_hashes_attempted : Z;
  bm_accepted_local : Z;
  bm_rejected_local : Z;
  bm_stale : Z;
  bm_active_devices : Z;
  bm_last_error : option string;
}.

(** [CudaMiningCoordinator::mine_batch]: [cuda] is the device's part, absent in a
    build without CUDA; [before] and [after] are its metrics around the batch. *)
Definition coordinator_mine_batch (ready : bool) (cuda : option (MiningJob → result MinerError (option MiningSolution)))
    (before after : BackendMetrics) (job : MiningJob) : state_result BackendMetrics MinerError (option MiningSolution) := λ m,
  if negb ready then (Err (MinerConfigError "CUDA coordinator not initialized"), m) else
  match cuda with
  | None => (Err (MinerConfigError GPU_REQUIRED), m)
  | Some search =>
      match search job with
      | Err e => (Err e, m)
      | Ok found =>
          let m := mkMetrics
            (saturating_add 64 (bm_hashes_attempted m) (saturating_sub (bm_hashes_attempted after) (bm_hashes_attempted before)))
            (bm_accepted_local m) (bm_rejected_local m) (bm_stale m) (bm_active_devices after) (bm_last_error after) in
          match found with
          | None => (Ok None, m)
          | Some solution =>
              match revalidate_solution (mj_block job) (so_nonce solution) (so_mix_hash solution) (mj_bits job) with
              | Err e => (Err e, m)
              | Ok true => (Ok (Some solution), mkMetrics (bm_hashes_attempted m) (saturating_add 64 (bm_accepted_local m) 1)
                  (bm_rejected_local m) (bm_stale m) (bm_active_devices m) (bm_last_error m))
              | Ok false => (Err (MinerGpu "CUDA produced a candidate that failed canonical FiroPoW validation"),
                  mkMetrics (bm_hashes_attempted m) (bm_accepted_local m) (saturating_add 64 (bm_rejected_local m) 1)
                    (bm_stale m) (bm_active_devices m) (bm_last_error m))
              end
          end
      end
  end.

(** [make_job_from_template]: the job of a benchmark. *)
Definition make_job_from_template (source : WorkSource) (now : Z) (c : MinerConfig) : result MinerError MiningJob :=
  template ← ws_fetch source (mf_miner_address c);
  block ← ws_build source now template (mf_miner_address c);
  Ok (mkJobOf (mt_template_id template) block (mt_difficulty template) (mt_nonce_start template) (mf_nonce_batch_size c)).

End settings.

(** ** Devices ([backends/mod.rs]) *)

(** [struct MiningDevice]; the only backend is CUDA. *)
Record MiningDevice := mkDevice {
  md_id : string;
  md_name : string;
  md_vendor : string;
  md_index : Z;
  md_compute_units : option Z;
  md_memory : option Z;
  md_selected : bool;
}.

Definition ascii_alphanumeric (b : byte) : bool :=
  let z := byte_Z b in ((48 <=? z) && (z <=? 57)) || ((65 <=? z) && (z <=? 90)) || ((97 <=? z) && (z <=? 122)).

Definition physical_key (d : MiningDevice) : string :=
  (str_of_bytes (byte_lower <$> List.filter ascii_alphanumeric (str_bytes (md_name d))) ++ ":"
     ++ uint_to_string (default 0 (md_memory d)))%string.

(** [filter(|device| seen.insert(physical_key(device)))] *)
Fixpoint first_of_each (seen : gset string) (raw : list MiningDevice) : list MiningDevice :=
  match raw with
  | [] => []
  | d :: rest =>
      if bool_decide (physical_key d ∈ seen) then first_of_each seen rest
      else d :: first_of_each ({[physical_key d]} ∪ seen) rest
  end.

Definition renumbered (index : nat) (d : MiningDevice) : MiningDevice :=
  mkDevice (md_id d) (md_name d) (md_vendor d) (Z.of_nat index) (md_compute_units d) (md_memory d) true.

Definition dedupe_gpu_devices (raw : list MiningDevice) : list MiningDevice * list string :=
  let devices := imap renumbered (first_of_each ∅ raw) in
  (devices,
   match length devices with
   | O => ["No NVIDIA CUDA GPU found. CPU and host-emulated mining are disabled."]
   | S O => ["Single CUDA GPU detected."]
   | n => [(uint_to_string (Z.of_nat n) ++ " CUDA GPUs detected; multi-GPU is enabled.")]
   end%string).

(** The devices the [devices] command lists for a filter. *)
Definition devices_listed (backend_filter : string) (devices : list MiningDevice) : list MiningDevice :=
  if bool_decide (str_to_ascii_lowercase backend_filter ∈ ["cpu"; "opencl"]%string) then [] else devices.

Inductive GpuVendorClass := Nvidia | Amd | Intel | OtherVendor.

Definition byte_upper (b : byte) : byte :=
  let z := byte_Z b in if (97 <=? z) && (z <=? 122) then byte_of_Z (z - 32) else b.
Definition str_to_ascii_uppercase (s : string) : string := str_of_bytes (byte_upper <$> str_bytes s).

Definition classify_gpu (vendor name : string) : GpuVendorClass :=
  let description := str_to_ascii_uppercase (vendor ++ " " ++ name) in
  let any := existsb (str_contains description) in
  if any ["NVIDIA"; "GEFORCE"; "RTX"; "GTX"; "QUADRO"; "TESLA"; "TITAN"]%string then Nvidia
  else if any ["AMD"; "ADVANCED MICRO"; "RADEON"; "ATI "; "ATI/"]%string then Amd
  else if any ["INTEL"]%string then Intel
  else OtherVendor.
