(* ===== verification/MinerLoop.v ===== *)
(** [vireon-miner/src/main.rs]: the mining loop.  A turn of the loop is a state
    transformer whose inputs are what the outside gives it: whether the refresh
    and status intervals are over, the fetched template, the clock, what the
    device finds, the answer to a submission, the outcome of writing the metrics.
    The printed lines, the heartbeat metrics (whose outcome the code ignores) and
    the hash rates are left out; the jobs and submissions are kept as a trace. *)

From S2P Require Import Prelude RustStd Interfaces Crypto Errors Network Amount Signing Address Transaction Block Pow Consensus Genesis MinerWork Sdk MinerSettings.

(** The variables of [mine], with the jobs dispatched and the requests sent. *)
Record MinerState := mkMiner {
  mi_template : option (MiningTemplate * Block);
  mi_template_id : string;
  mi_fingerprint : string;
  mi_cursor : Z;
  mi_force : bool;
  mi_total_hashes : Z;
  mi_accepted_blocks : Z;
  mi_accepted_shares : Z;
  mi_rejected_local : Z;
  mi_stale : Z;
  mi_share_error : option string;
  mi_jobs : list (string * MiningJob);
  mi_sent : list (string * MiningSubmitRequest);
}.

Definition miner_start : MinerState := mkMiner None "" "" 0 false 0 0 0 0 0 None [] [].

(** What a turn meets. *)
Record Turn := {
  tu_refresh_due : bool;
  tu_fetched : result MinerError MiningTemplate;
  tu_now : Z;
  tu_mined : MiningJob → result MinerError (option MiningSolution);
  tu_metrics : BackendMetrics;
  tu_submit : MiningSubmitRequest → result MinerError MiningSubmitResponse;
  tu_status_due : bool;
  tu_saved : result MinerError ();
}.

(** How a turn ends: the loop goes on, or [mine] returns. *)
Inductive TurnEnd := Again | Done.

Abbreviation miner A := (state_result MinerState MinerError A).

(** ** Updates *)

Definition set_template (t : option (MiningTemplate * Block)) (s : MinerState) : MinerState :=
  mkMiner t (mi_template_id s) (mi_fingerprint s) (mi_cursor s) (mi_force s) (mi_total_hashes s) (mi_accepted_blocks s)
    (mi_accepted_shares s) (mi_rejected_local s) (mi_stale s) (mi_share_error s) (mi_jobs s) (mi_sent s).
Definition set_work (id fingerprint : string) (cursor : Z) (s : MinerState) : MinerState :=
  mkMiner (mi_template s) id fingerprint cursor (mi_force s) (mi_total_hashes s) (mi_accepted_blocks s)
    (mi_accepted_shares s) (mi_rejected_local s) (mi_stale s) (mi_share_error s) (mi_jobs s) (mi_sent s).
Definition set_nonce_cursor (cursor : Z) (s : MinerState) : MinerState :=
  set_work (mi_template_id s) (mi_fingerprint s) cursor s.
Definition set_force (b : bool) (s : MinerState) : MinerState :=
  mkMiner (mi_template s) (mi_template_id s) (mi_fingerprint s) (mi_cursor s) b (mi_total_hashes s) (mi_accepted_blocks s)
    (mi_accepted_shares s) (mi_rejected_local s) (mi_stale s) (mi_share_error s) (mi_jobs s) (mi_sent s).
Definition set_counts (total blocks shares rejected stale : Z) (s : MinerState) : MinerState :=
  mkMiner (mi_template s) (mi_template_id s) (mi_fingerprint s) (mi_cursor s) (mi_force s) total blocks shares rejected stale
    (mi_share_error s) (mi_jobs s) (mi_sent s).
Definition set_share_error (e : option string) (s : MinerState) : MinerState :=
  mkMiner (mi_template s) (mi_template_id s) (mi_fingerprint s) (mi_cursor s) (mi_force s) (mi_total_hashes s)
    (mi_accepted_blocks s) (mi_accepted_shares s) (mi_rejected_local s) (mi_stale s) e (mi_jobs s) (mi_sent s).
Definition note_job (j : MiningJob) (s : MinerState) : MinerState :=
  mkMiner (mi_template s) (mi_template_id s) (mi_fingerprint s) (mi_cursor s) (mi_force s) (mi_total_hashes s)
    (mi_accepted_blocks s) (mi_accepted_shares s) (mi_rejected_local s) (mi_stale s) (mi_share_error s)
    (mi_jobs s ++ [(mi_fingerprint s, j)]) (mi_sent s).
Definition note_sent (r : MiningSubmitRequest) (s : MinerState) : MinerState :=
  mkMiner (mi_template s) (mi_template_id s) (mi_fingerprint s) (mi_cursor s) (mi_force s) (mi_total_hashes s)
    (mi_accepted_blocks s) (mi_accepted_shares s) (mi_rejected_local s) (mi_stale s) (mi_share_error s) (mi_jobs s)
    (mi_sent s ++ [(mi_fingerprint s, r)]).
Definition add_blocks (s : MinerState) : MinerState :=
  set_counts (mi_total_hashes s) (saturating_add 64 (mi_accepted_blocks s) 1) (mi_accepted_shares s) (mi_rejected_local s) (mi_stale s) s.
Definition add_shares (s : MinerState) : MinerState :=
  set_counts (mi_total_hashes s) (mi_accepted_blocks s) (saturating_add 64 (mi_accepted_shares s) 1) (mi_rejected_local s) (mi_stale s) s.
Definition add_rejected (s : MinerState) : MinerState :=
  set_counts (mi_total_hashes s) (mi_accepted_blocks s) (mi_accepted_shares s) (saturating_add 64 (mi_rejected_local s) 1) (mi_stale s) s.
Definition add_stale (s : MinerState) : MinerState :=
  set_counts (mi_total_hashes s) (mi_accepted_blocks s) (mi_accepted_shares s) (mi_rejected_local s) (saturating_add 64 (mi_stale s) 1) s.
(** [template = None; force_template_refresh = true] *)
Definition drop_work (s : MinerState) : MinerState := set_force true (set_template None s).

(** ** The parts of a turn *)

Definition work_fingerprint (t : MiningTemplate) : string :=
  (uint_to_string (mt_height t) ++ ":" ++ mt_previous_hash t ++ ":" ++ mt_merkle_root t ++ ":"
     ++ uint_to_string (mt_difficulty t) ++ ":" ++ uint_to_string (mt_timestamp t))%string.

Definition share_bits_of (t : MiningTemplate) : Z :=
  Z.min (default (mt_difficulty t) (mt_share_difficulty t)) (mt_difficulty t).

(** The errors after which the pool's work is fetched anew. *)
Definition stale_message (msg : string) : bool :=
  str_contains msg "stale" || str_contains msg "expired" || str_contains msg "unknown job" || str_contains msg "409"
  || str_contains msg "Conflict".

Section turn.
Context `{Primitives}.
Context (config : MinerConfig) (source : WorkSource) (once : bool) (turn : Turn).

(** A fetched template: built, and its nonces restarted when the work is new. *)
Definition take_template (next : MiningTemplate) : miner () :=
  block ← sr_lift (ws_build source (tu_now turn) next (mf_miner_address config));
  s ← sr_get;
  let fingerprint := work_fingerprint next in
  let changed := negb (bool_decide (fingerprint = mi_fingerprint s)) in
  _ ← sr_modify (set_work (mt_template_id next) fingerprint (if changed then mt_nonce_start next else mi_cursor s));
  _ ← sr_modify (set_template (Some (next, block)));
  sr_modify (set_share_error None).

(** The refresh at the head of the loop; [false] when the turn starts over. *)
Definition refresh : miner bool :=
  s ← sr_get;
  if is_none (mi_template s) || mi_force s || tu_refresh_due turn then
    _ ← sr_modify (set_force false);
    match tu_fetched turn with
    | Ok next => _ ← take_template next; mret true
    | Err _ => mret (negb (is_none (mi_template s)))
    end
  else mret true.

Definition job_of (t : MiningTemplate) (b : Block) (cursor : Z) : MiningJob :=
  mkJobOf (mt_template_id t) b (share_bits_of t) cursor (effective_nonce_batch config).

(** The counters after a batch. *)
Definition batch_done (s : MinerState) : MinerState :=
  let advance := Z.max (effective_nonce_batch config) 1 in
  let attempted := Z.min (Z.max (saturating_sub (bm_hashes_attempted (tu_metrics turn)) (mi_total_hashes s)) 1)
    (saturating_mul 64 advance 2) in
  let batch_hashes := Z.max (Z.min attempted advance) 1 in
  set_nonce_cursor (saturating_add 64 (mi_cursor s) advance)
    (set_counts (saturating_add 64 (mi_total_hashes s) batch_hashes) (mi_accepted_blocks s) (mi_accepted_shares s)
       (Z.max (mi_rejected_local s) (bm_rejected_local (tu_metrics turn))) (Z.max (mi_stale s) (bm_stale (tu_metrics turn))) s).

(** The cursor past a solution. *)
Definition past_solution (nonce cursor : Z) : Z :=
  let past := wrapping_add 64 nonce 1 in
  if (past >? cursor) || (uwrap 64 (cursor - past) >? 2 ^ 62) then past else cursor.

(** The answer to a submission; [None] when the turn goes on to the status. *)
Definition on_response (response : MiningSubmitResponse) : miner (option TurnEnd) :=
  match ms_status response with
  | Accepted =>
      _ ← sr_modify (λ s, add_shares (add_blocks s));
      if once then mret (Some Done) else
      _ ← sr_modify (λ s, drop_work (set_share_error None s));
      mret (Some Again)
  | PendingLocal =>
      _ ← sr_modify add_shares;
      if once then mret (Some Done) else
      _ ← sr_modify (set_share_error None);
      mret None
  | StaleWork =>
      _ ← sr_modify (λ s, drop_work (set_share_error
        (match ms_reason response with Some r => Some r | None => Some "stale work"%string end) (add_stale s)));
      mret (Some Again)
  | Rejected =>
      _ ← sr_modify (λ s, drop_work (set_share_error (ms_reason response) s));
      mret (Some Again)
  end.

Definition submit_solution (t : MiningTemplate) (solution : MiningSolution) : miner (option TurnEnd) :=
  let request := MiningSubmitRequest_from_solution (mt_template_id t) (so_nonce solution) (so_final_hash solution) (so_mix_hash solution) in
  _ ← sr_modify (note_sent request);
  match tu_submit turn request with
  | Ok response => on_response response
  | Err e =>
      let msg := MinerError_fmt e in
      _ ← sr_modify (λ s, set_share_error (Some msg) (add_rejected s));
      if stale_message msg then _ ← sr_modify (λ s, drop_work (add_stale s)); mret (Some Again) else mret None
  end.

(** A solution of the device, checked by the consensus code before it is sent. *)
Definition on_solution (t : MiningTemplate) (b : Block) (solution : MiningSolution) : miner (option TurnEnd) :=
  _ ← sr_modify (λ s, set_nonce_cursor (past_solution (so_nonce solution) (mi_cursor s)) s);
  match pow_hash_with_nonce b (so_nonce solution) with
  | Err _ => _ ← sr_modify add_rejected; mret (Some Again)
  | Ok out =>
      if negb (bool_decide (final_hash out = so_final_hash solution)) || negb (bool_decide (mix_hash out = so_mix_hash solution))
         || negb (check_pow (final_hash out) (share_bits_of t))
      then _ ← sr_modify add_rejected; mret None
      else submit_solution t solution
  end.

(** The turn once there is work: a lease mined, its solution sent, the status. *)
Definition mine_lease (t : MiningTemplate) (b : Block) : miner TurnEnd :=
  s ← sr_get;
  let job := job_of t b (mi_cursor s) in
  _ ← sr_modify (note_job job);
  found ← sr_lift (tu_mined turn job);
  _ ← sr_modify batch_done;
  ended ← match found with Some solution => on_solution t b solution | None => mret None end;
  match ended with
  | Some e => mret e
  | None => if tu_status_due turn then _ ← sr_lift (tu_saved turn); mret Again else mret Again
  end.

(** One turn of the loop. *)
Definition mine_turn : miner TurnEnd :=
  ready ← refresh;
  if negb ready then mret Again else
  s ← sr_get;
  match mi_template s with
  | Some (t, b) => mine_lease t b
  | None => _ ← sr_modify (set_force true); mret Again
  end.

End turn.

(** [mine]: the loop over what each turn meets, until it returns or fails. *)
Fixpoint mine_loop `{Primitives} (config : MinerConfig) (source : WorkSource) (once : bool) (turns : list Turn) : miner TurnEnd :=
  match turns with
  | [] => mret Again
  | turn :: rest =>
      ended ← mine_turn config source once turn;
      match ended with Done => mret Done | Again => mine_loop config source once rest end
  end.

(** [status]: one template fetched and checked. *)
Definition miner_status `{Primitives} (source : WorkSource) (now : Z) (c : MinerConfig) : result MinerError MiningTemplate :=
  template ← ws_fetch source (mf_miner_address c);
  _ ← ws_build source now template (mf_miner_address c);
  Ok template.
