(* ===== verification/MinerTheory.v ===== *)
(** What the mining loop promises: every request it sends is a solution of work it
    was given, leases of nonces follow one another, and the loop ends only by what
    the code stops for; and a share it sends to the pool is recorded there. *)

From S2P Require Import Prelude RustStd Interfaces Crypto Errors Network Amount Signing Address Transaction Block Pow Consensus Genesis MinerWork Pool PoolApp PoolAppTheory Sdk MinerSettings MinerLoop GatewayTheory.

(** ** The parts of a turn *)

Section turns.
Context `{Primitives}.
Context (config : MinerConfig) (source : WorkSource) (once : bool).

(** The turn's fetched template and the block built from it. *)
Definition given (turn : Turn) (t : MiningTemplate) (b : Block) : Prop :=
  tu_fetched turn = Ok t ∧ ws_build source (tu_now turn) t (mf_miner_address config) = Ok b.

(** The work after a turn's refresh: the old one, or the fetched one. *)
Definition refreshed (turn : Turn) (s s' : MinerState) : Prop :=
  (mi_template s' = mi_template s ∧ mi_fingerprint s' = mi_fingerprint s ∧ mi_cursor s' = mi_cursor s) ∨
  ∃ t b, given turn t b ∧ mi_template s' = Some (t, b) ∧ mi_fingerprint s' = work_fingerprint t ∧
    mi_cursor s' = if bool_decide (work_fingerprint t = mi_fingerprint s) then mi_cursor s else mt_nonce_start t.

Lemma refresh_spec turn s r s' :
  refresh config source turn s = (r, s') →
  mi_jobs s' = mi_jobs s ∧ mi_sent s' = mi_sent s ∧
  match r with
  | Ok ready => refreshed turn s s' ∧ (ready = false → mi_template s' = None)
  | Err e => ∃ t, tu_fetched turn = Ok t ∧ ws_build source (tu_now turn) t (mf_miner_address config) = Err e
  end.
Proof.
  unfold refresh. rewrite sr_get_bind. destruct (_ || _).
  2: { intros [= <- <-]. split_and!; [done|done|by left|done]. }
  rewrite sr_modify_bind. destruct (tu_fetched turn) as [t|e] eqn:Ef.
  2: { intros [= <- <-]. split_and!; [done|done|by left|]. cbn. destruct (mi_template s); naive_solver. }
  cbv [mbind state_result_bind]. unfold take_template. cbv [mbind state_result_bind sr_lift].
  destruct (ws_build source (tu_now turn) t _) as [b|e] eqn:Eb.
  - cbn. intros [= <- <-]. split_and!; [done|done| |done]. right. exists t, b. split_and!; [done..|].
    cbn. by destruct (bool_decide _).
  - intros [= <- <-]. split_and!; [done..|]. by exists t.
Qed.

(** What one turn adds to the requests. *)
Definition solves (t : MiningTemplate) (b : Block) (r : MiningSubmitRequest) : Prop :=
  ∃ nonce out, pow_hash_with_nonce b nonce = Ok out ∧ check_pow (final_hash out) (share_bits_of t) = true ∧
    r = MiningSubmitRequest_from_solution (mt_template_id t) nonce (final_hash out) (mix_hash out).

(** A request the turn's server takes as an accepted share or block. *)
Definition taken (turn : Turn) (r : MiningSubmitRequest) : Prop :=
  ∃ resp, tu_submit turn r = Ok resp ∧ (ms_status resp = Accepted ∨ ms_status resp = PendingLocal).

Lemma submit_solution_spec turn t sol s :
  let r := MiningSubmitRequest_from_solution (mt_template_id t) (so_nonce sol) (so_final_hash sol) (so_mix_hash sol) in
  ∃ ended s', submit_solution once turn t sol s = (Ok ended, s') ∧
    mi_jobs s' = mi_jobs s ∧ mi_sent s' = mi_sent s ++ [(mi_fingerprint s, r)] ∧ mi_fingerprint s' = mi_fingerprint s ∧
    mi_cursor s' = mi_cursor s ∧ (mi_template s' = mi_template s ∨ mi_template s' = None) ∧
    (ended = Some Done → once = true ∧ taken turn r).
Proof.
  cbv zeta. unfold submit_solution. rewrite sr_modify_bind. cbv zeta.
  destruct (tu_submit turn _) as [resp|e] eqn:Es.
  - unfold on_response, taken. rewrite Es.
    destruct (ms_status resp) eqn:Em, once; eexists _, _; (split; [reflexivity|]); split_and!; try done; try (by left); try (by right);
      intros _; split; try done; exists resp; rewrite Em; eauto.
  - rewrite sr_modify_bind. destruct (stale_message _); eexists _, _; (split; [reflexivity|]); split_and!; try done; [by right | by left].
Qed.

Lemma on_solution_spec turn t b sol s :
  ∃ ended s', on_solution once turn t b sol s = (Ok ended, s') ∧
    mi_jobs s' = mi_jobs s ∧ mi_fingerprint s' = mi_fingerprint s ∧
    mi_cursor s' = past_solution (so_nonce sol) (mi_cursor s) ∧ (mi_template s' = mi_template s ∨ mi_template s' = None) ∧
    ((mi_sent s' = mi_sent s ∧ ended ≠ Some Done) ∨
     ∃ r, solves t b r ∧ mi_sent s' = mi_sent s ++ [(mi_fingerprint s, r)] ∧ (ended = Some Done → once = true ∧ taken turn r)).
Proof.
  unfold on_solution. rewrite sr_modify_bind. destruct (pow_hash_with_nonce b (so_nonce sol)) as [out|e] eqn:Eo.
  2: { eexists _, _. split; [reflexivity|]. split_and!; [done..|by left|]. by left. }
  destruct (_ || _) eqn:Ec.
  { eexists _, _. split; [reflexivity|]. split_and!; [done..|by left|]. by left. }
  apply orb_false_iff in Ec as [[Ef Em]%orb_false_iff Ep]. rewrite negb_false_iff in Ef, Em, Ep. breflect.
  match goal with |- context [submit_solution once turn t sol ?s1] =>
    destruct (submit_solution_spec turn t sol s1) as (ended & s' & -> & Hj & Hs & Hf & Hc & Ht & Hd) end.
  eexists _, _. split; [reflexivity|]. split_and!; [done..|]. right. eexists. split; [|split; [exact Hs | exact Hd]].
  exists (so_nonce sol), out. split_and!; [done..|]. congruence.
Qed.

(** A device that answers within the lease it was given. *)
Definition lease_ok (j : MiningJob) : Prop := 0 <= mj_start_nonce j ∧ mj_start_nonce j + mj_max_nonces j < 2 ^ 64.
Definition within_leases (turn : Turn) : Prop := ∀ j sol, tu_mined turn j = Ok (Some sol) → 0 <= mj_max_nonces j → lease_ok j →
  mj_start_nonce j <= so_nonce sol < mj_start_nonce j + mj_max_nonces j.

Lemma past_solution_within lo n nonce : 0 <= lo → n <= MAX_NONCE_BATCH → lo + n < 2 ^ 64 → lo <= nonce < lo + n →
  past_solution nonce (lo + n) = lo + n.
Proof.
  unfold MAX_NONCE_BATCH. intros H0 Hn Hm Hs. unfold past_solution, wrapping_add.
  unfold uwrap. rewrite (Z.mod_small (nonce + 1)), Z.mod_small by lia.
  destruct (_ || _) eqn:E; [|done]. apply orb_true_iff in E as [E|E]; rewrite Z.gtb_lt in E; lia.
Qed.

Lemma effective_nonce_batch_bounds : 1 <= effective_nonce_batch config <= MAX_NONCE_BATCH.
Proof. unfold effective_nonce_batch. apply clamp_range. done. Qed.

(** Why a turn stops the loop with an error. *)
Definition turn_fails (turn : Turn) (e : MinerError) : Prop :=
  (∃ t, tu_fetched turn = Ok t ∧ ws_build source (tu_now turn) t (mf_miner_address config) = Err e) ∨
  (∃ j, tu_mined turn j = Err e) ∨ (tu_status_due turn = true ∧ tu_saved turn = Err e).

(** What a turn may send and how it may stop the loop. *)
Definition sends (turn : Turn) (P : string * MiningSubmitRequest → Prop) (r : result MinerError TurnEnd) (s s' : MinerState) : Prop :=
  ∃ sent, mi_sent s' = mi_sent s ++ sent ∧ Forall P sent ∧
    (r = Ok Done → once = true ∧ ∃ e, last (mi_sent s') = Some e ∧ taken turn e.2).

Lemma sends_nothing turn P r s s' : mi_sent s' = mi_sent s → r ≠ Ok Done → sends turn P r s s'.
Proof. intros Hs Hr. exists []. rewrite app_nil_r. by split_and!. Qed.

Lemma mine_lease_spec turn t b s r s' :
  mine_lease config once turn t b s = (r, s') →
  let job := job_of config t b (mi_cursor s) in
  sends turn (λ e, e.1 = mi_fingerprint s ∧ solves t b e.2) r s s' ∧
  mi_jobs s' = mi_jobs s ++ [(mi_fingerprint s, job)] ∧ mi_fingerprint s' = mi_fingerprint s ∧
  (mi_template s' = mi_template s ∨ mi_template s' = None) ∧
  match r with
  | Ok _ => within_leases turn → lease_ok job → mi_cursor s' = mj_start_nonce job + mj_max_nonces job
  | Err e => turn_fails turn e
  end.
Proof.
  unfold mine_lease. rewrite sr_get_bind. cbv zeta. rewrite sr_modify_bind, sr_lift_bind. set (job := job_of config t b (mi_cursor s)).
  destruct (tu_mined turn job) as [found|e] eqn:Em.
  2: { intros [= <- <-]. split_and!; [by apply sends_nothing | done | done | by left |]. right. left. by exists job. }
  rewrite sr_modify_bind. set (s2 := batch_done _ _ _).
  assert (lease_ok job → mi_cursor s2 = mj_start_nonce job + mj_max_nonces job) as Hc2.
  { intros [H0 Hm]. cbn. pose proof effective_nonce_batch_bounds. subst job. cbn in *. unfold saturating_add, umax. lia. }
  intros Hrun.
  assert (∃ ended s3, match found with Some solution => on_solution once turn t b solution | None => mret None end s2 = (Ok ended, s3) ∧
    sends turn (λ e, e.1 = mi_fingerprint s ∧ solves t b e.2) (Ok (default Again ended)) s s3 ∧
    mi_jobs s3 = mi_jobs s ++ [(mi_fingerprint s, job)] ∧ mi_fingerprint s3 = mi_fingerprint s ∧
    (mi_template s3 = mi_template s ∨ mi_template s3 = None) ∧
    (within_leases turn → lease_ok job → mi_cursor s3 = mj_start_nonce job + mj_max_nonces job))
    as (ended & s3 & Es & Hsent & Hj & Hf & Ht & Hc).
  { destruct found as [sol|].
    2: { eexists None, s2. split; [reflexivity|]. split_and!; [by apply sends_nothing | done | done | by left | auto]. }
    destruct (on_solution_spec turn t b sol s2) as (ended & s3 & Es & Hj & Hf & Hc & Ht & Hs).
    exists ended, s3. split; [done|]. split_and!; [|done..|].
    - destruct Hs as [[Hs Hd]|(r' & Hr' & Hs & Hd)].
      + apply sends_nothing; [done|]. destruct ended as [[]|]; cbn; congruence.
      + exists [(mi_fingerprint s, r')]. split_and!; [done | by repeat constructor |]. intros [= Ho].
        destruct ended as [[]|]; try done. destruct (Hd eq_refl) as [Honce Htk]. split; [done|].
        exists (mi_fingerprint s, r'). by rewrite Hs, last_snoc.
    - intros Hwl Hl. rewrite Hc, (Hc2 Hl). pose proof effective_nonce_batch_bounds.
      apply past_solution_within; [apply Hl | cbn; lia | apply Hl | apply (Hwl job); [done | cbn; lia | done]]. }
  rewrite (sr_bind_step _ _ _ _ _ Es) in Hrun.
  destruct ended as [e|]; [injection Hrun as <- <-; by split_and!|].
  destruct (tu_status_due turn) eqn:Ed; [|injection Hrun as <- <-; by split_and!].
  rewrite sr_lift_bind in Hrun. destruct (tu_saved turn) as [[]|e] eqn:Esv; injection Hrun as <- <-; split_and!; try done.
  - destruct Hsent as (l & ? & ? & _). by exists l.
  - by right; right.
Qed.

(** ** Runs *)

(** The work in hand and the requests sent come from the turns [all]. *)
Definition worked (all : list Turn) (s : MinerState) : Prop :=
  ∀ t b, mi_template s = Some (t, b) → mi_fingerprint s = work_fingerprint t ∧ ∃ turn, turn ∈ all ∧ given turn t b.
Definition sent_ok (all : list Turn) (e : string * MiningSubmitRequest) : Prop :=
  ∃ turn t b, turn ∈ all ∧ given turn t b ∧ e.1 = work_fingerprint t ∧ solves t b e.2.

(** The cursor is at the end of the last lease, when the work is that lease's. *)
Definition at_lease_end (s : MinerState) : Prop := ∀ fp j, last (mi_jobs s) = Some (fp, j) →
  fp = mi_fingerprint s → lease_ok j → mi_cursor s = mj_start_nonce j + mj_max_nonces j.
Definition last_is_current (s : MinerState) : Prop := ∀ fp j, last (mi_jobs s) = Some (fp, j) → fp = mi_fingerprint s.

(** The job a turn adds, if any: where its lease starts. *)
Definition adds_job (s s' : MinerState) : Prop :=
  mi_jobs s' = mi_jobs s ∨
  ∃ fp j, mi_jobs s' = mi_jobs s ++ [(fp, j)] ∧ mj_max_nonces j = effective_nonce_batch config ∧
    ∀ j0, at_lease_end s → last (mi_jobs s) = Some (fp, j0) → lease_ok j0 → mj_start_nonce j = mj_start_nonce j0 + mj_max_nonces j0.

Lemma refreshed_worked all turn s s' : turn ∈ all → refreshed turn s s' → worked all s → worked all s'.
Proof.
  intros Hin [(Ht & Hf & _)|(t & b & Hg & Ht & Hf & _)] Hw t' b' Ht'.
  - rewrite Ht in Ht'. rewrite Hf. by apply (Hw _ b').
  - rewrite Ht in Ht'. injection Ht' as <- <-. split; [done|]. by exists turn.
Qed.

Lemma refreshed_lease turn s s' : mi_jobs s' = mi_jobs s → refreshed turn s s' → last_is_current s → at_lease_end s → at_lease_end s'.
Proof.
  intros Hj Href Hl He fp j Hlast Hfp. rewrite Hj in Hlast. pose proof (Hl _ _ Hlast) as Hcur.
  destruct Href as [(_ & _ & ->)|(t & b & _ & _ & Hf & ->)]; [by apply (He fp)|].
  rewrite bool_decide_true by congruence. by apply (He fp).
Qed.

Lemma mine_turn_spec all turn s r s' :
  mine_turn config source once turn s = (r, s') → turn ∈ all → worked all s → last_is_current s →
  sends turn (sent_ok all) r s s' ∧ adds_job s s' ∧
  match r with Ok _ => worked all s' ∧ last_is_current s' ∧ (within_leases turn → at_lease_end s → at_lease_end s') | Err e => turn_fails turn e end.
Proof.
  unfold mine_turn. intros Hrun Hin Hw Hl. destruct (refresh config source turn s) as [ready s1] eqn:Er.
  destruct (refresh_spec _ _ _ _ Er) as (Hj1 & Hs1 & Hr1). unfold mbind, state_result_bind in Hrun. rewrite Er in Hrun.
  destruct ready as [ready|e].
  2: { injection Hrun as <- <-. split_and!; [by apply sends_nothing | by left | by left]. }
  destruct Hr1 as [Href Hready].
  pose proof (refreshed_worked _ _ _ _ Hin Href Hw) as Hw1. pose proof (refreshed_lease _ _ _ Hj1 Href Hl) as He1.
  assert (mi_template s1 = None → ∀ s2, mi_jobs s2 = mi_jobs s1 → mi_sent s2 = mi_sent s1 → mi_template s2 = None →
    mi_fingerprint s2 = mi_fingerprint s1 → mi_cursor s2 = mi_cursor s1 →
    sends turn (sent_ok all) (Ok Again) s s2 ∧ adds_job s s2 ∧ worked all s2 ∧ last_is_current s2 ∧ (within_leases turn → at_lease_end s → at_lease_end s2)) as Hnone.
  { intros Hn s2 Hj2 Hs2 Ht2 Hf2 Hc2. split_and!; [apply sends_nothing; congruence | left; congruence | | |].
    - intros t b Ht. congruence.
    - intros fp j Hlast. rewrite Hj2, Hj1 in Hlast. rewrite Hf2. destruct Href as [(_ & -> & _)|(t & b & _ & Ht & _)]; [by apply (Hl _ j) | congruence].
    - intros _ He. unfold at_lease_end. rewrite Hj2, Hf2, Hc2. by apply He1. }
  destruct ready; cbn [negb] in Hrun; [|injection Hrun as <- <-; apply Hnone; auto].
  change (match mi_template s1 with Some (t, b) => mine_lease config once turn t b
    | None => _ ← sr_modify (set_force true); mret Again end s1 = (r, s')) in Hrun.
  destruct (mi_template s1) as [[t b]|] eqn:Et; [|injection Hrun as <- <-; by apply Hnone].
  destruct (Hw1 _ _ Et) as (Hfp & turn0 & Hin0 & Hg0).
  destruct (mine_lease_spec _ _ _ _ _ _ Hrun) as (Hsent & Hj & Hf & Ht & Hr). cbv zeta in Hr. split_and!.
  - destruct Hsent as (l & Hl' & HP & Hd). exists l. split_and!; [congruence | | done].
    eapply Forall_impl; [exact HP|]. intros e [He0 Hsol]. exists turn0, t, b. split_and!; [done.. | congruence | done].
  - right. eexists _, _. split; [by rewrite Hj, Hj1|]. split; [done|]. intros j0 He Hlast Hok. apply (He1 He (mi_fingerprint s1)); [by rewrite Hj1 | done..].
  - destruct r; [|done]. split_and!.
    + intros t' b' Ht'. destruct Ht as [Ht|Ht]; [|congruence]. rewrite Ht, Et in Ht'. injection Ht' as <- <-. split; [congruence|]. by exists turn0.
    + intros fp j. rewrite Hj, last_snoc. intros [= <- <-]. congruence.
    + intros Hwl _ fp j. rewrite Hj, last_snoc. intros [= <- <-] _ Hok. by apply Hr.
Qed.

Lemma mine_loop_spec all turns s r s' :
  mine_loop config source once turns s = (r, s') → (∀ turn, turn ∈ turns → turn ∈ all) → worked all s → last_is_current s →
  (∃ sent, mi_sent s' = mi_sent s ++ sent ∧ Forall (sent_ok all) sent) ∧
  match r with
  | Ok Again => True
  | Ok Done => once = true ∧ ∃ turn e, turn ∈ all ∧ last (mi_sent s') = Some e ∧ taken turn e.2
  | Err e => ∃ turn, turn ∈ all ∧ turn_fails turn e
  end.
Proof.
  revert s. induction turns as [|turn turns IH]; intros s Hrun Hall Hw Hl.
  { injection Hrun as <- <-. split; [exists []; by rewrite app_nil_r | done]. }
  cbn [mine_loop] in Hrun. destruct (mine_turn config source once turn s) as [[ended|e] s1] eqn:E;
    unfold mbind, state_result_bind in Hrun; rewrite E in Hrun;
    destruct (mine_turn_spec all _ _ _ _ E) as ((sent & Hs & Hok & Hd) & _ & Hr); try done; try (apply Hall; by left).
  2: { injection Hrun as <- <-. split; [by exists sent|]. exists turn. split; [apply Hall; by left | done]. }
  destruct ended.
  - destruct (IH s1 Hrun) as [(sent' & Hs' & Hok') Hrest]; [intros t Ht; apply Hall; by right | apply Hr | apply Hr|].
    split; [|done]. exists (sent ++ sent'). split; [by rewrite Hs', Hs, app_assoc | by apply Forall_app].
  - injection Hrun as <- <-. split; [by exists sent|]. destruct (Hd eq_refl) as (Ho & e & He). split; [done|].
    exists turn, e. split; [apply Hall; by left | done].
Qed.

Lemma start_ok all : worked all miner_start ∧ last_is_current miner_start ∧ at_lease_end miner_start.
Proof. by split_and!. Qed.

(** Consecutive jobs on the same work. *)
Definition chained (jobs : list (string * MiningJob)) : Prop :=
  ∀ before fp j1 j2 after, jobs = before ++ (fp, j1) :: (fp, j2) :: after → lease_ok j1 →
  mj_start_nonce j2 = mj_start_nonce j1 + mj_max_nonces j1.

Lemma chained_snoc jobs fp j :
  chained jobs → (∀ j0, last jobs = Some (fp, j0) → lease_ok j0 → mj_start_nonce j = mj_start_nonce j0 + mj_max_nonces j0) →
  chained (jobs ++ [(fp, j)]).
Proof.
  intros Hc Hl before fp' j1 j2 after Heq Hok. destruct after as [|x after _] using rev_ind.
  - change (before ++ [(fp', j1); (fp', j2)]) with (before ++ ([(fp', j1)] ++ [(fp', j2)])) in Heq. rewrite app_assoc in Heq.
    apply app_inj_tail in Heq as [-> [= <- <-]]. apply Hl; [by rewrite last_snoc | done].
  - change (_ :: _ :: after ++ [x]) with (((fp', j1) :: (fp', j2) :: after) ++ [x]) in Heq. rewrite app_assoc in Heq.
    apply app_inj_tail in Heq as [-> _]. by eapply Hc.
Qed.

Lemma mine_loop_leases all turns s r s' :
  mine_loop config source once turns s = (r, s') → Forall within_leases turns → (∀ turn, turn ∈ turns → turn ∈ all) →
  worked all s → last_is_current s → at_lease_end s →
  chained (mi_jobs s) → Forall (λ e, mj_max_nonces e.2 = effective_nonce_batch config) (mi_jobs s) →
  chained (mi_jobs s') ∧ Forall (λ e, mj_max_nonces e.2 = effective_nonce_batch config) (mi_jobs s').
Proof.
  revert s. induction turns as [|turn turns IH]; intros s Hrun Hwl Hall Hw Hl He Hc Hm; [by injection Hrun as <- <-|].
  apply Forall_cons in Hwl as [Hwl Hwls]. cbn [mine_loop] in Hrun.
  destruct (mine_turn config source once turn s) as [r1 s1] eqn:E; unfold mbind, state_result_bind in Hrun; rewrite E in Hrun.
  destruct (mine_turn_spec all _ _ _ _ E) as (_ & Ha & Hr); [apply Hall; by left | done..|].
  assert (chained (mi_jobs s1) ∧ Forall (λ e, mj_max_nonces e.2 = effective_nonce_batch config) (mi_jobs s1)) as [Hc1 Hm1].
  { destruct Ha as [->|(fp & j & -> & Hj & Hn)]; [done|]. split; [apply chained_snoc; auto|]. apply Forall_app. by repeat constructor. }
  destruct r1 as [[]|e]; [|by injection Hrun as <- <-..].
  apply (IH s1); try done; [intros t Ht; apply Hall; by right | apply Hr | apply Hr | by apply Hr].
Qed.

(** C23. Every request a run of the loop sends, whatever the fetches, the device, the
    server and the clock do, is for a template one of its turns was given and could
    build, and carries the nonce, final hash and mix hash of a solution of that
    template's block that meets its share difficulty. *)
Theorem sent_requests_solve_work turns :
  Forall (sent_ok turns) (mi_sent (mine_loop config source once turns miner_start).2).
Proof.
  destruct (mine_loop config source once turns miner_start) as [r s'] eqn:E.
  destruct (start_ok turns) as (Hw & Hl & _).
  destruct (mine_loop_spec turns turns _ _ _ E (λ _, id) Hw Hl) as ((sent & Hs & Hok) & _). cbn. by rewrite Hs.
Qed.

(** When the loop ends: with an error only for a fetched template that does not
    build, a failing device or metrics that cannot be saved when the status is
    due, never for a fetch, a solution or a submission that fails; without an error
    only with [once], on a request the server took. *)
Theorem mine_ends turns r s' :
  mine_loop config source once turns miner_start = (r, s') →
  match r with
  | Ok Again => True
  | Ok Done => once = true ∧ ∃ turn e, turn ∈ turns ∧ last (mi_sent s') = Some e ∧ sent_ok turns e ∧ taken turn e.2
  | Err e => ∃ turn, turn ∈ turns ∧ turn_fails turn e
  end.
Proof.
  intros E. destruct (start_ok turns) as (Hw & Hl & _).
  destruct (mine_loop_spec turns turns _ _ _ E (λ _, id) Hw Hl) as ((sent & Hs & Hok) & Hr).
  destruct r as [[]|]; [done| |done]. destruct Hr as (Ho & turn & e & Hin & Hlast & Ht). split; [done|].
  exists turn, e. split_and!; [done..| |done]. rewrite Hs in Hlast. cbn [miner_start mi_sent app] in Hlast.
  rewrite Forall_forall in Hok. by apply Hok, last_Some_elem_of.
Qed.

(** While the work is the same and the device answers within its leases, the
    leases follow one another without gap or overlap: no nonce is searched twice,
    whatever refreshes, renamed templates, rejected or stale answers come between. *)
Theorem leases_contiguous turns before seg after fp j0 i j :
  Forall within_leases turns → mi_jobs (mine_loop config source once turns miner_start).2 = before ++ seg ++ after →
  Forall (λ e, e.1 = fp ∧ lease_ok e.2) seg → head seg = Some (fp, j0) → seg !! i = Some (fp, j) →
  mj_start_nonce j = mj_start_nonce j0 + Z.of_nat i * effective_nonce_batch config ∧ mj_max_nonces j = effective_nonce_batch config.
Proof.
  intros Hwl Hjobs Hseg H0 Hi. destruct (mine_loop config source once turns miner_start) as [r s'] eqn:E. cbn in Hjobs.
  destruct (start_ok turns) as (Hw & Hl & He).
  destruct (mine_loop_leases turns turns _ _ _ E Hwl (λ _, id) Hw Hl He) as [Hc Hm];
    [intros b f x y a Hnil; by destruct b | constructor|].
  rewrite Hjobs in Hc, Hm. apply Forall_app in Hm as [_ [Hm _]%Forall_app].
  assert (∀ k x, seg !! k = Some x → mj_max_nonces x.2 = effective_nonce_batch config) as Hmax.
  { intros k x Hk. rewrite Forall_lookup in Hm. by apply (Hm k). }
  split; [|by apply (Hmax i (fp, j))]. revert j Hi. induction i as [|i IH]; intros j Hi.
  - rewrite <- head_lookup, H0 in Hi. injection Hi as ->. lia.
  - destruct (lookup_lt_is_Some_2 seg i) as [[fp1 j1] H1]; [apply lookup_lt_Some in Hi; lia|].
    pose proof (Forall_lookup_1 _ _ _ _ Hseg H1) as [Hfp Hok]. cbn in Hfp, Hok. subst fp1.
    pose proof (take_drop_middle seg i _ H1) as Hs1. pose proof (drop_S seg _ (S i) Hi) as Hs2.
    rewrite Hs2 in Hs1. rewrite (Hc (before ++ take i seg) fp j1 j (drop (S (S i)) seg ++ after));
      [|by rewrite <- Hs1 at 1; rewrite <- !app_assoc | done].
    rewrite (IH j1 H1), (Hmax i _ H1 : mj_max_nonces j1 = _). lia.
Qed.

(** A fetched template that does not build ends the loop, even while another is
    being mined; a failed fetch would have been retried. *)
Theorem bad_template_ends_loop turn rest t e s :
  is_none (mi_template s) || mi_force s || tu_refresh_due turn = true → tu_fetched turn = Ok t →
  ws_build source (tu_now turn) t (mf_miner_address config) = Err e →
  (mine_loop config source once (turn :: rest) s).1 = Err e.
Proof.
  intros Hd Hf Hb. cbn [mine_loop]. unfold mine_turn, refresh, take_template, mbind, state_result_bind, sr_get, sr_modify, sr_lift.
  by rewrite Hd, Hf, Hb.
Qed.

End turns.

(** ** Miner and pool together: a solution the miner finds for the work the pool gave
    it is recorded by the pool as that worker's share. *)

(** The pool's jobs are filed under their templates' ids. *)
Definition jobs_keyed (s : PoolState) : Prop := map_Forall (λ id job, mt_template_id (pj_template job) = id) (ps_jobs s).

Section shares.
Context `{HPok : PrimitivesOk}.
Context (config : PoolConfig).

Lemma install_keyed t now s : jobs_keyed s → jobs_keyed (install_or_refresh_job t now s).
Proof.
  intros Hk. unfold install_or_refresh_job, jobs_keyed. cbn [ps_jobs set_current set_jobs].
  set (jobs := filter _ (ps_jobs s)). assert (map_Forall (λ id job, mt_template_id (pj_template job) = id) jobs) as Hj.
  { intros id job [Hl _]%map_lookup_filter_Some. by apply Hk. }
  apply map_Forall_insert_2; [|done]. destruct (jobs !! mt_template_id t); [done|].
  destruct (ps_current_job s ≫= _); [|done]. by destruct (same_work _ _).
Qed.

Lemma issue_keyed id job identity bits s :
  jobs_keyed s → ps_jobs s !! id = Some job → jobs_keyed (set_jobs (<[id := issue identity bits job]> (ps_jobs s)) s).
Proof. intros Hk Hj. apply map_Forall_insert_2; [by apply (Hk id job) | done]. Qed.

(** What the work handler leaves: the job of the template, with its difficulty
    among those issued to the worker. *)
Lemma work_spec ip now fetched a n s t s1 :
  work config ip now fetched a n s = (Ok t, s1) → jobs_keyed s →
  jobs_keyed s1 ∧ validate_identity config a n = Ok () ∧
  ∃ job data bits, ps_jobs s1 !! mt_template_id t = Some job ∧ t = with_share_difficulty (Some bits) (pj_template job) ∧
    bits = worker_difficulty config a n (mt_difficulty t) data ∧
    bits ∈ default [] (pj_worker_difficulties job !! worker_identity a n).
Proof.
  unfold work. intros Hrun Hk. rewrite sr_lift_bind in Hrun. destruct (validate_identity config a n) as [[]|] eqn:Ev; [|done].
  apply sr_bind_Ok in Hrun as (u & s2 & Ha & Hrun).
  assert (jobs_keyed s2) as Hk2.
  { unfold admitted in Ha. destruct (admit_request _ _ _ _ _ _) as [r am]. by injection Ha as _ <-. }
  rewrite sr_get_bind in Hrun. cbv zeta in Hrun. apply sr_bind_Ok in Hrun as (u' & s3 & Hf & Hrun).
  assert (jobs_keyed s3) as Hk3.
  { repeat case_match; simplify_eq/=; try done; injection Hf as _ <-; try done; by apply install_keyed. }
  rewrite sr_get_bind, sr_lift_bind in Hrun. destruct (ok_or _ _) as [id|]; [|done]. unfold issue_worker_template in Hrun.
  destruct (ps_jobs s3 !! id) as [job|] eqn:Ej; [|done]. injection Hrun as <- <-. pose proof (Hk3 id job Ej) as Hid.
  split_and!; [by apply issue_keyed | done|]. eexists _, _, _. cbn [mt_template_id with_share_difficulty ps_jobs set_jobs].
  split_and!; [by rewrite Hid, lookup_insert_eq | done | done|]. cbn [pj_worker_difficulties issue]. rewrite lookup_insert_eq.
  cbn [from_option]. case_bool_decide; [done | set_solver].
Qed.

Lemma met_difficulty_some h issued bits :
  bits ∈ issued → check_pow h bits = true → ∃ best, met_difficulty h issued = Ok best ∧ bits <= best.
Proof.
  intros Hin Hc. destruct (met_difficulty h issued) as [best|e] eqn:E.
  - exists best. split; [done|]. by apply (met_difficulty_spec _ _ _ E).
  - unfold met_difficulty in E. destruct (filter _ issued) as [|b l] eqn:Ef; [|done].
    assert (bits ∈ filter (λ b, check_pow h b = true) issued) as Hf by by apply list_elem_of_filter. rewrite Ef in Hf. by apply elem_of_nil in Hf.
Qed.

(** A template the pool keeps builds the block of the template it gave out. *)
Lemma rebuild_same now now' addr t t' b :
  validate_and_build now addr t = Ok b → same_block t' t → mt_template_id t' = mt_template_id t → now' < mt_expires_at t' →
  validate_and_build now' addr t' = Ok b.
Proof.
  intros Hb Hsame Hid Hexp. apply (validate_and_build_time (mt_expires_at t' - 1)); [|done].
  destruct t, t'. cbn in *. injection Hsame as -> -> -> -> -> -> -> -> -> -> ->. subst. unfold validate_and_build in *. cbn in *.
  destruct (negb _); [done|]. destruct (str_is_empty _); [done|]. destruct (_ <=? now); [done|].
  by rewrite (proj2 (Z.leb_gt _ _)) by lia.
Qed.

(** The pool rebuilds the miner's solution. *)
Lemma share_block_of_solution now now' t t' b nonce out a n r :
  tx_to <$> head (mt_transactions t) = Some (pc_pool_address config) →
  PoolWorkSource_validate_and_build now t = Ok b →
  same_block t' t → mt_template_id t' = mt_template_id t → now' < mt_expires_at t' →
  pow_hash_with_nonce b nonce = Ok out →
  r = PoolWorkSource_request a n (MiningSubmitRequest_from_solution (mt_template_id t) nonce (final_hash out) (mix_hash out)) →
  ∃ block, share_block config now' t' r = Ok block ∧ block_pow_hash block = final_hash out ∧
    hash_to_hex (block_pow_hash block) = str_to_ascii_lowercase (mr_block_hash r).
Proof.
  unfold PoolWorkSource_validate_and_build. intros Hto Hb Hsame Hid Hexp Hout ->.
  rewrite Hto in Hb. apply bind_Ok in Hb as (to & [= <-]%ok_or_Ok & Hb). apply bind_Ok in Hb as (_ & _ & Hb).
  destruct (firopow_hash_wf _ _ _ _ Hout) as [Hf Hm].
  unfold share_block. rewrite (rebuild_same _ _ _ _ _ _ Hb Hsame Hid Hexp). cbn [map_err mbind result_bind mr_mix_hash mr_nonce
    PoolWorkSource_request MiningSubmitRequest_from_solution mr_block_hash].
  rewrite hash_text_trim. unfold str_is_empty. rewrite bool_decide_false by by apply hash_text_nonempty.
  unfold hash_to_hex at 1. rewrite Hash_from_hex_bytes by done. cbn [map_err].
  assert (block_pow_hash (set_nonce_mix nonce (mix_hash out) b) = final_hash out) as He.
  { unfold block_pow_hash, pow_result. change (unwrap_or Hash_zero (final_hash <$> pow_hash_with_nonce b nonce) = final_hash out).
    by rewrite Hout. }
  eexists. split; [reflexivity|]. by rewrite He, hash_text_lower.
Qed.

(** The worker's hash meets the difficulty it was given. *)
Lemma given_bits_met job data bits a n h :
  share_bits_ok config → is_u8 (mt_difficulty (pj_template job)) →
  bits = worker_difficulty config a n (mt_difficulty (pj_template job)) data →
  check_pow h (share_bits_of (with_share_difficulty (Some bits) (pj_template job))) = true → check_pow h bits = true.
Proof.
  intros Hcfg Hu8 Hbits Hpow.
  destruct (share_difficulty_bounds (pc_min_share_bits config) (pc_max_share_bits config) (pc_share_bits config)
    (mt_difficulty (pj_template job)) (pc_share_network_gap_bits config)) as [[lo hi] x] eqn:Eb.
  pose proof (worker_difficulty_in config a n _ data _ _ _ Hcfg Hu8 Eb) as Hle. rewrite <- Hbits in Hle.
  destruct Hcfg as (Hmn & Hmx & _). unfold in_width in *.
  pose proof (share_difficulty_bounds_spec _ _ _ _ _ _ _ _ (proj1 Hmn) (proj1 Hmx) (proj1 Hu8) Eb) as (_ & _ & _ & Hhi).
  unfold share_bits_of in Hpow. cbn in Hpow. rewrite Z.min_l in Hpow; [done|]. destruct (_ <=? 1); lia.
Qed.

(** C39. A worker asks the pool for work, builds it and finds a solution, as the mining
    loop finds its requests.  Whatever the pool does in between - other work and
    shares, failing nodes and writes, refreshed jobs, pages, payouts - when the
    worker submits the solution before the work expires, and is neither banned nor
    over its share limit, the pool takes the share at no less than the worker's
    difficulty: either a share with this hash was there, or it is recorded for this
    worker.  A node that serves a template again under the same id serves the same
    block, for no shorter a time. *)
Theorem pool_share_credited ip now_work fetched a n s t s1 now_built b r0 s2 ip' t_admit now t_build t_share t_block t_invalid
    upstream saved saved' res s3 :
  share_bits_ok config → jobs_keyed s → work config ip now_work fetched a n s = (Ok t, s1) → is_u8 (mt_difficulty t) →
  tx_to <$> head (mt_transactions t) = Some (pc_pool_address config) →
  PoolWorkSource_validate_and_build now_built t = Ok b → solves t b r0 →
  rtc (pool_step config t) s1 s2 →
  client_may_submit config ip' t_admit a n s2 → now < mt_expires_at t → t_build < mt_expires_at t →
  submit_share config ip' t_admit now t_build t_share t_block t_invalid upstream saved saved'
    (PoolWorkSource_request a n r0) s2 = (res, s3) →
  (∃ e resp, e ∈ pd_shares (sdata s2) ∧ sh_hash e = mr_block_hash r0 ∧ sdata s3 = sdata s2 ∧
     res = Ok resp ∧ ms_status resp = PendingLocal) ∨
  ∃ share, pd_shares (sdata s3) = keep_last (st_max_shares (ps_store s2)) (pd_shares (sdata s2) ++ [share]) ∧
    sh_miner_address share = a ∧ sh_worker_name share = n ∧ sh_hash share = mr_block_hash r0 ∧
    default (mt_difficulty t) (mt_share_difficulty t) <= sh_share_bits share.
Proof.
  intros Hcfg Hk Hwork Hu8 Hto Hb (nonce & out & Hout & Hpow & ->) Hlast Hmay Hexp Hexp' Hrun.
  destruct (work_spec _ _ _ _ _ _ _ _ Hwork Hk) as (Hk1 & Hv & job & data & bits & Hj & Ht & Hbits & Hin).
  assert (offers t bits (worker_identity a n) s1) as Hoffer.
  { exists job. split_and!; try done; [by apply (Hk1 _ _ Hj) | by rewrite Ht | by rewrite Ht]. }
  apply (work_lasts config t bits _ s1 s2) in Hoffer as (job2 & Hj2 & Hid2 & Hsame & Hexp2 & Hin2); [|done].
  assert (default (mt_difficulty t) (mt_share_difficulty t) = bits) as -> by by rewrite Ht.
  assert (check_pow (final_hash out) bits = true) as Hcheck.
  { rewrite Ht in Hpow, Hu8, Hbits. by apply (given_bits_met job data bits a n). }
  eapply submit_share_processed in Hrun as (am & s4 & Hrun & Hdata); [|done..]. rewrite Hdata. clear s3 Hdata.
  destruct (share_block_of_solution now_built t_build t (pj_template job2) b nonce out a n _ Hto Hb Hsame Hid2 ltac:(lia) Hout eq_refl)
    as (block & Hsb & Hhash & Htext).
  rewrite <- Hhash in Hcheck. destruct (met_difficulty_some _ _ _ Hin2 Hcheck) as (best & Hmet & Hbest).
  erewrite process_share_settles in Hrun; [|done | done | exact Hj2 | lia | reflexivity | | exact Hsb | exact Htext | exact Hmet].
  2: { intros Hn. rewrite Hn in Hin2. by apply elem_of_nil in Hin2. }
  apply settle_share_spec in Hrun as [(e & resp & He & Hh & -> & Hrest)|(_ & Hs & _)].
  - left. exists e, resp. split_and!; try apply Hrest; [done | | done]. rewrite Hh. cbn. by rewrite Hhash.
  - right. eexists. split; [exact Hs|]. cbn. by rewrite Hhash.
Qed.

End shares.
