(* ===== verification/MinerCuda.v ===== *)
(** [vireon-miner/src/backends/cuda.rs] and the inventory of [cuda_driver.rs] and
    [mod.rs]: the Rust side of the CUDA backend, in the build with the device
    kernels linked.  The kernels, the CUDA runtime and driver and the native epoch
    data are the arguments [CudaNative]; threads are joined before their results
    are read, so they are a list of results in order; hash rates are left out. *)

From S2P Require Import Prelude RustStd Interfaces Crypto Errors Network Amount Signing Address Transaction Block Pow Consensus Genesis MinerWork Pool PoolApp Sdk MinerSettings.

(** ** The native side *)

(** [struct VireonCudaDeviceInfo], as the runtime or the driver fills it. *)
Record DeviceInfo := { di_name : string; di_total_mem : Z; di_processors : Z }.

(** What a search kernel leaves: its code and its out parameters. *)
Record KernelAnswer := {
  ka_rc : Z;
  ka_found : Z;
  ka_nonce : Z;
  ka_final : Hash;
  ka_mix : Hash;
  ka_hashes : Z;
}.

(** The number of items of an exported epoch; the pointers stay native. *)
Record LightView := { lv_items : Z }.

Record CudaNative := {
  cn_available : Z;
  cn_device_info : Z → option DeviceInfo;
  cn_kernels_linked : bool;
  cn_driver : result MinerError (list (Z * option DeviceInfo));
  cn_create : Z → option Z;
  cn_light_cache : Z → Result LightView;
  cn_build_dag : Z → Z → LightView → Z;
  cn_dataset_item : Z → Z → Result bytes;
  cn_copy_item : Z → Z → Z * bytes;
  cn_mine : Z → Z → Hash → bytes → Z → Z → KernelAnswer;
}.

(** ** Devices *)

(** [name.chars().map(..)]: one character of the slug for each of the name, so the
    continuation bytes of a character add nothing. *)
Definition continuation (b : byte) : bool := (128 <=? byte_Z b) && (byte_Z b <? 192).
Definition slug_byte (b : byte) : byte := if ascii_alphanumeric b then byte_lower b else byte_of_Z 45.
Definition slug (name : string) : string :=
  str_of_bytes (slug_byte <$> List.filter (λ b, negb (continuation b)) (str_bytes name)).

Definition positive (z : Z) : option Z := if z >? 0 then Some z else None.
Definition cuda_device (index : Z) (info : DeviceInfo) : MiningDevice :=
  mkDevice ("cuda:" ++ uint_to_string index ++ ":" ++ slug (di_name info))%string (di_name info) "NVIDIA" index
    (positive (di_processors info)) (positive (di_total_mem info)) true.

Definition devices_of (answers : list (Z * option DeviceInfo)) : list MiningDevice :=
  omap (λ e, cuda_device e.1 <$> e.2) answers.

(** [enumerate_devices]: the runtime's devices, or the driver's when it has none. *)
Definition enumerate_devices (nat : CudaNative) : result MinerError (list MiningDevice) :=
  let out := devices_of ((λ i, (i, cn_device_info nat i)) <$> seqZ 0 (cn_available nat)) in
  match out with [] => devices_of <$> cn_driver nat | _ => Ok out end.

(** [enumerate_device_report]: the inventory of the one backend. *)
Definition enumerate_device_report (backend_name : string) (nat : CudaNative) : list MiningDevice * list string :=
  let '(raw, notes) := match enumerate_devices nat with
    | Ok devices => (devices, [])
    | Err e => ([], [(backend_name ++ ": " ++ MinerError_fmt e)%string])
    end in
  let '(devices, inventory) := dedupe_gpu_devices raw in (devices, notes ++ inventory).

(** ** The backend *)

(** [struct BackendConfig] *)
Record BackendConfig := { bc_batch_size : Z; bc_device_ids : list string; bc_intensity : Z }.
Definition BackendConfig_default : BackendConfig := {| bc_batch_size := 8192; bc_device_ids := []; bc_intensity := 75 |}.

(** [struct CudaGpuBackend] *)
Record CudaGpuBackend := mkCuda {
  cu_config : BackendConfig;
  cu_metrics : BackendMetrics;
  cu_devices : list MiningDevice;
  cu_ready : bool;
  cu_miners : list Z;
  cu_dag_height : option Z;
}.
Definition BackendMetrics_default : BackendMetrics := mkMetrics 0 0 0 0 0 None.
Definition CudaGpuBackend_default : CudaGpuBackend :=
  mkCuda BackendConfig_default BackendMetrics_default [] false [] None.

Abbreviation cuda A := (state_result CudaGpuBackend MinerError A).

Definition set_miners (miners : list Z) (s : CudaGpuBackend) : CudaGpuBackend :=
  mkCuda (cu_config s) (cu_metrics s) (cu_devices s) (cu_ready s) miners (cu_dag_height s).
Definition set_metrics (f : BackendMetrics → BackendMetrics) (s : CudaGpuBackend) : CudaGpuBackend :=
  mkCuda (cu_config s) (f (cu_metrics s)) (cu_devices s) (cu_ready s) (cu_miners s) (cu_dag_height s).
Definition set_dag_height (height : Z) (s : CudaGpuBackend) : CudaGpuBackend :=
  mkCuda (cu_config s) (cu_metrics s) (cu_devices s) (cu_ready s) (cu_miners s) (Some height).
Definition with_last_error (e : option string) (m : BackendMetrics) : BackendMetrics :=
  mkMetrics (bm_hashes_attempted m) (bm_accepted_local m) (bm_rejected_local m) (bm_stale m) (bm_active_devices m) e.
Definition set_active (n : Z) (m : BackendMetrics) : BackendMetrics :=
  mkMetrics (bm_hashes_attempted m) (bm_accepted_local m) (bm_rejected_local m) (bm_stale m) n (bm_last_error m).
Definition count_batch (attempts : Z) (found : bool) (m : BackendMetrics) : BackendMetrics :=
  mkMetrics (saturating_add 64 (bm_hashes_attempted m) attempts)
    (if found then saturating_add 64 (bm_accepted_local m) 1 else bm_accepted_local m)
    (bm_rejected_local m) (bm_stale m) (bm_active_devices m) (bm_last_error m).

(** The name of the device of a handle: there is one handle for each device. *)
Definition device_name (s : CudaGpuBackend) (i : nat) : string := default "" (md_name <$> cu_devices s !! i).
Definition device_id (s : CudaGpuBackend) (i : nat) : string := default "" (md_id <$> cu_devices s !! i).

Section backend.
Context `{Primitives} (native : CudaNative).

Definition device_kernels_available : bool := cn_kernels_linked native && (0 <? cn_available native).

(** [ensure_device_miners]: a handle for each device, once; the handles made before
    a failure stay. *)
Fixpoint create_miners (devices : list MiningDevice) : cuda () :=
  match devices with
  | [] => mret ()
  | d :: rest =>
      match cn_create native (md_index d) with
      | None => sr_lift (Err (MinerGpu ("cudaSetDevice/create failed for " ++ md_name d)))
      | Some m => _ ← sr_modify (λ s, set_miners (cu_miners s ++ [m]) s); create_miners rest
      end
  end.
Definition ensure_device_miners : cuda () :=
  s ← sr_get;
  if bool_decide (cu_miners s = []) then create_miners (cu_devices s) else mret ().

Definition gpu_error {A} (text : VireonError → string) (r : Result A) : result MinerError A :=
  map_err (λ e, MinerGpu (text e)) r.

(** One sample of the parity check on every device. *)
Definition check_sample (height sample : Z) (s : CudaGpuBackend) : result MinerError () :=
  expected ← gpu_error (λ e, "canonical DAG sample " ++ uint_to_string sample ++ " failed: " ++ VireonError_fmt e)%string
    (cn_dataset_item native height sample);
  try_each (λ '(i, m), let '(rc, actual) := cn_copy_item native m sample in
    if negb (rc =? 0) || negb (bool_decide (actual = expected))
    then Err (MinerGpu ("CUDA DAG parity failed on " ++ device_name s i ++ " at item " ++ uint_to_string sample
           ++ " (rc=" ++ int_to_string rc ++ ")")%string)
    else Ok ()) (imap pair (cu_miners s)).

Definition same_epoch (height : Z) (s : CudaGpuBackend) : bool :=
  match cu_dag_height s with Some h => h / 1300 =? height / 1300 | None => false end.

(** [ensure_dag_on_devices] *)
Definition ensure_dag_on_devices (height : Z) : cuda () :=
  _ ← ensure_device_miners;
  s ← sr_get;
  if same_epoch height s then mret () else
  _ ← sr_modify (set_metrics (with_last_error
    (Some ("building FiroPoW epoch DAG directly on CUDA devices for height " ++ uint_to_string height)%string)));
  view ← sr_lift (gpu_error (λ e, "FiroPoW light-cache export for CUDA failed: " ++ VireonError_fmt e)%string
    (cn_light_cache native height));
  _ ← sr_lift (try_each (λ '(i, m), let rc := cn_build_dag native m (height_as_i32 height) view in
      if negb (rc =? 0)
      then Err (MinerGpu ("CUDA DAG build failed (rc=" ++ int_to_string rc ++ ") on " ++ device_name s i
             ++ ". Check driver and VRAM capacity.")%string)
      else Ok ()) (imap pair (cu_miners s)));
  _ ← sr_lift (try_each (λ sample, check_sample height sample s)
    [0; uwrap 32 (lv_items view) / 2; uwrap 32 (saturating_sub (lv_items view) 1)]);
  sr_modify (λ s, set_metrics (with_last_error None) (set_dag_height height s)).

(** [partition_nonce_range]: the range of each device. *)
Fixpoint partition_from (start offset base remainder index : Z) (devices : nat) : list (Z * Z) :=
  match devices with
  | O => []
  | S k =>
      let count := base + (if index <? remainder then 1 else 0) in
      (wrapping_add 64 start offset, count)
        :: partition_from start (wrapping_add 64 offset count) base remainder (index + 1) k
  end.
Definition partition_nonce_range (start_nonce total : Z) (devices : nat) : list (Z * Z) :=
  let devices := Nat.max devices 1 in
  partition_from start_nonce 0 (total / Z.of_nat devices) (total mod Z.of_nat devices) 0 devices.

(** The nonces a batch searches at most. *)
Definition device_batch (c : BackendConfig) : Z :=
  clamp 2048 1048576 (Z.max (bc_batch_size c) 1024 * Z.max (bc_intensity c) 1 / 10).
Definition searched (c : BackendConfig) (max_nonces : Z) : Z := Z.min (Z.min max_nonces (device_batch c)) (umax 32).

(** The results of the devices that were given nonces, in order. *)
Definition search_devices (job : MiningJob) (total : Z) (s : CudaGpuBackend) : list (nat * KernelAnswer) :=
  let header := mining_header_hash (mj_block job) in
  let boundary := boundary_from_leading_zero_bits (mj_bits job) in
  let ranges := zip (partition_nonce_range (mj_start_nonce job) total (length (cu_devices s))) (cu_miners s) in
  omap (λ '(i, ((start, count), m)), if count =? 0 then None else
    Some (i, cn_mine native m (height_as_i32 (bh_height (Block.header (mj_block job)))) header boundary start count)) (imap pair ranges).

(** Reading one result: an error stops, the first solution is kept. *)
Definition collect_one (s : CudaGpuBackend) (acc : Z * option MiningSolution) (e : nat * KernelAnswer) :
    result MinerError (Z * option MiningSolution) :=
  let '(attempts, solution) := acc in let '(i, a) := e in
  if negb (ka_rc a =? 0)
  then Err (MinerGpu ("CUDA FiroPoW kernel error rc=" ++ int_to_string (ka_rc a) ++ " on " ++ device_name s i)%string) else
  let attempts := saturating_add 64 attempts (ka_hashes a) in
  Ok (attempts,
      match solution with
      | Some _ => solution
      | None => if ka_found a =? 0 then None else Some (mkSolution (ka_nonce a) (ka_final a) (ka_mix a) attempts (device_id s i))
      end).

(** [mine_device_batch] *)
Definition mine_device_batch (job : MiningJob) : cuda (option MiningSolution) :=
  _ ← ensure_dag_on_devices (bh_height (Block.header (mj_block job)));
  s ← sr_get;
  let max := searched (cu_config s) (mj_max_nonces job) in
  if max =? 0 then mret None else
  '(attempts, solution) ← sr_lift (try_fold (collect_one s) (0, None) (search_devices job max s));
  _ ← sr_modify (set_metrics (count_batch attempts (negb (is_none solution))));
  mret solution.

(** [mine_batch] *)
Definition cuda_mine_batch (job : MiningJob) : cuda (option MiningSolution) :=
  s ← sr_get;
  if negb (cu_ready s) then sr_lift (Err (MinerGpu "CUDA backend not initialized")) else mine_device_batch job.

(** [benchmark], for a clock that lets [batches] batches start: the hashes counted. *)
Definition batch_at (cursor : Z) (job : MiningJob) : MiningJob :=
  mkJobOf (mj_template_id job) (mj_block job) (mj_bits job) cursor 4096.
Fixpoint benchmark_loop (batches : nat) (hashes cursor : Z) (job : MiningJob) : cuda Z :=
  match batches with
  | O => mret hashes
  | S k =>
      s ← sr_get;
      let before := bm_hashes_attempted (cu_metrics s) in
      _ ← cuda_mine_batch (batch_at cursor job);
      s ← sr_get;
      benchmark_loop k (saturating_add 64 hashes (saturating_sub (bm_hashes_attempted (cu_metrics s)) before))
        (wrapping_add 64 cursor 4096) job
  end.

(** A device the configuration selects. *)
Definition device_selected (ids : list string) (d : MiningDevice) : bool :=
  existsb (λ sel, bool_decide (sel = md_id d) || bool_decide (sel = uint_to_string (md_index d)) || str_contains (md_id d) sel
    || bool_decide (str_to_ascii_lowercase sel = "cuda"%string) || is_prefix (str_bytes "cuda:") (str_bytes sel)) ids.

(** [initialize] *)
Definition cuda_initialize (c : BackendConfig) : cuda () :=
  devices ← sr_lift (enumerate_devices native);
  devices ← (if bool_decide (bc_device_ids c = []) then mret devices else
    let kept := List.filter (device_selected (bc_device_ids c)) devices in
    if bool_decide (kept = []) then sr_lift (Err (MinerGpu "requested CUDA/NVIDIA devices not found via CUDA driver"))
    else mret kept);
  if bool_decide (devices = []) then sr_lift (Err (MinerGpu "no NVIDIA CUDA GPU detected")) else
  if negb device_kernels_available
  then sr_lift (Err (MinerGpu "this miner was built without CUDA device kernels; CPU fallback is disabled")) else
  _ ← sr_modify (λ s, mkCuda c (set_active (Z.of_nat (length devices)) (cu_metrics s)) devices true (cu_miners s) (cu_dag_height s));
  ensure_device_miners.

Definition cuda_benchmark (batches : nat) (job : MiningJob) : cuda (string * Z) :=
  s ← sr_get;
  _ ← (if negb (cu_ready s) then cuda_initialize BackendConfig_default else mret ());
  _ ← ensure_dag_on_devices (bh_height (Block.header (mj_block job)));
  hashes ← benchmark_loop batches 0 (mj_start_nonce job) job;
  s ← sr_get;
  mret (match cu_devices s with d :: _ => md_id d | [] => "cuda"%string end, hashes).

(** ** The coordinator over the backend ([coordinator.rs]) *)

(** [struct CudaMiningCoordinator] *)
Record Coordinator := mkCoordinator {
  co_cuda : option CudaGpuBackend;
  co_metrics : BackendMetrics;
  co_ready : bool;
}.

Definition coordinator_initialize (c : BackendConfig) (k : Coordinator) : result MinerError () * Coordinator :=
  match cuda_initialize c CudaGpuBackend_default with
  | (Ok _, cuda) => (Ok (), mkCoordinator (Some cuda) (set_active (bm_active_devices (cu_metrics cuda)) (co_metrics k)) true)
  | (Err e, _) => (Err e, k)
  end.

(** [build_backend] *)
Definition backend_config (c : MinerConfig) : BackendConfig :=
  {| bc_batch_size := Z.max (effective_gpu_batch c) 256; bc_device_ids := mf_gpu_devices c; bc_intensity := effective_gpu_intensity c |}.
Definition build_backend (c : MinerConfig) : result MinerError Coordinator :=
  _ ← MiningMode_parse (mf_backend_mode c);
  let '(r, k) := coordinator_initialize (backend_config c) (mkCoordinator None BackendMetrics_default false) in
  _ ← r;
  Ok k.

(** [mine_batch] of the coordinator. *)
Definition coordinator_batch (job : MiningJob) (k : Coordinator) : result MinerError (option MiningSolution) * Coordinator :=
  match co_cuda k with
  | None =>
      let '(r, m) := coordinator_mine_batch (co_ready k) None BackendMetrics_default BackendMetrics_default job (co_metrics k) in
      (r, mkCoordinator None m (co_ready k))
  | Some cuda =>
      if negb (co_ready k)
      then let '(r, m) := coordinator_mine_batch false None BackendMetrics_default BackendMetrics_default job (co_metrics k) in
           (r, mkCoordinator (Some cuda) m false)
      else
        let '(found, cuda') := cuda_mine_batch job cuda in
        let '(r, m) := coordinator_mine_batch true (Some (λ _, found)) (cu_metrics cuda) (cu_metrics cuda') job (co_metrics k) in
        (r, mkCoordinator (Some cuda') m true)
  end.

End backend.
