(* ===== verification/MinerCudaTheory.v ===== *)
(** What the CUDA backend promises: the devices share a batch exactly, a solution
    lies in its lease and is valid by the consensus code; where the batch is
    smaller than the lease, and which devices a configuration selects. *)

From S2P Require Import Prelude RustStd Interfaces Crypto Errors Network Amount Signing Address Transaction Block Pow Consensus Genesis MinerWork Pool PoolApp PoolAppTheory Sdk MinerSettings MinerLoop MinerTheory MinerCuda.

(** ** Ranges *)

(** The nonces of a range, in the order they are searched. *)
Definition nonces_of (r : Z * Z) : list Z := (λ k, wrapping_add 64 r.1 k) <$> seqZ 0 r.2.

Lemma wrapping_add_assoc w a b c : wrapping_add w (wrapping_add w a b) c = wrapping_add w a (b + c).
Proof. unfold wrapping_add, uwrap. rewrite Zplus_mod_idemp_l. f_equal. lia. Qed.

Lemma wrapping_add_wrapped w a b c : wrapping_add w a (wrapping_add w b c) = wrapping_add w a (b + c).
Proof. unfold wrapping_add, uwrap. by rewrite Zplus_mod_idemp_r. Qed.

Lemma nonces_of_app start n m : 0 <= n → 0 <= m →
  nonces_of (start, n + m) = nonces_of (start, n) ++ nonces_of (wrapping_add 64 start n, m).
Proof.
  intros Hn Hm. unfold nonces_of. cbn [fst snd]. rewrite seqZ_app, fmap_app by done. f_equal.
  rewrite <- (Z.add_0_r (0 + n)), <- fmap_add_seqZ, <- list_fmap_compose. apply list_fmap_ext. intros _ k _. cbn.
  by rewrite wrapping_add_assoc.
Qed.

Lemma partition_from_nonces start base remainder k :
  0 <= base → ∀ offset index,
  mjoin (nonces_of <$> partition_from start offset base remainder index k) =
  nonces_of (wrapping_add 64 start offset, Z.of_nat k * base + Z.max 0 (Z.min (remainder - index) (Z.of_nat k))).
Proof.
  intros Hb. induction k as [|k IH]; intros offset index; cbn [partition_from].
  { replace (Z.of_nat 0 * base + _) with 0 by lia. done. }
  rewrite fmap_cons. cbn [mjoin list_join]. rewrite IH, wrapping_add_wrapped, <- wrapping_add_assoc, <- nonces_of_app by (try case_match; lia).
  f_equal. f_equal. case_match eqn:E; lia.
Qed.

Lemma partition_length start offset base remainder index k : length (partition_from start offset base remainder index k) = k.
Proof. revert offset index. induction k as [|k IH]; intros; cbn; [done | by rewrite IH]. Qed.

Lemma partition_counts start base remainder k offset index e :
  e ∈ partition_from start offset base remainder index k → e.2 = base ∨ e.2 = base + 1.
Proof.
  revert offset index. induction k as [|k IH]; intros offset index; cbn; [by intros ?%elem_of_nil|].
  intros [->|He]%elem_of_cons; [|by eapply IH]. cbn. destruct (_ <? _); [right; lia | left; lia].
Qed.

(** However many devices there are, together they search the nonces of the batch
    from its start, each once and in order of the devices, and no device has more
    than one nonce more than another. *)
Theorem devices_share_the_batch start total devices :
  0 <= total →
  mjoin (nonces_of <$> partition_nonce_range start total devices) = (λ k, wrapping_add 64 start k) <$> seqZ 0 total ∧
  length (partition_nonce_range start total devices) = Nat.max devices 1 ∧
  ∀ a b, a ∈ partition_nonce_range start total devices → b ∈ partition_nonce_range start total devices → Z.abs (a.2 - b.2) <= 1.
Proof.
  intros Ht. unfold partition_nonce_range. set (n := Nat.max devices 1). assert (0 < Z.of_nat n) as Hn by lia.
  pose proof (Z.mod_pos_bound total _ Hn). pose proof (Z.div_pos total _ Ht Hn). split_and!.
  - rewrite partition_from_nonces by done. unfold nonces_of. cbn [fst snd].
    replace (Z.of_nat n * (total / Z.of_nat n) + _) with total by (pose proof (Z.div_mod total (Z.of_nat n)); lia).
    apply list_fmap_ext. intros _ k _. by rewrite wrapping_add_assoc.
  - apply partition_length.
  - intros a b Ha%partition_counts Hb%partition_counts. lia.
Qed.

Lemma partition_in start total devices r j :
  0 <= total → r ∈ partition_nonce_range start total devices → 0 <= j < r.2 →
  ∃ k, 0 <= k < total ∧ wrapping_add 64 r.1 j = wrapping_add 64 start k.
Proof.
  intros Ht Hr Hj. destruct (devices_share_the_batch start total devices Ht) as (Hall & _).
  assert (wrapping_add 64 r.1 j ∈ mjoin (nonces_of <$> partition_nonce_range start total devices)) as Hin.
  { apply list_elem_of_join. exists (nonces_of r). split; [|by apply list_elem_of_fmap_2].
    apply list_elem_of_fmap_2. apply elem_of_seqZ. lia. }
  rewrite Hall in Hin. apply list_elem_of_fmap in Hin as (k & Hk & Hin%elem_of_seqZ). exists k. split; [lia | done].
Qed.

(** ** Solutions *)

Section backend.
Context `{Primitives} (native : CudaNative).

(** What the search kernel documents: a nonce it reports is one it was given. *)
Definition kernel_in_range : Prop := ∀ m height header boundary start count,
  let a := cn_mine native m height header boundary start count in
  ka_rc a = 0 → ka_found a ≠ 0 → ∃ k, 0 <= k < count ∧ ka_nonce a = wrapping_add 64 start k.

(** A solution that answers came with. *)
Definition reported (job : MiningJob) (answers : list (nat * KernelAnswer)) (sol : MiningSolution) : Prop :=
  ∃ i a, (i, a) ∈ answers ∧ ka_rc a = 0 ∧ ka_found a ≠ 0 ∧
    so_nonce sol = ka_nonce a ∧ so_final_hash sol = ka_final a ∧ so_mix_hash sol = ka_mix a.

Lemma collect_reported job s answers acc attempts sol :
  try_fold (collect_one s) acc answers = Ok (attempts, Some sol) → acc.2 = Some sol ∨ reported job answers sol.
Proof.
  revert acc. induction answers as [|[i a] answers IH]; intros [n found]; cbn [try_fold]; [by intros [= _ ->]; left|].
  intros ([n' found'] & Hone & Hrest)%bind_Ok. unfold collect_one in Hone. destruct (negb (ka_rc a =? 0)) eqn:Erc; [done|].
  injection Hone as <- <-. apply negb_false_iff, Z.eqb_eq in Erc. destruct (IH _ Hrest) as [Hacc|Hr].
  - cbn [snd] in Hacc. destruct found as [f|]; [by left|]. destruct (ka_found a =? 0) eqn:Ef; [done|]. apply Z.eqb_neq in Ef.
    injection Hacc as <-. right. exists i, a. split_and!; [by left|done..].
  - right. destruct Hr as (j & b & Hin & Hb). exists j, b. split; [by right | done].
Qed.

Lemma search_devices_in job total s i a :
  (i, a) ∈ search_devices native job total s →
  ∃ r m, r ∈ partition_nonce_range (mj_start_nonce job) total (length (cu_devices s)) ∧
    a = cn_mine native m (height_as_i32 (bh_height (Block.header (mj_block job)))) (mining_header_hash (mj_block job))
      (boundary_from_leading_zero_bits (mj_bits job)) r.1 r.2.
Proof.
  unfold search_devices. intros ([j [[start count] m]] & Hin & Ha)%list_elem_of_omap.
  destruct (count =? 0); [done|]. injection Ha as <- <-. apply elem_of_lookup_imap in Hin as (k & x & Heq & Hx).
  injection Heq as <- <-. apply list_elem_of_lookup_2, elem_of_zip_l in Hx. by exists (start, count), m.
Qed.

(** A batch's solution lies within what it searched. *)
Lemma mine_device_batch_nonce job s sol s' :
  kernel_in_range → 0 <= mj_max_nonces job → mine_device_batch native job s = (Ok (Some sol), s') →
  ∃ k, 0 <= k < mj_max_nonces job ∧ so_nonce sol = wrapping_add 64 (mj_start_nonce job) k.
Proof.
  intros Hk Hm Hrun. unfold mine_device_batch in Hrun. apply sr_bind_Ok in Hrun as (u & s1 & _ & Hrun).
  rewrite sr_get_bind in Hrun. cbv zeta in Hrun. set (total := searched (cu_config s1) (mj_max_nonces job)) in *.
  assert (total <= mj_max_nonces job) as Htm by (unfold total, searched; lia).
  assert (0 <= total) as Ht0 by (unfold total, searched, device_batch, umax; pose proof (clamp_range 2048 1048576
    (Z.max (bc_batch_size (cu_config s1)) 1024 * Z.max (bc_intensity (cu_config s1)) 1 / 10)); lia).
  destruct (total =? 0); [done|]. rewrite sr_lift_bind in Hrun.
  destruct (try_fold _ _ _) as [[attempts found]|e] eqn:E; [|done]. rewrite sr_modify_bind in Hrun. injection Hrun as -> <-.
  apply (collect_reported job) in E as [E|(i & a & Hin & Hrc & Hf & Hn & _)]; [done|].
  apply search_devices_in in Hin as (r & m & Hr & ->). destruct (Hk _ _ _ _ _ _ Hrc Hf) as (j & Hj & Hnj).
  rewrite Hn, Hnj. destruct (partition_in _ _ _ _ _ Ht0 Hr Hj) as (k & Hk' & ->). exists k. split; [lia | done].
Qed.

(** The coordinator's solutions. *)
Lemma coordinator_batch_solution job k sol k' :
  coordinator_batch native job k = (Ok (Some sol), k') →
  ∃ cuda cuda' v, co_cuda k = Some cuda ∧ mine_device_batch native job cuda = (Ok (Some sol), cuda') ∧
    FiroPow_validate (set_nonce_mix (so_nonce sol) (so_mix_hash sol) (mj_block job)) (so_nonce sol) (so_mix_hash sol) (mj_bits job) = Ok v ∧
    val_meets_target v = true.
Proof.
  unfold coordinator_batch, coordinator_mine_batch. destruct (co_cuda k) as [cuda|].
  2: { destruct (negb (co_ready k)); by intros [=]. }
  destruct (negb (co_ready k)); [by intros [=]|]. unfold cuda_mine_batch. rewrite sr_get_bind.
  destruct (negb (cu_ready cuda)); [by intros [=]|]. destruct (mine_device_batch native job cuda) as [found cuda'] eqn:E.
  destruct found as [[sol'|]|e]; cbn [negb]; [|by intros [=]..]. unfold revalidate_solution.
  destruct (FiroPow_validate _ _ _ _) as [v|e] eqn:Ev; [|by intros [=]]. destruct (val_meets_target v) eqn:Em; intros [= <- <-].
  by exists cuda, cuda', v.
Qed.

(** What the coordinator hands to the mining loop, whatever the kernels answer,
    meets the job's difficulty by the consensus code, mix hash included; and when
    the kernels report only nonces they were given, its nonce is of the job's
    lease, so the loop's leases follow one another. *)
Theorem coordinator_solutions_hold job k sol k' :
  coordinator_batch native job k = (Ok (Some sol), k') →
  (∃ out, pow_hash_with_nonce (mj_block job) (so_nonce sol) = Ok out ∧ mix_hash out = so_mix_hash sol ∧
     check_pow (final_hash out) (mj_bits job) = true) ∧
  (kernel_in_range → 0 <= mj_start_nonce job → 0 <= mj_max_nonces job → mj_start_nonce job + mj_max_nonces job < 2 ^ 64 →
   mj_start_nonce job <= so_nonce sol < mj_start_nonce job + mj_max_nonces job).
Proof.
  intros (cuda & cuda' & v & _ & Hd & Hv & Hmeets)%coordinator_batch_solution. split.
  - unfold FiroPow_validate in Hv. cbv zeta in Hv. apply bind_Ok in Hv as (out & Hout & [= <-]). cbn [val_meets_target] in Hmeets.
    apply andb_true_iff in Hmeets as [[_ Hmix]%andb_true_iff Htarget]. apply bool_decide_eq_true in Hmix. by exists out.
  - intros Hk H0 Hm Hw. destruct (mine_device_batch_nonce _ _ _ _ Hk Hm Hd) as (j & Hj & ->).
    unfold wrapping_add, uwrap. rewrite Z.mod_small; lia.
Qed.

(** A turn of the loop whose device is the coordinator. *)
Lemma coordinator_within_leases turn k :
  kernel_in_range → (∀ j, tu_mined turn j = (coordinator_batch native j k).1) → within_leases turn.
Proof.
  intros Hk Ht j sol Hm Hmax [H0 Hw]. rewrite Ht in Hm. destruct (coordinator_batch native j k) as [r k'] eqn:E. cbn in Hm. subst r.
  by apply (coordinator_solutions_hold _ _ _ _ E).
Qed.

End backend.

(** ** The part of a lease that is searched *)

(** The device searches the whole lease exactly when its batch is as large. *)
Lemma lease_searched_whole c :
  searched (backend_config c) (effective_nonce_batch c) = effective_nonce_batch c ↔
  effective_nonce_batch c <= device_batch (backend_config c).
Proof. pose proof (effective_nonce_batch_bounds c). unfold searched, MAX_NONCE_BATCH, umax in *. lia. Qed.

(** It does with the intensities from 10 on when no batch size is set. *)
Theorem default_batch_covers_lease c :
  mf_gpu_batch_size c = 0 → 10 <= effective_gpu_intensity c →
  searched (backend_config c) (effective_nonce_batch c) = effective_nonce_batch c.
Proof.
  intros H0 Hi. apply lease_searched_whole. pose proof (effective_nonce_batch_bounds c) as Hb.
  unfold device_batch, backend_config. cbn [bc_batch_size bc_intensity]. unfold effective_gpu_batch. rewrite H0. cbn [Z.gtb Z.compare].
  unfold effective_nonce_batch, MAX_NONCE_BATCH, MAX_GPU_BATCH in *. rewrite !clamp_spec in * by lia.
  set (n := mf_nonce_batch_size c) in *. set (i := effective_gpu_intensity c) in *.
  rewrite (Z.max_l i 1) by lia.
  assert (Z.max 1 (Z.min n 131072) <= Z.max (Z.max (Z.max 256 (Z.min n 131072)) 256) 1024 * i / 10) as Hle; [|lia].
  apply Z.div_le_lower_bound; nia.
Qed.

(** With a small batch size the rest of every lease is skipped: the loop moves on by
    the lease, the device has searched a part of it. *)
Theorem small_batch_skips_nonces c :
  mf_gpu_batch_size c = 256 → mf_gpu_intensity c = 75 → mf_nonce_batch_size c = 65536 →
  searched (backend_config c) (effective_nonce_batch c) = 7680 ∧ effective_nonce_batch c = 65536.
Proof.
  intros Hg Hi Hn. unfold searched, device_batch, backend_config, effective_gpu_batch, effective_gpu_intensity, effective_nonce_batch.
  cbn [bc_batch_size bc_intensity]. by rewrite Hg, Hi, Hn.
Qed.

(** ** Selection and inventory *)

(** Any selection that starts with [cuda:] selects every device. *)
Theorem cuda_id_selects_all ids sel d :
  sel ∈ ids → is_prefix (str_bytes "cuda:") (str_bytes sel) = true → device_selected ids d = true.
Proof.
  intros Hin Hp. apply existsb_exists. exists sel. split; [by apply list_elem_of_In|]. by rewrite Hp, orb_true_r.
Qed.

Lemma first_of_each_spec raw seen :
  NoDup (physical_key <$> first_of_each seen raw) ∧
  (∀ d, d ∈ first_of_each seen raw → d ∈ raw ∧ physical_key d ∉ seen) ∧
  (∀ d, d ∈ raw → physical_key d ∈ seen ∨ ∃ e, e ∈ first_of_each seen raw ∧ physical_key e = physical_key d).
Proof.
  revert seen. induction raw as [|x raw IH]; intros seen; cbn [first_of_each].
  { split_and!; [constructor | by intros d ?%elem_of_nil | by intros d ?%elem_of_nil]. }
  case_bool_decide as Hx.
  - destruct (IH seen) as (Hn & Hin & Hall). split_and!; [done| |].
    + intros d Hd. destruct (Hin d Hd). split; [by right | done].
    + intros d [->|Hd]%elem_of_cons; [by left | by apply Hall].
  - destruct (IH ({[physical_key x]} ∪ seen)) as (Hn & Hin & Hall). split_and!.
    + cbn. apply NoDup_cons_2; [|done]. intros (d & Hd & Hin')%list_elem_of_fmap. destruct (Hin d Hin') as [_ Hnot]. set_solver.
    + intros d [->|Hd]%elem_of_cons; [split; [by left | done]|]. destruct (Hin d Hd) as [? Hnot]. split; [by right | set_solver].
    + intros d [->|Hd]%elem_of_cons; [right; exists x; split; [by left | done]|].
      destruct (Hall d Hd) as [[->%elem_of_singleton|Hs]%elem_of_union|(e & He & Hk)]; [|by left|].
      * right. exists x. split; [by left | done].
      * right. exists e. split; [by right | done].
Qed.

(** The inventory lists one device for each name and memory size; two identical
    cards are one entry, though each has its own id. *)
Theorem inventory_by_model raw :
  let devices := (dedupe_gpu_devices raw).1 in
  NoDup (physical_key <$> devices) ∧
  (∀ d, d ∈ raw → ∃ e, e ∈ devices ∧ physical_key e = physical_key d ∧ md_selected e = true) ∧
  (∀ i d, devices !! i = Some d → md_index d = Z.of_nat i).
Proof.
  cbv zeta. unfold dedupe_gpu_devices. cbn [fst]. destruct (first_of_each_spec raw ∅) as (Hn & _ & Hall).
  assert (physical_key <$> imap renumbered (first_of_each ∅ raw) = physical_key <$> first_of_each ∅ raw) as Hkeys.
  { rewrite fmap_imap. erewrite imap_ext; [apply imap_const|]. done. }
  split_and!.
  - by rewrite Hkeys.
  - intros d Hd. destruct (Hall d Hd) as [?%elem_of_empty|(e & He & Hk)]; [done|]. apply list_elem_of_lookup in He as [i Hi].
    exists (renumbered i e). split_and!; [|done|done]. apply (list_elem_of_lookup_2 _ i). by rewrite list_lookup_imap, Hi.
  - intros i d. rewrite list_lookup_imap. by intros (e & _ & ->)%fmap_Some.
Qed.
