(* ===== verification/PoolViews.v ===== *)
(** [vireon-mining-pool/src/app.rs], [models.rs], [error.rs]: the requests the
    pool answers, one per route, with the client's address, the administrator's
    token and the pages of the pool's state. *)

From S2P Require Import Prelude RustStd IpAddr Interfaces Crypto Errors Network Signing Address MinerWork Pool PoolApp PoolSettings Sdk.

(** ** [error.rs] *)

Definition PoolError_fmt (e : PoolError) : string :=
  match e with
  | Config m => "configuration error: " ++ m
  | InvalidShare m => "invalid share: " ++ m
  | Stale m => "stale share: " ++ m
  | Unauthorized => "unauthorized"
  | RateLimited n => "request limit exceeded; retry after " ++ uint_to_string n ++ " seconds"
  | Banned n => "client temporarily banned; retry after " ++ uint_to_string n ++ " seconds"
  | Upstream m => "upstream error: " ++ m
  | StorageError m => "storage error: " ++ m
  end%string.

(** [into_response]: the HTTP status; the body is [PoolError_fmt]. *)
Definition PoolError_status (e : PoolError) : Z :=
  match e with
  | InvalidShare _ | Config _ => 400
  | Stale _ => 409
  | Unauthorized => 401
  | RateLimited _ | Banned _ => 429
  | Upstream _ => 502
  | StorageError _ => 500
  end.

(** ** The views of [models.rs] *)

Record WorkerView := mkWorkerView {
  wv_miner_address : string;
  wv_worker_name : string;
  wv_accepted_shares : Z;
  wv_blocks_found : Z;
  wv_hashrate : Z;
  wv_assigned_bits : Z;
  wv_last_share : Z;
  wv_online : bool;
}.

Record PoolStatusView := {
  pv_protocol : string;
  pv_mode : string;
  pv_status_label : string;
  pv_pool_name : string;
  pv_network_id : string;
  pv_pool_address : string;
  pv_upstream_status : string;
  pv_upstream_error : option string;
  pv_pool_fee_basis_points : Z;
  pv_payout_scheme : string;
  pv_minimum_payout_atomic : Z;
  pv_block_maturity_confirmations : Z;
  pv_vardiff_enabled : bool;
  pv_target_share_seconds : Z;
  pv_accepted_shares : Z;
  pv_connected_workers : Z;
  pv_hashrate : Z;
  pv_blocks_found : Z;
  pv_matured_blocks : Z;
  pv_rejected_requests : Z;
  pv_rate_limited_requests : Z;
  pv_active_bans : Z;
  pv_workers : list WorkerView;
  pv_recent_blocks : list PoolBlock;
}.

Record MinerView := mkMinerView {
  mv_address : string;
  mv_balance : AccountBalance;
  mv_workers : list WorkerView;
  mv_payouts : list PayoutBatch;
}.

Record PoolAccountView := mkAccountView {
  av_address : string;
  av_immature : Z;
  av_mature : Z;
  av_pending : Z;
  av_paid : Z;
}.

Record PoolHistoryView := {
  hv_protocol : string;
  hv_pool_name : string;
  hv_network_id : string;
  hv_pool_address : string;
  hv_status_label : string;
  hv_accepted_shares_counter : Z;
  hv_connected_workers : Z;
  hv_hashrate : Z;
  hv_blocks_found : Z;
  hv_matured_blocks : Z;
  hv_workers : list WorkerView;
  hv_blocks : list PoolBlock;
  hv_shares : list ShareRecord;
  hv_payouts : list PayoutBatch;
  hv_accounts : list PoolAccountView;
}.

(** [struct UpstreamHealth] *)
Record UpstreamHealth := mkHealth { uh_checked : bool; uh_last_error : option string }.

(** The state the handlers share: [PoolState] with the upstream's health. *)
Record PoolServer := mkServer { sv_state : PoolState; sv_health : UpstreamHealth }.

(** [PoolState::new], from the stored data. *)
Definition PoolServer_new (store : PoolStore) : PoolServer :=
  mkServer (mkPoolState store ∅ None (mkAdmission ∅ ∅ 0 0)) (mkHealth false None).

Definition POOL_PROTOCOL_VERSION : string := "vireon-pool-v1".

(** ** The client's address *)

(** [client_ip]: the peer's address, or the first of [x-forwarded-for] when the
    peer is a proxy on this machine. *)
Definition client_ip (forwarded_for : option string) (peer : option IpAddr) : option IpAddr :=
  peer_ip ← peer;
  let forwarded :=
    if is_loopback peer_ip then
      value ← forwarded_for;
      first ← head (split_on ","%byte (str_bytes value));
      IpAddr_parse (str_trim (str_of_bytes first))
    else None in
  match forwarded with Some ip => Some ip | None => Some peer_ip end.

(** ** The administrator's token *)

(** [require_admin]: [token_file] is the text of the file, when it is read;
    [authorization] the header, when it is text. *)
Definition require_admin (token_file authorization : option string) : result PoolError () :=
  expected ← ok_or Unauthorized token_file;
  actual ← ok_or Unauthorized (authorization ≫= λ v,
    if is_prefix (str_bytes "Bearer ") (str_bytes v) then Some (drop 7 (str_bytes v)) else None);
  if bool_decide (actual = str_bytes (str_trim expected)) then Ok () else Err Unauthorized.

(** ** The status page *)

Definition worker_key (sh : ShareRecord) : string * string := (sh_miner_address sh, sh_worker_name sh).
Definition worker_cmp (a b : (string * string) * list ShareRecord) : comparison :=
  then_with (str_cmp a.1.1 b.1.1) (str_cmp a.1.2 b.1.2).

(** [Iterator::max] and [min] of integers. *)
Definition max_of (l : list Z) : option Z := match l with [] => None | x :: l => Some (foldl Z.max x l) end.
Definition min_of (l : list Z) : option Z := match l with [] => None | x :: l => Some (foldl Z.min x l) end.

(** The shares since [cutoff], by worker. *)
Definition shares_by_worker (cutoff : Z) (shares : list ShareRecord) : gmap (string * string) (list ShareRecord) :=
  foldl (λ m sh, <[worker_key sh := default [] (m !! worker_key sh) ++ [sh]]> m) ∅
    (filter (λ sh, cutoff <= sh_accepted_at sh) shares).

(** The workers that asked for work since [cutoff]. *)
Definition recent_polls (cutoff : Z) (workers : gmap string (gmap string Z)) : list ((string * string) * Z) :=
  filter (λ e, cutoff <= e.2)
    (map_to_list workers ≫= λ a, (λ w, ((a.1, w.1), w.2)) <$> map_to_list a.2).

(** [worker_map]: the shares of every worker listed. *)
Definition listed_workers (shares : gmap (string * string) (list ShareRecord)) (polls : list ((string * string) * Z)) :
    gmap (string * string) (list ShareRecord) :=
  foldl (λ m e, <[e.1 := default [] (m !! e.1)]> m) shares polls.

(** The work of the shares: [1 << bits] each. *)
Definition live_work (shares : list ShareRecord) : Z :=
  foldl (λ sum sh, saturating_add 128 sum (default (umax 128) (checked_shl 128 1 (sh_share_bits sh)))) 0 shares.

Section views.
Context (config : PoolSettings).

(** The closure that makes a worker's row. *)
Definition worker_view (now live_window live_cutoff : Z) (last_poll : gmap (string * string) Z)
    (e : (string * string) * list ShareRecord) : WorkerView :=
  let '(key, shares) := e in
  let newest := default 0 (max_of (sh_accepted_at <$> shares)) in
  let last_activity := Z.max newest (default 0 (last_poll !! key)) in
  let live_shares := filter (λ sh, live_cutoff <= sh_accepted_at sh) shares in
  let window_seconds :=
    if bool_decide (live_shares = []) then live_window
    else
      let first_live := default now (min_of (sh_accepted_at <$> live_shares)) in
      let elapsed := Z.max (saturating_sub now first_live) 1 in
      Z.max (Z.min elapsed live_window) 1 in
  let hashrate := if bool_decide (live_shares = []) then 0 else Z.min (live_work live_shares / window_seconds) (umax 64) in
  let assigned := default 0 (sh_share_bits <$>
    match last live_shares with Some sh => Some sh | None => last shares end) in
  mkWorkerView key.1 key.2 (Z.of_nat (length shares))
    (Z.of_nat (length (filter (λ sh, sh_block_candidate sh = true) shares))) hashrate assigned last_activity
    (saturating_sub now last_activity <=? pf_worker_timeout_seconds config).

(** The rows, by address and name. *)
Definition worker_rows (now : Z) (shares : list ShareRecord) (workers : gmap string (gmap string Z)) : list WorkerView :=
  let live_window := Z.max (pf_hashrate_window_seconds config) 1 in
  let live_cutoff := saturating_sub now live_window in
  let presence_cutoff := saturating_sub now (Z.max (pf_worker_timeout_seconds config) live_window) in
  let polls := recent_polls presence_cutoff workers in
  worker_view now live_window live_cutoff (list_to_map polls) <$>
    sort_by worker_cmp (map_to_list (listed_workers (shares_by_worker presence_cutoff shares) polls)).

Definition upstream_status (h : UpstreamHealth) : string :=
  if negb (uh_checked h) then "unknown" else match uh_last_error h with Some _ => "degraded" | None => "healthy" end.

(** [status_view] *)
Definition status_view (now : Z) (s : PoolServer) : PoolStatusView :=
  let data := st_data (ps_store (sv_state s)) in
  let admission := ps_admission (sv_state s) in
  let workers := worker_rows now (pd_shares data) (am_workers admission) in
  let online := filter (λ w, wv_online w = true) workers in
  {| pv_protocol := POOL_PROTOCOL_VERSION;
     pv_mode := "Mainnet Candidate pooled mining prototype";
     pv_status_label := pf_status_label config;
     pv_pool_name := pf_pool_name config;
     pv_network_id := pf_network_id config;
     pv_pool_address := pf_pool_address config;
     pv_upstream_status := upstream_status (sv_health s);
     pv_upstream_error := uh_last_error (sv_health s);
     pv_pool_fee_basis_points := pf_pool_fee_basis_points config;
     pv_payout_scheme := "PPLNS";
     pv_minimum_payout_atomic := pf_minimum_payout_atomic config;
     pv_block_maturity_confirmations := pf_block_maturity_confirmations config;
     pv_vardiff_enabled := pf_vardiff_enabled config;
     pv_target_share_seconds := pf_target_share_seconds config;
     pv_accepted_shares := pd_next_share_id data;
     pv_connected_workers := Z.of_nat (length online);
     pv_hashrate := foldl (wrapping_add 64) 0 (wv_hashrate <$> online);
     pv_blocks_found := Z.of_nat (length (pd_blocks data));
     pv_matured_blocks := Z.of_nat (length (filter (λ b, pb_status b = Mature) (pd_blocks data)));
     pv_rejected_requests := am_rejected_requests admission;
     pv_rate_limited_requests := am_rate_limited_requests admission;
     pv_active_bans := Z.of_nat (length (filter (λ e, now < cl_banned_until e.2) (map_to_list (am_clients admission))));
     pv_workers := workers;
     pv_recent_blocks := take 20 (reverse (pd_blocks data)) |}.

(** ** The other pages *)

Definition account_view (e : string * AccountBalance) : PoolAccountView :=
  mkAccountView e.1 (ab_immature e.2) (ab_mature e.2) (ab_pending e.2) (ab_paid e.2).
Definition account_cmp (a b : PoolAccountView) : comparison :=
  then_with (av_mature b ?= av_mature a) (then_with (av_immature b ?= av_immature a) (str_cmp (av_address a) (av_address b))).

Definition history_view (now : Z) (s : PoolServer) : PoolHistoryView :=
  let status := status_view now s in
  let data := st_data (ps_store (sv_state s)) in
  {| hv_protocol := POOL_PROTOCOL_VERSION;
     hv_pool_name := pv_pool_name status;
     hv_network_id := pv_network_id status;
     hv_pool_address := pv_pool_address status;
     hv_status_label := pv_status_label status;
     hv_accepted_shares_counter := pv_accepted_shares status;
     hv_connected_workers := pv_connected_workers status;
     hv_hashrate := pv_hashrate status;
     hv_blocks_found := pv_blocks_found status;
     hv_matured_blocks := pv_matured_blocks status;
     hv_workers := pv_workers status;
     hv_blocks := take 200 (reverse (pd_blocks data));
     hv_shares := take 500 (reverse (pd_shares data));
     hv_payouts := take 200 (reverse (pd_payouts data));
     hv_accounts := take 200 (sort_by account_cmp (account_view <$> btree_entries (pd_accounts data))) |}.

End views.

(** ** The upstream node *)

(** An HTTP answer, its body decoded. *)
Record UpstreamAnswer (A : Type) := mkUpstreamAnswer { ua_status : Z; ua_body : result string A }.
Arguments mkUpstreamAnswer {A}. Arguments ua_status {A}. Arguments ua_body {A}.
Definition ua_success {A} (a : UpstreamAnswer A) : bool := (200 <=? ua_status a) && (ua_status a <=? 299).

(** The answers of the node behind the pool, by URL; [V] is [serde_json::Value]. *)
Record UpstreamHttp (V : Type) := {
  uh_template : string → string → result string (UpstreamAnswer MiningTemplate);
  uh_submit : string → MiningSubmitRequest → result string (UpstreamAnswer MiningSubmitResponse);
  uh_value : string → result string (UpstreamAnswer V);
  uh_tip : string → result string (UpstreamAnswer (option Z));
  uh_block : string → result string (UpstreamAnswer string);
}.
Arguments uh_template {V}. Arguments uh_submit {V}. Arguments uh_value {V}. Arguments uh_tip {V}. Arguments uh_block {V}.

Section upstream.
Context (config : PoolSettings).
(** [Value::get], [as_str] and [as_u64] of [serde_json], and the text of a
    status of the [http] crate. *)
Context {V : Type} (get_field : V → string → option V) (as_str : V → option string) (as_u64 : V → option Z).
Context (status_text : Z → string) (http : UpstreamHttp V).

Definition upstream_base : string := trim_slash (pf_upstream_rpc_url config).

Definition fetch_upstream_template : result PoolError MiningTemplate :=
  answer ← map_err Upstream (uh_template http (upstream_base ++ "/mining/template")%string (pf_pool_address config));
  if negb (ua_success answer) then Err (Upstream ("template HTTP " ++ status_text (ua_status answer))%string) else
  map_err Upstream (ua_body answer).

(** The submission of a block at the end of [process_share]. *)
Definition submit_upstream (r : MiningSubmitRequest) : result PoolError MiningSubmitResponse :=
  answer ← map_err Upstream (uh_submit http (upstream_base ++ "/mining/submit")%string r);
  if negb (ua_success answer) then Err (Upstream ("submission HTTP " ++ status_text (ua_status answer))%string) else
  map_err Upstream (ua_body answer).

Definition fetch_upstream_tx (hash : string) : result PoolError V :=
  let lookup_error e := Upstream ("lookup payout tx " ++ hash ++ ": " ++ e)%string in
  answer ← map_err lookup_error (uh_value http (upstream_base ++ "/transactions/" ++ hash)%string);
  if ua_success answer then map_err Upstream (ua_body answer) else
  answer ← map_err lookup_error (uh_value http (upstream_base ++ "/indexer/tx/" ++ hash)%string);
  if negb (ua_success answer) then Err (Config ("payout tx " ++ hash ++ " not found on upstream chain/indexer")%string) else
  map_err Upstream (ua_body answer).

Definition parse_atomic_field (value : option V) : option Z :=
  v ← value;
  match as_u64 v with Some n => Some n | None => s ← as_str v; parse_uint 64 s end.

(** The fields the check of a payout reads. *)
Definition upstream_tx (v : V) : UpstreamTx := {|
  ut_to := get_field v "to" ≫= as_str;
  ut_amount_atomic := parse_atomic_field (get_field v "amount_atomic");
  ut_lifecycle := get_field v "lifecycle_status" ≫= as_str;
  ut_block_height := get_field v "block_height" ≫= as_u64 |}.
Definition fetch_payout_tx (hash : string) : result PoolError UpstreamTx := upstream_tx <$> fetch_upstream_tx hash.

(** The requests of [reconcile_maturity]. *)
Definition upstream_tip : result PoolError (option Z) :=
  answer ← map_err Upstream (uh_tip http (upstream_base ++ "/status")%string);
  map_err Upstream (ua_body answer).
Definition upstream_block (height : Z) : result PoolError (option string) :=
  answer ← map_err Upstream (uh_block http (upstream_base ++ "/blocks/" ++ uint_to_string height)%string);
  if ua_success answer then Some <$> map_err Upstream (ua_body answer) else Ok None.

End upstream.

(** ** The routes *)

(** Who sends a request: the peer's address, the [x-forwarded-for] and
    [authorization] headers. *)
Record Sender := mkSender { sn_peer : option IpAddr; sn_forwarded : option string; sn_authorization : option string }.

(** The clock readings of a submission. *)
Record ShareTimes := mkTimes { ti_admit : Z; ti_now : Z; ti_build : Z; ti_share : Z; ti_block : Z; ti_invalid : Z }.

(** The requests, one constructor per route of [router], with the clock readings,
    the random payout id and the outcomes of saving. *)
Inductive PoolRequest :=
| GetAsset (path : string)
| GetHealth
| GetStatus (now : Z) (saved saved' : option string)
| GetHistory (now : Z) (saved saved' : option string)
| GetWork (sender : Sender) (now : Z) (miner_address worker_name : string)
| PostShare (sender : Sender) (times : ShareTimes) (saved saved' : option string) (share : MiningSubmitRequest)
| GetMiner (address : string) (now : Z)
| GetPayouts
| PostPrepare (sender : Sender) (payout_id : string) (now : Z) (saved : option string)
| PostConfirm (sender : Sender) (payout_id : string) (hashes : list string) (saved : option string)
| PostCancel (sender : Sender) (payout_id : string) (saved : option string).

Inductive PoolReply :=
| AssetReply (path : string)
| HealthReply (network_id status_label : string)
| StatusReply (view : PoolStatusView)
| HistoryReply (view : PoolHistoryView)
| WorkReply (template : MiningTemplate)
| ShareReply (response : MiningSubmitResponse)
| MinerReply (view : MinerView)
| PayoutsReply (payouts : list PayoutBatch)
| PayoutReply (payout : PayoutBatch).

Abbreviation server A := (state_result PoolServer PoolError A).

Definition on_app {A} (m : app A) : server A := λ s,
  let '(r, st) := m (sv_state s) in (r, mkServer st (sv_health s)).
Definition set_health (h : UpstreamHealth) (s : PoolServer) : PoolServer := mkServer (sv_state s) h.
Definition sr_result {S E A} (m : state_result S E A) : state_result S E (result E A) := λ s,
  let '(r, s') := m s in (Ok r, s').

Section server.
Context `{Primitives}.
Context (config : PoolSettings) (hex_decode : string → option (list byte)).
Context {V : Type} (get_field : V → string → option V) (as_str : V → option string) (as_u64 : V → option Z).
Context (status_text : Z → string) (token_file : option string) (http : UpstreamHttp V).

Definition sender_ip (sender : Sender) : option string := IpAddr_fmt <$> client_ip (sn_forwarded sender) (sn_peer sender).
Definition reconcile (saved saved' : option string) : app () :=
  reconcile_maturity (handler_config config) (upstream_tip config http) (upstream_block config http) saved saved'.

Definition pool_status (now : Z) (saved saved' : option string) : server PoolStatusView :=
  outcome ← sr_result (on_app (reconcile saved saved'));
  _ ← sr_modify (set_health (mkHealth true (match outcome with Ok _ => None | Err e => Some (PoolError_fmt e) end)));
  s ← sr_get;
  mret (status_view config now s).

Definition pool_history (now : Z) (saved saved' : option string) : server PoolHistoryView :=
  _ ← sr_result (on_app (reconcile saved saved'));
  s ← sr_get;
  mret (history_view config now s).

Definition miner (address : string) (now : Z) : server MinerView :=
  _ ← sr_lift (map_err (λ e, Config (VireonError_fmt e)) (Address_parse address));
  s ← sr_get;
  let data := st_data (ps_store (sv_state s)) in
  mret (mkMinerView address (default no_balance (pd_accounts data !! address))
    (filter (λ w, wv_miner_address w = address) (pv_workers (status_view config now s)))
    (filter (λ p, existsb (λ it, bool_decide (pi_address it = address)) (po_items p) = true) (pd_payouts data))).

Definition admin (sender : Sender) : server () := sr_lift (require_admin token_file (sn_authorization sender)).

(** [router]: the handler of each route. *)
Definition pool_handle (request : PoolRequest) : server PoolReply :=
  match request with
  | GetAsset path => mret (AssetReply path)
  | GetHealth => mret (HealthReply (pf_network_id config) (pf_status_label config))
  | GetStatus now saved saved' => view ← pool_status now saved saved'; mret (StatusReply view)
  | GetHistory now saved saved' => view ← pool_history now saved saved'; mret (HistoryReply view)
  | GetWork sender now miner_address worker_name =>
      t ← on_app (work (handler_config config) (sender_ip sender) now (fetch_upstream_template config status_text http)
        miner_address worker_name);
      mret (WorkReply t)
  | PostShare sender times saved saved' share =>
      response ← on_app (submit_share (handler_config config) (sender_ip sender) (ti_admit times) (ti_now times)
        (ti_build times) (ti_share times) (ti_block times) (ti_invalid times)
        (submit_upstream config status_text http) saved saved' share);
      mret (ShareReply response)
  | GetMiner address now => view ← miner address now; mret (MinerReply view)
  | GetPayouts => s ← sr_get; mret (PayoutsReply (pd_payouts (st_data (ps_store (sv_state s)))))
  | PostPrepare sender payout_id now saved =>
      _ ← admin sender;
      batch ← on_app (on_store (PoolStore_prepare_payout saved payout_id (pf_minimum_payout_atomic config) now));
      mret (PayoutReply batch)
  | PostConfirm sender payout_id hashes saved =>
      _ ← admin sender;
      batch ← on_app (confirm_payout hex_decode (fetch_payout_tx config get_field as_str as_u64 http) saved payout_id hashes);
      mret (PayoutReply batch)
  | PostCancel sender payout_id saved =>
      _ ← admin sender;
      batch ← on_app (on_store (PoolStore_cancel_payout saved payout_id));
      mret (PayoutReply batch)
  end.

End server.

(** ** Cross-origin requests *)

(** The origins [pool_cors_layer] allows. *)
Inductive CorsOrigins := AnyOrigin | NoOrigin | Origins (l : list string).
Definition CORS_METHODS : list string := ["GET"; "POST"; "OPTIONS"].
Definition CORS_HEADERS : list string := ["content-type"; "authorization"].

(** [header_ok]: [HeaderValue::from_str] of the [http] crate succeeds. *)
Definition pool_cors_layer (header_ok : string → bool) (config : PoolSettings) : CorsOrigins * list string * list string :=
  let origins :=
    if existsb (λ o, bool_decide (o = "*"%string)) (pf_cors_allowed_origins config) then AnyOrigin
    else match filter (λ o, header_ok o = true) (pf_cors_allowed_origins config) with
         | [] => NoOrigin
         | l => Origins l
         end in
  (origins, CORS_METHODS, CORS_HEADERS).
