(* ===== verification/PoolViewsTheory.v ===== *)
(** The pool server against its store: every request is a sequence of the store's
    operations, those on payouts only with the administrator's token; and what the
    status page lists. *)

From S2P Require Import Prelude RustStd IpAddr Interfaces Crypto Errors Network Signing Address MinerWork Pool PoolTheory PoolApp PoolSettings Seed Sdk PoolViews.

(** ** Sequences of store operations *)

(** The operations that move payouts. *)
Definition payout_op (o : pool_op) : bool :=
  match o with op_prepare _ _ _ _ | op_confirm _ _ _ | op_cancel _ _ => true | _ => false end.

Section via.
Context (hex_decode : string → option (list byte)) (P : pool_op → Prop).

(** [s'] is reached from [s] by operations that satisfy [P]. *)
Definition via (s s' : PoolStore) : Prop :=
  ∃ ops, Forall P ops ∧ s' = foldl (λ st o, run_pool_op hex_decode o st) s ops.

#[export] Instance via_refl : Reflexive via.
Proof. intros s. by exists []. Qed.
Lemma via_trans s1 s2 s3 : via s1 s2 → via s2 s3 → via s1 s3.
Proof. intros (o1 & H1 & ->) (o2 & H2 & ->). exists (o1 ++ o2). by rewrite foldl_app, Forall_app. Qed.
Lemma via_op o s : P o → via s (run_pool_op hex_decode o s).
Proof. intros Ho. exists [o]. by repeat constructor. Qed.

(** A handler works on the store through such operations only. *)
Definition stores {S A} (proj : S → PoolStore) (m : state_result S PoolError A) : Prop :=
  ∀ s, via (proj s) (proj (m s).2).

Section handlers.
Context {S : Type} (proj : S → PoolStore).

Lemma stores_lift {A} (r : result PoolError A) : stores proj (sr_lift r).
Proof. intros s. reflexivity. Qed.
Lemma stores_ret {A} (x : A) : stores proj (mret x).
Proof. intros s. reflexivity. Qed.
Lemma stores_get : stores proj sr_get.
Proof. intros s. reflexivity. Qed.
Lemma stores_modify f : (∀ s, proj (f s) = proj s) → stores proj (sr_modify f).
Proof. intros Hf s. cbn. by rewrite Hf. Qed.
Lemma stores_bind {A B} (m : state_result S PoolError A) (f : A → state_result S PoolError B) :
  stores proj m → (∀ x, stores proj (f x)) → stores proj (m ≫= f).
Proof.
  intros Hm Hf s. specialize (Hm s). unfold mbind, state_result_bind. destruct (m s) as [[x|e] s1]; cbn in *; [|done].
  by eapply via_trans, Hf.
Qed.
(** What comes after a check runs when the check passes. *)
Lemma stores_lift_bind {A B} (r : result PoolError A) (f : A → state_result S PoolError B) :
  (∀ x, r = Ok x → stores proj (f x)) → stores proj (sr_lift r ≫= f).
Proof. intros Hf s. rewrite sr_lift_bind. destruct r as [x|e]; [by apply Hf | reflexivity]. Qed.
Lemma stores_if {A} (b : bool) (m n : state_result S PoolError A) :
  stores proj m → stores proj n → stores proj (if b then m else n).
Proof. by destruct b. Qed.
Lemma stores_result {A} (m : state_result S PoolError A) : stores proj m → stores proj (sr_result m).
Proof. intros Hm s. specialize (Hm s). unfold sr_result. by destruct (m s). Qed.

End handlers.

(** One operation of the store, in the server's state. *)
Lemma stores_on_store {A} (m : pool A) o :
  P o → (∀ st, (m st).2 = run_pool_op hex_decode o st) → stores ps_store (on_store m).
Proof.
  intros Ho Hm s. unfold on_store. pose proof (Hm (ps_store s)) as E. destruct (m (ps_store s)) as [r st]. cbn in *.
  subst st. by apply via_op.
Qed.
Lemma stores_on_app {A} (m : app A) : stores ps_store m → stores (λ s, ps_store (sv_state s)) (on_app m).
Proof. intros Hm s. specialize (Hm (sv_state s)). unfold on_app. by destruct (m (sv_state s)). Qed.
Lemma stores_admitted {A} (m : state_result AdmissionState PoolError A) : stores ps_store (admitted m).
Proof. intros s. unfold admitted. destruct (m _). reflexivity. Qed.

End via.

Create HintDb stores.
#[local] Hint Resolve stores_lift stores_ret stores_get stores_modify stores_admitted : stores.

(** The steps of a handler, one after the other. *)
Ltac stores_step :=
  match goal with
  | |- stores _ _ _ (_ ≫= _) => apply stores_bind; [|intros ?]
  | |- stores _ _ _ (if ?b then _ else _) => apply stores_if
  | |- stores _ _ _ (match ?x with _ => _ end) => destruct x
  | |- stores _ _ _ (sr_modify _) => apply stores_modify; intros ?; reflexivity
  | |- _ => progress cbv zeta
  | |- _ => solve [eauto with stores]
  end.

Section server.
Context `{Primitives}.
Context (hex_decode : string → option (list byte)).

(** The operations any client can cause. *)
Definition open_op (o : pool_op) : Prop := payout_op o = false.

Section clients.
Context (config : PoolConfig) (P : pool_op → Prop) (HP : ∀ o, open_op o → P o).

Lemma stores_work ip now fetched a n : stores hex_decode P ps_store (work config ip now fetched a n).
Proof.
  unfold work. repeat stores_step. intros s. unfold issue_worker_template. destruct (ps_jobs s !! _); reflexivity.
Qed.

Lemma stores_settle t_block upstream saved saved' r t sh :
  stores hex_decode P ps_store (settle_share config t_block upstream saved saved' r t sh).
Proof.
  unfold settle_share.
  assert (stores hex_decode P ps_store (on_store (PoolStore_record_share saved sh))) as Hs
    by (apply (stores_on_store _ _ _ (op_share saved sh)); [by apply HP | done]).
  assert (∀ h x reward fee window, stores hex_decode P ps_store (on_store (PoolStore_record_block saved' h x reward fee window t_block)))
    as Hb by (intros h x reward fee window; apply (stores_on_store _ _ _ (op_block saved' h x reward fee window t_block));
              [by apply HP | done]).
  repeat (stores_step || apply Hb).
Qed.

Lemma stores_submit ip t_admit now t_build t_share t_block t_invalid upstream saved saved' r :
  stores hex_decode P ps_store (submit_share config ip t_admit now t_build t_share t_block t_invalid upstream saved saved' r).
Proof.
  unfold submit_share. repeat stores_step. intros s. unfold charge_invalid.
  match goal with |- context [process_share ?c ?a ?b ?d ?e ?f ?g ?h ?i ?j ?k s] =>
    assert (stores hex_decode P ps_store (process_share c a b d e f g h i j k)) as Hp end.
  { unfold process_share. repeat (stores_step || apply stores_settle).
    intros s'. unfold issued_or_issue. cbv zeta. repeat case_match; reflexivity. }
  specialize (Hp s). destruct (process_share _ _ _ _ _ _ _ _ _ _ _ s) as [res s1]. cbn in Hp.
  destruct res as [|[]]; exact Hp.
Qed.

Lemma stores_reconcile status canonical saved saved' :
  stores hex_decode P ps_store (reconcile_maturity config status canonical saved saved').
Proof.
  unfold reconcile_maturity.
  assert (∀ tip, stores hex_decode P ps_store (on_store (void_immature_above_tip saved tip))) as Hv
    by (intros tip; apply (stores_on_store _ _ _ (op_void saved tip)); [by apply HP | done]).
  assert (∀ hashes tip k, stores hex_decode P ps_store (on_store (PoolStore_mature_blocks saved' hashes tip k))) as Hm
    by (intros hashes tip k; apply (stores_on_store _ _ _ (op_mature saved' hashes tip k)); [by apply HP | done]).
  repeat (stores_step || apply Hv || apply Hm).
Qed.

End clients.

(** ** The administrator *)

Lemma is_prefix_app p l : is_prefix p (p ++ l) = true.
Proof. induction p as [|b p IH]; [done|]. simpl. by rewrite bool_decide_eq_true_2. Qed.
Lemma is_prefix_drop p l : is_prefix p l = true → l = p ++ drop (length p) l.
Proof.
  revert l. induction p as [|b p IH]; intros [|c l]; try done. simpl.
  intros [Hb Hl]%andb_true_iff. breflect. subst. f_equal. by apply IH.
Qed.

(** The header a request of the administrator carries: the token of the file. *)
Definition carries_token (token_file : option string) (sender : Sender) : Prop :=
  ∃ expected, token_file = Some expected ∧
    sn_authorization sender = Some ("Bearer " ++ str_trim expected)%string.

Lemma require_admin_iff token_file sender :
  require_admin token_file (sn_authorization sender) = Ok () ↔ carries_token token_file sender.
Proof.
  unfold require_admin, carries_token. destruct token_file as [expected|]; [|split; [done | by intros (? & [=] & _)]].
  cbn [ok_or mbind result_bind]. destruct (sn_authorization sender) as [v|]; [|split; [done | by intros (? & _ & [=])]].
  cbn [option_bind mbind]. split.
  - destruct (is_prefix _ _) eqn:Ep; [|done]. cbn [ok_or mbind result_bind].
    destruct (bool_decide _) eqn:Ed; [|done]. intros _. breflect. exists expected. split; [done|]. f_equal.
    apply str_bytes_inj. rewrite str_bytes_app, <- Ed. by apply is_prefix_drop in Ep.
  - intros (? & [= <-] & [= ->]). rewrite str_bytes_app, is_prefix_app, (drop_app_length (str_bytes "Bearer ")).
    cbn [ok_or mbind result_bind]. by rewrite bool_decide_eq_true_2.
Qed.

(** Who may move payouts: the sender of an administrator's request. *)
Definition authorised (token_file : option string) (request : PoolRequest) : Prop :=
  match request with
  | PostPrepare sender _ _ _ | PostConfirm sender _ _ _ | PostCancel sender _ _ => carries_token token_file sender
  | _ => False
  end.

Section requests.
Context (config : PoolSettings).
Context {V : Type} (get_field : V → string → option V) (as_str : V → option string) (as_u64 : V → option Z).
Context (status_text : Z → string).

Abbreviation handle token_file http := (pool_handle config hex_decode get_field as_str as_u64 status_text token_file http).

Lemma stores_admin (P : pool_op → Prop) token_file sender {A} (m : state_result PoolServer PoolError A) :
  (carries_token token_file sender → stores hex_decode P (λ s, ps_store (sv_state s)) m) →
  stores hex_decode P (λ s, ps_store (sv_state s)) (admin token_file sender ≫= λ _, m).
Proof. intros Hm. apply stores_lift_bind. intros [] Ha. by apply Hm, require_admin_iff. Qed.

Lemma handle_via token_file http request s :
  via hex_decode (λ o, payout_op o = true → authorised token_file request)
    (ps_store (sv_state s)) (ps_store (sv_state (handle token_file http request s).2)).
Proof.
  set (P := λ o, payout_op o = true → authorised token_file request).
  assert (∀ o, open_op o → P o) as HP by (intros o Ho Ht; unfold open_op in Ho; congruence).
  assert (∀ b, b = handle token_file http request → stores hex_decode P (λ s, ps_store (sv_state s)) b) as Hall; [|by apply Hall].
  intros b ->. subst P. destruct request; cbn [pool_handle].
  - apply stores_ret.
  - apply stores_ret.
  - unfold pool_status. repeat stores_step. apply stores_result, stores_on_app, stores_reconcile, HP.
  - unfold pool_history. repeat stores_step. apply stores_result, stores_on_app, stores_reconcile, HP.
  - apply stores_bind; [|intros ?; apply stores_ret]. apply stores_on_app, stores_work.
  - apply stores_bind; [|intros ?; apply stores_ret]. apply stores_on_app, stores_submit, HP.
  - unfold miner. repeat stores_step.
  - repeat stores_step.
  - apply stores_admin. intros Ht. apply stores_bind; [|intros ?; apply stores_ret].
    apply stores_on_app, (stores_on_store _ _ _ (op_prepare saved payout_id (pf_minimum_payout_atomic config) now)); done.
  - apply stores_admin. intros Ht. apply stores_bind; [|intros ?; apply stores_ret].
    apply stores_on_app. unfold confirm_payout. repeat stores_step.
    apply (stores_on_store _ _ _ (op_confirm saved payout_id hashes)); done.
  - apply stores_admin. intros Ht. apply stores_bind; [|intros ?; apply stores_ret].
    apply stores_on_app, (stores_on_store _ _ _ (op_cancel saved payout_id)); done.
Qed.

(** The pool server is a client of its store: whatever the clients send, the
    upstream answers and the disk does, a request works on the pool's accounts as
    a sequence of the store's operations, and prepares, confirms or cancels a
    payout only when it carries the token of the administrator's file. *)
Theorem server_refines_store token_file http request s :
  via hex_decode (λ o, payout_op o = true → authorised token_file request)
    (ps_store (sv_state s)) (ps_store (sv_state (handle token_file http request s).2)).
Proof. apply handle_via. Qed.

(** ** Without the token *)

(** The payouts and what every account was or is being paid. *)
Definition same_payouts (d d' : PoolData) : Prop :=
  pd_payouts d' = pd_payouts d ∧
  ∀ a, ab_pending (account a (pd_accounts d')) = ab_pending (account a (pd_accounts d)) ∧
       ab_paid (account a (pd_accounts d')) = ab_paid (account a (pd_accounts d)).

#[local] Instance same_payouts_preorder : PreOrder same_payouts.
Proof.
  split; [by intros d; split|]. intros d1 d2 d3 [H1 A1] [H2 A2]. split; [by rewrite H2|].
  intros b. destruct (A1 b) as [E1 E2], (A2 b) as [E3 E4]. by rewrite E3, E4, E1, E2.
Qed.

(** A change of an account that leaves what it is paid. *)
Definition keeps_paid (f : AccountBalance → AccountBalance) : Prop :=
  ∀ b, ab_pending (f b) = ab_pending b ∧ ab_paid (f b) = ab_paid b.

Lemma each_allocation_paid f al m a :
  (∀ v, keeps_paid (f v)) →
  ab_pending (account a (each_allocation f al m)) = ab_pending (account a m) ∧
  ab_paid (account a (each_allocation f al m)) = ab_paid (account a m).
Proof. intros Hf. rewrite each_allocation_account. destruct (al !! a); [apply Hf | done]. Qed.

Lemma transitions_paid ts m a :
  ab_pending (account a (apply_transitions ts m)) = ab_pending (account a m) ∧
  ab_paid (account a (apply_transitions ts m)) = ab_paid (account a m).
Proof.
  unfold apply_transitions. revert m. induction ts as [|t ts IH]; intros m; [done|]. cbn [foldl].
  destruct (IH (each_allocation (transition_effect t.2 t.1.1) t.1.2 m)) as [-> ->]. apply each_allocation_paid.
  intros v b. by destruct t.2, t.1.1.
Qed.

Lemma open_op_payouts o st : open_op o → same_payouts (st_data st) (st_data (run_pool_op hex_decode o st)).
Proof.
  intros Ho. destruct o as [saved sh|saved height x reward bps window now|saved canonical tip k|saved tip| | |]; try done;
    cbn [run_pool_op].
  - unfold PoolStore_record_share. destruct (list_find _ _) as [[]|]; [reflexivity|]. cbv zeta.
    rewrite save_bind_data. by split.
  - unfold PoolStore_record_block. cbv zeta. repeat (case_match; [reflexivity|]).
    case_match; [|reflexivity]. rewrite save_data. split; [done|]. intros b. by apply each_allocation_paid.
  - unfold PoolStore_mature_blocks. cbv zeta. case_match; [|rewrite save_data]; (split; [done|]); intros a; apply transitions_paid.
  - unfold void_immature_above_tip, on_data. cbv beta zeta. rewrite void_effects.
    case_match; [rewrite save_bind_data|]; (split; [done|]); intros a; apply transitions_paid.
Qed.

Lemma via_open st st' : via hex_decode open_op st st' → same_payouts (st_data st) (st_data st').
Proof.
  intros (ops & Hops & ->). revert st. induction Hops as [|o ops Ho _ IH]; intros st; [reflexivity|]. cbn [foldl].
  etrans; [by apply open_op_payouts | apply IH].
Qed.

(** The server's run on requests that do not carry the token, each with its own
    upstream. *)
Inductive unauthorised_run (token_file : option string) (s : PoolServer) : PoolServer → Prop :=
| ur_done : unauthorised_run token_file s s
| ur_next s' http request : unauthorised_run token_file s s' → ¬ authorised token_file request →
    unauthorised_run token_file s (handle token_file http request s').2.

(** C16. No payout moves without the administrator's token: over any run of requests
    that do not carry it, shares, found blocks, reorganisations and failing writes
    included, the list of payouts and every account's pending and paid amounts
    stay as they were. *)
Theorem payouts_need_token token_file s s' :
  unauthorised_run token_file s s' →
  let d := st_data (ps_store (sv_state s)) in let d' := st_data (ps_store (sv_state s')) in
  pd_payouts d' = pd_payouts d ∧
  ∀ a, ab_pending (account a (pd_accounts d')) = ab_pending (account a (pd_accounts d)) ∧
       ab_paid (account a (pd_accounts d')) = ab_paid (account a (pd_accounts d)).
Proof.
  cbv zeta. intros Hrun. fold (same_payouts (st_data (ps_store (sv_state s))) (st_data (ps_store (sv_state s')))).
  induction Hrun as [|s1 http request _ IH Hno]; [reflexivity|]. etrans; [exact IH|]. apply via_open.
  pose proof (handle_via token_file http request s1) as (ops & Hops & E). exists ops. split; [|exact E].
  eapply Forall_impl; [exact Hops|]. intros o Ho. unfold open_op. destruct (payout_op o) eqn:Eo; [exfalso; apply Hno, Ho, Eo | done].
Qed.

End requests.

End server.

(** ** The client's address *)

(** A client that does not connect from this machine is charged under its own
    address, whatever headers it sends. *)
Lemma remote_keys sender peer a n :
  sn_peer sender = Some peer → is_loopback peer = false →
  admission_keys (sender_ip sender) a n = [("worker:" ++ worker_identity a n); ("ip:" ++ IpAddr_fmt peer)]%string.
Proof. intros Hp Hl. unfold sender_ip, client_ip. rewrite Hp. cbn. by rewrite Hl. Qed.

(** ** The workers listed *)

Lemma shares_by_worker_lookup cutoff shares k :
  shares_by_worker cutoff shares !! k =
  let l := filter (λ sh, worker_key sh = k ∧ cutoff <= sh_accepted_at sh) shares in
  if decide (l = []) then None else Some l.
Proof.
  cbv zeta. unfold shares_by_worker. rewrite <- (list_filter_filter (λ sh, worker_key sh = k) (λ sh, cutoff <= sh_accepted_at sh)).
  induction (filter (λ sh, cutoff <= sh_accepted_at sh) shares) as [|sh l IH] using rev_ind; [done|].
  rewrite foldl_app, filter_app, filter_cons, filter_nil. cbn [foldl]. destruct (decide (worker_key sh = k)) as [Hk|Hk].
  - rewrite Hk, lookup_insert_eq, IH. set (own := filter _ l).
    rewrite (decide_False (P := own ++ [sh] = [])) by (by destruct own). by destruct own.
  - rewrite lookup_insert_ne by done. by rewrite app_nil_r.
Qed.

Lemma listed_workers_lookup polls m k :
  listed_workers m polls !! k =
  match m !! k with Some l => Some l | None => if decide (k ∈ polls.*1) then Some [] else None end.
Proof.
  unfold listed_workers. revert m. induction polls as [|[k' seen] polls IH]; intros m.
  - cbn [foldl fmap list_fmap]. destruct (m !! k); [done|]. rewrite decide_False; [done | by apply not_elem_of_nil].
  - cbn [foldl fst]. rewrite IH, fmap_cons. cbn [fst]. destruct (decide (k' = k)) as [->|Hne].
    + rewrite lookup_insert_eq. destruct (m !! k); [done|]. rewrite decide_True; [done | by left].
    + rewrite lookup_insert_ne by done. destruct (m !! k); [done|].
      destruct (decide (k ∈ polls.*1)), (decide (k ∈ k' :: polls.*1)); try done; set_solver.
Qed.

Lemma recent_polls_spec cutoff workers a n :
  (a, n) ∈ (recent_polls cutoff workers).*1 ↔ ∃ names seen, workers !! a = Some names ∧ names !! n = Some seen ∧ cutoff <= seen.
Proof.
  unfold recent_polls. rewrite list_elem_of_fmap. setoid_rewrite list_elem_of_filter. setoid_rewrite list_elem_of_bind.
  setoid_rewrite list_elem_of_fmap. split.
  - intros ([k seen] & E & Hc & ([a' names] & ([n' seen'] & E' & Hn) & Ha)). cbn in *. simplify_eq.
    apply elem_of_map_to_list in Ha, Hn. by exists names, seen'.
  - intros (names & seen & Ha & Hn & Hc). exists ((a, n), seen). split; [done|]. split; [done|].
    exists (a, names). rewrite elem_of_map_to_list. split; [|done]. exists (n, seen). by rewrite elem_of_map_to_list.
Qed.

Lemma elem_of_map_to_list_keys `{Countable K} {A} (m : gmap K A) k : is_Some (m !! k) ↔ k ∈ (map_to_list m).*1.
Proof.
  rewrite list_elem_of_fmap. split.
  - intros [x Hx]. exists (k, x). by rewrite elem_of_map_to_list.
  - intros ([k' x] & E & Hx%elem_of_map_to_list). cbn in E. subst. by eexists.
Qed.

Lemma own_shares cutoff shares k :
  filter (λ sh, worker_key sh = k ∧ cutoff <= sh_accepted_at sh) shares ≠ [] ↔
  ∃ sh, sh ∈ shares ∧ worker_key sh = k ∧ cutoff <= sh_accepted_at sh.
Proof.
  split.
  - destruct (filter _ shares) as [|sh l] eqn:E; [done|]. intros _. exists sh.
    assert (sh ∈ sh :: l) as Hin by left. rewrite <- E in Hin. apply list_elem_of_filter in Hin. tauto.
  - intros (sh & Hin & Hk) E. assert (sh ∈ filter (λ sh, worker_key sh = k ∧ cutoff <= sh_accepted_at sh) shares) as Hf
      by (by apply list_elem_of_filter). rewrite E in Hf. by apply not_elem_of_nil in Hf.
Qed.

Section rows.
Context (config : PoolSettings).

(** The instant after which a worker is listed. *)
Definition presence_cutoff (now : Z) : Z :=
  saturating_sub now (Z.max (pf_worker_timeout_seconds config) (Z.max (pf_hashrate_window_seconds config) 1)).
Definition row_key (w : WorkerView) : string * string := (wv_miner_address w, wv_worker_name w).

Lemma worker_view_key now window cutoff polls e : row_key (worker_view config now window cutoff polls e) = e.1.
Proof. by destruct e as [[a n] l]. Qed.

Lemma live_work_nonneg l : 0 <= live_work l.
Proof.
  unfold live_work. assert (∀ s, 0 <= s → 0 <= foldl (λ sum sh, saturating_add 128 sum
    (default (umax 128) (checked_shl 128 1 (sh_share_bits sh)))) s l) as H; [|by apply H].
  induction l as [|sh l IH]; intros s Hs; [done|]. cbn [foldl]. apply IH. unfold saturating_add, checked_shl.
  assert (0 <= umax 128) by done. destruct (sh_share_bits sh <? 128); cbn [default]; [|unfold id; lia].
  pose proof (Z.mod_pos_bound (Z.shiftl 1 (sh_share_bits sh)) (2 ^ 128)). unfold uwrap, id. lia.
Qed.

(** The rows of the status page: exactly one for each worker that had a share
    accepted, or asked for work, since the presence cutoff; it counts the shares
    that worker had accepted since then and the blocks among them, its hashrate
    fits its 64 bits and is 0 without a share in the live window. *)
Theorem status_workers now shares workers :
  let rows := worker_rows config now shares workers in
  let cutoff := presence_cutoff now in
  NoDup (row_key <$> rows) ∧
  (∀ a n, (a, n) ∈ row_key <$> rows ↔
     (∃ sh, sh ∈ shares ∧ worker_key sh = (a, n) ∧ cutoff <= sh_accepted_at sh) ∨
     ∃ names seen, workers !! a = Some names ∧ names !! n = Some seen ∧ cutoff <= seen) ∧
  ∀ w, w ∈ rows →
    let own := filter (λ sh, worker_key sh = row_key w ∧ cutoff <= sh_accepted_at sh) shares in
    wv_accepted_shares w = Z.of_nat (length own) ∧
    wv_blocks_found w = Z.of_nat (length (filter (λ sh, sh_block_candidate sh = true) own)) ∧
    in_width 64 (wv_hashrate w) ∧
    (Forall (λ sh, sh_accepted_at sh < saturating_sub now (Z.max (pf_hashrate_window_seconds config) 1)) own → wv_hashrate w = 0).
Proof.
  cbv zeta. unfold worker_rows. cbv zeta. fold (presence_cutoff now).
  set (polls := recent_polls (presence_cutoff now) workers).
  set (m := listed_workers (shares_by_worker (presence_cutoff now) shares) polls).
  set (view := worker_view config now _ _ _).
  assert (∀ l, row_key <$> (view <$> l) = l.*1) as Hkeys.
  { intros l. rewrite <- list_fmap_compose. apply list_fmap_ext. intros i e _. apply worker_view_key. }
  split_and!.
  - rewrite Hkeys, sort_by_perm. apply NoDup_fst_map_to_list.
  - intros a n. rewrite Hkeys, sort_by_perm, <- recent_polls_spec. fold polls.
    rewrite <- elem_of_map_to_list_keys. unfold m. rewrite listed_workers_lookup, shares_by_worker_lookup. cbv zeta.
    rewrite <- own_shares. destruct (decide (filter _ shares = [])) as [Ho|Ho].
    + destruct (decide ((a, n) ∈ polls.*1)) as [Hp|Hp]; split.
      * intros _. by right.
      * intros _. by eexists.
      * by intros [? [=]].
      * by intros [?|?].
    + split; [by left | by eexists].
  - intros w ([[a n] l] & -> & Hw)%list_elem_of_fmap. rewrite sort_by_perm, elem_of_map_to_list in Hw.
    unfold m in Hw. rewrite listed_workers_lookup, shares_by_worker_lookup in Hw. cbv zeta in Hw. unfold view. rewrite worker_view_key.
    cbn [fst]. set (own := filter (λ sh, worker_key sh = (a, n) ∧ presence_cutoff now <= sh_accepted_at sh) shares) in *.
    assert (l = own) as -> by (destruct (decide (own = [])) as [->|]; [destruct (decide _)|]; naive_solver).
    cbn [worker_view wv_accepted_shares wv_blocks_found wv_hashrate]. cbv zeta. split; [done|]. split; [done|].
    set (live := filter _ own). split.
    + destruct (bool_decide (live = [])); [done|]. pose proof (live_work_nonneg live).
      assert (∀ d, 1 <= d → 0 <= live_work live / d) as Hd by (intros d ?; apply Z.div_pos; lia).
      match goal with |- in_width 64 (Z.min (_ / ?d) _) => specialize (Hd d) end. unfold in_width, umax in *. lia.
    + intros Hall. rewrite bool_decide_eq_true_2; [done|]. unfold live. clear -Hall.
      induction Hall as [|sh l Hsh _ IH]; [done|]. rewrite filter_cons_False by lia. exact IH.
Qed.
End rows.
