(* ===== verification/SdkTheory.v ===== *)
(** What the SDK promises: URLs, the maturity rule against the pool's own, signed
    transfers, and that a transfer built from what a node reports of an account
    is taken by that node. *)

From S2P Require Import Prelude RustStd Interfaces Crypto Errors Network Amount Signing Address Transaction Block Consensus State Ledger Chain NodeConfig Mempool Node Seed Spend Pool Gateway Sdk.

(** ** URLs *)

Lemma drop_slashes_spec l :
  ∃ k, l = replicate k SLASH ++ drop_slashes l ∧ head (drop_slashes l) ≠ Some SLASH.
Proof.
  induction l as [|b l (k & Hl & Hh)]; [by exists 0%nat|]. cbn [drop_slashes]. case_bool_decide as Hb.
  - subst. exists (S k). cbn [replicate app]. by rewrite <- Hl.
  - exists 0%nat. split; [done|]. cbn. congruence.
Qed.

(** The base of a configured endpoint is the given text without its final
    slashes, and a path that begins with a slash is appended to it as it is: no
    URL of the client has a doubled or a missing slash. *)
Theorem rpc_url_joins n url path :
  is_prefix [SLASH] (str_bytes path) = true →
  ∃ k, str_bytes url = str_bytes (sc_rpc_base_url (with_rpc n url)) ++ replicate k SLASH ∧
    last (str_bytes (sc_rpc_base_url (with_rpc n url))) ≠ Some SLASH ∧
    rpc_url path (with_rpc n url) = (sc_rpc_base_url (with_rpc n url) ++ path)%string.
Proof.
  intros Hp. destruct (drop_slashes_spec (reverse (str_bytes url))) as (k & Hk & Hh).
  cbn [with_rpc sc_rpc_base_url]. unfold trim_slash. rewrite str_bytes_of_bytes. exists k. split_and!.
  - rewrite <- reverse_replicate, <- reverse_app, <- Hk. by rewrite reverse_involutive.
  - intros Hl. apply Hh. rewrite <- Hl, last_reverse. done.
  - unfold rpc_url, join_base. by rewrite Hp.
Qed.

Lemma rpc_url_joins_witness :
  rpc_url "/status" (with_rpc MainnetCandidate "http://127.0.0.1:10787//") = "http://127.0.0.1:10787/status"%string ∧
  ∃ k, str_bytes "http://127.0.0.1:10787//" =
    str_bytes (sc_rpc_base_url (with_rpc MainnetCandidate "http://127.0.0.1:10787//")) ++ replicate k SLASH.
Proof.
  split; [by vm_compute|].
  destruct (rpc_url_joins MainnetCandidate "http://127.0.0.1:10787//" "/status") as (k & Hk & _); [by vm_compute|].
  by exists k.
Defined.

(** ** Maturity *)

(** What the progress says of a block without a final status: it is mature from
    [height + required] on, and before that the confirmations, the remaining
    ones and the percentage are those of the tip. *)
Theorem pool_block_maturity_spec height tip confirmations :
  is_u64 height → is_u64 tip → 0 <= confirmations → Z.max confirmations 1 * 100 <= umax 64 →
  let p := pool_block_maturity height (Some tip) confirmations (Some "immature"%string) in
  mp_confirmations p + mp_remaining p = mp_required p ∧ 0 <= mp_percent p <= 100 ∧
  (mp_status p = StMature ↔ Z.min (height + Z.max confirmations 1) (umax 64) <= tip) ∧
  (mp_status p ≠ StMature → mp_status p = StImmature ∧ mp_percent p < 100 ∧
    mp_confirmations p = Z.max 0 (tip - height)).
Proof.
  intros [Hh _] [_ Ht] Hc Hm p. unfold p, pool_block_maturity. cbv zeta.
  change (str_contains (str_to_ascii_lowercase (default ""%string (Some "immature"%string))) "orphan") with false.
  change (bool_decide (str_to_ascii_lowercase (default ""%string (Some "immature"%string)) = "mature"%string) ||
    str_contains (str_to_ascii_lowercase (default ""%string (Some "immature"%string))) "matured") with false.
  cbv iota. set (req := Z.max confirmations 1) in *. unfold saturating_add. destruct (_ <=? tip) eqn:E.
  - cbn. apply Z.leb_le in E. split_and!; (lia || done).
  - apply Z.leb_gt in E. cbn.
    set (conf := if tip <? height then 0 else Z.min (tip - height) req).
    assert (conf = Z.max 0 (tip - height) ∧ 0 <= conf < req) as [Hconf Hr].
    { unfold conf. destruct (tip <? height) eqn:E2; breflect; lia. }
    assert (wrapping_mul 64 conf 100 = conf * 100) as -> by (unfold wrapping_mul, uwrap, umax in *; apply Z.mod_small; lia).
    assert (0 <= conf * 100 / req < 100) as Hp.
    { split; [apply Z.div_pos; lia | apply Z.div_lt_upper_bound; lia]. }
    assert (uwrap 8 (conf * 100 / req) = conf * 100 / req) as -> by (apply Z.mod_small; lia).
    unfold saturating_sub. split; [lia|]. split; [lia|]. split; [split; [done | lia]|].
    intros _. split; [done | lia].
Qed.

Lemma pool_block_maturity_spec_witness :
  let p := pool_block_maturity 10 (Some 15) 12 (Some "immature"%string) in
  mp_percent p = 41 ∧ mp_confirmations p + mp_remaining p = mp_required p.
Proof.
  split; [by vm_compute|].
  destruct (pool_block_maturity_spec 10 15 12) as [H _]; [split; vm_compute; done.. | done | by vm_compute | done].
Defined.

(** The SDK calls an immature canonical block mature exactly when the pool's own
    reconciliation would mature it, for a pool that asks for a confirmation. *)
Theorem maturity_matches_pool canonical tip confirmations b :
  1 <= confirmations → pb_status b = Immature → canonical !! pb_height b = Some (pb_hash b) →
  mp_status (pool_block_maturity (pb_height b) (Some tip) confirmations (Some "immature"%string)) = StMature ↔
  next_status canonical tip confirmations b = Some Mature.
Proof.
  intros Hc Hs Hcan. unfold next_status, pool_block_maturity. cbv zeta. rewrite Hs, Hcan.
  change (str_contains (str_to_ascii_lowercase (default ""%string (Some "immature"%string))) "orphan") with false.
  change (bool_decide (str_to_ascii_lowercase (default ""%string (Some "immature"%string)) = "mature"%string) ||
    str_contains (str_to_ascii_lowercase (default ""%string (Some "immature"%string))) "matured") with false.
  cbv iota. rewrite bool_decide_eq_true_2 by done. cbn [negb]. rewrite Z.max_l by lia.
  set (m := saturating_add 64 (pb_height b) confirmations).
  destruct (m <=? tip) eqn:E1, (tip <? m) eqn:E2; breflect; try lia; by split.
Qed.

Lemma maturity_matches_pool_witness :
  let b := mkPoolBlock 10 "aa" 5 5 0 0 Immature ∅ in
  next_status {[10 := "aa"%string]} 22 12 b = Some Mature ∧
  mp_status (pool_block_maturity 10 (Some 22) 12 (Some "immature"%string)) = StMature.
Proof.
  assert (next_status {[10 := "aa"%string]} 22 12 (mkPoolBlock 10 "aa" 5 5 0 0 Immature ∅) = Some Mature) as E
    by (by vm_compute).
  split; [done|].
  apply (maturity_matches_pool {[10 := "aa"%string]} 22 12 (mkPoolBlock 10 "aa" 5 5 0 0 Immature ∅));
    [done | done | by vm_compute | done].
Defined.

(** ** Transfers *)

(** The account of a 32-byte key: its address is the address of the key. *)
Record account_ok `{Primitives} (a : WalletAccount) : Prop := {
  ak_key : length (wa_private_key a) = PrivateKey_SIZE;
  ak_address : wa_address a =
    from_public_key_for_network (PrivateKey_public_key (wa_private_key a)) (wa_network a);
}.

Section transfers.
Context `{PrimitivesOk} `{!SeedPrimitives} `{!SeedPrimitivesOk}.

Lemma account_from_mnemonic_ok n phrase passphrase p a :
  account_from_mnemonic n phrase passphrase p = Ok a → account_ok a ∧ wa_network a = n.
Proof.
  unfold account_from_mnemonic, account_from_private_key.
  intros (sk & Hsk%map_err_Ok%from_mnemonic_length & [= <-])%bind_Ok. by split.
Qed.

(** A generated account is well formed, and importing its phrase on the same
    network and path gives the same account back. *)
Theorem generated_account_reimports drawn n word_count p a g :
  generate_with_path drawn n word_count p = Ok (a, g) →
  account_ok a ∧ wa_network a = n ∧ account_from_mnemonic n (gm_phrase g) "" p = Ok a ∧
  gm_derivation_path g = path_to_string p ∧ wa_derivation_path a = Some (gm_derivation_path g).
Proof.
  unfold generate_with_path. intros (phrase & _ & (a0 & Ha & [= <- <-])%bind_Ok)%bind_Ok.
  destruct (account_from_mnemonic_ok _ _ _ _ _ Ha). split_and!; try done.
  unfold account_from_mnemonic in Ha. apply bind_Ok in Ha as (sk & _ & [= <-]). done.
Qed.

(** Signing succeeds only with an account of the builder's network, and gives a
    transaction that verifies, is sent from the account, carries the builder's
    fields and the reported id. *)
Theorem builder_sign_sound a b st :
  account_ok a → builder_sign a b = Ok st →
  wa_network a = tb_network b ∧ st_network st = tb_network b ∧
  Transaction_verify (st_transaction st) = Ok () ∧ Transaction_network (st_transaction st) = Ok (tb_network b) ∧
  st_tx_hash st = tx_hash_hex (st_transaction st) ∧
  tx_from (st_transaction st) = Some (Address_to_string (wa_address a)) ∧
  Some (tx_to (st_transaction st)) = tb_to b ∧ Some (tx_amount (st_transaction st)) = tb_amount b ∧
  Some (tx_nonce (st_transaction st)) = tb_nonce b ∧ tx_priority_fee (st_transaction st) = tb_priority_fee b.
Proof.
  intros [Hk Ha]. unfold builder_sign, account_ensure_network.
  rewrite bind_unit_Ok, if_negb_Err_Ok, bool_decide_eq_true. intros [[Hn _] Hs].
  apply bind_Ok in Hs as (to & Hto%ok_or_Ok & (amount & Hamount%ok_or_Ok & (nonce & Hnonce%ok_or_Ok & Hs)%bind_Ok)%bind_Ok).
  cbv zeta in Hs. apply bind_Ok in Hs as (tx & Htx%map_err_Ok & (u & Hv%map_err_Ok & [= <-])%bind_Ok).
  destruct (new_signed_verified _ _ _ _ _ _ _ _ _ _ Hk Htx) as [_ Hnet].
  destruct (new_signed_Ok _ _ _ _ _ _ _ _ _ _ Hk Htx) as [Heq _].
  destruct u. cbn [st_network st_transaction st_tx_hash]. rewrite Ha, Hn, Hto, Hamount, Hnonce.
  split_and!; try done; by rewrite Heq.
Qed.

(** The steps of a transfer: recipient, amount, nonce, fees, signature. *)
Definition transfer (n : Network) (to : string) (amount : Amount) (nonce : Z) (base_fee priority_fee : Amount)
    (a : WalletAccount) : SdkResult SignedTransfer :=
  b ← builder_to to (TransferBuilder_new n);
  b ← builder_amount amount b;
  b ← builder_fees base_fee priority_fee (builder_nonce nonce b);
  builder_sign a b.

(** A client that reads its account from the gateway of a node with an empty
    pool, and builds a transfer with the reported nonce and base fee that its
    reported balance pays for, obtains a signed transfer; and the node takes it,
    unless its id is already in the chain, answering with the id the client
    computed. *)
Theorem sdk_transfer_taken t_admit t_cap t_evict t_push n c limit a recipient amount priority_fee :
  chain_reachable n c → 0 < limit → account_ok a → wa_network a = n →
  address_wf recipient → addr_network recipient = n → 0 < amount → 0 <= priority_fee →
  let account := address_account_response c (Address_to_string (wa_address a)) [] (anticipated c) in
  amount + aar_anticipated_base_fee_atomic account + priority_fee <= aar_balance_atomic account →
  ∃ st, transfer n (Address_to_string recipient) amount (aar_next_nonce account)
          (aar_anticipated_base_fee_atomic account) priority_fee a = Ok st ∧
    (st_tx_hash st ∉ applied_transaction_hashes (ch_state c) →
     submit_transaction t_admit t_cap t_evict t_push c limit (st_transaction st) [] =
       (Ok {| sts_status := prototype_mode n; sts_tx_hash := st_tx_hash st;
              sts_lifecycle_status := "pending"; sts_mempool_size := 1 |},
        [mkPending (st_tx_hash st) t_push (st_transaction st)])).
Proof.
  intros Hc Hlim [Hk Ha] Hn Hr Hrn Ham Hpf account. unfold account, address_account_response. cbv zeta.
  cbn [aar_anticipated_base_fee_atomic aar_balance_atomic aar_next_nonce foldl]. rewrite Ha, Hn.
  set (sender := Address_to_string (from_public_key_for_network (PrivateKey_public_key (wa_private_key a)) n)).
  intros Hfunds. pose proof (balance_range _ sender (reachable_ledger_ok n c Hc)) as Hbal.
  pose proof (anticipated_nonneg c) as Hbase. unfold MAX_SUPPLY_ATOMIC in Hbal.
  destruct (new_signed_verifies 1 (next_nonce_of (ch_state c) sender) n (wa_private_key a) recipient amount
    (anticipated c + priority_fee) priority_fee None) as (tx & Htx & Hv & _); try done; try lia.
  { unfold MAX_SUPPLY_ATOMIC. lia. }
  exists (mkSigned n (hash_to_hex (tx_hash tx)) tx). split.
  - unfold transfer, builder_to. rewrite Address_parse_to_string by done.
    cbn [map_err mbind result_bind TransferBuilder_new tb_network]. rewrite Hrn, bool_decide_eq_true_2 by done.
    cbn [negb mbind result_bind]. unfold builder_amount. rewrite (proj2 (Z.eqb_neq amount Amount_ZERO))
      by (unfold Amount_ZERO; lia). cbn [mbind result_bind].
    unfold builder_fees. rewrite amount_add_total by (unfold umax; lia). cbn [map_err mbind result_bind].
    unfold builder_sign, account_ensure_network, builder_max_fee, builder_priority_fee, builder_nonce, TransferBuilder_new.
    cbn [tb_to tb_amount tb_nonce tb_max_fee tb_priority_fee tb_network tb_version tb_memo_hash ok_or mbind
      result_bind default]. rewrite Hn, bool_decide_eq_true_2 by done. cbn [negb mbind result_bind].
    unfold id. rewrite Htx. cbn [map_err mbind result_bind]. by rewrite Hv.
  - intros Hfresh. destruct (Address_to_string_spec recipient Hr) as (s & Hs & _ & _ & Hlen & _).
    apply (signed_spend_taken _ _ _ _ n c limit (wa_private_key a) (Address_to_string recipient) amount
      (anticipated c + priority_fee) priority_fee tx); try done; try lia.
    + rewrite Hs. unfold in_width, str_len in *. lia.
    + fold sender. lia.
Qed.

End transfers.
