(* ===== verification/SdkClient.v ===== *)
(** [vireon-sdk-rust/src/rpc]: the decoded responses ([models.rs]) and the RPC
    client ([client.rs]).  The HTTP transport and the JSON decoding of each
    response type are parameters; a [serde_json::Value] stays an opaque type, an
    [f64] is a binary float of the Standard Library. *)

From S2P Require Import Prelude RustStd Interfaces Crypto Errors Network Amount Signing Address Transaction Block Consensus State Ledger Chain NodeConfig Mempool Node Seed Spend Pool Sdk.
From Stdlib Require Import SpecFloat.

(** [serde_json::Value]. *)
Class JsonValue := { Value : Type }.

(** [serde_json::from_str] into one response type: the value or the error text. *)
Class FromJson (T : Type) := from_json : string → result string T.

(** * Responses *)

(** [enum AtomicValue] *)
Inductive AtomicValue := AvU64 (v : Z) | AvI64 (v : Z) | AvString (v : string).

Definition atomic_as_display (v : AtomicValue) : string :=
  match v with
  | AvU64 v => uint_to_string v
  | AvI64 v => int_to_string v
  | AvString v => v
  end.

(** [struct HealthResponse] *)
Record SdkHealthResponse := {
  hr_ok : bool;
  hr_service : option string;
  hr_mode : option string;
  hr_network_id : option string;
  hr_network_name : option string;
  hr_status_label : option string;
}.

(** [struct NetworkResponse] *)
Record SdkNetworkResponse := {
  net_network_id : string;
  net_network_name : string;
  net_status_label : string;
  net_ticker : option string;
  net_address_prefix : option string;
  net_decimals : option Z;
  net_default_rpc_port : option Z;
}.

(** [struct StatusResponse] *)
Record SdkStatusResponse := {
  sst_network_id : string;
  sst_network_name : string;
  sst_status_label : string;
  sst_initialized : bool;
  sst_block_count : Z;
  sst_height : option Z;
  sst_tip_hash : option string;
  sst_emitted_supply_atomic : option Z;
}.

(** [struct ChainTipResponse] *)
Record SdkChainTipResponse := {
  ctr_height : Z;
  ctr_hash : string;
}.

(** [struct ChainHeightResponse] *)
Record SdkChainHeightResponse := {
  chr_height : Z;
}.

(** [struct SyncStatusResponse] *)
Record SdkSyncStatusResponse := {
  ssr_network_id : string;
  ssr_sync_state : string;
  ssr_local_height : option Z;
  ssr_network_height : option Z;
  ssr_remaining_blocks : option Z;
  ssr_progress_percent : option spec_float;
  ssr_connected_peer_count : Z;
  ssr_validated_peer_count : Z;
  ssr_detail : option string;
}.

(** [struct SupplyResponse] *)
Record SdkSupplyResponse := {
  spr_emitted_supply_atomic : Z;
  spr_max_supply_atomic : Z;
  spr_remaining_supply_atomic : Z;
}.

(** [struct MempoolStatusResponse] *)
Record SdkMempoolStatusResponse := {
  mpr_status : string;
  mpr_pending_count : Z;
  mpr_anticipated_base_fee_atomic : Z;
  mpr_total_fees_atomic : Z;
  mpr_total_burned_fees_atomic : Z;
  mpr_total_priority_fees_atomic : Z;
}.

(** [struct AddressBalanceResponse] *)
Record SdkAddressBalanceResponse := {
  sbr_address : string;
  sbr_balance_atomic : Z;
  sbr_next_nonce : Z;
  sbr_exists : bool;
}.

(** [struct AddressAccountResponse] *)
Record SdkAddressAccountResponse := {
  sar_address : string;
  sar_exists : bool;
  sar_balance_atomic : Z;
  sar_next_nonce : Z;
  sar_tip_hash : option string;
  sar_tip_height : option Z;
  sar_anticipated_base_fee_atomic : Z;
}.

(** [struct TransactionResponse] *)
Record SdkTransactionResponse := {
  stx_lifecycle_status : string;
  stx_hash : string;
  stx_block_height : option Z;
  stx_block_hash : option string;
  stx_version : Z;
  stx_nonce : Z;
  stx_from : option string;
  stx_to : string;
  stx_amount_atomic : Z;
  stx_fee_atomic : Z;
  stx_max_fee_atomic : Z;
  stx_priority_fee_atomic : Z;
  stx_effective_fee_atomic : Z;
  stx_burned_fee_atomic : Z;
  stx_effective_priority_fee_atomic : Z;
  stx_base_fee_atomic : Z;
  stx_memo_hash : option string;
  stx_sender_public_key_hex : option string;
  stx_signature_hex : option string;
  stx_authorization_state : option string;
  stx_signature_standard_id : option string;
  stx_signatures_status : option string;
}.

(** [struct SubmitTransactionResponse] *)
Record SdkSubmitTransactionResponse := {
  sub_status : string;
  sub_tx_hash : string;
  sub_lifecycle_status : string;
  sub_mempool_size : Z;
}.

(** [struct BlockResponse] *)
Record SdkBlockResponse := {
  sbk_network_id : option string;
  sbk_height : Z;
  sbk_hash : string;
  sbk_previous_hash : string;
  sbk_merkle_root : string;
  sbk_base_fee_atomic : Z;
  sbk_timestamp : Z;
  sbk_nonce : Z;
  sbk_difficulty_leading_zero_bits : Z;
  sbk_transaction_count : Z;
  sbk_transactions : list SdkTransactionResponse;
}.

(** [struct SupplySummary] *)
Record SdkSupplySummary := {
  sus_emitted_supply_atomic : Z;
  sus_max_supply_atomic : Z;
  sus_remaining_supply_atomic : Z;
}.

(** [struct IndexSummary] *)
Record SdkIndexSummary := {
  ixs_mode : string;
  ixs_network : string;
  ixs_status : string;
  ixs_indexed_height : option Z;
  ixs_indexed_block_count : Z;
  ixs_transaction_count : Z;
  ixs_address_count : Z;
  ixs_tip_hash : option string;
  ixs_latest_block_hash : option string;
  ixs_latest_block_timestamp : option Z;
  ixs_supply : SdkSupplySummary;
}.

(** [struct IndexerSummaryResponse] *)
Record SdkIndexerSummaryResponse := {
  isr_summary : SdkIndexSummary;
}.

(** [struct IndexerStatusResponse] *)
Record SdkIndexerStatusResponse := {
  ist_mode : string;
  ist_network_id : option string;
  ist_status_label : option string;
  ist_initialized : bool;
  ist_index_dir : option string;
  ist_indexed_height : option Z;
  ist_indexed_block_count : Z;
  ist_transaction_count : Z;
  ist_address_count : Z;
  ist_tip_hash : option string;
  ist_chain_height : option Z;
  ist_chain_tip_hash : option string;
  ist_in_sync : option bool;
  ist_lag_blocks : option Z;
}.

(** [struct IndexedBlockResponse] *)
Record SdkIndexedBlockResponse := {
  ibk_height : Z;
  ibk_hash : string;
  ibk_previous_hash : string;
  ibk_merkle_root : string;
  ibk_timestamp : Z;
  ibk_nonce : Z;
  ibk_difficulty_leading_zero_bits : Z;
  ibk_transaction_count : Z;
  ibk_miner_address : string;
  ibk_coinbase_payout_atomic : Z;
  ibk_miner_reward_atomic : Z;
  ibk_fees_atomic : Z;
  ibk_burned_fees_atomic : Z;
  ibk_priority_fees_atomic : Z;
  ibk_base_fee_atomic : Z;
  ibk_transaction_hashes : list string;
}.

(** [struct IndexedTransactionResponse] *)
Record SdkIndexedTransactionResponse := {
  itx_lifecycle_status : string;
  itx_hash : string;
  itx_block_height : Z;
  itx_block_hash : string;
  itx_block_transaction_count : Z;
  itx_transaction_index : Z;
  itx_version : Z;
  itx_nonce : Z;
  itx_from : option string;
  itx_to : string;
  itx_amount_atomic : Z;
  itx_fee_atomic : Z;
  itx_max_fee_atomic : Z;
  itx_priority_fee_atomic : Z;
  itx_effective_fee_atomic : Z;
  itx_burned_fee_atomic : Z;
  itx_effective_priority_fee_atomic : Z;
  itx_base_fee_atomic : Z;
  itx_memo_hash : option string;
  itx_authorization_state : option string;
}.

(** [struct IndexedAddressResponse] *)
Record SdkIndexedAddressResponse := {
  iad_address : string;
  iad_exists_in_ledger : bool;
  iad_balance_atomic : Z;
  iad_total_received_atomic : Z;
  iad_total_sent_atomic : Z;
  iad_mined_reward_atomic : Z;
  iad_transaction_hashes : list string;
  iad_sent_tx_hashes : list string;
  iad_received_tx_hashes : list string;
  iad_mined_block_heights : list Z;
}.

(** [struct P2pStatusResponse] *)
Record SdkP2pStatusResponse `{JsonValue} := {
  pst_local_peer_id : option string;
  pst_listen_addresses : list string;
  pst_connected_peer_count : option Z;
  pst_validated_peer_count : option Z;
  pst_mining_peer_count : option Z;
  pst_peers : list Value;
  pst_syncing : option bool;
  pst_error : option string;
  pst_detail : option string;
}.

(** [struct PoolWorker] *)
Record SdkPoolWorker := {
  pwk_miner_address : string;
  pwk_worker_name : string;
  pwk_accepted_shares : Z;
  pwk_blocks_found : Z;
  pwk_estimated_hashrate_hs : spec_float;
  pwk_assigned_difficulty_leading_zero_bits : Z;
  pwk_last_share_unix_seconds : Z;
  pwk_online : bool;
}.

(** [struct PoolBlock] *)
Record SdkPoolBlock `{JsonValue} := {
  spb_height : Z;
  spb_hash : string;
  spb_reward_atomic : option AtomicValue;
  spb_distributable_atomic : option AtomicValue;
  spb_pool_fee_atomic : option AtomicValue;
  spb_found_at_unix_seconds : option Z;
  spb_status : option string;
  spb_allocations : option Value;
}.

(** [struct PoolStatusResponse] *)
Record SdkPoolStatusResponse `{JsonValue} := {
  pls_protocol : option string;
  pls_mode : option string;
  pls_status_label : option string;
  pls_pool_name : option string;
  pls_network_id : option string;
  pls_pool_address : option string;
  pls_upstream_status : option string;
  pls_upstream_error : option string;
  pls_pool_fee_basis_points : option Z;
  pls_payout_scheme : option string;
  pls_minimum_payout_atomic : option AtomicValue;
  pls_block_maturity_confirmations : option Z;
  pls_vardiff_enabled : option bool;
  pls_target_share_seconds : option Z;
  pls_accepted_shares : option Z;
  pls_connected_workers : option Z;
  pls_estimated_hashrate_hs : option spec_float;
  pls_blocks_found : option Z;
  pls_matured_blocks : option Z;
  pls_rejected_requests : option Z;
  pls_rate_limited_requests : option Z;
  pls_active_bans : option Z;
  pls_workers : list SdkPoolWorker;
  pls_recent_blocks : list SdkPoolBlock;
}.

(** [struct PoolHistoryResponse] *)
Record SdkPoolHistoryResponse `{JsonValue} := {
  plh_protocol : option string;
  plh_pool_name : option string;
  plh_network_id : option string;
  plh_pool_address : option string;
  plh_status_label : option string;
  plh_accepted_shares_counter : option Z;
  plh_connected_workers : option Z;
  plh_estimated_hashrate_hs : option spec_float;
  plh_blocks_found : option Z;
  plh_matured_blocks : option Z;
  plh_workers : list SdkPoolWorker;
  plh_blocks : list SdkPoolBlock;
  plh_shares : list Value;
  plh_payouts : list Value;
  plh_accounts : list Value;
}.

(** [struct PoolBlockWithMaturity] *)
Record SdkPoolBlockWithMaturity := {
  pbm_height : Z;
  pbm_hash : string;
  pbm_status : string;
  pbm_reward_atomic : option AtomicValue;
  pbm_maturity : MaturityProgress;
}.

Definition coinbase_amount_atomic (b : SdkBlockResponse) : option Z :=
  head (omap (λ tx, if is_none (stx_from tx) || bool_decide (stx_authorization_state tx = Some "coinbase"%string)
                    then Some (stx_amount_atomic tx) else None) (sbk_transactions b)).

(** * The client *)

(** An HTTP answer: a status and the outcome of reading the body; sending may
    fail before that. *)
Record HttpAnswer := mkAnswer { ha_status : Z; ha_body : result string string }.

(** What the client sends: [GET url], or [POST url] with a JSON body. *)
Inductive HttpRequest (Body : Type) := Get (url : string) | Post (url : string) (body : Body).
#[global] Arguments Get {_} _.
#[global] Arguments Post {_} _ _.

Definition is_success (status : Z) : bool := (200 <=? status) && (status <? 300).

Section client.
Context `{JsonValue}.
(** The transport: the network and servers as a state a request acts on. *)
Context {World Body : Type} (send : HttpRequest Body → World → result string HttpAnswer * World).
Context (config : SdkConfig).

Abbreviation client A := (state_result World SdkError A).

Definition decode_response {T} `{FromJson T} (answer : HttpAnswer) (url : string) : SdkResult T :=
  body ← map_err (λ error, SdkRpc ("read body " ++ url ++ ": " ++ error)%string) (ha_body answer);
  if negb (is_success (ha_status answer)) then Err (SdkRpcHttp (ha_status answer) url body)
  else map_err SdkRpcDecode (from_json body).

Definition get_url_json {T} `{FromJson T} (url : string) : client T := λ w,
  let '(r, w) := send (Get url) w in
  (answer ← map_err (λ error, SdkRpc ("GET " ++ url ++ ": " ++ error)%string) r; decode_response answer url, w).

Definition get_json {T} `{FromJson T} (path : string) : client T := get_url_json (rpc_url path config).

Definition get_pool_json {T} `{FromJson T} (path : string) : client T :=
  url ← sr_lift (pool_url path config); get_url_json url.

(** [if let Ok(..) = m]: the failure is a value. *)
Definition attempt {A} (m : client A) : client (SdkResult A) := λ w, let '(r, w) := m w in (Ok r, w).

(** ** Endpoints *)

Definition client_health `{FromJson SdkHealthResponse} : client SdkHealthResponse := get_json "/health".
Definition client_network `{FromJson SdkNetworkResponse} : client SdkNetworkResponse := get_json "/network".
Definition client_status `{FromJson SdkStatusResponse} : client SdkStatusResponse := get_json "/status".
Definition client_tip `{FromJson SdkChainTipResponse} : client SdkChainTipResponse := get_json "/chain/tip".
Definition client_height `{FromJson SdkChainHeightResponse} : client SdkChainHeightResponse := get_json "/chain/height".
Definition client_sync_status `{FromJson SdkSyncStatusResponse} : client SdkSyncStatusResponse := get_json "/sync/status".
Definition client_supply `{FromJson SdkSupplyResponse} : client SdkSupplyResponse := get_json "/supply".
Definition client_mempool_status `{FromJson SdkMempoolStatusResponse} : client SdkMempoolStatusResponse :=
  get_json "/mempool/status".
Definition client_p2p_status `{FromJson SdkP2pStatusResponse} : client SdkP2pStatusResponse := get_json "/p2p/status".
Definition client_balance `{FromJson SdkAddressBalanceResponse} (address : string) : client SdkAddressBalanceResponse :=
  get_json ("/addresses/" ++ address ++ "/balance").
Definition client_account `{FromJson SdkAddressAccountResponse} (address : string) : client SdkAddressAccountResponse :=
  get_json ("/addresses/" ++ address ++ "/account").
Definition client_next_nonce `{FromJson SdkAddressAccountResponse} (address : string) : client Z :=
  a ← client_account address; mret (sar_next_nonce a).
Definition client_transaction `{FromJson SdkTransactionResponse} (tx_hash : string) : client SdkTransactionResponse :=
  get_json ("/transactions/" ++ tx_hash).
Definition client_block_latest `{FromJson SdkBlockResponse} : client SdkBlockResponse := get_json "/blocks/latest".
Definition client_block_by_height `{FromJson SdkBlockResponse} (height : Z) : client SdkBlockResponse :=
  get_json ("/blocks/" ++ uint_to_string height).
Definition client_block_by_hash `{FromJson SdkBlockResponse} (hash : string) : client SdkBlockResponse :=
  get_json ("/blocks/hash/" ++ hash).
Definition client_indexer_status `{FromJson SdkIndexerStatusResponse} : client SdkIndexerStatusResponse :=
  get_json "/indexer/status".
Definition client_indexer_summary `{FromJson SdkIndexerSummaryResponse} : client SdkIndexerSummaryResponse :=
  get_json "/indexer/summary".
Definition client_indexer_block_latest `{FromJson SdkIndexedBlockResponse} : client SdkIndexedBlockResponse :=
  get_json "/indexer/blocks/latest".
Definition client_indexer_block_by_height `{FromJson SdkIndexedBlockResponse} (height : Z) : client SdkIndexedBlockResponse :=
  get_json ("/indexer/blocks/" ++ uint_to_string height).
Definition client_indexer_transaction `{FromJson SdkIndexedTransactionResponse} (hash : string) :
    client SdkIndexedTransactionResponse := get_json ("/indexer/tx/" ++ hash).
Definition client_indexer_address `{FromJson SdkIndexedAddressResponse} (address : string) :
    client SdkIndexedAddressResponse := get_json ("/indexer/address/" ++ address).

Definition client_submit `{FromJson SdkSubmitTransactionResponse} (transaction : Body) :
    client SdkSubmitTransactionResponse := λ w,
  let url := rpc_url "/transactions" config in
  let '(r, w) := send (Post url transaction) w in
  (answer ← map_err (λ error, SdkRpc ("POST " ++ url ++ ": " ++ error)%string) r; decode_response answer url, w).

(** ** The latest blocks *)

(** The loop over the heights, newest first: a missing block is skipped. *)
Fixpoint collect_blocks `{FromJson SdkBlockResponse} (heights : list Z) : client (list SdkBlockResponse) :=
  match heights with
  | [] => mret []
  | h :: heights' => λ w,
      match client_block_by_height h w with
      | (Ok b, w) => (bs ← collect_blocks heights'; mret (b :: bs)) w
      | (Err (SdkRpcHttp status url body), w) =>
          if status =? 404 then collect_blocks heights' w else (Err (SdkRpcHttp status url body), w)
      | (Err e, w) => (Err e, w)
      end
  end.

(** [(start..=tip).rev()] *)
Definition heights_down (start tip : Z) : list Z := (λ i, tip - Z.of_nat i) <$> seq 0 (Z.to_nat (tip - start + 1)).

Definition client_recent_blocks `{FromJson SdkChainTipResponse} `{FromJson SdkBlockResponse} (count : Z) :
    client (list SdkBlockResponse) :=
  let count := clamp 1 32 count in
  tip ← client_tip;
  let start := saturating_sub (ctr_height tip) (saturating_sub count 1) in
  collect_blocks (heights_down start (ctr_height tip)).

(** ** The public pool *)

Definition client_pool_status `{FromJson SdkPoolStatusResponse} : client SdkPoolStatusResponse :=
  get_pool_json "/api/v1/pool/status".
Definition client_pool_history `{FromJson SdkPoolHistoryResponse} : client SdkPoolHistoryResponse :=
  get_pool_json "/api/v1/pool/history".
Definition client_pool_miner `{FromJson Value} (address : string) : client Value :=
  let a := str_trim address in
  if negb (is_prefix (str_bytes "vire1") (str_bytes a))
  then sr_lift (Err (SdkInput "miner address must be a vire1… Mainnet Candidate address"))
  else get_pool_json ("/api/v1/miners/" ++ a).
Definition client_pool_payouts `{FromJson Value} : client Value := get_pool_json "/api/v1/payouts".

Definition with_maturity (tip : option Z) (required : Z) (b : SdkPoolBlock) : SdkPoolBlockWithMaturity :=
  let status := default "unknown"%string (spb_status b) in
  let maturity := pool_block_maturity (spb_height b) tip required (Some status) in
  {| pbm_height := spb_height b; pbm_hash := spb_hash b; pbm_status := status;
     pbm_reward_atomic := spb_reward_atomic b; pbm_maturity := maturity |}.

(** The history is preferred, when it can be read and is not empty. *)
Definition client_pool_blocks_with_maturity `{FromJson SdkStatusResponse} `{FromJson SdkPoolStatusResponse}
    `{FromJson SdkPoolHistoryResponse} : client (list SdkPoolBlockWithMaturity) :=
  chain ← client_status;
  pool ← client_pool_status;
  let tip := sst_height chain in
  let required := default DEFAULT_BLOCK_MATURITY_CONFIRMATIONS (pls_block_maturity_confirmations pool) in
  history ← attempt client_pool_history;
  let blocks := match history with
                | Ok h => match plh_blocks h with [] => pls_recent_blocks pool | blocks => blocks end
                | Err _ => pls_recent_blocks pool
                end in
  mret (with_maturity tip required <$> blocks).

(** ** Waiting for a transaction *)

(** [await_status]: the two readings of the elapsed time of each round (the test,
    and the report of a timeout) in milliseconds are arguments; the loop has fuel. *)
Fixpoint await_loop `{FromJson SdkTransactionResponse} (fuel : nat) (tested reported : nat → Z) (timeout : Z)
    (tx_hash : string) (round : nat) (last_status : string) (w : World) :
    option (SdkResult SdkTransactionResponse * World) :=
  match fuel with
  | O => None
  | S fuel =>
      if timeout <=? tested round
      then Some (Err (SdkTxTimeout (uwrap 64 (reported round)) last_status), w)
      else match client_transaction tx_hash w with
      | (Ok tx, w) =>
          if bool_decide (str_to_ascii_lowercase (stx_lifecycle_status tx) = "mined"%string)
          then Some (Ok tx, w)
          else await_loop fuel tested reported timeout tx_hash (S round) (stx_lifecycle_status tx) w
      | (Err (SdkRpcHttp status url body), w) =>
          if status =? 404
          then await_loop fuel tested reported timeout tx_hash (S round) "not_found"%string w
          else Some (Err (SdkRpcHttp status url body), w)
      | (Err e, w) => Some (Err e, w)
      end
  end.

Definition client_await_status `{FromJson SdkTransactionResponse} (fuel : nat) (tested reported : nat → Z)
    (timeout : Z) (tx_hash : string) (w : World) : option (SdkResult SdkTransactionResponse * World) :=
  await_loop fuel tested reported timeout tx_hash 0 "unknown" w.

End client.

(** * Theorems *)

(** A response is decoded exactly when its body could be read, its status is a
    2xx and the body is JSON of the type; another status is reported with its
    code, URL and body. *)
Theorem decode_response_spec {T} `{FromJson T} answer url :
  (∀ v : T, decode_response answer url = Ok v ↔
     ∃ body, ha_body answer = Ok body ∧ 200 <= ha_status answer < 300 ∧ from_json body = Ok v) ∧
  (∀ status url' body, (decode_response answer url : SdkResult T) = Err (SdkRpcHttp status url' body) ↔
     ha_body answer = Ok body ∧ ¬ (200 <= ha_status answer < 300) ∧ status = ha_status answer ∧ url' = url).
Proof.
  unfold decode_response, is_success. destruct (ha_body answer) as [body|text]; cbn [map_err mbind result_bind].
  2: { split; [intros v; split; [done | by intros (? & ? & _)] | intros; split; [done | by intros (? & _)]]. }
  assert (((200 <=? ha_status answer) && (ha_status answer <? 300))%bool = true ↔ 200 <= ha_status answer < 300) as Hs
    by (rewrite andb_true_iff, Z.leb_le, Z.ltb_lt; lia).
  destruct ((200 <=? ha_status answer) && (ha_status answer <? 300))%bool eqn:E; cbn [negb].
  - pose proof (proj1 Hs eq_refl) as Hr. split.
    + intros v. rewrite map_err_Ok. naive_solver.
    + intros st u b. split; [|by intros (_ & ? & _)]. destruct (from_json body); done.
  - split.
    + intros v. split; [done|]. intros (? & _ & Hr & _). by apply Hs in Hr.
    + intros st u b. split.
      * intros [= <- <- <-]. split_and!; try done. intros Hr. by apply Hs in Hr.
      * by intros ([= <-] & _ & -> & ->).
Qed.

Lemma heights_down_spec start tip i h :
  0 <= start <= tip → heights_down start tip !! i = Some h ↔ h = tip - Z.of_nat i ∧ start <= h.
Proof.
  intros Hs. unfold heights_down. rewrite list_lookup_fmap, fmap_Some. split.
  - intros (j & Hj & ->). apply lookup_seq in Hj as [-> ?]. lia.
  - intros [-> Hh]. exists i. split; [|done]. apply lookup_seq. lia.
Qed.

Section client_theory.
Context `{JsonValue} {World Body : Type} (send : HttpRequest Body → World → result string HttpAnswer * World).
Context (config : SdkConfig).

(** What a server with this block store answers to [/blocks/:height]. *)
Definition block_answer (store : Z → option SdkBlockResponse) (h : Z) : SdkResult SdkBlockResponse :=
  match store h with
  | Some b => Ok b
  | None => Err (SdkRpcHttp 404 (rpc_url ("/blocks/" ++ uint_to_string h) config) "not found")
  end.

Lemma collect_blocks_spec `{FromJson SdkBlockResponse} store w l :
  (∀ h, client_block_by_height send config h w = (block_answer store h, w)) →
  collect_blocks send config l w = (Ok (omap store l), w).
Proof.
  intros Hb. induction l as [|h l IH]; [done|]. cbn [collect_blocks]. rewrite Hb. unfold block_answer.
  cbn [omap list_omap]. destruct (store h) as [b|]; [|by rewrite Z.eqb_refl].
  by rewrite (sr_bind_step _ _ _ _ _ IH).
Qed.

(** [recent_blocks] against a server that serves a chain: the client asks for the
    last [count] heights, between 1 and 32 of them, from the tip down and never
    below zero, and returns the blocks the server has, newest first. *)
Theorem recent_blocks_spec `{FromJson SdkChainTipResponse} `{FromJson SdkBlockResponse} store w tip count :
  client_tip send config w = (Ok tip, w) → 0 <= ctr_height tip →
  (∀ h, client_block_by_height send config h w = (block_answer store h, w)) →
  ∃ heights, client_recent_blocks send config count w = (Ok (omap store heights), w) ∧
    Z.of_nat (length heights) = Z.min (clamp 1 32 count) (ctr_height tip + 1) ∧
    (∀ i h, heights !! i = Some h → h = ctr_height tip - Z.of_nat i ∧ 0 <= h).
Proof.
  intros Ht Hh Hb. unfold client_recent_blocks. cbv zeta. rewrite (sr_bind_step _ _ _ _ _ Ht).
  rewrite (collect_blocks_spec store w _ Hb). pose proof (clamp_range 1 32 count ltac:(lia)) as Hc.
  eexists; split; [reflexivity|]. unfold saturating_sub. split.
  - unfold heights_down. rewrite length_fmap, length_seq. lia.
  - intros i h Hi. apply heights_down_spec in Hi; lia.
Qed.

Lemma get_json_no_timeout {T} `{FromJson T} path w ms last w' :
  (get_json send config path w : SdkResult T * World) ≠ (Err (SdkTxTimeout ms last), w').
Proof.
  unfold get_json, get_url_json. destruct (send _ w) as [[answer|text] w1]; [|done].
  cbn [map_err mbind result_bind]. unfold decode_response.
  destruct (ha_body answer) as [body|text]; [|done]. cbn [map_err mbind result_bind].
  destruct (is_success _); [|done]. cbn [negb]. by destruct (from_json body).
Qed.

(** Waiting ends: if the clock passes the timeout at round [k], [k + 1] rounds are
    enough.  A success is a mined transaction, a timeout is reported only after
    the clock passed it, and a missing transaction is never an error. *)
Theorem await_status_returns `{FromJson SdkTransactionResponse} tested reported timeout tx_hash w k :
  timeout <= tested k →
  ∃ r w', client_await_status send config (S k) tested reported timeout tx_hash w = Some (r, w') ∧
    match r with
    | Ok tx => str_to_ascii_lowercase (stx_lifecycle_status tx) = "mined"%string
    | Err (SdkTxTimeout ms _) => ∃ j, timeout <= tested j ∧ ms = uwrap 64 (reported j)
    | Err (SdkRpcHttp status _ _) => status ≠ 404
    | Err _ => True
    end.
Proof.
  intros Hk. unfold client_await_status.
  assert (∀ n round last w, (round + n = k)%nat →
    ∃ r w', await_loop send config (S n) tested reported timeout tx_hash round last w = Some (r, w') ∧
    match r with
    | Ok tx => str_to_ascii_lowercase (stx_lifecycle_status tx) = "mined"%string
    | Err (SdkTxTimeout ms _) => ∃ j, timeout <= tested j ∧ ms = uwrap 64 (reported j)
    | Err (SdkRpcHttp status _ _) => status ≠ 404
    | Err _ => True
    end) as Hgen; [|by apply (Hgen k 0%nat)].
  intros n. induction n as [|n IH]; intros round last w0 Hn.
  - replace round with k by lia. cbn [await_loop]. rewrite (proj2 (Z.leb_le _ _) Hk).
    do 2 eexists; split; [done | by exists k].
  - cbn [await_loop]. destruct (timeout <=? tested round) eqn:Et.
    { do 2 eexists; split; [done|]. exists round. split; [by apply Z.leb_le | done]. }
    destruct (client_transaction send config tx_hash w0) as [[tx|e] w1] eqn:Ec.
    + case_bool_decide as Hm; [by do 2 eexists|]. apply IH. lia.
    + destruct e; try (by do 2 eexists); [|by apply get_json_no_timeout in Ec].
      destruct (status =? 404) eqn:E; [apply IH; lia|].
      do 2 eexists; split; [done|]. breflect. done.
Qed.

End client_theory.
