(* ===== verification/WalletStorage.v ===== *)
(** [vireon-wallet/src/error.rs] and [storage.rs]: the wallet file, the encryption
    of its secret and the unlocking of the key.  Argon2id, AES-256-GCM and Base64
    are operations of a typeclass; the random salt and nonce, the environment
    variable, the home directory and the outcomes of file operations are
    arguments; the JSON file is its fields. *)

From S2P Require Import Prelude RustStd Interfaces Crypto Errors Network Amount Signing Address Transaction NodeConfig.

(** * Errors *)

(** [enum WalletError] *)
Inductive WalletError :=
| WalletIo (text : string)
| WalletJson (text : string)
| WalletHttp (text : string)
| WalletCore (e : VireonError)
| WalletNode (e : NodeError)
| WalletNotFound (path : string)
| StorageUnavailable
| RpcUnavailable (message : string)
| WalletInput (message : string).

Abbreviation WalletResult := (result WalletError).

(** [Display for WalletError] *)
Definition WalletError_fmt (e : WalletError) : string :=
  match e with
  | WalletIo text => "I/O error: " ++ text
  | WalletJson text => "JSON error: " ++ text
  | WalletHttp text => "HTTP error: " ++ text
  | WalletCore e => "core error: " ++ VireonError_fmt e
  | WalletNode e => "node error: " ++ NodeError_fmt e
  | WalletNotFound path => "wallet not found at " ++ path
  | StorageUnavailable => "wallet storage path is unavailable"
  | RpcUnavailable message => "RPC unavailable: " ++ message
  | WalletInput message => "wallet input error: " ++ message
  end%string.

(** * Third-party cryptography *)

Class WalletPrimitives := {
  (** Argon2id with 19456 KiB, two passes, one lane and a 32-byte output, from a
      passphrase and a salt *)
  argon2id : bytes → bytes → result string bytes;
  (** AES-256-GCM under a 32-byte key and a 12-byte nonce *)
  aes256gcm_encrypt : bytes → bytes → bytes → option bytes;
  aes256gcm_decrypt : bytes → bytes → bytes → option bytes;
  (** Base64 with the standard alphabet *)
  b64_encode : bytes → string;
  b64_decode : string → result string bytes;
}.

Class WalletPrimitivesOk `{WalletPrimitives} : Prop := {
  argon2id_ok pass salt : length salt = 16%nat → ∃ key, argon2id pass salt = Ok key;
  aes256gcm_roundtrip key nonce m c : length nonce = 12%nat →
    aes256gcm_encrypt key nonce m = Some c → aes256gcm_decrypt key nonce c = Some m;
  b64_roundtrip b : b64_decode (b64_encode b) = Ok b;
}.

(** * The wallet file *)

Definition DEFAULT_WALLET_FILE_NAME : string := "default-wallet.json".
Definition SCHEMA_PLAINTEXT_LEGACY : string := "veiron-wallet-plaintext-v0".
Definition SCHEMA_ENCRYPTED_V1 : string := "veiron-wallet-encrypted-v1".
Definition WALLET_PASSPHRASE_ENV : string := "VIREON_WALLET_PASSPHRASE".

(** [struct EncryptedSecret] *)
Record EncryptedSecret := mkSecret {
  es_kdf : string;
  es_salt_b64 : string;
  es_nonce_b64 : string;
  es_ciphertext_b64 : string;
}.

(** [struct StoredWallet] *)
Record StoredWallet := mkWallet {
  sw_schema : string;
  sw_network_id : string;
  sw_network_name : string;
  sw_status_label : string;
  sw_warning : string;
  sw_address : string;
  sw_public_key_hex : string;
  sw_private_key_hex : option string;
  sw_encrypted : option EncryptedSecret;
  sw_key_origin : option string;
  sw_derivation_path : option string;
  sw_wallet_seed_standard_id : option string;
  sw_key_derivation_policy_id : option string;
}.

(** The fields of the JSON object: [schema] may be missing, and so may the
    optional ones (missing and [null] alike). *)
Record WalletJsonFile := mkWalletJson {
  wj_schema : option string;
  wj_fields : StoredWallet;
}.

(** The wallet's place on disk. *)
Inductive WalletFile :=
| FileAbsent
| FileUnreadable (text : string)
| FileMalformed (text : string)
| FileJson (json : WalletJsonFile).

Definition wallet_file_path (wallet_dir : string) : string := path_join wallet_dir DEFAULT_WALLET_FILE_NAME.

Definition set_key_hex (hex schema : string) (w : StoredWallet) : StoredWallet :=
  mkWallet schema (sw_network_id w) (sw_network_name w) (sw_status_label w) (sw_warning w) (sw_address w)
    (sw_public_key_hex w) (Some hex) (sw_encrypted w) (sw_key_origin w) (sw_derivation_path w)
    (sw_wallet_seed_standard_id w) (sw_key_derivation_policy_id w).

Definition set_schema (schema : string) (w : StoredWallet) : StoredWallet :=
  mkWallet schema (sw_network_id w) (sw_network_name w) (sw_status_label w) (sw_warning w) (sw_address w)
    (sw_public_key_hex w) (sw_private_key_hex w) (sw_encrypted w) (sw_key_origin w) (sw_derivation_path w)
    (sw_wallet_seed_standard_id w) (sw_key_derivation_policy_id w).

Definition default_schema_legacy : string := SCHEMA_PLAINTEXT_LEGACY.

(** [serde_json::from_str::<StoredWallet>]: the defaults. *)
Definition parse_wallet (j : WalletJsonFile) : StoredWallet :=
  set_schema (default default_schema_legacy (wj_schema j)) (wj_fields j).

(** [serde_json::to_string_pretty]. *)
Definition wallet_json (w : StoredWallet) : WalletJsonFile := mkWalletJson (Some (sw_schema w)) w.

Definition load_wallet (wallet_dir : string) (file : WalletFile) : WalletResult StoredWallet :=
  match file with
  | FileAbsent => Err (WalletNotFound (wallet_file_path wallet_dir))
  | FileUnreadable text => Err (WalletIo text)
  | FileMalformed text => Err (WalletJson text)
  | FileJson j =>
      let wallet := parse_wallet j in
      if is_none (sw_private_key_hex wallet) && is_none (sw_encrypted wallet) then
        match sw_private_key_hex (wj_fields j) with
        | Some hex => Ok (set_key_hex hex SCHEMA_PLAINTEXT_LEGACY wallet)
        | None => Ok wallet
        end
      else Ok wallet
  end.

Definition StoredWallet_network (w : StoredWallet) : WalletResult Network :=
  map_err WalletCore (Network_from_str (sw_network_id w)).

(** [is_encrypted]; [&&] binds tighter than [||]. *)
Definition is_encrypted (w : StoredWallet) : bool :=
  is_some (sw_encrypted w) || bool_decide (sw_schema w = SCHEMA_ENCRYPTED_V1) ||
  (match sw_private_key_hex w with Some s => str_is_empty s | None => true end && is_some (sw_encrypted w)).

Definition default_network_root (home : option string) (n : Network) : WalletResult string :=
  ok_or StorageUnavailable ((λ home, path_join home (default_data_root n)) <$> home).
Definition default_wallet_dir (home : option string) (n : Network) : WalletResult string :=
  root ← default_network_root home n; Ok (path_join root "wallets").
Definition default_signed_tx_dir (home : option string) (n : Network) : WalletResult string :=
  root ← default_network_root home n; Ok (path_join root "signed-txs").

(** * Secrets *)

Definition requires_encryption (n : Network) : bool := bool_decide (n = MainnetCandidate).

Definition resolve_passphrase (env explicit : option string) : WalletResult string :=
  let from_env := match env with
    | Some p => if negb (str_is_empty (str_trim p)) then Ok p else Err (WalletInput
        ("mainnet-candidate wallets must be encrypted: set " ++ WALLET_PASSPHRASE_ENV
         ++ " or pass an encryption passphrase")%string)
    | None => Err (WalletInput ("mainnet-candidate wallets must be encrypted: set " ++ WALLET_PASSPHRASE_ENV
         ++ " or pass an encryption passphrase")%string)
    end in
  match explicit with
  | Some p => if negb (str_is_empty p) then Ok p else from_env
  | None => from_env
  end.

(** The outcome of writing a file: nothing happened, a part was written, or all. *)
Inductive WriteOutcome := WriteRefused (text : string) | WriteTorn (text : string) | Written.

Definition write_file {F} (o : WriteOutcome) (torn new : F) : state_result F WalletError () := λ old,
  match o with
  | WriteRefused text => (Err (WalletIo text), old)
  | WriteTorn text => (Err (WalletIo text), torn)
  | Written => (Ok (), new)
  end.

Section storage.
Context `{Primitives} `{WalletPrimitives}.

Definition derive_key (passphrase : string) (salt : bytes) : WalletResult bytes :=
  map_err (λ e, WalletInput ("argon2 derive failed: " ++ e)%string) (argon2id (str_bytes passphrase) salt).

(** [salt] and [nonce] are the 16 and 12 random bytes. *)
Definition encrypt_secret (salt nonce : bytes) (passphrase : string) (plaintext : bytes) : WalletResult EncryptedSecret :=
  key ← derive_key passphrase salt;
  ciphertext ← ok_or (WalletInput "encryption failed") (aes256gcm_encrypt key nonce plaintext);
  Ok (mkSecret "argon2id" (b64_encode salt) (b64_encode nonce) (b64_encode ciphertext)).

Definition decrypt_secret (passphrase : string) (secret : EncryptedSecret) : WalletResult bytes :=
  if negb (bool_decide (es_kdf secret = "argon2id"%string))
  then Err (WalletInput ("unsupported kdf " ++ es_kdf secret)%string) else
  salt ← map_err (λ e, WalletInput ("salt: " ++ e)%string) (b64_decode (es_salt_b64 secret));
  nonce ← map_err (λ e, WalletInput ("nonce: " ++ e)%string) (b64_decode (es_nonce_b64 secret));
  ciphertext ← map_err (λ e, WalletInput ("ciphertext: " ++ e)%string) (b64_decode (es_ciphertext_b64 secret));
  if negb (bool_decide (length nonce = 12%nat)) then Err (WalletInput "invalid nonce length") else
  key ← derive_key passphrase salt;
  ok_or (WalletInput "decryption failed (wrong passphrase?)") (aes256gcm_decrypt key nonce ciphertext).

(** The secret part of a new file: schema, plaintext key, encrypted key, warning. *)
Definition secret_fields (env : option string) (salt nonce : bytes) (n : Network) (sk : PrivateKey)
    (passphrase : option string) : WalletResult (string * option string * option EncryptedSecret * string) :=
  if requires_encryption n then
    pass ← resolve_passphrase env passphrase;
    encrypted ← encrypt_secret salt nonce pass (str_bytes (bytes_to_hex sk));
    Ok (SCHEMA_ENCRYPTED_V1, None, Some encrypted,
      "Encrypted wallet file (AES-256-GCM + Argon2id). Private key is never stored in plaintext."%string)
  else
    Ok (SCHEMA_PLAINTEXT_LEGACY, Some (bytes_to_hex sk), None,
      "Local prototype wallet material (devnet/test fixtures). Mainnet-candidate wallets are encrypted."%string).

(** [write_wallet_with_metadata_passphrase]: [made] is the outcome of creating
    the directory, [o] that of writing the file. *)
Definition write_wallet_with_metadata_passphrase (env : option string) (salt nonce : bytes)
    (made : result string ()) (o : WriteOutcome) (sk : PrivateKey) (n : Network)
    (key_origin derivation_path wallet_seed_standard_id key_derivation_policy_id passphrase : option string)
    : state_result WalletFile WalletError StoredWallet :=
  _ ← sr_lift (map_err WalletIo made);
  let public_key := PrivateKey_public_key sk in
  let address := Address_to_string (from_public_key_for_network public_key n) in
  let public_key_hex := bytes_to_hex public_key in
  '(schema, private_key_hex, encrypted, warning) ← sr_lift (secret_fields env salt nonce n sk passphrase);
  let wallet := mkWallet schema (network_id n) (human_name n) (status_label n) warning address public_key_hex
    private_key_hex encrypted key_origin derivation_path wallet_seed_standard_id key_derivation_policy_id in
  _ ← write_file o (FileMalformed "EOF while parsing"%string) (FileJson (wallet_json wallet));
  mret wallet.

Definition write_wallet_with_metadata (env : option string) (salt nonce : bytes) (made : result string ())
    (o : WriteOutcome) (sk : PrivateKey) (n : Network)
    (key_origin derivation_path wallet_seed_standard_id key_derivation_policy_id : option string) :=
  write_wallet_with_metadata_passphrase env salt nonce made o sk n key_origin derivation_path
    wallet_seed_standard_id key_derivation_policy_id None.

Definition write_wallet (env : option string) (salt nonce : bytes) (made : result string ())
    (o : WriteOutcome) (sk : PrivateKey) (n : Network) :=
  write_wallet_with_metadata env salt nonce made o sk n None None None None.

Definition private_key_from_wallet_passphrase (env : option string) (w : StoredWallet) (passphrase : option string)
    : WalletResult PrivateKey :=
  match sw_encrypted w with
  | Some secret =>
      pass ← resolve_passphrase env passphrase;
      plain ← decrypt_secret pass secret;
      hex ← ok_or (WalletInput "decrypted key is not utf8") (from_utf8 plain);
      map_err WalletCore (PrivateKey_from_hex hex)
  | None =>
      match sw_private_key_hex w with
      | Some hex =>
          if negb (str_is_empty hex) then
            if bool_decide (sw_network_id w = network_id MainnetCandidate)
            then Err (WalletInput "legacy plaintext mainnet-candidate wallet detected; re-import with encryption (VIREON_WALLET_PASSPHRASE)")
            else map_err WalletCore (PrivateKey_from_hex hex)
          else Err (WalletInput "wallet file has no usable private key material")
      | None => Err (WalletInput "wallet file has no usable private key material")
      end
  end.

Definition private_key_from_wallet (env : option string) (w : StoredWallet) : WalletResult PrivateKey :=
  private_key_from_wallet_passphrase env w None.

End storage.

(** * Theorems *)

(** The second look at [private_key_hex] never finds anything: loading a parsed
    file gives the parsed wallet. *)
Theorem load_wallet_parses dir j : load_wallet dir (FileJson j) = Ok (parse_wallet j).
Proof.
  unfold load_wallet. cbv zeta. change (sw_private_key_hex (parse_wallet j)) with (sw_private_key_hex (wj_fields j)).
  destruct (sw_private_key_hex (wj_fields j)); [done|]. by destruct (sw_encrypted (parse_wallet j)).
Qed.

Lemma parse_wallet_json w : parse_wallet (wallet_json w) = w.
Proof. by destruct w. Qed.

Lemma utf8_valid_ascii l : Forall (λ b, 0 <= byte_Z b < 128) l → utf8_valid l = true.
Proof.
  induction 1 as [|b l Hb _ IH]; [done|]. cbn [utf8_valid]. unfold in_range.
  rewrite (proj2 (Z.leb_le 0 _)), (proj2 (Z.leb_le _ 127)) by lia. exact IH.
Qed.

Lemma from_utf8_hex sk : from_utf8 (str_bytes (bytes_to_hex sk)) = Some (bytes_to_hex sk).
Proof.
  unfold from_utf8, bytes_to_hex. rewrite str_bytes_of_bytes, utf8_valid_ascii; [done|].
  eapply Forall_impl; [apply hex_bytes_graphic|]. intros b Hb. cbn beta in Hb. unfold graphic in Hb. breflect. lia.
Qed.

Section theorems.
Context `{PrimitivesOk} `{!WalletPrimitives} `{!WalletPrimitivesOk}.

(** Encrypting a secret and decrypting it with the same passphrase. *)
Lemma decrypt_encrypt salt nonce pass plain secret :
  length nonce = 12%nat → encrypt_secret salt nonce pass plain = Ok secret →
  decrypt_secret pass secret = Ok plain.
Proof.
  intros Hn. unfold encrypt_secret. intros (key & Hk & (c & Hc%ok_or_Ok & [= <-])%bind_Ok)%bind_Ok.
  unfold decrypt_secret. cbn [es_kdf es_salt_b64 es_nonce_b64 es_ciphertext_b64].
  rewrite bool_decide_eq_true_2 by done. cbn [negb]. rewrite !b64_roundtrip. cbn [map_err mbind result_bind].
  rewrite bool_decide_eq_true_2 by done. cbn [negb]. rewrite Hk. cbn [mbind result_bind].
  by rewrite (aes256gcm_roundtrip key nonce plain c).
Qed.

(** What a written wallet holds. *)
Record written_wallet (n : Network) (sk : PrivateKey) (w : StoredWallet) : Prop := {
  ww_network : StoredWallet_network w = Ok n;
  ww_address : sw_address w = Address_to_string (from_public_key_for_network (PrivateKey_public_key sk) n);
  ww_public_key : sw_public_key_hex w = bytes_to_hex (PrivateKey_public_key sk);
  ww_plain : sw_private_key_hex w = if requires_encryption n then None else Some (bytes_to_hex sk);
  ww_encrypted : is_encrypted w = requires_encryption n;
}.

Lemma written_loads env salt nonce made o sk n origin path seed policy pass dir old w file :
  length sk = PrivateKey_SIZE → length nonce = 12%nat →
  write_wallet_with_metadata_passphrase env salt nonce made o sk n origin path seed policy pass old = (Ok w, file) →
  load_wallet dir file = Ok w ∧ written_wallet n sk w ∧ private_key_from_wallet_passphrase env w pass = Ok sk.
Proof.
  intros Hsk Hnonce. unfold write_wallet_with_metadata_passphrase. cbv zeta.
  rewrite sr_lift_bind. destruct made as [[]|text]; [|done]. cbn [map_err].
  rewrite sr_lift_bind. destruct (secret_fields env salt nonce n sk pass) as [[[[schema hex] enc] warning]|e] eqn:Es; [|done].
  unfold mbind, state_result_bind, write_file. destruct o; [done..|]. intros [= <- <-].
  rewrite load_wallet_parses, parse_wallet_json. split; [done|].
  assert (map_err WalletCore (PrivateKey_from_hex (bytes_to_hex sk)) = Ok sk) as Hhex.
  { unfold PrivateKey_from_hex. by rewrite parse_hex_array_to_hex. }
  unfold secret_fields in Es. unfold private_key_from_wallet_passphrase.
  cbn [sw_encrypted sw_private_key_hex sw_network_id].
  destruct (requires_encryption n) eqn:Er.
  - apply bind_Ok in Es as (p & Hp & (secret & Hsec & [= <- <- <- <-])%bind_Ok).
    rewrite Hp. cbn [mbind result_bind]. rewrite (decrypt_encrypt _ _ _ _ _ Hnonce Hsec).
    cbn [mbind result_bind]. rewrite from_utf8_hex. cbn [ok_or mbind result_bind].
    split; [|done]. split; [by destruct n | done | done | by rewrite Er | by rewrite Er].
  - injection Es as <- <- <- <-. assert (n ≠ MainnetCandidate) as Hm by (by apply bool_decide_eq_false in Er).
    split; [split; [by destruct n | done | done | by rewrite Er |]|].
    { rewrite Er. unfold is_encrypted. cbn. by rewrite andb_false_r. }
    assert (str_is_empty (bytes_to_hex sk) = false) as ->.
    { apply bool_decide_eq_false. intros He. apply (f_equal str_bytes) in He.
      unfold bytes_to_hex in He. rewrite str_bytes_of_bytes in He. apply (f_equal length) in He.
      rewrite length_hex_bytes, Hsk in He. done. }
    cbn [negb]. rewrite bool_decide_eq_false_2; [done|]. by destruct n.
Qed.

(** C19. The wallet file round trip: a written wallet is loaded back as it was
    returned, names the key's network, address and public key, unlocks with the
    same passphrase to the same key, and on the main network holds the key in
    encrypted form only. *)
Theorem wallet_roundtrip env salt nonce made o sk n origin path seed policy pass dir old w file :
  length sk = PrivateKey_SIZE → length nonce = 12%nat →
  write_wallet_with_metadata_passphrase env salt nonce made o sk n origin path seed policy pass old = (Ok w, file) →
  load_wallet dir file = Ok w ∧ written_wallet n sk w ∧ private_key_from_wallet_passphrase env w pass = Ok sk.
Proof. apply written_loads. Qed.

(** A key in plaintext under the main network's id never unlocks. *)
Theorem mainnet_plaintext_refused env w pass :
  sw_network_id w = network_id MainnetCandidate → sw_encrypted w = None →
  ∃ message, private_key_from_wallet_passphrase env w pass = Err (WalletInput message).
Proof.
  intros Hn He. unfold private_key_from_wallet_passphrase. rewrite He.
  destruct (sw_private_key_hex w) as [hex|]; [|by eexists].
  destruct (negb (str_is_empty hex)); [|by eexists]. rewrite Hn, bool_decide_eq_true_2 by done. by eexists.
Qed.

(** But the refusal compares the id's text, while the network is parsed with its
    aliases: a plaintext key filed under the alias is a main-network wallet that
    unlocks. *)
Theorem alias_plaintext_unlocks env w pass sk :
  length sk = PrivateKey_SIZE → sw_network_id w = "mainnet-candidate"%string → sw_encrypted w = None →
  sw_private_key_hex w = Some (bytes_to_hex sk) →
  StoredWallet_network w = Ok MainnetCandidate ∧ private_key_from_wallet_passphrase env w pass = Ok sk.
Proof.
  intros Hsk Hn He Hh. split; [unfold StoredWallet_network; by rewrite Hn|].
  unfold private_key_from_wallet_passphrase. rewrite He, Hh, Hn.
  assert (PrivateKey_from_hex (bytes_to_hex sk) = Ok sk) as ->.
  { unfold PrivateKey_from_hex. by rewrite parse_hex_array_to_hex. }
  destruct (str_is_empty (bytes_to_hex sk)) eqn:E; [|done].
  apply bool_decide_eq_true in E. apply (f_equal (length ∘ str_bytes)) in E.
  unfold bytes_to_hex in E. cbn [compose] in E. unfold compose in E.
  rewrite str_bytes_of_bytes, length_hex_bytes, Hsk in E. done.
Qed.

(** A failed creation changes nothing unless the file was torn, and a successful
    one does not look at what was there: an existing wallet is replaced. *)
Theorem write_wallet_effect env salt nonce made o sk n origin path seed policy pass old r file :
  write_wallet_with_metadata_passphrase env salt nonce made o sk n origin path seed policy pass old = (r, file) →
  match r with
  | Ok w => ∀ old', write_wallet_with_metadata_passphrase env salt nonce made o sk n origin path seed policy pass old'
                    = (Ok w, FileJson (wallet_json w))
  | Err _ => file = old ∨ ∃ text, o = WriteTorn text
  end.
Proof.
  unfold write_wallet_with_metadata_passphrase. cbv zeta. rewrite sr_lift_bind.
  destruct made as [[]|text]; cbn [map_err]; [|intros [= <- <-]; by left].
  rewrite sr_lift_bind.
  destruct (secret_fields env salt nonce n sk pass) as [[[[schema hex] enc] warning]|e] eqn:Es;
    [|intros [= <- <-]; by left].
  unfold mbind, state_result_bind, write_file. destruct o; intros [= <- <-]; [by left | right; by eexists |].
  intros old'. rewrite sr_lift_eq. cbn [map_err]. by rewrite sr_lift_eq.
Qed.

End theorems.
