(* ===== verification/Wallet.v ===== *)
(** [vireon-wallet/src/wallet.rs] and [rpc.rs]: creating and importing wallets,
    public information and status, signing a spend from the local chain,
    verifying and submitting the signed file. *)

From S2P Require Import Prelude RustStd Interfaces Crypto Errors Network Amount Signing Address Transaction Block Consensus State Ledger Chain NodeConfig Storage Mempool Node NodeOps Seed Spend Pool Sdk SdkClient WalletStorage.

Definition DEFAULT_RPC_BASE_URL : string := "https://rpcnode.dohotstudio.com".
Definition DEFAULT_MAINNET_DATA_DIR : string := ".vireon-mainnet/chain".
Definition DEFAULT_DEVNET_DATA_DIR : string := DEFAULT_MAINNET_DATA_DIR.

Definition default_rpc_base_url_for_network (n : Network) : string :=
  ("http://127.0.0.1:" ++ uint_to_string (default_rpc_port n))%string.

Definition default_chain_data_dir (home : option string) (n : Network) : string :=
  path_join (unwrap_or (default_data_root n) (default_network_root home n)) "chain".

(** * Reports *)

(** [struct PublicWalletInfo] *)
Record PublicWalletInfo := {
  pwi_network_id : string;
  pwi_network_name : string;
  pwi_status_label : string;
  pwi_address : string;
  pwi_public_key_hex : string;
  pwi_address_standard_id : string;
  pwi_signature_standard_id : string;
  pwi_key_derivation_policy_id : string;
  pwi_wallet_seed_standard_id : string;
  pwi_key_origin : string;
  pwi_derivation_path : option string;
}.

(** [struct WalletStatus] *)
Record WalletStatus := {
  wst_mode : string;
  wst_protocol_parameters_id : string;
  wst_active_network_id : string;
  wst_active_network_name : string;
  wst_active_status_label : string;
  wst_address_standard_id : string;
  wst_address_prefix : string;
  wst_signature_standard_id : string;
  wst_tx_signing_domain : string;
  wst_key_derivation_policy_id : string;
  wst_wallet_seed_standard_id : string;
  wst_wallet_dir : string;
  wst_signed_tx_dir : string;
  wst_wallet_present : bool;
  wst_address : option string;
  wst_key_origin : option string;
  wst_derivation_path : option string;
  wst_rpc_base_url : string;
}.

(** [struct CreatedWallet] *)
Record CreatedWallet := {
  cw_network_id : string;
  cw_network_name : string;
  cw_status_label : string;
  cw_address : string;
  cw_public_key_hex : string;
  cw_derivation_path : string;
  cw_wallet_seed_standard_id : string;
  cw_key_derivation_policy_id : string;
  cw_mnemonic_word_count : Z;
  cw_mnemonic : string;
  cw_warning : string;
}.

(** [struct SignedTxFile] *)
Record SignedTxFile := {
  stf_mode : string;
  stf_network_id : string;
  stf_network_name : string;
  stf_status_label : string;
  stf_warning : string;
  stf_tx_hash : string;
  stf_path : string;
  stf_transaction : Transaction;
}.

(** [struct SubmittedTxResult] *)
Record SubmittedTxResult := {
  str_network_id : string;
  str_status : string;
  str_tx_hash : string;
  str_lifecycle_status : string;
  str_mempool_size : Z;
  str_source_path : string;
}.

(** [rpc.rs]: [struct RpcBalanceResponse], [struct RpcSubmitTransactionResponse] *)
Record RpcBalanceResponse := { rbr_address : string; rbr_balance_atomic : Z }.
Record RpcSubmitTransactionResponse := {
  rsr_status : string;
  rsr_tx_hash : string;
  rsr_lifecycle_status : string;
  rsr_mempool_size : Z;
}.

(** A file of the signed-transaction directory: a transaction, or text that is
    not the JSON of one. *)
Inductive TxFile := TxJson (tx : Transaction) | TxMalformed (text : string).
Abbreviation TxFiles := (gmap string TxFile).

(** * RPC *)

Definition map_sdk_error (e : SdkError) : WalletError :=
  match e with
  | SdkRpcHttp status url body => RpcUnavailable ("RPC gateway returned status " ++ uint_to_string status
      ++ " for " ++ url ++ ": " ++ body)%string
  | SdkRpc message | SdkRpcDecode message => RpcUnavailable message
  | SdkProtocol error => RpcUnavailable (VireonError_fmt error)
  | SdkJson text => WalletJson text
  | other => RpcUnavailable (SdkError_fmt other)
  end.

(** [built]: the outcome of building the HTTP client. *)
Definition client_for_url (built : result string ()) (rpc_base_url : string) : WalletResult SdkConfig :=
  let config := with_rpc MainnetCandidate rpc_base_url in
  _ ← map_err (λ error, map_sdk_error (SdkRpc error)) built; Ok config.

Section rpc.
Context `{JsonValue} {World : Type} (send : HttpRequest Transaction → World → result string HttpAnswer * World).

(** Errors of the client through [map_sdk_error]. *)
Definition on_client {A} (m : state_result World SdkError A) : state_result World WalletError A :=
  λ w, let '(r, w) := m w in (map_err map_sdk_error r, w).

Definition fetch_balance `{FromJson SdkAddressBalanceResponse} (built : result string ()) (rpc_base_url address : string) :
    state_result World WalletError RpcBalanceResponse :=
  config ← sr_lift (client_for_url built rpc_base_url);
  balance ← on_client (client_balance send config address);
  mret {| rbr_address := sbr_address balance; rbr_balance_atomic := sbr_balance_atomic balance |}.

Definition submit_signed_transaction `{FromJson SdkSubmitTransactionResponse} (built : result string ())
    (rpc_base_url : string) (tx : Transaction) : state_result World WalletError RpcSubmitTransactionResponse :=
  config ← sr_lift (client_for_url built rpc_base_url);
  response ← on_client (client_submit send config tx);
  mret {| rsr_status := sub_status response; rsr_tx_hash := sub_tx_hash response;
          rsr_lifecycle_status := sub_lifecycle_status response; rsr_mempool_size := sub_mempool_size response |}.

End rpc.

(** * Creating and importing *)

Section wallet.
Context `{Primitives} `{WalletPrimitives} `{SeedPrimitives}.

Section create.
(** What writing the file depends on besides the key: the environment variable,
    the random bytes, the outcomes of creating the directory and the file. *)
Context (env : option string) (salt nonce : bytes) (made : result string ()) (o : WriteOutcome).

(** [generated]: the new random key. *)
Definition create_dev_wallet (generated : PrivateKey) (n : Network) : state_result WalletFile WalletError StoredWallet :=
  write_wallet_with_metadata env salt nonce made o generated n (Some "raw-private-key"%string) None None
    (Some (kd_policy_id launch_key_derivation_policy)).

Definition import_dev_private_key (private_key_hex : string) (n : Network) :
    state_result WalletFile WalletError StoredWallet :=
  sk ← sr_lift (map_err WalletCore (PrivateKey_from_hex private_key_hex));
  write_wallet_with_metadata env salt nonce made o sk n (Some "raw-private-key-import"%string) None None
    (Some (kd_policy_id launch_key_derivation_policy)).

Definition create_wallet (drawn : Z → result string Mnemonic) (n : Network) (word_count : MnemonicWordCount)
    (p : WalletDerivationPath) : state_result WalletFile WalletError CreatedWallet :=
  mnemonic ← sr_lift (map_err WalletCore (generate_mnemonic drawn word_count));
  sk ← sr_lift (map_err WalletCore (derive_private_key_from_mnemonic mnemonic "" p));
  wallet ← write_wallet_with_metadata env salt nonce made o sk n (Some "bip39-mnemonic"%string)
    (Some (path_to_string p)) (Some (ws_standard_id launch_wallet_seed_standard))
    (Some (kd_policy_id launch_key_derivation_policy));
  mret {|
    cw_network_id := sw_network_id wallet;
    cw_network_name := sw_network_name wallet;
    cw_status_label := sw_status_label wallet;
    cw_address := sw_address wallet;
    cw_public_key_hex := sw_public_key_hex wallet;
    cw_derivation_path := path_to_string p;
    cw_wallet_seed_standard_id := ws_standard_id launch_wallet_seed_standard;
    cw_key_derivation_policy_id := kd_policy_id launch_key_derivation_policy;
    cw_mnemonic_word_count := word_count_as_usize word_count;
    cw_mnemonic := mnemonic;
    cw_warning := "Back up this mnemonic now. It is shown once and is not stored in the repository or returned by later wallet commands." |}.

Definition import_mnemonic_wallet (phrase passphrase : string) (n : Network) (p : WalletDerivationPath) :
    state_result WalletFile WalletError StoredWallet :=
  sk ← sr_lift (map_err WalletCore (derive_private_key_from_mnemonic phrase passphrase p));
  write_wallet_with_metadata env salt nonce made o sk n (Some "bip39-mnemonic-import"%string)
    (Some (path_to_string p)) (Some (ws_standard_id launch_wallet_seed_standard))
    (Some (kd_policy_id launch_key_derivation_policy)).

End create.

(** * Reading *)

Definition wallet_address (wallet_dir : string) (file : WalletFile) : WalletResult string :=
  wallet ← load_wallet wallet_dir file; Ok (sw_address wallet).

Definition export_public_info (wallet_dir : string) (file : WalletFile) : WalletResult PublicWalletInfo :=
  wallet ← load_wallet wallet_dir file;
  n ← StoredWallet_network wallet;
  Ok {|
    pwi_network_id := sw_network_id wallet;
    pwi_network_name := sw_network_name wallet;
    pwi_status_label := sw_status_label wallet;
    pwi_address := sw_address wallet;
    pwi_public_key_hex := sw_public_key_hex wallet;
    pwi_address_standard_id := as_standard_id (launch_address_standard n);
    pwi_signature_standard_id := ss_standard_id launch_signing_standard;
    pwi_key_derivation_policy_id := kd_policy_id launch_key_derivation_policy;
    pwi_wallet_seed_standard_id := ws_standard_id launch_wallet_seed_standard;
    pwi_key_origin := default "legacy-raw-private-key"%string (sw_key_origin wallet);
    pwi_derivation_path := sw_derivation_path wallet |}.

Definition wallet_status (selected : Network) (wallet_dir : string) (file : WalletFile)
    (signed_tx_dir rpc_base_url : string) : WalletResult WalletStatus :=
  let wallet_present := match file with FileAbsent => false | _ => true end in
  '(active, name, label, address, key_origin, derivation_path) ← (
    if wallet_present then
      wallet ← load_wallet wallet_dir file;
      n ← StoredWallet_network wallet;
      Ok (n, sw_network_name wallet, sw_status_label wallet, Some (sw_address wallet), sw_key_origin wallet,
          sw_derivation_path wallet)
    else Ok (selected, human_name selected, status_label selected, None, None, None));
  Ok {|
    wst_mode := (label ++ " / Prototype")%string;
    wst_protocol_parameters_id := pp_parameters_id (launch_protocol_parameters active);
    wst_active_network_id := network_id active;
    wst_active_network_name := name;
    wst_active_status_label := label;
    wst_address_standard_id := as_standard_id (launch_address_standard active);
    wst_address_prefix := as_address_prefix (launch_address_standard active);
    wst_signature_standard_id := ss_standard_id launch_signing_standard;
    wst_tx_signing_domain := ss_tx_signing_domain launch_signing_standard;
    wst_key_derivation_policy_id := kd_policy_id launch_key_derivation_policy;
    wst_wallet_seed_standard_id := ws_standard_id launch_wallet_seed_standard;
    wst_wallet_dir := wallet_dir;
    wst_signed_tx_dir := signed_tx_dir;
    wst_wallet_present := wallet_present;
    wst_address := address;
    wst_key_origin := key_origin;
    wst_derivation_path := derivation_path;
    wst_rpc_base_url := rpc_base_url |}.

Definition wallet_balance `{JsonValue} {World} (send : HttpRequest Transaction → World → result string HttpAnswer * World)
    `{FromJson SdkAddressBalanceResponse} (built : result string ()) (rpc_base_url address : string) :
    state_result World WalletError RpcBalanceResponse :=
  _ ← sr_lift (map_err WalletCore (Address_parse address));
  fetch_balance send built rpc_base_url address.

(** * Spending *)

(** [load_chain]: every stored block is validated again. *)
Definition wallet_load_chain (path : string) (clock : nat → Z) (db : ChainDb) : WalletResult Chain :=
  blocks ← map_err WalletNode (load_blocks path db);
  first_block ← ok_or (WalletNode (ChainNotInitialized path)) (head blocks);
  n ← map_err WalletCore (Block_network first_block);
  let '(r, c) := sr_each (λ '(now, b), append_block now b) (timed clock blocks) (Chain_new n) in
  _ ← map_err WalletCore r; Ok c.

(** The nonces of the address in the blocks: the largest plus one. *)
Definition scan_next_nonce (blocks : list Block) (address : string) : Z :=
  match max_opt (tx_nonce <$> filter (λ tx, tx_from tx = Some address) (blocks ≫= transactions)) with
  | None => FIRST_ACCOUNT_NONCE
  | Some nonce => wrapping_add 64 nonce 1
  end.

Definition wallet_next_account_nonce (clock : nat → Z) (blocks : list Block) (address : string) : Z :=
  match head blocks with
  | Some first =>
      match Block_network first with
      | Ok n =>
          match from_blocks n (timed clock blocks) with
          | Ok c => next_nonce_of (ch_state c) address
          | Err _ => scan_next_nonce blocks address
          end
      | Err _ => scan_next_nonce blocks address
      end
  | None => scan_next_nonce blocks address
  end.

Definition insufficient_message (available required : Amount) : string :=
  ("insufficient Mainnet Candidate balance: available " ++ uint_to_string available ++ ", required "
   ++ uint_to_string required)%string.

(** [sign_tx]: [clock] and [clock'] read the time of the two validations of the
    stored chain, [made] and [o] are the outcomes of creating the directory of
    signed transactions and of writing the file. *)
Definition sign_tx (env : option string) (clock clock' : nat → Z) (made : result string ()) (o : WriteOutcome)
    (wallet_dir : string) (file : WalletFile) (signed_tx_dir chain_path : string) (db : ChainDb)
    (to amount fee : string) : state_result TxFiles WalletError SignedTxFile :=
  recipient ← sr_lift (map_err WalletCore (Address_parse to));
  amount ← sr_lift (map_err WalletCore (parse_vire amount));
  fee ← sr_lift (map_err WalletCore (parse_vire fee));
  if amount =? Amount_ZERO
  then sr_lift (Err (WalletInput "transaction amount must be greater than zero")) else
  wallet ← sr_lift (load_wallet wallet_dir file);
  wallet_network ← sr_lift (StoredWallet_network wallet);
  if negb (bool_decide (addr_network recipient = wallet_network))
  then sr_lift (Err (WalletCore (InvalidNetwork (network_id wallet_network) (network_id (addr_network recipient))))) else
  private_key ← sr_lift (private_key_from_wallet env wallet);
  chain ← sr_lift (wallet_load_chain chain_path clock db);
  if negb (bool_decide (ch_network chain = wallet_network))
  then sr_lift (Err (WalletInput ("wallet network " ++ network_id wallet_network
         ++ " does not match chain network " ++ network_id (ch_network chain))%string)) else
  let anticipated_base_fee := next_base_fee (last (ch_blocks chain)) in
  let balance := balance_of (ch_state chain) (sw_address wallet) in
  with_base ← sr_lift (map_err WalletCore (amount_checked_add amount anticipated_base_fee));
  required ← sr_lift (map_err WalletCore (amount_checked_add with_base fee));
  if balance <? required then sr_lift (Err (WalletInput (insufficient_message balance required))) else
  let nonce := wallet_next_account_nonce clock' (ch_blocks chain) (sw_address wallet) in
  max_fee ← sr_lift (map_err WalletCore (amount_checked_add anticipated_base_fee fee));
  tx ← sr_lift (map_err WalletCore (Transaction_new_signed 1 nonce wallet_network private_key to amount max_fee fee None));
  _ ← sr_lift (map_err WalletIo made);
  let tx_hash := hash_to_hex (tx_hash tx) in
  let path := path_join signed_tx_dir (tx_hash ++ ".json")%string in
  files ← sr_get;
  _ ← write_file o (<[path := TxMalformed "EOF while parsing"%string]> files) (<[path := TxJson tx]> files);
  mret {|
    stf_mode := (sw_status_label wallet ++ " / Prototype")%string;
    stf_network_id := sw_network_id wallet;
    stf_network_name := sw_network_name wallet;
    stf_status_label := sw_status_label wallet;
    stf_warning := "Saved signed transaction for local prototype use only. Submit it through the matching local RPC endpoint.";
    stf_tx_hash := tx_hash;
    stf_path := path;
    stf_transaction := tx |}.

Definition verify_tx (tx_file : string) (files : TxFiles) : WalletResult Transaction :=
  content ← ok_or (WalletIo "No such file or directory (os error 2)") (files !! tx_file);
  tx ← (match content with TxJson tx => Ok tx | TxMalformed text => Err (WalletJson text) end);
  _ ← map_err WalletCore (Transaction_verify tx);
  Ok tx.

Definition submit_tx `{JsonValue} {World} (send : HttpRequest Transaction → World → result string HttpAnswer * World)
    `{FromJson SdkSubmitTransactionResponse} (built : result string ()) (rpc_base_url tx_file : string)
    (files : TxFiles) : state_result World WalletError SubmittedTxResult :=
  tx ← sr_lift (verify_tx tx_file files);
  n ← sr_lift (map_err WalletCore (Transaction_network tx));
  response ← submit_signed_transaction send built rpc_base_url tx;
  mret {|
    str_network_id := network_id n;
    str_status := rsr_status response;
    str_tx_hash := rsr_tx_hash response;
    str_lifecycle_status := rsr_lifecycle_status response;
    str_mempool_size := rsr_mempool_size response;
    str_source_path := tx_file |}.

End wallet.
