(* ===== verification/WalletTheory.v ===== *)
(** What the wallet promises of a spend it signs from the local chain. *)

From S2P Require Import Prelude RustStd Interfaces Crypto Errors Network Amount Signing Address Transaction Block Consensus State Ledger Chain NodeConfig Storage Mempool Node NodeOps NodeTheory Seed Spend Pool Sdk SdkClient WalletStorage Wallet.

Lemma sr_lift_bind_Ok {S E A B} (r : result E A) (f : A → state_result S E B) s b s' :
  (sr_lift r ≫= f) s = (Ok b, s') ↔ ∃ a, r = Ok a ∧ f a s = (Ok b, s').
Proof.
  rewrite sr_lift_bind. destruct r as [a|e]; [|naive_solver].
  split; [intros Hf; by exists a | by intros (? & [= <-] & Hf)].
Qed.

Lemma if_lift_Err_Ok {S E A} (c : bool) (e : E) (m : state_result S E A) s a s' :
  (if c then sr_lift (Err e) else m) s = (Ok a, s') ↔ c = false ∧ m s = (Ok a, s').
Proof. destruct c; naive_solver. Qed.

(** ** The next nonce *)

Lemma max_nth_nonce m : foldl Z.max (nth_nonce 0) (nth_nonce <$> seq 1 m) = nth_nonce m.
Proof.
  induction m as [|m IH]; [done|]. rewrite seq_S, fmap_app, foldl_app, IH. simpl.
  unfold nth_nonce, umax. lia.
Qed.

Section theorems.
Context `{PrimitivesOk}.

(** The scan of the blocks and the ledger agree. *)
Lemma scan_next_nonce_eq n c a :
  chain_ok n c → few_transactions c → scan_next_nonce (ch_blocks c) a = next_nonce_of (ch_state c) a.
Proof.
  intros Hc Hfew. destruct (history_next_nonce _ _ a (co_history n c Hc)) as [Hs ->]. unfold scan_next_nonce.
  assert (length (nonces_of a (all_transactions (ch_blocks c))) <= length (all_transactions (ch_blocks c)))%nat as Hle.
  { unfold nonces_of. rewrite length_fmap. apply length_filter. }
  fold (all_transactions (ch_blocks c)). change (tx_nonce <$> filter (λ tx, tx_from tx = Some a) ?l)
    with (nonces_of a l). unfold few_transactions in Hfew.
  revert Hs Hle. generalize (length (nonces_of a (all_transactions (ch_blocks c)))). intros [|k] -> Hle; [done|].
  cbn [seq fmap list_fmap max_opt]. change (list_fmap _ _ nth_nonce (seq 1 k)) with (nth_nonce <$> seq 1 k).
  rewrite max_nth_nonce. unfold wrapping_add, uwrap, nth_nonce, umax in *. rewrite Z.mod_small; lia.
Qed.

(** Whether the second validation of the chain passes or not, the wallet uses the
    nonce the ledger expects. *)
Theorem wallet_next_account_nonce_spec n c clock a :
  chain_reachable n c → few_transactions c →
  wallet_next_account_nonce clock (ch_blocks c) a = next_nonce_of (ch_state c) a.
Proof.
  intros Hc Hfew. pose proof (chain_reachable_ok n c Hc) as Hok.
  pose proof (scan_next_nonce_eq n c a Hok Hfew) as Hscan. unfold wallet_next_account_nonce.
  destruct (head (ch_blocks c)) as [first|] eqn:Eh; [|done].
  assert (first ∈ ch_blocks c) as Hin by (destruct (ch_blocks c); [done | injection Eh as ->; by constructor]).
  unfold Block_network. rewrite (chain_network_text n c first Hc Hin), from_network_id_id. cbn [ok_or].
  destruct (from_blocks n (timed clock (ch_blocks c))) as [c'|e] eqn:Ef; [|done].
  by rewrite (from_blocks_same n clock c c' Hc Ef).
Qed.

(** ** The loaded chain *)

Lemma wallet_load_chain_stored n c path clock db c' :
  chain_reachable n c → ch_blocks c ≠ [] → stores db (ch_blocks c) →
  wallet_load_chain path clock db = Ok c' → c' = c.
Proof.
  intros Hc Hne Hst Hl. pose proof (load_stores path db _ false Hst Hne) as Hb.
  unfold wallet_load_chain in Hl. unfold load_blocks in Hl. rewrite Hb in Hl. cbn [map_err mbind result_bind] in Hl.
  apply bind_Ok in Hl as (first & Hf%ok_or_Ok & (m & Hm%map_err_Ok & Hl)%bind_Ok).
  assert (first ∈ ch_blocks c) as Hin by (destruct (ch_blocks c); [done | injection Hf as ->; by constructor]).
  unfold Block_network in Hm. rewrite (chain_network_text n c first Hc Hin), from_network_id_id in Hm.
  injection Hm as <-. apply (from_blocks_same n clock c c' Hc). unfold from_blocks.
  destruct (sr_each _ _ _) as [r c0]. apply bind_Ok in Hl as (u & Hu%map_err_Ok & [= <-]). by rewrite Hu.
Qed.

Context `{!WalletPrimitives} `{!WalletPrimitivesOk}.

(** ** Signing *)

(** C18. A signed spend file: the wallet's file of key [sk] on network [n] and the
    stored chain [c] give, when [sign_tx] succeeds, a file that [verify_tx]
    accepts and that holds the reported transaction: a payment from the wallet's
    address to the recipient, under its own hash, which a node with this chain
    and an empty pool takes, unless its id is already in the chain. *)
Theorem signed_file_taken env clock clock' made o wallet_dir file dir path db to amount fee files f files' n c sk w :
  chain_reachable n c → ch_blocks c ≠ [] → stores db (ch_blocks c) → few_transactions c →
  length sk = PrivateKey_SIZE → load_wallet wallet_dir file = Ok w → written_wallet n sk w →
  private_key_from_wallet env w = Ok sk → is_u32 (str_len to) →
  sign_tx env clock clock' made o wallet_dir file dir path db to amount fee files = (Ok f, files') →
  verify_tx (stf_path f) files' = Ok (stf_transaction f) ∧
  stf_tx_hash f = tx_hash_hex (stf_transaction f) ∧
  tx_from (stf_transaction f) = Some (sw_address w) ∧ tx_to (stf_transaction f) = to ∧
  parse_vire amount = Ok (tx_amount (stf_transaction f)) ∧
  ∀ t_admit t_cap t_evict t_push limit, 0 < limit →
    stf_tx_hash f ∉ applied_transaction_hashes (ch_state c) →
    submit_transaction t_admit t_cap t_evict t_push c limit (stf_transaction f) [] =
      (Ok {| sts_status := prototype_mode n; sts_tx_hash := stf_tx_hash f;
             sts_lifecycle_status := "pending"; sts_mempool_size := 1 |},
       [mkPending (stf_tx_hash f) t_push (stf_transaction f)]).
Proof.
  intros Hc Hne Hst Hfew Hsk Hload Hw Hkey Hto. unfold sign_tx.
  rewrite sr_lift_bind_Ok. intros (recipient & _ & Hs). rewrite sr_lift_bind_Ok in Hs.
  destruct Hs as (amt & Hamt%map_err_Ok & Hs). rewrite sr_lift_bind_Ok in Hs.
  destruct Hs as (tip & Htip%map_err_Ok & Hs). rewrite if_lift_Err_Ok, sr_lift_bind_Ok in Hs.
  destruct Hs as (_ & w' & Hw' & Hs). rewrite Hload in Hw'. injection Hw' as <-.
  rewrite sr_lift_bind_Ok, (ww_network _ _ _ Hw) in Hs. destruct Hs as (n' & [= <-] & Hs).
  rewrite if_lift_Err_Ok, sr_lift_bind_Ok, Hkey in Hs. destruct Hs as (_ & sk' & [= <-] & Hs).
  rewrite sr_lift_bind_Ok in Hs. destruct Hs as (c' & Hc'%(wallet_load_chain_stored n c) & Hs); [|done..]. subst c'.
  rewrite if_lift_Err_Ok in Hs. destruct Hs as [_ Hs]. cbv zeta in Hs. fold (anticipated c) in Hs.
  rewrite sr_lift_bind_Ok in Hs. destruct Hs as (x & [-> _]%map_err_Ok%amount_add_Ok & Hs).
  rewrite sr_lift_bind_Ok in Hs. destruct Hs as (y & [-> _]%map_err_Ok%amount_add_Ok & Hs).
  rewrite if_lift_Err_Ok, Z.ltb_ge in Hs. destruct Hs as [Hfunds Hs].
  rewrite sr_lift_bind_Ok in Hs. destruct Hs as (mf & [-> _]%map_err_Ok%amount_add_Ok & Hs).
  rewrite (wallet_next_account_nonce_spec n c clock' _ Hc Hfew), (ww_address _ _ _ Hw) in Hs.
  rewrite (ww_address _ _ _ Hw) in Hfunds |- *.
  set (sender := Address_to_string (from_public_key_for_network (PrivateKey_public_key sk) n)) in *.
  rewrite sr_lift_bind_Ok in Hs. destruct Hs as (tx & Htx%map_err_Ok & Hs).
  rewrite sr_lift_bind_Ok in Hs. destruct Hs as (u & _ & Hs). rewrite sr_get_bind in Hs.
  unfold mbind, state_result_bind, write_file in Hs. destruct o; [done..|]. injection Hs as <- <-.
  cbn [stf_path stf_transaction stf_tx_hash].
  destruct (new_signed_verified _ _ _ _ _ _ _ _ _ _ Hsk Htx) as [Hv _].
  destruct (new_signed_Ok _ _ _ _ _ _ _ _ _ _ Hsk Htx) as [Heq _].
  pose proof (parse_vire_bounded _ _ Hamt). pose proof (parse_vire_bounded _ _ Htip).
  split_and!; try (by rewrite Heq).
  - unfold verify_tx. rewrite lookup_insert_eq. cbn [ok_or mbind result_bind]. by rewrite Hv.
  - intros t1 t2 t3 t4 limit Hlim Hfresh.
    apply (signed_spend_taken _ _ _ _ n c limit sk to amt (anticipated c + tip) tip tx); try done; try lia.
    fold sender. lia.
Qed.

Context `{!SeedPrimitives} `{!SeedPrimitivesOk}.

(** ** Restoring *)

(** The phrase [create_wallet] shows once restores the wallet: importing it on the
    same network and path, anywhere, gives a wallet of the same address and
    public key. *)
Theorem created_wallet_restores env salt nonce made o drawn n word_count p old cw file
    env' salt' nonce' made' o' old' w' file' :
  create_wallet env salt nonce made o drawn n word_count p old = (Ok cw, file) →
  import_mnemonic_wallet env' salt' nonce' made' o' (cw_mnemonic cw) "" n p old' = (Ok w', file') →
  sw_address w' = cw_address cw ∧ sw_public_key_hex w' = cw_public_key_hex cw ∧
  sw_network_id w' = cw_network_id cw ∧ sw_derivation_path w' = Some (cw_derivation_path cw).
Proof.
  unfold create_wallet. rewrite sr_lift_bind_Ok. intros (phrase & _ & Hc). rewrite sr_lift_bind_Ok in Hc.
  destruct Hc as (sk & Hsk & Hc). apply sr_bind_Ok in Hc as (w & file1 & Hw & [= <- <-]).
  unfold import_mnemonic_wallet. cbn [cw_mnemonic]. rewrite Hsk, sr_lift_bind. intros Hw'.
  assert (∀ env salt nonce made o origin old w file,
    write_wallet_with_metadata env salt nonce made o sk n origin (Some (path_to_string p))
      (Some (ws_standard_id launch_wallet_seed_standard)) (Some (kd_policy_id launch_key_derivation_policy)) old
      = (Ok w, file) →
    sw_address w = Address_to_string (from_public_key_for_network (PrivateKey_public_key sk) n) ∧
    sw_public_key_hex w = bytes_to_hex (PrivateKey_public_key sk) ∧ sw_network_id w = network_id n ∧
    sw_derivation_path w = Some (path_to_string p)) as Hgen.
  { clear. intros env salt nonce made o origin old w file. unfold write_wallet_with_metadata,
      write_wallet_with_metadata_passphrase. cbv zeta. rewrite sr_lift_bind_Ok. intros (u & _ & Hs).
    rewrite sr_lift_bind_Ok in Hs. destruct Hs as ([[[schema hex] enc] warning] & _ & Hs).
    apply sr_bind_Ok in Hs as (v & file1 & _ & [= <- _]). done. }
  apply Hgen in Hw as (-> & -> & -> & _). apply Hgen in Hw' as (-> & -> & -> & ->). done.
Qed.

End theorems.
