(* ===== verification/HostProtocol.v ===== *)
(** [vireon-browser/host/src/keystore.rs], [native_messaging.rs], [protocol.rs] and
    the command line's own decisions in [main.rs]: the encrypted wallet file of the
    browser host, the frames the browser exchanges with the host, the requests the
    host answers, and its health check.  The crate's encryption is that of the wallet
    (the same Argon2id, AES-256-GCM and Base64 crates and parameters), with texts as
    errors.  A [serde_json::Value] is its tree; the conversions between it and other
    types, the RPC server's answers, the confirmation dialog, random bytes (salt and
    nonce) and file outcomes are arguments. *)

From S2P Require Import Prelude RustStd Interfaces Crypto Errors Network Amount Signing Address Transaction NodeConfig WalletStorage Seed Sdk SdkClient.

Abbreviation host A := (result string A).

Definition HOST_SCHEMA_ENCRYPTED_V1 : string := "vireon-browser-host-encrypted-v1".
Definition DEFAULT_KEYSTORE_FILE : string := "browser-host-wallet.json".

(** [struct StoredHostWallet] *)
Record StoredHostWallet := mkHostWallet {
  hw_schema : string;
  hw_network_id : string;
  hw_network_name : string;
  hw_status_label : string;
  hw_address : string;
  hw_public_key_hex : string;
  hw_encrypted : EncryptedSecret;
  hw_derivation_path : option string;
  hw_warning : string;
}.

(** [struct PublicWalletView] *)
Record PublicWalletView := mkView {
  pw_network_id : string;
  pw_network_name : string;
  pw_status_label : string;
  pw_address : string;
  pw_public_key_hex : string;
  pw_derivation_path : option string;
  pw_keystore_path : string;
  pw_schema : string;
}.

Definition public_view (path : string) (w : StoredHostWallet) : PublicWalletView :=
  mkView (hw_network_id w) (hw_network_name w) (hw_status_label w) (hw_address w) (hw_public_key_hex w)
    (hw_derivation_path w) path (hw_schema w).

(** The keystore's place on disk. *)
Inductive KeystoreFile :=
| KeystoreAbsent
| KeystoreUnreadable (text : string)
| KeystoreMalformed (text : string)
| KeystoreJson (w : StoredHostWallet).

Definition default_keystore_dir (home : option string) (n : Network) : host string :=
  home ← ok_or "home directory unavailable"%string home;
  Ok (path_join (path_join (path_join home (default_data_root n)) "browser-host") "wallets").
Definition keystore_path (dir : string) : string := path_join dir DEFAULT_KEYSTORE_FILE.
Definition keystore_exists (file : KeystoreFile) : bool := match file with KeystoreAbsent => false | _ => true end.

Definition load_stored (dir : string) (file : KeystoreFile) : host StoredHostWallet :=
  match file with
  | KeystoreAbsent => Err ("keystore not found at " ++ keystore_path dir)%string
  | KeystoreUnreadable text | KeystoreMalformed text => Err text
  | KeystoreJson w => Ok w
  end.
Definition export_public (dir : string) (file : KeystoreFile) : host PublicWalletView :=
  stored ← load_stored dir file;
  Ok (public_view (keystore_path dir) stored).

Definition validate_passphrase (passphrase : string) : host () :=
  if str_len (str_trim passphrase) <? 8 then Err "passphrase must be at least 8 characters"%string else Ok ().

Section keystore.
Context `{Primitives} `{WalletPrimitives}.

Definition host_derive_key (passphrase : string) (salt : bytes) : host bytes :=
  map_err (λ e, "argon2 derive failed: " ++ e)%string (argon2id (str_bytes passphrase) salt).

Definition host_encrypt_secret (salt nonce : bytes) (passphrase : string) (plaintext : bytes) : host EncryptedSecret :=
  key ← host_derive_key passphrase salt;
  ciphertext ← ok_or "encryption failed"%string (aes256gcm_encrypt key nonce plaintext);
  Ok (mkSecret "argon2id" (b64_encode salt) (b64_encode nonce) (b64_encode ciphertext)).

Definition host_decrypt_secret (passphrase : string) (secret : EncryptedSecret) : host bytes :=
  if negb (bool_decide (es_kdf secret = "argon2id"%string)) then Err ("unsupported kdf " ++ es_kdf secret)%string else
  salt ← map_err (λ e, "salt: " ++ e)%string (b64_decode (es_salt_b64 secret));
  nonce ← map_err (λ e, "nonce: " ++ e)%string (b64_decode (es_nonce_b64 secret));
  ciphertext ← map_err (λ e, "ciphertext: " ++ e)%string (b64_decode (es_ciphertext_b64 secret));
  if negb (bool_decide (length nonce = 12%nat)) then Err "invalid nonce length"%string else
  key ← host_derive_key passphrase salt;
  ok_or "decryption failed (wrong passphrase?)"%string (aes256gcm_decrypt key nonce ciphertext).

(** [write_stored]: [made] is the outcome of creating the directory, [o] that of
    writing the file. *)
Definition write_stored (made : host ()) (o : WriteOutcome) (stored : StoredHostWallet) :
    state_result KeystoreFile string () := λ file,
  match made with
  | Err e => (Err e, file)
  | Ok _ =>
      match o with
      | WriteRefused text => (Err text, file)
      | WriteTorn text => (Err text, KeystoreMalformed "EOF while parsing"%string)
      | Written => (Ok (), KeystoreJson stored)
      end
  end.

Definition stored_from_account (salt nonce : bytes) (n : Network) (passphrase : string) (account : WalletAccount) :
    host StoredHostWallet :=
  _ ← validate_passphrase passphrase;
  encrypted ← host_encrypt_secret salt nonce passphrase (str_bytes (bytes_to_hex (wa_private_key account)));
  Ok (mkHostWallet HOST_SCHEMA_ENCRYPTED_V1 (network_id n) (human_name n) (status_label n)
    (Address_to_string (wa_address account)) (bytes_to_hex (PrivateKey_public_key (wa_private_key account))) encrypted
    (wa_derivation_path account)
    "Encrypted browser-host wallet (AES-256-GCM + Argon2id). Private key is never stored in plaintext and is never returned to the extension. Mnemonic recovery is CLI-only.").

(** A new keystore, when there is none. *)
Definition create_encrypted_wallet (salt nonce : bytes) (made : host ()) (o : WriteOutcome) (dir : string) (n : Network)
    (passphrase : string) (account : WalletAccount) : state_result KeystoreFile string StoredHostWallet :=
  file ← sr_get;
  if keystore_exists file
  then sr_lift (Err ("keystore already exists at " ++ keystore_path dir ++ "; delete_wallet first or unlock")%string) else
  stored ← sr_lift (stored_from_account salt nonce n passphrase account);
  _ ← write_stored made o stored;
  mret stored.

Definition unlock_wallet (dir : string) (n : Network) (passphrase : string) (file : KeystoreFile) : host WalletAccount :=
  stored ← load_stored dir file;
  if negb (bool_decide (hw_network_id stored = network_id n))
  then Err ("keystore network " ++ hw_network_id stored ++ " does not match host network " ++ network_id n)%string else
  plain ← host_decrypt_secret passphrase (hw_encrypted stored);
  hex ← ok_or "decrypted key is not utf8"%string (from_utf8 plain);
  private_key ← map_err VireonError_fmt (PrivateKey_from_hex hex);
  account ← map_err SdkError_fmt (account_from_private_key n private_key (hw_derivation_path stored));
  if negb (bool_decide (Address_to_string (wa_address account) = hw_address stored))
  then Err "unlocked address does not match keystore metadata"%string else
  _ ← map_err VireonError_fmt (Address_parse (hw_address stored));
  Ok account.

(** The same key under a new passphrase. *)
Definition change_passphrase (salt nonce : bytes) (made : host ()) (o : WriteOutcome) (dir : string) (n : Network)
    (old_passphrase new_passphrase : string) : state_result KeystoreFile string PublicWalletView :=
  _ ← sr_lift (validate_passphrase new_passphrase);
  file ← sr_get;
  account ← sr_lift (unlock_wallet dir n old_passphrase file);
  stored ← sr_lift (stored_from_account salt nonce n new_passphrase account);
  _ ← write_stored made o stored;
  mret (public_view (keystore_path dir) stored).

(** [removed]: the outcome of removing the file. *)
Definition delete_wallet (removed : host ()) (dir : string) (n : Network) (passphrase : string) :
    state_result KeystoreFile string () :=
  file ← sr_get;
  _ ← sr_lift (unlock_wallet dir n passphrase file);
  match removed with
  | Ok _ => sr_modify (λ _, KeystoreAbsent)
  | Err e => sr_lift (Err ("failed to remove " ++ keystore_path dir ++ ": " ++ e)%string)
  end.

End keystore.

(** ** JSON *)

(** [serde_json::to_value]. *)
Class ToJson (T : Type) := to_value : T → result string JsonTree.

Definition JOptString (o : option string) : JsonTree := match o with Some s => JString s | None => JNull end.

(** ** Frames ([native_messaging.rs]) *)

Definition MAX_FRAME : Z := 1024 * 1024.

(** [read_exact]: the first [n] bytes of the input, or the end of the file. *)
Definition read_exact (n : nat) (input : bytes) : option (bytes * bytes) :=
  if (n <=? length input)%nat then Some (take n input, drop n input) else None.

(** [read_message]; the rest of the input is dropped with an error, since the
    host stops reading then. *)
Definition read_message {T} (from_slice : bytes → result string T) (input : bytes) : result string (option (T * bytes)) :=
  match read_exact 4 input with
  | None => Ok None
  | Some (len_buf, input) =>
      let len := le_value len_buf in
      if len =? 0 then Ok None else
      if len >? MAX_FRAME then Err ("native messaging payload too large: " ++ uint_to_string len ++ " bytes")%string else
      '(body, input) ← ok_or "failed to fill whole buffer"%string (read_exact (Z.to_nat len) input);
      value ← map_err (λ e, "invalid native messaging JSON: " ++ e)%string (from_slice body);
      Ok (Some (value, input))
  end.

(** [write_message]: what is appended to the output. *)
Definition write_message {T} (to_vec : T → result string bytes) (value : T) : result string bytes :=
  body ← map_err (λ e, "serialize native messaging JSON: " ++ e)%string (to_vec value);
  let len := Z.of_nat (length body) in
  if len >? umax 32 then Err "native messaging payload exceeds u32 length"%string else
  Ok (le_bytes 4 (uwrap 32 len) ++ body).

(** [run_native_messaging]: the answers written until the input ends, a frame is
    bad or an answer cannot be written. *)
Fixpoint serve {S Q R} (from_slice : bytes → result string Q) (to_vec : R → result string bytes) (handle : Q → S → R * S)
    (fuel : nat) (input output : bytes) (s : S) : bytes * S :=
  match fuel with
  | O => (output, s)
  | S fuel =>
      match read_message from_slice input with
      | Ok (Some (request, input)) =>
          let '(response, s) := handle request s in
          match write_message to_vec response with
          | Ok frame => serve from_slice to_vec handle fuel input (output ++ frame) s
          | Err _ => (output, s)
          end
      | _ => (output, s)
      end
  end.

(** [run_jsonl]: one request per line, blank lines skipped; a line that is no request
    is answered with the text of the error, and the host goes on. *)
Definition invalid_request (error : string) : string :=
  let q := str_of_bytes [byte_of_Z 34] in
  ("{" ++ q ++ "id" ++ q ++ ":null," ++ q ++ "ok" ++ q ++ ":false," ++ q ++ "error" ++ q ++ ":" ++ q ++ "invalid request: " ++ error ++ q ++ "}")%string.
Fixpoint serve_lines {S Q R} (from_str : string → result string Q) (to_text : R → result string string) (handle : Q → S → R * S)
    (lines output : list string) (s : S) : list string * S :=
  match lines with
  | [] => (output, s)
  | line :: lines =>
      let trimmed := str_trim line in
      if str_is_empty trimmed then serve_lines from_str to_text handle lines output s else
      match from_str trimmed with
      | Ok request =>
          let '(response, s) := handle request s in
          match to_text response with
          | Ok text => serve_lines from_str to_text handle lines (output ++ [text]) s
          | Err _ => (output, s)
          end
      | Err error => serve_lines from_str to_text handle lines (output ++ [invalid_request error]) s
      end
  end.

(** ** Requests ([protocol.rs]) *)

(** [struct Request], [struct Response] *)
Record Request := mkRequestOf { rq_id : JsonTree; rq_method : string; rq_params : JsonTree }.
Record Response := mkResponseOf { rs_id : JsonTree; rs_ok : bool; rs_result : option JsonTree; rs_error : option string }.
Definition Response_ok (id result : JsonTree) : Response := mkResponseOf id true (Some result) None.
Definition Response_err (id : JsonTree) (error : string) : Response := mkResponseOf id false None (Some error).
Definition respond (id : JsonTree) (r : result string JsonTree) : Response :=
  match r with Ok v => Response_ok id v | Err e => Response_err id e end.

(** The RPC server's answers during a request. *)
Record HostRpc := {
  hc_status : SdkResult SdkStatusResponse;
  hc_tip : SdkResult SdkChainTipResponse;
  hc_sync_status : SdkResult SdkSyncStatusResponse;
  hc_mempool_status : SdkResult SdkMempoolStatusResponse;
  hc_supply : SdkResult SdkSupplyResponse;
  hc_block_latest : SdkResult SdkBlockResponse;
  hc_block_by_height : Z → SdkResult SdkBlockResponse;
  hc_block_by_hash : string → SdkResult SdkBlockResponse;
  hc_recent_blocks : Z → SdkResult (list SdkBlockResponse);
  hc_transaction : string → SdkResult SdkTransactionResponse;
  hc_indexer_status : SdkResult SdkIndexerStatusResponse;
  hc_indexer_summary : SdkResult SdkIndexerSummaryResponse;
  hc_indexer_block_latest : SdkResult SdkIndexedBlockResponse;
  hc_indexer_address : string → SdkResult SdkIndexedAddressResponse;
  hc_balance : string → SdkResult SdkAddressBalanceResponse;
  hc_account : string → SdkResult SdkAddressAccountResponse;
  hc_submit : Transaction → SdkResult SdkSubmitTransactionResponse;
}.

(** What a request meets: the server, the dialog's answer to a summary (or the
    environment's), the words drawn, salt and nonce, and the file's outcomes. *)
Record HostEnv `{SeedPrimitives} := {
  he_rpc : HostRpc;
  he_confirm : string → host ();
  he_drawn : Z → result string Mnemonic;
  he_salt : bytes;
  he_nonce : bytes;
  he_made : host ();
  he_written : WriteOutcome;
  he_removed : host ();
}.

(** The state of [HostState] that requests change, the keystore file, and the
    transfers signed, each with the summary that was to be confirmed. *)
Record HostState := mkHost {
  hs_session : option WalletAccount;
  hs_file : KeystoreFile;
  hs_signed : list (string * SignedTransfer);
}.
Definition set_session (a : option WalletAccount) (s : HostState) : HostState := mkHost a (hs_file s) (hs_signed s).
Definition set_file (f : KeystoreFile) (s : HostState) : HostState := mkHost (hs_session s) f (hs_signed s).
Definition note_signed (summary : string) (t : SignedTransfer) (s : HostState) : HostState :=
  mkHost (hs_session s) (hs_file s) (hs_signed s ++ [(summary, t)]).

(** [confirm_send] *)
Definition confirm_send (require_os_confirm : bool) (confirm : string → host ()) (summary : string) : host () :=
  if negb require_os_confirm then Ok () else confirm summary.

Definition require_passphrase (params : JsonTree) : host string :=
  let passphrase := default ""%string (json_get "passphrase" params ≫= as_str) in
  if str_is_empty passphrase then Err "params.passphrase is required"%string else Ok passphrase.

(** The texts of a transfer's summary. *)
Definition shown_to (params : JsonTree) : string := default "(missing to)"%string (json_get "to" params ≫= as_str).
Definition shown_amount (params : JsonTree) : string :=
  match json_get "amount_vire" params ≫= as_str with
  | Some s => s
  | None =>
      match json_get "amount_atomic" params ≫= as_u64 with
      | Some n => (uint_to_string n ++ " atomic")%string
      | None => "(missing amount)"%string
      end
  end.
Definition transfer_summary (from to amount url : string) : string :=
  ("Confirm Vireon transfer (Mainnet Candidate)" ++ NEWLINE ++ NEWLINE ++ "From: " ++ from ++ NEWLINE ++ "To: " ++ to ++ NEWLINE
     ++ "Amount: " ++ amount ++ NEWLINE ++ "RPC: " ++ url ++ NEWLINE ++ NEWLINE ++ "Press OK to sign/submit, Cancel to abort.")%string.

(** The amount that is signed: [amount_atomic] first. *)
Definition signed_amount (params : JsonTree) : host Amount :=
  match json_get "amount_atomic" params ≫= as_u64 with
  | Some atomic => Ok atomic
  | None =>
      match json_get "amount_vire" params ≫= as_str with
      | Some vire => map_err VireonError_fmt (parse_vire vire)
      | None => Err "params.amount_atomic or params.amount_vire is required"%string
      end
  end.
Definition signed_priority_fee (params : JsonTree) : host Amount :=
  match json_get "priority_fee_atomic" params ≫= as_u64 with
  | Some atomic => Ok atomic
  | None =>
      match json_get "priority_fee_vire" params ≫= as_str with
      | Some vire => map_err VireonError_fmt (parse_vire vire)
      | None => Ok 1
      end
  end.

Section host.
Context `{Primitives} `{SeedPrimitives} `{WalletPrimitives}.
Context `{ToJson SdkStatusResponse} `{ToJson SdkSyncStatusResponse} `{ToJson SdkMempoolStatusResponse} `{ToJson SdkSupplyResponse}
  `{ToJson SdkBlockResponse} `{ToJson (list SdkBlockResponse)} `{ToJson SdkTransactionResponse} `{ToJson SdkIndexerStatusResponse}
  `{ToJson SdkIndexerSummaryResponse} `{ToJson SdkIndexedBlockResponse} `{ToJson SdkIndexedAddressResponse}
  `{ToJson SdkAddressBalanceResponse} `{ToJson SdkAddressAccountResponse} `{ToJson SdkSubmitTransactionResponse}.
(** The JSON of a transaction, and the transaction of a JSON value. *)
Context (json_of_tx : Transaction → JsonTree) (tx_of_json : JsonTree → result string Transaction).
(** The host: version of the package, configuration, directory, confirmation. *)
Context (version : string) (config : SdkConfig) (keystore_dir : string) (require_os_confirm : bool).

Abbreviation network := (sc_network config).
Definition address_string (a : WalletAccount) : string := Address_to_string (wa_address a).

Definition sdk_text {A} (r : SdkResult A) : host A := map_err SdkError_fmt r.
(** A server's answer passed on. *)
Definition forward {T} `{ToJson T} (r : SdkResult T) : host JsonTree := v ← sdk_text r; to_value v.

Definition prepare_signed (rpc : HostRpc) (account : WalletAccount) (params : JsonTree) : host SignedTransfer :=
  to ← ok_or "params.to is required"%string (json_get "to" params ≫= as_str);
  amount ← signed_amount params;
  priority_fee ← signed_priority_fee params;
  snapshot ← sdk_text (hc_account rpc (address_string account));
  let base_fee := Z.max (sar_anticipated_base_fee_atomic snapshot) 1 in
  with_base ← map_err VireonError_fmt (amount_checked_add amount base_fee);
  required ← map_err VireonError_fmt (amount_checked_add with_base priority_fee);
  if sar_balance_atomic snapshot <? required
  then Err ("insufficient balance: have " ++ uint_to_string (sar_balance_atomic snapshot) ++ " atomic, need at least "
         ++ uint_to_string required ++ " atomic (amount+fees). 1 VIRE = " ++ uint_to_string ATOMIC_UNITS_PER_VIRE ++ " atomic")%string else
  b ← sdk_text (builder_to to (TransferBuilder_new network));
  b ← sdk_text (builder_amount amount b);
  b ← sdk_text (builder_fees base_fee priority_fee (builder_nonce (sar_next_nonce snapshot) b));
  sdk_text (builder_sign account b).

Definition transfer_summary_of (account : WalletAccount) (params : JsonTree) : string :=
  transfer_summary (address_string account) (shown_to params) (shown_amount params) (sc_rpc_base_url config).
Definition maybe_confirm_send (confirm : string → host ()) (account : WalletAccount) (params : JsonTree) : host () :=
  confirm_send require_os_confirm confirm (transfer_summary_of account params).

Abbreviation handler A := (HostState → A * HostState).

(** A request for a session: its account, or the refusal. *)
Definition with_session (id : JsonTree) (f : WalletAccount → state_result HostState string JsonTree) : handler Response := λ s,
  match hs_session s with
  | Some account => let '(r, s) := f account s in (respond id r, s)
  | None => (Response_err id "session locked; call unlock or create_wallet first", s)
  end.
Definition on_file {A} (m : state_result KeystoreFile string A) : state_result HostState string A := λ s,
  let '(r, file) := m (hs_file s) in (r, set_file file s).

(** Confirmed and signed. *)
Definition confirm_and_sign (env : HostEnv) (params : JsonTree) (account : WalletAccount) : state_result HostState string SignedTransfer :=
  _ ← sr_lift (maybe_confirm_send (he_confirm env) account params);
  signed ← sr_lift (prepare_signed (he_rpc env) account params);
  _ ← sr_modify (note_signed (transfer_summary_of account params) signed);
  mret signed.

(** The methods that change the host. *)
Definition host_create_wallet (env : HostEnv) (id params : JsonTree) : state_result HostState string JsonTree :=
  passphrase ← sr_lift (require_passphrase params);
  s ← sr_get;
  if keystore_exists (hs_file s)
  then sr_lift (Err "keystore already exists; unlock it or remove the file manually"%string) else
  '(account, _) ← sr_lift (sdk_text (account_generate (he_drawn env) network Twelve));
  stored ← on_file (create_encrypted_wallet (he_salt env) (he_nonce env) (he_made env) (he_written env) keystore_dir network passphrase account);
  _ ← sr_modify (set_session (Some account));
  mret (JObject [("address", JString (hw_address stored)); ("path", JString (keystore_path keystore_dir)); ("unlocked", JBool true);
    ("session_address", JString (address_string account));
    ("warning", JString "Encrypted keystore created on disk. Mnemonic is NOT returned here. Prefer host CLI --init-wallet so you can write down the recovery phrase once.")]%string).

Definition json_of_view (v : PublicWalletView) : list (string * JsonTree) :=
  [("network_id", JString (pw_network_id v)); ("network_name", JString (pw_network_name v)); ("status_label", JString (pw_status_label v));
   ("address", JString (pw_address v)); ("public_key_hex", JString (pw_public_key_hex v));
   ("derivation_path", JOptString (pw_derivation_path v)); ("keystore_path", JString (pw_keystore_path v)); ("schema", JString (pw_schema v))]%string.

Definition host_change_passphrase (env : HostEnv) (params : JsonTree) : state_result HostState string JsonTree :=
  let old_passphrase := default ""%string (json_get "old_passphrase" params ≫= as_str) in
  let new_passphrase := default ""%string (json_get "new_passphrase" params ≫= as_str) in
  if str_is_empty old_passphrase || str_is_empty new_passphrase
  then sr_lift (Err "params.old_passphrase and params.new_passphrase are required"%string) else
  view ← on_file (change_passphrase (he_salt env) (he_nonce env) (he_made env) (he_written env) keystore_dir network old_passphrase new_passphrase);
  _ ← sr_modify (set_session None);
  mret (JObject (json_of_view view ++ [("unlocked", JBool false);
    ("warning", JString "Passphrase changed. Session locked; unlock with the new passphrase.")]%string)).

Definition host_delete_wallet (env : HostEnv) (params : JsonTree) : state_result HostState string JsonTree :=
  passphrase ← sr_lift (require_passphrase params);
  _ ← on_file (delete_wallet (he_removed env) keystore_dir network passphrase);
  _ ← sr_modify (set_session None);
  mret (JObject [("deleted", JBool true); ("warning", JString
    "Keystore file removed. Recovery requires a mnemonic backed up via host CLI --init-wallet / --import-mnemonic.")]%string).

Definition host_unlock (params : JsonTree) : state_result HostState string JsonTree :=
  passphrase ← sr_lift (require_passphrase params);
  s ← sr_get;
  account ← sr_lift (unlock_wallet keystore_dir network passphrase (hs_file s));
  _ ← sr_modify (set_session (Some account));
  mret (JObject [("unlocked", JBool true); ("address", JString (address_string account))]%string).

Definition create_session (env : HostEnv) : state_result HostState string JsonTree :=
  '(account, _) ← sr_lift (sdk_text (account_generate (he_drawn env) network Twelve));
  _ ← sr_modify (set_session (Some account));
  mret (JObject [("address", JString (address_string account));
    ("warning", JString "Ephemeral RAM session only -- not persisted. Prefer create_wallet.")]%string).

Definition prepare_and_sign (env : HostEnv) (params : JsonTree) (account : WalletAccount) : state_result HostState string JsonTree :=
  signed ← confirm_and_sign env params account;
  mret (JObject [("tx_hash", JString (st_tx_hash signed)); ("transaction", json_of_tx (st_transaction signed));
    ("network_id", JString (sdk_network_id config)); ("status_label", JString (sdk_status_label config))]%string).

Definition host_send (env : HostEnv) (params : JsonTree) (account : WalletAccount) : state_result HostState string JsonTree :=
  signed ← confirm_and_sign env params account;
  submit ← sr_lift (forward (hc_submit (he_rpc env) (st_transaction signed)));
  mret (JObject [("tx_hash", JString (st_tx_hash signed)); ("submit", submit);
    ("network_id", JString (sdk_network_id config)); ("status_label", JString (sdk_status_label config))]%string).

(** The methods that only report. *)
Definition keystore_status (s : HostState) : JsonTree :=
  let exists_ := keystore_exists (hs_file s) in
  let public := match load_stored keystore_dir (hs_file s) with
    | Ok w => if exists_ then JObject [("address", JString (hw_address w)); ("network_id", JString (hw_network_id w));
        ("status_label", JString (hw_status_label w))]%string else JNull
    | Err _ => JNull
    end in
  JObject [("exists", JBool exists_); ("path", JString (keystore_path keystore_dir)); ("unlocked", JBool (is_some (hs_session s)));
    ("session_address", JOptString (address_string <$> hs_session s)); ("public", public);
    ("warning", JString "Passphrase crosses native messaging briefly; mnemonic never leaves the host.")]%string.
Definition session_status (s : HostState) : JsonTree :=
  JObject [("unlocked", JBool (is_some (hs_session s))); ("address", JOptString (address_string <$> hs_session s));
    ("keystore_exists", JBool (keystore_exists (hs_file s)));
    ("warning", JString "Unlocked session is in host RAM only until lock/clear.")]%string.

(** A parameter that must be a nonempty text. *)
Definition required_hash (params : JsonTree) : host string :=
  let hash := default ""%string (json_get "hash" params ≫= as_str) in
  if str_is_empty hash then Err "params.hash is required"%string else Ok hash.

Definition report (rpc : HostRpc) (method : string) (params : JsonTree) (s : HostState) : option (host JsonTree) :=
  if bool_decide (method = "ping") then Some (Ok (JObject [("service", JString "vireon-browser-host"); ("version", JString version);
    ("status", JString "Mainnet Candidate / Prototype")]))
  else if bool_decide (method = "network_info") then Some (Ok (JObject [("network_id", JString (sdk_network_id config));
    ("status_label", JString (sdk_status_label config)); ("address_prefix", JString (sdk_address_prefix config));
    ("rpc_base_url", JString (sc_rpc_base_url config))]))
  else if bool_decide (method = "keystore_status") then Some (Ok (keystore_status s))
  else if bool_decide (method = "session_status") then Some (Ok (session_status s))
  else if bool_decide (method = "export_public") then
    Some (view ← export_public keystore_dir (hs_file s); Ok (JObject (json_of_view view)))
  else if bool_decide (method = "rpc_status") then Some (forward (hc_status rpc))
  else if bool_decide (method = "sync_status") then Some (forward (hc_sync_status rpc))
  else if bool_decide (method = "mempool_status") then Some (forward (hc_mempool_status rpc))
  else if bool_decide (method = "supply") then Some (forward (hc_supply rpc))
  else if bool_decide (method = "block_latest") then Some (forward (hc_block_latest rpc))
  else if bool_decide (method = "block_by_height") then
    Some (height ← ok_or "params.height is required" (json_get "height" params ≫= as_u64); forward (hc_block_by_height rpc height))
  else if bool_decide (method = "block_by_hash") then Some (hash ← required_hash params; forward (hc_block_by_hash rpc hash))
  else if bool_decide (method = "recent_blocks") then
    Some (forward (hc_recent_blocks rpc (default 5 (json_get "count" params ≫= as_u64))))
  else if bool_decide (method = "transaction_by_hash") then Some (hash ← required_hash params; forward (hc_transaction rpc hash))
  else if bool_decide (method = "indexer_status") then Some (forward (hc_indexer_status rpc))
  else if bool_decide (method = "indexer_summary") then Some (forward (hc_indexer_summary rpc))
  else if bool_decide (method = "indexer_block_latest") then Some (forward (hc_indexer_block_latest rpc))
  else if bool_decide (method = "indexer_address") then
    let address := match json_get "address" params ≫= as_str with Some a => Some a | None => address_string <$> hs_session s end in
    Some (match address with
          | Some a => if str_is_empty a then Err "params.address is required (or unlock a session wallet)" else forward (hc_indexer_address rpc a)
          | None => Err "params.address is required (or unlock a session wallet)"
          end)
  else if bool_decide (method = "submit") then
    Some (value ← ok_or "params.transaction is required" (json_get "transaction" params); tx ← tx_of_json value; forward (hc_submit rpc tx))
  else None.

(** [HostState::handle] *)
Definition handle (env : HostEnv) (r : Request) : handler Response := λ s,
  let id := rq_id r in let params := rq_params r in let method := rq_method r in
  let answer (m : state_result HostState string JsonTree) : Response * HostState := let '(v, s) := m s in (respond id v, s) in
  match report (he_rpc env) method params s with
  | Some v => (respond id v, s)
  | None =>
      if bool_decide (method = "create_wallet") then answer (host_create_wallet env id params)
      else if bool_decide (method = "change_passphrase") then answer (host_change_passphrase env params)
      else if bool_decide (method = "delete_wallet") then answer (host_delete_wallet env params)
      else if bool_decide (method = "unlock") then answer (host_unlock params)
      else if bool_decide (method = "lock") then (Response_ok id (JObject [("unlocked", JBool false)]), set_session None s)
      else if bool_decide (method = "create_session") then answer (create_session env)
      else if bool_decide (method = "clear_session") then (Response_ok id (JObject [("cleared", JBool true)]), set_session None s)
      else if bool_decide (method = "balance") then
        with_session id (λ account, sr_lift (forward (hc_balance (he_rpc env) (address_string account)))) s
      else if bool_decide (method = "account") then
        with_session id (λ account, sr_lift (forward (hc_account (he_rpc env) (address_string account)))) s
      else if bool_decide (method = "prepare_and_sign") then with_session id (prepare_and_sign env params) s
      else if bool_decide (method = "send") then with_session id (host_send env params) s
      else (Response_err id ("unknown method: " ++ method), s)
  end%string.

End host.
