(* ===== verification/HostCli.v ===== *)
(** [vireon-browser/host/src/main.rs] and [default_config_from_args] of
    [protocol.rs]: what the host's command line decides: its configuration,
    passphrases, recovery commands and the health check.  Environment variables,
    the home directory and the RPC answers are arguments. *)

From S2P Require Import Prelude RustStd Interfaces Crypto Errors Network Amount Signing Address Transaction NodeConfig WalletStorage Seed Sdk SdkClient HostProtocol.

(** ** Arguments *)

(** [arg_value]: the argument after the first occurrence of a flag that has one. *)
Fixpoint arg_value (args : list string) (flag : string) : option string :=
  match args with
  | a :: (b :: _) as rest => if bool_decide (a = flag) then Some b else arg_value rest flag
  | _ => None
  end.
Definition has_flag (args : list string) (flag : string) : bool := existsb (λ a, bool_decide (a = flag)) args.

(** The loop of [default_config_from_args]: the last [--rpc], and [--local]. *)
Fixpoint config_args (args : list string) (rpc : option string) (local : bool) : option string * bool :=
  match args with
  | [] => (rpc, local)
  | a :: rest =>
      if bool_decide (a = "--rpc"%string) then
        match rest with
        | url :: rest => config_args rest (Some url) local
        | [] => (rpc, local)
        end
      else if bool_decide (a = "--local"%string) then config_args rest rpc true
      else config_args rest rpc local
  end.
Definition default_config_from_args (args : list string) : SdkConfig :=
  match config_args args None false with
  | (Some url, _) => with_rpc MainnetCandidate url
  | (None, true) => mainnet_candidate_local
  | (None, false) => mainnet_candidate
  end.

Definition resolve_keystore_dir (args : list string) (home : option string) (n : Network) : string :=
  match arg_value args "--keystore-dir" with
  | Some dir => dir
  | None => unwrap_or "."%string (default_keystore_dir home n)
  end.

(** [env]: the environment variable's value. *)
Definition require_cli_passphrase (args : list string) (flag env_name : string) (env : option string) : host string :=
  let from_env := match env with
    | Some value => if negb (str_is_empty (str_trim value)) then Ok value
        else Err ("passphrase required via " ++ flag ++ " <text> or env " ++ env_name)%string
    | None => Err ("passphrase required via " ++ flag ++ " <text> or env " ++ env_name)%string
    end in
  match arg_value args flag with
  | Some value => if negb (str_is_empty value) then Ok value else from_env
  | None => from_env
  end.

(** Whether the host asks for confirmation. *)
Definition requires_confirm (args : list string) (env : option string) : bool :=
  has_flag args "--require-os-confirm" ||
  match env with Some v => bool_decide (v = "1"%string) || bool_decide (str_to_ascii_lowercase v = "true"%string) | None => false end.

(** [confirm_send] without a dialog: the environment's consent. *)
Definition confirm_by_env (env : option string) (summary : string) : host () :=
  match env with
  | Some v => if bool_decide (v = "1"%string) || bool_decide (str_to_ascii_lowercase v ∈ ["true"; "yes"]%string) then Ok ()
      else Err "send/sign blocked: OS confirm enabled and VIREON_HOST_CONFIRM is not set"%string
  | None => Err "send/sign blocked: OS confirm enabled and VIREON_HOST_CONFIRM is not set"%string
  end.

(** ** The command ([main]) *)

Inductive HostCommand :=
| PrintHelp | PrintInfo | ExportPublic | PrintTip | PrintStatus | PrintSync | PrintSupply | PrintMempool | PrintIndexer
| PrintBlock | PrintChain | PrintAccount | CheckHealth | InitWallet | ImportMnemonic | ChangePassphrase | DeleteWallet
| Serve (jsonl : bool).

(** The first of these flags that is given, in the order of [main]. *)
Definition commands : list (string * HostCommand) :=
  [("--help", PrintHelp); ("-h", PrintHelp); ("--print-info", PrintInfo); ("--export-public", ExportPublic); ("--print-tip", PrintTip);
   ("--print-status", PrintStatus); ("--print-sync", PrintSync); ("--print-supply", PrintSupply); ("--print-mempool", PrintMempool);
   ("--print-indexer", PrintIndexer); ("--print-block", PrintBlock); ("--print-chain", PrintChain); ("--print-account", PrintAccount);
   ("--check-health", CheckHealth); ("--init-wallet", InitWallet); ("--import-mnemonic", ImportMnemonic);
   ("--change-passphrase", ChangePassphrase); ("--delete-wallet", DeleteWallet)]%string.
Definition command_of (args : list string) : HostCommand :=
  match List.find (λ c, has_flag args c.1) commands with
  | Some (_, c) => c
  | None => Serve (has_flag args "--jsonl" || has_flag args "--stdio-jsonl")
  end.

(** The host that serves: its configuration, directory and confirmation;
    [HostState::new] needs a home directory even when [--keystore-dir] replaces the
    default. *)
Definition serving_host (args : list string) (home env : option string) : host (SdkConfig * string * bool) :=
  let config := default_config_from_args args in
  keystore_dir ← default_keystore_dir home (sc_network config);
  Ok (config, default keystore_dir (arg_value args "--keystore-dir"), requires_confirm args env).

(** [run_print_block], [run_print_account]: what they ask the node. *)
Definition run_print_block (args : list string) (rpc : HostRpc) : host SdkBlockResponse :=
  match arg_value args "--height" with
  | Some raw =>
      height ← ok_or ("invalid --height " ++ raw)%string (parse_uint 64 raw);
      map_err SdkError_fmt (hc_block_by_height rpc height)
  | None => map_err SdkError_fmt (hc_block_latest rpc)
  end.
Definition run_print_account (args : list string) (home : option string) (file : KeystoreFile) (rpc : HostRpc) :
    host SdkAddressAccountResponse :=
  address ← match arg_value args "--address" with
    | Some address => Ok address
    | None =>
        map_err (λ e, e ++ " (or pass --address vire1...)")%string
          (view ← export_public (resolve_keystore_dir args home MainnetCandidate) file; Ok (pw_address view))
    end;
  map_err SdkError_fmt (hc_account rpc address).

(** ** Recovery commands *)

Definition mnemonic_required : string :=
  ("--mnemonic " ++ str_of_bytes [byte_of_Z 34] ++ "word1 word2 ..." ++ str_of_bytes [byte_of_Z 34] ++ " is required")%string.

Section recovery.
Context `{Primitives} `{SeedPrimitives} `{WalletPrimitives}.
Context (args : list string) (home : option string).

Abbreviation net := (sc_network (default_config_from_args args)).
Abbreviation dir := (resolve_keystore_dir args home net).
Abbreviation keystore A := (state_result KeystoreFile string A).

(** The phrase printed once, with the wallet stored. *)
Definition run_init_wallet (env : option string) (drawn : Z → result string Mnemonic) (salt nonce : bytes) (made : host ())
    (o : WriteOutcome) : keystore (string * StoredHostWallet) :=
  passphrase ← sr_lift (require_cli_passphrase args "--passphrase" "VIREON_HOST_PASSPHRASE" env);
  '(account, mnemonic) ← sr_lift (map_err SdkError_fmt (account_generate drawn net Twelve));
  stored ← create_encrypted_wallet salt nonce made o dir net passphrase account;
  mret (gm_phrase mnemonic, stored).

Definition run_import_mnemonic (env : option string) (salt nonce : bytes) (made : host ()) (o : WriteOutcome) :
    keystore StoredHostWallet :=
  passphrase ← sr_lift (require_cli_passphrase args "--passphrase" "VIREON_HOST_PASSPHRASE" env);
  phrase ← sr_lift (match arg_value args "--mnemonic" with
    | Some s => if negb (str_is_empty (str_trim s)) then Ok s else Err mnemonic_required
    | None => Err mnemonic_required
    end);
  account ← sr_lift (map_err SdkError_fmt (account_from_mnemonic net phrase "" WalletDerivationPath_default));
  create_encrypted_wallet salt nonce made o dir net passphrase account.

Definition run_change_passphrase (env_old env env_new : option string) (salt nonce : bytes) (made : host ()) (o : WriteOutcome) :
    keystore PublicWalletView :=
  old ← sr_lift (match require_cli_passphrase args "--old-passphrase" "VIREON_HOST_OLD_PASSPHRASE" env_old with
    | Ok p => Ok p
    | Err _ => require_cli_passphrase args "--passphrase" "VIREON_HOST_PASSPHRASE" env
    end);
  new ← sr_lift (require_cli_passphrase args "--new-passphrase" "VIREON_HOST_NEW_PASSPHRASE" env_new);
  change_passphrase salt nonce made o dir net old new.

Definition run_delete_wallet (env : option string) (removed : host ()) : keystore () :=
  passphrase ← sr_lift (require_cli_passphrase args "--passphrase" "VIREON_HOST_PASSPHRASE" env);
  file ← sr_get;
  _ ← sr_lift (unlock_wallet dir net passphrase file);
  delete_wallet removed dir net passphrase.

End recovery.

(** ** The health check *)

Definition parse_max_indexer_lag (args : list string) : host (option Z) :=
  match arg_value args "--max-indexer-lag" with
  | None => Ok None
  | Some raw => match parse_uint 64 raw with
      | Some n => Ok (Some n)
      | None => Err ("invalid --max-indexer-lag value: " ++ raw)%string
      end
  end.

(** What the indexer's report says: whether it will do, the lag seen, the
    warnings. *)
Record IndexerView := { iv_ok : bool; iv_lag : option Z; iv_warnings : list string }.
Definition see (ok : bool) (lag : option Z) (warnings : list string) (v : IndexerView) : IndexerView :=
  {| iv_ok := iv_ok v && ok; iv_warnings := iv_warnings v ++ warnings;
     iv_lag := match lag with Some l => Some (match iv_lag v with Some m => Z.max m l | None => l end) | None => iv_lag v end |}.

Definition see_sync (allowed_lag : Z) (idx : SdkIndexerStatusResponse) (v : IndexerView) : IndexerView :=
  match ist_in_sync idx with
  | Some false => see (negb (allowed_lag =? 0)) None ["indexer.in_sync=false"%string] v
  | _ => v
  end.
Definition see_lag (allowed_lag : Z) (idx : SdkIndexerStatusResponse) (v : IndexerView) : IndexerView :=
  match ist_lag_blocks idx with
  | Some lag =>
      if lag >? allowed_lag then see false (Some lag) [("indexer.lag_blocks=" ++ uint_to_string lag ++ " > allowed " ++ uint_to_string allowed_lag)%string] v
      else if lag >? 0 then see true (Some lag) [("indexer.lag_blocks=" ++ uint_to_string lag ++ " (within allowed " ++ uint_to_string allowed_lag ++ ")")%string] v
      else see true (Some lag) [] v
  | None => v
  end.
Definition see_delta (allowed_lag : Z) (status_height : option Z) (tip_height : Z) (idx : SdkIndexerStatusResponse) (v : IndexerView) : IndexerView :=
  match ist_indexed_height idx with
  | Some ih =>
      let ch := default tip_height status_height in
      let delta := saturating_sub ch ih in
      if delta >? allowed_lag
      then see false (Some delta) [("indexer height delta " ++ uint_to_string delta ++ " (idx=" ++ uint_to_string ih ++ " chain=" ++ uint_to_string ch
             ++ ") > allowed " ++ uint_to_string allowed_lag)%string] v
      else if delta >? 0 then see true (Some delta) [("indexer height delta " ++ uint_to_string delta ++ " (within allowed " ++ uint_to_string allowed_lag ++ ")")%string] v
      else see true (Some delta) [] v
  | None => v
  end.
Definition see_indexer (allowed_lag : Z) (status_height : option Z) (tip_height : Z) (indexer : option SdkIndexerStatusResponse)
    (v : IndexerView) : IndexerView :=
  match indexer with
  | Some idx =>
      let v := see_delta allowed_lag status_height tip_height idx (see_lag allowed_lag idx (see_sync allowed_lag idx v)) in
      if negb (ist_initialized idx) then see false None ["indexer.initialized=false"%string] v else v
  | None => see false None ["indexer_status unavailable"%string] v
  end.

(** [run_check_health]: the exit code, the lag seen and the warnings. *)
Definition chain_warnings (status : SdkStatusResponse) (tip : SdkChainTipResponse) : list string :=
  (if negb (sst_initialized status) then ["status.initialized=false"%string] else [])
  ++ (if is_none (sst_height status) then ["status.height is null"%string] else [])
  ++ (match sst_height status with
      | Some h => if negb (h =? ctr_height tip)
          then [("status.height (" ++ uint_to_string h ++ ") != tip.height (" ++ uint_to_string (ctr_height tip) ++ ")")%string] else []
      | None => []
      end).
Definition run_check_health (args : list string) (rpc : HostRpc) : host (Z * option Z * list string) :=
  max_indexer_lag ← parse_max_indexer_lag args;
  let enforce_indexer := has_flag args "--require-indexer-sync" || is_some max_indexer_lag in
  let allowed_lag := default 0 max_indexer_lag in
  match hc_status rpc with
  | Err error => Ok (1, None, [SdkError_fmt error])
  | Ok status =>
      match hc_tip rpc with
      | Err error => Ok (2, None, [("tip unavailable: " ++ SdkError_fmt error)%string])
      | Ok tip =>
          let chain_ready := sst_initialized status && is_some (sst_height status) in
          let indexer := match hc_indexer_status rpc with Ok idx => Some idx | Err _ => None end in
          let v := see_indexer allowed_lag (sst_height status) (ctr_height tip) indexer
            {| iv_ok := true; iv_lag := None; iv_warnings := chain_warnings status tip |} in
          if negb chain_ready then Ok (2, iv_lag v, iv_warnings v)
          else if enforce_indexer && negb (iv_ok v) then Ok (3, iv_lag v, iv_warnings v)
          else Ok (0, iv_lag v, iv_warnings v)
      end
  end.
