(* ===== verification/HostTheory.v ===== *)
(** What the browser host promises: frames are read as they were written, a wallet
    file unlocks to the key it was made of, no transfer is signed outside a session
    or without the confirmation it asks for, what is signed is what was asked; and
    where the confirmed text is not what is signed. *)

From S2P Require Import Prelude RustStd Interfaces Crypto Errors Network Amount Signing Address Transaction Block Consensus State Ledger Chain NodeConfig Mempool Node WalletStorage Seed Spend Pool Sdk SdkClient SdkTheory HostProtocol HostCli.

(** ** Frames *)

(** A message whose JSON text is read back, and fits in a frame. *)
Definition carries {T} (to_vec : T → result string bytes) (from_slice : bytes → result string T) (v : T) (body : bytes) : Prop :=
  to_vec v = Ok body ∧ from_slice body = Ok v ∧ body ≠ [] ∧ Z.of_nat (length body) <= MAX_FRAME.

Lemma write_message_Ok {T} (to_vec : T → result string bytes) v body :
  to_vec v = Ok body → Z.of_nat (length body) <= MAX_FRAME →
  write_message to_vec v = Ok (le_bytes 4 (Z.of_nat (length body)) ++ body).
Proof.
  unfold write_message, MAX_FRAME. intros -> Hl. cbn [map_err mbind result_bind]. unfold umax, uwrap.
  destruct (_ >? _) eqn:E; [apply Z.gtb_lt in E; lia|]. by rewrite Z.mod_small by lia.
Qed.

(** The round trip of a frame, whatever follows it in the input. *)
Theorem frame_roundtrip {T} (to_vec : T → result string bytes) from_slice v body :
  carries to_vec from_slice v body →
  ∃ frame, write_message to_vec v = Ok frame ∧ ∀ rest, read_message from_slice (frame ++ rest) = Ok (Some (v, rest)).
Proof.
  intros (Hto & Hfrom & Hne & Hmax). eexists. split; [by apply write_message_Ok|]. intros rest. unfold MAX_FRAME in Hmax.
  unfold read_message, read_exact. rewrite <- app_assoc, length_app, length_le_bytes. cbn [Nat.add Nat.leb].
  rewrite take_app_length', drop_app_length' by (symmetry; apply length_le_bytes). rewrite le_value_le_bytes. change (256 ^ Z.of_nat 4) with (2 ^ 32).
  rewrite Z.mod_small by lia. cbv zeta. destruct body as [|b body]; [done|]. destruct (_ =? 0) eqn:E0; [apply Z.eqb_eq in E0; cbn in E0; lia|].
  unfold MAX_FRAME. destruct (_ >? _) eqn:Eg; [apply Z.gtb_lt in Eg; lia|]. rewrite Nat2Z.id.
  rewrite length_app. destruct (_ <=? _)%nat eqn:El; [|apply Nat.leb_gt in El; lia]. cbn [ok_or mbind result_bind].
  rewrite take_app_length, drop_app_length, Hfrom. done.
Qed.

(** The answers to a list of requests, and the last state. *)
Fixpoint answers {S Q R} (handle : Q → S → R * S) (requests : list Q) (s : S) : list R * S :=
  match requests with
  | [] => ([], s)
  | q :: rest => let '(r, s) := handle q s in let '(rs, s) := answers handle rest s in (r :: rs, s)
  end.

(** The host answers every framed request, in order, and stops at the end of the
    input. *)
Theorem serve_answers {S Q R} (from_slice : bytes → result string Q) (to_vec_q : Q → result string bytes)
    (to_vec : R → result string bytes) (handle : Q → S → R * S) requests bodies frames output s :
  Forall2 (carries to_vec_q from_slice) requests bodies →
  Forall2 (λ r frame, write_message to_vec r = Ok frame) (answers handle requests s).1 frames →
  ∀ fuel, (length requests < fuel)%nat →
  serve from_slice to_vec handle fuel (mjoin ((λ body, le_bytes 4 (Z.of_nat (length body)) ++ body) <$> bodies)) output s =
  (output ++ mjoin frames, (answers handle requests s).2).
Proof.
  intros Hreq. revert frames output s. induction Hreq as [|q body requests bodies Hq Hreq IH]; intros frames output s Hans fuel Hfuel.
  - apply Forall2_nil_inv_l in Hans as ->. destruct fuel as [|fuel]; [lia|]. cbn. by rewrite app_nil_r.
  - destruct fuel as [|fuel]; [cbn in Hfuel; lia|]. cbn [answers] in Hans |- *. cbn [serve fmap list_fmap mjoin list_join].
    destruct (frame_roundtrip _ _ _ _ Hq) as (frame & Hw & Hread). rewrite (write_message_Ok _ _ _ (proj1 Hq) (proj2 (proj2 (proj2 Hq)))) in Hw.
    injection Hw as <-. rewrite Hread. destruct (handle q s) as [r s1]. destruct (answers handle requests s1) as [rs s2] eqn:Ea.
    cbn [fst snd] in Hans |- *. apply Forall2_cons_inv_l in Hans as (f & frames' & Hf & Hrest & ->). rewrite Hf.
    rewrite (IH frames' (output ++ f) s1); [|by rewrite Ea | cbn in Hfuel; lia].
    rewrite Ea. cbn. by rewrite app_assoc.
Qed.

(** In the line mode a request that cannot be read changes nothing and the next one
    is answered as if it had not been sent. *)
Theorem bad_line_skipped {S Q R} (from_str : string → result string Q) (to_text : R → result string string)
    (handle : Q → S → R * S) before line error rest s :
  from_str (str_trim line) = Err error → ∀ output,
  (serve_lines from_str to_text handle (before ++ line :: rest) output s).2 =
  (serve_lines from_str to_text handle (before ++ rest) output s).2.
Proof.
  intros Hbad. assert (∀ ls (o1 o2 : list string) s1, (serve_lines from_str to_text handle ls o1 s1).2 =
    (serve_lines from_str to_text handle ls o2 s1).2) as Hout.
  { induction ls as [|l ls IH]; intros o1 o2 s1; cbn [serve_lines]; [done|]. cbv zeta. repeat case_match; auto. }
  revert s. induction before as [|l before IH]; intros s output; cbn [app serve_lines]; cbv zeta.
  - rewrite Hbad. destruct (str_is_empty _); [done | apply Hout].
  - repeat case_match; auto.
Qed.

(** ** The keystore *)

Section keystore.
Context `{PrimitivesOk} `{!WalletPrimitives} `{!WalletPrimitivesOk}.

Lemma host_decrypt_encrypt salt nonce pass plain secret :
  length nonce = 12%nat → host_encrypt_secret salt nonce pass plain = Ok secret → host_decrypt_secret pass secret = Ok plain.
Proof.
  intros Hn. unfold host_encrypt_secret. intros (key & Hk & (c & Hc%ok_or_Ok & [= <-])%bind_Ok)%bind_Ok.
  unfold host_decrypt_secret. cbn [es_kdf es_salt_b64 es_nonce_b64 es_ciphertext_b64].
  rewrite bool_decide_eq_true_2 by done. cbn [negb]. rewrite !b64_roundtrip. cbn [map_err mbind result_bind].
  rewrite bool_decide_eq_true_2 by done. cbn [negb]. rewrite Hk. cbn [mbind result_bind].
  by rewrite (aes256gcm_roundtrip key nonce plain c).
Qed.

Lemma write_stored_Ok made o stored file file' :
  write_stored made o stored file = (Ok (), file') → file' = KeystoreJson stored.
Proof. unfold write_stored. destruct made; [|done]. destruct o; [done..|]. by intros [= <-]. Qed.

(** What is stored of an account unlocks with its passphrase to that account. *)
Lemma stored_unlocks salt nonce n pass a stored dir :
  account_ok a → wa_network a = n → length nonce = 12%nat → stored_from_account salt nonce n pass a = Ok stored →
  unlock_wallet dir n pass (KeystoreJson stored) = Ok a ∧ hw_address stored = Address_to_string (wa_address a) ∧
  8 <= str_len (str_trim pass).
Proof.
  intros [Hk Ha] Hn Hnonce (u & Hp & (secret & Hs & [= <-])%bind_Ok)%bind_Ok.
  unfold validate_passphrase in Hp. destruct (_ <? 8) eqn:E8; [done|]. apply Z.ltb_ge in E8. split_and!; [|done|done].
  unfold unlock_wallet. cbn [load_stored mbind result_bind hw_network_id hw_encrypted hw_derivation_path hw_address].
  rewrite bool_decide_eq_true_2 by done. cbn [negb]. rewrite (host_decrypt_encrypt _ _ _ _ _ Hnonce Hs). cbn [mbind result_bind].
  rewrite from_utf8_hex. cbn [ok_or mbind result_bind]. unfold PrivateKey_from_hex. rewrite parse_hex_array_to_hex by done.
  cbn [map_err mbind result_bind]. unfold account_from_private_key. cbn [map_err mbind result_bind wa_address].
  subst n. rewrite <- Ha. rewrite bool_decide_eq_true_2 by done. cbn [negb].
  rewrite Ha, sender_address_parse by done. cbn [map_err mbind result_bind]. rewrite <- Ha. by destruct a.
Qed.

(** Creating: refused when there is a keystore, and otherwise the file unlocks with
    the passphrase to the account, whose address it names. *)
Theorem created_keystore_unlocks salt nonce made o dir n pass a file stored file' :
  account_ok a → wa_network a = n → length nonce = 12%nat →
  create_encrypted_wallet salt nonce made o dir n pass a file = (Ok stored, file') →
  file = KeystoreAbsent ∧ file' = KeystoreJson stored ∧ unlock_wallet dir n pass file' = Ok a ∧
  hw_address stored = Address_to_string (wa_address a).
Proof.
  intros Ha Hn Hnonce. unfold create_encrypted_wallet. rewrite sr_get_bind. destruct (keystore_exists file) eqn:Ee; [done|].
  rewrite sr_lift_bind. destruct (stored_from_account salt nonce n pass a) as [st|] eqn:Es; [|done].
  intros ([] & f & Hw%write_stored_Ok & [= <- <-])%sr_bind_Ok. subst f.
  destruct (stored_unlocks _ _ _ _ _ _ dir Ha Hn Hnonce Es) as (Hu & Had & _). split_and!; [by destruct file | done..].
Qed.

(** Changing the passphrase keeps the account: it needs the old passphrase and a
    new one of eight characters, and the file then unlocks with the new one. *)
Theorem changed_passphrase_unlocks salt nonce made o dir n old new a file view file' :
  unlock_wallet dir n old file = Ok a → account_ok a → wa_network a = n → length nonce = 12%nat →
  change_passphrase salt nonce made o dir n old new file = (Ok view, file') →
  unlock_wallet dir n new file' = Ok a ∧ pw_address view = Address_to_string (wa_address a) ∧ 8 <= str_len (str_trim new).
Proof.
  intros Hu Ha Hn Hnonce. unfold change_passphrase. rewrite sr_lift_bind. destruct (validate_passphrase new); [|done].
  rewrite sr_get_bind, sr_lift_bind, Hu, sr_lift_bind. destruct (stored_from_account salt nonce n new a) as [st|] eqn:Es; [|done].
  intros ([] & f & Hw%write_stored_Ok & [= <- <-])%sr_bind_Ok. subst f.
  exact (stored_unlocks _ _ _ _ _ _ dir Ha Hn Hnonce Es).
Qed.

(** A change that fails leaves the keystore as it was, unless its write was torn:
    the file is truncated in place, and then no passphrase unlocks it. *)
Theorem failed_change_keeps_or_loses salt nonce made o dir n old new file e file' :
  change_passphrase salt nonce made o dir n old new file = (Err e, file') →
  file' = file ∨ ((∃ text, o = WriteTorn text) ∧ ∀ pass, is_ok (unlock_wallet dir n pass file') = false).
Proof.
  unfold change_passphrase. rewrite sr_lift_bind. destruct (validate_passphrase new); [|intros [= _ <-]; by left].
  rewrite sr_get_bind, sr_lift_bind. destruct (unlock_wallet dir n old file) as [acc|]; [|intros [= _ <-]; by left].
  rewrite sr_lift_bind. destruct (stored_from_account salt nonce n new acc) as [st|]; [|intros [= _ <-]; by left].
  unfold mbind, state_result_bind, write_stored. destruct made; [|intros [= _ <-]; by left].
  destruct o as [text|text|]; intros [= _ <-]; [by left|]. right. split; [by exists text | done].
Qed.

(** Deleting needs the passphrase. *)
Theorem delete_needs_passphrase removed dir n pass file file' r :
  delete_wallet removed dir n pass file = (r, file') → file' = file ∨ (∃ a, unlock_wallet dir n pass file = Ok a) ∧ file' = KeystoreAbsent.
Proof.
  unfold delete_wallet. rewrite sr_get_bind, sr_lift_bind. destruct (unlock_wallet dir n pass file) as [a|]; [|intros [= _ <-]; by left].
  destruct removed; intros [= _ <-]; [right; split; [by exists a | done] | by left].
Qed.

End keystore.

(** ** Sessions and signatures *)

Section host.
Context `{PrimitivesOk} `{!SeedPrimitives} `{!WalletPrimitives}.
Context `{ToJson SdkStatusResponse} `{ToJson SdkSyncStatusResponse} `{ToJson SdkMempoolStatusResponse} `{ToJson SdkSupplyResponse}
  `{ToJson SdkBlockResponse} `{ToJson (list SdkBlockResponse)} `{ToJson SdkTransactionResponse} `{ToJson SdkIndexerStatusResponse}
  `{ToJson SdkIndexerSummaryResponse} `{ToJson SdkIndexedBlockResponse} `{ToJson SdkIndexedAddressResponse}
  `{ToJson SdkAddressBalanceResponse} `{ToJson SdkAddressAccountResponse} `{ToJson SdkSubmitTransactionResponse}.
Context (json_of_tx : Transaction → JsonTree) (tx_of_json : JsonTree → result string Transaction).
Context (version : string) (config : SdkConfig) (dir : string) (require_os_confirm : bool).

Abbreviation run_handle := (handle json_of_tx tx_of_json version config dir require_os_confirm).

(** What is signed of a request: the transfer with the reported nonce and base fee,
    which the reported balance pays. *)
Lemma prepare_signed_transfer rpc a params t :
  prepare_signed config rpc a params = Ok t →
  ∃ to amount fee snapshot, json_get "to" params ≫= as_str = Some to ∧ signed_amount params = Ok amount ∧
    signed_priority_fee params = Ok fee ∧ hc_account rpc (address_string a) = Ok snapshot ∧
    let base := Z.max (sar_anticipated_base_fee_atomic snapshot) 1 in
    transfer (sc_network config) to amount (sar_next_nonce snapshot) base fee a = Ok t ∧
    amount + base + fee <= sar_balance_atomic snapshot.
Proof.
  unfold prepare_signed. intros (to & Hto%ok_or_Ok & (amount & Ham & (fee & Hfee & (snap & Hsnap%map_err_Ok & Hr)%bind_Ok)%bind_Ok)%bind_Ok)%bind_Ok.
  cbv zeta in Hr. apply bind_Ok in Hr as (x & Hx%map_err_Ok & (y & Hy%map_err_Ok & Hr)%bind_Ok).
  destruct (_ <? y) eqn:Eb; [done|]. apply Z.ltb_ge in Eb.
  apply bind_Ok in Hr as (b1 & Hb1%map_err_Ok & (b2 & Hb2%map_err_Ok & (b3 & Hb3%map_err_Ok & Hb4%map_err_Ok)%bind_Ok)%bind_Ok).
  exists to, amount, fee, snap. split_and!; try done.
  - unfold transfer. rewrite Hb1. cbn [mbind result_bind]. rewrite Hb2. cbn [mbind result_bind]. by rewrite Hb3.
  - unfold amount_checked_add in Hx, Hy. apply ok_or_Ok in Hx, Hy. unfold checked_add in Hx, Hy. repeat case_match; simplify_eq. lia.
Qed.

(** How a request changes the session. *)
Definition opened (env : HostEnv) (r : Request) (s : HostState) (a : WalletAccount) : Prop :=
  (rq_method r = "unlock"%string ∧ ∃ pass, require_passphrase (rq_params r) = Ok pass ∧
     unlock_wallet dir (sc_network config) pass (hs_file s) = Ok a) ∨
  (rq_method r ∈ ["create_wallet"; "create_session"]%string ∧ ∃ m, account_generate (he_drawn env) (sc_network config) Twelve = Ok (a, m)).

Definition signs (env : HostEnv) (r : Request) (s : HostState) (e : string * SignedTransfer) : Prop :=
  ∃ a, hs_session s = Some a ∧ e.1 = transfer_summary_of config a (rq_params r) ∧
    (require_os_confirm = true → he_confirm env e.1 = Ok ()) ∧ prepare_signed config (he_rpc env) a (rq_params r) = Ok e.2.

Ltac run_op := cbv [mbind state_result_bind sr_lift sr_get sr_modify mret state_result_ret on_file]; intros Hrun;
  repeat case_match; simplify_eq/=.

(** An operation on the session: it signs nothing, and the session is what [P]
    says when it succeeds, as it was when it fails. *)
Definition session_op {A} (P : option WalletAccount → Prop) (v : result string A) (s s' : HostState) : Prop :=
  hs_signed s' = hs_signed s ∧ if is_ok v then P (hs_session s') else hs_session s' = hs_session s.

Definition generated (env : HostEnv) (o : option WalletAccount) : Prop :=
  ∃ a m, o = Some a ∧ account_generate (he_drawn env) (sc_network config) Twelve = Ok (a, m).

Lemma change_locks env params s v s' : host_change_passphrase config dir env params s = (v, s') → session_op (eq None) v s s'.
Proof. unfold host_change_passphrase, session_op. cbv zeta. run_op; auto. Qed.

Lemma delete_locks env params s v s' : host_delete_wallet config dir env params s = (v, s') → session_op (eq None) v s s'.
Proof. unfold host_delete_wallet, session_op. run_op; auto. Qed.

Lemma create_wallet_opens env id params s v s' :
  host_create_wallet config dir env id params s = (v, s') → session_op (generated env) v s s'.
Proof.
  unfold host_create_wallet, sdk_text, session_op. run_op; auto. split; [done|]. eexists _, _. split; [done|]. by eapply map_err_Ok.
Qed.

Lemma create_session_opens env s v s' : create_session config env s = (v, s') → session_op (generated env) v s s'.
Proof.
  unfold create_session, sdk_text, session_op. run_op; auto. split; [done|]. eexists _, _. split; [done|]. by eapply map_err_Ok.
Qed.

Lemma unlock_opens params s v s' :
  host_unlock config dir params s = (v, s') →
  session_op (λ o, ∃ a pass, o = Some a ∧ require_passphrase params = Ok pass ∧
    unlock_wallet dir (sc_network config) pass (hs_file s) = Ok a) v s s'.
Proof. unfold host_unlock, session_op. run_op; auto. split; [done|]. by eexists _, _. Qed.

(** A signature, and what is left of it. *)
Lemma sign_effect env params a s v s' :
  confirm_and_sign config require_os_confirm env params a s = (v, s') →
  hs_session s' = hs_session s ∧ (hs_signed s' = hs_signed s ∨
    ∃ t, hs_signed s' = hs_signed s ++ [(transfer_summary_of config a params, t)] ∧ prepare_signed config (he_rpc env) a params = Ok t ∧
      (require_os_confirm = true → he_confirm env (transfer_summary_of config a params) = Ok ())).
Proof.
  unfold confirm_and_sign, maybe_confirm_send, confirm_send. run_op; split; auto; right; eexists; (split; [done|]); (split; [done|]);
    intros ->; try done; match goal with Hc : he_confirm env _ = Ok ?u |- _ => by destruct u end.
Qed.

(** The methods that open, replace or end the session when they succeed. *)
Definition session_methods : list string :=
  ["create_wallet"; "unlock"; "create_session"; "lock"; "clear_session"; "change_passphrase"; "delete_wallet"]%string.

(** The effect of a request: at most one signature, in a session; the session is
    opened or ended by the request, or it stays, and then the request was not one
    for the session that was answered as done. *)
Definition effect (env : HostEnv) (r : Request) (s : HostState) (resp : Response) (s' : HostState) : Prop :=
  (hs_signed s' = hs_signed s ∨ ∃ e, hs_signed s' = hs_signed s ++ [e] ∧ signs env r s e) ∧
  ((hs_session s' = hs_session s ∧ (rq_method r ∈ session_methods → rs_ok resp = false)) ∨ hs_session s' = None ∨
   ∃ a, hs_session s' = Some a ∧ opened env r s a ∧ rs_ok resp = true).

Lemma same_session env r s resp s' :
  hs_signed s' = hs_signed s → hs_session s' = hs_session s → rq_method r ∉ session_methods → effect env r s resp s'.
Proof. intros Hs Hse Hm. split; [by left|]. by left. Qed.

Lemma session_op_effect env r (P : option WalletAccount → Prop) (v : result string JsonTree) s s' :
  session_op P v s s' → (∀ o, P o → o = None ∨ ∃ a, o = Some a ∧ opened env r s a) →
  effect env r s (respond (rq_id r) v) s'.
Proof.
  intros [Hs Hv] HP. split; [by left|]. destruct v as [v|e]; cbn [is_ok respond rs_ok Response_ok Response_err] in *.
  - destruct (HP _ Hv) as [?|(a & ? & ?)]; [by right; left | right; right; by exists a].
  - by left.
Qed.

Lemma session_reads id (f : WalletAccount → host JsonTree) s resp s' :
  with_session id (λ a, sr_lift (f a)) s = (resp, s') → s' = s.
Proof. unfold with_session, sr_lift. destruct (hs_session s); by intros [= _ <-]. Qed.

(** A method that signs and then answers without changing the host. *)
Lemma session_signs env r (g : SignedTransfer → state_result HostState string JsonTree) s resp s' :
  rq_method r ∉ session_methods → (∀ t s1, (g t s1).2 = s1) →
  with_session (rq_id r) (λ a, signed ← confirm_and_sign config require_os_confirm env (rq_params r) a; g signed) s = (resp, s') →
  effect env r s resp s'.
Proof.
  intros Hm Hg. unfold with_session. destruct (hs_session s) as [a|] eqn:Es; [|intros [= _ <-]; by apply same_session].
  unfold mbind, state_result_bind. destruct (confirm_and_sign _ _ _ _ _ _) as [v s1] eqn:Ec.
  destruct (sign_effect _ _ _ _ _ _ Ec) as [Hse Hs]. intros Hrun.
  assert (s' = s1) as ->.
  { destruct v as [t|e]; [|by injection Hrun]. specialize (Hg t s1). destruct (g t s1) as [w s2]. cbn in Hg. injection Hrun as _ <-. exact Hg. }
  split; [|by left]. destruct Hs as [Hs|(t & Hs & Hp & Hc)]; [by left|]. right. eexists. split; [exact Hs|]. by exists a.
Qed.

Ltac by_method r name M := destruct (bool_decide (rq_method r = name)) eqn:M;
  [apply bool_decide_eq_true in M | apply bool_decide_eq_false in M].
Ltac answer_op lemma := match goal with |- (let '(v, s') := ?m ?s in _) = _ → _ =>
  let v1 := fresh "v" in let s1 := fresh "s1" in let Hm := fresh in
  destruct (m s) as [v1 s1] eqn:Hm; apply lemma in Hm; intros [= <- <-]; eapply session_op_effect; [exact Hm|] end.

Lemma report_not_session rpc m params s v :
  report tx_of_json version config dir rpc m params s = Some v → m ∉ session_methods.
Proof. intros Erep Hm. unfold report in Erep. repeat (apply elem_of_cons in Hm as [->|Hm]; [discriminate Erep|]). by apply elem_of_nil in Hm. Qed.

Lemma generated_opened env r s o :
  rq_method r ∈ ["create_wallet"; "create_session"]%string → generated env o → o = None ∨ ∃ a, o = Some a ∧ opened env r s a.
Proof. intros Hm (a & m & -> & Hg). right. exists a. split; [done|]. right. split; [done | by exists m]. Qed.

Lemma handle_effect env r s resp s' :
  run_handle env r s = (resp, s') → effect env r s resp s'.
Proof.
  unfold handle. cbv zeta. destruct (report _ _ _ _ _ _ _ _) as [v|] eqn:Erep.
  { intros [= _ <-]. apply report_not_session in Erep. by apply same_session. }
  by_method r "create_wallet"%string M1.
  { answer_op create_wallet_opens. intros o. apply generated_opened. rewrite M1. set_solver. }
  by_method r "change_passphrase"%string M2. { answer_op change_locks. intros o <-. by left. }
  by_method r "delete_wallet"%string M3. { answer_op delete_locks. intros o <-. by left. }
  by_method r "unlock"%string M4.
  { answer_op unlock_opens. intros o (a & pass & -> & Hp & Hu). right. exists a. split; [done|].
    left. split; [done | by exists pass]. }
  by_method r "lock"%string M5. { intros [= _ <-]. split; [by left | by right; left]. }
  by_method r "create_session"%string M6.
  { answer_op create_session_opens. intros o. apply generated_opened. rewrite M6. set_solver. }
  by_method r "clear_session"%string M7. { intros [= _ <-]. split; [by left | by right; left]. }
  assert (rq_method r ∉ session_methods) as Hnot by (unfold session_methods; set_solver).
  by_method r "balance"%string M8. { intros ->%session_reads. by apply same_session. }
  by_method r "account"%string M9. { intros ->%session_reads. by apply same_session. }
  by_method r "prepare_and_sign"%string M10. { by apply (session_signs env r _ s resp s' Hnot). }
  by_method r "send"%string M11.
  { apply (session_signs env r _ s resp s' Hnot). intros t s1. unfold mbind, state_result_bind, sr_lift.
    by destruct (forward (hc_submit (he_rpc env) (st_transaction t))). }
  intros [= _ <-]. by apply same_session.
Qed.


(** A run of requests. *)
Definition host_run (requests : list (HostEnv * Request)) (s : HostState) : HostState :=
  foldl (λ s q, (run_handle q.1 q.2 s).2) s requests.

Lemma host_run_snoc requests q s : host_run (requests ++ [q]) s = (run_handle q.1 q.2 (host_run requests s)).2.
Proof. unfold host_run. by rewrite foldl_app. Qed.

Lemma run_effect q s : effect q.1 q.2 s (run_handle q.1 q.2 s).1 (run_handle q.1 q.2 s).2.
Proof. apply handle_effect. by destruct (run_handle q.1 q.2 s). Qed.

(** A request that was answered as done. *)
Definition done_in (q : HostEnv * Request) (s : HostState) : Prop := rs_ok (run_handle q.1 q.2 s).1 = true.

(** A session comes from a request that opened it and was answered as done, and
    since then no request for the session was: no lock, no cleared session, no
    passphrase change, no deletion of the wallet and no other session. *)
Definition session_from (requests : list (HostEnv * Request)) (s0 : HostState) (a : WalletAccount) : Prop :=
  ∃ before q between, requests = before ++ q :: between ∧ opened q.1 q.2 (host_run before s0) a ∧ done_in q (host_run before s0) ∧
    ∀ b1 q' b2, between = b1 ++ q' :: b2 → rq_method q'.2 ∈ session_methods → ¬ done_in q' (host_run (before ++ q :: b1) s0).

Lemma session_opened s0 requests a :
  hs_session s0 = None → hs_session (host_run requests s0) = Some a → session_from requests s0 a.
Proof.
  intros Hlock. induction requests as [|q requests IH] using rev_ind; [cbn; congruence|]. rewrite host_run_snoc.
  destruct (run_effect q (host_run requests s0)) as [_ [[Hs Hm]|[Hs|(a' & Hs & Ho & Hok)]]]; rewrite Hs; [|done|].
  - intros Ha. destruct (IH Ha) as (before & q' & between & -> & Ho & Hd & Hb). exists before, q', (between ++ [q]).
    split; [by rewrite <- app_assoc|]. split_and!; [done..|]. intros b1 q1 b2 Heq Hq1.
    destruct b2 as [|x b2 _] using rev_ind.
    + apply app_inj_tail in Heq as [<- <-]. unfold done_in. by rewrite (Hm Hq1).
    + rewrite app_comm_cons, app_assoc in Heq. apply app_inj_tail in Heq as [Heq _]. by eapply Hb.
  - intros [= ->]. exists requests, q, []. split_and!; [done..|]. intros b1 q' b2 Hnil. by destruct b1.
Qed.

(** C40. Whatever requests the browser sends to a host started locked, each transfer is
    signed by the account of a session that a request opened with the passphrase,
    or by creating the account, and that no request since locked, cleared or
    replaced: none that was answered as done changed the passphrase or deleted the
    wallet; with the configuration's confirmation, when it is required, of the
    summary shown; and it is the transfer prepared from the parameters. *)
Theorem transfers_signed_in_session s0 requests e :
  hs_session s0 = None → hs_signed s0 = [] → e ∈ hs_signed (host_run requests s0) →
  ∃ before q after a, requests = before ++ q :: after ∧ session_from before s0 a ∧
    e.1 = transfer_summary_of config a (rq_params q.2) ∧ (require_os_confirm = true → he_confirm q.1 e.1 = Ok ()) ∧
    prepare_signed config (he_rpc q.1) a (rq_params q.2) = Ok e.2.
Proof.
  intros Hlock Hnone. induction requests as [|q requests IH] using rev_ind; [cbn; rewrite Hnone; by intros ?%elem_of_nil|]. rewrite host_run_snoc.
  destruct (run_effect q (host_run requests s0)) as [[Hs|(e' & Hs & a & Ha & He1 & Hc & He2)] _]; rewrite Hs; [|intros [Hin|Hin]%elem_of_app].
  1, 2: intros; destruct IH as (before & q' & after & a0 & -> & Hrest); [done|]; exists before, q', (after ++ [q]), a0;
    split; [by rewrite <- app_assoc | done].
  apply list_elem_of_singleton in Hin as ->. exists requests, q, [], a. split; [done|]. split; [by apply session_opened|]. by split_and!.
Qed.

(** What is signed: from the session's account to the recipient and for the amount
    and priority fee the parameters give, with the nonce the node reports, within
    the reported balance, and it verifies on the host's network. *)
Theorem prepared_transfer_spec rpc a params t :
  account_ok a → prepare_signed config rpc a params = Ok t →
  let tx := st_transaction t in
  Transaction_verify tx = Ok () ∧ Transaction_network tx = Ok (sc_network config) ∧
  tx_from tx = Some (address_string a) ∧ signed_amount params = Ok (tx_amount tx) ∧ signed_priority_fee params = Ok (tx_priority_fee tx) ∧
  ∃ to address snapshot, json_get "to" params ≫= as_str = Some to ∧ Address_parse to = Ok address ∧
    tx_to tx = Address_to_string address ∧ hc_account rpc (address_string a) = Ok snapshot ∧
    tx_nonce tx = sar_next_nonce snapshot ∧
    tx_amount tx + Z.max (sar_anticipated_base_fee_atomic snapshot) 1 + tx_priority_fee tx <= sar_balance_atomic snapshot.
Proof.
  intros Ha Hp. destruct (prepare_signed_transfer _ _ _ _ Hp) as (to & amount & fee & snap & Hto & Ham & Hfee & Hsnap & Ht & Hbal).
  unfold transfer in Ht. apply bind_Ok in Ht as (b1 & Hb1 & (b2 & Hb2 & (b3 & Hb3 & Hb4)%bind_Ok)%bind_Ok).
  unfold builder_to in Hb1. apply bind_Ok in Hb1 as (address & Haddr%map_err_Ok & Hb1). destruct (negb _); [done|]. injection Hb1 as <-.
  unfold builder_amount in Hb2. destruct (_ =? _); [done|]. injection Hb2 as <-.
  unfold builder_fees in Hb3. apply bind_Ok in Hb3 as (mf & _ & [= <-]).
  destruct (builder_sign_sound a _ t Ha Hb4) as (_ & _ & Hv & Hn & _ & Hf & Hto' & Hamt & Hnon & Hprio). cbn in Hn, Hto', Hamt, Hnon, Hprio.
  injection Hto' as Hto'. injection Hamt as Hamt. injection Hnon as Hnon. cbv zeta. rewrite Hamt, Hprio.
  split_and!; try done. exists to, address, snap. by split_and!.
Qed.

(** The dialog shows the amount that is signed when the request gives one amount. *)
Theorem shown_amount_is_signed rpc a params t :
  account_ok a → prepare_signed config rpc a params = Ok t →
  (json_get "amount_vire" params ≫= as_str = None ∨ json_get "amount_atomic" params ≫= as_u64 = None) →
  parse_vire (shown_amount params) = Ok (tx_amount (st_transaction t)) ∨
  shown_amount params = (uint_to_string (tx_amount (st_transaction t)) ++ " atomic")%string.
Proof.
  intros Ha Hp Hone. destruct (prepared_transfer_spec _ _ _ _ Ha Hp) as (_ & _ & _ & Hamt & _). unfold signed_amount in Hamt. unfold shown_amount.
  destruct (json_get "amount_vire" params ≫= as_str) as [v|].
  - destruct Hone as [?|Hno]; [done|]. rewrite Hno in Hamt. left. by eapply map_err_Ok.
  - destruct (json_get "amount_atomic" params ≫= as_u64) as [n|]; [|done]. injection Hamt as ->. by right.
Qed.

(** But a request that gives both shows one and signs the other: the user confirms
    the amount in VIRE while the atomic amount is signed. *)
Theorem confirmed_amount_differs rpc a params t v n :
  account_ok a → prepare_signed config rpc a params = Ok t →
  json_get "amount_vire" params ≫= as_str = Some v → json_get "amount_atomic" params ≫= as_u64 = Some n →
  transfer_summary_of config a params = transfer_summary (address_string a) (shown_to params) v (sc_rpc_base_url config) ∧
  tx_amount (st_transaction t) = n.
Proof.
  intros Ha Hp Hv Hn. destruct (prepared_transfer_spec _ _ _ _ Ha Hp) as (_ & _ & _ & Hamt & _). unfold signed_amount in Hamt.
  rewrite Hn in Hamt. injection Hamt as <-. split; [|done]. unfold transfer_summary_of, shown_amount. by rewrite Hv.
Qed.

End host.

(** ** The health check *)

Lemma see_ok ok lag warnings v : iv_ok (see ok lag warnings v) = iv_ok v && ok.
Proof. done. Qed.

(** When the check passes: the node answers and has a chain; and where the indexer
    is enforced, it answers, is initialised, and lags within the allowance by its
    own report and by its height. *)
Theorem healthy_means args rpc lag warnings :
  run_check_health args rpc = Ok (0, lag, warnings) →
  ∃ status tip max_lag, hc_status rpc = Ok status ∧ hc_tip rpc = Ok tip ∧ parse_max_indexer_lag args = Ok max_lag ∧
    sst_initialized status = true ∧ is_Some (sst_height status) ∧
    (has_flag args "--require-indexer-sync" = true ∨ is_Some max_lag →
     ∃ idx, hc_indexer_status rpc = Ok idx ∧ ist_initialized idx = true ∧
       (default 0 max_lag = 0 → ist_in_sync idx ≠ Some false) ∧
       (∀ l, ist_lag_blocks idx = Some l → l <= default 0 max_lag) ∧
       (∀ h, ist_indexed_height idx = Some h → default (ctr_height tip) (sst_height status) - h <= default 0 max_lag)).
Proof.
  unfold run_check_health. intros (max_lag & Hm & Hr)%bind_Ok. cbv zeta in Hr.
  destruct (hc_status rpc) as [status|]; [|done]. destruct (hc_tip rpc) as [tip|]; [|done].
  destruct (negb (sst_initialized status && _)) eqn:Ec; [done|]. apply negb_false_iff, andb_true_iff in Ec as [Hi Hh].
  destruct ((has_flag _ _ || _) && _) eqn:Ee; [done|]. clear Hr.
  exists status, tip, max_lag. split_and!; try done; [by destruct (sst_height status)|]. intros Henf.
  assert (has_flag args "--require-indexer-sync" || is_some max_lag = true) as Hen.
  { destruct Henf as [->|[x ->]]; [done | by rewrite orb_true_r]. }
  rewrite Hen in Ee. cbn [andb] in Ee. apply negb_false_iff in Ee. clear Henf Hen.
  destruct (hc_indexer_status rpc) as [idx|]; cbn [see_indexer] in Ee; [|by rewrite see_ok, andb_false_r in Ee].
  exists idx. split; [done|]. set (allowed := default 0 max_lag) in *.
  destruct (ist_initialized idx); cbn [negb] in Ee; [|by rewrite see_ok, andb_false_r in Ee]. split; [done|].
  unfold see_delta, see_lag, see_sync in Ee. cbv zeta in Ee. unfold saturating_sub in Ee.
  destruct (ist_indexed_height idx) as [ih|], (ist_lag_blocks idx) as [l|], (ist_in_sync idx) as [[]|];
    repeat (case_match; rewrite ?see_ok, ?andb_false_r, ?andb_true_r in Ee);
    try discriminate Ee; split_and!; intros; simplify_eq/=; rewrite ?Z.gtb_ltb in *; breflect; try lia; try discriminate.
Qed.
