(* ===== verification/MobileCore.v ===== *)
(** [vireon-mobile-core/src/lib.rs]: the wallet material the mobile application
    asks for, made of a new or an imported phrase; the Android bindings, which pass
    it on as JSON text, are left out. *)

From S2P Require Import Prelude RustStd Interfaces Crypto Errors Network Signing Address Seed Sdk.

Definition words_of (s : string) : Z := Z.of_nat (length (split_whitespace s)).

(** [struct MobileWalletMaterial] *)
Record MobileWalletMaterial := mkMaterial {
  mw_schema : string;
  mw_network_id : string;
  mw_address : string;
  mw_public_key_hex : string;
  mw_derivation_path : string;
  mw_mnemonic : string;
}.

Section mobile.
Context `{Primitives} `{SeedPrimitives}.

Definition wallet_material_from_mnemonic (phrase : string) : result string MobileWalletMaterial :=
  key ← map_err VireonError_fmt (derive_private_key_from_mnemonic phrase "" WalletDerivationPath_default);
  let public_key := PrivateKey_public_key key in
  Ok (mkMaterial "vireon-mobile-wallet-v1" (network_id MainnetCandidate)
    (Address_to_string (from_public_key_for_network public_key MainnetCandidate)) (bytes_to_hex public_key)
    (path_to_string WalletDerivationPath_default) phrase).

Definition create_wallet_material (drawn : Z → result string Mnemonic) : result string MobileWalletMaterial :=
  phrase ← map_err VireonError_fmt (generate_mnemonic drawn TwentyFour);
  wallet_material_from_mnemonic phrase.

Definition import_wallet_material (phrase : string) : result string MobileWalletMaterial :=
  let words := words_of phrase in
  if negb (words =? 12) && negb (words =? 24) then Err "recovery phrase must contain 12 or 24 English words"%string
  else wallet_material_from_mnemonic phrase.

(** The application shows the account that the SDK, the browser host and the
    command line derive from the same phrase on the main network. *)
Theorem mobile_account_is_sdk_account phrase w :
  wallet_material_from_mnemonic phrase = Ok w →
  ∃ a, account_from_mnemonic MainnetCandidate phrase "" WalletDerivationPath_default = Ok a ∧
    mw_address w = Address_to_string (wa_address a) ∧
    mw_public_key_hex w = bytes_to_hex (PrivateKey_public_key (wa_private_key a)) ∧
    Some (mw_derivation_path w) = wa_derivation_path a ∧ mw_mnemonic w = phrase.
Proof.
  unfold wallet_material_from_mnemonic. intros (key & Hk%map_err_Ok & [= <-])%bind_Ok.
  unfold account_from_mnemonic, account_from_private_key. rewrite Hk. by eexists.
Qed.

(** Importing the phrase of created material gives the same material; an import is
    refused exactly for its number of words or when nothing is derived from it. *)
Theorem created_material_imports drawn w :
  create_wallet_material drawn = Ok w →
  (import_wallet_material (mw_mnemonic w) = Ok w ↔ words_of (mw_mnemonic w) = 12 ∨ words_of (mw_mnemonic w) = 24).
Proof.
  unfold create_wallet_material. intros (phrase & _ & Hw)%bind_Ok.
  assert (mw_mnemonic w = phrase) as -> by (by destruct (mobile_account_is_sdk_account phrase w Hw) as (a & _ & _ & _ & _ & ?)).
  unfold import_wallet_material. rewrite Hw. cbv zeta.
  destruct (words_of phrase =? 12) eqn:E12, (words_of phrase =? 24) eqn:E24; cbn [negb andb]; (split; [intros [=]; lia | intros; first [done | lia]]).
Qed.

End mobile.
