(* ===== verification/Fleet.v ===== *)
(** [vireon-release/vps-control-plane/admin-server/src]: the controller of a fleet
    of nodes: invitations and enrolled nodes (store.rs), the routes (app.rs), the
    configuration (config.rs) and the agent that reports to a controller.  Random
    ids and tokens, clock readings, outcomes of file writes and the answers of the
    local RPC gateway are arguments; a JSON file is its contents. *)

From S2P Require Import Prelude RustStd Interfaces Crypto IpAddr.

(** ** Reports ([models.rs]) *)

(** [struct ServiceStates], [struct NodeReport] *)
Record ServiceStates := mkServices { sv_node : string; sv_rpc : string; sv_indexer_timer : string; sv_admin : string }.
Record NodeReport := mkReport {
  nr_network_id : string;
  nr_node_name : string;
  nr_advertise_host : string;
  nr_p2p_multiaddr : string;
  nr_reported_at : Z;
  nr_services : ServiceStates;
  nr_status : JsonTree;
  nr_sync : JsonTree;
  nr_p2p : JsonTree;
  nr_mempool : JsonTree;
  nr_indexer : JsonTree;
}.

(** [struct FleetNodeView] *)
Record FleetNodeView := mkNodeView {
  nv_node_id : string;
  nv_node_name : string;
  nv_advertise_host : string;
  nv_p2p_multiaddr : string;
  nv_last_seen : Z;
  nv_online : bool;
  nv_peer_id : option string;
  nv_height : option Z;
  nv_connected_peers : Z;
  nv_validating_peers : Z;
  nv_mining_peers : Z;
  nv_observed_hashrate_hs : Z;
  nv_services : ServiceStates;
}.

(** [struct FleetTopology], [struct AdminOverview], [struct NodeDetailView] *)
Record FleetTopology := mkTopology {
  ft_mode : string;
  ft_network_id : string;
  ft_generated_at : Z;
  ft_registered_node_count : Z;
  ft_online_node_count : Z;
  ft_direct_validated_connections : Z;
  ft_observed_miner_count : Z;
  ft_observed_hashrate_hs : Z;
  ft_nodes : list FleetNodeView;
}.
Record AdminOverview := { ao_mode : string; ao_status_label : string; ao_local : NodeReport; ao_topology : FleetTopology }.
Record NodeDetailView := { nd_node : FleetNodeView; nd_report : NodeReport; nd_is_local_controller : bool }.

(** [struct InvitationView], [struct InvitationRequest], [struct EnrollmentStep],
    [struct InvitationResponse] *)
Record InvitationView := mkInvitationView {
  vw_invitation_id : string;
  vw_node_name : string;
  vw_advertise_host : string;
  vw_expires_at : Z;
  vw_used : bool;
  vw_expired : bool;
  vw_status : string;
}.
Record InvitationRequest := { ir_node_name : string; ir_advertise_host : string; ir_admin_domain : option string; ir_acme_email : string }.
Record EnrollmentStep := mkStep { ep_title : string; ep_detail : string; ep_code : option string }.
Record InvitationResponse := {
  rp_invitation_id : string;
  rp_expires_at : Z;
  rp_install_command : string;
  rp_steps : list EnrollmentStep;
  rp_seed_multiaddr : string;
  rp_controller_url : string;
  rp_node_name : string;
  rp_advertise_host : string;
  rp_ttl_seconds : Z;
}.
(** [struct EnrollmentRequest], [struct ReportRequest] *)
Record EnrollmentRequest := mkEnrollment { er_invitation_token : string; er_report : NodeReport }.
Record ReportRequest := mkReportRequest { rr_node_id : string; rr_report : NodeReport }.

Section values.
(** A text or number parsed as [f64], bounded below by zero and cast to [u64]. *)
Context (f64_as_u64 : string → option Z).

Definition value_u64 (v : JsonTree) (key : string) : Z :=
  match json_get key v with
  | Some (JNumber z) => Z.min (Z.max z 0) (umax 64)
  | Some (JFloat text) | Some (JString text) => default 0 (f64_as_u64 text)
  | _ => 0
  end.
Definition value_string (v : JsonTree) (key : string) : option string := json_get key v ≫= as_str.

Definition node_view (node_id : string) (r : NodeReport) (now : Z) : FleetNodeView := {|
  nv_node_id := node_id;
  nv_node_name := nr_node_name r;
  nv_advertise_host := nr_advertise_host r;
  nv_p2p_multiaddr := nr_p2p_multiaddr r;
  nv_last_seen := nr_reported_at r;
  nv_online := saturating_sub now (nr_reported_at r) <=? 45;
  nv_peer_id := value_string (nr_p2p r) "local_peer_id";
  nv_height := json_get "height" (nr_status r) ≫= as_u64;
  nv_connected_peers := value_u64 (nr_p2p r) "connected_peer_count";
  nv_validating_peers := value_u64 (nr_p2p r) "validating_peer_count";
  nv_mining_peers := value_u64 (nr_p2p r) "mining_peer_count";
  nv_observed_hashrate_hs := value_u64 (nr_p2p r) "observed_network_hashrate_hs";
  nv_services := nr_services r |}.

End values.

(** ** The store ([store.rs]) *)

(** [struct Invitation], [struct FleetNode], [struct FleetData] *)
Record Invitation := mkInvitation {
  in_id : string;
  in_token_hash : string;
  in_expires_at : Z;
  in_used : bool;
  in_node_name : string;
  in_advertise_host : string;
}.
Record FleetNode := mkFleetNode { fn_id : string; fn_token_hash : string; fn_report : NodeReport }.
Record FleetData := mkFleet { fd_invitations : list Invitation; fd_nodes : list FleetNode }.

(** [fleet.json] *)
Inductive FleetFile :=
| FleetAbsent
| FleetUnreadable (text : string)
| FleetMalformed (text : string)
| FleetJson (d : FleetData).

(** [struct FleetStore]: the data behind the lock, which no panic poisons, and the
    file. *)
Record FleetStore := mkStore { fs_data : FleetData; fs_file : FleetFile }.

Record CreatedInvitation := mkCreated { ci_id : string; ci_token : string; ci_expires_at : Z }.

Definition set_invitations (f : list Invitation → list Invitation) (s : FleetStore) : FleetStore :=
  mkStore (mkFleet (f (fd_invitations (fs_data s))) (fd_nodes (fs_data s))) (fs_file s).
Definition set_nodes (f : list FleetNode → list FleetNode) (s : FleetStore) : FleetStore :=
  mkStore (mkFleet (fd_invitations (fs_data s)) (f (fd_nodes (fs_data s)))) (fs_file s).
Definition mark_used (i : Invitation) : Invitation :=
  mkInvitation (in_id i) (in_token_hash i) (in_expires_at i) true (in_node_name i) (in_advertise_host i).
Definition set_report (r : NodeReport) (n : FleetNode) : FleetNode := mkFleetNode (fn_id n) (fn_token_hash n) r.

Definition FleetStore_load (made : result string ()) (path : string) (file : FleetFile) : result string FleetStore :=
  _ ← made;
  data ← match file with
    | FleetAbsent => Ok (mkFleet [] [])
    | FleetUnreadable text => Err text
    | FleetMalformed text => Err ("invalid fleet store " ++ path ++ ": " ++ text)%string
    | FleetJson d => Ok d
    end;
  Ok (mkStore data file).

Abbreviation fleet A := (state_result FleetStore string A).

(** The file is written beside the old one and renamed over it: the old contents
    stay when that fails.  [saved] is the outcome. *)
Definition fleet_save (saved : result string ()) : fleet () := λ s,
  match saved with
  | Ok _ => (Ok (), mkStore (fs_data s) (FleetJson (fs_data s)))
  | Err e => (Err e, s)
  end.

Section store.
Context `{Primitives}.

Definition token_hash (token : string) : string := hash_to_hex (sha256 (str_bytes token)).

Definition open_at (now : Z) (i : Invitation) : bool := (in_expires_at i >? now) && negb (in_used i).

Definition FleetStore_create_invitation (token id : string) (saved : result string ()) (node_name advertise_host : string)
    (now ttl : Z) : fleet CreatedInvitation :=
  let created := mkCreated id token (saturating_add 64 now ttl) in
  _ ← sr_modify (set_invitations (λ l, filter (λ i, open_at now i = true) l
    ++ [mkInvitation id (token_hash token) (ci_expires_at created) false node_name advertise_host]));
  _ ← fleet_save saved;
  mret created.

Definition FleetStore_enroll (node_id node_token : string) (saved : result string ()) (invitation_token : string)
    (report : NodeReport) (now : Z) : fleet (string * string) :=
  let hash := token_hash invitation_token in
  s ← sr_get;
  match list_find (λ i, in_token_hash i = hash ∧ in_used i = false) (fd_invitations (fs_data s)) with
  | None => sr_lift (Err "invalid or already used enrollment token"%string)
  | Some (k, invitation) =>
      if in_expires_at invitation <=? now then sr_lift (Err "enrollment token expired"%string) else
      if negb (bool_decide (in_node_name invitation = nr_node_name report))
         || negb (bool_decide (in_advertise_host invitation = nr_advertise_host report))
      then sr_lift (Err "node identity does not match invitation"%string) else
      _ ← sr_modify (set_invitations (alter mark_used k));
      _ ← sr_modify (set_nodes (λ l, l ++ [mkFleetNode node_id (token_hash node_token) report]));
      _ ← fleet_save saved;
      mret (node_id, node_token)
  end.

Definition FleetStore_update_report (saved : result string ()) (node_id node_token : string) (report : NodeReport) : fleet () :=
  let hash := token_hash node_token in
  s ← sr_get;
  match list_find (λ n, fn_id n = node_id ∧ fn_token_hash n = hash) (fd_nodes (fs_data s)) with
  | None => sr_lift (Err "invalid node credentials"%string)
  | Some (k, _) =>
      _ ← sr_modify (set_nodes (alter (set_report report) k));
      fleet_save saved
  end.

End store.

Definition node_views (f64_as_u64 : string → option Z) (now : Z) (d : FleetData) : list FleetNodeView :=
  (λ n, node_view f64_as_u64 (fn_id n) (fn_report n) now) <$> fd_nodes d.

Definition invitation_view (now : Z) (i : Invitation) : InvitationView :=
  let expired := in_expires_at i <=? now in
  mkInvitationView (in_id i) (in_node_name i) (in_advertise_host i) (in_expires_at i) (in_used i) expired
    (if in_used i then "used" else if expired then "expired" else "pending").
Definition invitation_views (now : Z) (d : FleetData) : list InvitationView := invitation_view now <$> fd_invitations d.

Definition FleetStore_revoke_invitation (saved : result string ()) (invitation_id : string) : fleet () :=
  s ← sr_get;
  let before := length (fd_invitations (fs_data s)) in
  _ ← sr_modify (set_invitations (filter (λ i, in_id i ≠ invitation_id)));
  s ← sr_get;
  if (length (fd_invitations (fs_data s)) =? before)%nat then sr_lift (Err "invitation not found"%string) else
  fleet_save saved.

Definition FleetStore_remove_node (saved : result string ()) (node_id : string) : fleet () :=
  if bool_decide (node_id = "local-controller"%string)
  then sr_lift (Err "cannot remove the local controller from inventory"%string) else
  s ← sr_get;
  let before := length (fd_nodes (fs_data s)) in
  _ ← sr_modify (set_nodes (filter (λ n, fn_id n ≠ node_id)));
  s ← sr_get;
  if (length (fd_nodes (fs_data s)) =? before)%nat then sr_lift (Err "node not found"%string) else
  fleet_save saved.

Definition get_node_report (node_id : string) (d : FleetData) : option NodeReport :=
  (λ n, fn_report n.2) <$> list_find (λ n, fn_id n = node_id) (fd_nodes d).

(** ** The configuration ([config.rs]) *)

(** [struct AdminConfig] *)
Record AdminConfig := mkAdminConfig {
  ac_bind_host : string;
  ac_bind_port : Z;
  ac_network_id : string;
  ac_status_label : string;
  ac_node_name : string;
  ac_advertise_host : string;
  ac_p2p_port : Z;
  ac_local_rpc_url : string;
  ac_state_dir : string;
  ac_release_bundle_url : string;
  ac_controller_url : option string;
  ac_report_interval_seconds : Z;
  ac_invitation_ttl_seconds : Z;
}.
Definition default_report_interval : Z := 15.
Definition default_invitation_ttl : Z := 900.

(** [VIREON_DEPLOYMENT_MODE] is the argument. *)
Definition docker_mode (deployment_mode : option string) : bool :=
  match deployment_mode with Some value => eq_ignore_ascii_case value "docker" | None => false end.

Definition validate_for_mode (docker : bool) (c : AdminConfig) : result string () :=
  bind_ip ← ok_or "bind_host must be a literal loopback IP"%string (IpAddr_parse (ac_bind_host c));
  if negb (is_loopback bind_ip) && negb docker then Err "admin service must bind to a loopback address"%string else
  if negb (bool_decide (ac_network_id c = "veiron-mainnet-candidate"%string))
  then Err "network_id must be veiron-mainnet-candidate"%string else
  if str_is_empty (str_trim (ac_node_name c)) || str_is_empty (str_trim (ac_advertise_host c))
  then Err "node_name and advertise_host are required"%string else
  if negb (str_starts_with (ac_local_rpc_url c) "http://127.0.0.1:")
     && negb (str_starts_with (ac_local_rpc_url c) "http://[::1]:")
     && negb (docker && str_starts_with (ac_local_rpc_url c) "http://vireon-rpc:")
  then Err "local_rpc_url must use loopback HTTP or Docker-internal vireon-rpc"%string else
  if match ac_controller_url c with
     | Some url => negb (str_is_empty url) && negb (str_starts_with url "https://")
     | None => false
     end
  then Err "controller_url must use HTTPS"%string else
  if (ac_report_interval_seconds c <? 5) || (ac_invitation_ttl_seconds c <? 60)
  then Err "report interval or invitation lifetime is too short"%string else
  Ok ().

(** [parsed]: the TOML file read. *)
Definition AdminConfig_load (deployment_mode : option string) (parsed : result string AdminConfig) : result string AdminConfig :=
  config ← parsed;
  _ ← validate_for_mode (docker_mode deployment_mode) config;
  Ok config.

(** ** The routes ([app.rs]) *)

Definition validate_label (field value : string) : result string () :=
  if str_is_empty value || (str_len value >? 64)
     || negb (forallb (λ b, alphanumeric b || (byte_Z b =? 45) || (byte_Z b =? 95) || (byte_Z b =? 46)) (str_bytes value))
  then Err (field ++ " contains unsupported characters")%string else Ok ().
Definition validate_host (value : string) : result string () := validate_label "host" value.
Definition validate_email (value : string) : result string () :=
  if (str_len value >? 254) || negb (str_contains value "@")
     || negb (forallb (λ b, alphanumeric b || (byte_Z b =? 64) || (byte_Z b =? 45) || (byte_Z b =? 95) || (byte_Z b =? 46)
                             || (byte_Z b =? 43)) (str_bytes value))
  then Err "acme_email is invalid"%string else Ok ().
Definition validate_report (c : AdminConfig) (r : NodeReport) : result string () :=
  if negb (bool_decide (nr_network_id r = ac_network_id c)) then Err "report belongs to another network"%string else
  _ ← validate_label "node_name" (nr_node_name r);
  validate_host (nr_advertise_host r).

(** The header's text, when it is one. *)
Definition bearer_token (authorization : option string) : option string :=
  authorization ≫= λ value, str_strip_prefix value "Bearer ".

(** [shell_arg]: a quote ends the quoted text, is written escaped, and begins it
    again. *)
Definition quote_byte (b : byte) : bytes :=
  if bool_decide (b = byte_of_Z 39) then [byte_of_Z 39; byte_of_Z 92; byte_of_Z 39; byte_of_Z 39] else [b].
Definition shell_arg (value : string) : string :=
  str_of_bytes ([byte_of_Z 39] ++ mjoin (quote_byte <$> str_bytes value) ++ [byte_of_Z 39]).

Definition format_unix (ts : Z) : string := ("unix:" ++ uint_to_string ts)%string.

(** What a [GET] of the local gateway gives. *)
Inductive LocalAnswer :=
| LocalJson (v : JsonTree)
| LocalBadJson (text : string)
| LocalStatus (status : string)
| LocalFailed (text : string).

Definition json_error (text : string) : JsonTree := JObject [("error"%string, JString text)].
Definition admin_get_json (a : LocalAnswer) : JsonTree :=
  match a with
  | LocalJson v => v
  | LocalBadJson text | LocalFailed text => json_error text
  | LocalStatus status => json_error ("HTTP " ++ status)
  end.
Definition json_service_state (payload : JsonTree) : string :=
  match json_get "error" payload with Some _ => "inactive" | None => "active" end.

(** What a request meets: the mode, the readings of the clock in order, the local
    gateway's five answers, the states systemd gives, two random texts and the
    outcome of saving. *)
Record FleetEnv := {
  fe_docker : bool;
  fe_clock : nat → Z;
  fe_status : LocalAnswer;
  fe_sync : LocalAnswer;
  fe_p2p : LocalAnswer;
  fe_mempool : LocalAnswer;
  fe_indexer : LocalAnswer;
  fe_systemd : ServiceStates;
  fe_random : nat → string;
  fe_saved : result string ();
}.

Definition multiaddr (c : AdminConfig) : string :=
  ("/dns4/" ++ ac_advertise_host c ++ "/tcp/" ++ uint_to_string (ac_p2p_port c))%string.

Definition collect_local_report (c : AdminConfig) (env : FleetEnv) (now : Z) : NodeReport :=
  let status := admin_get_json (fe_status env) in let sync := admin_get_json (fe_sync env) in let p2p := admin_get_json (fe_p2p env) in
  let mempool := admin_get_json (fe_mempool env) in let indexer := admin_get_json (fe_indexer env) in
  let services := if fe_docker env
    then mkServices (json_service_state p2p) (json_service_state status) (json_service_state indexer) "active"
    else fe_systemd env in
  mkReport (ac_network_id c) (ac_node_name c) (ac_advertise_host c) (multiaddr c) now services status sync p2p mempool indexer.

(** A handler's refusal: the status and the message. *)
Abbreviation refusal := (Z * string)%type.
Definition bad_request (message : string) : refusal := (400, message).
Definition unauthorized (message : string) : refusal := (401, message).
Definition internal (message : string) : refusal := (500, message).

Section app.
Context `{Primitives} (f64_as_u64 : string → option Z) (config : AdminConfig).

Definition zmax (l : list Z) : Z := foldr Z.max 0 l.

(** [sum] wraps in release builds. *)
Definition build_topology (local : option NodeReport) (now : Z) (d : FleetData) : FleetTopology :=
  let nodes := (match local with Some r => [node_view f64_as_u64 "local-controller" r now] | None => [] end)
    ++ node_views f64_as_u64 now d in
  {| ft_mode := "Observed fleet telemetry; not a global network census";
     ft_network_id := ac_network_id config;
     ft_generated_at := now;
     ft_registered_node_count := Z.of_nat (length nodes);
     ft_online_node_count := Z.of_nat (length (filter (λ n, nv_online n = true) nodes));
     ft_direct_validated_connections := foldl (wrapping_add 64) 0 (nv_validating_peers <$> nodes);
     ft_observed_miner_count := zmax (nv_mining_peers <$> nodes);
     ft_observed_hashrate_hs := zmax (nv_observed_hashrate_hs <$> nodes);
     ft_nodes := nodes |}.

Definition install_command (request : InvitationRequest) (controller token seed : string) : string :=
  let bundle := shell_arg (ac_release_bundle_url config) in
  ("set -euo pipefail" ++ NEWLINE ++ "install -d -m 0755 /opt/vireon-agent" ++ NEWLINE
   ++ "test -z " ++ DOUBLE_QUOTE ++ "$(ls -A /opt/vireon-agent)" ++ DOUBLE_QUOTE
   ++ " || { echo 'Refusing to overwrite /opt/vireon-agent' >&2; exit 73; }" ++ NEWLINE
   ++ "curl -fsSL " ++ bundle ++ " -o /tmp/vireon-docker-control-plane.tar.gz" ++ NEWLINE
   ++ "curl -fsSL " ++ bundle ++ ".sha256 -o /tmp/vireon-docker-control-plane.tar.gz.sha256" ++ NEWLINE
   ++ "cd /tmp" ++ NEWLINE ++ "sha256sum -c vireon-docker-control-plane.tar.gz.sha256" ++ NEWLINE
   ++ "tar -xzf vireon-docker-control-plane.tar.gz -C /opt/vireon-agent" ++ NEWLINE
   ++ "cd /opt/vireon-agent/vireon-release/vps-control-plane" ++ NEWLINE
   ++ "./scripts/enroll-docker-node.sh --node-name " ++ shell_arg (ir_node_name request)
   ++ " --p2p-host " ++ shell_arg (ir_advertise_host request) ++ " --email " ++ shell_arg (ir_acme_email request)
   ++ " --controller-url " ++ shell_arg controller ++ " --enrollment-token " ++ shell_arg token
   ++ " --seed " ++ shell_arg seed ++ " --release-bundle-url " ++ bundle ++ NEWLINE)%string.

Definition enrollment_steps (request : InvitationRequest) (expires_at : Z) (command : string) : list EnrollmentStep :=
  [mkStep "1 - Prepare DNS and firewall"
     ("Point DNS for " ++ ir_advertise_host request ++ " to the new host and open TCP " ++ uint_to_string (ac_p2p_port config) ++ " for P2P.") None;
   mkStep "2 - SSH to the new host" "Use a clean Ubuntu 24.04 machine. Run the install script as root (sudo)."
     (Some ("ssh root@" ++ ir_advertise_host request));
   mkStep "3 - Run one-time enrollment install"
     ("Token expires at " ++ format_unix expires_at ++ ". Single-use only. Grants fleet telemetry, not consensus privilege.") (Some command);
   mkStep "4 - Verify in this panel"
     "Within about 15-45 seconds the node should appear ONLINE under Nodes / Topology after its first report." None]%string.

Abbreviation route A := (state_result FleetStore refusal A).

(** A store operation in a handler, its error mapped. *)
Definition sr_map_err {S E F A} (f : E → F) (m : state_result S E A) : state_result S F A := λ s,
  let '(r, s) := m s in (map_err f r, s).
Definition read_data : route FleetData := λ s, (Ok (fs_data s), s).

Definition create_invitation (env : FleetEnv) (request : InvitationRequest) : route InvitationResponse :=
  _ ← sr_lift (map_err bad_request (validate_label "node_name" (ir_node_name request)));
  _ ← sr_lift (map_err bad_request (validate_host (ir_advertise_host request)));
  _ ← sr_lift (map_err bad_request match ir_admin_domain request with Some domain => validate_host domain | None => Ok () end);
  _ ← sr_lift (map_err bad_request (validate_email (ir_acme_email request)));
  invite ← sr_map_err internal (FleetStore_create_invitation (fe_random env 0) (fe_random env 1) (fe_saved env)
    (ir_node_name request) (ir_advertise_host request) (fe_clock env 0) (ac_invitation_ttl_seconds config));
  let controller := match ir_admin_domain request with
    | Some domain => ("https://" ++ domain)%string
    | None => ("https://" ++ ac_advertise_host config)%string
    end in
  let seed := multiaddr config in
  if negb (fe_docker env) then sr_lift (Err (bad_request "VPS enrollment is available only in Docker deployment mode")) else
  if str_is_empty (str_trim (ac_release_bundle_url config))
  then sr_lift (Err (bad_request "Docker enrollment requires an immutable release_bundle_url")) else
  let command := install_command request controller (ci_token invite) seed in
  mret {| rp_invitation_id := ci_id invite; rp_expires_at := ci_expires_at invite; rp_install_command := command;
          rp_steps := enrollment_steps request (ci_expires_at invite) command; rp_seed_multiaddr := seed;
          rp_controller_url := controller; rp_node_name := ir_node_name request;
          rp_advertise_host := ir_advertise_host request; rp_ttl_seconds := ac_invitation_ttl_seconds config |}.

Definition enroll (env : FleetEnv) (request : EnrollmentRequest) : route (string * string) :=
  _ ← sr_lift (map_err bad_request (validate_report config (er_report request)));
  sr_map_err unauthorized (FleetStore_enroll (fe_random env 0) (fe_random env 1) (fe_saved env)
    (er_invitation_token request) (er_report request) (fe_clock env 0)).

Definition fleet_report (env : FleetEnv) (authorization : option string) (request : ReportRequest) : route () :=
  _ ← sr_lift (map_err bad_request (validate_report config (rr_report request)));
  token ← sr_lift (ok_or (unauthorized "missing bearer token") (bearer_token authorization));
  sr_map_err unauthorized (FleetStore_update_report (fe_saved env) (rr_node_id request) token (rr_report request)).

Definition local_topology (env : FleetEnv) : route FleetTopology :=
  d ← read_data;
  mret (build_topology (Some (collect_local_report config env (fe_clock env 0))) (fe_clock env 1) d).

Definition fleet_overview (env : FleetEnv) : route AdminOverview :=
  t ← local_topology env;
  mret {| ao_mode := "Mainnet Candidate / VPS Fleet Prototype"; ao_status_label := ac_status_label config;
          ao_local := collect_local_report config env (fe_clock env 0); ao_topology := t |}.

Definition node_detail (env : FleetEnv) (node_id : string) : route NodeDetailView :=
  let now := fe_clock env 0 in
  if bool_decide (node_id = "local-controller"%string) then
    let local := collect_local_report config env (fe_clock env 1) in
    mret {| nd_node := node_view f64_as_u64 "local-controller" local now; nd_report := local; nd_is_local_controller := true |}
  else
    d ← read_data;
    report ← sr_lift (ok_or (bad_request "node not found") (get_node_report node_id d));
    mret {| nd_node := node_view f64_as_u64 node_id report now; nd_report := report; nd_is_local_controller := false |}.

(** [fleet_summary]: the topology, the pending invitations, all of them, and the
    local height and tip; the rest are the configuration's fields. *)
Record FleetSummary := {
  sm_topology : FleetTopology;
  sm_pending : Z;
  sm_invitations : list InvitationView;
  sm_local_height : option JsonTree;
  sm_local_tip : option JsonTree;
  sm_generated_at : Z;
}.
Definition fleet_summary (env : FleetEnv) : route FleetSummary :=
  let local := collect_local_report config env (fe_clock env 0) in
  t ← local_topology env;
  d ← read_data;
  let invitations := invitation_views (fe_clock env 2) d in
  mret {| sm_topology := t; sm_pending := Z.of_nat (length (filter (λ i, vw_status i = "pending"%string) invitations));
          sm_invitations := invitations; sm_local_height := json_get "height" (nr_status local);
          sm_local_tip := json_get "tip_hash" (nr_status local); sm_generated_at := fe_clock env 3 |}.

(** [router]: the requests, and their answers. *)
Inductive FleetRequest :=
| GetAsset (path : string)
| GetHealth
| GetPublicTopology
| PostEnroll (request : EnrollmentRequest)
| PostReport (authorization : option string) (request : ReportRequest)
| GetOverview
| GetTopology
| GetNode (node_id : string)
| DeleteNode (node_id : string)
| GetInvitations
| PostInvitation (request : InvitationRequest)
| DeleteInvitation (invitation_id : string)
| GetSummary.

Inductive FleetAnswer :=
| AnAsset (path : string)
| AHealth
| ATopology (t : FleetTopology)
| AnOverview (o : AdminOverview)
| ANode (d : NodeDetailView)
| AnInvitation (r : InvitationResponse)
| Invitations (l : list InvitationView)
| Enrolled (node_id node_token : string)
| ASummary (s : FleetSummary)
| NoContent.

(** The routes behind [require_proxy_auth]. *)
Definition protected_route (r : FleetRequest) : bool :=
  match r with GetAsset _ | GetHealth | GetPublicTopology | PostEnroll _ | PostReport _ _ => false | _ => true end.
Definition require_proxy_auth (header : option string) : bool := bool_decide (header = Some "1"%string).

Definition fleet_route (env : FleetEnv) (r : FleetRequest) : route FleetAnswer :=
  match r with
  | GetAsset path => mret (AnAsset path)
  | GetHealth => mret AHealth
  | GetPublicTopology | GetTopology => t ← local_topology env; mret (ATopology t)
  | PostEnroll request => '(node_id, node_token) ← enroll env request; mret (Enrolled node_id node_token)
  | PostReport authorization request => _ ← fleet_report env authorization request; mret NoContent
  | GetOverview => o ← fleet_overview env; mret (AnOverview o)
  | GetNode node_id => d ← node_detail env node_id; mret (ANode d)
  | DeleteNode node_id => _ ← sr_map_err bad_request (FleetStore_remove_node (fe_saved env) node_id); mret NoContent
  | GetInvitations => d ← read_data; mret (Invitations (invitation_views (fe_clock env 0) d))
  | PostInvitation request => i ← create_invitation env request; mret (AnInvitation i)
  | DeleteInvitation id => _ ← sr_map_err bad_request (FleetStore_revoke_invitation (fe_saved env) id); mret NoContent
  | GetSummary => s ← fleet_summary env; mret (ASummary s)
  end.

(** [header]: the value of [x-vireon-admin-authenticated], when it is text. *)
Definition fleet_handle (env : FleetEnv) (header : option string) (r : FleetRequest) : route FleetAnswer :=
  if protected_route r && negb (require_proxy_auth header)
  then sr_lift (Err (unauthorized "admin reverse-proxy authentication required"))
  else fleet_route env r.

End app.

(** ** The agent ([run_agent_reporter]) *)

(** [agent-credentials.json]. *)
Inductive CredentialsFile :=
| CredentialsAbsent
| CredentialsUnreadable (text : string)
| CredentialsMalformed (text : string)
| CredentialsJson (v : JsonTree).
(** What writing it does: refused, torn, or written without the mode set. *)
Inductive CredentialsWrite := CredWritten | CredRefused (text : string) | CredTorn (text : string) | CredNoMode (text : string).

Record AgentFiles := mkAgent { ag_credentials : CredentialsFile; ag_invitation : option string }.

Definition credentials_json (node_id node_token : string) : JsonTree :=
  JObject [("node_id", JString node_id); ("node_token", JString node_token)]%string.

Definition write_private_json (o : CredentialsWrite) (v : JsonTree) : state_result CredentialsFile string () := λ file,
  match o with
  | CredWritten => (Ok (), CredentialsJson v)
  | CredRefused text => (Err text, file)
  | CredTorn text => (Err text, CredentialsMalformed text)
  | CredNoMode text => (Err text, CredentialsJson v)
  end.

Section agent.
(** The controller reached over HTTP: its state and what a post gives. *)
Context {S : Type} (post_enroll : EnrollmentRequest → state_result S string (string * string))
  (post_report : string → ReportRequest → state_result S string ()).

(** The agent's files and the controller. *)
Abbreviation net A := (state_result (AgentFiles * S) string A).
Definition on_controller {A} (m : state_result S string A) : net A := λ '(files, s), let '(r, s) := m s in (r, (files, s)).
Definition set_credentials (f : CredentialsFile) (a : AgentFiles) : AgentFiles := mkAgent f (ag_invitation a).

(** [removed]: whether removing the invitation's file succeeds. *)
Definition report_once (report : NodeReport) (written : CredentialsWrite) (removed : bool) : net () :=
  '(files, _) ← sr_get;
  match ag_credentials files with
  | CredentialsUnreadable text | CredentialsMalformed text => sr_lift (Err text)
  | CredentialsJson credentials =>
      node_id ← sr_lift (ok_or "agent credentials missing node_id"%string (json_get "node_id" credentials ≫= as_str));
      node_token ← sr_lift (ok_or "agent credentials missing node_token"%string (json_get "node_token" credentials ≫= as_str));
      on_controller (post_report node_token (mkReportRequest node_id report))
  | CredentialsAbsent =>
      token ← sr_lift (ok_or "waiting for enrollment.token"%string (ag_invitation files));
      '(node_id, node_token) ← on_controller (post_enroll (mkEnrollment (str_trim token) report));
      _ ← (λ '(files, s), let '(r, file) := write_private_json written (credentials_json node_id node_token) (ag_credentials files) in
             (r, (set_credentials file files, s)));
      sr_modify (λ '(files, s), (mkAgent (ag_credentials files) (if removed then None else ag_invitation files), s))
  end.

(** The reports of an agent with a controller: errors are printed and the loop goes
    on. *)
Fixpoint run_agent_reporter (controller_url : option string) (reports : list (NodeReport * CredentialsWrite * bool))
    (st : AgentFiles * S) : AgentFiles * S :=
  match controller_url with
  | Some url =>
      if str_is_empty url then st else
      match reports with
      | [] => st
      | (report, written, removed) :: rest => run_agent_reporter controller_url rest (report_once report written removed st).2
      end
  | None => st
  end.

End agent.

(** ** What the controller of a fleet promises: a node is listed only after presenting
    the token of an invitation made for its name and host, one node per invitation;
    a value in the install command is read back by the shell as it is; an invited
    agent joins and reports.  And where an identity, a refused invitation and a
    failed write escape these rules. *)

(** ** What a request does to the store *)

Section effects.
Context `{Primitives} (f64_as_u64 : string → option Z) (config : AdminConfig).

Abbreviation run_handle := (fleet_handle f64_as_u64 config).

Definition authenticated (header : option string) : Prop := require_proxy_auth header = true.

(** An enrollment: the invitation's place, and the invitation. *)
Definition joins (env : FleetEnv) (request : EnrollmentRequest) (d : FleetData) (k : nat) (i : Invitation) : Prop :=
  validate_report config (er_report request) = Ok () ∧ fd_invitations d !! k = Some i ∧
  in_token_hash i = token_hash (er_invitation_token request) ∧ in_used i = false ∧ fe_clock env 0 < in_expires_at i ∧
  in_node_name i = nr_node_name (er_report request) ∧ in_advertise_host i = nr_advertise_host (er_report request).

Definition joined_node (env : FleetEnv) (request : EnrollmentRequest) : FleetNode :=
  mkFleetNode (fe_random env 0) (token_hash (fe_random env 1)) (er_report request).

Inductive fleet_effect (env : FleetEnv) (header : option string) : FleetRequest → FleetData → FleetData → Prop :=
| Unchanged r d : fleet_effect env header r d d
| Invited request d : authenticated header →
    validate_label "node_name" (ir_node_name request) = Ok () → validate_host (ir_advertise_host request) = Ok () →
    fleet_effect env header (PostInvitation request) d
      (mkFleet (filter (λ i, open_at (fe_clock env 0) i = true) (fd_invitations d)
        ++ [mkInvitation (fe_random env 1) (token_hash (fe_random env 0))
              (saturating_add 64 (fe_clock env 0) (ac_invitation_ttl_seconds config)) false
              (ir_node_name request) (ir_advertise_host request)]) (fd_nodes d))
| Joined request d k i : joins env request d k i →
    fleet_effect env header (PostEnroll request) d
      (mkFleet (alter mark_used k (fd_invitations d)) (fd_nodes d ++ [joined_node env request]))
| Reported authorization request d k n token : validate_report config (rr_report request) = Ok () →
    fd_nodes d !! k = Some n → fn_id n = rr_node_id request →
    bearer_token authorization = Some token → fn_token_hash n = token_hash token →
    fleet_effect env header (PostReport authorization request) d
      (mkFleet (fd_invitations d) (alter (set_report (rr_report request)) k (fd_nodes d)))
| Revoked id d : authenticated header →
    fleet_effect env header (DeleteInvitation id) d (mkFleet (filter (λ i, in_id i ≠ id) (fd_invitations d)) (fd_nodes d))
| Removed id d : authenticated header → id ≠ "local-controller"%string →
    fleet_effect env header (DeleteNode id) d (mkFleet (fd_invitations d) (filter (λ n, fn_id n ≠ id) (fd_nodes d))).

Lemma fleet_save_data saved s r s' : fleet_save saved s = (r, s') → fs_data s' = fs_data s.
Proof. unfold fleet_save. by destruct saved; intros [= _ <-]. Qed.

Ltac find_first Ef :=
  match goal with |- context [@list_find ?A ?P ?d ?l] => destruct (@list_find A P d l) as [f|] eqn:Ef end.

(** A state computation's steps are run one after the other. *)
Ltac run_store := cbv [mbind state_result_bind sr_lift sr_get sr_modify mret state_result_ret sr_map_err read_data];
  repeat (case_match; simplify_eq/=); intros; simplify_eq/=;
  repeat match goal with E : fleet_save _ _ = _ |- _ => apply fleet_save_data in E; cbn in E end.

Lemma topology_reads env s r s' : local_topology f64_as_u64 config env s = (r, s') → s' = s.
Proof. unfold local_topology. by run_store. Qed.

Lemma create_effect env request s r s' header :
  authenticated header → create_invitation config env request s = (r, s') →
  fleet_effect env header (PostInvitation request) (fs_data s) (fs_data s').
Proof.
  intros Ha. unfold create_invitation, FleetStore_create_invitation.
  destruct (validate_label "node_name" _) as [[]|] eqn:E1; [|run_store; apply Unchanged].
  destruct (validate_host (ir_advertise_host request)) as [[]|] eqn:E2; [|run_store; apply Unchanged].
  run_store; try apply Unchanged;
    match goal with E : fs_data ?s = _ |- _ => rewrite E; by apply Invited end.
Qed.

Lemma enroll_effect env request s r s' header :
  enroll config env request s = (r, s') → fleet_effect env header (PostEnroll request) (fs_data s) (fs_data s').
Proof.
  unfold enroll, FleetStore_enroll. destruct (validate_report config (er_report request)) as [[]|] eqn:Ev; [|run_store; apply Unchanged].
  cbv [mbind state_result_bind sr_lift sr_get sr_map_err map_err].
  find_first Ef; [destruct f as [k i]|intros; simplify_eq/=; apply Unchanged].
  apply list_find_Some in Ef as (Hk & [Hh Hu] & _).
  destruct (_ <=? _) eqn:Ee; [intros; simplify_eq/=; apply Unchanged|].
  destruct (_ || _) eqn:En; [intros; simplify_eq/=; apply Unchanged|]. apply orb_false_iff in En as [En Eh].
  run_store; match goal with E : fs_data ?s = _ |- _ => rewrite E end;
    apply Joined with (i := i); unfold joins; breflect; split_and!; try done; lia.
Qed.

Lemma report_effect env authorization request s r s' header :
  fleet_report config env authorization request s = (r, s') →
  fleet_effect env header (PostReport authorization request) (fs_data s) (fs_data s').
Proof.
  unfold fleet_report, FleetStore_update_report. destruct (validate_report config (rr_report request)) as [[]|] eqn:Ev; [|run_store; apply Unchanged].
  destruct (bearer_token authorization) as [token|] eqn:Et; [|run_store; apply Unchanged].
  cbv [mbind state_result_bind sr_lift sr_get sr_map_err map_err ok_or].
  find_first Ef; [destruct f as [k n]|intros; simplify_eq/=; apply Unchanged].
  apply list_find_Some in Ef as (Hk & [Hi Hh] & _).
  run_store; match goal with E : fs_data ?s = _ |- _ => rewrite E end; by eapply Reported.
Qed.

(** Every request has one of these effects on the data. *)
Lemma fleet_handle_effect env header r s a s' :
  run_handle env header r s = (a, s') → fleet_effect env header r (fs_data s) (fs_data s').
Proof.
  unfold fleet_handle. destruct (protected_route r && negb (require_proxy_auth header)) eqn:Ep; [run_store; apply Unchanged|].
  assert (protected_route r = true → authenticated header) as Ha.
  { intros Hp. rewrite Hp in Ep. by apply negb_false_iff in Ep. }
  assert (∀ x, local_topology f64_as_u64 config env s = x → x.2 = s) as Ht.
  { intros [r0 s0] E. exact (topology_reads _ _ _ _ E). }
  destruct r; cbn [fleet_route protected_route] in *; unfold fleet_overview, fleet_summary, node_detail.
  1, 2, 3, 6, 7, 8, 10, 13:
    repeat match goal with |- context [local_topology ?f ?c ?e] =>
      destruct (local_topology f c e s) as [r0 s0] eqn:El; pose proof (Ht _ eq_refl) as Hs; cbn in Hs; subst s0; clear Ht;
      revert El; cbv [mbind state_result_bind sr_lift sr_get sr_modify mret state_result_ret sr_map_err read_data];
      intros -> end; try (run_store; apply Unchanged).
  - cbv [mbind state_result_bind mret state_result_ret]. destruct (enroll config env request s) as [[[i t]|e] s1] eqn:E; intros; simplify_eq/=; by eapply enroll_effect.
  - cbv [mbind state_result_bind mret state_result_ret]. destruct (fleet_report _ _ _ _ _) as [[]  s1] eqn:E; intros; simplify_eq/=; by eapply report_effect.
  - unfold FleetStore_remove_node. destruct (bool_decide _) eqn:Eb; breflect; [run_store; apply Unchanged|].
    run_store; try (match goal with E : fs_data ?s = _ |- _ => rewrite E end); first [by apply Removed, Eb; apply Ha | by apply Removed; [apply Ha|]].
  - cbv [mbind state_result_bind mret state_result_ret]. destruct (create_invitation _ _ _ _) as [[] s1] eqn:E; intros; simplify_eq/=; eapply create_effect; eauto.
  - unfold FleetStore_revoke_invitation. run_store; try (match goal with E : fs_data ?s = _ |- _ => rewrite E end); by apply Revoked, Ha.
Qed.

(** ** Runs of requests *)

(** A request: what it meets, the proxy's header, and what is asked. *)
Abbreviation fleet_query := (FleetEnv * option string * FleetRequest)%type.
Definition fleet_run (requests : list fleet_query) (s : FleetStore) : FleetStore :=
  foldl (λ s q, (run_handle q.1.1 q.1.2 q.2 s).2) s requests.

Lemma fleet_run_snoc requests q s :
  fleet_run (requests ++ [q]) s = (run_handle q.1.1 q.1.2 q.2 (fleet_run requests s)).2.
Proof. unfold fleet_run. by rewrite foldl_app. Qed.

Lemma fleet_run_effect q s : fleet_effect q.1.1 q.1.2 q.2 (fs_data s) (fs_data (run_handle q.1.1 q.1.2 q.2 s).2).
Proof. destruct (run_handle _ _ _ _) as [a s'] eqn:E. by apply fleet_handle_effect in E. Qed.

(** An invitation asked for by the administrator. *)
Definition invites (q : fleet_query) : bool :=
  require_proxy_auth q.1.2 && match q.2 with PostInvitation _ => true | _ => false end.
Definition unused (d : FleetData) : list Invitation := filter (λ i, in_used i = false) (fd_invitations d).

Lemma filter_filter_length {A} (P Q : A → Prop) `{∀ x, Decision (P x)} `{∀ x, Decision (Q x)} l :
  (length (filter P (filter Q l)) <= length (filter P l))%nat.
Proof. rewrite list_filter_filter. induction l as [|x l IH]; [done|]. rewrite !filter_cons. repeat case_decide; cbn; first [lia | tauto]. Qed.

Lemma used_one_less l k i : l !! k = Some i → in_used i = false →
  S (length (filter (λ i, in_used i = false) (alter mark_used k l))) = length (filter (λ i, in_used i = false) l).
Proof.
  revert k. induction l as [|x l IH]; intros [|k] Hk Hu; cbn in Hk; try done.
  - injection Hk as ->. change (alter mark_used 0%nat (i :: l)) with (mark_used i :: l).
    rewrite filter_cons_False by done. by rewrite filter_cons_True by done.
  - change (alter mark_used (S k) (x :: l)) with (x :: alter mark_used k l). rewrite !filter_cons.
    specialize (IH k Hk Hu). case_decide; cbn; lia.
Qed.

(** Each node takes an invitation of its own. *)
Lemma effect_counts q d d' : fleet_effect q.1.1 q.1.2 q.2 d d' →
  (length (fd_nodes d') + length (unused d') <= length (fd_nodes d) + length (unused d) + if invites q then 1 else 0)%nat.
Proof.
  destruct q as [[env header] r]. cbn [fst snd]. intros He. unfold unused, invites. cbn [fst snd].
  destruct He as [| |? ? ? ? (_ & Hk & _ & Hu & _)| | |]; cbn [fd_nodes fd_invitations].
  - lia.
  - unfold authenticated in *. rewrite filter_app, length_app, filter_cons_True, filter_nil by done.
    match goal with E : require_proxy_auth _ = true |- _ => rewrite E end. cbn [andb length].
    pose proof (filter_filter_length (λ i, in_used i = false) (λ i, open_at (fe_clock env 0) i = true) (fd_invitations d)). lia.
  - rewrite length_app, <- (used_one_less _ _ _ Hk Hu). cbn [length]. lia.
  - rewrite length_alter. lia.
  - pose proof (filter_filter_length (λ i, in_used i = false) (λ i, in_id i ≠ id) (fd_invitations d)). lia.
  - pose proof (length_filter (λ n, fn_id n ≠ id) (fd_nodes d)). lia.
Qed.

(** An invitation comes from a request of the administrator for its name and host. *)
Definition invited_by (requests : list fleet_query) (i : Invitation) : Prop :=
  ∃ before q after request, requests = before ++ q :: after ∧ authenticated q.1.2 ∧ q.2 = PostInvitation request ∧
    in_token_hash i = token_hash (fe_random q.1.1 0) ∧ in_node_name i = ir_node_name request ∧
    in_advertise_host i = ir_advertise_host request.

(** A node comes from an enrollment with the token of such an invitation. *)
Definition enrolled_by (requests : list fleet_query) (s0 : FleetStore) (n : FleetNode) : Prop :=
  ∃ before q after request k i, requests = before ++ q :: after ∧ q.2 = PostEnroll request ∧
    joins q.1.1 request (fs_data (fleet_run before s0)) k i ∧ invited_by before i ∧
    fn_id n = fe_random q.1.1 0 ∧ fn_token_hash n = token_hash (fe_random q.1.1 1).

Lemma invited_by_app requests q i : invited_by requests i → invited_by (requests ++ [q]) i.
Proof.
  intros (before & q' & after & request & -> & Hr). exists before, q', (after ++ [q]), request.
  split; [by rewrite <- app_assoc | done].
Qed.
Lemma enrolled_by_app requests q s0 n : enrolled_by requests s0 n → enrolled_by (requests ++ [q]) s0 n.
Proof.
  intros (before & q' & after & request & k & i & -> & Hr). exists before, q', (after ++ [q]), request, k, i.
  split; [by rewrite <- app_assoc | done].
Qed.

(** What a request leaves: an invitation is the same but for its use, or new. *)
Lemma effect_invitations env header r d d' i : fleet_effect env header r d d' → i ∈ fd_invitations d' →
  (∃ i0, i0 ∈ fd_invitations d ∧ (i = i0 ∨ i = mark_used i0)) ∨
  (∃ request, authenticated header ∧ r = PostInvitation request ∧ in_token_hash i = token_hash (fe_random env 0) ∧
    in_node_name i = ir_node_name request ∧ in_advertise_host i = ir_advertise_host request).
Proof.
  intros He Hi. destruct He as [| |? ? k i0 (_ & Hk & _)| | |]; cbn [fd_invitations] in Hi; eauto.
  - apply elem_of_app in Hi as [[_ Hi]%list_elem_of_filter | ->%list_elem_of_singleton]; eauto. right. eexists. by split_and!.
  - apply list_elem_of_lookup in Hi as [j Hj]. rewrite list_lookup_alter in Hj. left.
    case_decide; subst; [|exists i; split; [by eapply list_elem_of_lookup_2 | by left]].
    rewrite Hk in Hj. injection Hj as <-. exists i0. split; [by eapply list_elem_of_lookup_2 | by right].
  - apply list_elem_of_filter in Hi as [_ Hi]. eauto.
Qed.

(** A node keeps its id and its token. *)
Lemma effect_nodes env header r d d' n : fleet_effect env header r d d' → n ∈ fd_nodes d' →
  (∃ n0, n0 ∈ fd_nodes d ∧ fn_id n = fn_id n0 ∧ fn_token_hash n = fn_token_hash n0) ∨
  (∃ request k i, r = PostEnroll request ∧ joins env request d k i ∧ n = joined_node env request).
Proof.
  intros He Hn. destruct He as [| |? ? k i0 Hj|? ? ? k n0 ? ? Hk| |]; cbn [fd_nodes] in Hn; eauto.
  - apply elem_of_app in Hn as [Hn | ->%list_elem_of_singleton]; eauto 8.
  - apply list_elem_of_lookup in Hn as [j Hj]. rewrite list_lookup_alter in Hj. left.
    case_decide; subst; [|exists n; split; [by eapply list_elem_of_lookup_2 | done]].
    rewrite Hk in Hj. injection Hj as <-. exists n0. split; [by eapply list_elem_of_lookup_2 | done].
  - apply list_elem_of_filter in Hn as [_ Hn]. eauto.
Qed.

Lemma run_invitations s0 requests i : fs_data s0 = mkFleet [] [] →
  i ∈ fd_invitations (fs_data (fleet_run requests s0)) → invited_by requests i.
Proof.
  intros H0. revert i. induction requests as [|q requests IH] using rev_ind; intros i; [cbn; rewrite H0; by intros ?%elem_of_nil|].
  rewrite fleet_run_snoc. intros Hi. destruct (effect_invitations _ _ _ _ _ _ (fleet_run_effect q _) Hi) as [(i0 & Hi0 & Heq)|Hnew].
  - apply invited_by_app. destruct (IH i0 Hi0) as (b & q' & a & request & Hr). exists b, q', a, request. by destruct Heq as [->| ->].
  - destruct Hnew as (request & Ha & Hr & Hrest). exists requests, q, [], request.
    split; [done|]. split; [exact Ha|]. split; [exact Hr | exact Hrest].
Qed.

(** C17. Whatever requests reach the controller, every node listed was enrolled by the
    token of an invitation that the administrator made for its name and host, not
    expired or used then; and there are never more nodes than the administrator's
    invitations, each of which makes one node at most. *)
Theorem fleet_admission s0 requests :
  fs_data s0 = mkFleet [] [] →
  let d := fs_data (fleet_run requests s0) in
  (∀ n, n ∈ fd_nodes d → enrolled_by requests s0 n) ∧
  (length (fd_nodes d) + length (unused d) <= length (filter (λ q, invites q = true) requests))%nat.
Proof.
  intros H0. cbv zeta. induction requests as [|q requests [IHn IHc]] using rev_ind.
  { cbn. rewrite H0. split; [by intros n ?%elem_of_nil | cbn; lia]. }
  rewrite fleet_run_snoc. split.
  - intros n Hn. destruct (effect_nodes _ _ _ _ _ _ (fleet_run_effect q _) Hn) as [(n0 & Hn0 & Hi & Ht)|(request & k & i & Hr & Hj & ->)].
    + apply enrolled_by_app. destruct (IHn n0 Hn0) as (b & q' & a & request & k & i & Hr).
      exists b, q', a, request, k, i. by rewrite Hi, Ht.
    + exists requests, q, [], request, k, i. split_and!; try done.
      apply (run_invitations s0 requests i H0). exact (list_elem_of_lookup_2 _ _ _ (proj1 (proj2 Hj))).
  - rewrite filter_app, length_app. pose proof (effect_counts q _ _ (fleet_run_effect q (fleet_run requests s0))) as Hc.
    cbn [filter list_filter]. destruct (invites q) eqn:Eq; [rewrite decide_True by done | rewrite decide_False by done]; cbn; lia.
Qed.

End effects.

(** ** Quoting *)

(** How a POSIX shell reads a word: text between single quotes is literal; outside
    them a backslash takes the next byte as it is, a blank or a line's end ends the
    word, and letters, digits and [-_./:] stand for themselves.  The word's text and
    what follows it. *)
Definition blank (b : byte) : bool := (byte_Z b =? 32) || (byte_Z b =? 9) || (byte_Z b =? 10).
Definition plain (b : byte) : bool :=
  alphanumeric b || (byte_Z b =? 45) || (byte_Z b =? 95) || (byte_Z b =? 46) || (byte_Z b =? 47) || (byte_Z b =? 58).
Fixpoint sh_word (quoted : bool) (l : bytes) : option (bytes * bytes) :=
  match l with
  | [] => if quoted then None else Some ([], [])
  | b :: l1 =>
      if bool_decide (b = byte_of_Z 39) then sh_word (negb quoted) l1
      else if quoted then prod_map (cons b) id <$> sh_word true l1
      else if blank b then Some ([], l)
      else if byte_Z b =? 92 then
        match l1 with
        | c :: l2 => if byte_Z c =? 10 then None else prod_map (cons c) id <$> sh_word false l2
        | [] => None
        end
      else if plain b then prod_map (cons b) id <$> sh_word false l1
      else None
  end.

Lemma sh_word_quoted v rest :
  sh_word true (mjoin (quote_byte <$> v) ++ byte_of_Z 39 :: rest) = prod_map (app v) id <$> sh_word false rest.
Proof.
  induction v as [|b v IH].
  - cbn [fmap list_fmap mjoin list_join app sh_word]. rewrite bool_decide_true by done. cbn [negb]. by destruct (sh_word false rest) as [[w r]|].
  - change (mjoin (quote_byte <$> b :: v)) with (quote_byte b ++ mjoin (quote_byte <$> v)).
    rewrite <- app_assoc. unfold quote_byte at 1. destruct (bool_decide (b = byte_of_Z 39)) eqn:E.
    + apply bool_decide_eq_true in E as ->. cbn [app].
      assert (∀ l, sh_word true (byte_of_Z 39 :: byte_of_Z 92 :: byte_of_Z 39 :: byte_of_Z 39 :: l) =
        prod_map (cons (byte_of_Z 39)) id <$> sh_word true l) as -> by done.
      rewrite IH. by destruct (sh_word false rest) as [[w r]|].
    + cbn [app sh_word]. rewrite E, IH. by destruct (sh_word false rest) as [[w r]|].
Qed.

(** The shell reads a quoted argument back as the text that was quoted, whatever
    bytes it has, and goes on after it: no value can leave its place in the install
    command. *)
Theorem shell_arg_reads_back (value : string) rest :
  sh_word false (str_bytes (shell_arg value) ++ rest) = prod_map (app (str_bytes value)) id <$> sh_word false rest.
Proof.
  unfold shell_arg. rewrite str_bytes_of_bytes, <- !app_assoc. cbn [app].
  change (sh_word false (byte_of_Z 39 :: ?l)) with (sh_word true l). apply sh_word_quoted.
Qed.

(** ** Agents *)

Lemma list_find_lookup {A} (P : A → Prop) `{∀ x, Decision (P x)} l k x :
  l !! k = Some x → P x → (∀ j y, l !! j = Some y → P y → j = k) → list_find P l = Some (k, x).
Proof. intros Hk Hp Hu. apply list_find_Some. split_and!; [done..|]. intros j y Hj Hlt HP. specialize (Hu _ _ Hj HP). lia. Qed.

Section agent.
Context `{Primitives} (config : AdminConfig).

(** The controller's routes, reached over HTTP. *)
Definition posted_enroll (env : FleetEnv) (request : EnrollmentRequest) : state_result FleetStore string (string * string) :=
  sr_map_err snd (enroll config env request).
Definition posted_report (env : FleetEnv) (token : string) (request : ReportRequest) : state_result FleetStore string () :=
  sr_map_err snd (fleet_report config env (Some ("Bearer " ++ token)%string) request).
Definition agent_turn (env : FleetEnv) := report_once (posted_enroll env) (posted_report env).

(** The one open invitation for a token. *)
Definition sole_invitation (d : FleetData) (token : string) (k : nat) (i : Invitation) : Prop :=
  fd_invitations d !! k = Some i ∧ in_token_hash i = token_hash token ∧ in_used i = false ∧
  ∀ j i', fd_invitations d !! j = Some i' → in_token_hash i' = token_hash token ∧ in_used i' = false → j = k.

Lemma enroll_sole env token report s k i :
  validate_report config report = Ok () → sole_invitation (fs_data s) token k i → fe_clock env 0 < in_expires_at i →
  in_node_name i = nr_node_name report → in_advertise_host i = nr_advertise_host report →
  let s1 := set_nodes (λ l, l ++ [joined_node env (mkEnrollment token report)]) (set_invitations (alter mark_used k) s) in
  enroll config env (mkEnrollment token report) s =
  match fe_saved env with
  | Ok _ => (Ok (fe_random env 0, fe_random env 1), mkStore (fs_data s1) (FleetJson (fs_data s1)))
  | Err e => (Err (unauthorized e), s1)
  end.
Proof.
  intros Hv (Hk & Hh & Hu & Hsole) He Hn Hhost. cbv zeta. unfold enroll. cbn [er_report er_invitation_token]. rewrite Hv.
  unfold FleetStore_enroll. cbv [mbind state_result_bind sr_lift sr_get sr_map_err map_err].
  rewrite (list_find_lookup _ _ k i Hk (conj Hh Hu) Hsole). destruct (_ <=? _) eqn:E; [blia|].
  rewrite Hn, Hhost, !bool_decide_true by done. cbn. by destruct (fe_saved env).
Qed.

Lemma strip_bearer token : str_strip_prefix ("Bearer " ++ token) "Bearer " = Some token.
Proof.
  unfold str_strip_prefix, str_starts_with.
  change (str_bytes ("Bearer " ++ token)) with (str_bytes "Bearer " ++ str_bytes token).
  rewrite drop_app_length, str_of_bytes_bytes. done.
Qed.
Lemma bearer_text token : bearer_token (Some ("Bearer " ++ token)%string) = Some token.
Proof. exact (strip_bearer token). Qed.

Lemma alter_last {A} (f : A → A) l x : alter f (length l) (l ++ [x]) = l ++ [f x].
Proof. induction l as [|y l IH]; [done|]. cbn. f_equal. exact IH. Qed.

(** A node's report replaces the one before, whatever name and host it gives. *)
Lemma report_known env token report s k n :
  validate_report config report = Ok () → fd_nodes (fs_data s) !! k = Some n → fn_token_hash n = token_hash token →
  (∀ j n', fd_nodes (fs_data s) !! j = Some n' → fn_id n' = fn_id n ∧ fn_token_hash n' = token_hash token → j = k) →
  let s1 := set_nodes (alter (set_report report) k) s in
  posted_report env token (mkReportRequest (fn_id n) report) s =
  match fe_saved env with Ok _ => (Ok (), mkStore (fs_data s1) (FleetJson (fs_data s1))) | Err e => (Err e, s1) end.
Proof.
  intros Hv Hk Ht Hu. cbv zeta. unfold posted_report, fleet_report. cbn [rr_report rr_node_id]. rewrite Hv.
  cbv [mbind state_result_bind sr_lift sr_map_err]. rewrite bearer_text. cbn [map_err ok_or].
  unfold FleetStore_update_report. cbv [mbind state_result_bind sr_lift sr_get].
  rewrite (list_find_lookup _ _ k n Hk (conj eq_refl Ht) Hu). cbv [sr_modify fleet_save]. by destruct (fe_saved env).
Qed.

Lemma credentials_read id token :
  json_get "node_id" (credentials_json id token) ≫= as_str = Some id ∧
  json_get "node_token" (credentials_json id token) ≫= as_str = Some token.
Proof. split; reflexivity. Qed.

Lemma enrolled_turn env report written removed inv id token s :
  agent_turn env report written removed (mkAgent (CredentialsJson (credentials_json id token)) inv, s) =
  let '(r, s') := posted_report env token (mkReportRequest id report) s in
  (r, (mkAgent (CredentialsJson (credentials_json id token)) inv, s')).
Proof.
  unfold agent_turn, report_once. cbv [mbind state_result_bind sr_get]. cbn [ag_credentials].
  destruct (credentials_read id token) as [Hi Ht]. cbv [sr_lift]. cbv [mbind] in Hi, Ht. rewrite Hi, Ht. done.
Qed.

(** An agent with the token of an open invitation for its name and host joins at
    its first report and keeps its credentials; from then on each of its reports is
    taken and shown, as long as the files can be written and the node's id is new. *)
Theorem agent_joins env1 env2 token files report1 report2 written removed s k i :
  ag_credentials files = CredentialsAbsent → ag_invitation files = Some token →
  validate_report config report1 = Ok () → validate_report config report2 = Ok () →
  sole_invitation (fs_data s) (str_trim token) k i → fe_clock env1 0 < in_expires_at i →
  in_node_name i = nr_node_name report1 → in_advertise_host i = nr_advertise_host report1 →
  Forall (λ n, fn_id n ≠ fe_random env1 0) (fd_nodes (fs_data s)) →
  fe_saved env1 = Ok () → fe_saved env2 = Ok () →
  let node r := mkFleetNode (fe_random env1 0) (token_hash (fe_random env1 1)) r in
  ∃ files1 s1 s2,
    agent_turn env1 report1 CredWritten removed (files, s) = (Ok (), (files1, s1)) ∧
    ag_credentials files1 = CredentialsJson (credentials_json (fe_random env1 0) (fe_random env1 1)) ∧
    fd_nodes (fs_data s1) = fd_nodes (fs_data s) ++ [node report1] ∧
    agent_turn env2 report2 written removed (files1, s1) = (Ok (), (files1, s2)) ∧
    fd_nodes (fs_data s2) = fd_nodes (fs_data s) ++ [node report2] ∧ fs_file s2 = FleetJson (fs_data s2).
Proof.
  intros Hc Hi Hv1 Hv2 Hsole Hexp Hn Hh Hfresh Hs1 Hs2. cbv zeta. destruct files as [cred inv]. cbn in Hc, Hi. subst cred inv.
  pose proof (enroll_sole env1 _ report1 s k i Hv1 Hsole Hexp Hn Hh) as He. cbv zeta in He. rewrite Hs1 in He.
  set (s1 := mkStore _ _) in He. eexists _, s1, _. split.
  { unfold agent_turn, report_once. cbv [mbind state_result_bind sr_get]. cbn [ag_credentials ag_invitation ok_or sr_lift].
    unfold on_controller, posted_enroll, sr_map_err. cbn [sr_lift]. rewrite He. cbn. reflexivity. }
  cbn [set_credentials ag_credentials]. split; [done|]. split; [done|].
  rewrite enrolled_turn. assert (fd_nodes (fs_data s1) !! length (fd_nodes (fs_data s)) = Some (joined_node env1 (mkEnrollment (str_trim token) report1))) as Hk.
  { unfold s1. cbn. by rewrite lookup_app_r, Nat.sub_diag. }
  pose proof (report_known env2 (fe_random env1 1) report2 s1 _ _ Hv2 Hk eq_refl) as Hr.
  unfold joined_node in Hr at 1 2. cbn [fn_id] in Hr. rewrite Hr.
  - rewrite Hs2. split; [reflexivity|]. split; [exact (alter_last (set_report report2) (fd_nodes (fs_data s)) (joined_node env1 (mkEnrollment (str_trim token) report1))) | done].
  - intros j y Hj [Hid _]. unfold s1 in Hj. cbn in Hj. apply lookup_app_Some in Hj as [Hj|[Hge Hj]].
    + rewrite Forall_lookup in Hfresh. by destruct (Hfresh j y Hj).
    + apply list_lookup_singleton_Some in Hj as [Hj _]. lia.
Qed.

(** An invitation refused for the deployment mode is made all the same: the request
    fails, and its invitation stays open. *)
Theorem refused_invitation_stays env request s :
  fe_docker env = false → validate_label "node_name" (ir_node_name request) = Ok () →
  validate_host (ir_advertise_host request) = Ok () → ir_admin_domain request = None →
  validate_email (ir_acme_email request) = Ok () → fe_saved env = Ok () →
  ∃ message s', create_invitation config env request s = (Err (400, message), s') ∧
    ∃ i, last (fd_invitations (fs_data s')) = Some i ∧ in_token_hash i = token_hash (fe_random env 0) ∧ in_used i = false ∧
      fs_file s' = FleetJson (fs_data s').
Proof.
  intros Hd Hl Hh Ha He Hs. unfold create_invitation. rewrite Hl, Hh, Ha, He, Hd.
  cbv [mbind state_result_bind sr_lift sr_map_err FleetStore_create_invitation sr_modify fleet_save mret state_result_ret].
  rewrite Hs. cbn. do 2 eexists. split; [reflexivity|]. cbn. rewrite last_snoc. by eexists.
Qed.

(** An enrollment whose save fails uses its invitation up: the agent is refused,
    keeps no credentials, and is refused at every later attempt while the data is as
    the failure left it. *)
Theorem failed_enroll_strands_agent env1 env2 token report report' written1 written2 removed1 removed2 s k i e :
  validate_report config report = Ok () → validate_report config report' = Ok () →
  sole_invitation (fs_data s) (str_trim token) k i → fe_clock env1 0 < in_expires_at i →
  in_node_name i = nr_node_name report → in_advertise_host i = nr_advertise_host report → fe_saved env1 = Err e →
  let files := mkAgent CredentialsAbsent (Some token) in
  ∃ s1, agent_turn env1 report written1 removed1 (files, s) = (Err e, (files, s1)) ∧
    joined_node env1 (mkEnrollment (str_trim token) report) ∈ fd_nodes (fs_data s1) ∧
    agent_turn env2 report' written2 removed2 (files, s1) = (Err "invalid or already used enrollment token"%string, (files, s1)).
Proof.
  intros Hv Hv' Hsole Hexp Hn Hh Hs. cbv zeta.
  pose proof (enroll_sole env1 _ report s k i Hv Hsole Hexp Hn Hh) as He. cbv zeta in He. rewrite Hs in He.
  set (s1 := set_nodes _ _) in He. exists s1. split_and!.
  - unfold agent_turn, report_once. cbv [mbind state_result_bind sr_get]. cbn [ag_credentials ag_invitation ok_or sr_lift].
    unfold on_controller, posted_enroll, sr_map_err. cbn [sr_lift]. rewrite He. reflexivity.
  - unfold s1. cbn. apply elem_of_app. right. by apply list_elem_of_singleton.
  - unfold agent_turn, report_once. cbv [mbind state_result_bind sr_get]. cbn [ag_credentials ag_invitation ok_or sr_lift].
    unfold on_controller, posted_enroll, enroll, FleetStore_enroll, sr_map_err. cbn [er_report er_invitation_token]. rewrite Hv'.
    cbv [mbind state_result_bind sr_lift sr_get map_err].
    match goal with |- context [@list_find ?A ?P ?d ?l] => destruct (@list_find A P d l) as [[j y]|] eqn:Ef end; [|done]. exfalso.
    apply list_find_Some in Ef as (Hj & [Hy Hu] & _). unfold s1 in Hj. cbn in Hj. destruct Hsole as (Hk & _ & _ & Hone).
    rewrite list_lookup_alter in Hj. case_decide; subst.
    + rewrite Hk in Hj. injection Hj as <-. done.
    + by pose proof (Hone j y Hj (conj Hy Hu)).
Qed.

(** The name and host an invitation was made for bind only the enrollment: the next
    report of the node shows any other name and host. *)
Theorem report_changes_identity env token report s k n now f64 :
  validate_report config report = Ok () → fd_nodes (fs_data s) !! k = Some n → fn_token_hash n = token_hash token →
  (∀ j n', fd_nodes (fs_data s) !! j = Some n' → fn_id n' = fn_id n ∧ fn_token_hash n' = token_hash token → j = k) →
  fe_saved env = Ok () →
  ∃ s', posted_report env token (mkReportRequest (fn_id n) report) s = (Ok (), s') ∧
    node_views f64 now (fs_data s') !! k = Some (node_view f64 (fn_id n) report now).
Proof.
  intros Hv Hk Ht Hu Hs. rewrite (report_known env token report s k n Hv Hk Ht Hu), Hs. eexists. split; [reflexivity|].
  unfold node_views. cbn. by rewrite list_lookup_fmap, list_lookup_alter_eq, Hk.
Qed.

End agent.
