(* ===== verification/Updates.v ===== *)
(** [vireon-desktop-tauri/src-tauri/src/updates.rs]: which release of the application
    is an update, what of it is downloaded and checked, and what is installed.  The
    platform, GitHub's answers, the bytes downloaded and the outcomes of file
    operations and installers are arguments; stopping the managed processes, the
    notification and the transfer rates shown are left out. *)

From S2P Require Import Prelude RustStd Interfaces Crypto.

Abbreviation upd A := (result string A).

Inductive Platform := Windows | Linux | OtherPlatform.
#[export] Instance Platform_eq_dec : EqDecision Platform.
Proof. solve_decision. Defined.

Definition GITHUB_REPO : string := "andreidohot/vireon-network".

(** [struct GhAsset], [struct GhRelease], [struct PlannedAsset],
    [struct PlannedUpdate] *)
Record GhAsset := mkAsset { as_name : string; as_url : string; as_size : Z }.
Record GhRelease := mkRelease {
  gr_tag_name : string;
  gr_name : option string;
  gr_published_at : option string;
  gr_draft : bool;
  gr_assets : list GhAsset;
}.
Record PlannedAsset := mkPlanned { pa_role : string; pa_asset : GhAsset }.
Record PlannedUpdate := mkPlan {
  pu_tag : string;
  pu_release_name : string;
  pu_release_date : option string;
  pu_assets : list PlannedAsset;
  pu_checksum_asset : GhAsset;
}.

(** ** Versions *)

Definition is_digit (b : byte) : bool := (48 <=? byte_Z b) && (byte_Z b <=? 57).

Definition normalize_tag (tag : string) : string :=
  let s := str_trim tag in
  match str_bytes s with
  | v :: ((d :: _) as rest) =>
      if ((byte_Z v =? 118) || (byte_Z v =? 86)) && is_digit d then str_trim (str_of_bytes rest) else s
  | _ => s
  end.
Definition tags_equal (a b : string) : bool := eq_ignore_ascii_case (normalize_tag a) (normalize_tag b).

Definition is_non_desktop_release_tag (tag : string) : bool :=
  let t := str_to_ascii_lowercase (str_trim tag) in
  str_starts_with t "vps-control" || str_starts_with t "vps-" || str_contains t "vps-control".

(** [struct AppVersion] *)
Record AppVersion := mkVersion { av_major : Z; av_minor : Z; av_patch : Z; av_pre : option string }.

(** The longest prefix of digits and dots. *)
Fixpoint numeric_prefix (l : bytes) : bytes :=
  match l with
  | b :: l' => if is_digit b || (byte_Z b =? 46) then b :: numeric_prefix l' else []
  | [] => []
  end.
Definition before_plus (l : bytes) : bytes := match split_once (byte_of_Z 43) l with Some (a, _) => a | None => l end.

Definition parse_version_at (s : bytes) : option AppVersion :=
  let '(numeric, pre_part) := match split_once (byte_of_Z 45) s with
    | Some (num, pre) => (num, Some pre)
    | None => (before_plus s, None)
    end in
  match split_on (byte_of_Z 46) (numeric_prefix numeric) with
  | a :: b :: c :: _ =>
      major ← parse_uint_bytes 64 a; minor ← parse_uint_bytes 64 b; patch ← parse_uint_bytes 64 c;
      let pre := (λ p, str_to_ascii_lowercase (str_trim (str_of_bytes (before_plus p)))) <$> pre_part in
      Some (mkVersion major minor patch (if bool_decide (pre = Some ""%string) then None else pre))
  | _ => None
  end.

(** The first place of the text where a version parses. *)
Fixpoint first_version (l : bytes) : option AppVersion :=
  match l with
  | [] => None
  | b :: l' =>
      match (if is_digit b then parse_version_at l else None) with
      | Some v => Some v
      | None => first_version l'
      end
  end.
Definition parse_app_version (raw : string) : option AppVersion :=
  if str_is_empty (str_trim raw) || is_non_desktop_release_tag raw then None else
  first_version (str_bytes (normalize_tag raw)).

(** A part of a prerelease label: numbers are below other texts. *)
Definition compare_parts (a b : bytes) : comparison :=
  match parse_uint_bytes 64 a, parse_uint_bytes 64 b with
  | Some x, Some y => x ?= y
  | Some _, None => Lt
  | None, Some _ => Gt
  | None, None => str_cmp (str_of_bytes a) (str_of_bytes b)
  end.
Fixpoint compare_labels (ls rs : list bytes) : comparison :=
  match ls, rs with
  | [], [] => Eq
  | [], _ :: _ => Lt
  | _ :: _, [] => Gt
  | a :: ls, b :: rs => match compare_parts a b with Eq => compare_labels ls rs | c => c end
  end.
Definition compare_prerelease (a b : string) : comparison :=
  compare_labels (split_on (byte_of_Z 46) (str_bytes a)) (split_on (byte_of_Z 46) (str_bytes b)).

Definition is_strictly_newer (remote local : AppVersion) : bool :=
  if negb (av_major remote =? av_major local) then av_major remote >? av_major local else
  if negb (av_minor remote =? av_minor local) then av_minor remote >? av_minor local else
  if negb (av_patch remote =? av_patch local) then av_patch remote >? av_patch local else
  match av_pre remote, av_pre local with
  | None, None => false
  | None, Some _ => true
  | Some _, None => false
  | Some a, Some b => bool_decide (compare_prerelease a b = Gt)
  end.

(** ** Which assets *)

Definition has (l : string) (p : string) : bool := str_contains l p.

(** The roles of a platform in order, with the lowercased names that fill them. *)
Definition asset_roles (p : Platform) : list (string * (string → bool)) :=
  match p with
  | Windows =>
      [("control_center_setup", λ l, (has l "control" && has l "setup" && str_ends_with l ".exe")
          || (has l "vireon-control-center" && str_ends_with l ".exe" && has l "win"));
       ("miner", λ l, has l "vireon-miner" && (has l "windows" || has l "msvc" || str_ends_with l "vireon-miner.exe"));
       ("keystore", λ l, has l "keystore" && (has l "windows" || has l "msvc" || str_ends_with l ".exe"));
       ("node", λ l, has l "vireon-node" && (has l "windows" || has l "msvc" || str_ends_with l "vireon-node.exe"));
       ("rpc", λ l, (has l "rpc-gateway" || has l "vireon-rpc") && (has l "windows" || has l "msvc" || str_ends_with l ".exe"))]
  | Linux =>
      [("control_center_setup", λ l, has l "control" && str_ends_with l ".appimage");
       ("control_center_setup", λ l, has l "control" && str_ends_with l ".deb");
       ("miner", λ l, has l "vireon-miner" && (has l "linux" || negb (has l "windows")) && negb (str_ends_with l ".exe"));
       ("keystore", λ l, has l "keystore" && (has l "linux" || negb (has l "windows")) && negb (str_ends_with l ".exe"));
       ("node", λ l, has l "vireon-node" && negb (str_ends_with l ".exe") && negb (has l "windows"));
       ("rpc", λ l, (has l "rpc-gateway" || has l "vireon-rpc") && negb (str_ends_with l ".exe") && negb (has l "windows"))]
  | OtherPlatform => []
  end%string.

(** [push]: the first asset of a role not yet filled. *)
Definition push_role (assets : list GhAsset) (out : list PlannedAsset) (r : string * (string → bool)) : list PlannedAsset :=
  if existsb (λ a, bool_decide (pa_role a = r.1)) out then out else
  match List.find (λ a, r.2 (str_to_ascii_lowercase (as_name a))) assets with
  | Some a => out ++ [mkPlanned r.1 a]
  | None => out
  end.
Definition plan_assets (p : Platform) (assets : list GhAsset) : list PlannedAsset :=
  foldl (push_role assets) [] (asset_roles p).

(** ** Which release *)

Definition is_newer_than (v : AppVersion) (o : option AppVersion) : bool :=
  match o with Some w => is_strictly_newer v w | None => true end.

(** A release of the list: skipped, the answer, or the error. *)
Inductive Judged := Skip | Answer (r : upd (option PlannedUpdate)).
Definition judge_release (p : Platform) (current : AppVersion) (applied_norm : string) (rel : GhRelease) : Judged :=
  let applied_ver := if str_is_empty applied_norm then None else parse_app_version applied_norm in
  if gr_draft rel then Skip else
  if is_non_desktop_release_tag (gr_tag_name rel) then Skip else
  let assets := plan_assets p (gr_assets rel) in
  if bool_decide (length assets = 0%nat) then Skip else
  match List.find (λ a, eq_ignore_ascii_case (as_name a) "SHA256SUMS") (gr_assets rel) with
  | None => Answer (Err ("release " ++ gr_tag_name rel ++ " has executable assets but no SHA256SUMS; refusing update")%string)
  | Some checksum_asset =>
      let tag_norm := normalize_tag (gr_tag_name rel) in
      if negb (str_is_empty applied_norm) && tags_equal tag_norm applied_norm then Answer (Ok None) else
      match parse_app_version tag_norm with
      | None => Skip
      | Some remote_ver =>
          if negb (is_strictly_newer remote_ver current) then Skip else
          if negb (is_newer_than remote_ver applied_ver) then Skip else
          Answer (Ok (Some (mkPlan (gr_tag_name rel) (default (gr_tag_name rel) (gr_name rel)) (gr_published_at rel)
            assets checksum_asset)))
      end
  end.
Fixpoint pick_release (p : Platform) (current : AppVersion) (applied_norm : string) (releases : list GhRelease) :
    upd (option PlannedUpdate) :=
  match releases with
  | [] => Ok None
  | rel :: releases =>
      match judge_release p current applied_norm rel with
      | Skip => pick_release p current applied_norm releases
      | Answer r => r
      end
  end.

(** [applied]: the text of [applied-tag.txt], if it can be read. *)
Definition load_applied_tag (applied : option string) : string := str_trim (default ""%string applied).
Definition fetch_latest_update (p : Platform) (package_version : string) (applied : option string)
    (releases : upd (list GhRelease)) : upd (option PlannedUpdate) :=
  releases ← releases;
  match parse_app_version package_version with
  | None => Ok None
  | Some current_ver => pick_release p current_ver (normalize_tag (load_applied_tag applied)) releases
  end.

(** ** Checksums *)

(** [Path]: one component that is a file's name. *)
Definition has_byte (z : Z) (l : bytes) : bool := existsb (λ b, byte_Z b =? z) l.
Definition is_letter (b : byte) : bool := alphanumeric b && negb (is_digit b).
Definition is_file_name (p : Platform) (name : string) : bool :=
  let l := str_bytes name in
  negb (bool_decide (name ∈ [""; "."; ".."]%string)) && negb (has_byte 47 l)
  && match p with
     | Windows => negb (has_byte 92 l) && match l with d :: c :: _ => negb (is_letter d && (byte_Z c =? 58)) | _ => true end
     | _ => true
     end.
Definition safe_component (p : Platform) (name : string) : upd string :=
  if is_file_name p name then Ok name else Err ("unsafe release asset name: " ++ name)%string.

Definition is_hex_digit (b : byte) : bool :=
  is_digit b || (65 <=? byte_Z b) && (byte_Z b <=? 70) || (97 <=? byte_Z b) && (byte_Z b <=? 102).

Definition sums_line (p : Platform) (sums : gmap string string) (numbered : nat * string) : upd (gmap string string) :=
  let '(line_number, line) := numbered in
  let line := str_trim line in
  if str_is_empty line then Ok sums else
  let fields := split_whitespace line in
  let digest := str_to_ascii_lowercase (default ""%string (fields !! 0%nat)) in
  let name := trim_start_matches (byte_of_Z 42) (default ""%string (fields !! 1%nat)) in
  if negb (str_len digest =? 64) || negb (forallb is_hex_digit (str_bytes digest)) || str_is_empty name
     || bool_decide (2 < length fields)%nat
  then Err ("invalid SHA256SUMS entry at line " ++ uint_to_string (Z.of_nat line_number + 1))%string else
  _ ← safe_component p name;
  match sums !! name with
  | Some _ => Err ("duplicate SHA256SUMS entry for " ++ name)%string
  | None => Ok (<[name := digest]> sums)
  end.
Definition parse_sha256sums (p : Platform) (input : string) : upd (gmap string string) :=
  sums ← try_fold (sums_line p) ∅ (imap pair (str_lines input));
  if bool_decide (size sums = 0%nat) then Err "SHA256SUMS is empty"%string else Ok sums.

(** ** The service *)

(** [struct UpdateState], with the bytes transferred and their total as the
    progress. *)
Record UpdateState := mkUpdateState {
  us_phase : string;
  us_available_version : option string;
  us_release_name : option string;
  us_release_date : option string;
  us_message : string;
  us_manual : bool;
  us_progress : option (Z * Z);
  us_components : list string;
}.
Definition UpdateState_default : UpdateState := mkUpdateState "idle" None None None
  "Update checks use GitHub Releases; installation requires approval and SHA-256 verification." false None [].

(** The outcomes of [std::fs::copy]: done; refused with the target as it was; or
    failed after the target was opened, which truncates it, with [n] bytes written. *)
Inductive CopyOutcome := CopyDone | CopyRefused (error : string) | CopyTorn (n : nat) (error : string).

(** The service, the staged files, and what was put in place or run: a sidecar's
    target with the bytes it now holds, after a copy or after one that failed part
    way, or the command line of an installer that was started or could not be, with
    the file's bytes. *)
Inductive Applied :=
| Copied (target : string) (contents : bytes)
| Torn (target : string) (left : bytes)
| Ran (command : list string) (contents : bytes).
Record UpdateWorld := mkUpdateWorld {
  uw_state : UpdateState;
  uw_applying : bool;
  uw_stage : gmap string bytes;
  uw_applied_tag : option string;
  uw_effects : list Applied;
}.
Definition set_update_state (f : UpdateState → UpdateState) (w : UpdateWorld) : UpdateWorld :=
  mkUpdateWorld (f (uw_state w)) (uw_applying w) (uw_stage w) (uw_applied_tag w) (uw_effects w).
Definition set_applying (b : bool) (w : UpdateWorld) : UpdateWorld :=
  mkUpdateWorld (uw_state w) b (uw_stage w) (uw_applied_tag w) (uw_effects w).
Definition set_stage (f : gmap string bytes → gmap string bytes) (w : UpdateWorld) : UpdateWorld :=
  mkUpdateWorld (uw_state w) (uw_applying w) (f (uw_stage w)) (uw_applied_tag w) (uw_effects w).
Definition set_applied_tag (t : option string) (w : UpdateWorld) : UpdateWorld :=
  mkUpdateWorld (uw_state w) (uw_applying w) (uw_stage w) t (uw_effects w).
Definition add_effect (a : Applied) (w : UpdateWorld) : UpdateWorld :=
  mkUpdateWorld (uw_state w) (uw_applying w) (uw_stage w) (uw_applied_tag w) (uw_effects w ++ [a]).

(** The settings of the application that matter here. *)
Record UpdateSettings := { st_auto_update : bool; st_notify_updates : bool }.

(** What an update meets: the directories and the client made, each asset's bytes or the transfer's error, the outcomes of
    staging, of copying to a target and of an installer's run, of writing the applied
    tag, and where sidecars go. *)
Record UpdateEnv := {
  ue_platform : Platform;
  ue_package_version : string;
  ue_releases : upd (list GhRelease);
  ue_stage_dir : string;
  ue_stage_root : upd ();
  ue_stage_made : upd ();
  ue_client : upd ();
  ue_fetch : GhAsset → upd bytes;
  ue_staged : string → upd ();
  ue_copy : string → CopyOutcome;
  ue_run : list string → upd ();
  ue_persisted : upd ();
  ue_resources : option (string * string);
  ue_workspace : option string;
}.

Abbreviation update A := (state_result UpdateWorld string A).

Section service.
Context `{Primitives} (env : UpdateEnv).

Abbreviation platform := (ue_platform env).
Abbreviation path_text a b := (a ++ "/" ++ b)%string.

(** The whole answer in memory, its size checked, then the file. *)
Definition download_asset (asset : GhAsset) (dest : string) : update Z :=
  contents ← sr_lift (ue_fetch env asset);
  if (as_size asset >? 0) && negb (Z.of_nat (length contents) =? as_size asset)
  then sr_lift (Err ("downloaded size mismatch for " ++ as_name asset ++ ": expected " ++ uint_to_string (as_size asset)
         ++ ", got " ++ uint_to_string (Z.of_nat (length contents)))%string) else
  _ ← sr_lift (ue_staged env dest);
  _ ← sr_modify (set_stage (insert dest contents));
  mret (Z.of_nat (length contents)).

Definition verify_asset_checksum (path asset_name : string) (checksums : gmap string string) : update () :=
  expected ← sr_lift (ok_or ("SHA256SUMS has no entry for " ++ asset_name)%string (checksums !! asset_name));
  w ← sr_get;
  contents ← sr_lift (ok_or "No such file or directory"%string (uw_stage w !! path));
  let actual := hash_to_hex (sha256 contents) in
  if negb (eq_ignore_ascii_case actual expected)
  then sr_lift (Err ("SHA-256 mismatch for " ++ asset_name ++ ": expected " ++ expected ++ ", got " ++ actual)%string)
  else mret ().

Definition exe (name : string) : string := match platform with Windows => (name ++ ".exe")%string | _ => name end.
Definition sidecar_file (role : string) : option string :=
  if bool_decide (role = "miner") then Some (exe "vireon-miner")
  else if bool_decide (role = "keystore") then Some (exe "vireon-keystore-helper")
  else if bool_decide (role = "node") then Some (exe "vireon-node")
  else if bool_decide (role = "rpc") then Some (exe "vireon-rpc-gateway")
  else if bool_decide (role = "indexer") then Some (exe "vireon-indexer")
  else None.
Definition helper_triple : string :=
  match platform with
  | Windows => "vireon-keystore-helper-x86_64-pc-windows-msvc.exe"
  | _ => "vireon-keystore-helper-x86_64-unknown-linux-gnu"
  end.
(** [ue_resources]: the resource directory and its parent. *)
Definition sidecar_targets (role file_name : string) : list string :=
  match ue_resources env with
  | Some (res, parent) =>
      [path_text (path_text res "bin") file_name]
      ++ (if bool_decide (role = "keystore") then [path_text (path_text parent "binaries") helper_triple] else [])
  | None => []
  end
  ++ match ue_workspace env with
     | Some ws =>
         [path_text (path_text (path_text ws "target") "release") file_name;
          path_text (path_text (path_text (path_text (path_text ws "vireon-desktop-tauri") "src-tauri") "resources") "bin") file_name]
         ++ (if bool_decide (role = "keystore")
             then [path_text (path_text (path_text (path_text ws "vireon-desktop-tauri") "src-tauri") "binaries") helper_triple]
             else [])
     | None => []
     end.

(** Copying to every target: how many took it, and the failures. *)
Fixpoint copy_all (contents : bytes) (targets : list string) (w : UpdateWorld) : Z * list string * UpdateWorld :=
  match targets with
  | [] => (0, [], w)
  | target :: targets =>
      match ue_copy env target with
      | CopyDone => let '(n, failures, w) := copy_all contents targets (add_effect (Copied target contents) w) in (n + 1, failures, w)
      | CopyRefused e => let '(n, failures, w) := copy_all contents targets w in (n, (target ++ ": " ++ e)%string :: failures, w)
      | CopyTorn k e =>
          let '(n, failures, w) := copy_all contents targets (add_effect (Torn target (take k contents)) w) in
          (n, (target ++ ": " ++ e)%string :: failures, w)
      end
  end.
Definition join_errors (l : list string) : string := String.concat "; " l.
Definition install_sidecar (role path : string) : update () :=
  match sidecar_file role with
  | None => mret ()
  | Some file_name => λ w,
      let contents := default [] (uw_stage w !! path) in
      let '(installed, failures, w) := copy_all contents (sidecar_targets role file_name) w in
      if installed =? 0 then (Err ("could not install " ++ role ++ " sidecar: " ++ join_errors failures)%string, w) else (Ok (), w)
  end.

(** [run_silent_setup]: the command, and that it ran the file. *)
Definition setup_command (path : string) : list string :=
  match platform with
  | Windows => [path; "/S"]
  | _ => if str_ends_with path ".deb" then ["pkexec"; "dpkg"; "-i"; path] else [path; "--appimage-extract-and-run"]
  end%string.
Definition run_installer (command : list string) (path : string) : update () := λ w,
  (ue_run env command, add_effect (Ran command (default [] (uw_stage w !! path))) w).
Definition run_silent_setup (path : string) : update () := run_installer (setup_command path) path.
Definition run_silent_msi (path : string) : update () :=
  run_installer ["msiexec.exe"; "/i"; path; "/qn"; "/norestart"]%string path.

Definition install_one (role path : string) : update () :=
  if bool_decide (role ∈ ["miner"; "keystore"; "node"; "rpc"; "indexer"]%string) then install_sidecar role path
  else if bool_decide (role = "control_center_setup"%string) then run_silent_setup path
  else if bool_decide (role = "control_center_msi"%string) then run_silent_msi path
  else mret ().
Fixpoint install_all (files : list (string * string)) (w : UpdateWorld) : list string * UpdateWorld :=
  match files with
  | [] => ([], w)
  | (role, path) :: files =>
      let '(r, w) := install_one role path w in
      let '(errors, w) := install_all files w in
      (match r with Ok _ => errors | Err e => (role ++ ": " ++ e)%string :: errors end, w)
  end.

(** The downloads: each asset is staged and checked before the next. *)
Fixpoint fetch_assets (stage : string) (checksums : gmap string string) (total transferred : Z) (assets : list PlannedAsset) :
    update (list (string * string)) :=
  match assets with
  | [] => mret []
  | planned :: assets =>
      let name := as_name (pa_asset planned) in
      component ← sr_lift (safe_component platform name);
      let dest := path_text stage component in
      n ← download_asset (pa_asset planned) dest;
      let transferred := wrapping_add 64 transferred n in
      _ ← sr_modify (set_update_state (λ s, mkUpdateState (us_phase s) (us_available_version s) (us_release_name s) (us_release_date s)
            (us_message s) (us_manual s) (Some (transferred, total)) (us_components s)));
      _ ← verify_asset_checksum dest name checksums;
      rest ← fetch_assets stage checksums total transferred assets;
      mret ((pa_role planned, dest) :: rest)
  end.

Definition in_phase (phase message : string) (progress : option (Z * Z)) (s : UpdateState) : UpdateState :=
  mkUpdateState phase (us_available_version s) (us_release_name s) (us_release_date s) message (us_manual s) progress (us_components s).

Definition apply_inner (plan : PlannedUpdate) : update () :=
  _ ← sr_lift (ue_stage_root env);
  tag ← sr_lift (safe_component platform (pu_tag plan));
  _ ← sr_lift (ue_stage_made env);
  _ ← sr_lift (ue_client env);
  let stage := path_text (ue_stage_dir env) tag in
  let total := saturating_add 64 (foldl (wrapping_add 64) 0 ((λ a, Z.max (as_size (pa_asset a)) 1) <$> pu_assets plan))
    (Z.max (as_size (pu_checksum_asset plan)) 1) in
  _ ← sr_modify (set_update_state (in_phase "downloading"
        ("Downloading " ++ pu_tag plan ++ " and its SHA256SUMS from GitHub...") (Some (0, total))));
  component ← sr_lift (safe_component platform (as_name (pu_checksum_asset plan)));
  let checksum_dest := path_text stage component in
  transferred ← download_asset (pu_checksum_asset plan) checksum_dest;
  w ← sr_get;
  checksum_text ← sr_lift (ok_or "cannot read SHA256SUMS: stream did not contain valid UTF-8"%string
    (uw_stage w !! checksum_dest ≫= from_utf8));
  checksums ← sr_lift (parse_sha256sums platform checksum_text);
  local_files ← fetch_assets stage checksums total transferred (pu_assets plan);
  _ ← sr_modify (set_update_state (in_phase "installing" "SHA-256 verified. Applying the approved update..." None));
  install_errors ← (λ w, let '(errors, w) := install_all local_files w in (Ok errors, w));
  if bool_decide (install_errors ≠ []) then
    _ ← sr_modify (set_update_state (in_phase "error" ("Update " ++ pu_tag plan ++ " was verified but installation failed: "
          ++ join_errors install_errors) None));
    sr_lift (Err (join_errors install_errors))
  else
    _ ← sr_lift (ue_persisted env);
    _ ← sr_modify (set_applied_tag (Some (pu_tag plan)));
    sr_modify (set_update_state (λ s, mkUpdateState "idle" None (us_release_name s) (us_release_date s)
      ("Approved update " ++ pu_tag plan ++ " was verified and installed. Restart Control Center if the shell package changed.")
      (us_manual s) None (us_components s))).

(** One update at a time. *)
Definition apply (plan : PlannedUpdate) : update () := λ w,
  if uw_applying w then (Ok (), w) else
  let '(result, w) := apply_inner plan (set_applying true w) in
  (result, set_applying false w).

Definition latest_update (w : UpdateWorld) : upd (option PlannedUpdate) :=
  fetch_latest_update platform (ue_package_version env) (uw_applied_tag w) (ue_releases env).

(** The operator's approval. *)
Definition download : update () :=
  w ← sr_get;
  plan ← sr_lift (latest_update w);
  plan ← sr_lift (ok_or "no newer verified release is available"%string plan);
  apply plan.

(** The background check, which only tells. *)
Definition check_for_update (settings : UpdateSettings) (manual : bool) (w : UpdateWorld) : UpdateWorld :=
  if uw_applying w then w else
  if negb (st_auto_update settings) && negb manual && negb (st_notify_updates settings) then w else
  let w := set_update_state (λ s, mkUpdateState "checking" (us_available_version s) (us_release_name s) (us_release_date s)
    ("Checking GitHub Releases (" ++ GITHUB_REPO ++ ") for verified application updates...") manual None []) w in
  match latest_update w with
  | Ok (Some planned) =>
      let roles := pa_role <$> pu_assets planned in
      set_update_state (λ s, mkUpdateState "available" (Some (pu_tag planned)) (Some (pu_release_name planned)) (pu_release_date planned)
        ("Update " ++ pu_tag planned ++ " detected (" ++ String.concat ", " roles ++ "). Review and approve download to install.")
        (us_manual s) (us_progress s) roles) w
  | Ok None =>
      set_update_state (λ s, mkUpdateState "idle" None None (us_release_date s)
        "Control Center is current - no newer GitHub release assets detected." (us_manual s) None []) w
  | Err e =>
      set_update_state (λ s, mkUpdateState "error" (us_available_version s) (us_release_name s) (us_release_date s)
        ("GitHub update check failed: " ++ e) (us_manual s) None (us_components s)) w
  end.

(** [install], whose restart stops the processes and closes the window. *)
Definition install (settings : UpdateSettings) (w : UpdateWorld) : UpdateWorld :=
  if bool_decide (us_phase (uw_state w) ∈ ["downloaded"; "idle"; "available"]%string) then w
  else check_for_update settings true w.

End service.

(** ** What the updates of the desktop application promise: versions are strictly
    ordered, an offered release is newer than the application and than the release
    applied last, and only files that match the release's checksums are installed or
    run.  And where a check or a download fails without need or without saying so. *)

(** ** The order of versions *)

Lemma cmp_Lt_le {A} (c : A → A → comparison) `{!TotalCmp c} x y z : c x y = Lt → c y z ≠ Gt → c x z = Lt.
Proof.
  intros Hxy Hyz. assert (c x z ≠ Gt) as Hle by (apply (cmp_le_trans c x y z); congruence).
  destruct (c x z) eqn:E; [|done..]. assert (c z x = Eq) as E1 by (by rewrite (cmp_opp c x z), E).
  assert (c z y = Lt) as E2 by (by rewrite (cmp_Eq_compat c z x y E1)). by rewrite (cmp_opp c z y), E2 in Hyz.
Qed.

#[export] Instance total_parts : TotalCmp compare_parts.
Proof.
  unfold compare_parts. split.
  - intros x y. destruct (parse_uint_bytes 64 x), (parse_uint_bytes 64 y); try done; [apply Z.compare_antisym | apply (cmp_opp str_cmp)].
  - intros x y z. destruct (parse_uint_bytes 64 x), (parse_uint_bytes 64 y), (parse_uint_bytes 64 z); try done.
    + rewrite !Z.compare_ngt_iff. lia.
    + apply (cmp_le_trans str_cmp).
Qed.

#[export] Instance total_labels : TotalCmp compare_labels.
Proof.
  split.
  - intros x. induction x as [|a x IH]; intros [|b y]; cbn [compare_labels]; try done.
    rewrite (cmp_opp compare_parts a b). destruct (compare_parts a b); cbn; auto.
  - intros x. induction x as [|a x IH]; intros [|b y] [|c z]; cbn [compare_labels]; try done.
    destruct (compare_parts a b) eqn:E1; [| |done].
    + rewrite (cmp_Eq_compat compare_parts a b c E1). destruct (compare_parts b c); try done. apply IH.
    + intros _ Hbc. rewrite (cmp_Lt_le compare_parts a b c E1); [done|]. by destruct (compare_parts b c).
Qed.

(** A prerelease is below the release of its numbers. *)
Definition pre_cmp (a b : option string) : comparison :=
  match a, b with
  | None, None => Eq
  | None, Some _ => Gt
  | Some _, None => Lt
  | Some a, Some b => compare_prerelease a b
  end.
#[export] Instance total_pre {A} (f : A → option string) : TotalCmp (λ x y, pre_cmp (f x) (f y)).
Proof.
  unfold pre_cmp, compare_prerelease. split.
  - intros x y. destruct (f x), (f y); try done. apply (cmp_opp compare_labels).
  - intros x y z. destruct (f x), (f y), (f z); try done. apply (cmp_le_trans compare_labels).
Qed.

(** The lexicographic order of the fields. *)
Definition version_cmp (v w : AppVersion) : comparison :=
  then_with (av_major v ?= av_major w) (then_with (av_minor v ?= av_minor w)
    (then_with (av_patch v ?= av_patch w) (pre_cmp (av_pre v) (av_pre w)))).
#[export] Instance total_version : TotalCmp version_cmp.
Proof.
  apply (total_cmp_then (λ v w, av_major v ?= av_major w)); [apply total_cmp_Zkey|].
  apply (total_cmp_then (λ v w, av_minor v ?= av_minor w)); [apply total_cmp_Zkey|].
  apply (total_cmp_then (λ v w, av_patch v ?= av_patch w)); [apply total_cmp_Zkey | apply total_pre].
Qed.

Lemma strictly_newer_Gt v w : is_strictly_newer v w = true ↔ version_cmp v w = Gt.
Proof.
  unfold is_strictly_newer, version_cmp, then_with, pre_cmp.
  destruct (Z.compare_spec (av_major v) (av_major w)) as [->|?|?]; [rewrite Z.eqb_refl; cbn|breflect; case_match; breflect; split; try lia; done..].
  destruct (Z.compare_spec (av_minor v) (av_minor w)) as [->|?|?]; [rewrite Z.eqb_refl; cbn|breflect; case_match; breflect; split; try lia; done..].
  destruct (Z.compare_spec (av_patch v) (av_patch w)) as [->|?|?]; [rewrite Z.eqb_refl; cbn|breflect; case_match; breflect; split; try lia; done..].
  destruct (av_pre v), (av_pre w); try done. by rewrite bool_decide_eq_true.
Qed.

(** [is_strictly_newer] is a strict order, the lexicographic one of numbers and
    prerelease labels, under which two versions that are not ordered are equally new:
    no sequence of updates can return to a version it left. *)
Theorem strictly_newer_is_order :
  StrictOrder (λ v w, is_strictly_newer v w = true) ∧
  ∀ v w, is_strictly_newer v w = true ∨ is_strictly_newer w v = true ∨
    (version_cmp v w = Eq ∧ ∀ u, is_strictly_newer u v = is_strictly_newer u w).
Proof.
  split; [split|].
  - intros v Hv%strictly_newer_Gt. by rewrite (cmp_refl version_cmp) in Hv.
  - intros u v w Huv%strictly_newer_Gt Hvw%strictly_newer_Gt. apply strictly_newer_Gt.
    assert (version_cmp w v = Lt) as Hwv by (by rewrite (cmp_opp version_cmp v w), Hvw).
    assert (version_cmp v u = Lt) as Hvu by (by rewrite (cmp_opp version_cmp u v), Huv).
    rewrite (cmp_opp version_cmp w u). rewrite (cmp_Lt_le version_cmp w v u Hwv); [done | by rewrite Hvu].
  - intros v w. rewrite !strictly_newer_Gt. rewrite (cmp_opp version_cmp v w).
    destruct (version_cmp v w) eqn:E; auto. right; right. split; [done|]. intros u.
    apply eq_true_iff_eq. rewrite !strictly_newer_Gt, (cmp_opp version_cmp v u), (cmp_opp version_cmp w u).
    by rewrite (cmp_Eq_compat version_cmp v w u E).
Qed.

(** ** The release offered *)

Lemma plan_assets_from p assets a : a ∈ plan_assets p assets → pa_asset a ∈ assets.
Proof.
  unfold plan_assets. assert (∀ rs out, (∀ a, a ∈ out → pa_asset a ∈ assets) →
    ∀ a, a ∈ foldl (push_role assets) out rs → pa_asset a ∈ assets) as Hind.
  { induction rs as [|r rs IH]; intros out Hout b; [apply Hout|]. cbn [foldl]. apply IH. intros c. unfold push_role.
    destruct (existsb _ _); [apply Hout|]. destruct (List.find _ _) as [x|] eqn:Ef; [|apply Hout].
    intros [Hc| ->%list_elem_of_singleton]%elem_of_app; [by apply Hout|]. apply find_some in Ef as [Hx _]. by apply list_elem_of_In. }
  apply Hind. by intros b ?%elem_of_nil.
Qed.

(** What is offered is a published desktop release of the list, with its own assets
    and checksums, strictly newer than the application and than the release applied
    last. *)
Theorem offered_is_newer p package_version applied releases plan :
  fetch_latest_update p package_version applied releases = Ok (Some plan) →
  ∃ rels rel current v, releases = Ok rels ∧ rel ∈ rels ∧ gr_draft rel = false ∧ is_non_desktop_release_tag (gr_tag_name rel) = false ∧
    pu_tag plan = gr_tag_name rel ∧ pu_assets plan = plan_assets p (gr_assets rel) ∧
    (∀ a, a ∈ pu_assets plan → pa_asset a ∈ gr_assets rel) ∧
    pu_checksum_asset plan ∈ gr_assets rel ∧ eq_ignore_ascii_case (as_name (pu_checksum_asset plan)) "SHA256SUMS" = true ∧
    parse_app_version package_version = Some current ∧ parse_app_version (normalize_tag (pu_tag plan)) = Some v ∧
    is_strictly_newer v current = true ∧
    (∀ w, parse_app_version (normalize_tag (load_applied_tag applied)) = Some w → is_strictly_newer v w = true).
Proof.
  unfold fetch_latest_update. intros (rels & -> & Hp)%bind_Ok. destruct (parse_app_version package_version) as [current|]; [|done].
  set (norm := normalize_tag (load_applied_tag applied)) in *. exists rels.
  enough (∃ rel v, rel ∈ rels ∧ gr_draft rel = false ∧ is_non_desktop_release_tag (gr_tag_name rel) = false ∧
    pu_tag plan = gr_tag_name rel ∧ pu_assets plan = plan_assets p (gr_assets rel) ∧
    pu_checksum_asset plan ∈ gr_assets rel ∧ eq_ignore_ascii_case (as_name (pu_checksum_asset plan)) "SHA256SUMS" = true ∧
    parse_app_version (normalize_tag (pu_tag plan)) = Some v ∧ is_strictly_newer v current = true ∧
    (∀ w, parse_app_version norm = Some w → is_strictly_newer v w = true)) as (rel & v & Hin & Hd & Hn & Ht & Ha & Hc & Hs & Hv & Hnew & Hw).
  { exists rel, current, v. split_and!; try done. rewrite Ha. intros a. apply plan_assets_from. }
  induction rels as [|rel rels IH]; cbn [pick_release] in Hp; [done|].
  destruct (judge_release p current norm rel) as [|r] eqn:Ej.
  { destruct (IH Hp) as (rel' & v & Hin & Hrest). exists rel', v. split; [by apply list_elem_of_further | done]. }
  subst r. exists rel. unfold judge_release in Ej. destruct (gr_draft rel); [done|].
  destruct (is_non_desktop_release_tag _) eqn:En; [done|]. destruct (bool_decide _); [done|].
  destruct (List.find _ _) as [sums|] eqn:Ef; [|done]. apply find_some in Ef as [Hsums Hname]. destruct (_ && _); [done|].
  destruct (parse_app_version (normalize_tag (gr_tag_name rel))) as [v|] eqn:Ev; [|done].
  destruct (is_strictly_newer v current) eqn:E1; [|done]. cbn [negb] in Ej. destruct (is_newer_than _ _) eqn:E2; [|done].
  injection Ej as <-. exists v. cbn. split_and!; try done; [apply list_elem_of_here | by apply list_elem_of_In|].
  intros w Hw. destruct (str_is_empty norm) eqn:E3; [|by rewrite Hw in E2].
  unfold str_is_empty in E3. apply bool_decide_eq_true in E3. by rewrite E3 in Hw.
Qed.

(** The demand for checksums comes before the comparison of versions: a release in
    the list that is no update, because it is as old as the application or older,
    makes the whole check fail when it lacks them. *)
Theorem old_release_without_sums_fails_check p current norm newer_first rel rest v :
  Forall (λ r, judge_release p current norm r = Skip) newer_first →
  gr_draft rel = false → is_non_desktop_release_tag (gr_tag_name rel) = false → plan_assets p (gr_assets rel) ≠ [] →
  Forall (λ a, eq_ignore_ascii_case (as_name a) "SHA256SUMS" = false) (gr_assets rel) →
  parse_app_version (normalize_tag (gr_tag_name rel)) = Some v → is_strictly_newer v current = false →
  is_err (pick_release p current norm (newer_first ++ rel :: rest)) = true.
Proof.
  intros Hskip Hd Hn Ha Hs Hv Hold. induction Hskip as [|r rs Hr Hskip IH]; cbn [app pick_release]; [|by rewrite Hr].
  unfold judge_release. rewrite Hd, Hn, bool_decide_false by (by destruct (plan_assets p (gr_assets rel))).
  destruct (List.find _ _) as [a|] eqn:Ef; [|done]. apply find_some in Ef as [Hin%list_elem_of_In Hname].
  rewrite Forall_forall in Hs. by rewrite (Hs a Hin) in Hname.
Qed.

(** ** What is installed *)

Section service.
Context `{Primitives} (env : UpdateEnv).

(** What is in place or was run is [c], or the part of it a failed copy left. *)
Definition effect_of (c : bytes) (a : Applied) : Prop :=
  match a with Copied _ x | Ran _ x => x = c | Torn _ x => x `prefix_of` c end.

(** Bytes that have the digest the parsed checksums list for a name. *)
Definition matches (sums : gmap string string) (name : string) (c : bytes) : Prop :=
  ∃ digest, sums !! name = Some digest ∧ eq_ignore_ascii_case (hash_to_hex (sha256 c)) digest = true.
(** The bytes downloaded for an asset, which match. *)
Definition fetched (sums : gmap string string) (a : PlannedAsset) (c : bytes) : Prop :=
  ue_fetch env (pa_asset a) = Ok c ∧ matches sums (as_name (pa_asset a)) c.
(** A staged file that is one of the assets, checked. *)
Definition staged (sums : gmap string string) (dir : string) (all : list PlannedAsset) (m : gmap string bytes) (dest : string) : Prop :=
  ∃ a c, a ∈ all ∧ dest = (dir ++ "/" ++ as_name (pa_asset a))%string ∧ m !! dest = Some c ∧ fetched sums a c.

(** Nothing installed and nothing recorded. *)
Definition quiet (w w' : UpdateWorld) : Prop := uw_effects w' = uw_effects w ∧ uw_applied_tag w' = uw_applied_tag w.

Lemma update_quiet_trans w1 w2 w3 : quiet w1 w2 → quiet w2 w3 → quiet w1 w3.
Proof. unfold quiet. intros [? ?] [? ?]. split; congruence. Qed.

Lemma download_asset_effect asset dest w r w' : download_asset env asset dest w = (r, w') →
  quiet w w' ∧ (∀ n, r = Ok n → ∃ c, ue_fetch env asset = Ok c ∧ uw_stage w' = <[dest := c]> (uw_stage w)).
Proof.
  unfold download_asset. cbv [mbind state_result_bind sr_lift sr_modify mret state_result_ret]. intros Hr.
  repeat (case_match; simplify_eq/=); split; try done; intros; simplify_eq; by eexists.
Qed.

Lemma verify_asset_effect path name sums w r w' : verify_asset_checksum path name sums w = (r, w') →
  w' = w ∧ (r = Ok () → ∃ c, uw_stage w !! path = Some c ∧ matches sums name c).
Proof.
  unfold verify_asset_checksum. cbv [mbind state_result_bind sr_lift sr_get mret state_result_ret ok_or]. intros Hr.
  destruct (sums !! name) as [digest|] eqn:Es; simplify_eq/=; [|done].
  destruct (uw_stage w !! path) as [c|] eqn:Ec; simplify_eq/=; [|done].
  destruct (eq_ignore_ascii_case _ _) eqn:E; simplify_eq/=; [|done].
  split; [done|]. intros _. exists c. split; [done|]. by exists digest.
Qed.

Lemma safe_component_Ok p name x : safe_component p name = Ok x → x = name.
Proof. unfold safe_component. by destruct (is_file_name p name); intros [= <-]. Qed.

Lemma path_text_inj dir a b : (dir ++ "/" ++ a)%string = (dir ++ "/" ++ b)%string → a = b.
Proof. intros Heq. apply (inj (String.append dir)) in Heq. by injection Heq. Qed.

(** When all downloads pass, each asset's bytes matched and every file handed to the
    installers is a checked one, even where two assets share a name. *)
Lemma fetch_assets_effect dir sums total all assets : (∀ a, a ∈ assets → a ∈ all) → ∀ transferred w r w',
  fetch_assets env dir sums total transferred assets w = (r, w') →
  quiet w w' ∧ (∀ files, r = Ok files →
    Forall (λ a, ∃ c, fetched sums a c) assets ∧ Forall (λ f, staged sums dir all (uw_stage w') f.2) files ∧
    ∀ dest, staged sums dir all (uw_stage w) dest → staged sums dir all (uw_stage w') dest).
Proof.
  intros Hall. induction assets as [|a assets IH]; intros transferred w r w'; cbn [fetch_assets].
  { intros [= <- <-]. split; [done|]. intros files [= <-]. split_and!; [apply Forall_nil_2..|done]. }
  unfold mbind at 1, state_result_bind at 1, sr_lift at 1.
  destruct (safe_component _ _) as [name|e] eqn:En; [|intros [= <- <-]; by split]. apply safe_component_Ok in En as ->.
  set (dest := (dir ++ "/" ++ as_name (pa_asset a))%string).
  unfold mbind at 1, state_result_bind at 1. destruct (download_asset env (pa_asset a) dest w) as [[n|e] w1] eqn:Ed;
    apply download_asset_effect in Ed as [Hq1 Hd]; [|intros [= <- <-]; by split]. destruct (Hd n eq_refl) as (c & Hc & Hst).
  rewrite sr_modify_bind. set (w2 := set_update_state _ w1). assert (quiet w w2) as Hq2 by exact Hq1.
  unfold mbind at 1, state_result_bind at 1. destruct (verify_asset_checksum dest _ sums w2) as [[[]|e] w3] eqn:Ev;
    apply verify_asset_effect in Ev as [-> Hv]; [|intros [= <- <-]; by split]. destruct (Hv eq_refl) as (c' & Hc' & Hm).
  assert (uw_stage w2 = <[dest := c]> (uw_stage w)) as Hst2 by exact Hst. rewrite Hst2, lookup_insert_eq in Hc'. injection Hc' as <-.
  assert (staged sums dir all (uw_stage w2) dest) as Hhere.
  { exists a, c. split; [apply Hall, list_elem_of_here|]. split; [done|]. split; [by rewrite Hst2, lookup_insert_eq | done]. }
  assert (∀ d, staged sums dir all (uw_stage w) d → staged sums dir all (uw_stage w2) d) as Hkeep.
  { intros d Hs. destruct (decide (d = dest)) as [->|Hne]; [done|]. destruct Hs as (b & x & Hb & -> & Hx & Hf).
    exists b, x. split; [done|]. split; [done|]. split; [by rewrite Hst2, lookup_insert_ne | done]. }
  unfold mbind at 1, state_result_bind at 1. destruct (fetch_assets env dir sums total _ assets w2) as [[rest|e] w4] eqn:Ef;
    apply IH in Ef as [Hq4 Hr]; [| |intros [= <- <-]; split; [by eapply update_quiet_trans|done]|]; try (intros b Hb; apply Hall; by apply list_elem_of_further).
  intros [= <- <-]. split; [by eapply update_quiet_trans|]. intros files [= <-].
  destruct (Hr rest eq_refl) as (Hfe & Hfi & Hst4). split_and!.
  - apply Forall_cons_2; [by exists c | done].
  - apply Forall_cons_2; [by apply Hst4 | done].
  - intros d Hs. by apply Hst4, Hkeep.
Qed.

(** Installing reads the staged files and leaves them. *)
Definition installs (w w' : UpdateWorld) (path : string) : Prop :=
  uw_stage w' = uw_stage w ∧ uw_applied_tag w' = uw_applied_tag w ∧
  ∃ new, uw_effects w' = uw_effects w ++ new ∧ Forall (effect_of (default [] (uw_stage w !! path))) new.

Lemma installs_none w path : installs w w path.
Proof. split_and!; [done..|]. exists []. by rewrite app_nil_r. Qed.

Lemma copy_all_effect contents targets w n failures w' : copy_all env contents targets w = (n, failures, w') →
  uw_stage w' = uw_stage w ∧ uw_applied_tag w' = uw_applied_tag w ∧
  ∃ new, uw_effects w' = uw_effects w ++ new ∧ Forall (effect_of contents) new.
Proof.
  revert w n failures w'. induction targets as [|t targets IH]; intros w n failures w'; cbn [copy_all].
  { intros [= <- <- <-]. split_and!; [done..|]. exists []. by rewrite app_nil_r. }
  assert (∀ e w1, uw_stage w1 = uw_stage w ∧ uw_applied_tag w1 = uw_applied_tag w ∧
    (∃ new, uw_effects w1 = uw_effects (add_effect e w) ++ new ∧ Forall (effect_of contents) new) → effect_of contents e →
    uw_stage w1 = uw_stage w ∧ uw_applied_tag w1 = uw_applied_tag w ∧
    ∃ new, uw_effects w1 = uw_effects w ++ new ∧ Forall (effect_of contents) new) as Hadd.
  { intros e w1 (Hs & Ht & new & He & Hn) Hc. split_and!; [done..|]. exists (e :: new).
    split; [by rewrite He; cbn; rewrite <- app_assoc | by apply Forall_cons_2]. }
  destruct (ue_copy env t) as [|e|k e]; destruct (copy_all env contents targets _) as [[n1 f1] w1] eqn:E;
    intros [= <- <- <-]; apply IH in E; [| exact E |]; (eapply Hadd; [exact E|]); [done | apply prefix_take].
Qed.

Lemma install_one_effect role path w r w' : install_one env role path w = (r, w') → installs w w' path.
Proof.
  unfold install_one, install_sidecar, run_silent_setup, run_silent_msi, run_installer.
  assert (∀ c, installs w (add_effect (Ran c (default [] (uw_stage w !! path))) w) path) as Hran.
  { intros c. split_and!; [done..|]. eexists. split; [reflexivity | by apply Forall_cons_2; [|apply Forall_nil_2]]. }
  destruct (bool_decide _).
  - destruct (sidecar_file env role) as [file|]; [|intros [= _ <-]; apply installs_none].
    destruct (copy_all env _ _ w) as [[n f] w1] eqn:E. apply copy_all_effect in E. destruct (_ =? _); by intros [= _ <-].
  - repeat case_match; intros [= _ <-]; auto using installs_none.
Qed.

Lemma install_all_effect files w errors w' : install_all env files w = (errors, w') →
  uw_applied_tag w' = uw_applied_tag w ∧ ∃ new, uw_effects w' = uw_effects w ++ new ∧
  Forall (λ e, ∃ f, f ∈ files ∧ effect_of (default [] (uw_stage w !! f.2)) e) new.
Proof.
  revert w errors w'. induction files as [|[role path] files IH]; intros w errors w'; cbn [install_all].
  { intros [= <- <-]. split; [done|]. exists []. by rewrite app_nil_r. }
  destruct (install_one env role path w) as [r w1] eqn:E1. destruct (install_all env files w1) as [es w2] eqn:E2. intros [= _ <-].
  apply install_one_effect in E1 as (Hs & Ht & n1 & He1 & Hn1). apply IH in E2 as (Ht2 & n2 & He2 & Hn2).
  split; [congruence|]. exists (n1 ++ n2). split; [by rewrite He2, He1, app_assoc|]. apply Forall_app. split.
  - eapply Forall_impl; [exact Hn1|]. intros e He. exists (role, path). split; [apply list_elem_of_here | exact He].
  - eapply Forall_impl; [exact Hn2|]. cbn beta. intros e (f & Hf & He). exists f. rewrite Hs in He. split; [by apply list_elem_of_further | exact He].
Qed.

(** A line of a checksum file that lists a digest of 64 hexadecimal digits, read in
    lower case, for a name, which stars may precede. *)
Definition lists_digest (line name digest : string) : Prop :=
  ∃ listed written, split_whitespace (str_trim line) = [listed; written] ∧
    name = trim_start_matches (byte_of_Z 42) written ∧ digest = str_to_ascii_lowercase listed ∧
    str_len digest = 64 ∧ Forall (λ b, is_hex_digit b = true) (str_bytes digest).
(** The one digest a checksum file lists for a name. *)
Definition file_lists (text name digest : string) : Prop :=
  (∃ line, line ∈ str_lines text ∧ lists_digest line name digest) ∧
  ∀ line digest', line ∈ str_lines text → lists_digest line name digest' → digest' = digest.

(** The text of the release's checksums, as downloaded. *)
Definition checksum_text (plan : PlannedUpdate) (text : string) : Prop :=
  ∃ contents, ue_fetch env (pu_checksum_asset plan) = Ok contents ∧ from_utf8 contents = Some text.
(** The bytes downloaded for an asset, with the SHA-256 that the checksums list for
    its name. *)
Definition checked_bytes (text : string) (a : PlannedAsset) (c : bytes) : Prop :=
  ue_fetch env (pa_asset a) = Ok c ∧ ∃ digest, file_lists text (as_name (pa_asset a)) digest ∧
    eq_ignore_ascii_case (hash_to_hex (sha256 c)) digest = true.

(** Every asset of a plan is checked, and each effect is of the bytes of one. *)
Definition checked_install (plan : PlannedUpdate) (new : list Applied) : Prop :=
  ∃ text, checksum_text plan text ∧ Forall (λ a, ∃ c, checked_bytes text a c) (pu_assets plan) ∧
    Forall (λ e, ∃ a c, a ∈ pu_assets plan ∧ checked_bytes text a c ∧ effect_of c e) new.
(** What a computation may do to the world. *)
Definition checked_effect (plan : PlannedUpdate) (w : UpdateWorld) (r : result string ()) (w' : UpdateWorld) : Prop :=
  (uw_applied_tag w' = uw_applied_tag w ∨ (r = Ok () ∧ uw_applied_tag w' = Some (pu_tag plan))) ∧
  ∃ new, uw_effects w' = uw_effects w ++ new ∧ (new = [] ∨ checked_install plan new).

(** *** Parsing the checksums *)

(** A line adds what it lists, and nothing else. *)
Lemma sums_line_Ok p sums i line sums' : sums_line p sums (i, line) = Ok sums' →
  (sums' = sums ∧ ∀ n d, ¬ lists_digest line n d) ∨
  ∃ n d, sums !! n = None ∧ sums' = <[n := d]> sums ∧ ∀ n' d', lists_digest line n' d' ↔ n' = n ∧ d' = d.
Proof.
  unfold sums_line. cbv zeta. destruct (str_is_empty (str_trim line)) eqn:Eb.
  { intros [= <-]. left. split; [done|]. intros n d (listed & written & Hf & _).
    unfold str_is_empty in Eb. apply bool_decide_eq_true in Eb. rewrite Eb in Hf. discriminate Hf. }
  set (fields := split_whitespace (str_trim line)). set (d := str_to_ascii_lowercase _). set (n := trim_start_matches _ _).
  destruct (negb (str_len d =? 64)) eqn:E1; [done|]. destruct (negb (forallb _ _)) eqn:E2; [done|].
  destruct (str_is_empty n) eqn:E3; [done|]. cbn [orb]. destruct (bool_decide (2 < length fields)%nat) eqn:E4; [done|]. apply bool_decide_eq_false in E4.
  intros (n0 & _ & Hins)%bind_Ok. destruct (sums !! n) eqn:E5; [done|]. injection Hins as <-.
  right. exists n, d. split_and!; [done..|]. intros n' d'.
  apply negb_false_iff in E1, E2. apply Z.eqb_eq in E1. rewrite forallb_forall in E2.
  assert (∃ a b, fields = [a; b]) as (a & b & Hab).
  { subst d n. clearbody fields. destruct fields as [|a [|b [|c rest]]].
    - discriminate E1.
    - discriminate E3.
    - by exists a, b.
    - cbn in E4. lia. }
  assert (d = str_to_ascii_lowercase a) as Hd by (subst d; by rewrite Hab).
  assert (n = trim_start_matches (byte_of_Z 42) b) as Hn by (subst n; by rewrite Hab).
  unfold lists_digest. fold fields. rewrite Hab. split.
  - intros (x & y & [= <- <-] & -> & -> & _). by rewrite Hd, Hn.
  - intros [-> ->]. exists a, b. split_and!; [done..|]. apply Forall_forall. intros z Hz. apply E2. by apply list_elem_of_In.
Qed.

Lemma sums_lines_Ok p lines k sums sums' : try_fold (sums_line p) sums (imap (λ i, pair (k + i)%nat) lines) = Ok sums' →
  ∀ n d, sums' !! n = Some d →
  (sums !! n = Some d ∧ (∀ line d', line ∈ lines → ¬ lists_digest line n d')) ∨
  (sums !! n = None ∧ (∃ line, line ∈ lines ∧ lists_digest line n d) ∧
   ∀ line d', line ∈ lines → lists_digest line n d' → d' = d).
Proof.
  revert k sums. induction lines as [|line lines IH]; intros k sums.
  { intros [= <-] n d Hn. left. split; [done|]. by intros line d' ?%elem_of_nil. }
  rewrite imap_cons. intros (sums1 & Hl%sums_line_Ok & Hf)%try_fold_cons_Ok n d Hn.
  assert (try_fold (sums_line p) sums1 (imap (λ i, pair (S k + i)%nat) lines) = Ok sums') as Hf'.
  { rewrite <- Hf. f_equal. apply imap_ext. intros i x _. cbn. f_equal. lia. }
  destruct Hl as [[-> Hnone]|(n1 & d1 & Hfresh & -> & Hiff)].
  - destruct (IH (S k) sums Hf' n d Hn) as [[Hs Ha]|(Hs & (l & Hl & Hd) & Hu)]; [left | right].
    + split; [done|]. intros l d' [->|Hl]%elem_of_cons; [apply Hnone | by apply Ha].
    + split_and!; [done | exists l; split; [by right | done] |].
      intros l' d' [->|Hl']%elem_of_cons Hd'; [by apply Hnone in Hd' | by eapply Hu].
  - destruct (IH (S k) _ Hf' n d Hn) as [[Hs Ha]|(Hs & (l & Hl & Hd) & Hu)]; destruct (decide (n = n1)) as [->|Hne].
    + rewrite lookup_insert_eq in Hs. injection Hs as <-. right. split_and!; [done | |].
      * exists line. split; [left | by apply Hiff].
      * intros l d' [->|Hl]%elem_of_cons Hd'; [by apply Hiff in Hd' as [_ ->] | by apply Ha in Hd'].
    + rewrite lookup_insert_ne in Hs by done. left. split; [done|].
      intros l d' [->|Hl]%elem_of_cons; [intros [Hx _]%Hiff; done | by apply Ha].
    + by rewrite lookup_insert_eq in Hs.
    + rewrite lookup_insert_ne in Hs by done. right. split_and!; [done | exists l; split; [by right | done] |].
      intros l' d' [->|Hl']%elem_of_cons Hd'; [by apply Hiff in Hd' as [? _] | by eapply Hu].
Qed.

(** The checksums parsed are those the text lists, each name once. *)
Lemma parse_sha256sums_lists p text sums name digest :
  parse_sha256sums p text = Ok sums → sums !! name = Some digest → file_lists text name digest.
Proof.
  unfold parse_sha256sums. intros (sums1 & Hf & Hs)%bind_Ok Hn. case_bool_decide; [done|]. injection Hs as <-.
  destruct (sums_lines_Ok p (str_lines text) 0 ∅ sums1 Hf name digest Hn) as [[He _]|(_ & Hl & Hu)]; [by rewrite lookup_empty in He|].
  by split.
Qed.

Lemma fetched_checked p text sums a c : parse_sha256sums p text = Ok sums → fetched sums a c → checked_bytes text a c.
Proof.
  intros Hp [Hc (digest & Hd & He)]. split; [done|]. exists digest. split; [by eapply parse_sha256sums_lists | done].
Qed.

Lemma quiet_checked plan w r w' : quiet w w' → checked_effect plan w r w'.
Proof. intros [He Ht]. split; [by left|]. exists []. rewrite app_nil_r. split; [done | by left]. Qed.

Lemma install_checked plan text sums dir w w1 files errors w' :
  checksum_text plan text → parse_sha256sums (ue_platform env) text = Ok sums →
  quiet w w1 → Forall (λ a, ∃ c, fetched sums a c) (pu_assets plan) →
  Forall (λ f, staged sums dir (pu_assets plan) (uw_stage w1) f.2) files →
  install_all env files w1 = (errors, w') →
  uw_applied_tag w' = uw_applied_tag w ∧ ∃ new, uw_effects w' = uw_effects w ++ new ∧ checked_install plan new.
Proof.
  intros Htext Hsums [Hq Hqt] Hf Hs (Ht & new & He & Hnew)%install_all_effect. split; [congruence|].
  exists new. split; [congruence|]. exists text. split_and!; [done| |].
  - eapply Forall_impl; [exact Hf|]. cbn beta. intros a (c & Hc). exists c. by eapply fetched_checked.
  - eapply Forall_impl; [exact Hnew|]. cbn beta. intros e (f & Hf1 & Hc). rewrite Forall_forall in Hs.
    destruct (Hs f Hf1) as (a & c & Ha & _ & Hl & Hfc). exists a, c. rewrite Hl in Hc. split_and!; [done | by eapply fetched_checked | done].
Qed.

Lemma apply_inner_effect plan w r w' : apply_inner env plan w = (r, w') → checked_effect plan w r w'.
Proof.
  unfold apply_inner. cbv [mbind state_result_bind sr_lift sr_modify sr_get].
  destruct (ue_stage_root env); [|intros [= <- <-]; by apply quiet_checked].
  destruct (safe_component _ (pu_tag plan)) as [tag|]; [|intros [= <- <-]; by apply quiet_checked].
  destruct (ue_stage_made env); [|intros [= <- <-]; by apply quiet_checked].
  destruct (ue_client env); [|intros [= <- <-]; by apply quiet_checked].
  destruct (safe_component _ (as_name _)) as [component|]; [|intros [= <- <-]; by apply quiet_checked].
  set (dir := (ue_stage_dir env ++ "/" ++ tag)%string). set (w0 := set_update_state _ w). assert (quiet w w0) as Hq0 by done.
  destruct (download_asset env (pu_checksum_asset plan) _ w0) as [[n|e] w1] eqn:Ed;
    apply download_asset_effect in Ed as [Hq1 Hd]; [|intros [= <- <-]; by apply quiet_checked].
  destruct (Hd n eq_refl) as (b & Hb & Hst). rewrite Hst, lookup_insert_eq. cbn [mbind option_bind].
  destruct (from_utf8 b) as [text|] eqn:Eu; cbn [ok_or]; [|intros [= <- <-]; by apply quiet_checked].
  destruct (parse_sha256sums _ text) as [sums|] eqn:Es; [|intros [= <- <-]; by apply quiet_checked].
  destruct (fetch_assets env dir sums _ _ _ w1) as [[files|e] w2] eqn:Ef;
    apply (fetch_assets_effect dir sums _ (pu_assets plan) (pu_assets plan)) in Ef as [Hq2 Hf]; try done;
    [|intros [= <- <-]; by eapply quiet_checked, update_quiet_trans].
  destruct (Hf files eq_refl) as (Hall & Hfiles & _). set (w3 := set_update_state _ w2).
  destruct (install_all env files w3) as [errors w4] eqn:Ei.
  assert (checksum_text plan text) as Htext by (by exists b).
  assert (quiet w w3) as Hq3 by (apply (update_quiet_trans w w1 w3 Hq1); exact Hq2).
  destruct (install_checked plan text sums dir w w3 files errors w4 Htext Es Hq3 Hall Hfiles Ei) as (Ht & new & He & Hnew).
  destruct (bool_decide _); [|destruct (ue_persisted env)]; intros [= <- <-]; (split; [first [by left | by right] | exists new; split; [done | by right]]).
Qed.

(** C27. Whatever GitHub answers and whatever the network and the disk do, an approved
    update copies or runs only the bytes downloaded for one of the planned assets
    with the SHA-256 that the release's own checksum file lists for its name, in
    its one line for it, or leaves at a target a first part of such bytes, where
    a copy failed part way; nothing is installed unless every planned asset
    matched; the release is recorded as applied only on success; and the lock is
    released. *)
Theorem installs_checked w r w' :
  download env w = (r, w') → uw_applying w = false →
  uw_applying w' = false ∧
  ((uw_effects w' = uw_effects w ∧ uw_applied_tag w' = uw_applied_tag w) ∨
   ∃ plan, latest_update env w = Ok (Some plan) ∧ checked_effect plan w r w').
Proof.
  unfold download, apply. cbv [mbind state_result_bind sr_lift sr_get ok_or]. intros Hd Ha.
  destruct (latest_update env w) as [[plan|]|e] eqn:El; [|by injection Hd as _ <-; auto..].
  rewrite Ha in Hd. destruct (apply_inner env plan (set_applying true w)) as [r1 w1] eqn:E. injection Hd as <- <-.
  split; [done|]. right. exists plan. split; [done|]. by apply apply_inner_effect in E.
Qed.

(** The background check installs nothing and stages nothing. *)
Theorem check_only_tells settings manual w :
  let w' := check_for_update env settings manual w in
  uw_effects w' = uw_effects w ∧ uw_stage w' = uw_stage w ∧ uw_applied_tag w' = uw_applied_tag w ∧ uw_applying w' = uw_applying w.
Proof. cbv zeta. unfold check_for_update. by repeat case_match. Qed.

(** A download that fails leaves the state saying that it is downloading. *)
Theorem failed_download_says_downloading w plan e :
  uw_applying w = false → latest_update env w = Ok (Some plan) →
  ue_stage_root env = Ok () → ue_stage_made env = Ok () → ue_client env = Ok () →
  safe_component (ue_platform env) (pu_tag plan) = Ok (pu_tag plan) →
  safe_component (ue_platform env) (as_name (pu_checksum_asset plan)) = Ok (as_name (pu_checksum_asset plan)) →
  ue_fetch env (pu_checksum_asset plan) = Err e →
  ∃ w', download env w = (Err e, w') ∧ us_phase (uw_state w') = "downloading"%string ∧ uw_applying w' = false.
Proof.
  intros Ha Hl Hr Hm Hcl Ht Hc Hf. unfold download, apply. cbv [mbind state_result_bind sr_lift sr_get ok_or]. rewrite Hl, Ha.
  unfold apply_inner. cbv [mbind state_result_bind sr_lift sr_modify]. rewrite Hr, Ht, Hm, Hcl, Hc.
  unfold download_asset. cbv [mbind state_result_bind sr_lift]. rewrite Hf. eexists. split; [reflexivity|]. done.
Qed.

End service.
