(* ===== verification/KeystoreHelper.v ===== *)
(** [vireon-desktop-tauri/native/keystore-helper/src/main.rs]: the process that
    keeps the desktop application's wallets: their metadata as files, with a copy of
    an older directory, the keys in the operating system's credential store, and the
    preview, signature and submission of a transfer.  The outcomes of file and
    credential operations, the dialogs, the RPC answers and the words drawn are
    arguments; copying the older directory fails as a whole or not at all. *)

From S2P Require Import Prelude RustStd Interfaces Crypto Errors Network Amount Signing Address Transaction Seed Sdk SdkClient MobileCore Block Consensus State Ledger Chain Mempool Node Spend.

Definition SERVICE : string := "Vireon Desktop".
Definition LEGACY_SERVICE : string := "Veiron Desktop".
Definition LEGACY_ACCOUNT : string := "mainnet-candidate-default-wallet".
Definition METADATA_SCHEMA : string := "vireon-desktop-wallet-metadata-v2".
Definition LEGACY_METADATA_SCHEMA : string := "veiron-desktop-wallet-metadata-v2".

(** [enum HelperError] *)
Inductive HelperError :=
| HInput (text : string)
| HCredential (text : string)
| HMetadata (text : string)
| HService (text : string)
| HStalePreview.
Definition HelperError_fmt (e : HelperError) : string :=
  match e with
  | HInput t => "invalid wallet input: " ++ t
  | HCredential t => "secure credential storage failed: " ++ t
  | HMetadata t => "local wallet metadata failed: " ++ t
  | HService t => "local service failed: " ++ t
  | HStalePreview => "chain state changed; refresh the signing preview"
  end%string.

Abbreviation hresult A := (result HelperError A).

(** [struct WalletMetadata], the older metadata, [struct PreparedTransaction],
    [struct SubmissionResult] *)
Record WalletMetadata := mkMetadata {
  wm_wallet_id : string;
  wm_display_name : string;
  wm_schema : string;
  wm_network_id : string;
  wm_address : string;
  wm_public_key_hex : string;
  wm_key_origin : string;
  wm_derivation_path : string;
  wm_credential_account : string;
}.
Record LegacyMetadata := mkLegacy {
  lm_network_id : string;
  lm_address : string;
  lm_public_key_hex : string;
  lm_key_origin : string;
  lm_derivation_path : string;
}.
Record PreparedTransaction := mkPrepared {
  pt_recipient : string;
  pt_amount_atomic : string;
  pt_tip_atomic : string;
  pt_base_fee_atomic : string;
  pt_total_atomic : string;
  pt_available_atomic : string;
  pt_nonce : Z;
  pt_chain_tip : string;
}.
Record SubmissionResult := { sb_tx_hash : string; sb_lifecycle_status : string; sb_mempool_size : Z }.

(** ** Files and credentials *)

(** A JSON file. *)
Inductive FileOf (T : Type) := FileUnreadable (text : string) | FileMalformed (text : string) | FileJson (v : T).
Arguments FileUnreadable {T} text.
Arguments FileMalformed {T} text.
Arguments FileJson {T} v.
Definition read_json {T} (f : option (FileOf T)) : hresult T :=
  match f with
  | Some (FileJson v) => Ok v
  | Some (FileUnreadable t) | Some (FileMalformed t) => Err (HMetadata t)
  | None => Err (HMetadata "No such file or directory")
  end.

(** What is read under [Vireon/Desktop]: [wallet.json], the directory [wallets] by
    file name, and [active-wallet]. *)
Record WalletTree := mkTree {
  tr_wallet_json : option (FileOf LegacyMetadata);
  tr_wallets : option (gmap string (FileOf WalletMetadata));
  tr_active : option string;
}.
(** [copy_missing_tree] *)
Definition or_else {T} (a b : option T) : option T := match a with Some x => Some x | None => b end.
Definition copy_missing (source destination : WalletTree) : WalletTree :=
  mkTree (or_else (tr_wallet_json destination) (tr_wallet_json source))
    (match tr_wallets destination, tr_wallets source with
     | Some m, Some l => Some (m ∪ l)
     | a, b => or_else a b
     end)
    (or_else (tr_active destination) (tr_active source)).

(** The tree, the older tree [Veiron/Desktop] if there is one, and the passwords of
    services and accounts. *)
Record HelperState := mkHelper {
  hp_current : WalletTree;
  hp_legacy : option WalletTree;
  hp_keys : gmap (string * string) string;
}.
Definition set_current (f : WalletTree → WalletTree) (s : HelperState) : HelperState :=
  mkHelper (f (hp_current s)) (hp_legacy s) (hp_keys s).
Definition set_keys (f : gmap (string * string) string → gmap (string * string) string) (s : HelperState) : HelperState :=
  mkHelper (hp_current s) (hp_legacy s) (f (hp_keys s)).
Definition set_wallets (f : option (gmap string (FileOf WalletMetadata)) → option (gmap string (FileOf WalletMetadata))) :=
  set_current (λ t, mkTree (tr_wallet_json t) (f (tr_wallets t)) (tr_active t)).
Definition set_active_wallet (a : option string) := set_current (λ t, mkTree (tr_wallet_json t) (tr_wallets t) a).

(** [write_atomic]: refused, or lost between removing the old file and renaming. *)
Inductive AtomicOutcome := AtomicWritten | AtomicRefused (text : string) | AtomicLost (text : string).

(** What a command meets. *)
Record HelperEnv `{SeedPrimitives} := {
  ke_data_dir : bool;
  ke_copied : result string ();
  ke_listing : list string → list string;
  ke_made : result string ();
  ke_metadata_write : string → AtomicOutcome;
  ke_active_write : AtomicOutcome;
  ke_metadata_removed : result string ();
  ke_active_removed : result string ();
  ke_key_set : result string ();
  ke_key_deleted : bool;
  ke_drawn : Z → result string Mnemonic;
  ke_shown : hresult bool;
  ke_prompted : hresult string;
  ke_client : result string ();
  ke_account : string → SdkResult SdkAddressAccountResponse;
  ke_submit : Transaction → result string SubmissionResult;
  ke_rpc_url : string;
}.

Abbreviation helper A := (state_result HelperState HelperError A).

(** [rpc_url]: the environment's, or the default. *)
Definition helper_rpc_url (env : option string) : string :=
  let url := trim_end_matches (byte_of_Z 47) (str_trim (default ""%string env)) in
  match env with
  | Some _ => if str_is_empty url then DEFAULT_MAINNET_CANDIDATE_RPC else url
  | None => DEFAULT_MAINNET_CANDIDATE_RPC
  end.

(** [verify_parent_token]: the environment's escape and token, and the request's. *)
Definition verify_parent_token (allow_unauthenticated expected provided : option string) : hresult () :=
  if bool_decide (allow_unauthenticated = Some "1"%string) then Ok () else
  expected ← ok_or (HInput "keystore helper requires VIREON_KEYSTORE_PARENT_TOKEN from Control Center") expected;
  let provided := default ""%string provided in
  if str_is_empty provided || negb (bool_decide (provided = expected))
  then Err (HInput "invalid keystore parent token (spawn only via Control Center)") else Ok ().

(** ** Texts *)

Definition parse_atomic (value : string) : hresult Z := ok_or (HInput "invalid atomic value") (parse_uint 64 value).
Definition format_atomic (value : Z) : string :=
  str_of_bytes (uint_bytes (value / ATOMIC_UNITS_PER_VIRE)
    ++ DOT :: pad_left 8 (uint_bytes (value mod ATOMIC_UNITS_PER_VIRE))).

(** [chars().count()] and [any(char::is_control)], on UTF-8. *)
Definition char_count (s : string) : Z :=
  Z.of_nat (length (filter (λ b, negb (continuation b) = true) (str_bytes s))).
Fixpoint has_control (l : bytes) : bool :=
  match l with
  | [] => false
  | a :: l' =>
      (byte_Z a <? 32) || (byte_Z a =? 127)
      || ((byte_Z a =? 194) && match l' with b :: _ => (128 <=? byte_Z b) && (byte_Z b <=? 159) | [] => false end)
      || has_control l'
  end.
Definition validated_display_name (value : option string) : hresult string :=
  let name := str_trim (default "Primary wallet"%string value) in
  if str_is_empty name || (char_count name >? 48) || has_control (str_bytes name)
  then Err (HInput "wallet display name must contain 1 to 48 printable characters") else Ok name.
Definition require_twenty_four_words (phrase : string) : hresult () :=
  if negb (words_of phrase =? 24) then Err (HInput "recovery phrase must contain exactly 24 words") else Ok ().
Definition required (value : option string) (name : string) : hresult string :=
  ok_or (HInput (name ++ " is required")) value.

Definition validate_wallet_metadata (m : WalletMetadata) : hresult () :=
  if negb (bool_decide (wm_schema m ∈ [METADATA_SCHEMA; LEGACY_METADATA_SCHEMA]))
     || negb (bool_decide (wm_network_id m = "veiron-mainnet-candidate"%string))
     || negb (bool_decide (wm_wallet_id m = wm_address m))
     || str_is_empty (str_trim (wm_credential_account m))
  then Err (HMetadata "unsupported wallet metadata or network") else Ok ().

Definition json_file (id : string) : string := (id ++ ".json")%string.
(** [path.extension() == Some("json")] *)
Definition has_json_extension (name : string) : bool :=
  str_ends_with name ".json" && negb (bool_decide (name = ".json"%string)).

Definition by_name (l r : WalletMetadata) : comparison :=
  then_with (str_cmp (wm_display_name l) (wm_display_name r)) (str_cmp (wm_wallet_id l) (wm_wallet_id r)).

Section helper.
Context `{Primitives} `{SeedPrimitives} (env : HelperEnv).

(** ** The wallet files *)

(** [wallet_root], behind every path: the older tree's files are copied each time. *)
Definition wallet_root : helper () :=
  if negb (ke_data_dir env) then sr_lift (Err (HMetadata "local application data directory is unavailable")) else
  s ← sr_get;
  match hp_legacy s with
  | Some legacy =>
      _ ← sr_lift (map_err HMetadata (ke_copied env));
      sr_modify (set_current (copy_missing legacy))
  | None => mret ()
  end.

Definition write_metadata (name : string) (m : WalletMetadata) : helper () :=
  match ke_metadata_write env name with
  | AtomicWritten => sr_modify (set_wallets (λ w, Some (<[name := FileJson m]> (default ∅ w))))
  | AtomicRefused t => sr_lift (Err (HMetadata t))
  | AtomicLost t => _ ← sr_modify (set_wallets (λ w, Some (delete name (default ∅ w)))); sr_lift (Err (HMetadata t))
  end.
Definition write_active (id : string) : helper () :=
  _ ← wallet_root;
  match ke_active_write env with
  | AtomicWritten => sr_modify (set_active_wallet (Some id))
  | AtomicRefused t => sr_lift (Err (HMetadata t))
  | AtomicLost t => _ ← sr_modify (set_active_wallet None); sr_lift (Err (HMetadata t))
  end.

Definition save_wallet (m : WalletMetadata) : helper () :=
  _ ← sr_lift (validate_wallet_metadata m);
  _ ← wallet_root;
  _ ← sr_lift (map_err HMetadata (ke_made env));
  _ ← sr_modify (set_wallets (λ w, Some (default ∅ w)));
  _ ← write_metadata (json_file (wm_wallet_id m)) m;
  write_active (wm_wallet_id m).

Definition migrated_wallet (l : LegacyMetadata) : WalletMetadata :=
  mkMetadata (lm_address l) "Primary wallet" METADATA_SCHEMA (lm_network_id l) (lm_address l) (lm_public_key_hex l)
    (lm_key_origin l) (lm_derivation_path l) LEGACY_ACCOUNT.
Definition migrate_legacy_wallet : helper () :=
  _ ← wallet_root;
  s ← sr_get;
  match tr_wallet_json (hp_current s) with
  | None => mret ()
  | Some file =>
      _ ← wallet_root;
      s ← sr_get;
      match tr_wallets (hp_current s) with
      | Some _ => mret ()
      | None =>
          legacy ← sr_lift (read_json (Some file));
          if negb (bool_decide (lm_network_id legacy = "veiron-mainnet-candidate"%string))
          then sr_lift (Err (HMetadata "legacy wallet belongs to another network")) else
          save_wallet (migrated_wallet legacy)
      end
  end.

Definition with_schema (m : WalletMetadata) : WalletMetadata :=
  mkMetadata (wm_wallet_id m) (wm_display_name m) METADATA_SCHEMA (wm_network_id m) (wm_address m) (wm_public_key_hex m)
    (wm_key_origin m) (wm_derivation_path m) (wm_credential_account m).

(** A file of the directory; one of the older schema is saved again. *)
Definition load_one (name : string) : helper WalletMetadata :=
  s ← sr_get;
  metadata ← sr_lift (read_json (tr_wallets (hp_current s) ≫= lookup name));
  metadata ← (if bool_decide (wm_schema metadata = LEGACY_METADATA_SCHEMA)
              then _ ← save_wallet (with_schema metadata); mret (with_schema metadata)
              else mret metadata);
  _ ← sr_lift (validate_wallet_metadata metadata);
  mret metadata.
Fixpoint load_each (names : list string) : helper (list WalletMetadata) :=
  match names with
  | [] => mret []
  | name :: names =>
      if negb (has_json_extension name) then load_each names else
      m ← load_one name;
      rest ← load_each names;
      mret (m :: rest)
  end.
Definition load_wallets : helper (list WalletMetadata) :=
  _ ← migrate_legacy_wallet;
  _ ← wallet_root;
  s ← sr_get;
  match tr_wallets (hp_current s) with
  | None => mret []
  | Some files =>
      wallets ← load_each (ke_listing env (map_to_list files).*1);
      mret (sort_by by_name wallets)
  end.

Definition load_metadata : helper (option WalletMetadata) :=
  wallets ← load_wallets;
  match wallets with
  | [] => mret None
  | first :: _ =>
      _ ← wallet_root;
      s ← sr_get;
      let active := default ""%string (tr_active (hp_current s)) in
      mret (or_else (List.find (λ w, bool_decide (wm_wallet_id w = str_trim active)) wallets) (Some first))
  end.

Definition select_wallet (wallet_id : string) : helper WalletMetadata :=
  wallets ← load_wallets;
  wallet ← sr_lift (ok_or (HInput "selected wallet does not exist")
    (List.find (λ w, bool_decide (wm_wallet_id w = wallet_id)) wallets));
  _ ← write_active (wm_wallet_id wallet);
  mret wallet.

(** ** Keys *)

Definition load_private_key (account : string) : helper string :=
  s ← sr_get;
  match hp_keys s !! (SERVICE, account) with
  | Some secret => mret secret
  | None =>
      secret ← sr_lift (ok_or (HCredential "No matching entry found in secure storage") (hp_keys s !! (LEGACY_SERVICE, account)));
      _ ← sr_lift (map_err HCredential (ke_key_set env));
      _ ← sr_modify (set_keys (insert (SERVICE, account) secret));
      mret secret
  end.
(** Its failure is ignored. *)
Definition remove_private_key (account : string) : HelperState → HelperState :=
  if ke_key_deleted env then set_keys (delete (SERVICE, account)) else id.

Definition remove_wallet : helper () :=
  wallet ← load_metadata;
  match wallet with
  | None => mret ()
  | Some wallet =>
      _ ← sr_modify (remove_private_key (wm_credential_account wallet));
      _ ← wallet_root;
      s ← sr_get;
      let name := json_file (wm_wallet_id wallet) in
      _ ← (match tr_wallets (hp_current s) ≫= lookup name with
           | Some _ => _ ← sr_lift (map_err HMetadata (ke_metadata_removed env)); sr_modify (set_wallets (fmap (delete name)))
           | None => mret ()
           end);
      remaining ← load_wallets;
      match remaining with
      | next :: _ => write_active (wm_wallet_id next)
      | [] =>
          _ ← wallet_root;
          s ← sr_get;
          match tr_active (hp_current s) with
          | Some _ => _ ← wallet_root; _ ← sr_lift (map_err HMetadata (ke_active_removed env)); sr_modify (set_active_wallet None)
          | None => mret ()
          end
      end
  end.

Definition metadata_of (key : PrivateKey) (origin display_name : string) : WalletMetadata :=
  let public_key := PrivateKey_public_key key in
  let wallet_id := Address_to_string (from_public_key_for_network public_key MainnetCandidate) in
  mkMetadata wallet_id display_name METADATA_SCHEMA "veiron-mainnet-candidate" wallet_id (bytes_to_hex public_key) origin
    "m/44'/7330'/0'/0'/0'" ("mainnet-candidate-wallet-" ++ wallet_id).

(** A wallet that cannot be saved leaves no key. *)
Definition save_or_forget (metadata : WalletMetadata) : helper () := λ s,
  match save_wallet metadata s with
  | (Err e, s) => (Err e, remove_private_key (wm_credential_account metadata) s)
  | (Ok _, s) => (Ok (), s)
  end.
Definition persist_key (key : PrivateKey) (origin display_name : string) : helper WalletMetadata :=
  let metadata := metadata_of key origin display_name in
  _ ← sr_lift (map_err HCredential (ke_key_set env));
  _ ← sr_modify (set_keys (insert (SERVICE, wm_credential_account metadata) (bytes_to_hex key)));
  _ ← save_or_forget metadata;
  mret metadata.

Definition helper_create_wallet (display_name : string) : helper WalletMetadata :=
  mnemonic ← sr_lift (map_err (λ e, HInput (VireonError_fmt e)) (generate_mnemonic (ke_drawn env) TwentyFour));
  key ← sr_lift (map_err (λ e, HInput (VireonError_fmt e)) (derive_private_key_from_mnemonic mnemonic "" WalletDerivationPath_default));
  metadata ← persist_key key "bip39-created" display_name;
  confirmed ← sr_lift (ke_shown env);
  if negb confirmed then
    _ ← remove_wallet;
    sr_lift (Err (HInput "wallet creation cancelled before recovery confirmation"))
  else mret metadata.

Definition import_wallet_native (display_name : string) : helper WalletMetadata :=
  phrase ← sr_lift (ke_prompted env);
  _ ← sr_lift (require_twenty_four_words phrase);
  key ← sr_lift (map_err (λ _, HInput "recovery phrase is invalid") (derive_private_key_from_mnemonic phrase "" WalletDerivationPath_default));
  persist_key key "bip39-imported" display_name.

(** ** Transfers *)

Definition fetch_remote_account (address : string) : hresult SdkAddressAccountResponse :=
  _ ← map_err HService (ke_client env);
  match ke_account env address with
  | Ok account => Ok account
  | Err (SdkRpcHttp 404 _ _) =>
      Err (HService "RPC gateway is missing GET /addresses/{addr}/account. Upgrade the VPS gateway - refusing to invent next_nonce.")
  | Err error => Err (HService ("cannot load account from " ++ ke_rpc_url env ++ ": " ++ SdkError_fmt error))
  end.

(** The preview, once the wallet is known. *)
Definition prepare_for (wallet : WalletMetadata) (recipient amount tip : string) : hresult PreparedTransaction :=
  to ← map_err (λ _, HInput "recipient must be a valid Mainnet Candidate address") (Address_parse recipient);
  if negb (bool_decide (addr_network to = MainnetCandidate)) then Err (HInput "recipient is not a Mainnet Candidate address") else
  amount ← map_err (λ _, HInput "amount must be a valid VIRE value") (parse_vire amount);
  tip ← map_err (λ _, HInput "tip must be a valid VIRE value") (parse_vire tip);
  if amount =? Amount_ZERO then Err (HInput "amount must be greater than zero") else
  account ← fetch_remote_account (wm_address wallet);
  let base_fee := sar_anticipated_base_fee_atomic account in
  let available := sar_balance_atomic account in
  total ← map_err (λ e, HService (VireonError_fmt e)) (with_base ← amount_checked_add amount base_fee; amount_checked_add with_base tip);
  if available <? total
  then Err (HInput ("insufficient balance: available " ++ uint_to_string available ++ ", required " ++ uint_to_string total ++ " atomic units")) else
  chain_tip ← ok_or (HService "RPC gateway has no tip hash; chain is not ready")
    (match sar_tip_hash account with Some h => if str_is_empty h then None else Some h | None => None end);
  Ok (mkPrepared (Address_to_string to) (uint_to_string amount) (uint_to_string tip) (uint_to_string base_fee)
    (uint_to_string total) (uint_to_string available) (sar_next_nonce account) chain_tip).
Definition no_wallet : HelperError := HInput "create or import a wallet first".
Definition prepare_transaction (recipient amount tip : string) : helper PreparedTransaction :=
  wallet ← load_metadata;
  wallet ← sr_lift (ok_or no_wallet wallet);
  sr_lift (prepare_for wallet recipient amount tip).

(** The signature of what was previewed. *)
Definition sign_prepared (wallet : WalletMetadata) (secret : string) (prepared : PreparedTransaction) : hresult Transaction :=
  key ← map_err (λ _, HCredential "stored key is invalid") (PrivateKey_from_hex secret);
  let address := from_public_key_for_network (PrivateKey_public_key key) MainnetCandidate in
  if negb (bool_decide (Address_to_string address = wm_address wallet))
  then Err (HCredential "stored key does not match public wallet metadata") else
  tip ← parse_atomic (pt_tip_atomic prepared);
  base ← parse_atomic (pt_base_fee_atomic prepared);
  max_fee ← map_err (λ e, HService (VireonError_fmt e)) (amount_checked_add base tip);
  amount ← parse_atomic (pt_amount_atomic prepared);
  map_err (λ e, HService (VireonError_fmt e))
    (Transaction_new_signed 1 (pt_nonce prepared) MainnetCandidate key (pt_recipient prepared) amount max_fee tip None).

Definition is_stale (refreshed prepared : PreparedTransaction) : bool :=
  negb (pt_nonce refreshed =? pt_nonce prepared)
  || negb (bool_decide (pt_base_fee_atomic refreshed = pt_base_fee_atomic prepared))
  || negb (bool_decide (pt_chain_tip refreshed = pt_chain_tip prepared)).

(** The answer, with the transaction that was submitted. *)
Definition sign_and_submit (prepared : PreparedTransaction) : helper (Transaction * SubmissionResult) :=
  wallet ← load_metadata;
  wallet ← sr_lift (ok_or no_wallet wallet);
  amount ← sr_lift (parse_atomic (pt_amount_atomic prepared));
  tip ← sr_lift (parse_atomic (pt_tip_atomic prepared));
  refreshed ← prepare_transaction (pt_recipient prepared) (format_atomic amount) (format_atomic tip);
  if is_stale refreshed prepared then sr_lift (Err HStalePreview) else
  secret ← load_private_key (wm_credential_account wallet);
  transaction ← sr_lift (sign_prepared wallet secret prepared);
  response ← sr_lift (map_err HService (ke_submit env transaction));
  mret (transaction, response).

(** ** Commands *)

(** [struct Request], and what is printed. *)
Record HelperRequest := mkHelperRequest {
  hr_command : string;
  hr_parent_token : option string;
  hr_wallet_id : option string;
  hr_display_name : option string;
  hr_workspace : option string;
  hr_recipient : option string;
  hr_amount : option string;
  hr_tip : option string;
  hr_prepared : option PreparedTransaction;
}.
Inductive HelperOutput :=
| OMetadata (m : option WalletMetadata)
| OWallets (l : list WalletMetadata)
| OWallet (m : WalletMetadata)
| OCreated (m : WalletMetadata) (recovery_confirmed : bool)
| ORemoved
| OPrepared (p : PreparedTransaction)
| OSubmitted (r : SubmissionResult).

Definition run_command (r : HelperRequest) : helper HelperOutput :=
  if bool_decide (hr_command r = "metadata") then m ← load_metadata; mret (OMetadata m)
  else if bool_decide (hr_command r = "list") then l ← load_wallets; mret (OWallets l)
  else if bool_decide (hr_command r = "select") then id ← sr_lift (required (hr_wallet_id r) "wallet_id"); w ← select_wallet id; mret (OWallet w)
  else if bool_decide (hr_command r = "create") then
    name ← sr_lift (validated_display_name (hr_display_name r)); w ← helper_create_wallet name; mret (OCreated w true)
  else if bool_decide (hr_command r = "import") then
    name ← sr_lift (validated_display_name (hr_display_name r)); w ← import_wallet_native name; mret (OWallet w)
  else if bool_decide (hr_command r = "import_phrase") then
    sr_lift (Err (HInput "import_phrase is disabled; use native import dialog only"))
  else if bool_decide (hr_command r = "remove") then _ ← remove_wallet; mret ORemoved
  else if bool_decide (hr_command r = "prepare") then
    _ ← sr_lift (required (hr_workspace r) "workspace");
    recipient ← sr_lift (required (hr_recipient r) "recipient");
    amount ← sr_lift (required (hr_amount r) "amount");
    tip ← sr_lift (required (hr_tip r) "tip");
    p ← prepare_transaction recipient amount tip;
    mret (OPrepared p)
  else if bool_decide (hr_command r = "sign_submit") then
    _ ← sr_lift (required (hr_workspace r) "workspace");
    prepared ← sr_lift (ok_or (HInput "prepared transaction is required") (hr_prepared r));
    x ← sign_and_submit prepared;
    mret (OSubmitted x.2)
  else sr_lift (Err (HInput "unsupported helper command")).

(** [run], from the request read. *)
Definition run_helper (allow_unauthenticated expected_token : option string) (parsed : result string HelperRequest) : helper HelperOutput :=
  request ← sr_lift (map_err HMetadata parsed);
  _ ← sr_lift (verify_parent_token allow_unauthenticated expected_token (hr_parent_token request));
  run_command request.

End helper.

(** ** What the keystore helper of the desktop application promises: it answers only
    its parent, signs only what was previewed against the chain as it still is, and a
    wallet it stored is the one it loads and signs with.  And where a removed wallet
    comes back, and a wallet stays whose phrase was never shown. *)

(** ** Texts *)

Lemma parse_hex_loop_length n l r : length l = (2 * n)%nat → parse_hex_loop l = Ok r → length r = n.
Proof.
  revert l r. induction n as [|n IH]; intros l r Hl.
  - destruct l; [|done]. by intros [= <-].
  - destruct l as [|a [|b l]]; cbn in Hl; [done | lia |]. cbn [parse_hex_loop].
    intros (hi & _ & (lo & _ & (rest & Hr & [= <-])%bind_Ok)%bind_Ok)%bind_Ok. cbn. f_equal. apply (IH l); [lia | done].
Qed.

Lemma PrivateKey_from_hex_length s k : PrivateKey_from_hex s = Ok k → length k = PrivateKey_SIZE.
Proof.
  unfold PrivateKey_from_hex, parse_hex_array. intros (b & Hb & [= <-])%bind_Ok.
  destruct (negb _) eqn:E in Hb; [done|]. apply negb_false_iff, Z.eqb_eq in E. eapply parse_hex_loop_length; [|exact Hb]. lia.
Qed.

(** The text of an atomic amount in VIRE parses to that amount or not at all. *)
Lemma format_atomic_parses n a : 0 <= n <= umax 64 → parse_vire (format_atomic n) = Ok a → a = n.
Proof.
  intros Hn. unfold format_atomic. set (w := n / ATOMIC_UNITS_PER_VIRE). set (f := n mod ATOMIC_UNITS_PER_VIRE).
  assert (Hf : 0 <= f < ATOMIC_UNITS_PER_VIRE) by (apply Z.mod_pos_bound; done).
  assert (Hsum : w * ATOMIC_UNITS_PER_VIRE + f = n).
  { unfold w, f. rewrite (Z.mul_comm _ ATOMIC_UNITS_PER_VIRE). symmetry. by apply Z.div_mod. }
  assert (Hw : 0 <= w <= umax 64) by (unfold ATOMIC_UNITS_PER_VIRE, umax in *; lia).
  destruct (pad_left_fraction f Hf) as [Hlen Hpf]. change 8%nat with (Z.to_nat DECIMALS).
  rewrite parse_vire_unfold; [..|done].
  - rewrite Hpf. unfold uint_bytes. rewrite parse_digits_dec by (unfold umax in *; lia). cbn [ok_or mbind result_bind].
    intros (x & Hx%ok_or_Ok & (y & Hy%ok_or_Ok & Ht)%bind_Ok)%bind_Ok.
    unfold checked_mul in Hx. destruct (_ <=? _) in Hx; [|done]. injection Hx as <-.
    apply checked_add_iff in Hy as [-> _]. destruct (_ >? _); [done|]. injection Ht as <-. exact Hsum.
  - apply uint_bytes_digits; lia.
  - apply all_digits_pad_left, uint_bytes_digits; lia.
  - unfold uint_bytes. intros Hnil%fmap_nil_inv. by apply dec_digits_nonempty in Hnil; [|lia].
Qed.

Lemma parse_atomic_Ok s n : parse_atomic s = Ok n → parse_uint 64 s = Some n.
Proof. apply ok_or_Ok. Qed.

Lemma parse_uint_text n : 0 <= n <= umax 64 → parse_uint 64 (uint_to_string n) = Some n.
Proof. intros Hn. unfold parse_uint, uint_to_string. rewrite str_bytes_of_bytes. by apply parse_uint_bytes_dec. Qed.

Section helper.
Context `{PrimitivesOk} `{!SeedPrimitives} (env : HelperEnv).

(** ** The parent's token *)

(** Without the escape for smoke tests, a request that does anything or is answered
    carries the token that the parent process gave. *)
Theorem helper_needs_token allow expected parsed s r s' :
  allow ≠ Some "1"%string → run_helper env allow expected parsed s = (r, s') → is_ok r = true ∨ s' ≠ s →
  ∃ request token, parsed = Ok request ∧ expected = Some token ∧ hr_parent_token request = Some token ∧ token ≠ ""%string.
Proof.
  intros Ha. unfold run_helper. cbv [mbind state_result_bind sr_lift].
  destruct parsed as [request|e]; cbn [map_err]; [|intros [= <- <-] [?|?]; done].
  unfold verify_parent_token. rewrite bool_decide_false by done. destruct expected as [token|]; cbn [ok_or mbind result_bind];
    [|intros [= <- <-] [?|?]; done].
  destruct (str_is_empty _ || _) eqn:E; [intros [= <- <-] [?|?]; done|]. apply orb_false_iff in E as [E1 E2]. intros _ _.
  unfold str_is_empty in E1. apply bool_decide_eq_false in E1. apply negb_false_iff, bool_decide_eq_true in E2.
  exists request, token. destruct (hr_parent_token request) as [t|]; cbn in E1, E2; [by subst | done].
Qed.

(** ** Transfers *)

Lemma prepare_for_Ok wallet recipient amount tip p : prepare_for env wallet recipient amount tip = Ok p →
  ∃ to a t account, Address_parse recipient = Ok to ∧ addr_network to = MainnetCandidate ∧
    parse_vire amount = Ok a ∧ parse_vire tip = Ok t ∧ a ≠ 0 ∧ ke_account env (wm_address wallet) = Ok account ∧
    a + sar_anticipated_base_fee_atomic account + t <= sar_balance_atomic account ∧
    pt_base_fee_atomic p = uint_to_string (sar_anticipated_base_fee_atomic account) ∧
    pt_nonce p = sar_next_nonce account ∧ sar_tip_hash account = Some (pt_chain_tip p).
Proof.
  unfold prepare_for. intros (to & Hto%map_err_Ok & Hp)%bind_Ok. rewrite if_negb_Err_Ok, bool_decide_eq_true in Hp.
  destruct Hp as [Hn Hp]. apply bind_Ok in Hp as (a & Ha%map_err_Ok & (t & Ht%map_err_Ok & Hp)%bind_Ok).
  destruct (a =? Amount_ZERO) eqn:E0; [done|]. apply Z.eqb_neq in E0.
  apply bind_Ok in Hp as (account & Hacc & Hp). cbv zeta in Hp. apply bind_Ok in Hp as (total & Htot%map_err_Ok & Hp).
  apply bind_Ok in Htot as (wb & [-> _]%amount_add_Ok & [-> _]%amount_add_Ok).
  destruct (_ <? _) eqn:El; [done|]. apply Z.ltb_ge in El. apply bind_Ok in Hp as (tip_hash & Hth%ok_or_Ok & [= <-]).
  exists to, a, t, account. cbn. unfold fetch_remote_account in Hacc. apply bind_Ok in Hacc as (u & _ & Hacc).
  split_and!; try done.
  - destruct (ke_account env (wm_address wallet)) as [acc|[]]; try done; [by injection Hacc as <-|].
    repeat case_match; done.
  - destruct (sar_tip_hash account) as [h|]; [|done]. by destruct (str_is_empty h); [|injection Hth as <-].
Qed.

(** A wallet state that loading leaves as it is. *)
Definition settled (wallet : WalletMetadata) (s : HelperState) : Prop := load_metadata env s = (Ok (Some wallet), s).

Lemma sign_prepared_Ok wallet secret p tx : sign_prepared wallet secret p = Ok tx →
  ∃ amount tip base, Transaction_verify tx = Ok () ∧ Transaction_network tx = Ok MainnetCandidate ∧
    tx_from tx = Some (wm_address wallet) ∧ tx_to tx = pt_recipient p ∧ tx_nonce tx = pt_nonce p ∧
    parse_uint 64 (pt_amount_atomic p) = Some amount ∧ parse_uint 64 (pt_tip_atomic p) = Some tip ∧
    parse_uint 64 (pt_base_fee_atomic p) = Some base ∧
    tx_amount tx = amount ∧ tx_priority_fee tx = tip ∧ tx_max_fee tx = base + tip.
Proof.
  unfold sign_prepared. intros (key & Hkey%map_err_Ok & Hs)%bind_Ok. cbv zeta in Hs.
  rewrite if_negb_Err_Ok, bool_decide_eq_true in Hs. destruct Hs as [Haddr Hs].
  apply bind_Ok in Hs as (tip & Htip%parse_atomic_Ok & (base & Hbase%parse_atomic_Ok & Hs)%bind_Ok).
  apply bind_Ok in Hs as (mf & Hmf%map_err_Ok & (amount & Ham%parse_atomic_Ok & Htx%map_err_Ok)%bind_Ok).
  apply amount_add_Ok in Hmf as [-> _]. pose proof (PrivateKey_from_hex_length _ _ Hkey) as Hlen.
  destruct (new_signed_verified _ _ _ _ _ _ _ _ _ _ Hlen Htx) as [Hv Hn].
  destruct (new_signed_Ok _ _ _ _ _ _ _ _ _ _ Hlen Htx) as [Heq _].
  exists amount, tip, base. rewrite <- Haddr. split_and!; try done; by rewrite Heq.
Qed.

(** C21. What is submitted is what was previewed: a verified transaction of the main
    network from the wallet to the previewed recipient, for the previewed amount and
    tip, with the nonce, the base fee and the tip hash that the gateway reports at
    the time of signing, equal to those of the preview, and within the balance it
    reports. *)
Theorem submitted_as_previewed prepared wallet s tx response s' :
  (∀ a account, ke_account env a = Ok account → 0 <= sar_anticipated_base_fee_atomic account <= umax 64) →
  settled wallet s → sign_and_submit env prepared s = (Ok (tx, response), s') →
  ∃ account base, ke_account env (wm_address wallet) = Ok account ∧ ke_submit env tx = Ok response ∧
    Transaction_verify tx = Ok () ∧ Transaction_network tx = Ok MainnetCandidate ∧
    tx_from tx = Some (wm_address wallet) ∧ tx_to tx = pt_recipient prepared ∧
    parse_uint 64 (pt_amount_atomic prepared) = Some (tx_amount tx) ∧
    parse_uint 64 (pt_tip_atomic prepared) = Some (tx_priority_fee tx) ∧
    parse_uint 64 (pt_base_fee_atomic prepared) = Some base ∧ base = sar_anticipated_base_fee_atomic account ∧
    tx_max_fee tx = base + tx_priority_fee tx ∧
    tx_nonce tx = pt_nonce prepared ∧ tx_nonce tx = sar_next_nonce account ∧
    sar_tip_hash account = Some (pt_chain_tip prepared) ∧
    tx_amount tx + tx_max_fee tx <= sar_balance_atomic account.
Proof.
  intros Htyped Hset. unfold sign_and_submit, prepare_transaction. unfold settled in Hset. rewrite !sr_bind_Ok.
  intros (w0 & s0 & Hl & Hs). rewrite Hset in Hl. injection Hl as <- <-.
  rewrite sr_lift_bind in Hs. cbn [ok_or] in Hs. apply sr_bind_Ok in Hs as (amount & s1 & [= Ham <-] & Hs).
  apply sr_bind_Ok in Hs as (tip & s2 & [= Htip <-] & Hs). apply sr_bind_Ok in Hs as (refreshed & s3 & Hr & Hs).
  apply sr_bind_Ok in Hr as (w1 & s4 & Hl & Hr). rewrite Hset in Hl. injection Hl as <- <-.
  rewrite sr_lift_bind in Hr. cbn [ok_or] in Hr. injection Hr as Hr <-.
  destruct (is_stale refreshed prepared) eqn:Est; [done|].
  apply sr_bind_Ok in Hs as (secret & s5 & _ & Hs). apply sr_bind_Ok in Hs as (t & s6 & [= Ht <-] & Hs).
  apply sr_bind_Ok in Hs as (resp & s7 & [= Hsub%map_err_Ok <-] & [= <- <- <-]).
  unfold is_stale in Est. apply orb_false_iff in Est as [[En Eb]%orb_false_iff Ec].
  apply negb_false_iff, Z.eqb_eq in En. apply negb_false_iff, bool_decide_eq_true in Eb, Ec.
  destruct (prepare_for_Ok _ _ _ _ _ Hr) as (to & a & tp & account & _ & _ & Ha & Htp & _ & Hacc & Hbal & Hbf & Hnonce & Hth).
  destruct (sign_prepared_Ok _ _ _ _ Ht) as (am & ti & base & Hv & Hnet & Hf & Hto & Hno & Pam & Pti & Pba & -> & -> & Hmf).
  apply parse_atomic_Ok in Ham, Htip. rewrite Ham in Pam. rewrite Htip in Pti. injection Pam as ->. injection Pti as ->.
  pose proof (Htyped _ _ Hacc) as Hty. rewrite <- Eb, Hbf, parse_uint_text in Pba by done. injection Pba as <-.
  assert (∀ x n, parse_uint 64 x = Some n → 0 <= n <= umax 64) as Hrange.
  { intros x n Hx. unfold parse_uint in Hx. split; [by eapply parse_uint_bytes_nonneg | by eapply parse_uint_bytes_max; [|exact Hx]]. }
  apply format_atomic_parses in Ha, Htp; [|by eapply Hrange..]. subst a tp.
  exists account, (sar_anticipated_base_fee_atomic account). rewrite <- Ec. rewrite Hmf, Hno, <- En.
  split_and!; try done; [by rewrite <- Eb, Hbf, parse_uint_text | lia].
Qed.

(** ** The files *)

(** On success, [m] leads from [P] to [Q]. *)
Definition on_ok {A} (P : HelperState → Prop) (m : state_result HelperState HelperError A) (Q : HelperState → Prop) : Prop :=
  ∀ s a s', P s → m s = (Ok a, s') → Q s'.

Lemma on_ok_bind {A B} P Q R (m : state_result HelperState HelperError A) (f : A → state_result HelperState HelperError B) :
  on_ok P m Q → (∀ a, on_ok Q (f a) R) → on_ok P (m ≫= f) R.
Proof. intros Hm Hf s b s' Hs (a & s1 & Ha & Hb)%sr_bind_Ok. eapply Hf; [by eapply Hm | done]. Qed.
Lemma on_ok_get {B} P R (f : HelperState → state_result HelperState HelperError B) :
  (∀ s, on_ok P (f s) R) → on_ok P (sr_get ≫= f) R.
Proof. intros Hf s b s' Hs. rewrite sr_get_bind. by apply Hf. Qed.
Lemma on_ok_lift {A} P (r : hresult A) : on_ok P (sr_lift r) P.
Proof. by intros s a s' Hs [= _ <-]. Qed.
Lemma on_ok_err {A} P Q e : on_ok P (sr_lift (Err e) : state_result HelperState HelperError A) Q.
Proof. by intros s a s' Hs [=]. Qed.
Lemma on_ok_ret {A} P (a : A) : on_ok P (mret a) P.
Proof. by intros s b s' Hs [= _ <-]. Qed.
Lemma on_ok_modify (P Q : HelperState → Prop) f : (∀ s, P s → Q (f s)) → on_ok P (sr_modify f) Q.
Proof. intros Hf s a s' Hs [= _ <-]. by apply Hf. Qed.

(** The operations that load and save change nothing but these. *)
Class FileInvariant (P : HelperState → Prop) : Prop := {
  inv_copy : ∀ s legacy, P s → hp_legacy s = Some legacy → P (set_current (copy_missing legacy) s);
  inv_made : ∀ s, P s → P (set_wallets (λ w, Some (default ∅ w)) s);
  inv_write : ∀ s name m, P s → P (set_wallets (λ w, Some (<[name := FileJson m]> (default ∅ w))) s);
  inv_active : ∀ s a, P s → P (set_active_wallet a s);
}.

Section invariant.
Context (P : HelperState → Prop) `{!FileInvariant P}.

Lemma root_keeps : on_ok P (wallet_root env) P.
Proof.
  unfold wallet_root. case_match; [apply on_ok_err|]. intros s b s' Hs. rewrite sr_get_bind.
  destruct (hp_legacy s) as [legacy|] eqn:El; [|by apply (on_ok_ret P)].
  rewrite sr_lift_bind. destruct (map_err _ _); [|done]. intros [= _ <-]. by apply inv_copy.
Qed.

Lemma active_keeps id : on_ok P (write_active env id) P.
Proof.
  unfold write_active. eapply on_ok_bind; [apply root_keeps | intros _]. destruct (ke_active_write env).
  - apply on_ok_modify. intros s. apply inv_active.
  - apply on_ok_err.
  - by intros s b s' Hs [=].
Qed.

Lemma save_keeps m : on_ok P (save_wallet env m) P.
Proof.
  unfold save_wallet. eapply on_ok_bind; [apply on_ok_lift | intros _]. eapply on_ok_bind; [apply root_keeps | intros _].
  eapply on_ok_bind; [apply on_ok_lift | intros _]. eapply on_ok_bind; [apply on_ok_modify, inv_made | intros _].
  eapply on_ok_bind; [|intros _; apply active_keeps]. unfold write_metadata. destruct (ke_metadata_write env _).
  - apply on_ok_modify. intros s. apply inv_write.
  - apply on_ok_err.
  - by intros s b s' Hs [=].
Qed.

Lemma migrate_keeps : on_ok P (migrate_legacy_wallet env) P.
Proof.
  unfold migrate_legacy_wallet. eapply on_ok_bind; [apply root_keeps | intros _]. apply on_ok_get. intros s.
  case_match; [|apply on_ok_ret]. eapply on_ok_bind; [apply root_keeps | intros _]. apply on_ok_get. intros s'.
  case_match; [apply on_ok_ret|]. eapply on_ok_bind; [apply on_ok_lift | intros l].
  case_match; [apply on_ok_err | apply save_keeps].
Qed.

Lemma load_each_keeps names : on_ok P (load_each env names) P.
Proof.
  induction names as [|name names IH]; cbn [load_each]; [apply on_ok_ret|]. case_match; [done|].
  eapply on_ok_bind; [|intros m; eapply on_ok_bind; [done | intros l; apply on_ok_ret]].
  unfold load_one. apply on_ok_get. intros s. eapply on_ok_bind; [apply on_ok_lift | intros m].
  eapply on_ok_bind; [|intros m'; eapply on_ok_bind; [apply on_ok_lift | intros _; apply on_ok_ret]].
  case_match; [eapply on_ok_bind; [apply save_keeps | intros _; apply on_ok_ret] | apply on_ok_ret].
Qed.

(** Loading ends after the older tree was copied. *)
Lemma load_wallets_keeps Q : on_ok Q (migrate_legacy_wallet env) Q → on_ok Q (wallet_root env) P → on_ok Q (load_wallets env) P.
Proof.
  intros Hm Hr. unfold load_wallets. eapply on_ok_bind; [apply Hm | intros _]. eapply on_ok_bind; [apply Hr | intros _].
  apply on_ok_get. intros s. case_match; [|apply on_ok_ret].
  eapply on_ok_bind; [apply load_each_keeps | intros l; apply on_ok_ret].
Qed.

Lemma load_metadata_keeps Q :
  on_ok Q (migrate_legacy_wallet env) Q → on_ok Q (wallet_root env) P → on_ok Q (load_metadata env) P.
Proof.
  intros Hm Hr. unfold load_metadata. eapply on_ok_bind; [by apply load_wallets_keeps|].
  intros [|w l]; [apply on_ok_ret|]. eapply on_ok_bind; [apply root_keeps | intros _]. apply on_ok_get. intros s.
  apply on_ok_ret.
Qed.

End invariant.

(** The older tree stays, with the keys [K]. *)
Definition keeps_legacy (legacy : WalletTree) (K : gmap (string * string) string → Prop) (s : HelperState) : Prop :=
  hp_legacy s = Some legacy ∧ K (hp_keys s).
#[local] Instance keeps_legacy_invariant legacy K : FileInvariant (keeps_legacy legacy K).
Proof. by split. Qed.
(** And each of its wallet files is in the current tree. *)
Definition covers (legacy : WalletTree) (K : gmap (string * string) string → Prop) (s : HelperState) : Prop :=
  keeps_legacy legacy K s ∧ ∀ name, is_Some (tr_wallets legacy ≫= lookup name) → is_Some (tr_wallets (hp_current s) ≫= lookup name).
#[local] Instance covers_invariant legacy K : FileInvariant (covers legacy K).
Proof.
  split; unfold covers, keeps_legacy; intros [cur leg keys]; cbn.
  - intros l [[-> HK] Hc] [= ->]. split; [done|]. intros name Hn%Hc. unfold copy_missing; cbn.
    destruct (tr_wallets cur) as [m|], (tr_wallets l) as [k|]; cbn in *; try done.
    destruct Hn as [f Hf]. exists f. by apply lookup_union_Some_l.
  - intros [[-> HK] Hc]. split; [done|]. intros name Hn%Hc. by destruct (tr_wallets cur); cbn in *.
  - intros n m [[-> HK] Hc]. split; [done|]. intros name Hn%Hc. destruct (tr_wallets cur) as [w|]; cbn in *; [|by destruct Hn].
    destruct (decide (n = name)) as [->|?]; [by rewrite lookup_insert_eq | by rewrite lookup_insert_ne].
  - intros a [[-> HK] Hc]. by split.
Qed.

Lemma root_covers legacy K : on_ok (keeps_legacy legacy K) (wallet_root env) (covers legacy K).
Proof.
  unfold wallet_root. case_match; [apply on_ok_err|]. intros s b s' [Hl HK]. rewrite sr_get_bind, Hl, sr_lift_bind.
  destruct (map_err _ _); [|done]. intros [= _ <-]. split; [by split|]. intros name [f Hf]. unfold copy_missing; cbn.
  destruct (tr_wallets (hp_current s)) as [m|], (tr_wallets legacy) as [k|]; cbn in *; try done.
  apply lookup_union_is_Some. right. by exists f.
Qed.
Lemma covers_keeps legacy K s : covers legacy K s → keeps_legacy legacy K s.
Proof. by intros []. Qed.

Lemma on_ok_weaken {A} (P P' Q : HelperState → Prop) (m : state_result HelperState HelperError A) :
  (∀ s, P s → P' s) → on_ok P' m Q → on_ok P m Q.
Proof. intros Hw Hm s a s' Hs. apply Hm. by apply Hw. Qed.

Lemma remove_covers legacy K : (∀ keys a, K keys → K (delete (SERVICE, a) keys)) →
  on_ok (keeps_legacy legacy K) (remove_wallet env) (covers legacy K).
Proof.
  intros HK. pose proof (migrate_keeps (keeps_legacy legacy K)) as Hm. pose proof (root_covers legacy K) as Hroot.
  unfold remove_wallet. eapply on_ok_bind; [by apply (load_metadata_keeps (covers legacy K))|]. intros [w|]; [|apply on_ok_ret].
  eapply on_ok_bind; [apply (on_ok_modify _ (keeps_legacy legacy K)) | intros _].
  { intros s [[Hl Hk] _]. unfold remove_private_key. case_match; [|by split]. split; [done|]. by apply HK. }
  eapply on_ok_bind; [apply root_keeps, _ | intros _]. apply on_ok_get. intros s. cbv zeta.
  eapply (on_ok_bind _ (keeps_legacy legacy K)).
  { case_match; [|apply on_ok_ret]. eapply on_ok_bind; [apply on_ok_lift | intros _]. by apply on_ok_modify. }
  intros _. eapply on_ok_bind; [by apply (load_wallets_keeps (covers legacy K))|]. intros [|next rest]; [|apply active_keeps, _].
  eapply on_ok_bind; [apply root_keeps, _ | intros _]. apply on_ok_get. intros s1. case_match; [|apply on_ok_ret].
  eapply on_ok_bind; [apply root_keeps, _ | intros _]. eapply on_ok_bind; [apply on_ok_lift | intros _].
  apply on_ok_modify. intros s2. apply inv_active.
Qed.

(** Where a wallet directory of the older application exists, removing the wallet
    does not remove it: when [remove_wallet] succeeds, every file of the older
    directory is in the current one, and a key that the older application stored
    under an account is given again, although the credential was deleted. *)
Theorem removed_wallet_returns legacy s s' name account secret :
  hp_legacy s = Some legacy → is_Some (tr_wallets legacy ≫= lookup name) →
  hp_keys s !! (LEGACY_SERVICE, account) = Some secret → ke_key_set env = Ok () →
  remove_wallet env s = (Ok (), s') →
  is_Some (tr_wallets (hp_current s') ≫= lookup name) ∧
  (hp_keys s' !! (SERVICE, account) = None → (load_private_key env account s').1 = Ok secret).
Proof.
  intros Hl Hn Hk Hset Hr.
  destruct (remove_covers legacy (λ keys, keys !! (LEGACY_SERVICE, account) = Some secret)
    ltac:(intros keys a Ha; cbn beta in *; by rewrite lookup_delete_ne) s () s') as [[_ HK] Hcov]; [done | done |].
  split; [by apply Hcov|]. intros Hno. unfold load_private_key.
  rewrite sr_get_bind, Hno, HK. cbn [ok_or]. by rewrite sr_lift_bind, Hset.
Qed.

Lemma wallet_root_shape s s' : wallet_root env s = (Ok (), s') →
  s' = s ∨ ∃ legacy, s' = set_current (copy_missing legacy) s.
Proof.
  unfold wallet_root. case_match; [done|]. rewrite sr_get_bind. destruct (hp_legacy s); [|intros [= <-]; by left].
  rewrite sr_lift_bind. destruct (map_err _ _); [|done]. intros [= <-]. right. by eexists.
Qed.

(** A wallet that was saved is in its file, active, and the keys are untouched. *)
Lemma save_wallet_Ok m s s' : save_wallet env m s = (Ok (), s') →
  (tr_wallets (hp_current s') ≫= lookup (json_file (wm_wallet_id m))) = Some (FileJson m) ∧
  tr_active (hp_current s') = Some (wm_wallet_id m) ∧ hp_keys s' = hp_keys s.
Proof.
  unfold save_wallet. rewrite !sr_bind_Ok. intros ([] & s0 & [= _ <-] & Hs).
  apply sr_bind_Ok in Hs as ([] & s1 & Hroot & Hs). apply sr_bind_Ok in Hs as ([] & s2 & [= _ <-] & Hs).
  rewrite sr_modify_bind in Hs. apply sr_bind_Ok in Hs as ([] & s3 & Hw & Ha).
  assert (hp_keys s1 = hp_keys s) as Hk1 by (apply wallet_root_shape in Hroot as [->|[l ->]]; done).
  unfold write_metadata in Hw. destruct (ke_metadata_write _ _); try done. injection Hw as <-.
  unfold write_active in Ha. apply sr_bind_Ok in Ha as ([] & s4 & Hroot2 & Ha).
  destruct (ke_active_write env); try done. injection Ha as <-.
  apply wallet_root_shape in Hroot2 as [->|[l ->]]; cbn; (split; [|done]); [by rewrite lookup_insert_eq|].
  destruct (tr_wallets l) as [k|]; cbn; [apply lookup_union_Some_l|]; by rewrite lookup_insert_eq.
Qed.

Lemma persist_key_Ok key origin name s w s' : persist_key env key origin name s = (Ok w, s') →
  w = metadata_of key origin name ∧
  (tr_wallets (hp_current s') ≫= lookup (json_file (wm_wallet_id w))) = Some (FileJson w) ∧
  tr_active (hp_current s') = Some (wm_wallet_id w) ∧
  hp_keys s' !! (SERVICE, wm_credential_account w) = Some (bytes_to_hex key).
Proof.
  unfold persist_key. rewrite sr_lift_bind. destruct (map_err _ _); [|done]. rewrite sr_modify_bind. unfold save_or_forget.
  intros ([] & s1 & Hs & [= <- <-])%sr_bind_Ok.
  destruct (save_wallet _ _ _) as [[[]|e] s2] eqn:E; [|done]. injection Hs as <-.
  apply save_wallet_Ok in E as (Hf & Ha & Hk). split_and!; try done. rewrite Hk. cbn. by rewrite lookup_insert_eq.
Qed.

(** Creating a wallet whose recovery phrase could not be shown fails, but the wallet
    is there: its metadata is stored, it is the active one, and its key is in the
    credential store, while the phrase was never shown. *)
Theorem unshown_wallet_stays name s mnemonic key e s' :
  generate_mnemonic (ke_drawn env) TwentyFour = Ok mnemonic →
  derive_private_key_from_mnemonic mnemonic "" WalletDerivationPath_default = Ok key →
  is_ok (persist_key env key "bip39-created" name s).1 = true → ke_shown env = Err e →
  helper_create_wallet env name s = (Err e, s') →
  let w := metadata_of key "bip39-created" name in
  (tr_wallets (hp_current s') ≫= lookup (json_file (wm_wallet_id w))) = Some (FileJson w) ∧
  tr_active (hp_current s') = Some (wm_wallet_id w) ∧
  hp_keys s' !! (SERVICE, wm_credential_account w) = Some (bytes_to_hex key).
Proof.
  intros Hg Hd Hp He. unfold helper_create_wallet. rewrite Hg. cbn [map_err]. rewrite sr_lift_bind, Hd. cbn [map_err].
  rewrite sr_lift_bind. destruct (persist_key _ _ _ _ _) as [[w|]  s1] eqn:E; [|done].
  rewrite (sr_bind_step _ _ _ _ _ E), sr_lift_bind, He. intros [= <-]. cbv zeta.
  apply persist_key_Ok in E as (-> & Hf & Ha & Hk). by split.
Qed.

(** A stored wallet is one that can sign: its key is read back from the credential
    store as it was derived, and its address is the one of the metadata. *)
Theorem persisted_key_signs key origin name s w s' :
  length key = PrivateKey_SIZE → persist_key env key origin name s = (Ok w, s') →
  load_private_key env (wm_credential_account w) s' = (Ok (bytes_to_hex key), s') ∧
  PrivateKey_from_hex (bytes_to_hex key) = Ok key ∧
  Address_to_string (from_public_key_for_network (PrivateKey_public_key key) MainnetCandidate) = wm_address w.
Proof.
  intros Hlen Hp. apply persist_key_Ok in Hp as (-> & _ & _ & Hk). split_and!; [|..|done].
  - unfold load_private_key. by rewrite sr_get_bind, Hk.
  - unfold PrivateKey_from_hex. rewrite parse_hex_array_to_hex by done. done.
Qed.

End helper.
