(* ===== verification/Desktop.v ===== *)
(** [vireon-desktop-tauri/src-tauri/src]: the settings of the desktop application
    (settings.rs) and the miner it starts and stops (process.rs).  URLs parsed by the
    [url] crate, merged JSON, answers of gateway and pool, liveness of processes and
    outcomes of files, clients and spawning are arguments; paths are texts. *)

From S2P Require Import Prelude RustStd Interfaces Crypto Errors Network Amount Signing Address Transaction Block MinerWork Pool PoolApp MinerSettings MinerCuda Sdk WalletStorage.

Abbreviation app_result A := (result string A).

(** ** Settings ([settings.rs]) *)

(** What the code reads of a URL the [url] crate parsed. *)
Record Url := mkUrl {
  ur_scheme : string;
  ur_host : option string;
  ur_port : option Z;
  ur_path : string;
  ur_query : option string;
  ur_fragment : option string;
  ur_origin : string;
}.

(** [struct AppSettings] *)
Record AppSettings := mkSettings {
  ap_rpc_url : string;
  ap_language : string;
  ap_theme : string;
  ap_density : string;
  ap_accent : string;
  ap_refresh_interval_ms : Z;
  ap_live_log_interval_ms : Z;
  ap_reduce_motion : bool;
  ap_confirm_before_operator : bool;
  ap_auto_start_services : bool;
  ap_start_minimized : bool;
  ap_notify_block_mined : bool;
  ap_notify_sound : bool;
  ap_notify_updates : bool;
  ap_auto_update : bool;
  ap_auto_update_interval_secs : Z;
  ap_hide_balances : bool;
  ap_mask_addresses : bool;
  ap_show_advanced_metrics : bool;
  ap_show_technical_labels : bool;
  ap_default_miner_mode : string;
  ap_default_miner_backend : string;
  ap_default_gpu_intensity : Z;
  ap_default_gpu_devices : list string;
  ap_default_pool_url : string;
  ap_pool_urls : list string;
  ap_default_worker_name : string;
  ap_default_page : string;
  ap_open_external_explorer : bool;
  ap_keep_logs_days : Z;
}.

Definition DEFAULT_RPC_URL : string := DEFAULT_MAINNET_CANDIDATE_RPC.
Definition AppSettings_default : AppSettings := {|
  ap_rpc_url := DEFAULT_RPC_URL; ap_language := "en"; ap_theme := "dark"; ap_density := "comfortable"; ap_accent := "cyan";
  ap_refresh_interval_ms := 12000; ap_live_log_interval_ms := 5000; ap_reduce_motion := false;
  ap_confirm_before_operator := true; ap_auto_start_services := false; ap_start_minimized := false;
  ap_notify_block_mined := true; ap_notify_sound := true; ap_notify_updates := true; ap_auto_update := true;
  ap_auto_update_interval_secs := 900; ap_hide_balances := false; ap_mask_addresses := false;
  ap_show_advanced_metrics := true; ap_show_technical_labels := true; ap_default_miner_mode := "pool";
  ap_default_miner_backend := "cuda"; ap_default_gpu_intensity := 90; ap_default_gpu_devices := [];
  ap_default_pool_url := DEFAULT_MAINNET_CANDIDATE_POOL; ap_pool_urls := [DEFAULT_MAINNET_CANDIDATE_POOL];
  ap_default_worker_name := "desktop-01"; ap_default_page := "overview"; ap_open_external_explorer := true;
  ap_keep_logs_days := 14 |}.

(** [settings.json], and the settings behind the lock. *)
Inductive SettingsFile := SettingsAbsent | SettingsUnreadable | SettingsMalformed | SettingsJson (s : AppSettings).
Record SettingsStore := mkSettingsStore { so_settings : AppSettings; so_file : SettingsFile }.

Definition load_from_disk (file : SettingsFile) : AppSettings :=
  match file with SettingsJson s => s | _ => AppSettings_default end.
Definition open_settings (file : SettingsFile) : SettingsStore := mkSettingsStore (load_from_disk file) file.

(** [made]: the directory; the write itself may stop anywhere. *)
Definition settings_persist (made : app_result ()) (o : WriteOutcome) (s : AppSettings) : state_result SettingsStore string () := λ st,
  match made, o with
  | Err e, _ => (Err e, st)
  | Ok _, WriteRefused e => (Err e, st)
  | Ok _, WriteTorn e => (Err e, mkSettingsStore (so_settings st) SettingsMalformed)
  | Ok _, Written => (Ok (), mkSettingsStore (so_settings st) (SettingsJson s))
  end.
(** [persist], then the lock's contents. *)
Definition store_settings (made : app_result ()) (o : WriteOutcome) (s : AppSettings) : state_result SettingsStore string () :=
  _ ← settings_persist made o s;
  sr_modify (λ st, mkSettingsStore s (so_file st)).

Definition settings_reset (made : app_result ()) (o : WriteOutcome) : state_result SettingsStore string AppSettings :=
  _ ← store_settings made o AppSettings_default;
  mret AppSettings_default.

(** [trim().trim_end_matches('/')] *)
Definition trim_url (s : string) : string := trim_end_matches SLASH (str_trim s).

(** [^(localhost|127\.0\.0\.1|\[::1\])(?::\d+)?$], for ASCII digits. *)
Definition digits_only (l : bytes) : bool := forallb (λ b, (48 <=? byte_Z b) && (byte_Z b <=? 57)) l.
Definition is_port_suffix (rest : string) : bool :=
  match str_bytes rest with
  | [] => true
  | c :: digits => (byte_Z c =? 58) && digits_only digits && negb (bool_decide (digits = []))
  end.
Definition is_local_host (s : string) : bool :=
  existsb (λ host, match str_strip_prefix s host with Some rest => is_port_suffix rest | None => false end)
    ["localhost"; "127.0.0.1"; "[::1]"]%string.
(** [^[a-z][a-z0-9+.-]*://] *)
Definition scheme_byte (b : byte) : bool :=
  let z := byte_Z b in
  ((97 <=? z) && (z <=? 122)) || ((48 <=? z) && (z <=? 57)) || (z =? 43) || (z =? 46) || (z =? 45).
Definition has_scheme (s : string) : bool :=
  match split_once (byte_of_Z 58) (str_bytes s) with
  | Some ((c :: _) as scheme, rest) =>
      ((97 <=? byte_Z c) && (byte_Z c <=? 122)) && forallb scheme_byte scheme && is_prefix (str_bytes "//") rest
  | _ => false
  end.

(** The pool list: each a base URL, at most 16, the default first, none twice. *)
Definition pool_entry (u : string) : option string :=
  let t := trim_url u in
  if str_is_empty t then None else if str_contains t "://" then Some t else Some ("https://" ++ t)%string.
Fixpoint dedupe (seen : list string) (l : list string) : list string :=
  match l with
  | [] => []
  | u :: l =>
      let key := str_to_ascii_lowercase u in
      if bool_decide (key ∈ seen) then dedupe seen l else u :: dedupe (key :: seen) l
  end.
Definition pool_list (pool_urls : list string) (default_pool : string) : list string :=
  let pools := take 16 (omap pool_entry pool_urls) in
  let pools := if negb (str_is_empty default_pool) && negb (existsb (λ u, eq_ignore_ascii_case u default_pool) pools)
               then default_pool :: pools else pools in
  let pools := if bool_decide (pools = []) && negb (str_is_empty default_pool) then pools ++ [default_pool] else pools in
  dedupe [] pools.

(** What [update] does to the merged settings but for the RPC URL. *)
Definition normalized (s : AppSettings) : AppSettings :=
  let default_pool := trim_url (ap_default_pool_url s) in
  let pools := pool_list (ap_pool_urls s) default_pool in
  {| ap_rpc_url := ap_rpc_url s; ap_language := ap_language s; ap_theme := ap_theme s; ap_density := ap_density s;
     ap_accent := ap_accent s;
     ap_refresh_interval_ms := clamp 3000 60000 (ap_refresh_interval_ms s);
     ap_live_log_interval_ms := clamp 2000 30000 (ap_live_log_interval_ms s);
     ap_reduce_motion := ap_reduce_motion s; ap_confirm_before_operator := ap_confirm_before_operator s;
     ap_auto_start_services := ap_auto_start_services s; ap_start_minimized := ap_start_minimized s;
     ap_notify_block_mined := ap_notify_block_mined s; ap_notify_sound := ap_notify_sound s;
     ap_notify_updates := ap_notify_updates s; ap_auto_update := ap_auto_update s;
     ap_auto_update_interval_secs := clamp 60 86400 (ap_auto_update_interval_secs s);
     ap_hide_balances := ap_hide_balances s; ap_mask_addresses := ap_mask_addresses s;
     ap_show_advanced_metrics := ap_show_advanced_metrics s; ap_show_technical_labels := ap_show_technical_labels s;
     ap_default_miner_mode :=
       if negb (bool_decide (ap_default_miner_mode s = "solo"%string)) && negb (bool_decide (ap_default_miner_mode s = "pool"%string))
       then "solo" else ap_default_miner_mode s;
     ap_default_miner_backend := "cuda";
     ap_default_gpu_intensity := clamp 1 100 (ap_default_gpu_intensity s);
     ap_default_gpu_devices := take 16 (filter (λ d, d ≠ ""%string) (str_trim <$> ap_default_gpu_devices s));
     ap_default_pool_url :=
       if str_is_empty (str_trim (ap_default_pool_url s)) then default (ap_default_pool_url s) (head pools) else default_pool;
     ap_pool_urls := pools;
     ap_default_worker_name := ap_default_worker_name s; ap_default_page := ap_default_page s;
     ap_open_external_explorer := ap_open_external_explorer s;
     ap_keep_logs_days := clamp 1 365 (ap_keep_logs_days s) |}.
Definition with_rpc_url (url : string) (s : AppSettings) : AppSettings :=
  {| ap_rpc_url := url; ap_language := ap_language s; ap_theme := ap_theme s; ap_density := ap_density s; ap_accent := ap_accent s;
     ap_refresh_interval_ms := ap_refresh_interval_ms s; ap_live_log_interval_ms := ap_live_log_interval_ms s;
     ap_reduce_motion := ap_reduce_motion s; ap_confirm_before_operator := ap_confirm_before_operator s;
     ap_auto_start_services := ap_auto_start_services s; ap_start_minimized := ap_start_minimized s;
     ap_notify_block_mined := ap_notify_block_mined s; ap_notify_sound := ap_notify_sound s;
     ap_notify_updates := ap_notify_updates s; ap_auto_update := ap_auto_update s;
     ap_auto_update_interval_secs := ap_auto_update_interval_secs s; ap_hide_balances := ap_hide_balances s;
     ap_mask_addresses := ap_mask_addresses s; ap_show_advanced_metrics := ap_show_advanced_metrics s;
     ap_show_technical_labels := ap_show_technical_labels s; ap_default_miner_mode := ap_default_miner_mode s;
     ap_default_miner_backend := ap_default_miner_backend s; ap_default_gpu_intensity := ap_default_gpu_intensity s;
     ap_default_gpu_devices := ap_default_gpu_devices s; ap_default_pool_url := ap_default_pool_url s;
     ap_pool_urls := ap_pool_urls s; ap_default_worker_name := ap_default_worker_name s; ap_default_page := ap_default_page s;
     ap_open_external_explorer := ap_open_external_explorer s; ap_keep_logs_days := ap_keep_logs_days s |}.

Definition get_rpc_url (s : AppSettings) : string :=
  if str_is_empty (str_trim (ap_rpc_url s)) then DEFAULT_RPC_URL else ap_rpc_url s.

Section urls.
Context (parse_url : string → app_result Url).

Definition normalize_rpc_url (raw : string) : app_result string :=
  let trimmed := trim_url raw in
  if str_is_empty trimmed then Err "Enter a Vireon RPC endpoint URL."%string else
  let with_scheme := if has_scheme trimmed then trimmed
    else if is_local_host trimmed then ("http://" ++ trimmed)%string else ("https://" ++ trimmed)%string in
  url ← parse_url with_scheme;
  if negb (bool_decide (ur_scheme url = "http"%string)) && negb (bool_decide (ur_scheme url = "https"%string))
  then Err "The RPC endpoint must use http:// or https://."%string else
  if bool_decide (ur_port url = Some 20787)
  then Err "Port 20787 is Vireon P2P, not HTTP RPC. Use the HTTPS RPC gateway."%string else
  if negb (bool_decide (ur_path url = "/"%string)) && negb (str_is_empty (ur_path url))
  then Err "Enter the RPC base URL without an API path."%string else
  if bool_decide (is_Some (ur_query url)) || bool_decide (is_Some (ur_fragment url))
  then Err "The RPC endpoint cannot contain a query or fragment."%string else
  Ok (ur_origin url).

(** [merge]: the patch's members inserted into the settings as JSON and read back;
    [rpc]: the patch's [rpc_url], when it is a text. *)
Definition settings_update (merge : AppSettings → app_result AppSettings) (rpc : option string)
    (made : app_result ()) (o : WriteOutcome) : state_result SettingsStore string AppSettings :=
  st ← sr_get;
  merged ← sr_lift (merge (so_settings st));
  merged ← match rpc with
    | Some raw => url ← sr_lift (normalize_rpc_url raw); mret (with_rpc_url url merged)
    | None => mret merged
    end;
  _ ← store_settings made o (normalized merged);
  mret (normalized merged).

Definition set_rpc_url (raw : string) (made : app_result ()) (o : WriteOutcome) : state_result SettingsStore string string :=
  url ← sr_lift (normalize_rpc_url raw);
  st ← sr_get;
  _ ← store_settings made o (with_rpc_url url (so_settings st));
  mret url.

Definition is_local_rpc_url (url : string) : bool :=
  match parse_url url with
  | Ok parsed => bool_decide (default ""%string (ur_host parsed) ∈ ["127.0.0.1"; "localhost"; "::1"; "[::1]"]%string)
  | Err _ => false
  end.

End urls.

(** ** Processes ([process.rs]) *)

(** [struct MinerStartOptions] *)
Record MinerStartOptions := mkStartOptions {
  so_mode : string;
  so_backend : option string;
  so_gpu_intensity : option Z;
  so_gpu_devices : option (list string);
  so_pool_url : option string;
  so_worker_name : option string;
}.

(** A [GET]: no answer, or the status with its text and the body. *)
Inductive GetOutcome := GetFailed (text : string) | GetAnswered (status : Z) (status_text body : string).
Definition success_status (status : Z) : bool := (200 <=? status) && (status <=? 299).

(** The script's run. *)
Inductive ScriptOutcome :=
| ScriptMissing (path : string)
| ScriptNotRun (path text : string)
| ScriptRan (success : bool) (code : string) (stdout stderr : string).

(** The files under the local root, and what was done to processes: one signalled by
    its id, all miners by their name, one started with its configuration. *)
Inductive Signal := Terminated (pid : string) | SweptMiners | Spawned (binary config_path : string).
Record ProcessWorld := mkProcesses {
  pw_pids : gmap string string;
  pw_config : option string;
  pw_metrics : option JsonTree;
  pw_logs : gmap string string;
  pw_signals : list Signal;
}.
Definition set_pids (f : gmap string string → gmap string string) (w : ProcessWorld) : ProcessWorld :=
  mkProcesses (f (pw_pids w)) (pw_config w) (pw_metrics w) (pw_logs w) (pw_signals w).
Definition set_config (c : option string) (w : ProcessWorld) : ProcessWorld :=
  mkProcesses (pw_pids w) c (pw_metrics w) (pw_logs w) (pw_signals w).
Definition write_metrics (m : option JsonTree) (w : ProcessWorld) : ProcessWorld :=
  mkProcesses (pw_pids w) (pw_config w) m (pw_logs w) (pw_signals w).
Definition set_log (name : string) (text : option string) (w : ProcessWorld) : ProcessWorld :=
  mkProcesses (pw_pids w) (pw_config w) (pw_metrics w) (<[name := default ""%string text]> (pw_logs w)) (pw_signals w).
Definition signal (g : Signal) (w : ProcessWorld) : ProcessWorld :=
  mkProcesses (pw_pids w) (pw_config w) (pw_metrics w) (pw_logs w) (pw_signals w ++ [g]).

(** What an operation meets: the settings, the workspace and the local root, whether a
    process id is alive when it is asked, the clock, the answers, and outcomes. *)
Record ProcessEnv := {
  pe_settings : AppSettings;
  pe_roots : app_result (string * string);
  pe_workspace : app_result string;
  pe_alive : nat → string → bool;
  pe_clock : nat → Z;
  pe_clients : app_result ();
  pe_get : string → GetOutcome;
  pe_dirs : app_result ();
  pe_config_written : WriteOutcome;
  pe_metrics_written : bool;
  pe_pid_removed : bool;
  pe_binary : app_result string;
  pe_log_written : WriteOutcome;
  pe_err_log_written : WriteOutcome;
  pe_logs_opened : app_result ();
  pe_spawned : app_result Z;
  pe_pid_written : WriteOutcome;
  pe_exit_logs : string * string;
  pe_script : string → ScriptOutcome;
}.

Abbreviation process A := (state_result ProcessWorld string A).

(** [{b:02X}] *)
Definition hex_upper (v : Z) : byte := byte_of_Z (if v <? 10 then 48 + v else 55 + v).
Definition url_plain (b : byte) : bool :=
  alphanumeric b || (byte_Z b =? 45) || (byte_Z b =? 95) || (byte_Z b =? 46) || (byte_Z b =? 126).
Definition url_byte (b : byte) : bytes :=
  if url_plain b then [b] else [byte_of_Z 37; hex_upper (byte_Z b / 16); hex_upper (byte_Z b mod 16)].
Definition urlencoding_lite (value : string) : string := str_of_bytes (mjoin (url_byte <$> str_bytes value)).

Definition quoted (s : string) : string := (DOUBLE_QUOTE ++ s ++ DOUBLE_QUOTE)%string.
Definition metrics_json (status backend : string) (now : Z) : JsonTree :=
  JObject [("status", JString status); ("network_id", JString ""); ("template_id", JString ""); ("height", JNumber 0);
    ("difficulty_leading_zero_bits", JNumber 0); ("backend_mode", JString backend); ("active_backend", JString backend);
    ("hashrate_hs", JFloat "0.0"); ("hashes_attempted", JNumber 0); ("accepted_blocks", JNumber 0); ("rejected_local", JNumber 0);
    ("stale", JNumber 0); ("gpu_devices", JNumber 0); ("last_error", JNull); ("updated_at_unix_seconds", JNumber now)]%string.

(** What the miner is started with. *)
Record MinerPlan := mkMinerPlan {
  mp_address : string;
  mp_intensity : Z;
  mp_devices : list string;
  mp_pool : bool;
  mp_pool_url : string;
  mp_worker_name : string;
  mp_rpc_url : string;
}.
Definition default_options (s : AppSettings) : MinerStartOptions :=
  mkStartOptions (ap_default_miner_mode s) (Some (ap_default_miner_backend s)) (Some (ap_default_gpu_intensity s)) None
    (Some (ap_default_pool_url s)) (Some (ap_default_worker_name s)).
Definition miner_plan (s : AppSettings) (miner_address : option string) (options : option MinerStartOptions) : app_result MinerPlan :=
  address ← ok_or "Create or select a wallet before starting the miner (Miner needs a payout address)."%string miner_address;
  if negb (str_starts_with address "vire1")
  then Err ("Wallet address looks invalid for Mainnet Candidate: " ++ address)%string else
  let options := default (default_options s) options in
  let devices := match so_gpu_devices options with
    | Some ((_ :: _) as items) => items
    | _ => ap_default_gpu_devices s
    end in
  let pool_url := trim_url (default (ap_default_pool_url s) (so_pool_url options)) in
  Ok (mkMinerPlan address (clamp 1 100 (default (ap_default_gpu_intensity s) (so_gpu_intensity options))) devices
    (bool_decide (str_to_ascii_lowercase (str_trim (so_mode options)) = "pool"%string))
    (if str_is_empty pool_url then DEFAULT_MAINNET_CANDIDATE_POOL else pool_url)
    (match so_worker_name options with
     | Some n => if str_is_empty (str_trim n) then "desktop-01"%string else n
     | None => "desktop-01"%string
     end)
    (get_rpc_url s)).

(** The batch size of an intensity, and the miner's configuration as text and as the
    value that the text means. *)
Definition gpu_batch_of (intensity : Z) : Z := clamp 16384 131072 (saturating_mul 64 131072 (clamp 1 100 intensity) / 100).
Definition device_text (d : string) : string := str_of_bytes (filter (λ b, byte_Z b ≠ 34) (str_bytes d)).
Definition source_block (p : MinerPlan) : string :=
  (if mp_pool p
   then "[source]" ++ NEWLINE ++ "kind = " ++ quoted "pool" ++ NEWLINE ++ "url = " ++ quoted (mp_pool_url p) ++ NEWLINE
     ++ "worker_name = " ++ quoted (mp_worker_name p) ++ NEWLINE ++ "timeout_seconds = 20" ++ NEWLINE
   else "[source]" ++ NEWLINE ++ "kind = " ++ quoted "rpc" ++ NEWLINE ++ "url = " ++ quoted (mp_rpc_url p) ++ NEWLINE
     ++ "timeout_seconds = 20" ++ NEWLINE)%string.
Definition template_refresh (p : MinerPlan) : Z := if mp_pool p then 3 else 5.
Definition status_interval (p : MinerPlan) : Z := if mp_pool p then 2 else 3.
Definition config_text (p : MinerPlan) (metrics_path : string) : string :=
  let batch := uint_to_string (gpu_batch_of (mp_intensity p)) in
  let devices := match mp_devices p with
    | [] => ""%string
    | l => ("gpu_devices = [" ++ String.concat ", " ((λ d, quoted (device_text d)) <$> l) ++ "]" ++ NEWLINE)%string
    end in
  ("schema_version = 4" ++ NEWLINE ++ "miner_address = " ++ quoted (mp_address p) ++ NEWLINE
   ++ "nonce_batch_size = " ++ batch ++ NEWLINE
   ++ "template_refresh_seconds = " ++ uint_to_string (template_refresh p) ++ NEWLINE
   ++ "status_interval_seconds = " ++ uint_to_string (status_interval p) ++ NEWLINE
   ++ "backend_mode = " ++ quoted "cuda" ++ NEWLINE ++ "gpu_intensity = " ++ uint_to_string (mp_intensity p) ++ NEWLINE
   ++ "kernel_validation = true" ++ NEWLINE ++ "gpu_batch_size = " ++ batch ++ NEWLINE ++ devices
   ++ "metrics_path = " ++ quoted metrics_path ++ NEWLINE ++ NEWLINE ++ source_block p)%string.
Definition config_value (p : MinerPlan) (metrics_path : string) : MinerConfig := {|
  mf_schema_version := 4; mf_miner_address := mp_address p; mf_nonce_batch_size := gpu_batch_of (mp_intensity p);
  mf_template_refresh_seconds := template_refresh p; mf_status_interval_seconds := status_interval p;
  mf_metrics_path := Some metrics_path; mf_activity_log_path := None; mf_backend_mode := "cuda";
  mf_gpu_intensity := mp_intensity p; mf_gpu_batch_size := gpu_batch_of (mp_intensity p); mf_gpu_devices := device_text <$> mp_devices p;
  mf_kernel_validation := true;
  mf_source := if mp_pool p then SourcePool (mp_pool_url p) (mp_worker_name p) 20 else SourceRpc (mp_rpc_url p) 20 |}.
(** [replace('\\', "/")] *)
Definition forward_slashes (s : string) : string :=
  str_of_bytes ((λ b, if byte_Z b =? 92 then SLASH else b) <$> str_bytes s).

Section process.
Context (parse_url : string → app_result Url) (env : ProcessEnv).

(** A service runs when its file holds digits that are the id of a live process. *)
Definition managed_process_running (k : nat) (name : string) (w : ProcessWorld) : bool :=
  match pe_roots env, pw_pids w !! name with
  | Ok _, Some raw =>
      let pid := str_trim raw in
      digits_only (str_bytes pid) && pe_alive env k pid
  | _, _ => false
  end.

Definition stop_managed_service (name : string) : process string :=
  _ ← sr_lift (pe_roots env);
  w ← sr_get;
  let pid := str_trim (default ""%string (pw_pids w !! name)) in
  _ ← sr_modify (if pe_pid_removed env then set_pids (delete name) else id);
  _ ← sr_modify (if digits_only (str_bytes pid) && negb (str_is_empty pid) then signal (Terminated pid) else id);
  _ ← (if bool_decide (name = "miner"%string) then
         _ ← sr_modify (signal SweptMiners);
         sr_modify (if pe_metrics_written env then write_metrics (Some (metrics_json "stopped" "" (pe_clock env 0))) else id)
       else mret ());
  mret (if str_is_empty pid then (name ++ " stop requested (no pid file)")%string
        else (name ++ " stop requested (pid was " ++ pid ++ ")")%string).

(** The probes before the miner is started. *)
Definition probe_pool (p : MinerPlan) : app_result () :=
  let probe := (mp_pool_url p ++ "/api/v1/pool/status")%string in
  _ ← match pe_get env probe with
    | GetFailed e => Err ("Pool unreachable at " ++ mp_pool_url p ++ ": " ++ e ++ ". Expected " ++ DEFAULT_MAINNET_CANDIDATE_POOL
        ++ ". Check Settings > Network / Mining defaults for the pool URL.")%string
    | GetAnswered status text body =>
        if success_status status then Ok () else
        Err ("Pool status failed (HTTP " ++ text ++ ") at " ++ probe ++ ". Body: " ++ body)%string
    end;
  let work := (mp_pool_url p ++ "/api/v1/work?miner_address=" ++ urlencoding_lite (mp_address p) ++ "&worker_name="
    ++ urlencoding_lite (mp_worker_name p))%string in
  match pe_get env work with
  | GetAnswered status text body =>
      if bool_decide (status ∈ [400; 401; 403])
      then Err ("Pool rejected work for this wallet (HTTP " ++ text ++ "). Detail: " ++ body)%string else Ok ()
  | GetFailed _ => Ok ()
  end.
Definition probe_template (p : MinerPlan) : app_result () :=
  let probe := (trim_end_matches SLASH (mp_rpc_url p) ++ "/mining/template?miner_address=" ++ urlencoding_lite (mp_address p))%string in
  match pe_get env probe with
  | GetFailed e => Err ("VPS solo mining template failed at " ++ mp_rpc_url p ++ ": " ++ e
      ++ ". Check Settings > Network > RPC URL (use https://rpcnode.dohotstudio.com, not 127.0.0.1). Or switch Miner mode to Pool and use "
      ++ mp_pool_url p ++ ".")%string
  | GetAnswered status text body =>
      if success_status status then Ok () else
      Err ("VPS mining template rejected (HTTP " ++ text ++ "). Detail: " ++ body ++ ". Or switch Miner mode to Pool and use "
        ++ mp_pool_url p ++ ".")%string
  end.

(** A file replaced, whose error ends the operation. *)
Definition replace_file (o : WriteOutcome) (set : option string → ProcessWorld → ProcessWorld) (text : string) : process () :=
  match o with
  | WriteRefused e => sr_lift (Err e)
  | WriteTorn e => _ ← sr_modify (set None); sr_lift (Err e)
  | Written => sr_modify (set (Some text))
  end.
Definition set_pid (name : string) (o : option string) : ProcessWorld → ProcessWorld :=
  set_pids (match o with Some pid => insert name pid | None => insert name ""%string end).

Definition work_mode (p : MinerPlan) : string := if mp_pool p then "pool" else "solo".
Definition banner (p : MinerPlan) (binary config : string) : string :=
  ("starting vireon-miner" ++ NEWLINE ++ "binary=" ++ binary ++ NEWLINE ++ "config=" ++ config ++ NEWLINE ++ "work_mode="
   ++ work_mode p ++ NEWLINE ++ "backend=cuda" ++ NEWLINE ++ "gpu_intensity=" ++ uint_to_string (mp_intensity p) ++ NEWLINE
   ++ "rpc=" ++ mp_rpc_url p ++ NEWLINE ++ "pool=" ++ mp_pool_url p ++ NEWLINE ++ "address=" ++ mp_address p ++ NEWLINE)%string.

Definition start_remote_miner (miner_address : option string) (options : option MinerStartOptions) : process string :=
  plan ← sr_lift (miner_plan (pe_settings env) miner_address options);
  _ ← sr_lift (pe_clients env);
  _ ← sr_lift (if mp_pool plan then probe_pool plan else probe_template plan);
  w ← sr_get;
  _ ← (if managed_process_running 0 "miner" w then λ w, (Ok (), (stop_managed_service "miner" w).2) else mret ());
  '(_, local) ← sr_lift (pe_roots env);
  _ ← sr_lift (pe_dirs env);
  let metrics_path := path_join (path_join local "miner") "metrics.json" in
  let config_path := path_join (path_join local "miner") "config.toml" in
  _ ← replace_file (pe_config_written env) set_config (config_text plan (forward_slashes metrics_path));
  _ ← sr_modify (if pe_metrics_written env then write_metrics (Some (metrics_json "starting" "cuda" (pe_clock env 1))) else id);
  binary ← sr_lift (pe_binary env);
  _ ← replace_file (pe_log_written env) (set_log "miner.log") (banner plan binary config_path);
  _ ← replace_file (pe_err_log_written env) (set_log "miner.err.log") "";
  _ ← sr_lift (pe_logs_opened env);
  pid ← sr_lift (pe_spawned env);
  _ ← sr_modify (signal (Spawned binary config_path));
  _ ← replace_file (pe_pid_written env) (set_pid "miner") (uint_to_string pid);
  w ← sr_get;
  if negb (managed_process_running 1 "miner" w) then
    let '(err, out) := pe_exit_logs env in
    sr_lift (Err ("Miner exited immediately after start." ++ NEWLINE ++ "--- miner.err.log ---" ++ NEWLINE ++ str_trim err ++ NEWLINE
      ++ "--- miner.log ---" ++ NEWLINE ++ str_trim out)%string)
  else
    mret ("Miner started (pid " ++ uint_to_string pid ++ ")" ++ NEWLINE ++ "Work mode: " ++ work_mode plan ++ NEWLINE
      ++ "Backend: cuda" ++ NEWLINE ++ "GPU intensity: " ++ uint_to_string (mp_intensity plan) ++ NEWLINE
      ++ "Work: " ++ (if mp_pool plan then mp_pool_url plan else mp_rpc_url plan) ++ NEWLINE ++ "Address: " ++ mp_address plan
      ++ NEWLINE ++ "Metrics: " ++ metrics_path ++ NEWLINE ++ "Logs: " ++ path_join (path_join local "logs") "miner.log" ++ NEWLINE
      ++ "Binary: " ++ binary)%string.

(** The script's output, cut to its last 12000 bytes; cutting inside a character
    panics. *)
Definition PANIC : string := "byte index is not a char boundary".
Definition script_text (stdout stderr : string) : string :=
  str_trim (stdout ++ (if str_is_empty stderr then "" else (if str_is_empty stdout then "" else NEWLINE) ++ stderr))%string.
Definition trimmed_output (text : string) : app_result string :=
  if str_len text >? 12000 then
    match drop (Z.to_nat (str_len text - 12000)) (str_bytes text) with
    | b :: _ as tail => if continuation b then Err PANIC else Ok ("[earlier output omitted]" ++ NEWLINE ++ str_of_bytes tail)%string
    | [] => Ok text
    end
  else Ok text.
Definition run_local_stack_operator (command : string) : app_result string :=
  _ ← pe_workspace env;
  match pe_script env command with
  | ScriptMissing path => Err ("Operator script missing: " ++ path ++ ".")%string
  | ScriptNotRun path e => Err ("Failed to spawn operator (" ++ command ++ ") from " ++ path ++ ": " ++ e)%string
  | ScriptRan success code stdout stderr =>
      trimmed ← trimmed_output (script_text stdout stderr);
      if success then Ok trimmed else
      Err (if str_is_empty trimmed then ("Operator command failed with exit code " ++ code)%string else trimmed)
  end.

(** The devices the miner lists, asked for in two ways: a run's outcome is its success,
    exit status and output; [parse] is the JSON reader. *)
Inductive DevicesRun := DevicesNotRun (binary text : string) | DevicesRan (success : bool) (exit stdout stderr : string).
Definition devices_answer (parse : string → result string JsonTree) (stdout : string) : app_result JsonTree :=
  if str_is_empty stdout then Ok (JArray []) else
  match parse stdout with
  | Ok (JArray _ as v) => Ok v
  | Ok v => Ok (default v (json_get "devices" v))
  | Err e => Err ("Invalid devices JSON from vireon-miner: " ++ e ++ NEWLINE ++ stdout)%string
  end.
Definition DEVICES_ARGS : list (string * string) := [("devices", "--json"); ("--json", "devices")]%string.
Fixpoint devices_attempts (parse : string → result string JsonTree) (run : string * string → DevicesRun) (tries : list (string * string))
    (last_err : string) : app_result JsonTree :=
  match tries with
  | [] => Err last_err
  | args :: tries =>
      match run args with
      | DevicesNotRun binary e => Err ("Failed to list mining devices via " ++ binary ++ ": " ++ e)%string
      | DevicesRan success exit stdout stderr =>
          if success || negb (str_is_empty (str_trim stdout)) then devices_answer parse (str_trim stdout) else
          devices_attempts parse run tries
            (if str_is_empty (str_trim stderr)
             then "vireon-miner [" ++ quoted args.1 ++ ", " ++ quoted args.2 ++ "] failed (exit " ++ exit
               ++ "). Install a supported NVIDIA driver and use the CUDA-enabled sidecar."
             else str_trim stderr)%string
      end
  end.
Definition list_mining_devices (parse : string → result string JsonTree) (run : string * string → DevicesRun) : app_result JsonTree :=
  _ ← pe_binary env;
  devices_attempts parse run DEVICES_ARGS "".

Definition OPERATOR_COMMANDS : list string :=
  ["start"; "stop"; "restart"; "status"; "mine"; "validate"; "backup"; "miner-start"; "miner-stop"]%string.
Definition run_operator (command : string) (miner_address : option string) (options : option MinerStartOptions) : process string :=
  if bool_decide (command ∉ OPERATOR_COMMANDS) then sr_lift (Err ("Unsupported operator command: " ++ command)%string) else
  if bool_decide (command = "miner-start"%string) then start_remote_miner miner_address options else
  if bool_decide (command = "miner-stop"%string) then stop_managed_service "miner" else
  let rpc_url := get_rpc_url (pe_settings env) in
  if negb (is_local_rpc_url parse_url rpc_url) then
    if bool_decide (command = "status"%string) then
      w ← sr_get;
      mret ("Remote VPS mode" ++ NEWLINE ++ "RPC: " ++ rpc_url ++ NEWLINE ++ "Miner managed: "
        ++ (if managed_process_running 0 "miner" w then "true" else "false") ++ NEWLINE)%string
    else sr_lift (Err ("Local stack command '" ++ command ++ "' is disabled. Control Center uses the VPS RPC at " ++ rpc_url
      ++ ". Use Miner for GPU mining against that gateway.")%string)
  else sr_lift (run_local_stack_operator command).

End process.

(** * What the settings promise *)

Lemma str_nonempty_iff s : str_is_empty s = false ↔ s ≠ ""%string.
Proof. unfold str_is_empty. apply bool_decide_eq_false. Qed.

Lemma dedupe_spec seen l :
  NoDup (str_to_ascii_lowercase <$> dedupe seen l) ∧
  (∀ u, u ∈ dedupe seen l → u ∈ l ∧ str_to_ascii_lowercase u ∉ seen) ∧
  (∀ u, u ∈ l → str_to_ascii_lowercase u ∈ seen ∨
    ∃ v, v ∈ dedupe seen l ∧ str_to_ascii_lowercase v = str_to_ascii_lowercase u).
Proof.
  revert seen. induction l as [|u l IH]; intros seen; cbn [dedupe].
  { split_and!; [by apply NoDup_nil_2 | by intros u ?%elem_of_nil..]. }
  case_bool_decide as Hs.
  - destruct (IH seen) as (Hd & Hin & Hcov). split_and!; [done|..].
    + intros v [Hv Hn]%Hin. split; [by apply list_elem_of_further | done].
    + intros v [->|Hv]%elem_of_cons; [by left | by apply Hcov].
  - destruct (IH (str_to_ascii_lowercase u :: seen)) as (Hd & Hin & Hcov). split_and!.
    + rewrite fmap_cons. apply NoDup_cons. split; [|done]. intros (v & Hv & Hv')%list_elem_of_fmap.
      apply Hin in Hv' as [_ Hn]. apply Hn. rewrite <- Hv. apply list_elem_of_here.
    + intros v [->|Hv]%elem_of_cons; [split; [apply list_elem_of_here | done]|].
      apply Hin in Hv as [Hv Hn]. split; [by apply list_elem_of_further|].
      intros ?. apply Hn. by apply list_elem_of_further.
    + intros v [->|Hv]%elem_of_cons; [right; exists u; split; [apply list_elem_of_here | done]|].
      destruct (Hcov v Hv) as [[Heq|Hseen]%elem_of_cons|(x & Hx & He)]; [|by left|].
      * right. exists u. split; [apply list_elem_of_here | done].
      * right. exists x. split; [by apply list_elem_of_further | done].
Qed.

(** A pool list in which no URL is listed twice, none is empty, and the default is
    listed. *)
Definition lists_pool (pools : list string) (u : string) : Prop := ∃ v, v ∈ pools ∧ str_to_ascii_lowercase v = str_to_ascii_lowercase u.
Lemma pool_entry_nonempty u v : pool_entry u = Some v → v ≠ ""%string.
Proof.
  unfold pool_entry. destruct (str_is_empty _) eqn:E; [done|]. apply str_nonempty_iff in E.
  by destruct (str_contains _ _); intros [= <-].
Qed.
Lemma pool_list_spec urls d :
  NoDup (str_to_ascii_lowercase <$> pool_list urls d) ∧ Forall (λ u, u ≠ ""%string) (pool_list urls d) ∧
  (d ≠ ""%string → lists_pool (pool_list urls d) d).
Proof.
  unfold pool_list. cbv zeta. set (entries := take 16 (omap pool_entry urls)).
  assert (Forall (λ u, u ≠ ""%string) entries) as He.
  { apply Forall_take, Forall_forall. intros u (x & _ & Hx)%list_elem_of_omap. by eapply pool_entry_nonempty. }
  set (with_default := if negb (str_is_empty d) && _ then d :: entries else entries).
  assert (Forall (λ u, u ≠ ""%string) with_default ∧ (d ≠ ""%string → lists_pool with_default d)) as [Hne Hl].
  { unfold with_default. destruct (str_is_empty d) eqn:Ed; cbn [negb andb].
    { split; [done|]. unfold str_is_empty in Ed. by apply bool_decide_eq_true in Ed. }
    apply str_nonempty_iff in Ed. destruct (existsb _ entries) eqn:Ex; cbn [negb].
    - split; [done|]. intros _. apply existsb_exists in Ex as (v & Hv%list_elem_of_In & Heq). exists v. split; [done|].
      by apply bool_decide_eq_true in Heq.
    - split; [by constructor|]. intros _. exists d. split; [apply list_elem_of_here | done]. }
  assert (bool_decide (with_default = []) && negb (str_is_empty d) = false) as ->.
  { destruct (str_is_empty d) eqn:Ed; [by rewrite andb_false_r|]. apply str_nonempty_iff in Ed.
    destruct (Hl Ed) as (v & Hv & _). rewrite bool_decide_false; [done|]. intros Hnil. rewrite Hnil in Hv. by apply elem_of_nil in Hv. }
  destruct (dedupe_spec [] with_default) as (Hd & Hin & Hcov). split_and!; [done|..].
  - apply Forall_forall. intros u [Hu _]%Hin. rewrite Forall_forall in Hne. by apply Hne.
  - intros Hdn. destruct (Hl Hdn) as (v & Hv & Hvd). destruct (Hcov v Hv) as [?%elem_of_nil|(x & Hx & Hxv)]; [done|].
    exists x. split; [done|]. congruence.
Qed.

(** Settings within the bounds that the application assumes. *)
Record in_bounds (s : AppSettings) : Prop := {
  ib_refresh : 3000 <= ap_refresh_interval_ms s <= 60000;
  ib_live_log : 2000 <= ap_live_log_interval_ms s <= 30000;
  ib_update : 60 <= ap_auto_update_interval_secs s <= 86400;
  ib_logs : 1 <= ap_keep_logs_days s <= 365;
  ib_intensity : 1 <= ap_default_gpu_intensity s <= 100;
  ib_mode : ap_default_miner_mode s ∈ ["solo"; "pool"]%string;
  ib_backend : ap_default_miner_backend s = "cuda"%string;
  ib_devices : (length (ap_default_gpu_devices s) <= 16)%nat ∧
    Forall (λ d, d ≠ ""%string ∧ str_trim d = d) (ap_default_gpu_devices s);
  ib_pools : NoDup (str_to_ascii_lowercase <$> ap_pool_urls s) ∧ Forall (λ u, u ≠ ""%string) (ap_pool_urls s);
  ib_default_pool : str_trim (ap_default_pool_url s) = ""%string ∨ lists_pool (ap_pool_urls s) (ap_default_pool_url s);
}.

Lemma default_in_bounds : in_bounds AppSettings_default.
Proof.
  split; cbn; try lia; try done.
  - apply list_elem_of_In. cbn. by right; left.
  - by split; [lia | constructor].
  - split; [apply NoDup_singleton | by repeat constructor].
  - right. eexists. split; [apply list_elem_of_here | done].
Qed.

Lemma normalized_in_bounds s : in_bounds (normalized s).
Proof.
  destruct (pool_list_spec (ap_pool_urls s) (trim_url (ap_default_pool_url s))) as (Hd & Hne & Hl).
  split; cbn [normalized ap_refresh_interval_ms ap_live_log_interval_ms ap_auto_update_interval_secs ap_keep_logs_days
    ap_default_gpu_intensity ap_default_miner_mode ap_default_miner_backend ap_default_gpu_devices ap_pool_urls ap_default_pool_url];
    try (by apply clamp_range); try done.
  - destruct (bool_decide (_ = "solo"%string)) eqn:Es; [|destruct (bool_decide (_ = "pool"%string)) eqn:Ep]; cbn [negb andb];
      [apply bool_decide_eq_true in Es as -> | apply bool_decide_eq_true in Ep as -> |]; apply list_elem_of_In; cbn; auto.
  - split; [rewrite length_take; lia|]. apply Forall_take, Forall_forall.
    intros d [Hn (x & -> & _)%list_elem_of_fmap]%list_elem_of_filter. split; [done | apply str_trim_idemp].
  - destruct (str_is_empty (str_trim _)) eqn:Et.
    + unfold str_is_empty in Et. apply bool_decide_eq_true in Et. destruct (head _) as [u|] eqn:Eh; cbn [default]; [|by left].
      right. exists u. split; [|done]. destruct (pool_list _ _); [done|]. injection Eh as ->. apply list_elem_of_here.
    + destruct (decide (trim_url (ap_default_pool_url s) = ""%string)) as [->|Hn]; [by left | right; by apply Hl].
Qed.
Lemma with_rpc_in_bounds url s : in_bounds s → in_bounds (with_rpc_url url s).
Proof. intros []. by split. Qed.

(** The operations on the settings. *)
Inductive SettingsOp :=
| OpUpdate (merge : AppSettings → app_result AppSettings) (rpc : option string) (made : app_result ()) (o : WriteOutcome)
| OpSetRpc (raw : string) (made : app_result ()) (o : WriteOutcome)
| OpReset (made : app_result ()) (o : WriteOutcome).
Definition settings_op (parse_url : string → app_result Url) (op : SettingsOp) (st : SettingsStore) : SettingsStore :=
  match op with
  | OpUpdate merge rpc made o => (settings_update parse_url merge rpc made o st).2
  | OpSetRpc raw made o => (set_rpc_url parse_url raw made o st).2
  | OpReset made o => (settings_reset made o st).2
  end.
Definition settings_run (parse_url : string → app_result Url) (ops : list SettingsOp) (st : SettingsStore) : SettingsStore :=
  foldl (λ st op, settings_op parse_url op st) st ops.

(** Storing keeps memory and file apart only through a torn write. *)
Definition file_agrees (st : SettingsStore) : Prop := so_file st = SettingsJson (so_settings st) ∨ so_file st = SettingsMalformed.
Lemma store_settings_cases made o s st r st' : store_settings made o s st = (r, st') →
  (r = Ok () ∧ st' = mkSettingsStore s (SettingsJson s)) ∨
  (is_ok r = false ∧ so_settings st' = so_settings st ∧ (so_file st' = so_file st ∨ so_file st' = SettingsMalformed)).
Proof.
  unfold store_settings, settings_persist. cbv [mbind state_result_bind sr_modify].
  destruct made; [destruct o|]; intros [= <- <-]; cbn; auto.
Qed.

Lemma settings_op_cases parse_url op st : let st' := settings_op parse_url op st in
  (so_settings st' = so_settings st ∧ (so_file st' = so_file st ∨ so_file st' = SettingsMalformed)) ∨
  (so_file st' = SettingsJson (so_settings st') ∧
   (so_settings st' = AppSettings_default ∨ (∃ s, so_settings st' = normalized s) ∨ ∃ url, so_settings st' = with_rpc_url url (so_settings st))).
Proof.
  cbv zeta. destruct op as [merge rpc made o|raw made o|made o]; cbn [settings_op].
  - unfold settings_update. rewrite sr_get_bind, sr_lift_bind. destruct (merge _) as [merged|]; [|by left; auto].
    set (m := match rpc with Some _ => _ | None => _ end).
    assert (∀ st0, ∃ r, m st0 = (r, st0)) as Hm.
    { intros st0. unfold m. destruct rpc as [raw|]; [|by eexists]. rewrite sr_lift_bind. destruct (normalize_rpc_url _ raw); by eexists. }
    destruct (Hm st) as [[merged'|e] E]; cbv [mbind state_result_bind]; rewrite E; [|by left; auto].
    destruct (store_settings _ _ _ st) as [r st'] eqn:Es. apply store_settings_cases in Es as [[-> ->]|(Hr & Hs & Hf)]; cbn; [|].
    + right. split; [done|]. right; left. by eexists.
    + destruct r as [|e]; [done|]. cbn. by left.
  - unfold set_rpc_url. rewrite sr_lift_bind. destruct (normalize_rpc_url _ raw) as [url|]; [|by left; auto].
    rewrite sr_get_bind. cbv [mbind state_result_bind]. destruct (store_settings _ _ _ st) as [r st'] eqn:Es.
    apply store_settings_cases in Es as [[-> ->]|(Hr & Hs & Hf)]; cbn.
    + right. split; [done|]. right; right. by eexists.
    + destruct r as [|e]; [done|]. cbn. by left.
  - unfold settings_reset. cbv [mbind state_result_bind]. destruct (store_settings _ _ _ st) as [r st'] eqn:Es.
    apply store_settings_cases in Es as [[-> ->]|(Hr & Hs & Hf)]; cbn.
    + right. split; [done|]. by left.
    + destruct r as [|e]; [done|]. cbn. by left.
Qed.

(** However the settings are changed and whatever writes fail, settings in bounds stay
    in bounds, and the file holds the settings in memory unless a write was torn. *)
Theorem settings_stay_in_bounds parse_url ops st :
  in_bounds (so_settings st) → file_agrees st →
  in_bounds (so_settings (settings_run parse_url ops st)) ∧ file_agrees (settings_run parse_url ops st).
Proof.
  unfold settings_run. revert st. induction ops as [|op ops IH]; intros st Hb Hf; [done|]. cbn [foldl].
  apply IH; destruct (settings_op_cases parse_url op st) as [[Hs Hfile]|[Hfile Hs]].
  - by rewrite Hs.
  - destruct Hs as [->|[[s ->]|[url ->]]]; [apply default_in_bounds | apply normalized_in_bounds | by apply with_rpc_in_bounds].
  - unfold file_agrees in *. destruct Hfile as [->| ->]; [rewrite Hs; done | by right].
  - by left.
Qed.

(** * What starting and stopping the miner promise *)

Lemma gpu_batch_bounds i : 16384 <= gpu_batch_of i <= 131072.
Proof. unfold gpu_batch_of. by apply clamp_range. Qed.
Lemma gpu_batch_eq i : 1 <= i <= 100 → gpu_batch_of i = Z.max 16384 (131072 * i / 100).
Proof.
  intros Hi. unfold gpu_batch_of, saturating_mul. rewrite (clamp_id 1 100 i) by done.
  rewrite Z.min_l by (unfold umax; lia). rewrite clamp_spec by lia.
  rewrite (Z.min_l (131072 * i / 100)) by (apply Z.div_le_upper_bound; lia). done.
Qed.

Lemma miner_plan_Ok s a o p : miner_plan s a o = Ok p →
  a = Some (mp_address p) ∧ str_starts_with (mp_address p) "vire1" = true ∧ 1 <= mp_intensity p <= 100 ∧
  mp_pool_url p ≠ ""%string ∧ mp_worker_name p ≠ ""%string ∧ mp_rpc_url p = get_rpc_url s.
Proof.
  unfold miner_plan. destruct a as [a|]; cbn [ok_or mbind result_bind]; [|done].
  destruct (str_starts_with a "vire1") eqn:Ea; cbn [negb]; [|done]. intros [= <-]. cbn. split_and!; try done.
  - apply clamp_range. lia.
  - apply clamp_range. lia.
  - destruct (str_is_empty (trim_url _)) eqn:E; [done|]. by apply str_nonempty_iff in E.
  - destruct (so_worker_name _) as [n|]; [|done]. destruct (str_is_empty (str_trim n)) eqn:E; [done|].
    apply str_nonempty_iff in E. intros ->. by apply E.
Qed.

(** The miner takes the configuration it is started with, as the text's value, exactly
    when the wallet's address parses, the URL of its work has a web scheme, and a
    pool worker's name is one the miner accepts. *)
Section miner.
Context `{Primitives} (url_scheme : string → result string string) (parse : string → result string MinerConfig).
Definition work_url (p : MinerPlan) : string := if mp_pool p then mp_pool_url p else mp_rpc_url p.
Definition miner_accepts (p : MinerPlan) : Prop :=
  (∃ a, Address_parse (mp_address p) = Ok a) ∧
  (url_scheme (work_url p) = Ok "http"%string ∨ url_scheme (work_url p) = Ok "https"%string) ∧
  (mp_pool p = true → str_len (mp_worker_name p) <= 64 ∧ forallb worker_char (str_bytes (mp_worker_name p)) = true).

Lemma web_scheme r : (scheme ← map_err (λ e, MinerConfigError ("invalid RPC URL: " ++ e)%string) r;
    if negb (bool_decide (scheme = "http"%string)) && negb (bool_decide (scheme = "https"%string))
    then Err (MinerConfigError "RPC URL scheme must be http or https") else Ok ()) = Ok () ↔
  r = Ok "http"%string ∨ r = Ok "https"%string.
Proof.
  destruct r as [x|e]; cbn [map_err mbind result_bind]; [|naive_solver].
  case_bool_decide; case_bool_decide; cbn [negb andb]; naive_solver.
Qed.

Lemma map_err_is_Ok {A E F} (g : E → F) (r : result E A) : (∃ a, map_err g r = Ok a) ↔ ∃ a, r = Ok a.
Proof. destruct r; cbn; naive_solver. Qed.

Lemma validate_started p metrics :
  1 <= mp_intensity p <= 100 → mp_worker_name p ≠ ""%string →
  (MinerConfig_validate url_scheme (config_value p metrics) = Ok ()) ↔ miner_accepts p.
Proof.
  intros Hi Hw. pose proof (gpu_batch_bounds (mp_intensity p)) as Hb. unfold MinerConfig_validate, miner_accepts, work_url.
  rewrite bind_const_Ok.
  change (mf_nonce_batch_size _) with (gpu_batch_of (mp_intensity p)). rewrite (proj2 (Z.eqb_neq (gpu_batch_of _) 0)) by lia.
  change (mf_gpu_intensity _) with (mp_intensity p). assert ((mp_intensity p >? 100) = false) as -> by (rewrite Z.gtb_ltb; apply Z.ltb_ge; lia).
  cbn -[Address_parse MiningMode_parse gpu_batch_of str_len]. unfold template_refresh, status_interval.
  rewrite map_err_is_Ok. assert (MiningMode_parse "cuda" = Ok ModeCuda) as -> by reflexivity.
  destruct (mp_pool p); cbn [Z.eqb orb mbind result_bind Pos.eqb].
  - rewrite bind_unit_Ok, web_scheme, (if_Err_Ok _ _ (Ok ()) ()), !orb_false_iff, negb_false_iff, Z.gtb_ltb, Z.ltb_ge.
    pose proof (proj2 (str_nonempty_iff _) Hw). naive_solver.
  - rewrite bind_unit_Ok, web_scheme. naive_solver.
Qed.

Theorem started_config_loads s a o p metrics path c :
  miner_plan s a o = Ok p → parse (config_text p metrics) = Ok (config_value p metrics) →
  MinerConfig_load url_scheme parse path (Ok (config_text p metrics)) = Ok c ↔ miner_accepts p ∧ c = config_value p metrics.
Proof.
  intros (_ & _ & Hi & _ & Hw & _)%miner_plan_Ok Hparse. pose proof (gpu_batch_bounds (mp_intensity p)) as Hb.
  unfold MinerConfig_load. cbn [map_err mbind result_bind]. rewrite Hparse. cbn [map_err mbind result_bind].
  assert (bounded (migrated (config_value p metrics)) = config_value p metrics) as ->.
  { unfold migrated, bounded, config_value, MAX_NONCE_BATCH, MAX_GPU_BATCH. cbn -[gpu_batch_of clamp Z.gtb].
    rewrite !(clamp_id 1 131072) by lia. by case_match. }
  rewrite bind_unit_Ok, validate_started by done. naive_solver.
Qed.
End miner.

(** The whole of every lease is searched from an intensity of ten on; below, the
    batch size has reached its least value while the device still searches only the
    intensity's tenths of it, and the rest of the lease is skipped. *)
Theorem started_miner_searches_lease p metrics :
  1 <= mp_intensity p <= 100 →
  let c := config_value p metrics in
  searched (backend_config c) (effective_nonce_batch c) = effective_nonce_batch c ↔ 10 <= mp_intensity p.
Proof.
  intros Hi. cbv zeta. pose proof (gpu_batch_bounds (mp_intensity p)) as Hb. pose proof (gpu_batch_eq _ Hi) as He.
  assert (effective_nonce_batch (config_value p metrics) = gpu_batch_of (mp_intensity p)) as -> by (apply clamp_id; unfold MAX_NONCE_BATCH; cbn -[gpu_batch_of]; lia).
  assert (effective_gpu_batch (config_value p metrics) = gpu_batch_of (mp_intensity p)) as Hg.
  { unfold effective_gpu_batch. change (mf_gpu_batch_size _) with (gpu_batch_of (mp_intensity p)).
    assert ((gpu_batch_of (mp_intensity p) >? 0) = true) as -> by (rewrite Z.gtb_ltb; apply Z.ltb_lt; lia).
    apply clamp_id. unfold MAX_GPU_BATCH. lia. }
  assert (effective_gpu_intensity (config_value p metrics) = mp_intensity p) as Hint.
  { unfold effective_gpu_intensity. change (mf_gpu_intensity _) with (mp_intensity p).
    rewrite (proj2 (Z.eqb_neq _ 0)) by lia. lia. }
  unfold searched, device_batch, backend_config. cbn [bc_batch_size bc_intensity]. rewrite Hg, Hint, clamp_spec by lia.
  set (b := gpu_batch_of (mp_intensity p)) in *. set (i := mp_intensity p) in *.
  rewrite (Z.max_l b 256), (Z.max_l b 1024), (Z.max_l i 1) by lia.
  assert (0 <= b * i / 10 <= 1310720) by (split; [apply Z.div_pos | apply Z.div_le_upper_bound]; nia).
  unfold umax. split; intros Hs.
  - destruct (decide (10 <= i)); [done|]. assert (b = 16384) as Hbe.
    { rewrite He, Z.max_l; [done|]. apply Z.div_le_upper_bound; lia. }
    assert (b * i / 10 < 14746) by (rewrite Hbe; apply Z.div_lt_upper_bound; lia).
    set (q := b * i / 10) in *. clearbody q b i. change (2 ^ 32 - 1) with 4294967295 in Hs. lia.
  - assert (b <= b * i / 10) by (apply Z.div_le_lower_bound; nia).
    set (q := b * i / 10) in *. clearbody q b i. change (2 ^ 32 - 1) with 4294967295. lia.
Qed.

(** ** Theory: starting and stopping the miner *)

(** The signals a stop sends: to the process of the file, and to every miner. *)
Definition stop_signals (name : string) (w : ProcessWorld) : list Signal :=
  let pid := str_trim (default ""%string (pw_pids w !! name)) in
  (if digits_only (str_bytes pid) && negb (str_is_empty pid) then [Terminated pid] else [])
  ++ (if bool_decide (name = "miner"%string) then [SweptMiners] else []).

Lemma stop_managed_service_run env name w roots :
  pe_roots env = Ok roots →
  ∃ msg w', stop_managed_service env name w = (Ok msg, w') ∧
    pw_signals w' = pw_signals w ++ stop_signals name w ∧ pw_config w' = pw_config w ∧ pw_logs w' = pw_logs w ∧
    pw_pids w' = (if pe_pid_removed env then delete name (pw_pids w) else pw_pids w) ∧
    pw_metrics w' = (if bool_decide (name = "miner"%string) && pe_metrics_written env
                     then Some (metrics_json "stopped" "" (pe_clock env 0)) else pw_metrics w).
Proof.
  intros Hr. unfold stop_managed_service, stop_signals. rewrite Hr, sr_lift_bind, sr_get_bind, !sr_modify_bind.
  set (pid := str_trim _).
  destruct (pe_pid_removed env), (digits_only _ && _), (bool_decide (name = "miner"%string)), (pe_metrics_written env);
    rewrite ?sr_modify_bind; cbn; eexists _, _; (split; [done|]); cbn; rewrite ?app_nil_r, <- ?app_assoc; done.
Qed.

Lemma replace_file_Ok o set text w w' : replace_file o set text w = (Ok (), w') → w' = set (Some text) w.
Proof. destruct o; cbn; unfold mbind, state_result_bind; cbn; intros [= <-]; done. Qed.

(** A start that succeeds: the settings' plan passed its probes; the miner that ran is
    signalled before the new one is spawned; the configuration on disk is the plan's
    and the file holds the live process. *)
Theorem started_effect env address options w msg w' :
  start_remote_miner env address options w = (Ok msg, w') →
  ∃ plan workspace local pid binary,
    miner_plan (pe_settings env) address options = Ok plan ∧
    (if mp_pool plan then probe_pool env plan else probe_template env plan) = Ok () ∧
    pe_roots env = Ok (workspace, local) ∧ pe_spawned env = Ok pid ∧ pe_binary env = Ok binary ∧
    let metrics_path := path_join (path_join local "miner") "metrics.json" in
    let config_path := path_join (path_join local "miner") "config.toml" in
    pw_config w' = Some (config_text plan (forward_slashes metrics_path)) ∧
    pw_pids w' !! "miner"%string = Some (uint_to_string pid) ∧
    managed_process_running env 1 "miner" w' = true ∧
    pw_signals w' = pw_signals w ++ (if managed_process_running env 0 "miner" w then stop_signals "miner" w else [])
      ++ [Spawned binary config_path].
Proof.
  unfold start_remote_miner. rewrite sr_lift_bind. destruct (miner_plan _ _ _) as [plan|] eqn:Hplan; [|done].
  rewrite sr_lift_bind. destruct (pe_clients env) as [[]|]; [|done]. rewrite sr_lift_bind.
  destruct (if mp_pool plan then _ else _) as [[]|] eqn:Hprobe; [|done]. rewrite sr_get_bind.
  intros ([] & w1 & Hstop & Hs)%sr_bind_Ok. rewrite sr_lift_bind in Hs. destruct (pe_roots env) as [[workspace local]|] eqn:Hroots; [|done].
  assert (pw_signals w1 = pw_signals w ++ (if managed_process_running env 0 "miner" w then stop_signals "miner" w else [])) as Hsig.
  { destruct (managed_process_running env 0 "miner" w).
    - destruct (stop_managed_service_run env "miner" w _ Hroots) as (m & w2 & Hrun & Hsig & _). rewrite Hrun in Hstop. cbn in Hstop.
      by injection Hstop as <-.
    - injection Hstop as <-. by rewrite app_nil_r. }
  rewrite sr_lift_bind in Hs. destruct (pe_dirs env) as [[]|]; [|done].
  cbv zeta in Hs. apply sr_bind_Ok in Hs as ([] & w2 & Hc%replace_file_Ok & Hs). rewrite sr_modify_bind, sr_lift_bind in Hs.
  destruct (pe_binary env) as [binary|]; [|done].
  apply sr_bind_Ok in Hs as ([] & wa & Hla%replace_file_Ok & Hs). apply sr_bind_Ok in Hs as ([] & wb & Hlb%replace_file_Ok & Hs).
  rewrite sr_lift_bind in Hs. destruct (pe_logs_opened env) as [[]|]; [|done].
  rewrite sr_lift_bind in Hs. destruct (pe_spawned env) as [pid|]; [|done].
  rewrite sr_modify_bind in Hs. apply sr_bind_Ok in Hs as ([] & w3 & Hp%replace_file_Ok & Hs). rewrite sr_get_bind in Hs.
  destruct (managed_process_running env 1 "miner" w3) eqn:Halive; cbn [negb] in Hs; [|by destruct (pe_exit_logs env)].
  injection Hs as _ <-. exists plan, workspace, local, pid, binary. cbv zeta. split_and!; try done; subst w3 wb wa w2; cbn.
  - by destruct (pe_metrics_written env).
  - by rewrite lookup_insert_eq.
  - rewrite app_assoc. f_equal. rewrite <- Hsig. by destruct (pe_metrics_written env).
Qed.

(** What a start meets before it needs the binary. *)
Definition start_prepared (env : ProcessEnv) (plan : MinerPlan) : Prop :=
  pe_clients env = Ok () ∧ (if mp_pool plan then probe_pool env plan else probe_template env plan) = Ok () ∧
  is_ok (pe_roots env) = true ∧ pe_dirs env = Ok () ∧ pe_config_written env = Written ∧ pe_metrics_written env = true.

(** Without a binary the start fails, but the metrics of a starting miner stay. *)
Theorem failed_start_leaves_starting env plan address options w e :
  miner_plan (pe_settings env) address options = Ok plan → start_prepared env plan →
  managed_process_running env 0 "miner" w = false → pe_binary env = Err e →
  ∃ w', start_remote_miner env address options w = (Err e, w') ∧
    pw_metrics w' = Some (metrics_json "starting" "cuda" (pe_clock env 1)) ∧ pw_signals w' = pw_signals w ∧ pw_pids w' = pw_pids w.
Proof.
  intros Hplan (Hc & Hp & [[workspace local] Hr]%is_ok_true & Hd & Hw & Hm) Hrun Hb. unfold start_remote_miner.
  rewrite Hplan, sr_lift_bind, Hc, sr_lift_bind, sr_lift_bind, Hp, sr_get_bind, Hrun.
  erewrite sr_bind_step by reflexivity. rewrite Hr, sr_lift_bind, Hd, sr_lift_bind, Hw, Hm. cbv zeta.
  erewrite sr_bind_step by reflexivity. rewrite sr_modify_bind, Hb, sr_lift_bind. eexists. split; [done|]. by destruct w.
Qed.
