(* ===== verification/DesktopRpc.v ===== *)
(** [vireon-desktop-tauri/src-tauri/src]: what the desktop application shows of the
    gateway and the pools (rpc.rs, pool.rs) and which mined blocks it announces
    (notify.rs).  Answers of HTTP requests, the [url] crate, the text of JSON values,
    floating point numbers, miner metrics files and the clock are arguments. *)

From S2P Require Import Prelude RustStd Interfaces Crypto Errors Network Amount Signing Address Transaction Block MinerWork MinerSettings MinerCuda Sdk WalletStorage Desktop.

(** ** Requests ([request]) *)

Definition MAX_STATUS_ATTEMPTS : nat := 3.

(** What one [GET] meets. *)
Inductive OnceOutcome :=
| OnceNoClient (text : string)
| OnceFailed (text : string)
| OnceStatus (status_text body : string)
| OnceBadJson (text : string)
| OnceJson (v : JsonTree).

(** The first [n] characters of UTF-8. *)
Fixpoint take_chars (n : nat) (l : bytes) : bytes :=
  match l with
  | [] => []
  | b :: l =>
      if continuation b then b :: take_chars n l else
      match n with O => [] | S n => b :: take_chars n l end
  end.
Definition request_once (o : OnceOutcome) : app_result JsonTree :=
  match o with
  | OnceNoClient e => Err ("HTTP client init failed: " ++ e)%string
  | OnceFailed e => Err ("RPC request failed: " ++ e)%string
  | OnceStatus status body =>
      let snippet := str_of_bytes (take_chars 120 (str_bytes body)) in
      Err ("RPC returned " ++ status ++ (if str_is_empty snippet then "" else ": ") ++ snippet)%string
  | OnceBadJson e => Err ("RPC JSON decode failed: " ++ e)%string
  | OnceJson v => Ok v
  end.
Definition retryable (msg : string) : bool :=
  existsb (str_contains msg) ["429"; "503"; "504"; "502"; "408"; "timed out"; "timeout"; "connection"; "request failed"]%string.
(** The attempts [attempt], ... while [left] of them are left. *)
Fixpoint request_loop (left attempt : nat) (once : nat → OnceOutcome) : app_result JsonTree :=
  match left with
  | O => Err "RPC request failed"%string
  | S left' =>
      match request_once (once attempt) with
      | Ok v => Ok v
      | Err msg => if negb (retryable msg) || bool_decide (left' = O) then Err msg else request_loop left' (S attempt) once
      end
  end.
Definition request_attempts (remote : bool) : nat := if remote then MAX_STATUS_ATTEMPTS else 1.
Definition request (remote : bool) (once : nat → OnceOutcome) : app_result JsonTree :=
  request_loop (request_attempts remote) 0 once.

(** The dash of one message, in UTF-8. *)
Definition EM_DASH : string := str_of_bytes [byte_of_Z 226; byte_of_Z 128; byte_of_Z 148].

(** ** JSON *)

Definition as_bool (v : JsonTree) : option bool := match v with JBool b => Some b | _ => None end.
Definition as_array (v : JsonTree) : option (list JsonTree) := match v with JArray l => Some l | _ => None end.
Definition as_i64 (v : JsonTree) : option Z :=
  match v with JNumber z => if (- (2 ^ 63) <=? z) && (z <? 2 ^ 63) then Some z else None | _ => None end.
Definition get_u64 (key : string) (v : JsonTree) : option Z := json_get key v ≫= as_u64.
Definition get_str (key : string) (v : JsonTree) : option string := json_get key v ≫= as_str.
Definition get_bool (key : string) (v : JsonTree) : option bool := json_get key v ≫= as_bool.
Definition get_array (key : string) (v : JsonTree) : option (list JsonTree) := json_get key v ≫= as_array.
Definition get_or_null (key : string) (v : JsonTree) : JsonTree := default JNull (json_get key v).
Definition u64_or_0 (key : string) (v : JsonTree) : JsonTree := JNumber (default 0 (get_u64 key v)).
Definition str_or_empty (key : string) (v : JsonTree) : JsonTree := JString (default ""%string (get_str key v)).
Definition bool_or (d : bool) (key : string) (v : JsonTree) : JsonTree := JBool (default d (get_bool key v)).
Definition empty_object : JsonTree := JObject [].

(** [data[key] = value] on an object. *)
Fixpoint set_field (key : string) (value : JsonTree) (fields : list (string * JsonTree)) : list (string * JsonTree) :=
  match fields with
  | [] => [(key, value)]
  | (k, v) :: fields => if bool_decide (k = key) then (key, value) :: fields else (k, v) :: set_field key value fields
  end.
Definition json_set (key : string) (value data : JsonTree) : JsonTree :=
  match data with JObject fields => JObject (set_field key value fields) | _ => data end.
Definition fields_of (v : JsonTree) : list (string * JsonTree) := match v with JObject fields => fields | _ => [] end.

(** [f64] as the code uses it. *)
Class Floats := {
  F64 : Type;
  f_zero : F64;
  f_int : Z → F64;
  f_text : string → F64;
  f_add : F64 → F64 → F64;
  f_max : F64 → F64 → F64;
  f_percent : Z → Z → F64;
  f_hundred : F64;
  f_json : F64 → JsonTree;
}.

Section views.
Context (json_text : JsonTree → string) `{Floats}.

Definition as_f64 (v : JsonTree) : option F64 :=
  match v with JNumber z => Some (f_int z) | JFloat t => Some (f_text t) | _ => None end.
Definition get_f64 (key : string) (v : JsonTree) : option F64 := json_get key v ≫= as_f64.

(** An amount is shown as text; [trim_matches] takes the quotes off. *)
Definition atomic (v : JsonTree) : string :=
  match v with
  | JNull => "0"
  | JString s => s
  | _ => trim_end_matches (byte_of_Z 34) (trim_start_matches (byte_of_Z 34) (json_text v))
  end.
Definition optional_atomic (v : JsonTree) : option string := match v with JNull => None | _ => Some (atomic v) end.
Definition atomic_of (key : string) (v : JsonTree) : JsonTree := JString (atomic (get_or_null key v)).

Definition map_block (v : JsonTree) : JsonTree :=
  JObject [("height", u64_or_0 "height" v); ("hash", str_or_empty "hash" v); ("previous_hash", str_or_empty "previous_hash" v);
    ("merkle_root", str_or_empty "merkle_root" v); ("timestamp", u64_or_0 "timestamp" v); ("nonce", u64_or_0 "nonce" v);
    ("difficulty_leading_zero_bits", u64_or_0 "difficulty_leading_zero_bits" v);
    ("transaction_count", u64_or_0 "transaction_count" v); ("miner_address", str_or_empty "miner_address" v);
    ("coinbase_payout_atomic", atomic_of "coinbase_payout_atomic" v); ("miner_reward_atomic", atomic_of "miner_reward_atomic" v);
    ("fees_atomic", atomic_of "fees_atomic" v); ("burned_fees_atomic", atomic_of "burned_fees_atomic" v);
    ("priority_fees_atomic", atomic_of "priority_fees_atomic" v); ("base_fee_atomic", atomic_of "base_fee_atomic" v);
    ("transaction_hashes", default (JArray []) (json_get "transaction_hashes" v))]%string.
(** [get(key).or_else(|| get(other))] *)
Definition get_either (key other : string) (v : JsonTree) : JsonTree :=
  default JNull match json_get key v with Some x => Some x | None => json_get other v end.
Definition map_tx (v : JsonTree) : JsonTree :=
  JObject [("lifecycle_status", str_or_empty "lifecycle_status" v); ("hash", str_or_empty "hash" v);
    ("block_height", u64_or_0 "block_height" v); ("block_hash", str_or_empty "block_hash" v);
    ("transaction_index", u64_or_0 "transaction_index" v); ("nonce", u64_or_0 "nonce" v); ("version", u64_or_0 "version" v);
    ("from", get_or_null "from" v); ("to", str_or_empty "to" v); ("amount_atomic", atomic_of "amount_atomic" v);
    ("effective_fee_atomic", JString (atomic (get_either "effective_fee_atomic" "fee_atomic" v)));
    ("burned_fee_atomic", atomic_of "burned_fee_atomic" v);
    ("effective_priority_fee_atomic", JString (atomic (get_either "effective_priority_fee_atomic" "priority_fee_atomic" v)));
    ("max_fee_atomic", atomic_of "max_fee_atomic" v); ("base_fee_atomic", atomic_of "base_fee_atomic" v);
    ("memo_hash", get_or_null "memo_hash" v); ("sender_public_key_hex", get_or_null "sender_public_key_hex" v);
    ("signature_hex", get_or_null "signature_hex" v); ("authorization_state", str_or_empty "authorization_state" v);
    ("block_transaction_count", u64_or_0 "block_transaction_count" v)]%string.
Definition map_peer (v : JsonTree) : JsonTree :=
  JObject [("peer_id", str_or_empty "peer_id" v); ("address", get_or_null "address" v);
    ("handshake_validated", bool_or false "handshake_validated" v); ("best_height", get_or_null "best_height" v);
    ("validating", bool_or false "validating" v); ("mining", bool_or false "mining" v);
    ("hashrate_hs", f_json (default f_zero (get_f64 "hashrate_hs" v))); ("last_error", get_or_null "last_error" v);
    ("reputation_score", JNumber (default 50 (json_get "reputation_score" v ≫= as_i64)));
    ("banned", bool_or false "banned" v)]%string.

(** The lists shown: newest first, and a limited number. *)
Definition opt_cmp (a b : option Z) : comparison :=
  match a, b with Some x, Some y => x ?= y | Some _, None => Gt | None, Some _ => Lt | None, None => Eq end.
Definition by_height_desc (a b : JsonTree) : comparison := opt_cmp (get_u64 "height" b) (get_u64 "height" a).
Definition recent_blocks_of (index_data : JsonTree) : list JsonTree :=
  take 12 (sort_by by_height_desc (map_block <$> default [] (get_array "recent_blocks" index_data))).
Definition position_of (v : JsonTree) : Z * Z := (default 0 (get_u64 "block_height" v), default 0 (get_u64 "transaction_index" v)).
Definition by_position_desc (a b : JsonTree) : comparison :=
  then_with ((position_of b).1 ?= (position_of a).1) ((position_of b).2 ?= (position_of a).2).
Definition recent_transactions_of (index_data : JsonTree) : list JsonTree :=
  take 20 (sort_by by_position_desc (map_tx <$> default [] (get_array "recent_transactions" index_data))).

(** ** Miner metrics *)

(** A candidate file: absent, unreadable or malformed, or its time and contents. *)
Inductive MetricsFile := MetricsUnusable | MetricsAt (mtime : Z) (v : JsonTree).
(** The freshest, the later candidate when equally fresh. *)
Definition fresher (best : option (Z * JsonTree)) (f : MetricsFile) : option (Z * JsonTree) :=
  match f with
  | MetricsUnusable => best
  | MetricsAt mtime v =>
      match best with
      | Some (t, _) => if t <=? mtime then Some (mtime, v) else best
      | None => Some (mtime, v)
      end
  end.
Definition read_miner_metrics (candidates : list MetricsFile) : option JsonTree :=
  snd <$> foldl fresher None candidates.

(** Metrics count as a running miner when they do not say stopped and are at most 180
    seconds old. *)
Definition metrics_fresh (metrics : option JsonTree) (now : Z) : bool :=
  let status := default ""%string (metrics ≫= get_str "status") in
  negb (bool_decide (status ∈ ["stopped"; ""]%string))
  && match metrics ≫= get_u64 "updated_at_unix_seconds" with Some ts => saturating_sub now ts <=? 180 | None => false end.

(** ** The snapshot ([network_snapshot]) *)

(** [struct NetworkSnapshot] *)
Record NetworkSnapshot := mkSnapshot {
  nw_online : bool;
  nw_degraded : bool;
  nw_status_label : string;
  nw_height : option Z;
  nw_block_count : Z;
  nw_mempool_count : Z;
  nw_mempool_transactions : list JsonTree;
  nw_mempool_anticipated_base_fee : string;
  nw_mempool_total_fees : string;
  nw_mempool_total_burned_fees : string;
  nw_mempool_total_priority_fees : string;
  nw_balance_atomic : option string;
  nw_emitted_supply_atomic : option string;
  nw_max_supply_atomic : option string;
  nw_tip_hash : option string;
  nw_indexed_height : option Z;
  nw_indexed_blocks : Z;
  nw_indexed_transactions : Z;
  nw_indexed_addresses : Z;
  nw_latest_block_timestamp : option Z;
  nw_latest_block_transactions : Z;
  nw_latest_block_reward_atomic : option string;
  nw_latest_block_fees_atomic : option string;
  nw_node_running : bool;
  nw_rpc_running : bool;
  nw_indexer_ready : bool;
  nw_miner_running : bool;
  nw_miner_hashrate_hs : option F64;
  nw_miner_height : option Z;
  nw_miner_accepted_blocks : option Z;
  nw_miner_accepted_shares : option Z;
  nw_miner_status : option string;
  nw_miner_template_id : option string;
  nw_miner_difficulty : option Z;
  nw_miner_share_difficulty : option Z;
  nw_miner_eta_block : option F64;
  nw_miner_eta_share : option F64;
  nw_miner_hashes_attempted : option string;
  nw_miner_updated_at : option Z;
  nw_miner_backend_mode : option string;
  nw_miner_active_backend : option string;
  nw_local_peer_id : option string;
  nw_p2p_listen_addresses : list string;
  nw_configured_seed_count : Z;
  nw_connected_peer_count : Z;
  nw_validated_peer_count : Z;
  nw_mining_peer_count : Z;
  nw_observed_hashrate_hs : F64;
  nw_miners : list JsonTree;
  nw_validating_peer_count : Z;
  nw_banned_peer_count : Z;
  nw_reputation_enabled : bool;
  nw_p2p_syncing : bool;
  nw_p2p_error : option string;
  nw_sync_status : string;
  nw_sync_target_height : option Z;
  nw_sync_remaining_blocks : option Z;
  nw_sync_progress_percent : option F64;
  nw_sync_target_peer_count : Z;
  nw_recent_blocks : list JsonTree;
  nw_recent_transactions : list JsonTree;
  nw_peers : list JsonTree;
  nw_fleet_nodes : list JsonTree;
  nw_fleet_registered_nodes : Z;
  nw_fleet_online_nodes : Z;
  nw_pool_online : bool;
  nw_pool_name : option string;
  nw_pool_workers : Z;
  nw_pool_hashrate_hs : F64;
  nw_pool_blocks_found : Z;
  nw_pool_vardiff_target_seconds : option Z;
  nw_pool_rejected_requests : Z;
  nw_pool_rate_limited_requests : Z;
  nw_pool_active_bans : Z;
  nw_detail : string;
}.

Definition empty_snapshot (node_running miner_running : bool) (detail : string) : NetworkSnapshot := {|
  nw_online := false; nw_degraded := false; nw_status_label := "Mainnet Candidate"; nw_height := None; nw_block_count := 0;
  nw_mempool_count := 0; nw_mempool_transactions := []; nw_mempool_anticipated_base_fee := "0"; nw_mempool_total_fees := "0";
  nw_mempool_total_burned_fees := "0"; nw_mempool_total_priority_fees := "0"; nw_balance_atomic := None;
  nw_emitted_supply_atomic := None; nw_max_supply_atomic := None; nw_tip_hash := None; nw_indexed_height := None;
  nw_indexed_blocks := 0; nw_indexed_transactions := 0; nw_indexed_addresses := 0; nw_latest_block_timestamp := None;
  nw_latest_block_transactions := 0; nw_latest_block_reward_atomic := None; nw_latest_block_fees_atomic := None;
  nw_node_running := node_running; nw_rpc_running := false; nw_indexer_ready := false; nw_miner_running := miner_running;
  nw_miner_hashrate_hs := None; nw_miner_height := None; nw_miner_accepted_blocks := None; nw_miner_accepted_shares := None;
  nw_miner_status := None; nw_miner_template_id := None; nw_miner_difficulty := None; nw_miner_share_difficulty := None;
  nw_miner_eta_block := None; nw_miner_eta_share := None; nw_miner_hashes_attempted := None; nw_miner_updated_at := None;
  nw_miner_backend_mode := None; nw_miner_active_backend := None; nw_local_peer_id := None; nw_p2p_listen_addresses := [];
  nw_configured_seed_count := 0; nw_connected_peer_count := 0; nw_validated_peer_count := 0; nw_mining_peer_count := 0;
  nw_observed_hashrate_hs := f_zero; nw_miners := []; nw_validating_peer_count := 0; nw_banned_peer_count := 0;
  nw_reputation_enabled := true; nw_p2p_syncing := false; nw_p2p_error := None; nw_sync_status := "offline";
  nw_sync_target_height := None; nw_sync_remaining_blocks := None; nw_sync_progress_percent := None;
  nw_sync_target_peer_count := 0; nw_recent_blocks := []; nw_recent_transactions := []; nw_peers := []; nw_fleet_nodes := [];
  nw_fleet_registered_nodes := 0; nw_fleet_online_nodes := 0; nw_pool_online := false; nw_pool_name := None; nw_pool_workers := 0;
  nw_pool_hashrate_hs := f_zero; nw_pool_blocks_found := 0; nw_pool_vardiff_target_seconds := None;
  nw_pool_rejected_requests := 0; nw_pool_rate_limited_requests := 0; nw_pool_active_bans := 0; nw_detail := detail |}.
(** The last good snapshot, shown again. *)
Definition degraded (s : NetworkSnapshot) (detail : string) : NetworkSnapshot := {|
  nw_online := true; nw_degraded := true; nw_status_label := nw_status_label s; nw_height := nw_height s;
  nw_block_count := nw_block_count s; nw_mempool_count := nw_mempool_count s;
  nw_mempool_transactions := nw_mempool_transactions s; nw_mempool_anticipated_base_fee := nw_mempool_anticipated_base_fee s;
  nw_mempool_total_fees := nw_mempool_total_fees s; nw_mempool_total_burned_fees := nw_mempool_total_burned_fees s;
  nw_mempool_total_priority_fees := nw_mempool_total_priority_fees s; nw_balance_atomic := nw_balance_atomic s;
  nw_emitted_supply_atomic := nw_emitted_supply_atomic s; nw_max_supply_atomic := nw_max_supply_atomic s;
  nw_tip_hash := nw_tip_hash s; nw_indexed_height := nw_indexed_height s; nw_indexed_blocks := nw_indexed_blocks s;
  nw_indexed_transactions := nw_indexed_transactions s; nw_indexed_addresses := nw_indexed_addresses s;
  nw_latest_block_timestamp := nw_latest_block_timestamp s; nw_latest_block_transactions := nw_latest_block_transactions s;
  nw_latest_block_reward_atomic := nw_latest_block_reward_atomic s;
  nw_latest_block_fees_atomic := nw_latest_block_fees_atomic s; nw_node_running := nw_node_running s; nw_rpc_running := true;
  nw_indexer_ready := nw_indexer_ready s; nw_miner_running := nw_miner_running s;
  nw_miner_hashrate_hs := nw_miner_hashrate_hs s; nw_miner_height := nw_miner_height s;
  nw_miner_accepted_blocks := nw_miner_accepted_blocks s; nw_miner_accepted_shares := nw_miner_accepted_shares s;
  nw_miner_status := nw_miner_status s; nw_miner_template_id := nw_miner_template_id s;
  nw_miner_difficulty := nw_miner_difficulty s; nw_miner_share_difficulty := nw_miner_share_difficulty s;
  nw_miner_eta_block := nw_miner_eta_block s; nw_miner_eta_share := nw_miner_eta_share s;
  nw_miner_hashes_attempted := nw_miner_hashes_attempted s; nw_miner_updated_at := nw_miner_updated_at s;
  nw_miner_backend_mode := nw_miner_backend_mode s; nw_miner_active_backend := nw_miner_active_backend s;
  nw_local_peer_id := nw_local_peer_id s; nw_p2p_listen_addresses := nw_p2p_listen_addresses s;
  nw_configured_seed_count := nw_configured_seed_count s; nw_connected_peer_count := nw_connected_peer_count s;
  nw_validated_peer_count := nw_validated_peer_count s; nw_mining_peer_count := nw_mining_peer_count s;
  nw_observed_hashrate_hs := nw_observed_hashrate_hs s; nw_miners := nw_miners s;
  nw_validating_peer_count := nw_validating_peer_count s; nw_banned_peer_count := nw_banned_peer_count s;
  nw_reputation_enabled := nw_reputation_enabled s; nw_p2p_syncing := nw_p2p_syncing s; nw_p2p_error := nw_p2p_error s;
  nw_sync_status := nw_sync_status s; nw_sync_target_height := nw_sync_target_height s;
  nw_sync_remaining_blocks := nw_sync_remaining_blocks s; nw_sync_progress_percent := nw_sync_progress_percent s;
  nw_sync_target_peer_count := nw_sync_target_peer_count s; nw_recent_blocks := nw_recent_blocks s;
  nw_recent_transactions := nw_recent_transactions s; nw_peers := nw_peers s; nw_fleet_nodes := nw_fleet_nodes s;
  nw_fleet_registered_nodes := nw_fleet_registered_nodes s; nw_fleet_online_nodes := nw_fleet_online_nodes s;
  nw_pool_online := nw_pool_online s; nw_pool_name := nw_pool_name s; nw_pool_workers := nw_pool_workers s;
  nw_pool_hashrate_hs := nw_pool_hashrate_hs s; nw_pool_blocks_found := nw_pool_blocks_found s;
  nw_pool_vardiff_target_seconds := nw_pool_vardiff_target_seconds s; nw_pool_rejected_requests := nw_pool_rejected_requests s;
  nw_pool_rate_limited_requests := nw_pool_rate_limited_requests s; nw_pool_active_bans := nw_pool_active_bans s;
  nw_detail := detail |}.
(** No snapshot yet, but a gateway that answers. *)
Definition thin (s : NetworkSnapshot) : NetworkSnapshot := {|
  nw_online := true; nw_degraded := true; nw_status_label := nw_status_label s; nw_height := nw_height s;
  nw_block_count := nw_block_count s; nw_mempool_count := nw_mempool_count s;
  nw_mempool_transactions := nw_mempool_transactions s; nw_mempool_anticipated_base_fee := nw_mempool_anticipated_base_fee s;
  nw_mempool_total_fees := nw_mempool_total_fees s; nw_mempool_total_burned_fees := nw_mempool_total_burned_fees s;
  nw_mempool_total_priority_fees := nw_mempool_total_priority_fees s; nw_balance_atomic := nw_balance_atomic s;
  nw_emitted_supply_atomic := nw_emitted_supply_atomic s; nw_max_supply_atomic := nw_max_supply_atomic s;
  nw_tip_hash := nw_tip_hash s; nw_indexed_height := nw_indexed_height s; nw_indexed_blocks := nw_indexed_blocks s;
  nw_indexed_transactions := nw_indexed_transactions s; nw_indexed_addresses := nw_indexed_addresses s;
  nw_latest_block_timestamp := nw_latest_block_timestamp s; nw_latest_block_transactions := nw_latest_block_transactions s;
  nw_latest_block_reward_atomic := nw_latest_block_reward_atomic s;
  nw_latest_block_fees_atomic := nw_latest_block_fees_atomic s; nw_node_running := nw_node_running s; nw_rpc_running := true;
  nw_indexer_ready := nw_indexer_ready s; nw_miner_running := nw_miner_running s;
  nw_miner_hashrate_hs := nw_miner_hashrate_hs s; nw_miner_height := nw_miner_height s;
  nw_miner_accepted_blocks := nw_miner_accepted_blocks s; nw_miner_accepted_shares := nw_miner_accepted_shares s;
  nw_miner_status := nw_miner_status s; nw_miner_template_id := nw_miner_template_id s;
  nw_miner_difficulty := nw_miner_difficulty s; nw_miner_share_difficulty := nw_miner_share_difficulty s;
  nw_miner_eta_block := nw_miner_eta_block s; nw_miner_eta_share := nw_miner_eta_share s;
  nw_miner_hashes_attempted := nw_miner_hashes_attempted s; nw_miner_updated_at := nw_miner_updated_at s;
  nw_miner_backend_mode := nw_miner_backend_mode s; nw_miner_active_backend := nw_miner_active_backend s;
  nw_local_peer_id := nw_local_peer_id s; nw_p2p_listen_addresses := nw_p2p_listen_addresses s;
  nw_configured_seed_count := nw_configured_seed_count s; nw_connected_peer_count := nw_connected_peer_count s;
  nw_validated_peer_count := nw_validated_peer_count s; nw_mining_peer_count := nw_mining_peer_count s;
  nw_observed_hashrate_hs := nw_observed_hashrate_hs s; nw_miners := nw_miners s;
  nw_validating_peer_count := nw_validating_peer_count s; nw_banned_peer_count := nw_banned_peer_count s;
  nw_reputation_enabled := nw_reputation_enabled s; nw_p2p_syncing := nw_p2p_syncing s; nw_p2p_error := nw_p2p_error s;
  nw_sync_status := "degraded"; nw_sync_target_height := nw_sync_target_height s;
  nw_sync_remaining_blocks := nw_sync_remaining_blocks s; nw_sync_progress_percent := nw_sync_progress_percent s;
  nw_sync_target_peer_count := nw_sync_target_peer_count s; nw_recent_blocks := nw_recent_blocks s;
  nw_recent_transactions := nw_recent_transactions s; nw_peers := nw_peers s; nw_fleet_nodes := nw_fleet_nodes s;
  nw_fleet_registered_nodes := nw_fleet_registered_nodes s; nw_fleet_online_nodes := nw_fleet_online_nodes s;
  nw_pool_online := nw_pool_online s; nw_pool_name := nw_pool_name s; nw_pool_workers := nw_pool_workers s;
  nw_pool_hashrate_hs := nw_pool_hashrate_hs s; nw_pool_blocks_found := nw_pool_blocks_found s;
  nw_pool_vardiff_target_seconds := nw_pool_vardiff_target_seconds s; nw_pool_rejected_requests := nw_pool_rejected_requests s;
  nw_pool_rate_limited_requests := nw_pool_rate_limited_requests s; nw_pool_active_bans := nw_pool_active_bans s;
  nw_detail := nw_detail s |}.

(** What a snapshot meets: the outcome of [request] by endpoint, whether [/health]
    answers, the wallet's address, the managed processes, the metrics files and the
    clock. *)
Record SnapshotEnv := {
  sn_get : string → app_result JsonTree;
  sn_health : bool;
  sn_base : string;
  sn_wallet : option string;
  sn_node_managed : bool;
  sn_miner_managed : bool;
  sn_metrics : list MetricsFile;
  sn_now : Z;
}.
Definition optional (env : SnapshotEnv) (endpoint : string) : JsonTree :=
  match sn_get env endpoint with Ok v => v | Err _ => empty_object end.

(** Where the chain is against its network. *)
Record SyncView := mkSync {
  sy_status : string;
  sy_target_height : option Z;
  sy_remaining_blocks : option Z;
  sy_progress_percent : option F64;
}.
Definition validated_heights (peers : list JsonTree) : list Z :=
  omap (λ p, if default false (get_bool "handshake_validated" p) then get_u64 "best_height" p else None) peers.
Definition p2p_active (p2p : JsonTree) (now : Z) : bool :=
  let updated := default 0 (get_u64 "updated_at_unix_seconds" p2p) in
  (updated >? 0) && (saturating_sub now updated <=? 30)
  && negb (str_contains (str_to_ascii_lowercase (default ""%string (get_str "mode" p2p))) "stopped").
Definition sync_target (local_height gateway_height : option Z) (heights : list Z) : option Z :=
  let peer_target := if bool_decide (heights = []) then None else (λ h, foldl Z.max h heights) <$> local_height in
  match gateway_height with
  | Some h => Some h
  | None => match peer_target with Some h => Some h | None => local_height end
  end.
Definition sync_view (remote : bool) (status sync_gateway p2p : JsonTree) (heights : list Z) (now : Z) : SyncView :=
  let local_height := get_u64 "height" status in
  let target := sync_target local_height (get_u64 "network_height" sync_gateway) heights in
  let remaining := match get_u64 "remaining_blocks" sync_gateway with
    | Some r => Some r
    | None => match target, local_height with Some t, Some l => Some (saturating_sub t l) | _, _ => None end
    end in
  let progress := match get_f64 "progress_percent" sync_gateway with
    | Some p => Some p
    | None => match target, local_height with
              | Some t, Some l => Some (if t =? 0 then f_hundred else f_percent l t)
              | _, _ => None
              end
    end in
  let chain_ready := remote && (bool_decide (is_Some local_height) || (default 0 (get_u64 "block_count" status) >? 0))
    && default true (get_bool "initialized" status) in
  let peer_lag := match target, local_height with Some t, Some l => t >? l | _, _ => false end in
  let actively_syncing := bool_decide (default ""%string (get_str "sync_state" sync_gateway) = "syncing"%string)
    || default false (get_bool "syncing" p2p) || (peer_lag && (default 0 remaining >? 0)) in
  let label := if actively_syncing then "syncing"%string else "synced"%string in
  mkSync (if chain_ready then label
          else if negb (p2p_active p2p now) && negb remote then "offline"
          else if bool_decide (heights = []) then
            (if bool_decide (is_Some local_height) && negb remote then "discovering"
             else if bool_decide (is_Some local_height) then "synced" else "discovering")
          else label)%string
    target remaining progress.

(** How many mine, and how fast: the strongest of the sources. *)
Definition mining_peers (p2p pool : JsonTree) (running : bool) : Z :=
  let local_active := if running then 1 else 0 in
  Z.max (Z.max (default 0 (get_u64 "mining_peer_count" p2p))
    (saturating_add 64 (default 0 (get_u64 "connected_workers" pool)) local_active)) local_active.
Definition observed_hashrate (p2p pool : JsonTree) (fleet_nodes : list JsonTree) (metrics : option JsonTree) (running : bool) : F64 :=
  let p2p_hs := default f_zero (get_f64 "observed_network_hashrate_hs" p2p) in
  let pool_hs := default f_zero (get_f64 "estimated_hashrate_hs" pool) in
  let local_hs := if running then default f_zero (metrics ≫= get_f64 "hashrate_hs") else f_zero in
  let fleet_hs := foldl f_add f_zero (omap (get_f64 "observed_hashrate_hs") fleet_nodes) in
  f_max (f_max (f_max (f_max p2p_hs (f_add pool_hs local_hs)) fleet_hs) local_hs) pool_hs.

Section snapshot.
Context (parse_url : string → app_result Url) (env : SnapshotEnv).

Definition remote_gateway : bool := negb (is_local_rpc_url parse_url (sn_base env)).
Definition side : string := if remote_gateway then "VPS" else "Local".

(** The snapshot of a gateway whose [/status] answered. *)
Definition full_snapshot (status : JsonTree) : NetworkSnapshot :=
  let mempool := optional env "/mempool" in
  let indexer := optional env "/indexer/status" in
  let index_data := optional env "/indexer/overview?blocks=12&transactions=20" in
  let sync_gateway := optional env "/sync/status" in
  let p2p := optional env "/p2p/status" in
  let fleet := optional env "/fleet/status" in
  let pool := optional env "/pool/api/v1/pool/status" in
  let balance := match sn_wallet env with
    | Some a => optional_atomic (get_or_null "balance_atomic" (optional env ("/addresses/" ++ urlencoding_lite a ++ "/balance")))
    | None => None
    end in
  let metrics := read_miner_metrics (sn_metrics env) in
  let blocks := recent_blocks_of index_data in
  let mempool_transactions := map_tx <$> default [] (get_array "transactions" mempool) in
  let peers := map_peer <$> default [] (get_array "peers" p2p) in
  let fleet_nodes := default [] (get_array "nodes" fleet) in
  let running := sn_miner_managed env || metrics_fresh metrics (sn_now env) in
  let heights := validated_heights peers in
  let sync := sync_view remote_gateway status sync_gateway p2p heights (sn_now env) in
  let summary := default empty_object (json_get "summary" index_data) in
  let latest := default empty_object (head blocks) in
  let supply := default empty_object (json_get "supply" summary) in
  let local_height := get_u64 "height" status in
  let peer_id := get_str "local_peer_id" p2p in
  let host := match parse_url (sn_base env) with Ok u => default (sn_base env) (ur_host u) | Err _ => sn_base env end in
  let workers := default 0 (get_u64 "connected_workers" pool) in
  let pool_hs := default f_zero (get_f64 "estimated_hashrate_hs" pool) in
  {| nw_online := true; nw_degraded := false;
     nw_status_label := default "Mainnet Candidate"%string (get_str "status_label" status);
     nw_height := local_height; nw_block_count := default 0 (get_u64 "block_count" status);
     nw_mempool_count := default (Z.of_nat (length mempool_transactions)) (get_u64 "pending_count" mempool);
     nw_mempool_transactions := mempool_transactions;
     nw_mempool_anticipated_base_fee := atomic (get_or_null "anticipated_base_fee_atomic" mempool);
     nw_mempool_total_fees := atomic (get_or_null "total_fees_atomic" mempool);
     nw_mempool_total_burned_fees := atomic (get_or_null "total_burned_fees_atomic" mempool);
     nw_mempool_total_priority_fees := atomic (get_or_null "total_priority_fees_atomic" mempool);
     nw_balance_atomic := balance;
     nw_emitted_supply_atomic := optional_atomic (default JNull
       match json_get "emitted_supply_atomic" status with Some v => Some v | None => json_get "emitted_supply_atomic" supply end);
     nw_max_supply_atomic := optional_atomic (get_or_null "max_supply_atomic" supply);
     nw_tip_hash := get_str "tip_hash" status;
     nw_indexed_height := get_u64 "indexed_height" indexer; nw_indexed_blocks := default 0 (get_u64 "indexed_block_count" indexer);
     nw_indexed_transactions := default 0 (get_u64 "transaction_count" summary);
     nw_indexed_addresses := default 0 (get_u64 "address_count" summary);
     nw_latest_block_timestamp := get_u64 "timestamp" latest;
     nw_latest_block_transactions := default 0 (get_u64 "transaction_count" latest);
     nw_latest_block_reward_atomic := optional_atomic (get_or_null "miner_reward_atomic" latest);
     nw_latest_block_fees_atomic := optional_atomic (get_or_null "fees_atomic" latest);
     nw_node_running := sn_node_managed env || negb (str_is_empty (default ""%string peer_id))
       || (remote_gateway && bool_decide (is_Some local_height));
     nw_rpc_running := true; nw_indexer_ready := default false (get_bool "initialized" indexer);
     nw_miner_running := running;
     nw_miner_hashrate_hs := if running then metrics ≫= get_f64 "hashrate_hs" else Some f_zero;
     nw_miner_height := metrics ≫= get_u64 "height"; nw_miner_accepted_blocks := metrics ≫= get_u64 "accepted_blocks";
     nw_miner_accepted_shares := metrics ≫= get_u64 "accepted_shares";
     nw_miner_status := if running then metrics ≫= get_str "status" else Some "stopped"%string;
     nw_miner_template_id := metrics ≫= get_str "template_id";
     nw_miner_difficulty := metrics ≫= get_u64 "difficulty_leading_zero_bits";
     nw_miner_share_difficulty := metrics ≫= get_u64 "share_difficulty_leading_zero_bits";
     nw_miner_eta_block := metrics ≫= get_f64 "eta_block_seconds"; nw_miner_eta_share := metrics ≫= get_f64 "eta_share_seconds";
     nw_miner_hashes_attempted := (λ v, default (json_text v) (as_str v)) <$> (metrics ≫= json_get "hashes_attempted");
     nw_miner_updated_at := metrics ≫= get_u64 "updated_at_unix_seconds";
     nw_miner_backend_mode := metrics ≫= get_str "backend_mode"; nw_miner_active_backend := metrics ≫= get_str "active_backend";
     nw_local_peer_id := peer_id;
     nw_p2p_listen_addresses := omap as_str (default [] (get_array "listen_addresses" p2p));
     nw_configured_seed_count := default 0 (get_u64 "configured_seed_count" p2p);
     nw_connected_peer_count := default 0 (get_u64 "connected_peer_count" p2p);
     nw_validated_peer_count := default 0 (get_u64 "validated_peer_count" p2p);
     nw_mining_peer_count := mining_peers p2p pool running;
     nw_observed_hashrate_hs := observed_hashrate p2p pool fleet_nodes metrics running;
     nw_miners := default [] (get_array "miners" p2p);
     nw_validating_peer_count := default 0 (get_u64 "validating_peer_count" p2p);
     nw_banned_peer_count := default 0 (get_u64 "banned_peer_count" p2p);
     nw_reputation_enabled := default true (get_bool "reputation_enabled" p2p);
     nw_p2p_syncing := default false (get_bool "syncing" p2p); nw_p2p_error := get_str "last_error" p2p;
     nw_sync_status := sy_status sync; nw_sync_target_height := sy_target_height sync;
     nw_sync_remaining_blocks := sy_remaining_blocks sync; nw_sync_progress_percent := sy_progress_percent sync;
     nw_sync_target_peer_count := Z.of_nat (length heights); nw_recent_blocks := blocks;
     nw_recent_transactions := recent_transactions_of index_data; nw_peers := peers; nw_fleet_nodes := fleet_nodes;
     nw_fleet_registered_nodes := default 0 (get_u64 "registered_node_count" fleet);
     nw_fleet_online_nodes := default 0 (get_u64 "online_node_count" fleet);
     nw_pool_online := bool_decide (is_Some (json_get "protocol" pool)); nw_pool_name := get_str "pool_name" pool;
     nw_pool_workers := workers; nw_pool_hashrate_hs := pool_hs;
     nw_pool_blocks_found := default 0 (get_u64 "blocks_found" pool);
     nw_pool_vardiff_target_seconds := if default false (get_bool "vardiff_enabled" pool) then get_u64 "target_share_seconds" pool else None;
     nw_pool_rejected_requests := default 0 (get_u64 "rejected_requests" pool);
     nw_pool_rate_limited_requests := default 0 (get_u64 "rate_limited_requests" pool);
     nw_pool_active_bans := default 0 (get_u64 "active_bans" pool);
     nw_detail := (if remote_gateway then "VPS gateway verified at " ++ host else "Local RPC verified at " ++ host)%string |}.

(** The state is the last good snapshot. *)
Definition network_snapshot (last_good : option NetworkSnapshot) : NetworkSnapshot * option NetworkSnapshot :=
  match sn_get env "/status" with
  | Ok status => let s := full_snapshot status in (s, Some s)
  | Err err =>
      if sn_health env then
        match last_good with
        | Some cached =>
            (degraded cached (side ++ " RPC degraded (" ++ sn_base env ++ "): " ++ err ++ ". Gateway /health OK "
               ++ EM_DASH ++ " using last-known tip."), last_good)
        | None =>
            (thin (empty_snapshot (sn_node_managed env || remote_gateway) (sn_miner_managed env)
               (side ++ " RPC degraded (" ++ sn_base env ++ "): " ++ err ++ ". Gateway alive; waiting for /status.")), last_good)
        end
      else (empty_snapshot (sn_node_managed env) (sn_miner_managed env)
              (side ++ " RPC is offline (" ++ sn_base env ++ "): " ++ err), last_good)
  end%string.

End snapshot.

(** ** The explorer ([explorer_lookup]) *)

Definition all_chars (p : byte → bool) (s : string) : bool := forallb p (str_bytes s).
Definition ascii_digit (b : byte) : bool := (48 <=? byte_Z b) && (byte_Z b <=? 57).
Definition hex_byte (b : byte) : bool :=
  ascii_digit b || ((65 <=? byte_Z b) && (byte_Z b <=? 70)) || ((97 <=? byte_Z b) && (byte_Z b <=? 102)).
(** [trim_start_matches] of a text. *)
Fixpoint strip_all (fuel : nat) (p s : string) : string :=
  match fuel with
  | O => s
  | S fuel => match str_strip_prefix s p with Some rest => strip_all fuel p rest | None => s end
  end.
Definition trim_start_text (p s : string) : string := strip_all (length (str_bytes s)) p s.

Inductive QueryKind := QEmpty | QHeight | QAddress | QHash | QPeerId | QWorkerOrPartial | QUnknown.
Definition kind_text (k : QueryKind) : string :=
  match k with
  | QEmpty => "empty" | QHeight => "height" | QAddress => "address" | QHash => "hash" | QPeerId => "peer_id"
  | QWorkerOrPartial => "worker_or_partial" | QUnknown => "unknown"
  end.
Definition classify_explorer_query (raw : string) : QueryKind * string :=
  let q := str_trim raw in
  if str_is_empty q then (QEmpty, ""%string) else
  if all_chars ascii_digit q && (str_len q <=? 18) then (QHeight, q) else
  if str_starts_with (str_to_ascii_lowercase q) "vire1" && (20 <=? str_len q) then (QAddress, q) else
  let hex := default q (str_strip_prefix q "0x") in
  if (str_len hex =? 64) && all_chars hex_byte hex then (QHash, str_to_ascii_lowercase hex) else
  let peerish := trim_start_text "p2p/" (trim_start_text "/p2p/" q) in
  if str_starts_with peerish "12D3KooW" || str_starts_with peerish "Qm" || str_starts_with peerish "12D3" || str_contains q "/p2p/"
     || ((32 <=? str_len peerish)
         && all_chars (λ b, alphanumeric b || (byte_Z b =? 61) || (byte_Z b =? 47) || (byte_Z b =? 43)) peerish)
  then (QPeerId, peerish) else
  if (str_len q <=? 64) && negb (str_contains q " ") then (QWorkerOrPartial, q) else (QUnknown, q).

Definition jtexts (l : list string) : JsonTree := JArray (JString <$> l).
Definition found (kind query query_kind : string) (data : list (string * JsonTree)) (sources notes : list string) : JsonTree :=
  JObject ([("kind", JString kind); ("query", JString query); ("query_kind", JString query_kind)]%string ++ data
    ++ [("sources", jtexts sources); ("notes", jtexts notes)]%string).
Definition not_found (query query_kind message : string) (sources : list string) (notes : list (string * JsonTree)) : JsonTree :=
  JObject ([("kind", JString "not_found"); ("query", JString query); ("query_kind", JString query_kind);
    ("message", JString message); ("data", JNull); ("sources", jtexts sources)]%string ++ notes).
Definition with_raw (data raw : JsonTree) : list (string * JsonTree) := [("data", data); ("raw", raw)]%string.

Section explorer.
(** The outcome of [request] by endpoint. *)
Context (get : string → app_result JsonTree).
Definition get_object (endpoint : string) : JsonTree := match get endpoint with Ok v => v | Err _ => empty_object end.

(** The endpoints tried in order, each with its source, kind and view. *)
Fixpoint first_answer (query query_kind : string) (tries : list (string * string * string * (JsonTree → JsonTree))) : option JsonTree :=
  match tries with
  | [] => None
  | (endpoint, source, kind, view) :: tries =>
      match get endpoint with
      | Ok v => Some (found kind query query_kind (with_raw (view v) v) [source] [])
      | Err _ => first_answer query query_kind tries
      end
  end.
Definition lookup_height (query normalized : string) : JsonTree :=
  let height := uint_to_string (default 0 (parse_uint 64 normalized)) in
  default (not_found query "height" ("No block found at height " ++ height ++ " on the configured gateway.") [] [])%string
    (first_answer query "height" [("/indexer/blocks/" ++ height, "indexer", "block", map_block); ("/blocks/" ++ height, "rpc", "block", map_block)]%string).
Definition lookup_hash (query normalized : string) : JsonTree :=
  default (not_found query "hash" "No transaction or block matched this 64-char hash on the gateway." [] [])%string
    (first_answer query "hash" [("/indexer/tx/" ++ normalized, "indexer", "transaction", map_tx);
       ("/transactions/" ++ normalized, "rpc", "transaction", map_tx); ("/blocks/hash/" ++ normalized, "rpc", "block", map_block)]%string).

(** An address: the indexer's activity, the chain's account or else its balance, and
    the pool's workers of it. *)
Definition set_all (fields : list (string * JsonTree)) (data : JsonTree) : JsonTree :=
  foldl (λ d f, json_set f.1 f.2 d) data fields.
Definition set_missing (fields : list (string * JsonTree)) (data : JsonTree) : JsonTree :=
  foldl (λ d f, match json_get f.1 d with None | Some JNull => json_set f.1 f.2 d | _ => d end) data fields.
Definition set_atomic (key : string) (from data : JsonTree) : JsonTree :=
  match json_get key from with Some v => json_set key (JString (atomic v)) data | None => data end.
Definition merge_account (enc : string) (data : JsonTree) : JsonTree * list string :=
  match get ("/addresses/" ++ enc ++ "/account")%string with
  | Ok account =>
      (match account with
       | JObject fields =>
           set_atomic "anticipated_base_fee_atomic" account (set_atomic "balance_atomic" account (set_missing fields data))
       | _ => data
       end, ["rpc-account"%string])
  | Err _ =>
      match get ("/addresses/" ++ enc ++ "/balance")%string with
      | Ok balance => (json_set "exists" (JBool true) (set_atomic "balance_atomic" balance data), ["rpc-balance"%string])
      | Err _ => (data, [])
      end
  end.
Definition merge_pool (normalized : string) (data : JsonTree) : JsonTree * list string :=
  let pool := get_object "/pool/api/v1/pool/status" in
  if bool_decide (is_Some (json_get "pool_name" pool)) || bool_decide (is_Some (json_get "connected_workers" pool)) then
    let workers := filter (λ w, match get_str "miner_address" w with Some a => eq_ignore_ascii_case a normalized | None => false end = true)
      (default [] (get_array "workers" pool)) in
    (set_all [("pool_workers", JArray workers); ("pool_name", get_or_null "pool_name" pool);
       ("pool_address", get_or_null "pool_address" pool);
       ("pool_online", JBool (bool_decide (is_Some (json_get "connected_workers" pool))))]%string data, ["pool"%string])
  else (data, []).
Definition nonempty_array (o : option (list JsonTree)) : bool := match o with Some (_ :: _) => true | _ => false end.
Definition is_true (key : string) (v : JsonTree) : bool := match json_get key v with Some (JBool b) => b | _ => false end.
Definition address_found (data : JsonTree) : bool :=
  bool_decide (is_Some (json_get "balance_atomic" data)) || is_true "exists_in_ledger" data || is_true "exists" data
  || nonempty_array (get_array "transaction_hashes" data) || nonempty_array (get_array "pool_workers" data).
Definition zero_atomic (key : string) (data : JsonTree) : JsonTree :=
  json_set key (JString (atomic (default (JString "0") (json_get key data)))) data.
Definition lookup_address (query normalized : string) : JsonTree :=
  let enc := urlencoding_lite normalized in
  let data := JObject [("address"%string, JString normalized)] in
  let '(data, sources1, notes) := match get ("/indexer/address/" ++ enc)%string with
    | Ok activity => (set_all (fields_of activity) data, ["indexer"%string], [])
    | Err _ => (data, [], ["Indexer address activity unavailable; trying chain account endpoints."%string])
    end in
  let '(data, sources2) := merge_account enc data in
  let '(data, sources3) := merge_pool normalized data in
  let notes := if address_found data then notes
    else notes ++ ["Address not present in ledger yet (zero history is still a valid result)."%string] in
  let data := foldl (λ d key, zero_atomic key d) data
    ["balance_atomic"; "total_received_atomic"; "total_sent_atomic"; "mined_reward_atomic"]%string in
  found "address" query "address" [("data"%string, data)] (sources1 ++ sources2 ++ sources3) notes.

(** Peers, miners and pool workers by a part of their name. *)
Definition contains_lower (s needle : string) : bool := str_contains (str_to_ascii_lowercase s) needle.
Definition text_or_empty (key : string) (v : JsonTree) : string := default ""%string (get_str key v).
Definition lookup_in_pool (query needle : string) (sources : list string) : option JsonTree * list string :=
  let pool := get_object "/pool/api/v1/pool/status" in
  match get_array "workers" pool with
  | None => (None, sources)
  | Some workers =>
      let sources := sources ++ ["pool"%string] in
      (match List.find (λ w, contains_lower (text_or_empty "worker_name" w) needle || contains_lower (text_or_empty "miner_address" w) needle)
          workers with
       | Some worker =>
           let data := json_set "pool_address" (get_or_null "pool_address" pool)
             (json_set "pool_name" (get_or_null "pool_name" pool) worker) in
           Some (found "pool_worker" query "worker" [("data"%string, data)] sources [])
       | None =>
           match get_str "pool_address" pool with
           | Some address =>
               if contains_lower address needle || str_contains needle (str_to_ascii_lowercase address) then
                 Some (found "pool" query "pool" [("data"%string, JObject ([("pool_name", get_or_null "pool_name" pool);
                   ("pool_address", JString address)]%string ++ ((λ k, (k, get_or_null k pool)) <$> ["connected_workers";
                   "estimated_hashrate_hs"; "blocks_found"; "accepted_shares"; "payout_scheme"; "upstream_status"; "status_label"]%string)))]
                   sources [])
               else None
           | None => None
           end
       end, sources)
  end.
Definition lookup_peer (query : string) (kind : QueryKind) (normalized : string) : JsonTree :=
  let p2p := get_object "/p2p/status" in
  let sources := if bool_decide (is_Some (json_get "local_peer_id" p2p)) || bool_decide (is_Some (json_get "peers" p2p))
    then ["p2p"%string] else [] in
  let needle := str_to_ascii_lowercase normalized in
  let local_id := text_or_empty "local_peer_id" p2p in
  let peer (data : JsonTree) := found "peer" query "peer_id" [("data"%string, data)] sources [] in
  if negb (str_is_empty local_id) && contains_lower local_id needle then
    peer (JObject [("peer_id", JString local_id); ("is_local", JBool true); ("handshake_validated", JBool true);
      ("validating", JBool true); ("mining", JBool false);
      ("listen_addresses", default (JArray []) (json_get "listen_addresses" p2p)); ("best_height", JNull); ("hashrate_hs", JNumber 0)]%string)
  else
  match List.find (λ p, contains_lower (text_or_empty "peer_id" p) needle || contains_lower (text_or_empty "address" p) needle)
      (default [] (get_array "peers" p2p)) with
  | Some p => peer p
  | None =>
      match List.find (λ m, contains_lower (text_or_empty "peer_id" m) needle) (default [] (get_array "miners" p2p)) with
      | Some m => peer (json_set "mining" (JBool true) m)
      | None =>
          let '(answer, sources) := lookup_in_pool query needle sources in
          default (not_found query (kind_text kind)
            "No peer, pool worker, address, or chain object matched this query on the public gateway views."
            sources [("notes", JArray [])])%string answer
      end
  end.

Definition explorer_lookup (query : string) : JsonTree :=
  let '(kind, normalized) := classify_explorer_query query in
  match kind with
  | QEmpty => not_found query "empty" "Enter a block height, tx/block hash, vire1 address, peer id, or pool worker name." [] []
  | QHeight => lookup_height query normalized
  | QHash => lookup_hash query normalized
  | QAddress => lookup_address query normalized
  | QPeerId | QWorkerOrPartial | QUnknown => lookup_peer query kind normalized
  end.

End explorer.

(** ** Pools ([pool.rs]) *)

Section pools.
Context (parse_url : string → app_result Url) (pool_get : string → app_result JsonTree).

Definition normalize_pool_url (raw : string) : app_result string :=
  let trimmed := trim_url raw in
  if str_is_empty trimmed then Err "Pool URL cannot be empty."%string else
  let with_scheme := if str_contains trimmed "://" then trimmed else ("https://" ++ trimmed)%string in
  parsed ← map_err (λ e, "Invalid pool URL: " ++ e)%string (parse_url with_scheme);
  if negb (bool_decide (ur_scheme parsed = "http"%string)) && negb (bool_decide (ur_scheme parsed = "https"%string))
  then Err "Pool URL must use http or https."%string else
  let host := default ""%string (ur_host parsed) in
  if str_is_empty host then Err "Pool URL must include a host."%string else
  let path := trim_end_matches SLASH (ur_path parsed) in
  Ok (ur_scheme parsed ++ "://" ++ host ++ match ur_port parsed with Some port => ":" ++ uint_to_string port | None => "" end ++ path)%string.

Definition DEFAULT_POOL : string := "https://rpcnode.dohotstudio.com/pool".
Definition pool_base (s : AppSettings) (pool_url : option string) : app_result string :=
  match pool_url with
  | Some raw =>
      if str_is_empty (str_trim raw) then normalize_pool_url (if negb (str_is_empty (str_trim (ap_default_pool_url s)))
        then ap_default_pool_url s else default DEFAULT_POOL (head (ap_pool_urls s)))
      else normalize_pool_url (str_trim raw)
  | None => normalize_pool_url (if negb (str_is_empty (str_trim (ap_default_pool_url s)))
      then ap_default_pool_url s else default DEFAULT_POOL (head (ap_pool_urls s)))
  end.
Definition ok_of {A} (r : app_result A) : option A := match r with Ok a => Some a | Err _ => None end.
Definition or_null (o : option JsonTree) : JsonTree := default JNull o.
Definition or_else_get (key : string) (o : option JsonTree) (other : JsonTree) : JsonTree :=
  match o ≫= json_get key with Some v => v | None => other end.
Definition pool_snapshot (s : AppSettings) (pool_url miner_address : option string) (now : Z) : app_result JsonTree :=
  base ← pool_base s pool_url;
  let at_base (path : string) : string := (base ++ path)%string in
  status ← pool_get (at_base "/api/v1/pool/status");
  let history := ok_of (pool_get (at_base "/api/v1/pool/history")) in
  let payouts := default (JArray []) (ok_of (pool_get (at_base "/api/v1/payouts"))) in
  let health := ok_of (pool_get (at_base "/health")) in
  let miner := match miner_address with
    | Some a => let a := str_trim a in
        if str_starts_with a "vire1" then ok_of (pool_get (at_base ("/api/v1/miners/" ++ urlencoding_lite a)%string)) else None
    | None => None
    end in
  Ok (JObject [("online", JBool true); ("pool_url", JString base); ("fetched_at_unix_seconds", JNumber now);
    ("health", or_null health); ("status", status); ("history_available", JBool (bool_decide (is_Some history)));
    ("workers", or_else_get "workers" history (default (JArray []) (json_get "workers" status)));
    ("blocks", or_else_get "blocks" history (default (JArray []) (json_get "recent_blocks" status)));
    ("shares", or_else_get "shares" history (JArray [])); ("payouts", or_else_get "payouts" history payouts);
    ("accounts", or_else_get "accounts" history (JArray [])); ("miner", or_null miner);
    ("configured_pools", jtexts (ap_pool_urls s)); ("default_pool_url", JString (ap_default_pool_url s))])%string.

(** The pools listed, each once, and what each answers. *)
Fixpoint dedupe_urls (seen : list string) (l : list string) : list string :=
  match l with
  | [] => []
  | u :: l =>
      let key := str_to_ascii_lowercase (trim_url u) in
      if bool_decide (key ∈ seen) then dedupe_urls seen l else u :: dedupe_urls (key :: seen) l
  end.
Definition catalog_urls (s : AppSettings) : list string :=
  let urls := ap_pool_urls s in
  let urls := if bool_decide (urls = []) && negb (str_is_empty (str_trim (ap_default_pool_url s)))
    then urls ++ [ap_default_pool_url s] else urls in
  dedupe_urls [] (if bool_decide (urls = []) then [DEFAULT_POOL] else urls).
Definition offline_entry (url error : string) : JsonTree :=
  JObject [("pool_url", JString url); ("online", JBool false); ("error", JString error)]%string.
Definition catalog_entry (raw : string) : JsonTree :=
  match normalize_pool_url raw with
  | Err e => offline_entry raw e
  | Ok base =>
      match pool_get (base ++ "/api/v1/pool/status")%string with
      | Ok status =>
          JObject ([("pool_url", JString base); ("online", JBool true)]%string
            ++ ((λ k, (k, get_or_null k status)) <$> ["pool_name"; "status_label"; "network_id"; "connected_workers";
                 "estimated_hashrate_hs"; "blocks_found"; "accepted_shares"; "upstream_status"; "pool_address"]%string))
      | Err e => offline_entry base e
      end
  end.
Definition pool_catalog (s : AppSettings) (now : Z) : JsonTree :=
  JObject [("default_pool_url", JString (ap_default_pool_url s)); ("pools", JArray (catalog_entry <$> catalog_urls s));
    ("fetched_at_unix_seconds", JNumber now)]%string.

End pools.

(** ** Mined blocks announced ([notify.rs]) *)

Record NotifyState := mkNotify { nt_last_height : option Z; nt_baseline_ready : bool }.
Record Announcement := mkAnnouncement { an_height : Z; an_body : string }.

Definition notify_format_atomic (value : string) : string :=
  match parse_uint 128 value with
  | None => value
  | Some atomic => str_of_bytes (uint_bytes (atomic / 100000000) ++ byte_of_Z 46 :: pad_left 8 (uint_bytes (atomic mod 100000000)))
  end.
Definition announce (block : JsonTree) : Announcement :=
  let height := default 0 (get_u64 "height" block) in
  let reward := match json_get "miner_reward_atomic" block with Some v => default (json_text v) (as_str v) | None => "0"%string end in
  mkAnnouncement height ("Block " ++ uint_to_string height ++ " was accepted. Reward: " ++ notify_format_atomic reward ++ " VIRE.")%string.
Definition mined_since (previous : Z) (address : string) (block : JsonTree) : bool :=
  (default 0 (get_u64 "height" block) >? previous) && bool_decide (default ""%string (get_str "miner_address" block) = address).

(** [enabled]: the setting; the notification, the event and the sound are one
    announcement. *)
Definition maybe_notify_mined_blocks (enabled : bool) (height : option Z) (recent_blocks : list JsonTree) (wallet : option string)
    (st : NotifyState) : list Announcement * NotifyState :=
  if negb enabled then ([], st) else
  match height with
  | None => ([], st)
  | Some current =>
      match wallet with
      | None => ([], mkNotify (Some current) true)
      | Some address =>
          if negb (nt_baseline_ready st) then ([], mkNotify (Some current) true) else
          let previous := default current (nt_last_height st) in
          if current <=? previous then ([], mkNotify (Some current) true) else
          (announce <$> filter (λ b, mined_since previous address b = true) recent_blocks, mkNotify (Some current) true)
      end
  end.

Definition pair_cmp (p q : Z * Z) : comparison := then_with (p.1 ?= q.1) (p.2 ?= q.2).
(** The polls of a run by height and recent blocks, and what each announces. *)
Fixpoint announced_run (address : string) (polls : list (Z * list JsonTree)) (st : NotifyState) : list (list Announcement) :=
  match polls with
  | [] => []
  | (height, blocks) :: polls =>
      let '(l, st) := maybe_notify_mined_blocks true (Some height) blocks (Some address) st in
      l :: announced_run address polls st
  end.
Definition block_height (b : JsonTree) : Z := default 0 (get_u64 "height" b).
(** A status that never goes back, and an index not ahead of it that lists each height
    once. *)
Definition well_listed (polls : list (Z * list JsonTree)) : Prop :=
  StronglySorted (λ p q, p.1 <= q.1) polls ∧
  Forall (λ p, NoDup (block_height <$> p.2) ∧ Forall (λ b, block_height b <= p.1) p.2) polls.

(** The snapshot kept after a run of polls, and the snapshots of the polls whose
    [/status] answered. *)
Definition snapshot_kept (parse_url : string → app_result Url) (polls : list SnapshotEnv) : option NetworkSnapshot :=
  foldl (λ kept env, (network_snapshot parse_url env kept).2) None polls.
Definition snapshots_answered (parse_url : string → app_result Url) (polls : list SnapshotEnv) : list NetworkSnapshot :=
  omap (λ env, match sn_get env "/status" with Ok status => Some (full_snapshot parse_url env status) | Err _ => None end) polls.

(** ** Theory: requests *)

(** The first [left] attempts: the answer is that of the first attempt that succeeds or
    fails for good, and of the last one otherwise. *)
Lemma request_loop_spec (once : nat → OnceOutcome) left attempt :
  (0 < left)%nat →
  ∃ k, (k < left)%nat ∧ request_loop left attempt once = request_once (once (attempt + k)%nat) ∧
    (∀ j, (j < k)%nat → ∃ m, request_once (once (attempt + j)%nat) = Err m ∧ retryable m = true) ∧
    (S k = left ∨ ∀ m, request_once (once (attempt + k)%nat) = Err m → retryable m = false).
Proof.
  revert attempt. induction left as [|left IH]; intros attempt Hl; [lia|]. cbn [request_loop].
  destruct (request_once (once attempt)) as [v|m] eqn:E.
  { exists 0%nat. rewrite Nat.add_0_r, E. naive_solver lia. }
  destruct (retryable m) eqn:Hm; cbn [negb orb].
  - case_bool_decide as Hleft.
    + exists 0%nat. rewrite Nat.add_0_r, E. naive_solver lia.
    + destruct (IH (S attempt) ltac:(lia)) as (k & Hk & Hr & Hbefore & Hlast).
      exists (S k). rewrite <- Nat.add_succ_comm. repeat split; [lia|done| |naive_solver lia].
      intros [|j] Hj; [rewrite Nat.add_0_r; eauto|]. rewrite <- Nat.add_succ_comm. apply Hbefore. lia.
  - exists 0%nat. rewrite Nat.add_0_r, E. naive_solver lia.
Qed.

Theorem request_spec remote once :
  ∃ k, (k < request_attempts remote)%nat ∧ request remote once = request_once (once k) ∧
    (∀ j, (j < k)%nat → ∃ m, request_once (once j) = Err m ∧ retryable m = true) ∧
    (S k = request_attempts remote ∨ ∀ m, request_once (once k) = Err m → retryable m = false).
Proof.
  unfold request, request_attempts, MAX_STATUS_ATTEMPTS. apply (request_loop_spec once _ 0). destruct remote; lia.
Qed.

(** ** Theory: the lists shown *)

#[local] Instance opt_cmp_total : TotalCmp opt_cmp.
Proof.
  split.
  - intros [x|] [y|]; cbn; auto using Z.compare_antisym.
  - intros [x|] [y|] [z|]; cbn; try done. rewrite !Z.compare_le_iff. lia.
Qed.

(** Comparing by a key, either way round. *)
Lemma total_cmp_on {A B} (cmp : B → B → comparison) (f : A → B) `{!TotalCmp cmp} : TotalCmp (λ x y, cmp (f y) (f x)).
Proof. split; intros; [apply (cmp_opp cmp) | by eapply (cmp_le_trans cmp)]. Qed.

#[local] Instance pair_cmp_total : TotalCmp pair_cmp.
Proof.
  unfold pair_cmp, then_with. split.
  - intros [a b] [c d]; cbn. rewrite (Z.compare_antisym a c), (Z.compare_antisym b d). by destruct (a ?= c).
  - intros [a b] [c d] [e f]; cbn.
    destruct (Z.compare_spec a c), (Z.compare_spec c e), (Z.compare_spec a e); try done; try lia; subst; rewrite !Z.compare_le_iff; lia.
Qed.
#[local] Instance by_height_desc_total : TotalCmp by_height_desc := total_cmp_on opt_cmp (get_u64 "height").
#[local] Instance by_position_desc_total : TotalCmp by_position_desc := total_cmp_on pair_cmp position_of.

(** The first [n] of a sorted list: at most [n], in order, and what is left out comes
    after all of them. *)
Lemma take_sort_by {A} (cmp : A → A → comparison) `{!TotalCmp cmp} n l :
  (length (take n (sort_by cmp l)) <= n)%nat ∧ StronglySorted (cmp_le cmp) (take n (sort_by cmp l)) ∧
  ∃ rest, take n (sort_by cmp l) ++ rest ≡ₚ l ∧
    (∀ x y, x ∈ take n (sort_by cmp l) → y ∈ rest → cmp_le cmp x y) ∧ (length l <= n → rest = [])%nat.
Proof.
  pose proof (sort_by_sorted cmp l) as Hs. rewrite <- (take_drop n (sort_by cmp l)) in Hs.
  apply StronglySorted_app in Hs as (Hle & Ht & _).
  split; [rewrite length_take; lia|]. split; [done|]. exists (drop n (sort_by cmp l)).
  rewrite take_drop. split; [apply sort_by_perm|]. split; [intros; by apply Hle|].
  intros ?. apply drop_ge. by rewrite sort_by_length.
Qed.

Theorem recent_blocks_newest index_data :
  let listed := map_block <$> default [] (get_array "recent_blocks" index_data) in
  let shown := recent_blocks_of index_data in
  (length shown <= 12)%nat ∧ StronglySorted (cmp_le by_height_desc) shown ∧
  ∃ rest, shown ++ rest ≡ₚ listed ∧ (∀ x y, x ∈ shown → y ∈ rest → cmp_le by_height_desc x y) ∧ (length listed <= 12 → rest = [])%nat.
Proof. apply take_sort_by, _. Qed.

Theorem recent_transactions_newest index_data :
  let listed := map_tx <$> default [] (get_array "recent_transactions" index_data) in
  let shown := recent_transactions_of index_data in
  (length shown <= 20)%nat ∧ StronglySorted (cmp_le by_position_desc) shown ∧
  ∃ rest, shown ++ rest ≡ₚ listed ∧ (∀ x y, x ∈ shown → y ∈ rest → cmp_le by_position_desc x y) ∧ (length listed <= 20 → rest = [])%nat.
Proof. apply take_sort_by, _. Qed.

(** ** Theory: mined blocks announced *)

Lemma notify_poll address height blocks prev :
  Forall (λ b, block_height b <= height) blocks →
  maybe_notify_mined_blocks true (Some height) blocks (Some address) (mkNotify (Some prev) true) =
    (announce <$> filter (λ b, mined_since prev address b = true) blocks, mkNotify (Some height) true).
Proof.
  intros Hb. cbn. destruct (Z.leb_spec height prev); [|done]. f_equal. symmetry.
  enough (filter (λ b, mined_since prev address b = true) blocks = []) as -> by done.
  induction Hb as [|b blocks Hh Hb IH]; [done|]. rewrite filter_cons, decide_False; [done|].
  unfold mined_since, block_height in *. rewrite andb_true_iff, Z.gtb_ltb, Z.ltb_lt. lia.
Qed.

Lemma filter_heights_NoDup (P : JsonTree → Prop) `{∀ b, Decision (P b)} blocks :
  NoDup (block_height <$> blocks) → NoDup (block_height <$> filter P blocks).
Proof.
  induction blocks as [|b blocks IH]; [done|]. rewrite fmap_cons, NoDup_cons. intros [Hb Hn].
  rewrite filter_cons. destruct (decide (P b)); [|auto]. rewrite fmap_cons, NoDup_cons. split; [|auto].
  intros (c & Hc & [_ Hin]%list_elem_of_filter)%list_elem_of_fmap. apply Hb, list_elem_of_fmap. eauto.
Qed.

Lemma an_heights (l : list JsonTree) : an_height <$> (announce <$> l) = block_height <$> l.
Proof. rewrite <- list_fmap_compose. done. Qed.

Lemma announced_after address polls prev :
  well_listed polls → Forall (λ p, prev <= p.1) polls →
  let heights := an_height <$> concat (announced_run address polls (mkNotify (Some prev) true)) in
  NoDup heights ∧ Forall (λ h, prev < h) heights.
Proof.
  unfold well_listed. revert prev. induction polls as [|[h blocks] polls IH]; intros prev [Hs Hl] Hp; [cbn; auto using NoDup_nil_2|].
  inversion Hs as [|?? Hs' Hle]; inversion Hl as [|?? [Hn Hb] Hl']; inversion Hp as [|?? Hh Hp']; subst; cbn [fst snd] in *.
  cbn [announced_run]. rewrite notify_poll by done. cbn [concat]. cbv zeta. rewrite fmap_app, an_heights.
  destruct (IH h) as [Hnd Hgt]; [done..|]. split.
  - apply NoDup_app. split; [by apply filter_heights_NoDup|]. split; [|done].
    intros z (b & -> & [_ Hin]%list_elem_of_filter)%list_elem_of_fmap Hz.
    pose proof (proj1 (Forall_forall _ _) Hgt _ Hz). pose proof (proj1 (Forall_forall _ _) Hb _ Hin). cbn in *. lia.
  - apply Forall_app. split; [|eapply Forall_impl; [done|cbn; lia]].
    apply Forall_forall. intros z (b & -> & [Hm _]%list_elem_of_filter)%list_elem_of_fmap.
    unfold mined_since, block_height in *. apply andb_true_iff in Hm as [Hm _]. rewrite Z.gtb_ltb, Z.ltb_lt in Hm. done.
Qed.

(** A listed block of the wallet at a height above [previous]. *)
Definition wallet_block_above (previous : Z) (address : string) (b : JsonTree) : Prop :=
  get_str "miner_address" b = Some address ∧ ∃ h, get_u64 "height" b = Some h ∧ previous < h.

Lemma mined_since_iff previous address b :
  0 <= previous → address ≠ ""%string → mined_since previous address b = true ↔ wallet_block_above previous address b.
Proof.
  intros Hp Ha. unfold mined_since, wallet_block_above. rewrite andb_true_iff, bool_decide_eq_true, Z.gtb_ltb, Z.ltb_lt.
  destruct (get_u64 "height" b) as [h|], (get_str "miner_address" b) as [m|]; cbn; naive_solver lia.
Qed.

(** What a poll announces is drawn from the blocks it lists, in their order. *)
Lemma announced_at address polls i h0 blocks0 h blocks :
  well_listed polls → polls !! i = Some (h0, blocks0) → polls !! S i = Some (h, blocks) →
  announced_run address polls (mkNotify None false) !! S i = Some (announce <$> filter (λ b, mined_since h0 address b = true) blocks).
Proof.
  intros Hwell. destruct polls as [|[z0 b0] polls]; [done|].
  destruct Hwell as [Hs Hl]. inversion Hs as [|?? Hs' Hle]; inversion Hl as [|?? _ Hl']; subst. cbn.
  clear Hs Hle Hl. revert z0 b0 i h0 blocks0 h blocks.
  induction polls as [|[h1 blocks1] polls IH]; intros z0 b0 i h0 blocks0 h blocks Hi Hi'; [done|].
  inversion Hs' as [|?? Hs1 _]; inversion Hl' as [|?? [_ Hb] Hl1]; subst. cbn [fst snd] in Hb.
  cbn [announced_run]. rewrite notify_poll by done. destruct i as [|i]; cbn in *.
  - by simplify_eq.
  - apply (IH Hs1 Hl1 h1 blocks1 i _ _ _ _ Hi Hi').
Qed.

(** C30. With the notifications on and one wallet, along a run of polls whose status
    never goes back and whose index lists each height once and is not ahead of the
    status: the first poll announces nothing; each later one announces exactly the
    blocks it lists that carry the wallet's address and a height above the status
    of the poll before, in the order of the list, under their heights; and no
    height is announced twice in the whole run.  A block the index lists only after
    the status has passed its height is not among them. *)
Theorem mined_blocks_announced_once address polls :
  well_listed polls → address ≠ ""%string → Forall (λ p, 0 <= p.1) polls →
  let run := announced_run address polls (mkNotify None false) in
  NoDup (an_height <$> concat run) ∧
  (polls ≠ [] → run !! O = Some []) ∧
  ∀ i h0 blocks0 h blocks, polls !! i = Some (h0, blocks0) → polls !! S i = Some (h, blocks) →
    ∃ mine, run !! S i = Some (announce <$> mine) ∧ sublist mine blocks ∧
      (∀ b, b ∈ mine ↔ b ∈ blocks ∧ wallet_block_above h0 address b) ∧
      (∀ b, b ∈ mine → get_u64 "height" b = Some (an_height (announce b))).
Proof.
  intros Hwell Ha Hpos. cbv zeta. split_and!.
  - destruct polls as [|[h0 blocks0] polls]; [apply NoDup_nil_2|].
    destruct Hwell as [Hs Hl]. inversion Hs; inversion Hl; subst. cbn. by apply announced_after.
  - by destruct polls as [|[h0 blocks0] polls].
  - intros i h0 blocks0 h blocks Hi Hi'. eexists. split; [by eapply announced_at|].
    assert (0 <= h0) as H0 by (eapply (proj1 (Forall_lookup _ _) Hpos) in Hi; exact Hi). split_and!.
    + apply sublist_filter.
    + intros b. rewrite list_elem_of_filter, mined_since_iff by done. tauto.
    + intros b [(_ & hb & Hb & _)%mined_since_iff _]%list_elem_of_filter; [|done..]. unfold announce. by rewrite Hb.
Qed.

(** ** Theory: synchronisation *)

Lemma foldl_max_le l m (hs : list Z) : foldl Z.max l hs <= m ↔ l <= m ∧ Forall (λ h, h <= m) hs.
Proof.
  revert l. induction hs as [|h hs IH]; intros l; cbn [foldl]; [rewrite Forall_nil; tauto|].
  rewrite IH, Forall_cons, Z.max_lub_iff. tauto.
Qed.

(** Nothing but the peers tells how far a local chain is. *)
Definition only_peers (sync_gateway : JsonTree) : Prop :=
  get_u64 "network_height" sync_gateway = None ∧ get_u64 "remaining_blocks" sync_gateway = None ∧
  get_str "sync_state" sync_gateway ≠ Some "syncing"%string.
Lemma default_str_eq (o : option string) (s : string) : s ≠ ""%string → default ""%string o = s ↔ o = Some s.
Proof. destruct o; cbn; naive_solver. Qed.

(** A local chain is called synced exactly when fresh peer data with a validated height
    says no peer is ahead and no synchronisation is under way. *)
Theorem local_synced_iff status gw p2p heights now l :
  get_u64 "height" status = Some l → only_peers gw →
  sy_status (sync_view false status gw p2p heights now) = "synced"%string ↔
  p2p_active p2p now = true ∧ heights ≠ [] ∧ Forall (λ h, h <= l) heights ∧ get_bool "syncing" p2p ≠ Some true.
Proof.
  intros Hl (Hn & Hr & Hs). unfold sync_view, sync_target. rewrite Hl, Hn, Hr. cbn [sy_status andb negb fmap option_fmap option_map].
  rewrite andb_true_r. destruct (p2p_active p2p now); cbn [negb]; [|naive_solver].
  case_bool_decide as Hh; [naive_solver|].
  rewrite bool_decide_eq_false_2 by (by rewrite default_str_eq). cbn [orb].
  pose proof (foldl_max_le l l heights) as Hle. unfold saturating_sub. cbn [default].
  set (t := foldl Z.max l heights) in *. rewrite !Z.gtb_ltb.
  destruct (get_bool "syncing" p2p) as [[]|]; cbn [default from_option orb]; [naive_solver|..]; unfold id;
    destruct (Z.ltb_spec l t), (Z.ltb_spec 0 (Z.max (t - l) 0)); cbn [andb]; try lia.
  1, 3: split; [done|]; intros (_ & _ & Hall & _); enough (t <= l) by lia; apply Hle; done.
  all: split; [|done]; intros _; repeat split; [done| |done]; apply Hle; lia.
Qed.

(** A node without a chain is called synced beside peers that have one. *)
Theorem chainless_shown_synced status gw p2p heights now :
  get_u64 "height" status = None → only_peers gw → p2p_active p2p now = true → heights ≠ [] → get_bool "syncing" p2p ≠ Some true →
  sy_status (sync_view false status gw p2p heights now) = "synced"%string.
Proof.
  intros Hl (Hn & Hr & Hs) Ha Hh Hb. unfold sync_view, sync_target. rewrite Hl, Hn, Hr, Ha. cbn.
  rewrite (bool_decide_eq_false_2 (heights = [])) by done. rewrite bool_decide_eq_false_2 by (by rewrite default_str_eq).
  by destruct (get_bool "syncing" p2p) as [[]|].
Qed.

(** ** Theory: the last good snapshot *)

Lemma network_snapshot_kept parse_url env kept :
  (network_snapshot parse_url env kept).2 =
    match sn_get env "/status" with Ok status => Some (full_snapshot parse_url env status) | Err _ => kept end.
Proof. unfold network_snapshot. destruct (sn_get env "/status"); [done|]. by destruct (sn_health env), kept. Qed.

Lemma omap_app_one {A B} (f : A → option B) l x : omap f (l ++ [x]) = omap f l ++ match f x with Some y => [y] | None => [] end.
Proof. rewrite omap_app. cbn. by destruct (f x). Qed.

Lemma snapshot_kept_last parse_url polls : snapshot_kept parse_url polls = last (snapshots_answered parse_url polls).
Proof.
  induction polls as [|env polls IH] using rev_ind; [done|].
  unfold snapshot_kept, snapshots_answered in *. rewrite foldl_app, omap_app_one. cbn [foldl].
  rewrite network_snapshot_kept, IH. destruct (sn_get env "/status"); [by rewrite last_snoc|by rewrite app_nil_r].
Qed.

(** Whatever the gateway does, a chain that is shown is the one the last [/status] to
    answer reported, a gateway is shown online exactly when [/status] or [/health]
    answers, and old data is always marked as degraded. *)
Theorem shown_chain_was_reported parse_url polls env :
  let shown := (network_snapshot parse_url env (snapshot_kept parse_url polls)).1 in
  (nw_online shown = true ↔ is_ok (sn_get env "/status") = true ∨ sn_health env = true) ∧
  (nw_degraded shown = true ↔ is_ok (sn_get env "/status") = false ∧ sn_health env = true) ∧
  ∀ h, nw_height shown = Some h →
    ∃ good, last (snapshots_answered parse_url (polls ++ [env])) = Some good ∧ nw_height good = Some h ∧
      nw_tip_hash shown = nw_tip_hash good ∧ nw_balance_atomic shown = nw_balance_atomic good ∧
      nw_recent_blocks shown = nw_recent_blocks good ∧ nw_recent_transactions shown = nw_recent_transactions good.
Proof.
  cbv zeta. rewrite snapshot_kept_last. unfold snapshots_answered. rewrite omap_app_one.
  unfold network_snapshot. destruct (sn_get env "/status") as [status|err] eqn:E; cbn [is_ok].
  - rewrite last_snoc. cbn [fst]. split; [naive_solver|]. split; [naive_solver|]. eauto 10.
  - rewrite app_nil_r. destruct (sn_health env); [|cbn; naive_solver].
    destruct (last _) as [good|]; cbn; split; [naive_solver| |naive_solver|]; (split; [naive_solver|]); [eauto 10|done].
Qed.

(** ** Theory: the miner shown *)

(** The metrics read are the newest. *)
Lemma fresher_foldl cs best t v :
  foldl fresher best cs = Some (t, v) → (best = Some (t, v) ∨ MetricsAt t v ∈ cs) ∧
    (∀ t' v', best = Some (t', v') ∨ MetricsAt t' v' ∈ cs → t' <= t).
Proof.
  revert best. induction cs as [|c cs IH]; intros best; cbn [foldl].
  { intros ->. split; [by left|]. intros t' v' [[= -> ->]|[]%not_elem_of_nil]. lia. }
  intros [Hin Hmax]%IH. destruct c as [|m w]; cbn [fresher] in *.
  { split; [set_solver|]. intros t' v' [?|[[=]|?]%elem_of_cons]; eapply Hmax; eauto. }
  assert (∀ t' v', best = Some (t', v') ∨ MetricsAt t' v' ∈ MetricsAt m w :: cs → t' <= t) as Hle.
  { intros t' v' [->|[[= -> ->]|Ht]%elem_of_cons].
    - destruct (Z.leb_spec t' m) as [Hm|Hm]; [|by apply (Hmax t' v'); left].
      pose proof (Hmax m w (or_introl eq_refl)). lia.
    - destruct best as [[t0 v0]|]; [|apply (Hmax m w); by left].
      destruct (Z.leb_spec t0 m) as [Hm|Hm]; [apply (Hmax m w); by left|].
      pose proof (Hmax t0 v0 (or_introl eq_refl)). lia.
    - apply (Hmax t' v'). by right. }
  split; [|done]. destruct best as [[t0 v0]|]; [destruct (t0 <=? m)|]; set_solver.
Qed.

Theorem read_miner_metrics_newest cs v :
  read_miner_metrics cs = Some v → ∃ t, MetricsAt t v ∈ cs ∧ ∀ t' v', MetricsAt t' v' ∈ cs → t' <= t.
Proof.
  unfold read_miner_metrics. intros ([t w] & E & ->)%fmap_Some. apply fresher_foldl in E as [[|Hin] Hmax]; [done|].
  exists t. split; [done|]. intros t' w' Ht. eapply Hmax. by right.
Qed.

(** The metrics the application itself writes: after a stop no miner is shown, and a
    start that failed is shown as a running miner for three minutes. *)
Theorem miner_shown parse_url env status cs word backend t :
  sn_metrics env = cs → sn_miner_managed env = false → 0 <= t <= umax 64 →
  read_miner_metrics cs = Some (metrics_json word backend t) →
  let shown := full_snapshot parse_url env status in
  (nw_miner_running shown = true ↔ word ≠ "stopped"%string ∧ word ≠ ""%string ∧ sn_now env - t <= 180) ∧
  nw_miner_status shown = Some (if nw_miner_running shown then word else "stopped"%string).
Proof.
  intros <- Hm Ht Hr. cbv zeta. cbn [nw_miner_running nw_miner_status full_snapshot]. unfold full_snapshot. cbn [nw_miner_running nw_miner_status].
  rewrite Hm, Hr. cbn [orb].
  assert (metrics_fresh (Some (metrics_json word backend t)) (sn_now env) = true ↔
    word ≠ "stopped"%string ∧ word ≠ ""%string ∧ sn_now env - t <= 180) as Hf.
  { unfold metrics_fresh. change (Some (metrics_json word backend t) ≫= get_str "status") with (Some word).
    change (Some (metrics_json word backend t) ≫= get_u64 "updated_at_unix_seconds") with (as_u64 (JNumber t)).
    assert (as_u64 (JNumber t) = Some t) as -> by (cbn -[umax]; by rewrite (proj2 (Z.leb_le 0 t)), (proj2 (Z.leb_le t _)) by lia).
    cbn [default from_option]. unfold saturating_sub, id. rewrite andb_true_iff, negb_true_iff, bool_decide_eq_false, Z.leb_le.
    rewrite !elem_of_cons, elem_of_nil. split; [intros [Hn ?]|intros (? & ? & ?); split; [|lia]]; [|naive_solver].
    split_and!; [naive_solver..|lia]. }
  split; [done|]. by destruct (metrics_fresh _ _).
Qed.

(** A start that failed for want of the binary is shown as a running miner. *)
Theorem failed_start_shown_running parse_url process plan address options w e :
  miner_plan (pe_settings process) address options = Ok plan → start_prepared process plan →
  managed_process_running process 0 "miner" w = false → pe_binary process = Err e → 0 <= pe_clock process 1 <= umax 64 →
  ∃ w' metrics, start_remote_miner process address options w = (Err e, w') ∧ pw_metrics w' = Some metrics ∧
    ∀ env status t, sn_metrics env = [MetricsAt t metrics] → sn_miner_managed env = false → sn_now env - pe_clock process 1 <= 180 →
      nw_miner_running (full_snapshot parse_url env status) = true ∧
      nw_miner_status (full_snapshot parse_url env status) = Some "starting"%string.
Proof.
  intros Hplan Hprep Hrun Hb Hc.
  destruct (failed_start_leaves_starting _ _ _ _ _ _ Hplan Hprep Hrun Hb) as (w' & Hs & Hm & _).
  eexists w', _. split; [done|]. split; [done|]. intros env status t Hsn Hmanaged Hnow.
  destruct (miner_shown parse_url env status _ _ _ _ Hsn Hmanaged Hc eq_refl) as [Hr Hst].
  assert (nw_miner_running (full_snapshot parse_url env status) = true) as Hrunning by (apply Hr; done).
  by rewrite Hst, Hrunning.
Qed.

(** ** Theory: the explorer *)

(** The explorer takes the text of a height below 10^18 for that height, and asks the
    indexer, then the gateway, for exactly that block. *)
Lemma classify_height h : 0 <= h < 10 ^ 18 → classify_explorer_query (uint_to_string h) = (QHeight, uint_to_string h).
Proof.
  intros Hh. pose proof (uint_bytes_digits h ltac:(lia)) as Hd.
  assert (uint_bytes h ≠ []) as Hne by (intros Hnil%fmap_nil_inv; by apply dec_digits_nonempty in Hnil; [|lia]).
  unfold classify_explorer_query. rewrite str_trim_graphic by (unfold uint_to_string; rewrite str_bytes_of_bytes; by apply all_digits_graphic).
  assert (str_is_empty (uint_to_string h) = false) as ->.
  { apply str_nonempty_iff. intros He. apply Hne. rewrite <- (str_bytes_of_bytes (uint_bytes h)). unfold uint_to_string in He. rewrite He. done. }
  assert (all_chars ascii_digit (uint_to_string h) = true) as ->.
  { unfold all_chars, uint_to_string. rewrite str_bytes_of_bytes. apply forallb_is_Forall. eapply Forall_impl; [done|].
    intros b Hb. unfold ascii_digit. apply andb_true_iff. rewrite !Z.leb_le. exact Hb. }
  assert ((str_len (uint_to_string h) <=? 18) = true) as ->; [|done].
  apply Z.leb_le. unfold str_len, uint_to_string, uint_bytes. rewrite str_bytes_of_bytes, length_fmap.
  assert (length (dec_digits 39 h) <= 18)%nat by (apply dec_digits_length; lia). lia.
Qed.

Theorem explorer_height get h :
  0 <= h < 10 ^ 18 →
  let q := uint_to_string h in
  explorer_lookup get q =
    match get ("/indexer/blocks/" ++ q)%string, get ("/blocks/" ++ q)%string with
    | Ok v, _ => found "block" q "height" (with_raw (map_block v) v) ["indexer"%string] []
    | Err _, Ok v => found "block" q "height" (with_raw (map_block v) v) ["rpc"%string] []
    | Err _, Err _ => not_found q "height" ("No block found at height " ++ q ++ " on the configured gateway.") [] []
    end.
Proof.
  intros Hh. cbv zeta. unfold explorer_lookup. rewrite classify_height by done. unfold lookup_height.
  assert (parse_uint 64 (uint_to_string h) = Some h) as ->.
  { unfold parse_uint, uint_to_string. rewrite str_bytes_of_bytes. apply parse_uint_bytes_dec; unfold umax; lia. }
  cbn [default from_option first_answer]. unfold id. by repeat case_match.
Qed.

End views.
