(* ===== verification/Toy.v ===== *)
(** A concrete instance of the third-party primitives that satisfies their laws.
    It is no cryptography: it exists so that the theorems about signatures,
    addresses and proof of work can be evaluated on concrete blocks. *)

From S2P Require Import Prelude RustStd Interfaces.

(** A weighted sum of the 32-byte chunks, the number of chunks included. *)
Fixpoint toy_sum (fuel : nat) (m : bytes) : Z :=
  match fuel, m with
  | S fuel', _ :: _ => le_value (take 32 m) + 3 * toy_sum fuel' (drop 32 m)
  | _, _ => 1
  end.

Definition toy_digest (m : bytes) : bytes := le_bytes 32 (toy_sum (length m) m).

(** Nibbles, most significant first. *)
Definition toy_to_base32 (m : bytes) : list Z :=
  m ≫= λ b, [byte_Z b / 16; byte_Z b mod 16].

Fixpoint toy_from_base32 (l : list Z) : result string bytes :=
  match l with
  | hi :: lo :: l' => rest ← toy_from_base32 l'; Ok (byte_of_Z (16 * hi + lo) :: rest)
  | [] => Ok []
  | _ => Err "invalid data length"%string
  end.

Definition SEPARATOR : byte := byte_of_Z 49.
Definition toy_letter (v : Z) : byte := byte_of_Z (97 + v).
Definition toy_value (b : byte) : Z := byte_Z b - 97.

Definition toy_bech32_encode (hrp : string) (data : list Z) (v : Variant) : result string string :=
  Ok (str_of_bytes (str_bytes hrp ++ SEPARATOR :: (toy_letter <$> data))).

Definition toy_bech32_decode (s : string) : result string (string * list Z * Variant) :=
  match split_on SEPARATOR (str_bytes s) with
  | [hrp; data] => Ok (str_of_bytes hrp, toy_value <$> data, Bech32m)
  | _ => Err "missing separator"%string
  end.

Definition toy_sign (sk m : bytes) : bytes := toy_digest (sk ++ m) ++ toy_digest (m ++ sk).

Definition toy_verify (pk m sig : bytes) : result string () :=
  if bool_decide (sig = toy_sign pk m) then Ok () else Err "signature error"%string.

(** Final hashes with 32 leading zero bits. *)
Definition toy_firopow (height : Z) (hdr : bytes) (nonce : Z) : option (bytes * bytes) :=
  let d := toy_digest (le_bytes 8 nonce ++ hdr ++ le_bytes 4 height) in
  Some (replicate 4 x00 ++ take 28 d, toy_digest d).

Definition toy_firopow_verify (height : Z) (hdr mix : bytes) (nonce : Z) (boundary : bytes) : Z :=
  match toy_firopow height hdr nonce with
  | Some (f, m) => if bool_decide (m = mix) && (be_value f <=? be_value boundary) then 1 else 0
  | None => 0
  end.

#[export] Instance toy : Primitives := {|
  sha256_digest := toy_digest;
  blake3_digest m := toy_digest (x02 :: m);
  vireon_keccak256 m := toy_digest (x03 :: m);
  bech32_encode := toy_bech32_encode;
  bech32_decode := toy_bech32_decode;
  to_base32 := toy_to_base32;
  from_base32 := toy_from_base32;
  ed25519_key_check _ := Ok ();
  ed25519_public sk := sk;
  ed25519_sign := toy_sign;
  ed25519_verify := toy_verify;
  vireon_firopow_hash := toy_firopow;
  vireon_firopow_verify := toy_firopow_verify;
|}.

Lemma toy_digest_length m : length (toy_digest m) = 32%nat.
Proof. apply length_le_bytes. Qed.

Lemma toy_base32_range m : Forall (λ v, 0 <= v < 16) (toy_to_base32 m).
Proof.
  unfold toy_to_base32. induction m as [|b m IH]; simpl; [constructor|].
  pose proof (byte_Z_range b). repeat constructor; try done.
  - apply Z.div_pos; lia.
  - apply Z.div_lt_upper_bound; lia.
  - by apply Z.mod_pos_bound.
  - by apply Z.mod_pos_bound.
Qed.

Lemma toy_from_to_base32 m : toy_from_base32 (toy_to_base32 m) = Ok m.
Proof.
  induction m as [|b m IH]; [done|].
  change (toy_to_base32 (b :: m)) with (byte_Z b / 16 :: byte_Z b mod 16 :: toy_to_base32 m).
  cbn [toy_from_base32]. rewrite IH. cbn [mbind result_bind].
  rewrite <- Z.div_mod by lia. by rewrite byte_of_Z_byte.
Qed.

Lemma toy_letter_value v : 0 <= v < 16 → toy_value (toy_letter v) = v.
Proof.
  intros Hv. unfold toy_value, toy_letter. rewrite byte_Z_of_Z, Z.mod_small; lia.
Qed.

Lemma toy_letters_value l :
  Forall (λ v, 0 <= v < 16) l → toy_value <$> (toy_letter <$> l) = l.
Proof.
  induction 1 as [|v l Hv _ IH]; [done|]. rewrite !fmap_cons, IH. by rewrite toy_letter_value.
Qed.

(** Lowercase letters and the separator are graphic and canonical. *)
Lemma toy_letter_props v :
  0 <= v < 16 → graphic (toy_letter v) = true ∧ byte_lower (toy_letter v) = toy_letter v ∧
  toy_letter v ≠ SEPARATOR.
Proof.
  intros Hv. assert (byte_Z (toy_letter v) = 97 + v) as E
    by (unfold toy_letter; rewrite byte_Z_of_Z, Z.mod_small; lia).
  split_and!.
  - unfold graphic. rewrite E. apply andb_true_iff; split; apply Z.leb_le; lia.
  - unfold byte_lower. rewrite E. by rewrite (proj2 (Z.leb_gt (97 + v) 90)), andb_false_r by lia.
  - intros Hs. rewrite Hs in E. change (byte_Z SEPARATOR) with 49 in E. lia.
Qed.

Lemma length_toy_base32 m : length (toy_to_base32 m) = (2 * length m)%nat.
Proof.
  induction m as [|b m IH]; [done|].
  change (toy_to_base32 (b :: m)) with (byte_Z b / 16 :: byte_Z b mod 16 :: toy_to_base32 m).
  cbn [length]. lia.
Qed.

Lemma known_hrp_bytes hrp :
  known_hrp hrp → Forall (λ b, graphic b = true ∧ byte_lower b = b ∧ b ≠ SEPARATOR) (str_bytes hrp) ∧
  (length (str_bytes hrp) <= 5)%nat ∧ str_bytes hrp ≠ [].
Proof.
  intros [->|[->| ->]]; (split; [repeat constructor; done | split; [simpl; lia | done]]).
Qed.

#[export] Instance toy_ok : PrimitivesOk.
Proof.
  split; try (intros; apply toy_digest_length).
  - apply toy_from_to_base32.
  - intros hrp m Hhrp Hm. destruct (known_hrp_bytes hrp Hhrp) as (Hh & Hlen & Hne).
    set (data := toy_letter <$> toy_to_base32 m).
    assert (Forall (λ b, graphic b = true ∧ byte_lower b = b ∧ b ≠ SEPARATOR) data) as Hd.
    { apply Forall_fmap. eapply Forall_impl; [apply toy_base32_range|]. apply toy_letter_props. }
    set (l := str_bytes hrp ++ SEPARATOR :: data). exists (str_of_bytes l).
    assert (Forall (λ b, graphic b = true ∧ byte_lower b = b) l) as Hl.
    { apply Forall_app; split; [|constructor; [done|]];
        (eapply Forall_impl; [first [exact Hh | exact Hd]|]; naive_solver). }
    assert (∀ k, Forall (λ b, graphic b = true ∧ byte_lower b = b ∧ b ≠ SEPARATOR) k → SEPARATOR ∉ k)
      as Hsep.
    { intros k Hk Hin. rewrite Forall_forall in Hk. by destruct (Hk _ Hin) as (_ & _ & ?). }
    split_and!.
    + done.
    + cbn [bech32_decode toy]. unfold toy_bech32_decode. rewrite str_bytes_of_bytes. unfold l.
      rewrite split_on_app, split_on_no_sep by auto. rewrite str_of_bytes_bytes. unfold data.
      by rewrite toy_letters_value by apply toy_base32_range.
    + unfold is_lowercase, str_to_ascii_lowercase. apply bool_decide_eq_true.
      rewrite str_bytes_of_bytes. f_equal. clear -Hl.
      induction Hl as [|b l [_ Hb] _ IH]; [done|]. rewrite fmap_cons, Hb. by f_equal.
    + unfold str_len. rewrite str_bytes_of_bytes. unfold l, data.
      rewrite length_app. cbn [length]. rewrite length_fmap. change (to_base32 m) with (toy_to_base32 m).
      rewrite length_toy_base32. lia.
    + intros E. apply (f_equal str_bytes) in E. rewrite str_bytes_of_bytes in E. unfold l in E.
      by destruct (str_bytes hrp).
    + rewrite str_bytes_of_bytes. eapply Forall_impl; [exact Hl|]. by intros b [].
  - intros sk Hsk. done.
  - intros sk m _. change (length (toy_sign sk m) = 64%nat). unfold toy_sign.
    by rewrite length_app, !toy_digest_length.
  - intros sk m _. change (toy_verify sk m (toy_sign sk m) = Ok ()). unfold toy_verify.
    by rewrite bool_decide_eq_true_2.
  - intros h hdr n f m Hf. change (toy_firopow h hdr n = Some (f, m)) in Hf. unfold toy_firopow in Hf.
    set (d := toy_digest _) in Hf. assert (length d = 32%nat) as Hd by apply toy_digest_length.
    assert (f = replicate 4 x00 ++ take 28 d ∧ m = toy_digest d) as [-> ->] by (split; congruence).
    split; [|apply toy_digest_length]. by rewrite length_app, length_take, Hd.
  - intros h hdr mix n b. change (toy_firopow_verify h hdr mix n b = 1 ↔
      ∃ f, toy_firopow h hdr n = Some (f, mix) ∧ be_value f <= be_value b).
    unfold toy_firopow_verify.
    destruct (toy_firopow h hdr n) as [[f m]|] eqn:E; [|split; [done|by intros (? & ? & _)]].
    destruct (bool_decide (m = mix) && (be_value f <=? be_value b)) eqn:Eb; breflect.
    + split; [|done]. intros _. exists f. by subst.
    + split; [done|]. intros (f' & [= <- <-] & Hle). exfalso.
      rewrite bool_decide_eq_true_2, (proj2 (Z.leb_le _ _)) in Eb by done. done.
Qed.
