(* ===== verification/Examples.v ===== *)
(** A concrete devnet history over the toy primitives: a genesis block, a child
    block with a spend, and the chain and ledger they lead to.  The witnesses of
    the chain's theorems are instances on it. *)

From S2P Require Import Prelude RustStd Interfaces Crypto Errors Network Amount Signing Address Transaction Block Pow Consensus State Ledger Chain Genesis Toy.

(** ** Accounts and transactions *)

Definition demo_sk1 : PrivateKey := replicate 32 x07.
Definition demo_sk2 : PrivateKey := replicate 32 x09.
Definition demo_addr (sk : PrivateKey) : string :=
  Address_to_string (from_public_key_for_network (PrivateKey_public_key sk) Devnet).

Definition demo_default_tx : Transaction :=
  mkTransaction 1 0 None "" 0 0 0 None None None.

Definition demo_coinbase (height amount : Z) : Transaction :=
  unwrap_or demo_default_tx (Transaction_coinbase height (demo_addr demo_sk1) amount).

(** [sk1] pays 1000 to [sk2] with a tip of 2. *)
Definition demo_spend : Transaction :=
  unwrap_or demo_default_tx
    (Transaction_new_signed 1 1 Devnet demo_sk1 (demo_addr demo_sk2) 1000 5 2 None).

(** ** Blocks *)

Definition demo_default_block : Block :=
  mkBlock (mkBlockHeader 0 "" 0 [] [] 0 0 0 [] 0) [].

(** Fill in the mix hash the evaluation at nonce 0 yields. *)
Definition demo_seal (r : Result Block) : Block :=
  let b := unwrap_or demo_default_block r in
  let h := header b in
  match pow_result b with
  | Ok out => mkBlock (mkBlockHeader (bh_version h) (bh_network_id h) (bh_height h)
      (bh_previous_hash h) (bh_merkle_root h) (bh_base_fee_atomic h) (bh_timestamp h) (bh_nonce h)
      (mix_hash out) (bh_difficulty h)) (transactions b)
  | Err _ => b
  end.

Definition demo_genesis : Block :=
  demo_seal (Block_new Devnet 0 Hash_zero 1 1000 8 [demo_coinbase 0 1902587519]).

Definition demo_child : Block :=
  demo_seal (Block_new Devnet 1 (block_hash demo_genesis) 1 1060 8
    [demo_coinbase 1 1902587521; demo_spend]).

Definition demo_now : Z := 2000.

Definition demo_chain0 : Chain := Chain_new Devnet.
Definition demo_chain1 : Chain := (append_block demo_now demo_genesis demo_chain0).2.
Definition demo_chain2 : Chain := (append_block demo_now demo_child demo_chain1).2.

Example demo_chain_accepted :
  (append_block demo_now demo_genesis demo_chain0).1 = Ok () ∧
  (append_block demo_now demo_child demo_chain1).1 = Ok ().
Proof. split; vm_compute; reflexivity. Qed.

(** ** Facts about the concrete data, by evaluation *)

Ltac eval_wf := split; vm_compute; first [reflexivity | exact I | split; congruence].

Lemma demo_spend_wf : tx_wf demo_spend.
Proof. eval_wf. Qed.
Lemma demo_coinbase0_wf : tx_wf (demo_coinbase 0 1902587519).
Proof. eval_wf. Qed.
Lemma demo_coinbase1_wf : tx_wf (demo_coinbase 1 1902587521).
Proof. eval_wf. Qed.

Lemma demo_spend_not_coinbase : is_coinbase demo_spend = false.
Proof. vm_compute; reflexivity. Qed.

Lemma demo_genesis_txs : transactions demo_genesis = [demo_coinbase 0 1902587519].
Proof. vm_compute. reflexivity. Qed.
Lemma demo_child_txs : transactions demo_child = [demo_coinbase 1 1902587521; demo_spend].
Proof. vm_compute. reflexivity. Qed.

Lemma demo_genesis_wf : block_wf demo_genesis.
Proof. split; [eval_wf|]. rewrite demo_genesis_txs. repeat constructor; apply demo_coinbase0_wf. Qed.
Lemma demo_child_wf : block_wf demo_child.
Proof.
  split; [eval_wf|]. rewrite demo_child_txs.
  repeat (apply Forall_cons; split); [apply demo_coinbase1_wf | apply demo_spend_wf | constructor].
Qed.

(** A run whose result is [Ok] is [Ok] of something. *)
Lemma run_Ok {S E A} (m : state_result S E A) s s' :
  is_ok (m s).1 = true → (m s).2 = s' → ∃ a, m s = (Ok a, s').
Proof. destruct (m s) as [[a|e] s0]; simpl; [intros _ <-; by exists a | done]. Qed.

Lemma run_Err {S E A} (m : state_result S E A) s s' :
  is_err (m s).1 = true → (m s).2 = s' → ∃ e, m s = (Err e, s').
Proof. destruct (m s) as [[a|e] s0]; simpl; [done | intros _ <-; by exists e]. Qed.

Definition demo_state1 : LedgerState := (apply_block demo_genesis LedgerState_new).2.
Definition demo_state2 : LedgerState := (apply_block demo_child demo_state1).2.

Lemma demo_apply1 : ∃ s, apply_block demo_genesis LedgerState_new = (Ok s, demo_state1).
Proof. apply run_Ok; [vm_compute; reflexivity | reflexivity]. Qed.
Lemma demo_apply2 : ∃ s, apply_block demo_child demo_state1 = (Ok s, demo_state2).
Proof. apply run_Ok; [vm_compute; reflexivity | reflexivity]. Qed.

Lemma demo_reachable1 : reachable demo_state1.
Proof.
  destruct demo_apply1 as [s Hs].
  exact (reachable_block _ _ _ _ reachable_new demo_genesis_wf Hs).
Qed.
Lemma demo_reachable2 : reachable demo_state2.
Proof.
  destruct demo_apply2 as [s Hs].
  exact (reachable_block _ _ _ _ demo_reachable1 demo_child_wf Hs).
Qed.
Lemma demo_history2 : history [demo_genesis; demo_child] demo_state2.
Proof.
  destruct demo_apply1 as [s1 H1], demo_apply2 as [s2 H2].
  pose proof (history_snoc [] _ _ _ _ history_nil demo_genesis_wf H1) as Hh.
  exact (history_snoc _ _ _ _ _ Hh demo_child_wf H2).
Qed.

Lemma demo_append1 : append_block demo_now demo_genesis demo_chain0 = (Ok (), demo_chain1).
Proof.
  destruct (run_Ok (append_block demo_now demo_genesis) demo_chain0 demo_chain1) as [[] H];
    [vm_compute; reflexivity | reflexivity | exact H].
Qed.
Lemma demo_append2 : append_block demo_now demo_child demo_chain1 = (Ok (), demo_chain2).
Proof.
  destruct (run_Ok (append_block demo_now demo_child) demo_chain1 demo_chain2) as [[] H];
    [vm_compute; reflexivity | reflexivity | exact H].
Qed.
Lemma demo_chain1_reachable : chain_reachable Devnet demo_chain1.
Proof. exact (chain_reachable_append _ _ _ _ _ (chain_reachable_new _) demo_genesis_wf demo_append1). Qed.
Lemma demo_chain2_reachable : chain_reachable Devnet demo_chain2.
Proof. exact (chain_reachable_append _ _ _ _ _ demo_chain1_reachable demo_child_wf demo_append2). Qed.

(** ** Witnesses *)

Lemma supply_conservation_witness :
  reachable demo_state2 ∧
  total (balances demo_state2) + total_burned_fees demo_state2 = emitted_supply demo_state2.
Proof. exact (conj demo_reachable2 (proj1 (supply_conservation _ demo_reachable2))). Defined.

Lemma apply_block_iff_witness : ∃ s, apply_block demo_child demo_state1 = (Ok s, demo_state2) ∧
  ∃ st1 cb, acceptable demo_state1 demo_child st1 ∧ head (transactions demo_child) = Some cb ∧
    (tx_hash_hex cb ∉ applied_transaction_hashes st1) ∧
    s = block_summary demo_child ∧ demo_state2 = mint_and_record demo_child cb st1.
Proof.
  destruct demo_apply2 as [s Hs].
  exact (ex_intro _ s (conj Hs (proj1 (apply_block_iff _ _ _ _ demo_reachable1 demo_child_wf) Hs))).
Defined.

Lemma demo_ok1 : ledger_ok demo_state1.
Proof. exact (inv_ok _ (reachable_inv _ demo_reachable1)). Qed.

Definition demo_spent : LedgerState := (apply_transaction demo_spend 1 demo_state1).2.
Lemma demo_spend_applies :
  ∃ s, apply_transaction demo_spend 1 demo_state1 = (Ok s, demo_spent).
Proof. apply run_Ok; [vm_compute; reflexivity | reflexivity]. Qed.

Lemma apply_transaction_spend_witness :
  ∃ s sender, apply_transaction demo_spend 1 demo_state1 = (Ok s, demo_spent) ∧
    spendable demo_state1 1 sender demo_spend.
Proof.
  destruct demo_spend_applies as [s Hs].
  destruct (proj1 (apply_transaction_spend _ demo_spend 1 s _ demo_ok1 demo_spend_wf
    ltac:(lia) demo_spend_not_coinbase) Hs) as (sender & Hsp & _).
  exact (ex_intro _ s (ex_intro _ sender (conj Hs Hsp))).
Defined.

(** The same spend again: the ledger rejects it and stays as it was. *)
Definition demo_again : LedgerState := (apply_transaction demo_spend 1 demo_state2).2.
Lemma demo_again_fails : ∃ e, apply_transaction demo_spend 1 demo_state2 = (Err e, demo_again).
Proof. apply run_Err; [vm_compute; reflexivity | reflexivity]. Qed.

Lemma apply_transaction_atomic_witness : demo_again = demo_state2.
Proof.
  destruct demo_again_fails as [e He].
  refine (apply_transaction_atomic demo_state2 demo_spend 1 e demo_again
    (inv_ok _ (reachable_inv _ demo_reachable2)) demo_spend_wf ltac:(lia) _ He).
  rewrite demo_spend_not_coinbase. intros Hc. discriminate Hc.
Defined.

Lemma history_no_replay_witness :
  NoDup (tx_hash_hex <$> all_transactions [demo_genesis; demo_child]).
Proof. exact (proj1 (history_no_replay _ _ demo_spend 1 demo_history2)). Defined.

Lemma history_nonces_witness :
  nonces_of (demo_addr demo_sk1) (all_transactions [demo_genesis; demo_child]) = [1] ∧
  next_nonce_of demo_state2 (demo_addr demo_sk1) = 2.
Proof.
  split; [vm_compute; reflexivity|].
  refine (eq_trans (proj2 (history_nonces _ _ (demo_addr demo_sk1) demo_history2)) _).
  vm_compute; reflexivity.
Defined.

Lemma apply_block_balances_witness :
  balance_of demo_state2 (demo_addr demo_sk2) =
  balance_of demo_state1 (demo_addr demo_sk2) + 1000.
Proof.
  destruct demo_apply2 as [s Hs].
  refine (eq_trans (apply_block_balances _ _ _ _ (demo_addr demo_sk2) demo_reachable1 demo_child_wf Hs) _).
  vm_compute; reflexivity.
Defined.

(** Applying the child a second time: wrong height, nothing changes. *)
Definition demo_twice : LedgerState := (apply_block demo_child demo_state2).2.
Lemma demo_twice_fails : ∃ e, apply_block demo_child demo_state2 = (Err e, demo_twice).
Proof. apply run_Err; [vm_compute; reflexivity | reflexivity]. Qed.

Lemma apply_block_error_witness :
  ∃ e, apply_block demo_child demo_state2 = (Err e, demo_twice) ∧
  (demo_twice = demo_state2 ∨
   ∃ cb st1, validate_block_against_state demo_state2 demo_child = Ok (block_summary demo_child) ∧
     acceptable demo_state2 demo_child st1 ∧ head (transactions demo_child) = Some cb ∧
     tx_hash_hex cb ∈ applied_transaction_hashes st1 ∧
     e = DuplicateTransactionHash (tx_hash_hex cb) ∧ demo_twice = st1).
Proof.
  destruct demo_twice_fails as [e He].
  exact (ex_intro _ e (conj He (apply_block_error _ _ _ _ demo_reachable2 demo_child_wf He))).
Defined.

(** *** Chains *)

Lemma demo_validates :
  validate_next_block demo_now Devnet [demo_genesis] (Some demo_genesis) demo_child 1902587519 = Ok ().
Proof. vm_compute; reflexivity. Qed.

Lemma validate_next_block_iff_witness :
  block_wf demo_child ∧
  valid_next_block demo_now Devnet [demo_genesis] (Some demo_genesis) demo_child 1902587519.
Proof.
  exact (conj demo_child_wf
    (proj1 (validate_next_block_iff _ _ _ _ _ _ demo_child_wf) demo_validates)).
Defined.

Lemma append_block_iff_witness :
  chain_reachable Devnet demo_chain1 ∧
  valid_next_block demo_now Devnet (ch_blocks demo_chain1) (last (ch_blocks demo_chain1)) demo_child
    (emitted_supply (ch_state demo_chain1)).
Proof.
  exact (conj demo_chain1_reachable
    (proj1 (proj1 (append_block_iff _ _ _ _ _ demo_chain1_reachable demo_child_wf) demo_append2))).
Defined.

Lemma chain_wellformed_witness :
  chain_reachable Devnet demo_chain2 ∧ history (ch_blocks demo_chain2) (ch_state demo_chain2).
Proof.
  exact (conj demo_chain2_reachable (proj1 (chain_wellformed _ _ demo_chain2_reachable))).
Defined.

Definition demo_chain_bad : Chain := (append_block demo_now demo_child demo_chain2).2.
Lemma demo_append_fails :
  ∃ e, append_block demo_now demo_child demo_chain2 = (Err e, demo_chain_bad).
Proof. apply run_Err; [vm_compute; reflexivity | reflexivity]. Qed.

Lemma append_block_error_witness :
  ∃ e, append_block demo_now demo_child demo_chain2 = (Err e, demo_chain_bad) ∧
  (demo_chain_bad = demo_chain2 ∨
   ∃ cb st1, head (transactions demo_child) = Some cb ∧ e = DuplicateTransactionHash (tx_hash_hex cb) ∧
     spends (bh_base_fee_atomic (header demo_child)) (ch_state demo_chain2)
       (drop 1 (transactions demo_child)) st1 ∧
     demo_chain_bad = mkChain Devnet (ch_blocks demo_chain2) st1).
Proof.
  destruct demo_append_fails as [e He].
  exact (ex_intro _ e (conj He (append_block_error _ _ _ _ _ _ demo_chain2_reachable demo_child_wf He))).
Defined.

Definition demo_input (now : Z) : list (Z * Block) := [(now, demo_genesis); (now, demo_child)].
Definition demo_replayed : Chain := unwrap_or demo_chain0 (from_blocks Devnet (demo_input 2000)).

Lemma demo_from_blocks : from_blocks Devnet (demo_input 2000) = Ok demo_replayed.
Proof.
  assert (is_ok (from_blocks Devnet (demo_input 2000)) = true) as H by (vm_compute; reflexivity).
  unfold demo_replayed. apply is_ok_true in H as [c H]. rewrite H. reflexivity.
Qed.

Lemma demo_input_wf now : Forall block_wf (demo_input now).*2.
Proof.
  apply Forall_cons; split; [exact demo_genesis_wf|].
  apply Forall_cons; split; [exact demo_child_wf | apply Forall_nil; exact I].
Qed.

Lemma demo_input_later now now' : now <= now' →
  Forall2 (λ p q, p.1 <= q.1 ∧ p.2 = q.2) (demo_input now) (demo_input now').
Proof. intros Hle. repeat constructor; exact Hle. Qed.

Lemma from_blocks_replay_witness :
  from_blocks Devnet (demo_input 5000) = Ok demo_replayed.
Proof.
  exact (proj1 (from_blocks_replay Devnet (demo_input 2000) (demo_input 5000) demo_replayed
    (demo_input_wf 2000) (demo_input_later 2000 5000 ltac:(lia)) demo_from_blocks)).
Defined.

Lemma select_fork_spec_witness :
  select_fork [demo_genesis] [demo_genesis; demo_child] = Ok AdoptCandidate ∧
  select_fork [demo_genesis; demo_child] [demo_genesis] = Ok KeepCurrent.
Proof.
  assert (select_fork [demo_genesis] [demo_genesis; demo_child] = Ok AdoptCandidate) as H
    by (vm_compute; reflexivity).
  refine (conj H (proj2 (proj1 (select_fork_spec [demo_genesis] [demo_genesis; demo_child]
    demo_genesis demo_genesis eq_refl eq_refl _ _ _) eq_refl) H)).
  - repeat constructor; vm_compute; congruence.
  - vm_compute; congruence.
  - vm_compute; congruence.
Defined.

(** *** Transactions and keys *)

Lemma demo_spend_verifies : Transaction_verify demo_spend = Ok ().
Proof. vm_compute; reflexivity. Qed.

Lemma Transaction_verify_sound_witness : ∃ from pk sig n, authorized demo_spend from pk sig n.
Proof. exact (proj2 (Transaction_verify_sound _ demo_spend_not_coinbase demo_spend_verifies)). Defined.

Definition demo_address2 : Address :=
  from_public_key_for_network (PrivateKey_public_key demo_sk2) Devnet.

Lemma demo_pk2_length : length (PrivateKey_public_key demo_sk2) = PublicKey_SIZE.
Proof. reflexivity. Qed.
Lemma demo_address2_wf : address_wf demo_address2.
Proof. exact (from_public_key_wf _ Devnet demo_pk2_length). Qed.

Lemma new_signed_verifies_witness :
  ∃ tx, Transaction_new_signed 1 1 Devnet demo_sk1 (Address_to_string demo_address2) 1000 5 2 None
    = Ok tx ∧ Transaction_verify tx = Ok ().
Proof.
  destruct (new_signed_verifies 1 1 Devnet demo_sk1 demo_address2 1000 5 2 None eq_refl
    demo_address2_wf eq_refl ltac:(lia) ltac:(vm_compute; congruence) ltac:(lia))
    as (tx & H1 & H2 & _).
  exact (ex_intro _ tx (conj H1 H2)).
Defined.

Lemma encode_injective_witness :
  tx_wf demo_spend ∧ (encode demo_spend = encode (demo_coinbase 0 1902587519) ↔
    demo_spend = demo_coinbase 0 1902587519).
Proof.
  exact (conj demo_spend_wf (proj1 (encode_injective _ _ demo_spend_wf demo_coinbase0_wf))).
Defined.

Lemma tx_hash_binding_witness :
  tx_hash demo_spend = tx_hash demo_spend ∧
  (demo_spend = demo_spend ∨ ∃ x y, x ≠ y ∧ sha256 x = sha256 y).
Proof. exact (conj eq_refl (tx_hash_binding _ _ demo_spend_wf demo_spend_wf eq_refl)). Defined.

Lemma effective_fee_bounds_witness : is_coinbase demo_spend = false ∧ ∃ tip fee,
  effective_priority_fee demo_spend 4 = Ok tip ∧ effective_fee demo_spend 4 = Ok fee ∧ fee = 4 + tip.
Proof.
  split; [exact demo_spend_not_coinbase|].
  destruct (proj1 (proj2 (effective_fee_bounds demo_spend 4 demo_spend_not_coinbase
    (wf_max_fee _ demo_spend_wf) ltac:(lia) (proj1 (wf_priority_fee _ demo_spend_wf))))
    ltac:(vm_compute; congruence)) as (tip & fee & H1 & H2 & H3 & _).
  exact (ex_intro _ tip (ex_intro _ fee (conj H1 (conj H2 H3)))).
Defined.

Lemma address_roundtrip_witness :
  Address_parse (Address_to_string demo_address2) = Ok demo_address2.
Proof.
  exact (proj1 (address_roundtrip (PrivateKey_public_key demo_sk2) Devnet demo_pk2_length eq_refl)).
Defined.

(** *** Blocks and proof of work *)

Definition demo_txs : list Transaction := [demo_coinbase 1 1902587521; demo_spend].

Lemma demo_txs_distinct : NoDup (tx_hash <$> demo_txs).
Proof. apply (bool_decide_unpack _). vm_compute; exact I. Qed.

Lemma merkle_root_binds_witness : ∃ r, compute_merkle_root demo_txs = Ok r ∧
  root_inputs demo_txs = [tx_hash (demo_coinbase 1 1902587521) ++ tx_hash demo_spend] ∧
  (tx_hash <$> demo_txs = tx_hash <$> demo_txs ∨
   digest_of (root_inputs demo_txs) (tx_hash <$> demo_txs) ∨ digest_of (root_inputs demo_txs) (tx_hash <$> demo_txs) ∨
   collision_among (root_inputs demo_txs ++ root_inputs demo_txs)).
Proof.
  destruct (compute_merkle_root_total demo_txs) as [r Hr]; [discriminate|].
  exact (ex_intro _ r (conj Hr (conj eq_refl (merkle_root_binds _ _ r demo_txs_distinct demo_txs_distinct Hr Hr)))).
Defined.

Lemma merkle_root_odd_duplication_witness :
  compute_merkle_root (demo_txs ++ [demo_spend; demo_spend]) = compute_merkle_root (demo_txs ++ [demo_spend]).
Proof.
  exact (proj1 (merkle_root_odd_duplication demo_txs demo_spend (ex_intro _ 1%nat eq_refl)
    ltac:(discriminate))).
Defined.

Lemma header_bytes_injective_witness :
  header_wf (header demo_child) ∧ header demo_child = header demo_child.
Proof.
  exact (conj (bwf_header _ demo_child_wf) (header_bytes_injective demo_child demo_child
    (bwf_header _ demo_child_wf) (bwf_header _ demo_child_wf) eq_refl)).
Defined.

Lemma demo_ensure_valid : ∃ v, ensure_valid demo_child = Ok v.
Proof. apply is_ok_true. vm_compute; reflexivity. Qed.

Lemma ensure_valid_iff_witness : ∃ out, pow_result demo_child = Ok out ∧
  mix_hash out = bh_mix_hash (header demo_child) ∧
  be_value (block_hash demo_child) < 2 ^ (256 - bh_difficulty (header demo_child)).
Proof.
  exact (proj1 (ensure_valid_iff demo_child (hwf_difficulty _ (bwf_header _ demo_child_wf)))
    demo_ensure_valid).
Defined.

Lemma meets_target_spec_witness :
  meets_target (block_hash demo_child) 8 = true ↔ 8 <= leading_zero_bits_be (block_hash demo_child).
Proof.
  exact (proj2 (meets_target_spec (block_hash demo_child) 8 (block_hash_wf demo_child)
    (hwf_difficulty _ (bwf_header _ demo_child_wf)))).
Defined.

Lemma mining_seed_binds_witness :
  mining_header_hash demo_child = mining_header_hash demo_child ∧
  (seed_fields (header demo_child) = seed_fields (header demo_child) ∨
   ∃ x y, x ≠ y ∧ keccak256 x = keccak256 y).
Proof.
  exact (conj eq_refl (proj1 (mining_seed_binds demo_child demo_child
    (bwf_header _ demo_child_wf) (bwf_header _ demo_child_wf)) eq_refl)).
Defined.

(** *** Consensus rules *)

Lemma total_emission_spec_witness : ∃ total, total_theoretical_emission = Some (Ok total) ∧
  emission_upto (Z.to_nat (31 * HALVING_INTERVAL_BLOCKS)) = total.
Proof.
  destruct total_emission_spec as (t & H1 & _ & _ & H2).
  refine (ex_intro _ t (conj H1 (H2 _ _))). rewrite Z2Nat.id; [reflexivity | vm_compute; congruence].
Defined.

Lemma next_base_fee_spec_witness :
  user_tx_count demo_child = 1 ∧ next_base_fee (Some demo_child) = 1.
Proof.
  assert (user_tx_count demo_child = 1) as H by (vm_compute; reflexivity).
  exact (conj H (proj1 (proj2 (next_base_fee_spec demo_child
    (hwf_base_fee _ (bwf_header _ demo_child_wf)) ltac:(rewrite demo_child_txs; discriminate))) H)).
Defined.

(** Two blocks exactly on target keep the difficulty. *)
Lemma next_difficulty_spec_witness :
  next_difficulty_for_network Devnet [demo_genesis; demo_child] 0 = 8.
Proof.
  refine (proj2 (proj2 (proj2 (next_difficulty_spec Devnet [demo_genesis; demo_child] demo_child 0
    (le_n 2) eq_refl))) _). vm_compute. split; reflexivity.
Defined.

Lemma median_time_past_spec_witness :
  median_time_past [demo_genesis; demo_child] = Some 1060 ∧
  1060 ∈ recent_times [demo_genesis; demo_child].
Proof.
  assert (median_time_past [demo_genesis; demo_child] = Some 1060) as H by (vm_compute; reflexivity).
  exact (conj H (proj1 (proj2 (median_time_past_spec [demo_genesis; demo_child]) 1060 H))).
Defined.

Lemma demo_txs_wf : Forall tx_wf demo_txs.
Proof. pose proof (bwf_txs _ demo_child_wf) as H. rewrite demo_child_txs in H. exact H. Qed.

Lemma validate_coinbase_amount_iff_witness : coinbase_rules 1 1 demo_txs 1902587521.
Proof.
  refine (proj1 (validate_coinbase_amount_iff 1 1 demo_txs 1902587521 ltac:(lia) demo_txs_wf) _).
  vm_compute; reflexivity.
Defined.

(** *** Mining *)

(** A search that tries the start nonce only. *)
Definition demo_search (height : Z) (hdr boundary : bytes) (start iterations : Z) : search_result :=
  match vireon_firopow_hash height hdr start with
  | Some (f, m) => if be_value f <=? be_value boundary then Found start f m else NotFound
  | None => SearchFailed
  end.

Lemma demo_search_sound : search_sound demo_search.
Proof.
  intros height hdr boundary start iterations nonce f m. unfold demo_search.
  destruct (vireon_firopow_hash height hdr start) as [[f' m']|] eqn:E; [|done].
  destruct (be_value f' <=? be_value boundary) eqn:El; [|done].
  intros [= <- <- <-]. split; [exact E | by apply Z.leb_le].
Qed.

Definition demo_state_c1 : LedgerState := ch_state demo_chain1.
Definition demo_spent_c1 : LedgerState := (apply_transaction demo_spend 1 demo_state_c1).2.
Lemma demo_spend_applies_c1 :
  ∃ s, apply_transaction demo_spend 1 demo_state_c1 = (Ok s, demo_spent_c1).
Proof. apply run_Ok; [vm_compute; reflexivity | reflexivity]. Qed.
Lemma demo_ok_c1 : ledger_ok demo_state_c1.
Proof.
  exact (inv_ok _ (reachable_inv _ (chain_ok_reachable _ _ (chain_reachable_ok _ _ demo_chain1_reachable)))).
Qed.

Lemma demo_spends_c1 : spends 1 demo_state_c1 [demo_spend] demo_spent_c1.
Proof.
  destruct demo_spend_applies_c1 as [s Hs].
  destruct (apply_transaction_Ok_spend _ _ 1 _ _ demo_ok_c1 demo_spend_wf ltac:(lia)
    demo_spend_not_coinbase Hs) as (sender & Hsp & _ & Heq).
  refine (spends_cons 1 _ sender _ _ _ Hsp _). rewrite <- Heq. exact (spends_nil _ _).
Qed.

Lemma demo_genesis_fee : next_base_fee (Some demo_genesis) = 1.
Proof. vm_compute; reflexivity. Qed.

Lemma demo_includable : includable Devnet demo_chain1 demo_genesis [demo_spend] demo_spent_c1.
Proof.
  split.
  - vm_compute; reflexivity.
  - apply Forall_singleton. vm_compute. congruence.
  - apply Forall_singleton. vm_compute; reflexivity.
  - apply NoDup_singleton.
  - rewrite demo_genesis_fee. exact demo_spends_c1.
Qed.

Definition demo_address : Address := unwrap_or (mkAddress Devnet []) (Address_parse (demo_addr demo_sk1)).

Lemma demo_mined : child_block_with_consensus_difficulty demo_search 1 (ch_blocks demo_chain1)
  (demo_addr demo_sk1) 1060 [demo_spend] 8 = Some (Ok demo_child).
Proof. vm_compute; reflexivity. Qed.

Lemma demo_coinbase_new :
  tx_hash_hex (demo_coinbase 1 1902587521) ∉ applied_transaction_hashes demo_spent_c1.
Proof.
  assert (bool_decide (tx_hash_hex (demo_coinbase 1 1902587521)
    ∈ applied_transaction_hashes demo_spent_c1) = false) as H by (vm_compute; reflexivity).
  exact (proj1 (bool_decide_eq_false _) H).
Qed.

Lemma child_block_accepted_witness :
  transactions demo_child = [demo_coinbase 1 1902587521; demo_spend] ∧
  append_block demo_now demo_child demo_chain1 =
    (Ok (), mkChain Devnet (ch_blocks demo_chain1 ++ [demo_child])
       (mint_and_record demo_child (demo_coinbase 1 1902587521) demo_spent_c1)).
Proof.
  refine (child_block_accepted demo_search 1 demo_now Devnet demo_chain1 demo_genesis
    (demo_addr demo_sk1) demo_address 1060 [demo_spend] 8 demo_spent_c1 demo_child
    (demo_coinbase 1 1902587521) demo_search_sound demo_chain1_reachable _ _
    (proj2 (Forall_singleton tx_wf demo_spend) demo_spend_wf) demo_includable _ _ demo_mined demo_child_wf _ _ demo_coinbase_new _ _);
    first [vm_compute; reflexivity | vm_compute; congruence].
Defined.

Lemma mine_block_correct_witness :
  ∃ b', mine_block demo_search 1 demo_child = Some b'.
Proof.
  refine (proj1 (mine_block_correct demo_search demo_child 0 demo_search_sound
    (hwf_difficulty _ (bwf_header _ demo_child_wf)) _ _)).
  - reflexivity.
  - eexists _, _. vm_compute; reflexivity.
Defined.
