(* ===== verification/ExamplesNode.v ===== *)
(** The node on the concrete devnet history: pools, submission and templates
    over the toy primitives.  The witnesses of the theorems of Mempool.v and
    Node.v are instances on it. *)

From S2P Require Import Prelude RustStd Interfaces Crypto Errors Network Amount Signing Address Transaction Block Pow Consensus State Ledger Chain Genesis NodeConfig Mempool Node Toy Examples.

Definition demo_record (received : Z) (tx : Transaction) : PendingTransactionRecord :=
  mkPending (tx_hash_string tx) received tx.
Definition demo_pool : list PendingTransactionRecord := [demo_record 1990 demo_spend].

Lemma demo_pool_wf : Forall record_wf demo_pool.
Proof. exact (proj2 (Forall_singleton record_wf (demo_record 1990 demo_spend)) demo_spend_wf). Qed.

Lemma sanitize_admits_witness :
  ∃ valid dropped st,
    sanitize_pending_transactions_with_age demo_now demo_chain1 demo_pool 3600 = Ok (valid, dropped, st) ∧
    admitted demo_now 3600 demo_chain1 valid st.
Proof.
  destruct (sanitize_admits demo_now Devnet demo_chain1 demo_pool 3600 demo_chain1_reachable demo_pool_wf)
    as (v & d & st & H1 & H2 & _).
  exact (ex_intro _ v (ex_intro _ d (ex_intro _ st (conj H1 H2)))).
Defined.

Lemma select_pending_correct_witness :
  ∃ selected skipped st,
    select_pending_for_template demo_now demo_chain1 demo_pool 5 = Ok (selected, skipped) ∧
    spends (anticipated demo_chain1) (ch_state demo_chain1) (txs_of selected) st.
Proof.
  destruct (select_pending_correct demo_now Devnet demo_chain1 demo_pool 5 demo_chain1_reachable
    demo_pool_wf ltac:(lia)) as (v & d & st & H1 & H2 & _).
  exact (ex_intro _ v (ex_intro _ d (ex_intro _ st (conj H1 H2)))).
Defined.

(** The selection is not empty here. *)
Example demo_selects :
  (λ p, length p.1) <$> select_pending_for_template demo_now demo_chain1 demo_pool 5 = Ok 1%nat.
Proof. vm_compute. reflexivity. Qed.

Lemma accounts_on_network_witness : accounts_on Devnet (ch_state demo_chain2).
Proof. exact (proj1 (accounts_on_network Devnet demo_chain2 demo_chain2_reachable)). Defined.

(** ** Submission *)

Definition demo_submit : state_result (list PendingTransactionRecord) NodeError SubmitTransactionSummary :=
  submit_transaction demo_now demo_now demo_now demo_now demo_chain1 100 demo_spend.

Example demo_submit_accepted : is_ok (demo_submit []).1 = true ∧ length (demo_submit []).2 = 1%nat.
Proof. split; vm_compute; reflexivity. Qed.

Lemma submit_transaction_spec_witness :
  match (demo_submit []).1 with
  | Err _ => (demo_submit []).2 = []
  | Ok s => ∃ kept st sender,
      (demo_submit []).2 = kept ++ [mkPending (tx_hash_string demo_spend) demo_now demo_spend] ∧
      (∀ q, q ∈ kept → q ∈ []) ∧ NoDup (hashes (demo_submit []).2) ∧
      spends (anticipated demo_chain1) (ch_state demo_chain1) (txs_of (demo_submit []).2) st ∧
      tx_from demo_spend = Some sender ∧ Z.of_nat (length (demo_submit []).2) <= 100 ∧
      Z.of_nat (pending_of sender (demo_submit []).2) <= MAX_PENDING_TXS_PER_SENDER ∧
      Transaction_network demo_spend = Ok Devnet ∧
      sts_mempool_size s = Z.of_nat (length (demo_submit []).2)
  end.
Proof.
  refine (submit_transaction_spec demo_now demo_now demo_now demo_now Devnet demo_chain1 100 demo_spend
    [] _ _ demo_chain1_reachable (Forall_nil_2 _) demo_spend_wf _ (surjective_pairing _)).
  vm_compute; reflexivity.
Defined.

(** The first account fills its 32 slots; the 33rd nonce is refused. *)
Definition demo_nth_spend (nonce : Z) : Transaction :=
  unwrap_or demo_default_tx
    (Transaction_new_signed 1 nonce Devnet demo_sk1 (demo_addr demo_sk2) 1000 5 2 None).
Definition demo_full_pool : list PendingTransactionRecord :=
  Eval vm_compute in (λ i, demo_record 1990 (demo_nth_spend (Z.of_nat i))) <$> seq 1 32.
Definition demo_33rd : Transaction := Eval vm_compute in demo_nth_spend 33.

Definition demo_full_result := sanitize_pending_transactions demo_now demo_chain1 demo_full_pool.
Lemma demo_full_check :
  match demo_full_result with
  | Ok (valid, _, st) =>
      (MAX_PENDING_TXS_PER_SENDER <=? Z.of_nat (pending_of (demo_addr demo_sk1) valid)) &&
      (33 =? next_nonce_of st (demo_addr demo_sk1))
  | Err _ => false
  end = true.
Proof. vm_compute. reflexivity. Qed.

Definition opt_check {A} (f : A → bool) (o : option A) : bool :=
  match o with Some a => f a | None => true end.
Lemma opt_check_Forall {A} (f : A → bool) (P : A → Prop) o :
  (∀ a, f a = true → P a) → opt_check f o = true → opt_Forall P o.
Proof. destruct o; simpl; auto. Qed.

(** A boolean form of [tx_wf], to evaluate it on concrete pools. *)
Definition tx_wfb (tx : Transaction) : bool :=
  let len32 (s : string) := bool_decide (is_u32 (str_len s)) in
  bool_decide (is_u32 (tx_version tx)) && bool_decide (is_u64 (tx_nonce tx)) &&
  bool_decide (is_u64 (tx_amount tx)) && bool_decide (is_u64 (tx_max_fee tx)) &&
  bool_decide (is_u64 (tx_priority_fee tx)) && len32 (tx_to tx) && opt_check len32 (tx_from tx) &&
  opt_check (λ h : Hash, Nat.eqb (length h) 32) (tx_memo_hash tx) &&
  opt_check (λ k : PublicKey, Nat.eqb (length k) 32) (tx_sender_public_key tx) &&
  opt_check (λ g : Signature, Nat.eqb (length g) 64) (tx_signature tx).

Lemma tx_wfb_sound tx : tx_wfb tx = true → tx_wf tx.
Proof.
  unfold tx_wfb. cbv zeta. intros Hb. repeat (apply andb_true_iff in Hb as [Hb ?]).
  split; try (eapply bool_decide_eq_true_1; eassumption).
  - eapply opt_check_Forall; [|done]. intros a Ha. exact (bool_decide_eq_true_1 _ Ha).
  - eapply opt_check_Forall; [|done]. intros a Ha. by apply Nat.eqb_eq in Ha.
  - eapply opt_check_Forall; [|done]. intros a Ha. by apply Nat.eqb_eq in Ha.
  - eapply opt_check_Forall; [|done]. intros a Ha. by apply Nat.eqb_eq in Ha.
Qed.

Lemma records_wfb_sound l :
  forallb (λ r, tx_wfb (pr_transaction r)) l = true → Forall record_wf l.
Proof.
  intros Hb. apply Forall_forall. intros r Hr. rewrite forallb_forall in Hb.
  apply tx_wfb_sound, Hb. by apply list_elem_of_In.
Qed.

Lemma demo_full_pool_wf : Forall record_wf demo_full_pool.
Proof. apply records_wfb_sound. vm_compute. reflexivity. Qed.

Lemma demo_33_wf : tx_wf demo_33rd.
Proof. apply tx_wfb_sound. vm_compute. reflexivity. Qed.
Lemma demo_33_sender : tx_from demo_33rd = Some (demo_addr demo_sk1).
Proof. vm_compute. reflexivity. Qed.
Lemma demo_33_nonce : tx_nonce demo_33rd = 33.
Proof. reflexivity. Qed.

Lemma demo_chain1_few : few_transactions demo_chain1.
Proof. vm_compute. congruence. Qed.
Lemma demo_full_length : Z.of_nat (length demo_full_pool) = 32.
Proof. vm_compute. reflexivity. Qed.
Lemma demo_nonce_bound b :
  next_nonce_of (ch_state demo_chain1) b + Z.of_nat (length demo_full_pool) < umax 64.
Proof.
  pose proof (chain_nonce_bound Devnet demo_chain1 b (chain_reachable_ok _ _ demo_chain1_reachable)
    demo_chain1_few) as Hb.
  rewrite demo_full_length. generalize dependent (next_nonce_of (ch_state demo_chain1) b). intros z Hz. lia.
Qed.
Lemma demo_full_result_eq :
  sanitize_pending_transactions demo_now demo_chain1 demo_full_pool = demo_full_result.
Proof. unfold demo_full_result. reflexivity. Qed.

Lemma submit_at_cap_refused_witness :
  ∃ e, submit_transaction demo_now demo_now demo_now demo_now demo_chain1 100 demo_33rd
    demo_full_pool = (Err e, demo_full_pool).
Proof.
  pose proof demo_full_check as Hcheck. pose proof demo_full_result_eq as Heq.
  destruct demo_full_result as [[[valid dropped] st]|e]; [|discriminate Hcheck].
  apply andb_true_iff in Hcheck as [Hcap Hn].
  pose proof (submit_at_cap_refused demo_now demo_now demo_now demo_now Devnet demo_chain1 100
    demo_33rd demo_full_pool valid dropped st (demo_addr demo_sk1)) as Hthm.
  specialize (Hthm demo_chain1_reachable demo_full_pool_wf demo_33_wf).
  specialize (Hthm demo_nonce_bound Heq demo_33_sender).
  exact (Hthm (proj1 (Z.leb_le _ _) Hcap) (eq_trans demo_33_nonce (proj1 (Z.eqb_eq _ _) Hn))).
Defined.

(** ** Templates *)

Definition demo_config : NetworkConfig := {|
  cfg_network := Devnet; cfg_network_id := network_id Devnet; cfg_human_name := human_name Devnet;
  cfg_status_label := status_label Devnet; cfg_block_time_seconds := 60;
  cfg_difficulty_leading_zero_bits := 8; cfg_ticker := "VIRE"; cfg_address_prefix := address_prefix Devnet;
  cfg_max_supply := ""; cfg_halving_interval := 1576800; cfg_initial_block_reward := "";
  cfg_default_rpc_port := 0; cfg_default_p2p_port := 0; cfg_p2p_bind_host := "";
  cfg_p2p_listen_port := None; cfg_max_peers := 8; cfg_seed_nodes := [];
  cfg_max_mempool_transactions := 1024; cfg_genesis_config_path := "";
  cfg_genesis_review_human_name := None; cfg_genesis_approval_path := None;
  cfg_chain_magic_hex := ""; cfg_allow_mainnet_candidate := false |}.

Definition demo_miner : Address := from_public_key_for_network (PrivateKey_public_key demo_sk1) Devnet.
Lemma demo_miner_wf : address_wf demo_miner.
Proof. split; vm_compute; reflexivity. Qed.

Lemma template_accepted_witness :
  ∃ t cb selected,
    create_block_template demo_now demo_now "chain.sqlite3" demo_config demo_chain1 demo_pool
      (Address_to_string demo_miner) 10 = Ok t ∧
    transactions (bt_block t) = cb :: txs_of selected.
Proof.
  destruct (template_accepted demo_now demo_now "chain.sqlite3" demo_config Devnet demo_chain1 demo_genesis demo_pool
    demo_miner 10 demo_chain1_reachable demo_chain1_few) as (t & cb & sel & st1 & H1 & H2 & _).
  - vm_compute; reflexivity.
  - vm_compute; reflexivity.
  - reflexivity.
  - exact demo_pool_wf.
  - exact demo_miner_wf.
  - reflexivity.
  - split; vm_compute; congruence.
  - reflexivity.
  - vm_compute; congruence.
  - exact (ex_intro _ t (ex_intro _ cb (ex_intro _ sel (conj H1 H2)))).
Defined.
