(* ===== verification/ExamplesFiles.v ===== *)
(** The node's files on the concrete devnet history: a stored chain, a mined
    block, a better candidate, development mining, and the approval of a
    candidate-network genesis.  The witnesses of the theorems of NodeConfig.v,
    GenesisApproval.v, Storage.v, NodeTheory.v and NodeRun.v are instances on
    them. *)

From S2P Require Import Prelude RustStd Interfaces Crypto Errors Network Amount Signing Address Transaction Block Pow Consensus State Ledger Chain Genesis NodeConfig GenesisApproval Storage Mempool Node NodeOps NodeMine NodeTheory NodeRun Toy Examples ExamplesNode.

(** ** Configurations *)

Definition launch_config (n : Network) (difficulty : Z) (approval : option string) : NetworkConfig :=
  let p := launch_protocol_parameters n in {|
  cfg_network := n; cfg_network_id := pp_network_id p; cfg_human_name := pp_network_name p;
  cfg_status_label := pp_status_label p; cfg_block_time_seconds := pp_block_time_seconds p;
  cfg_difficulty_leading_zero_bits := difficulty; cfg_ticker := pp_ticker p;
  cfg_address_prefix := pp_address_prefix p; cfg_max_supply := uint_to_string (pp_max_supply_vire p);
  cfg_halving_interval := pp_halving_interval_blocks p;
  cfg_initial_block_reward := pp_initial_block_reward_vire p;
  cfg_default_rpc_port := pp_default_rpc_port p; cfg_default_p2p_port := pp_default_p2p_port p;
  cfg_p2p_bind_host := "0.0.0.0"; cfg_p2p_listen_port := None; cfg_max_peers := 64; cfg_seed_nodes := [];
  cfg_max_mempool_transactions := 1024; cfg_genesis_config_path := genesis_config_path n;
  cfg_genesis_review_human_name := None; cfg_genesis_approval_path := approval;
  cfg_chain_magic_hex := chain_magic_hex n; cfg_allow_mainnet_candidate := is_some approval |}.

Definition dev_config : NetworkConfig := launch_config Devnet 8 None.

Lemma dev_config_valid : NetworkConfig_validate dev_config = Ok ().
Proof. vm_compute. reflexivity. Qed.

Definition genesis_config (n : Network) (difficulty : Z) : GenesisConfig := {|
  gc_network := n; gc_network_id := network_id n; gc_human_name := human_name n;
  gc_status_label := status_label n; gc_address_prefix := address_prefix n; gc_timestamp := 1000;
  gc_difficulty_leading_zero_bits := difficulty; gc_recipient_strategy := "default_miner_address";
  gc_recipient_address := None |}.

Definition dev_files : ConfigFiles := {|
  file_network := Ok dev_config; file_genesis := Ok (genesis_config Devnet 8);
  file_approval := Err (Input "no approval") |}.

(** A stand-in for the JSON text of the payload. *)
Definition demo_json (p : GenesisReviewPayload) : NodeResult string :=
  Ok (rp_network_id p ++ rp_deterministic_genesis_hash p)%string.

Definition dev_env : NodeEnv := {|
  ne_files := dev_files; ne_deterministic := Ok demo_genesis; ne_payload_json := demo_json;
  ne_dir := {| dd_components := ["home"; default_data_root Devnet; "chain"]%string;
               dd_display := "home/chain"; dd_database := "chain.sqlite3" |} |}.

Lemma dev_config_loads : load_network_config (file_network (ne_files dev_env)) = Ok dev_config.
Proof. vm_compute. reflexivity. Qed.
Lemma dev_dir_allowed : ensure_network_storage_path (cfg_network dev_config) (ne_dir dev_env) = Ok ().
Proof. vm_compute. reflexivity. Qed.

(** ** The store *)

Definition demo_db (bs : list Block) : ChainDb := mkDb (row_of <$> bs) [].

Lemma demo_linked1 : linked [demo_genesis].
Proof. exact (chain_linked Devnet demo_chain1 demo_chain1_reachable). Qed.
Lemma demo_chain2_blocks : ch_blocks demo_chain2 = [demo_genesis; demo_child].
Proof. vm_compute. reflexivity. Qed.
Lemma demo_linked2 : linked [demo_genesis; demo_child].
Proof. rewrite <- demo_chain2_blocks. exact (chain_linked Devnet demo_chain2 demo_chain2_reachable). Qed.

Lemma demo_hashes_distinct : NoDup (block_hash <$> [demo_genesis; demo_child]).
Proof. apply (bool_decide_unpack _). vm_compute. exact I. Qed.

Lemma demo_stores1 : stores (demo_db [demo_genesis]) [demo_genesis].
Proof.
  split; [reflexivity | exact demo_linked1 | vm_compute; congruence |].
  apply (bool_decide_unpack _). vm_compute. exact I.
Qed.

Lemma demo_orphans1 : orphans_ok (orphaned (demo_db [demo_genesis])).
Proof. split; constructor. Qed.

Lemma demo_nonempty1 : [demo_genesis] ≠ [].
Proof. discriminate. Qed.
Lemma demo_nonempty2 : [demo_genesis; demo_child] ≠ [].
Proof. discriminate. Qed.

(** Evaluating an operation, without naming its result. *)
Lemma run_is_ok {S E A} (m : state_result S E A) s :
  is_ok (m s).1 = true → ∃ a s', m s = (Ok a, s').
Proof. destruct (m s) as [[a|e] s']; simpl; [by exists a, s' | done]. Qed.

Lemma run_is_err {S E A} (m : state_result S E A) s :
  is_err (m s).1 = true → ∃ e s', m s = (Err e, s').
Proof. destruct (m s) as [[a|e] s']; simpl; [done | by exists e, s']. Qed.

Definition demo_append_op : db_op () := append_validated "db" demo_child (λ _ _, Ok ()).
Lemma demo_append_op_ok : is_ok (demo_append_op (demo_db [demo_genesis])).1 = true.
Proof. vm_compute. reflexivity. Qed.

Lemma append_validated_spec_witness :
  ∃ db', demo_append_op (demo_db [demo_genesis]) = (Ok (), db') ∧
    load_blocks "db" db' = Ok [demo_genesis; demo_child].
Proof.
  destruct (run_is_ok demo_append_op _ demo_append_op_ok) as (u & db' & E). destruct u.
  exists db'. split; [exact E|]. unfold demo_append_op in E.
  pose proof (append_validated_spec "db" (demo_db [demo_genesis]) [demo_genesis] demo_child (λ _ _, Ok ()) (Ok ())
    db' demo_stores1 demo_nonempty1 E) as Hs.
  exact (proj2 (proj2 (proj2 (proj2 Hs)))).
Defined.

Definition demo_replace_op : db_op () := replace_validated 5 "db" (hash_to_hex (block_hash demo_genesis))
  [demo_genesis; demo_child] (λ _ _, Ok ()).
Lemma demo_replace_op_ok : is_ok (demo_replace_op (demo_db [demo_genesis])).1 = true.
Proof. vm_compute. reflexivity. Qed.

Lemma replace_validated_spec_witness :
  ∃ db', demo_replace_op (demo_db [demo_genesis]) = (Ok (), db') ∧
    load_blocks "db" db' = Ok [demo_genesis; demo_child].
Proof.
  destruct (run_is_ok demo_replace_op _ demo_replace_op_ok) as (u & db' & E). destruct u.
  exists db'. split; [exact E|]. unfold demo_replace_op in E.
  pose proof (replace_validated_spec 5 "db" (hash_to_hex (block_hash demo_genesis)) (demo_db [demo_genesis])
    [demo_genesis] [demo_genesis; demo_child] (λ _ _, Ok ()) (Ok ()) db' demo_stores1 demo_nonempty1
    demo_orphans1 (λ _ _, conj demo_linked2 demo_nonempty2) E) as Hs.
  exact (proj2 (proj2 (proj2 Hs))).
Defined.

(** ** The node's files *)

Definition demo_node : NodeState := mkNode (demo_db [demo_genesis]) demo_pool.

Lemma demo_chain1_blocks : ch_blocks demo_chain1 = [demo_genesis].
Proof. vm_compute. reflexivity. Qed.

Lemma dev_genesis_accepted bs : genesis_accepted dev_env dev_config bs.
Proof. intros Hr. vm_compute in Hr. discriminate Hr. Qed.

Lemma demo_node_ok : node_ok dev_env dev_config demo_node demo_chain1.
Proof.
  split.
  - exact demo_chain1_reachable.
  - rewrite demo_chain1_blocks. discriminate.
  - exact (dev_genesis_accepted _).
  - rewrite demo_chain1_blocks. exact demo_stores1.
  - exact demo_orphans1.
  - exact demo_pool_wf.
Qed.

Definition demo_clock (_ : nat) : Z := 2000.

Definition demo_submit_op : node_op SubmittedMinedBlock :=
  submit_mined_block dev_env demo_clock demo_now true demo_child.
Lemma demo_submit_op_ok : is_ok (demo_submit_op demo_node).1 = true.
Proof. vm_compute. reflexivity. Qed.

Lemma submit_mined_block_spec_witness :
  ∃ sum s' c', demo_submit_op demo_node = (Ok sum, s') ∧ append_block demo_now demo_child demo_chain1 = (Ok (), c') ∧
    node_ok dev_env dev_config s' c'.
Proof.
  destruct (run_is_ok demo_submit_op _ demo_submit_op_ok) as (sum & s' & E).
  unfold demo_submit_op in *. destruct (submit_mined_block_spec dev_env dev_config dev_config_loads dev_dir_allowed demo_clock demo_now true
    demo_child demo_node demo_chain1 (Ok sum) s' demo_node_ok demo_child_wf E) as (c' & H1 & H2 & _).
  exact (ex_intro _ sum (ex_intro _ s' (ex_intro _ c' (conj E (conj H1 H2))))).
Defined.

Lemma demo_better : better dev_env dev_config demo_chain1 demo_chain2.
Proof.
  split; rewrite ?demo_chain1_blocks, ?demo_chain2_blocks.
  - exact demo_chain2_reachable.
  - exact (dev_genesis_accepted _).
  - reflexivity.
  - discriminate.
  - vm_compute. reflexivity.
  - vm_compute. congruence.
  - repeat constructor; vm_compute; reflexivity.
Qed.

Lemma demo_clock_ok c : Forall (λ b, bh_timestamp (header b) <= 9200) (ch_blocks c) → clock_ok demo_clock (ch_blocks c).
Proof.
  intros Hf i b Hb. rewrite Forall_lookup in Hf. specialize (Hf i b Hb). unfold demo_clock, umax. lia.
Qed.
Lemma demo_clock_ok1 : clock_ok demo_clock (ch_blocks demo_chain1).
Proof. apply demo_clock_ok. rewrite demo_chain1_blocks. repeat constructor; vm_compute; congruence. Qed.
Lemma demo_clock_ok2 : clock_ok demo_clock (ch_blocks demo_chain2).
Proof. apply demo_clock_ok. rewrite demo_chain2_blocks. repeat constructor; vm_compute; congruence. Qed.

Lemma heavier_chain_adopted_witness :
  ∃ sum s', adopt_candidate_chain dev_env demo_clock demo_clock 5 2000 (Ok (ch_blocks demo_chain1)) (Ok ())
    (ch_blocks demo_chain2) demo_node = (Ok sum, s') ∧ node_ok dev_env dev_config s' demo_chain2.
Proof.
  refine (heavier_chain_adopted dev_env dev_config dev_config_loads dev_dir_allowed demo_clock demo_clock 5 2000
    (ch_blocks demo_chain1) demo_node demo_chain1 demo_chain2 demo_node_ok demo_better eq_refl demo_clock_ok1
    demo_clock_ok2 _ _).
  - rewrite demo_chain2_blocks. vm_compute. congruence.
  - rewrite demo_chain2_blocks. exact demo_hashes_distinct.
Defined.

(** The stored chain itself is no better candidate: nothing changes. *)
Definition demo_refused_op : node_op ChainReorgSummary :=
  adopt_candidate_chain dev_env demo_clock demo_clock 5 2000 (Ok [demo_genesis]) (Ok ()) [demo_genesis].
Lemma demo_refused_err : is_err (demo_refused_op demo_node).1 = true.
Proof. vm_compute. reflexivity. Qed.

Lemma adopt_candidate_chain_spec_witness : ∃ e, demo_refused_op demo_node = (Err e, demo_node).
Proof.
  destruct (run_is_err demo_refused_op _ demo_refused_err) as (e & s' & E). unfold demo_refused_op in *.
  pose proof (adopt_candidate_chain_spec dev_env dev_config dev_config_loads dev_dir_allowed demo_clock demo_clock 5
    2000 (Ok [demo_genesis]) (Ok ()) [demo_genesis] demo_node demo_chain1 (Err e) s' demo_node_ok
    (proj2 (Forall_singleton _ _) demo_genesis_wf) E) as [Hs|[Hs _]]; [|discriminate Hs].
  exists e. rewrite E, Hs. reflexivity.
Defined.

Lemma node_runs_safely_witness :
  ∃ s' c', rtc (node_step dev_env dev_config) demo_node s' ∧ node_ok dev_env dev_config s' c' ∧ improves demo_chain1 c'.
Proof.
  destruct (run_is_ok demo_submit_op _ demo_submit_op_ok) as (sum & s' & E). unfold demo_submit_op in E.
  pose proof (rtc_once _ _ (step_submit_block dev_env dev_config demo_node (ne_deterministic dev_env) demo_clock demo_now true demo_child (Ok sum) s'
    demo_child_wf E)) as Hrun.
  destruct (node_runs_safely dev_env dev_config dev_config_loads dev_dir_allowed demo_node demo_chain1 s'
    demo_node_ok Hrun) as (c' & H1 & H2).
  exact (ex_intro _ s' (ex_intro _ c' (conj Hrun (conj H1 H2)))).
Defined.

Lemma dev_gate_open : gate_open dev_env dev_config.
Proof. intros Hr. vm_compute in Hr. discriminate Hr. Qed.

Lemma mined_template_stored_witness :
  ∃ t, node_block_template dev_env demo_clock demo_now demo_now (Address_to_string demo_miner) 10 demo_node = Ok t.
Proof.
  destruct (mined_template_stored dev_env dev_config dev_config_loads dev_dir_allowed demo_clock demo_clock demo_now
    demo_now true demo_node demo_chain1 demo_miner 10 demo_node_ok dev_gate_open demo_clock_ok1 demo_clock_ok1
    demo_chain1_few) as (t & Ht & _).
  - rewrite demo_chain1_blocks. reflexivity.
  - exact demo_miner_wf.
  - reflexivity.
  - split; vm_compute; congruence.
  - reflexivity.
  - rewrite demo_chain1_blocks. vm_compute. congruence.
  - exact (ex_intro _ t Ht).
Defined.

(** ** The approval of a candidate-network genesis *)

(** A stand-in for the native search: it reports the start nonce. *)
Definition demo_search (height : Z) (hdr boundary : bytes) (start iterations : Z) : search_result :=
  match toy_firopow height hdr start with
  | Some (f, m) => Found start f m
  | None => SearchFailed
  end.

Definition cand_config : NetworkConfig := launch_config MainnetCandidate 16 (Some "approval.json"%string).
Definition cand_files : ConfigFiles := {|
  file_network := Ok cand_config; file_genesis := Ok (genesis_config MainnetCandidate 16);
  file_approval := Err (Input "no approval") |}.

Definition cand_inputs : NetworkConfig * GenesisConfig := (cand_config, genesis_config MainnetCandidate 16).
Lemma cand_inputs_load : load_matching_genesis_inputs cand_files = Ok cand_inputs.
Proof. vm_compute. reflexivity. Qed.

Definition cand_genesis : Block := Eval vm_compute in
  match deterministic_genesis_from_config demo_search 1 cand_files with
  | Some (Ok b) => b
  | _ => demo_default_block
  end.
Lemma cand_genesis_mined :
  deterministic_genesis_from_config demo_search 1 cand_files = Some (Ok cand_genesis).
Proof. vm_compute. reflexivity. Qed.

Definition cand_manifest : GenesisReviewManifest := Eval vm_compute in
  unwrap_or {| rm_payload := {| rp_review_standard_id := ""; rp_network_id := ""; rp_human_name := "";
    rp_status_label := ""; rp_address_prefix := ""; rp_block_time_seconds := 0;
    rp_difficulty_leading_zero_bits := 0; rp_chain_magic_hex := ""; rp_genesis_timestamp := 0;
    rp_recipient_strategy := ""; rp_recipient_address := None; rp_resolved_recipient_address := "";
    rp_deterministic_genesis_hash := "" |}; rm_review_hash := "" |}
  (genesis_review_manifest demo_json cand_files (Ok cand_genesis)).
Lemma cand_manifest_ok : genesis_review_manifest demo_json cand_files (Ok cand_genesis) = Ok cand_manifest.
Proof. vm_compute. reflexivity. Qed.

Lemma cand_approver : str_trim " operator " ≠ ""%string.
Proof. vm_compute. discriminate. Qed.

Lemma approve_genesis_opens_witness :
  ∃ s files', approve_genesis demo_json 7 (Ok cand_genesis) (Ok cand_genesis) "approval.json" (Ok cand_manifest) " operator " None
    cand_files = (Ok s, files') ∧ gs_approved s = true ∧ approved_start demo_json files' cand_genesis cand_manifest.
Proof.
  pose proof (approve_genesis_opens demo_json demo_search 1 7 "approval.json" cand_files cand_config
    (genesis_config MainnetCandidate 16) (Ok cand_genesis) cand_genesis cand_manifest (Ok cand_manifest) " operator "
    None cand_inputs_load eq_refl cand_genesis_mined cand_manifest_ok) as Hspec.
  destruct (approve_genesis demo_json 7 (Ok cand_genesis) (Ok cand_genesis) "approval.json" (Ok cand_manifest) " operator " None
    cand_files) as [r files'].
  destruct (proj1 Hspec (conj eq_refl cand_approver)) as (Ha & Hsame & _).
  destruct (Hsame (ex_intro _ cand_genesis (conj eq_refl eq_refl))) as (s & -> & Hs & _).
  exact (ex_intro _ s (ex_intro _ files' (conj eq_refl (conj Hs Ha)))).
Defined.

Definition cand_approval : GenesisApprovalRecord := approval_of 7 cand_manifest "operator" None.
Definition cand_approved : ConfigFiles := set_approval cand_approval cand_files.

Lemma cand_genesis_verifies : verify_existing_genesis cand_approved (Err (Input "not mined")) [cand_genesis] = Ok ().
Proof. vm_compute. reflexivity. Qed.

Lemma verify_existing_genesis_pins_witness :
  ∃ g rest, [cand_genesis] = g :: rest ∧
    pinned_genesis cand_approved cand_config (genesis_config MainnetCandidate 16) g.
Proof.
  exact (verify_existing_genesis_pins cand_approved (Err (Input "not mined")) [cand_genesis] cand_config
    (genesis_config MainnetCandidate 16) cand_inputs_load eq_refl cand_genesis_verifies).
Defined.

Definition cand_env : NodeEnv := {|
  ne_files := cand_approved; ne_deterministic := Err (Input "not mined"); ne_payload_json := demo_json;
  ne_dir := {| dd_components := [LOCAL_OPERATOR_ROOT]; dd_display := ""; dd_database := "" |} |}.
Lemma cand_config_loads : load_network_config (file_network (ne_files cand_env)) = Ok cand_config.
Proof. vm_compute. reflexivity. Qed.
Lemma cand_dir_allowed : ensure_network_storage_path (cfg_network cand_config) (ne_dir cand_env) = Ok ().
Proof. vm_compute. reflexivity. Qed.

(** The approved genesis is stored, the approval is on file, and still nothing
    loads without mining. *)
Lemma load_validated_chain_mines_witness :
  is_err (load_validated_chain cand_env demo_clock (demo_db [cand_genesis])) = true.
Proof.
  exact (load_validated_chain_mines cand_env cand_config cand_config_loads cand_dir_allowed demo_clock
    (demo_db [cand_genesis]) (Input "not mined") eq_refl eq_refl).
Defined.

(** ** Development mining *)

(** A genesis two hours less thirty seconds ahead of the clock. *)
Definition late_genesis : Block := Eval vm_compute in
  demo_seal (Block_new Devnet 0 Hash_zero 1 9170 8 [demo_coinbase 0 1902587519]).
Definition late_db : ChainDb := demo_db [late_genesis].

Definition late_chain : Chain := Eval vm_compute in
  match load_validated_chain dev_env demo_clock late_db with Ok (_, _, c) => c | Err _ => demo_chain0 end.
Lemma late_loads : load_validated_chain dev_env demo_clock late_db = Ok (dev_config, [late_genesis], late_chain).
Proof. vm_compute. reflexivity. Qed.

(** One more block of development mining. *)
Definition late_run := Eval vm_compute in
  mine_dev_loop demo_search 1 "chain.sqlite3" dev_config (demo_addr demo_sk1) 1 [late_genesis] late_genesis late_db.
Definition late_blocks : list Block := Eval vm_compute in
  match late_run with Some (Ok l, _) => l | _ => [] end.
Definition late_db' : ChainDb := Eval vm_compute in
  match late_run with Some (_, db) => db | _ => late_db end.
Lemma late_mines :
  mine_dev_loop demo_search 1 (dd_database (ne_dir dev_env)) dev_config (demo_addr demo_sk1) 1 [late_genesis]
    late_genesis late_db = Some (Ok late_blocks, late_db').
Proof. vm_compute. reflexivity. Qed.

Lemma mine_dev_blocks_strands_witness :
  ∃ e, mine_dev_blocks demo_search 1 dev_env demo_clock demo_clock (demo_addr demo_sk1) 1 late_db
    = Some (Err e, late_db').
Proof.
  destruct (mine_dev_blocks_strands demo_search 1 dev_env demo_clock demo_clock (demo_addr demo_sk1) 1 late_db
    dev_config [late_genesis] late_chain late_genesis 2000 late_blocks late_db' late_loads eq_refl
    ltac:(vm_compute; congruence) ltac:(vm_compute; congruence) ltac:(split; vm_compute; reflexivity)
    (λ _, Z.le_refl 2000) late_mines) as (e & He & _).
  exact (ex_intro _ e He).
Defined.

(** ** A node that runs: a block arrives, the pool is emptied, nothing changes; then a
    shutdown is requested. *)

#[local] Instance GenesisMarker_eq_dec : EqDecision GenesisMarker.
Proof. solve_decision. Defined.
#[local] Instance CanonicalRow_eq_dec : EqDecision CanonicalRow.
Proof. solve_decision. Defined.
#[local] Instance OrphanedRow_eq_dec : EqDecision OrphanedRow.
Proof. solve_decision. Defined.
#[local] Instance ChainDb_eq_dec : EqDecision ChainDb.
Proof. solve_decision. Defined.
#[local] Instance ChainRoot_eq_dec : EqDecision ChainRoot.
Proof. solve_decision. Defined.
#[local] Instance PendingTransactionRecord_eq_dec : EqDecision PendingTransactionRecord.
Proof. solve_decision. Defined.

Definition dev_run : RunEnv := {|
  rn_node := dev_env; rn_mined := Err (Input "not mined"); rn_mempool_dir := ne_dir dev_env; rn_runtime_dir := "home/runtime";
  rn_made := Ok (); rn_approval_path := ""; rn_pid := 7 |}.
(** The database last modified at [db] milliseconds, the pool file at [pool] nanoseconds. *)
Definition stored_at (db pool : Z) : StoredMetadata :=
  mkStored (Some (mkMetadata 4096 (Some (db * 1000000)))) None (Some (mkMetadata 100 (Some pool))).
Definition two_blocks (db pool : Z) (f : NodeFiles) : NodeFiles :=
  mkFiles (mkRoot None true (demo_db [demo_genesis; demo_child])) (nf_pool f) (stored_at db pool) (nf_runtime f) (nf_shutdown f).
Definition empty_pool (db pool : Z) (f : NodeFiles) : NodeFiles :=
  mkFiles (nf_root f) [] (stored_at db pool) (nf_runtime f) (nf_shutdown f).
Definition dev_run_files : NodeFiles := mkFiles (mkRoot None true (demo_db [demo_genesis])) demo_pool (stored_at 1 1) RuntimeAbsent true.
Definition quiet_poll (sleep : NodeFiles → NodeFiles) : Poll := {|
  po_finished := None; po_sleep := sleep; po_read := λ f, f; po_clock := λ _, 5000; po_written := StatusStored;
  po_joined := Ok (); po_removed := Ok () |}.
Definition dev_polls : list Poll := [quiet_poll (two_blocks 2 1); quiet_poll (empty_pool 2 2); quiet_poll (λ f, f)].
Definition dev_start (between : NodeFiles → NodeFiles) : NodeRun :=
  start_node dev_run (λ _, 5000) (λ _, 5000) (Ok ()) StatusStored between (Ok ()) false dev_run_files.
Definition dev_started : NodeRun := dev_start (λ f, f).
Definition dev_runs : NodeRun := node_loop dev_run dev_polls dev_started.
Definition run_view (run : NodeRun) : bool * (bool * option Z * option Z * Z * bool) :=
  let shown := λ f : NodeFiles, match nf_runtime f with
    | RuntimeWritten s => (rs_running s, rs_pid s, rs_height s, rs_pending_count s, nf_shutdown f)
    | _ => (false, None, None, 0, nf_shutdown f)
    end in
  match run with Running _ _ _ f => (true, shown f) | Ended _ f => (false, shown f) end.

Example dev_started_view : run_view dev_started = (true, (true, Some 7, Some 0, Z.of_nat (length demo_pool), false)).
Proof. vm_compute. reflexivity. Qed.
Lemma dev_runs_view : run_view dev_runs = (true, (true, Some 7, Some 1, 0, false)).
Proof. vm_compute. reflexivity. Qed.
Example dev_stopped_view :
  run_view (node_loop dev_run [quiet_poll (set_shutdown true); quiet_poll (λ f, f)] dev_runs) = (false, (false, None, Some 1, 0, false)).
Proof. vm_compute. reflexivity. Qed.

(** What changes between the first status and the first reading of the metadata stays
    unnoticed, and so does a change that leaves the length and the millisecond. *)
Example early_change_unnoticed :
  run_view (node_loop dev_run [quiet_poll (λ f, f); quiet_poll (λ f, f)] (dev_start (two_blocks 2 1)))
  = (true, (true, Some 7, Some 0, Z.of_nat (length demo_pool), false)).
Proof. vm_compute. reflexivity. Qed.
Example quick_change_unnoticed :
  run_view (node_loop dev_run [quiet_poll (two_blocks 1 1)] dev_started)
  = (true, (true, Some 7, Some 0, Z.of_nat (length demo_pool), false)).
Proof. vm_compute. reflexivity. Qed.

Lemma dev_run_length : length (readings dev_run dev_polls dev_started) = 3%nat.
Proof. vm_compute. reflexivity. Qed.

Lemma status_file_current_witness :
  ∃ rt f c p, dev_runs = Running rt c p f ∧ nf_runtime f = RuntimeWritten rt ∧ rs_running rt = true ∧ rs_pid rt = Some 7 ∧
    ∃ g now r1 k rt1, last (mkReading g g :: readings dev_run dev_polls dev_started) = Some now ∧
      chain_print_of r1 = chain_print_of now ∧ status_of_files dev_run k true (rd_content r1) = Ok rt1 ∧ rs_height rt = rs_height rt1.
Proof.
  pose proof dev_runs_view as Hview. destruct dev_runs as [rt c p f|r f] eqn:E; [|discriminate Hview].
  exists rt, f, c, p. split; [reflexivity|].
  destruct (status_file_current dev_run (λ _, 5000) (λ _, 5000) (Ok ()) StatusStored (λ f, f) (Ok ()) false dev_run_files
    dev_polls rt c p f) as (g & Hf & Hr & Hp & (now & r1 & r2 & k & rt1 & Hnow & _ & _ & Hc & _ & Hs & Hrt) & _).
  - intros x. reflexivity.
  - repeat constructor.
  - exact E.
  - split; [exact Hf|]. split; [exact Hr|]. split; [exact Hp|].
    exists g, now, r1, k, rt1. split; [exact Hnow|]. split; [exact Hc|]. split; [exact Hs|]. rewrite Hrt. reflexivity.
Defined.
