(* ===== verification/ExamplesPool.v ===== *)
(** A pool, its miners and its peers on concrete inputs: the instances of the
    theorems of Reputation.v, Nonce.v, PoolSplit.v, PoolTheory.v and
    PoolAppTheory.v. *)

From S2P Require Import Prelude RustStd Interfaces Crypto Errors Network Amount Signing Address Transaction Block Pow Consensus Genesis Reputation Nonce MinerWork Pool PoolSplit PoolTheory PoolApp PoolAppTheory Toy Examples IpAddr PoolSettings PoolViews PoolViewsTheory.

(** ** Peers *)

Definition demo_reputation_ops : list reputation_op :=
  [op_fault 100 "peer" "invalid handshake"; op_fault 110 "peer" "unsolicited block"; op_reward "other" 3 "served headers"].

Definition demo_reputation : ReputationStore := run_ops demo_reputation_ops ∅.

(** The third fault brings the score from -10 to -50 and bans for ten minutes. *)
Lemma reputation_spec_witness :
  let s' := run_op (op_fault 120 "peer" "wrong genesis hash") demo_reputation in
  score_of "peer" demo_reputation = -10 ∧ is_banned 721 "peer" demo_reputation = false ∧
  score_of "peer" s' = -50 ∧ is_banned 719 "peer" s' = true ∧ is_banned 720 "peer" s' = false ∧
  op_effect (op_fault 120 "peer" "wrong genesis hash") demo_reputation s'.
Proof.
  cbv zeta. split_and!; try (vm_compute; reflexivity).
  eapply (reputation_spec demo_reputation_ops (op_fault 120 "peer" "wrong genesis hash") ∅).
  - repeat constructor; vm_compute; congruence.
  - apply map_Forall_empty.
Defined.

(** ** Nonce leases *)

(** One thread leases a hundred nonces. *)
Definition demo_loop : machine := set_thread 0 (T_loop 100 (umax 64)) machine_new.
Definition demo_exchange : machine := set_thread 0 (T_exchange 100 (umax 64) 0) demo_loop.
Definition demo_machine : machine :=
  set_thread 0 T_idle (mkMachine (set_cursor 100 (mc_alloc demo_exchange)) (mc_threads demo_exchange) 0 [mkRange 0 100]).

Lemma demo_machine_run : rtc step machine_new demo_machine.
Proof.
  apply (rtc_l _ _ demo_loop); [exists 0%nat; apply (lease_load_window 0 machine_new 100 eq_refl); vm_compute; split; congruence|].
  apply (rtc_l _ _ demo_exchange); [exists 0%nat; apply (lease_load_cursor 0 demo_loop 100 (umax 64) eq_refl); vm_compute; congruence|].
  apply rtc_once. exists 0%nat. apply (lease_exchange_ok 0 demo_exchange 100 (umax 64) 0 100 eq_refl eq_refl). vm_compute. reflexivity.
Qed.

Lemma leases_disjoint_witness : (∃ r, r ∈ mc_leased demo_machine ∧ nr_start r <= 5 < nr_end r) ↔ 0 <= 5 < 100.
Proof. exact (proj2 (proj2 (leases_disjoint demo_machine demo_machine_run)) 5). Defined.

(** ** Accounts *)

Definition demo_share (id : Z) (a : string) (bits : Z) (hash : string) : ShareRecord :=
  mkShare id "job" a "rig" id hash bits 20 (100 + id) false.
Definition demo_shares : list ShareRecord := [demo_share 1 "alice" 2 "h1"; demo_share 2 "bob" 3 "h2"; demo_share 3 "alice" 1 "h3"].

Lemma demo_shares_nonempty : demo_shares ≠ [].
Proof. discriminate. Qed.
Lemma demo_shares_ok : Forall (λ sh, 0 <= sh_share_bits sh) demo_shares.
Proof. repeat constructor; vm_compute; congruence. Qed.
Lemma demo_size : is_u64 100.
Proof. vm_compute. split; congruence. Qed.
Lemma demo_work : total_work demo_shares <= umax 128.
Proof. vm_compute. congruence. Qed.
Lemma demo_product : 100 * total_work demo_shares <= umax 128.
Proof. vm_compute. congruence. Qed.

Lemma allocate_by_share_work_spec_witness :
  allocate_by_share_work demo_shares 100 = Ok {["alice" := 43; "bob" := 57]} ∧
  ∃ m, allocate_by_share_work demo_shares 100 = Ok m ∧ total m = 100.
Proof.
  split; [vm_compute; reflexivity|].
  destruct (allocate_by_share_work_spec demo_shares 100 demo_shares_nonempty demo_shares_ok demo_size demo_work demo_product)
    as (m & Hm & Ht & _).
  exact (ex_intro _ m (conj Hm Ht)).
Defined.

(** Two shares, a block, its maturity and a prepared payout; the second write
    fails. *)
Definition demo_pool_ops : list pool_op :=
  [op_share None (demo_share 0 "alice" 2 "h1"); op_share (Some "disk full"%string) (demo_share 0 "bob" 3 "h2");
   op_block None 7 "block7" 1000 100 50 200; op_mature None {[7 := "block7"%string]} 20 10; op_prepare None "p1" 1 300].

Definition demo_store : PoolStore := foldl (λ s o, run_pool_op (λ _, None) o s) (PoolStore_load None 1000) demo_pool_ops.

Ltac side := first [exact I | vm_compute; tauto | vm_compute; repeat split; congruence].

(** The books after each of these operations and after the block is lost again: the
    payout of its amount is cancelled, so all of it is taken back. *)
Definition demo_lost_ops : list pool_op :=
  demo_pool_ops ++ [op_cancel (Some "disk full"%string) "p1"; op_mature None {[7 := "other"%string]} 21 10].
Definition demo_lost : list PoolData * PoolStore :=
  foldl (λ e o, (e.1 ++ [st_data (run_pool_op (λ _, None) o e.2)], run_pool_op (λ _, None) o e.2))
    ([st_data (PoolStore_load None 1000)], PoolStore_load None 1000) demo_lost_ops.

Lemma demo_store_run : pool_run (λ _, None) (PoolStore_load None 1000) demo_store.
Proof.
  unfold demo_store, demo_pool_ops. cbn [foldl].
  do 5 (eapply pool_next; [|side]). apply pool_done.
Qed.

Lemma demo_lost_history : pool_booked (λ _, None) (PoolStore_load None 1000) demo_lost.1 demo_lost.2.
Proof.
  unfold demo_lost, demo_lost_ops, demo_pool_ops. cbn [app foldl fst snd].
  do 7 (eapply booked_next; [|side]). apply booked_start.
Qed.

Lemma pool_books_balance_witness :
  allotted Mature "bob" (pd_blocks (st_data demo_store)) = 0 + 660 ∧ owed Prepared "bob" (pd_payouts (st_data demo_store)) = 660 ∧
  ab_mature (account "bob" (pd_accounts (st_data demo_lost.2))) = 0 ∧ mature_balance "bob" 0 demo_lost.1 = 0.
Proof.
  split; [vm_compute; reflexivity|]. split; [vm_compute; reflexivity|].
  destruct (pool_books_balance (λ _, None) 1000 demo_lost.1 demo_lost.2 "bob" demo_lost_history) as (_ & _ & _ & Hm & _).
  split; [|rewrite <- Hm]; vm_compute; reflexivity.
Defined.

Lemma prepared_payout_cancels_witness :
  ∃ batch s', PoolStore_cancel_payout None "p1" demo_store = (Ok batch, s') ∧ po_status batch = Cancelled.
Proof.
  assert (is_Some (prepared_position "p1" (pd_payouts (st_data demo_store)))) as [[i p] Hp]
    by (vm_compute; eexists; reflexivity).
  destruct (prepared_payout_cancels (λ _, None) 1000 demo_store "p1" i p demo_store_run Hp) as (s' & Hs & _).
  eexists _, s'. split; [exact Hs | reflexivity].
Defined.

(** ** The server *)

Definition demo_pool_config : PoolConfig := {|
  pc_network_id := network_id Devnet; pc_pool_address := default ""%string (tx_to <$> head (transactions demo_child));
  pc_share_bits := 4; pc_vardiff_enabled := true; pc_min_share_bits := 2; pc_max_share_bits := 6;
  pc_target_share_seconds := 20; pc_vardiff_window_shares := 16; pc_share_network_gap_bits := 1;
  pc_pool_fee_basis_points := 100; pc_pplns_window_shares := 100; pc_block_maturity_confirmations := 10;
  pc_minimum_payout_atomic := 1; pc_job_cache_seconds := 15; pc_worker_timeout_seconds := 300;
  pc_max_workers_per_address := 16; pc_max_work_requests_per_minute := 3; pc_max_share_requests_per_minute := 100;
  pc_invalid_share_ban_threshold := 5; pc_ban_seconds := 600 |}.

Lemma demo_bits_ok : share_bits_ok demo_pool_config.
Proof. vm_compute. repeat split; congruence. Qed.
Lemma demo_network_bits : is_u8 8.
Proof. vm_compute. split; congruence. Qed.

Lemma blocks_are_shares_witness :
  0 <= worker_difficulty demo_pool_config "alice" "rig" 8 PoolData_default < 8.
Proof.
  destruct (blocks_are_shares demo_pool_config "alice" "rig" 8 PoolData_default demo_bits_ok demo_network_bits) as (H1 & H2 & _).
  change (worker_difficulty demo_pool_config "alice" "rig" 8 PoolData_default) with 4 in *. split; [exact (proj1 H1) | exact H2].
Defined.

Definition demo_admission : AdmissionState := mkAdmission ∅ ∅ 0 0.
Definition demo_requests : list admission_event :=
  [asks ["worker:alice/rig"%string] Work None 0; asks ["worker:alice/rig"%string] Work None 1; invalid ["worker:alice/rig"%string] 2;
   asks ["worker:alice/rig"%string] Share None 3; asks ["worker:alice/rig"%string] Work None 58; asks ["worker:alice/rig"%string] Work None 59].

Lemma admission_rate_witness :
  admitted_work demo_pool_config "worker:alice/rig" demo_requests demo_admission = 3 ∧
  admitted_work demo_pool_config "worker:alice/rig" demo_requests demo_admission <= 6.
Proof.
  split; [vm_compute; reflexivity|].
  apply (admission_rate demo_pool_config 0).
  - vm_compute. split; congruence.
  - apply map_Forall_empty.
  - repeat constructor; vm_compute; congruence.
Defined.

(** The template of the demonstration block, and the miner's solution of it. *)
Definition demo_template : MiningTemplate :=
  let h := header demo_child in
  mkTemplate MINING_PROTOCOL_VERSION "job" 3000 (bh_version h) (bh_network_id h) (bh_height h)
    (hash_to_hex (bh_previous_hash h)) (hash_to_hex (bh_merkle_root h)) (bh_base_fee_atomic h) (bh_timestamp h)
    (bh_difficulty h) None (bh_nonce h) (transactions demo_child).

Definition demo_worker : string := demo_addr demo_sk2.
Definition demo_solution : MiningSubmitRequest :=
  mkRequest MINING_PROTOCOL_VERSION "job" (bh_nonce (header demo_child)) (hash_to_hex (block_hash demo_child))
    (hash_to_hex (bh_mix_hash (header demo_child))) (Some demo_worker) (Some "rig"%string).

Definition demo_server : PoolState :=
  mkPoolState (PoolStore_load None 1000) {["job"%string := mkJob demo_template 1000 ∅]} (Some "job"%string) demo_admission.

Definition demo_process (upstream : MiningSubmitRequest → result PoolError MiningSubmitResponse) : app MiningSubmitResponse :=
  process_share demo_pool_config 2000 2000 2000 2000 upstream None None demo_solution demo_worker "rig".

Definition unreachable (_ : MiningSubmitRequest) : result PoolError MiningSubmitResponse := Err (Upstream "connection refused").
Lemma demo_unreachable : (demo_process unreachable demo_server).1 = Err (Upstream "connection refused").
Proof. vm_compute. reflexivity. Qed.
Lemma demo_recorded : pd_shares (st_data (ps_store (demo_process unreachable demo_server).2)) ≠ pd_shares (st_data (ps_store demo_server)).
Proof. vm_compute. discriminate. Qed.

(** An operation's result, by name. *)
Lemma run_split {S E A} (m : state_result S E A) s r : (m s).1 = r → ∃ s', m s = (r, s') ∧ (m s).2 = s'.
Proof. destruct (m s) as [r' s']; cbn; intros ->; by exists s'. Qed.

Lemma credited_share_is_work_witness :
  ∃ s', demo_process unreachable demo_server = (Err (Upstream "connection refused"), s') ∧
    Forall (λ e, sh_hash e ≠ hash_to_hex (block_hash demo_child)) (pd_shares (st_data (ps_store demo_server))) ∧
    ∃ block bits, block_hash demo_child = block_pow_hash block ∧ check_pow (block_pow_hash block) bits = true.
Proof.
  destruct (run_split (demo_process unreachable) demo_server _ demo_unreachable) as (s' & E & E2). exists s'. split; [exact E|].
  split; [constructor|]. unfold demo_process in E.
  destruct (credited_share_is_work demo_pool_config 2000 2000 2000 2000 unreachable None None demo_solution demo_worker "rig"
    demo_server _ s' E) as [Hs|(job & job1 & issued & s1 & block & bits & address & Hj & _ & Hb & _ & _ & _ & _ & _ & _ & _ & Hc & _)].
  - rewrite <- E2 in Hs. destruct (demo_recorded Hs).
  - injection Hj as <-. exists block, bits. split; [|exact Hc]. vm_compute in Hb. injection Hb as <-. vm_compute. reflexivity.
Defined.

Lemma demo_keeps_shares : 0 < st_max_shares (ps_store demo_server).
Proof. vm_compute. reflexivity. Qed.

Lemma unsent_block_is_lost_witness :
  ∃ s1 hash, (demo_process unreachable demo_server).2 = s1 ∧ ∀ upstream, demo_process upstream s1 =
    (Ok (mkResponse MINING_PROTOCOL_VERSION PendingLocal "job" hash None
       (Some "share already recorded (duplicate hash ignored)"%string)), s1).
Proof.
  destruct (run_split (demo_process unreachable) demo_server _ demo_unreachable) as (s' & E & E2).
  unfold demo_process in E.
  destruct (unsent_block_is_lost demo_pool_config 2000 2000 2000 2000 unreachable None None demo_solution demo_worker "rig"
    demo_server _ s' demo_keeps_shares E (or_introl (ex_intro _ _ eq_refl))) as (job & hash & Hj & Hall).
  injection Hj as <-. exists s', hash. split; [exact E2|]. intros upstream.
  refine (Hall 2000 2000 2000 2000 upstream None None (mr_mix_hash demo_solution) eq_refl eq_refl _).
  right. eexists. vm_compute. reflexivity.
Defined.

(** ** The pool server answering requests: a share that finds a block, the node's
    confirmation of it, an administrator and an impostor.  The instances of the
    theorems of PoolSettings.v and PoolViewsTheory.v. *)

(** ** The configuration *)

Definition demo_settings : PoolSettings := {|
  pf_bind_host := "127.0.0.1"; pf_bind_port := 9000; pf_network_id := network_id Devnet; pf_status_label := "Devnet";
  pf_pool_name := "Demo"; pf_pool_address := pc_pool_address demo_pool_config; pf_upstream_rpc_url := "http://127.0.0.1:8080/";
  pf_public_url := "http://127.0.0.1"; pf_data_dir := "data"; pf_admin_token_file := "token"; pf_share_bits := 4;
  pf_vardiff_enabled := true; pf_min_share_bits := 2; pf_max_share_bits := 6; pf_target_share_seconds := 20;
  pf_vardiff_window_shares := 16; pf_share_network_gap_bits := 1; pf_pool_fee_basis_points := 100;
  pf_pplns_window_shares := 100; pf_block_maturity_confirmations := 10; pf_minimum_payout_atomic := 1;
  pf_job_cache_seconds := 15; pf_hashrate_window_seconds := 60; pf_worker_timeout_seconds := 300;
  pf_max_stored_shares := 1000; pf_max_workers_per_address := 16; pf_max_work_requests_per_minute := 30;
  pf_max_share_requests_per_minute := 100; pf_invalid_share_ban_threshold := 5; pf_ban_seconds := 600;
  pf_cors_allowed_origins := []; pf_allow_public_pool_prototype := false |}.

(** ** The requests *)

(** A node that accepts the pool's block and serves it at its height. *)
Definition demo_block_hash : string := hash_to_hex (block_hash demo_child).
Definition demo_http (tip : Z) : UpstreamHttp string := {|
  uh_template := λ _ _, Err "busy"%string;
  uh_submit := λ _ r, Ok (mkUpstreamAnswer 200 (Ok (mkResponse MINING_PROTOCOL_VERSION Accepted (mr_template_id r)
    demo_block_hash (Some (bh_height (header demo_child))) None)));
  uh_value := λ _, Err "busy"%string;
  uh_tip := λ _, Ok (mkUpstreamAnswer 200 (Ok (Some tip)));
  uh_block := λ _, Ok (mkUpstreamAnswer 200 (Ok demo_block_hash)) |}.

Definition demo_miner : Sender := mkSender (Some (V4 [10; 0; 0; 7])) (Some "127.0.0.1"%string) None.
Definition demo_impostor : Sender := mkSender (Some (V4 [127; 0; 0; 1])) None (Some "Bearer guess"%string).
Definition demo_admin : Sender := mkSender (Some (V4 [127; 0; 0; 1])) None (Some "Bearer secret"%string).
(** The token file ends in a newline. *)
Definition demo_token : option string := Some (str_of_bytes (str_bytes "secret" ++ ["010"%byte])).

Definition demo_serve (tip : Z) (request : PoolRequest) : PoolServer → result PoolError PoolReply * PoolServer :=
  pool_handle demo_settings (λ _, None) (λ _ _, None) (λ v, Some v) (λ _, None) uint_to_string demo_token (demo_http tip) request.

Definition found_block : PoolRequest := PostShare demo_miner (mkTimes 2000 2000 2000 2000 2000 2000) None None demo_solution.
Definition impostor_prepares : PoolRequest := PostPrepare demo_impostor "p1" 2100 None.
Definition status_page : PoolRequest := GetStatus 2050 None None.

Definition server_start : PoolServer := mkServer demo_server (mkHealth false None).
Definition server_found : PoolServer := (demo_serve 0 found_block server_start).2.
Definition server_matured : PoolServer := (demo_serve 20 status_page server_found).2.
Definition server_refused : PoolServer := (demo_serve 20 impostor_prepares server_matured).2.

(** The block is found and matures; the impostor is refused, the administrator
    prepares a payout. *)
Example server_runs :
  is_ok (demo_serve 0 found_block server_start).1 = true ∧
  (pb_status <$> pd_blocks (st_data (ps_store (sv_state server_matured)))) = [Mature] ∧
  (demo_serve 20 impostor_prepares server_matured).1 = Err Unauthorized ∧
  is_ok (demo_serve 20 (PostPrepare demo_admin "p1" 2100 None) server_matured).1 = true ∧
  length (pd_payouts (st_data (ps_store (sv_state (demo_serve 20 (PostPrepare demo_admin "p1" 2100 None) server_matured).2)))) = 1%nat.
Proof. vm_compute. repeat split. Qed.

Lemma impostor_not_authorised : ¬ authorised demo_token impostor_prepares.
Proof. intros (expected & [= <-] & E). vm_compute in E. discriminate. Qed.

Lemma demo_unauthorised_run :
  unauthorised_run (λ _, None) demo_settings (λ (_ _ : string), None) (λ v, Some v) (λ _, None) uint_to_string demo_token
    server_start server_refused.
Proof.
  apply (ur_next _ _ _ _ _ _ _ _ server_matured (demo_http 20) impostor_prepares); [|exact impostor_not_authorised].
  apply (ur_next _ _ _ _ _ _ _ _ server_found (demo_http 20) status_page); [|intros []].
  apply (ur_next _ _ _ _ _ _ _ _ server_start (demo_http 0) found_block); [|intros []].
  apply ur_done.
Qed.

Lemma payouts_need_token_witness :
  pd_payouts (st_data (ps_store (sv_state server_refused))) = pd_payouts (st_data (ps_store (sv_state server_start))) ∧
  ab_mature (account demo_worker (pd_accounts (st_data (ps_store (sv_state server_refused))))) > 0.
Proof.
  split; [|vm_compute; reflexivity].
  exact (proj1 (payouts_need_token (λ _, None) demo_settings (λ (_ _ : string), None) (λ v, Some v) (λ _, None) uint_to_string
    demo_token server_start server_refused demo_unauthorised_run)).
Defined.

(** ** Validation and the status page *)

Example demo_settings_network :
  pool_config_validate (λ _, Ok "http"%string) demo_settings = Err (Config "pool currently supports veiron-mainnet-candidate only").
Proof. vm_compute. reflexivity. Qed.

Example status_rows :
  (λ w, (wv_miner_address w, wv_accepted_shares w, wv_blocks_found w, wv_online w)) <$>
    pv_workers (status_view demo_settings 2050 server_matured) = [(demo_worker, 1, 1, true)].
Proof. vm_compute. reflexivity. Qed.
