(* ===== verification/ExamplesIndexer.v ===== *)
(** The gateway and the indexer on the concrete devnet node and history: instances of
    the theorems of GatewayTheory.v and IndexerTheory.v. *)

From S2P Require Import Prelude RustStd Interfaces Crypto Errors Network Amount Signing Address Transaction Block Pow Consensus State Ledger Chain Genesis NodeConfig GenesisApproval Storage Mempool Node NodeOps NodeMine NodeTheory MinerWork GatewayConfig Gateway GatewayTheory Toy Examples ExamplesNode ExamplesFiles Indexer IndexerTheory GatewayIndexer.

Definition demo_rpc : RpcConfig := {|
  rc_bind_host := "127.0.0.1"; rc_bind_port := 8080; rc_network := Devnet; rc_network_id := network_id Devnet;
  rc_human_name := human_name Devnet; rc_status_label := status_label Devnet; rc_address_prefix := address_prefix Devnet;
  rc_chain_data_path := "chain"; rc_indexer_data_path := "index"; rc_mempool_data_path := "mempool";
  rc_public_rpc_allowed := false; rc_access_mode := Local; rc_expose_mining_endpoints := None;
  rc_max_mempool_transactions := 1024; rc_max_request_body_bytes := 65536; rc_cors_allowed_origin := "http://localhost";
  rc_cors_allowed_origins := []; rc_explorer_static_path := "static"; rc_allow_mainnet_candidate := false |}.

Definition demo_gateway (templates : gmap string StoredMiningTemplate) : GatewayState := mkGateway templates None demo_node.

(** ** Issuing work *)

Definition demo_work_op : gateway MiningTemplateResponse :=
  mining_template map_to_list dev_env demo_clock 2000 2000 2000 8 "id1" (demo_addr demo_sk1).
Lemma demo_work_ok : is_ok (demo_work_op (demo_gateway ∅)).1 = true.
Proof. vm_compute. reflexivity. Qed.
Lemma demo_miner_parses : Address_parse (demo_addr demo_sk1) = Ok demo_address.
Proof. vm_compute. reflexivity. Qed.
Lemma demo_miner_network : addr_network demo_address = cfg_network dev_config.
Proof. vm_compute. reflexivity. Qed.

Lemma issued_template_builds_witness :
  ∃ resp s' b, demo_work_op (demo_gateway ∅) = (Ok resp, s') ∧
    validate_and_build 2000 (demo_addr demo_sk1) (template_of_response resp) = Ok b.
Proof.
  destruct (run_is_ok demo_work_op _ demo_work_ok) as (resp & s' & E). unfold demo_work_op in *.
  assert (str_trim "id1" ≠ ""%string) as Hid by (vm_compute; discriminate).
  destruct (issued_template_builds map_to_list (λ m, reflexivity _) dev_env demo_clock 2000 2000 2000 8 "id1"
    (demo_addr demo_sk1) demo_address (demo_gateway ∅) resp s' dev_config (map_Forall_empty _) Hid demo_miner_parses
    dev_config_loads demo_miner_network ltac:(vm_compute; congruence) E) as (_ & _ & st & _ & _ & _ & Hlt & Hb).
  exists resp, s', (sm_block st). split; [exact E | exact (Hb 2000 Hlt)].
Defined.

(** ** Submitting a solution *)

Definition demo_stored : StoredMiningTemplate := mkStored 3000 demo_child (demo_addr demo_sk1).
Definition demo_serving : GatewayState := demo_gateway {["t1"%string := demo_stored]}.
Definition demo_nonce : Z := bh_nonce (header demo_child).
Definition demo_mix : Hash := bh_mix_hash (header demo_child).

Lemma demo_final_wf : hash_wf (block_hash demo_child).
Proof. vm_compute. reflexivity. Qed.
Lemma demo_mix_wf : hash_wf demo_mix.
Proof. vm_compute. reflexivity. Qed.
Lemma demo_solved : set_nonce_mix demo_nonce demo_mix demo_child = demo_child.
Proof. vm_compute. reflexivity. Qed.
Lemma demo_short : Z.of_nat (length (ch_blocks demo_chain1)) < 2 ^ 63.
Proof. vm_compute. reflexivity. Qed.
Lemma demo_fresh : block_hash (set_nonce_mix demo_nonce demo_mix demo_child) ∉ block_hash <$> ch_blocks demo_chain1.
Proof. apply (bool_decide_unpack _). vm_compute. exact I. Qed.
Lemma demo_solved_wf : block_wf (set_nonce_mix demo_nonce demo_mix demo_child).
Proof. rewrite demo_solved. exact demo_child_wf. Qed.

Lemma mining_submit_spec_witness :
  ∃ resp s', mining_submit dev_env demo_clock 2000 2000 true
      (gateway_request (MiningSubmitRequest_from_solution "t1" demo_nonce (block_hash demo_child) demo_mix)) demo_serving =
      (Ok resp, s') ∧ gw_templates s' !! "t1"%string = None.
Proof.
  destruct (mining_submit_spec dev_env dev_config dev_config_loads dev_dir_allowed demo_clock 2000 2000 true demo_serving
    demo_chain1 "t1" demo_stored demo_nonce (block_hash demo_child) demo_mix
    (set_nonce_mix demo_nonce demo_mix demo_child) eq_refl eq_refl demo_final_wf demo_mix_wf eq_refl demo_node_ok demo_solved_wf demo_clock_ok1 demo_short demo_fresh) as (resp & s' & E & Hn & _).
  exact (ex_intro _ resp (ex_intro _ s' (conj E Hn))).
Defined.

(** ** Queries *)

Lemma demo_no_cache fp : cache_ok fp (demo_gateway ∅) demo_chain1.
Proof. intros cached Hc. discriminate Hc. Qed.
Lemma demo_rpc_network : rc_network demo_rpc = cfg_network dev_config.
Proof. vm_compute. reflexivity. Qed.

Lemma queries_report_chain_witness :
  (blocks_by_height demo_rpc "db" (0, 0, (0, 0)) demo_clock 7 (demo_gateway ∅)).1 =
    Err (NotFoundError "block at height 7 not found").
Proof.
  destruct (queries_report_chain dev_env dev_config demo_rpc "db" (0, 0, (0, 0)) demo_rpc_network demo_clock (demo_gateway ∅)
    demo_chain1 demo_node_ok (demo_no_cache _) demo_clock_ok1) as (Hq & _).
  assert (0 <= 7) as H7 by (vm_compute; congruence).
  rewrite (Hq 7 H7), demo_chain1_blocks. vm_compute. reflexivity.
Defined.

Lemma demo_stores2 : stores (demo_db [demo_genesis; demo_child]) (ch_blocks demo_chain2).
Proof.
  rewrite demo_chain2_blocks. split; [reflexivity | exact demo_linked2 | vm_compute; congruence | exact demo_hashes_distinct].
Qed.

Lemma demo_stored_nonempty1 : ch_blocks demo_chain1 ≠ [].
Proof. rewrite demo_chain1_blocks. discriminate. Qed.
Lemma demo_stored_nonempty2 : ch_blocks demo_chain2 ≠ [].
Proof. rewrite demo_chain2_blocks. discriminate. Qed.

Lemma two_blocks (g k b0 b : Block) :
  block_hash g ≠ block_hash k → b0 = g ∨ False → b = g ∨ b = k ∨ False → block_hash b0 = block_hash b → b0 = b.
Proof.
  intros Hne [E0|[]] [E|[E|[]]] Heq; rewrite E0, E in *; [reflexivity | destruct (Hne Heq)].
Qed.

Lemma demo_no_clash : no_clash demo_chain2 demo_chain1.
Proof.
  intros b0 b. rewrite demo_chain1_blocks, demo_chain2_blocks, !elem_of_cons, !elem_of_nil.
  pose proof demo_hashes_distinct as Hd. apply NoDup_cons in Hd as [Hd _].
  assert (block_hash demo_genesis ≠ block_hash demo_child) as Hne
    by (intros Heq; apply Hd; rewrite Heq; by left).
  exact (two_blocks demo_genesis demo_child b0 b Hne).
Qed.

Lemma demo_index1 : is_ok (index_of Devnet demo_chain1) = true.
Proof. vm_compute. reflexivity. Qed.
Lemma demo_index2 : is_ok (index_of Devnet demo_chain2) = true.
Proof. vm_compute. reflexivity. Qed.

(** The index of the chain before the last block is brought up to it. *)
Lemma sync_reaches_chain_witness :
  ∃ old index, index_of Devnet demo_chain1 = Ok old ∧ index_of Devnet demo_chain2 = Ok index ∧
    ensure_index_matches_chain "db" (demo_db [demo_genesis; demo_child]) "index" demo_clock None (index_file old)
      = (Ok index, index_file index).
Proof.
  pose proof demo_index1 as H1. destruct (index_of Devnet demo_chain1) as [old|e] eqn:Eold; [|discriminate H1].
  destruct (sync_reaches_chain Devnet "db" (demo_db [demo_genesis; demo_child]) "index" demo_clock demo_chain2
    demo_chain2_reachable demo_stored_nonempty2 demo_stores2 demo_clock_ok2 (index_file old)) as (index & Hi & _ & Hs & _).
  { right. exact (ex_intro _ demo_chain1 (ex_intro _ old (conj eq_refl (conj demo_chain1_reachable
      (conj demo_stored_nonempty1 (conj demo_no_clash Eold)))))). }
  exact (ex_intro _ old (ex_intro _ index (conj eq_refl (conj Hi Hs)))).
Defined.

Lemma index_reconciles_witness :
  ∃ index, index_of Devnet demo_chain2 = Ok index ∧
    aa_balance_atomic (activity (demo_addr demo_sk1) (im_addresses (ix_maps index)))
      = balance_of (ch_state demo_chain2) (demo_addr demo_sk1).
Proof.
  pose proof demo_index2 as H1. destruct (index_of Devnet demo_chain2) as [index|e] eqn:E; [|discriminate H1].
  exists index. split; [reflexivity|].
  exact (proj1 (proj2 (index_reconciles Devnet demo_chain2 index (demo_addr demo_sk1) demo_chain2_reachable E))).
Defined.

(** ** The explorer of the gateway on the concrete devnet node: instances of the
    theorems of GatewayIndexer.v. *)

Definition demo_explorer (f : IndexFile) : ExplorerState := mkExplorer (demo_gateway ∅) None f.

Lemma demo_no_index_cache fp f : index_cache_ok fp (demo_explorer f).
Proof. intros cached Hc. discriminate Hc. Qed.
Lemma demo_network_devnet : cfg_network dev_config = Devnet.
Proof. vm_compute. reflexivity. Qed.

Lemma synced_index_reported_witness :
  ∃ index st, index_of Devnet demo_chain1 = Ok index ∧
    (rpc_indexer_status demo_rpc "db" (0, 0, (0, 0)) demo_clock "index/index.json" (1, 2) (demo_explorer (index_file index))).1 = Ok st ∧
    xs_in_sync st = true.
Proof.
  pose proof demo_index1 as H1. destruct (index_of Devnet demo_chain1) as [index|e] eqn:E; [|discriminate H1].
  destruct (synced_index_reported dev_env dev_config demo_rpc "db" (0, 0, (0, 0)) demo_rpc_network "index/index.json" (1, 2)
    demo_clock (demo_explorer (index_file index)) demo_chain1 index demo_node_ok (demo_no_cache _) demo_clock_ok1
    (demo_no_index_cache _ _) (eq_trans (f_equal (λ n, index_of n demo_chain1) demo_network_devnet) E) eq_refl)
    as ((st & Hst & _ & Hsync & _) & _).
  exact (ex_intro _ index (ex_intro _ st (conj eq_refl (conj Hst Hsync)))).
Defined.

(** The transactions of the two-block history, one to a page. *)
Lemma transaction_pages_witness :
  ∃ index pages, index_of Devnet demo_chain2 = Ok index ∧ length pages = 5%nat ∧
    mjoin (pg_items <$> pages) ≡ₚ (map_to_list (im_transactions_by_hash (ix_maps index))).*2.
Proof.
  pose proof demo_index2 as H2. destruct (index_of Devnet demo_chain2) as [index|e] eqn:E; [|discriminate H2].
  assert (Z.of_nat (size (im_transactions_by_hash (ix_maps index))) <= Z.of_nat 5 * 1) as Hsize.
  { assert (match index_of Devnet demo_chain2 with Ok i => Z.of_nat (size (im_transactions_by_hash (ix_maps i))) <=? 5 | Err _ => false end = true)
      as Hs by (vm_compute; reflexivity). rewrite E in Hs. apply Z.leb_le. exact Hs. }
  destruct (transaction_pages "index/index.json" (1, 2) (demo_explorer (index_file index)) index 1 5
    (demo_no_index_cache _ _) eq_refl ltac:(vm_compute; split; congruence) Hsize) as (pages & Hp & _ & Hitems & _).
  exact (ex_intro _ index (ex_intro _ pages (conj eq_refl (conj (eq_sym (Forall2_length _ _ _ Hp)) Hitems)))).
Defined.
