(* ===== verification/ExamplesWallet.v ===== *)
(** Wallets and SDK transfers over the toy primitives, with toy instances of the
    phrase, derivation and file-encryption crates.  The witnesses of the theorems
    of SdkTheory.v, WalletStorage.v and WalletTheory.v are instances on them. *)

From S2P Require Import Prelude RustStd Interfaces Crypto Errors Network Amount Signing Address Transaction Block Pow Consensus State Ledger Chain Genesis NodeConfig GenesisApproval Storage Mempool Node NodeOps NodeMine NodeTheory Seed Spend Pool Gateway Sdk SdkClient SdkTheory WalletStorage Wallet WalletTheory Toy Examples ExamplesNode ExamplesFiles ExamplesIndexer HostProtocol HostCli HostTheory ExamplesPool.

(** * Toy crates *)

#[export] Instance toy_seed : SeedPrimitives := {|
  Mnemonic := string;
  mnemonic_to_string m := m;
  mnemonic_parse s := Ok s;
  mnemonic_to_seed m p := toy_digest (str_bytes m ++ str_bytes p);
  hmac_sha512 k d := Ok (toy_digest (k ++ d) ++ toy_digest (d ++ k));
|}.

#[export] Instance toy_seed_ok : SeedPrimitivesOk.
Proof.
  split; [done|]. intros k d. eexists; split; [done|]. by rewrite length_app, !toy_digest_length.
Qed.

Definition toy_mask (key nonce m : bytes) : bytes := key ++ nonce ++ m.

#[export] Instance toy_wallet : WalletPrimitives := {|
  argon2id pass salt := Ok (toy_digest (pass ++ salt));
  aes256gcm_encrypt key nonce m := Some (toy_mask key nonce m);
  aes256gcm_decrypt key nonce c :=
    let plain := drop (length key + length nonce) c in
    if bool_decide (c = toy_mask key nonce plain) then Some plain else None;
  b64_encode := bytes_to_hex;
  b64_decode s := map_err VireonError_fmt (parse_hex_loop (str_bytes s));
|}.

#[export] Instance toy_wallet_ok : WalletPrimitivesOk.
Proof.
  split.
  - intros. by eexists.
  - intros key nonce m c _ [= <-]. cbn [aes256gcm_decrypt toy_wallet]. cbv zeta.
    assert (drop (length key + length nonce) (toy_mask key nonce m) = m) as ->.
    { unfold toy_mask. rewrite app_assoc, <- length_app. apply drop_app_length. }
    by rewrite bool_decide_eq_true_2.
  - intros b. cbn [b64_decode b64_encode toy_wallet]. unfold bytes_to_hex.
    by rewrite str_bytes_of_bytes, parse_hex_loop_hex.
Qed.

(** * Keys from phrases *)

Lemma from_mnemonic_iff_witness :
  ∃ sk, derive_private_key_from_mnemonic "abandon about" "" (mkPath 0 0 1) = Ok sk.
Proof.
  apply (from_mnemonic_iff "abandon about" "" (mkPath 0 0 1)); [vm_compute; split_and!; done|].
  split; [by exists "abandon about"%string | vm_compute; split_and!; done].
Defined.

(** * The wallet file *)

Definition demo_nonce12 : bytes := replicate 12 x05.
Definition demo_salt : bytes := replicate 16 x06.

(** A main-network wallet, encrypted under the environment's passphrase. *)
Definition demo_write_op : state_result WalletFile WalletError StoredWallet :=
  write_wallet_with_metadata_passphrase (Some "secret"%string) demo_salt demo_nonce12 (Ok ()) Written demo_sk1
    MainnetCandidate None None None None None.
Lemma demo_write_ok : is_ok (demo_write_op FileAbsent).1 = true.
Proof. vm_compute. reflexivity. Qed.

Lemma demo_sk1_length : length demo_sk1 = PrivateKey_SIZE.
Proof. done. Qed.
Lemma demo_nonce12_length : length demo_nonce12 = 12%nat.
Proof. done. Qed.

Lemma wallet_roundtrip_witness :
  ∃ w file, demo_write_op FileAbsent = (Ok w, file) ∧ load_wallet "wallets" file = Ok w ∧
    sw_private_key_hex w = None ∧ private_key_from_wallet (Some "secret"%string) w = Ok demo_sk1.
Proof.
  destruct (run_is_ok demo_write_op _ demo_write_ok) as (w & file & E). unfold demo_write_op in E.
  destruct (wallet_roundtrip (Some "secret"%string) demo_salt demo_nonce12 (Ok ()) Written demo_sk1
    MainnetCandidate None None None None None "wallets" FileAbsent w file demo_sk1_length demo_nonce12_length E)
    as (Hl & Hw & Hk).
  exact (ex_intro _ w (ex_intro _ file (conj E (conj Hl (conj (ww_plain _ _ _ Hw) Hk))))).
Defined.

(** * A spend of the devnet wallet *)

Definition demo_devnet_op : state_result WalletFile WalletError StoredWallet :=
  write_wallet_with_metadata_passphrase None demo_salt demo_nonce12 (Ok ()) Written demo_sk1 Devnet
    None None None None None.
Lemma demo_devnet_ok : is_ok (demo_devnet_op FileAbsent).1 = true.
Proof. vm_compute. reflexivity. Qed.

Definition demo_sign_op (file : WalletFile) : state_result TxFiles WalletError SignedTxFile :=
  sign_tx None demo_clock demo_clock (Ok ()) Written "wallets" file "signed-txs" "db"
    (demo_db [demo_genesis; demo_child]) (demo_addr demo_sk2) "0.00001" "0.00000002".
Lemma demo_sign_ok : is_ok (demo_sign_op (demo_devnet_op FileAbsent).2 ∅).1 = true.
Proof. vm_compute. reflexivity. Qed.

Lemma demo_chain2_nonempty : ch_blocks demo_chain2 ≠ [].
Proof. intros E. apply (f_equal length) in E. vm_compute in E. discriminate. Qed.
Lemma demo_chain2_few : few_transactions demo_chain2.
Proof. vm_compute. done. Qed.
Lemma demo_to_short : is_u32 (str_len (demo_addr demo_sk2)).
Proof. vm_compute. split; done. Qed.

Lemma signed_file_taken_witness :
  ∃ f files, demo_sign_op (demo_devnet_op FileAbsent).2 ∅ = (Ok f, files) ∧
    verify_tx (stf_path f) files = Ok (stf_transaction f) ∧ stf_tx_hash f = tx_hash_hex (stf_transaction f).
Proof.
  destruct (run_is_ok demo_devnet_op _ demo_devnet_ok) as (w & file & E).
  pose proof demo_sign_ok as Es. rewrite E in Es. rewrite E. cbn [snd] in *.
  destruct (run_is_ok (demo_sign_op file) _ Es) as (f & files & Ef). rewrite Ef. unfold demo_sign_op in Ef.
  unfold demo_devnet_op in E.
  destruct (written_loads None demo_salt demo_nonce12 (Ok ()) Written demo_sk1 Devnet None None None None None
    "wallets" FileAbsent w file demo_sk1_length demo_nonce12_length E) as (Hl & Hw & Hk).
  destruct (signed_file_taken None demo_clock demo_clock (Ok ()) Written "wallets" file "signed-txs" "db"
    (demo_db [demo_genesis; demo_child]) (demo_addr demo_sk2) "0.00001" "0.00000002" ∅ f files Devnet demo_chain2
    demo_sk1 w demo_chain2_reachable demo_chain2_nonempty demo_stores2 demo_chain2_few demo_sk1_length Hl Hw Hk
    demo_to_short Ef) as (Hv & Hh & _).
  exact (ex_intro _ f (ex_intro _ files (conj eq_refl (conj Hv Hh)))).
Defined.

(** * A transfer through the SDK *)

Definition demo_account : WalletAccount :=
  mkAccount Devnet demo_sk1 (from_public_key_for_network (PrivateKey_public_key demo_sk1) Devnet) None.
Lemma demo_account_ok : account_ok demo_account.
Proof. by split. Qed.

Definition demo_account_view : AddressAccountResponse :=
  address_account_response demo_chain2 (Address_to_string (wa_address demo_account)) [] (anticipated demo_chain2).
Lemma demo_view_funds :
  1000 + aar_anticipated_base_fee_atomic demo_account_view + 2 <= aar_balance_atomic demo_account_view.
Proof. apply Z.leb_le. vm_compute. reflexivity. Qed.

Lemma sdk_transfer_taken_witness :
  ∃ st, transfer Devnet (Address_to_string demo_address2) 1000 (aar_next_nonce demo_account_view)
    (aar_anticipated_base_fee_atomic demo_account_view) 2 demo_account = Ok st.
Proof.
  destruct (sdk_transfer_taken demo_now demo_now demo_now demo_now Devnet demo_chain2 100 demo_account
    demo_address2 1000 2 demo_chain2_reachable ltac:(lia) demo_account_ok eq_refl demo_address2_wf eq_refl
    ltac:(lia) ltac:(lia) demo_view_funds) as (st & Hst & _).
  exact (ex_intro _ st Hst).
Defined.

(** * The client *)

(** A server whose answers do not change, and the decoders of two response types
    that read a height. *)
#[export] Instance demo_json_value : JsonValue := {| Value := string |}.
#[export] Instance demo_from_tip : FromJson SdkChainTipResponse := λ body,
  match parse_uint 64 body with Some h => Ok {| ctr_height := h; ctr_hash := "" |} | None => Err "tip"%string end.
Definition demo_sdk_block (h : Z) : SdkBlockResponse :=
  {| sbk_network_id := None; sbk_height := h; sbk_hash := ""; sbk_previous_hash := ""; sbk_merkle_root := "";
     sbk_base_fee_atomic := 1; sbk_timestamp := 0; sbk_nonce := 0; sbk_difficulty_leading_zero_bits := 0;
     sbk_transaction_count := 0; sbk_transactions := [] |}.
#[export] Instance demo_from_block : FromJson SdkBlockResponse := λ body,
  match parse_uint 64 body with Some h => Ok (demo_sdk_block h) | None => Err "block"%string end.

Definition demo_server (request : HttpRequest Transaction) (w : ()) : result string HttpAnswer * () :=
  (Ok (match request with
       | Get url =>
           if bool_decide (url = "http://n/chain/tip"%string) then mkAnswer 200 (Ok "2"%string)
           else if bool_decide (url = "http://n/blocks/2"%string) then mkAnswer 200 (Ok "2"%string)
           else mkAnswer 404 (Ok "not found"%string)
       | Post _ _ => mkAnswer 405 (Ok ""%string)
       end), w).

Example demo_recent_blocks :
  client_recent_blocks demo_server (with_rpc Devnet "http://n/") 5 () = (Ok [demo_sdk_block 2], ()).
Proof. vm_compute. reflexivity. Qed.

(** ** The browser host on concrete requests: a wallet is created, locked, unlocked
    and asked for a transfer.  The instances of the theorems of HostTheory.v. *)

#[export] Instance demo_to_json T : ToJson T := λ _, Ok JNull.

Definition demo_host_config : SdkConfig := with_rpc Devnet "http://n/".
Definition refuses {T} : SdkResult T := Err (SdkRpc "offline").
Definition demo_snapshot (a : string) : SdkAddressAccountResponse :=
  {| sar_address := a; sar_exists := true; sar_balance_atomic := 1000000; sar_next_nonce := 3; sar_tip_hash := None;
     sar_tip_height := None; sar_anticipated_base_fee_atomic := 1 |}.
Definition demo_rpc : HostRpc := {|
  hc_status := refuses; hc_tip := Ok {| ctr_height := 7; ctr_hash := "" |}; hc_sync_status := refuses; hc_mempool_status := refuses;
  hc_supply := refuses; hc_block_latest := refuses; hc_block_by_height _ := refuses; hc_block_by_hash _ := refuses;
  hc_recent_blocks _ := refuses; hc_transaction _ := refuses; hc_indexer_status := refuses; hc_indexer_summary := refuses;
  hc_indexer_block_latest := refuses; hc_indexer_address _ := refuses; hc_balance _ := refuses;
  hc_account a := Ok (demo_snapshot a); hc_submit _ := refuses |}.

(** The user consents to every summary. *)
Definition demo_env : HostEnv := {|
  he_rpc := demo_rpc; he_confirm _ := Ok (); he_drawn _ := Ok "abandon about"%string; he_salt := demo_salt; he_nonce := demo_nonce12;
  he_made := Ok (); he_written := Written; he_removed := Ok () |}.

Definition asks_host (method : string) (params : list (string * JsonTree)) : HostEnv * Request :=
  (demo_env, mkRequestOf (JNumber 1) method (JObject params)).
Definition demo_pass : list (string * JsonTree) := [("passphrase", JString "long enough")]%string.
Definition demo_transfer : list (string * JsonTree) :=
  [("to", JString (demo_addr demo_sk2)); ("amount_vire", JString "0.00000001"); ("amount_atomic", JNumber 900000)]%string.

Definition demo_host_requests : list (HostEnv * Request) :=
  [asks_host "create_wallet" demo_pass; asks_host "lock" []; asks_host "send" demo_transfer; asks_host "unlock" demo_pass;
   asks_host "prepare_and_sign" demo_transfer].

Definition locked_host : HostState := mkHost None KeystoreAbsent [].
Definition demo_host : HostState :=
  host_run (λ _, JNull) (λ _, Err "no transaction"%string) "0.1.0" demo_host_config "wallets" true demo_host_requests locked_host.

(** Only the request after the unlocking is signed. *)
Lemma demo_signed_one : length (hs_signed demo_host) = 1%nat.
Proof. vm_compute. reflexivity. Qed.
Lemma demo_signed_some : ∃ e, hs_signed demo_host = [e].
Proof. pose proof demo_signed_one as Hl. destruct (hs_signed demo_host) as [|e [|]]; try discriminate Hl. by exists e. Qed.

Lemma transfers_signed_in_session_witness :
  ∃ e, e ∈ hs_signed demo_host ∧ ∃ before q after a, demo_host_requests = before ++ q :: after ∧
    prepare_signed demo_host_config (he_rpc q.1) a (rq_params q.2) = Ok e.2.
Proof.
  destruct demo_signed_some as [e He]. exists e.
  assert (e ∈ hs_signed demo_host) as Hin by (rewrite He; apply list_elem_of_here). split; [exact Hin|].
  destruct (transfers_signed_in_session (λ _, JNull) (λ _, Err "no transaction"%string) "0.1.0" demo_host_config "wallets" true
    locked_host demo_host_requests e eq_refl eq_refl Hin) as (before & q & after & a & Hq & _ & _ & _ & Hp).
  exists before, q, after, a. split; [exact Hq | exact Hp].
Defined.

(** The summary says 0.00000001 VIRE; 900000 atomic units are signed. *)
Definition demo_prepared : host SignedTransfer := prepare_signed demo_host_config demo_rpc demo_account (JObject demo_transfer).
Lemma demo_prepared_ok : is_ok demo_prepared = true.
Proof. vm_compute. reflexivity. Qed.

Lemma confirmed_amount_differs_witness :
  shown_amount (JObject demo_transfer) = "0.00000001"%string ∧
  ∃ t, demo_prepared = Ok t ∧ tx_amount (st_transaction t) = 900000.
Proof.
  split; [vm_compute; reflexivity|]. pose proof demo_prepared_ok as Hok. destruct demo_prepared as [t|e] eqn:E; [|discriminate Hok].
  exists t. split; [reflexivity|]. unfold demo_prepared in E.
  exact (proj2 (confirmed_amount_differs demo_host_config demo_rpc demo_account (JObject demo_transfer) t "0.00000001" 900000
    demo_account_ok E eq_refl eq_refl)).
Defined.
