(* ===== verification/ExamplesP2p.v ===== *)
(** The peer-to-peer service on the concrete devnet node: instances of the
    theorems of P2pTheory.v and P2pSync.v. *)

From S2P Require Import Prelude RustStd Interfaces Crypto Errors Network Amount Signing Address Transaction Block Pow Consensus State Ledger Chain Genesis NodeConfig GenesisApproval Storage Mempool Node NodeOps NodeMine NodeTheory Reputation P2p P2pService P2pTheory P2pSync Toy Examples ExamplesNode ExamplesFiles.

Definition idle_status : P2pStatus := mkStatus false None None None None None.
Definition demo_service (node : NodeState) : P2pState := mkP2p node ∅ ∅ idle_status ∅ ∅ ∅ [] [] [].

Lemma demo_tables node : tables_ok dev_config (demo_service node).
Proof. split; [apply map_Forall_empty.. | vm_compute; congruence | apply map_Forall_empty]. Qed.

(** A peer connects and sends a block nobody asked for. *)
Definition demo_hello : PeerHello :=
  mkHello P2P_PROTOCOL_VERSION (cfg_network_id dev_config) (cfg_chain_magic_hex dev_config)
    (hash_to_hex (block_hash demo_genesis)) 1 (hash_to_hex (block_hash demo_child)) "512" true false 0.
Definition demo_connected : P2pState :=
  connection_established dev_env dev_config None 1000 "peer" "address" true (demo_service demo_node).
Definition demo_io : FileInputs := {|
  fi_submit := λ _, (demo_clock, demo_now, true); fi_build := demo_clock; fi_adopt := (demo_clock, demo_clock, 5, 2000);
  fi_observed := Ok [demo_genesis]; fi_pool_io := Ok () |}.
Definition demo_unsolicited : P2pState :=
  receive_response dev_env dev_config None 1001 demo_io "peer" (RespBlocks demo_hello [demo_child]) demo_connected.

Lemma demo_run : rtc (p2p_step dev_env dev_config "self" Ok) (demo_service demo_node) demo_unsolicited.
Proof.
  eapply rtc_l; [exact (ps_established _ _ _ _ _ None 1000 "peer" "address" true)|]. apply rtc_once.
  refine (ps_response _ _ _ _ _ None 1001 demo_io "peer" (RespBlocks demo_hello [demo_child]) _ _).
  - split; vm_compute; congruence.
  - exact (proj2 (Forall_singleton _ _) demo_child_wf).
Qed.

Lemma p2p_runs_safely_witness :
  tables_ok dev_config demo_unsolicited ∧
  ∃ c', node_ok dev_env dev_config (px_node demo_unsolicited) c' ∧ improves demo_chain1 c'.
Proof.
  exact (p2p_runs_safely dev_env dev_config dev_config_loads dev_dir_allowed "self" Ok (demo_service demo_node)
    demo_chain1 demo_unsolicited (demo_tables demo_node) demo_node_ok demo_run).
Defined.

(** The unsolicited block costs its sender twenty points. *)
Lemma demo_unsolicited_scored : score_of "peer" (px_reputation demo_unsolicited) = 30.
Proof. vm_compute. reflexivity. Qed.

(** ** Locators *)

Lemma block_locator_spec_witness :
  ∃ l, block_locator [demo_genesis; demo_child] = Some l ∧ descent [demo_genesis; demo_child] 1 l.
Proof.
  destruct (block_locator_spec [demo_genesis; demo_child] demo_linked2 demo_nonempty2) as (l & Hl & Hd & _).
  exact (ex_intro _ l (conj Hl Hd)).
Defined.

Definition demo_locator : list BlockLocatorEntry := [mkLocator 0 (hash_to_hex (block_hash demo_genesis))].
Lemma demo_locator_eq : block_locator [demo_genesis] = Some demo_locator.
Proof. vm_compute. reflexivity. Qed.
Definition demo_ahead : NodeState := mkNode (demo_db [demo_genesis; demo_child]) [].
Lemma demo_ahead_loads : stored_blocks dev_env demo_ahead = Ok [demo_genesis; demo_child].
Proof. vm_compute. reflexivity. Qed.
Lemma demo_common0 : common_at [demo_genesis] [demo_genesis; demo_child] 0.
Proof. exact (ex_intro _ demo_genesis (ex_intro _ demo_genesis (conj eq_refl (conj eq_refl eq_refl)))). Qed.

Lemma common_ancestor_answered_witness :
  answer dev_env demo_ahead demo_hello (ReqFindAncestor demo_hello demo_locator) = CommonAncestor demo_hello 0.
Proof.
  destruct (common_ancestor_answered dev_env demo_ahead [demo_genesis; demo_child] [demo_genesis] demo_hello demo_hello
    demo_locator demo_ahead_loads demo_linked1 demo_nonempty1 demo_common0 demo_locator_eq) as (i & Hi & _ & Htip).
  rewrite Hi, (Htip demo_common0). reflexivity.
Defined.

(** ** Catching up *)

(** The peer is one block ahead. *)
Lemma demo_ahead_ok : node_ok dev_env dev_config demo_ahead demo_chain2.
Proof.
  split.
  - exact demo_chain2_reachable.
  - rewrite demo_chain2_blocks. exact demo_nonempty2.
  - exact (dev_genesis_accepted _).
  - rewrite demo_chain2_blocks. split; [reflexivity | exact demo_linked2 | vm_compute; congruence | exact demo_hashes_distinct].
  - split; constructor.
  - constructor.
Qed.

Lemma demo_at_prefix : at_prefix dev_env dev_config demo_chain2 1 (demo_service demo_node).
Proof.
  exists demo_chain1. split; [exact demo_node_ok|]. rewrite demo_chain1_blocks, demo_chain2_blocks. reflexivity.
Qed.

Lemma demo_late i : late demo_chain2 ((λ _ : nat, demo_io) i).
Proof.
  intros e. cbn [demo_io fi_submit]. split; [exact demo_clock_ok2|]. intros b. rewrite demo_chain2_blocks.
  assert (Forall (λ b, bh_timestamp (header b) <= Z.min (demo_now + 7200) (umax 64)) [demo_genesis; demo_child]) as Hf
    by (repeat constructor; vm_compute; congruence).
  rewrite Forall_forall in Hf. apply Hf.
Qed.

Lemma demo_chain2_light : Forall (λ b, bh_difficulty (header b) < 128) (ch_blocks demo_chain2).
Proof. rewrite demo_chain2_blocks. repeat constructor; vm_compute; reflexivity. Qed.
Lemma demo_chain2_work : total_work (ch_blocks demo_chain2) <= umax 128.
Proof. rewrite demo_chain2_blocks. vm_compute. congruence. Qed.
Lemma demo_chain2_short : Z.of_nat (length (ch_blocks demo_chain2)) <= 2 ^ 62.
Proof. rewrite demo_chain2_blocks. vm_compute. congruence. Qed.
Lemma demo_chain2_distinct : NoDup (block_hash <$> ch_blocks demo_chain2).
Proof. rewrite demo_chain2_blocks. exact demo_hashes_distinct. Qed.
Lemma demo_behind : (1 < length (ch_blocks demo_chain2))%nat.
Proof. rewrite demo_chain2_blocks. vm_compute. apply le_n. Qed.
Lemma demo_free : Z.of_nat (size (px_peers (demo_service demo_node))) < cfg_max_peers dev_config.
Proof. vm_compute. reflexivity. Qed.

(** A codec whose messages take a fixed number of bytes for each block, header and
    locator entry. *)
Definition demo_wire : SyncWire := {|
  sw_request_len q := match q with ReqFindAncestor _ l => 512 + 128 * Z.of_nat (length l) | _ => 512 end;
  sw_response_len r := match r with
    | RespBlocks _ bs => 512 + 200000 * Z.of_nat (length bs)
    | RespHeaders _ hs => 512 + 256 * Z.of_nat (length hs)
    | _ => 512
    end;
  sw_failure _ := "Failed to receive response" |}.

Abbreviation demo_fits := (fits dev_env dev_config None "self" (demo_service demo_ahead) demo_wire).
Definition demo_within (q : SyncRequest) : bool :=
  (sw_request_len demo_wire q <=? REQUEST_SIZE_MAXIMUM)
  && (sw_response_len demo_wire (honest dev_env dev_config None "self" (demo_service demo_ahead) q) <=? RESPONSE_SIZE_MAXIMUM).

Lemma demo_chain2_length : length (ch_blocks demo_chain2) = 2%nat.
Proof. rewrite demo_chain2_blocks. reflexivity. Qed.

Lemma demo_requests_fit q :
  learns dev_config None demo_chain2 1 q ∨ fetches dev_config None demo_chain2 1 q → demo_fits q.
Proof.
  intros Hq. enough (demo_within q = true) as [H1%Z.leb_le H2%Z.leb_le]%andb_true_iff by by split.
  destruct Hq as [[|l Hl|i Hi]|[i Hi]].
  - vm_compute. reflexivity.
  - rewrite demo_chain2_blocks in Hl. change (take 1 [demo_genesis; demo_child]) with [demo_genesis] in Hl.
    rewrite demo_locator_eq in Hl. injection Hl as <-. vm_compute. reflexivity.
  - rewrite demo_chain2_length in Hi. assert (i = 0%nat) as -> by lia. vm_compute. reflexivity.
  - rewrite demo_chain2_length in Hi. assert (i = 0%nat) as -> by lia. vm_compute. reflexivity.
Qed.

Lemma demo_no_resume : resumes_by 1 (demo_service demo_node).
Proof. intros r. discriminate. Qed.

Lemma lagging_node_catches_up_witness :
  ∃ m, synced dev_env dev_config "peer" demo_chain2
    (rounds dev_env dev_env dev_config dev_config None None "self" (demo_service demo_ahead) demo_wire (λ _, 1000)
       (λ _, 3) (λ _, demo_io) 0 m
       (connection_established dev_env dev_config None 1000 "peer" "address" true (demo_service demo_node))).
Proof.
  destruct (lagging_node_catches_up dev_env dev_env dev_config dev_config dev_config_loads dev_dir_allowed eq_refl eq_refl
    eq_refl None None "self" "peer" (demo_service demo_ahead) demo_chain2 demo_ahead_ok
    demo_chain2_light demo_chain2_work demo_chain2_short demo_chain2_distinct demo_wire (λ _, 1000) (λ _, 3) (λ _, demo_io)
    1000 "address" 1%nat (demo_service demo_node) demo_at_prefix demo_behind demo_no_resume demo_free eq_refl demo_late
    (λ _, eq_refl) demo_requests_fit) as (m & _ & Hs).
  exact (ex_intro _ m Hs).
Defined.
