(* ===== verification/ExamplesMiner.v ===== *)
(** The mining loop on concrete inputs: the instances of the theorems of
    MinerTheory.v. *)

From S2P Require Import Prelude RustStd Interfaces Crypto Errors Network Amount Signing Address Transaction Block Pow Consensus Genesis MinerWork Pool PoolApp PoolAppTheory Sdk MinerSettings MinerLoop MinerTheory Toy Examples ExamplesPool.

Definition demo_miner_config : MinerConfig :=
  mkMinerConfig 4 demo_worker 100 5 10 None None "cuda" 75 0 [] true (SourcePool "http://pool" "rig" 10).

Definition no_http : MinerHttp := {|
  mh_get _ _ := Err "offline"%string; mh_post _ _ := Err "offline"%string;
  mh_template _ := Err "no body"%string; mh_response _ := Err "no body"%string |}.
Definition demo_source : WorkSource := PoolWorkSource no_http "http://pool" demo_worker "rig".

(** The device finds the block's own nonce when its lease holds it. *)
Definition demo_device (job : MiningJob) : result MinerError (option MiningSolution) :=
  let nonce := bh_nonce (header demo_child) in
  if (mj_start_nonce job <=? nonce) && (nonce <? mj_start_nonce job + mj_max_nonces job)
  then match pow_hash_with_nonce demo_child nonce with
       | Ok out => Ok (Some (mkSolution nonce (final_hash out) (mix_hash out) 1 "cuda:0"))
       | Err e => Err (MinerCore e)
       end
  else Ok None.

(** A pool that takes every share as recorded. *)
Definition demo_answer (r : MiningSubmitRequest) : result MinerError MiningSubmitResponse :=
  Ok (mkResponse MINING_PROTOCOL_VERSION PendingLocal (mr_template_id r) (mr_block_hash r) None None).

Definition demo_metrics : BackendMetrics := mkMetrics 0 0 0 0 1 None.
Definition demo_turn (refresh : bool) (fetched : result MinerError MiningTemplate) : Turn := {|
  tu_refresh_due := refresh; tu_fetched := fetched; tu_now := 2000; tu_mined := demo_device; tu_metrics := demo_metrics;
  tu_submit := demo_answer; tu_status_due := false; tu_saved := Ok () |}.

(** Work is fetched and mined; the next refresh fails; then the template comes back
    under another id. *)
Definition demo_turns : list Turn :=
  [demo_turn true (Ok demo_template); demo_turn true (Err (MinerRpc "offline")); demo_turn true (Ok (reissued "job2" 4000 demo_template))].

Definition demo_run : MinerState := (mine_loop demo_miner_config demo_source false demo_turns miner_start).2.

Lemma demo_device_within : Forall within_leases demo_turns.
Proof.
  assert (∀ refresh fetched, within_leases (demo_turn refresh fetched)) as Hw.
  { intros refresh fetched j sol Hm _ _. cbn [tu_mined demo_turn] in Hm. unfold demo_device in Hm. cbv zeta in Hm.
    destruct (_ && _) eqn:E; [|discriminate]. apply andb_true_iff in E as [E1%Z.leb_le E2%Z.ltb_lt].
    destruct (pow_hash_with_nonce _ _); [|discriminate]. injection Hm as <-. by split. }
  repeat (apply Forall_cons_2; [apply Hw|]). apply Forall_nil_2.
Qed.

Lemma demo_run_once :
  (mine_loop demo_miner_config demo_source true demo_turns miner_start).1 = Ok Done.
Proof. vm_compute. reflexivity. Qed.

Lemma mine_ends_witness :
  ∃ s', mine_loop demo_miner_config demo_source true demo_turns miner_start = (Ok Done, s') ∧
    ∃ turn e, turn ∈ demo_turns ∧ last (mi_sent s') = Some e ∧ taken turn e.2.
Proof.
  destruct (run_split (mine_loop demo_miner_config demo_source true demo_turns) miner_start _ demo_run_once) as (s' & E & _).
  exists s'. split; [exact E|]. destruct (mine_ends demo_miner_config demo_source true demo_turns _ _ E) as (_ & turn & e & Hin & Hl & _ & Ht).
  exists turn, e. split; [exact Hin | split; [exact Hl | exact Ht]].
Defined.

Definition demo_jobs : list (string * MiningJob) := mi_jobs demo_run.
Definition demo_first : MiningJob := default (mkJobOf "" demo_child 0 0 0) (snd <$> head demo_jobs).
Definition demo_third : MiningJob := default (mkJobOf "" demo_child 0 0 0) (snd <$> demo_jobs !! 2%nat).

Lemma demo_same_work : Forall (λ e, e.1 = work_fingerprint demo_template ∧ lease_ok e.2) demo_jobs.
Proof.
  assert (forallb (λ e, bool_decide (e.1 = work_fingerprint demo_template) && (0 <=? mj_start_nonce e.2)
    && (mj_start_nonce e.2 + mj_max_nonces e.2 <? 2 ^ 64)) demo_jobs = true) as Hall by (vm_compute; reflexivity).
  apply forallb_is_Forall in Hall. eapply Forall_impl; [exact Hall|]. intros e He. cbn beta in He.
  apply andb_true_iff in He as [[He1 He2]%andb_true_iff He3]. apply bool_decide_eq_true in He1. apply Z.leb_le in He2. apply Z.ltb_lt in He3.
  split; [exact He1 | split; [exact He2 | exact He3]].
Qed.

Lemma leases_contiguous_witness :
  mj_template_id demo_first = "job"%string ∧ mj_template_id demo_third = "job2"%string ∧
  mj_start_nonce demo_third = mj_start_nonce demo_first + 2 * 100.
Proof.
  split; [vm_compute; reflexivity|]. split; [vm_compute; reflexivity|].
  refine (proj1 (leases_contiguous demo_miner_config demo_source false demo_turns [] demo_jobs [] (work_fingerprint demo_template)
    demo_first 2 demo_third demo_device_within _ demo_same_work _ _)).
  - unfold demo_jobs, demo_run. rewrite app_nil_r, app_nil_l. reflexivity.
  - vm_compute. reflexivity.
  - vm_compute. reflexivity.
Defined.

(** ** Miner and pool *)

Definition empty_server : PoolState := mkPoolState (PoolStore_load None 1000) ∅ None demo_admission.
Definition demo_work : app MiningTemplate :=
  work demo_pool_config None 2000 (Ok demo_template) demo_worker "rig".
Definition demo_served : PoolState := (demo_work empty_server).2.
Definition served_template : MiningTemplate := with_share_difficulty (Some 4) demo_template.

Lemma demo_served_ok : (demo_work empty_server).1 = Ok served_template.
Proof. vm_compute. reflexivity. Qed.

Definition demo_sent : MiningSubmitRequest :=
  default demo_solution (snd <$> head (mi_sent demo_run)).
(** In between another worker asks for work, for which the pool fetches the template
    again. *)
Definition demo_other_work : app MiningTemplate :=
  work demo_pool_config (Some "10.0.0.9") 2030 (Ok demo_template) demo_worker "other".
Definition demo_later (s : PoolState) : PoolState := (demo_other_work s).2.
Definition demo_credit : app MiningSubmitResponse :=
  submit_share demo_pool_config (Some "10.0.0.8") 2040 2040 2040 2040 2040 2040 unreachable None None
    (PoolWorkSource_request demo_worker "rig" demo_sent).

Lemma demo_found : pow_hash_with_nonce demo_child (bh_nonce (header demo_child)) =
  Ok {| final_hash := block_hash demo_child; mix_hash := bh_mix_hash (header demo_child) |}.
Proof. vm_compute. reflexivity. Qed.
Lemma demo_built : PoolWorkSource_validate_and_build 2000 served_template = Ok (set_nonce_mix (bh_nonce (header demo_child)) Hash_zero demo_child).
Proof. vm_compute. reflexivity. Qed.
Lemma demo_meets : check_pow (block_hash demo_child) (share_bits_of served_template) = true.
Proof. vm_compute. reflexivity. Qed.
Lemma demo_sent_is : demo_sent = MiningSubmitRequest_from_solution "job" (bh_nonce (header demo_child)) (block_hash demo_child) (bh_mix_hash (header demo_child)).
Proof. vm_compute. reflexivity. Qed.

Lemma demo_solves : solves served_template (set_nonce_mix (bh_nonce (header demo_child)) Hash_zero demo_child) demo_sent.
Proof.
  exists (bh_nonce (header demo_child)), {| final_hash := block_hash demo_child; mix_hash := bh_mix_hash (header demo_child) |}.
  split; [exact demo_found | split; [exact demo_meets | exact demo_sent_is]].
Qed.

Lemma demo_template_bits : is_u8 (mt_difficulty served_template).
Proof. vm_compute. split; congruence. Qed.

Lemma demo_credit_result : (demo_credit (demo_later demo_served)).1 = Err (Upstream "connection refused").
Proof. vm_compute. reflexivity. Qed.

Lemma demo_may_submit : client_may_submit demo_pool_config (Some "10.0.0.8") 2040 demo_worker "rig" (demo_later demo_served).
Proof.
  assert (forallb (λ key, (cl_banned_until (client_of key (ps_admission (demo_later demo_served))) <=? 2040)
    && (cl_share_requests (fresh_window 2040 (client_of key (ps_admission (demo_later demo_served))))
        <? pc_max_share_requests_per_minute demo_pool_config)) (admission_keys (Some "10.0.0.8") demo_worker "rig") = true) as Hall
    by (vm_compute; reflexivity).
  apply forallb_is_Forall in Hall. eapply Forall_impl; [exact Hall|]. intros key Hk. cbn beta in Hk.
  apply andb_true_iff in Hk as [H1%Z.leb_le H2%Z.ltb_lt]. split; [exact H1 | exact H2].
Qed.

Lemma demo_between : rtc (pool_step demo_pool_config served_template) demo_served (demo_later demo_served).
Proof.
  apply rtc_once. apply (step_work _ _ _ (Some "10.0.0.9") 2030 (Ok demo_template) demo_worker "other").
  - vm_compute. reflexivity.
  - intros t' [= <-] _. split; [reflexivity | apply Z.le_refl].
Qed.

Lemma pool_share_credited_witness :
  ∃ s3, demo_credit (demo_later demo_served) = (Err (Upstream "connection refused"), s3) ∧
    ∃ share, sh_miner_address share = demo_worker ∧ 4 <= sh_share_bits share.
Proof.
  destruct (run_split demo_work empty_server _ demo_served_ok) as (s1 & E1 & Es1).
  destruct (run_split demo_credit (demo_later demo_served) _ demo_credit_result) as (s3 & E3 & _). exists s3. split; [exact E3|].
  pose proof demo_between as Hlast. pose proof demo_may_submit as Hmay.
  remember (demo_later demo_served) as s2 eqn:Heq. clear Heq. unfold demo_served in Hlast. rewrite Es1 in Hlast. unfold demo_credit in E3. unfold demo_work in E1.
  destruct (pool_share_credited demo_pool_config None 2000 (Ok demo_template) demo_worker "rig" empty_server served_template s1 2000
    _ demo_sent s2 (Some "10.0.0.8") 2040 2040 2040 2040 2040 2040 unreachable None None _ s3 demo_bits_ok (map_Forall_empty _) E1
    demo_template_bits eq_refl demo_built demo_solves Hlast Hmay eq_refl eq_refl E3)
    as [(e & resp & _ & _ & _ & He & _)|(share & _ & Ha & _ & _ & Hb)]; [discriminate He|].
  exists share. split; [exact Ha | exact Hb].
Defined.
