(* ===== verification/ExamplesDesktop.v ===== *)
(** The release control plane, the desktop updates, the keystore helper and the desktop
    application on concrete requests, releases, wallets and polls, over the toy
    primitives: instances of the theorems of Fleet.v, Updates.v, KeystoreHelper.v,
    Desktop.v and DesktopRpc.v. *)

From S2P Require Import Prelude RustStd Interfaces Crypto Errors Network Amount Signing Address Transaction Seed Sdk SdkClient MobileCore Fleet Updates KeystoreHelper MinerWork MinerSettings WalletStorage Desktop DesktopRpc Toy Examples ExamplesWallet.

(** ** The fleet: the administrator invites a node, which enrolls; a second enrollment
    with the same token is refused. *)

Definition fleet_config : AdminConfig :=
  mkAdminConfig "127.0.0.1" 8090 "veiron-mainnet-candidate" "candidate" "controller" "vps.example" 26656
    "http://127.0.0.1:8080" "state" "https://example/bundle.tar.gz" None 15 900.
Definition fleet_env (token id : string) (now : Z) : FleetEnv := {|
  fe_docker := true; fe_clock _ := now; fe_status := LocalFailed "offline"; fe_sync := LocalFailed "offline";
  fe_p2p := LocalFailed "offline"; fe_mempool := LocalFailed "offline"; fe_indexer := LocalFailed "offline";
  fe_systemd := mkServices "unknown" "unknown" "unknown" "unknown";
  fe_random k := match k with O => token | _ => id end; fe_saved := Ok () |}.
Definition node_report : NodeReport :=
  mkReport "veiron-mainnet-candidate" "node-1" "node1.example" "/dns4/node1.example/tcp/26656" 100
    (mkServices "active" "active" "active" "active") JNull JNull JNull JNull JNull.
Definition no_floats (_ : string) : option Z := None.

Definition fleet_requests : list (FleetEnv * option string * FleetRequest) :=
  [(fleet_env "secret" "inv-1" 100, Some "1"%string,
    PostInvitation {| ir_node_name := "node-1"; ir_advertise_host := "node1.example"; ir_admin_domain := None; ir_acme_email := "a@b.c" |});
   (fleet_env "node-1" "node-token" 160, None, PostEnroll (mkEnrollment "secret" node_report));
   (fleet_env "node-2" "node-token" 170, None, PostEnroll (mkEnrollment "secret" node_report))].
Definition empty_fleet : FleetStore := mkStore (mkFleet [] []) FleetAbsent.
Definition demo_fleet : FleetStore := fleet_run no_floats fleet_config fleet_requests empty_fleet.

Lemma demo_fleet_nodes : fn_id <$> fd_nodes (fs_data demo_fleet) = ["node-1"%string].
Proof. vm_compute. reflexivity. Qed.

Lemma fleet_admission_witness :
  ∃ n, n ∈ fd_nodes (fs_data demo_fleet) ∧ fn_id n = "node-1"%string ∧
    enrolled_by no_floats fleet_config fleet_requests empty_fleet n.
Proof.
  pose proof demo_fleet_nodes as Hl. destruct (fd_nodes (fs_data demo_fleet)) as [|n l] eqn:En; [discriminate Hl|].
  injection Hl as Hid _. exists n. assert (n ∈ fd_nodes (fs_data demo_fleet)) as Hn by (rewrite En; apply list_elem_of_here).
  rewrite <- En. split; [exact Hn|]. split; [exact Hid|].
  exact (proj1 (fleet_admission no_floats fleet_config empty_fleet fleet_requests eq_refl) n Hn).
Defined.

(** ** An update: the miner of a newer release, with its checksums, is copied. *)

Definition miner_bytes : bytes := str_bytes "miner".
Definition miner_asset : GhAsset := mkAsset "vireon-miner-linux" "u1" 5.
Definition sums_asset : GhAsset := mkAsset "SHA256SUMS" "u2" 0.
Definition demo_sums : bytes := str_bytes (hash_to_hex (sha256 miner_bytes) ++ "  vireon-miner-linux")%string.
Definition demo_release (tag : string) : GhRelease := mkRelease tag None None false [miner_asset; sums_asset].
Definition update_env (fetched : bytes) : UpdateEnv := {|
  ue_platform := Linux; ue_package_version := "0.10.2"; ue_releases := Ok [demo_release "v0.10.3-rc.1"; demo_release "v0.10.2"];
  ue_stage_dir := "stage"; ue_stage_root := Ok (); ue_stage_made := Ok (); ue_client := Ok ();
  ue_fetch a := Ok (if bool_decide (as_name a = "SHA256SUMS"%string) then demo_sums else fetched);
  ue_staged _ := Ok (); ue_copy _ := CopyDone; ue_run _ := Ok (); ue_persisted := Ok ();
  ue_resources := Some ("res", "app")%string; ue_workspace := None |}.
Definition idle_app : UpdateWorld := mkUpdateWorld UpdateState_default false ∅ None [].

Example approved_update : download (update_env miner_bytes) idle_app =
  (Ok (), mkUpdateWorld (uw_state (download (update_env miner_bytes) idle_app).2) false
    (uw_stage (download (update_env miner_bytes) idle_app).2) (Some "v0.10.3-rc.1"%string) [Copied "res/bin/vireon-miner" miner_bytes]).
Proof. vm_compute. reflexivity. Qed.
Example tampered_update : let r := download (update_env (str_bytes "mined")) idle_app in
  is_err r.1 = true ∧ uw_effects r.2 = [] ∧ us_phase (uw_state r.2) = "downloading"%string.
Proof. vm_compute. split_and!; reflexivity. Qed.

(** A copy that fails part way leaves two bytes of the miner in the application's
    directory; the other target takes it, and the update counts as applied. *)
Definition torn_env : UpdateEnv :=
  let e := update_env miner_bytes in {|
  ue_platform := ue_platform e; ue_package_version := ue_package_version e; ue_releases := ue_releases e;
  ue_stage_dir := ue_stage_dir e; ue_stage_root := Ok (); ue_stage_made := Ok (); ue_client := Ok (); ue_fetch := ue_fetch e;
  ue_staged _ := Ok (); ue_copy target := if str_starts_with target "res" then CopyTorn 2 "no space left on device" else CopyDone;
  ue_run _ := Ok (); ue_persisted := Ok (); ue_resources := ue_resources e; ue_workspace := Some "ws"%string |}.
Lemma torn_copy_counts_as_installed :
  let r := download torn_env idle_app in
  r.1 = Ok () ∧ uw_applied_tag r.2 = Some "v0.10.3-rc.1"%string ∧
  uw_effects r.2 = [Torn "res/bin/vireon-miner" (str_bytes "mi"); Copied "ws/target/release/vireon-miner" miner_bytes;
    Copied "ws/vireon-desktop-tauri/src-tauri/resources/bin/vireon-miner" miner_bytes].
Proof. vm_compute. split_and!; reflexivity. Qed.

Lemma installs_checked_witness :
  let r := download (update_env miner_bytes) idle_app in
  uw_effects r.2 = [Copied "res/bin/vireon-miner" miner_bytes] ∧
  ∃ plan, latest_update (update_env miner_bytes) idle_app = Ok (Some plan) ∧
    checked_effect (update_env miner_bytes) plan idle_app r.1 r.2.
Proof.
  cbv zeta. pose proof approved_update as Ha. destruct (download (update_env miner_bytes) idle_app) as [r w] eqn:E.
  assert (uw_effects w = [Copied "res/bin/vireon-miner" miner_bytes]) as He by (injection Ha as _ ->; reflexivity).
  split; [exact He|].
  destruct (installs_checked (update_env miner_bytes) idle_app r w E eq_refl) as [_ [[Hno _]|Hyes]]; [|exact Hyes].
  rewrite He in Hno. discriminate Hno.
Defined.

(** ** The keystore helper: a wallet is stored, and a previewed transfer is signed. *)

Definition chain_account (a : string) : SdkAddressAccountResponse :=
  {| sar_address := a; sar_exists := true; sar_balance_atomic := 1000000; sar_next_nonce := 3; sar_tip_hash := Some "tip"%string;
     sar_tip_height := Some 9; sar_anticipated_base_fee_atomic := 1 |}.
Definition helper_env : HelperEnv := {|
  ke_data_dir := true; ke_copied := Ok (); ke_listing l := l; ke_made := Ok (); ke_metadata_write _ := AtomicWritten;
  ke_active_write := AtomicWritten; ke_metadata_removed := Ok (); ke_active_removed := Ok (); ke_key_set := Ok ();
  ke_key_deleted := true; ke_drawn _ := Ok "abandon about"%string; ke_shown := Ok true; ke_prompted := Ok "abandon about"%string;
  ke_client := Ok (); ke_account a := Ok (chain_account a);
  ke_submit t := Ok {| sb_tx_hash := hash_to_hex (tx_hash t); sb_lifecycle_status := "pending"; sb_mempool_size := 1 |};
  ke_rpc_url := "http://n" |}.
Definition fresh_helper : HelperState := mkHelper (mkTree None None None) None ∅.
Definition stored_wallet : hresult WalletMetadata * HelperState := persist_key helper_env demo_sk1 "bip39-created" "Primary wallet" fresh_helper.
Definition helper_wallet : WalletMetadata := metadata_of demo_sk1 "bip39-created" "Primary wallet".
Definition demo_recipient : string := Address_to_string (from_public_key_for_network (PrivateKey_public_key demo_sk2) MainnetCandidate).
Definition demo_preview : PreparedTransaction := mkPrepared demo_recipient "1000" "2" "1" "1003" "1000000" 3 "tip".

Example preview_is_prepared :
  (prepare_transaction helper_env demo_recipient "0.00001" "0.00000002" stored_wallet.2).1 = Ok demo_preview.
Proof. vm_compute. reflexivity. Qed.
Lemma stored_wallet_settled : settled helper_env helper_wallet stored_wallet.2.
Proof. vm_compute. reflexivity. Qed.
Lemma demo_submission_ok : is_ok (sign_and_submit helper_env demo_preview stored_wallet.2).1 = true.
Proof. vm_compute. reflexivity. Qed.

Lemma submitted_as_previewed_witness :
  ∃ tx response, (sign_and_submit helper_env demo_preview stored_wallet.2).1 = Ok (tx, response) ∧
    tx_to tx = demo_recipient ∧ Some (tx_amount tx) = Some 1000 ∧ tx_nonce tx = 3.
Proof.
  pose proof demo_submission_ok as Hok.
  destruct (sign_and_submit helper_env demo_preview stored_wallet.2) as [[[tx response]|e] s'] eqn:E; [|discriminate Hok].
  exists tx, response. split; [reflexivity|].
  destruct (submitted_as_previewed helper_env demo_preview helper_wallet stored_wallet.2 tx response s') as
    (account & base & _ & _ & _ & _ & _ & Hto & Ham & _ & _ & _ & _ & Hno & _).
  - intros a account [= <-]. cbn [chain_account sar_anticipated_base_fee_atomic]. unfold umax. lia.
  - exact stored_wallet_settled.
  - exact E.
  - split; [exact Hto|]. split; [|exact Hno]. rewrite <- Ham. vm_compute. reflexivity.
Defined.

(** With an older directory that holds the wallet and its key, the wallet is loaded
    again after its removal. *)
Definition older_helper : HelperState :=
  let '(_, s) := stored_wallet in
  mkHelper (hp_current s) (Some (mkTree None (tr_wallets (hp_current s)) None))
    (<[(LEGACY_SERVICE, wm_credential_account helper_wallet) := bytes_to_hex demo_sk1]> (hp_keys s)).
Example removed_wallet_is_loaded :
  let '(r, s) := remove_wallet helper_env older_helper in
  r = Ok () ∧ hp_keys s !! (SERVICE, wm_credential_account helper_wallet) = None ∧
  (load_metadata helper_env s).1 = Ok (Some helper_wallet) ∧
  (load_private_key helper_env (wm_credential_account helper_wallet) s).1 = Ok (bytes_to_hex demo_sk1).
Proof. vm_compute. split_and!; reflexivity. Qed.
Example removed_wallet_is_gone :
  let '(r, s) := remove_wallet helper_env stored_wallet.2 in
  r = Ok () ∧ (load_metadata helper_env s).1 = Ok None.
Proof. vm_compute. split_and!; reflexivity. Qed.

(** ** Mined blocks: the wallet's blocks of three polls, each announced once. *)

Definition no_json_text (_ : JsonTree) : string := "".
Definition listed_block (height : Z) (miner : string) : JsonTree :=
  JObject [("height", JNumber height); ("miner_address", JString miner); ("miner_reward_atomic", JString "5000000001")]%string.
Definition demo_polls : list (Z * list JsonTree) :=
  [(10, [listed_block 10 "me"]); (12, [listed_block 12 "me"; listed_block 11 "other"; listed_block 10 "me"]);
   (14, [listed_block 14 "me"; listed_block 13 "me"; listed_block 12 "me"])].
Definition announced_heights (polls : list (Z * list JsonTree)) : list (list Z) :=
  (λ l : list Announcement, an_height <$> l) <$> announced_run no_json_text "me" polls (mkNotify None false).

Lemma demo_polls_listed : well_listed demo_polls.
Proof.
  split; [repeat constructor; vm_compute; discriminate|].
  repeat constructor; try (vm_compute; discriminate); cbn; rewrite ?elem_of_cons, elem_of_nil; naive_solver.
Qed.

Lemma mined_blocks_announced_once_witness :
  announced_heights demo_polls = [[]; [12]; [14; 13]] ∧
  NoDup (an_height <$> concat (announced_run no_json_text "me" demo_polls (mkNotify None false))).
Proof.
  split; [vm_compute; reflexivity|].
  apply (mined_blocks_announced_once no_json_text "me" demo_polls demo_polls_listed); [done|].
  repeat constructor; vm_compute; discriminate.
Defined.

(** Without its assumptions a block is missed or announced twice: the index lags behind
    the status; the index is ahead of it; the status goes back. *)
Example lagging_index_misses_block :
  announced_heights [(10, []); (11, []); (12, [listed_block 12 "other"; listed_block 11 "me"])] = [[]; []; []].
Proof. vm_compute. reflexivity. Qed.
Example index_ahead_announces_twice :
  announced_heights [(10, []); (11, [listed_block 12 "me"]); (12, [listed_block 12 "me"])] = [[]; [12]; [12]].
Proof. vm_compute. reflexivity. Qed.
Example status_back_announces_twice :
  announced_heights [(10, []); (11, [listed_block 11 "me"]); (10, []); (11, [listed_block 11 "me"])] = [[]; [11]; []; [11]].
Proof. vm_compute. reflexivity. Qed.
Example announced_reward : an_body (announce no_json_text (listed_block 12 "me")) = "Block 12 was accepted. Reward: 50.00000001 VIRE."%string.
Proof. vm_compute. reflexivity. Qed.

(** ** The miner: a start over a running miner, a start without its binary, and the
    answers of a pool that is not reached. *)

Definition process_env (get : string → GetOutcome) (binary : app_result string) : ProcessEnv := {|
  pe_settings := AppSettings_default; pe_roots := Ok ("ws", "local")%string; pe_workspace := Ok "ws"%string;
  pe_alive _ _ := true; pe_clock _ := 500; pe_clients := Ok (); pe_get := get; pe_dirs := Ok (); pe_config_written := Written;
  pe_metrics_written := true; pe_pid_removed := true; pe_binary := binary; pe_log_written := Written;
  pe_err_log_written := Written; pe_logs_opened := Ok (); pe_spawned := Ok 42; pe_pid_written := Written;
  pe_exit_logs := ("", "")%string; pe_script _ := ScriptMissing "vireon.sh" |}.
Definition answering (_ : string) : GetOutcome := GetAnswered 200 "200 OK" "{}".
Definition running_miner : ProcessWorld := mkProcesses {["miner" := "41"]}%string None None ∅ [].
Definition start_outcome (get : string → GetOutcome) (binary : app_result string) (w : ProcessWorld) : bool * list Signal * option string :=
  let '(r, w) := start_remote_miner (process_env get binary) (Some "vire1me"%string) None w in
  (is_ok r, pw_signals w, pw_metrics w ≫= get_str "status").

Example start_replaces_miner : start_outcome answering (Ok "bin"%string) running_miner =
  (true, [Terminated "41"; SweptMiners; Spawned "bin" "local/miner/config.toml"], Some "starting"%string).
Proof. vm_compute. reflexivity. Qed.
Example start_without_binary : start_outcome answering (Err "no binary"%string) (mkProcesses ∅ None None ∅ []) =
  (false, [], Some "starting"%string).
Proof. vm_compute. reflexivity. Qed.
Example start_without_pool : start_outcome (λ _, GetFailed "refused") (Ok "bin"%string) running_miner = (false, [], None).
Proof. vm_compute. reflexivity. Qed.

(** A default pool without its scheme is listed beside itself. *)
Example bare_pool_listed_twice : pool_list ["pool.example"%string] "pool.example" = ["pool.example"; "https://pool.example"]%string.
Proof. vm_compute. reflexivity. Qed.
(** Operator output whose cut falls inside a character. *)
Example long_output_panics :
  trimmed_output (str_of_bytes (byte_of_Z 195 :: byte_of_Z 169 :: repeat (byte_of_Z 97) (Z.to_nat 11999))) = Err PANIC.
Proof. vm_compute. reflexivity. Qed.
(** Any text in an answer's body decides whether the request is made again. *)
Example body_decides_retry :
  let once (_ : nat) := OnceStatus "404 Not Found" "block 4290 unknown" in
  retryable "RPC returned 404 Not Found: block 4290 unknown" = true ∧
  retryable "RPC returned 500 Internal Server Error: busy" = false ∧ is_err (request true once) = true.
Proof. vm_compute. split_and!; reflexivity. Qed.
